(* ===== verification/_CoqProject ===== *)
-Q . S2P
Prelude.v
Errors.v
Messages.v
Normalize.v
TurnMessages.v
Execution.v
Schema.v
Tool.v
Inference.v
Stores.v
ConversationMemory.v
ExecutionMemory.v
EventSink.v
State.v
ToolBatch.v
ToolExec.v
Engine.v
Structured.v
Recovery.v
BatchProps.v
Protocol.v
Reason.v
Claims.v
Once.v
Outcomes.v
Sample.v
RateStore.v
RateProps.v
RateTokens.v
RateLedger.v
RateLimiter.v
LimiterProps.v
ContextManagers.v
MessageCodec.v
Fallback.v
Compose.v
Ranking.v
Chunks.v
Retrieval.v
RetrievalProps.v
SemanticMemory.v
Construct.v
McpPool.v
SqlConversation.v
SqlProps.v
SqlState.v
ExecutionBackends.v
Base64.v
NetAddr.v
TextScrub.v
UrlFetch.v
WebFetch.v
Providers.v
Anthropic.v
OpenAI.v
Bedrock.v
ProviderProps.v
Decimal.v
RedisServer.v
RedisRate.v
RedisRateProps.v
RedisTokens.v
RedisConversation.v
RedisConversationProps.v
GoStruct.v
RedisSchema.v
RedisQuery.v
RedisMemory.v
RedisQueryProps.v
RedisMemoryProps.v
RedisMemoryRuns.v
SqlText.v
PgMemory.v
PgMemoryProps.v
PgMemoryRuns.v
InvocationContext.v
