(* ===== verification/Prelude.v ===== *)
(** gude-agents: a verification development of the agent engine and the packages around it.

    * The program

    The repository (src/) is a Go library for agents that call a language model and
    tools in a loop.  Its core is package agent: an invocation prepares the messages
    of a turn (guardrails, history, retrieval), calls the provider, runs the tool
    calls of the answer and repeats, until the model gives a final answer, an
    iteration or token limit is hit, or a tool needs a human.  With an execution
    store the progress of a tool batch is durable: calls are planned, made ready with
    their canonical turn, claimed before their handler runs, and completed when their
    results are in the transcript, so that a crash can be recovered without running a
    side effect twice.  Conversations are append-only logs behind a compare-and-swap
    on their revision, executions are records behind a compare-and-swap on their
    version; both stores are interfaces with an in-process implementation and several
    durable ones.  Around the engine are the model providers, the rate limiter, context
    managers, memories, retrieval, the MCP client and the web fetch tool.

    * How the code is modelled

    Data are records and inductive types with the source's fields and constructors;
    pure functions are functions; Go errors are values of an inductive type with
    errors.Is along the wrapping chain.  The engine is a state transformer over [St]
    (State.v): the run, the invocation's runtime (usage, event sink, context error),
    a world [W] that holds everything outside the engine, and a trace of the effects
    performed, which no definition reads.  Code outside the engine (stores, provider,
    retriever, guardrails, guards, handlers, middleware, context manager, rate
    limiter, consumer, scheduler) is a function on the world and a parameter.
    Parallel tool calls are sequences of steps (check, claim, run) that an arbitrary
    schedule interleaves; a handler call itself is one step.  Integers that can
    overflow keep their width (cursors are uint64, u64 below); token counts and
    iterations are Z.

    Code that is not in the repository is a class: Hashing (SHA-256 and canonical
    JSON), JSONLib (encoding/json and fmt on values), ExecutionCodec (encoding/json on
    records), Texts (messages of errors), RollingCodec and MessageJSON (encoding/json on
    summaries and messages), MessageColumn (JSONB), Net (resolver, servers and URL
    parsing), RedisServer and RediSearch (what a server answers), PgServer (a text that
    reads as a statement has its effect), GoText, FieldJSON and UnicodeTables (fmt,
    encoding/json and package unicode on struct fields).  The rate limiter is proved
    against the interface Store (RateLimiter.v), the rolling summary against
    ContextStateLaws (ContextManagers.v), both with the in-process stores as instances.
    float64 is binary64 of the standard library's SpecFloat.  The store contracts are
    the classes ConversationLaws and ExecutionLaws (Stores.v) and FaithfulSave
    (Claims.v), stated from the interface documentation and proved for the in-process
    stores (ConversationMemory.v, ExecutionMemory.v; the sample store of Sample.v).

    * Files

    Engine.
    Prelude        record updates, results, word arithmetic, lists and options, hints
    Errors         errors.go, error codes of event.go
    Messages       provider.go, content.go, widget.go, filters of engine.go
    Normalize      normalize.go
    TurnMessages   turn_messages.go, persisted and prepareTurn of engine.go
    Execution      execution.go, interrupt.go
    Schema         validate.go and the meaning of the JSON Schema subset
    Tool           tool/tool.go, tool/rbac.go, tool/registry.go, identity.go,
                   tool_visibility.go, middleware.go
    Inference      inference_config.go
    Stores         the store interfaces and their contracts
    ConversationMemory, ExecutionMemory   the in-process stores
    EventSink      the event sink of event.go
    InvocationContext   context.go, identity.go over a heap with explicit sharing
    State          the state of an invocation and the monad
    ToolBatch      planning, claiming and completing a batch (engine.go)
    ToolExec       tool_exec.go, tool_batch.go, runParallel
    Engine         lifecycle, turns and the loop (engine.go)
    Structured     structured.go, capabilities.go
    Recovery       RecoverExecution, ReconcileToolExecution (engine.go), LoadInterrupt
    Construct      agent.go, options.go
    Compose        compose.go, Invoke: agents as tools
    BatchProps     plans and active batches
    Protocol       the record transitions as a step relation
    Reason         relations kept by every engine operation
    Claims         claim before effect
    Once           the engine refines the protocol machine; at most once
    Outcomes       one outcome per call; provider attempts; limiter leases
    Sample         a concrete agent that runs in the kernel; witnesses; requests

    Around the engine.
    RateStore      ratelimit/store.go: windows, leases, the in-process store
    RateProps, RateTokens, RateLedger   what a sliding window admits; lease accounting;
                   the token bound against a ledger of the callers
    RateLimiter    ratelimit/limiter.go, token_estimator.go, char_estimator.go
    LimiterProps   concurrency, termination and settlement of reservations
    ContextManagers   contextmanager/contextmanager.go
    MessageCodec   conversation/json_marshal.go
    Providers, Anthropic, OpenAI, Bedrock, ProviderProps   provider/: defaults, options and
                   catalogs, request parameters, message conversion, event loops
    Fallback       provider/fallback/fallback.go, CapabilitiesOf
    Base64, Decimal, TextScrub, NetAddr   encoding/base64, strconv, text cleaning, net/netip
    UrlFetch, WebFetch   the guarded media client of Bedrock; tool/webfetch/webfetch.go
    Ranking        cosine similarity and the stable sort by score
    Chunks         runes and SplitText (rag/rag.go)
    Retrieval, RetrievalProps   the vector store, retriever and Ingest (rag/rag.go)
    SemanticMemory   memory/memory.go, memory/store.go
    McpPool        mcp/mcp.go, mcp/pool.go: tools of a server, pool of sessions

    Durable backends.
    SqlConversation, SqlProps, SqlState   conversation/sqlite and conversation/postgres:
                   tables, statements, transactions and operations
    ExecutionBackends   execution/postgres, execution/redis, execution/dynamodb
    RedisServer    a key space with expiry, commands, atomic scripts
    RedisRate, RedisRateProps, RedisTokens   ratelimit/redis
    RedisConversation, RedisConversationProps   conversation/redis
    GoStruct, RedisSchema, RedisQuery, RedisMemory, RedisQueryProps, RedisMemoryProps,
    RedisMemoryRuns   memory/redis: schemas, queries, operations, tools
    SqlText, PgMemory, PgMemoryProps, PgMemoryRuns   memory/postgres

    * Theorems

    Durability (Protocol, Claims, Once).  The protocol machine holds a record, makes one
    protocol step per acknowledged save, and lets a claim be spent on one dispatch; the
    effects of every turn are a run of that machine, without steps in between that no
    save made.  A handler of a durable run is dispatched only after the store
    acknowledged the claim of that call under the same key; first dispatches are at most
    the claims, claims at most the plans and operator retries, and recovery adds none;
    the identity of a call never changes while its batch is active; idempotency keys
    determine execution and call.  Batches (BatchProps, Outcomes).  Planning and
    recognition are characterised by equivalences, what is planned is recognised, and
    outcomes come back one per call in order under every schedule.  Stores.  One winner
    per revision and version, round trips, isolation of derived state.  Messages.
    Normalisation, grouping, filters and the request.  Tool input.  Validation accepts
    exactly what an independent reading of the schema subset accepts.  Access.
    Registry, visibility, roles and attributes.  Contexts.  A clone shares no cell with
    its original but those the code means to share, and no operation on one context
    reaches another.  Delivery.  The sink refines a queue.  Bounds.  The loop makes at
    most maxIterations - iteration attempts (the fuel of [loop] is exactly that number,
    so that running out of it is the code's own limit), and every lease the limiter gave
    out is committed or released exactly once, as the log of calls to the limiter shows.

    Around the engine.  Rate limiting: a sliding window never admits more requests than
    its limit in any window nor, by a ledger that only sees calls and answers, more
    tokens; at most maxConcurrent attempts that were admitted and not ended are under way
    under every interleaving of the limiter's steps; Reserve ends.  Context managers: the
    rolling summary and the kept tail together cover the history and the cut never
    separates a tool call from its result.  Encoding: messages come back from their JSON,
    and only a raw message that is not JSON stops it.  Providers: the event loops
    assemble what was streamed, the conversions keep tool calls with their results, a
    fallback chain speaks with the voice of one provider and claims no more than all can
    do.  Fetching: against a network that answers as it likes the guarded client connects
    only to admitted addresses, a bounded number of times, and reads a bounded body (one
    unit of fuel is one request; 4 for Bedrock, max(1, maxRedirects) for the web tool, the
    limits of the code itself).  Agents as tools: child conversations are distinct, and a
    pause that the store acknowledged ends in an error and cannot be resumed.
    Construction: whatever the options, an agent that New returns is well configured.
    Retrieval: the chunks cover the text (the fuel of [split_loop] is the number of
    runes, since every round advances), the vector store is a map, search returns the
    best, ingestion replaces its sources.  Memory: entries stay with their identity and
    what is remembered is recalled.  MCP: the pool never exceeds its size, leases a
    session to one caller, loses none, and nobody sleeps once every session is back.

    Durable backends.  Statements may fail, acknowledgements may be lost and other
    writers may act between statements (the argument of a run says where).  An append
    of the SQL and Redis stores is atomic and a compare-and-swap; a load reads two
    moments; the first save of context state in PostgreSQL can be lost; the migration of
    the old layout keeps every message.  The execution backends refine the in-process
    store up to the numbers their databases count to.  The Redis rate limiter keeps
    request and token limits in every window, and a refused reservation can leave a
    counter closed.  The Redis memory: accepted schemas are well formed, values come back
    from replies of both protocol versions, filters cannot reach the tag of the tenant,
    and tenants are kept apart as far as the tags of RediSearch keep them apart (the fuel
    of [collectPagedKeys] is one unit per page, that of [delete_batches] one per batch).
    The PostgreSQL memory: statements mean what they are meant to, whatever the table and
    column names, and tenants are kept apart.

    * What is not modelled

    Observer callbacks, logs, metrics, traces and times (they do not feed back), the
    per-conversation mutex of one process (the model runs one invocation at a time;
    other processes act through the world), provider SDKs, the constructors of tools and
    of clients that work by reflection or open connections, prompt sources, the web
    search tools, embedders, the vector stores of other databases and the helpers of
    tests. *)
From stdpp Require Export base numbers list strings gmap.
From Stdlib Require Export ZArith NArith Lia.

(** * Record update

    Go code changes one field of a struct at a time.  A type with an eta
    expansion declared as [Settable] gets [set f g r] (field [f] of [r] mapped
    through [g]) and the notation [r <| f := v |>]. *)

Declare Scope gude_scope.
Delimit Scope gude_scope with gude.
Open Scope gude_scope.

Class Settable (R : Type) := eta_record : R -> R.

Class FieldOf {R T : Type} (f : R -> T) := set_field : (T -> T) -> R -> R.
Arguments set_field {R T} f {_} g r /.

Ltac field_of f :=
  lazymatch type of f with
  | ?R -> _ =>
      let inst := constr:(_ : Settable R) in
      let e := eval hnf in inst in
      let p := eval pattern f in e in
      lazymatch p with
      | ?k _ => exact (fun g r => k (fun x => g (f x)) r)
      end
  end.

#[export] Hint Extern 1 (FieldOf ?f) => field_of f : typeclass_instances.

Notation "r <| f := v |>" := (set_field f (fun _ => v) r)
  (at level 1, left associativity, f at level 9, v at level 200,
   format "r <| f  :=  v |>") : gude_scope.

(** * Machine integers

    [uint64] values are kept in [N] and [int]/[int64] values in [Z]; every
    arithmetic operation of the source that can leave the range is wrapped
    explicitly with [u64] or [i64]. *)

Definition u64 (n : N) : N := (n mod 18446744073709551616)%N.
Definition i64 (z : Z) : Z :=
  ((z + 9223372036854775808) mod 18446744073709551616 - 9223372036854775808)%Z.

(** [len xs] as Go's [uint64(len(xs))]. *)
Definition lenN {A} (xs : list A) : N := N.of_nat (length xs).

Lemma u64_small n : (n < 18446744073709551616)%N -> u64 n = n.
Proof. intros H. unfold u64. by apply N.mod_small. Qed.

Lemma u64_range n : (u64 n < 18446744073709551616)%N.
Proof. unfold u64. apply N.mod_upper_bound. lia. Qed.

Lemma u64_add_l a b : u64 (u64 a + b) = u64 (a + b).
Proof. unfold u64. by rewrite N.Div0.add_mod_idemp_l. Qed.

(** The line feed of a Go string literal. *)
Definition newline : string := String (Ascii.ascii_of_nat 10) "".

(** Two hexadecimal digits per byte. *)
Definition hex_digit (n : N) : Ascii.ascii :=
  Ascii.ascii_of_N (if bool_decide (n < 10)%N then 48 + n else 87 + n).
Definition hex_encode (bytes : list N) : string :=
  fold_right (fun b s => String (hex_digit (b / 16)) (String (hex_digit (b mod 16)) s)) "" bytes.

Lemma i64_small z :
  (-9223372036854775808 <= z < 9223372036854775808)%Z -> i64 z = z.
Proof. intros H. unfold i64. rewrite Z.mod_small; lia. Qed.

Lemma i64_range z : (-9223372036854775808 <= i64 z < 9223372036854775808)%Z.
Proof.
  unfold i64.
  pose proof (Z.mod_pos_bound (z + 9223372036854775808) 18446744073709551616).
  lia.
Qed.

Lemma lenN_app {A} (xs ys : list A) : lenN (xs ++ ys) = (lenN xs + lenN ys)%N.
Proof. unfold lenN. rewrite length_app. lia. Qed.

(** * Results

    A Go function that returns [(T, error)] with a zero [T] on failure is a
    [result]. *)

Inductive result (E A : Type) : Type :=
| Ok (a : A)
| Err (e : E).
Arguments Ok {E A} a.
Arguments Err {E A} e.

Definition is_ok {E A} (r : result E A) : bool :=
  match r with Ok _ => true | Err _ => false end.

Definition res_bind {E A B} (r : result E A) (k : A -> result E B) : result E B :=
  match r with Ok a => k a | Err e => Err e end.

(** [letr x := r in k] is the [if err != nil { return err }] idiom on pure code. *)
Notation "'letr' x := r 'in' k" := (res_bind r (fun x => k))
  (at level 10, x binder, r at level 100, k at level 200)
  : gude_scope.

Lemma res_bind_ok {E A B} (r : result E A) (k : A -> result E B) b :
  res_bind r k = Ok b -> exists a, r = Ok a /\ k a = Ok b.
Proof. destruct r; simpl; [eauto | done]. Qed.

(** * Booleans and options *)

Definition is_nil {A} (xs : list A) : bool :=
  match xs with [] => true | _ => false end.

Lemma is_nil_true {A} (xs : list A) : is_nil xs = true <-> xs = [].
Proof. by destruct xs. Qed.

Lemma is_nil_false {A} (xs : list A) : is_nil xs = false <-> xs <> [].
Proof. by destruct xs. Qed.

Notation "b1 &&& b2" := (andb b1 b2) (at level 40, left associativity, only parsing) : gude_scope.

(** * Tactics *)

(** [bool_hyps] turns boolean hypotheses built from [&&], [||], [negb] and
    [bool_decide] into propositions. *)
Ltac bool_hyps :=
  repeat match goal with
  | H : _ && _ = true |- _ => apply andb_true_iff in H as [? ?]
  | H : _ || _ = false |- _ => apply orb_false_iff in H as [? ?]
  | H : negb _ = true |- _ => apply negb_true_iff in H
  | H : negb _ = false |- _ => apply negb_false_iff in H
  | H : bool_decide _ = true |- _ => apply bool_decide_eq_true in H
  | H : bool_decide _ = false |- _ => apply bool_decide_eq_false in H
  | H : is_nil _ = true |- _ => apply is_nil_true in H
  | H : is_nil _ = false |- _ => apply is_nil_false in H
  end.

(** * Hint databases

    [gude] resolves the shared facts, [gude_rw] rewrites with them. *)
Create HintDb gude.
Create Rewrite HintDb gude_rw.
#[export] Hint Resolve u64_range i64_range : gude.
#[export] Hint Rewrite @lenN_app @length_app : gude_rw.

(** * Lists *)

(** Keep the last element of a list and what stands before it. *)
Fixpoint split_last {A} (x : A) (xs : list A) : list A * A :=
  match xs with
  | [] => ([], x)
  | y :: ys => let '(pre, z) := split_last y ys in (x :: pre, z)
  end.

Lemma filter_all {A} (f : A -> bool) (xs : list A) :
  Forall (fun x => f x = true) xs -> List.filter f xs = xs.
Proof. induction 1 as [|x xs Hx _ IH]; simpl; [done|]. by rewrite Hx, IH. Qed.

Lemma filter_idemp {A} (f : A -> bool) (xs : list A) :
  List.filter f (List.filter f xs) = List.filter f xs.
Proof.
  apply filter_all, Forall_forall. intros x Hx%list_elem_of_In.
  by apply List.filter_In in Hx as [_ ?].
Qed.

(** Sublists that keep order, as a boolean-free relation for "nothing invented,
    nothing reordered". *)
Lemma sublist_filter {A} (f : A -> bool) (xs : list A) : List.filter f xs `sublist_of` xs.
Proof.
  induction xs as [|x xs IH]; simpl; [constructor|].
  destruct (f x); by constructor.
Qed.

(** Go's search loops as quantifiers. *)
Lemma existsb_false {A} (f : A -> bool) xs :
  existsb f xs = false <-> forall x, x ∈ xs -> f x = false.
Proof.
  induction xs as [|x xs IH]; simpl; [split; [set_solver|done]|].
  rewrite orb_false_iff, IH. split; [|set_solver]. intros [? Hall] y [->|Hy]%elem_of_cons; auto.
Qed.

Lemma existsb_decide_true {A} (P : A -> Prop) `{forall x, Decision (P x)} xs :
  existsb (fun x => bool_decide (P x)) xs = true <-> exists x, x ∈ xs /\ P x.
Proof.
  rewrite existsb_exists. setoid_rewrite bool_decide_eq_true. by setoid_rewrite list_elem_of_In.
Qed.

Lemma existsb_decide_false {A} (P : A -> Prop) `{forall x, Decision (P x)} xs :
  existsb (fun x => bool_decide (P x)) xs = false <-> forall x, x ∈ xs -> ~ P x.
Proof. rewrite existsb_false. by setoid_rewrite bool_decide_eq_false. Qed.
