(* ===== verification/Errors.v ===== *)
(** Go errors as the engine uses them (agent/errors.go, agent/execution.go,
    agent/event.go, agent/tool/tool.go): sentinel values, typed errors, wrapping
    with %w, errors.Join, errors.Is and errors.As, and the classification of an
    error into the ErrorInfo code of a stream's last event. *)
From S2P Require Import Prelude.

(** The package-level error values that code compares against with errors.Is. *)
(* agent/errors.go:11-43: sentinel errors *)
Inductive Sentinel : Type :=
| ErrNilContext
| ErrRateLimitExceeded
| ErrRateLimitLeaseTerminal
| ErrRateLimitLeaseCrossTerminal
| ErrRateLimitLeaseUnknown
| ErrRateLimitLeaseExpired
| ErrTokenBudgetExceeded
| ErrMaxIterationsExceeded
| ErrConversationIDRequired
| ErrRetrieverRequired
| ErrStructuredOutputUnsupported
| ErrPauseStorageRequired
| ErrToolExecutionUncertain
| ErrExecutionRecoveryUnsupported
| ErrExecutionNotFound
| ErrExecutionConflict
| ErrNoExecutionStore
| ErrInterruptNotFound
| ErrConversationConflict
| ErrContextStateConflict
| ErrToolCallDenied
| ContextCanceled
| ContextDeadlineExceeded.

#[global] Instance Sentinel_eq_dec : EqDecision Sentinel.
Proof. solve_decision. Defined.

(** An error value.  [ENew] is errors.New or fmt.Errorf without %w (and any error
    of code outside the repository); [EWrap] is fmt.Errorf with one %w;
    [EJoin] is errors.Join of two non-nil errors; the others are the typed errors. *)
(* agent/errors.go:46-142: error values *)
Inductive error : Type :=
| ESentinel (s : Sentinel)
| ENew (msg : string)
| EWrap (msg : string) (cause : error)
| EJoin (e1 e2 : error)
(* agent/errors.go:48-57: ProviderError *)
| EProvider (cause : error)
(* agent/errors.go:77-89: ToolError *)
| ETool (tool_name : string) (cause : error)
(* agent/errors.go:93-105: GuardrailError *)
| EGuardrail (direction : string) (cause : error)
(* agent/errors.go:109-119: MaxIterationsError *)
| EMaxIterations (limit : Z)
(* agent/errors.go:125-142: StructuredOutputError *)
| EStructured (reason : string) (cause : option error)
(* agent/execution.go:121-131: ToolExecutionUncertainError *)
| EUncertain (execution_id call_id tool_name key : string)
(* agent/tool/tool.go:106-114: OutcomeUnknownError *)
| EOutcomeUnknown (cause : option error).

Abbreviation res := (result error).

(** The typed errors that errors.Is(err, &T{}) and errors.As look for. *)
Inductive ErrorKind : Type := KProvider | KGuardrail | KStructured | KOutcomeUnknown.

#[global] Instance ErrorKind_eq_dec : EqDecision ErrorKind.
Proof. solve_decision. Defined.

(* agent/errors.go:48-142: errors.Is along Unwrap, with the Is methods *)
Fixpoint errors_Is (e : error) (s : Sentinel) : bool :=
  match e with
  | ESentinel s' => bool_decide (s' = s)
  | ENew _ => false
  | EWrap _ c => errors_Is c s
  | EJoin e1 e2 => errors_Is e1 s || errors_Is e2 s
  | EProvider c | ETool _ c | EGuardrail _ c => errors_Is c s
  | EMaxIterations _ => bool_decide (s = ErrMaxIterationsExceeded)
  | EStructured _ (Some c) => errors_Is c s
  | EStructured _ None => false
  | EUncertain _ _ _ _ => bool_decide (s = ErrToolExecutionUncertain)
  | EOutcomeUnknown (Some c) => errors_Is c s
  | EOutcomeUnknown None => false
  end.

(** errors.Is(err, &T{}) and errors.As(err, &t) for the typed errors: the kind of
    some error of the chain. *)
Fixpoint errors_IsKind (e : error) (k : ErrorKind) : bool :=
  match e with
  | ESentinel _ | ENew _ | EMaxIterations _ | EUncertain _ _ _ _ => false
  | EWrap _ c => errors_IsKind c k
  | EJoin e1 e2 => errors_IsKind e1 k || errors_IsKind e2 k
  | EProvider c => bool_decide (k = KProvider) || errors_IsKind c k
  | ETool _ c => errors_IsKind c k
  | EGuardrail _ c => bool_decide (k = KGuardrail) || errors_IsKind c k
  | EStructured _ (Some c) => bool_decide (k = KStructured) || errors_IsKind c k
  | EStructured _ None => bool_decide (k = KStructured)
  | EOutcomeUnknown (Some c) => bool_decide (k = KOutcomeUnknown) || errors_IsKind c k
  | EOutcomeUnknown None => bool_decide (k = KOutcomeUnknown)
  end.

(** errors.Join(a, b) where either may be nil. *)
Definition errors_Join (a b : option error) : option error :=
  match a, b with
  | Some x, Some y => Some (EJoin x y)
  | Some x, None => Some x
  | None, y => y
  end.

(* agent/tool/tool.go: IsOutcomeUnknown *)
Definition IsOutcomeUnknown (e : error) : bool := errors_IsKind e KOutcomeUnknown.

(* agent/event.go:173-188: ErrorCode constants *)
Inductive ErrorCode : Type :=
| ErrorCodeCanceled | ErrorCodeDeadlineExceeded | ErrorCodeMaxIterations
| ErrorCodeTokenBudget | ErrorCodeRateLimit | ErrorCodeGuardrail
| ErrorCodeProvider | ErrorCodeStructuredOutput | ErrorCodeTool
| ErrorCodeToolDenied | ErrorCodeUnknownTool | ErrorCodeInvalidInput
| ErrorCodeOutcomeUnknown | ErrorCodeInternal.

#[global] Instance ErrorCode_eq_dec : EqDecision ErrorCode.
Proof. solve_decision. Defined.

(* agent/event.go:191-217: errorInfo *)
Definition errorCode (e : error) : ErrorCode :=
  if errors_Is e ContextCanceled then ErrorCodeCanceled
  else if errors_Is e ContextDeadlineExceeded then ErrorCodeDeadlineExceeded
  else if errors_Is e ErrMaxIterationsExceeded then ErrorCodeMaxIterations
  else if errors_Is e ErrTokenBudgetExceeded then ErrorCodeTokenBudget
  else if errors_Is e ErrRateLimitExceeded then ErrorCodeRateLimit
  else if errors_Is e ErrToolExecutionUncertain then ErrorCodeOutcomeUnknown
  else if errors_IsKind e KGuardrail then ErrorCodeGuardrail
  else if errors_IsKind e KStructured then ErrorCodeStructuredOutput
  else if errors_IsKind e KProvider then ErrorCodeProvider
  else ErrorCodeInternal.
