(* ===== verification/Messages.v ===== *)
(** Messages and content blocks (agent/provider.go, agent/content.go,
    agent/widget.go) with the validation of attachments, token usage and the
    model-facing filters stripWidgets and stripToolBlocks (agent/engine.go). *)
From S2P Require Import Prelude Errors.

(** [json.RawMessage] and [[]byte]: [None] is the nil slice. *)
Abbreviation RawMessage := (option string) (only parsing).
(** Go's [Role] is a string type; any string may occur. *)
Abbreviation Role := string (only parsing).

Definition raw_len (r : RawMessage) : nat :=
  match r with Some s => String.length s | None => 0 end.

(* agent/context.go: cloneRaw *)
Definition cloneRaw (b : RawMessage) : RawMessage :=
  match b with
  | None => None
  | Some s => if bool_decide (s = "") then None else Some s
  end.

(* agent/provider.go:13-16: RoleUser, RoleAssistant *)
Definition RoleUser : Role := "user".
Definition RoleAssistant : Role := "assistant".

(* agent/content.go:12-17: ImageSource *)
Record ImageSource := mkImageSource {
  is_Data : RawMessage; is_Base64 : string; is_URL : string; is_MIMEType : string }.

(* agent/content.go:83-92: DocumentSource *)
Record DocumentSource := mkDocumentSource {
  ds_Data : RawMessage; ds_Base64 : string; ds_URL : string; ds_FileID : string;
  ds_S3URI : string; ds_S3BucketOwner : string; ds_MIMEType : string; ds_Name : string }.

(* agent/provider.go:35-39: ToolUseBlock *)
Record ToolUse := mkToolUse { tu_ToolUseID : string; tu_Name : string; tu_Input : RawMessage }.

(* agent/provider.go:42-47: ToolResultBlock *)
Record ToolResultBlock := mkToolResult {
  tr_ToolUseID : string; tr_Content : string; tr_IsError : bool; tr_Images : list ImageSource }.

(* agent/widget.go:14-17: WidgetBlock *)
Record Widget := mkWidget { w_Type : string; w_Payload : RawMessage }.

(* agent/provider.go:25-52: ContentBlock *)
Inductive ContentBlock : Type :=
| TextBlock (text : string)
| ToolUseBlock (u : ToolUse)
| ToolResultBlk (r : ToolResultBlock)
| ImageBlock (src : ImageSource)
| DocumentBlock (src : DocumentSource)
| WidgetBlock (w : Widget).

(* agent/provider.go:19-22: Message *)
Record Message := mkMessage { m_Role : Role; m_Content : list ContentBlock }.

#[global] Instance ImageSource_eq_dec : EqDecision ImageSource.
Proof. solve_decision. Defined.
#[global] Instance DocumentSource_eq_dec : EqDecision DocumentSource.
Proof. solve_decision. Defined.
#[global] Instance ToolUse_eq_dec : EqDecision ToolUse.
Proof. solve_decision. Defined.
#[global] Instance ToolResultBlock_eq_dec : EqDecision ToolResultBlock.
Proof. solve_decision. Defined.
#[global] Instance Widget_eq_dec : EqDecision Widget.
Proof. solve_decision. Defined.
#[global] Instance ContentBlock_eq_dec : EqDecision ContentBlock.
Proof. solve_decision. Defined.
#[global] Instance Message_eq_dec : EqDecision Message.
Proof. solve_decision. Defined.
#[global] Instance eta_ToolResultBlock : Settable ToolResultBlock :=
  fun r => mkToolResult (tr_ToolUseID r) (tr_Content r) (tr_IsError r) (tr_Images r).
#[global] Instance eta_Message : Settable Message :=
  fun m => mkMessage (m_Role m) (m_Content m).

(** Type tests [b.(T)]. *)
Definition as_tool_use (b : ContentBlock) : option ToolUse :=
  match b with ToolUseBlock u => Some u | _ => None end.
Definition as_tool_result (b : ContentBlock) : option ToolResultBlock :=
  match b with ToolResultBlk r => Some r | _ => None end.
Definition is_text (b : ContentBlock) : bool :=
  match b with TextBlock _ => true | _ => false end.
Definition is_widget (b : ContentBlock) : bool :=
  match b with WidgetBlock _ => true | _ => false end.
Definition is_tool_block (b : ContentBlock) : bool :=
  match b with ToolUseBlock _ | ToolResultBlk _ => true | _ => false end.

(** The tool uses of a message and the results of a message, in order. *)
Definition tool_uses (m : Message) : list ToolUse := omap as_tool_use (m_Content m).
Definition tool_results (m : Message) : list ToolResultBlock := omap as_tool_result (m_Content m).

(** * Token usage *)

(* agent/provider.go:55-60: TokenUsage *)
Record TokenUsage := mkTokenUsage {
  u_Input : Z; u_Output : Z; u_CacheRead : Z; u_CacheWrite : Z }.

Definition usage_zero : TokenUsage := mkTokenUsage 0 0 0 0.

(* agent/provider.go: TokenUsage.Total *)
Definition usage_Total (u : TokenUsage) : Z := i64 (u_Input u + u_Output u).

(* agent/context.go: invocationRuntime.addUsage *)
Definition usage_add (u d : TokenUsage) : TokenUsage :=
  mkTokenUsage (i64 (u_Input u + u_Input d)) (i64 (u_Output u + u_Output d))
    (i64 (u_CacheRead u + u_CacheRead d)) (i64 (u_CacheWrite u + u_CacheWrite d)).

(** * Attachments *)

Definition count_set (bs : list bool) : nat := length (List.filter id bs).

(* agent/content.go:20-25: validMIMETypes *)
Definition validMIMETypes : list string :=
  ["image/jpeg"; "image/png"; "image/gif"; "image/webp"].

(* agent/content.go: ImageSource.Validate *)
Definition ImageSource_Validate (s : ImageSource) : res unit :=
  let sources := count_set
    [bool_decide (0 < raw_len (is_Data s)); bool_decide (is_Base64 s <> "");
     bool_decide (is_URL s <> "")] in
  if bool_decide (sources = 0) then
    Err (ENew "image source: one of Data, Base64, or URL must be set")
  else if bool_decide (1 < sources) then
    Err (ENew "image source: only one of Data, Base64, or URL may be set")
  else if bool_decide (is_URL s <> "") then Ok tt
  else if negb (bool_decide (is_MIMEType s ∈ validMIMETypes)) then
    Err (ENew "unsupported image MIME type")
  else Ok tt.

(* agent/content.go:95-105: validDocMIMETypes *)
Definition validDocMIMETypes : list string :=
  ["application/pdf"; "text/plain"; "text/html"; "text/csv"; "text/markdown";
   "application/vnd.openxmlformats-officedocument.wordprocessingml.document";
   "application/vnd.openxmlformats-officedocument.spreadsheetml.sheet";
   "application/msword"; "application/vnd.ms-excel"].

(* agent/content.go: DocumentSource.Validate *)
Definition DocumentSource_Validate (s : DocumentSource) : res unit :=
  let sources := count_set
    [bool_decide (0 < raw_len (ds_Data s)); bool_decide (ds_Base64 s <> "");
     bool_decide (ds_URL s <> ""); bool_decide (ds_FileID s <> "");
     bool_decide (ds_S3URI s <> "")] in
  if bool_decide (sources = 0) then
    Err (ENew "document source: one of Data, Base64, URL, FileID, or S3URI must be set")
  else if bool_decide (1 < sources) then
    Err (ENew "document source: only one of Data, Base64, URL, FileID, or S3URI may be set")
  else if bool_decide (ds_S3URI s <> "") then
    if negb (String.prefix "s3://" (ds_S3URI s)) then
      Err (ENew "document source: S3URI must start with s3://")
    else Ok tt
  else if bool_decide (ds_URL s <> "") || bool_decide (ds_FileID s <> "") then Ok tt
  else if negb (bool_decide (ds_MIMEType s ∈ validDocMIMETypes)) then
    Err (ENew "unsupported document MIME type")
  else Ok tt.

(** strings.ToLower on ASCII letters; no extension below has a letter with a
    non-ASCII upper-case form that folds to it. *)
Definition ascii_lower (c : Ascii.ascii) : Ascii.ascii :=
  let n := Ascii.nat_of_ascii c in
  if bool_decide (65 <= n <= 90) then Ascii.ascii_of_nat (n + 32) else c.

Fixpoint ToLower (s : string) : string :=
  match s with
  | EmptyString => EmptyString
  | String c s => String (ascii_lower c) (ToLower s)
  end.

(** The cases of a Go switch on a string: the first label list that holds it. *)
Fixpoint switch {A} (s : string) (cases : list (list string * A)) : option A :=
  match cases with
  | [] => None
  | (labels, a) :: cases => if bool_decide (s ∈ labels) then Some a else switch s cases
  end.

(* agent/content.go: ImageMIMEFromExt *)
Definition ImageMIMEFromExt (ext : string) : res string :=
  match switch (ToLower ext)
    [([".jpg"; ".jpeg"], "image/jpeg"); ([".png"], "image/png");
     ([".gif"], "image/gif"); ([".webp"], "image/webp")] with
  | Some mime => Ok mime
  | None => Err (ENew "unsupported image extension")
  end.

(* agent/content.go: DocumentMIMEFromExt *)
Definition DocumentMIMEFromExt (ext : string) : res string :=
  match switch (ToLower ext)
    [([".pdf"], "application/pdf"); ([".txt"], "text/plain");
     ([".html"; ".htm"], "text/html"); ([".csv"], "text/csv"); ([".md"], "text/markdown");
     ([".doc"], "application/msword");
     ([".docx"], "application/vnd.openxmlformats-officedocument.wordprocessingml.document");
     ([".xls"], "application/vnd.ms-excel");
     ([".xlsx"], "application/vnd.openxmlformats-officedocument.spreadsheetml.sheet")] with
  | Some mime => Ok mime
  | None => Err (ENew "unsupported document extension")
  end.

(* agent/widget.go: WidgetBlock.Validate *)
Definition Widget_Validate (w : Widget) : res unit :=
  if bool_decide (w_Type w = "") then Err (ENew "widget block: Type must not be empty")
  else Ok tt.

(** * Message filters *)

(** The loop shared by stripWidgets and stripToolBlocks: filter the blocks of
    each message and leave out the messages that end up empty. *)
Fixpoint filter_messages (keep : ContentBlock -> bool) (msgs : list Message) : list Message :=
  match msgs with
  | [] => []
  | m :: msgs =>
      match List.filter keep (m_Content m) with
      | [] => filter_messages keep msgs
      | filtered => m <| m_Content := filtered |> :: filter_messages keep msgs
      end
  end.

(* agent/widget.go: stripWidgets *)
Definition stripWidgets (msgs : list Message) : list Message :=
  filter_messages (fun b => negb (is_widget b)) msgs.

(* agent/engine.go: stripToolBlocks *)
Definition stripToolBlocks (msgs : list Message) : list Message :=
  filter_messages (fun b => negb (is_tool_block b)) msgs.

(* agent/engine.go: onlyToolResults *)
Definition onlyToolResults (blocks : list ContentBlock) : bool :=
  negb (is_nil blocks) &&
  forallb (fun b => match b with ToolResultBlk _ => true | _ => false end) blocks.

(** * Lemmas *)

Definition all_blocks (msgs : list Message) : list ContentBlock :=
  concat (map m_Content msgs).

Lemma all_blocks_app ms1 ms2 : all_blocks (ms1 ++ ms2) = all_blocks ms1 ++ all_blocks ms2.
Proof. unfold all_blocks. by rewrite map_app, concat_app. Qed.

Lemma all_blocks_cons m ms : all_blocks (m :: ms) = m_Content m ++ all_blocks ms.
Proof. done. Qed.

Lemma filter_messages_blocks keep msgs :
  all_blocks (filter_messages keep msgs) = List.filter keep (all_blocks msgs).
Proof.
  induction msgs as [|m msgs IH]; [done|]. unfold all_blocks in *; simpl.
  rewrite List.filter_app, <- IH. by destruct (List.filter keep (m_Content m)).
Qed.

Lemma filter_messages_nonempty keep msgs :
  Forall (fun m => m_Content m <> []) (filter_messages keep msgs).
Proof.
  induction msgs as [|m msgs IH]; simpl; [constructor|].
  destruct (List.filter keep (m_Content m)); [done|]. by constructor.
Qed.

Lemma filter_messages_id keep msgs :
  Forall (fun m => m_Content m <> [] /\ Forall (fun b => keep b = true) (m_Content m)) msgs ->
  filter_messages keep msgs = msgs.
Proof.
  induction 1 as [|[role blocks] msgs [Hne Hall] _ IH]; simpl in *; [done|].
  rewrite filter_all, IH by done. by destruct blocks.
Qed.

Lemma filter_messages_kept keep msgs :
  Forall (fun m => m_Content m <> [] /\ Forall (fun b => keep b = true) (m_Content m))
    (filter_messages keep msgs).
Proof.
  induction msgs as [|m msgs IH]; simpl; [constructor|].
  destruct (List.filter keep (m_Content m)) as [|b bs] eqn:E; [done|].
  constructor; [|done]. simpl. split; [done|]. rewrite <- E.
  apply Forall_forall. intros x Hx%list_elem_of_In. by apply List.filter_In in Hx as [_ ?].
Qed.

Lemma omap_tool_results rs : omap as_tool_result (map ToolResultBlk rs) = rs.
Proof. induction rs as [|r rs IH]; simpl; [done|]. f_equal. exact IH. Qed.

Lemma onlyToolResults_map blocks :
  onlyToolResults blocks = true <-> blocks <> [] /\ exists rs, blocks = map ToolResultBlk rs.
Proof.
  unfold onlyToolResults. rewrite andb_true_iff, negb_true_iff, is_nil_false, forallb_forall.
  split; intros [Hne H]; (split; [done|]).
  - clear Hne. induction blocks as [|b bs IH]; [by exists []|].
    destruct IH as [rs ->]; [by intros; apply H; right|].
    specialize (H b (or_introl eq_refl)). destruct b; try done. by exists (r :: rs).
  - destruct H as [rs ->]. intros x Hx. apply in_map_iff in Hx as (r & <- & _). done.
Qed.

(** stripToolBlocks, which the loop applies when no tool is offered, leaves
    exactly the non-tool blocks of the history, in their order, drops the messages
    that become empty and changes nothing on a second pass. *)
Theorem stripToolBlocks_spec msgs :
  all_blocks (stripToolBlocks msgs) = List.filter (fun b => negb (is_tool_block b)) (all_blocks msgs) /\
  Forall (fun m => m_Content m <> []) (stripToolBlocks msgs) /\
  stripToolBlocks (stripToolBlocks msgs) = stripToolBlocks msgs.
Proof.
  unfold stripToolBlocks. split_and!.
  - apply filter_messages_blocks.
  - apply filter_messages_nonempty.
  - apply filter_messages_id, filter_messages_kept.
Qed.
