(* ===== verification/Normalize.v ===== *)
(** Message normalization (agent/normalize.go): repair of a message sequence so
    that it starts with a user message and roles alternate, by merging, filling
    or removing.  The growing [result] slice of the Go loops is kept as the pair
    of everything but its last element and that last element. *)
From S2P Require Import Prelude Errors Messages.

(* agent/normalize.go:4-10: NormStrategy *)
Inductive NormStrategy : Type := NormMerge | NormFill | NormRemove | NormOther (s : Z).
(** One of the constants; any other number selects no repair. *)
Definition named_strategy (s : NormStrategy) : Prop := match s with NormOther _ => False | _ => True end.

(** A loop over [msgs[1:]] that starts from [result = msgs[:1]]. *)
(* agent/normalize.go:67-87: loop shared by the strategies *)
Definition norm_loop (step : list Message * Message -> Message -> list Message * Message)
  (msgs : list Message) : list Message :=
  match msgs with
  | [] => []
  | m :: ms => let '(init, last) := fold_left step ms ([], m) in init ++ [last]
  end.

(* agent/normalize.go:98-107: normMerge loop body *)
Definition normMerge_step (result : list Message * Message) (m : Message) : list Message * Message :=
  let '(init, last) := result in
  if bool_decide (m_Role m = m_Role last) then
    (init, last <| m_Content := m_Content last ++ m_Content m |>)
  else (init ++ [last], m).

(* agent/normalize.go: normMerge *)
Definition normMerge (msgs : list Message) : list Message := norm_loop normMerge_step msgs.

(* agent/normalize.go:71-82: synthetic opposite-role message *)
Definition norm_synthetic (r : Role) : Message :=
  if bool_decide (r = RoleUser) then mkMessage RoleAssistant [TextBlock "Understood."]
  else mkMessage RoleUser [TextBlock "Continue."].

(* agent/normalize.go:68-86: normFill loop body *)
Definition normFill_step (result : list Message * Message) (m : Message) : list Message * Message :=
  let '(init, last) := result in
  if bool_decide (m_Role m = m_Role last) then (init ++ [last; norm_synthetic (m_Role m)], m)
  else (init ++ [last], m).

(* agent/normalize.go: normFill *)
Definition normFill (msgs : list Message) : list Message := norm_loop normFill_step msgs.

(* agent/normalize.go:120-128: normRemove loop body *)
Definition normRemove_step (result : list Message * Message) (m : Message) : list Message * Message :=
  let '(init, last) := result in
  if bool_decide (m_Role m = m_Role last) then (init, m) else (init ++ [last], m).

(* agent/normalize.go: normRemove *)
Definition normRemove (msgs : list Message) : list Message := norm_loop normRemove_step msgs.

(* agent/normalize.go:27-44: opening repair and working copy *)
Definition norm_open (msgs : list Message) : list Message :=
  match msgs with
  | [] => []
  | m :: _ =>
      if bool_decide (m_Role m <> RoleUser) then
        mkMessage RoleUser [TextBlock "Continue."] :: msgs
      else msgs
  end.

(* agent/normalize.go: NormalizeMessages *)
Definition NormalizeMessages (msgs : list Message) (strategy : NormStrategy) : list Message :=
  match msgs with
  | [] => []
  | _ =>
      let working := norm_open msgs in
      match strategy with
      | NormMerge => normMerge working
      | NormFill => normFill working
      | NormRemove => normRemove working
      | NormOther _ => working
      end
  end.

(** * What providers need *)

(** No two neighbours have the same role. *)
Fixpoint alternates (msgs : list Message) : Prop :=
  match msgs with
  | m1 :: ((m2 :: _) as rest) => m_Role m1 <> m_Role m2 /\ alternates rest
  | _ => True
  end.

(** * Lemmas *)

Lemma alternates_snoc ms l m :
  alternates (ms ++ [l]) -> m_Role l <> m_Role m -> alternates (ms ++ [l; m]).
Proof.
  intros H Hlm. induction ms as [|x [|y ms] IH]; simpl in *; [done|by destruct H|].
  destruct H as [Hxy Hms]. split; [done|]. by apply IH.
Qed.

(** Replacing the last message by one of the same role keeps alternation. *)
Lemma alternates_replace ms l l' :
  alternates (ms ++ [l]) -> m_Role l' = m_Role l -> alternates (ms ++ [l']).
Proof.
  intros H Hr. induction ms as [|x [|y ms] IH]; simpl in *; [done| |].
  - by rewrite Hr.
  - destruct H. split; [done|]. by apply IH.
Qed.

(** The role of the first message. *)
Definition head_role (ms : list Message) : option Role := m_Role <$> head ms.

(** A loop body that keeps alternation and the first role, and that appends a
    message of another role as it is. *)
Definition good_step (step : list Message * Message -> Message -> list Message * Message) : Prop :=
  (forall init last m, alternates (init ++ [last]) ->
    let '(init', last') := step (init, last) m in
    alternates (init' ++ [last']) /\ head_role (init' ++ [last']) = head_role (init ++ [last])) /\
  (forall init last m, m_Role last <> m_Role m -> step (init, last) m = (init ++ [last], m)).

Lemma head_role_app ms x tl : head_role (ms ++ x :: tl) = head_role (ms ++ [x]).
Proof. by destruct ms. Qed.

Lemma head_role_replace ms x y : m_Role x = m_Role y -> head_role (ms ++ [x]) = head_role (ms ++ [y]).
Proof. intros H. destruct ms; unfold head_role; simpl; by rewrite ?H. Qed.

Lemma push_other init last m :
  alternates (init ++ [last]) -> m_Role last <> m_Role m ->
  alternates ((init ++ [last]) ++ [m]) /\
  head_role ((init ++ [last]) ++ [m]) = head_role (init ++ [last]).
Proof.
  intros Ha Hr. rewrite <- app_assoc. split; [by apply alternates_snoc|apply head_role_app].
Qed.

Lemma good_normMerge : good_step normMerge_step.
Proof.
  split; intros init last m; unfold normMerge_step; case_bool_decide; simpl; try congruence; intros Ha.
  - split; [by apply (alternates_replace _ last)|by apply head_role_replace].
  - by apply push_other.
Qed.

Lemma good_normRemove : good_step normRemove_step.
Proof.
  split; intros init last m; unfold normRemove_step; case_bool_decide; simpl; try congruence; intros Ha.
  - split; [by apply (alternates_replace _ last)|by apply head_role_replace].
  - by apply push_other.
Qed.

Lemma norm_synthetic_role r : m_Role (norm_synthetic r) <> r.
Proof. unfold norm_synthetic. case_bool_decide; simpl; [by subst|congruence]. Qed.

Lemma good_normFill : good_step normFill_step.
Proof.
  split; intros init last m; unfold normFill_step; case_bool_decide as Hr; simpl; try congruence; intros Ha.
  - pose proof (norm_synthetic_role (m_Role m)) as Hs.
    destruct (push_other init last (norm_synthetic (m_Role m))) as [Ha' Hh]; [done|congruence|].
    replace (init ++ [last; norm_synthetic (m_Role m)])
      with ((init ++ [last]) ++ [norm_synthetic (m_Role m)]) by (by rewrite <- app_assoc).
    destruct (push_other (init ++ [last]) (norm_synthetic (m_Role m)) m) as [Ha2 Hh2]; [done..|].
    split; [done|by etransitivity].
  - by apply push_other.
Qed.

#[export] Hint Resolve good_normMerge good_normFill good_normRemove : gude.

Lemma good_loop step : good_step step -> forall ms init last,
  alternates (init ++ [last]) ->
  let '(init', last') := fold_left step ms (init, last) in
  alternates (init' ++ [last']) /\ head_role (init' ++ [last']) = head_role (init ++ [last]).
Proof.
  intros [Hstep _] ms. induction ms as [|m ms IH]; intros init last Ha; simpl; [done|].
  specialize (Hstep init last m Ha). destruct (step (init, last) m) as [i1 l1].
  destruct Hstep as [Ha1 Hh1]. specialize (IH i1 l1 Ha1).
  destruct (fold_left step ms (i1, l1)) as [i2 l2]. destruct IH as [? ?].
  split; [done|by etransitivity].
Qed.

Lemma norm_loop_good step ms : good_step step ->
  alternates (norm_loop step ms) /\ head_role (norm_loop step ms) = head_role ms.
Proof.
  intros Hs. destruct ms as [|m ms]; simpl; [done|].
  pose proof (good_loop step Hs ms [] m I) as H.
  by destruct (fold_left step ms ([], m)).
Qed.

(** On an alternating sequence the loop changes nothing. *)
Lemma norm_loop_id step ms : good_step step -> alternates ms -> norm_loop step ms = ms.
Proof.
  intros [_ Hpush]. destruct ms as [|m ms]; [done|]. simpl.
  enough (H : forall ms init last, alternates (last :: ms) ->
    let '(i, l) := fold_left step ms (init, last) in i ++ [l] = init ++ last :: ms).
  { intros Ha. specialize (H ms [] m Ha). by destruct (fold_left step ms ([], m)). }
  clear m ms. induction ms as [|m ms IH]; intros init last Ha; simpl; [done|].
  destruct Ha as [Hr Ha]. rewrite Hpush by done. specialize (IH (init ++ [last]) m Ha).
  destruct (fold_left step ms (init ++ [last], m)). by rewrite IH, <- app_assoc.
Qed.

(** The loop that only appends. *)
Definition push_step (result : list Message * Message) (m : Message) : list Message * Message := (result.1 ++ [result.2], m).

(** The loop of each strategy. *)
(* agent/normalize.go:46-54: strategy switch *)
Definition norm_step (s : NormStrategy) :=
  match s with
  | NormMerge => normMerge_step | NormFill => normFill_step | NormRemove => normRemove_step
  | NormOther _ => push_step
  end.

Lemma good_norm_step s : named_strategy s -> good_step (norm_step s).
Proof. destruct s; simpl; auto with gude. done. Qed.

Lemma norm_loop_push ms : norm_loop push_step ms = ms.
Proof.
  destruct ms as [|m ms]; [done|]. simpl.
  enough (H : forall ms init last, let '(i, l) := fold_left push_step ms (init, last) in i ++ [l] = init ++ last :: ms).
  { specialize (H ms [] m). by destruct (fold_left push_step ms ([], m)). }
  clear m ms. induction ms as [|m ms IH]; intros init last; simpl; [done|]. specialize (IH (init ++ [last]) m).
  unfold push_step at 2. cbn [fst snd]. destruct (fold_left push_step ms _) as [i l]. by rewrite IH, <- app_assoc.
Qed.

Lemma NormalizeMessages_loop ms s :
  NormalizeMessages ms s = norm_loop (norm_step s) (norm_open ms).
Proof. destruct ms; [by destruct s|]. destruct s; try done. symmetry. apply norm_loop_push. Qed.

Lemma norm_open_user m ms : head_role (norm_open (m :: ms)) = Some RoleUser.
Proof. simpl. case_bool_decide as H; [done|]. unfold head_role; simpl. by rewrite H. Qed.

Lemma norm_open_id ms : head_role ms = Some RoleUser -> norm_open ms = ms.
Proof. destruct ms; [done|]. unfold head_role; simpl. intros [= H]. case_bool_decide; [congruence|done]. Qed.

Lemma NormalizeMessages_alternates m ms s : named_strategy s ->
  alternates (NormalizeMessages (m :: ms) s) /\
  head_role (NormalizeMessages (m :: ms) s) = Some RoleUser.
Proof.
  intros Hs. rewrite NormalizeMessages_loop.
  destruct (norm_loop_good (norm_step s) (norm_open (m :: ms)) (good_norm_step s Hs)) as [Ha Hh].
  split; [done|]. by rewrite Hh, norm_open_user.
Qed.

(** With each of the strategies, a non-empty history is repaired into one that
    starts with a user message and in which no two neighbours have the same role. *)
Theorem NormalizeMessages_valid m ms s : named_strategy s ->
  alternates (NormalizeMessages (m :: ms) s) /\
  head_role (NormalizeMessages (m :: ms) s) = Some RoleUser.
Proof. apply NormalizeMessages_alternates. Qed.

(** Normalizing twice is normalizing once, for every strategy: a history that
    is already valid is sent to the provider unchanged. *)
Theorem NormalizeMessages_idempotent ms s : named_strategy s ->
  NormalizeMessages (NormalizeMessages ms s) s = NormalizeMessages ms s.
Proof.
  intros Hs. destruct ms as [|m ms]; [done|].
  destruct (NormalizeMessages_alternates m ms s Hs) as [Ha Hh].
  rewrite (NormalizeMessages_loop (NormalizeMessages _ _)), norm_open_id by done.
  apply norm_loop_id; [by apply good_norm_step|done].
Qed.

(** Merging keeps every block in order. *)
Lemma normMerge_blocks ms : all_blocks (normMerge ms) = all_blocks ms.
Proof.
  unfold normMerge. destruct ms as [|m ms]; [done|]. simpl.
  enough (H : forall ms init last,
    let '(i, l) := fold_left normMerge_step ms (init, last) in
    all_blocks (i ++ [l]) = all_blocks (init ++ last :: ms)).
  { specialize (H ms [] m). by destruct (fold_left normMerge_step ms ([], m)). }
  clear m ms. induction ms as [|m ms IH]; intros init last; simpl; [done|].
  case_bool_decide.
  - specialize (IH init (last <| m_Content := m_Content last ++ m_Content m |>)).
    destruct (fold_left normMerge_step ms _) as [i l].
    rewrite IH, !all_blocks_app. unfold all_blocks; simpl. by rewrite <- !app_assoc.
  - specialize (IH (init ++ [last]) m).
    destruct (fold_left normMerge_step ms _) as [i l]. by rewrite IH, <- app_assoc.
Qed.

(** Whatever the strategy, a block of the result is one of the history or a synthetic text. *)
Lemma norm_loop_Forall (P : ContentBlock -> Prop) s ms : (forall t, P (TextBlock t)) ->
  Forall P (all_blocks ms) -> Forall P (all_blocks (norm_loop (norm_step s) ms)).
Proof.
  intros Ht. destruct ms as [|m ms]; [done|]. simpl.
  enough (H : forall ms init last, Forall P (all_blocks (init ++ last :: ms)) ->
    let '(i, l) := fold_left (norm_step s) ms (init, last) in Forall P (all_blocks (i ++ [l]))).
  { specialize (H ms [] m). by destruct (fold_left _ ms ([], m)). }
  clear m ms. induction ms as [|m ms IH]; intros init last Hp; cbn [fold_left]; [done|].
  assert (Hn : let '(i, l) := norm_step s (init, last) m in Forall P (all_blocks (i ++ l :: ms))).
  { revert Hp. change (last :: m :: ms) with ([last; m] ++ ms). rewrite !all_blocks_app, !Forall_app. intros (Hi & Hlm & Hms).
    unfold all_blocks in Hlm. cbn [map concat] in Hlm. rewrite app_nil_r, Forall_app in Hlm. destruct Hlm as [Hl Hm].
    assert (H2 : forall m', Forall P (m_Content m') -> Forall P (all_blocks (m' :: ms))) by (intros m' Hm'; by apply Forall_app).
    destruct s; cbn [norm_step]; unfold normMerge_step, normFill_step, normRemove_step, push_step; cbn [fst snd]; try case_bool_decide;
      rewrite ?all_blocks_app, !Forall_app; (split_and!; try done); try (by apply H2); try (apply Forall_app; split; [done|by constructor]).
    - apply H2. by apply Forall_app.
    - apply Forall_app. split; [done|]. unfold norm_synthetic. case_bool_decide; simpl; by repeat constructor. }
  destruct (norm_step s (init, last) m) as [i l]. by apply IH.
Qed.

Lemma NormalizeMessages_Forall (P : ContentBlock -> Prop) ms s : (forall t, P (TextBlock t)) ->
  Forall P (all_blocks ms) -> Forall P (all_blocks (NormalizeMessages ms s)).
Proof.
  intros Ht Hp. rewrite NormalizeMessages_loop. apply norm_loop_Forall; [done|]. destruct ms as [|m ms]; [done|].
  cbn [norm_open]. case_bool_decide; [|done]. by constructor.
Qed.

Lemma normFill_sublist ms : ms `sublist_of` normFill ms.
Proof.
  unfold normFill. destruct ms as [|m ms]; [done|]. simpl.
  enough (H : forall ms init last,
    let '(i, l) := fold_left normFill_step ms (init, last) in
    init ++ last :: ms `sublist_of` i ++ [l]).
  { specialize (H ms [] m). by destruct (fold_left normFill_step ms ([], m)). }
  clear m ms. induction ms as [|m ms IH]; intros init last; simpl; [done|].
  case_bool_decide.
  - specialize (IH (init ++ [last; norm_synthetic (m_Role m)]) m).
    destruct (fold_left normFill_step ms _) as [i l].
    etransitivity; [|exact IH]. rewrite <- app_assoc. apply sublist_app; [done|].
    simpl. by apply sublist_skip, sublist_cons.
  - specialize (IH (init ++ [last]) m).
    destruct (fold_left normFill_step ms _) as [i l]. by rewrite <- app_assoc in IH.
Qed.

Lemma normRemove_sublist ms : normRemove ms `sublist_of` ms.
Proof.
  unfold normRemove. destruct ms as [|m ms]; [done|]. simpl.
  enough (H : forall ms init last,
    let '(i, l) := fold_left normRemove_step ms (init, last) in
    i ++ [l] `sublist_of` init ++ last :: ms).
  { specialize (H ms [] m). by destruct (fold_left normRemove_step ms ([], m)). }
  clear m ms. induction ms as [|m ms IH]; intros init last; simpl; [done|].
  case_bool_decide.
  - specialize (IH init m). destruct (fold_left normRemove_step ms _) as [i l].
    etransitivity; [exact IH|]. apply sublist_app; [done|]. by apply sublist_cons.
  - specialize (IH (init ++ [last]) m).
    destruct (fold_left normRemove_step ms _) as [i l]. by rewrite <- app_assoc in IH.
Qed.

(** What each strategy does to the content of a history that starts with a
    user message: merging keeps every block in order, filling keeps every message
    in order, removing adds nothing and reorders nothing. *)
Theorem NormalizeMessages_content ms :
  head_role ms = Some RoleUser ->
  all_blocks (NormalizeMessages ms NormMerge) = all_blocks ms /\
  ms `sublist_of` NormalizeMessages ms NormFill /\
  NormalizeMessages ms NormRemove `sublist_of` ms.
Proof.
  intros H. rewrite !NormalizeMessages_loop, norm_open_id by done.
  split_and!; [apply normMerge_blocks|apply normFill_sublist|apply normRemove_sublist].
Qed.

Definition normalize_sample : list Message :=
  [mkMessage RoleUser [TextBlock "hi"]; mkMessage RoleUser [TextBlock "again"];
   mkMessage RoleAssistant [TextBlock "hello"]].

Lemma NormalizeMessages_content_witness :
  all_blocks (NormalizeMessages normalize_sample NormMerge) = all_blocks normalize_sample /\
  length (NormalizeMessages normalize_sample NormMerge) = 2 /\
  length (NormalizeMessages normalize_sample NormFill) = 4.
Proof.
  split; [apply (NormalizeMessages_content normalize_sample); reflexivity|split; reflexivity].
Defined.
