(* ===== verification/TurnMessages.v ===== *)
(** Canonical and transient messages of a turn (agent/turn_messages.go) and the
    structured-output adapter [persisted] (agent/engine.go): how retrieved context
    is shown to the provider and kept out of the transcript, and how tool results
    are grouped for the provider. *)
From S2P Require Import Prelude Errors Messages.

(* agent/turn_messages.go:6-9: turnMessages *)
Record turnMessages := mkTurn { canonical : list Message; transient : list Message }.

#[global] Instance eta_turnMessages : Settable turnMessages :=
  fun t => mkTurn (canonical t) (transient t).

(* agent/turn_messages.go: turnMessages.appendCanonical *)
Definition appendCanonical (t : turnMessages) (messages : list Message) : turnMessages :=
  t <| canonical := canonical t ++ messages |>.

(** ** Tool result order *)

(* agent/turn_messages.go:50-61: order and known *)
Definition use_order (content : list ContentBlock) : list string :=
  fold_left (fun order b =>
    match b with
    | ToolUseBlock use =>
        if bool_decide (tu_ToolUseID use ∈ order) then order else order ++ [tu_ToolUseID use]
    | _ => order
    end) content [].

(* agent/turn_messages.go:69: loop guard of the result run *)
Definition is_result_message (m : Message) : bool :=
  bool_decide (m_Role m = RoleUser) && onlyToolResults (m_Content m).

(** The contiguous result messages at the head of a list (the Go variable [j]
    counts them). *)
(* agent/turn_messages.go:66-79: messages of a result run *)
Fixpoint result_run (messages : list Message) : list Message :=
  match messages with
  | m :: rest => if is_result_message m then m :: result_run rest else []
  | [] => []
  end.

(* agent/turn_messages.go:70-77: results of a run *)
Definition results_of (messages : list Message) : list ToolResultBlock :=
  concat (map tool_results messages).

(* agent/turn_messages.go:70-77: byID and unknown *)
Definition group_step (known : list string)
  (st : gmap string (list ToolResultBlock) * list ToolResultBlock) (result : ToolResultBlock) :
  gmap string (list ToolResultBlock) * list ToolResultBlock :=
  let '(byID, unknown) := st in
  let id := tr_ToolUseID result in
  if bool_decide (id ∈ known) then
    (<[id := default [] (byID !! id) ++ [result]]> byID, unknown)
  else (byID, unknown ++ [result]).

(* agent/turn_messages.go:66-88: grouping of one result run *)
Definition group_results (order : list string) (results : list ToolResultBlock) :
  list ToolResultBlock :=
  let '(byID, unknown) := fold_left (group_step order) results (∅, []) in
  concat (map (fun id => default [] (byID !! id)) order) ++ unknown.

(** The loop over [i]: [skip] messages that a group already consumed are passed
    over, as [i = j - 1] does. *)
(* agent/turn_messages.go:43-91: loop of projectToolResultOrder *)
Fixpoint project_loop (messages : list Message) (skip : nat) : list Message :=
  match messages, skip with
  | [], _ => []
  | _ :: rest, S k => project_loop rest k
  | message :: rest, O =>
      let order := use_order (m_Content message) in
      let run := result_run rest in
      message ::
        (if bool_decide (m_Role message <> RoleAssistant) then project_loop rest 0
         else if is_nil order then project_loop rest 0
         else if is_nil run then project_loop rest 0
         else mkMessage RoleUser (map ToolResultBlk (group_results order (results_of run)))
                :: project_loop rest (length run))
  end.

(* agent/turn_messages.go: projectToolResultOrder *)
Definition projectToolResultOrder (messages : list Message) : list Message :=
  project_loop messages 0.

(* agent/turn_messages.go: turnMessages.projectedCanonical *)
Definition projectedCanonical (t : turnMessages) (persistedCount : Z) : list Message * list Message :=
  let n := if bool_decide (persistedCount < 0)%Z
              || bool_decide (Z.of_nat (length (canonical t)) < persistedCount)%Z
           then length (canonical t) else Z.to_nat persistedCount in
  (projectToolResultOrder (take n (canonical t)), projectToolResultOrder (drop n (canonical t))).

(* agent/turn_messages.go: turnMessages.providerMessages *)
Definition providerMessages (t : turnMessages) (persistedCount : Z) : list Message :=
  let '(recent, current) := projectedCanonical t persistedCount in
  recent ++ transient t ++ current.

(* agent/engine.go: persisted *)
Definition persisted (messages : list Message) (ragStart : Z) : list Message :=
  if bool_decide (ragStart < 0)%Z || bool_decide (Z.of_nat (length messages) < ragStart + 2)%Z
  then messages
  else take (Z.to_nat ragStart) messages ++ drop (Z.to_nat (ragStart + 2)) messages.

(** * Grouping *)

(** The specification of a group: for each tool use in order its results in
    order, then the results of unknown calls in order. *)
Definition results_for (id : string) (results : list ToolResultBlock) : list ToolResultBlock :=
  List.filter (fun r => bool_decide (tr_ToolUseID r = id)) results.
Definition results_unknown (order : list string) (results : list ToolResultBlock) :
  list ToolResultBlock :=
  List.filter (fun r => negb (bool_decide (tr_ToolUseID r ∈ order))) results.
Definition grouped (order : list string) (results : list ToolResultBlock) : list ToolResultBlock :=
  concat (map (fun id => results_for id results) order) ++ results_unknown order results.

Lemma results_for_app id xs ys : results_for id (xs ++ ys) = results_for id xs ++ results_for id ys.
Proof. apply List.filter_app. Qed.

Lemma results_unknown_app order xs ys :
  results_unknown order (xs ++ ys) = results_unknown order xs ++ results_unknown order ys.
Proof. apply List.filter_app. Qed.

Lemma group_fold order results :
  let '(byID, unknown) := fold_left (group_step order) results (∅, []) in
  (forall id, id ∈ order -> default [] (byID !! id) = results_for id results) /\
  unknown = results_unknown order results.
Proof.
  induction results as [|x xs IH] using rev_ind; simpl.
  { split; [|done]. intros. by rewrite lookup_empty. }
  rewrite fold_left_app. simpl. destruct (fold_left _ xs _) as [byID unknown].
  destruct IH as [Hby ->]. unfold group_step. case_bool_decide as Hin; simpl; split.
  - intros id Hid. rewrite results_for_app. unfold results_for at 2. simpl.
    case_bool_decide as Heq; simpl.
    + subst id. rewrite lookup_insert_eq. simpl. by rewrite Hby.
    + rewrite lookup_insert_ne, app_nil_r by done. by apply Hby.
  - rewrite results_unknown_app. unfold results_unknown at 2. simpl.
    rewrite bool_decide_true by done. simpl. by rewrite app_nil_r.
  - intros id Hid. rewrite results_for_app. unfold results_for at 2. simpl.
    rewrite bool_decide_false by congruence. simpl. rewrite app_nil_r. by apply Hby.
  - rewrite results_unknown_app. unfold results_unknown at 3. simpl.
    by rewrite bool_decide_false by done.
Qed.

(** The map-and-list grouping of the code computes, for every sequence of
    results, the results of each tool use in tool-use order followed by the results
    of unknown calls, each class in its original order. *)
Lemma group_results_grouped order results :
  group_results order results = grouped order results.
Proof.
  unfold group_results, grouped. pose proof (group_fold order results) as H.
  destruct (fold_left (group_step order) results (∅, [])) as [byID unknown].
  destruct H as [Hby ->]. f_equal. f_equal. apply map_ext_in.
  intros id Hid%list_elem_of_In. by apply Hby.
Qed.

Lemma concat_map_nil {A B} (f : A -> list B) xs :
  (forall x, x ∈ xs -> f x = []) -> concat (map f xs) = [].
Proof.
  induction xs as [|x xs IH]; intros H; simpl; [done|].
  rewrite H, IH by set_solver. done.
Qed.

Lemma results_for_cons id r rs :
  results_for id (r :: rs) = if bool_decide (tr_ToolUseID r = id) then r :: results_for id rs
                             else results_for id rs.
Proof. done. Qed.

(** Adding one result of a known call adds it once. *)
Lemma concat_for_cons order r rs :
  NoDup order ->
  concat (map (fun id => results_for id (r :: rs)) order) ≡ₚ
  (if bool_decide (tr_ToolUseID r ∈ order) then [r] else []) ++
  concat (map (fun id => results_for id rs) order).
Proof.
  induction 1 as [|id order Hnin Hnd IH]; [done|]. cbn [map concat].
  rewrite IH, results_for_cons. destruct (decide (tr_ToolUseID r = id)) as [Heq|Hne].
  - rewrite (bool_decide_true (_ = id)), (bool_decide_true (_ ∈ id :: _)) by set_solver.
    rewrite (bool_decide_false (_ ∈ order)) by set_solver. done.
  - rewrite (bool_decide_false (_ = id)) by done.
    destruct (decide (tr_ToolUseID r ∈ order)) as [Hin|Hout].
    + rewrite !bool_decide_true by set_solver. simpl. symmetry. apply Permutation_middle.
    + rewrite !bool_decide_false by set_solver. done.
Qed.

Lemma grouped_perm order results : NoDup order -> grouped order results ≡ₚ results.
Proof.
  intros Hnd. unfold grouped. induction results as [|r rs IH].
  - rewrite concat_map_nil by done. done.
  - rewrite concat_for_cons by done. unfold results_unknown. simpl.
    case_bool_decide; simpl; rewrite <- IH at 2; [done|].
    symmetry. apply Permutation_middle.
Qed.

Lemma filter_none {A} (f : A -> bool) xs :
  Forall (fun x => f x = false) xs -> List.filter f xs = [].
Proof. induction 1 as [|x xs Hx _ IH]; simpl; [done|]. by rewrite Hx. Qed.

Lemma filter_filter_false {A} (f g : A -> bool) xs :
  (forall x, g x = true -> f x = false) -> List.filter f (List.filter g xs) = [].
Proof.
  intros H. apply filter_none, Forall_forall. intros x Hx%list_elem_of_In.
  apply List.filter_In in Hx as [_ Hg]. by apply H.
Qed.

Lemma results_for_other id id' rs : id <> id' -> results_for id (results_for id' rs) = [].
Proof.
  intros Hne. apply filter_filter_false. intros x Hx. bool_hyps. by rewrite bool_decide_false by congruence.
Qed.

Lemma results_for_groups order id rs :
  NoDup order -> id ∈ order ->
  results_for id (concat (map (fun id => results_for id rs) order)) = results_for id rs.
Proof.
  intros Hnd. revert id. induction Hnd as [|x order Hnin Hnd IH]; intros id Hin; [set_solver|].
  cbn [map concat]. rewrite results_for_app.
  destruct (decide (id = x)) as [->|Hne].
  - unfold results_for at 1 2. rewrite filter_idemp. fold (results_for x rs).
    enough (results_for x (concat (map (fun id => results_for id rs) order)) = []) as ->
      by apply app_nil_r.
    clear IH Hin Hnd. induction order as [|y order IH]; [done|]. cbn [map concat].
    rewrite results_for_app, results_for_other, IH by set_solver. done.
  - rewrite results_for_other by done. apply IH. set_solver.
Qed.

Lemma grouped_idemp order rs :
  NoDup order -> grouped order (grouped order rs) = grouped order rs.
Proof.
  intros Hnd. unfold grouped at 1 3. f_equal.
  - f_equal. apply map_ext_in. intros id Hid%list_elem_of_In.
    unfold grouped. rewrite results_for_app, results_for_groups by done.
    unfold results_for at 2, results_unknown. rewrite filter_filter_false, app_nil_r; [done|].
    intros x Hx. bool_hyps. rewrite bool_decide_false; [done|]. congruence.
  - unfold grouped. rewrite results_unknown_app.
    rewrite (filter_idemp _ rs : results_unknown order (results_unknown order rs) = _).
    enough (forall ids, ids ⊆ order ->
      results_unknown order (concat (map (fun id => results_for id rs) ids)) = []) as ->; [done..|].
    intros ids. induction ids as [|y ids IH]; intros Hsub; [done|]. cbn [map concat].
    rewrite results_unknown_app, IH by set_solver.
    unfold results_unknown, results_for. rewrite filter_filter_false; [done|].
    intros x Hx. bool_hyps. rewrite bool_decide_true; [done|]. set_solver.
Qed.

Lemma use_order_nodup content : NoDup (use_order content).
Proof.
  unfold use_order. enough (forall acc, NoDup acc -> NoDup (fold_left (fun order b =>
    match b with
    | ToolUseBlock use =>
        if bool_decide (tu_ToolUseID use ∈ order) then order else order ++ [tu_ToolUseID use]
    | _ => order
    end) content acc)) by (apply H; constructor).
  induction content as [|b bs IH]; intros acc Hacc; simpl; [done|].
  apply IH. destruct b; try done. case_bool_decide; [done|].
  apply NoDup_app. split_and!; [done| |apply NoDup_singleton]. set_solver.
Qed.

#[export] Hint Resolve use_order_nodup : gude.

(** * The projection *)

Lemma project_loop_skip ms k : project_loop ms k = project_loop (drop k ms) 0.
Proof.
  revert k. induction ms as [|m ms IH]; intros [|k]; try done. simpl. apply IH.
Qed.

Lemma result_run_prefix ms : ms = result_run ms ++ drop (length (result_run ms)) ms.
Proof.
  induction ms as [|m ms IH]; simpl; [done|].
  destruct (is_result_message m); simpl; [|done]. by rewrite <- IH.
Qed.

Lemma result_run_rest ms : result_run (drop (length (result_run ms)) ms) = [].
Proof.
  induction ms as [|m ms IH]; [done|]. simpl.
  destruct (is_result_message m) eqn:E; simpl; [done|]. by rewrite E.
Qed.

Lemma result_run_blocks ms :
  all_blocks (result_run ms) = map ToolResultBlk (results_of (result_run ms)).
Proof.
  unfold results_of, all_blocks. induction ms as [|m ms IH]; simpl; [done|].
  destruct (is_result_message m) eqn:E; simpl; [|done].
  unfold is_result_message in E. bool_hyps.
  match goal with H : onlyToolResults _ = true |- _ =>
    apply onlyToolResults_map in H as [_ [rs Hrs]] end.
  unfold tool_results. by rewrite Hrs, omap_tool_results, map_app, IH.
Qed.

Lemma result_run_results_nonempty ms : result_run ms <> [] -> results_of (result_run ms) <> [].
Proof.
  destruct ms as [|m ms]; simpl; [done|]. destruct (is_result_message m) eqn:E; [|done].
  intros _. unfold results_of; simpl. unfold is_result_message in E. bool_hyps.
  match goal with H : onlyToolResults _ = true |- _ =>
    apply onlyToolResults_map in H as [Hne [rs Hrs]] end.
  unfold tool_results. rewrite Hrs in *. by destruct rs.
Qed.

(** The step of the loop at an unconsumed message. *)
Lemma project_cons m rest :
  projectToolResultOrder (m :: rest) =
  m :: (if bool_decide (m_Role m <> RoleAssistant) || is_nil (use_order (m_Content m))
           || is_nil (result_run rest)
        then projectToolResultOrder rest
        else mkMessage RoleUser (map ToolResultBlk
               (grouped (use_order (m_Content m)) (results_of (result_run rest))))
             :: projectToolResultOrder (drop (length (result_run rest)) rest)).
Proof.
  unfold projectToolResultOrder at 1. simpl. f_equal.
  rewrite group_results_grouped, (project_loop_skip rest (length _)).
  by repeat case_bool_decide; destruct (use_order _), (result_run rest).
Qed.

(** Induction that follows the loop. *)
Lemma project_ind (P : list Message -> Prop) :
  P [] ->
  (forall m rest, P rest -> P (drop (length (result_run rest)) rest) -> P (m :: rest)) ->
  forall ms, P ms.
Proof.
  intros H0 HS ms. remember (length ms) as n eqn:Hn. revert ms Hn.
  induction (lt_wf n) as [n _ IH]. intros [|m rest] ->; [done|].
  apply HS; (eapply IH; [|reflexivity]); simpl; rewrite ?length_drop; lia.
Qed.

Lemma project_head_run ms : result_run ms = [] -> result_run (projectToolResultOrder ms) = [].
Proof.
  destruct ms as [|m rest]; [done|]. rewrite project_cons. simpl. by destruct (is_result_message m).
Qed.

(** The model-facing projection of tool results is a permutation of the
    content blocks of the canonical messages: it invents nothing and loses nothing. *)
Theorem project_permutation ms : all_blocks (projectToolResultOrder ms) ≡ₚ all_blocks ms.
Proof.
  induction ms as [|m rest IH1 IH2] using project_ind; [done|].
  rewrite project_cons, !all_blocks_cons. apply Permutation_app; [done|].
  case_match; [done|]. rewrite all_blocks_cons, IH2. simpl.
  assert (all_blocks rest = all_blocks (result_run rest) ++
    all_blocks (drop (length (result_run rest)) rest)) as ->
    by (by rewrite <- all_blocks_app, <- result_run_prefix).
  rewrite result_run_blocks. apply Permutation_app; [|done].
  apply Permutation_map, grouped_perm. auto with gude.
Qed.

(** Projecting an already projected history changes nothing, so the provider
    sees the same sequence however often a history passes through the projection. *)
Theorem project_idempotent ms :
  projectToolResultOrder (projectToolResultOrder ms) = projectToolResultOrder ms.
Proof.
  induction ms as [|m rest IH1 IH2] using project_ind; [done|].
  rewrite project_cons. set (order := use_order (m_Content m)).
  case_match eqn:E.
  - rewrite project_cons. fold order. f_equal.
    destruct (is_nil (result_run rest)) eqn:Hrun.
    + bool_hyps. rewrite project_head_run by done. simpl. by rewrite orb_true_r.
    + rewrite orb_false_r in E. rewrite E. done.
  - apply orb_false_iff in E as [E1 Hrun%is_nil_false].
    set (gs := grouped order (results_of (result_run rest))).
    assert (Hgs : gs <> []).
    { intros Hnil. apply (result_run_results_nonempty rest Hrun).
      apply Permutation_nil. rewrite <- Hnil. apply grouped_perm, use_order_nodup. }
    rewrite project_cons. fold order. f_equal.
    assert (Hrm : is_result_message (mkMessage RoleUser (map ToolResultBlk gs)) = true).
    { unfold is_result_message; simpl. apply onlyToolResults_map. split; [by destruct gs|by eexists]. }
    cbn [result_run]. rewrite Hrm, project_head_run by apply result_run_rest. simpl.
    rewrite E1. simpl. rewrite drop_0, IH2. f_equal. f_equal. f_equal.
    unfold results_of; simpl. rewrite app_nil_r. unfold tool_results; simpl.
    rewrite omap_tool_results. unfold gs. by rewrite grouped_idemp by apply use_order_nodup.
Qed.

(** * Canonical history and the structured-output adapter *)

(* agent/engine.go: run.prepareTurn *)
Definition prepareTurn_view (t : turnMessages) (persistedCount : nat) : list Message * Z :=
  if is_nil (transient t) then (canonical t, (-1)%Z)
  else (providerMessages t (Z.of_nat persistedCount), Z.of_nat persistedCount).

(** When grouping does not shorten the loaded history, stripping the retrieved
    context from the provider view returns the projected canonical messages: the
    structured-output path persists no transient message and drops no canonical one. *)
Theorem persisted_provider_view t n :
  length (transient t) = 2 -> (n <= length (canonical t))%nat ->
  length (projectToolResultOrder (take n (canonical t))) = n ->
  let '(view, ragStart) := prepareTurn_view t n in
  persisted view ragStart =
    projectToolResultOrder (take n (canonical t)) ++ projectToolResultOrder (drop n (canonical t)).
Proof.
  intros Ht Hn Hlen. unfold prepareTurn_view. destruct (is_nil (transient t)) eqn:E; bool_hyps.
  { by rewrite E in Ht. }
  unfold providerMessages, projectedCanonical.
  rewrite !bool_decide_false by lia. simpl. rewrite Nat2Z.id.
  unfold persisted. rewrite !length_app, Ht, Hlen.
  rewrite !bool_decide_false by lia. simpl. rewrite Nat2Z.id. f_equal.
  - by rewrite take_app_length' by done.
  - rewrite app_assoc, drop_app_length'; [done|]. rewrite length_app. lia.
Qed.

Definition sample_use (id : string) : ContentBlock := ToolUseBlock (mkToolUse id "t" (Some "{}")).
Definition sample_result (id : string) : ContentBlock :=
  ToolResultBlk (mkToolResult id "done" false []).
Definition sample_rag : Message := mkMessage RoleUser [TextBlock "retrieved documents"].
Definition sample_question : Message := mkMessage RoleUser [TextBlock "question"].

(** A loaded history whose tool results came in one message. *)
Definition sample_turn_joined : turnMessages :=
  mkTurn [mkMessage RoleAssistant [sample_use "a"; sample_use "b"];
          mkMessage RoleUser [sample_result "a"; sample_result "b"];
          sample_question]
         [sample_rag; mkMessage RoleAssistant [TextBlock "OK"]].

Lemma persisted_provider_view_witness :
  let '(view, ragStart) := prepareTurn_view sample_turn_joined 2 in
  persisted view ragStart = canonical sample_turn_joined.
Proof.
  exact (persisted_provider_view sample_turn_joined 2 eq_refl ltac:(simpl; lia) eq_refl).
Defined.

(** The same history with the two results in two messages, as a reconciled call
    leaves it. *)
Definition sample_turn_split : turnMessages :=
  mkTurn [mkMessage RoleAssistant [sample_use "a"; sample_use "b"];
          mkMessage RoleUser [sample_result "a"]; mkMessage RoleUser [sample_result "b"];
          sample_question]
         [sample_rag; mkMessage RoleAssistant [TextBlock "OK"]].

(** When the loaded history has a tool batch whose results are in two messages,
    the structured-output path with retrieved documents computes a canonical list
    that contains the retrieved context and misses the user's message: the rag
    position is taken from the unprojected history and used on the projected one. *)
Theorem structured_rag_view_shifted :
  let '(view, ragStart) := prepareTurn_view sample_turn_split 3 in
  persisted view ragStart =
    [mkMessage RoleAssistant [sample_use "a"; sample_use "b"];
     mkMessage RoleUser [sample_result "a"; sample_result "b"]; sample_rag] /\
  sample_rag ∈ persisted view ragStart /\ sample_question ∉ persisted view ragStart.
Proof.
  assert (E : (let '(view, ragStart) := prepareTurn_view sample_turn_split 3 in
    persisted view ragStart) =
    [mkMessage RoleAssistant [sample_use "a"; sample_use "b"];
     mkMessage RoleUser [sample_result "a"; sample_result "b"]; sample_rag]) by reflexivity.
  destruct (prepareTurn_view sample_turn_split 3) as [view ragStart]. rewrite E.
  split_and!; [done| |].
  - apply list_elem_of_In. simpl. auto.
  - intros H%list_elem_of_In. simpl in H. repeat destruct H as [H|H]; done.
Qed.
