(* ===== verification/Execution.v ===== *)
(** Durable execution records and interrupts (agent/execution.go,
    agent/interrupt.go, agent/tool/guard.go): the data the engine persists, its
    deep copies, the identity of a tool call, and the projection of a paused
    execution as an interrupt with the validation of the human's answer. *)
From S2P Require Import Prelude Errors Messages.
From stdpp Require Import pretty.
From Stdlib Require Import Ascii.

(** * Data *)

(* agent/execution.go:16-24: ExecutionStatus *)
Inductive ExecutionStatus : Type :=
| ExecutionRunning | ExecutionPaused | ExecutionCompleted | ExecutionFailed | ExecutionCanceled
| ExecutionStatusOther (s : string).

(* agent/execution.go:29-36: ExecutionPhase *)
Inductive ExecutionPhase : Type :=
| ExecutionPhaseModel | ExecutionPhaseTools | ExecutionPhasePaused | ExecutionPhaseDone
| ExecutionPhaseOther (s : string).

(* agent/execution.go:50-60: ToolExecutionStatus *)
Inductive ToolExecutionStatus : Type :=
| ToolExecutionPlanned | ToolExecutionReady | ToolExecutionInFlight | ToolExecutionCompleted
| ToolExecutionOther (s : string).

(* agent/execution.go:105-111: ToolResolutionOutcome *)
Inductive ToolResolutionOutcome : Type :=
| ToolResolutionSucceeded | ToolResolutionFailed | ToolResolutionRetry
| ToolResolutionOther (s : string).

(* agent/interrupt.go:13-18: InterruptType *)
Inductive InterruptType : Type :=
| InterruptApproval | InterruptHumanInput | InterruptOther (s : string).

#[global] Instance ExecutionStatus_eq_dec : EqDecision ExecutionStatus.
Proof. solve_decision. Defined.
#[global] Instance ExecutionPhase_eq_dec : EqDecision ExecutionPhase.
Proof. solve_decision. Defined.
#[global] Instance ToolExecutionStatus_eq_dec : EqDecision ToolExecutionStatus.
Proof. solve_decision. Defined.
#[global] Instance ToolResolutionOutcome_eq_dec : EqDecision ToolResolutionOutcome.
Proof. solve_decision. Defined.
#[global] Instance InterruptType_eq_dec : EqDecision InterruptType.
Proof. solve_decision. Defined.

(* agent/tool/guard.go:10-13: Decision *)
Record Decision := mkDecision { d_Allow : bool; d_Reason : string }.

(* agent/tool/guard.go: Allow *)
Definition Allow : Decision := mkDecision true "".
(* agent/tool/guard.go: Deny *)
Definition DenyD (reason : string) : Decision := mkDecision false reason.

(* agent/tool/tool.go:35-39: Call *)
Record Call := mkCall { c_ToolUseID : string; c_Name : string; c_Input : RawMessage }.

(* agent/interrupt.go:41-45: ApprovalCall *)
Record ApprovalCall := mkApprovalCall { ac_CallID : string; ac_Name : string; ac_Input : RawMessage }.

(* agent/interrupt.go:38-40: ApprovalInterrupt *)
Definition ApprovalInterrupt : Type := list ApprovalCall.

(* agent/interrupt.go:46-49: InputInterrupt *)
Record InputInterrupt := mkInputInterrupt { ii_Reason : string; ii_Question : string }.

(* agent/execution.go:41-45: ExecutionPause *)
Record ExecutionPause := mkPause {
  p_Type : InterruptType; p_Approval : option ApprovalInterrupt; p_Input : option InputInterrupt }.

(* agent/execution.go:72-81: ToolExecution *)
Record ToolExecution := mkToolExecution {
  te_CallID : string; te_Name : string; te_Status : ToolExecutionStatus;
  te_IdempotencyKey : string; te_InputHash : string; te_Input : RawMessage;
  te_ReplaySafe : bool; te_Approval : option Decision }.

(* agent/execution.go:86-91: ToolResolutionClaim *)
Record ToolResolutionClaim := mkClaim {
  rc_CallID : string; rc_Outcome : ToolResolutionOutcome;
  rc_Output : string; rc_ErrorMessage : string }.

(* agent/execution.go:95-101: ToolBatchExecution *)
Record ToolBatchExecution := mkToolBatch {
  tb_Iteration : Z; tb_Calls : list ToolExecution; tb_ToolUseRevision : N;
  tb_ToolUseLastSequence : N; tb_Resolution : option ToolResolutionClaim }.

(* agent/execution.go:113-117: ToolResolution *)
Record ToolResolution := mkResolution {
  res_Outcome : ToolResolutionOutcome; res_Output : string; res_ErrorMessage : string }.

(* agent/execution.go:137-157: Execution *)
Record Execution := mkExecution {
  x_ID : string; x_ConversationID : string;
  x_Revision : N; x_LastSequence : N;
  x_StartRevision : N; x_StartLastSequence : N; x_StartCursorPersisted : bool;
  x_Status : ExecutionStatus; x_Phase : ExecutionPhase; x_Iteration : Z;
  x_Pause : option ExecutionPause; x_PendingPause : option ExecutionPause;
  x_ToolBatch : option ToolBatchExecution;
  x_Usage : TokenUsage; x_Version : N }.

#[global] Instance Decision_eq_dec : EqDecision Decision.
Proof. solve_decision. Defined.
#[global] Instance ApprovalCall_eq_dec : EqDecision ApprovalCall.
Proof. solve_decision. Defined.
#[global] Instance InputInterrupt_eq_dec : EqDecision InputInterrupt.
Proof. solve_decision. Defined.
#[global] Instance ExecutionPause_eq_dec : EqDecision ExecutionPause.
Proof. solve_decision. Defined.
#[global] Instance ToolExecution_eq_dec : EqDecision ToolExecution.
Proof. solve_decision. Defined.
#[global] Instance ToolResolutionClaim_eq_dec : EqDecision ToolResolutionClaim.
Proof. solve_decision. Defined.
#[global] Instance ToolBatchExecution_eq_dec : EqDecision ToolBatchExecution.
Proof. solve_decision. Defined.
#[global] Instance eta_ToolExecution : Settable ToolExecution := fun t =>
  mkToolExecution (te_CallID t) (te_Name t) (te_Status t) (te_IdempotencyKey t)
    (te_InputHash t) (te_Input t) (te_ReplaySafe t) (te_Approval t).
#[global] Instance eta_ToolBatchExecution : Settable ToolBatchExecution := fun b =>
  mkToolBatch (tb_Iteration b) (tb_Calls b) (tb_ToolUseRevision b) (tb_ToolUseLastSequence b)
    (tb_Resolution b).
#[global] Instance eta_ExecutionPause : Settable ExecutionPause := fun p =>
  mkPause (p_Type p) (p_Approval p) (p_Input p).
#[global] Instance eta_ApprovalCall : Settable ApprovalCall := fun a =>
  mkApprovalCall (ac_CallID a) (ac_Name a) (ac_Input a).
#[global] Instance eta_Execution : Settable Execution := fun e =>
  mkExecution (x_ID e) (x_ConversationID e) (x_Revision e) (x_LastSequence e)
    (x_StartRevision e) (x_StartLastSequence e) (x_StartCursorPersisted e)
    (x_Status e) (x_Phase e) (x_Iteration e) (x_Pause e) (x_PendingPause e)
    (x_ToolBatch e) (x_Usage e) (x_Version e).

#[global] Instance TokenUsage_eq_dec : EqDecision TokenUsage.
Proof. solve_decision. Defined.
#[global] Instance Execution_eq_dec : EqDecision Execution.
Proof. solve_decision. Defined.

(** The zero value of a Go [Execution] with an ID. *)
Definition execution_zero (id : string) : Execution :=
  mkExecution id "" 0 0 0 0 false (ExecutionStatusOther "") (ExecutionPhaseOther "") 0
    None None None usage_zero 0.

(* agent/interrupt.go:25-36: Interrupt *)
Record Interrupt := mkInterrupt {
  in_ExecutionID : string; in_ExecutionVersion : N; in_Type : InterruptType;
  in_ConversationID : string; in_Revision : N; in_LastSequence : N;
  in_Approval : option ApprovalInterrupt; in_Input : option InputInterrupt }.

#[global] Instance eta_Interrupt : Settable Interrupt := fun i =>
  mkInterrupt (in_ExecutionID i) (in_ExecutionVersion i) (in_Type i) (in_ConversationID i)
    (in_Revision i) (in_LastSequence i) (in_Approval i) (in_Input i).

(** * Deep copies *)

(** Apply [f] to every raw JSON value that an execution record owns. *)
Definition pause_map_raw (f : RawMessage -> RawMessage) (p : ExecutionPause) : ExecutionPause :=
  p <| p_Approval := (fun calls => map (fun c => c <| ac_Input := f (ac_Input c) |>) calls)
                       <$> p_Approval p |>.
Definition batch_map_raw (f : RawMessage -> RawMessage) (b : ToolBatchExecution) : ToolBatchExecution :=
  b <| tb_Calls := map (fun c => c <| te_Input := f (te_Input c) |>) (tb_Calls b) |>.
Definition exec_map_raw (f : RawMessage -> RawMessage) (e : Execution) : Execution :=
  e <| x_Pause := pause_map_raw f <$> x_Pause e |>
    <| x_PendingPause := pause_map_raw f <$> x_PendingPause e |>
    <| x_ToolBatch := batch_map_raw f <$> x_ToolBatch e |>.

(* agent/execution.go: cloneExecution *)
Definition cloneExecution (e : Execution) : Execution := exec_map_raw cloneRaw e.

(** * Identity of a tool call *)

(** SHA-256 with hexadecimal output, and the canonical form of a JSON text
    (decoded with UseNumber, nothing trailing, re-encoded with sorted keys), are
    standard-library functions the model takes as given. *)
Class Hashing := {
  sha256_hex : string -> string;
  json_canonical : string -> option string }.

(* agent/execution.go:219: preimage of toolExecutionKey *)
Definition key_preimage (executionID callID : string) : string :=
  pretty (N.of_nat (String.length executionID)) +:+ ":" +:+ executionID +:+
  pretty (N.of_nat (String.length callID)) +:+ ":" +:+ callID.

(* agent/execution.go: toolExecutionKey *)
Definition toolExecutionKey `{Hashing} (executionID callID : string) : string :=
  "gude/tool/v1/" +:+ sha256_hex (key_preimage executionID callID).

(* agent/execution.go: toolInputHash *)
Definition toolInputHash `{Hashing} (input : RawMessage) : res string :=
  match json_canonical (default "" input) with
  | None => Err (ENew "canonical tool input: invalid JSON")
  | Some canonical => Ok (sha256_hex canonical)
  end.

(** * Resume responses *)

(* agent/interrupt.go:59-66: resumeKind *)
Inductive resumeKind : Type := resumeNone | resumeAll | resumeDecide | resumeRespond.

#[global] Instance resumeKind_eq_dec : EqDecision resumeKind.
Proof. solve_decision. Defined.

(* agent/interrupt.go:53-58: ResumeResponse *)
Record ResumeResponse := mkResume {
  rr_kind : resumeKind; rr_decision : Decision;
  rr_decisions : gmap string Decision; rr_text : string }.

Definition decision_zero : Decision := mkDecision false "".

(* agent/interrupt.go: Approve *)
Definition Approve : ResumeResponse := mkResume resumeAll Allow ∅ "".
(* agent/interrupt.go: Deny *)
Definition Deny (reason : string) : ResumeResponse := mkResume resumeAll (DenyD reason) ∅ "".
(* agent/interrupt.go: Decide *)
Definition Decide (decisions : gmap string Decision) : ResumeResponse :=
  mkResume resumeDecide decision_zero decisions "".
(* agent/interrupt.go: Respond *)
Definition Respond (text : string) : ResumeResponse := mkResume resumeRespond decision_zero ∅ text.

(* agent/interrupt.go: interruptFromExecution *)
Definition interruptFromExecution (execution : Execution) : Interrupt :=
  let e := cloneExecution execution in
  let '(ty, ap, inp) := match x_Pause e with
    | Some p => (p_Type p, p_Approval p, p_Input p)
    | None => (InterruptOther "", None, None)
    end in
  mkInterrupt (x_ID e) (x_Version e) ty (x_ConversationID e) (x_Revision e) (x_LastSequence e) ap inp.

(* agent/interrupt.go: pauseFromInterrupt *)
Definition pauseFromInterrupt (i : Interrupt) : ExecutionPause :=
  pause_map_raw cloneRaw (mkPause (in_Type i) (in_Approval i) (in_Input i)).

(* agent/interrupt.go:131-140: call ID checks of validateResume *)
Fixpoint check_call_ids (calls : list ApprovalCall) (seen : list string) : res (list string) :=
  match calls with
  | [] => Ok seen
  | call :: rest =>
      if bool_decide (ac_CallID call = "") then Err (ENew "resume: approval call has empty call ID")
      else if bool_decide (ac_CallID call ∈ seen) then Err (ENew "resume: duplicate call ID")
      else check_call_ids rest (ac_CallID call :: seen)
  end.

(* agent/interrupt.go: validateResume *)
Definition validateResume (i : Interrupt) (r : ResumeResponse) : res unit :=
  match in_Type i with
  | InterruptApproval =>
      match in_Approval i with
      | None | Some [] => Err (ENew "resume: approval interrupt has no calls")
      | Some calls =>
          letr seen := check_call_ids calls [] in
          match rr_kind r with
          | resumeAll => Ok tt
          | resumeDecide =>
              if negb (forallb (fun id => bool_decide (is_Some (rr_decisions r !! id))) seen) then
                Err (ENew "resume: missing decision for call ID")
              else if negb (forallb (fun id => bool_decide (id ∈ seen)) (map_to_list (rr_decisions r)).*1) then
                Err (ENew "resume: unexpected decision for call ID")
              else Ok tt
          | resumeRespond => Err (ENew "resume: Respond is only valid for human_input interrupts")
          | resumeNone => Err (ENew "resume: empty response")
          end
      end
  | InterruptHumanInput =>
      if bool_decide (rr_kind r <> resumeRespond) then
        Err (ENew "resume: human_input interrupts require Respond")
      else Ok tt
  | InterruptOther _ => Err (ENew "resume: unknown interrupt type")
  end.

(* agent/interrupt.go: ResumeResponse.decisionFor *)
Definition decisionFor (r : ResumeResponse) (callID : string) : Decision :=
  match rr_kind r with
  | resumeDecide => default decision_zero (rr_decisions r !! callID)
  | _ => rr_decision r
  end.

(** * Lemmas on strings *)

(** The characters of a string, where the appended part starts at a separator. *)
Fixpoint has_char (c : Ascii.ascii) (s : string) : bool :=
  match s with
  | EmptyString => false
  | String d s => bool_decide (c = d) || has_char c s
  end.

Lemma split_at_char c s1 s2 t1 t2 :
  has_char c s1 = false -> has_char c s2 = false ->
  s1 +:+ String c t1 = s2 +:+ String c t2 -> s1 = s2 /\ t1 = t2.
Proof.
  revert s2. induction s1 as [|d s1 IH]; intros [|d2 s2] H1 H2 Heq; simplify_eq/=.
  - done.
  - by rewrite bool_decide_true in H2.
  - by rewrite bool_decide_true in H1.
  - apply orb_false_iff in H1 as [_ H1], H2 as [_ H2].
    by destruct (IH s2 H1 H2) as [-> ->].
Qed.

Lemma pretty_N_go_no_char c x s :
  (forall n, pretty_N_char n <> c) -> has_char c s = false -> has_char c (pretty_N_go x s) = false.
Proof.
  intros Hc. revert s. induction (N.lt_wf_0 x) as [x _ IH]; intros s Hs.
  destruct (decide (x = 0)%N) as [->|Hx]; [by rewrite pretty_N_go_0|].
  rewrite pretty_N_go_step by lia. apply IH; [apply N.div_lt; lia|].
  simpl. apply orb_false_iff. split; [|done].
  apply bool_decide_eq_false. intros ->. by eapply Hc.
Qed.

Lemma pretty_N_no_colon (n : N) : has_char ":"%char (pretty n) = false.
Proof.
  unfold pretty, pretty_N. case_decide; [done|]. apply pretty_N_go_no_char; [|done].
  intros m. unfold pretty_N_char. by repeat case_match.
Qed.

Lemma string_app_inj_length s1 s2 t1 t2 :
  String.length s1 = String.length s2 -> s1 +:+ t1 = s2 +:+ t2 -> s1 = s2 /\ t1 = t2.
Proof.
  revert s2. induction s1 as [|c s1 IH]; intros [|c2 s2] Hl Heq; simpl in *; try done.
  injection Hl as Hl. injection Heq as -> Heq. by destruct (IH s2 Hl Heq) as [-> ->].
Qed.

Lemma string_app_cons c s t : (String c s) +:+ t = String c (s +:+ t).
Proof. done. Qed.

(** A length-delimited field followed by anything determines the field. *)
Lemma length_delimited_inj s1 s2 t1 t2 :
  pretty (N.of_nat (String.length s1)) +:+ ":" +:+ s1 +:+ t1 =
  pretty (N.of_nat (String.length s2)) +:+ ":" +:+ s2 +:+ t2 -> s1 = s2 /\ t1 = t2.
Proof.
  intros H. apply split_at_char in H as [Hl H]; [|apply pretty_N_no_colon..].
  apply (inj pretty) in Hl. apply string_app_inj_length in H; [done|lia].
Qed.

Lemma string_app_nil_r s : s +:+ "" = s.
Proof. induction s as [|c s IH]; [done|]. change (String c (s +:+ "") = String c s). by rewrite IH. Qed.

(** Two tool calls have the same idempotency-key preimage only when execution
    and call are the same: the length-delimited encoding is unambiguous. *)
Theorem key_preimage_injective e1 c1 e2 c2 :
  key_preimage e1 c1 = key_preimage e2 c2 <-> e1 = e2 /\ c1 = c2.
Proof.
  split; [|by intros [-> ->]]. unfold key_preimage. intros H.
  apply length_delimited_inj in H as [-> H].
  rewrite <- (string_app_nil_r c1), <- (string_app_nil_r c2) in H at 2.
  apply length_delimited_inj in H as [-> _]. done.
Qed.

(** * Copies and projections *)

Lemma cloneRaw_idemp r : cloneRaw (cloneRaw r) = cloneRaw r.
Proof. destruct r as [s|]; simpl; [|done]. case_bool_decide; simpl; [done|]. by rewrite bool_decide_false. Qed.

Lemma pause_map_raw_compose f p : (forall r, f (f r) = f r) ->
  pause_map_raw f (pause_map_raw f p) = pause_map_raw f p.
Proof.
  intros Hf. destruct p as [ty [calls|] inp]; unfold pause_map_raw; simpl; [|done].
  do 2 f_equal. rewrite map_map. apply map_ext. intros c. simpl. by rewrite Hf.
Qed.

(** Recording an interrupt as a pause and projecting the paused execution again
    gives back the interrupt's payload (with empty inputs normalised to absent), and
    the cursor and version are those of the stored execution. *)
Theorem interrupt_pause_roundtrip e i :
  let i' := interruptFromExecution (e <| x_Pause := Some (pauseFromInterrupt i) |>) in
  in_Type i' = in_Type i /\ in_Input i' = in_Input i /\
  in_Approval i' = p_Approval (pauseFromInterrupt i) /\
  in_ExecutionID i' = x_ID e /\ in_ExecutionVersion i' = x_Version e /\
  in_Revision i' = x_Revision e /\ in_LastSequence i' = x_LastSequence e.
Proof.
  unfold interruptFromExecution, cloneExecution, exec_map_raw, pauseFromInterrupt.
  cbn -[pause_map_raw]. rewrite pause_map_raw_compose by apply cloneRaw_idemp. by split_and!.
Qed.

(** * Validation of a resume *)

Lemma check_call_ids_spec calls seen s :
  check_call_ids calls seen = Ok s <->
  Forall (fun c => ac_CallID c <> "") calls /\ NoDup (map ac_CallID calls) /\
  (forall id, id ∈ map ac_CallID calls -> id ∉ seen) /\
  s = rev (map ac_CallID calls) ++ seen.
Proof.
  revert seen. induction calls as [|c calls IH]; intros seen; simpl.
  { split; [intros [= ->]|intros (_ & _ & _ & ->)]; [|done].
    split_and!; [constructor|constructor| |done]. intros id Hid. by apply elem_of_nil in Hid. }
  case_bool_decide as H1; [split; [done|intros (Hf & _)]; by inversion Hf|].
  case_bool_decide as H2.
  { split; [done|]. intros (_ & _ & Hd & _). exfalso. apply (Hd (ac_CallID c)); [left|done]. }
  rewrite IH, Forall_cons, NoDup_cons. rewrite <- app_assoc. simpl.
  split.
  - intros (Hf & Hnd & Hd & ->). split_and!; try done.
    + intros Hin. apply (Hd _ Hin). left.
    + intros id [->|Hid]%elem_of_cons; [done|]. specialize (Hd _ Hid). set_solver.
  - intros ((_ & Hf) & [Hnin Hnd] & Hd & ->). split_and!; try done.
    intros id Hid [->|Hs]%elem_of_cons; [done|]. eapply Hd; [right; exact Hid|done].
Qed.

(** When a response answers an interrupt, in the words of the documentation. *)
Definition resume_valid (i : Interrupt) (r : ResumeResponse) : Prop :=
  (in_Type i = InterruptHumanInput /\ rr_kind r = resumeRespond) \/
  (in_Type i = InterruptApproval /\ exists calls, in_Approval i = Some calls /\ calls <> [] /\
     Forall (fun c => ac_CallID c <> "") calls /\ NoDup (map ac_CallID calls) /\
     (rr_kind r = resumeAll \/
      (rr_kind r = resumeDecide /\ forall id, is_Some (rr_decisions r !! id) <-> id ∈ map ac_CallID calls))).

Lemma decisions_check (ds : gmap string Decision) (seen ids : list string) :
  (forall id, id ∈ seen <-> id ∈ ids) ->
  forallb (fun id => bool_decide (is_Some (ds !! id))) seen = true /\
  forallb (fun id => bool_decide (id ∈ seen)) (map_to_list ds).*1 = true <->
  (forall id, is_Some (ds !! id) <-> id ∈ ids).
Proof.
  intros Hs. rewrite !forallb_forall. split.
  - intros [H1 H2] id. split.
    + intros [d Hd]. apply Hs. eapply bool_decide_eq_true, H2. apply list_elem_of_In, list_elem_of_fmap.
      exists (id, d). split; [done|]. by apply elem_of_map_to_list.
    + intros Hin%Hs. by eapply bool_decide_eq_true, H1, list_elem_of_In.
  - intros H. split; intros id Hid%list_elem_of_In; apply bool_decide_eq_true.
    + by apply H, Hs.
    + apply list_elem_of_fmap in Hid as ([id' d] & -> & Hm). apply elem_of_map_to_list in Hm.
      apply Hs, H. by exists d.
Qed.

(** A resume is accepted exactly when the response fits the interrupt: Respond
    for human input; for approvals well-formed distinct call IDs and either one
    decision for all or exactly one decision per pending call. *)
Theorem validateResume_iff i r : validateResume i r = Ok tt <-> resume_valid i r.
Proof.
  unfold validateResume, resume_valid. destruct (in_Type i); [|case_bool_decide; naive_solver|naive_solver].
  destruct (in_Approval i) as [[|c calls]|]; [naive_solver| |naive_solver].
  assert (Hchk := check_call_ids_spec (c :: calls) []).
  destruct (check_call_ids (c :: calls) []) as [seen|e] eqn:E; simpl res_bind.
  - destruct (proj1 (Hchk seen) eq_refl) as (Hf & Hnd & _ & Hseen).
    assert (Hs : forall id, id ∈ seen <-> id ∈ map ac_CallID (c :: calls)).
    { intros id. rewrite Hseen, app_nil_r, !list_elem_of_In. symmetry. apply in_rev. }
    assert (Hd := decisions_check (rr_decisions r) seen _ Hs).
    destruct (rr_kind r); [naive_solver|naive_solver| |naive_solver].
    destruct (forallb _ seen); simpl; [|naive_solver].
    destruct (forallb _ (map_to_list _).*1); simpl; naive_solver.
  - split; [done|]. intros [[? _]|(_ & calls' & [= <-] & _ & Hf & Hnd & _)]; [done|].
    assert (Err e = Ok (rev (map ac_CallID (c :: calls)))); [|done].
    apply Hchk. split_and!; [done..| |by rewrite app_nil_r].
    intros id _ Hn. by apply elem_of_nil in Hn.
Qed.
