(* ===== verification/Schema.v ===== *)
(** Validation of tool inputs and structured output against the supported JSON
    Schema subset (agent/validate.go), and the declarative meaning of that subset. *)
From S2P Require Import Prelude Errors Messages.

(** * Decoded JSON values

    A Go [any] as encoding/json produces it and as schemas written in Go use it: a
    number is a finite float64 [m * 2^e]; [AStrs] is a Go [[]string], which only
    schemas contain; a map is kept as its list of entries. *)
Inductive GoAny : Type :=
| ANil
| ABool (b : bool)
| AFloat (m e : Z)
| AStr (s : string)
| AArr (xs : list GoAny)
| AStrs (xs : list string)
| AObj (fields : list (string * GoAny)).

(** Standard-library functions and platform behaviour the validator uses:
    json.Unmarshal into [any], json.Valid, fmt.Sprintf of a value with the v verb, and
    float64(int64(f)) for an [f] outside the range of int64, which Go leaves to
    the implementation. *)
Class JSONLib := {
  json_decode : string -> option GoAny;
  json_Valid : string -> bool;
  sprint : GoAny -> string;
  reint_wide : Z -> Z -> Z * Z }.

(** [m[k]] with the value passed on, written so that a recursion can go through it. *)
Definition with_field {A} (f : GoAny -> A) (k : string) :=
  fix go (fields : list (string * GoAny)) : option A :=
    match fields with
    | [] => None
    | (k', v) :: rest => if bool_decide (k' = k) then Some (f v) else go rest
    end.

Definition field (k : string) (fields : list (string * GoAny)) : option GoAny :=
  with_field (fun v => v) k fields.

(** Run a check over a list and stop at the first error. *)
Definition check_all {A} (f : A -> res unit) :=
  fix go (xs : list A) : res unit :=
    match xs with
    | [] => Ok tt
    | x :: xs => letr _ := f x in go xs
    end.

(** * Types *)

Definition as_strings (xs : list GoAny) : list string :=
  omap (fun v => match v with AStr s => Some s | _ => None end) xs.

(* agent/validate.go: schemaTypes *)
Definition schemaTypes (schema : list (string * GoAny)) : option (list string) :=
  match field "type" schema with
  | Some (AStr t) => Some [t]
  | Some (AArr ts) => let types := as_strings ts in if is_nil types then None else Some types
  | Some (AStrs ts) => if is_nil ts then None else Some ts
  | _ => None
  end.

(** [m1*2^e1 = m2*2^e2] *)
Definition float_eq (m1 e1 m2 e2 : Z) : bool :=
  if bool_decide (e1 <= e2)%Z then bool_decide (m1 = m2 * 2 ^ (e2 - e1))%Z
  else bool_decide (m1 * 2 ^ (e1 - e2) = m2)%Z.

(** int64(f) truncates towards zero where the result is representable. *)
Definition float_trunc (m e : Z) : Z :=
  if bool_decide (0 <= e)%Z then (m * 2 ^ e)%Z else Z.quot m (2 ^ (- e)).

Definition in_int64 (z : Z) : bool :=
  bool_decide (-9223372036854775808 <= z)%Z && bool_decide (z <= 9223372036854775807)%Z.

(** [f == float64(int64(f))]; a truncated float64 in range is itself a float64. *)
(* agent/validate.go:212: integer test of checkSingleType *)
Definition float_integral `{JSONLib} (m e : Z) : bool :=
  let i := float_trunc m e in
  if in_int64 i then float_eq m e i 0
  else let '(m', e') := reint_wide m e in float_eq m e m' e'.

(* agent/validate.go: checkSingleType *)
Definition checkSingleType `{JSONLib} (schemaType : string) (value : GoAny) : res unit :=
  let expect (ok : bool) := if ok then Ok tt else Err (ENew "unexpected JSON type") in
  match switch schemaType
    [(["string"], expect match value with AStr _ => true | _ => false end);
     (["integer"], match value with
        | AFloat m e => if float_integral m e then Ok tt
                        else Err (ENew "expected integer, got fractional number")
        | _ => expect false
        end);
     (["number"], expect match value with AFloat _ _ => true | _ => false end);
     (["boolean"], expect match value with ABool _ => true | _ => false end);
     (["array"], expect match value with AArr _ => true | _ => false end);
     (["object"], expect match value with AObj _ => true | _ => false end);
     (["null"], expect match value with ANil => true | _ => false end)] with
  | Some r => r
  | None => Ok tt
  end.

(* agent/validate.go:184-195: loop of checkType over the allowed types *)
Fixpoint check_types `{JSONLib} (types : list string) (value : GoAny) (lastErr : option error) : res unit :=
  match types with
  | [] => match lastErr with Some e => Err e | None => Ok tt end
  | t :: types =>
      match checkSingleType t value with
      | Ok _ => Ok tt
      | Err e => check_types types value (Some e)
      end
  end.

(* agent/validate.go: checkType *)
Definition checkType `{JSONLib} (types : list string) (value : GoAny) : res unit :=
  match value with
  | ANil => if bool_decide ("null" ∈ types) then Ok tt else Err (ENew "got null")
  | _ => check_types types value None
  end.

(** * The validator *)

(* agent/validate.go:54-69: enum check of validateValue *)
Definition checkEnum `{JSONLib} (schema : list (string * GoAny)) (value : GoAny) : res unit :=
  match field "enum" schema, value with
  | _, ANil => Ok tt
  | Some (AArr enumVals), _ =>
      if existsb (fun ev => bool_decide (sprint ev = sprint value)) enumVals then Ok tt
      else Err (ENew "value not in enum")
  | _, _ => Ok tt
  end.

(* agent/validate.go:76-85: required names of a schema *)
Definition requiredFields (schema : list (string * GoAny)) : list string :=
  match field "required" schema with
  | Some (AArr fields) => map (fun f => match f with AStr s => s | _ => "" end) fields
  | Some (AStrs fields) => fields
  | _ => []
  end.

(* agent/validate.go:86-94: required check of validateValue *)
Definition checkRequired (schema : list (string * GoAny)) (obj : list (string * GoAny)) : res unit :=
  check_all (fun name => match field name obj with
    | Some _ => Ok tt
    | None => Err (ENew "missing required field")
    end) (requiredFields schema).

(* agent/validate.go: validateValue *)
Fixpoint validateValue `{JSONLib} (schema : GoAny) (value : GoAny) {struct schema} : res unit :=
  match schema with
  | AObj s =>
      letr _ := match schemaTypes s with Some types => checkType types value | None => Ok tt end in
      letr _ := checkEnum s value in
      letr _ := match value with
        | AObj obj =>
            letr _ := checkRequired s obj in
            default (Ok tt) (with_field (fun p => match p with
              | AObj props => check_all (fun '(name, propSchema) =>
                  match propSchema, field name obj with
                  | AObj _, Some fieldVal => validateValue propSchema fieldVal
                  | _, _ => Ok tt
                  end) props
              | _ => Ok tt
              end) "properties" s)
        | _ => Ok tt
        end in
      match value with
      | AArr arr =>
          default (Ok tt) (with_field (fun p => match p with
            | AObj _ => check_all (fun item => validateValue p item) arr
            | _ => Ok tt
            end) "items" s)
      | _ => Ok tt
      end
  | _ => Ok tt
  end.

(* agent/validate.go: ValidateToolInput *)
Definition ValidateToolInput `{JSONLib} (schema : GoAny) (input : RawMessage) : res unit :=
  match json_decode (default "" input) with
  | None => Err (ENew "invalid JSON")
  | Some payload => validateValue schema payload
  end.

(** * Meaning of the subset *)

Section Meaning.
Context `{JSONLib}.

(** The type names that a schema node lists, alone or as one of several. *)
Definition declares (s : list (string * GoAny)) (t : string) : Prop :=
  field "type" s = Some (AStr t) \/ (exists ts, field "type" s = Some (AArr ts) /\ AStr t ∈ ts) \/
  (exists ts, field "type" s = Some (AStrs ts) /\ t ∈ ts).

(** The number [m * 2^e] is a whole number, and it is truncated to an int64: it lies strictly between -2^63-1 and 2^63. *)
Definition whole (m e : Z) : Prop := (0 <= e)%Z \/ (2 ^ (- e) | m)%Z.
Definition fits_int64 (m e : Z) : Prop :=
  ((-9223372036854775809) * 2 ^ Z.max 0 (- e) < m * 2 ^ Z.max 0 e < 9223372036854775808 * 2 ^ Z.max 0 (- e))%Z.
Definition same_number (m1 e1 m2 e2 : Z) : Prop :=
  (m1 * 2 ^ (e1 - Z.min e1 e2) = m2 * 2 ^ (e2 - Z.min e1 e2))%Z.

(** The value has the named JSON type (an unknown name constrains nothing).  Whole numbers that fit are integers, others
    that fit are not; what is said of a number that does not fit is left to the platform. *)
Definition has_type (t : string) (v : GoAny) : Prop :=
  (t = "string" -> exists s, v = AStr s) /\
  (t = "integer" -> exists m e, v = AFloat m e /\ (fits_int64 m e -> whole m e) /\
     (~ fits_int64 m e -> same_number m e (reint_wide m e).1 (reint_wide m e).2)) /\
  (t = "number" -> exists m e, v = AFloat m e) /\
  (t = "boolean" -> exists b, v = ABool b) /\
  (t = "array" -> exists xs, v = AArr xs) /\
  (t = "object" -> exists fs, v = AObj fs) /\
  (t = "null" -> v = ANil).

(** The names that a schema node requires; an entry that is not a string requires the empty name. *)
Definition requires (s : list (string * GoAny)) (name : string) : Prop :=
  (exists fs, field "required" s = Some (AArr fs) /\ (AStr name ∈ fs \/ (name = "" /\ exists f, f ∈ fs /\ forall t, f <> AStr t))) \/
  (exists fs, field "required" s = Some (AStrs fs) /\ name ∈ fs).

(** [conforms s v]: the value meets the type, enum, required, properties and items constraints of the schema node, at
    every depth. *)
Inductive conforms : list (string * GoAny) -> GoAny -> Prop :=
| conforms_node s v
    (Htype : (exists t, declares s t) ->
       (v = ANil /\ declares s "null") \/ (v <> ANil /\ exists t, declares s t /\ has_type t v))
    (Henum : forall vals, field "enum" s = Some (AArr vals) ->
       v = ANil \/ exists ev, ev ∈ vals /\ sprint ev = sprint v)
    (Hrequired : forall obj name, v = AObj obj -> requires s name -> is_Some (field name obj))
    (Hproperties : forall obj props name ps x, v = AObj obj -> field "properties" s = Some (AObj props) ->
       (name, AObj ps) ∈ props -> field name obj = Some x -> conforms ps x)
    (Hitems : forall xs item x, v = AArr xs -> field "items" s = Some (AObj item) ->
       x ∈ xs -> conforms item x) :
    conforms s v.

Lemma float_eq_iff m1 e1 m2 e2 : float_eq m1 e1 m2 e2 = true <-> same_number m1 e1 m2 e2.
Proof.
  unfold float_eq, same_number. case_bool_decide as He; rewrite bool_decide_eq_true.
  - replace (Z.min e1 e2) with e1 by lia. rewrite Z.sub_diag. lia.
  - replace (Z.min e1 e2) with e2 by lia. rewrite Z.sub_diag. lia.
Qed.

Lemma trunc_fits m e : in_int64 (float_trunc m e) = true <-> fits_int64 m e.
Proof.
  unfold in_int64, float_trunc, fits_int64. rewrite andb_true_iff, !bool_decide_eq_true. case_bool_decide as He.
  - rewrite (Z.max_l 0 (- e)), (Z.max_r 0 e), Z.pow_0_r by lia. lia.
  - rewrite (Z.max_r 0 (- e)), (Z.max_l 0 e), Z.pow_0_r, Z.mul_1_r by lia.
    assert (Hp : (0 < 2 ^ (- e))%Z) by (apply Z.pow_pos_nonneg; lia). revert Hp. generalize (2 ^ (- e))%Z. intros p Hp.
    pose proof (Z.quot_rem' m p) as Hq. pose proof (Z.rem_bound_abs m p ltac:(lia)) as Hb. pose proof (Z.rem_sign_mul m p ltac:(lia)) as Hs.
    assert (Hr : ((0 <= m -> 0 <= Z.rem m p < p) /\ (m <= 0 -> - p < Z.rem m p <= 0))%Z).
    { destruct (Z.lt_trichotomy m 0) as [?|[->|?]]; [nia| |nia]. rewrite Z.rem_0_l by lia. lia. }
    clear Hb Hs.
    revert Hq Hr. generalize (Z.quot m p) (Z.rem m p). intros q r -> Hr. split; [intros [H1 H2]|intros [H1 H2]; split];
      destruct (Z.le_gt_cases 0%Z (p * q + r)%Z); nia.
Qed.

Lemma trunc_whole m e : same_number m e (float_trunc m e) 0 <-> whole m e.
Proof.
  unfold same_number, float_trunc, whole. case_bool_decide as He.
  - replace (Z.min e 0) with 0%Z by lia. split; [by left|intros _]. change (2 ^ (0 - 0))%Z with 1%Z. rewrite Z.sub_0_r. lia.
  - replace (Z.min e 0) with e by lia. rewrite Z.sub_diag. change (0 - e)%Z with (- e)%Z. assert (Hp : (2 ^ (- e) <> 0)%Z) by (apply Z.pow_nonzero; lia).
    split; [|intros [?|[k ->]]; [lia|rewrite Z.quot_mul by done; lia]]. intros Heq. right. exists (Z.quot m (2 ^ (- e))). lia.
Qed.

Lemma float_integral_iff m e : float_integral m e = true <->
  (fits_int64 m e -> whole m e) /\ (~ fits_int64 m e -> same_number m e (reint_wide m e).1 (reint_wide m e).2).
Proof.
  unfold float_integral. pose proof (trunc_fits m e) as Hf. destruct (in_int64 (float_trunc m e)).
  - rewrite float_eq_iff, trunc_whole. assert (fits_int64 m e) by (by apply Hf). tauto.
  - assert (~ fits_int64 m e) by (intros Hc; by apply Hf in Hc). destruct (reint_wide m e) as [m' e']. rewrite float_eq_iff. simpl. tauto.
Qed.

Lemma schemaTypes_declares s : match schemaTypes s with
  | Some types => types <> [] /\ forall t, t ∈ types <-> declares s t
  | None => forall t, ~ declares s t
  end.
Proof.
  unfold schemaTypes, declares. destruct (field "type" s) as [[]|] eqn:E; try (intros t Hd; naive_solver).
  - split; [done|]. intros t. rewrite list_elem_of_singleton. naive_solver.
  - assert (Ha : forall t, t ∈ as_strings xs <-> AStr t ∈ xs).
    { intros t. unfold as_strings. rewrite list_elem_of_omap. split; [intros (x & Hx & Hs); destruct x; naive_solver|intros Hx; by exists (AStr t)]. }
    destruct (as_strings xs) as [|t0 types] eqn:Et; simpl.
    + intros t [?|[(ts & [= <-] & Ht)|(ts & ? & _)]]; try done. apply Ha in Ht. by apply not_elem_of_nil in Ht.
    + split; [done|]. intros t. rewrite Ha. naive_solver.
  - destruct xs as [|t0 types]; simpl.
    + intros t [?|[(ts & ? & _)|(ts & [= <-] & Ht)]]; try done. by apply not_elem_of_nil in Ht.
    + split; [done|]. naive_solver.
Qed.

Lemma requiredFields_requires s name : name ∈ requiredFields s <-> requires s name.
Proof.
  unfold requiredFields, requires. destruct (field "required" s) as [[]|] eqn:E; rewrite ?elem_of_nil; try naive_solver.
  rewrite list_elem_of_In, in_map_iff. split.
  - intros (f & Hf & Hin%list_elem_of_In). left. exists xs. split; [done|]. destruct f; try (right; naive_solver). left. by subst.
  - intros [(fs & [= <-] & [Hin|(-> & f & Hin & Hf)])|(fs & ? & _)]; [|..|done].
    + exists (AStr name). split; [done|]. by apply list_elem_of_In.
    + exists f. split; [|by apply list_elem_of_In]. destruct f; try done. by destruct (Hf s0).
Qed.

Lemma check_all_ok {A} (f : A -> res unit) xs :
  check_all f xs = Ok tt <-> forall x, x ∈ xs -> f x = Ok tt.
Proof.
  induction xs as [|x xs IH]; simpl.
  - split; [set_solver|done].
  - destruct (f x) as [[]|e] eqn:E; simpl.
    + rewrite IH. split; [|set_solver]. intros Hall y [->|Hy]%elem_of_cons; auto.
    + split; [done|]. intros Hall. rewrite Hall in E by left. done.
Qed.

Lemma with_field_field {A} (f : GoAny -> A) k fs : with_field f k fs = f <$> field k fs.
Proof.
  unfold field. induction fs as [|[k' v] fs IH]; simpl; [done|]. by case_bool_decide.
Qed.

Lemma switch_cons {A} s labels (a : A) cases :
  switch s ((labels, a) :: cases) = if bool_decide (s ∈ labels) then Some a else switch s cases.
Proof. done. Qed.

(** One named type: the check and the clause of [has_type] agree, the other clauses
    are about other names. *)
Ltac single_type v :=
  split;
  [ intros Hx; split_and!; intros Ht; try discriminate Ht; destruct v; try discriminate Hx; eauto
  | intros (H1 & H2 & H3 & H4 & H5 & H6 & H7);
    first [ destruct (H1 eq_refl) as [? ->] | destruct (H3 eq_refl) as (? & ? & ->)
          | destruct (H4 eq_refl) as [? ->] | destruct (H5 eq_refl) as [? ->]
          | destruct (H6 eq_refl) as [? ->] | rewrite (H7 eq_refl) ]; reflexivity ].

Lemma checkSingleType_iff t v : checkSingleType t v = Ok tt <-> has_type t v.
Proof.
  unfold checkSingleType, has_type. rewrite !switch_cons. unfold switch.
  repeat match goal with |- context [bool_decide (t ∈ [?y])] =>
    destruct (decide (t = y)) as [->|?];
    [rewrite bool_decide_true by left | rewrite bool_decide_false by (by rewrite list_elem_of_singleton)]
  end; try single_type v.
  - split.
    + intros Hx. destruct v as [| |m e| | | |]; try discriminate Hx.
      destruct (float_integral m e) eqn:E; [|discriminate Hx]. apply float_integral_iff in E.
      split_and!; intros Ht; try discriminate Ht. by exists m, e.
    + intros (_ & Hi & _). destruct (Hi eq_refl) as (m & e & -> & Hm). apply float_integral_iff in Hm. by rewrite Hm.
  - split; [intros _|reflexivity]. split_and!; intros ->; congruence.
Qed.

Lemma check_types_iff types v le :
  check_types types v le = Ok tt <-> (exists t, t ∈ types /\ has_type t v) \/ (types = [] /\ le = None).
Proof.
  revert le. induction types as [|t types IH]; intros le; simpl.
  - destruct le; split; try done; [intros [(? & Hin & _)|[_ ?]]; [set_solver|done]|by right].
  - pose proof (checkSingleType_iff t v) as Ht. destruct (checkSingleType t v) as [[]|e].
    + split; [|done]. intros _. left. exists t. split; [left|by apply Ht].
    + rewrite IH. split; [set_solver|].
      intros [(t' & [->|Hin]%elem_of_cons & Hh)|[? _]]; [by apply Ht in Hh| |done]. left; eauto.
Qed.

Lemma checkType_iff types v : types <> [] ->
  checkType types v = Ok tt <->
  (v = ANil /\ "null" ∈ types) \/ (v <> ANil /\ exists t, t ∈ types /\ has_type t v).
Proof.
  intros Hne. unfold checkType. destruct v;
    try (rewrite check_types_iff; naive_solver).
  case_bool_decide; naive_solver.
Qed.

Lemma checkEnum_iff s v : checkEnum s v = Ok tt <->
  forall vals, field "enum" s = Some (AArr vals) -> v = ANil \/ exists ev, ev ∈ vals /\ sprint ev = sprint v.
Proof.
  unfold checkEnum. destruct (field "enum" s) as [[]|] eqn:E; try (destruct v; naive_solver).
  assert (Hex : existsb (fun ev => bool_decide (sprint ev = sprint v)) xs = true <->
    exists ev, ev ∈ xs /\ sprint ev = sprint v).
  { rewrite existsb_exists. split; intros (x & Hin & Hx); exists x; bool_hyps;
      (split; [by apply list_elem_of_In|]); [done|by apply bool_decide_eq_true]. }
  destruct (existsb _ xs).
  - destruct v; (split; [intros _ vals [= <-]; right; by apply Hex|reflexivity]).
  - destruct v; try (split; [done|]; intros Hv; destruct (Hv _ eq_refl) as [?|Hv']; [done|by apply Hex in Hv']).
    split; [by left|reflexivity].
Qed.

Lemma checkRequired_iff s obj : checkRequired s obj = Ok tt <->
  forall name, requires s name -> is_Some (field name obj).
Proof.
  unfold checkRequired. rewrite check_all_ok. split; intros Hall name Hin; apply requiredFields_requires in Hin; specialize (Hall name Hin).
  - destruct (field name obj); [by eexists|done].
  - by destruct Hall as [x ->].
Qed.

Lemma res_bind_unit (r : res unit) (k : unit -> res unit) :
  res_bind r k = Ok tt <-> r = Ok tt /\ k tt = Ok tt.
Proof. destruct r as [[]|]; simpl; naive_solver. Qed.

(** Size of a schema node, the measure of the recursion. *)
Fixpoint asize (v : GoAny) : nat :=
  match v with
  | AObj fs => S ((fix go (fs : list (string * GoAny)) : nat :=
      match fs with [] => 0 | (_, v) :: fs => asize v + go fs end) fs)
  | _ => 1
  end.

Lemma asize_elem k v fs : (k, v) ∈ fs -> (asize v < asize (AObj fs))%nat.
Proof.
  induction fs as [|[k' v'] fs IH]; intros Hin; [set_solver|].
  apply elem_of_cons in Hin as [[= -> ->]|Hin].
  - simpl. destruct fs; lia.
  - specialize (IH Hin). simpl in *. lia.
Qed.

Lemma field_elem k v fs : field k fs = Some v -> (k, v) ∈ fs.
Proof.
  unfold field. induction fs as [|[k' v'] fs IH]; simpl; [done|].
  case_bool_decide; [intros [= ->]; subst; left|]. intros Hf. right. auto.
Qed.

(** The two recursive checks, given that the nested nodes agree. *)
Lemma properties_iff s obj :
  (forall ps x, (asize (AObj ps) < asize (AObj s))%nat -> validateValue (AObj ps) x = Ok tt <-> conforms ps x) ->
  default (Ok tt) (with_field (fun p => match p with
      | AObj props => check_all (fun '(name, propSchema) =>
          match propSchema, field name obj with
          | AObj _, Some fieldVal => validateValue propSchema fieldVal
          | _, _ => Ok tt
          end) props
      | _ => Ok tt
      end) "properties" s) = Ok tt <->
  (forall props name ps x, field "properties" s = Some (AObj props) ->
     (name, AObj ps) ∈ props -> field name obj = Some x -> conforms ps x).
Proof.
  intros IH. rewrite with_field_field. destruct (field "properties" s) as [[]|] eqn:E; simpl; try naive_solver.
  assert (Hsz : forall name ps, (name, AObj ps) ∈ fields -> (asize (AObj ps) < asize (AObj s))%nat).
  { intros name ps Hin%asize_elem. apply field_elem, asize_elem in E. lia. }
  rewrite check_all_ok. split.
  - intros Hall props name ps x [= <-] Hin Hx. specialize (Hall _ Hin). simpl in Hall.
    rewrite Hx in Hall. apply IH; eauto.
  - intros Hall [name ps] Hin. destruct ps; try done.
    destruct (field name obj) eqn:Hx; [|done]. apply IH; eauto.
Qed.

Lemma items_iff s arr :
  (forall ps x, (asize (AObj ps) < asize (AObj s))%nat -> validateValue (AObj ps) x = Ok tt <-> conforms ps x) ->
  default (Ok tt) (with_field (fun p => match p with
      | AObj _ => check_all (fun item => validateValue p item) arr
      | _ => Ok tt
      end) "items" s) = Ok tt <->
  (forall item x, field "items" s = Some (AObj item) -> x ∈ arr -> conforms item x).
Proof.
  intros IH. rewrite with_field_field. destruct (field "items" s) as [[]|] eqn:E; simpl; try naive_solver.
  rewrite check_all_ok. apply field_elem, asize_elem in E.
  split; [intros Hall item x [= <-] Hin|intros Hall x Hin]; apply IH; eauto.
Qed.

Lemma validateValue_conforms n s v : (asize (AObj s) <= n)%nat ->
  validateValue (AObj s) v = Ok tt <-> conforms s v.
Proof.
  revert s v. induction n as [|n IHn]; intros s v Hn; [simpl in Hn; lia|].
  assert (IH : forall ps x, (asize (AObj ps) < asize (AObj s))%nat ->
    validateValue (AObj ps) x = Ok tt <-> conforms ps x) by (intros; apply IHn; lia). clear IHn Hn.
  cbn [validateValue]. rewrite !res_bind_unit, checkEnum_iff.
  assert (Htypes : match schemaTypes s with Some types => checkType types v | None => Ok tt end = Ok tt <->
    ((exists t, declares s t) -> (v = ANil /\ declares s "null") \/ (v <> ANil /\ exists t, declares s t /\ has_type t v))).
  { pose proof (schemaTypes_declares s) as Hd. destruct (schemaTypes s) as [types|]; [|naive_solver]. destruct Hd as [Hne Hd].
    rewrite checkType_iff by done. setoid_rewrite Hd. split; [naive_solver|]. intros Hx. apply Hx.
    destruct types as [|t types]; [done|]. exists t. apply Hd. left. }
  rewrite Htypes. clear Htypes. split.
  - intros (Ht & He & Ho & Ha). constructor; [exact Ht|exact He|..].
    + intros obj name -> Hin. apply res_bind_unit in Ho as [Hr _]. by eapply checkRequired_iff in Hr.
    + intros obj props name ps x ->. apply res_bind_unit in Ho as [_ Hp].
      rewrite properties_iff in Hp by done. eauto.
    + intros xs item x ->. rewrite items_iff in Ha by done. eauto.
  - inversion 1 as [s' v' Ht He Hr Hp Hi]; subst. split; [exact Ht|]. split; [exact He|]. split.
    + destruct v; try reflexivity. apply res_bind_unit. split; [apply checkRequired_iff; eauto|].
      apply properties_iff; eauto.
    + destruct v; try reflexivity. apply items_iff; eauto.
Qed.


End Meaning.

(** The conversion of amd64: an out-of-range float64 becomes -2^63. *)
#[local] Instance amd64_json : JSONLib := {|
  json_decode s := if bool_decide (s = "1e19") then Some (AFloat 10000000000000000000 0) else None;
  json_Valid _ := true;
  sprint _ := "";
  reint_wide _ _ := (-9223372036854775808, 0)%Z |}.

(** An integer beyond the range of int64 is rejected as "fractional": on amd64
    the JSON number 1e19 does not satisfy the type integer, although it has no
    fractional part. *)
Theorem integer_check_rejects_wide_integers :
  float_eq 10000000000000000000 0 (float_trunc 10000000000000000000 0) 0 = true /\
  ValidateToolInput (AObj [("type", AStr "integer")]) (Some "1e19") =
    Err (ENew "expected integer, got fractional number").
Proof. split; vm_compute; reflexivity. Qed.
