(* ===== verification/Tool.v ===== *)
(** Tools (agent/tool/tool.go, rbac.go, registry.go, guard.go), the caller's
    identity (agent/identity.go), tool visibility (agent/tool_visibility.go) and
    middleware (agent/middleware.go). *)
From stdpp Require Import sorting.
From S2P Require Import Prelude Errors Messages Execution Schema.

(** * Identity *)

(* agent/identity.go:10-21: Principal *)
Record Principal := mkPrincipal {
  pr_ID : string; pr_Roles : list string;
  pr_Attrs : gmap string string; pr_Credentials : gmap string string }.

#[global] Instance eta_Principal : Settable Principal := fun p =>
  mkPrincipal (pr_ID p) (pr_Roles p) (pr_Attrs p) (pr_Credentials p).

(* agent/identity.go: Principal.HasRole *)
Definition HasRole (p : Principal) (role : string) : bool :=
  existsb (fun r => bool_decide (r = role)) (pr_Roles p).

(* agent/identity.go: Principal.HasAnyRole *)
Definition HasAnyRole (p : Principal) (roles : list string) : bool := existsb (HasRole p) roles.

(* agent/identity.go: Context.WithNarrowedRoles *)
Definition WithNarrowedRoles (p : option Principal) (allowed : list string) : option Principal :=
  match p with
  | None => None
  | Some p => Some (p <| pr_Roles := List.filter (fun r => bool_decide (r ∈ allowed)) (pr_Roles p) |>)
  end.

(** * Role and attribute policies *)

(* agent/tool/rbac.go:4-9: rolePolicy *)
Record rolePolicy := mkRolePolicy {
  rp_allowRoles : gset string; rp_denyRoles : gset string;
  rp_attrConditions : list (gmap string string -> bool);
  rp_denyConditions : list (gmap string string -> bool) }.

#[global] Instance eta_rolePolicy : Settable rolePolicy := fun p =>
  mkRolePolicy (rp_allowRoles p) (rp_denyRoles p) (rp_attrConditions p) (rp_denyConditions p).

Definition rolePolicy_zero : rolePolicy := mkRolePolicy ∅ ∅ [] [].

(* agent/tool/rbac.go: rolePolicy.allowedRoles *)
Definition allowedRoles (p : rolePolicy) (roles : list string) : bool :=
  if existsb (fun r => bool_decide (r ∈ rp_denyRoles p)) roles then false
  else if bool_decide (rp_allowRoles p = ∅) then true
  else existsb (fun r => bool_decide (r ∈ rp_allowRoles p)) roles.

(* agent/tool/rbac.go: rolePolicy.allowedAttrs *)
Definition allowedAttrs (p : rolePolicy) (attrs : gmap string string) : bool :=
  if existsb (fun cond => cond attrs) (rp_denyConditions p) then false
  else forallb (fun cond => cond attrs) (rp_attrConditions p).

(* agent/tool/rbac.go: rolePolicy.allowedWithAttrs *)
Definition allowedWithAttrs (p : rolePolicy) (roles : list string) (attrs : gmap string string) : bool :=
  if negb (allowedRoles p roles) then false else allowedAttrs p attrs.

(** * Tools *)

(** What a handler may do to its tool call through the framework: emit a widget
    or a custom event, or ask for human input. *)
Inductive HandlerAct : Type :=
| ActEmitWidget (w : Widget)
| ActEmitEvent (name : string) (payload : RawMessage)
| ActHumanInput (input : InputInterrupt).

(** The part of the tool-call context a handler, guard or middleware can read. *)
Record HandlerCtx := mkHandlerCtx {
  hc_CallID : string; hc_Name : string; hc_ConversationID : string;
  hc_Principal : option Principal; hc_Key : string; hc_Replay : bool }.

(* agent/tool/tool.go:28-32: Spec *)
Record Spec := mkSpec { sp_Name : string; sp_Description : string; sp_InputSchema : option GoAny }.

(* agent/tool/tool.go:45-56: Output and Image *)
Record Output := mkOutput { o_Text : string; o_Images : list ImageSource }.

(* agent/middleware.go:9-13: ToolCall *)
Record ToolCallView := mkToolCallView { tcv_ID : string; tcv_Name : string; tcv_Input : RawMessage }.

(* agent/middleware.go:16-20: ToolResult *)
Record ToolResult := mkToolResultV { rv_Text : string; rv_Images : list ImageSource; rv_IsError : bool }.

Section Tools.
Context {W : Type}.

(** Code of the application: a step on the world, with the calls it made into the
    framework and its Go result. *)
Definition HM (A : Type) : Type := W -> (list HandlerAct * res A) * W.

(* agent/tool/tool.go:137-150: Tool *)
Record Tool := mkTool {
  t_Spec : Spec;
  t_Handler : option (HandlerCtx -> RawMessage -> HM string);
  t_RichHandler : option (HandlerCtx -> RawMessage -> HM (option Output));
  t_Guard : option (HandlerCtx -> RawMessage -> HM Decision);
  t_needsApproval : bool; t_replaySafe : bool; t_rolePolicy : option rolePolicy }.

#[global] Instance eta_Tool : Settable Tool := fun t =>
  mkTool (t_Spec t) (t_Handler t) (t_RichHandler t) (t_Guard t)
    (t_needsApproval t) (t_replaySafe t) (t_rolePolicy t).

(* agent/tool/tool.go: Tool.Validate *)
Definition Tool_Validate (t : Tool) : res unit :=
  if bool_decide (sp_Name (t_Spec t) = "") then Err (ENew "tool name is required")
  else if bool_decide (sp_Description (t_Spec t) = "") then Err (ENew "description is required")
  else match t_Handler t, t_RichHandler t with
  | None, None => Err (ENew "handler is required")
  | _, _ => match sp_InputSchema (t_Spec t) with
      | None => Err (ENew "input schema is required")
      | Some _ => Ok tt
      end
  end.

(* agent/tool/rbac.go: AllowRoles *)
Definition AllowRoles (roles : list string) (t : Tool) : Tool :=
  let p := default rolePolicy_zero (t_rolePolicy t) in
  t <| t_rolePolicy := Some (p <| rp_allowRoles := rp_allowRoles p ∪ list_to_set roles |>) |>.

(* agent/tool/rbac.go: DenyRoles *)
Definition DenyRoles (roles : list string) (t : Tool) : Tool :=
  let p := default rolePolicy_zero (t_rolePolicy t) in
  t <| t_rolePolicy := Some (p <| rp_denyRoles := rp_denyRoles p ∪ list_to_set roles |>) |>.

(* agent/tool/rbac.go: AllowWhen *)
Definition AllowWhen (cond : gmap string string -> bool) (t : Tool) : Tool :=
  let p := default rolePolicy_zero (t_rolePolicy t) in
  t <| t_rolePolicy := Some (p <| rp_attrConditions := rp_attrConditions p ++ [cond] |>) |>.

(* agent/tool/rbac.go: DenyWhen *)
Definition DenyWhen (cond : gmap string string -> bool) (t : Tool) : Tool :=
  let p := default rolePolicy_zero (t_rolePolicy t) in
  t <| t_rolePolicy := Some (p <| rp_denyConditions := rp_denyConditions p ++ [cond] |>) |>.

(* agent/tool/rbac.go: Tool.RolesAllowed *)
Definition RolesAllowed (t : Tool) (roles : list string) : bool :=
  match t_rolePolicy t with None => true | Some p => allowedRoles p roles end.

(* agent/tool/rbac.go: Tool.AllowedForPrincipal *)
Definition AllowedForPrincipal (t : Tool) (principal : option Principal) : bool :=
  match t_rolePolicy t, principal with
  | None, _ => true
  | Some _, None => false
  | Some p, Some pr => allowedWithAttrs p (pr_Roles pr) (pr_Attrs pr)
  end.

(** * Registry *)

(* agent/tool/registry.go:10-13: Registry *)
Definition Registry : Type := gmap string Tool.

(* agent/tool/registry.go: Registry.Register *)
Definition Register (r : Registry) (t : Tool) : res Registry :=
  letr _ := Tool_Validate t in
  match r !! sp_Name (t_Spec t) with
  | Some _ => Err (ENew "duplicate tool name")
  | None => Ok (<[sp_Name (t_Spec t) := t]> r)
  end.

(* agent/tool/registry.go: Registry.Unregister *)
Definition Unregister (r : Registry) (name : string) : bool * Registry :=
  match r !! name with
  | None => (false, r)
  | Some _ => (true, delete name r)
  end.

(* agent/tool/registry.go: Registry.Lookup *)
Definition Lookup (r : Registry) (name : string) : option Tool := r !! name.

(** Tools by name, in Go's bytewise string order. *)
Definition name_le (t1 t2 : Tool) : Prop := String.le (sp_Name (t_Spec t1)) (sp_Name (t_Spec t2)).

#[global] Instance name_le_dec : RelDecision name_le.
Proof. unfold name_le. intros t1 t2. apply _. Defined.

(** sort.Slice by name; names are unique, so the result does not depend on the
    sorting algorithm. *)
(* agent/tool/registry.go: Registry.List *)
Definition Registry_List (r : Registry) : list Tool :=
  merge_sort name_le (map snd (map_to_list r)).

(** * Visibility *)

(* agent/tool_visibility.go:18: ToolVisibility *)
Definition ToolVisibility : Type := option Principal -> Tool -> bool.

(* agent/tool_visibility.go: Agent.isVisible *)
Definition isVisible (rules : list ToolVisibility) (p : option Principal) (t : Tool) : bool :=
  forallb (fun rule => rule p t) rules.

(* agent/tool_visibility.go: Agent.visibleTools *)
Definition visibleTools (r : Registry) (rules : list ToolVisibility) (p : option Principal)
  : list Spec * gmap string Tool :=
  let shown := List.filter (fun t => is_nil rules || isVisible rules p t) (Registry_List r) in
  (map t_Spec shown,
   fold_left (fun tools t => <[sp_Name (t_Spec t) := t]> tools) shown ∅).

(* agent/identity.go: RoleVisibility *)
Definition RoleVisibility : ToolVisibility := fun p t => AllowedForPrincipal t p.

(* agent/identity.go: RequirePrincipalVisibility *)
Definition RequirePrincipalVisibility : ToolVisibility := fun p _ => bool_decide (is_Some p).

(** * Middleware *)

(* agent/middleware.go:23: ToolHandlerFunc *)
Definition ToolHandlerFunc : Type := HandlerCtx -> ToolCallView -> HM ToolResult.

(* agent/middleware.go:26: Middleware *)
Definition Middleware : Type := ToolHandlerFunc -> ToolHandlerFunc.

(* agent/middleware.go: ChainMiddleware *)
Definition ChainMiddleware (handler : ToolHandlerFunc) (mws : list Middleware) : ToolHandlerFunc :=
  fold_right (fun mw h => mw h) handler mws.

(** * Lemmas *)

(** What a registry holds: valid tools under their own names. *)
Definition registry_wf (r : Registry) : Prop :=
  map_Forall (fun name t => sp_Name (t_Spec t) = name /\ Tool_Validate t = Ok tt) r.

Lemma Register_wf r t r' : registry_wf r -> Register r t = Ok r' -> registry_wf r'.
Proof.
  unfold Register. intros Hr H. apply res_bind_ok in H as ([] & Hv & H).
  case_match; [done|]. injection H as <-. by apply map_Forall_insert_2.
Qed.

Lemma Unregister_wf r name : registry_wf r -> registry_wf (snd (Unregister r name)).
Proof. unfold Unregister. case_match; simpl; [|done]. apply map_Forall_delete. Qed.

#[local] Instance name_le_total : Total name_le.
Proof. intros t1 t2. unfold name_le. apply (total String.le). Qed.

#[local] Instance name_le_trans : Transitive name_le.
Proof. unfold name_le. intros t1 t2 t3. apply transitivity. Qed.

Lemma Registry_List_elem r t : t ∈ Registry_List r <-> exists name, r !! name = Some t.
Proof.
  unfold Registry_List. rewrite merge_sort_Permutation, list_elem_of_In, in_map_iff. split.
  - intros ([name t'] & <- & Hin%list_elem_of_In). exists name. by apply elem_of_map_to_list.
  - intros [name Hn]. exists (name, t). split; [done|]. by apply list_elem_of_In, elem_of_map_to_list.
Qed.

Lemma Registry_List_names r : registry_wf r ->
  NoDup (map (fun t => sp_Name (t_Spec t)) (Registry_List r)).
Proof.
  intros Hr. unfold Registry_List. rewrite merge_sort_Permutation, map_map.
  replace (map _ (map_to_list r)) with (map_to_list r).*1; [apply NoDup_fst_map_to_list|].
  apply map_ext_in. intros [name t] Hin%list_elem_of_In%elem_of_map_to_list. by destruct (Hr name t Hin) as [<- _].
Qed.

(** The registry keeps every tool under its own name, and List is the sorted
    enumeration of exactly the registered tools, each name once. *)
Theorem Registry_List_spec r : registry_wf r ->
  StronglySorted name_le (Registry_List r) /\
  NoDup (map (fun t => sp_Name (t_Spec t)) (Registry_List r)) /\
  (forall t, t ∈ Registry_List r <-> Lookup r (sp_Name (t_Spec t)) = Some t).
Proof.
  intros Hr. split_and!.
  - apply StronglySorted_merge_sort; apply _.
  - by apply Registry_List_names.
  - intros t. rewrite Registry_List_elem. split; [|by eexists].
    intros [name Hn]. destruct (Hr _ _ Hn) as [<- _]. done.
Qed.

(** The map that visibleTools builds. *)
Lemma tools_map_lookup (ts : list Tool) (tools : gmap string Tool) name t :
  NoDup (map (fun t => sp_Name (t_Spec t)) ts) ->
  (forall t', t' ∈ ts -> tools !! sp_Name (t_Spec t') = None) ->
  fold_left (fun tools t => <[sp_Name (t_Spec t) := t]> tools) ts tools !! name = Some t <->
  tools !! name = Some t \/ (t ∈ ts /\ sp_Name (t_Spec t) = name).
Proof.
  revert tools. induction ts as [|t' ts IH]; intros tools Hnd Hfresh; simpl.
  { split; [by left|]. intros [?|[Hin _]]; [done|set_solver]. }
  simpl in Hnd. apply NoDup_cons in Hnd as [Hnin Hnd].
  assert (Hne : forall t2, t2 ∈ ts -> sp_Name (t_Spec t') <> sp_Name (t_Spec t2)).
  { intros t2 Hin Heq. apply Hnin. rewrite Heq. apply list_elem_of_In, (in_map (fun t => sp_Name (t_Spec t))), list_elem_of_In, Hin. }
  rewrite IH; [|done|].
  - destruct (decide (sp_Name (t_Spec t') = name)) as [<-|Hn].
    + rewrite lookup_insert_eq. specialize (Hfresh t'). set_solver.
    + rewrite lookup_insert_ne by done. set_solver.
  - intros t2 Hin. rewrite lookup_insert_ne by auto. set_solver.
Qed.

(** Visibility is conjunctive and complete: the execution map of a provider call
    holds exactly the registered tools that pass every rule; under RoleVisibility a
    tool is offered exactly when the execution check would allow the caller. *)
Theorem visibleTools_spec r rules p : registry_wf r ->
  forall name t, (visibleTools r rules p).2 !! name = Some t <->
    Lookup r name = Some t /\ forall rule, rule ∈ rules -> rule p t = true.
Proof.
  intros Hr name t. unfold visibleTools. simpl.
  rewrite tools_map_lookup.
  - rewrite lookup_empty, list_elem_of_In, List.filter_In, <- list_elem_of_In, Registry_List_elem.
    assert (Hvis : is_nil rules || isVisible rules p t = true <-> forall rule, rule ∈ rules -> rule p t = true).
    { unfold isVisible. destruct rules as [|rule rules]; [simpl; set_solver|].
      change (is_nil (rule :: rules)) with false. rewrite orb_false_l, forallb_forall.
      split; intros Hall x Hx; apply Hall; by apply list_elem_of_In. }
    rewrite Hvis. unfold Lookup. split.
    + intros [?|[[[name' Hn] Hall] Hname]]; [done|]. destruct (Hr _ _ Hn) as [Hn' _]. by subst.
    + intros [Hn Hall]. right. destruct (Hr _ _ Hn) as [Hn' _]. split_and!; eauto.
  - pose proof (Registry_List_names r Hr) as Hnd. revert Hnd.
    generalize (Registry_List r). intros ts Hnd. induction ts as [|t' ts IH]; simpl in *; [constructor|].
    apply NoDup_cons in Hnd as [Hnin Hnd]. destruct (_ || _); [|auto]. simpl. constructor; [|auto].
    intros Hin. apply Hnin. apply list_elem_of_In, in_map_iff in Hin as (t2 & Heq & Hin).
    apply List.filter_In in Hin as [Hin _]. apply list_elem_of_In, in_map_iff. eauto.
  - intros t' _. apply lookup_empty.
Qed.

End Tools.

Arguments Tool W : clear implicits.
Arguments HM W A : clear implicits.
Arguments Registry W : clear implicits.
Arguments ToolVisibility W : clear implicits.
Arguments Middleware W : clear implicits.
Arguments ToolHandlerFunc W : clear implicits.

(** * Policies *)

Lemma allowedRoles_iff pol roles : allowedRoles pol roles = true <->
  (forall r, r ∈ roles -> r ∉ rp_denyRoles pol) /\
  (rp_allowRoles pol = ∅ \/ exists r, r ∈ roles /\ r ∈ rp_allowRoles pol).
Proof.
  unfold allowedRoles. rewrite <- (existsb_decide_false (fun r => r ∈ rp_denyRoles pol)).
  rewrite <- (existsb_decide_true (fun r => r ∈ rp_allowRoles pol)).
  destruct (existsb (fun r => bool_decide (r ∈ rp_denyRoles pol)) roles); [split; [done|by intros [? _]]|].
  case_bool_decide as He; [by split; [split; [|left]|]|].
  split; [by split; [|right]|]. by intros [_ [?|?]].
Qed.

Lemma allowedAttrs_iff pol attrs : allowedAttrs pol attrs = true <->
  (forall c, c ∈ rp_denyConditions pol -> c attrs = false) /\
  (forall c, c ∈ rp_attrConditions pol -> c attrs = true).
Proof.
  unfold allowedAttrs. rewrite <- (existsb_false (fun c => c attrs)).
  assert (Hall : forallb (fun c => c attrs) (rp_attrConditions pol) = true <->
    forall c, c ∈ rp_attrConditions pol -> c attrs = true).
  { rewrite forallb_forall. split; intros Hc c Hin; apply Hc; by apply list_elem_of_In. }
  rewrite <- Hall. destruct (existsb _ _); [split; [done|by intros [? _]]|].
  split; [by split|by intros [_ ?]].
Qed.

(** The policy of a tool in one sentence: a declared policy needs a principal,
    whose roles contain no denied role and, when an allow list exists, some allowed
    role, and whose attributes meet no deny condition and every allow condition. *)
Theorem AllowedForPrincipal_iff {W} (t : Tool W) p :
  AllowedForPrincipal t p = true <->
  t_rolePolicy t = None \/
  exists pol pr, t_rolePolicy t = Some pol /\ p = Some pr /\
    (forall r, r ∈ pr_Roles pr -> r ∉ rp_denyRoles pol) /\
    (rp_allowRoles pol = ∅ \/ exists r, r ∈ pr_Roles pr /\ r ∈ rp_allowRoles pol) /\
    (forall c, c ∈ rp_denyConditions pol -> c (pr_Attrs pr) = false) /\
    (forall c, c ∈ rp_attrConditions pol -> c (pr_Attrs pr) = true).
Proof.
  unfold AllowedForPrincipal. destruct (t_rolePolicy t) as [pol|]; [|by split; [left|]].
  destruct p as [pr|]; [|split; [done|by intros [?|(? & ? & _ & ? & _)]]].
  unfold allowedWithAttrs.
  pose proof (allowedRoles_iff pol (pr_Roles pr)) as Hr.
  pose proof (allowedAttrs_iff pol (pr_Attrs pr)) as Ha.
  destruct (allowedRoles _ _); simpl; split.
  - intros [? ?]%Ha. destruct Hr as [[? ?] _]; [done|]. right. by exists pol, pr.
  - intros [?|(? & ? & [= <-] & [= <-] & _ & _ & ? & ?)]; [done|]. by apply Ha.
  - done.
  - intros [?|(? & ? & [= <-] & [= <-] & ? & ? & _)]; [done|]. by apply Hr.
Qed.

(** Narrowing roles for a sub-task never grants access: a tool whose policy
    denies no role is allowed to the narrowed principal only if it was allowed to
    the full one, and the narrowed principal holds only roles of both sets. *)
Theorem WithNarrowedRoles_restricts {W} (t : Tool W) p allowed :
  (forall pol, t_rolePolicy t = Some pol -> rp_denyRoles pol = ∅) ->
  AllowedForPrincipal t (WithNarrowedRoles p allowed) = true -> AllowedForPrincipal t p = true.
Proof.
  intros Hnd. unfold AllowedForPrincipal. destruct (t_rolePolicy t) as [pol|]; [|done].
  specialize (Hnd _ eq_refl). destruct p as [pr|]; [|done]. simpl.
  unfold allowedWithAttrs. intros H. destruct (allowedRoles pol (List.filter _ _)) eqn:E; [|done].
  simpl in H. rewrite H. apply allowedRoles_iff in E as [_ E].
  rewrite (proj2 (allowedRoles_iff pol (pr_Roles pr))); [done|]. split; [rewrite Hnd; set_solver|].
  destruct E as [?|(r & Hin & Hr)]; [by left|]. right. exists r. split; [|done].
  apply list_elem_of_In, List.filter_In in Hin as [Hin _]. by apply list_elem_of_In.
Qed.

(** A principal and a tool with an allow rule; the second tool denies a role. *)
Definition sample_principal : Principal := mkPrincipal "u1" ["guest"; "admin"] ∅ ∅.
Definition sample_tool : Tool unit :=
  mkTool (mkSpec "delete_order" "Deletes an order" (Some (AObj [("type", AStr "object")])))
    (Some (fun _ _ w => (([], Ok "done"), w))) None None false false None.

Lemma WithNarrowedRoles_restricts_witness :
  AllowedForPrincipal (AllowRoles ["admin"] sample_tool) (Some sample_principal) = true.
Proof.
  apply (WithNarrowedRoles_restricts (AllowRoles ["admin"] sample_tool) (Some sample_principal) ["admin"]).
  - intros pol [= <-]. reflexivity.
  - vm_compute. reflexivity.
Defined.

(** Narrowing can grant access where a tool denies a role: a caller refused for
    holding "guest" is allowed once its roles are narrowed to "admin", although the
    narrowing is documented as a way to reduce permissions. *)
Theorem WithNarrowedRoles_can_grant :
  let t := DenyRoles ["guest"] sample_tool in
  AllowedForPrincipal t (Some sample_principal) = false /\
  AllowedForPrincipal t (WithNarrowedRoles (Some sample_principal) ["admin"]) = true.
Proof. split; vm_compute; reflexivity. Qed.

Lemma sample_registry_wf : registry_wf ({[ "delete_order" := sample_tool ]} : Registry unit).
Proof.
  intros name t H. apply (lookup_singleton_Some (M := gmap string)) in H as [<- <-]. by split.
Qed.

Lemma Registry_List_spec_witness :
  let r : Registry unit := {[ "delete_order" := sample_tool ]} in
  registry_wf r /\ sample_tool ∈ Registry_List r.
Proof.
  set (r := {[ "delete_order" := sample_tool ]} : Registry unit).
  assert (Hr : registry_wf r) by (apply sample_registry_wf).
  split; [exact Hr|]. apply (Registry_List_spec r Hr). reflexivity.
Defined.

Lemma visibleTools_spec_witness :
  let r : Registry unit := {[ "delete_order" := sample_tool ]} in
  (visibleTools r [RoleVisibility] None).2 !! "delete_order" = Some sample_tool.
Proof.
  set (r := {[ "delete_order" := sample_tool ]} : Registry unit).
  assert (Hr : registry_wf r) by (apply sample_registry_wf).
  apply (visibleTools_spec r [RoleVisibility] None Hr). split; [reflexivity|].
  intros rule ->%list_elem_of_singleton. reflexivity.
Defined.
