(* ===== verification/Inference.v ===== *)
(** Inference configuration (agent/inference_config.go): merging the agent's and
    the invocation's settings and checking their ranges. *)
From S2P Require Import Prelude Errors Messages.

(** A float64: a finite value [m * 2^e], an infinity or NaN. *)
Inductive float64 : Type :=
| F64 (m e : Z)
| F64Inf (negative : bool)
| F64NaN.

#[global] Instance float64_eq_dec : EqDecision float64.
Proof. solve_decision. Defined.

(** The comparisons with 0.0 and 1.0 of IEEE 754; NaN compares false. *)
Definition lt_zero (f : float64) : bool :=
  match f with F64 m _ => bool_decide (m < 0)%Z | F64Inf neg => neg | F64NaN => false end.
Definition gt_one (f : float64) : bool :=
  match f with
  | F64 m e => if bool_decide (0 <= e)%Z then bool_decide (1 < m * 2 ^ e)%Z
               else bool_decide (2 ^ (- e) < m)%Z
  | F64Inf neg => negb neg
  | F64NaN => false
  end.

(* agent/provider.go:71-77: InferenceConfig *)
Record InferenceConfig := mkInference {
  ic_Temperature : option float64; ic_TopP : option float64; ic_TopK : option Z;
  ic_StopSequences : option (list string); ic_MaxTokens : option Z }.

#[global] Instance InferenceConfig_eq_dec : EqDecision InferenceConfig.
Proof. solve_decision. Defined.
#[global] Instance eta_InferenceConfig : Settable InferenceConfig := fun c =>
  mkInference (ic_Temperature c) (ic_TopP c) (ic_TopK c) (ic_StopSequences c) (ic_MaxTokens c).

(** [if over != nil { base = over }] *)
Definition prefer {A} (over base : option A) : option A :=
  match over with Some _ => over | None => base end.

(* agent/inference_config.go: mergeInferenceConfig *)
Definition mergeInferenceConfig (agentLevel perInvocation : option InferenceConfig) : option InferenceConfig :=
  match agentLevel, perInvocation with
  | None, None => None
  | None, Some p => Some p
  | Some a, None => Some a
  | Some a, Some p => Some (mkInference
      (prefer (ic_Temperature p) (ic_Temperature a)) (prefer (ic_TopP p) (ic_TopP a))
      (prefer (ic_TopK p) (ic_TopK a)) (prefer (ic_StopSequences p) (ic_StopSequences a))
      (prefer (ic_MaxTokens p) (ic_MaxTokens a)))
  end.

(** A range check on a set field. *)
Definition check_set {A} (bad : A -> bool) (msg : string) (v : option A) : res unit :=
  match v with
  | Some x => if bad x then Err (ENew msg) else Ok tt
  | None => Ok tt
  end.

(* agent/inference_config.go: validateInferenceConfig *)
Definition validateInferenceConfig (cfg : option InferenceConfig) : res unit :=
  match cfg with
  | None => Ok tt
  | Some cfg =>
      letr _ := check_set (fun f => lt_zero f || gt_one f) "temperature must be between 0.0 and 1.0" (ic_Temperature cfg) in
      letr _ := check_set (fun f => lt_zero f || gt_one f) "top_p must be between 0.0 and 1.0" (ic_TopP cfg) in
      letr _ := check_set (fun k => bool_decide (k < 1)%Z) "top_k must be >= 1" (ic_TopK cfg) in
      check_set (fun k => bool_decide (k < 1)%Z) "max_tokens must be >= 1" (ic_MaxTokens cfg)
  end.

(** * Properties *)

Definition ic_unset : InferenceConfig := mkInference None None None None None.

Lemma prefer_assoc {A} (a b c : option A) : prefer a (prefer b c) = prefer (prefer a b) c.
Proof. by destruct a, b. Qed.

(** Valid in the sense of the error messages: every set field in its range (NaN
    passes, since it compares false with both bounds). *)
Definition in_range (f : float64) : Prop :=
  match f with
  | F64 m e => (0 <= m)%Z /\ (if bool_decide (0 <= e)%Z then m * 2 ^ e <= 1 else m <= 2 ^ (- e))%Z
  | F64NaN => True
  | F64Inf _ => False
  end.

Lemma in_range_iff f : lt_zero f || gt_one f = false <-> in_range f.
Proof.
  rewrite orb_false_iff. destruct f as [m e|[]|]; simpl; [|naive_solver..].
  destruct (bool_decide (0 <= e)%Z); rewrite !bool_decide_eq_false; lia.
Qed.

Lemma check_set_ok {A} (bad : A -> bool) msg v :
  check_set bad msg v = Ok tt <-> forall x, v = Some x -> bad x = false.
Proof.
  destruct v as [x|]; simpl; [|naive_solver].
  destruct (bad x) eqn:E; split; try done.
  - intros H. by rewrite H in E.
  - by intros _ y [= <-].
Qed.

(** Merging is field-wise preference of the invocation over the agent, so that it
    is associative with "nothing set" as its unit, and what validation accepts is
    exactly a configuration whose set fields are all in range. *)
Theorem inference_merge_and_validate a b c :
  mergeInferenceConfig (mergeInferenceConfig a b) c = mergeInferenceConfig a (mergeInferenceConfig b c) /\
  mergeInferenceConfig (Some ic_unset) (Some (default ic_unset a)) = Some (default ic_unset a) /\
  mergeInferenceConfig (Some (default ic_unset a)) (Some ic_unset) = Some (default ic_unset a) /\
  (validateInferenceConfig a = Ok tt <-> forall cfg, a = Some cfg ->
    (forall f, ic_Temperature cfg = Some f \/ ic_TopP cfg = Some f -> in_range f) /\
    (forall k, ic_TopK cfg = Some k \/ ic_MaxTokens cfg = Some k -> (1 <= k)%Z)).
Proof.
  split_and!.
  - destruct a as [[]|], b as [[]|], c as [[]|]; simpl; try done. by rewrite !prefer_assoc.
  - by destruct a as [[[] [] [] [] []]|].
  - by destruct a as [[[] [] [] [] []]|].
  - destruct a as [cfg|]; [|naive_solver]. simpl.
    split.
    + intros H. repeat (apply res_bind_ok in H as ([] & ?Hc & H)).
      rewrite !check_set_ok in *. intros cfg' [= <-]. split; intros x [Hx|Hx].
      * apply in_range_iff; auto.
      * apply in_range_iff; auto.
      * apply Hc1 in Hx. bool_hyps. lia.
      * apply H in Hx. bool_hyps. lia.
    + intros Hall. destruct (Hall _ eq_refl) as [Hf Hk].
      rewrite !(proj2 (check_set_ok _ _ _)); [done|..]; intros x Hx.
      * apply bool_decide_eq_false. specialize (Hk x (or_intror Hx)). lia.
      * apply bool_decide_eq_false. specialize (Hk x (or_introl Hx)). lia.
      * apply in_range_iff. auto.
      * apply in_range_iff. auto.
Qed.

(** A temperature of NaN passes the range check, because both comparisons with
    NaN are false. *)
Theorem validate_accepts_nan :
  validateInferenceConfig (Some (ic_unset <| ic_Temperature := Some F64NaN |>)) = Ok tt.
Proof. reflexivity. Qed.
