(* ===== verification/Stores.v ===== *)
(** The storage interfaces of the engine (agent/conversation.go, agent/execution.go)
    and their contracts.

    A store is a record of operations over a world [W] that holds everything outside
    the engine.  Its contract is a class over the store: what the documentation of
    the interface promises, in terms of the transcript (or the execution records)
    that an observer of the world sees.  The contract allows other processes to act
    between and during the calls, an acknowledgement to be lost, and every operation
    to fail; it forbids rewriting history and compare-and-swap with two winners. *)
From S2P Require Import Prelude Errors Messages Execution.

(* agent/conversation.go:15-18: ConversationCursor *)
Record ConversationCursor := mkCursor { cu_Revision : N; cu_LastSequence : N }.

(* agent/conversation.go:23-27: ConversationSnapshot *)
Record ConversationSnapshot := mkSnapshot {
  sn_Messages : list Message; sn_Revision : N; sn_LastSequence : N }.

(* agent/conversation.go:56-65: ConversationStore *)
Record ConversationStore (W : Type) := mkConversationStore {
  cs_Load : string -> W -> res ConversationSnapshot * W;
  cs_LoadAfter : string -> N -> W -> res ConversationSnapshot * W;
  cs_Append : string -> list Message -> N -> W -> res ConversationCursor * W }.
Arguments cs_Load {W}.
Arguments cs_LoadAfter {W}.
Arguments cs_Append {W}.
Arguments mkConversationStore {W}.

(* agent/execution.go:162-166: ExecutionStore *)
Record ExecutionStore (W : Type) := mkExecutionStore {
  es_Create : Execution -> W -> res Execution * W;
  es_Load : string -> W -> res Execution * W;
  es_Save : Execution -> N -> W -> res Execution * W }.
Arguments es_Create {W}.
Arguments es_Load {W}.
Arguments es_Save {W}.
Arguments mkExecutionStore {W}.

(* agent/conversation.go: ForkConversation *)
Definition ForkConversation {W} (store : ConversationStore W) (sourceID newID : string) (w : W) : res unit * W :=
  match cs_Load store sourceID w with
  | (Err e, w) => (Err e, w)
  | (Ok snapshot, w) =>
      match cs_Append store newID (sn_Messages snapshot) 0 w with
      | (Err e, w) => (Err (EWrap "fork conversation" e), w)
      | (Ok _, w) => (Ok tt, w)
      end
  end.

(** * Contracts *)

(** The largest number of messages a uint64 sequence can count. *)
Definition seq_ok (n : nat) : Prop := (N.of_nat n < 18446744073709551616)%N.

(** What a conversation store promises.  [cl_evolves w w'] relates a world to a later
    one, whoever acted in between; [cl_log] and [cl_rev] are the transcript and the
    revision of a conversation in a world; [cl_norm] is what storage does to a message
    (a deep copy, or an encoding and its decoding). *)
Class ConversationLaws {W} (cs : ConversationStore W) := {
  cl_ok : W -> Prop;
  cl_evolves : relation W;
  cl_log : W -> string -> list Message;
  cl_rev : W -> string -> N;
  cl_norm : Message -> Message;

  cl_preorder :: PreOrder cl_evolves;
  cl_ok_evolves w w' : cl_ok w -> cl_evolves w w' -> cl_ok w';
  (** History is append-only. *)
  cl_append_only w w' c : cl_ok w -> cl_evolves w w' -> cl_log w c `prefix_of` cl_log w' c;
  (** A revision identifies a state of the transcript. *)
  cl_rev_log w w' c : cl_ok w -> cl_evolves w w' -> cl_rev w c = cl_rev w' c ->
    seq_ok (length (cl_log w' c)) -> cl_log w c = cl_log w' c;

  cl_load c w : cl_ok w -> let '(r, w') := cs_Load cs c w in
    cl_evolves w w' /\
    forall sn, r = Ok sn -> exists w1, cl_evolves w w1 /\ cl_evolves w1 w' /\
      sn_Messages sn = cl_log w1 c /\ sn_Revision sn = cl_rev w1 c /\
      sn_LastSequence sn = u64 (lenN (cl_log w1 c));
  cl_load_after c after w : cl_ok w -> let '(r, w') := cs_LoadAfter cs c after w in
    cl_evolves w w' /\
    forall sn, r = Ok sn -> exists w1, cl_evolves w w1 /\ cl_evolves w1 w' /\
      (seq_ok (length (cl_log w1 c)) -> sn_Messages sn = drop (N.to_nat after) (cl_log w1 c)) /\
      sn_Revision sn = cl_rev w1 c /\ sn_LastSequence sn = u64 (lenN (cl_log w1 c));
  (** A successful append commits at a world whose revision is the expected one. *)
  cl_append c delta expected w : cl_ok w -> let '(r, w') := cs_Append cs c delta expected w in
    cl_evolves w w' /\
    forall cu, r = Ok cu -> exists w1 w2, cl_evolves w w1 /\ cl_evolves w1 w2 /\ cl_evolves w2 w' /\
      cl_rev w1 c = expected /\ cl_log w2 c = cl_log w1 c ++ map cl_norm delta /\
      cu_Revision cu = cl_rev w2 c /\ cu_LastSequence cu = u64 (lenN (cl_log w2 c)) }.

(** What an execution store promises: records are created once, versions only grow
    and identify a record, Save replaces exactly the expected version.  [el_norm] is
    the encoding of a record and its decoding, which may change raw JSON inputs but
    nothing else. *)
Class ExecutionLaws {W} (es : ExecutionStore W) (ok : W -> Prop) (evolves : relation W) := {
  el_at : W -> string -> option Execution;
  el_norm : RawMessage -> RawMessage;

  (** A record never disappears and its version identifies it. *)
  el_version_grows w w' id x : ok w -> evolves w w' -> el_at w id = Some x ->
    exists x', el_at w' id = Some x' /\ (x_Version x <= x_Version x')%N /\
      (x_Version x = x_Version x' -> x = x');

  el_create x w : ok w -> let '(r, w') := es_Create es x w in
    evolves w w' /\
    forall x', r = Ok x' -> exists w1 w2, evolves w w1 /\ evolves w1 w2 /\ evolves w2 w' /\
      el_at w1 (x_ID x) = None /\ el_at w2 (x_ID x) = Some x' /\
      x' = exec_map_raw el_norm x <| x_Version := 1%N |>;
  el_load id w : ok w -> let '(r, w') := es_Load es id w in
    evolves w w' /\
    forall x, r = Ok x -> exists w1, evolves w w1 /\ evolves w1 w' /\ el_at w1 id = Some x /\ x_ID x = id;
  el_save x expected w : ok w -> let '(r, w') := es_Save es x expected w in
    evolves w w' /\
    forall x', r = Ok x' -> exists w1 w2 x0, evolves w w1 /\ evolves w1 w2 /\ evolves w2 w' /\
      el_at w1 (x_ID x) = Some x0 /\ x_Version x0 = expected /\ el_at w2 (x_ID x) = Some x' /\
      x' = exec_map_raw el_norm x <| x_Version := (expected + 1)%N |> }.
