(* ===== verification/ConversationMemory.v ===== *)
(** The in-process conversation store (agent/conversation/conversation.go): its
    operations, its invariant, the discharge of the [ConversationLaws] contract and
    the derived context state that lives beside the transcript. *)
From S2P Require Import Prelude Errors Messages Execution Stores.

(* agent/conversation/conversation.go:20-23: memoryContextState *)
Record memoryContextState := mkContextState { ms_data : RawMessage; ms_revision : N }.

(* agent/conversation/conversation.go:25-30: memoryEntry *)
Record memoryEntry := mkEntry {
  me_messages : list Message; me_revision : N; me_lastSequence : N;
  me_contextState : gmap string memoryContextState }.

#[global] Instance eta_memoryEntry : Settable memoryEntry := fun e =>
  mkEntry (me_messages e) (me_revision e) (me_lastSequence e) (me_contextState e).

(** The struct InMemory: a map behind a mutex. *)
Abbreviation InMemory := (gmap string memoryEntry).

(** The zero value that a missing key of a Go map yields. *)
Definition entry_zero : memoryEntry := mkEntry [] 0 0 ∅.
Definition entry (m : InMemory) (id : string) : memoryEntry := default entry_zero (m !! id).

(* agent/conversation/conversation.go: deepCopyMessages *)
Definition copyImage (s : ImageSource) : ImageSource :=
  mkImageSource (cloneRaw (is_Data s)) (is_Base64 s) (is_URL s) (is_MIMEType s).
Definition copyBlock (b : ContentBlock) : ContentBlock :=
  match b with
  | ToolUseBlock u => ToolUseBlock (mkToolUse (tu_ToolUseID u) (tu_Name u) (cloneRaw (tu_Input u)))
  | ToolResultBlk r => ToolResultBlk (r <| tr_Images := map copyImage (tr_Images r) |>)
  | ImageBlock s => ImageBlock (copyImage s)
  | DocumentBlock d => DocumentBlock (mkDocumentSource (cloneRaw (ds_Data d)) (ds_Base64 d) (ds_URL d)
      (ds_FileID d) (ds_S3URI d) (ds_S3BucketOwner d) (ds_MIMEType d) (ds_Name d))
  | WidgetBlock w => WidgetBlock (mkWidget (w_Type w) (cloneRaw (w_Payload w)))
  | TextBlock t => TextBlock t
  end.
Definition copyMessage (m : Message) : Message := mkMessage (m_Role m) (map copyBlock (m_Content m)).
Definition deepCopyMessages (msgs : list Message) : list Message := map copyMessage msgs.

(* agent/conversation/conversation.go: InMemory.LoadAfter *)
Definition LoadAfter (id : string) (afterSequence : N) (m : InMemory) : res ConversationSnapshot * InMemory :=
  match m !! id with
  | None => (Ok (mkSnapshot [] 0 0), m)
  | Some entry =>
      let start := if bool_decide (me_lastSequence entry < afterSequence)%N
                   then me_lastSequence entry else afterSequence in
      (Ok (mkSnapshot (deepCopyMessages (drop (N.to_nat start) (me_messages entry)))
             (me_revision entry) (me_lastSequence entry)), m)
  end.

(* agent/conversation/conversation.go: InMemory.Load *)
Definition Load (id : string) (m : InMemory) : res ConversationSnapshot * InMemory := LoadAfter id 0 m.

(* agent/conversation/conversation.go: InMemory.Append *)
Definition Append (id : string) (msgs : list Message) (expectedRevision : N) (m : InMemory)
  : res ConversationCursor * InMemory :=
  let e := entry m id in
  if bool_decide (me_revision e <> expectedRevision) then
    (Err (EWrap "conversation revision" (ESentinel ErrConversationConflict)), m)
  else if is_nil msgs then (Ok (mkCursor (me_revision e) (me_lastSequence e)), m)
  else
    let e := e <| me_messages := me_messages e ++ deepCopyMessages msgs |>
               <| me_lastSequence := u64 (me_lastSequence e + lenN msgs) |>
               <| me_revision := u64 (me_revision e + 1) |> in
    (Ok (mkCursor (me_revision e) (me_lastSequence e)), <[id := e]> m).

(* agent/conversation.go:69-72: ContextStateSnapshot *)
Record ContextStateSnapshot := mkStateSnapshot { ss_Data : RawMessage; ss_Revision : N }.

(* agent/conversation/conversation.go: InMemory.LoadContextState *)
Definition LoadContextState (id key : string) (m : InMemory) : ContextStateSnapshot :=
  match me_contextState (entry m id) !! key with
  | None => mkStateSnapshot None 0
  | Some state => mkStateSnapshot (cloneRaw (ms_data state)) (ms_revision state)
  end.

(* agent/conversation/conversation.go: InMemory.SaveContextState *)
Definition SaveContextState (json_Valid : string -> bool) (id key : string) (data : RawMessage)
  (expectedRevision : N) (m : InMemory) : res N * InMemory :=
  if negb (json_Valid (default "" data)) then (Err (ENew "context state: invalid JSON"), m)
  else
    let e := entry m id in
    let current := default (mkContextState None 0) (me_contextState e !! key) in
    if bool_decide (ms_revision current <> expectedRevision) then
      (Err (EWrap "context state" (ESentinel ErrContextStateConflict)), m)
    else
      let next := mkContextState (cloneRaw data) (u64 (ms_revision current + 1)) in
      (Ok (ms_revision next), <[id := e <| me_contextState := <[key := next]> (me_contextState e) |>]> m).

(* agent/conversation/conversation.go: InMemory.List *)
Definition List_ (m : InMemory) : list string :=
  (List.filter (fun p => bool_decide (0 < me_revision p.2)%N) (map_to_list m)).*1.

(* agent/conversation/conversation.go: InMemory.Delete *)
Definition Delete (id : string) (m : InMemory) : InMemory := delete id m.

Definition memory_store : ConversationStore InMemory := mkConversationStore Load LoadAfter Append.

(** * Invariant *)

Definition mem_log (m : InMemory) (id : string) : list Message := me_messages (entry m id).
Definition mem_rev (m : InMemory) (id : string) : N := me_revision (entry m id).

(** The sequence counter counts the messages, stored messages are already copies,
    and the revision is in range. *)
Definition mem_ok (m : InMemory) : Prop := forall id,
  me_lastSequence (entry m id) = u64 (lenN (mem_log m id)) /\
  deepCopyMessages (mem_log m id) = mem_log m id /\
  (mem_rev m id < 18446744073709551616)%N.

(** Later states of the store: [k] appends added the messages [ext]. *)
Definition mem_evolves (m m' : InMemory) : Prop := (mem_ok m -> mem_ok m') /\ forall id, exists k ext,
  mem_log m' id = mem_log m id ++ ext /\ (k <= length ext)%nat /\
  (k = 0%nat -> ext = [] /\ mem_rev m' id = mem_rev m id) /\
  ((0 < k)%nat -> mem_rev m' id = u64 (mem_rev m id + N.of_nat k)).

Lemma copyImage_idemp s : copyImage (copyImage s) = copyImage s.
Proof. destruct s. unfold copyImage. simpl. by rewrite cloneRaw_idemp. Qed.

Lemma copyBlock_idemp b : copyBlock (copyBlock b) = copyBlock b.
Proof.
  destruct b as [|[]|[]| |[]|[]]; simpl; rewrite ?cloneRaw_idemp, ?copyImage_idemp; try done.
  do 2 f_equal. rewrite map_map. apply map_ext, copyImage_idemp.
Qed.

Lemma deepCopy_idemp ms : deepCopyMessages (deepCopyMessages ms) = deepCopyMessages ms.
Proof.
  unfold deepCopyMessages. rewrite map_map. apply map_ext. intros m. unfold copyMessage. simpl. f_equal.
  rewrite map_map. apply map_ext, copyBlock_idemp.
Qed.

Lemma deepCopy_app ms1 ms2 : deepCopyMessages (ms1 ++ ms2) = deepCopyMessages ms1 ++ deepCopyMessages ms2.
Proof. apply map_app. Qed.

Lemma deepCopy_drop n ms : deepCopyMessages ms = ms -> deepCopyMessages (drop n ms) = drop n ms.
Proof. unfold deepCopyMessages. intros H. rewrite <- H at 2. rewrite <- !skipn_map. done. Qed.

Lemma entry_insert m id e id' : entry (<[id := e]> m) id' = if decide (id = id') then e else entry m id'.
Proof.
  unfold entry. case_decide; subst; [by rewrite lookup_insert_eq|by rewrite lookup_insert_ne].
Qed.

#[local] Instance mem_preorder : PreOrder mem_evolves.
Proof.
  split.
  - intros m. split; [done|]. intros id. exists 0%nat, []. rewrite app_nil_r. split_and!; [done|done|done|lia].
  - intros m1 m2 m3 [Hok12 H12] [Hok23 H23]. split; [auto|]. intros id. destruct (H12 id) as (k1 & e1 & Hl1 & Hk1 & H01 & Hr1).
    destruct (H23 id) as (k2 & e2 & Hl2 & Hk2 & H02 & Hr2). exists (k1 + k2)%nat, (e1 ++ e2).
    split_and!.
    + by rewrite Hl2, Hl1, <- app_assoc.
    + rewrite length_app. lia.
    + intros ?. destruct H01 as [-> <-]; [lia|]. destruct H02 as [-> ->]; [lia|done].
    + intros Hpos. destruct k1 as [|k1].
      * destruct H01 as [_ <-]; [done|]. destruct k2 as [|k2]; [lia|]. by apply Hr2; lia.
      * specialize (Hr1 ltac:(lia)). destruct k2 as [|k2].
        -- destruct H02 as [_ ->]; [done|]. rewrite Hr1. do 2 f_equal. lia.
        -- rewrite Hr2, Hr1, u64_add_l by lia. f_equal. lia.
Qed.

Lemma mem_ok_empty : mem_ok ∅.
Proof. intros id. unfold mem_log, mem_rev, entry. rewrite lookup_empty. by split_and!. Qed.

(** Append's two outcomes. *)
Lemma Append_conflict id msgs r m : mem_rev m id <> r ->
  Append id msgs r m = (Err (EWrap "conversation revision" (ESentinel ErrConversationConflict)), m).
Proof. intros H. unfold Append. by rewrite bool_decide_true. Qed.

Lemma Append_commit id msgs m : mem_ok m ->
  let '(r, m') := Append id msgs (mem_rev m id) m in
  mem_ok m' /\ mem_evolves m m' /\ mem_log m' id = mem_log m id ++ deepCopyMessages msgs /\
  r = Ok (mkCursor (mem_rev m' id) (u64 (lenN (mem_log m' id)))) /\
  (forall id', id <> id' -> entry m' id' = entry m id').
Proof.
  intros Hok. unfold Append. rewrite bool_decide_false by (unfold mem_rev; tauto).
  destruct (Hok id) as (Hs & Hc & Hr). destruct (is_nil msgs) eqn:E; bool_hyps.
  { subst. simpl. unfold mem_rev. rewrite app_nil_r, Hs. split_and!; try done. }
  match goal with |- context [<[id := ?e]> m] => set (e' := e) end.
  assert (Hlog : mem_log (<[id := e']> m) id = mem_log m id ++ deepCopyMessages msgs).
  { unfold mem_log. rewrite entry_insert, decide_True by done. done. }
  assert (Hother : forall id', id <> id' -> entry (<[id:=e']> m) id' = entry m id').
  { intros id' Hne. by rewrite entry_insert, decide_False. }
  assert (Hlen : u64 (me_lastSequence (entry m id) + lenN msgs) = u64 (lenN (mem_log (<[id:=e']> m) id))).
  { rewrite Hs, u64_add_l, Hlog, lenN_app. f_equal. unfold deepCopyMessages, lenN. by rewrite length_map. }
  assert (Hok' : mem_ok (<[id:=e']> m)).
  { intros id'. destruct (decide (id = id')) as [<-|Hne].
    - split_and!.
      + rewrite entry_insert, decide_True by done. exact Hlen.
      + by rewrite Hlog, deepCopy_app, Hc, deepCopy_idemp.
      + unfold mem_rev. rewrite entry_insert, decide_True by done. apply u64_range.
    - unfold mem_log, mem_rev. rewrite Hother by done. apply Hok. }
  split_and!; try done.
  - split; [done|]. intros id'. destruct (decide (id = id')) as [<-|Hne].
    + exists 1%nat, (deepCopyMessages msgs). split_and!; [done| |done|].
      * destruct msgs; [done|]. simpl. lia.
      * intros _. unfold mem_rev. by rewrite entry_insert, decide_True.
    + exists 0%nat, []. unfold mem_log, mem_rev. rewrite Hother, app_nil_r by done. split_and!; (done || lia).
  - simpl. f_equal. f_equal; [|exact Hlen]. unfold mem_rev. by rewrite entry_insert, decide_True.
Qed.

Lemma LoadAfter_spec id after m : mem_ok m ->
  LoadAfter id after m = (Ok (mkSnapshot
    (drop (N.to_nat (N.min after (u64 (lenN (mem_log m id))))) (mem_log m id))
    (mem_rev m id) (u64 (lenN (mem_log m id)))), m).
Proof.
  intros Hok. destruct (Hok id) as (Hs & Hc & Hr). unfold LoadAfter, mem_rev, mem_log, entry in *.
  destruct (m !! id) as [e|]; simpl in *; [|by rewrite drop_nil].
  rewrite <- Hs. do 3 f_equal. rewrite deepCopy_drop by done. do 2 f_equal.
  case_bool_decide; lia.
Qed.

Lemma mem_rev_log m m' id : mem_ok m -> mem_evolves m m' -> mem_rev m id = mem_rev m' id ->
  seq_ok (length (mem_log m' id)) -> mem_log m id = mem_log m' id.
Proof.
  intros Hok [_ Hev] Hrev Hseq. destruct (Hev id) as (k & ext & Hl & Hk & H0 & Hpos).
  destruct k as [|k]; [destruct H0 as [-> _]; [done|]; by rewrite Hl, app_nil_r|].
  exfalso. rewrite Hpos in Hrev by lia. destruct (Hok id) as (_ & _ & Hr).
  unfold seq_ok in Hseq. rewrite Hl, length_app in Hseq. unfold u64 in Hrev.
  destruct (N.lt_ge_cases (mem_rev m id + N.of_nat (S k)) 18446744073709551616) as [Hlt|Hge].
  - rewrite N.mod_small in Hrev by done. lia.
  - assert (Hq : ((mem_rev m id + N.of_nat (S k)) mod 18446744073709551616 =
      mem_rev m id + N.of_nat (S k) - 18446744073709551616)%N).
    { symmetry. apply (N.mod_unique _ _ 1); lia. }
    lia.
Qed.

(** The memory store meets the contract the engine relies on. *)
#[export, refine] Instance memory_store_laws : ConversationLaws memory_store := {|
  cl_ok := mem_ok; cl_evolves := mem_evolves; cl_log := mem_log; cl_rev := mem_rev;
  cl_norm := copyMessage |}.
Proof.
  - by intros w w' Hok [H _]; auto.
  - intros w w' c Hok [_ H]. destruct (H c) as (k & ext & -> & _). by eexists.
  - intros w w' c. apply mem_rev_log.
  - intros c w Hok. simpl. unfold Load. rewrite LoadAfter_spec by done. split; [reflexivity|].
    intros sn [= <-]. exists w. split_and!; (reflexivity || by rewrite N.min_0_l).
  - intros c after w Hok. simpl. rewrite LoadAfter_spec by done. split; [reflexivity|].
    intros sn [= <-]. exists w. split_and!; try reflexivity. simpl. intros Hseq.
    rewrite u64_small by exact Hseq. unfold lenN.
    destruct (N.le_gt_cases after (N.of_nat (length (mem_log w c)))) as [Hle|Hgt].
    + by rewrite N.min_l.
    + rewrite N.min_r by lia. rewrite !drop_ge by lia. done.
  - intros c delta expected w Hok. simpl.
    destruct (decide (mem_rev w c = expected)) as [<-|Hne].
    + pose proof (Append_commit c delta w Hok) as H. destruct (Append c delta (mem_rev w c) w) as [r m'].
      destruct H as (Hok' & Hev & Hl & -> & _). split; [done|].
      intros cu [= <-]. exists w, m'. split_and!; done.
    + rewrite Append_conflict by done. split; [reflexivity|done].
Defined.

(** * Properties *)

Lemma u64_succ_neq n : (n < 18446744073709551616)%N -> u64 (n + 1) <> n.
Proof.
  intros Hn. unfold u64. destruct (N.lt_ge_cases (n + 1) 18446744073709551616).
  - rewrite N.mod_small by done. lia.
  - replace (n + 1)%N with 18446744073709551616%N by lia. rewrite N.Div0.mod_same. lia.
Qed.

(** Appending is a compare-and-swap with one winner: of two writers that read the
    same revision, the one that comes second gets ErrConversationConflict and leaves
    the store exactly as the first one left it. *)
Theorem Append_single_winner id msgs1 msgs2 expected m : mem_ok m -> msgs1 <> [] ->
  let '(r1, m1) := Append id msgs1 expected m in
  let '(r2, m2) := Append id msgs2 expected m1 in
  is_ok r1 = true ->
  m2 = m1 /\ r2 = Err (EWrap "conversation revision" (ESentinel ErrConversationConflict)).
Proof.
  intros Hok Hne. destruct (decide (mem_rev m id = expected)) as [<-|Hx].
  - destruct (Append id msgs1 (mem_rev m id) m) as [r1 m1] eqn:E.
    assert (Hrev : mem_rev m1 id <> mem_rev m id).
    { unfold Append in E. rewrite bool_decide_false in E by (unfold mem_rev; tauto).
      destruct msgs1; [done|]. simplify_eq/=. unfold mem_rev at 1.
      rewrite entry_insert, decide_True by done. apply u64_succ_neq, Hok. }
    rewrite Append_conflict by done. done.
  - rewrite Append_conflict by done. destruct (Append _ _ _ m). done.
Qed.

Definition sample_message : Message := mkMessage RoleUser [TextBlock "hi"].

Lemma Append_single_winner_witness :
  let '(r1, m1) := Append "c" [sample_message] 0 ∅ in
  let '(r2, m2) := Append "c" [sample_message; sample_message] 0 m1 in
  is_ok r1 = true /\ m2 = m1 /\ errors_Is (ESentinel ErrConversationConflict) ErrConversationConflict = true.
Proof.
  pose proof (Append_single_winner "c" [sample_message] [sample_message; sample_message] 0 ∅
    mem_ok_empty ltac:(discriminate)) as H.
  destruct (Append "c" [sample_message] 0 ∅) as [r1 m1] eqn:E1.
  destruct (Append "c" _ 0 m1) as [r2 m2] eqn:E2.
  assert (Hr : is_ok r1 = true) by (injection E1 as <- _; reflexivity).
  destruct (H Hr) as [Hm _]. split; [exact Hr|]. split; [exact Hm|reflexivity].
Defined.

(** What was appended is what is read back: a load from the cursor the writer had
    before a successful append returns exactly (copies of) the appended messages, and
    the returned cursor is the one later reads report. *)
Theorem Append_LoadAfter_roundtrip id msgs m cu m' :
  mem_ok m -> Append id msgs (mem_rev m id) m = (Ok cu, m') ->
  seq_ok (length (mem_log m' id)) ->
  LoadAfter id (lenN (mem_log m id)) m' =
    (Ok (mkSnapshot (deepCopyMessages msgs) (cu_Revision cu) (cu_LastSequence cu)), m').
Proof.
  intros Hok E Hseq. pose proof (Append_commit id msgs m Hok) as H. rewrite E in H.
  destruct H as (Hok' & _ & Hl & [= ->] & _). rewrite LoadAfter_spec by done. do 3 f_equal.
  unfold seq_ok in Hseq. rewrite u64_small by exact Hseq.
  assert (length (mem_log m id) <= length (mem_log m' id))%nat by (rewrite Hl, length_app; lia).
  unfold lenN. rewrite N.min_l, Nat2N.id by lia. by rewrite Hl, drop_app_length.
Qed.

Lemma Append_LoadAfter_roundtrip_witness :
  let '(r, m') := Append "c" [sample_message] 0 ∅ in
  LoadAfter "c" 0 m' = (Ok (mkSnapshot [sample_message] 1 1), m').
Proof.
  destruct (Append "c" [sample_message] 0 ∅) as [r m'] eqn:E.
  assert (Hr : r = Ok (mkCursor 1 1)) by (injection E as <- _; reflexivity). subst r.
  apply (Append_LoadAfter_roundtrip "c" [sample_message] ∅ (mkCursor 1 1) m' mem_ok_empty E).
  injection E as <-. reflexivity.
Defined.

(** Derived context state never touches the canonical transcript: saving it keeps
    messages, revision and sequence of every conversation and the list of
    conversations, and is itself a compare-and-swap on its own revision. *)
Theorem SaveContextState_isolated valid id key data expected m :
  let '(r, m') := SaveContextState valid id key data expected m in
  (forall c, mem_log m' c = mem_log m c /\ mem_rev m' c = mem_rev m c /\
     me_lastSequence (entry m' c) = me_lastSequence (entry m c)) /\
  (forall c, c ∈ List_ m' <-> c ∈ List_ m) /\
  (forall n, r = Ok n -> ss_Revision (LoadContextState id key m) = expected /\
     LoadContextState id key m' = mkStateSnapshot (cloneRaw data) n) /\
  (is_ok r = false -> m' = m).
Proof.
  assert (HList : forall m c, c ∈ List_ m <-> (0 < mem_rev m c)%N).
  { intros m0 c. unfold List_, mem_rev, entry. rewrite list_elem_of_fmap. split.
    - intros ([c' e] & -> & Hin). apply list_elem_of_In, List.filter_In in Hin as [Hin He].
      apply list_elem_of_In, elem_of_map_to_list in Hin. simpl. rewrite Hin. by bool_hyps.
    - destruct (m0 !! c) as [e|] eqn:E; simpl; [|lia]. intros He. exists (c, e). split; [done|].
      apply list_elem_of_In, List.filter_In. split; [by apply list_elem_of_In, elem_of_map_to_list|].
      by apply bool_decide_eq_true. }
  unfold SaveContextState. destruct (valid _); simpl; [|by split_and!].
  case_bool_decide as Hrev; [by split_and!|].
  match goal with |- context [<[id := ?e]> m] => set (e' := e) end.
  assert (Hkeep : forall c, mem_log (<[id := e']> m) c = mem_log m c /\
    mem_rev (<[id := e']> m) c = mem_rev m c /\
    me_lastSequence (entry (<[id := e']> m) c) = me_lastSequence (entry m c)).
  { intros c. unfold mem_log, mem_rev. rewrite entry_insert. case_decide; subst; done. }
  split_and!; try done.
  - intros c. rewrite !HList. by destruct (Hkeep c) as (_ & -> & _).
  - intros n [= <-]. split.
    + unfold LoadContextState. destruct (me_contextState (entry m id) !! key); exact Hrev.
    + unfold LoadContextState. rewrite entry_insert, decide_True by done. simpl.
      rewrite lookup_insert_eq. simpl. by rewrite cloneRaw_idemp.
Qed.

(** Forking through any store that keeps the contract copies the canonical
    transcript: when it succeeds, the new conversation was empty at revision zero and
    then holds exactly the source's messages as stored, and the source only grew. *)
Theorem ForkConversation_copies {W} (cs : ConversationStore W) `{!ConversationLaws cs} src dst w w' :
  cl_ok w -> ForkConversation cs src dst w = (Ok tt, w') ->
  exists w1 w2 w3, cl_evolves w w1 /\ cl_evolves w1 w2 /\ cl_evolves w2 w3 /\ cl_evolves w3 w' /\
    cl_rev w2 dst = 0%N /\
    cl_log w3 dst = cl_log w2 dst ++ map cl_norm (cl_log w1 src).
Proof.
  intros Hok H. unfold ForkConversation in H.
  pose proof (cl_load src w Hok) as HL. destruct (cs_Load cs src w) as [[sn|e] wl]; [|done].
  destruct HL as [Hev HL]. destruct (HL sn eq_refl) as (w1 & H1 & H2 & Hm & _).
  assert (Hokl : cl_ok wl) by by eapply cl_ok_evolves.
  pose proof (cl_append dst (sn_Messages sn) 0%N wl Hokl) as HA.
  destruct (cs_Append cs dst (sn_Messages sn) 0%N wl) as [[cu|e] wa]; [|done]. injection H as <-.
  destruct HA as [_ HA]. destruct (HA cu eq_refl) as (w2 & w3 & H3 & H4 & H5 & Hr & Hl & _).
  exists w1, w2, w3. rewrite <- Hm. split_and!; try done. by etransitivity.
Qed.

Lemma ForkConversation_copies_witness :
  let m : InMemory := {[ "a" := mkEntry [sample_message] 1 1 ∅ ]} in
  exists m', ForkConversation memory_store "a" "b" m = (Ok tt, m') /\
    exists w1 w2 w3 : InMemory, mem_evolves m w1 /\ mem_evolves w1 w2 /\ mem_evolves w2 w3 /\
      mem_evolves w3 m' /\ mem_rev w2 "b" = 0%N /\
      mem_log w3 "b" = mem_log w2 "b" ++ map copyMessage (mem_log w1 "a").
Proof.
  set (m := {[ "a" := mkEntry [sample_message] 1 1 ∅ ]} : InMemory).
  destruct (ForkConversation memory_store "a" "b" m) as [r m'] eqn:E.
  assert (Hr : r = Ok tt) by (injection E as <- _; reflexivity). subst r.
  exists m'. split; [exact E|]. refine (ForkConversation_copies memory_store "a" "b" m m' _ E).
  intros id. unfold mem_log, mem_rev, entry, m. destruct (decide (id = "a")) as [->|Hne].
  - rewrite lookup_singleton_eq. split_and!; reflexivity.
  - rewrite lookup_singleton_ne by done. split_and!; reflexivity.
Defined.
