(* ===== verification/ExecutionMemory.v ===== *)
(** Execution records in storage (agent/execution/internal/record/record.go) and the
    in-process execution store (agent/execution/memory.go), with the discharge of
    the [ExecutionLaws] contract. *)
From S2P Require Import Prelude Errors Messages Execution Stores.

(** * Records *)

(** encoding/json on an Execution.  Encoding fails when a raw JSON field is not valid
    JSON; decoding what was encoded gives the record back with its raw JSON fields
    in the encoder's compact form [compact].  Strings of a record are
    taken to be UTF-8, which encoding/json keeps; it would replace the bytes of any other
    string by U+FFFD, a change that the law leaves out. *)
Class ExecutionCodec := {
  json_Marshal : Execution -> option string;
  json_Unmarshal : string -> option Execution;
  compact : RawMessage -> RawMessage;
  json_roundtrip x s : json_Marshal x = Some s -> json_Unmarshal s = Some (exec_map_raw compact x) }.

(* agent/execution/internal/record/record.go: ValidateID *)
Definition ValidateID (id : string) : res unit :=
  if bool_decide (id = "") then Err (ENew "execution: execution ID is required") else Ok tt.

(* agent/execution/internal/record/record.go: NotFound *)
Definition NotFound : error := EWrap "execution" (ESentinel ErrExecutionNotFound).

(* agent/execution/internal/record/record.go: Conflict *)
Definition Conflict : error := EWrap "execution" (ESentinel ErrExecutionConflict).

(* agent/execution/internal/record/record.go: CheckExpected *)
Definition CheckExpected (expected : N) : res unit :=
  if bool_decide (expected = 0)%N || bool_decide (9223372036854775807 < expected)%N then Err Conflict else Ok tt.

(* agent/execution/internal/record/record.go: Version *)
Definition Version (n : Z) : res N :=
  if bool_decide (n <= 0)%Z then Err (ENew "execution: stored version is not positive") else Ok (Z.to_N n).

Section Records.
Context `{ExecutionCodec}.

(* agent/execution/internal/record/record.go: Marshal *)
Definition Marshal (execution : Execution) : res string :=
  match json_Marshal (execution <| x_Version := 0%N |>) with
  | None => Err (ENew "execution: marshal execution")
  | Some data => Ok data
  end.

(* agent/execution/internal/record/record.go: Unmarshal *)
Definition Unmarshal (data : string) (wantID : string) (version : N) : res Execution :=
  match json_Unmarshal data with
  | None => Err (ENew "execution: unmarshal execution")
  | Some execution =>
      if bool_decide (x_ID execution <> wantID) then
        Err (ENew "execution: stored execution ID does not match requested ID")
      else Ok (execution <| x_Version := version |>)
  end.

(** * The memory store *)

(* agent/execution/memory.go:32-35: memoryRecord *)
Record memoryRecord := mkRecord { mr_version : N; mr_payload : string }.

(** The struct Memory: a map behind a mutex. *)
Abbreviation Memory := (gmap string memoryRecord).

(* agent/execution/memory.go: Memory.Create *)
Definition Create (execution : Execution) (m : Memory) : res Execution * Memory :=
  match ValidateID (x_ID execution) with
  | Err e => (Err e, m)
  | Ok _ =>
      match Marshal execution with
      | Err e => (Err e, m)
      | Ok payload =>
          match m !! x_ID execution with
          | Some _ => (Err Conflict, m)
          | None => (Unmarshal payload (x_ID execution) 1, <[x_ID execution := mkRecord 1 payload]> m)
          end
      end
  end.

(* agent/execution/memory.go: Memory.Load *)
Definition LoadExecution (id : string) (m : Memory) : res Execution * Memory :=
  match ValidateID id with
  | Err e => (Err e, m)
  | Ok _ =>
      match m !! id with
      | None => (Err NotFound, m)
      | Some stored => (Unmarshal (mr_payload stored) id (mr_version stored), m)
      end
  end.

(* agent/execution/memory.go: Memory.Save *)
Definition Save (execution : Execution) (expectedVersion : N) (m : Memory) : res Execution * Memory :=
  match ValidateID (x_ID execution) with
  | Err e => (Err e, m)
  | Ok _ =>
      match CheckExpected expectedVersion with
      | Err e => (Err e, m)
      | Ok _ =>
          match Marshal execution with
          | Err e => (Err e, m)
          | Ok payload =>
              match m !! x_ID execution with
              | None => (Err Conflict, m)
              | Some current =>
                  if bool_decide (mr_version current <> expectedVersion) then (Err Conflict, m)
                  else
                    let next := u64 (expectedVersion + 1) in
                    (Unmarshal payload (x_ID execution) next,
                     <[x_ID execution := mkRecord next payload]> m)
              end
          end
      end
  end.

Definition memory_execution_store : ExecutionStore Memory :=
  mkExecutionStore Create LoadExecution Save.

(** * Contract *)

Definition mem_at (m : Memory) (id : string) : option Execution :=
  match m !! id with
  | None => None
  | Some stored => match Unmarshal (mr_payload stored) id (mr_version stored) with
                   | Ok x => Some x
                   | Err _ => None
                   end
  end.

(** Every stored payload decodes to an execution of its own ID. *)
Definition exec_ok (m : Memory) : Prop :=
  forall id stored, m !! id = Some stored -> exists x, Unmarshal (mr_payload stored) id (mr_version stored) = Ok x.

Definition exec_evolves (m m' : Memory) : Prop :=
  (exec_ok m -> exec_ok m') /\
  forall id stored, m !! id = Some stored -> exists stored', m' !! id = Some stored' /\
    (mr_version stored <= mr_version stored')%N /\
    (mr_version stored = mr_version stored' -> stored = stored').

#[export] Instance exec_evolves_preorder : PreOrder exec_evolves.
Proof.
  split.
  - intros m. split; [done|]. intros id s Hs. exists s. split_and!; done || lia.
  - intros m1 m2 m3 [Hok1 H12] [Hok2 H23]. split; [auto|]. intros id s Hs.
    destruct (H12 id s Hs) as (s2 & Hs2 & Hle & Heq). destruct (H23 id s2 Hs2) as (s3 & Hs3 & Hle3 & Heq3).
    exists s3. split_and!; [done|lia|]. intros Hv. assert (mr_version s2 = mr_version s) by lia.
    rewrite Heq by lia. apply Heq3. lia.
Qed.

Lemma Unmarshal_Marshal x payload v : Marshal x = Ok payload ->
  Unmarshal payload (x_ID x) v = Ok (exec_map_raw compact x <| x_Version := v |>).
Proof.
  unfold Marshal, Unmarshal. destruct (json_Marshal _) eqn:E; [|done]. intros [= <-].
  rewrite (json_roundtrip _ _ E). rewrite bool_decide_false by (simpl; tauto).
  by destruct x.
Qed.

Lemma insert_evolves id v payload x m : x_ID x = id -> Marshal x = Ok payload ->
  (forall s, m !! id = Some s -> (mr_version s < v)%N) -> exec_evolves m (<[id := mkRecord v payload]> m).
Proof.
  intros <- Hp Hv. split.
  - intros Hok id' s. destruct (decide (x_ID x = id')) as [<-|Hne].
    + rewrite lookup_insert_eq. intros [= <-]. simpl. eexists. by apply Unmarshal_Marshal.
    + rewrite lookup_insert_ne by done. apply Hok.
  - intros id' s Hs. destruct (decide (x_ID x = id')) as [<-|Hne].
    + rewrite lookup_insert_eq. specialize (Hv s Hs). eexists. split; [done|]. simpl. lia.
    + rewrite lookup_insert_ne by done. exists s. split_and!; done || lia.
Qed.

Lemma ValidateID_ok id : ValidateID id = Ok tt <-> id <> "".
Proof. unfold ValidateID. by case_bool_decide. Qed.

Lemma CheckExpected_ok v : CheckExpected v = Ok tt <-> (0 < v <= 9223372036854775807)%N.
Proof.
  unfold CheckExpected. destruct (_ || _) eqn:E; split; try done; bool_hyps.
  - apply orb_true_iff in E as [E|E]; bool_hyps; lia.
  - lia.
Qed.

(** Save, in full: the cases of the code as an equation on the current version. *)
Lemma Save_spec x expected m :
  Save x expected m =
  if decide (x_ID x = "") then (Err (ENew "execution: execution ID is required"), m)
  else if decide (0 < expected <= 9223372036854775807)%N then
    match Marshal x with
    | Err e => (Err e, m)
    | Ok payload =>
        if decide (mr_version <$> m !! x_ID x = Some expected) then
          (Ok (exec_map_raw compact x <| x_Version := (expected + 1)%N |>),
           <[x_ID x := mkRecord (expected + 1) payload]> m)
        else (Err Conflict, m)
    end
  else (Err Conflict, m).
Proof.
  unfold Save, ValidateID. case_bool_decide; [by rewrite decide_True|]. rewrite decide_False by done.
  destruct (CheckExpected expected) as [[]|e] eqn:E.
  - apply CheckExpected_ok in E. rewrite decide_True by done.
    destruct (Marshal x) eqn:Hp; [|done]. destruct (m !! x_ID x) as [[v p]|]; [|by case_decide].
    case_bool_decide as H1; case_decide as H2; simpl in H1, H2; try (exfalso; congruence); [done|].
    rewrite u64_small by lia. by rewrite (Unmarshal_Marshal _ _ _ Hp).
  - rewrite decide_False by (intros Hr%CheckExpected_ok; congruence).
    unfold CheckExpected in E. destruct (_ || _); by simplify_eq.
Qed.

(** Each operation on the map: what it keeps and what a success means. *)
Lemma Create_commit x m : exec_ok m -> let '(r, m') := Create x m in exec_evolves m m' /\
  forall x', r = Ok x' -> mem_at m (x_ID x) = None /\ mem_at m' (x_ID x) = Some x' /\ x' = exec_map_raw compact x <| x_Version := 1%N |>.
Proof.
  intros Hok. unfold Create. destruct (ValidateID (x_ID x)); [|by split].
  destruct (Marshal x) as [payload|] eqn:Hp; [|by split]. destruct (m !! x_ID x) eqn:E; [by split|].
  rewrite (Unmarshal_Marshal _ _ _ Hp). split; [eapply insert_evolves; [done..|]; intros s; by rewrite E|].
  intros x' [= <-]. unfold mem_at. rewrite E, lookup_insert_eq. simpl. by rewrite (Unmarshal_Marshal _ _ _ Hp).
Qed.
Lemma Load_commit id m : let '(r, m') := LoadExecution id m in m' = m /\ forall x, r = Ok x -> mem_at m id = Some x /\ x_ID x = id.
Proof.
  unfold LoadExecution. destruct (ValidateID id); [|by split]. destruct (m !! id) as [s|] eqn:E; [|by split].
  split; [done|]. intros x Hx. unfold mem_at. rewrite E, Hx. split; [done|].
  unfold Unmarshal in Hx. destruct (json_Unmarshal _); [|done]. case_bool_decide; [done|]. by injection Hx as <-.
Qed.
Lemma Save_commit x expected m : exec_ok m -> let '(r, m') := Save x expected m in exec_evolves m m' /\
  forall x', r = Ok x' -> exists x0, mem_at m (x_ID x) = Some x0 /\ x_Version x0 = expected /\ mem_at m' (x_ID x) = Some x' /\
    x' = exec_map_raw compact x <| x_Version := (expected + 1)%N |>.
Proof.
  intros Hok. rewrite Save_spec. case_decide; [by split|]. case_decide; [|by split]. destruct (Marshal x) as [payload|] eqn:Hp; [|by split].
  case_decide as Hv; [|by split]. destruct (m !! x_ID x) as [s|] eqn:E; [|done]. injection Hv as Hv.
  split; [eapply insert_evolves; [done..|]; intros s'; rewrite E; intros [= <-]; lia|].
  intros x' [= <-]. destruct (Hok _ _ E) as [x0 Hx0]. exists x0.
  unfold mem_at. rewrite E, lookup_insert_eq, Hx0. cbn [mr_payload mr_version]. rewrite (Unmarshal_Marshal _ _ _ Hp). split_and!; try done.
  unfold Unmarshal in Hx0. destruct (json_Unmarshal _); [|done]. case_bool_decide; [done|]. by injection Hx0 as <-.
Qed.
Lemma mem_at_grows m m' id x : exec_ok m -> exec_evolves m m' -> mem_at m id = Some x ->
  exists x', mem_at m' id = Some x' /\ (x_Version x <= x_Version x')%N /\ (x_Version x = x_Version x' -> x = x').
Proof.
  intros Hok [Hok' Hev] Hx. unfold mem_at in *. destruct (m !! id) as [s|] eqn:E; [|done].
  destruct (Hev id s E) as (s' & Hs' & Hle & Heq). rewrite Hs'.
  destruct (Hok' Hok id s' Hs') as [x' Hx']. rewrite Hx'. exists x'. split; [done|].
  assert (Hver : forall p v x, Unmarshal p id v = Ok x -> x_Version x = v).
  { intros p v y. unfold Unmarshal. destruct (json_Unmarshal p); [|done]. case_bool_decide; [done|].
    by intros [= <-]. }
  destruct (Unmarshal (mr_payload s) id (mr_version s)) eqn:Hu; [|done]. injection Hx as <-.
  rewrite (Hver _ _ _ Hu), (Hver _ _ _ Hx'). split; [done|]. intros Hv.
  specialize (Heq Hv). subst. rewrite Hu in Hx'. by injection Hx'.
Qed.

#[export, refine] Instance memory_execution_laws :
  ExecutionLaws memory_execution_store exec_ok exec_evolves := {|
  el_at := mem_at; el_norm := compact |}.
Proof.
  - apply mem_at_grows.
  - intros x w Hok. simpl. pose proof (Create_commit x w Hok) as Hc. destruct (Create x w) as [r w']. destruct Hc as [Hev Hx].
    split; [done|]. intros x' Hr. exists w, w'. destruct (Hx x' Hr) as (? & ? & ?). by split_and!.
  - intros id w Hok. simpl. pose proof (Load_commit id w) as Hl. destruct (LoadExecution id w) as [r w']. destruct Hl as [-> Hx].
    split; [done|]. intros x Hr. exists w. destruct (Hx x Hr). by split_and!.
  - intros x expected w Hok. simpl. pose proof (Save_commit x expected w Hok) as Hc. destruct (Save x expected w) as [r w']. destruct Hc as [Hev Hx].
    split; [done|]. intros x' Hr. destruct (Hx x' Hr) as (x0 & ? & ? & ? & ?). exists w, w', x0. by split_and!.
Defined.

End Records.

(** * Properties *)

(** For any execution store that keeps the contract, a version is claimed at most
    once: after a successful Save at version [v], however the world moves on, no
    later Save of the same execution at [v] succeeds. *)
Theorem Save_single_winner {W} (es : ExecutionStore W) (ok : W -> Prop) (evolves : relation W)
  `{!PreOrder evolves} `{!ExecutionLaws es ok evolves} x1 x2 v w x1' w1 w2 :
  (forall w w', ok w -> evolves w w' -> ok w') ->
  ok w -> x_ID x1 = x_ID x2 -> es_Save es x1 v w = (Ok x1', w1) -> evolves w1 w2 ->
  is_ok (fst (es_Save es x2 v w2)) = false.
Proof.
  intros Hoks Hok Hid H1 Hev. pose proof (el_save x1 v w Hok) as L1. rewrite H1 in L1.
  destruct L1 as [Hw1 L1]. destruct (L1 x1' eq_refl) as (a & b & x0 & Ha & Hb & Hc & _ & _ & Hat & ->).
  assert (Hok2 : ok w2) by exact (Hoks _ _ (Hoks _ _ Hok Hw1) Hev).
  pose proof (el_save x2 v w2 Hok2) as L2. destruct (es_Save es x2 v w2) as [[x2'|e] w3]; [|done].
  destruct L2 as [_ L2]. destruct (L2 x2' eq_refl) as (c & d & y0 & Hc' & _ & _ & Hat' & Hv & _).
  assert (Hbc : evolves b c) by exact (transitivity Hc (transitivity Hev Hc')).
  assert (Hokb : ok b) by exact (Hoks _ _ (Hoks _ _ Hok Ha) Hb).
  destruct (el_version_grows b c _ _ Hokb Hbc Hat) as (z & Hz & Hle & _).
  rewrite Hid in Hz. rewrite Hat' in Hz. injection Hz as <-. simpl in Hle. lia.
Qed.

(** An encoder for records without raw JSON, enough for a concrete store. *)
#[local, refine] Instance sample_codec : ExecutionCodec := {|
  json_Marshal x := if decide (x = execution_zero (x_ID x)) then Some (x_ID x) else None;
  json_Unmarshal s := Some (execution_zero s);
  compact r := r |}.
Proof.
  intros x s. case_decide as Hx; [|done]. intros [= <-]. revert Hx. generalize (x_ID x).
  intros id ->. reflexivity.
Defined.

Lemma Save_single_winner_witness :
  let '(_, w) := Create (execution_zero "e") ∅ in
  let '(r1, w1) := Save (execution_zero "e") 1 w in
  is_ok r1 = true /\ is_ok (fst (Save (execution_zero "e") 1 w1)) = false.
Proof.
  destruct (Create (execution_zero "e") ∅) as [r0 w] eqn:E0.
  destruct (Save (execution_zero "e") 1 w) as [r1 w1] eqn:E1.
  assert (Hw : w = {[ "e" := mkRecord 1 "e" ]}) by (injection E0 as _ <-; reflexivity). subst w.
  assert (Hr : r1 = Ok ((execution_zero "e") <| x_Version := 2%N |>)) by (injection E1 as <- _; reflexivity).
  subst r1. split; [reflexivity|].
  refine (Save_single_winner memory_execution_store exec_ok exec_evolves (execution_zero "e")
    (execution_zero "e") 1 {[ "e" := mkRecord 1 "e" ]} _ w1 w1 _ _ eq_refl E1 _).
  - intros m m' Hok [Hev _]. exact (Hev Hok).
  - intros id s. destruct (decide (id = "e")) as [->|Hne].
    + rewrite lookup_singleton_eq. intros [= <-]. eexists. reflexivity.
    + rewrite lookup_singleton_ne by done. discriminate.
  - reflexivity.
Defined.

(** Through any store that keeps the contract, what a successful Save returns is
    what a later Load returns, as long as nobody saved in between: a loaded record of
    the returned version is the returned record. *)
Theorem Save_Load_roundtrip {W} (es : ExecutionStore W) (ok : W -> Prop) (evolves : relation W)
  `{!PreOrder evolves} `{!ExecutionLaws es ok evolves} x v w x' w1 w2 y w3 :
  (forall w w', ok w -> evolves w w' -> ok w') ->
  ok w -> es_Save es x v w = (Ok x', w1) -> evolves w1 w2 ->
  es_Load es (x_ID x) w2 = (Ok y, w3) ->
  (x_Version x' <= x_Version y)%N /\ (x_Version y = x_Version x' -> y = x').
Proof.
  intros Hoks Hok H1 Hev H2. pose proof (el_save x v w Hok) as L1. rewrite H1 in L1.
  destruct L1 as [Hw1 L1]. destruct (L1 x' eq_refl) as (a & b & x0 & Ha & Hb & Hc & _ & _ & Hat & Hx').
  assert (Hok2 : ok w2) by exact (Hoks _ _ (Hoks _ _ Hok Hw1) Hev).
  pose proof (el_load (x_ID x) w2 Hok2) as L2. rewrite H2 in L2.
  destruct L2 as [_ L2]. destruct (L2 y eq_refl) as (c & Hc' & _ & Hat' & _).
  assert (Hbc : evolves b c) by exact (transitivity Hc (transitivity Hev Hc')).
  assert (Hokb : ok b) by exact (Hoks _ _ (Hoks _ _ Hok Ha) Hb).
  destruct (el_version_grows b c _ _ Hokb Hbc Hat) as (z & Hz & Hle & Heq).
  rewrite Hat' in Hz. injection Hz as <-. split; [done|]. intros Hv. symmetry. by apply Heq.
Qed.

Lemma Save_Load_roundtrip_witness :
  let '(r1, w1) := Save (execution_zero "e") 1 {[ "e" := mkRecord 1 "e" ]} in
  match r1, fst (LoadExecution "e" w1) with Ok x, Ok y => y = x | _, _ => False end.
Proof.
  destruct (Save (execution_zero "e") 1 {[ "e" := mkRecord 1 "e" ]}) as [[x|] w1] eqn:E1;
    [|discriminate E1].
  destruct (LoadExecution "e" w1) as [[y|] w2] eqn:E2; [|injection E1 as _ <-; discriminate E2].
  assert (Hv : x_Version y = x_Version x)
    by (injection E1 as <- <-; injection E2 as <- _; reflexivity).
  refine (proj2 (Save_Load_roundtrip memory_execution_store exec_ok exec_evolves
    (execution_zero "e") 1 _ _ w1 w1 _ w2 _ _ E1 _ E2) Hv).
  - intros m m' Hok [Hev _]. exact (Hev Hok).
  - intros id s. destruct (decide (id = "e")) as [->|Hne].
    + rewrite lookup_singleton_eq. intros [= <-]. eexists. reflexivity.
    + rewrite lookup_singleton_ne by done. discriminate.
  - reflexivity.
Defined.
