(* ===== verification/EventSink.v ===== *)
(** Events and their delivery (agent/event.go): the event union, the sink that hands
    events to the consumer of a stream, and what a consumer observes.

    Times and durations of events are left out.  The consumer is a function of the
    world: it receives an event with the error of the terminal yield and answers
    whether it wants more. *)
From S2P Require Import Prelude Errors Messages Execution Schema.

(* agent/result.go:4-12: StopReason *)
Inductive StopReason : Type := StopNone | StopEndTurn | StopInterrupt.

#[global] Instance StopReason_eq_dec : EqDecision StopReason.
Proof. solve_decision. Defined.

(* agent/result.go:20-35: Result *)
Record Result := mkResult {
  rs_ExecutionID : string; rs_Text : string; rs_Usage : TokenUsage;
  rs_StopReason : StopReason; rs_Interrupt : option Interrupt; rs_Metadata : option GoAny }.

#[global] Instance eta_Result : Settable Result := fun r =>
  mkResult (rs_ExecutionID r) (rs_Text r) (rs_Usage r) (rs_StopReason r) (rs_Interrupt r) (rs_Metadata r).

Definition Result_zero : Result := mkResult "" "" usage_zero StopNone None None.

(* agent/hooks.go: deriveStopReason *)
Definition deriveStopReason (toolCallCount : nat) (failed : bool) : string :=
  if failed then "error" else if bool_decide (0 < toolCallCount)%nat then "tool_use" else "end_turn".

(* agent/event.go:13-65: Event *)
Inductive Event : Type :=
| EventStart
| EventText (content : string)
| EventThinking (content : string)
| EventToolStart (callID name : string) (input : RawMessage)
| EventToolEnd (callID name output : string) (info : option (ErrorCode * string))
| EventWidget (callID type : string) (payload : RawMessage)
| EventInterrupt (i : Interrupt)
| EventCustom (name : string) (payload : RawMessage)
| EventEnd (result : Result) (info : option ErrorCode)
| EventIterationStart (iteration : Z)
| EventIterationEnd (iteration : Z) (toolCount : nat) (isFinal : bool)
| EventModelStart (iteration : Z)
| EventModelEnd (iteration : Z) (stopReason : string)
| EventMaxIterations (limit : Z).

(* agent/event.go:231-241: eventSink *)
Record eventSink := mkSink {
  sk_stopped : bool; sk_closed : bool; sk_queue : list Event; sk_canceled : bool }.

#[global] Instance eta_eventSink : Settable eventSink := fun s =>
  mkSink (sk_stopped s) (sk_closed s) (sk_queue s) (sk_canceled s).

Section Sink.
Context {W : Type}.
(** The consumer's loop body: [yield(ev, err)]. *)
Variable yield : Event -> option error -> W -> bool * W.

(* agent/event.go: newEventSink *)
Definition newEventSink : eventSink := mkSink false false [] false.

(* agent/event.go: eventSink.emit *)
Definition sink_emit (ev : Event) (s : eventSink) (w : W) : bool * eventSink * W :=
  if sk_stopped s || sk_closed s then (false, s, w)
  else
    let '(more, w) := yield ev None w in
    if more then (true, s, w)
    else (false, s <| sk_stopped := true |> <| sk_canceled := true |>, w).

(* agent/event.go: eventSink.enqueue *)
Definition sink_enqueue (ev : Event) (s : eventSink) : eventSink :=
  s <| sk_queue := sk_queue s ++ [ev] |>.

(** Emit a list of events in order. *)
(* agent/event.go:317-319: loop of drain *)
Fixpoint emit_all (evs : list Event) (s : eventSink) (w : W) : eventSink * W :=
  match evs with
  | [] => (s, w)
  | ev :: evs => let '(_, s, w) := sink_emit ev s w in emit_all evs s w
  end.

(** The consumer's loop body runs on the draining goroutine; the events that workers
    add meanwhile are seen by a later drain. *)
(* agent/event.go: eventSink.drain *)
Definition sink_drain (s : eventSink) (w : W) : eventSink * W :=
  emit_all (sk_queue s) (s <| sk_queue := [] |>) w.

(* agent/event.go: eventSink.finish *)
Definition sink_finish (ev : Event) (err : option error) (s : eventSink) (w : W) : eventSink * W :=
  let '(s, w) := sink_drain s w in
  let w := if negb (sk_stopped s) && negb (sk_closed s) then snd (yield ev err w) else w in
  (s <| sk_closed := true |>, w).

(* agent/event.go: eventSink.close *)
Definition sink_close (s : eventSink) : eventSink := s <| sk_closed := true |>.

End Sink.

(** * What a consumer observes *)

Inductive sink_op : Type :=
| SEmit (ev : Event)
| SEnqueue (ev : Event)
| SDrain
| SFinish (ev : Event) (err : option error)
| SClose.

(** A delivery: the event, the error of the terminal yield and the consumer's answer. *)
Abbreviation delivery := (Event * option error * bool)%type.

Section Delivery.
(** The consumer decides on everything it has received. *)
Variable more : list delivery -> Event -> bool.

Definition record_yield (ev : Event) (err : option error) (w : list delivery) : bool * list delivery :=
  (more w ev, w ++ [(ev, err, more w ev)]).

Definition sink_run (o : sink_op) (c : eventSink * list delivery) : eventSink * list delivery :=
  let '(s, w) := c in
  match o with
  | SEmit ev => let '(_, s, w) := sink_emit record_yield ev s w in (s, w)
  | SEnqueue ev => (sink_enqueue ev s, w)
  | SDrain => sink_drain record_yield s w
  | SFinish ev err => sink_finish record_yield ev err s w
  | SClose => (sink_close s, w)
  end.

Definition sink_runs (os : list sink_op) : eventSink * list delivery :=
  fold_left (fun c o => sink_run o c) os (newEventSink, []).

(** The specification: a queue and an output; nothing is output after the end. *)
Record ideal := mkIdeal { id_queue : list Event; id_closed : bool; id_out : list (Event * option error) }.

Definition ideal_out (evs : list (Event * option error)) (i : ideal) : ideal :=
  if id_closed i then i else mkIdeal (id_queue i) (id_closed i) (id_out i ++ evs).

Definition ideal_drain (i : ideal) : ideal :=
  ideal_out (map (fun ev => (ev, None)) (id_queue i)) (mkIdeal [] (id_closed i) (id_out i)).

Definition ideal_close (i : ideal) : ideal := mkIdeal (id_queue i) true (id_out i).

Definition ideal_run (o : sink_op) (i : ideal) : ideal :=
  match o with
  | SEmit ev => ideal_out [(ev, None)] i
  | SEnqueue ev => mkIdeal (id_queue i ++ [ev]) (id_closed i) (id_out i)
  | SDrain => ideal_drain i
  | SFinish ev err => ideal_close (ideal_out [(ev, err)] (ideal_drain i))
  | SClose => ideal_close i
  end.

Definition ideal_runs (os : list sink_op) : list (Event * option error) :=
  id_out (fold_left (fun i o => ideal_run o i) os (mkIdeal [] false [])).

(** Every delivery but the last was answered with more. *)
Definition answered (w : list delivery) : Prop := forall pre d post, w = pre ++ d :: post -> post <> [] -> d.2 = true.

(** The sink simulates the specification until the consumer stops. *)
Definition simulates (s : eventSink) (w : list delivery) (i : ideal) : Prop :=
  sk_queue s = id_queue i /\ sk_closed s = id_closed i /\ answered w /\
  (if sk_stopped s then map fst w `prefix_of` id_out i
   else map fst w = id_out i /\ (sk_closed s = false -> Forall (fun d => d.2 = true) w)).

Lemma answered_snoc w d : Forall (fun d => d.2 = true) w -> answered (w ++ [d]).
Proof.
  intros Hall pre e post Heq Hpost. destruct post as [|f post _] using rev_ind; [done|].
  change (e :: post ++ [f]) with ((e :: post) ++ [f]) in Heq. rewrite app_assoc in Heq.
  apply app_inj_tail in Heq as [-> _]. rewrite Forall_app, Forall_cons in Hall. tauto.
Qed.

(** Output of the specification that the sink no longer delivers. *)
Lemma simulates_more s w i evs : sk_stopped s || sk_closed s = true -> simulates s w i -> simulates s w (ideal_out evs i).
Proof.
  unfold simulates, ideal_out. intros Hs (Hq & Hc & Ha & Hw). rewrite <- Hc.
  destruct (sk_closed s) eqn:E; [by rewrite ?E|]. rewrite orb_false_r in Hs. rewrite Hs in Hw. rewrite Hs.
  simpl. split_and!; try done. etransitivity; [exact Hw|]. by eexists.
Qed.

Lemma simulates_yield s w i ev err : sk_stopped s = false -> sk_closed s = false -> simulates s w i ->
  answered (w ++ [(ev, err, more w ev)]) /\ map fst (w ++ [(ev, err, more w ev)]) = id_out (ideal_out [(ev, err)] i) /\
  (more w ev = true -> Forall (fun d => d.2 = true) (w ++ [(ev, err, more w ev)])).
Proof.
  unfold simulates, ideal_out. intros Hs Hc (_ & Hc' & _ & Hw). rewrite Hs in Hw. rewrite <- Hc', Hc. simpl.
  destruct Hw as [Hw Hall]. split_and!.
  - by apply answered_snoc, Hall.
  - rewrite map_app, Hw. done.
  - intros Hm. apply Forall_app. split; [by apply Hall|]. by constructor.
Qed.

Lemma simulates_emit s w i ev : simulates s w i ->
  let '(_, s', w') := sink_emit record_yield ev s w in simulates s' w' (ideal_out [(ev, None)] i).
Proof.
  intros Hsim. unfold sink_emit. destruct (sk_stopped s || sk_closed s) eqn:E; [by apply simulates_more|].
  apply orb_false_iff in E as [Es Ec]. destruct (simulates_yield s w i ev None Es Ec Hsim) as (Ha & Hm & Hall).
  destruct Hsim as (Hq & Hc & _). unfold record_yield, simulates in *. rewrite Ec in Hc. 
  destruct (more w ev) eqn:Em; simpl; unfold ideal_out in *; rewrite <- Hc in *; simpl in *.
  - rewrite Es. split_and!; try done. intros _. by apply Hall.
  - split_and!; try done. by rewrite Hm.
Qed.

Lemma ideal_out_app e1 e2 i : ideal_out e2 (ideal_out e1 i) = ideal_out (e1 ++ e2) i.
Proof. unfold ideal_out. destruct (id_closed i) eqn:E; simpl; rewrite ?E; [done|]. by rewrite app_assoc. Qed.

Lemma simulates_emit_all evs s w i : simulates s w i ->
  let '(s', w') := emit_all record_yield evs s w in simulates s' w' (ideal_out (map (fun ev => (ev, None)) evs) i).
Proof.
  revert s w i. induction evs as [|ev evs IH]; intros s w i Hsim; simpl.
  - destruct i as [q [] out]; unfold ideal_out; simpl; [done|]. by rewrite app_nil_r.
  - pose proof (simulates_emit s w i ev Hsim) as He. destruct (sink_emit _ ev s w) as [[b s1] w1].
    specialize (IH s1 w1 _ He). rewrite ideal_out_app in IH. done.
Qed.

Lemma simulates_drain s w i : simulates s w i ->
  let '(s', w') := sink_drain record_yield s w in simulates s' w' (ideal_drain i).
Proof.
  intros Hsim. unfold sink_drain, ideal_drain. rewrite <- (proj1 Hsim). apply simulates_emit_all.
  destruct Hsim as (Hq & Hc & Ha & Hw). done.
Qed.

Lemma simulates_run o s w i : simulates s w i ->
  let '(s', w') := sink_run o (s, w) in simulates s' w' (ideal_run o i).
Proof.
  intros Hsim. destruct o as [ev|ev| |ev err|]; simpl.
  - pose proof (simulates_emit s w i ev Hsim) as He. by destruct (sink_emit _ ev s w) as [[b s1] w1].
  - destruct Hsim as (Hq & Hc & Ha & Hw). split_and!; try done. simpl. by rewrite Hq.
  - by apply simulates_drain.
  - unfold sink_finish. pose proof (simulates_drain s w i Hsim) as Hd.
    destruct (sink_drain _ s w) as [s1 w1]. destruct (negb (sk_stopped s1) && negb (sk_closed s1)) eqn:E.
    + apply andb_true_iff in E as [Es%negb_true_iff Ec%negb_true_iff].
      destruct (simulates_yield s1 w1 _ ev err Es Ec Hd) as (Ha & Hm & _). destruct Hd as (Hq & Hc & _).
      unfold simulates, record_yield, ideal_close, ideal_out in *. simpl. rewrite <- Hc, Ec in *. simpl in *.
      rewrite Es. split_and!; try done.
    + assert (E' : sk_stopped s1 || sk_closed s1 = true) by (by destruct (sk_stopped s1), (sk_closed s1)).
      pose proof (simulates_more s1 w1 _ [(ev, err)] E' Hd) as (Hq & Hc & Ha & Hw).
      unfold simulates, ideal_close. simpl. split_and!; try done.
      destruct (sk_stopped s1); [done|]. by destruct Hw.
  - destruct Hsim as (Hq & Hc & Ha & Hw). unfold simulates, ideal_close. simpl. split_and!; try done.
    destruct (sk_stopped s); [done|]. by destruct Hw.
Qed.

(** C27. Delivery refines a plain queue: whatever the engine and its workers do to the
    sink, the consumer receives a prefix of what the specification outputs, in order
    and without repetition, all of it if it never stopped, nothing after it answered
    no, and nothing after the terminal event. *)
Theorem sink_delivers_prefix os :
  map fst (snd (sink_runs os)) `prefix_of` ideal_runs os /\ answered (snd (sink_runs os)) /\
  (sk_stopped (fst (sink_runs os)) = false -> map fst (snd (sink_runs os)) = ideal_runs os).
Proof.
  unfold sink_runs, ideal_runs.
  enough (Hsim : forall s w i, simulates s w i ->
    let '(s', w') := fold_left (fun c o => sink_run o c) os (s, w) in
    simulates s' w' (fold_left (fun i o => ideal_run o i) os i)).
  { specialize (Hsim newEventSink [] (mkIdeal [] false [])).
    destruct (fold_left _ os (newEventSink, [])) as [s w]. simpl. destruct Hsim as (_ & _ & Ha & Hw).
    { split_and!; try done. by intros []. }
    destruct (sk_stopped s); [done|]. destruct Hw as [Hw _]. by rewrite Hw. }
  induction os as [|o os IH]; intros s w i Hi; [done|]. cbn [fold_left].
  pose proof (simulates_run o s w i Hi) as Hs. destruct (sink_run o (s, w)) as [s1 w1]. by apply IH.
Qed.

End Delivery.
