(* ===== verification/State.v ===== *)
(** The state of an invocation and the effects of the engine.

    The agent (agent/agent.go) is a record whose components outside the engine (the
    stores, the provider, retriever, guardrails, middleware, the consumer of the
    stream, the parent context) are functions on a world [W].  Engine code is a
    state transformer over [St]: the run (agent/engine.go, type run), the runtime of
    the invocation (usage, sink), the world, and a trace of the effects performed,
    which the engine never reads. *)
From S2P Require Import Prelude Errors Messages Normalize TurnMessages Execution Schema Tool.
From S2P Require Import Inference Stores EventSink.

(** * Requests and responses *)

(* agent/tool/tool.go:13-25: Choice *)
Record Choice := mkChoice { ch_Mode : string; ch_Name : string }.

(* agent/provider.go:80-86: ModelRequest *)
Record ModelRequest := mkRequest {
  mq_Messages : list Message; mq_System : string; mq_Tools : list Spec;
  mq_ToolChoice : option Choice; mq_InferenceConfig : option InferenceConfig }.

(* agent/provider.go:89-94: ModelResponse *)
Record ModelResponse := mkResponse {
  mr_Text : string; mr_ToolCalls : list Call; mr_Usage : TokenUsage; mr_Metadata : option GoAny }.

(* agent/provider.go:97-108: ModelEvent *)
Inductive ModelEvent : Type := ModelEventText (text : string) | ModelEventThinking (text : string).

(* agent/conversation.go:128-138: ContextManagerInput *)
Record ContextManagerInput := mkContextInput {
  ci_ConversationID : string; ci_Boundary : N; ci_Revision : N; ci_LastSequence : N;
  ci_Recent : list Message; ci_Current : list Message; ci_Transient : list Message;
  ci_System : string; ci_Tools : list Spec }.

(* agent/context.go:43-59: invocationConfig *)
Record invocationConfig := mkConfig {
  cfg_conversationID : string; cfg_executionID : string; cfg_executionIDSet : bool;
  cfg_executionResume : bool; cfg_executionVersion : N;
  cfg_images : list ImageSource; cfg_documents : list DocumentSource;
  cfg_inferenceConfig : option InferenceConfig; cfg_principal : option Principal;
  cfg_instructions : string; cfg_detailedEvents : bool }.

#[global] Instance eta_invocationConfig : Settable invocationConfig := fun c =>
  mkConfig (cfg_conversationID c) (cfg_executionID c) (cfg_executionIDSet c)
    (cfg_executionResume c) (cfg_executionVersion c) (cfg_images c) (cfg_documents c)
    (cfg_inferenceConfig c) (cfg_principal c) (cfg_instructions c) (cfg_detailedEvents c).

(** append([]byte(nil), b...): nil when there is nothing to copy. *)
Definition clone_data (b : RawMessage) : RawMessage := match b with Some "" => None | _ => b end.
Definition clone_image (s : ImageSource) : ImageSource := mkImageSource (clone_data (is_Data s)) (is_Base64 s) (is_URL s) (is_MIMEType s).
Definition clone_document (s : DocumentSource) : DocumentSource :=
  mkDocumentSource (clone_data (ds_Data s)) (ds_Base64 s) (ds_URL s) (ds_FileID s) (ds_S3URI s) (ds_S3BucketOwner s) (ds_MIMEType s) (ds_Name s).
(** Stop sequences that are set and empty become unset. *)
Definition clone_inference (c : InferenceConfig) : InferenceConfig :=
  c <| ic_StopSequences := match ic_StopSequences c with Some [] => None | s => s end |>.

(* agent/context.go: cloneInvocationConfig *)
Definition cloneInvocationConfig (c : invocationConfig) : invocationConfig :=
  c <| cfg_images := map clone_image (cfg_images c) |> <| cfg_documents := map clone_document (cfg_documents c) |>
    <| cfg_inferenceConfig := clone_inference <$> cfg_inferenceConfig c |>
    <| cfg_executionID := "" |> <| cfg_executionIDSet := false |>
    <| cfg_executionResume := false |> <| cfg_executionVersion := 0%N |>.

(** Scheduling of parallel tool calls: let worker [i] take its next step, or let the
    consumer's goroutine drain the event queue. *)
Inductive SchedAct : Type := SchedStep (i : nat) | SchedDrain.

(** Text that fmt and encoding/json produce: the message of an error, and the JSON
    object of a denied call (agent/tool_guard.go, denialResultJSON). *)
Class Texts := {
  error_text : error -> string;
  denialResultJSON : string -> string -> string }.

Section State.
Context {W : Type}.

(* agent/conversation.go:116-123: ContextManager *)
Record ContextManager := mkContextManager {
  cm_HistoryBoundary : string -> W -> res N * W;
  cm_Prepare : ContextManagerInput -> W -> res (list Message) * W }.

(** [None] is a nil lease. *)
(* agent/ratelimiter_api.go:21-25: RateLimiter *)
Record RateLimiter := mkRateLimiter {
  rl_Lease : Type;
  rl_Reserve : string -> ModelRequest -> W -> res (option rl_Lease) * W;
  rl_Commit : rl_Lease -> TokenUsage -> W -> res unit * W;
  rl_Release : rl_Lease -> W -> res unit * W }.

(** A provider attempt: the events it streams, then its answer, which may depend on
    the state of the invocation's context after those events were delivered. *)
(* agent/provider.go:111-114: Provider *)
Record Provider := mkProvider {
  pv_ModelID : string;
  pv_Events : ModelRequest -> W -> list ModelEvent * W;
  pv_Answer : ModelRequest -> option error -> W -> res ModelResponse * W }.

(* agent/agent.go:17-60: Agent *)
Record Agent := mkAgent {
  a_provider : Provider; a_instructions : string; a_toolRegistry : W -> Registry W;
  a_inferenceConfig : option InferenceConfig; a_maxIterations : Z; a_tokenBudget : Z;
  a_sequentialTools : bool; a_maxConcurrentTools : Z;
  a_conversation : option (ConversationStore W); a_contextManager : option ContextManager;
  a_executionStore : option (ExecutionStore W);
  a_normStrategy : option NormStrategy; a_normDisabled : bool;
  a_retriever : option (string -> W -> res (list string) * W);
  a_contextFormatter : list string -> string;
  a_middlewares : list (Middleware W);
  a_inputGuardrails : list (string -> W -> res string * W);
  a_outputGuardrails : list (string -> W -> res string * W);
  a_toolVisibility : W -> list (ToolVisibility W);
  a_rateLimiter : option RateLimiter; a_rateLimitKey : option (W -> string);
  a_random : W -> res (list N) * W;
  (** The parent context's error, the consumer of the stream and the scheduler. *)
  a_ctxErr : W -> option error;
  a_yield : Event -> option error -> W -> bool * W;
  a_schedule : W -> list SchedAct * W }.

(* agent/engine.go:138-152: run *)
Record run := mkRun {
  r_execution : option Execution; r_executionDurable : bool; r_convID : string;
  r_revision : N; r_lastSequence : N; r_historyBoundary : N;
  r_recovering : bool; r_iteration : Z; r_persistedCount : nat;
  r_cfg : invocationConfig }.

#[global] Instance eta_run : Settable run := fun r =>
  mkRun (r_execution r) (r_executionDurable r) (r_convID r) (r_revision r) (r_lastSequence r)
    (r_historyBoundary r) (r_recovering r) (r_iteration r) (r_persistedCount r) (r_cfg r).

(** What the engine did to the outside, in order: acknowledged writes to the stores,
    dispatches of tool handlers and provider attempts. *)
Inductive Effect : Type :=
| EffCreate (x : Execution)
| EffSave (x : Execution)
| EffAppend (conv : string) (delta : list Message) (cursor : ConversationCursor)
| EffDispatch (durable : bool) (callID name key : string) (replay : bool)
| EffProvider (req : ModelRequest).

(** The state of an invocation.  [st_ctxerr] is the error of the invocation's context
    once it has been cancelled or has expired. *)
Record St := mkSt {
  st_run : run; st_sink : option eventSink; st_usage : TokenUsage;
  st_ctxerr : option error; st_world : W; st_trace : list Effect }.

#[global] Instance eta_St : Settable St := fun s =>
  mkSt (st_run s) (st_sink s) (st_usage s) (st_ctxerr s) (st_world s) (st_trace s).

(** * The monad *)

Definition M (A : Type) : Type := St -> A * St.

Definition ret {A} (a : A) : M A := fun s => (a, s).
Definition bind {A B} (m : M A) (k : A -> M B) : M B := fun s => let '(a, s) := m s in k a s.
Definition fail {A} (e : error) : M (res A) := ret (Err e).
(** [if err != nil { return err }] *)
Definition bindR {A B} (m : M (res A)) (k : A -> M (res B)) : M (res B) :=
  bind m (fun r => match r with Ok a => k a | Err e => ret (Err e) end).

Definition getR : M run := fun s => (st_run s, s).
Definition modR (f : run -> run) : M unit := fun s => (tt, s <| st_run := f (st_run s) |>).
(* agent/context.go: invocationRuntime.totalUsage *)
Definition totalUsage : M TokenUsage := fun s => (st_usage s, s).
(* agent/context.go: invocationRuntime.seedUsage *)
Definition seedUsage (u : TokenUsage) : M unit := fun s => (tt, s <| st_usage := u |>).
(* agent/context.go: invocationRuntime.addUsage *)
Definition addUsage (u : TokenUsage) : M TokenUsage := fun s =>
  let u' := usage_add (st_usage s) u in (u', s <| st_usage := u' |>).
Definition world {A} (f : W -> A * W) : M A := fun s =>
  let '(a, w) := f (st_world s) in (a, s <| st_world := w |>).
Definition peek {A} (f : W -> A) : M A := fun s => (f (st_world s), s).
Definition note (e : Effect) : M unit := fun s => (tt, s <| st_trace := st_trace s ++ [e] |>).
Definition when (b : bool) (m : M unit) : M unit := if b then m else ret tt.

End State.

Arguments ContextManager W : clear implicits.
Arguments RateLimiter W : clear implicits.
Arguments Provider W : clear implicits.
Arguments Agent W : clear implicits.
Arguments St W : clear implicits.
Arguments M W A : clear implicits.

Notation "'let!' x := m 'in' k" := (bind m (fun x => k))
  (at level 10, x binder, m at level 100, k at level 200) : gude_scope.
Notation "'let?' x := m 'in' k" := (bindR m (fun x => k))
  (at level 10, x binder, m at level 100, k at level 200) : gude_scope.
Notation "m1 ;! m2" := (bind m1 (fun _ => m2)) (at level 55, right associativity) : gude_scope.
Notation "m1 ;? m2" := (bindR m1 (fun _ => m2)) (at level 55, right associativity) : gude_scope.

(** * Contexts and events *)

Section Events.
Context {W : Type} (a : Agent W).

(** [c.Err()]: an invocation's context reports the parent's error, or Canceled after
    the consumer stopped, whichever came first, and keeps reporting it. *)
Definition ctx_Err : M W (option error) := fun s =>
  match st_ctxerr s with
  | Some e => (Some e, s)
  | None =>
      let e := a_ctxErr a (st_world s) in (e, s <| st_ctxerr := e |>)
  end.

(** The sink's cancel function on the invocation's context. *)
Definition ctx_cancel : M W unit := fun s =>
  match st_ctxerr s with
  | Some _ => (tt, s)
  | None =>
      (tt, s <| st_ctxerr := Some (default (ESentinel ContextCanceled) (a_ctxErr a (st_world s))) |>)
  end.

(** Run a sink operation of the invocation, if a consumer is attached, and cancel the
    context when the consumer stopped in it. *)
Definition with_sink (f : eventSink -> W -> eventSink * W) : M W unit := fun s =>
  match st_sink s with
  | None => (tt, s)
  | Some sk =>
      let '(sk', w) := f sk (st_world s) in
      let s := s <| st_sink := Some sk' |> <| st_world := w |> in
      if negb (sk_canceled sk) && sk_canceled sk' then ctx_cancel s else (tt, s)
  end.

(* agent/context.go: Context.emit *)
Definition emit (async : bool) (ev : Event) : M W unit :=
  with_sink (fun sk w =>
    if async then (sink_enqueue ev sk, w)
    else let '(_, sk, w) := sink_emit (a_yield a) ev sk w in (sk, w)).

(** runParallel's drain on the consumer's goroutine. *)
Definition drain : M W unit := with_sink (fun sk w => sink_drain (a_yield a) sk w).

(* agent/engine.go: run.detailed *)
Definition detailed : M W bool := let! r := getR in ret (cfg_detailedEvents (r_cfg r)).

(* agent/engine.go: run.emitLifecycle *)
Definition emitLifecycle (ev : Event) : M W unit :=
  let! d := detailed in if d then emit false ev else ret tt.

(* agent/agent.go: Agent.instructionsFor *)
Definition instructionsFor (c : invocationConfig) : string :=
  if bool_decide (cfg_instructions c <> "") then cfg_instructions c else a_instructions a.

(* agent/engine.go: run.hasConversation *)
Definition hasConversation (r : run) : option (ConversationStore W) :=
  match a_conversation a with
  | Some cs => if bool_decide (r_convID r <> "") then Some cs else None
  | None => None
  end.

(* agent/engine.go: Agent.requireConversationID *)
Definition requireConversationID (convID : string) : res unit :=
  match a_conversation a with
  | Some _ => if bool_decide (convID = "") then Err (ESentinel ErrConversationIDRequired) else Ok tt
  | None => Ok tt
  end.

(** The registry and the rules at the time of a call. *)
Definition visible : M W (list Spec * gmap string (Tool W)) :=
  let! r := getR in
  peek (fun w => visibleTools (a_toolRegistry a w) (a_toolVisibility a w) (cfg_principal (r_cfg r))).

End Events.
