(* ===== verification/ToolBatch.v ===== *)
(** The durable tool boundary (agent/engine.go): the compare-and-swap transitions of
    the execution record, the plan of a tool batch, the claim of a call, the commit of
    results, and the recognition of the active batch in the transcript. *)
From S2P Require Import Prelude Errors Messages Normalize TurnMessages Execution Schema Tool.
From S2P Require Import Inference Stores EventSink State.

Abbreviation Unsupported := (ESentinel ErrExecutionRecoveryUnsupported) (only parsing).

(** A Go loop from the last message to the first: [f m rest] is the body at message
    [m] with the messages [rest] after it. *)
(* agent/engine.go:1214-1238: backward scan of activeToolBatchFromMessages *)
Fixpoint scan_back {R} (f : Message -> list Message -> option R) (ms : list Message) : option R :=
  match ms with
  | [] => None
  | m :: rest => match scan_back f rest with Some r => Some r | None => f m rest end
  end.

(* agent/engine.go:750-753: priorToolUse *)
Record priorToolUse := mkPrior { pt_name : string; pt_inputHash : string }.

(** * Pure parts *)

Section Pure.
Context `{Hashing}.

(* agent/engine.go:766-780: loop of priorToolUses *)
Fixpoint collect_prior (uses : list ToolUse) (seen : gmap string priorToolUse)
  : res (gmap string priorToolUse) :=
  match uses with
  | [] => Ok seen
  | use :: uses =>
      match toolInputHash (tu_Input use) with
      | Err e => Err (EWrap "canonical prior tool input" e)
      | Ok hash => collect_prior uses (<[tu_ToolUseID use := mkPrior (tu_Name use) hash]> seen)
      end
  end.

(* agent/engine.go:804-832: loop of planToolBatch *)
Fixpoint plan_calls (prior : gmap string priorToolUse) (replaySafe : string -> bool)
  (executionID : string) (calls : list Call) (seen : gset string) : res (list ToolExecution) :=
  match calls with
  | [] => Ok []
  | call :: calls =>
      if bool_decide (c_ToolUseID call = "") then Err (ENew "tool call has empty call ID")
      else if bool_decide (c_ToolUseID call ∈ seen) then Err (ENew "tool call duplicates call ID")
      else match toolInputHash (c_Input call) with
      | Err e => Err (EWrap "tool call input" e)
      | Ok inputHash =>
          match prior !! c_ToolUseID call with
          | Some previous =>
              if bool_decide (pt_name previous <> c_Name call) ||
                 bool_decide (pt_inputHash previous <> inputHash)
              then Err (ENew "tool call reuses call ID with different name or input")
              else Err (ENew "tool call reuses call ID within execution")
          | None =>
              letr rest := plan_calls prior replaySafe executionID calls ({[c_ToolUseID call]} ∪ seen) in
              Ok (mkToolExecution (c_ToolUseID call) (c_Name call) ToolExecutionPlanned
                    (toolExecutionKey executionID (c_ToolUseID call)) inputHash
                    (cloneRaw (c_Input call)) (replaySafe (c_Name call)) None :: rest)
          end
      end
  end.

(* agent/engine.go:849-855: loop of markToolBatchReady *)
Fixpoint mark_ready (calls : list ToolExecution) : res (list ToolExecution) :=
  match calls with
  | [] => Ok []
  | call :: calls =>
      if bool_decide (te_Status call <> ToolExecutionPlanned) then Err Unsupported
      else letr rest := mark_ready calls in
           Ok (call <| te_Status := ToolExecutionReady |> <| te_Input := None |> :: rest)
  end.

(** The first call with an ID, as the loops over a batch find it. *)
(* agent/engine.go:884-904: search by call ID *)
Definition find_call (callID : string) (calls : list ToolExecution) : option ToolExecution :=
  List.find (fun call => bool_decide (te_CallID call = callID)) calls.

(** Change the first call with an ID. *)
Fixpoint update_call (callID : string) (f : ToolExecution -> ToolExecution)
  (calls : list ToolExecution) : list ToolExecution :=
  match calls with
  | [] => []
  | call :: calls =>
      if bool_decide (te_CallID call = callID) then f call :: calls
      else call :: update_call callID f calls
  end.

Lemma find_call_id callID calls c : find_call callID calls = Some c -> te_CallID c = callID.
Proof. intros [_ Hc]%List.find_some. by bool_hyps. Qed.

Lemma find_call_update callID f calls :
  (forall c, te_CallID (f c) = te_CallID c) ->
  find_call callID (update_call callID f calls) = f <$> find_call callID calls.
Proof.
  intros Hf. unfold find_call. induction calls as [|c calls IH]; simpl; [done|].
  case_bool_decide as Hc; simpl.
  - rewrite Hf, bool_decide_true; done.
  - rewrite bool_decide_false by done. exact IH.
Qed.

Lemma find_call_update_ne callID id f calls : id <> callID ->
  (forall c, te_CallID (f c) = te_CallID c) ->
  find_call callID (update_call id f calls) = find_call callID calls.
Proof.
  intros Hne Hf. unfold find_call. induction calls as [|c calls IH]; simpl; [done|].
  case_bool_decide as Hc; simpl.
  - rewrite Hf, Hc, bool_decide_false by done. done.
  - by rewrite IH.
Qed.

Lemma find_call_map callID f calls :
  (forall c, te_CallID (f c) = te_CallID c) ->
  find_call callID (map f calls) = f <$> find_call callID calls.
Proof.
  intros Hf. unfold find_call. induction calls as [|c calls IH]; simpl; [done|].
  rewrite Hf. by case_bool_decide.
Qed.

(* agent/engine.go:880-905: transition of beginToolExecution *)
Definition claim_call (recovering : bool) (callID toolName : string) (execution : Execution)
  : res (Execution * (string * bool)) :=
  match x_ToolBatch execution with
  | None => Err Unsupported
  | Some batch =>
      match find_call callID (tb_Calls batch) with
      | None => Err Unsupported
      | Some call =>
          match te_Status call with
          | ToolExecutionReady =>
              Ok (execution <| x_ToolBatch := Some (batch <| tb_Calls :=
                    update_call callID (fun c => c <| te_Status := ToolExecutionInFlight |>) (tb_Calls batch) |>) |>,
                  (te_IdempotencyKey call, false))
          | ToolExecutionInFlight =>
              if recovering && te_ReplaySafe call then Ok (execution, (te_IdempotencyKey call, true))
              else Err (EUncertain (x_ID execution) callID toolName (te_IdempotencyKey call))
          | _ => Err Unsupported
          end
      end
  end.

(** Mark the given calls completed; nothing is left of a batch whose calls are all
    completed. *)
(* agent/engine.go:948-956: completion loop of removeToolCalls *)
Definition complete_calls (done : string -> bool) (calls : list ToolExecution) : list ToolExecution :=
  map (fun call => if done (te_CallID call) then call <| te_Status := ToolExecutionCompleted |> else call) calls.

Definition all_completed (calls : list ToolExecution) : bool :=
  forallb (fun call => bool_decide (te_Status call = ToolExecutionCompleted)) calls.

(* agent/engine.go:942-961: transition of removeToolCalls *)
Definition remove_calls (revision lastSequence : N) (completed : gset string) (execution : Execution)
  : Execution :=
  let execution := execution <| x_Revision := revision |> <| x_LastSequence := lastSequence |> in
  match x_ToolBatch execution with
  | None => execution
  | Some batch =>
      let calls := complete_calls (fun id => bool_decide (id ∈ completed)) (tb_Calls batch) in
      if all_completed calls then execution <| x_ToolBatch := None |> <| x_Phase := ExecutionPhaseModel |>
      else execution <| x_ToolBatch := Some (batch <| tb_Calls := calls |>) |>
  end.

(** A block of the transcript is the tool use that a planned call recorded. *)
(* agent/engine.go:1227-1231: match test of a tool use *)
Definition use_matches (use : ToolUse) (call : ToolExecution) : bool :=
  match toolInputHash (tu_Input use) with
  | Err _ => false
  | Ok hash => bool_decide (tu_ToolUseID use = te_CallID call) &&
               bool_decide (tu_Name use = te_Name call) && bool_decide (hash = te_InputHash call)
  end.

(* agent/engine.go:1117-1137: tool uses of activeToolBatch *)
Fixpoint match_uses (content : list ContentBlock) (batch : list ToolExecution) (seen : gset string)
  : res (list Call * gset string) :=
  match content, batch with
  | [], _ => Ok ([], seen)
  | ToolUseBlock use :: content, call :: batch =>
      if negb (use_matches use call) then Err Unsupported
      else if bool_decide (tu_ToolUseID use ∈ seen) then Err Unsupported
      else letr '(calls, seen) := match_uses content batch ({[tu_ToolUseID use]} ∪ seen) in
           Ok (mkCall (tu_ToolUseID use) (tu_Name use) (cloneRaw (tu_Input use)) :: calls, seen)
  | _, _ => Err Unsupported
  end.

(** The results of one message. *)
(* agent/engine.go:1143-1152: results of one message *)
Fixpoint collect_results (rs : list ToolResultBlock) (seen results : gset string) : res (gset string) :=
  match rs with
  | [] => Ok results
  | r :: rs =>
      if bool_decide (tr_ToolUseID r ∉ seen) then Err (ESentinel ErrConversationConflict)
      else if bool_decide (tr_ToolUseID r ∈ results) then Err (ESentinel ErrConversationConflict)
      else collect_results rs seen ({[tr_ToolUseID r]} ∪ results)
  end.

(* agent/engine.go:1138-1153: result messages of activeToolBatch *)
Fixpoint match_results (messages : list Message) (seen results : gset string) : res (gset string) :=
  match messages with
  | [] => Ok results
  | m :: messages =>
      if bool_decide (m_Role m <> RoleUser) || negb (onlyToolResults (m_Content m)) then
        Err (ESentinel ErrConversationConflict)
      else letr results := collect_results (tool_results m) seen results in
           match_results messages seen results
  end.

(* agent/engine.go: activeToolBatch *)
Definition activeToolBatch (messages : list Message) (batch : option ToolBatchExecution)
  : res (list Call * gset string) :=
  match batch, messages with
  | Some batch, m :: rest =>
      if bool_decide (m_Role m <> RoleAssistant) then Err Unsupported
      else if bool_decide (length (m_Content m) <> length (tb_Calls batch)) then Err Unsupported
      else letr '(calls, seen) := match_uses (m_Content m) (tb_Calls batch) ∅ in
           letr results := match_results rest seen ∅ in
           Ok (calls, results)
  | _, _ => Err Unsupported
  end.

(* agent/engine.go: activeToolBatchFromMessages *)
Definition activeToolBatchFromMessages (messages : list Message) (batch : ToolBatchExecution)
  : res (list Call * gset string) :=
  default (Err Unsupported) (scan_back (fun m rest =>
    if bool_decide (m_Role m <> RoleAssistant) ||
       bool_decide (length (m_Content m) <> length (tb_Calls batch)) then None
    else if forallb (fun p => match p.1 with ToolUseBlock use => use_matches use p.2 | _ => false end)
              (zip (m_Content m) (tb_Calls batch))
    then Some (activeToolBatch (m :: rest) (Some batch))
    else None) messages).

(** decisions[j], or nil beyond the end. *)
Definition decision_at (decisions : list (option Decision)) (j : nat) : option Decision :=
  default None (decisions !! j).

(* agent/engine.go:1253-1275: match test of filterCompletedToolCalls *)
Definition uses_match (uses : list ToolUse) (requested : list Call) : bool :=
  forallb (fun p => match toolInputHash (tu_Input p.1), toolInputHash (c_Input p.2) with
    | Ok h1, Ok h2 => bool_decide (tu_ToolUseID p.1 = c_ToolUseID p.2) &&
                      bool_decide (tu_Name p.1 = c_Name p.2) && bool_decide (h1 = h2)
    | _, _ => false
    end) (zip uses requested).

(* agent/engine.go:1276-1288: completed results of filterCompletedToolCalls *)
Fixpoint completed_after (messages : list Message) (completed : gset string) : gset string :=
  match messages with
  | [] => completed
  | later :: messages =>
      if bool_decide (m_Role later = RoleAssistant) then completed
      else if bool_decide (m_Role later <> RoleUser) || negb (onlyToolResults (m_Content later)) then
        completed_after messages completed
      else completed_after messages (list_to_set (map tr_ToolUseID (tool_results later)) ∪ completed)
  end.

(* agent/engine.go: filterCompletedToolCalls *)
Definition filterCompletedToolCalls (messages : list Message) (requested : list Call)
  (decisions : option (list (option Decision))) : res (list Call * option (list (option Decision))) :=
  if is_nil requested then Ok (requested, decisions)
  else default (Err Unsupported) (scan_back (fun m rest =>
    if bool_decide (m_Role m <> RoleAssistant) then None
    else
      let uses := tool_uses m in
      if bool_decide (length uses <> length requested) then None
      else if negb (uses_match uses requested) then None
      else
        let completed := completed_after rest ∅ in
        let kept := List.filter (fun p => negb (bool_decide (c_ToolUseID p.2 ∈ completed)))
                      (imap pair requested) in
        let remaining := map snd kept in
        match decisions with
        | None => Some (Ok (remaining, None))
        | Some ds => Some (Ok (remaining, Some (map (fun p => decision_at ds p.1) kept)))
        end) messages).

(* agent/engine.go: run.persistedApprovalDecisions *)
Definition persistedApprovalDecisions (execution : option Execution) (calls : list Call)
  : option (list (option Decision)) :=
  match execution with
  | None => None
  | Some x =>
      match x_ToolBatch x with
      | None => None
      | Some batch =>
          let decisions := map (fun call =>
            match List.find (fun active => bool_decide (te_CallID active = c_ToolUseID call) &&
                    bool_decide (is_Some (te_Approval active))) (tb_Calls batch) with
            | Some active => te_Approval active
            | None => None
            end) calls in
          if existsb (fun d => bool_decide (is_Some d)) decisions then Some decisions else None
      end
  end.

(* agent/engine.go:1345-1359: loop of persistApprovalDecisions *)
Fixpoint approve_calls (resp : ResumeResponse) (requested : list ApprovalCall)
  (calls : list ToolExecution) : res (list ToolExecution) :=
  match requested with
  | [] => Ok calls
  | r :: requested =>
      match find_call (ac_CallID r) calls with
      | None => Err Unsupported
      | Some _ => approve_calls resp requested
          (update_call (ac_CallID r) (fun c => c <| te_Approval := Some (decisionFor resp (te_CallID c)) |>) calls)
      end
  end.

(* agent/engine.go:1172-1179: request check of prepareToolBatch *)
Definition requested_match (requested calls : list Call) : bool :=
  is_nil requested ||
  (bool_decide (length requested = length calls) &&
   forallb (fun p => bool_decide (c_ToolUseID p.1 = c_ToolUseID p.2) && bool_decide (c_Name p.1 = c_Name p.2))
     (zip requested calls)).

(* agent/engine.go:1188-1194: decisionByID of prepareToolBatch *)
Definition decisions_by_id (requested : list Call) (decisions : list (option Decision)) : gmap string Decision :=
  fold_left (fun byID p => match p.2 with Some d => <[c_ToolUseID p.1 := d]> byID | None => byID end)
    (zip requested decisions) ∅.

(* agent/engine.go:1195-1203: remaining calls of prepareToolBatch *)
Definition remaining_calls (calls : list Call) (batch : list ToolExecution) : list Call :=
  map snd (List.filter (fun p => match batch !! p.1 with
    | Some active => negb (bool_decide (te_Status active = ToolExecutionCompleted))
    | None => true
    end) (imap pair calls)).

End Pure.

(** * Transitions *)

Section Transitions.
Context {W : Type} (a : Agent W) `{Hashing}.

(** ExecutionStore.Save; the acknowledged record enters the trace. *)
(* agent/engine.go:704-707: Save of persistExecution *)
Definition store_Save (x : Execution) (expected : N) : M W (res Execution) :=
  match a_executionStore a with
  | None => fail (ESentinel ErrNoExecutionStore)
  | Some es => let? x' := world (es_Save es x expected) in note (EffSave x') ;! ret (Ok x')
  end.

(** Change the run's record, save it at its version and keep what the store returns:
    the step that every transition of the run shares.  The result [b] of [change] is
    what a Go closure assigns to captured variables. *)
(* agent/engine.go:697-709: clone, change and Save of persistExecution *)
Definition update_record {B} (change : Execution -> res (Execution * B)) : M W (res B) :=
  let! r := getR in
  match r_execution r with
  | None => fail Unsupported
  | Some x =>
      match change x with
      | Err e => fail e
      | Ok (next, b) =>
          let? updated := store_Save next (x_Version next) in
          modR (fun r => r <| r_execution := Some updated |>) ;!
          ret (Ok b)
      end
  end.

(* agent/engine.go: run.persistExecution *)
Definition persistExecution {B} (b0 : B) (change : Execution -> res (Execution * B)) : M W (res B) :=
  let! r := getR in
  if negb (r_executionDurable r) then ret (Ok b0)
  else update_record (fun x => change (cloneExecution x)).

(** A transition without a result. *)
Definition persist (change : Execution -> res Execution) : M W (res unit) :=
  persistExecution tt (fun x => letr x := change x in Ok (x, tt)).

(* agent/engine.go: run.persistRuntimeProgress *)
Definition persistRuntimeProgress : M W (res unit) :=
  let! r := getR in
  let! u := totalUsage in
  persist (fun x => Ok (x <| x_Iteration := r_iteration r |> <| x_Usage := u |>)).

(* agent/engine.go: run.persistPendingPause *)
Definition persistPendingPause (i : Interrupt) : M W (res unit) :=
  let! r := getR in
  let! u := totalUsage in
  if negb (r_executionDurable r) then ret (Ok tt)
  else persist (fun x => Ok (x <| x_PendingPause := Some (pauseFromInterrupt i) |>
                               <| x_Iteration := r_iteration r |> <| x_Usage := u |>)).

(* agent/engine.go: run.persistExecutionStartCursor *)
Definition persistExecutionStartCursor : M W (res unit) :=
  let! r := getR in
  if negb (r_executionDurable r) then ret (Ok tt)
  else match r_execution r with
  | None => ret (Ok tt)
  | Some x =>
      if x_StartCursorPersisted x then ret (Ok tt)
      else persist (fun x =>
        if x_StartCursorPersisted x then Ok x
        else Ok (x <| x_StartRevision := r_revision r |> <| x_StartLastSequence := r_lastSequence r |>
                   <| x_StartCursorPersisted := true |>))
  end.

(* agent/engine.go: run.priorToolUses *)
Definition priorToolUses : M W (res (gmap string priorToolUse)) :=
  let! r := getR in
  match hasConversation a r, r_execution r with
  | Some cs, Some x =>
      if negb (x_StartCursorPersisted x) then fail Unsupported
      else
        let! loaded := world (cs_LoadAfter cs (r_convID r) (x_StartLastSequence x)) in
        match loaded with
        | Err e => fail (EWrap "load execution tool history" e)
        | Ok snapshot => ret (collect_prior (concat (map tool_uses (sn_Messages snapshot))) ∅)
        end
  | _, _ => fail Unsupported
  end.

(* agent/engine.go: run.planToolBatch *)
Definition planToolBatch (calls : list Call) : M W (res unit) :=
  let! r := getR in
  if negb (r_executionDurable r) then ret (Ok tt)
  else match r_execution r with
  | None => fail Unsupported
  | Some x =>
      match x_ToolBatch x with
      | Some _ => fail Unsupported
      | None =>
          let? _ := persistExecutionStartCursor in
          let? prior := priorToolUses in
          let! registry := peek (a_toolRegistry a) in
          let replaySafe name := match Lookup registry name with
            | Some registered => t_replaySafe registered
            | None => false
            end in
          persist (fun x =>
            match x_ToolBatch x with
            | Some _ => Err Unsupported
            | None =>
                letr planned := plan_calls prior replaySafe (x_ID x) calls ∅ in
                Ok (x <| x_Revision := r_revision r |> <| x_LastSequence := r_lastSequence r |>
                      <| x_Phase := ExecutionPhaseTools |> <| x_Iteration := r_iteration r |>
                      <| x_ToolBatch := Some (mkToolBatch (r_iteration r) planned 0 0 None) |>)
            end)
      end
  end.

(* agent/engine.go: run.markToolBatchReady *)
Definition markToolBatchReady : M W (res unit) :=
  let! r := getR in
  persist (fun x =>
    match x_ToolBatch x with
    | None => Err Unsupported
    | Some batch =>
        letr calls := mark_ready (tb_Calls batch) in
        Ok (x <| x_Revision := r_revision r |> <| x_LastSequence := r_lastSequence r |>
              <| x_ToolBatch := Some (batch <| tb_ToolUseRevision := r_revision r |>
                    <| tb_ToolUseLastSequence := r_lastSequence r |> <| tb_Calls := calls |>) |>)
    end).

(* agent/engine.go: run.toolExecution *)
Definition toolExecution (callID : string) : M W (option ToolExecution) :=
  let! r := getR in
  ret (match r_execution r with
       | Some x => match x_ToolBatch x with
           | Some batch => find_call callID (tb_Calls batch)
           | None => None
           end
       | None => None
       end).

(* agent/engine.go: run.beginToolExecution *)
Definition beginToolExecution (callID toolName : string) : M W (res (string * bool)) :=
  let! r := getR in
  persistExecution ("", false) (claim_call (r_recovering r) callID toolName).

(* agent/engine.go: run.saveConversation *)
Definition saveConversation (messages : list Message) : M W (res unit) :=
  let! r := getR in
  match hasConversation a r with
  | None => ret (Ok tt)
  | Some cs =>
      if bool_decide (length messages < r_persistedCount r)%nat then
        fail (ENew "conversation append: canonical history regressed")
      else
        let delta := drop (r_persistedCount r) messages in
        if is_nil delta then ret (Ok tt)
        else
          let! appended := world (cs_Append cs (r_convID r) delta (r_revision r)) in
          match appended with
          | Err e => fail (EWrap "conversation append" e)
          | Ok cursor =>
              note (EffAppend (r_convID r) delta cursor) ;!
              modR (fun r => r <| r_revision := cu_Revision cursor |>
                               <| r_lastSequence := cu_LastSequence cursor |>
                               <| r_persistedCount := length messages |>) ;!
              ret (Ok tt)
          end
  end.

(* agent/engine.go: run.removeToolCalls *)
Definition removeToolCalls (completed : gset string) : M W (res unit) :=
  let! r := getR in
  persist (fun x => Ok (remove_calls (r_revision r) (r_lastSequence r) completed x)).

(* agent/engine.go: run.completeCanonicalToolResults *)
Definition completeCanonicalToolResults (completed : gset string) : M W (res unit) :=
  if bool_decide (completed = ∅) then ret (Ok tt) else removeToolCalls completed.

(* agent/engine.go: run.prepareToolBatch *)
Definition prepareToolBatch (messages : list Message) (requested : list Call)
  (decisions : option (list (option Decision)))
  : M W (res (list Call * option (list (option Decision)))) :=
  let! r := getR in
  if negb (r_executionDurable r) then ret (filterCompletedToolCalls messages requested decisions)
  else match r_execution r with
  | None => fail Unsupported
  | Some x =>
      match x_ToolBatch x with
      | None => fail Unsupported
      | Some batch =>
          match activeToolBatchFromMessages messages batch with
          | Err e => fail e
          | Ok (calls, canonicalResults) =>
              if negb (requested_match requested calls) then fail Unsupported
              else
                let? _ := completeCanonicalToolResults canonicalResults in
                let! r := getR in
                match r_execution r with
                | None => fail Unsupported
                | Some x =>
                    match x_ToolBatch x with
                    | None => ret (Ok ([], None))
                    | Some batch =>
                        let byID := decisions_by_id requested (default [] decisions) in
                        let remaining := remaining_calls calls (tb_Calls batch) in
                        match persistedApprovalDecisions (Some x) remaining, decisions with
                        | Some persisted, _ => ret (Ok (remaining, Some persisted))
                        | None, None => ret (Ok (remaining, None))
                        | None, Some _ =>
                            ret (Ok (remaining, Some (map (fun c => byID !! c_ToolUseID c) remaining)))
                        end
                    end
                end
          end
      end
  end.

(* agent/engine.go: run.persistApprovalDecisions *)
Definition persistApprovalDecisions (approval : option (list ApprovalCall)) (resp : ResumeResponse)
  : M W (res unit) :=
  let! r := getR in
  if negb (r_executionDurable r) then ret (Ok tt)
  else match approval with
  | None => fail Unsupported
  | Some requested =>
      persist (fun x =>
        match x_ToolBatch x with
        | None => Err Unsupported
        | Some batch =>
            letr calls := approve_calls resp requested (tb_Calls batch) in
            Ok (x <| x_ToolBatch := Some (batch <| tb_Calls := calls |>) |>)
        end)
  end.

End Transitions.
