(* ===== verification/ToolExec.v ===== *)
(** Tool execution (agent/tool_exec.go, agent/tool_batch.go and the outcome helpers of
    agent/engine.go): the pipeline of one call, the batch under the agent's execution
    policy, and the coordinator that commits the results.

    The pipeline of a call is split where another goroutine can act on the shared
    run: the admission checks, the durable claim (serialised by persistMu), and the
    handler with the conversion of its result.  A batch that runs in parallel
    interleaves these steps under an arbitrary schedule. *)
From S2P Require Import Prelude Errors Messages Normalize TurnMessages Execution Schema Tool.
From S2P Require Import Inference Stores EventSink State ToolBatch.

(* agent/tool_exec.go:14-22: toolOutcomeKind *)
Inductive toolOutcomeKind : Type :=
| toolOutcomeDefinitive | toolOutcomePendingApproval | toolOutcomeDeferred
| toolOutcomeUnknown | toolOutcomeCoordinationFailure.

#[global] Instance toolOutcomeKind_eq_dec : EqDecision toolOutcomeKind.
Proof. solve_decision. Defined.

(* agent/tool_exec.go:25-31: toolOutcome *)
Record toolOutcome := mkOutcome {
  to_kind : toolOutcomeKind; to_result : ToolResultBlock; to_widgets : list Widget;
  to_humanInput : option InputInterrupt; to_err : option error }.

#[global] Instance eta_toolOutcome : Settable toolOutcome := fun o =>
  mkOutcome (to_kind o) (to_result o) (to_widgets o) (to_humanInput o) (to_err o).

(** A call's outcome before its result is known. *)
Definition outcome_for (callID : string) : toolOutcome :=
  mkOutcome toolOutcomeDefinitive (mkToolResult callID "" false []) [] None None.

Definition outcome_zero : toolOutcome := outcome_for "".

(* agent/context.go:97-108: toolCallRuntime *)
Record toolCallRuntime := mkCallRT { rt_widgets : list Widget; rt_humanInput : option InputInterrupt }.

Definition callRT_zero : toolCallRuntime := mkCallRT [] None.

(** Where a call stands between its steps. *)
Inductive phase : Type :=
| PStart
| PChecked (rt : toolCallRuntime)
| PClaimed (rt : toolCallRuntime) (key : string) (replay : bool)
| PDone (o : toolOutcome).

(* agent/engine.go: batchOutcomeError *)
Definition batchOutcomeError (outcomes : list toolOutcome) : option error :=
  match List.find (fun o => bool_decide (is_Some (to_err o))) outcomes with
  | Some o => to_err o
  | None => None
  end.

(* agent/engine.go: resultBlocks *)
Definition resultBlocks (outcomes : list toolOutcome) : list ContentBlock :=
  map (fun o => ToolResultBlk (to_result o))
    (List.filter (fun o => bool_decide (to_kind o = toolOutcomeDefinitive) &&
                           bool_decide (tr_ToolUseID (to_result o) <> "")) outcomes).

(** Content of a call that gave way to a pause for human input. *)
(* agent/engine.go:1530: result of an approval behind a human-input pause *)
Definition notExecutedForHumanInput : string :=
  "Not executed: the invocation paused for human input. Call the tool again if it is still needed.".

(* agent/engine.go:1526-1533: pending approvals behind a human-input pause *)
Definition give_way (o : toolOutcome) (call : Call) : toolOutcome :=
  if bool_decide (to_kind o = toolOutcomePendingApproval) then
    o <| to_kind := toolOutcomeDefinitive |>
      <| to_result := mkToolResult (c_ToolUseID call) notExecutedForHumanInput true (tr_Images (to_result o)) |>
  else o.

Definition interrupt_payload (ty : InterruptType) (ap : option (list ApprovalCall))
  (inp : option InputInterrupt) : Interrupt := mkInterrupt "" 0 ty "" 0 0 ap inp.

(** The outcomes are returned too, since the Go code updates them in place. *)
(* agent/engine.go: run.pendingInterrupt *)
Definition pendingInterrupt (outcomes : list toolOutcome) (calls : list Call)
  : option Interrupt * list toolOutcome :=
  match List.find (fun o => bool_decide (is_Some (to_humanInput o))) outcomes with
  | Some o => (Some (interrupt_payload InterruptHumanInput None (to_humanInput o)),
               zip_with give_way outcomes calls)
  | None =>
      let pending := map (fun p => mkApprovalCall (c_ToolUseID p.2) (c_Name p.2) (cloneRaw (c_Input p.2)))
        (List.filter (fun p => bool_decide (to_kind p.1 = toolOutcomePendingApproval)) (zip outcomes calls)) in
      if is_nil pending then (None, outcomes)
      else (Some (interrupt_payload InterruptApproval (Some pending) None), outcomes)
  end.

(* agent/tool_batch.go:23-27: coordinatedToolBatch *)
Record coordinatedToolBatch := mkCoordinated {
  cb_outcomes : list toolOutcome; cb_interrupt : option Interrupt; cb_err : option error }.

Section Exec.
Context {W : Type} (a : Agent W) `{Hashing} `{JSONLib} `{Texts}.

(** ** One call *)

(* agent/context.go: EmitWidget *)
Definition act_widget (async : bool) (callID : string) (w : Widget) (rt : toolCallRuntime)
  : M W toolCallRuntime :=
  if is_ok (Widget_Validate w) then
    emit a async (EventWidget callID (w_Type w) (cloneRaw (w_Payload w))) ;!
    ret (mkCallRT (rt_widgets rt ++ [w]) (rt_humanInput rt))
  else ret rt.

(** What application code did through the framework, in its order. *)
Fixpoint apply_acts (async : bool) (callID : string) (acts : list HandlerAct) (rt : toolCallRuntime)
  : M W toolCallRuntime :=
  match acts with
  | [] => ret rt
  | ActEmitWidget w :: acts => let! rt := act_widget async callID w rt in apply_acts async callID acts rt
  | ActEmitEvent name payload :: acts =>
      emit a async (EventCustom name payload) ;! apply_acts async callID acts rt
  | ActHumanInput i :: acts => apply_acts async callID acts (mkCallRT (rt_widgets rt) (Some i))
  end.

(* agent/tool_exec.go:133-136: emitStart of executeCall *)
Definition emit_start (async : bool) (tc : Call) : M W unit :=
  emit a async (EventToolStart (c_ToolUseID tc) (c_Name tc) (cloneRaw (c_Input tc))).
(* agent/tool_exec.go:137-142: emitEnd of executeCall *)
Definition emit_end (async : bool) (tc : Call) (output : string) (info : option (ErrorCode * string)) : M W unit :=
  emit a async (EventToolEnd (c_ToolUseID tc) (c_Name tc) output info).

(* agent/tool_exec.go:143-148: fail of executeCall *)
Definition fail_call (async : bool) (tc : Call) (content : string) (code : ErrorCode) : M W toolOutcome :=
  emit_start async tc ;!
  emit_end async tc "" (Some (code, content)) ;!
  ret ((outcome_for (c_ToolUseID tc)) <| to_result := mkToolResult (c_ToolUseID tc) content true [] |>).

(** The context of the call, before and after the claim. *)
(* agent/tool_exec.go:266-268: handler context of executeCall *)
Definition handler_ctx (tc : Call) (r : run) (key : string) (replay : bool) : HandlerCtx :=
  mkHandlerCtx (c_ToolUseID tc) (c_Name tc) (r_convID r) (cfg_principal (r_cfg r)) key replay.

(* agent/tool_exec.go:198-210: guard of executeCall *)
Definition run_guard (async : bool) (tc : Call) (t : Tool W) : M W (Decision * toolCallRuntime) :=
  match t_Guard t with
  | None => ret (Allow, callRT_zero)
  | Some guard =>
      let! r := getR in
      let! '(acts, d) := world (guard (handler_ctx tc r "" false) (c_Input tc)) in
      let! rt := apply_acts async (c_ToolUseID tc) acts callRT_zero in
      ret (match d with Ok d => d | Err e => DenyD (error_text e) end, rt)
  end.

(* agent/tool_exec.go:122-217: executeCall, admission *)
Definition executeCall_check (async : bool) (tc : Call) (t : option (Tool W)) (decision : option Decision)
  : M W phase :=
  let! durable := toolExecution (c_ToolUseID tc) in
  let! r := getR in
  match t with
  | None =>
      let! o := fail_call async tc (error_text (ENew ("unknown tool: " +:+ c_Name tc))) ErrorCodeUnknownTool in
      ret (PDone o)
  | Some t =>
      let denied := match decision with Some d => negb (d_Allow d) | None => false end in
      let principal := cfg_principal (r_cfg r) in
      if denied then
        let reason := match decision with
          | Some d => if bool_decide (d_Reason d = "") then "request denied by human reviewer" else d_Reason d
          | None => ""
          end in
        let! o := fail_call async tc (denialResultJSON (c_Name tc) reason) ErrorCodeToolDenied in
        ret (PDone o)
      else if negb (AllowedForPrincipal t principal) then
        let roles := match principal with Some p => pr_Roles p | None => [] end in
        let reason := if bool_decide (principal = None) || negb (RolesAllowed t roles)
          then "caller does not have the required principal or role"
          else "caller does not satisfy the required tool attributes" in
        let! o := fail_call async tc (denialResultJSON (c_Name tc) reason) ErrorCodeToolDenied in
        ret (PDone o)
      else match ValidateToolInput (default ANil (sp_InputSchema (t_Spec t))) (c_Input tc) with
      | Err e =>
          let! o := fail_call async tc (error_text (ETool (c_Name tc) e)) ErrorCodeInvalidInput in
          ret (PDone o)
      | Ok _ =>
          let! '(d, rt) := run_guard async tc t in
          if negb (d_Allow d) then
            let! o := fail_call async tc (denialResultJSON (c_Name tc) (d_Reason d)) ErrorCodeToolDenied in
            ret (PDone o)
          else if t_needsApproval t && bool_decide (decision = None) then
            ret (PDone ((outcome_for (c_ToolUseID tc)) <| to_kind := toolOutcomePendingApproval |>))
          else ret (PChecked rt)
      end
  end.

(* agent/tool_exec.go:219-236: executeCall, claim *)
Definition executeCall_claim (async : bool) (tc : Call) (rt : toolCallRuntime) : M W phase :=
  let! claim := beginToolExecution a (c_ToolUseID tc) (c_Name tc) in
  match claim with
  | Err e =>
      emit_start async tc ;!
      emit_end async tc "" (Some (ErrorCodeOutcomeUnknown, error_text e)) ;!
      ret (PDone ((outcome_for (c_ToolUseID tc))
        <| to_kind := if errors_Is e ErrToolExecutionUncertain then toolOutcomeUnknown
                      else toolOutcomeCoordinationFailure |>
        <| to_err := Some e |>))
  | Ok (key, replay) => ret (PClaimed rt key replay)
  end.

(* agent/tool_exec.go:242-265: inner handler of executeCall *)
Definition inner_handler (t : Tool W) : ToolHandlerFunc W := fun hc call w =>
  match t_RichHandler t, t_Handler t with
  | Some h, _ =>
      let '((acts, r), w) := h hc (tcv_Input call) w in
      ((acts, match r with
        | Err e => Err e
        | Ok None => Err (ENew "rich tool returned nil output")
        | Ok (Some o) => Ok (mkToolResultV (o_Text o) (o_Images o) false)
        end), w)
  | None, Some h =>
      let '((acts, r), w) := h hc (tcv_Input call) w in
      ((acts, letr text := r in Ok (mkToolResultV text [] false)), w)
  | None, None => (([], Err (ENew "tool has no handler")), w)
  end.

(* agent/tool_exec.go:266-304: executeCall, handler and result *)
Definition executeCall_finish (async : bool) (tc : Call) (t : Tool W) (rt : toolCallRuntime)
  (key : string) (replay : bool) : M W phase :=
  let! r := getR in
  let! '(acts, result) := world (ChainMiddleware (inner_handler t) (a_middlewares a)
    (handler_ctx tc r key replay) (mkToolCallView (c_ToolUseID tc) (c_Name tc) (cloneRaw (c_Input tc)))) in
  let! rt := apply_acts async (c_ToolUseID tc) acts rt in
  let out := (outcome_for (c_ToolUseID tc)) <| to_widgets := rt_widgets rt |> in
  match result with
  | Err e =>
      if IsOutcomeUnknown e then
        emit_end async tc "" (Some (ErrorCodeOutcomeUnknown, error_text e)) ;!
        ret (PDone (out <| to_kind := toolOutcomeUnknown |>
          <| to_err := Some (EUncertain (cfg_executionID (r_cfg r)) (c_ToolUseID tc) (c_Name tc) key) |>))
      else
        let content := error_text (ETool (c_Name tc) e) in
        emit_end async tc "" (Some (ErrorCodeTool, content)) ;!
        ret (PDone (out <| to_result := mkToolResult (c_ToolUseID tc) content true [] |>))
  | Ok result =>
      emit_end async tc (rv_Text result)
        (if rv_IsError result then Some (ErrorCodeTool, rv_Text result) else None) ;!
      ret (PDone (out
        <| to_result := mkToolResult (c_ToolUseID tc) (rv_Text result) (rv_IsError result) (rv_Images result) |>
        <| to_humanInput := rt_humanInput rt |>))
  end.

(* agent/tool_exec.go:238-268: executeCall, dispatch *)
Definition executeCall_run (async : bool) (tc : Call) (t : option (Tool W)) (rt : toolCallRuntime)
  (key : string) (replay : bool) : M W phase :=
  match t with
  | None => ret (PDone (outcome_for (c_ToolUseID tc)))
  | Some t =>
      emit_start async tc ;!
      let! r := getR in
      note (EffDispatch (r_executionDurable r) (c_ToolUseID tc) (c_Name tc) key replay) ;!
      executeCall_finish async tc t rt key replay
  end.

(** One step of a call. *)
Definition advance (async : bool) (tc : Call) (t : option (Tool W)) (d : option Decision) (p : phase) : M W phase :=
  match p with
  | PStart => executeCall_check async tc t d
  | PChecked rt => executeCall_claim async tc rt
  | PClaimed rt key replay => executeCall_run async tc t rt key replay
  | PDone o => ret (PDone o)
  end.

Definition outcome_of (p : phase) : toolOutcome := match p with PDone o => o | _ => outcome_zero end.

(** A call has at most three steps. *)
(* agent/tool_exec.go: run.executeCall *)
Definition executeCall (async : bool) (tc : Call) (t : option (Tool W)) (d : option Decision) : M W toolOutcome :=
  let! p := advance async tc t d PStart in
  let! p := advance async tc t d p in
  let! p := advance async tc t d p in
  ret (outcome_of p).

(** ** A batch *)

(* agent/tool_exec.go: Agent.concurrentLimit *)
Definition concurrentLimit : Z := if a_sequentialTools a then 1%Z else a_maxConcurrentTools a.

(** A call of a batch with what executeBatch looks up for it. *)
Record job := mkJob { j_call : Call; j_tool : option (Tool W); j_decision : option Decision }.

Definition in_progress (p : phase) : bool :=
  match p with PChecked _ | PClaimed _ _ _ => true | _ => false end.
Definition not_started (p : phase) : bool := match p with PStart => true | _ => false end.

(** Whether the workers let call [i] take a step: a started call may continue; calls
    start in index order and only when a worker is free. *)
Definition may_step (limit : Z) (ps : list phase) (i : nat) : bool :=
  match ps !! i with
  | Some p =>
      in_progress p ||
      (not_started p && forallb (fun q => negb (not_started q)) (take i ps) &&
       (bool_decide (limit <= 0)%Z ||
        bool_decide (Z.of_nat (length (List.filter in_progress ps)) < limit)%Z))
  | None => false
  end.

(* agent/event.go:328-364: worker step of runParallel *)
Definition step_job (jobs : list job) (ps : list phase) (i : nat) : M W (list phase) :=
  match jobs !! i, ps !! i with
  | Some j, Some p =>
      let! p' := advance true (j_call j) (j_tool j) (j_decision j) p in ret (<[i := p']> ps)
  | _, _ => ret ps
  end.

(** Follow a schedule. *)
(* agent/event.go:328-364: interleaving of runParallel *)
Fixpoint run_schedule (limit : Z) (jobs : list job) (sched : list SchedAct) (ps : list phase) : M W (list phase) :=
  match sched with
  | [] => ret ps
  | SchedDrain :: sched => drain a ;! run_schedule limit jobs sched ps
  | SchedStep i :: sched =>
      if may_step limit ps i then
        let! ps := step_job jobs ps i in run_schedule limit jobs sched ps
      else run_schedule limit jobs sched ps
  end.

(** Then every call that is not finished finishes, in index order. *)
Fixpoint finish_jobs (jobs : list job) (idxs : list nat) (ps : list phase) : M W (list phase) :=
  match idxs with
  | [] => ret ps
  | i :: idxs =>
      let! ps := step_job jobs ps i in
      let! ps := step_job jobs ps i in
      let! ps := step_job jobs ps i in
      finish_jobs jobs idxs ps
  end.

(* agent/event.go: runParallel *)
Definition runParallel (jobs : list job) : M W (list toolOutcome) :=
  let! sched := world (a_schedule a) in
  let! ps := run_schedule concurrentLimit jobs sched (map (fun _ => PStart) jobs) in
  let! ps := finish_jobs jobs (seq 0 (length jobs)) ps in
  drain a ;!
  ret (map outcome_of ps).

(* agent/tool_exec.go:69-77: sequential run of executeBatch *)
Fixpoint runSequential (jobs : list job) : M W (list toolOutcome) :=
  match jobs with
  | [] => ret []
  | j :: jobs =>
      let! e := ctx_Err a in
      let! o := match e with
        | Some err => ret ((outcome_for (c_ToolUseID (j_call j))) <| to_result :=
            mkToolResult (c_ToolUseID (j_call j)) ("not executed: " +:+ error_text err) true [] |>)
        | None => executeCall false (j_call j) (j_tool j) (j_decision j)
        end in
      let! os := runSequential jobs in
      ret (o :: os)
  end.

(* agent/tool_exec.go:59-78: run of executeBatch *)
Definition run_jobs (jobs : list job) : M W (list toolOutcome) :=
  if negb (bool_decide (concurrentLimit = 1%Z)) && bool_decide (1 < length jobs)%nat then runParallel jobs
  else runSequential jobs.

(** Put outcomes back at the positions of their calls. *)
(* agent/tool_exec.go:83-112: outcomes indexed by call *)
Fixpoint merge_outcomes (flags : list bool) (xs ys : list toolOutcome) : list toolOutcome :=
  match flags with
  | [] => []
  | true :: flags => default outcome_zero (head xs) :: merge_outcomes flags (tail xs) ys
  | false :: flags => default outcome_zero (head ys) :: merge_outcomes flags xs (tail ys)
  end.

(* agent/tool_exec.go: run.executeBatch *)
Definition executeBatch (calls : list Call) (available : gmap string (Tool W))
  (decisions : option (list (option Decision))) : M W (list toolOutcome) :=
  let jobs := imap (fun i c => mkJob c (available !! c_Name c)
    (match decisions with Some ds => decision_at ds i | None => None end)) calls in
  match decisions with
  | Some _ => run_jobs jobs
  | None =>
      let needs j := match j_tool j with Some t => t_needsApproval t | None => false end in
      let flags := map needs jobs in
      if existsb id flags then
        let! os := run_jobs (List.filter needs jobs) in
        if existsb (fun o => bool_decide (to_kind o = toolOutcomePendingApproval)) os then
          ret (merge_outcomes flags os (map (fun _ => outcome_zero <| to_kind := toolOutcomeDeferred |>)
                 (List.filter (fun j => negb (needs j)) jobs)))
        else
          let! rest := run_jobs (List.filter (fun j => negb (needs j)) jobs) in
          ret (merge_outcomes flags os rest)
      else run_jobs jobs
  end.

(** ** The coordinator *)

(* agent/engine.go: run.commitToolResults *)
Definition commitToolResults (messages : list Message) (outcomes : list toolOutcome) : M W (res unit) :=
  let! r := getR in
  if negb (r_executionDurable r) then ret (Ok tt)
  else
    let completed : gset string := list_to_set (map (fun o => tr_ToolUseID (to_result o))
      (List.filter (fun o => bool_decide (to_kind o = toolOutcomeDefinitive) &&
                             bool_decide (tr_ToolUseID (to_result o) <> "")) outcomes)) in
    if bool_decide (completed = ∅) then ret (Ok tt)
    else let? _ := saveConversation a messages in removeToolCalls a completed.

(* agent/tool_batch.go:58-66: appendDefinitive of toolBatchCoordinator.run *)
Definition appendDefinitive (messages : turnMessages) (outcomes : list toolOutcome) : turnMessages :=
  let definitive := resultBlocks outcomes in
  if is_nil definitive then messages
  else appendCanonical messages [mkMessage RoleUser definitive].

(** The coordinator appends to the caller's messages, so that it returns them. *)
(* agent/tool_batch.go: toolBatchCoordinator.run *)
Definition coordinateToolBatch (calls : list Call) (available : gmap string (Tool W))
  (decisions : option (list (option Decision))) (messages : turnMessages)
  : M W (coordinatedToolBatch * turnMessages) :=
  let! prepared := prepareToolBatch a (canonical messages) calls decisions in
  match prepared with
  | Err e => ret (mkCoordinated [] None (Some e), messages)
  | Ok ([], _) => ret (mkCoordinated [] None None, messages)
  | Ok (calls, decisions) =>
      let! outcomes := executeBatch calls available decisions in
      match List.find (fun o => bool_decide (to_kind o = toolOutcomeCoordinationFailure)) outcomes with
      | Some o => ret (mkCoordinated outcomes None (Some (default Unsupported (to_err o))), messages)
      | None =>
          match batchOutcomeError outcomes with
          | Some e =>
              let messages' := appendDefinitive messages outcomes in
              if is_nil (resultBlocks outcomes) then ret (mkCoordinated outcomes None (Some e), messages')
              else
                let! committed := commitToolResults (canonical messages') outcomes in
                ret (mkCoordinated outcomes None
                  (match committed with Ok _ => Some e | Err e' => errors_Join (Some e) (Some e') end), messages')
          | None =>
              match pendingInterrupt outcomes calls with
              | (Some i, outcomes) =>
                  let! paused := persistPendingPause a i in
                  match paused with
                  | Err e => ret (mkCoordinated outcomes None (Some e), messages)
                  | Ok _ =>
                      let messages' := appendDefinitive messages outcomes in
                      let! committed := commitToolResults (canonical messages') outcomes in
                      ret (match committed with
                           | Ok _ => mkCoordinated outcomes (Some i) None
                           | Err e => mkCoordinated outcomes None (Some e)
                           end, messages')
                  end
              | (None, outcomes) =>
                  let messages' := appendDefinitive messages outcomes in
                  let! committed := commitToolResults (canonical messages') outcomes in
                  ret (mkCoordinated outcomes None
                    (match committed with Ok _ => None | Err e => Some e end), messages')
              end
          end
      end
  end.

End Exec.
