(* ===== verification/Structured.v ===== *)
(** Structured output (agent/structured.go) and provider capabilities
    (agent/capabilities.go). *)
From S2P Require Import Prelude Errors Messages Normalize TurnMessages Execution Schema Tool.
From S2P Require Import Inference Stores EventSink State ToolBatch ToolExec Engine.

(** * Capabilities *)

(* agent/capabilities.go:8-18: Capability *)
Inductive Capability : Type := Unknown | Supported | Unsupported_.

#[global] Instance Capability_eq_dec : EqDecision Capability.
Proof. solve_decision. Defined.

(* agent/capabilities.go:22-52: ModelCapabilities *)
Record ModelCapabilities := mkCapabilities {
  mc_ContextWindowTokens : Z; mc_MaxOutputTokens : Z; mc_ToolUse : Capability;
  mc_ChoiceAuto : Capability; mc_ChoiceRequired : Capability; mc_ChoiceSpecific : Capability;
  mc_NativeStructuredOutput : Capability }.

Definition capabilities_zero : ModelCapabilities :=
  mkCapabilities 0 0 Unknown Unknown Unknown Unknown Unknown.

Definition override_cap (base over : Capability) : Capability :=
  if bool_decide (over <> Unknown) then over else base.
Definition override_int (base over : Z) : Z := if bool_decide (over <> 0)%Z then over else base.

(* agent/capabilities.go: MergeModelCapabilities *)
Definition MergeModelCapabilities (base over : ModelCapabilities) : ModelCapabilities :=
  mkCapabilities
    (override_int (mc_ContextWindowTokens base) (mc_ContextWindowTokens over))
    (override_int (mc_MaxOutputTokens base) (mc_MaxOutputTokens over))
    (override_cap (mc_ToolUse base) (mc_ToolUse over))
    (override_cap (mc_ChoiceAuto base) (mc_ChoiceAuto over))
    (override_cap (mc_ChoiceRequired base) (mc_ChoiceRequired over))
    (override_cap (mc_ChoiceSpecific base) (mc_ChoiceSpecific over))
    (override_cap (mc_NativeStructuredOutput base) (mc_NativeStructuredOutput over)).

(** * Structured output *)

(* agent/structured.go:10: structuredOutputToolName *)
Definition structuredOutputToolName : string := "structured_output".

(* agent/structured.go: structuredOutputToolChoice *)
Definition structuredOutputToolChoice (caps : ModelCapabilities) : res (option Choice) :=
  let unsupported := Err (EStructured "unsupported_capability"
    (Some (EWrap "tool use" (ESentinel ErrStructuredOutputUnsupported)))) in
  if bool_decide (mc_ToolUse caps = Unsupported_) then unsupported
  else if bool_decide (mc_ChoiceSpecific caps <> Unsupported_) then
    Ok (Some (mkChoice "tool" structuredOutputToolName))
  else if bool_decide (mc_ChoiceAuto caps <> Unsupported_) then Ok None
  else unsupported.

Section Structured.
Context {W : Type} (a : Agent W) `{Hashing} `{JSONLib} `{Texts}.

(** fmt.Errorf("structured output: %w", err) *)
Definition wrap_so {A} (m : M W (res A)) : M W (res A) :=
  let! r := m in ret (match r with Ok x => Ok x | Err e => Err (EWrap "structured output" e) end).

(* agent/structured.go:114-152: the answer of structuredTurn *)
Definition check_answer (schema : GoAny) (resp : ModelResponse)
  (decode : string -> W -> res unit * W) : M W (res string) :=
  if is_nil (mr_ToolCalls resp) then fail (EStructured "no_tool_call" None)
  else match List.find (fun c => bool_decide (c_Name c = structuredOutputToolName)) (mr_ToolCalls resp) with
  | None => fail (EStructured "wrong_tool" None)
  | Some found =>
      let? rawText := run_guardrails "output" (a_outputGuardrails a) (default "" (c_Input found)) in
      if negb (json_Valid rawText) then
        fail (EStructured "deserialize" (Some (ENew "invalid JSON")))
      else match ValidateToolInput schema (Some rawText) with
      | Err e => fail (EStructured "schema_validation" (Some e))
      | Ok _ =>
          let! d := world (decode rawText) in
          match d with
          | Err e => fail (EStructured "deserialize" (Some e))
          | Ok _ => ret (Ok rawText)
          end
      end
  end.

(* agent/structured.go: run.structuredTurn *)
Definition structuredTurn (userMessage : string) (schema : GoAny) (toolChoice : option Choice)
  (decode : string -> W -> res unit * W) : M W Out :=
  lett '(messages, ragStart) := wrap_so (prepareTurn a userMessage) in
  lett cfg := wrap_so (inferenceConfig a) in
  let! r := getR in
  let system := instructionsFor a (r_cfg r) in
  let spec := mkSpec structuredOutputToolName
    "Respond with structured JSON output conforming to the schema." (Some schema) in
  lett view := wrap_so (modelMessages a messages ragStart system [spec]) in
  let! answer := callProvider a (mkRequest view system [spec] toolChoice cfg) true in
  match answer with
  | Err e => failT (EProvider e)
  | Ok resp =>
      let! cumulative := addUsage (mr_Usage resp) in
      if bool_decide (0 < a_tokenBudget a)%Z && bool_decide (a_tokenBudget a < usage_Total cumulative)%Z then
        failT (ESentinel ErrTokenBudgetExceeded)
      else
        lett rawText := check_answer schema resp decode in
        let! r := getR in
        lett _ := (match hasConversation a r with
          | Some _ => wrap_so (saveConversation a
              (persisted messages ragStart ++ [mkMessage RoleAssistant [TextBlock rawText]]))
          | None => ret (Ok tt)
          end) in
        ret (Result_zero <| rs_Text := rawText |> <| rs_StopReason := StopEndTurn |>
                         <| rs_Metadata := mr_Metadata resp |>, None)
  end.

(* agent/structured.go: Agent.InvokeSchema *)
Definition InvokeSchema (caps : ModelCapabilities) (userMessage : string) (schema : GoAny)
  (decode : string -> W -> res unit * W) (cfg : invocationConfig) (w : W) : Out * St W :=
  let s := initial cfg None w in
  match structuredOutputToolChoice caps with
  | Err e => ((Result_zero, Some e), s)
  | Ok toolChoice =>
      lifecycle a (cfg_conversationID cfg) (structuredTurn userMessage schema toolChoice decode) s
  end.

End Structured.
