(* ===== verification/Recovery.v ===== *)
(** Recovery of an interrupted execution (agent/engine.go): RecoverExecution,
    ReconcileToolExecution and the pieces they share. *)
From S2P Require Import Prelude Errors Messages Normalize TurnMessages Execution Schema Tool.
From S2P Require Import Inference Stores EventSink State ToolBatch ToolExec Engine.

(* agent/engine.go:1454-1462: projected output of a claim *)
Definition claim_result (claim : ToolResolutionClaim) : ToolResultBlock :=
  let isError := bool_decide (rc_Outcome claim = ToolResolutionFailed) in
  let output := rc_Output claim in
  let output := if isError && bool_decide (output = "") then rc_ErrorMessage claim else output in
  let output := if isError && bool_decide (output = "") then "tool execution failed" else output in
  mkToolResult (rc_CallID claim) output isError [].

(** The last result of a call in the messages after the tool-use turn, or the zero
    block. *)
(* agent/engine.go:1464-1471: canonical result of a claimed call *)
Definition last_result (callID : string) (messages : list Message) : ToolResultBlock :=
  default (mkToolResult "" "" false [])
    (last (List.filter (fun r => bool_decide (tr_ToolUseID r = callID))
             (concat (map tool_results messages)))).

(* agent/engine.go:1481-1501: transition of finishResolutionClaim *)
Definition finish_claim (revision lastSequence : N) (claim : ToolResolutionClaim) (x : Execution)
  : res Execution :=
  match x_ToolBatch x with
  | None => Err (ESentinel ErrExecutionConflict)
  | Some batch =>
      match tb_Resolution batch with
      | None => Err (ESentinel ErrExecutionConflict)
      | Some current =>
          if bool_decide (rc_CallID current <> rc_CallID claim) then Err (ESentinel ErrExecutionConflict)
          else
            let calls := complete_calls (fun id => bool_decide (id = rc_CallID claim)) (tb_Calls batch) in
            let x := x <| x_Revision := revision |> <| x_LastSequence := lastSequence |> in
            Ok (if all_completed calls
                then x <| x_ToolBatch := None |> <| x_Phase := ExecutionPhaseModel |>
                else x <| x_ToolBatch := Some (batch <| tb_Calls := calls |> <| tb_Resolution := None |>) |>)
      end
  end.

Section Recovery.
Context {W : Type} (a : Agent W) `{Hashing} `{JSONLib} `{Texts}.

(** The active batch of the run. *)
Definition active_batch : M W (option ToolBatchExecution) :=
  let! r := getR in
  ret (match r_execution r with Some x => x_ToolBatch x | None => None end).

(* agent/engine.go: run.recoverToolUses *)
Definition recoverToolUses (messages : list Message) : M W (res (list Message)) :=
  let! batch := active_batch in
  match batch with
  | None => fail Unsupported
  | Some batch =>
      if negb (forallb (fun c => bool_decide (te_Status c = ToolExecutionPlanned)) (tb_Calls batch)) then
        ret (Ok messages)
      else
        let? messages := (if is_nil messages then
            if existsb (fun c => bool_decide (te_Input c = None)) (tb_Calls batch) then fail Unsupported
            else
              let messages := [mkMessage RoleAssistant (map (fun c =>
                ToolUseBlock (mkToolUse (te_CallID c) (te_Name c) (cloneRaw (te_Input c)))) (tb_Calls batch))] in
              let? _ := saveConversation a messages in ret (Ok messages)
          else ret (Ok messages)) in
        match activeToolBatch messages (Some batch) with
        | Err e => fail e
        | Ok _ => let? _ := markToolBatchReady a in ret (Ok messages)
        end
  end.

(* agent/engine.go: run.finishResolutionClaim *)
Definition finishResolutionClaim (messages : list Message) : M W (res (list Message)) :=
  let! batch := active_batch in
  match batch with
  | None => fail Unsupported
  | Some batch =>
      match tb_Resolution batch with
      | None => fail Unsupported
      | Some claim =>
          match activeToolBatch messages (Some batch) with
          | Err e => fail e
          | Ok (_, results) =>
              let expected := claim_result claim in
              let? messages := (if bool_decide (rc_CallID claim ∈ results) then
                  let actual := last_result (rc_CallID claim) (tail messages) in
                  if bool_decide (tr_Content actual <> tr_Content expected) ||
                     bool_decide (tr_IsError actual <> tr_IsError expected)
                  then fail (ESentinel ErrConversationConflict) else ret (Ok messages)
                else
                  let messages := messages ++ [mkMessage RoleUser [ToolResultBlk expected]] in
                  let? _ := saveConversation a messages in ret (Ok messages)) in
              let! r := getR in
              let? _ := persist a (finish_claim (r_revision r) (r_lastSequence r) claim) in
              ret (Ok messages)
          end
      end
  end.

(* agent/engine.go: run.pauseRecoveredExecution *)
Definition pauseRecoveredExecution (i : Interrupt) : M W (res unit) :=
  let! r := getR in
  persist a (fun x => Ok (x <| x_Status := ExecutionPaused |> <| x_Phase := ExecutionPhasePaused |>
    <| x_Revision := r_revision r |> <| x_LastSequence := r_lastSequence r |>
    <| x_Pause := Some (pauseFromInterrupt i) |> <| x_PendingPause := None |>)).

(** A run over a loaded execution record, as recovery and reconciliation build it. *)
(* agent/engine.go:1009-1012: run of RecoverExecution *)
Definition recovery_run (cfg : invocationConfig) (x : Execution) (iteration : Z) : run :=
  mkRun (Some x) true (x_ConversationID x) 0 0 0 true iteration 0
    ((cloneInvocationConfig cfg) <| cfg_conversationID := x_ConversationID x |>
       <| cfg_executionID := x_ID x |> <| cfg_executionIDSet := true |>).

(** The error of a step of recovery with the current record. *)
Definition recovered {A} (m : M W (res A)) (k : A -> M W (option error)) : M W (option error) :=
  let! r := m in match r with Err e => ret (Some e) | Ok x => k x end.

(** Load the transcript from the tool-use turn on and synchronise the run's cursor. *)
(* agent/engine.go:1018-1023: history of RecoverExecution *)
Definition load_boundary (cs : ConversationStore W) (convID : string) (after : N) (wrap : error -> error)
  : M W (res (list Message)) :=
  let! loaded := world (cs_LoadAfter cs convID after) in
  match loaded with
  | Err e => fail (wrap e)
  | Ok sn =>
      modR (fun r => r <| r_revision := sn_Revision sn |> <| r_lastSequence := sn_LastSequence sn |>
                       <| r_persistedCount := length (sn_Messages sn) |>) ;!
      ret (Ok (sn_Messages sn))
  end.

(** The first in-flight call that must not be replayed. *)
(* agent/engine.go:1048-1055: uncertain calls of RecoverExecution *)
Definition uncertain_call (x : Execution) (batch : ToolBatchExecution) : option error :=
  match List.find (fun c => bool_decide (te_Status c = ToolExecutionInFlight) && negb (te_ReplaySafe c))
          (tb_Calls batch) with
  | Some c => Some (EUncertain (x_ID x) (te_CallID c) (te_Name c) (te_IdempotencyKey c))
  | None => None
  end.

(* agent/engine.go:1045-1074: dispatch of RecoverExecution *)
Definition recover_dispatch (messages : list Message) : M W (option error) :=
  let! r := getR in
  let! batch := active_batch in
  match r_execution r, batch with
  | Some x, Some b =>
      match uncertain_call x b with
      | Some e => ret (Some e)
      | None =>
          match activeToolBatch messages (Some b) with
          | Err e => ret (Some e)
          | Ok (calls, _) =>
              let decisions := persistedApprovalDecisions (r_execution r) calls in
              let! '(_, available) := visible a in
              let! '(out, _) := coordinateToolBatch a calls available decisions (mkTurn messages []) in
              match cb_err out, cb_interrupt out with
              | Some e, _ => ret (Some e)
              | None, Some i => recovered (pauseRecoveredExecution i) (fun _ => ret None)
              | None, None => ret None
              end
          end
      end
  | _, _ => ret None
  end.

(* agent/engine.go:1036-1044: acknowledgement of canonical results in RecoverExecution *)
Definition recover_completed (messages : list Message) : M W (option error) :=
  let! batch := active_batch in
  match activeToolBatch messages batch with
  | Err e => ret (Some e)
  | Ok (_, completed) =>
      recovered (completeCanonicalToolResults a completed) (fun _ => recover_dispatch messages)
  end.

(* agent/engine.go:1025-1035: boundary repair of RecoverExecution *)
Definition recover_batch (messages : list Message) : M W (option error) :=
  recovered (recoverToolUses messages) (fun messages =>
  let! batch := active_batch in
  if bool_decide (is_Some (batch ≫= tb_Resolution)) then
    recovered (finishResolutionClaim messages) (fun messages =>
      let! batch := active_batch in
      match batch with None => ret None | Some _ => recover_completed messages end)
  else recover_completed messages).

(** The execution that recovery returns. *)
Definition current_execution : M W Execution :=
  let! r := getR in
  ret (match r_execution r with Some x => cloneExecution x | None => execution_zero "" end).

(* agent/engine.go: Agent.RecoverExecution *)
Definition RecoverExecution (executionID : string) : M W (Execution * option error) :=
  match a_executionStore a, a_conversation a with
  | Some es, Some cs =>
      let! loaded := world (es_Load es executionID) in
      match loaded with
      | Err e => ret (execution_zero "", Some (EWrap "load execution for recovery" e))
      | Ok x =>
          match x_PendingPause x with
          | Some pause =>
              let x' := x <| x_Status := ExecutionPaused |> <| x_Phase := ExecutionPhasePaused |>
                          <| x_Pause := Some (pause_map_raw cloneRaw pause) |> <| x_PendingPause := None |> in
              let! saved := store_Save a x' (x_Version x') in
              match saved with
              | Err e => ret (x', Some (EWrap "recover pending pause" e))
              | Ok updated => ret (updated, None)
              end
          | None =>
              if bool_decide (x_Status x = ExecutionPaused) && bool_decide (x_Phase x = ExecutionPhasePaused) &&
                 bool_decide (is_Some (x_Pause x))
              then ret (x, None)
              else match x_ToolBatch x with
              | Some batch =>
                  if bool_decide (x_Status x <> ExecutionRunning) || bool_decide (x_Phase x <> ExecutionPhaseTools) ||
                     bool_decide (x_ConversationID x = "")
                  then ret (x, Some Unsupported)
                  else
                    modR (fun r => recovery_run (r_cfg r) x (tb_Iteration batch)) ;!
                    seedUsage usage_zero ;!
                    let after := if bool_decide (0 < tb_ToolUseLastSequence batch)%N
                      then (tb_ToolUseLastSequence batch - 1)%N else x_LastSequence x in
                    let! loaded := load_boundary cs (x_ConversationID x) after
                      (EWrap "load conversation for recovery") in
                    match loaded with
                    | Err e => ret (x, Some e)
                    | Ok messages =>
                        let! err := recover_batch messages in
                        let! x := current_execution in
                        ret (x, err)
                    end
              | None => ret (x, Some Unsupported)
              end
          end
      end
  | _, _ => ret (execution_zero "", Some (ESentinel ErrNoExecutionStore))
  end.

(* agent/engine.go:1423-1439: claimed outcome of ReconcileToolExecution *)
Definition reconcile_claimed (cs : ConversationStore W) (claimed : Execution) (batch : ToolBatchExecution)
  : M W (Execution * option error) :=
  modR (fun r => recovery_run (r_cfg r) claimed (tb_Iteration batch)) ;!
  seedUsage usage_zero ;!
  if bool_decide (tb_ToolUseLastSequence batch = 0)%N then ret (cloneExecution claimed, Some Unsupported)
  else
    let! loaded := load_boundary cs (x_ConversationID claimed) (tb_ToolUseLastSequence batch - 1) id in
    match loaded with
    | Err e => ret (cloneExecution claimed, Some e)
    | Ok messages =>
        let! err := recovered (finishResolutionClaim messages) (fun _ => ret None) in
        let! x := current_execution in
        ret (x, err)
    end.

(* agent/engine.go: Agent.ReconcileToolExecution *)
Definition ReconcileToolExecution (executionID : string) (executionVersion : N) (callID : string)
  (resolution : ToolResolution) : M W (Execution * option error) :=
  let none e : M W (Execution * option error) := ret (execution_zero "", Some e) in
  match a_executionStore a, a_conversation a with
  | Some es, Some cs =>
      if bool_decide (executionID = "") then none (ENew "reconcile tool execution: execution ID is required")
      else match res_Outcome resolution with
      | ToolResolutionOther _ => none (ENew "reconcile tool execution: invalid resolution")
      | outcome =>
          let! loaded := world (es_Load es executionID) in
          match loaded with
          | Err e => none e
          | Ok x =>
              match x_ToolBatch x with
              | Some batch =>
                  let target := find_call callID (tb_Calls batch) in
                  if bool_decide (x_Version x <> executionVersion) || bool_decide (is_Some (tb_Resolution batch)) ||
                     negb (match target with
                           | Some t => bool_decide (te_Status t = ToolExecutionInFlight)
                           | None => false
                           end)
                  then ret (x, Some (ESentinel ErrExecutionConflict))
                  else match outcome with
                  | ToolResolutionRetry =>
                      let x := x <| x_ToolBatch := Some (batch <| tb_Calls := update_call callID
                        (fun c => c <| te_Status := ToolExecutionReady |>) (tb_Calls batch) |>) |> in
                      let! saved := store_Save a x (x_Version x) in
                      match saved with
                      | Err e => none e
                      | Ok updated => ret (updated, None)
                      end
                  | _ =>
                      let x := x <| x_ToolBatch := Some (batch <| tb_Resolution :=
                        Some (mkClaim callID outcome (res_Output resolution) (res_ErrorMessage resolution)) |>) |> in
                      let! saved := store_Save a x (x_Version x) in
                      match saved with
                      | Err e => ret (x, Some e)
                      | Ok claimed =>
                          match x_ToolBatch claimed with
                          | Some batch => reconcile_claimed cs claimed batch
                          | None => ret (cloneExecution claimed, Some Unsupported)
                          end
                      end
                  end
              | None => ret (x, Some (ESentinel ErrExecutionConflict))
              end
          end
      end
  | _, _ => none (ESentinel ErrNoExecutionStore)
  end.

(* agent/interrupt.go: Agent.LoadInterrupt *)
Definition LoadInterrupt (executionID : string) : M W (res Interrupt) :=
  match a_executionStore a with
  | None => fail (ESentinel ErrNoExecutionStore)
  | Some es =>
      let! loaded := world (es_Load es executionID) in
      ret (match loaded with
        | Err e =>
            if errors_Is e ErrExecutionNotFound
            then Err (EWrap "load interrupt" (EJoin (ESentinel ErrInterruptNotFound) e))
            else Err (EWrap "load execution" e)
        | Ok x =>
            if bool_decide (x_Status x <> ExecutionPaused) || bool_decide (x_Pause x = None)
            then Err (EWrap "load interrupt" (ESentinel ErrInterruptNotFound))
            else Ok (interruptFromExecution x)
        end)
  end.

End Recovery.
