(* ===== verification/BatchProps.v ===== *)
(** Properties of the durable tool boundary: what a plan guarantees, what
    activeToolBatch recognises, that the transcript of a planned batch is recognised
    as that batch, and the life cycle of a call's status. *)
From S2P Require Import Prelude Errors Messages Normalize TurnMessages Execution Schema Tool.
From S2P Require Import Inference Stores EventSink State ToolBatch ToolExec Engine Structured.
From S2P Require Import Recovery.

Section BatchProps.
Context `{Hashing}.

(** * Plans *)

(** The record of one planned call. *)
Definition planned_as (replaySafe : string -> bool) (executionID : string) (call : Call) (te : ToolExecution) : Prop :=
  exists h, toolInputHash (c_Input call) = Ok h /\
    te = mkToolExecution (c_ToolUseID call) (c_Name call) ToolExecutionPlanned
      (toolExecutionKey executionID (c_ToolUseID call)) h (cloneRaw (c_Input call)) (replaySafe (c_Name call)) None.

Lemma plan_calls_iff prior safe id calls seen planned :
  plan_calls prior safe id calls seen = Ok planned <->
  Forall2 (planned_as safe id) calls planned /\
  NoDup (map c_ToolUseID calls) /\
  Forall (fun c => c_ToolUseID c <> "" /\ (c_ToolUseID c ∉ seen) /\ (prior !! c_ToolUseID c = None)) calls.
Proof.
  revert seen planned. induction calls as [|c calls IH]; intros seen planned; simpl.
  { split; [intros [= <-]; split_and!; constructor|]. intros (Hf & _). by inversion Hf. }
  rewrite NoDup_cons, Forall_cons.
  case_bool_decide as He; [split; [done|naive_solver]|].
  case_bool_decide as Hs; [split; [done|naive_solver]|].
  destruct (toolInputHash (c_Input c)) as [h|e] eqn:Hh.
  2:{ split; [done|]. intros (Hf & _). inversion Hf as [|?? ?? Hp]; subst.
      destruct Hp as (h & Hh' & _). congruence. }
  destruct (prior !! c_ToolUseID c) as [p|] eqn:Hp.
  { split; [case_match; done|]. intros (_ & _ & (_ & _ & ?) & _). congruence. }
  destruct (plan_calls prior safe id calls ({[c_ToolUseID c]} ∪ seen)) as [rest|e] eqn:Hr; simpl.
  - apply IH in Hr as (Hf & Hnd & Hall). split.
    + intros [= <-]. split_and!; try done.
      * constructor; [by eexists|done].
      * intros Hin. apply list_elem_of_In, in_map_iff in Hin as (c' & Heq & Hin).
        rewrite Forall_forall in Hall. destruct (Hall c') as (_ & Hn & _); [by apply list_elem_of_In|].
        rewrite Heq in Hn. set_solver.
      * eapply Forall_impl; [exact Hall|]. simpl. set_solver.
    + intros (Hf' & _). inversion Hf' as [|?? ?? Hp' Hrest]; subst. destruct Hp' as (h' & Hh' & ->).
      rewrite Hh in Hh'. injection Hh' as <-. f_equal. f_equal.
      clear -Hf Hrest. revert rest Hf. induction Hrest as [|c' t calls' ts (h1 & E1 & ->) Hr IH]; intros rest Hf.
      * by inversion Hf.
      * inversion Hf as [|?? ?? (h2 & E2 & ->) Hf2]; subst. rewrite E1 in E2. injection E2 as <-.
        f_equal. by apply IH.
  - split; [done|]. intros (Hf & (Hnin & Hnd) & _ & Hall). inversion Hf as [|?? ?? Hp' Hrest]; subst.
    assert (Err e = Ok l'); [|done]. rewrite <- Hr. apply IH. split_and!; try done.
    rewrite Forall_forall in Hall |- *. intros c' Hc'. destruct (Hall c' Hc') as (? & ? & ?). split_and!; try done.
    intros [Heq%elem_of_singleton|?]%elem_of_union; [|done]. apply Hnin. rewrite <- Heq.
    apply list_elem_of_In, in_map, list_elem_of_In, Hc'.
Qed.

(** A batch is planned exactly when every call has a non-empty, new and distinct
    ID and canonical input; the plan then records each call, in order, as Planned with
    its own key, hash and input, so that no idempotency key can be shared with an
    earlier call of the execution. *)
Theorem planToolBatch_plan prior safe id calls planned :
  plan_calls prior safe id calls ∅ = Ok planned <->
  Forall2 (planned_as safe id) calls planned /\
  NoDup (map c_ToolUseID calls) /\
  Forall (fun c => c_ToolUseID c <> "" /\ prior !! c_ToolUseID c = None) calls.
Proof.
  rewrite plan_calls_iff. split; intros (Hf & Hnd & Hall); split_and!; try done;
    (eapply Forall_impl; [exact Hall|]); simpl; set_solver.
Qed.

(** * The active batch *)

(** The transcript of a batch: one assistant message with exactly its tool uses, then
    only messages of results for its calls, at most one result per call. *)
Definition batch_transcript (messages : list Message) (batch : list ToolExecution)
  (uses : list ToolUse) : Prop :=
  exists m rest, messages = m :: rest /\ m_Role m = RoleAssistant /\
    m_Content m = map ToolUseBlock uses /\
    Forall2 (fun use call => use_matches use call = true) uses batch /\
    NoDup (map tu_ToolUseID uses) /\
    Forall (fun m => m_Role m = RoleUser /\ onlyToolResults (m_Content m) = true) rest /\
    (forall r, r ∈ results_of rest -> tr_ToolUseID r ∈ map tu_ToolUseID uses) /\
    NoDup (map tr_ToolUseID (results_of rest)).

Definition use_call (use : ToolUse) : Call := mkCall (tu_ToolUseID use) (tu_Name use) (cloneRaw (tu_Input use)).

Lemma match_uses_iff content batch seen out :
  length content = length batch ->
  match_uses content batch seen = Ok out <->
  exists uses, content = map ToolUseBlock uses /\
    Forall2 (fun use call => use_matches use call = true) uses batch /\
    NoDup (map tu_ToolUseID uses) /\ Forall (fun use => tu_ToolUseID use ∉ seen) uses /\
    out = (map use_call uses, list_to_set (map tu_ToolUseID uses) ∪ seen).
Proof.
  revert batch seen out. induction content as [|b content IH]; intros [|call batch] seen out Hlen; try done.
  { simpl. split.
    - intros [= <-]. exists []. split_and!; try constructor. simpl. f_equal. set_solver.
    - intros ([|] & ? & _ & _ & _ & ->); [|done]. simpl. do 2 f_equal. set_solver. }
  injection Hlen as Hlen. destruct b as [|use| | | |];
    try (split; [done|]; intros ([|u uses] & Hc & _); done).
  simpl. destruct (use_matches use call) eqn:Hm; simpl.
  2:{ split; [done|]. intros ([|u uses] & Hc & Hf & _); [done|]. injection Hc as -> _.
      inversion Hf; subst. congruence. }
  case_bool_decide as Hin.
  { split; [done|]. intros ([|u uses] & Hc & _ & _ & Hs & _); [done|]. injection Hc as -> _.
    inversion Hs; done. }
  specialize (IH batch ({[tu_ToolUseID use]} ∪ seen)).
  split.
  - intros Hb. apply res_bind_ok in Hb as ([calls seen'] & Hrec & [= <-]).
    apply IH in Hrec as (uses & -> & Hf & Hnd & Hs & [= -> ->]); [|done].
    exists (use :: uses). split_and!; try done.
    + by constructor.
    + simpl. constructor; [|done]. intros Hi. apply list_elem_of_In, in_map_iff in Hi as (u & Heq & Hi).
      rewrite Forall_forall in Hs. specialize (Hs u (proj2 (list_elem_of_In _ _) Hi)). set_solver.
    + constructor; [done|]. eapply Forall_impl; [exact Hs|]. set_solver.
    + simpl. f_equal. set_solver.
  - intros ([|u uses] & Hc & Hf & Hnd & Hs & ->); [done|]. injection Hc as -> ->.
    inversion Hf; subst. inversion Hnd as [|? ? Hnin Hnd']; subst. apply Forall_cons in Hs as [_ Hs].
    assert (Hrec : match_uses (map ToolUseBlock uses) batch ({[tu_ToolUseID u]} ∪ seen) =
      Ok (map use_call uses, list_to_set (map tu_ToolUseID uses) ∪ ({[tu_ToolUseID u]} ∪ seen))).
    { apply IH; [done|]. exists uses. split_and!; try done. apply Forall_forall. intros u' Hu'.
      rewrite Forall_forall in Hs. specialize (Hs u' Hu').
      intros [Heq%elem_of_singleton|?]%elem_of_union; [|done]. apply Hnin. rewrite <- Heq.
      apply list_elem_of_In, in_map, list_elem_of_In, Hu'. }
    rewrite Hrec. simpl. do 2 f_equal. set_solver.
Qed.

Lemma collect_results_iff rs seen results out :
  collect_results rs seen results = Ok out <->
  Forall (fun r => tr_ToolUseID r ∈ seen) rs /\ NoDup (map tr_ToolUseID rs) /\
  Forall (fun r => tr_ToolUseID r ∉ results) rs /\
  out = list_to_set (map tr_ToolUseID rs) ∪ results.
Proof.
  revert results. induction rs as [|r rs IH]; intros results; simpl.
  { split; [intros [= <-]; split_and!; try constructor; set_solver|].
    intros (_ & _ & _ & ->). f_equal. set_solver. }
  rewrite !Forall_cons, NoDup_cons.
  case_bool_decide as Hs; [split; [done|]; by intros ((? & _) & _)|].
  case_bool_decide as Hr; [split; [done|]; by intros (_ & _ & (? & _) & _)|].
  rewrite IH. split.
  - intros (Hf & Hnd & Hn & ->). split_and!; try done.
    + intros Hin. apply list_elem_of_In, in_map_iff in Hin as (r' & Heq & Hin%list_elem_of_In).
      rewrite Forall_forall in Hn. specialize (Hn r' Hin). set_solver.
    + eapply Forall_impl; [exact Hn|]. set_solver.
    + set_solver.
  - intros ((_ & Hf) & (Hnin & Hnd) & (_ & Hn) & ->). split_and!; try done; [|set_solver].
    rewrite Forall_forall in Hn |- *. intros r' Hr'. specialize (Hn r' Hr').
    intros [Heq%elem_of_singleton|?]%elem_of_union; [|done]. apply Hnin. rewrite <- Heq.
    apply list_elem_of_In, in_map, list_elem_of_In, Hr'.
Qed.

Lemma match_results_iff ms seen results out :
  match_results ms seen results = Ok out <->
  Forall (fun m => m_Role m = RoleUser /\ onlyToolResults (m_Content m) = true) ms /\
  Forall (fun r => tr_ToolUseID r ∈ seen) (results_of ms) /\ NoDup (map tr_ToolUseID (results_of ms)) /\
  Forall (fun r => tr_ToolUseID r ∉ results) (results_of ms) /\
  out = list_to_set (map tr_ToolUseID (results_of ms)) ∪ results.
Proof.
  unfold results_of. revert results out. induction ms as [|m ms IH]; intros results out; simpl.
  { split; [intros [= <-]; split_and!; try constructor; set_solver|].
    intros (_ & _ & _ & _ & ->). f_equal. set_solver. }
  rewrite Forall_cons, !Forall_app, map_app, NoDup_app.
  case_bool_decide as Hrole; simpl; [split; [done|]; by intros (((? & _) & _) & _)|].
  destruct (onlyToolResults (m_Content m)); simpl; [|split; [done|]; by intros (((_ & ?) & _) & _)].
  split.
  - intros Hb. apply res_bind_ok in Hb as (rs1 & Hc & Hm).
    apply collect_results_iff in Hc as (Hf1 & Hnd1 & Hn1 & ->). apply IH in Hm as (Hrest & Hf2 & Hnd2 & Hn2 & ->).
    split_and!; try done.
    + intros id Hid Hid2. apply list_elem_of_In, in_map_iff in Hid2 as (r & <- & Hr%list_elem_of_In).
      rewrite Forall_forall in Hn2. specialize (Hn2 r Hr). set_solver.
    + eapply Forall_impl; [exact Hn2|]. set_solver.
    + rewrite list_to_set_app_L. set_solver.
  - intros ((_ & Hrest) & (Hf1 & Hf2) & (Hnd1 & Hdisj & Hnd2) & (Hn1 & Hn2) & ->).
    rewrite (proj2 (collect_results_iff (tool_results m) seen results
      (list_to_set (map tr_ToolUseID (tool_results m)) ∪ results))) by (split_and!; done). simpl. apply IH. split_and!; try done.
    + rewrite Forall_forall in Hn2 |- *. intros r Hr. specialize (Hn2 r Hr).
      intros [Hin%elem_of_list_to_set|?]%elem_of_union; [|done]. apply (Hdisj _ Hin).
      apply list_elem_of_In, in_map, list_elem_of_In, Hr.
    + rewrite list_to_set_app_L. set_solver.
Qed.

Lemma activeToolBatch_iff_aux messages batch calls results :
  activeToolBatch messages (Some batch) = Ok (calls, results) <->
  exists uses, batch_transcript messages (tb_Calls batch) uses /\
    calls = map use_call uses /\ results = list_to_set (map tr_ToolUseID (results_of (tail messages))).
Proof.
  unfold activeToolBatch, batch_transcript. destruct messages as [|m rest]; [split; [done|naive_solver]|].
  case_bool_decide as Hrole; [split; [done|]; naive_solver|].
  case_bool_decide as Hlen.
  { split; [done|]. intros (uses & (? & ? & [= <- <-] & _ & Hc & Hf & _) & _). exfalso. apply Hlen.
    rewrite Hc, length_map. by apply Forall2_length in Hf. }
  split.
  - intros Hb. apply res_bind_ok in Hb as ([cs seen] & Hu & Hb). apply match_uses_iff in Hu
      as (uses & Hc & Hf & Hnd & _ & [= -> ->]); [|done].
    apply res_bind_ok in Hb as (rs & Hr & [= <- <-]).
    apply match_results_iff in Hr as (Hrest & Hin & Hnd2 & _ & ->).
    exists uses. split; [|split; [done|]; simpl; set_solver]. exists m, rest. split_and!; try done.
    intros r Hr. rewrite Forall_forall in Hin. specialize (Hin r Hr). set_solver.
  - intros (uses & (m' & rest' & [= <- <-] & _ & Hc & Hf & Hnd & Hrest & Hin & Hnd2) & -> & ->).
    rewrite (proj2 (match_uses_iff _ _ _ (map use_call uses, list_to_set (map tu_ToolUseID uses) ∪ ∅) Hlen)).
    + simpl. rewrite (proj2 (match_results_iff rest _ ∅ (list_to_set (map tr_ToolUseID (results_of rest)) ∪ ∅))).
      * simpl. do 2 f_equal. set_solver.
      * split_and!; try done; apply Forall_forall; [|set_solver]. intros r Hr. specialize (Hin r Hr). set_solver.
    + exists uses. split_and!; try done. apply Forall_forall. set_solver.
Qed.

(** C7. activeToolBatch accepts exactly the transcript of the active batch (the one
    assistant message with exactly the recorded tool uses, then only results of its
    calls, no call answered twice) and returns its calls and the answered IDs. *)
Theorem activeToolBatch_iff messages batch calls results :
  activeToolBatch messages (Some batch) = Ok (calls, results) <->
  exists uses, batch_transcript messages (tb_Calls batch) uses /\
    calls = map use_call uses /\ results = list_to_set (map tr_ToolUseID (results_of (tail messages))).
Proof. apply activeToolBatch_iff_aux. Qed.

(** * From a plan to its transcript *)

Lemma toolInputHash_cloneRaw r : toolInputHash (cloneRaw r) = toolInputHash r.
Proof. unfold toolInputHash. destruct r as [s|]; simpl; [|done]. by case_bool_decide as Hs; subst. Qed.

Lemma planned_use_matches safe id c te : planned_as safe id c te ->
  use_matches (mkToolUse (c_ToolUseID c) (c_Name c) (cloneRaw (c_Input c))) te = true.
Proof.
  intros (h & Hh & ->). unfold use_matches. simpl. rewrite toolInputHash_cloneRaw, Hh.
  by rewrite !bool_decide_true.
Qed.

(** Marking a batch ready changes statuses and drops inputs, nothing that identifies
    a call. *)
Definition same_identity (t1 t2 : ToolExecution) : Prop :=
  te_CallID t1 = te_CallID t2 /\ te_Name t1 = te_Name t2 /\ te_InputHash t1 = te_InputHash t2.

Lemma use_matches_identity use t1 t2 : same_identity t1 t2 -> use_matches use t1 = use_matches use t2.
Proof. intros (Hi & Hn & Hh). unfold use_matches. by rewrite Hi, Hn, Hh. Qed.

(** What loopTurn writes after a plan is what recovery recognises: for every batch
    record that identifies the planned calls (planned, ready, in flight or partly
    completed) the assistant message of the tool uses is its active batch, with all
    calls in order and no result yet. *)
Theorem planned_batch_recognised prior safe id calls planned batch :
  plan_calls prior safe id calls ∅ = Ok planned ->
  Forall2 same_identity (tb_Calls batch) planned ->
  activeToolBatch [toolUseMessage "" calls] (Some batch) =
    Ok (map (fun c => mkCall (c_ToolUseID c) (c_Name c) (cloneRaw (c_Input c))) calls, ∅).
Proof.
  intros Hp Hsame. apply plan_calls_iff in Hp as (Hf & Hnd & _).
  set (uses := map (fun c => mkToolUse (c_ToolUseID c) (c_Name c) (cloneRaw (c_Input c))) calls).
  apply activeToolBatch_iff_aux. exists uses. split_and!.
  - exists (toolUseMessage "" calls), []. split_and!; try done.
    + unfold toolUseMessage. simpl. unfold uses. by rewrite map_map.
    + unfold uses. clear -Hf Hsame. revert Hsame. generalize (tb_Calls batch) as ts.
      induction Hf as [|c te calls planned Hp Hf IH]; intros ts Hs; inversion Hs; subst; simpl; constructor.
      * erewrite use_matches_identity by eassumption. by eapply planned_use_matches.
      * by apply IH.
    + unfold uses. by rewrite map_map.
    + intros r Hr. by apply elem_of_nil in Hr.
    + constructor.
  - unfold uses. rewrite map_map. unfold use_call. simpl. apply map_ext. intros c. by rewrite cloneRaw_idemp.
  - done.
Qed.
End BatchProps.
