(* ===== verification/Protocol.v ===== *)
(** The life of a tool call across processes, crashes and recoveries: the engine's
    record transitions as a labelled step relation on execution records, and what
    holds along every history of such steps.  The compare-and-swap of the store makes
    the history of a record linear ([Save_single_winner]); a handler of a durable run
    is dispatched only after such a claim ([invocation_claims_before_effects]). *)
From S2P Require Import Prelude Errors Messages Normalize TurnMessages Execution Schema Tool.
From S2P Require Import Inference Stores EventSink State ToolBatch ToolExec Engine Structured.
From S2P Require Import Recovery BatchProps.

(** The transitions that matter for a call: it is planned, claimed (as a replay or
    not), or made eligible again by an operator's Retry. *)
Inductive op : Type :=
| OpPlan (ids : list string)
| OpClaim (callID : string) (replay : bool)
| OpRetry (callID : string)
| OpOther.

Section Protocol.
Context `{Hashing}.

(* agent/engine.go:1409-1410: transition of a Retry resolution *)
Definition retry_call (callID : string) (batch : ToolBatchExecution) : ToolBatchExecution :=
  batch <| tb_Calls := update_call callID (fun c => c <| te_Status := ToolExecutionReady |>) (tb_Calls batch) |>.

(** The steps of a record.  [step_keep] covers the transitions that leave the batch
    alone (progress, cursors, pauses, finalisation) and [step_store] what storage does
    to a record. *)
Inductive record_step : op -> Execution -> Execution -> Prop :=
| step_plan x x' prior safe calls planned it
    (Hid : x_ID x' = x_ID x) (Hnone : x_ToolBatch x = None)
    (Hplan : plan_calls prior safe (x_ID x) calls ∅ = Ok planned)
    (Hx' : x_ToolBatch x' = Some (mkToolBatch it planned 0 0 None)) :
    record_step (OpPlan (map c_ToolUseID calls)) x x'
| step_ready x x' b calls rev seq
    (Hid : x_ID x' = x_ID x) (Hb : x_ToolBatch x = Some b)
    (Hready : mark_ready (tb_Calls b) = Ok calls)
    (Hx' : x_ToolBatch x' = Some (b <| tb_ToolUseRevision := rev |> <| tb_ToolUseLastSequence := seq |>
       <| tb_Calls := calls |>)) :
    record_step OpOther x x'
| step_claim x x' recovering callID name key replay
    (Hclaim : claim_call recovering callID name x = Ok (x', (key, replay))) :
    record_step (OpClaim callID replay) x x'
| step_remove x rev seq completed : record_step OpOther x (remove_calls rev seq completed x)
| step_finish x x' rev seq claim
    (Hfinish : finish_claim rev seq claim x = Ok x') : record_step OpOther x x'
| step_approve x x' b calls resp requested
    (Hid : x_ID x' = x_ID x) (Hb : x_ToolBatch x = Some b)
    (Happrove : approve_calls resp requested (tb_Calls b) = Ok calls)
    (Hx' : x_ToolBatch x' = Some (b <| tb_Calls := calls |>)) : record_step OpOther x x'
| step_resolve x x' b claim
    (Hid : x_ID x' = x_ID x) (Hb : x_ToolBatch x = Some b)
    (Hx' : x_ToolBatch x' = Some (b <| tb_Resolution := Some claim |>)) : record_step OpOther x x'
| step_retry x x' b callID
    (Hid : x_ID x' = x_ID x) (Hb : x_ToolBatch x = Some b)
    (Hx' : x_ToolBatch x' = Some (retry_call callID b)) : record_step (OpRetry callID) x x'
| step_keep x x' (Hid : x_ID x' = x_ID x) (Hx' : x_ToolBatch x' = x_ToolBatch x) : record_step OpOther x x'
| step_store x f v : record_step OpOther x (exec_map_raw f x <| x_Version := v |>).

Inductive history : list op -> Execution -> Execution -> Prop :=
| history_nil x : history [] x x
| history_cons o os x x1 x2 : record_step o x x1 -> history os x1 x2 -> history (o :: os) x x2.

(** One operation on a record, before and after which it may be copied and stored: its raw JSON rewritten and its
    version set, nothing else. *)
Inductive restored : Execution -> Execution -> Prop :=
| restored_as x f v : restored x (exec_map_raw f x <| x_Version := v |>).
Definition moved (o : op) (x y : Execution) : Prop :=
  exists x0 x1, rtc restored x x0 /\ record_step o x0 x1 /\ rtc restored x1 y.

(** A call is still to be claimed: it is planned or ready. *)
Definition claimable (callID : string) (x : Execution) : nat :=
  match x_ToolBatch x with
  | Some b =>
      match find_call callID (tb_Calls b) with
      | Some c => match te_Status c with ToolExecutionPlanned | ToolExecutionReady => 1 | _ => 0 end
      | None => 0
      end
  | None => 0
  end%nat.

Definition is_first_claim (callID : string) (o : op) : bool :=
  match o with OpClaim id false => bool_decide (id = callID) | _ => false end.
Definition is_grant (callID : string) (o : op) : bool :=
  match o with
  | OpPlan ids => bool_decide (callID ∈ ids)
  | OpRetry id => bool_decide (id = callID)
  | _ => false
  end.
Definition count (f : op -> bool) (os : list op) : nat := length (List.filter f os).

(** * Transitions and claims *)

Definition status_rank (c : option ToolExecution) : nat :=
  match c with
  | Some c => match te_Status c with ToolExecutionPlanned | ToolExecutionReady => 1 | _ => 0 end
  | None => 0
  end%nat.

Lemma claimable_batch callID x b : x_ToolBatch x = Some b ->
  claimable callID x = status_rank (find_call callID (tb_Calls b)).
Proof. intros Hb. unfold claimable. by rewrite Hb. Qed.

Lemma status_rank_le1 c : (status_rank c <= 1)%nat.
Proof. destruct c as [c|]; simpl; [destruct (te_Status c)|]; lia. Qed.

Lemma rank_complete callID done calls :
  (status_rank (find_call callID (complete_calls done calls)) <= status_rank (find_call callID calls))%nat.
Proof.
  unfold complete_calls. rewrite find_call_map by (intros c; by destruct (done (te_CallID c))).
  destruct (find_call callID calls) as [c|]; simpl; [|lia]. destruct (done (te_CallID c)); simpl; lia.
Qed.

Lemma mark_ready_map calls calls' : mark_ready calls = Ok calls' ->
  calls' = map (fun c => c <| te_Status := ToolExecutionReady |> <| te_Input := None |>) calls /\
  Forall (fun c => te_Status c = ToolExecutionPlanned) calls.
Proof.
  revert calls'. induction calls as [|c calls IH]; intros calls'; simpl; [by intros [= <-]|].
  case_bool_decide as Hs; [done|]. intros Hb. apply res_bind_ok in Hb as (rest & Hr & [= <-]).
  destruct (IH _ Hr) as [-> Hall]. split; [done|]. by constructor.
Qed.

Lemma rank_ready callID calls calls' : mark_ready calls = Ok calls' ->
  status_rank (find_call callID calls') = status_rank (find_call callID calls).
Proof.
  intros Hm. apply mark_ready_map in Hm as [-> Hall]. rewrite find_call_map by done.
  destruct (find_call callID calls) as [c|] eqn:Hc; simpl; [|done].
  apply List.find_some in Hc as [Hin _]. rewrite Forall_forall in Hall.
  by rewrite (Hall c (proj2 (list_elem_of_In _ _) Hin)).
Qed.

Lemma rank_approve callID resp requested calls calls' :
  approve_calls resp requested calls = Ok calls' ->
  status_rank (find_call callID calls') = status_rank (find_call callID calls).
Proof.
  revert calls. induction requested as [|r requested IH]; intros calls; simpl; [by intros [= <-]|].
  destruct (find_call (ac_CallID r) calls) as [c|]; [|done]. intros Ha. rewrite (IH _ Ha).
  destruct (decide (ac_CallID r = callID)) as [<-|Hne].
  - rewrite find_call_update by done. by destruct (find_call (ac_CallID r) calls).
  - by rewrite find_call_update_ne.
Qed.

Lemma rank_planned prior safe id calls planned callID :
  plan_calls prior safe id calls ∅ = Ok planned -> callID ∉ map c_ToolUseID calls ->
  find_call callID planned = None.
Proof.
  intros Hp Hnin. apply plan_calls_iff in Hp as (Hf & _). unfold find_call.
  induction Hf as [|c te calls planned (h & _ & ->) Hf IH]; simpl; [done|].
  rewrite bool_decide_false by set_solver. apply IH. set_solver.
Qed.

(** One step: a first claim uses the right to claim up, a plan or a retry grants it,
    nothing else creates it. *)
Lemma step_claimable callID o x x' : record_step o x x' ->
  (claimable callID x' + (if is_first_claim callID o then 1 else 0) <=
   claimable callID x + (if is_grant callID o then 1 else 0))%nat.
Proof.
  intros Hstep. destruct Hstep; simpl.
  - rewrite (claimable_batch _ _ _ Hx'). simpl. case_bool_decide as Hin.
    + pose proof (status_rank_le1 (find_call callID planned)). lia.
    + rewrite (rank_planned _ _ _ _ _ _ Hplan Hin). simpl. lia.
  - rewrite (claimable_batch _ _ _ Hx'), (claimable_batch _ _ _ Hb). simpl.
    rewrite (rank_ready _ _ _ Hready). lia.
  - unfold claim_call in Hclaim. destruct (x_ToolBatch x) as [b|] eqn:Hb; [|done].
    destruct (find_call callID0 (tb_Calls b)) as [c|] eqn:Hc; [|done].
    rewrite (claimable_batch callID x b Hb).
    destruct (te_Status c) eqn:Hs; try done.
    + injection Hclaim as <- _ <-. erewrite (claimable_batch callID) by reflexivity. simpl.
      case_bool_decide as Heq.
      * subst. rewrite find_call_update, Hc by done. simpl. rewrite Hs. lia.
      * rewrite find_call_update_ne by done. lia.
    + destruct recovering, (te_ReplaySafe c); simpl in Hclaim; try done. injection Hclaim as <- _ <-.
      rewrite (claimable_batch callID x b Hb). lia.
  - unfold remove_calls. simpl. destruct (x_ToolBatch x) as [b|] eqn:Hb; simpl.
    + rewrite (claimable_batch callID x b Hb). destruct (all_completed _); simpl; [unfold claimable; simpl; lia|].
      erewrite (claimable_batch callID) by reflexivity. simpl.
      pose proof (rank_complete callID (fun id => bool_decide (id ∈ completed)) (tb_Calls b)). lia.
    + unfold claimable. simpl. rewrite Hb. lia.
  - unfold finish_claim in Hfinish. destruct (x_ToolBatch x) as [b|] eqn:Hb; [|done].
    destruct (tb_Resolution b) as [cur|]; [|done]. case_bool_decide; [done|]. injection Hfinish as <-.
    rewrite (claimable_batch callID x b Hb). destruct (all_completed _); [unfold claimable; simpl; lia|].
    erewrite (claimable_batch callID) by reflexivity. simpl.
    pose proof (rank_complete callID (fun id => bool_decide (id = rc_CallID claim)) (tb_Calls b)). lia.
  - rewrite (claimable_batch _ _ _ Hx'), (claimable_batch _ _ _ Hb). simpl.
    rewrite (rank_approve _ _ _ _ _ Happrove). lia.
  - rewrite (claimable_batch _ _ _ Hx'), (claimable_batch _ _ _ Hb). simpl. lia.
  - rewrite (claimable_batch _ _ _ Hx'), (claimable_batch _ _ _ Hb). simpl. case_bool_decide as Heq.
    + pose proof (status_rank_le1 (find_call callID (update_call callID0
        (fun c => c <| te_Status := ToolExecutionReady |>) (tb_Calls b)))). simpl in *. lia.
    + rewrite find_call_update_ne by done. lia.
  - unfold claimable. rewrite Hx'. lia.
  - unfold claimable, exec_map_raw. simpl. destruct (x_ToolBatch x) as [b|]; simpl; [|lia].
    rewrite find_call_map by done. destruct (find_call callID (tb_Calls b)); simpl; lia.
Qed.

Lemma history_claims callID os x x' : history os x x' ->
  (claimable callID x' + count (is_first_claim callID) os <=
   claimable callID x + count (is_grant callID) os)%nat.
Proof.
  induction 1 as [x|o os x x1 x2 Hs Hh IH]; [unfold count; simpl; lia|].
  pose proof (step_claimable callID o x x1 Hs) as H1. unfold count in *. simpl.
  destruct (is_first_claim callID o), (is_grant callID o); simpl in *; lia.
Qed.

Lemma restored_history x y : rtc restored x y -> exists n, history (replicate n OpOther) x y.
Proof.
  induction 1 as [x|x y z [x' f v] _ [n IH]]; [exists 0%nat; constructor|]. exists (S n). simpl.
  econstructor; [apply step_store|exact IH].
Qed.

Lemma history_app os1 os2 x1 x2 x3 : history os1 x1 x2 -> history os2 x2 x3 -> history (os1 ++ os2) x1 x3.
Proof. induction 1; simpl; [done|]. intros. econstructor; eauto. Qed.

Lemma moved_history o x y : moved o x y -> exists n m, history (replicate n OpOther ++ o :: replicate m OpOther) x y.
Proof.
  intros (x0 & x1 & [n H0]%restored_history & Ho & [m H1]%restored_history). exists n, m.
  eapply history_app; [exact H0|]. by econstructor.
Qed.

Lemma count_other f n : f OpOther = false -> count f (replicate n OpOther) = 0%nat.
Proof. intros Hf. unfold count. induction n as [|n IH]; simpl; [done|]. by rewrite Hf. Qed.

Lemma count_cons f o os : count f (o :: os) = ((if f o then 1 else 0) + count f os)%nat.
Proof. unfold count. simpl. by destruct (f o). Qed.

Lemma count_app f os1 os2 : count f (os1 ++ os2) = (count f os1 + count f os2)%nat.
Proof. unfold count. by rewrite List.filter_app, length_app. Qed.

Lemma moved_claimable callID o x y : moved o x y ->
  (claimable callID y + (if is_first_claim callID o then 1 else 0) <=
   claimable callID x + (if is_grant callID o then 1 else 0))%nat.
Proof.
  intros (n & m & Hh)%moved_history. pose proof (history_claims callID _ _ _ Hh) as Hc.
  rewrite !count_app, !count_cons, !count_other in Hc by done. lia.
Qed.

(** C4. At most once: along every history of engine transitions of an execution, by
    whatever processes and across crashes and recoveries, a call is claimed for a
    first (not replayed) handler run at most once per plan that contains it plus once
    per operator Retry of it. *)
Theorem first_claims_bounded callID os x x' :
  x_ToolBatch x = None -> history os x x' ->
  (count (is_first_claim callID) os <= count (is_grant callID) os)%nat.
Proof.
  intros Hn Hh. pose proof (history_claims callID os x x' Hh) as Hc.
  unfold claimable in Hc at 2. rewrite Hn in Hc. lia.
Qed.

(** * Identity of calls *)

(** What never changes about a call while its batch is active. *)
Definition call_identity (c : ToolExecution) : string * string * string * string * bool :=
  (te_CallID c, te_Name c, te_IdempotencyKey c, te_InputHash c, te_ReplaySafe c).

Definition identities (x : Execution) : option (list (string * string * string * string * bool)) :=
  (fun b => map call_identity (tb_Calls b)) <$> x_ToolBatch x.

Lemma identities_map f calls : (forall c, call_identity (f c) = call_identity c) ->
  map call_identity (map f calls) = map call_identity calls.
Proof. intros Hf. rewrite map_map. by apply map_ext. Qed.

Lemma identities_update id f calls : (forall c, call_identity (f c) = call_identity c) ->
  map call_identity (update_call id f calls) = map call_identity calls.
Proof.
  intros Hf. induction calls as [|c calls IH]; simpl; [done|]. case_bool_decide; simpl; by rewrite ?Hf, ?IH.
Qed.

Lemma identities_approve resp requested calls calls' : approve_calls resp requested calls = Ok calls' ->
  map call_identity calls' = map call_identity calls.
Proof.
  revert calls. induction requested as [|r requested IH]; intros calls; simpl; [by intros [= <-]|].
  destruct (find_call (ac_CallID r) calls); [|done]. intros Ha. rewrite (IH _ Ha). by apply identities_update.
Qed.

Lemma identities_complete done calls :
  map call_identity (complete_calls done calls) = map call_identity calls.
Proof. apply identities_map. intros c. by destruct (done (te_CallID c)). Qed.

Lemma step_identities o x x' :
  record_step o x x' -> (forall ids, o <> OpPlan ids) ->
  identities x' = identities x \/ x_ToolBatch x' = None.
Proof.
  intros Hstep Hno. unfold identities. destruct Hstep.
  - by destruct (Hno (map c_ToolUseID calls)).
  - left. rewrite Hb, Hx'. simpl. apply mark_ready_map in Hready as [-> _]. f_equal. by apply identities_map.
  - left. unfold claim_call in Hclaim. destruct (x_ToolBatch x) as [b|] eqn:Hb; [|done].
    destruct (find_call callID (tb_Calls b)) as [c|]; [|done].
    destruct (te_Status c); try done.
    + injection Hclaim as <- _ _. simpl. f_equal. by apply identities_update.
    + destruct (_ && _); [|done]. injection Hclaim as <- _ _. by rewrite Hb.
  - unfold remove_calls. simpl. destruct (x_ToolBatch x) as [b|] eqn:Hb; [|by right].
    destruct (all_completed _); [by right|]. left. simpl. f_equal. apply identities_complete.
  - unfold finish_claim in Hfinish. destruct (x_ToolBatch x) as [b|]; [|done].
    destruct (tb_Resolution b); [|done]. case_bool_decide; [done|]. injection Hfinish as <-.
    destruct (all_completed _); [by right|]. left. simpl. f_equal. apply identities_complete.
  - left. rewrite Hb, Hx'. simpl. f_equal. by eapply identities_approve.
  - left. by rewrite Hb, Hx'.
  - left. rewrite Hb, Hx'. simpl. f_equal. by apply identities_update.
  - left. by rewrite Hx'.
  - left. unfold exec_map_raw. simpl. destruct (x_ToolBatch x) as [b|]; simpl; [|done]. f_equal.
    by apply identities_map.
Qed.

(** While a batch is active its calls keep their IDs, names, idempotency keys,
    input hashes and replay declarations: every transition except a new plan either
    keeps this list exactly or retires the whole batch. *)
Theorem call_identity_immutable o x x' :
  record_step o x x' -> (forall ids, o <> OpPlan ids) ->
  identities x' = identities x \/ x_ToolBatch x' = None.
Proof. apply step_identities. Qed.

(** * Well-formed records *)

(** The calls of the active batch have distinct non-empty IDs, and each has the
    idempotency key of its execution and ID. *)
Definition batch_ok (x : Execution) : Prop :=
  forall b, x_ToolBatch x = Some b ->
    NoDup (map te_CallID (tb_Calls b)) /\
    Forall (fun c => te_CallID c <> "" /\ te_IdempotencyKey c = toolExecutionKey (x_ID x) (te_CallID c)) (tb_Calls b).

Lemma step_ID o x x' : record_step o x x' -> x_ID x' = x_ID x.
Proof.
  intros Hstep. destruct Hstep; try done.
  - unfold claim_call in Hclaim. destruct (x_ToolBatch x) as [b|]; [|done].
    destruct (find_call callID (tb_Calls b)) as [c|]; [|done]. destruct (te_Status c); try done.
    + by injection Hclaim as <- _ _.
    + destruct (_ && _); [|done]. by injection Hclaim as <- _ _.
  - unfold remove_calls. simpl. destruct (x_ToolBatch x) as [b|]; [|done]. by destruct (all_completed _).
  - unfold finish_claim in Hfinish. destruct (x_ToolBatch x) as [b|]; [|done].
    destruct (tb_Resolution b); [|done]. case_bool_decide; [done|]. injection Hfinish as <-.
    by destruct (all_completed _).
Qed.

(** Well-formedness only looks at the identities. *)
Lemma batch_ok_identities x x' : x_ID x' = x_ID x -> identities x' = identities x -> batch_ok x -> batch_ok x'.
Proof.
  unfold identities. intros Hid Hi Hok b' Hb'. rewrite Hb' in Hi. simpl in Hi.
  destruct (x_ToolBatch x) as [b|] eqn:Hb; [|done]. injection Hi as Hi.
  destruct (Hok b Hb) as [Hnd Hall].
  assert (Hids : map te_CallID (tb_Calls b') = map te_CallID (tb_Calls b)).
  { apply (f_equal (map (fun i => i.1.1.1.1))) in Hi. by rewrite !map_map in Hi. }
  split; [by rewrite Hids|]. apply List.Forall_forall. intros c Hc. rewrite Hid.
  assert (Hc' : In (call_identity c) (map call_identity (tb_Calls b))) by (rewrite <- Hi; by apply in_map).
  apply in_map_iff in Hc' as (c0 & [= He1 _ He3 _ _] & Hc0).
  rewrite List.Forall_forall in Hall. destruct (Hall c0 Hc0). by rewrite <- He1, <- He3.
Qed.

Lemma step_batch_ok o x x' : record_step o x x' -> batch_ok x -> batch_ok x'.
Proof.
  intros Hstep Hok. assert (Hid := step_ID _ _ _ Hstep).
  assert (Hother : (forall ids, o <> OpPlan ids) -> batch_ok x').
  { intros Hno. destruct (step_identities o x x' Hstep Hno) as [Hi|Hn]; [by eapply batch_ok_identities|].
    intros b Hb. congruence. }
  destruct o; try (apply Hother; done). clear Hother. inversion Hstep as [x0 x0' prior safe calls planned it Hid' Hn Hp Hx'| | | | | | | | |]; subst.
  apply plan_calls_iff in Hp as (Hf & Hnd & Hall). intros b Hb. rewrite Hx' in Hb. injection Hb as <-. simpl.
  assert (Hids : map te_CallID planned = map c_ToolUseID calls).
  { clear -Hf. induction Hf as [|c te calls planned (h & _ & ->) Hf IH]; simpl; [done|]. by rewrite IH. }
  split; [by rewrite Hids|]. rewrite Hid. clear -Hf Hall.
  induction Hf as [|c te calls planned (h & _ & ->) Hf IH]; [constructor|].
  apply Forall_cons in Hall as [(Hne & _) Hall]. constructor; [done|by apply IH].
Qed.

Lemma history_batch_ok os x x' : history os x x' -> batch_ok x -> batch_ok x'.
Proof. induction 1 as [|o os x x1 x2 Hs Hh IH]; [done|]. intros Hok. apply IH. by eapply step_batch_ok. Qed.

Lemma moved_batch_ok o x y : moved o x y -> batch_ok x -> batch_ok y.
Proof. intros (n & m & Hh)%moved_history. by eapply history_batch_ok. Qed.

End Protocol.
