(* ===== verification/Reason.v ===== *)
(** Reasoning about engine code.

    [keeps R m]: every run of [m] relates its initial and final state by [R].  A
    relation is [Stable] for a set of effects when it is a preorder that holds across
    steps that perform no effect and keep the durable flag and the record, across each
    effect of the set, and across a save of the record that follows the protocol of
    [Protocol].  For a stable relation every engine operation whose effects are in the
    set keeps it; the lemmas form the hint database [keeps].  That the operations are
    covered at all shows that the engine changes its record only by protocol steps. *)
From S2P Require Import Prelude Errors Messages Normalize TurnMessages Execution Schema Tool.
From S2P Require Import Inference Stores EventSink State ToolBatch ToolExec Engine Structured.
From S2P Require Import Recovery BatchProps Protocol.

Create HintDb keeps.

Section Keeps.
Context {W : Type}.

Definition keeps {A} (R : relation (St W)) (m : M W A) : Prop := forall s, R s (snd (m s)).

(** Nothing happened outside, the run is as durable as before and has the same record. *)
Definition silent (s s' : St W) : Prop :=
  st_trace s' = st_trace s /\ r_executionDurable (st_run s') = r_executionDurable (st_run s) /\
  r_execution (st_run s') = r_execution (st_run s).

(** A change of the record that is one operation of a set. *)
Definition transition `{Hashing} (ops : op -> Prop) {B} (change : Execution -> res (Execution * B)) : Prop :=
  forall x x' b, change x = Ok (x', b) -> exists o, moved o x x' /\ ops o.

Class Stable (a : Agent W) `{Hashing} (R : relation (St W)) (allowed : Effect -> Prop) (ops : op -> Prop) := {
  stable_preorder :: PreOrder R;
  stable_silent s s' : silent s s' -> R s s';
  stable_note s e : allowed e -> R s (s <| st_trace := st_trace s ++ [e] |>);
  stable_update {B} (change : Execution -> res (Execution * B)) s :
    transition ops change -> R s (snd (update_record a change s)) }.

Lemma keeps_bind {A B} (a : Agent W) `{Hashing} R allowed ops `{!Stable a R allowed ops} (m : M W A) (k : A -> M W B) :
  keeps R m -> (forall x, keeps R (k x)) -> keeps R (bind m k).
Proof.
  intros Hm Hk s. unfold bind. specialize (Hm s). destruct (m s) as [x s1].
  transitivity s1; [exact Hm|apply Hk].
Qed.

Lemma keeps_silent {A} (a : Agent W) `{Hashing} R allowed ops `{!Stable a R allowed ops} (m : M W A) :
  (forall s, silent s (snd (m s))) -> keeps R m.
Proof. intros Hm s. apply stable_silent, Hm. Qed.

Lemma keeps_note (a : Agent W) `{Hashing} R allowed ops `{!Stable a R allowed ops} e : allowed e -> keeps R (note e).
Proof. intros He s. by apply stable_note. Qed.

Definition any_op (o : op) : Prop := True.

(** Silent primitives. *)
Lemma silent_refl (s : St W) : silent s s.
Proof. done. Qed.

Lemma silent_trans (s1 s2 s3 : St W) : silent s1 s2 -> silent s2 s3 -> silent s1 s3.
Proof. intros (? & ? & ?) (? & ? & ?). split_and!; congruence. Qed.

Lemma silent_ret {A} (x : A) (s : St W) : silent s (snd (ret x s)).
Proof. done. Qed.
Lemma silent_getR (s : St W) : silent s (snd (getR s)).
Proof. done. Qed.
Lemma silent_usage (s : St W) : silent s (snd (totalUsage s)).
Proof. done. Qed.
Lemma silent_seed u (s : St W) : silent s (snd (seedUsage u s)).
Proof. done. Qed.
Lemma silent_add u (s : St W) : silent s (snd (addUsage u s)).
Proof. done. Qed.
Lemma silent_peek {A} (f : W -> A) (s : St W) : silent s (snd (peek f s)).
Proof. done. Qed.
Lemma silent_world {A} (f : W -> A * W) (s : St W) : silent s (snd (world f s)).
Proof. unfold world. by destruct (f (st_world s)). Qed.
Lemma silent_modR f (s : St W) :
  (forall r, r_executionDurable (f r) = r_executionDurable r /\ r_execution (f r) = r_execution r) ->
  silent s (snd (modR f s)).
Proof. intros Hf. split; [done|apply Hf]. Qed.
Lemma silent_ctx_Err (a : Agent W) (s : St W) : silent s (snd (ctx_Err a s)).
Proof. unfold ctx_Err. by destruct (st_ctxerr s). Qed.
Lemma silent_with_sink (a : Agent W) f (s : St W) : silent s (snd (with_sink a f s)).
Proof.
  unfold with_sink. destruct (st_sink s) as [sk|]; [|done]. destruct (f sk (st_world s)) as [sk' w].
  destruct (_ && _); [|done]. unfold ctx_cancel. by destruct (st_ctxerr _).
Qed.

(** A relation on traces and the durable flag that does not look at the record holds
    across an update of the record when it holds across the noted save. *)
Lemma update_by_trace (a : Agent W) (R : relation (St W)) `{!PreOrder R} {B} (change : Execution -> res (Execution * B)) s :
  (forall s s', st_trace s' = st_trace s ->
    r_executionDurable (st_run s') = r_executionDurable (st_run s) -> R s s') ->
  (forall s x, R s (s <| st_trace := st_trace s ++ [EffSave x] |>)) ->
  R s (snd (update_record a change s)).
Proof.
  intros Heq Hsave. unfold update_record, bind, getR. cbn beta iota.
  destruct (r_execution (st_run s)) as [x|]; [|by apply Heq].
  destruct (change x) as [[next b]|e]; [|by apply Heq].
  unfold bindR, bind, store_Save. destruct (a_executionStore a) as [es|]; [|by apply Heq].
  unfold bindR, bind, world. destruct (es_Save es next (x_Version next) (st_world s)) as [[x'|e] w]; [|by apply Heq].
  cbn. transitivity (s <| st_world := w |>); [by apply Heq|].
  etransitivity; [apply (Hsave _ x')|]. by apply Heq.
Qed.

End Keeps.

(** Walk through a program: binds, branches and primitives. *)
Ltac by_silence lem :=
  eapply keeps_silent; [eassumption|intros ?; apply lem].
Ltac keeps_step :=
  lazymatch goal with
  | |- keeps _ (bind _ _) => eapply keeps_bind; [eassumption| |intros ?]
  | |- keeps _ (bindR _ _) => unfold bindR
  | |- keeps _ (bindT _ _) => unfold bindT
  | |- keeps _ (orEnd _ _ _ _) => unfold orEnd
  | |- keeps _ (recovered _ _) => unfold recovered
  | |- keeps _ (fail _) => unfold fail
  | |- keeps _ (failT _) => unfold failT
  | |- keeps _ (when _ _) => unfold when
  | |- keeps _ (let '(_, _) := ?x in _) => destruct x
  | |- keeps _ (match ?x with _ => _ end) => destruct x eqn:?
  | |- keeps _ (ret _) => by_silence silent_ret
  | |- keeps _ getR => by_silence silent_getR
  | |- keeps _ totalUsage => by_silence silent_usage
  | |- keeps _ (seedUsage _) => by_silence silent_seed
  | |- keeps _ (addUsage _) => by_silence silent_add
  | |- keeps _ (peek _) => by_silence silent_peek
  | |- keeps _ (world _) => by_silence silent_world
  | |- keeps _ (ctx_Err _) => by_silence silent_ctx_Err
  | |- keeps _ (with_sink _ _) => by_silence silent_with_sink
  | |- keeps _ (emit _ _ _) => unfold emit
  | |- keeps _ (drain _) => unfold drain
  | |- keeps _ (modR _) => by_silence silent_modR; intros ?; split; reflexivity
  | |- keeps _ (note _) => eapply keeps_note; [eassumption|]
  end.
Ltac keeps_tac := repeat (keeps_step || (progress eauto 3 with keeps nocore)).

(** [returns Q m]: every result of [m] satisfies [Q]. *)
Definition returns {W A} (Q : A -> Prop) (m : M W A) : Prop := forall s, Q (fst (m s)).

Lemma returns_bind {W A B} (Q : B -> Prop) (m : M W A) (k : A -> M W B) :
  (forall x, returns Q (k x)) -> returns Q (bind m k).
Proof. intros Hk s. unfold bind. destruct (m s) as [x s1]. apply Hk. Qed.

Lemma returns_ret {W A} (Q : A -> Prop) (x : A) : Q x -> returns (W := W) Q (ret x).
Proof. by intros HQ s. Qed.

Ltac returns_tac :=
  repeat lazymatch goal with
  | |- returns _ (bind _ _) => apply returns_bind; intros ?
  | |- returns _ (let '(_, _) := ?x in _) => destruct x
  | |- returns _ (match ?x with _ => _ end) => destruct x eqn:?
  | |- returns _ (ret _) => apply returns_ret
  end.

(** * Stable relations through the engine *)

Section Generic.
Context {W : Type} (a : Agent W) `{Hashing} `{JSONLib} `{Texts}.
Context (R : relation (St W)) (allowed : Effect -> Prop) (ops : op -> Prop) `{HS : !Stable a R allowed ops}.

Hypothesis allow_other : ops OpOther.
Hypothesis allow_claim : forall callID replay, ops (OpClaim callID replay).
Hypothesis allow_plan : forall ids, ops (OpPlan ids).
Hypothesis allow_append : forall c d cu, allowed (EffAppend c d cu).

Lemma keeps_emitLifecycle ev : keeps R (emitLifecycle a ev).
Proof. unfold emitLifecycle, detailed. keeps_tac. Qed.
Hint Resolve keeps_emitLifecycle : keeps.

(** ** Transitions *)

Lemma transition_step {B} (change : Execution -> res (Execution * B)) :
  (forall x x' b, change x = Ok (x', b) -> exists o, record_step o x x' /\ ops o) -> transition ops change.
Proof.
  intros Hc x x' b Hx. destruct (Hc x x' b Hx) as (o & Ho & Hop). exists o. split; [|done]. by exists x, x'.
Qed.

Lemma transition_keep {B} (change : Execution -> res (Execution * B)) :
  (forall x x' b, change x = Ok (x', b) -> x_ID x' = x_ID x /\ x_ToolBatch x' = x_ToolBatch x) -> transition ops change.
Proof.
  intros Hc. apply transition_step. intros x x' b Hx. exists OpOther. split; [|done].
  by apply step_keep; eapply Hc.
Qed.

Lemma transition_clone {B} (change : Execution -> res (Execution * B)) :
  transition ops change -> transition ops (fun x => change (cloneExecution x)).
Proof.
  intros Hc x x' b Hx. destruct (Hc _ _ _ Hx) as (o & (x0 & x1 & Hx0 & Ho & Hx1) & Hop). exists o. split; [|done].
  exists x0, x1. split_and!; [|done..]. eapply rtc_l; [|exact Hx0]. replace (cloneExecution x) with
    (exec_map_raw cloneRaw x <| x_Version := x_Version x |>) by (by destruct x). apply restored_as.
Qed.

Lemma keeps_update {B} (change : Execution -> res (Execution * B)) :
  transition ops change -> keeps R (update_record a change).
Proof. intros Hc s. by apply stable_update. Qed.

Lemma keeps_persistExecution {B} (b : B) change : transition ops change -> keeps R (persistExecution a b change).
Proof. intros Hc. pose proof (keeps_update _ (transition_clone _ Hc)). unfold persistExecution. keeps_tac. Qed.

(** The changes of [persist]. *)
Definition transition' (change : Execution -> res Execution) : Prop :=
  transition ops (fun x => letr x := change x in Ok (x, tt)).

Lemma keeps_persist change : transition' change -> keeps R (persist a change).
Proof. apply keeps_persistExecution. Qed.

Lemma transition'_step change :
  (forall x x', change x = Ok x' -> exists o, record_step o x x' /\ ops o) -> transition' change.
Proof.
  intros Hc. apply transition_step. intros x x' [] Hx. apply res_bind_ok in Hx as (y & Hy & [= <-]). eauto.
Qed.

Lemma transition'_keep change :
  (forall x x', change x = Ok x' -> x_ID x' = x_ID x /\ x_ToolBatch x' = x_ToolBatch x) -> transition' change.
Proof. intros Hc. apply transition'_step. intros x x' Hx. exists OpOther. split; [|done]. by apply step_keep; eapply Hc. Qed.

Ltac keep_batch := apply keeps_persist, transition'_keep; intros ? ? [= <-]; split; reflexivity.

Lemma keeps_persistRuntimeProgress : keeps R (persistRuntimeProgress a).
Proof. unfold persistRuntimeProgress. keeps_tac. keep_batch. Qed.
Lemma keeps_persistPendingPause i : keeps R (persistPendingPause a i).
Proof. unfold persistPendingPause. keeps_tac. keep_batch. Qed.
Lemma keeps_startCursor : keeps R (persistExecutionStartCursor a).
Proof.
  unfold persistExecutionStartCursor. keeps_tac. apply keeps_persist, transition'_keep.
  intros y y'. destruct (x_StartCursorPersisted y); by intros [= <-].
Qed.
Lemma keeps_priorToolUses : keeps R (priorToolUses a).
Proof. unfold priorToolUses. keeps_tac. Qed.
Hint Resolve keeps_persistRuntimeProgress keeps_persistPendingPause keeps_startCursor keeps_priorToolUses : keeps.

Lemma keeps_planToolBatch calls : keeps R (planToolBatch a calls).
Proof.
  unfold planToolBatch. keeps_tac. apply keeps_persist, transition'_step. intros y y'.
  destruct (x_ToolBatch y) eqn:Hy; [done|]. intros Hb. apply res_bind_ok in Hb as (planned & Hp & [= <-]).
  eexists. split; [by eapply step_plan|done].
Qed.
Lemma keeps_markToolBatchReady : keeps R (markToolBatchReady a).
Proof.
  unfold markToolBatchReady. keeps_tac. apply keeps_persist, transition'_step. intros y y'.
  destruct (x_ToolBatch y) as [b|] eqn:Hy; [|done]. intros Hb. apply res_bind_ok in Hb as (cs & Hc & [= <-]).
  eexists. split; [by eapply step_ready|done].
Qed.
Lemma keeps_beginToolExecution c n : keeps R (beginToolExecution a c n).
Proof.
  unfold beginToolExecution. keeps_tac. apply keeps_persistExecution, transition_step.
  intros y y' [key rp] Hc. eexists. split; [by eapply step_claim|done].
Qed.
Lemma keeps_saveConversation ms : keeps R (saveConversation a ms).
Proof. unfold saveConversation. keeps_tac. Qed.
Lemma keeps_removeToolCalls c : keeps R (removeToolCalls a c).
Proof.
  unfold removeToolCalls. keeps_tac. apply keeps_persist, transition'_step. intros y y' [= <-].
  eexists. split; [apply step_remove|done].
Qed.
Hint Resolve keeps_planToolBatch keeps_markToolBatchReady keeps_beginToolExecution
  keeps_saveConversation keeps_removeToolCalls : keeps.

Lemma keeps_completeCanonical c : keeps R (completeCanonicalToolResults a c).
Proof. unfold completeCanonicalToolResults. keeps_tac. Qed.
Hint Resolve keeps_completeCanonical : keeps.

Lemma keeps_prepareToolBatch ms req ds : keeps R (prepareToolBatch a ms req ds).
Proof. unfold prepareToolBatch. keeps_tac. Qed.
Lemma keeps_persistApprovalDecisions ap resp : keeps R (persistApprovalDecisions a ap resp).
Proof.
  unfold persistApprovalDecisions. keeps_tac. apply keeps_persist, transition'_step. intros y y'.
  destruct (x_ToolBatch y) as [b|] eqn:Hy; [|done]. intros Hb. apply res_bind_ok in Hb as (cs & Hc & [= <-]).
  eexists. split; [by eapply step_approve|done].
Qed.
Hint Resolve keeps_prepareToolBatch keeps_persistApprovalDecisions : keeps.

(** ** Tool execution *)

Lemma keeps_apply_acts async id acts rt : keeps R (apply_acts a async id acts rt).
Proof.
  revert rt. induction acts as [|[] acts IH]; intros rt; simpl; unfold act_widget; keeps_tac.
Qed.
Hint Resolve keeps_apply_acts : keeps.

Lemma keeps_emit_start async tc : keeps R (emit_start a async tc).
Proof. unfold emit_start. keeps_tac. Qed.
Lemma keeps_emit_end async tc o i : keeps R (emit_end a async tc o i).
Proof. unfold emit_end. keeps_tac. Qed.
Hint Resolve keeps_emit_start keeps_emit_end : keeps.

Lemma keeps_fail_call async tc c k : keeps R (fail_call a async tc c k).
Proof. unfold fail_call. keeps_tac. Qed.
Lemma keeps_run_guard async tc t : keeps R (run_guard a async tc t).
Proof. unfold run_guard. keeps_tac. Qed.
Lemma keeps_toolExecution id : keeps R (toolExecution id).
Proof. unfold toolExecution. keeps_tac. Qed.
Hint Resolve keeps_fail_call keeps_run_guard keeps_toolExecution : keeps.

Lemma keeps_executeCall_check async tc t d : keeps R (executeCall_check a async tc t d).
Proof. unfold executeCall_check. keeps_tac. Qed.
Lemma keeps_executeCall_claim async tc rt : keeps R (executeCall_claim a async tc rt).
Proof. unfold executeCall_claim. keeps_tac. Qed.
Lemma keeps_executeCall_finish async tc t rt key rp : keeps R (executeCall_finish a async tc t rt key rp).
Proof. unfold executeCall_finish. keeps_tac. Qed.
Hint Resolve keeps_executeCall_check keeps_executeCall_claim keeps_executeCall_finish : keeps.

Section Dispatch.
Hypothesis allow_dispatch : forall d c n k r, allowed (EffDispatch d c n k r).

Lemma keeps_advance async tc t d p : keeps R (advance a async tc t d p).
Proof. unfold advance, executeCall_run. keeps_tac. Qed.
Hint Resolve keeps_advance : keeps.

Lemma keeps_step_job jobs ps i : keeps R (step_job a jobs ps i).
Proof. unfold step_job. keeps_tac. Qed.
Hint Resolve keeps_step_job : keeps.

Lemma keeps_run_schedule limit jobs sched ps : keeps R (run_schedule a limit jobs sched ps).
Proof. revert ps. induction sched as [|[] sched IH]; intros ps; simpl; keeps_tac. Qed.
Lemma keeps_finish_jobs jobs idxs ps : keeps R (finish_jobs a jobs idxs ps).
Proof. revert ps. induction idxs as [|i idxs IH]; intros ps; simpl; keeps_tac. Qed.
Lemma keeps_runSequential jobs : keeps R (runSequential a jobs).
Proof. induction jobs as [|j jobs IH]; simpl; unfold executeCall; keeps_tac. Qed.
Hint Resolve keeps_run_schedule keeps_finish_jobs keeps_runSequential : keeps.

Lemma keeps_run_jobs jobs : keeps R (run_jobs a jobs).
Proof. unfold run_jobs, runParallel. keeps_tac. Qed.
Hint Resolve keeps_run_jobs : keeps.

Lemma keeps_executeBatch calls available ds : keeps R (executeBatch a calls available ds).
Proof. unfold executeBatch. keeps_tac. Qed.
End Dispatch.

(** ** Operations above the batch *)

Section AboveBatch.
Hypothesis keeps_batch : forall calls available ds, keeps R (executeBatch a calls available ds).
Hypothesis allow_model : forall req, allowed (EffProvider req).
Hint Resolve keeps_batch : keeps.

Lemma keeps_commitToolResults ms os : keeps R (commitToolResults a ms os).
Proof. unfold commitToolResults. keeps_tac. Qed.
Hint Resolve keeps_commitToolResults : keeps.

Lemma keeps_coordinate calls av ds t : keeps R (coordinateToolBatch a calls av ds t).
Proof. unfold coordinateToolBatch. keeps_tac. Qed.
Hint Resolve keeps_coordinate : keeps.

Lemma keeps_modelTurnMessages t sys tools : keeps R (modelTurnMessages a t sys tools).
Proof. unfold modelTurnMessages. keeps_tac. Qed.
Lemma keeps_run_guardrails dir gs msg : keeps R (run_guardrails dir gs msg).
Proof. revert msg. induction gs as [|g gs IH]; intros msg; simpl; keeps_tac. Qed.
Lemma keeps_historyBoundary : keeps R (historyBoundary a).
Proof. unfold historyBoundary. keeps_tac. Qed.
Lemma keeps_emit_model_events evs : keeps R (emit_model_events a evs).
Proof. induction evs as [|[] evs IH]; simpl; keeps_tac. Qed.
Hint Resolve keeps_modelTurnMessages keeps_run_guardrails keeps_historyBoundary keeps_emit_model_events : keeps.

Lemma keeps_load_history : keeps R (load_history a).
Proof. unfold load_history. keeps_tac. Qed.
Lemma keeps_retrieve msg : keeps R (retrieve a msg).
Proof. unfold retrieve. keeps_tac. Qed.
Lemma keeps_inferenceConfig : keeps R (inferenceConfig a).
Proof. unfold inferenceConfig. keeps_tac. Qed.
Lemma keeps_attempt req q : keeps R (attempt a req q).
Proof. unfold attempt. keeps_tac. Qed.
Hint Resolve keeps_load_history keeps_retrieve keeps_inferenceConfig keeps_attempt : keeps.

Lemma keeps_prepareTurnMessages input : keeps R (prepareTurnMessages a input).
Proof. unfold prepareTurnMessages. keeps_tac. Qed.
Lemma keeps_callProvider req q : keeps R (callProvider a req q).
Proof. unfold callProvider. keeps_tac. Qed.
Lemma keeps_interrupt i ms : keeps R (interrupt a i ms).
Proof.
  unfold interrupt, exposeInterrupt. keeps_tac. apply keeps_update, transition_keep. by intros ? ? ? [= <- _].
Qed.
Lemma keeps_endIteration it n f : keeps R (endIteration a it n f).
Proof. unfold endIteration. keeps_tac. Qed.
Hint Resolve keeps_prepareTurnMessages keeps_callProvider keeps_interrupt keeps_endIteration : keeps.

Lemma keeps_visible : keeps R (visible a).
Proof. unfold visible. keeps_tac. Qed.
Hint Resolve keeps_visible : keeps.

Lemma keeps_run_tool_batch it resp av t : keeps R (run_tool_batch a it resp av t).
Proof. unfold run_tool_batch. keeps_tac. Qed.
Lemma keeps_final_answer it resp t : keeps R (final_answer a it resp t).
Proof. unfold final_answer. keeps_tac. Qed.
Lemma keeps_provider_failed it e : keeps R (provider_failed a it e).
Proof. unfold provider_failed. keeps_tac. Qed.
Lemma keeps_record_tool_uses it resp t k :
  (forall t, keeps R (k t)) -> keeps R (record_tool_uses a it resp t k).
Proof. intros Hk. unfold record_tool_uses. keeps_tac. Qed.
Hint Resolve keeps_run_tool_batch keeps_final_answer keeps_provider_failed keeps_record_tool_uses : keeps.

Lemma keeps_loop_body it t sys cfg : keeps R (loop_body a it t sys cfg).
Proof. unfold loop_body. keeps_tac. Qed.
Hint Resolve keeps_loop_body : keeps.

Lemma keeps_loop n it t sys cfg : keeps R (loop a n it t sys cfg).
Proof. revert it t. induction n as [|n IH]; intros it t; simpl; keeps_tac. Qed.
Hint Resolve keeps_loop : keeps.

Lemma keeps_loopTurn t cfg : keeps R (loopTurn a t cfg).
Proof. unfold loopTurn. keeps_tac. Qed.
Hint Resolve keeps_loopTurn : keeps.

Lemma keeps_freshTurn input : keeps R (freshTurn a input).
Proof. unfold freshTurn. keeps_tac. Qed.

Lemma keeps_resumeTurn i resp : keeps R (resumeTurn a i resp).
Proof. unfold resumeTurn, load_resumed, resume_approval. keeps_tac. Qed.

Lemma keeps_finalizeExecution result err : keeps R (finalizeExecution a result err).
Proof.
  unfold finalizeExecution. keeps_tac. apply keeps_update, transition_keep. by intros ? ? ? [= <- _].
Qed.

Lemma keeps_structuredTurn msg schema choice decode : keeps R (structuredTurn a msg schema choice decode).
Proof.
  unfold structuredTurn, wrap_so, prepareTurn, modelMessages, check_answer. keeps_tac.
Qed.

Lemma keeps_finishResolutionClaim ms : keeps R (finishResolutionClaim a ms).
Proof.
  unfold finishResolutionClaim, active_batch. keeps_tac; apply keeps_persist, transition'_step;
    intros y y' Hf; eexists; (split; [by eapply step_finish|done]).
Qed.

Lemma keeps_recoverToolUses ms : keeps R (recoverToolUses a ms).
Proof. unfold recoverToolUses, active_batch. keeps_tac. Qed.

Lemma keeps_pauseRecovered i : keeps R (pauseRecoveredExecution a i).
Proof. unfold pauseRecoveredExecution. keeps_tac. keep_batch. Qed.
Hint Resolve keeps_finishResolutionClaim keeps_recoverToolUses keeps_pauseRecovered : keeps.

Lemma keeps_recover_batch ms : keeps R (recover_batch a ms).
Proof.
  unfold recover_batch, recover_completed, recover_dispatch, active_batch. keeps_tac.
Qed.

End AboveBatch.

(** ** Entry points

    They also replace the run, so that the relation must not look at it. *)

Section Entry.
Hypothesis trace_only : forall s s', st_trace s' = st_trace s -> R s s'.
Hypothesis allow_create : forall x, allowed (EffCreate x).
Hypothesis allow_save : forall x, allowed (EffSave x).

Lemma keeps_store_Save x v : keeps R (store_Save a x v).
Proof. unfold store_Save. keeps_tac. Qed.
Hint Resolve keeps_store_Save : keeps.

Lemma keeps_modR_any f : keeps R (modR f).
Proof. intros s. by apply trace_only. Qed.

Ltac entry_tac := repeat (keeps_step || apply keeps_modR_any || (progress eauto 3 with keeps nocore)).

Lemma keeps_claim_resume i resp : keeps R (claim_resume a i resp).
Proof. unfold claim_resume. keeps_tac. Qed.

Lemma keeps_open_execution : keeps R (open_execution a).
Proof. unfold open_execution. entry_tac. Qed.

Lemma keeps_lifecycle convID body : keeps R body -> keeps R (lifecycle a convID body).
Proof.
  intros Hb. pose proof keeps_open_execution. pose proof keeps_finalizeExecution.
  unfold lifecycle, lifecycle_run, assign_execution_id, newExecutionID. entry_tac.
Qed.

Lemma keeps_execute spec :
  (forall input, keeps R (freshTurn a input)) -> (forall i resp, keeps R (resumeTurn a i resp)) ->
  keeps R (execute a spec).
Proof.
  intros Hf Hr. pose proof keeps_lifecycle. pose proof keeps_claim_resume.
  unfold execute. entry_tac.
Qed.

Lemma keeps_stream spec cfg w :
  keeps R (execute a spec) -> R (initial cfg (Some newEventSink) w) (snd (stream a spec cfg w)).
Proof.
  intros Hx. unfold stream. set (s0 := initial cfg (Some newEventSink) w).
  assert (H0s : R s0 (snd (emit a false EventStart s0))) by apply stable_silent, silent_with_sink.
  destruct (emit a false EventStart s0) as [[] s1]. simpl in H0s.
  destruct (st_sink s1) as [sk|]; [|done]. destruct (sk_stopped sk).
  { transitivity s1; [done|]. by apply trace_only. }
  specialize (Hx s1). destruct (execute a spec s1) as [[result err] s2]. simpl in Hx.
  match goal with |- context [with_sink a ?f s2] =>
    assert (H2s : R s2 (snd (with_sink a f s2))) by apply stable_silent, silent_with_sink;
    destruct (with_sink a f s2) as [? s3] end.
  transitivity s1; [done|]. by transitivity s2.
Qed.

Lemma keeps_RecoverExecution id :
  (forall ms, keeps R (recover_batch a ms)) -> keeps R (RecoverExecution a id).
Proof.
  intros Hb. unfold RecoverExecution, load_boundary, current_execution. entry_tac.
Qed.

Lemma keeps_ReconcileToolExecution id v callID resolution :
  (forall ms, keeps R (finishResolutionClaim a ms)) ->
  keeps R (ReconcileToolExecution a id v callID resolution).
Proof.
  intros Hb. unfold ReconcileToolExecution, reconcile_claimed, load_boundary, current_execution. entry_tac.
Qed.

End Entry.
End Generic.
