(* ===== verification/Claims.v ===== *)
(** Claim before effect: in a durable run no tool handler is dispatched before the
    execution store has acknowledged a record in which that call is in flight under
    the same idempotency key; a replay happens only for a call declared replay-safe.
    Holds for every entry point and every interleaving of a parallel batch. *)
From S2P Require Import Prelude Errors Messages Normalize TurnMessages Execution Schema Tool.
From S2P Require Import Inference Stores EventSink State ToolBatch ToolExec Engine Structured.
From S2P Require Import Recovery Reason.

(** What an acknowledged record says about a call. *)
Definition claimed_in (callID key : string) (replay : bool) (x : Execution) : Prop :=
  exists b c, x_ToolBatch x = Some b /\ find_call callID (tb_Calls b) = Some c /\
    te_Status c = ToolExecutionInFlight /\ te_IdempotencyKey c = key /\
    (replay = true -> te_ReplaySafe c = true).

(** Every durable dispatch of a trace comes after the acknowledgement of its claim. *)
Definition claims_first (tr : list Effect) : Prop :=
  forall pre post callID name key replay,
    tr = pre ++ EffDispatch true callID name key replay :: post ->
    exists x, EffSave x ∈ pre /\ claimed_in callID key replay x.

(** What the documentation of ExecutionStore says of a successful Save: it returns the
    saved record at its new version; only raw JSON may be re-encoded. *)
Class FaithfulSave {W} (es : ExecutionStore W) := {
  fs_norm : RawMessage -> RawMessage;
  fs_save x v w x' w' : es_Save es x v w = (Ok x', w') ->
    exists v', x' = exec_map_raw fs_norm x <| x_Version := v' |> }.

(** * Lemmas on batches *)

Lemma claimed_in_map_raw f v callID key replay x : claimed_in callID key replay x ->
  claimed_in callID key replay (exec_map_raw f x <| x_Version := v |>).
Proof.
  intros (b & c & Hb & Hc & Hs & Hk & Hr).
  exists (batch_map_raw f b), (c <| te_Input := f (te_Input c) |>). split_and!; try done.
  - unfold exec_map_raw. simpl. by rewrite Hb.
  - unfold batch_map_raw. simpl. by rewrite find_call_map, Hc.
Qed.

(** The claim transition leaves the call in flight. *)
Lemma claim_call_claimed recovering callID name x x' key replay :
  claim_call recovering callID name x = Ok (x', (key, replay)) -> claimed_in callID key replay x'.
Proof.
  unfold claim_call. destruct (x_ToolBatch x) as [b|] eqn:Hb; [|done].
  destruct (find_call callID (tb_Calls b)) as [c|] eqn:Hc; [|done].
  destruct (te_Status c) eqn:Hs; try done.
  - intros [= <- <- <-]. eexists _, (c <| te_Status := ToolExecutionInFlight |>).
    split_and!; [reflexivity| |reflexivity|reflexivity|done].
    simpl. by rewrite find_call_update, Hc.
  - destruct recovering, (te_ReplaySafe c) eqn:Hr; simpl; try done. intros [= <- <- <-].
    exists b, c. split_and!; done.
Qed.

(** * The relation *)

Section Claims.
Context {W : Type} (a : Agent W) `{Hashing} `{JSONLib} `{Texts}.
Hypothesis Hfaith : forall es, a_executionStore a = Some es -> FaithfulSave es.

Definition not_durable_dispatch (e : Effect) : Prop :=
  match e with EffDispatch true _ _ _ _ => False | _ => True end.

Definition Rclaim (s s' : St W) : Prop :=
  st_trace s `prefix_of` st_trace s' /\
  r_executionDurable (st_run s') = r_executionDurable (st_run s) /\
  (claims_first (st_trace s) -> claims_first (st_trace s')).

Lemma claims_first_nil : claims_first [].
Proof. intros [] ? ? ? ? ?; done. Qed.

Lemma claims_first_snoc tr e : claims_first tr ->
  match e with
  | EffDispatch true callID name key replay => exists x, EffSave x ∈ tr /\ claimed_in callID key replay x
  | _ => True
  end -> claims_first (tr ++ [e]).
Proof.
  intros Htr He pre post callID name key replay Heq.
  destruct post as [|e' post] using rev_ind.
  - apply app_inj_tail in Heq as [-> ->]. done.
  - clear IHpost. change (EffDispatch true callID name key replay :: post ++ [e'])
      with ((EffDispatch true callID name key replay :: post) ++ [e']) in Heq.
    rewrite app_assoc in Heq. apply app_inj_tail in Heq as [-> _]. by eapply Htr.
Qed.

#[local] Instance Rclaim_preorder : PreOrder Rclaim.
Proof.
  split; [intros s; by split_and!|]. intros s1 s2 s3 (P1 & D1 & C1) (P2 & D2 & C2).
  split_and!; [by etransitivity|congruence|auto].
Qed.

Lemma Rclaim_note s e : not_durable_dispatch e -> Rclaim s (s <| st_trace := st_trace s ++ [e] |>).
Proof.
  intros He. split_and!; [by eexists|done|]. intros Hc. simpl.
  apply claims_first_snoc; [done|]. destruct e; try done. by destruct durable.
Qed.

#[local] Instance Rclaim_stable : Stable a Rclaim not_durable_dispatch any_op.
Proof.
  assert (Heq : forall s s', st_trace s' = st_trace s ->
    r_executionDurable (st_run s') = r_executionDurable (st_run s) -> Rclaim s s').
  { intros s s' Ht Hd. unfold Rclaim. rewrite Ht. by split_and!. }
  split.
  - exact Rclaim_preorder.
  - intros s s' (Ht & Hd & _). by apply Heq.
  - exact Rclaim_note.
  - intros B change s _. apply update_by_trace; [exact _|exact Heq|]. intros s1 x. by apply Rclaim_note.
Qed.

(** A call that has been claimed has its acknowledged record in the trace. *)
Definition phase_ok (s : St W) (tc : Call) (p : phase) : Prop :=
  match p with
  | PClaimed _ key replay => r_executionDurable (st_run s) = true ->
      exists x, EffSave x ∈ st_trace s /\ claimed_in (c_ToolUseID tc) key replay x
  | _ => True
  end.

Lemma phase_ok_mono s s' tc p : Rclaim s s' -> phase_ok s tc p -> phase_ok s' tc p.
Proof.
  intros ([l Hl] & Hd & _) Hp. destruct p; try done. simpl in *. rewrite Hd. intros Hdur.
  destruct (Hp Hdur) as (x & Hx & Hc). exists x. split; [|done]. rewrite Hl. set_solver.
Qed.

(** A durable transition that succeeds leaves its record in the trace. *)
Lemma persistExecution_trace {B} (b0 b : B) ch s s' :
  persistExecution a b0 ch s = (Ok b, s') -> r_executionDurable (st_run s) = true ->
  exists x next x' f v, r_execution (st_run s) = Some x /\ ch (cloneExecution x) = Ok (next, b) /\
    EffSave x' ∈ st_trace s' /\ x' = exec_map_raw f next <| x_Version := v |>.
Proof.
  intros Hm Hd. unfold persistExecution, update_record, bind, getR in Hm. rewrite Hd in Hm. simpl in Hm.
  destruct (r_execution (st_run s)) as [x|]; [|done].
  destruct (ch (cloneExecution x)) as [[next b1]|] eqn:Hch; [|done].
  unfold bindR, bind, store_Save in Hm. destruct (a_executionStore a) as [es|] eqn:Hes; [|done].
  unfold bindR, bind, world in Hm.
  destruct (es_Save es next (x_Version next) (st_world s)) as [[x'|e] w] eqn:Hsave; [|done].
  simpl in Hm. injection Hm as <- <-. destruct (Hfaith es eq_refl) as [f Hf].
  destruct (Hf _ _ _ _ _ Hsave) as [v ->].
  exists x, next, (exec_map_raw f next <| x_Version := v |>), f, v. split_and!; try done.
  simpl. apply elem_of_app. right. apply list_elem_of_singleton. done.
Qed.

Lemma claim_phase_ok async tc rt s p s' :
  executeCall_claim a async tc rt s = (p, s') -> phase_ok s' tc p.
Proof.
  assert (HR : Rclaim s (snd (beginToolExecution a (c_ToolUseID tc) (c_Name tc) s)))
    by (apply (keeps_beginToolExecution a Rclaim not_durable_dispatch any_op); done).
  unfold executeCall_claim. unfold bind at 1.
  destruct (beginToolExecution a (c_ToolUseID tc) (c_Name tc) s) as [[[key replay]|e] s1] eqn:Hb.
  - intros [= <- <-] Hd. destruct HR as (_ & Hdur & _). cbn [snd] in Hdur. rewrite Hdur in Hd.
    unfold beginToolExecution, bind, getR in Hb.
    destruct (persistExecution_trace _ _ _ _ _ Hb Hd) as (x & next & x' & f & v & _ & Hch & Hin & ->).
    eexists. split; [exact Hin|]. apply claimed_in_map_raw. by eapply claim_call_claimed.
  - unfold bind. destruct (emit_start a async tc s1) as [? s2].
    destruct (emit_end a async tc _ _ s2) as [? s3]. by intros [= <- <-].
Qed.

(** Dispatching a claimed call keeps the discipline. *)
Lemma run_phase_keeps async tc t rt key replay s :
  phase_ok s tc (PClaimed rt key replay) ->
  Rclaim s (snd (executeCall_run a async tc t rt key replay s)).
Proof.
  intros Hp. unfold executeCall_run. destruct t as [t|]; [|apply stable_silent; done].
  unfold bind at 1. pose proof (keeps_emit_start a Rclaim not_durable_dispatch any_op async tc s) as H1s.
  destruct (emit_start a async tc s) as [[] s1]. cbn [snd] in H1s.
  assert (Hp1 := phase_ok_mono _ _ _ _ H1s Hp). transitivity s1; [exact H1s|].
  unfold bind at 1, getR. cbn beta iota. unfold bind, note. cbn beta iota.
  etransitivity; [|apply (keeps_executeCall_finish a Rclaim not_durable_dispatch any_op)].
  split_and!; [by eexists|done|]. intros Hc. cbn [st_trace set_field].
  apply claims_first_snoc; [done|]. destruct (r_executionDurable (st_run s1)) eqn:Hd; [|done].
  exact (Hp1 Hd).
Qed.

Definition not_claimed (p : phase) : Prop := match p with PClaimed _ _ _ => False | _ => True end.

Lemma check_not_claimed async tc t d : returns not_claimed (executeCall_check a async tc t d).
Proof. unfold executeCall_check. returns_tac; exact I. Qed.

Lemma run_not_claimed async tc t rt key rp : returns not_claimed (executeCall_run a async tc t rt key rp).
Proof. unfold executeCall_run, executeCall_finish. returns_tac; exact I. Qed.

(** One step of a call, and the calls of a batch. *)
Lemma advance_ok async tc t d p s : phase_ok s tc p ->
  Rclaim s (snd (advance a async tc t d p s)) /\
  phase_ok (snd (advance a async tc t d p s)) tc (fst (advance a async tc t d p s)).
Proof.
  intros Hp. destruct p as [|rt|rt key rp|o]; simpl.
  - split; [apply (keeps_executeCall_check a Rclaim not_durable_dispatch any_op); done|].
    pose proof (check_not_claimed async tc t d s) as Hc.
    by destruct (fst (executeCall_check a async tc t d s)).
  - split; [apply (keeps_executeCall_claim a Rclaim not_durable_dispatch any_op); done|].
    eapply claim_phase_ok, surjective_pairing.
  - split; [by apply run_phase_keeps|].
    pose proof (run_not_claimed async tc t rt key rp s) as Hc.
    by destruct (fst (executeCall_run a async tc t rt key rp s)).
  - split; [apply stable_silent; done|done].
Qed.

Definition phases_ok (s : St W) (jobs : list (job (W := W))) (ps : list phase) : Prop :=
  Forall2 (fun j p => phase_ok s (j_call j) p) jobs ps.

Lemma phases_ok_mono s s' jobs ps : Rclaim s s' -> phases_ok s jobs ps -> phases_ok s' jobs ps.
Proof. intros HR Hps. eapply Forall2_impl; [exact Hps|]. intros j p. by apply phase_ok_mono. Qed.

(** [m] turns acceptable phases into acceptable phases and keeps the discipline. *)
Definition jobs_ok (jobs : list (job (W := W))) (m : list phase -> M W (list phase)) : Prop :=
  forall ps s, phases_ok s jobs ps ->
    Rclaim s (snd (m ps s)) /\ phases_ok (snd (m ps s)) jobs (fst (m ps s)).

Lemma jobs_ok_bind jobs m1 m2 : jobs_ok jobs m1 -> jobs_ok jobs m2 ->
  jobs_ok jobs (fun ps => let! ps := m1 ps in m2 ps).
Proof.
  intros H1' H2' ps s Hps. unfold bind. destruct (H1' ps s Hps) as [R1 P1].
  destruct (m1 ps s) as [ps1 s1]. simpl in *. destruct (H2' ps1 s1 P1) as [R2 P2].
  split; [by transitivity s1|done].
Qed.

Lemma jobs_ok_ret jobs : jobs_ok jobs (fun ps => ret ps).
Proof. intros ps s Hps. split; [apply stable_silent; done|done]. Qed.

Lemma jobs_ok_step jobs i : jobs_ok jobs (fun ps => step_job a jobs ps i).
Proof.
  intros ps s Hps. unfold step_job.
  destruct (jobs !! i) as [j|] eqn:Hj; [|apply jobs_ok_ret, Hps].
  destruct (ps !! i) as [p|] eqn:Hp; [|apply jobs_ok_ret, Hps].
  assert (Hphase := Forall2_lookup_lr _ _ _ _ _ _ Hps Hj Hp). simpl in Hphase.
  destruct (advance_ok true (j_call j) (j_tool j) (j_decision j) p s Hphase) as [R1 P1].
  unfold bind. destruct (advance a true (j_call j) (j_tool j) (j_decision j) p s) as [p' s1]. simpl in *.
  split; [done|]. assert (Hps1 := phases_ok_mono _ _ _ _ R1 Hps).
  replace jobs with (<[i := j]> jobs) by (by apply list_insert_id). by apply Forall2_insert.
Qed.

Lemma jobs_ok_drain jobs : jobs_ok jobs (fun ps => drain a ;! ret ps).
Proof.
  intros ps s Hps. assert (HR : Rclaim s (snd (drain a s))) by apply stable_silent, silent_with_sink.
  unfold bind. destruct (drain a s) as [[] s1]. split; [done|]. by eapply phases_ok_mono.
Qed.

Lemma jobs_ok_schedule limit jobs sched : jobs_ok jobs (run_schedule a limit jobs sched).
Proof.
  induction sched as [|[i|] sched IH]; simpl.
  - apply jobs_ok_ret.
  - intros ps. destruct (may_step limit ps i); [|apply IH].
    by apply (jobs_ok_bind jobs (fun ps => step_job a jobs ps i)); [apply jobs_ok_step|].
  - intros ps s Hps. destruct (jobs_ok_drain jobs ps s Hps) as [R1 P1]. unfold bind in *.
    destruct (drain a s) as [[] s1]. simpl in *. destruct (IH ps s1 P1) as [R2 P2].
    split; [by transitivity s1|done].
Qed.

Lemma jobs_ok_finish jobs idxs : jobs_ok jobs (finish_jobs a jobs idxs).
Proof.
  induction idxs as [|i idxs IH]; simpl; [apply jobs_ok_ret|].
  repeat (apply (jobs_ok_bind jobs (fun ps => step_job a jobs ps i)); [apply jobs_ok_step|]). exact IH.
Qed.

Lemma runParallel_keeps jobs : keeps Rclaim (runParallel a jobs).
Proof.
  intros s. unfold runParallel. unfold bind at 1.
  assert (R0 : Rclaim s (snd (world (a_schedule a) s))) by apply stable_silent, silent_world.
  destruct (world (a_schedule a) s) as [sched s0]. simpl in R0. transitivity s0; [exact R0|].
  assert (P0 : phases_ok s0 jobs (map (fun _ => PStart) jobs)).
  { clear. unfold phases_ok. induction jobs; simpl; by constructor. }
  unfold bind at 1. destruct (jobs_ok_schedule (concurrentLimit a) jobs sched _ s0 P0) as [R1 P1].
  destruct (run_schedule a (concurrentLimit a) jobs sched _ s0) as [ps1 s1]. simpl in *.
  transitivity s1; [exact R1|]. unfold bind at 1.
  destruct (jobs_ok_finish jobs (seq 0 (length jobs)) ps1 s1 P1) as [R2 P2].
  destruct (finish_jobs a jobs _ ps1 s1) as [ps2 s2]. simpl in *. transitivity s2; [exact R2|].
  assert (HR : Rclaim s2 (snd (drain a s2))) by apply stable_silent, silent_with_sink.
  unfold bind. by destruct (drain a s2).
Qed.

Lemma executeCall_keeps async tc t d : keeps Rclaim (executeCall a async tc t d).
Proof.
  intros s. unfold executeCall, bind.
  destruct (advance_ok async tc t d PStart s I) as [R1 P1].
  destruct (advance a async tc t d PStart s) as [p1 s1]. cbn [fst snd] in *.
  destruct (advance_ok async tc t d p1 s1 P1) as [R2 P2].
  destruct (advance a async tc t d p1 s1) as [p2 s2]. cbn [fst snd] in *.
  destruct (advance_ok async tc t d p2 s2 P2) as [R3 P3].
  destruct (advance a async tc t d p2 s2) as [p3 s3]. cbn [fst snd] in *.
  transitivity s1; [done|]. by transitivity s2.
Qed.

Lemma runSequential_keeps jobs : keeps Rclaim (runSequential a jobs).
Proof.
  pose proof Rclaim_stable. induction jobs as [|j jobs IH]; simpl; keeps_tac. apply executeCall_keeps.
Qed.

Lemma executeBatch_keeps calls available ds : keeps Rclaim (executeBatch a calls available ds).
Proof.
  pose proof Rclaim_stable.
  assert (Hjobs : forall jobs, keeps Rclaim (run_jobs a jobs)).
  { intros jobs. unfold run_jobs. destruct (_ && _); [apply runParallel_keeps|apply runSequential_keeps]. }
  unfold executeBatch. keeps_tac.
Qed.

(** ** Entry points *)

(** The same discipline without the durable flag, which entry points set. *)
Definition Rfirst (s s' : St W) : Prop := claims_first (st_trace s) -> claims_first (st_trace s').

#[local] Instance Rfirst_stable : Stable a Rfirst not_durable_dispatch any_op.
Proof.
  split.
  - unfold Rfirst. split; [intros s; exact id|]. intros s1 s2 s3 H12 H23 Hc. auto.
  - intros s s' [Ht _]. unfold Rfirst. by rewrite Ht.
  - intros s e He. exact (proj2 (proj2 (Rclaim_note s e He))).
  - intros B change s Hc. exact (proj2 (proj2 (stable_update (R := Rclaim) change s Hc))).
Qed.

Lemma keeps_first {A} (m : M W A) : keeps Rclaim m -> keeps Rfirst m.
Proof. intros Hm s. exact (proj2 (proj2 (Hm s))). Qed.

Lemma execute_claims spec : keeps Rfirst (execute a spec).
Proof.
  apply (keeps_execute a Rfirst not_durable_dispatch any_op); try done.
  - intros s s' Ht. unfold Rfirst. by rewrite Ht.
  - intros input. apply keeps_first, (keeps_freshTurn a Rclaim not_durable_dispatch any_op); try done.
    apply executeBatch_keeps.
  - intros i resp. apply keeps_first, (keeps_resumeTurn a Rclaim not_durable_dispatch any_op); try done.
    apply executeBatch_keeps.
Qed.

(** C2. In every invocation (fresh or resumed, sequential or with any interleaving of
    parallel tools) each handler of a durable run is dispatched only after the store
    acknowledged the record that has this call in flight under this idempotency key,
    and as a replay only when the record declares the call replay-safe. *)
Theorem invocation_claims_before_effects spec cfg w :
  claims_first (st_trace (snd (stream a spec cfg w))).
Proof.
  assert (HR : Rfirst (initial cfg (Some newEventSink) w) (snd (stream a spec cfg w))).
  { apply (keeps_stream a Rfirst not_durable_dispatch any_op); [|apply execute_claims].
    intros s s' Ht. unfold Rfirst. by rewrite Ht. }
  apply HR, claims_first_nil.
Qed.

(** Recovery keeps the same discipline: RecoverExecution dispatches a handler only
    after its claim was acknowledged again, and replays only replay-safe calls. *)
Theorem recovery_claims_before_effects id cfg w :
  claims_first (st_trace (snd (RecoverExecution a id (initial cfg None w)))).
Proof.
  assert (HR : keeps Rfirst (RecoverExecution a id)).
  { apply (keeps_RecoverExecution a Rfirst not_durable_dispatch any_op); [|done|].
    - intros s s' Ht. unfold Rfirst. by rewrite Ht.
    - intros ms. apply keeps_first, (keeps_recover_batch a Rclaim not_durable_dispatch any_op); try done.
      apply executeBatch_keeps. }
  apply HR, claims_first_nil.
Qed.

End Claims.
