(* ===== verification/Once.v ===== *)
(** The engine refines the protocol, and at most once: the effects of a run on its record and its handlers are a run
    of the protocol machine, which makes one protocol step per acknowledged save and allows one first dispatch per
    claim.  Holds for every interleaving of a parallel batch. *)
From S2P Require Import Prelude Errors Messages Normalize TurnMessages Execution Schema Tool.
From S2P Require Import Inference Stores EventSink State ToolBatch ToolExec Engine Structured.
From S2P Require Import Recovery BatchProps Protocol Reason Claims.

(** First (not replayed) durable dispatches of a call. *)
Definition is_dispatch (callID : string) (e : Effect) : bool :=
  match e with EffDispatch true id _ _ false => bool_decide (id = callID) | _ => false end.
Definition dispatches (callID : string) (tr : list Effect) : nat := length (List.filter (is_dispatch callID) tr).

Lemma dispatches_app callID t1 t2 : dispatches callID (t1 ++ t2) = (dispatches callID t1 + dispatches callID t2)%nat.
Proof. unfold dispatches. by rewrite List.filter_app, length_app. Qed.

Section Once.
Context {W : Type} (a : Agent W) `{Hashing} `{JSONLib} `{Texts}.
Context (ops : op -> Prop).
Hypothesis allow_other : ops OpOther.
Hypothesis allow_claim : forall callID replay, ops (OpClaim callID replay).

(** The protocol machine: its state is the record and, for each call, the first dispatches that claims allow.  An
    acknowledged save is exactly one operation on the record; a first claim allows one dispatch; a first dispatch of a
    durable run uses one up. *)
Definition quiet (e : Effect) : Prop :=
  match e with EffDispatch true _ _ _ false | EffSave _ => False | _ => True end.
Definition claimed (o : op) (p : string -> nat) (id : string) : nat := ((if is_first_claim id o then 1 else 0) + p id)%nat.
Definition used (callID : string) (p : string -> nat) (id : string) : nat := (p id - (if bool_decide (callID = id) then 1 else 0))%nat.
Inductive protocol_run : option Execution -> (string -> nat) -> list Effect -> option Execution -> (string -> nat) -> Prop :=
| run_end x p : protocol_run x p [] x p
| run_save x y o p t x' p' : moved o x y -> ops o -> protocol_run (Some y) (claimed o p) t x' p' ->
    protocol_run (Some x) p (EffSave y :: t) x' p'
| run_dispatch x p callID name key t x' p' : (0 < p callID)%nat -> protocol_run x (used callID p) t x' p' ->
    protocol_run x p (EffDispatch true callID name key false :: t) x' p'
| run_quiet x p e t x' p' : quiet e -> protocol_run x p t x' p' -> protocol_run x p (e :: t) x' p'.

Lemma protocol_run_app x p t1 x1 p1 t2 x2 p2 :
  protocol_run x p t1 x1 p1 -> protocol_run x1 p1 t2 x2 p2 -> protocol_run x p (t1 ++ t2) x2 p2.
Proof. induction 1; intros Hr; [done|..]; simpl; econstructor; eauto. Qed.

(** Every acknowledged record of a run is well-formed when the first one is. *)
Lemma protocol_run_batch_ok x p t x' p' : protocol_run x p t x' p' -> (forall y, x = Some y -> batch_ok y) ->
  (forall y, EffSave y ∈ t -> batch_ok y) /\ (forall y, x' = Some y -> batch_ok y).
Proof.
  induction 1 as [x p|x y o p t x' p' Hm Ho _ IH|x p id n k t x' p' _ _ IH|x p e t x' p' He _ IH]; intros Hx.
  - split; [|done]. by intros y ?%not_elem_of_nil.
  - assert (Hy : batch_ok y) by (by eapply moved_batch_ok; [|apply Hx]). destruct IH as [IH1 IH2]; [by intros z [= <-]|].
    split; [|done]. intros z [[= ->]|Hz]%elem_of_cons; [done|by apply IH1].
  - destruct (IH Hx) as [IH1 IH2]. split; [|done]. intros z [?|Hz]%elem_of_cons; [done|by apply IH1].
  - destruct (IH Hx) as [IH1 IH2]. split; [|done]. intros z [<-|Hz]%elem_of_cons; [done|by apply IH1].
Qed.

(** First dispatches are at most what is claimable, pending or granted. *)
Definition right_to (x : option Execution) (id : string) : nat := match x with Some x => claimable id x | None => 0 end.
Lemma dispatches_cons id e t : dispatches id (e :: t) = ((if is_dispatch id e then 1 else 0) + dispatches id t)%nat.
Proof. unfold dispatches. simpl. by destruct (is_dispatch id e). Qed.

Lemma protocol_run_dispatches x p t x' p' id : protocol_run x p t x' p' -> (forall o, ops o -> is_grant id o = false) ->
  (dispatches id t + right_to x' id + p' id <= right_to x id + p id)%nat.
Proof.
  intros Hr Hops. induction Hr as [x p|x y o p t x' p' Hm Ho _ IH|x p id' n k t x' p' Hp _ IH|x p e t x' p' He _ IH].
  - unfold dispatches. simpl. lia.
  - rewrite dispatches_cons. cbn [is_dispatch right_to] in *. unfold claimed in IH. pose proof (moved_claimable id o x y Hm) as Hc.
    rewrite (Hops o Ho) in Hc. lia.
  - rewrite dispatches_cons. cbn [is_dispatch]. unfold used in IH. destruct (decide (id' = id)) as [->|Hne].
    + rewrite !(bool_decide_true (id = id)) in * by done. lia.
    + rewrite !(bool_decide_false (id' = id)) in * by done. lia.
  - rewrite dispatches_cons. destruct e as [| | |[] ? ? ? []|]; simpl in *; try done; lia.
Qed.

(** What a stretch of a run did: with [q] pending first dispatches the machine can make its effects, and leaves [q']
    of them pending, beside any others. *)
Definition Rq (q q' : string -> nat) (s s' : St W) : Prop := exists t,
  r_executionDurable (st_run s') = r_executionDurable (st_run s) /\ st_trace s' = st_trace s ++ t /\
  forall p, (forall id, (q id <= p id)%nat) -> exists p',
    protocol_run (r_execution (st_run s)) p t (r_execution (st_run s')) p' /\ forall id, (p id + q' id <= p' id + q id)%nat.

Lemma Rq_eq q s s' : silent s s' -> Rq q q s s'.
Proof.
  intros (Ht & Hdur & Hx). exists []. split_and!; [done|by rewrite app_nil_r|]. intros p Hp. exists p. rewrite Hx. split; [constructor|done].
Qed.

Lemma Rq_trans q1 q2 q3 s1 s2 s3 : Rq q1 q2 s1 s2 -> Rq q2 q3 s2 s3 -> Rq q1 q3 s1 s3.
Proof.
  intros (t1 & D1 & T1 & P1) (t2 & D2 & T2 & P2). exists (t1 ++ t2). split_and!; [congruence|by rewrite T2, T1, app_assoc|].
  intros p Hp. destruct (P1 p Hp) as (p1 & R1 & L1). destruct (P2 p1) as (p2 & R2 & L2).
  { intros id. specialize (L1 id). specialize (Hp id). lia. }
  exists p2. split; [by eapply protocol_run_app|]. intros id. specialize (L1 id). specialize (L2 id). lia.
Qed.

(** More may be pending before, less after. *)
Lemma Rq_weaken q q' r r' s s' : (forall id, (q id <= r id)%nat) -> (forall id, (r' id + q id <= q' id + r id)%nat) ->
  Rq q q' s s' -> Rq r r' s s'.
Proof.
  intros Hq Hr (t & D & T & P). exists t. split_and!; [done..|]. intros p Hp. destruct (P p) as (p' & R & L).
  { intros id. specialize (Hq id). specialize (Hp id). lia. }
  exists p'. split; [done|]. intros id. specialize (Hr id). specialize (L id). lia.
Qed.

Definition none (id : string) : nat := 0.
Definition R0 : relation (St W) := Rq none none.
Lemma R0_any q s s' : R0 s s' -> Rq q q s s'.
Proof. apply Rq_weaken; intros id; unfold none; lia. Qed.
Lemma Rq_l q q' s1 s2 s3 : R0 s1 s2 -> Rq q q' s2 s3 -> Rq q q' s1 s3.
Proof. intros H12 H23. eapply Rq_trans; [by apply R0_any|exact H23]. Qed.
Lemma Rq_r q q' s1 s2 s3 : Rq q q' s1 s2 -> R0 s2 s3 -> Rq q q' s1 s3.
Proof. intros H12 H23. eapply Rq_trans; [exact H12|by apply R0_any]. Qed.

#[local] Instance R0_preorder : PreOrder R0.
Proof. split; [intros s; by apply Rq_eq|]. intros s1 s2 s3 H12 H23. by eapply Rq_trans. Qed.

Hypothesis Hfaith : forall es, a_executionStore a = Some es -> FaithfulSave es.

(** A successful update of the record is one operation, and then what storage did. *)
Lemma update_record_stretch {B} (change : Execution -> res (Execution * B)) q s r s' :
  update_record a change s = (r, s') ->
  (forall x x' b, r = Ok b -> change x = Ok (x', b) -> exists o, moved o x x' /\ ops o /\
    forall id, (q id <= if is_first_claim id o then 1 else 0)%nat) ->
  Rq none (if is_ok r then q else none) s s'.
Proof.
  unfold update_record, bind, getR. cbn beta iota. intros Hu Hok.
  destruct (r_execution (st_run s)) as [x|] eqn:Hx; [|injection Hu as <- <-; by apply Rq_eq].
  destruct (change x) as [[next b]|e] eqn:Hch; [|injection Hu as <- <-; by apply Rq_eq].
  unfold bindR, bind, store_Save in Hu. destruct (a_executionStore a) as [es|] eqn:Hes; [|injection Hu as <- <-; by apply Rq_eq].
  unfold bindR, bind, world in Hu.
  destruct (es_Save es next (x_Version next) (st_world s)) as [[x'|e] w] eqn:Hsave; [|injection Hu as <- <-; by apply Rq_eq].
  cbn in Hu. injection Hu as <- <-. destruct (Hfaith es eq_refl) as [f Hf].
  destruct (Hf _ _ _ _ _ Hsave) as [v ->]. destruct (Hok x next b eq_refl Hch) as (o & (x0 & x1 & Hx0 & Ho & Hx1) & Hop & Hq).
  set (y := exec_map_raw f next <| x_Version := v |>). exists [EffSave y]. split_and!; [done..|]. cbn. rewrite Hx. intros p Hp.
  exists (claimed o p). split.
  - apply (run_save x y o); [|done|constructor]. exists x0, x1. split_and!; [done..|]. eapply rtc_r; [exact Hx1|]. apply restored_as.
  - intros id. specialize (Hq id). unfold claimed, none. lia.
Qed.

#[local] Instance R0_stable : Stable a R0 quiet ops.
Proof.
  split.
  - exact R0_preorder.
  - intros s s' Hs. by apply Rq_eq.
  - intros s e He. exists [e]. split_and!; [done..|]. intros p _. exists p. split; [apply run_quiet; [done|constructor]|done].
  - intros B change s Hc. destruct (update_record a change s) as [r s'] eqn:Hu.
    pose proof (update_record_stretch change none s r s' Hu) as Hs. destruct (is_ok r); apply Hs; intros x x' b _ Hx;
      destruct (Hc x x' b Hx) as (o & Ho & Hop); exists o; (split_and!; [done..|]); unfold none; lia.
Qed.

(** ** Calls and batches *)

(** The first dispatch that a claimed call still has to make. *)
Definition pend (dur : bool) (tc : Call) (p : phase) (id : string) : nat :=
  match p with
  | PClaimed _ _ false => if dur && bool_decide (c_ToolUseID tc = id) then 1 else 0
  | _ => 0
  end.

Definition durable_of (s : St W) : bool := r_executionDurable (st_run s).

Lemma claim_call_moves recovering tc name x x' key replay rt :
  claim_call recovering (c_ToolUseID tc) name (cloneExecution x) = Ok (x', (key, replay)) ->
  exists o, moved o x x' /\ ops o /\ forall id, (pend true tc (PClaimed rt key replay) id <= if is_first_claim id o then 1 else 0)%nat.
Proof.
  intros Hc. exists (OpClaim (c_ToolUseID tc) replay). split_and!; [|done|].
  - exists (cloneExecution x), x'. split_and!; [|by eapply step_claim|done]. apply rtc_once.
    replace (cloneExecution x) with (exec_map_raw cloneRaw x <| x_Version := x_Version x |>) by (by destruct x). apply restored_as.
  - intros id. destruct replay; simpl; [lia|]. by case_bool_decide.
Qed.

Lemma begin_once tc rt s r s' :
  beginToolExecution a (c_ToolUseID tc) (c_Name tc) s = (r, s') ->
  Rq none (match r with Ok (key, replay) => pend (durable_of s) tc (PClaimed rt key replay) | Err _ => none end) s s'.
Proof.
  unfold beginToolExecution, bind, getR, persistExecution. cbn beta iota. unfold bind, getR, durable_of.
  cbn beta iota. destruct (r_executionDurable (st_run s)) eqn:Hd; simpl negb; cbv iota.
  - intros Hu. destruct r as [[key replay]|e].
    + refine (update_record_stretch _ _ _ _ _ Hu _). intros x x' b [= <-] Hc. by eapply claim_call_moves.
    + refine (update_record_stretch _ none _ _ _ Hu _). done.
  - intros [= <- <-]. by apply Rq_eq.
Qed.

Lemma claim_once async tc rt s p s' : executeCall_claim a async tc rt s = (p, s') ->
  Rq none (pend (durable_of s) tc p) s s'.
Proof.
  unfold executeCall_claim. unfold bind at 1.
  destruct (beginToolExecution a (c_ToolUseID tc) (c_Name tc) s) as [r s1] eqn:Hb.
  assert (Hr := begin_once tc rt s r s1 Hb).
  destruct r as [[key replay]|e]; [intros [= <- <-]; by destruct replay|].
  intros Hrest. assert (HR : R0 s1 s').
  { replace s' with (snd (p, s')) by done. rewrite <- Hrest.
    pose proof (keeps_emit_start a R0 quiet ops). pose proof (keeps_emit_end a R0 quiet ops).
    pose proof R0_stable as HS. revert s1 Hb Hr Hrest. intros s1 _ _ _.
    match goal with |- R0 _ (snd (?m _)) => assert (HK : keeps R0 m) by keeps_tac; apply HK end. }
  eapply Rq_weaken; [| |eapply Rq_r; [exact Hr|exact HR]]; [done|]. intros id.
  unfold bind in Hrest. destruct (emit_start a async tc s1) as [? s2].
  destruct (emit_end a async tc _ _ s2) as [? s3]. injection Hrest as <- <-. unfold none. simpl. lia.
Qed.

Lemma dispatch_once dur id name key replay tc rt s : c_ToolUseID tc = id -> durable_of s = dur ->
  Rq (pend dur tc (PClaimed rt key replay)) none s (s <| st_trace := st_trace s ++ [EffDispatch dur id name key replay] |>).
Proof.
  intros Hid Hdur. exists [EffDispatch dur id name key replay]. split_and!; [done..|]. intros p Hp. destruct dur, replay; simpl in *.
  - exists p. split; [apply run_quiet; [done|constructor]|]. unfold none. lia.
  - exists (used id p). specialize (Hp id) as Hpi. rewrite Hid, bool_decide_true in Hpi by done. split; [apply run_dispatch; [lia|constructor]|].
    intros k. unfold used, none. specialize (Hp k). rewrite Hid in *. lia.
  - exists p. split; [apply run_quiet; [done|constructor]|]. unfold none. lia.
  - exists p. split; [apply run_quiet; [done|constructor]|]. unfold none. lia.
Qed.

Lemma run_once async tc t rt key replay s :
  Rq (pend (durable_of s) tc (PClaimed rt key replay)) none s (snd (executeCall_run a async tc t rt key replay s)).
Proof.
  unfold executeCall_run. destruct t as [t|].
  2:{ eapply Rq_weaken; [| |by apply (Rq_eq none)]; intros id; unfold none; lia. }
  unfold bind at 1. pose proof (keeps_emit_start a R0 quiet ops async tc s) as H1s.
  destruct (emit_start a async tc s) as [[] s1]. cbn [snd] in H1s.
  assert (Hd : durable_of s1 = durable_of s) by (by destruct H1s as (? & ? & _)).
  eapply Rq_l; [exact H1s|]. rewrite <- Hd.
  unfold bind at 1, getR. cbn beta iota. unfold bind, note. cbn beta iota.
  eapply Rq_r; [by apply dispatch_once|apply (keeps_executeCall_finish a R0 quiet ops)].
Qed.

Lemma pend_not_claimed dur tc p id : not_claimed p -> pend dur tc p id = 0%nat.
Proof. by destruct p. Qed.

Lemma advance_once async tc t d p s :
  Rq (pend (durable_of s) tc p) (pend (durable_of s) tc (fst (advance a async tc t d p s))) s (snd (advance a async tc t d p s)).
Proof.
  destruct p as [|rt|rt key rp|o]; simpl advance.
  - eapply Rq_weaken; [| |apply (keeps_executeCall_check a R0 quiet ops)]; intros id; [unfold none; lia|].
    rewrite !pend_not_claimed; [done|done|apply check_not_claimed].
  - eapply Rq_weaken; [| |eapply claim_once, surjective_pairing]; intros id; simpl; unfold none; lia.
  - eapply Rq_weaken; [| |apply run_once]; intros id; [done|].
    rewrite (pend_not_claimed _ _ (fst _)); [unfold none; lia|apply run_not_claimed].
  - by apply Rq_eq.
Qed.

Fixpoint total (dur : bool) (jobs : list (job (W := W))) (ps : list phase) (id : string) : nat :=
  match jobs, ps with
  | j :: jobs, p :: ps => pend dur (j_call j) p id + total dur jobs ps id
  | _, _ => 0
  end.

Lemma total_insert dur jobs ps i j p p' id : jobs !! i = Some j -> ps !! i = Some p ->
  (total dur jobs (<[i := p']> ps) id + pend dur (j_call j) p id = total dur jobs ps id + pend dur (j_call j) p' id)%nat.
Proof.
  revert ps i. induction jobs as [|j0 jobs IH]; intros [|p0 ps] [|i] Hj Hp; simpl in *; try done.
  - injection Hj as ->. injection Hp as ->. lia.
  - specialize (IH ps i Hj Hp). lia.
Qed.

Lemma total_part dur jobs ps i j p id : jobs !! i = Some j -> ps !! i = Some p -> (pend dur (j_call j) p id <= total dur jobs ps id)%nat.
Proof.
  revert ps i. induction jobs as [|j0 jobs IH]; intros [|p0 ps] [|i] Hj Hp; simpl in *; try done.
  - injection Hj as ->. injection Hp as ->. lia.
  - specialize (IH ps i Hj Hp). lia.
Qed.

Lemma total_start dur jobs id : total dur jobs (map (fun _ => PStart) jobs) id = 0%nat.
Proof. induction jobs as [|j jobs IH]; simpl; [done|]. by rewrite IH. Qed.

(** [m] moves phases and keeps the account of pending dispatches. *)
Definition accounts (jobs : list (job (W := W))) (m : list phase -> M W (list phase)) : Prop := forall ps s,
  Rq (total (durable_of s) jobs ps) (total (durable_of s) jobs (fst (m ps s))) s (snd (m ps s)).

Lemma Rq_durable q q' s s' : Rq q q' s s' -> durable_of s' = durable_of s.
Proof. by intros (? & ? & _). Qed.

Lemma accounts_bind jobs m1 m2 : accounts jobs m1 -> accounts jobs m2 ->
  accounts jobs (fun ps => let! ps := m1 ps in m2 ps).
Proof.
  intros A1 A2 ps s. unfold bind. specialize (A1 ps s). destruct (m1 ps s) as [ps1 s1]. simpl in *.
  specialize (A2 ps1 s1). rewrite (Rq_durable _ _ _ _ A1) in A2. by eapply Rq_trans.
Qed.

Lemma accounts_ret jobs : accounts jobs (fun ps => ret ps).
Proof. intros ps s. by apply Rq_eq. Qed.

Lemma accounts_step jobs i : accounts jobs (fun ps => step_job a jobs ps i).
Proof.
  intros ps s. unfold step_job. destruct (jobs !! i) as [j|] eqn:Hj; [|apply accounts_ret].
  destruct (ps !! i) as [p|] eqn:Hp; [|apply accounts_ret].
  pose proof (advance_once true (j_call j) (j_tool j) (j_decision j) p s) as Ha. unfold bind.
  destruct (advance a true (j_call j) (j_tool j) (j_decision j) p s) as [p' s1]. simpl in *.
  eapply Rq_weaken; [| |exact Ha]; intros id; simpl; [by eapply total_part|].
  pose proof (total_insert (durable_of s) jobs ps i j p p' id Hj Hp). lia.
Qed.

Lemma accounts_drain jobs : accounts jobs (fun ps => drain a ;! ret ps).
Proof.
  intros ps s. assert (HR : silent s (snd (drain a s))) by apply silent_with_sink. unfold bind.
  destruct (drain a s) as [[] s1]. by apply Rq_eq.
Qed.

Lemma accounts_schedule limit jobs sched : accounts jobs (run_schedule a limit jobs sched).
Proof.
  induction sched as [|[i|] sched IH]; simpl.
  - apply accounts_ret.
  - intros ps. destruct (may_step limit ps i); [|apply IH].
    by apply (accounts_bind jobs (fun ps => step_job a jobs ps i)); [apply accounts_step|].
  - intros ps s. pose proof (accounts_bind jobs _ _ (accounts_drain jobs) IH ps s) as Hd.
    unfold bind in *. by destruct (drain a s) as [[] s1].
Qed.

Lemma accounts_finish jobs idxs : accounts jobs (finish_jobs a jobs idxs).
Proof.
  induction idxs as [|i idxs IH]; simpl; [apply accounts_ret|].
  repeat (apply (accounts_bind jobs (fun ps => step_job a jobs ps i)); [apply accounts_step|]). exact IH.
Qed.

Lemma runParallel_once jobs : keeps R0 (runParallel a jobs).
Proof.
  intros s. unfold runParallel. unfold bind at 1.
  assert (RS : R0 s (snd (world (a_schedule a) s))) by (apply Rq_eq, silent_world).
  destruct (world (a_schedule a) s) as [sched s0]. simpl in RS. transitivity s0; [exact RS|].
  pose proof (accounts_bind jobs _ _ (accounts_schedule (concurrentLimit a) jobs sched)
    (accounts_finish jobs (seq 0 (length jobs))) (map (fun _ => PStart) jobs) s0) as Ha.
  unfold bind in *. destruct (run_schedule a (concurrentLimit a) jobs sched _ s0) as [ps1 s1].
  destruct (finish_jobs a jobs _ ps1 s1) as [ps2 s2]. simpl in Ha.
  assert (HR : R0 s2 (snd (drain a s2))) by (apply Rq_eq, silent_with_sink).
  destruct (drain a s2) as [[] s3]. simpl in *. transitivity s2; [|exact HR].
  eapply Rq_weaken; [| |exact Ha]; intros id; simpl; rewrite total_start; unfold none; lia.
Qed.

Lemma executeCall_once async tc t d : keeps R0 (executeCall a async tc t d).
Proof.
  intros s. unfold executeCall, bind.
  pose proof (advance_once async tc t d PStart s) as R1.
  destruct (advance a async tc t d PStart s) as [p1 s1]. cbn [fst snd] in *.
  pose proof (advance_once async tc t d p1 s1) as R2. rewrite (Rq_durable _ _ _ _ R1) in R2.
  destruct (advance a async tc t d p1 s1) as [p2 s2]. cbn [fst snd] in *.
  pose proof (advance_once async tc t d p2 s2) as R3. rewrite (Rq_durable _ _ _ _ R2), (Rq_durable _ _ _ _ R1) in R3.
  destruct (advance a async tc t d p2 s2) as [p3 s3]. cbn [fst snd] in *.
  eapply Rq_weaken; [| |exact (Rq_trans _ _ _ _ _ _ R1 (Rq_trans _ _ _ _ _ _ R2 R3))]; intros id; unfold none; simpl; lia.
Qed.

Lemma executeBatch_once calls available ds : keeps R0 (executeBatch a calls available ds).
Proof.
  pose proof R0_stable as HS.
  assert (Hseq : forall jobs, keeps R0 (runSequential a jobs)).
  { induction jobs as [|j jobs IH]; simpl; keeps_tac. apply executeCall_once. }
  assert (Hjobs : forall jobs, keeps R0 (run_jobs a jobs)).
  { intros jobs. unfold run_jobs. destruct (_ && _); [apply runParallel_once|apply Hseq]. }
  unfold executeBatch. keeps_tac.
Qed.

End Once.

Section Theorems.
Context {W : Type} (a : Agent W) `{Hashing} `{JSONLib} `{Texts}.
Hypothesis Hfaith : forall es, a_executionStore a = Some es -> FaithfulSave es.

(** What an engine does to a record by itself: anything but an operator's Retry. *)
Definition engine_op (o : op) : Prop := match o with OpRetry _ => False | _ => True end.

(** A turn refines the protocol: its effects are a run of the machine from the record it starts with, with no claim
    pending, to the record it ends with. *)
Definition turn_ok (s s' : St W) : Prop := exists t p,
  st_trace s' = st_trace s ++ t /\
  protocol_run engine_op (r_execution (st_run s)) none t (r_execution (st_run s')) p.

Lemma turn_ok_R0 s s' : R0 engine_op s s' -> turn_ok s s'.
Proof. intros (t & D & T & P). destruct (P none (fun _ => le_n _)) as (p & Hp & _). by exists t, p. Qed.

Lemma freshTurn_R0 input s : R0 engine_op s (snd (freshTurn a input s)).
Proof.
  pose proof (R0_stable a engine_op Hfaith) as HS. apply (keeps_freshTurn a (R0 engine_op) quiet engine_op); try done.
  intros ? ? ?. by apply executeBatch_once.
Qed.

Lemma resumeTurn_R0 i resp s : R0 engine_op s (snd (resumeTurn a i resp s)).
Proof.
  pose proof (R0_stable a engine_op Hfaith) as HS. apply (keeps_resumeTurn a (R0 engine_op) quiet engine_op); try done.
  intros ? ? ?. by apply executeBatch_once.
Qed.

(** C1. The engine refines the execution protocol: the effects of a fresh turn, in their order, are a run of the
    protocol machine.  Each record that the store acknowledges comes from the one before it by exactly one protocol
    operation (a plan, a claim, or one that neither plans nor claims; never a Retry) up to what storage does to a
    record, so that no step is hidden between saves; a first claim allows one first run of that call's handler, and no
    handler of a durable call is run for the first time without using up such a claim, acknowledged before it; the
    record the turn ends with is the last one acknowledged. *)
Theorem freshTurn_refines_protocol input s : turn_ok s (snd (freshTurn a input s)).
Proof. apply turn_ok_R0, freshTurn_R0. Qed.

(** The same for a turn resumed after an interrupt. *)
Theorem resumeTurn_refines_protocol i resp s : turn_ok s (snd (resumeTurn a i resp s)).
Proof. apply turn_ok_R0, resumeTurn_R0. Qed.

Definition no_grant (o : op) : Prop := match o with OpPlan _ | OpRetry _ => False | _ => True end.

Lemma no_grant_none id o : no_grant o -> is_grant id o = false.
Proof. by destruct o. Qed.

Lemma recover_R0 ms s : R0 no_grant s (snd (recover_batch a ms s)).
Proof.
  pose proof (R0_stable a no_grant Hfaith) as HS.
  apply (keeps_recover_batch a (R0 no_grant) quiet no_grant); try done.
  intros ? ? ?. by apply executeBatch_once.
Qed.

(** C3. At most once under recovery: recovering a batch runs a handler for the first
    time at most once per call, and never for a call whose record says in flight or
    completed (such a call can only be replayed, under the same key). *)
Theorem recovery_at_most_once ms s x callID : r_execution (st_run s) = Some x ->
  exists t, st_trace (snd (recover_batch a ms s)) = st_trace s ++ t /\
    (dispatches callID t <= claimable callID x)%nat.
Proof.
  intros Hx. destruct (recover_R0 ms s) as (t & D & T & P). exists t. split; [done|].
  destruct (P none (fun _ => le_n _)) as (p & Hp & _). rewrite Hx in Hp.
  pose proof (protocol_run_dispatches _ _ _ _ _ _ callID Hp (no_grant_none callID)) as Hd. cbn [right_to] in Hd. unfold none in Hd. lia.
Qed.

(** Every record acknowledged since [s] is well-formed, and so is the run's own. *)
Definition saves_ok (s s' : St W) : Prop := exists t, st_trace s' = st_trace s ++ t /\
  (forall y, EffSave y ∈ t -> batch_ok y) /\
  (forall y, r_execution (st_run s') = Some y -> batch_ok y).

Lemma saves_ok_R0 ops s s' x : R0 ops s s' -> r_execution (st_run s) = Some x -> batch_ok x -> saves_ok s s'.
Proof.
  intros (t & D & T & P) Hx Hok. exists t. split; [done|]. destruct (P none (fun _ => le_n _)) as (p & Hp & _).
  apply (protocol_run_batch_ok _ _ _ _ _ _ Hp). rewrite Hx. by intros y [= <-].
Qed.

(** C5. The record invariant: whatever a fresh turn, a resumed turn or a recovery
    does, every record it gets acknowledged has distinct non-empty call IDs in its
    batch, each with the idempotency key of this execution and call. *)
Theorem engine_keeps_records_wf input i resp ms s x :
  r_execution (st_run s) = Some x -> batch_ok x ->
  saves_ok s (snd (freshTurn a input s)) /\ saves_ok s (snd (resumeTurn a i resp s)) /\
  saves_ok s (snd (recover_batch a ms s)).
Proof.
  intros Hx Hok. split_and!; (eapply saves_ok_R0; [|exact Hx|exact Hok]).
  - apply freshTurn_R0.
  - apply resumeTurn_R0.
  - apply recover_R0.
Qed.

End Theorems.
