(* ===== verification/Outcomes.v ===== *)
(** Quantities of an invocation: provider attempts are bounded by the iteration
    limit, and every rate-limit reservation is settled exactly once. *)
From S2P Require Import Prelude Errors Messages Normalize TurnMessages Execution Schema Tool.
From S2P Require Import Inference Stores EventSink State ToolBatch ToolExec Engine Structured.
From S2P Require Import Recovery BatchProps Protocol Reason.

Definition is_provider (e : Effect) : bool := match e with EffProvider _ => true | _ => false end.

(** Provider attempts in a trace. *)
Definition attempts (tr : list Effect) : nat := length (List.filter is_provider tr).

Lemma attempts_app t1 t2 : attempts (t1 ++ t2) = (attempts t1 + attempts t2)%nat.
Proof. unfold attempts. by rewrite List.filter_app, length_app. Qed.

Section Bounds.
Context {W : Type} (a : Agent W) `{Hashing} `{JSONLib} `{Texts}.

(** ** Provider attempts *)

Definition Rattempts (s s' : St W) : Prop := attempts (st_trace s') = attempts (st_trace s).
Definition no_attempt (e : Effect) : Prop := is_provider e = false.

#[local] Instance Rattempts_stable : Stable a Rattempts no_attempt any_op.
Proof.
  unfold Rattempts. split.
  - split; [by intros s|]. intros s1 s2 s3. congruence.
  - intros s s' [Ht _]. by rewrite Ht.
  - intros s e He. cbn [st_trace set_field]. rewrite attempts_app. unfold attempts at 2. simpl.
    rewrite He. simpl. lia.
  - intros B change s _. apply update_by_trace.
    + split; [by intros ?|]. intros s1 s2 s3. congruence.
    + intros s1 s2 Ht _. by rewrite Ht.
    + intros s1 x. cbn [st_trace set_field]. rewrite attempts_app. unfold attempts at 2. simpl. lia.
Qed.

Lemma batch_attempts calls available ds : keeps Rattempts (executeBatch a calls available ds).
Proof. by apply (keeps_executeBatch a Rattempts no_attempt any_op). Qed.

(** [m] performs at most [n] attempts. *)
Definition at_most {A} (n : nat) (m : M W A) : Prop := forall s,
  (attempts (st_trace (snd (m s))) <= attempts (st_trace s) + n)%nat.

Lemma at_most_keeps {A} n (m : M W A) : keeps Rattempts m -> at_most n m.
Proof. intros Hm s. rewrite (Hm s). lia. Qed.

Lemma at_most_bind {A B} n1 n2 (m : M W A) (k : A -> M W B) :
  at_most n1 m -> (forall x, at_most n2 (k x)) -> at_most (n1 + n2) (bind m k).
Proof.
  intros Hm Hk s. unfold bind. specialize (Hm s). destruct (m s) as [x s1]. specialize (Hk x s1).
  simpl in *. lia.
Qed.

Lemma at_most_bind_l {A B} n (m : M W A) (k : A -> M W B) :
  at_most n m -> (forall x, keeps Rattempts (k x)) -> at_most n (bind m k).
Proof.
  intros Hm Hk. rewrite <- (Nat.add_0_r n). apply at_most_bind; [done|]. intros x. apply at_most_keeps, Hk.
Qed.

Lemma at_most_bind_r {A B} n (m : M W A) (k : A -> M W B) :
  keeps Rattempts m -> (forall x, at_most n (k x)) -> at_most n (bind m k).
Proof. intros Hm Hk. apply (at_most_bind 0 n); [by apply at_most_keeps|done]. Qed.

Lemma callProvider_once req q : at_most 1 (callProvider a req q).
Proof.
  assert (Hatt : at_most 1 (attempt a req q)).
  { unfold attempt. pose proof Rattempts_stable.
    assert (Hev : forall evs, keeps Rattempts (emit_model_events a evs)).
    { intros evs. by apply (keeps_emit_model_events a Rattempts no_attempt any_op). }
    apply at_most_bind_l; [|intros ?; keeps_tac].
    intros s. cbn [snd note st_trace set_field]. rewrite attempts_app. unfold attempts at 2. simpl. lia. }
  pose proof Rattempts_stable. unfold callProvider. destruct (a_rateLimiter a) as [rl|]; [|done].
  apply at_most_bind_r; [keeps_tac|]. intros key. unfold bindR.
  apply at_most_bind_r; [keeps_tac|]. intros [lease|e]; [|apply at_most_keeps; keeps_tac].
  apply at_most_bind_l; [done|]. intros r. keeps_tac; done.
Qed.

Lemma loop_body_once it t sys cfg : at_most 1 (loop_body a it t sys cfg).
Proof.
  pose proof Rattempts_stable as HS. pose proof batch_attempts as Hbatch.
  unfold loop_body. apply at_most_bind_r; [keeps_tac|]. intros _.
  apply at_most_bind_r; [keeps_tac|]. intros [e|]; [apply at_most_keeps; keeps_tac|].
  apply at_most_bind_r; [by apply (keeps_emitLifecycle a Rattempts no_attempt any_op)|]. intros _.
  apply at_most_bind_r; [by apply (keeps_visible a Rattempts no_attempt any_op)|]. intros [specs av].
  apply at_most_bind_r; [by apply (keeps_modelTurnMessages a Rattempts no_attempt any_op)|].
  intros [view|e]; [|apply at_most_keeps; keeps_tac; by apply (keeps_endIteration a Rattempts no_attempt any_op)].
  apply at_most_bind_r; [by apply (keeps_emitLifecycle a Rattempts no_attempt any_op)|]. intros _.
  apply at_most_bind_l; [apply callProvider_once|]. intros [resp|e];
    [|by apply (keeps_provider_failed a Rattempts no_attempt any_op)].
  assert (Htools : forall t', keeps Rattempts (run_tool_batch a it resp av t')).
  { intros t'. by apply (keeps_run_tool_batch a Rattempts no_attempt any_op). }
  keeps_tac; first
    [ by apply (keeps_emitLifecycle a Rattempts no_attempt any_op)
    | by apply (keeps_persistRuntimeProgress a Rattempts no_attempt any_op)
    | by apply (keeps_endIteration a Rattempts no_attempt any_op)
    | by apply (keeps_final_answer a Rattempts no_attempt any_op)
    | by apply (keeps_record_tool_uses a Rattempts no_attempt any_op) ].
Qed.

Lemma loop_bounded n it t sys cfg : at_most n (loop a n it t sys cfg).
Proof.
  pose proof Rattempts_stable as HS. revert it t. induction n as [|n IH]; intros it t; cbn [loop].
  - apply at_most_keeps. keeps_tac. by apply (keeps_emitLifecycle a Rattempts no_attempt any_op).
  - change (S n) with (1 + n)%nat. apply at_most_bind; [apply loop_body_once|].
    intros [t'|out]; [apply IH|]. apply at_most_keeps. keeps_tac.
Qed.

(** C30. One turn makes at most as many provider attempts as iterations are left of the
    configured limit, whatever the provider, the tools and the stores do. *)
Theorem loopTurn_attempts_bounded t cfg s :
  (attempts (st_trace (snd (loopTurn a t cfg s))) <=
   attempts (st_trace s) + Z.to_nat (a_maxIterations a - r_iteration (st_run s)))%nat.
Proof. apply loop_bounded. Qed.

End Bounds.

(** * Reservations

    A log of the calls that the limiter received, which nothing else of the world touches. *)
Inductive LimiterCall (L : Type) : Type :=
| CallReserve (key : string) (req : ModelRequest) (answer : res (option L))
| CallCommit (lease : L) (usage : TokenUsage) (answer : res unit)
| CallRelease (lease : L) (answer : res unit).
Arguments CallReserve {L} key req answer.
Arguments CallCommit {L} lease usage answer.
Arguments CallRelease {L} lease answer.

Section Leases.
Context {W : Type} (a : Agent W) (rl : RateLimiter W) (calls : W -> list (LimiterCall (rl_Lease rl))).
Class LimiterLog := {
  log_reserve : forall key req w, let '(r, w') := rl_Reserve rl key req w in calls w' = calls w ++ [CallReserve key req r];
  log_commit : forall lease u w, let '(r, w') := rl_Commit rl lease u w in calls w' = calls w ++ [CallCommit lease u r];
  log_release : forall lease w, let '(r, w') := rl_Release rl lease w in calls w' = calls w ++ [CallRelease lease r];
  log_events : forall req w, calls (pv_Events (a_provider a) req w).2 = calls w;
  log_answer : forall req e w, calls (pv_Answer (a_provider a) req e w).2 = calls w;
  log_yield : forall ev err w, calls (a_yield a ev err w).2 = calls w }.
Context `{!LimiterLog}.

Lemma emit_log async ev s : let s' := (emit a async ev s).2 in calls (st_world s') = calls (st_world s) /\ st_trace s' = st_trace s.
Proof.
  unfold emit, with_sink. destruct (st_sink s) as [sk|]; [|done].
  assert (Hw : forall sk' w, (if async then (sink_enqueue ev sk, st_world s) else let '(_, sk, w) := sink_emit (a_yield a) ev sk (st_world s) in (sk, w)) = (sk', w) ->
    calls w = calls (st_world s)).
  { intros sk' w. destruct async; [by intros [= _ <-]|]. unfold sink_emit. destruct (_ || _); [by intros [= _ <-]|].
    pose proof (log_yield ev None (st_world s)) as Hy. destruct (a_yield a ev None (st_world s)) as [[] w0]; by intros [= _ <-]. }
  destruct (if async then _ else _) as [sk' w] eqn:E. specialize (Hw _ _ eq_refl). destruct (_ && _); [|done].
  unfold ctx_cancel. cbn [st_ctxerr set_field]. by destruct (st_ctxerr s).
Qed.

Lemma emit_model_events_log evs s : let s' := (emit_model_events a evs s).2 in calls (st_world s') = calls (st_world s) /\ st_trace s' = st_trace s.
Proof.
  revert s. induction evs as [|ev evs IH]; intros s; [done|]. cbv zeta.
  destruct ev as [t|t]; cbn [emit_model_events]; unfold bind;
    [pose proof (emit_log false (EventText t) s) as He; destruct (emit a false (EventText t) s) as [[] s1]
    |pose proof (emit_log false (EventThinking t) s) as He; destruct (emit a false (EventThinking t) s) as [[] s1]];
    cbv zeta in He; cbn [snd] in He; destruct He as [<- <-]; apply IH.
Qed.

Lemma attempt_log req q s : let '(r, s') := attempt a req q s in
  calls (st_world s') = calls (st_world s) /\ st_trace s' = st_trace s ++ [EffProvider req] /\
  exists e w, r = (pv_Answer (a_provider a) req e w).1.
Proof.
  unfold attempt, bind at 1, note. unfold bind at 1, world at 1. cbn [st_world set_field]. pose proof (log_events req (st_world s)) as Hev.
  destruct (pv_Events (a_provider a) req (st_world s)) as [evs w1]. cbn [snd] in Hev. unfold bind.
  match goal with |- context [(if q then _ else _) ?x] => set (s1 := x) end.
  assert (Hs2 : exists s2, (if q then ret tt else emit_model_events a evs) s1 = (tt, s2) /\ calls (st_world s2) = calls (st_world s) /\ st_trace s2 = st_trace s ++ [EffProvider req]).
  { destruct q; [by exists s1|]. pose proof (emit_model_events_log evs s1) as He. destruct (emit_model_events a evs s1) as [[] s2].
    exists s2. cbv zeta in He. cbn [snd] in He. destruct He as [-> ->]. done. }
  destruct Hs2 as (s2 & -> & Hw2 & Ht2). assert (Hs3 : exists e s3, ctx_Err a s2 = (e, s3) /\ st_world s3 = st_world s2 /\ st_trace s3 = st_trace s2).
  { unfold ctx_Err. destruct (st_ctxerr s2) as [e|]; by eexists _, _. }
  destruct Hs3 as (e & s3 & -> & Hw3 & Ht3). unfold world. pose proof (log_answer req e (st_world s3)) as Ha.
  destruct (pv_Answer (a_provider a) req e (st_world s3)) as [r w4] eqn:Hp. cbn [snd st_world st_trace set_field] in *.
  split_and!; [congruence|congruence|]. exists e, (st_world s3). by rewrite Hp.
Qed.

(** The calls that a provider call makes on the limiter after the reservation, and its result, for an answer of the
    provider: Commit with the confirmed usage after a success, Release after a failure, on the lease of the reservation;
    an error of the settlement is the result, or joins the provider's. *)
Inductive settled : option (rl_Lease rl) -> res ModelResponse -> list (LimiterCall (rl_Lease rl)) -> res ModelResponse -> Prop :=
| settled_none r : settled None r [] r
| settled_commit lease resp : settled (Some lease) (Ok resp) [CallCommit lease (mr_Usage resp) (Ok tt)] (Ok resp)
| settled_commit_error lease resp e : settled (Some lease) (Ok resp) [CallCommit lease (mr_Usage resp) (Err e)] (Err e)
| settled_release lease e : settled (Some lease) (Err e) [CallRelease lease (Ok tt)] (Err e)
| settled_release_error lease e e' : settled (Some lease) (Err e) [CallRelease lease (Err e')] (Err (EJoin e e')).

(** C29. Every provider call reserves once and settles what it reserved exactly once, by the right operation: the
    limiter receives one Reserve for the request; if that fails nothing else happens, no attempt is made and its error
    is the result; otherwise one attempt is made and then the lease of this reservation, if there is one, is settled by
    exactly one call, a Commit with the usage of the response when the provider succeeded and a Release when it failed.
    An error of the Commit replaces the response, one of the Release joins the provider's error. *)
Theorem callProvider_settles req q s r s' : a_rateLimiter a = Some rl -> callProvider a req q s = (r, s') ->
  exists key reserved, match reserved with
  | Err e => r = Err e /\ calls (st_world s') = calls (st_world s) ++ [CallReserve key req reserved] /\ st_trace s' = st_trace s
  | Ok lease => exists e w settlement, settled lease (pv_Answer (a_provider a) req e w).1 settlement r /\
      calls (st_world s') = calls (st_world s) ++ CallReserve key req reserved :: settlement /\
      st_trace s' = st_trace s ++ [EffProvider req]
  end.
Proof.
  intros Hrl Hcall. unfold callProvider in Hcall. rewrite Hrl in Hcall. unfold bind at 1, peek in Hcall. set (key := match a_rateLimitKey a with Some k => k (st_world s) | None => "" end) in Hcall.
  unfold bindR, bind at 1, world at 1 in Hcall. pose proof (log_reserve key req (st_world s)) as Hr.
  destruct (rl_Reserve rl key req (st_world s)) as [reserved w1]. exists key, reserved. destruct reserved as [lease|e]; [|by injection Hcall as <- <-].
  unfold bind at 1 in Hcall. pose proof (attempt_log req q (s <| st_world := w1 |>)) as Ha. destruct (attempt a req q _) as [ans s2].
  cbn [st_world st_trace set_field] in Ha. destruct Ha as (Hw & Ht & e & w & Hans). exists e, w. rewrite <- Hans.
  destruct lease as [lease|]; [destruct ans as [resp|pe]|].
  - unfold bind, world in Hcall. pose proof (log_commit lease (mr_Usage resp) (st_world s2)) as Hc.
    destruct (rl_Commit rl lease (mr_Usage resp) (st_world s2)) as [[[]|ce] w3]; injection Hcall as <- <-; cbn [st_world st_trace set_field];
      (eexists; split_and!; [constructor| |done]); by rewrite Hc, Hw, Hr, <- app_assoc.
  - unfold bind, world in Hcall. pose proof (log_release lease (st_world s2)) as Hc.
    destruct (rl_Release rl lease (st_world s2)) as [[[]|ce] w3]; injection Hcall as <- <-; cbn [st_world st_trace set_field];
      (eexists; split_and!; [constructor| |done]); by rewrite Hc, Hw, Hr, <- app_assoc.
  - assert (r = ans /\ s' = s2) as [-> ->] by (by destruct ans; injection Hcall as <- <-). eexists. split_and!; [constructor| |done]. by rewrite Hw, Hr.
Qed.
End Leases.


(** The outcomes of a tool batch: whatever the schedule of parallel handlers, every
    call finishes in at most three steps and the outcomes come back one per call, in
    the order of the calls, each with the result of its own call. *)

(** A definitive outcome answers its own call. *)
Definition outcome_ok (tc : Call) (o : toolOutcome) : Prop :=
  to_kind o = toolOutcomeDefinitive -> tr_ToolUseID (to_result o) = c_ToolUseID tc.

(** Steps that a call still has to take, at most. *)
Definition rank (p : phase) : nat :=
  match p with PStart => 3 | PChecked _ => 2 | PClaimed _ _ _ => 1 | PDone _ => 0 end.

(** A finished call has an outcome of its own. *)
Definition phase_good (tc : Call) (n : nat) (p : phase) : Prop :=
  (rank p <= n)%nat /\ match p with PDone o => outcome_ok tc o | _ => True end.

Lemma returns_bind_with {W A B} (P : A -> Prop) (Q : B -> Prop) (m : M W A) (k : A -> M W B) :
  returns P m -> (forall x, P x -> returns Q (k x)) -> returns Q (bind m k).
Proof. intros Hm Hk s. unfold bind. specialize (Hm s). destruct (m s) as [x s1]. by apply Hk. Qed.

Lemma returns_weaken {W A} (P Q : A -> Prop) (m : M W A) : (forall x, P x -> Q x) -> returns P m -> returns Q m.
Proof. intros HPQ Hm s. apply HPQ, Hm. Qed.

Section Outcomes.
Context {W : Type} (a : Agent W) `{Hashing} `{JSONLib} `{Texts}.

Lemma fail_call_ok async tc c k : returns (outcome_ok tc) (fail_call a async tc c k).
Proof. unfold fail_call. returns_tac. done. Qed.

Lemma returns_fail async tc c k n : returns (phase_good tc n) (let! o := fail_call a async tc c k in ret (PDone o)).
Proof.
  eapply returns_bind_with; [apply fail_call_ok|]. intros o Ho. apply returns_ret. split; [simpl; lia|done].
Qed.

Lemma check_good async tc t d : returns (phase_good tc 2) (executeCall_check a async tc t d).
Proof.
  unfold executeCall_check. apply returns_bind. intros durable. apply returns_bind. intros r.
  destruct t as [t|]; [|apply returns_fail].
  destruct (match d with Some d => negb (d_Allow d) | None => false end); [apply returns_fail|].
  destruct (negb _); [apply returns_fail|]. destruct (ValidateToolInput _ _); [|apply returns_fail].
  apply returns_bind. intros [dd rt]. destruct (negb _); [apply returns_fail|].
  destruct (_ && _); apply returns_ret; split; simpl; done || lia.
Qed.

Lemma claim_good async tc rt : returns (phase_good tc 1) (executeCall_claim a async tc rt).
Proof.
  unfold executeCall_claim. apply returns_bind. intros [[key rp]|e].
  - apply returns_ret. split; simpl; [lia|done].
  - do 2 (apply returns_bind; intros []). apply returns_ret. split; [simpl; lia|].
    intros Hk. by destruct (errors_Is e ErrToolExecutionUncertain).
Qed.

Lemma run_good async tc t rt key rp : returns (phase_good tc 0) (executeCall_run a async tc t rt key rp).
Proof.
  unfold executeCall_run, executeCall_finish. destruct t as [t|]; [|by apply returns_ret].
  returns_tac; (split; [simpl; lia|]); intros Hk; done.
Qed.

Lemma advance_good async tc t d n p : phase_good tc n p -> returns (phase_good tc (pred n)) (advance a async tc t d p).
Proof.
  intros [Hn Hp] s. destruct p as [|rt|rt key rp|o]; simpl in *.
  - destruct (check_good async tc t d s). split; [lia|done].
  - destruct (claim_good async tc rt s). split; [lia|done].
  - destruct (run_good async tc t rt key rp s). split; [lia|done].
  - split; [simpl; lia|done].
Qed.

Lemma executeCall_outcome async tc t d : returns (outcome_ok tc) (executeCall a async tc t d).
Proof.
  unfold executeCall.
  eapply returns_bind_with; [apply (advance_good _ _ _ _ 3); split; simpl; done || lia|]. intros p1 H1'.
  eapply returns_bind_with; [by apply (advance_good _ _ _ _ 2)|]. intros p2 H2'.
  eapply returns_bind_with; [by apply (advance_good _ _ _ _ 1)|]. intros p3 [H3' H4'].
  apply returns_ret. destruct p3; simpl in *; try lia. done.
Qed.

(** ** Batches *)

(** Phases of the jobs, with a bound on the steps each still has to take. *)
Definition phases_good (jobs : list (job (W := W))) (bound : nat -> nat) (ps : list phase) : Prop :=
  length ps = length jobs /\
  forall i j p, jobs !! i = Some j -> ps !! i = Some p -> phase_good (j_call j) (bound i) p.

Lemma phases_good_weaken jobs b b' ps : (forall i, b i <= b' i)%nat -> phases_good jobs b ps -> phases_good jobs b' ps.
Proof.
  intros Hb [Hl Hp]. split; [done|]. intros i j p Hj Hi. destruct (Hp i j p Hj Hi) as [Hr Ho].
  split; [|done]. specialize (Hb i). lia.
Qed.

Definition lower (i : nat) (b : nat -> nat) : nat -> nat := fun k => if decide (k = i) then pred (b k) else b k.

Lemma step_job_good jobs ps i b : phases_good jobs b ps -> returns (phases_good jobs (lower i b)) (step_job a jobs ps i).
Proof.
  intros [Hl Hp]. unfold step_job.
  destruct (jobs !! i) as [j|] eqn:Hj.
  2:{ apply returns_ret. split; [done|]. intros k j' p Hj' Hk. unfold lower. destruct (decide (k = i)); [congruence|eauto]. }
  destruct (ps !! i) as [p|] eqn:Hpi; [|apply lookup_ge_None in Hpi; apply lookup_lt_Some in Hj; lia].
  eapply returns_bind_with; [apply advance_good; exact (Hp i j p Hj Hpi)|]. intros p' Hp'. apply returns_ret.
  split; [by rewrite length_insert|]. intros k j' q Hj' Hk. unfold lower. destruct (decide (k = i)) as [->|Hne].
  - rewrite list_lookup_insert_eq in Hk by (by eapply lookup_lt_Some). simplify_eq. done.
  - rewrite list_lookup_insert_ne in Hk by done. eauto.
Qed.

Lemma schedule_good limit jobs sched b ps : phases_good jobs b ps ->
  returns (phases_good jobs b) (run_schedule a limit jobs sched ps).
Proof.
  revert ps. induction sched as [|[i|] sched IH]; intros ps Hps; simpl.
  - by apply returns_ret.
  - destruct (may_step limit ps i); [|by apply IH].
    eapply returns_bind_with; [by apply step_job_good|]. intros ps' Hps'. apply IH.
    eapply phases_good_weaken; [|exact Hps']. intros k. unfold lower. destruct (decide (k = i)); lia.
  - apply returns_bind. intros _. by apply IH.
Qed.

Lemma finish_good jobs idxs b ps : (forall i, b i <= 3)%nat -> phases_good jobs b ps ->
  returns (phases_good jobs (fun i => if decide (i ∈ idxs) then 0 else b i)) (finish_jobs a jobs idxs ps).
Proof.
  revert b ps. induction idxs as [|i idxs IH]; intros b ps Hb Hps; simpl.
  - apply returns_ret. eapply phases_good_weaken; [|exact Hps]. intros k. cbv beta. destruct (decide (k ∈ [])); [set_solver|lia].
  - do 3 (eapply returns_bind_with; [by apply step_job_good|]; clear ps Hps; intros ps Hps; cbv beta in Hps).
    assert (Hb3 : forall k, (lower i (lower i (lower i b)) k <= if decide (k = i) then 0 else b k)%nat).
    { intros k. unfold lower. specialize (Hb k). destruct (decide (k = i)); lia. }
    eapply returns_weaken; cycle 1.
    + apply (IH (fun k => if decide (k = i) then 0 else b k)); [intros k; destruct (decide (k = i)); [lia|apply Hb]|].
      eapply phases_good_weaken; [exact Hb3|exact Hps].
    + intros ps'. apply phases_good_weaken. intros k. destruct (decide (k ∈ idxs)), (decide (k = i)),
        (decide (k ∈ i :: idxs)); set_solver || lia.
Qed.

(** All calls of a parallel run finish, whatever the schedule. *)
Lemma runParallel_outcomes jobs : returns (Forall2 outcome_ok (map j_call jobs)) (runParallel a jobs).
Proof.
  unfold runParallel. apply returns_bind. intros sched.
  eapply (returns_bind_with (phases_good jobs (fun _ => 3))).
  { apply schedule_good. split; [by rewrite length_map|]. intros i j p _ Hp.
    rewrite list_lookup_fmap in Hp. destruct (jobs !! i); simplify_eq/=. split; simpl; done || lia. }
  intros ps Hps. eapply returns_bind_with; [apply (finish_good jobs _ (fun _ => 3)); [intros; lia|exact Hps]|].
  intros ps' [Hl Hp]. apply returns_bind. intros _. apply returns_ret.
  apply Forall2_fmap. apply Forall2_same_length_lookup. split; [done|]. intros i j p Hj Hi.
  destruct (Hp i j p Hj Hi) as [Hr Ho]. rewrite decide_True in Hr.
  - destruct p; simpl in *; try lia. done.
  - apply elem_of_seq. apply lookup_lt_Some in Hj. lia.
Qed.

Lemma runSequential_outcomes jobs : returns (Forall2 outcome_ok (map j_call jobs)) (runSequential a jobs).
Proof.
  induction jobs as [|j jobs IH]; simpl; [apply returns_ret; constructor|].
  apply returns_bind. intros e. eapply (returns_bind_with (outcome_ok (j_call j))).
  - destruct e; [by apply returns_ret|apply executeCall_outcome].
  - intros o Ho. eapply returns_bind_with; [exact IH|]. intros os Hos. apply returns_ret. by constructor.
Qed.

Lemma run_jobs_outcomes jobs : returns (Forall2 outcome_ok (map j_call jobs)) (run_jobs a jobs).
Proof. unfold run_jobs. destruct (_ && _); [apply runParallel_outcomes|apply runSequential_outcomes]. Qed.

Lemma merge_good (f : job (W := W) -> bool) jobs xs ys :
  Forall2 outcome_ok (map j_call (List.filter f jobs)) xs ->
  Forall2 outcome_ok (map j_call (List.filter (fun j => negb (f j)) jobs)) ys ->
  Forall2 outcome_ok (map j_call jobs) (merge_outcomes (map f jobs) xs ys).
Proof.
  revert xs ys. induction jobs as [|j jobs IH]; intros xs ys Hx Hy; simpl in *; [constructor|].
  destruct (f j); simpl in *.
  - inversion Hx; subst. constructor; [done|]. by apply IH.
  - inversion Hy; subst. constructor; [done|]. by apply IH.
Qed.

Lemma executeBatch_ok calls available ds : returns (Forall2 outcome_ok calls) (executeBatch a calls available ds).
Proof.
  unfold executeBatch. set (jobs := imap _ calls).
  assert (Hj : map j_call jobs = calls).
  { unfold jobs. rewrite fmap_imap. etransitivity; [|apply list_fmap_id]. apply imap_const. }
  assert (Hrun := run_jobs_outcomes). rewrite <- Hj at 1.
  destruct ds as [ds|]; [apply Hrun|]. destruct (existsb _ _); [|apply Hrun].
  eapply returns_bind_with; [apply Hrun|]. intros os Hos. destruct (existsb _ os).
  - apply returns_ret. apply merge_good; [done|]. clear. induction (List.filter _ jobs); simpl; by constructor.
  - eapply returns_bind_with; [apply Hrun|]. intros rest Hrest. apply returns_ret. by apply merge_good.
Qed.

(** The IDs of result blocks. *)
Definition result_ids (blocks : list ContentBlock) : list string :=
  map tr_ToolUseID (omap as_tool_result blocks).

Lemma resultBlocks_sublist calls os : Forall2 outcome_ok calls os ->
  result_ids (resultBlocks os) `sublist_of` map c_ToolUseID calls.
Proof.
  unfold result_ids, resultBlocks. induction 1 as [|c o calls os Ho _ IH]; simpl; [constructor|].
  destruct (_ && _) eqn:E; simpl; [|by apply sublist_cons].
  bool_hyps. rewrite Ho by tauto. by apply sublist_skip.
Qed.

(** C6. Whatever the execution policy, the schedule of parallel handlers and the
    approval preflight, a batch returns one outcome per call, in the order of the
    calls, and each definitive outcome carries the result of its own call; so the
    result blocks written to the transcript follow the order of the tool uses. *)
Theorem executeBatch_outcomes calls available ds s :
  Forall2 outcome_ok calls (fst (executeBatch a calls available ds s)) /\
  result_ids (resultBlocks (fst (executeBatch a calls available ds s))) `sublist_of` map c_ToolUseID calls.
Proof. pose proof (executeBatch_ok calls available ds s) as Hok. split; [done|by apply resultBlocks_sublist]. Qed.

End Outcomes.
