(* ===== verification/Sample.v ===== *)
(** A concrete agent: the in-process conversation store, a compare-and-swap execution
    store, a scripted provider and a counting tool, with concrete instances of the
    library classes.  Runs evaluate in the kernel; they show that the hypotheses of
    the engine theorems can hold together, and that the bounds are reached. *)
From S2P Require Import Prelude Errors Messages Normalize TurnMessages Execution Schema Tool.
From S2P Require Import Inference Stores ConversationMemory EventSink State ToolBatch ToolExec Engine.
From S2P Require Import Structured Recovery BatchProps Protocol Reason Claims Once Outcomes.

(** * Libraries and world *)

#[export] Instance sample_hashing : Hashing := {| sha256_hex := fun s => s; json_canonical := fun s => Some s |}.
#[export] Instance sample_json : JSONLib := {|
  json_decode := fun _ => Some (AObj []); json_Valid := fun _ => true;
  sprint := fun _ => ""; reint_wide := fun a b => (a, b) |}.
#[export] Instance sample_texts : Texts := {| error_text := fun _ => "error"; denialResultJSON := fun _ r => r |}.

(** [sw_runs] counts runs of the tool's handler and [sw_seen] what the consumer got. *)
Record SW := mkSW {
  sw_conv : InMemory; sw_exec : gmap string Execution; sw_script : list (res ModelResponse);
  sw_runs : nat; sw_seen : list Event; sw_schedule : list SchedAct }.

#[global] Instance eta_SW : Settable SW := fun w =>
  mkSW (sw_conv w) (sw_exec w) (sw_script w) (sw_runs w) (sw_seen w) (sw_schedule w).

Definition on_conv {A} (f : InMemory -> res A * InMemory) (w : SW) : res A * SW :=
  let '(r, m) := f (sw_conv w) in (r, w <| sw_conv := m |>).

Definition sample_conv : ConversationStore SW :=
  mkConversationStore (fun c => on_conv (Load c)) (fun c n => on_conv (LoadAfter c n))
    (fun c d n => on_conv (Append c d n)).

Definition sample_create (x : Execution) (w : SW) : res Execution * SW :=
  match sw_exec w !! x_ID x with
  | Some _ => (Err (ESentinel ErrExecutionConflict), w)
  | None => let x := exec_map_raw cloneRaw x <| x_Version := 1%N |> in (Ok x, w <| sw_exec := <[x_ID x := x]> (sw_exec w) |>)
  end.

Definition sample_load (id : string) (w : SW) : res Execution * SW :=
  (match sw_exec w !! id with Some x => Ok x | None => Err (ESentinel ErrExecutionNotFound) end, w).

Definition sample_save (x : Execution) (v : N) (w : SW) : res Execution * SW :=
  match sw_exec w !! x_ID x with
  | None => (Err (ESentinel ErrExecutionConflict), w)
  | Some y =>
      if bool_decide (x_Version y = v) then
        let x := exec_map_raw cloneRaw x <| x_Version := (v + 1)%N |> in
        (Ok x, w <| sw_exec := <[x_ID x := x]> (sw_exec w) |>)
      else (Err (ESentinel ErrExecutionConflict), w)
  end.

Definition sample_exec : ExecutionStore SW := mkExecutionStore sample_create sample_load sample_save.

#[export, refine] Instance sample_faithful : FaithfulSave sample_exec := {| fs_norm := cloneRaw |}.
Proof.
  intros x v w x' w'. simpl. unfold sample_save. destruct (sw_exec w !! x_ID x) as [y|]; [|done].
  case_bool_decide; [|done]. intros [= <- <-]. by eexists.
Defined.

Definition sample_answer (req : ModelRequest) (err : option error) (w : SW) : res ModelResponse * SW :=
  match sw_script w with
  | [] => (Err (ENew "no more answers"), w)
  | r :: script => (r, w <| sw_script := script |>)
  end.

Definition sample_provider : Provider SW :=
  mkProvider "sample-model" (fun _ w => ([ModelEventText "thinking"], w)) sample_answer.

Definition sample_tool (replaySafe : bool) : Tool SW :=
  mkTool (mkSpec "count" "counts its runs" (Some (AObj [])))
    (Some (fun _ _ w => (([], Ok "counted"), w <| sw_runs := S (sw_runs w) |>))) None None false replaySafe None.

Definition sample_agent (replaySafe : bool) : Agent SW :=
  mkAgent sample_provider "be brief" (fun _ => {[ "count" := sample_tool replaySafe ]}) None 5 0 false 4
    (Some sample_conv) None (Some sample_exec) None false None (fun _ => "") [] [] [] (fun _ => [])
    None None (fun w => (Ok (repeat 7%N 16), w)) (fun _ => None)
    (fun ev _ w => (true, w <| sw_seen := sw_seen w ++ [ev] |>))
    (fun w => (sw_schedule w, w)).

Lemma sample_Hfaith replaySafe es : a_executionStore (sample_agent replaySafe) = Some es -> FaithfulSave es.
Proof. intros [= <-]. exact sample_faithful. Defined.

(** One model turn with two parallel calls, then the answer. *)
Definition sample_call (id : string) : Call := mkCall id "count" (Some "{}").
Definition sample_script : list (res ModelResponse) :=
  [Ok (mkResponse "" [sample_call "c1"; sample_call "c2"] (mkTokenUsage 3 2 0 0) None);
   Ok (mkResponse "two" [] (mkTokenUsage 5 1 0 0) None)].
Definition sample_world : SW :=
  mkSW ∅ ∅ sample_script 0 [] [SchedStep 0; SchedStep 1; SchedDrain; SchedStep 1; SchedStep 0].
Definition sample_cfg : invocationConfig :=
  mkConfig "conv" "exec" true false 0 [] [] None None "" false.
Definition sample_run := stream (sample_agent false) (InvokeInput "how many?") sample_cfg sample_world.

(** * A crash

    The world a crash leaves: the acknowledged writes of a run up to its first
    dispatch, nothing of what was in memory. *)
Definition is_any_dispatch (e : Effect) : bool := match e with EffDispatch _ _ _ _ _ => true | _ => false end.

Fixpoint before_dispatch (tr : list Effect) : list Effect :=
  match tr with
  | [] => []
  | e :: tr => if is_any_dispatch e then [] else e :: before_dispatch tr
  end.

Definition replay_effect (w : SW) (e : Effect) : SW :=
  match e with
  | EffCreate x | EffSave x => w <| sw_exec := <[x_ID x := x]> (sw_exec w) |>
  | EffAppend c d cu => w <| sw_conv := snd (Append c d (mem_rev (sw_conv w) c) (sw_conv w)) |>
  | _ => w
  end.

Definition crash_world (replaySafe : bool) : SW :=
  fold_left replay_effect
    (before_dispatch (st_trace (snd (stream (sample_agent replaySafe) (InvokeInput "how many?") sample_cfg sample_world))))
    (mkSW ∅ ∅ [] 0 [] []).

Definition recovered_state (replaySafe : bool) :=
  RecoverExecution (sample_agent replaySafe) "exec" (initial sample_cfg None (crash_world replaySafe)).

(** * Witnesses *)

(** Two handlers run, each after its claim. *)
Lemma invocation_claims_before_effects_witness :
  sw_runs (st_world (snd sample_run)) = 2 /\ claims_first (st_trace (snd sample_run)).
Proof.
  split; [vm_compute; reflexivity|].
  exact (invocation_claims_before_effects (sample_agent false) (sample_Hfaith false)
    (InvokeInput "how many?") sample_cfg sample_world).
Defined.

(** After the crash both replay-safe calls run again, each after a new claim. *)
Lemma recovery_claims_before_effects_witness :
  sw_runs (st_world (snd (recovered_state true))) = 2 /\ claims_first (st_trace (snd (recovered_state true))).
Proof.
  split; [vm_compute; reflexivity|].
  exact (recovery_claims_before_effects (sample_agent true) (sample_Hfaith true)
    "exec" sample_cfg (crash_world true)).
Defined.

(** The first turn of the sample, from the state in which the engine enters it. *)
Definition sample_execution : Execution :=
  (execution_zero "exec") <| x_ConversationID := "conv" |> <| x_Version := 1%N |>.
Definition sample_state : St SW :=
  mkSt ((fresh_run sample_cfg "conv") <| r_execution := Some sample_execution |> <| r_executionDurable := true |>)
    None usage_zero None (sample_world <| sw_exec := {[ "exec" := sample_execution ]} |>) [].

Lemma freshTurn_refines_protocol_witness :
  dispatches "c1" (st_trace (snd (freshTurn (sample_agent false) "how many?" sample_state))) = 1 /\
  turn_ok sample_state (snd (freshTurn (sample_agent false) "how many?" sample_state)).
Proof.
  split; [vm_compute; reflexivity|].
  exact (freshTurn_refines_protocol (sample_agent false) (sample_Hfaith false) "how many?" sample_state).
Defined.

(** A human-input pause, answered by the application. *)
Definition sample_interrupt : Interrupt :=
  mkInterrupt "exec" 1 InterruptHumanInput "conv" 0 0 None None.

Lemma resumeTurn_refines_protocol_witness :
  dispatches "c2" (st_trace (snd (resumeTurn (sample_agent false) sample_interrupt (Respond "go on") sample_state))) = 1 /\
  turn_ok sample_state (snd (resumeTurn (sample_agent false) sample_interrupt (Respond "go on") sample_state)).
Proof.
  split; [vm_compute; reflexivity|].
  exact (resumeTurn_refines_protocol (sample_agent false) (sample_Hfaith false)
    sample_interrupt (Respond "go on") sample_state).
Defined.

(** A limiter that keeps its calls in the world and numbers its leases, and a provider that answers once in two times. *)
Definition logging_limiter : RateLimiter (list (LimiterCall nat)) :=
  mkRateLimiter nat
    (fun key req w => let r := Ok (Some (length w)) in (r, w ++ [CallReserve key req r]))
    (fun lease u w => (Ok tt, w ++ [CallCommit lease u (Ok tt)]))
    (fun lease w => (Ok tt, w ++ [CallRelease lease (Ok tt)])).
Definition alternating (req : ModelRequest) (_ : option error) (w : list (LimiterCall nat)) : res ModelResponse * list (LimiterCall nat) :=
  (if bool_decide (length w = 1) then Ok (mkResponse "done" [] (mkTokenUsage 3 4 0 0) None) else Err (ENew "overloaded"), w).
Definition limited_agent : Agent (list (LimiterCall nat)) :=
  mkAgent (mkProvider "m" (fun _ w => ([ModelEventText "do"; ModelEventText "ne"], w)) alternating) "" (fun _ => ∅) None 5 0 false 4
    None None None None false None (fun _ => "") [] [] [] (fun _ => []) (Some logging_limiter) (Some (fun _ => "user"))
    (fun w => (Ok [], w)) (fun _ => None) (fun _ _ w => (true, w)) (fun w => ([], w)).
#[local] Instance limited_log : LimiterLog limited_agent logging_limiter (fun w => w).
Proof. by split. Qed.

Definition limited_request : ModelRequest := mkRequest [] "hello" [] None None.
Definition limited_state (w : list (LimiterCall nat)) : St (list (LimiterCall nat)) :=
  mkSt (fresh_run sample_cfg "") (Some newEventSink) usage_zero None w [].

(** The provider succeeds, then fails. *)
Definition limited_first := callProvider limited_agent limited_request false (limited_state []).
Definition limited_second := callProvider limited_agent limited_request false (snd limited_first).

Lemma callProvider_settles_witness :
  st_world (snd limited_first) = [CallReserve "user" limited_request (Ok (Some 0)); CallCommit 0 (mkTokenUsage 3 4 0 0) (Ok tt)] /\
  st_world (snd limited_second) = st_world (snd limited_first) ++ [CallReserve "user" limited_request (Ok (Some 2)); CallRelease 2 (Ok tt)] /\
  exists key reserved, match reserved with
  | Err e => fst limited_second = Err e /\
      st_world (snd limited_second) = st_world (snd limited_first) ++ [CallReserve key limited_request reserved] /\
      st_trace (snd limited_second) = st_trace (snd limited_first)
  | Ok lease => exists e w settlement, settled logging_limiter lease (pv_Answer (a_provider limited_agent) limited_request e w).1 settlement (fst limited_second) /\
      st_world (snd limited_second) = st_world (snd limited_first) ++ CallReserve key limited_request reserved :: settlement /\
      st_trace (snd limited_second) = st_trace (snd limited_first) ++ [EffProvider limited_request]
  end.
Proof.
  split; [vm_compute; reflexivity|]. split; [vm_compute; reflexivity|].
  unfold limited_second. exact (callProvider_settles limited_agent logging_limiter (fun w => w) limited_request false (snd limited_first) _ _
    eq_refl (surjective_pairing _)).
Defined.

(** Recovery of a batch of which one call was still to be claimed. *)
Definition half_claimed : Execution :=
  let call id status := mkToolExecution id "count" status (toolExecutionKey "exec" id) "{}" None false None in
  (execution_zero "exec") <| x_ConversationID := "conv" |> <| x_Version := 1%N |>
    <| x_Status := ExecutionRunning |> <| x_Phase := ExecutionPhaseTools |>
    <| x_ToolBatch := Some (mkToolBatch 1 [call "c1" ToolExecutionReady; call "c2" ToolExecutionCompleted] 1 1 None) |>.
Definition half_messages : list Message :=
  [toolUseMessage "" [sample_call "c1"; sample_call "c2"];
   mkMessage RoleUser [ToolResultBlk (mkToolResult "c2" "counted" false [])]].
Definition half_state : St SW :=
  mkSt ((recovery_run sample_cfg half_claimed 1) <| r_revision := 2%N |> <| r_lastSequence := 2%N |>
      <| r_persistedCount := 2 |>) None usage_zero None
    (mkSW (snd (Append "conv" (drop 1 half_messages) 1 (snd (Append "conv" (take 1 half_messages) 0 ∅))))
      {[ "exec" := half_claimed ]} [] 0 [] []) [].

Lemma recovery_at_most_once_witness :
  sw_runs (st_world (snd (recover_batch (sample_agent false) half_messages half_state))) = 1 /\
  claimable "c1" half_claimed = 1 /\ claimable "c2" half_claimed = 0 /\
  exists t, st_trace (snd (recover_batch (sample_agent false) half_messages half_state)) = st_trace half_state ++ t /\
    dispatches "c2" t <= claimable "c2" half_claimed.
Proof.
  split; [vm_compute; reflexivity|]. split; [vm_compute; reflexivity|]. split; [vm_compute; reflexivity|].
  exact (recovery_at_most_once (sample_agent false) (sample_Hfaith false) half_messages half_state
    half_claimed "c2" eq_refl).
Defined.

Definition planned_calls : list ToolExecution :=
  match plan_calls ∅ (fun _ => false) "exec" [sample_call "c1"; sample_call "c2"] ∅ with
  | Ok planned => planned
  | Err _ => []
  end.

Lemma planned_batch_recognised_witness :
  activeToolBatch [toolUseMessage "" [sample_call "c1"; sample_call "c2"]]
    (Some (mkToolBatch 1 (map (fun c => c <| te_Status := ToolExecutionInFlight |>) planned_calls) 0 0 None)) =
  Ok ([sample_call "c1"; sample_call "c2"], ∅).
Proof.
  apply (planned_batch_recognised ∅ (fun _ => false) "exec" [sample_call "c1"; sample_call "c2"] planned_calls
    (mkToolBatch 1 (map (fun c => c <| te_Status := ToolExecutionInFlight |>) planned_calls) 0 0 None)).
  - vm_compute; reflexivity.
  - repeat constructor.
Defined.

(** A plan of both calls, their canonical turn, and the claim of the first. *)
Definition planned_execution : Execution :=
  (execution_zero "exec") <| x_ToolBatch := Some (mkToolBatch 1 planned_calls 0 0 None) |>.
Definition ready_calls : list ToolExecution :=
  match mark_ready planned_calls with Ok calls => calls | Err _ => [] end.
Definition ready_execution : Execution :=
  (execution_zero "exec") <| x_ToolBatch := Some (mkToolBatch 1 ready_calls 2 2 None) |>.
Definition claimed_execution : Execution :=
  match claim_call false "c1" "count" ready_execution with Ok (x, _) => x | Err _ => ready_execution end.

Lemma sample_step_claim : record_step (OpClaim "c1" false) ready_execution claimed_execution.
Proof.
  apply (step_claim _ _ false "c1" "count" (toolExecutionKey "exec" "c1") false). vm_compute; reflexivity.
Defined.

Lemma sample_history : history [OpPlan ["c1"; "c2"]; OpOther; OpClaim "c1" false] (execution_zero "exec") claimed_execution.
Proof.
  apply (history_cons _ _ _ planned_execution).
  - apply (step_plan _ _ ∅ (fun _ => false) [sample_call "c1"; sample_call "c2"] planned_calls 1);
      vm_compute; reflexivity.
  - apply (history_cons _ _ _ ready_execution).
    { apply (step_ready _ _ (mkToolBatch 1 planned_calls 0 0 None) ready_calls 2 2); vm_compute; reflexivity. }
    apply (history_cons _ _ _ claimed_execution); [exact sample_step_claim|constructor].
Defined.

Lemma first_claims_bounded_witness :
  count (is_first_claim "c1") [OpPlan ["c1"; "c2"]; OpOther; OpClaim "c1" false] <=
  count (is_grant "c1") [OpPlan ["c1"; "c2"]; OpOther; OpClaim "c1" false].
Proof. apply (first_claims_bounded "c1" _ (execution_zero "exec") claimed_execution eq_refl sample_history). Defined.

Lemma call_identity_immutable_witness :
  identities claimed_execution = identities ready_execution \/ x_ToolBatch claimed_execution = None.
Proof. apply (call_identity_immutable _ _ _ sample_step_claim). done. Defined.

Lemma engine_keeps_records_wf_witness :
  saves_ok sample_state (snd (freshTurn (sample_agent false) "how many?" sample_state)) /\
  saves_ok sample_state (snd (resumeTurn (sample_agent false) sample_interrupt (Respond "go on") sample_state)) /\
  saves_ok sample_state (snd (recover_batch (sample_agent false) [] sample_state)).
Proof.
  apply (engine_keeps_records_wf (sample_agent false) (sample_Hfaith false) "how many?" sample_interrupt
    (Respond "go on") [] sample_state sample_execution eq_refl).
  intros b Hb. exfalso. vm_compute in Hb. discriminate Hb.
Defined.


(** What the model is sent and what the engine does with a malformed answer: the
    filters of loopTurn on the request, and tool calls whose input is not JSON. *)

Section Requests.
Context {W : Type} (a : Agent W) `{Hashing} `{JSONLib} `{Texts}.

(** C31. When tools are offered and normalisation is on, with one of its three strategies, every request with a visible
    message starts with a user message and alternates roles and has no widget in it, whatever history, retrieved context
    and tool results it was built from; with the default strategy, merging, it has all their other blocks, in order,
    after at most one synthetic opening, which is there exactly when the first visible message is not the user's. *)
Theorem converse_valid messages specs :
  specs <> [] -> a_normDisabled a = false -> named_strategy (default NormMerge (a_normStrategy a)) -> stripWidgets messages <> [] ->
  alternates (converse a messages specs) /\ head_role (converse a messages specs) = Some RoleUser /\
  Forall (fun b => is_widget b = false) (all_blocks (converse a messages specs)) /\
  (default NormMerge (a_normStrategy a) = NormMerge ->
   all_blocks (converse a messages specs) =
     (if bool_decide (head_role (stripWidgets messages) = Some RoleUser) then [] else [TextBlock "Continue."]) ++
     List.filter (fun b => negb (is_widget b)) (all_blocks messages)).
Proof.
  intros Hs Hn Hst Hm. unfold converse. rewrite Hn. destruct specs; [done|]. cbn [is_nil].
  assert (Hb := filter_messages_blocks (fun b => negb (is_widget b)) messages). fold (stripWidgets messages) in Hb.
  destruct (stripWidgets messages) as [|m ms]; [done|]. destruct (NormalizeMessages_alternates m ms _ Hst) as [Ha Hh]. split_and!; [done..| |].
  - apply NormalizeMessages_Forall; [done|]. rewrite Hb. apply List.Forall_forall. intros b [_ Hw]%filter_In. by apply negb_true_iff.
  - intros ->. rewrite NormalizeMessages_loop. cbn [norm_step]. fold (normMerge (norm_open (m :: ms))). rewrite normMerge_blocks, <- Hb.
    unfold head_role. cbn [norm_open head fmap option_fmap option_map]. destruct (decide (m_Role m = RoleUser)) as [E|E].
    + rewrite bool_decide_false, bool_decide_true; [done|by rewrite E|congruence].
    + rewrite bool_decide_true, bool_decide_false; [done|congruence|done].
Qed.

(** No assistant message answers to calls one of which has no canonical input. *)
Lemma uses_match_malformed uses requested c : length uses = length requested -> c ∈ requested ->
  (exists e, toolInputHash (c_Input c) = Err e) -> uses_match uses requested = false.
Proof.
  intros Hl Hc [e He]. unfold uses_match. revert uses Hl. induction requested as [|c' requested IH].
  { by apply not_elem_of_nil in Hc. }
  intros [|u uses] Hl; [done|]. simpl. apply elem_of_cons in Hc as [->|Hc].
  - rewrite He. by destruct (toolInputHash (tu_Input u)).
  - rewrite IH by (done || by injection Hl). apply andb_false_r.
Qed.

Lemma scan_back_none {R} (f : Message -> list Message -> option R) ms :
  (forall m rest, f m rest = None) -> scan_back f ms = None.
Proof. intros Hf. induction ms as [|m ms IH]; simpl; [done|]. by rewrite IH. Qed.

Lemma filterCompleted_malformed messages requested ds c : c ∈ requested ->
  (exists e, toolInputHash (c_Input c) = Err e) ->
  filterCompletedToolCalls messages requested ds = Err Unsupported.
Proof.
  intros Hc He. unfold filterCompletedToolCalls. destruct requested as [|c' requested]; [by apply not_elem_of_nil in Hc|].
  simpl is_nil. cbv iota. rewrite scan_back_none; [done|]. intros m rest. case_bool_decide; [done|].
  destruct (bool_decide (length (tool_uses m) <> length (c' :: requested))) eqn:El; [done|].
  apply bool_decide_eq_false, dec_stable in El. by rewrite (uses_match_malformed _ _ c El Hc He).
Qed.

(** C40. A tool call whose input is not JSON never becomes a tool error result in a run
    without an execution store: the whole batch, well-formed siblings included, ends
    the invocation with the recovery error before any lookup, validation or handler. *)
Theorem malformed_input_aborts_batch calls available ds t s c :
  r_executionDurable (st_run s) = false -> c ∈ calls -> (exists e, toolInputHash (c_Input c) = Err e) ->
  coordinateToolBatch a calls available ds t s = ((mkCoordinated [] None (Some Unsupported), t), s).
Proof.
  intros Hd Hc He. unfold coordinateToolBatch, prepareToolBatch, bind, getR. cbn beta iota. rewrite Hd. simpl.
  by rewrite (filterCompleted_malformed _ _ _ c Hc He).
Qed.

End Requests.

(** * Concrete requests *)

Lemma converse_valid_witness :
  let ms := [mkMessage RoleAssistant [TextBlock "hello"]; mkMessage RoleAssistant [TextBlock "again"]] in
  let specs := [mkSpec "count" "" None] in
  alternates (converse (sample_agent false) ms specs) /\
  head_role (converse (sample_agent false) ms specs) = Some RoleUser /\
  all_blocks (converse (sample_agent false) ms specs) = [TextBlock "Continue."; TextBlock "hello"; TextBlock "again"].
Proof.
  intros ms specs. destruct (converse_valid (sample_agent false) ms specs) as (Ha & Hh & _ & Hb);
    [discriminate|reflexivity|exact I|discriminate|].
  split; [exact Ha|]. split; [exact Hh|]. exact (Hb eq_refl).
Defined.

(** Without tools the request can break the alternation that normalisation is for:
    the tool blocks are stripped after the roles were repaired.  Here a turn that
    failed after its tool results is followed by a question to an agent whose tools
    are hidden. *)
Theorem converse_no_tools_not_alternating :
  exists messages, ~ alternates (converse (sample_agent false) messages []) /\
    alternates (NormalizeMessages (stripToolBlocks (stripWidgets messages)) NormMerge).
Proof.
  exists [mkMessage RoleUser [TextBlock "how many?"];
          toolUseMessage "" [sample_call "c1"];
          mkMessage RoleUser [ToolResultBlk (mkToolResult "c1" "counted" false [])];
          mkMessage RoleUser [TextBlock "and now?"]].
  split; [|vm_compute; tauto]. vm_compute. tauto.
Qed.

#[local] Instance strict_hashing : Hashing :=
  {| sha256_hex := fun s => s; json_canonical := fun s => if bool_decide (s = "{}") then Some s else None |}.

Lemma malformed_input_aborts_batch_witness :
  let bad := mkCall "c2" "count" (Some "{") in
  let s := initial sample_cfg None sample_world in
  coordinateToolBatch (sample_agent false) [sample_call "c1"; bad] ∅ None (mkTurn [toolUseMessage "" [sample_call "c1"; bad]] []) s =
  ((mkCoordinated [] None (Some Unsupported), mkTurn [toolUseMessage "" [sample_call "c1"; bad]] []), s).
Proof.
  apply (malformed_input_aborts_batch (sample_agent false) _ _ _ _ _ (mkCall "c2" "count" (Some "{"))).
  - reflexivity.
  - apply elem_of_cons. right. apply elem_of_cons. by left.
  - eexists. vm_compute. reflexivity.
Defined.
