(* ===== verification/RateStore.v ===== *)
(** The in-process store of the rate limiter (agent/ratelimit/store.go): sliding and
    fixed windows, leases and their expiry.  Times are nanoseconds on one clock, read
    once per operation; Go's int is kept at its width. *)
From stdpp Require Import sorting.
From S2P Require Import Prelude Errors Messages.

(* agent/ratelimit/limiter.go:15-20: WindowStrategy *)
Inductive WindowStrategy : Type := SlidingWindow | FixedWindow.

#[global] Instance WindowStrategy_eq_dec : EqDecision WindowStrategy.
Proof. solve_decision. Defined.

(* agent/ratelimit/store.go:12-17: RequestCounter *)
Record RequestCounter := mkRequestCounter {
  rq_Key : string; rq_Limit : Z; rq_Window : Z; rq_Strategy : WindowStrategy }.

(* agent/ratelimit/store.go:20-26: TokenReservation *)
Record TokenReservation := mkTokenReservation {
  tk_Key : string; tk_Limit : Z; tk_Window : Z; tk_Strategy : WindowStrategy; tk_Amount : Z }.

(* agent/ratelimit/store.go:29-33: Reservation *)
Record Reservation := mkReservation {
  rv_ID : string; rv_Requests : list RequestCounter; rv_Tokens : list TokenReservation }.

(* agent/ratelimit/store.go:44-47: StoreConfig *)
Record StoreConfig := mkStoreConfig { sc_PendingTTL : Z; sc_TerminalTTL : Z;
  sc_pendingConfigured : bool; sc_terminalConfigured : bool }.

(* agent/ratelimit/store.go:69-76: leaseState *)
Inductive leaseState : Type := LeasePending | LeaseCommitted | LeaseReleased | LeaseExpired.

#[global] Instance leaseState_eq_dec : EqDecision leaseState.
Proof. solve_decision. Defined.

(* agent/ratelimit/store.go:78-83: memoryLease *)
Record memoryLease := mkLease {
  ml_state : leaseState; ml_tokens : list TokenReservation; ml_window : Z;
  ml_pendingUntil : Z; ml_terminalUntil : Z }.

#[global] Instance eta_memoryLease : Settable memoryLease := fun l =>
  mkLease (ml_state l) (ml_tokens l) (ml_window l) (ml_pendingUntil l) (ml_terminalUntil l).

(** [fixedStart] is None for Go's zero time. *)
(* agent/ratelimit/store.go:88-96: memoryCounter *)
Record memoryCounter := mkCounter {
  mc_strategy : WindowStrategy; mc_window : Z; mc_requests : list Z; mc_tokens : list (Z * Z);
  mc_reserved : Z; mc_fixedStart : option Z; mc_fixedRequests : Z; mc_fixedTokens : Z }.

#[global] Instance eta_memoryCounter : Settable memoryCounter := fun c =>
  mkCounter (mc_strategy c) (mc_window c) (mc_requests c) (mc_tokens c) (mc_reserved c)
    (mc_fixedStart c) (mc_fixedRequests c) (mc_fixedTokens c).

(* agent/ratelimit/store.go:62-68: MemoryStore *)
Record MemoryStore := mkMemoryStore {
  rs_leases : gmap string memoryLease; rs_counters : gmap string memoryCounter; rs_config : StoreConfig }.

#[global] Instance eta_MemoryStore : Settable MemoryStore := fun m =>
  mkMemoryStore (rs_leases m) (rs_counters m) (rs_config m).

(* agent/ratelimit/store.go: NewMemoryStore *)
Definition NewMemoryStore (c : StoreConfig) : res MemoryStore :=
  if (sc_pendingConfigured c && bool_decide (sc_PendingTTL c <= 0)%Z) ||
     (sc_terminalConfigured c && bool_decide (sc_TerminalTTL c <= 0)%Z)
  then Err (ENew "lease TTLs must be positive when configured")
  else Ok (mkMemoryStore ∅ ∅ c).

(** * Counters *)

(** sort.Search of the Go library: binary search for the first index at which the
    predicate holds.  The interval halves, so that [length + 1] rounds are enough. *)
Fixpoint search_loop (fuel : nat) (f : nat -> bool) (i j : nat) : nat :=
  match fuel with
  | O => i
  | S fuel =>
      if bool_decide (i < j)%nat then
        let h := ((i + j) / 2)%nat in
        if f h then search_loop fuel f i h else search_loop fuel f (S h) j
      else i
  end.
Definition sort_Search (n : nat) (f : nat -> bool) : nat := search_loop (S n) f 0 n.

(* agent/ratelimit/store.go: pruneTimes *)
Definition pruneTimes (events : list Z) (cutoff : Z) : list Z :=
  drop (sort_Search (length events) (fun i => negb (bool_decide (default 0%Z (events !! i) < cutoff)%Z))) events.

(* agent/ratelimit/store.go: pruneTokenEvents *)
Definition pruneTokenEvents (events : list (Z * Z)) (cutoff : Z) : list (Z * Z) :=
  drop (sort_Search (length events)
    (fun i => negb (bool_decide ((default (0%Z, 0%Z) (events !! i)).1 < cutoff)%Z))) events.

(* agent/ratelimit/store.go: memoryCounter.prune *)
Definition prune (now : Z) (c : memoryCounter) : memoryCounter :=
  match mc_strategy c with
  | FixedWindow =>
      if match mc_fixedStart c with
         | None => true
         | Some start => bool_decide (mc_window c <= now - start)%Z
         end
      then c <| mc_fixedStart := Some now |> <| mc_fixedRequests := 0%Z |> <| mc_fixedTokens := 0%Z |>
             <| mc_reserved := 0%Z |>
      else c
  | SlidingWindow =>
      let cutoff := (now - mc_window c)%Z in
      c <| mc_requests := pruneTimes (mc_requests c) cutoff |>
        <| mc_tokens := pruneTokenEvents (mc_tokens c) cutoff |>
  end.

(* agent/ratelimit/store.go: memoryCounter.requestCount *)
Definition requestCount (c : memoryCounter) : Z :=
  match mc_strategy c with
  | FixedWindow => mc_fixedRequests c
  | SlidingWindow => Z.of_nat (length (mc_requests c))
  end.

(* agent/ratelimit/store.go: memoryCounter.tokenCount *)
Definition tokenCount (c : memoryCounter) : Z :=
  match mc_strategy c with
  | FixedWindow => mc_fixedTokens c
  | SlidingWindow => fold_left (fun total e => i64 (total + e.2)) (mc_tokens c) 0%Z
  end.

(* agent/ratelimit/store.go: memoryCounter.addRequest *)
Definition addRequest (now : Z) (c : memoryCounter) : memoryCounter :=
  match mc_strategy c with
  | FixedWindow => c <| mc_fixedRequests := i64 (mc_fixedRequests c + 1) |>
  | SlidingWindow => c <| mc_requests := mc_requests c ++ [now] |>
  end.

(* agent/ratelimit/store.go: memoryCounter.addTokens *)
Definition addTokens (now n : Z) (c : memoryCounter) : memoryCounter :=
  if bool_decide (n <= 0)%Z then c
  else match mc_strategy c with
  | FixedWindow => c <| mc_fixedTokens := i64 (mc_fixedTokens c + n) |>
  | SlidingWindow => c <| mc_tokens := mc_tokens c ++ [(now, n)] |>
  end.

Definition new_counter (strategy : WindowStrategy) (window : Z) : memoryCounter :=
  mkCounter strategy window [] [] 0 None 0 0.

(** The counter of a key, created on first use. *)
(* agent/ratelimit/store.go: MemoryStore.counter *)
Definition counter (key : string) (strategy : WindowStrategy) (window : Z) (m : MemoryStore) : memoryCounter :=
  default (new_counter strategy window) (rs_counters m !! key).

(** Change the counter of a key in place. *)
Definition on_counter (key : string) (strategy : WindowStrategy) (window : Z)
  (f : memoryCounter -> memoryCounter) (m : MemoryStore) : MemoryStore :=
  m <| rs_counters := <[key := f (counter key strategy window m)]> (rs_counters m) |>.

(** * Leases *)

(* agent/ratelimit/store.go: MemoryStore.pendingTTL *)
Definition pendingTTL (m : MemoryStore) (window : Z) : Z :=
  let ttl := i64 (2 * window) in
  if bool_decide (ttl < sc_PendingTTL (rs_config m))%Z then sc_PendingTTL (rs_config m) else ttl.

(* agent/ratelimit/store.go: MemoryStore.terminalTTL *)
Definition terminalTTL (m : MemoryStore) (window : Z) : Z :=
  if bool_decide (window < sc_TerminalTTL (rs_config m))%Z then sc_TerminalTTL (rs_config m) else window.

(* agent/ratelimit/store.go: reservationWindow *)
Definition reservationWindow (r : Reservation) : Z :=
  fold_left (fun w c => if bool_decide (w < tk_Window c)%Z then tk_Window c else w) (rv_Tokens r)
    (fold_left (fun w c => if bool_decide (w < rq_Window c)%Z then rq_Window c else w) (rv_Requests r) 0%Z).

(* agent/ratelimit/store.go: validateReservation *)
Definition validateReservation (r : Reservation) : res unit :=
  if existsb (fun c => bool_decide (rq_Limit c <= 0)%Z || bool_decide (rq_Window c <= 0)%Z) (rv_Requests r)
  then Err (ENew "invalid request counter")
  else if existsb (fun c => bool_decide (tk_Limit c <= 0)%Z || bool_decide (tk_Window c <= 0)%Z ||
                            bool_decide (tk_Amount c < 0)%Z) (rv_Tokens r)
  then Err (ENew "invalid token counter")
  else Ok tt.

(* agent/ratelimit/store.go: terminalError *)
Definition terminalError (state requested : leaseState) : error :=
  if bool_decide (state = LeaseExpired) then ESentinel ErrRateLimitLeaseExpired
  else if bool_decide (state = requested) then ESentinel ErrRateLimitLeaseTerminal
  else ESentinel ErrRateLimitLeaseCrossTerminal.

(** One token counter of a settled lease; a negative [actual] settles the estimate. *)
(* agent/ratelimit/store.go:198-208: loop body of settle *)
Definition settle_counter (now actual : Z) (r : TokenReservation) (m : MemoryStore) : MemoryStore :=
  on_counter ("t:" +:+ tk_Key r) (tk_Strategy r) (tk_Window r) (fun c =>
    let c := prune now c in
    let reserved := i64 (mc_reserved c - tk_Amount r) in
    let c := c <| mc_reserved := if bool_decide (reserved < 0)%Z then 0%Z else reserved |> in
    addTokens now (if bool_decide (actual < 0)%Z then tk_Amount r else actual) c) m.

(* agent/ratelimit/store.go: MemoryStore.settle *)
Definition settle (now : Z) (lease : memoryLease) (actual : Z) (m : MemoryStore) : MemoryStore :=
  fold_left (fun m r => settle_counter now actual r m) (ml_tokens lease) m.

Section Store.
(** The order in which Go enumerates a map is unspecified. *)
Variable enum : gmap string memoryLease -> list (string * memoryLease).

(* agent/ratelimit/store.go:213-221: loop body of cleanup *)
Definition cleanup_lease (now : Z) (m : MemoryStore) (e : string * memoryLease) : MemoryStore :=
  let '(id, l) := e in
  let '(l, m) :=
    if bool_decide (ml_state l = LeasePending) && bool_decide (ml_pendingUntil l <= now)%Z then
      let m := settle now l (-1) m in
      let l := l <| ml_state := LeaseExpired |> <| ml_terminalUntil := (now + terminalTTL m (ml_window l))%Z |> in
      (l, m <| rs_leases := <[id := l]> (rs_leases m) |>)
    else (l, m) in
  if negb (bool_decide (ml_state l = LeasePending)) && bool_decide (ml_terminalUntil l <= now)%Z
  then m <| rs_leases := delete id (rs_leases m) |> else m.

(* agent/ratelimit/store.go: MemoryStore.cleanup *)
Definition cleanup (now : Z) (m : MemoryStore) : MemoryStore :=
  fold_left (cleanup_lease now) (enum (rs_leases m)) m.

(* agent/ratelimit/store.go:127-133: request check of Reserve *)
Fixpoint check_requests (now : Z) (rs : list RequestCounter) (m : MemoryStore) : bool * MemoryStore :=
  match rs with
  | [] => (true, m)
  | r :: rs =>
      let m := on_counter ("r:" +:+ rq_Key r) (rq_Strategy r) (rq_Window r) (prune now) m in
      if bool_decide (rq_Limit r <= requestCount (counter ("r:" +:+ rq_Key r) (rq_Strategy r) (rq_Window r) m))%Z
      then (false, m) else check_requests now rs m
  end.

(* agent/ratelimit/store.go:134-140: token check of Reserve *)
Fixpoint check_tokens (now : Z) (rs : list TokenReservation) (m : MemoryStore) : bool * MemoryStore :=
  match rs with
  | [] => (true, m)
  | r :: rs =>
      let m := on_counter ("t:" +:+ tk_Key r) (tk_Strategy r) (tk_Window r) (prune now) m in
      let c := counter ("t:" +:+ tk_Key r) (tk_Strategy r) (tk_Window r) m in
      if bool_decide (tk_Limit r < i64 (i64 (tokenCount c + mc_reserved c) + tk_Amount r))%Z
      then (false, m) else check_tokens now rs m
  end.

(* agent/ratelimit/store.go:141-148: admission of Reserve *)
Definition Reserve_grant (now : Z) (reservation : Reservation) (m : MemoryStore) : MemoryStore :=
  let m := fold_left (fun m r => on_counter ("r:" +:+ rq_Key r) (rq_Strategy r) (rq_Window r) (addRequest now) m)
             (rv_Requests reservation) m in
  let m := fold_left (fun m r => on_counter ("t:" +:+ tk_Key r) (tk_Strategy r) (tk_Window r)
             (fun c => c <| mc_reserved := i64 (mc_reserved c + tk_Amount r) |>) m) (rv_Tokens reservation) m in
  let window := reservationWindow reservation in
  m <| rs_leases := <[rv_ID reservation := mkLease LeasePending (rv_Tokens reservation) window
         (now + pendingTTL m window)%Z (now + terminalTTL m window)%Z]> (rs_leases m) |>.

(* agent/ratelimit/store.go: MemoryStore.Reserve *)
Definition Reserve (ctxErr : option error) (now : Z) (reservation : Reservation) (m : MemoryStore)
  : res bool * MemoryStore :=
  match ctxErr with
  | Some e => (Err e, m)
  | None =>
      if bool_decide (rv_ID reservation = "") then (Err (ENew "rate limit reservation requires an ID"), m)
      else match validateReservation reservation with
      | Err e => (Err e, m)
      | Ok _ =>
          let m := cleanup now m in
          match rs_leases m !! rv_ID reservation with
          | Some _ => (Ok true, m)
          | None =>
              let '(ok, m) := check_requests now (rv_Requests reservation) m in
              if negb ok then (Ok false, m)
              else
                let '(ok, m) := check_tokens now (rv_Tokens reservation) m in
                if negb ok then (Ok false, m) else (Ok true, Reserve_grant now reservation m)
          end
      end
  end.

(** The common part of Commit and Release. *)
(* agent/ratelimit/store.go:158-174: terminal operation *)
Definition terminate (requested : leaseState) (ctxErr : option error) (now : Z) (id : string) (actual : Z)
  (m : MemoryStore) : res unit * MemoryStore :=
  match ctxErr with
  | Some e => (Err e, m)
  | None =>
      let m := cleanup now m in
      match rs_leases m !! id with
      | None => (Err (ESentinel ErrRateLimitLeaseUnknown), m)
      | Some lease =>
          if negb (bool_decide (ml_state lease = LeasePending)) then (Err (terminalError (ml_state lease) requested), m)
          else
            let m := settle now lease actual m in
            let lease := lease <| ml_state := requested |>
              <| ml_terminalUntil := (now + terminalTTL m (ml_window lease))%Z |> in
            (Ok tt, m <| rs_leases := <[id := lease]> (rs_leases m) |>)
      end
  end.

(* agent/ratelimit/store.go: MemoryStore.Commit *)
Definition Commit (ctxErr : option error) (now : Z) (id : string) (actual : Z) : MemoryStore -> res unit * MemoryStore :=
  terminate LeaseCommitted ctxErr now id (if bool_decide (actual < 0)%Z then 0%Z else actual).

(* agent/ratelimit/store.go: MemoryStore.Release *)
Definition Release (ctxErr : option error) (now : Z) (id : string) : MemoryStore -> res unit * MemoryStore :=
  terminate LeaseReleased ctxErr now id (-1).

End Store.
