(* ===== verification/RateProps.v ===== *)
(** The rate-limit store keeps its limits: pruning by binary search is the window
    filter, no window of a sliding counter holds more requests than its limit, and an
    admitted attempt is settled at most once. *)
From stdpp Require Import sorting.
From S2P Require Import Prelude Errors Messages RateStore.

(** * Pruning *)

Definition monotone (n : nat) (f : nat -> bool) : Prop :=
  forall i k, (i <= k < n)%nat -> f i = true -> f k = true.

(** The loop keeps the first hit between its bounds. *)
Lemma search_loop_spec fuel f i j n :
  monotone n f -> (i <= j <= n)%nat -> (j - i < fuel)%nat ->
  (forall k, (k < i)%nat -> f k = false) -> (forall k, (j <= k < n)%nat -> f k = true) ->
  let r := search_loop fuel f i j in
  (r <= n)%nat /\ (forall k, (k < r)%nat -> f k = false) /\ (forall k, (r <= k < n)%nat -> f k = true).
Proof.
  intros Hmono. revert i j. induction fuel as [|fuel IH]; intros i j Hij Hf Hlo Hhi; [lia|]. cbn [search_loop].
  case_bool_decide as Hlt.
  - assert (Hh : (i <= (i + j) / 2 < j)%nat).
    { split; [apply Nat.div_le_lower_bound; lia|apply Nat.Div0.div_lt_upper_bound; lia]. }
    destruct (f ((i + j) / 2)%nat) eqn:E.
    + apply IH; [lia|lia|done|]. intros k Hk. apply (Hmono ((i + j) / 2)%nat); [lia|done].
    + apply IH; [lia|lia| |done]. intros k Hk. destruct (f k) eqn:Ek; [|done].
      exfalso. rewrite (Hmono k ((i + j) / 2)%nat) in E; [done|lia|done].
  - split_and!; [lia|done|]. intros k Hk. apply Hhi. lia.
Qed.

Lemma sort_Search_spec n f : monotone n f ->
  (sort_Search n f <= n)%nat /\ (forall k, (k < sort_Search n f)%nat -> f k = false) /\
  (forall k, (sort_Search n f <= k < n)%nat -> f k = true).
Proof. intros Hm. apply search_loop_spec; [done|lia|lia|lia|lia]. Qed.

(** Dropping what a split point excludes is filtering. *)
Lemma drop_filter {A} (p : A -> bool) (xs : list A) r :
  (r <= length xs)%nat -> (forall k x, xs !! k = Some x -> (k < r)%nat -> p x = false) ->
  (forall k x, xs !! k = Some x -> (r <= k)%nat -> p x = true) -> drop r xs = List.filter p xs.
Proof.
  revert r. induction xs as [|x xs IH]; intros r Hr Hlo Hhi; [by rewrite drop_nil|].
  destruct r as [|r]; simpl.
  - rewrite (Hhi 0 x eq_refl ltac:(lia)). f_equal.
    rewrite <- (IH 0); [done|simpl; lia|intros; lia|]. intros k y Hk _. apply (Hhi (S k)); [done|lia].
  - rewrite (Hlo 0 x eq_refl ltac:(lia)). apply IH; [simpl in Hr; lia| |].
    + intros k y Hk Hlt. apply (Hlo (S k)); [done|lia].
    + intros k y Hk Hge. apply (Hhi (S k)); [done|lia].
Qed.

Lemma strongly_sorted_lookup {A} (R : relation A) xs i k x y : StronglySorted R xs ->
  xs !! i = Some x -> xs !! k = Some y -> (i < k)%nat -> R x y.
Proof.
  intros Hs. revert i k. induction Hs as [|z xs Hs IH Hall]; intros [|i] [|k] Hi Hk Hlt; simplify_eq/=; try lia.
  - rewrite Forall_forall in Hall. apply Hall. by eapply list_elem_of_lookup_2.
  - eapply IH; [done..|lia].
Qed.

(** Dropping the front up to the cutoff, found by binary search over sorted keys, is the window filter. *)
Lemma search_filter {A} (key : A -> Z) (d : A) events cutoff : Sorted Z.le (map key events) ->
  drop (sort_Search (length events) (fun i => negb (bool_decide (key (default d (events !! i)) < cutoff)%Z))) events =
    List.filter (fun x => bool_decide (cutoff <= key x)%Z) events.
Proof.
  intros Hs. apply Sorted_StronglySorted in Hs; [|exact _].
  set (f := fun i => negb (bool_decide (key (default d (events !! i)) < cutoff)%Z)).
  assert (Hf : forall k x, events !! k = Some x -> f k = bool_decide (cutoff <= key x)%Z).
  { intros k x Hk. unfold f. rewrite Hk. simpl. apply eq_true_iff_eq. rewrite negb_true_iff. bool_hyps.
    rewrite bool_decide_eq_false, bool_decide_eq_true. lia. }
  destruct (sort_Search_spec (length events) f) as (Hle & Hlo & Hhi).
  - intros i k Hik Hi. destruct (lookup_lt_is_Some_2 events i) as [x Hx]; [lia|].
    destruct (lookup_lt_is_Some_2 events k) as [y Hy]; [lia|]. rewrite (Hf _ _ Hx) in Hi. rewrite (Hf _ _ Hy).
    bool_hyps. apply bool_decide_eq_true. destruct (decide (i = k)) as [->|Hne]; [simplify_eq; done|].
    assert (key x <= key y)%Z; [|lia].
    eapply (strongly_sorted_lookup Z.le (map key events) i k); [done|by rewrite list_lookup_fmap, Hx|by rewrite list_lookup_fmap, Hy|lia].
  - apply drop_filter; [done| |].
    + intros k x Hk Hlt. rewrite <- (Hf _ _ Hk). by apply Hlo.
    + intros k x Hk Hge. rewrite <- (Hf _ _ Hk). apply Hhi. split; [done|by eapply lookup_lt_Some].
Qed.

Lemma pruneTimes_filter events cutoff : Sorted Z.le events ->
  pruneTimes events cutoff = List.filter (fun t => bool_decide (cutoff <= t)%Z) events.
Proof. intros Hs. apply (search_filter (fun t => t) 0%Z). by rewrite map_id. Qed.

Lemma pruneTokenEvents_filter events cutoff : Sorted Z.le (map fst events) ->
  pruneTokenEvents events cutoff = List.filter (fun e => bool_decide (cutoff <= e.1)%Z) events.
Proof. apply (search_filter fst (0%Z, 0%Z)). Qed.

(** * Runs *)

Inductive rate_op : Type :=
| RReserve (ctxErr : option error) (r : Reservation)
| RCommit (ctxErr : option error) (id : string) (actual : Z)
| RRelease (ctxErr : option error) (id : string).

(** What happened: a reservation was admitted, a lease was settled by its owner. *)
Inductive rate_event : Type := EvAdmitted (at_ : Z) (r : Reservation) | EvSettled (id : string).

Section Runs.
Variable enum : gmap string memoryLease -> list (string * memoryLease).

(** One operation at a time, with its event. *)
Definition rate_step (m : MemoryStore) (e : Z * rate_op) : list rate_event * MemoryStore :=
  let '(now, o) := e in
  match o with
  | RReserve ctxErr r =>
      let '(ok, m') := Reserve enum ctxErr now r m in
      (match ok with
       | Ok true => if bool_decide (rs_leases (cleanup enum now m) !! rv_ID r = None) then [EvAdmitted now r] else []
       | _ => []
       end, m')
  | RCommit ctxErr id actual =>
      let '(ok, m') := Commit enum ctxErr now id actual m in (if is_ok ok then [EvSettled id] else [], m')
  | RRelease ctxErr id =>
      let '(ok, m') := Release enum ctxErr now id m in (if is_ok ok then [EvSettled id] else [], m')
  end.

Fixpoint rate_run (m : MemoryStore) (es : list (Z * rate_op)) : list rate_event * MemoryStore :=
  match es with
  | [] => ([], m)
  | e :: es =>
      let '(evs, m) := rate_step m e in
      let '(evs', m) := rate_run m es in (evs ++ evs', m)
  end.

(** The times at which requests against a counter were admitted. *)
Definition admissions (k : string) (evs : list rate_event) : list Z :=
  omap (fun e => match e with
    | EvAdmitted t r => if bool_decide (k ∈ map rq_Key (rv_Requests r)) then Some t else None
    | EvSettled _ => None
    end) evs.

(** ** Operations that leave request counters alone *)

Definition view (k : string) (m : MemoryStore) : option memoryCounter := rs_counters m !! ("r:" +:+ k).

Lemma key_r_t k k' : "t:" +:+ k' <> "r:" +:+ k.
Proof. discriminate. Qed.

Lemma view_token_counter k k' s w f m : view k (on_counter ("t:" +:+ k') s w f m) = view k m.
Proof. unfold view, on_counter. simpl. apply lookup_insert_ne, key_r_t. Qed.

Lemma view_settle k now l actual m : view k (settle now l actual m) = view k m.
Proof.
  unfold settle. revert m. induction (ml_tokens l) as [|r rs IH]; intros m; cbn [fold_left]; [done|].
  rewrite IH. unfold settle_counter. apply view_token_counter.
Qed.

Lemma view_cleanup_lease k now m e : view k (cleanup_lease now m e) = view k m.
Proof.
  destruct e as [id l]. unfold cleanup_lease.
  destruct (_ && bool_decide (ml_pendingUntil l <= now)%Z); destruct (_ && _); unfold view; simpl;
    try done; apply view_settle.
Qed.

Lemma view_cleanup k now m : view k (cleanup enum now m) = view k m.
Proof.
  unfold cleanup. generalize (enum (rs_leases m)) as es. intros es. revert m.
  induction es as [|e es IH]; intros m; cbn [fold_left]; [done|]. rewrite IH. apply view_cleanup_lease.
Qed.

Lemma view_check_tokens k now rs m : view k (snd (check_tokens now rs m)) = view k m.
Proof.
  revert m. induction rs as [|r rs IH]; intros m; cbn [check_tokens]; [done|].
  case_bool_decide; cbn [snd]; [|rewrite IH]; apply view_token_counter.
Qed.

Lemma view_terminate k requested ctxErr now id actual m :
  view k (snd (terminate enum requested ctxErr now id actual m)) = view k m.
Proof.
  unfold terminate. destruct ctxErr; [done|]. pose proof (view_cleanup k now m) as Hc.
  destruct (rs_leases _ !! id) as [l|]; [|done]. destruct (negb _); [done|]. simpl.
  unfold view in *. simpl. rewrite <- Hc. apply view_settle.
Qed.

(** ** A sliding request counter *)

Section Sliding.
Variables (k : string) (L : nat) (w : Z).
Hypothesis L_pos : (0 < L)%nat.

(** Every reservation that uses the counter uses it once, with this configuration. *)
Definition configured (r : Reservation) : Prop :=
  NoDup (map rq_Key (rv_Requests r)) /\
  forall rq, rq ∈ rv_Requests r -> rq_Key rq = k ->
    rq_Strategy rq = SlidingWindow /\ rq_Limit rq = Z.of_nat L /\ rq_Window rq = w.

Definition after (cut : Z) (log : list Z) : list Z := List.filter (fun t => bool_decide (cut <= t)%Z) log.

(** The counter holds what was admitted after some cut. *)
Definition counter_ok (cut : Z) (log : list Z) (c : option memoryCounter) : Prop :=
  match c with
  | None => log = []
  | Some c => mc_strategy c = SlidingWindow /\ mc_window c = w /\
      exists cut', (cut' <= cut)%Z /\ mc_requests c = after cut' log
  end.

(** No [L + 1] consecutive admissions within a window. *)
Definition spaced (log : list Z) : Prop :=
  forall i a b, log !! i = Some a -> log !! (i + L)%nat = Some b -> (a + w < b)%Z.

Lemma after_after cut cut' log : (cut' <= cut)%Z -> after cut (after cut' log) = after cut log.
Proof.
  intros Hc. unfold after. induction log as [|t log IH]; simpl; [done|].
  case_bool_decide; simpl; case_bool_decide; rewrite ?IH; done || lia.
Qed.

Lemma after_sorted cut log : Sorted Z.le log -> Sorted Z.le (after cut log).
Proof.
  intros Hs. apply StronglySorted_Sorted. apply Sorted_StronglySorted in Hs; [|exact _].
  unfold after. induction Hs as [|t log Hs IH Hall]; simpl; [constructor|].
  case_bool_decide; [|done]. constructor; [done|]. apply List.Forall_forall. intros x Hx%List.filter_In.
  rewrite List.Forall_forall in Hall. apply Hall. tauto.
Qed.

(** Pruning at [now] leaves exactly the window. *)
Lemma prune_window now cut log c : Sorted Z.le log -> (cut <= now - w)%Z -> counter_ok cut log c ->
  let c' := prune now (default (new_counter SlidingWindow w) c) in
  mc_strategy c' = SlidingWindow /\ mc_window c' = w /\ mc_requests c' = after (now - w) log.
Proof.
  intros Hs Hcut Hc. destruct c as [c|]; simpl in Hc.
  - destruct Hc as (Hst & Hw & cut' & Hle & Hr). simpl. unfold prune. rewrite Hst. simpl. split_and!; try done.
    rewrite Hr, pruneTimes_filter by (by apply after_sorted). rewrite Hw. apply after_after. lia.
  - subst. simpl. done.
Qed.

(** A full window below the limit leaves room: the admission that is [L] back is out. *)
Lemma spaced_snoc now log : Sorted Z.le log -> spaced log -> (length (after (now - w) log) < L)%nat ->
  spaced (log ++ [now]).
Proof.
  intros Hs Hsp Hlen i a b Ha Hb.
  apply lookup_app_Some in Hb as [Hb|[Hge Hb]].
  - apply (Hsp i); [|done]. apply lookup_lt_Some in Hb. rewrite lookup_app_l in Ha by lia. done.
  - apply list_lookup_singleton_Some in Hb as [Hi <-].
    assert (Hlt : (i < length log)%nat) by lia. rewrite lookup_app_l in Ha by lia.
    destruct (decide (a + w < now)%Z) as [|Hn]; [done|]. exfalso.
    apply Sorted_StronglySorted in Hs; [|exact _].
    assert (Hall : Forall (fun t => bool_decide (now - w <= t)%Z = true) (drop i log)).
    { apply Forall_lookup. intros j t Ht. rewrite lookup_drop in Ht. apply bool_decide_eq_true.
      destruct j as [|j]; [rewrite Nat.add_0_r in Ht; simplify_eq; lia|].
      assert (a <= t)%Z; [|lia]. eapply (strongly_sorted_lookup Z.le log i (i + S j)); [done..|lia]. }
    assert (Hd : after (now - w) (drop i log) = drop i log).
    { unfold after. clear -Hall. induction Hall as [|t ts Ht Hts IH]; simpl; [done|]. by rewrite Ht, IH. }
    assert (Hle : (length (drop i log) <= length (after (now - w) log))%nat).
    { rewrite <- Hd. unfold after. rewrite <- (take_drop i log) at 2. rewrite List.filter_app, length_app. lia. }
    rewrite length_drop in Hle. lia.
Qed.

Lemma snoc_sorted now log : Sorted Z.le log -> Forall (fun t => t <= now)%Z log -> Sorted Z.le (log ++ [now]).
Proof.
  intros Hs Hall. apply StronglySorted_Sorted. apply Sorted_StronglySorted in Hs; [|exact _].
  induction Hs as [|t log Hs IH Ht]; simpl; [repeat constructor|].
  apply Forall_cons in Hall as [Hle Hall]. constructor; [by apply IH|].
  apply Forall_app. by split; [|constructor].
Qed.

Lemma view_request_counter k' s ww f m : k' <> k -> view k (on_counter ("r:" +:+ k') s ww f m) = view k m.
Proof.
  intros Hne. unfold view, on_counter. cbn [rs_counters set_field]. apply lookup_insert_ne.
  intros Heq. by apply (inj (String.append "r:")) in Heq.
Qed.

Lemma view_request_own s ww f m :
  view k (on_counter ("r:" +:+ k) s ww f m) = Some (f (default (new_counter s ww) (view k m))).
Proof. unfold view, on_counter. cbn [rs_counters set_field]. by rewrite lookup_insert_eq. Qed.

Lemma check_requests_other now rs m : k ∉ map rq_Key rs -> view k (snd (check_requests now rs m)) = view k m.
Proof.
  revert m. induction rs as [|r rs IH]; intros m Hk; cbn [check_requests]; [done|].
  assert (rq_Key r <> k) by set_solver. case_bool_decide; cbn [snd]; [by apply view_request_counter|].
  rewrite IH by set_solver. by apply view_request_counter.
Qed.

(** After the check the counter holds the window, and the window has room. *)
Lemma check_requests_own now rs m cut log : NoDup (map rq_Key rs) -> k ∈ map rq_Key rs ->
  (forall rq, rq ∈ rs -> rq_Key rq = k -> rq_Strategy rq = SlidingWindow /\ rq_Limit rq = Z.of_nat L /\ rq_Window rq = w) ->
  Sorted Z.le log -> (cut <= now - w)%Z -> counter_ok cut log (view k m) ->
  let '(ok, m') := check_requests now rs m in
  counter_ok (now - w) log (view k m') /\
  (ok = true -> exists c, view k m' = Some c /\ mc_strategy c = SlidingWindow /\ mc_window c = w /\
     mc_requests c = after (now - w) log /\ (length (mc_requests c) < L)%nat).
Proof.
  intros Hnd Hk Hconf Hs Hcut. revert m Hnd Hk Hconf.
  induction rs as [|r rs IH]; intros m Hnd Hk Hconf Hc; [by apply not_elem_of_nil in Hk|].
  cbn [map] in Hnd, Hk. apply NoDup_cons in Hnd as [Hnin Hnd]. cbn [check_requests].
  destruct (decide (rq_Key r = k)) as [Hrk|Hrk].
  - destruct (Hconf r ltac:(set_solver) Hrk) as (Hst & Hl & Hw). rewrite Hrk, Hst, Hw, Hl.
    set (m1 := on_counter ("r:" +:+ k) SlidingWindow w (prune now) m).
    assert (Hv : view k m1 = Some (prune now (default (new_counter SlidingWindow w) (view k m)))) by apply view_request_own.
    pose proof (prune_window now cut log _ Hs Hcut Hc) as (P1 & P2 & P3). cbv zeta in P1, P2, P3.
    set (c := prune now (default (new_counter SlidingWindow w) (view k m))) in *.
    assert (Hok : counter_ok (now - w) log (Some c)) by (split_and!; [done..|]; exists (now - w)%Z; done || lia).
    unfold counter. fold (view k m1). rewrite Hv. cbn [default from_option id].
    unfold requestCount. rewrite P1. case_bool_decide as Hfull; cbn beta iota.
    + rewrite Hv. done.
    + rewrite Hrk in Hnin. pose proof (check_requests_other now rs m1 Hnin) as Ho. rewrite Hv in Ho.
      destruct (check_requests now rs m1) as [ok m']. cbn [snd] in Ho. rewrite Ho. split; [done|].
      intros _. exists c. split_and!; try done. lia.
  - set (m1 := on_counter _ _ _ _ m).
    assert (Hv : view k m1 = view k m) by (by apply view_request_counter).
    case_bool_decide; cbn beta iota.
    + rewrite Hv. split; [|done]. destruct (view k m) as [c|]; [|done]. simpl in Hc |- *.
      destruct Hc as (? & ? & cut' & ? & ?). split_and!; try done. exists cut'. split; [lia|done].
    + apply IH; [done|set_solver| |by rewrite Hv]. intros rq Hrq. apply Hconf. set_solver.
Qed.

Lemma admit_requests_view now rs m : NoDup (map rq_Key rs) ->
  (k ∈ map rq_Key rs -> exists c, view k m = Some c) ->
  view k (fold_left (fun m r => on_counter ("r:" +:+ rq_Key r) (rq_Strategy r) (rq_Window r) (addRequest now) m) rs m) =
  if bool_decide (k ∈ map rq_Key rs) then addRequest now <$> view k m else view k m.
Proof.
  revert m. induction rs as [|r rs IH]; intros m Hnd Hv; cbn [fold_left map]; [done|].
  cbn [map] in Hnd, Hv. apply NoDup_cons in Hnd as [Hnin Hnd].
  destruct (decide (rq_Key r = k)) as [Hrk|Hrk].
  - rewrite IH by (done || set_solver). rewrite bool_decide_false by (by rewrite <- Hrk).
    rewrite bool_decide_true by set_solver. rewrite Hrk, view_request_own.
    destruct Hv as [c ->]; [set_solver|]. done.
  - rewrite IH; [|done|].
    + rewrite view_request_counter by done. destruct (decide (k ∈ map rq_Key rs)).
      * by rewrite !bool_decide_true by set_solver.
      * by rewrite !bool_decide_false by set_solver.
    + intros Hin. rewrite view_request_counter by done. apply Hv. set_solver.
Qed.

Lemma admit_view now r m : NoDup (map rq_Key (rv_Requests r)) ->
  (k ∈ map rq_Key (rv_Requests r) -> exists c, view k m = Some c) ->
  view k (Reserve_grant now r m) = if bool_decide (k ∈ map rq_Key (rv_Requests r)) then addRequest now <$> view k m else view k m.
Proof.
  intros Hnd Hv. rewrite <- (admit_requests_view now) by done. unfold Reserve_grant. cbv zeta.
  unfold view at 1. cbn [rs_counters set_field]. fold (view k).
  generalize (fold_left (fun m r => on_counter ("r:" +:+ rq_Key r) (rq_Strategy r) (rq_Window r) (addRequest now) m)
    (rv_Requests r) m) as m1. intros m1. revert m1. induction (rv_Tokens r) as [|t ts IH]; intros m1; cbn [fold_left]; [done|].
  etransitivity; [apply IH|]. apply view_token_counter.
Qed.

(** A valid reservation has positive windows. *)
Lemma valid_window r u : validateReservation r = Ok u -> configured r -> k ∈ map rq_Key (rv_Requests r) -> (0 < w)%Z.
Proof.
  unfold validateReservation. destruct (existsb _ (rv_Requests r)) eqn:E; [done|]. intros _ [_ Hconf] Hk.
  apply list_elem_of_In, in_map_iff in Hk as (rq & Hrk & Hin).
  destruct (Hconf rq (proj2 (list_elem_of_In _ _) Hin) Hrk) as (_ & _ & <-).
  apply not_true_iff_false in E. destruct (decide (0 < rq_Window rq)%Z); [done|]. exfalso. apply E.
  apply existsb_exists. exists rq. split; [done|]. rewrite (bool_decide_true (rq_Window rq <= 0)%Z) by lia.
  apply orb_true_r.
Qed.

(** The invariant of a run: the counter and the log of admissions. *)
Definition window_ok (now : Z) (m : MemoryStore) (log : list Z) : Prop :=
  Sorted Z.le log /\ Forall (fun t => t <= now)%Z log /\ spaced log /\ counter_ok (now - w) log (view k m).

Lemma counter_ok_later now now' log c : (now <= now')%Z -> counter_ok (now - w) log c -> counter_ok (now' - w) log c.
Proof.
  intros Hn. destruct c as [c|]; [|done]. intros (? & ? & cut & ? & ?). split_and!; try done.
  exists cut. split; [lia|done].
Qed.

Lemma window_ok_same now now' m m' log : (now <= now')%Z -> view k m' = view k m ->
  window_ok now m log -> window_ok now' m' log.
Proof.
  intros Hn Hv (Hs & Hall & Hsp & Hc). split_and!; try done.
  - eapply Forall_impl; [exact Hall|]. simpl. lia.
  - rewrite Hv. by eapply counter_ok_later.
Qed.

Lemma reserve_window now now' ctxErr r m log : configured r -> (now <= now')%Z -> window_ok now m log ->
  let '(evs, m') := rate_step m (now', RReserve ctxErr r) in window_ok now' m' (log ++ admissions k evs).
Proof.
  intros [Hnd Hconf] Hn Hok. unfold rate_step, Reserve.
  destruct ctxErr as [e|]; [rewrite app_nil_r; by eapply window_ok_same|].
  destruct (bool_decide (rv_ID r = "")); [rewrite app_nil_r; by eapply window_ok_same|].
  destruct (validateReservation r) as [u|e] eqn:Hval; [|rewrite app_nil_r; by eapply window_ok_same].
  set (m1 := cleanup enum now' m). assert (Hv1 : view k m1 = view k m) by apply view_cleanup.
  destruct (rs_leases m1 !! rv_ID r) as [l|] eqn:Hl; cbn beta iota.
  { rewrite bool_decide_false by done. rewrite app_nil_r. by eapply window_ok_same. }
  destruct Hok as (Hs & Hall & Hsp & Hc). rewrite <- Hv1 in Hc.
  assert (Hall' : Forall (fun t => t <= now')%Z log) by (eapply Forall_impl; [exact Hall|]; simpl; lia).
  assert (Hstay : forall m2, counter_ok (now' - w) log (view k m2) -> window_ok now' m2 (log ++ [])).
  { intros m2 Hm2. rewrite app_nil_r. done. }
  destruct (decide (k ∈ map rq_Key (rv_Requests r))) as [Hk|Hk].
  - pose proof (check_requests_own now' (rv_Requests r) m1 (now - w)%Z log Hnd Hk Hconf Hs ltac:(lia) Hc) as Hcheck.
    destruct (check_requests now' (rv_Requests r) m1) as [ok m2]. destruct Hcheck as [Hc2 Hroom].
    destruct ok; cbn [negb]; cbn beta iota; [|by apply Hstay].
    destruct (Hroom eq_refl) as (c & Hvc & Hst & Hw & Hr & Hlen).
    pose proof (view_check_tokens k now' (rv_Tokens r) m2) as Hv3.
    destruct (check_tokens now' (rv_Tokens r) m2) as [ok m3]. cbn [snd] in Hv3.
    destruct ok; cbn [negb]; cbn beta iota; [|apply Hstay; by rewrite Hv3].
    rewrite bool_decide_true by done. unfold admissions. simpl omap. rewrite bool_decide_true by done.
    rewrite Hr in Hlen. split_and!.
    + by apply snoc_sorted.
    + apply Forall_app. split; [done|]. by constructor.
    + by apply spaced_snoc.
    + rewrite admit_view; [|done|intros _; exists c; by rewrite Hv3]. rewrite bool_decide_true by done.
      rewrite Hv3, Hvc. simpl. unfold addRequest. rewrite Hst. simpl. split_and!; try done.
      exists (now' - w)%Z. split; [lia|]. rewrite Hr. unfold after. rewrite List.filter_app. simpl.
      case_bool_decide as Hw'; [done|]. exfalso. apply Hw'. pose proof (valid_window r u Hval (conj Hnd Hconf) Hk). lia.
  - pose proof (check_requests_other now' (rv_Requests r) m1 Hk) as Hv2.
    destruct (check_requests now' (rv_Requests r) m1) as [ok m2]. cbn [snd] in Hv2.
    assert (Hc2 : counter_ok (now' - w) log (view k m2)) by (rewrite Hv2; by eapply counter_ok_later).
    destruct ok; cbn [negb]; cbn beta iota; [|by apply Hstay].
    pose proof (view_check_tokens k now' (rv_Tokens r) m2) as Hv3.
    destruct (check_tokens now' (rv_Tokens r) m2) as [ok m3]. cbn [snd] in Hv3.
    destruct ok; cbn [negb]; cbn beta iota; [|apply Hstay; by rewrite Hv3].
    rewrite bool_decide_true by done. unfold admissions. simpl omap. rewrite bool_decide_false by done.
    apply Hstay. rewrite admit_view by (done || set_solver). rewrite bool_decide_false by done. by rewrite Hv3.
Qed.

Lemma run_window es now m log : Sorted Z.le (now :: map fst es) ->
  Forall (fun e => match e.2 with RReserve _ r => configured r | _ => True end) es -> window_ok now m log ->
  let '(evs, m') := rate_run m es in spaced (log ++ admissions k evs).
Proof.
  revert now m log. induction es as [|[t o] es IH]; intros now m log Hs Hconf Hok; cbn [rate_run].
  { rewrite app_nil_r. by destruct Hok as (_ & _ & ? & _). }
  apply Forall_cons in Hconf as [Ho Hconf]. simpl in Hs. apply Sorted_inv in Hs as [Hs Hhd].
  apply HdRel_inv in Hhd.
  assert (Hstep : let '(evs, m') := rate_step m (t, o) in window_ok t m' (log ++ admissions k evs)).
  { destruct o as [ctxErr r|ctxErr id actual|ctxErr id]; [by eapply reserve_window| |]; unfold rate_step.
    - pose proof (view_terminate k LeaseCommitted ctxErr t id (if bool_decide (actual < 0)%Z then 0%Z else actual) m) as Hv.
      unfold Commit. destruct (terminate enum LeaseCommitted ctxErr t id _ m) as [ok m']. cbn [snd] in Hv.
      destruct (is_ok ok); unfold admissions; simpl omap; rewrite app_nil_r; by eapply window_ok_same.
    - pose proof (view_terminate k LeaseReleased ctxErr t id (-1) m) as Hv.
      unfold Release. destruct (terminate enum LeaseReleased ctxErr t id _ m) as [ok m']. cbn [snd] in Hv.
      destruct (is_ok ok); unfold admissions; simpl omap; rewrite app_nil_r; by eapply window_ok_same. }
  destruct (rate_step m (t, o)) as [evs m1]. specialize (IH t m1 _ Hs Hconf Hstep).
  destruct (rate_run m1 es) as [evs' m2]. unfold admissions in *. by rewrite omap_app, app_assoc.
Qed.

End Sliding.

(** ** Settlement *)

Definition pending_in (id : string) (m : MemoryStore) : nat :=
  match rs_leases m !! id with
  | Some l => if bool_decide (ml_state l = LeasePending) then 1 else 0
  | None => 0
  end.

Definition settled (id : string) (evs : list rate_event) : nat :=
  length (List.filter (fun e => match e with EvSettled i => bool_decide (i = id) | _ => false end) evs).
Definition admitted (id : string) (evs : list rate_event) : nat :=
  length (List.filter (fun e => match e with EvAdmitted _ r => bool_decide (rv_ID r = id) | _ => false end) evs).

Lemma leases_settle now l actual m : rs_leases (settle now l actual m) = rs_leases m.
Proof.
  unfold settle. revert m. induction (ml_tokens l) as [|r rs IH]; intros m; cbn [fold_left]; [done|]. by rewrite IH.
Qed.

Lemma pending_cleanup_lease id now m e : (pending_in id (cleanup_lease now m e) <= pending_in id m)%nat.
Proof.
  destruct e as [id' l]. unfold cleanup_lease, pending_in.
  destruct (decide (id' = id)) as [->|Hne].
  - destruct (bool_decide (ml_state l = LeasePending)) eqn:Ep; simpl.
    + destruct (bool_decide (ml_pendingUntil l <= now)%Z); simpl.
      * destruct (bool_decide (_ <= now)%Z); simpl; [rewrite lookup_delete_eq|rewrite lookup_insert_eq]; simpl; lia.
      * rewrite Ep. simpl. lia.
    + rewrite Ep. simpl. destruct (bool_decide (_ <= now)%Z); simpl; [rewrite lookup_delete_eq; lia|lia].
  - destruct (bool_decide (ml_state l = LeasePending)) eqn:Ep; simpl.
    + destruct (bool_decide (ml_pendingUntil l <= now)%Z); simpl.
      * destruct (bool_decide (_ <= now)%Z); simpl; rewrite ?lookup_delete_ne, lookup_insert_ne, leases_settle by done; lia.
      * rewrite Ep. simpl. lia.
    + rewrite Ep. simpl. destruct (bool_decide (_ <= now)%Z); simpl; rewrite ?lookup_delete_ne by done; lia.
Qed.

Lemma pending_cleanup id now m : (pending_in id (cleanup enum now m) <= pending_in id m)%nat.
Proof.
  unfold cleanup. generalize (enum (rs_leases m)) as es. intros es. revert m.
  induction es as [|e es IH]; intros m; cbn [fold_left]; [lia|].
  etransitivity; [apply IH|]. apply pending_cleanup_lease.
Qed.

Lemma pending_leases id m m' : rs_leases m' = rs_leases m -> pending_in id m' = pending_in id m.
Proof. unfold pending_in. by intros ->. Qed.

Lemma leases_check_requests now rs m : rs_leases (snd (check_requests now rs m)) = rs_leases m.
Proof. revert m. induction rs as [|r rs IH]; intros m; cbn [check_requests]; [done|]. case_bool_decide; [done|]. by rewrite IH. Qed.

Lemma leases_check_tokens now rs m : rs_leases (snd (check_tokens now rs m)) = rs_leases m.
Proof. revert m. induction rs as [|r rs IH]; intros m; cbn [check_tokens]; [done|]. case_bool_decide; [done|]. by rewrite IH. Qed.

Lemma leases_fold {A} (f : MemoryStore -> A -> MemoryStore) xs m :
  (forall m x, rs_leases (f m x) = rs_leases m) -> rs_leases (fold_left f xs m) = rs_leases m.
Proof. intros Hf. revert m. induction xs as [|x xs IH]; intros m; cbn [fold_left]; [done|]. by rewrite IH, Hf. Qed.

Lemma pending_admit id now r m : (pending_in id (Reserve_grant now r m) <= pending_in id m + if bool_decide (rv_ID r = id) then 1 else 0)%nat.
Proof.
  unfold Reserve_grant, pending_in. cbv zeta. cbn [rs_leases set_field].
  rewrite (leases_fold _ (rv_Tokens r)), (leases_fold _ (rv_Requests r)) by done.
  case_bool_decide as Hid; [subst; rewrite lookup_insert_eq; simpl; lia|]. rewrite lookup_insert_ne by done. lia.
Qed.

Lemma pending_terminate id requested ctxErr now id' actual m : requested <> LeasePending ->
  let '(ok, m') := terminate enum requested ctxErr now id' actual m in
  (pending_in id m' + (if is_ok ok && bool_decide (id' = id) then 1 else 0) <= pending_in id m)%nat.
Proof.
  intros Hreq. unfold terminate. destruct ctxErr; [simpl; lia|]. pose proof (pending_cleanup id now m) as Hc.
  set (m1 := cleanup enum now m) in *. destruct (rs_leases m1 !! id') as [l|] eqn:Hl; [|simpl; lia].
  destruct (bool_decide (ml_state l = LeasePending)) eqn:Ep; cbn [negb]; cbn beta iota; [|simpl; lia].
  cbn [is_ok andb]. etransitivity; [|exact Hc]. unfold pending_in. cbn [rs_leases set_field]. rewrite leases_settle.
  destruct (decide (id' = id)) as [<-|Hid].
  - rewrite lookup_insert_eq, Hl. cbn [ml_state set_field]. 
    rewrite (bool_decide_false (requested = LeasePending)) by done. rewrite Ep. by rewrite bool_decide_true.
  - rewrite lookup_insert_ne by done. rewrite (bool_decide_false (id' = id)) by done. lia.
Qed.

Lemma settled_app id e1 e2 : settled id (e1 ++ e2) = (settled id e1 + settled id e2)%nat.
Proof. unfold settled. by rewrite List.filter_app, length_app. Qed.
Lemma admitted_app id e1 e2 : admitted id (e1 ++ e2) = (admitted id e1 + admitted id e2)%nat.
Proof. unfold admitted. by rewrite List.filter_app, length_app. Qed.

Lemma reserve_pending id t ctxErr r m : let '(evs, m') := rate_step m (t, RReserve ctxErr r) in
  (pending_in id m' + settled id evs <= pending_in id m + admitted id evs)%nat.
Proof.
  unfold rate_step, Reserve. destruct ctxErr as [e|]; [unfold settled, admitted; simpl; lia|].
  destruct (bool_decide (rv_ID r = "")); [unfold settled, admitted; simpl; lia|].
  destruct (validateReservation r) as [u|e]; [|unfold settled, admitted; simpl; lia].
  pose proof (pending_cleanup id t m) as Hc. set (m1 := cleanup enum t m) in *.
  destruct (rs_leases m1 !! rv_ID r) as [l|] eqn:Hl; cbn beta iota.
  { rewrite bool_decide_false by done. unfold settled, admitted. simpl. lia. }
  pose proof (pending_leases id _ _ (leases_check_requests t (rv_Requests r) m1)) as H1.
  destruct (check_requests t (rv_Requests r) m1) as [ok m2]. cbn [snd] in H1.
  destruct ok; cbn [negb]; cbn beta iota; [|unfold settled, admitted; simpl; lia].
  pose proof (pending_leases id _ _ (leases_check_tokens t (rv_Tokens r) m2)) as H2.
  destruct (check_tokens t (rv_Tokens r) m2) as [ok m3]. cbn [snd] in H2.
  destruct ok; cbn [negb]; cbn beta iota; [|unfold settled, admitted; simpl; lia].
  rewrite bool_decide_true by done. pose proof (pending_admit id t r m3) as H3.
  unfold settled, admitted. simpl. case_bool_decide; simpl; lia.
Qed.

Lemma step_pending id m e : let '(evs, m') := rate_step m e in
  (pending_in id m' + settled id evs <= pending_in id m + admitted id evs)%nat.
Proof.
  destruct e as [t [ctxErr r|ctxErr id' actual|ctxErr id']]; [apply reserve_pending| |]; unfold rate_step, Commit, Release.
  - pose proof (pending_terminate id LeaseCommitted ctxErr t id' (if bool_decide (actual < 0)%Z then 0%Z else actual) m
      ltac:(done)) as Ht. destruct (terminate enum _ ctxErr t id' _ m) as [ok m'].
    destruct (is_ok ok); unfold settled, admitted; simpl in *; [case_bool_decide; simpl; lia|lia].
  - pose proof (pending_terminate id LeaseReleased ctxErr t id' (-1) m ltac:(done)) as Ht.
    destruct (terminate enum _ ctxErr t id' _ m) as [ok m'].
    destruct (is_ok ok); unfold settled, admitted; simpl in *; [case_bool_decide; simpl; lia|lia].
Qed.

Lemma run_pending id es m : let '(evs, m') := rate_run m es in
  (pending_in id m' + settled id evs <= pending_in id m + admitted id evs)%nat.
Proof.
  revert m. induction es as [|e es IH]; intros m; cbn [rate_run]; [unfold settled, admitted; simpl; lia|].
  pose proof (step_pending id m e) as Hs. destruct (rate_step m e) as [evs m1]. specialize (IH m1).
  destruct (rate_run m1 es) as [evs' m2]. rewrite settled_app, admitted_app. lia.
Qed.

End Runs.

(** A sliding request limit holds over every window: whatever sequence of
    reservations, settlements and expiries, no [L + 1] admissions against a counter
    with limit [L] fall within one window. *)
Theorem sliding_window_bounded enum cfg k L w start es i a b :
  (0 < L)%nat -> Sorted Z.le (start :: map fst es) ->
  Forall (fun e => match e.2 with RReserve _ r => configured k L w r | _ => True end) es ->
  let log := admissions k (fst (rate_run enum (mkMemoryStore ∅ ∅ cfg) es)) in
  log !! i = Some a -> log !! (i + L)%nat = Some b -> (a + w < b)%Z.
Proof.
  intros HL Hs Hconf log. unfold log.
  pose proof (run_window enum k L w HL es start (mkMemoryStore ∅ ∅ cfg) [] Hs Hconf) as Hrun.
  destruct (rate_run enum (mkMemoryStore ∅ ∅ cfg) es) as [evs m]. apply Hrun.
  repeat split; try constructor. by intros ? ? ? Hnil; rewrite lookup_nil in Hnil.
Qed.

(** Two requests per minute: of four attempts the third is refused, the fourth is
    admitted when the first has left the window. *)
Definition two_per_minute (id : string) : Reservation :=
  mkReservation id [mkRequestCounter "key:a" 2 60 SlidingWindow] [].
Definition four_attempts : list (Z * rate_op) :=
  [(0%Z, RReserve None (two_per_minute "1")); (10%Z, RReserve None (two_per_minute "2"));
   (60%Z, RReserve None (two_per_minute "3")); (61%Z, RReserve None (two_per_minute "4"))].

Lemma sliding_window_bounded_witness :
  admissions "key:a" (fst (rate_run map_to_list (mkMemoryStore ∅ ∅ (mkStoreConfig 0 0 false false)) four_attempts))
    = [0; 10; 61]%Z /\ (0 + 60 < 61)%Z.
Proof.
  split; [vm_compute; reflexivity|].
  refine (sliding_window_bounded map_to_list (mkStoreConfig 0 0 false false) "key:a" 2 60 0 four_attempts 0 0 61 _ _ _ _ _).
  - lia.
  - cbn [map fst four_attempts]. repeat (apply Sorted_cons; [|first [apply HdRel_cons; lia | apply HdRel_nil]]). apply Sorted_nil.
  - repeat constructor; try (by apply not_elem_of_nil); simpl in *;
      match goal with H : _ ∈ [_] |- _ => apply list_elem_of_singleton in H; subst; done end.
  - vm_compute; reflexivity.
  - vm_compute; reflexivity.
Defined.

(** A lease is settled at most once per admission: in every run from an empty store
    Commit and Release together succeed for an ID at most as often as a reservation
    with this ID was admitted. *)
Theorem leases_settle_once enum cfg es id :
  (settled id (fst (rate_run enum (mkMemoryStore ∅ ∅ cfg) es)) <=
   admitted id (fst (rate_run enum (mkMemoryStore ∅ ∅ cfg) es)))%nat.
Proof.
  pose proof (run_pending enum id es (mkMemoryStore ∅ ∅ cfg)) as Hr.
  destruct (rate_run enum (mkMemoryStore ∅ ∅ cfg) es) as [evs m]. unfold pending_in in Hr at 2. cbn [fst rs_leases] in *.
  rewrite lookup_empty in Hr. lia.
Qed.
