(* ===== verification/RateTokens.v ===== *)
(** Token accounting of the rate-limit store: the reserved amount of a sliding counter
    is what its pending leases hold, and no admission exceeds the token limit. *)
From stdpp Require Import sorting.
From S2P Require Import Prelude Errors Messages RateStore RateProps.

(** * What the leases hold *)

Definition sum_Z (xs : list Z) : Z := fold_right Z.add 0%Z xs.

Definition amount_of (k : string) (ts : list TokenReservation) : Z :=
  sum_Z (map (fun t => if bool_decide (tk_Key t = k) then tk_Amount t else 0%Z) ts).

Definition lease_amount (k : string) (l : memoryLease) : Z :=
  if bool_decide (ml_state l = LeasePending) then amount_of k (ml_tokens l) else 0%Z.

(** A quantity summed over a map of leases. *)
Definition total (f : memoryLease -> Z) (m : gmap string memoryLease) : Z :=
  map_fold (fun _ l acc => (f l + acc)%Z) 0%Z m.

(** The estimates of the pending leases against the token counter of a key. *)
Definition pending_amount (k : string) (m : MemoryStore) : Z :=
  total (lease_amount k) (rs_leases m).

(** The sum of a list of token events. *)
Definition token_sum (es : list (Z * Z)) : Z := sum_Z (map snd es).

Section LeaseSum.
Variable f : memoryLease -> Z.

Lemma total_fresh id l m : m !! id = None -> total f (<[id := l]> m) = (f l + total f m)%Z.
Proof. intros Hid. unfold total. rewrite map_fold_insert_L; [done| |done]. intros. lia. Qed.

Lemma total_delete id l m : m !! id = Some l -> total f m = (f l + total f (delete id m))%Z.
Proof.
  intros Hid. rewrite <- (total_fresh id l) by apply lookup_delete_eq. by rewrite insert_delete_id.
Qed.

Lemma total_update id l l' m : m !! id = Some l -> total f (<[id := l']> m) = (total f m - f l + f l')%Z.
Proof.
  intros Hid. rewrite (total_delete id l m Hid). rewrite <- (insert_delete_eq m id l').
  rewrite total_fresh by apply lookup_delete_eq. lia.
Qed.

Lemma lease_total_nonneg m : (forall id l, m !! id = Some l -> (0 <= f l)%Z) -> (0 <= total f m)%Z.
Proof.
  revert m. apply (map_ind (fun m => (forall id l, m !! id = Some l -> (0 <= f l)%Z) -> (0 <= total f m)%Z)).
  - intros _. done.
  - intros id l m Hid IH Hall. rewrite total_fresh by done.
    assert (0 <= f l)%Z by (apply (Hall id); apply lookup_insert_eq). assert (0 <= total f m)%Z; [|lia].
    apply IH. intros id' l' Hl'. apply (Hall id'). rewrite lookup_insert_ne; [done|]. by intros ->; simplify_eq.
Qed.

Lemma lease_total_part id l m : (forall id l, m !! id = Some l -> (0 <= f l)%Z) -> m !! id = Some l -> (f l <= total f m)%Z.
Proof.
  intros Hall Hid. rewrite (total_delete id l m Hid). assert (0 <= total f (delete id m))%Z; [|lia].
  apply lease_total_nonneg. intros id' l' [_ Hl']%lookup_delete_Some. eauto.
Qed.

End LeaseSum.

(** * One sliding token counter *)

Section Tokens.
Variables (k : string) (L w : Z).

(** Reservations use the counter once, with this configuration. *)
Definition ok_tokens (ts : list TokenReservation) : Prop :=
  NoDup (map tk_Key ts) /\
  forall t, t ∈ ts -> tk_Key t = k -> tk_Strategy t = SlidingWindow /\ tk_Window t = w /\ tk_Limit t = L.

Definition amounts_ok (ts : list TokenReservation) : Prop := forall t, t ∈ ts -> (0 <= tk_Amount t)%Z.

(** The counter as the store would find or create it. *)
Definition tview (m : MemoryStore) : memoryCounter :=
  default (new_counter SlidingWindow w) (rs_counters m !! ("t:" +:+ k)).

Definition counter_shape (c : memoryCounter) : Prop :=
  mc_strategy c = SlidingWindow /\ mc_window c = w /\ Forall (fun e => 0 <= e.2)%Z (mc_tokens c).

Lemma amount_nonneg ts : amounts_ok ts -> (0 <= amount_of k ts)%Z.
Proof.
  induction ts as [|t ts IH]; intros Hok; [done|]. unfold amount_of in *. cbn [map sum_Z fold_right].
  assert (0 <= tk_Amount t)%Z by (apply Hok; set_solver).
  assert (0 <= sum_Z (map (fun t => if bool_decide (tk_Key t = k) then tk_Amount t else 0%Z) ts))%Z.
  { apply IH. intros x Hx. apply Hok. set_solver. }
  unfold sum_Z in *. case_bool_decide; lia.
Qed.

Lemma tview_token key strategy window f m :
  (key = k -> strategy = SlidingWindow /\ window = w) ->
  tview (on_counter ("t:" +:+ key) strategy window f m) =
    if bool_decide (key = k) then f (tview m) else tview m.
Proof.
  intros Hc. unfold tview, on_counter, counter. cbn [rs_counters set_field]. case_bool_decide as Hk.
  - destruct (Hc Hk) as [-> ->]. subst key. rewrite lookup_insert_eq. done.
  - rewrite lookup_insert_ne; [done|]. intros Heq. apply Hk. by injection Heq.
Qed.

Lemma tview_request key strategy window f m : tview (on_counter ("r:" +:+ key) strategy window f m) = tview m.
Proof. unfold tview, on_counter. cbn [rs_counters set_field]. rewrite lookup_insert_ne; done. Qed.

(** Events are dropped from the front. *)
Lemma token_sum_drop n es : Forall (fun e => 0 <= e.2)%Z es -> (token_sum (drop n es) <= token_sum es)%Z.
Proof.
  revert n. induction es as [|e es IH]; intros [|n] Hall; cbn [drop]; try done. apply Forall_cons in Hall as [He Hall].
  specialize (IH n Hall). unfold token_sum, sum_Z in *. cbn [map fold_right]. lia.
Qed.

Lemma token_sum_nonneg es : Forall (fun e => 0 <= e.2)%Z es -> (0 <= token_sum es)%Z.
Proof.
  induction 1 as [|e es He Hall IH]; unfold token_sum, sum_Z in *; cbn [map fold_right]; lia.
Qed.

Lemma token_sum_snoc es e : token_sum (es ++ [e]) = (token_sum es + e.2)%Z.
Proof.
  induction es as [|x es IH]; unfold token_sum, sum_Z in *; cbn [map app fold_right] in *; lia.
Qed.

Lemma prune_tokens now c : counter_shape c -> counter_shape (prune now c) /\
  mc_reserved (prune now c) = mc_reserved c /\ (token_sum (mc_tokens (prune now c)) <= token_sum (mc_tokens c))%Z.
Proof.
  intros (Hs & Hw & Hall). unfold prune. rewrite Hs. unfold counter_shape. cbn.
  split_and!; try done; [by apply Forall_drop|by apply token_sum_drop].
Qed.

(** Without overflow the counter's sum is exact. *)
Lemma tokenCount_exact c : counter_shape c -> (token_sum (mc_tokens c) < 9223372036854775808)%Z ->
  tokenCount c = token_sum (mc_tokens c).
Proof.
  intros (Hs & _ & Hall) Hsum. unfold tokenCount. rewrite Hs.
  enough (forall acc, (0 <= acc)%Z -> (acc + token_sum (mc_tokens c) < 9223372036854775808)%Z ->
    fold_left (fun total e => i64 (total + e.2)) (mc_tokens c) acc = (acc + token_sum (mc_tokens c))%Z) as H.
  { rewrite H by lia. lia. }
  clear Hsum. induction (mc_tokens c) as [|e es IH]; intros acc Hacc Hlt; cbn [fold_left]; [cbn; lia|].
  apply Forall_cons in Hall as [He Hall]. pose proof (token_sum_nonneg es Hall).
  assert (Hc : token_sum (e :: es) = (e.2 + token_sum es)%Z) by done. rewrite Hc in *.
  rewrite i64_small by lia. rewrite IH by (done || lia). lia.
Qed.

(** ** Settlement *)

(** What the settlement of a lease charges to the counter. *)
Definition charge (actual : Z) (ts : list TokenReservation) : Z :=
  sum_Z (map (fun t => if bool_decide (tk_Key t = k)
    then (if bool_decide (actual < 0)%Z then tk_Amount t else actual) else 0%Z) ts).

Lemma charge_estimate ts : charge (-1) ts = amount_of k ts.
Proof. done. Qed.

Lemma charge_absent actual ts : k ∉ map tk_Key ts -> charge actual ts = 0%Z.
Proof.
  induction ts as [|t ts IH]; intros Hk; [done|]. unfold charge, sum_Z in *. cbn [map fold_right] in *.
  rewrite bool_decide_false by set_solver. rewrite IH by set_solver. done.
Qed.

Lemma charge_actual actual ts : (0 <= actual)%Z -> NoDup (map tk_Key ts) -> (charge actual ts <= actual)%Z.
Proof.
  intros Ha. induction ts as [|t ts IH]; intros Hnd; [done|]. cbn [map] in Hnd. apply NoDup_cons in Hnd as [Hn Hnd].
  assert (Hc : charge actual (t :: ts) = ((if bool_decide (tk_Key t = k)
    then (if bool_decide (actual < 0)%Z then tk_Amount t else actual) else 0) + charge actual ts)%Z) by done.
  rewrite Hc. case_bool_decide as Hk; [|specialize (IH Hnd); lia].
  rewrite charge_absent by (by rewrite <- Hk). rewrite bool_decide_false by lia. lia.
Qed.

Lemma settle_one now actual t c : counter_shape c -> (0 <= tk_Amount t <= mc_reserved c)%Z ->
  (mc_reserved c < 9223372036854775808)%Z ->
  let n := if bool_decide (actual < 0)%Z then tk_Amount t else actual in
  let c1 := prune now c in
  let reserved := i64 (mc_reserved c1 - tk_Amount t) in
  let c' := addTokens now n (c1 <| mc_reserved := if bool_decide (reserved < 0)%Z then 0%Z else reserved |>) in
  counter_shape c' /\ mc_reserved c' = (mc_reserved c - tk_Amount t)%Z /\
  (token_sum (mc_tokens c') <= token_sum (mc_tokens c) + n)%Z.
Proof.
  intros Hc Ht Hmax n c1 reserved c'. destruct (prune_tokens now c Hc) as ((Hs & Hw & Hall) & Hr & Hsum). fold c1 in Hs, Hw, Hall, Hr, Hsum.
  assert (Hres : reserved = (mc_reserved c - tk_Amount t)%Z) by (unfold reserved; rewrite Hr, i64_small; lia).
  assert (Hn : (0 <= n)%Z) by (unfold n; case_bool_decide; lia).
  unfold c', addTokens. rewrite Hres. rewrite (bool_decide_false (_ < 0)%Z) by lia.
  case_bool_decide as Hn0; unfold counter_shape; cbn [mc_strategy mc_window mc_tokens mc_reserved set_field].
  - split_and!; try done. change (mc_tokens (c1 <| mc_reserved := (mc_reserved c - tk_Amount t)%Z |>)) with (mc_tokens c1). lia.
  - change (mc_strategy (c1 <| mc_reserved := (mc_reserved c - tk_Amount t)%Z |>)) with (mc_strategy c1). rewrite Hs.
    cbn [mc_strategy mc_window mc_tokens mc_reserved set_field]. split_and!; try done.
    + apply Forall_app. split; [done|by constructor].
    + change (mc_tokens (c1 <| mc_reserved := (mc_reserved c - tk_Amount t)%Z |>)) with (mc_tokens c1).
      rewrite token_sum_snoc. cbn [snd]. lia.
Qed.

Lemma settle_counter_tview now actual t m :
  (tk_Key t = k -> tk_Strategy t = SlidingWindow /\ tk_Window t = w) ->
  tview (settle_counter now actual t m) =
    if bool_decide (tk_Key t = k) then
      let n := if bool_decide (actual < 0)%Z then tk_Amount t else actual in
      let c1 := prune now (tview m) in
      let reserved := i64 (mc_reserved c1 - tk_Amount t) in
      addTokens now n (c1 <| mc_reserved := if bool_decide (reserved < 0)%Z then 0%Z else reserved |>)
    else tview m.
Proof. apply tview_token. Qed.

Lemma settle_tokens now l actual m :
  (forall t, t ∈ ml_tokens l -> tk_Key t = k -> tk_Strategy t = SlidingWindow /\ tk_Window t = w) ->
  amounts_ok (ml_tokens l) -> counter_shape (tview m) ->
  (amount_of k (ml_tokens l) <= mc_reserved (tview m) < 9223372036854775808)%Z ->
  let c' := tview (settle now l actual m) in
  counter_shape c' /\ mc_reserved c' = (mc_reserved (tview m) - amount_of k (ml_tokens l))%Z /\
  (token_sum (mc_tokens c') <= token_sum (mc_tokens (tview m)) + charge actual (ml_tokens l))%Z.
Proof.
  unfold settle. revert m. induction (ml_tokens l) as [|t ts IH]; intros m Hcfg Hamt Hshape Hres; cbn [fold_left].
  { split_and!; [done|cbn; lia|cbn; lia]. }
  assert (Ht : (0 <= tk_Amount t)%Z) by (apply Hamt; set_solver).
  assert (Hts : amounts_ok ts) by (intros x Hx; apply Hamt; set_solver). pose proof (amount_nonneg ts Hts) as Hts0.
  assert (Ha : amount_of k (t :: ts) = ((if bool_decide (tk_Key t = k) then tk_Amount t else 0) + amount_of k ts)%Z) by done.
  assert (Hc : charge actual (t :: ts) = ((if bool_decide (tk_Key t = k)
    then (if bool_decide (actual < 0)%Z then tk_Amount t else actual) else 0) + charge actual ts)%Z) by done.
  rewrite Ha in *. rewrite Hc. specialize (IH (settle_counter now actual t m)).
  pose proof (settle_counter_tview now actual t m ltac:(apply Hcfg; set_solver)) as Hv. case_bool_decide as Hk.
  - destruct (settle_one now actual t (tview m) Hshape ltac:(lia) ltac:(lia)) as (H1 & H2 & H3).
    cbv zeta in H1, H2, H3. cbv zeta in Hv. rewrite <- Hv in H1, H2, H3.
    destruct IH as (I1 & I2 & I3); [set_solver|done|done|lia|]. split_and!; [done|lia|lia].
  - rewrite Hv in IH. destruct IH as (I1 & I2 & I3); [set_solver|done|done|lia|]. split_and!; [done|lia|lia].
Qed.

(** ** The accounting invariant *)

Definition lease_ok (l : memoryLease) : Prop := ok_tokens (ml_tokens l) /\ amounts_ok (ml_tokens l).

(** The reserved amount is what the pending leases hold; with the recorded tokens it
    stays within [B]. *)
Definition acct (B : Z) (m : MemoryStore) : Prop :=
  counter_shape (tview m) /\ mc_reserved (tview m) = pending_amount k m /\
  map_Forall (fun _ l => lease_ok l) (rs_leases m) /\
  (token_sum (mc_tokens (tview m)) + pending_amount k m <= B)%Z.

Lemma lease_amount_nonneg l : lease_ok l -> (0 <= lease_amount k l)%Z.
Proof. intros [_ Ha]. unfold lease_amount. case_bool_decide; [by apply amount_nonneg|done]. Qed.

Lemma pending_nonneg m : map_Forall (fun _ l => lease_ok l) (rs_leases m) -> (0 <= pending_amount k m)%Z.
Proof. intros Hall. apply lease_total_nonneg. intros id l Hl. apply lease_amount_nonneg. by apply (Hall id). Qed.

Lemma pending_part m id l : map_Forall (fun _ l => lease_ok l) (rs_leases m) -> rs_leases m !! id = Some l ->
  (lease_amount k l <= pending_amount k m)%Z.
Proof.
  intros Hall Hl. apply (lease_total_part _ id); [|done]. intros id' l' Hl'. apply lease_amount_nonneg. by apply (Hall id').
Qed.

(** A pending lease is settled and becomes terminal. *)
Lemma acct_settle now B m id l l' actual : acct B m -> (B < 9223372036854775808)%Z ->
  rs_leases m !! id = Some l -> ml_state l = LeasePending -> ml_state l' <> LeasePending -> ml_tokens l' = ml_tokens l ->
  let m1 := settle now l actual m in
  acct (B + Z.max 0 actual) (m1 <| rs_leases := <[id := l']> (rs_leases m1) |>).
Proof.
  intros (Hshape & Hres & Hall & HB) Hmax Hl Hp Hp' Htok m1.
  pose proof (Hall id l Hl) as [[Hnd Hcfg] Hamt]. pose proof (pending_part m id l Hall Hl) as Hpart.
  pose proof (token_sum_nonneg (mc_tokens (tview m)) (proj2 (proj2 Hshape))) as Hsum.
  unfold lease_amount in Hpart. rewrite bool_decide_true in Hpart by done.
  destruct (settle_tokens now l actual m) as (S1 & S2 & S3); [naive_solver|done|done|lia|]. fold m1 in S1, S2, S3.
  assert (Hpend : pending_amount k (m1 <| rs_leases := <[id := l']> (rs_leases m1) |>) =
    (pending_amount k m - amount_of k (ml_tokens l))%Z).
  { unfold pending_amount. cbn [rs_leases set_field]. unfold m1. rewrite leases_settle, (total_update _ id l l') by done.
    unfold lease_amount at 2 3. rewrite (bool_decide_true (ml_state l = _)), bool_decide_false by done. lia. }
  assert (Hch : (charge actual (ml_tokens l) <= amount_of k (ml_tokens l) + Z.max 0 actual)%Z).
  { pose proof (amount_nonneg _ Hamt). destruct (decide (actual < 0)%Z) as [Hneg|Hpos].
    - assert (charge actual (ml_tokens l) = amount_of k (ml_tokens l)); [|lia].
      unfold charge, amount_of. by rewrite bool_decide_true.
    - pose proof (charge_actual actual (ml_tokens l) ltac:(lia) Hnd). lia. }
  unfold acct. rewrite Hpend. change (tview (m1 <| rs_leases := _ |>)) with (tview m1). split_and!; [done|lia| |lia].
  cbn [rs_leases set_field]. unfold m1. rewrite leases_settle. apply map_Forall_insert_2; [|done].
  unfold lease_ok. rewrite Htok. by apply (Hall id).
Qed.

(** A terminal lease is dropped. *)
Lemma acct_delete B m id l : acct B m -> rs_leases m !! id = Some l -> ml_state l <> LeasePending ->
  acct B (m <| rs_leases := delete id (rs_leases m) |>).
Proof.
  intros (Hshape & Hres & Hall & HB) Hl Hp.
  assert (Hpend : pending_amount k (m <| rs_leases := delete id (rs_leases m) |>) = pending_amount k m).
  { unfold pending_amount. cbn [rs_leases set_field]. rewrite (total_delete _ id l (rs_leases m) Hl).
    unfold lease_amount at 2. by rewrite bool_decide_false. }
  unfold acct. rewrite Hpend. change (tview (m <| rs_leases := _ |>)) with (tview m). split_and!; try done.
  cbn [rs_leases set_field]. by apply map_Forall_delete.
Qed.

Lemma acct_cleanup_lease now B m id l : acct B m -> (B < 9223372036854775808)%Z -> rs_leases m !! id = Some l ->
  acct B (cleanup_lease now m (id, l)) /\
  forall id', id' <> id -> rs_leases (cleanup_lease now m (id, l)) !! id' = rs_leases m !! id'.
Proof.
  intros HA HB Hl. unfold cleanup_lease. destruct (bool_decide (ml_state l = LeasePending)) eqn:Ep; bool_hyps; cbn [andb].
  - destruct (bool_decide (ml_pendingUntil l <= now)%Z); cbv beta iota zeta.
    + set (l' := l <| ml_state := LeaseExpired |> <| ml_terminalUntil := _ |>).
      pose proof (acct_settle now B m id l l' (-1) HA HB Hl Ep ltac:(done) ltac:(done)) as HS. cbv zeta in HS.
      rewrite Z.max_l, Z.add_0_r in HS by lia. destruct (negb _ && _).
      * split; [eapply (acct_delete B _ id l'); [exact HS|cbn; by rewrite lookup_insert_eq|done]|].
        intros id' Hne. cbn. by rewrite lookup_delete_ne, lookup_insert_ne, leases_settle.
      * split; [exact HS|]. intros id' Hne. cbn. by rewrite lookup_insert_ne, leases_settle.
    + rewrite bool_decide_true by done. done.
  - destruct (negb _ && _); [|done]. split; [by eapply acct_delete|]. intros id' Hne. cbn. by rewrite lookup_delete_ne.
Qed.

Lemma acct_cleanup_list now B es m : acct B m -> (B < 9223372036854775808)%Z -> NoDup es.*1 ->
  (forall id l, (id, l) ∈ es -> rs_leases m !! id = Some l) -> acct B (fold_left (cleanup_lease now) es m).
Proof.
  intros HA HB. revert m HA. induction es as [|[id l] es IH]; intros m HA Hnd Hin; cbn [fold_left]; [done|].
  apply NoDup_cons in Hnd as [Hn Hnd]. destruct (acct_cleanup_lease now B m id l HA HB) as [HA' Hrest]; [set_solver|].
  apply IH; [done|done|]. intros id' l' Hin'. rewrite Hrest; [set_solver|]. intros ->. apply Hn.
  apply list_elem_of_fmap. by exists (id, l').
Qed.

Variable enum : gmap string memoryLease -> list (string * memoryLease).
Hypothesis enum_perm : forall m, enum m ≡ₚ map_to_list m.

Lemma acct_cleanup now B m : acct B m -> (B < 9223372036854775808)%Z -> acct B (cleanup enum now m).
Proof.
  intros HA HB. apply acct_cleanup_list; [done|done| |].
  - rewrite enum_perm. apply NoDup_fst_map_to_list.
  - intros id l. rewrite enum_perm. apply elem_of_map_to_list.
Qed.

(** ** Admission *)

Lemma tview_check_requests now rs m : tview (snd (check_requests now rs m)) = tview m.
Proof.
  revert m. induction rs as [|r rs IH]; intros m; cbn [check_requests]; [done|].
  case_bool_decide; cbn [snd]; [|rewrite IH]; apply tview_request.
Qed.

Lemma amount_single ts t : NoDup (map tk_Key ts) -> t ∈ ts -> tk_Key t = k -> amount_of k ts = tk_Amount t.
Proof.
  induction ts as [|x ts IH]; intros Hnd Hin Hk; [set_solver|]. cbn [map] in Hnd. apply NoDup_cons in Hnd as [Hn Hnd].
  assert (Ha : amount_of k (x :: ts) = ((if bool_decide (tk_Key x = k) then tk_Amount x else 0) + amount_of k ts)%Z) by done.
  rewrite Ha. apply list_elem_of_In in Hin. destruct Hin as [->|Hin].
  - rewrite bool_decide_true by done. rewrite <- (charge_estimate ts), charge_absent; [lia|]. by rewrite <- Hk.
  - apply list_elem_of_In in Hin. rewrite bool_decide_false.
    + rewrite IH by done. lia.
    + intros Hx. apply Hn. rewrite Hx, <- Hk. apply list_elem_of_In, in_map. by apply list_elem_of_In.
Qed.

Lemma check_tokens_room now ts m B : (forall t, t ∈ ts -> tk_Key t = k -> tk_Strategy t = SlidingWindow /\ tk_Window t = w /\ tk_Limit t = L) ->
  amounts_ok ts -> counter_shape (tview m) -> (0 <= mc_reserved (tview m))%Z ->
  (token_sum (mc_tokens (tview m)) + mc_reserved (tview m) <= B)%Z ->
  (forall t, t ∈ ts -> tk_Key t = k -> (B + tk_Amount t < 9223372036854775808)%Z) ->
  let '(ok, m') := check_tokens now ts m in
  counter_shape (tview m') /\ mc_reserved (tview m') = mc_reserved (tview m) /\
  (token_sum (mc_tokens (tview m')) <= token_sum (mc_tokens (tview m)))%Z /\
  (ok = true -> forall t, t ∈ ts -> tk_Key t = k ->
    (token_sum (mc_tokens (tview m')) + mc_reserved (tview m') + tk_Amount t <= L)%Z).
Proof.
  revert m. induction ts as [|t ts IH]; intros m Hcfg Hamt Hshape H0 HB Hmax; cbn [check_tokens].
  { split_and!; try done. intros _ t Ht. set_solver. }
  set (m1 := on_counter _ _ _ (prune now) m). set (c := counter _ _ _ m1).
  assert (Hv : tview m1 = if bool_decide (tk_Key t = k) then prune now (tview m) else tview m)
    by (apply tview_token; intros Hk; destruct (Hcfg t ltac:(set_solver) Hk) as (? & ? & _); done).
  assert (H1 : counter_shape (tview m1) /\ mc_reserved (tview m1) = mc_reserved (tview m) /\
    (token_sum (mc_tokens (tview m1)) <= token_sum (mc_tokens (tview m)))%Z).
  { rewrite Hv. case_bool_decide; [by apply prune_tokens|done]. }
  destruct H1 as (S1 & S2 & S3). clear Hv. case_bool_decide as Hfull; [by split_and!|].
  specialize (IH m1). destruct (check_tokens now ts m1) as [ok m'].
  destruct IH as (I1 & I2 & I3 & I4); [set_solver|intros x Hx; apply Hamt; set_solver|done|lia|lia|set_solver|].
  split_and!; [done|lia|lia|]. intros Hok x Hx Hk. apply list_elem_of_In in Hx. destruct Hx as [->|Hx%list_elem_of_In]; [|by apply I4].
  destruct (Hcfg x ltac:(set_solver) Hk) as (Hst & Hw & HL). pose proof (Hmax x ltac:(set_solver) Hk) as HBx.
  assert (Hc : c = tview m1) by (unfold c, tview, counter; by rewrite Hk, Hst, Hw).
  pose proof (token_sum_nonneg _ (proj2 (proj2 S1))) as Hn. assert (0 <= tk_Amount x)%Z by (apply Hamt; set_solver).
  rewrite Hc, (tokenCount_exact (tview m1)), HL in Hfull by (done || lia). rewrite !i64_small in Hfull by (rewrite ?i64_small; lia). lia.
Qed.

Lemma tview_admit_requests now rs m :
  tview (fold_left (fun m r => on_counter ("r:" +:+ rq_Key r) (rq_Strategy r) (rq_Window r) (addRequest now) m) rs m) = tview m.
Proof. revert m. induction rs as [|r rs IH]; intros m; cbn [fold_left]; [done|]. by rewrite IH, tview_request. Qed.

Definition reserve_tokens (ts : list TokenReservation) (m : MemoryStore) : MemoryStore :=
  fold_left (fun m r => on_counter ("t:" +:+ tk_Key r) (tk_Strategy r) (tk_Window r)
    (fun c => c <| mc_reserved := i64 (mc_reserved c + tk_Amount r) |>) m) ts m.

Lemma tview_reserve_tokens ts m :
  (forall t, t ∈ ts -> tk_Key t = k -> tk_Strategy t = SlidingWindow /\ tk_Window t = w /\ tk_Limit t = L) ->
  amounts_ok ts -> counter_shape (tview m) -> (0 <= mc_reserved (tview m))%Z ->
  (mc_reserved (tview m) + amount_of k ts < 9223372036854775808)%Z ->
  let c := tview (reserve_tokens ts m) in
  counter_shape c /\ mc_reserved c = (mc_reserved (tview m) + amount_of k ts)%Z /\ mc_tokens c = mc_tokens (tview m).
Proof.
  unfold reserve_tokens. revert m. induction ts as [|t ts IH]; intros m Hcfg Hamt Hshape H0 Hmax; cbn [fold_left].
  { split_and!; [done|unfold amount_of; cbn; lia|done]. }
  assert (Ha : amount_of k (t :: ts) = ((if bool_decide (tk_Key t = k) then tk_Amount t else 0) + amount_of k ts)%Z) by done.
  assert (Hts : amounts_ok ts) by (intros x Hx; apply Hamt; set_solver). pose proof (amount_nonneg ts Hts).
  assert (0 <= tk_Amount t)%Z by (apply Hamt; set_solver). rewrite Ha in *.
  set (m1 := on_counter _ _ _ _ m).
  assert (Hv : tview m1 = if bool_decide (tk_Key t = k) then (tview m) <| mc_reserved := i64 (mc_reserved (tview m) + tk_Amount t) |> else tview m)
    by (unfold m1; rewrite tview_token; [done|]; intros Hk; destruct (Hcfg t ltac:(set_solver) Hk) as (? & ? & _); done).
  revert Hv Hmax. destruct (bool_decide (tk_Key t = k)); intros Hv Hmax.
  - rewrite i64_small in Hv by lia.
    assert (Hr1 : mc_reserved (tview m1) = (mc_reserved (tview m) + tk_Amount t)%Z) by (by rewrite Hv).
    assert (Ht1 : mc_tokens (tview m1) = mc_tokens (tview m)) by (by rewrite Hv).
    destruct (IH m1) as (I1 & I2 & I3); [set_solver|done|by rewrite Hv|lia|lia|].
    rewrite Hr1 in I2. rewrite Ht1 in I3. split_and!; [done|lia|done].
  - destruct (IH m1) as (I1 & I2 & I3); [set_solver|done|by rewrite Hv|rewrite Hv; lia|rewrite Hv; lia|].
    rewrite Hv in I2, I3. split_and!; [done|lia|done].
Qed.

Lemma acct_admit now B r m : acct B m -> rs_leases m !! rv_ID r = None -> ok_tokens (rv_Tokens r) -> amounts_ok (rv_Tokens r) ->
  (B + amount_of k (rv_Tokens r) < 9223372036854775808)%Z ->
  acct (B + amount_of k (rv_Tokens r)) (Reserve_grant now r m) /\
  pending_amount k (Reserve_grant now r m) = (pending_amount k m + amount_of k (rv_Tokens r))%Z /\
  mc_tokens (tview (Reserve_grant now r m)) = mc_tokens (tview m).
Proof.
  intros (Hshape & Hres & Hall & HB) Hid Hok Hamt Hmax.
  pose proof (pending_nonneg m Hall) as Hp. pose proof (token_sum_nonneg _ (proj2 (proj2 Hshape))) as Hsum.
  unfold Reserve_grant. set (m1 := fold_left _ (rv_Requests r) m).
  assert (Hv1 : tview m1 = tview m) by apply tview_admit_requests. fold (reserve_tokens (rv_Tokens r) m1).
  destruct (tview_reserve_tokens (rv_Tokens r) m1) as (T1 & T2 & T3);
    [by destruct Hok|done|by rewrite Hv1|rewrite Hv1; lia|rewrite Hv1; lia|]. rewrite Hv1 in T2, T3.
  set (m2 := reserve_tokens (rv_Tokens r) m1) in *. set (l := mkLease _ _ _ _ _).
  assert (Hl2 : rs_leases m2 = rs_leases m).
  { unfold m2, reserve_tokens, m1. by rewrite !leases_fold. }
  cbv zeta. change (tview (m2 <| rs_leases := _ |>)) with (tview m2).
  assert (Hpend : pending_amount k (m2 <| rs_leases := <[rv_ID r := l]> (rs_leases m2) |>) =
    (pending_amount k m + amount_of k (rv_Tokens r))%Z).
  { unfold pending_amount. cbn [rs_leases set_field]. rewrite Hl2, total_fresh by done. 
    change (lease_amount k l) with (amount_of k (rv_Tokens r)). lia. }
  split_and!; [|done|done]. unfold acct. rewrite Hpend. change (tview (m2 <| rs_leases := _ |>)) with (tview m2).
  rewrite T3. split_and!; [done|lia| |lia]. cbn [rs_leases set_field]. rewrite Hl2. by apply map_Forall_insert_2.
Qed.

(** ** Runs *)

(** The most an operation can add to the counter. *)
Definition op_cost (o : rate_op) : Z :=
  match o with
  | RReserve _ r => Z.max 0 (amount_of k (rv_Tokens r))
  | RCommit _ _ actual => Z.max 0 actual
  | RRelease _ _ => 0%Z
  end.
Definition op_ok (o : rate_op) : Prop :=
  match o with RReserve _ r => ok_tokens (rv_Tokens r) | _ => True end.

Lemma acct_mono B B' m : acct B m -> (B <= B')%Z -> acct B' m.
Proof. intros (? & ? & ? & ?) Hle. split_and!; try done. lia. Qed.

Lemma valid_amounts r u : validateReservation r = Ok u -> amounts_ok (rv_Tokens r).
Proof.
  unfold validateReservation. destruct (existsb _ (rv_Requests r)); [done|].
  destruct (existsb _ (rv_Tokens r)) eqn:E; [done|]. intros _ t Ht. apply list_elem_of_In in Ht.
  destruct (decide (0 <= tk_Amount t)%Z) as [|Hneg]; [done|]. exfalso. apply not_true_iff_false in E. apply E.
  apply existsb_exists. exists t. split; [done|]. rewrite (bool_decide_true (tk_Amount t < 0)%Z) by lia. by rewrite orb_true_r.
Qed.

(** A request that is admitted leaves the counter within its limit. *)
Definition within_limit (evs : list rate_event) (r : Reservation) (m : MemoryStore) : Prop :=
  evs <> [] -> k ∈ map tk_Key (rv_Tokens r) -> (token_sum (mc_tokens (tview m)) + pending_amount k m <= L)%Z.

Lemma reserve_acct now ctxErr r B m : acct B m -> ok_tokens (rv_Tokens r) ->
  (B + op_cost (RReserve ctxErr r) < 9223372036854775808)%Z ->
  let '(evs, m') := rate_step enum m (now, RReserve ctxErr r) in
  acct (B + op_cost (RReserve ctxErr r)) m' /\ within_limit evs r m'.
Proof.
  intros HA Hok Hmax. cbn [op_cost] in *.
  assert (Hno : forall m', acct B m' -> acct (B + Z.max 0 (amount_of k (rv_Tokens r))) m' /\ within_limit [] r m').
  { intros m' HA'. split; [eapply acct_mono; [done|lia]|by intros Hn]. }
  unfold rate_step, Reserve. destruct ctxErr as [e|]; [by apply Hno|].
  destruct (bool_decide (rv_ID r = "")); [by apply Hno|].
  destruct (validateReservation r) as [u|e] eqn:Hval; [|by apply Hno]. apply valid_amounts in Hval as Hamt.
  pose proof (amount_nonneg _ Hamt) as Ha. rewrite Z.max_r in * by done.
  set (m1 := cleanup enum now m). assert (HA1 : acct B m1) by (apply acct_cleanup; [done|lia]).
  destruct (rs_leases m1 !! rv_ID r) as [l|] eqn:Hl; cbn beta iota.
  { rewrite bool_decide_false by done. by apply Hno. }
  pose proof (leases_check_requests now (rv_Requests r) m1) as Hl2. pose proof (tview_check_requests now (rv_Requests r) m1) as Hv2.
  destruct (check_requests now (rv_Requests r) m1) as [ok m2]. cbn [snd] in Hl2, Hv2.
  assert (HA2 : acct B m2) by (unfold acct, pending_amount; rewrite Hl2, Hv2; exact HA1).
  destruct ok; cbn [negb]; cbn beta iota; [|by apply Hno]. destruct HA2 as (Hshape & Hres & Hall & HB).
  pose proof (pending_nonneg m2 Hall) as Hp. destruct Hok as [Hnd Hcfg].
  pose proof (check_tokens_room now (rv_Tokens r) m2 B Hcfg Hamt Hshape ltac:(lia) ltac:(lia)
    ltac:(intros t Ht Hk; rewrite <- (amount_single _ t Hnd Ht Hk); lia)) as Hroom.
  pose proof (leases_check_tokens now (rv_Tokens r) m2) as Hl3.
  destruct (check_tokens now (rv_Tokens r) m2) as [ok m3]. cbn [snd] in Hl3. destruct Hroom as (C1 & C2 & C3 & C4).
  assert (Hp3 : pending_amount k m3 = pending_amount k m2) by (unfold pending_amount; by rewrite Hl3).
  assert (HA3 : acct B m3) by (unfold acct; rewrite Hl3, Hp3; split_and!; [done|lia|done|lia]).
  destruct ok; cbn [negb]; cbn beta iota; [|by apply Hno]. rewrite bool_decide_true by done.
  destruct (acct_admit now B r m3 HA3) as (A1 & A2 & A3); [by rewrite Hl3, Hl2|done|done|lia|].
  split; [done|]. intros _ Hin. rewrite A2, A3. apply list_elem_of_In, in_map_iff in Hin as (t & Hk & Hin%list_elem_of_In).
  specialize (C4 eq_refl t Hin Hk). rewrite (amount_single _ t Hnd Hin Hk). lia.
Qed.

Lemma terminate_acct requested ctxErr now id actual B m : requested <> LeasePending -> acct B m ->
  (B + Z.max 0 actual < 9223372036854775808)%Z ->
  acct (B + Z.max 0 actual) (snd (terminate enum requested ctxErr now id actual m)).
Proof.
  intros Hreq HA Hmax. assert (Hno : forall m', acct B m' -> acct (B + Z.max 0 actual) m') by (intros; eapply acct_mono; [done|lia]).
  unfold terminate. destruct ctxErr; [by apply Hno|]. pose proof (acct_cleanup now B m HA ltac:(lia)) as HA1.
  set (m1 := cleanup enum now m) in *. destruct (rs_leases m1 !! id) as [l|] eqn:Hl; [|by apply Hno].
  destruct (bool_decide (ml_state l = LeasePending)) eqn:Ep; cbn [negb]; cbn beta iota; [|by apply Hno].
  bool_hyps. by apply (acct_settle now B m1 id l _ actual HA1 ltac:(lia) Hl Ep).
Qed.

Lemma step_acct now o B m : acct B m -> op_ok o -> (B + op_cost o < 9223372036854775808)%Z ->
  acct (B + op_cost o) (snd (rate_step enum m (now, o))).
Proof.
  intros HA Hok Hmax. destruct o as [ctxErr r|ctxErr id actual|ctxErr id].
  - pose proof (reserve_acct now ctxErr r B m HA Hok Hmax) as Hr. destruct (rate_step _ _ _). by destruct Hr.
  - cbn [op_cost] in *. unfold rate_step, Commit. set (a := if bool_decide (actual < 0)%Z then 0%Z else actual).
    assert (Ha : Z.max 0 a = Z.max 0 actual) by (unfold a; case_bool_decide; lia). rewrite <- Ha in *.
    pose proof (terminate_acct LeaseCommitted ctxErr now id a B m ltac:(done) HA Hmax) as Ht.
    by destruct (terminate _ _ _ _ _ _ _).
  - cbn [op_cost] in *. unfold rate_step, Release.
    pose proof (terminate_acct LeaseReleased ctxErr now id (-1) B m ltac:(done) HA ltac:(lia)) as Ht.
    rewrite (Z.max_l 0 (-1)) in Ht by lia. by destruct (terminate _ _ _ _ _ _ _).
Qed.

Definition run_cost (es : list (Z * rate_op)) : Z := sum_Z (map (fun e => op_cost e.2) es).

Lemma op_cost_nonneg o : (0 <= op_cost o)%Z.
Proof. destruct o; simpl; lia. Qed.

Lemma run_cost_nonneg es : (0 <= run_cost es)%Z.
Proof.
  induction es as [|e es IH]; [done|]. pose proof (op_cost_nonneg e.2).
  unfold run_cost, sum_Z in *. cbn [map fold_right]. lia.
Qed.

Lemma run_cost_snoc es now o : run_cost (es ++ [(now, o)]) = (run_cost es + op_cost o)%Z.
Proof.
  unfold run_cost, sum_Z. induction es as [|e es IH]; cbn [app map fold_right snd] in *; lia.
Qed.

Lemma run_acct es B m : acct B m -> Forall (fun e => op_ok e.2) es -> (B + run_cost es < 9223372036854775808)%Z ->
  acct (B + run_cost es) (snd (rate_run enum m es)).
Proof.
  revert B m. induction es as [|[now o] es IH]; intros B m HA Hok Hmax; cbn [rate_run].
  { by rewrite Z.add_0_r. }
  apply Forall_cons in Hok as [Ho Hok]. assert (Hc : run_cost ((now, o) :: es) = (op_cost o + run_cost es)%Z) by done.
  rewrite Hc in *. pose proof (run_cost_nonneg es). pose proof (step_acct now o B m HA Ho ltac:(lia)) as HA1.
  destruct (rate_step enum m (now, o)) as [evs m1]. specialize (IH _ m1 HA1 Hok ltac:(lia)).
  destruct (rate_run enum m1 es). by rewrite Z.add_assoc.
Qed.

End Tokens.
