(* ===== verification/RateLedger.v ===== *)
(** The token bound of the rate-limit store against a ledger kept outside of it: what the
    calls and their answers say about leases and usage, with no look at the counters. *)
From stdpp Require Import sorting.
From S2P Require Import Prelude Errors Messages RateStore RateProps RateTokens.
Local Open Scope Z_scope.

(** * The ledger *)

(** The longest window that a reservation names, and the time it may stay unsettled. *)
Definition longest (r : Reservation) : Z := fold_right Z.max 0 (map rq_Window (rv_Requests r) ++ map tk_Window (rv_Tokens r)).
Definition lifetime (cfg : StoreConfig) (r : Reservation) : Z := Z.max (2 * longest r) (sc_PendingTTL cfg).

(** Leases that nobody settled, with the end of their lifetime, and usage with its time. *)
Record ledger := mkLedger { lg_open : gmap string (list TokenReservation * Z); lg_used : list (Z * Z) }.

Section Ledger.
Variables (k : string) (cfg : StoreConfig).

(** An admission opens a lease; one with the same ID that nobody settled counts as used at the end of its lifetime. *)
Definition lg_admit (now : Z) (r : Reservation) (x : ledger) : ledger :=
  mkLedger (<[rv_ID r := (rv_Tokens r, now + lifetime cfg r)]> (lg_open x))
    (match lg_open x !! rv_ID r with Some (ts, until) => (until, amount_of k ts) :: lg_used x | None => lg_used x end).

(** A settled lease is usage at the time of its settlement: what was reported, or the estimate. *)
Definition lg_settle (now : Z) (id : string) (reported : option Z) (x : ledger) : ledger :=
  match lg_open x !! id with
  | Some (ts, _) =>
      mkLedger (delete id (lg_open x))
        ((now, match reported with
               | Some n => if bool_decide (k ∈ map tk_Key ts) then Z.max 0 n else 0
               | None => amount_of k ts
               end) :: lg_used x)
  | None => x
  end.

Definition lg_step (e : Z * rate_op) (evs : list rate_event) (x : ledger) : ledger :=
  match e.2, evs with
  | RReserve _ r, _ :: _ => lg_admit e.1 r x
  | RCommit _ id actual, _ :: _ => lg_settle e.1 id (Some actual) x
  | RRelease _ id, _ :: _ => lg_settle e.1 id None x
  | _, [] => x
  end.

Fixpoint lg_run (enum : gmap string memoryLease -> list (string * memoryLease)) (m : MemoryStore) (es : list (Z * rate_op)) (x : ledger)
  : ledger * MemoryStore :=
  match es with
  | [] => (x, m)
  | e :: es => let '(evs, m) := rate_step enum m e in lg_run enum m es (lg_step e evs x)
  end.

(** What happened at a time or later. *)
Definition charged (cut : Z) (es : list (Z * Z)) : Z := token_sum (List.filter (fun e => bool_decide (cut <= e.1)) es).
Definition open_share (cut : Z) (o : list TokenReservation * Z) : Z := if bool_decide (cut <= o.2) then amount_of k o.1 else 0.
Definition open_amount (cut : Z) (m : gmap string (list TokenReservation * Z)) : Z := map_fold (fun _ o acc => open_share cut o + acc) 0 m.

(** Usage since a time; an open lease counts as used at the end of its lifetime. *)
Definition usage (cut : Z) (x : ledger) : Z := charged cut (lg_used x) + open_amount cut (lg_open x).

Lemma open_fresh cut id o m : m !! id = None -> open_amount cut (<[id := o]> m) = open_share cut o + open_amount cut m.
Proof. intros Hid. unfold open_amount. rewrite map_fold_insert_L; [done| |done]. intros. lia. Qed.

Lemma open_delete cut id o m : m !! id = Some o -> open_amount cut m = open_share cut o + open_amount cut (delete id m).
Proof. intros Hid. rewrite <- (open_fresh cut id o) by apply lookup_delete_eq. by rewrite insert_delete_id. Qed.

Lemma charged_cons cut e es : charged cut (e :: es) = (if bool_decide (cut <= e.1) then e.2 else 0) + charged cut es.
Proof. unfold charged. cbn [List.filter]. case_bool_decide; [done|]. lia. Qed.

Lemma charged_snoc cut es e : charged cut (es ++ [e]) = charged cut es + if bool_decide (cut <= e.1) then e.2 else 0.
Proof.
  unfold charged. rewrite List.filter_app. cbn [List.filter]. case_bool_decide; [by rewrite token_sum_snoc|]. rewrite app_nil_r. lia.
Qed.

Lemma charged_nonneg cut es : Forall (fun e => 0 <= e.2) es -> 0 <= charged cut es.
Proof.
  induction 1 as [|e es He _ IH]; [done|]. rewrite charged_cons. case_bool_decide; lia.
Qed.

Lemma charged_all cut es : Forall (fun e => 0 <= e.2) es -> charged cut es <= token_sum es.
Proof.
  induction 1 as [|e es He Hes IH]; [done|]. rewrite charged_cons. unfold token_sum, sum_Z in *. cbn [map fold_right]. case_bool_decide; lia.
Qed.

Lemma charged_past now cut es : Forall (fun e => e.1 <= now) es -> now < cut -> charged cut es = 0.
Proof.
  intros Hes Hc. induction Hes as [|e es He _ IH]; [done|]. rewrite charged_cons, IH. rewrite bool_decide_false by lia. done.
Qed.

Lemma charged_filter cut c es : c <= cut -> charged cut (List.filter (fun e => bool_decide (c <= e.1)) es) = charged cut es.
Proof.
  intros Hc. induction es as [|e es IH]; [done|]. cbn [List.filter]. rewrite (charged_cons cut e es). case_bool_decide as Hk.
  - rewrite charged_cons. by rewrite IH.
  - rewrite IH, bool_decide_false by lia. lia.
Qed.
End Ledger.

(** * The store keeps up with the ledger *)

Section Invariant.
Variables (k : string) (L w : Z) (cfg : StoreConfig) (enum : gmap string memoryLease -> list (string * memoryLease)).
Hypothesis enum_perm : forall m, enum m ≡ₚ map_to_list m.
Implicit Types (x : ledger) (m : MemoryStore) (l : memoryLease).

Abbreviation tokens m := (mc_tokens (tview k w m)).
Abbreviation limit := 9223372036854775808.

Record Inv (now : Z) x m : Prop := mkInv {
  inv_config : rs_config m = cfg;
  inv_sorted : Sorted Z.le (map fst (tokens m));
  inv_times : Forall (fun e => e.1 <= now) (tokens m);
  inv_pending : forall id l, rs_leases m !! id = Some l -> ml_state l = LeasePending -> lg_open x !! id = Some (ml_tokens l, ml_pendingUntil l);
  inv_open : forall id o, lg_open x !! id = Some o -> now < o.2 -> exists l, rs_leases m !! id = Some l /\ ml_state l = LeasePending;
  inv_used : Forall (fun e => e.1 <= now) (lg_used x);
  inv_sum : forall cut, now - w <= cut <= now -> usage k cut x <= charged cut (tokens m) + pending_amount k m }.

Lemma open_le cut (o : gmap string (list TokenReservation * Z)) (ls : gmap string memoryLease) :
  (forall id l, ls !! id = Some l -> 0 <= lease_amount k l) ->
  (forall id p, o !! id = Some p -> cut <= p.2 -> exists l, ls !! id = Some l /\ lease_amount k l = amount_of k p.1) ->
  open_amount k cut o <= total (lease_amount k) ls.
Proof.
  revert ls. induction o as [|id p o Hid IH] using map_ind; intros ls Hls Ho.
  { unfold open_amount. rewrite map_fold_empty. by apply lease_total_nonneg. }
  rewrite open_fresh by done. unfold open_share.
  assert (Hrest : forall ls', (forall id' l, ls' !! id' = Some l -> ls !! id' = Some l) -> (forall id' l, id' <> id -> ls !! id' = Some l -> ls' !! id' = Some l) ->
    open_amount k cut o <= total (lease_amount k) ls').
  { intros ls' H1 H2. apply IH; [intros id' l Hl; eapply Hls; by apply H1|]. intros id' q Hq Hc. assert (id' <> id) by (intros ->; congruence).
    destruct (Ho id' q) as (l & Hl & Ha); [by rewrite lookup_insert_ne|done|]. exists l. split; [by apply H2|done]. }
  case_bool_decide as Hc; [|apply Hrest; done].
  destruct (Ho id p) as (l & Hl & Ha); [by rewrite lookup_insert_eq|done|]. rewrite (total_delete _ id l ls Hl), Ha.
  assert (open_amount k cut o <= total (lease_amount k) (delete id ls)); [|lia]. apply Hrest.
  - intros id' l' [_ H]%lookup_delete_Some. done.
  - intros id' l' Hne H. by rewrite lookup_delete_ne.
Qed.

Lemma lease_amount_pending l : ml_state l = LeasePending -> lease_amount k l = amount_of k (ml_tokens l).
Proof. intros Hp. unfold lease_amount. by rewrite bool_decide_true. Qed.

Lemma lease_amount_terminal l : ml_state l <> LeasePending -> lease_amount k l = 0.
Proof. intros Hp. unfold lease_amount. by rewrite bool_decide_false. Qed.

(** Time passes. *)
Lemma ledger_later B now now' x m : acct k L w B m -> now <= now' -> Inv now x m -> Inv now' x m.
Proof.
  intros (Hshape & _ & Hall & _) Hn [I1 I2 I3 I4 I5 I6 I7]. split; try done.
  - eapply Forall_impl; [exact I3|]. simpl. lia.
  - intros id o Ho Hlt. apply (I5 id o Ho). lia.
  - eapply Forall_impl; [exact I6|]. simpl. lia.
  - intros cut Hc. destruct (decide (cut <= now)) as [Hle|Hgt]; [apply I7; lia|].
    unfold usage. rewrite (charged_past now) by (done || lia).
    pose proof (charged_nonneg cut (tokens m) (proj2 (proj2 Hshape))).
    assert (open_amount k cut (lg_open x) <= pending_amount k m); [|lia]. apply open_le.
    + intros id l Hl. apply (lease_amount_nonneg k L w). by apply (Hall id).
    + intros id o Ho Ho2. destruct (I5 id o Ho) as (l & Hl & Hp); [lia|]. exists l. split; [done|].
      rewrite lease_amount_pending by done. pose proof (I4 id l Hl Hp) as E. rewrite Ho in E. by injection E as ->.
Qed.

(** The counter and the leases as before. *)
Lemma inv_same now x m m' : rs_config m' = rs_config m -> tview k w m' = tview k w m -> rs_leases m' = rs_leases m -> Inv now x m -> Inv now x m'.
Proof.
  intros Hc Hv Hl [I1 I2 I3 I4 I5 I6 I7]. split; rewrite ?Hc, ?Hv, ?Hl; try done. intros cut Hcut. unfold pending_amount. rewrite Hl. by apply I7.
Qed.

(** ** Tokens of the counter *)

Definition dated (now : Z) (c : memoryCounter) : Prop := Sorted Z.le (map fst (mc_tokens c)) /\ Forall (fun e => e.1 <= now) (mc_tokens c).

Lemma sorted_filter {A} (key : A -> Z) (p : A -> bool) es : Sorted Z.le (map key es) -> Sorted Z.le (map key (List.filter p es)).
Proof.
  intros Hs. apply Sorted_StronglySorted in Hs; [|exact _]. apply StronglySorted_Sorted. induction es as [|e es IH]; [exact Hs|].
  cbn [map] in Hs. apply StronglySorted_inv in Hs as [Hs He]. cbn [List.filter]. destruct (p e); [|by apply IH]. cbn [map].
  constructor; [by apply IH|]. rewrite Forall_forall in He |- *. intros z Hz. apply He. apply list_elem_of_In, in_map_iff in Hz as (y & <- & Hy).
  apply filter_In in Hy as [Hy _]. apply list_elem_of_In. by apply in_map.
Qed.

Lemma dated_prune now c : counter_shape w c -> dated now c ->
  dated now (prune now c) /\ forall cut, now - w <= cut -> charged cut (mc_tokens (prune now c)) = charged cut (mc_tokens c).
Proof.
  intros (Hst & Hw & Hall) [Hs Ht]. unfold prune, dated. rewrite Hst, Hw. cbn [mc_tokens set_field]. rewrite pruneTokenEvents_filter by done.
  split; [split; [by apply sorted_filter|]|intros cut Hc; by apply charged_filter].
  rewrite Forall_forall in Ht |- *. intros e He. apply Ht. apply list_elem_of_In, filter_In in He as [He _]. by apply list_elem_of_In.
Qed.

Lemma dated_add now n c : mc_strategy c = SlidingWindow -> 0 <= n -> dated now c ->
  dated now (addTokens now n c) /\ forall cut, cut <= now -> charged cut (mc_tokens (addTokens now n c)) = charged cut (mc_tokens c) + n.
Proof.
  intros Hst Hn [Hs Ht]. unfold addTokens. case_bool_decide as Hz.
  { split; [by split|]. intros cut _. lia. }
  rewrite Hst. unfold dated. cbn [mc_tokens set_field]. split; [split|].
  - rewrite map_app. apply snoc_sorted; [done|]. rewrite Forall_map. exact Ht.
  - apply Forall_app. split; [done|]. by constructor.
  - intros cut Hc. rewrite charged_snoc. cbn [fst snd]. by rewrite bool_decide_true.
Qed.

Definition configured_tokens (ts : list TokenReservation) : Prop :=
  forall t, t ∈ ts -> tk_Key t = k -> tk_Strategy t = SlidingWindow /\ tk_Window t = w.

(** A settlement at a time charges the counter then, and nothing is forgotten that is still in the window. *)
Lemma settle_dated now l actual m : configured_tokens (ml_tokens l) -> amounts_ok (ml_tokens l) ->
  counter_shape w (tview k w m) -> dated now (tview k w m) ->
  dated now (tview k w (settle now l actual m)) /\
  forall cut, now - w <= cut <= now -> charged cut (tokens (settle now l actual m)) = charged cut (tokens m) + charge k actual (ml_tokens l).
Proof.
  unfold settle. revert m. induction (ml_tokens l) as [|t ts IH]; intros m Hcfg Hamt Hshape Hd; cbn [fold_left].
  { split; [done|]. intros cut _. unfold charge. cbn. lia. }
  assert (Ht : 0 <= tk_Amount t) by (apply Hamt; set_solver).
  assert (Hc : charge k actual (t :: ts) = (if bool_decide (tk_Key t = k)
    then (if bool_decide (actual < 0) then tk_Amount t else actual) else 0) + charge k actual ts) by done.
  assert (Hone : let m1 := settle_counter now actual t m in counter_shape w (tview k w m1) /\ dated now (tview k w m1) /\
    forall cut, now - w <= cut <= now -> charged cut (tokens m1) = charged cut (tokens m) + if bool_decide (tk_Key t = k)
      then (if bool_decide (actual < 0) then tk_Amount t else actual) else 0).
  { cbv zeta. rewrite settle_counter_tview by (apply Hcfg; set_solver).
    case_bool_decide as Hk; [|split_and!; [done|done|intros; lia]]. cbv zeta.
    set (n := if bool_decide (actual < 0) then tk_Amount t else actual). assert (Hn : 0 <= n) by (unfold n; case_bool_decide; lia). clearbody n.
    destruct (dated_prune now _ Hshape Hd) as [Hd1 Hp1]. destruct (prune_tokens w now _ Hshape) as ((S1 & S2 & S3) & _).
    set (c := prune now (tview k w m)) in *. set (c' := c <| mc_reserved := _ |>).
    destruct (dated_add now n c') as [Hd2 Hp2]; [done|done|done|]. split_and!; [|done|].
    - unfold addTokens. assert (mc_strategy c' = SlidingWindow) as -> by done. destruct (bool_decide (n <= 0)); [split; [exact S1|]; split; [exact S2|exact S3]|].
      split_and!; [done|done|]. cbn [mc_tokens set_field]. apply Forall_app. split; [done|]. by constructor.
    - intros cut Hcut. rewrite Hp2 by lia. change (mc_tokens c') with (mc_tokens c). rewrite Hp1 by lia. done. }
  destruct Hone as (S1 & D1 & C1). destruct (IH (settle_counter now actual t m)) as [D2 C2];
    [intros y Hy; apply Hcfg; set_solver|intros y Hy; apply Hamt; set_solver|done|done|].
  split; [done|]. intros cut Hcut. rewrite C2, C1, Hc by done. lia.
Qed.

Lemma config_settle now l actual m : rs_config (settle now l actual m) = rs_config m.
Proof. unfold settle. revert m. induction (ml_tokens l) as [|r rs IH]; intros m; cbn [fold_left]; [done|]. by rewrite IH. Qed.

Lemma pending_settled now l actual m id l' : rs_leases m !! id = Some l -> ml_state l = LeasePending -> ml_state l' <> LeasePending ->
  let m1 := settle now l actual m in
  pending_amount k (m1 <| rs_leases := <[id := l']> (rs_leases m1) |>) = pending_amount k m - amount_of k (ml_tokens l).
Proof.
  intros Hl Hp Hp'. cbv zeta. unfold pending_amount. cbn [rs_leases set_field]. rewrite leases_settle, (total_update _ id l l') by done.
  rewrite (lease_amount_pending l), (lease_amount_terminal l') by done. lia.
Qed.

Lemma pending_deleted id l m : rs_leases m !! id = Some l -> ml_state l <> LeasePending ->
  pending_amount k (m <| rs_leases := delete id (rs_leases m) |>) = pending_amount k m.
Proof.
  intros Hl Hp. unfold pending_amount. cbn [rs_leases set_field]. rewrite (total_delete _ id l (rs_leases m) Hl).
  by rewrite lease_amount_terminal.
Qed.

(** A pending lease ends; the ledger either still counts it or has just moved it to usage. *)
Lemma inv_end B now x x' m id l l' actual : acct k L w B m -> Inv now x m -> rs_leases m !! id = Some l -> ml_state l = LeasePending ->
  ml_state l' <> LeasePending ->
  (forall id' o, id' <> id -> lg_open x !! id' = Some o <-> lg_open x' !! id' = Some o) ->
  (forall o, lg_open x' !! id = Some o -> o.2 <= now) ->
  Forall (fun e => e.1 <= now) (lg_used x') ->
  (forall cut, now - w <= cut <= now -> usage k cut x' <= usage k cut x - amount_of k (ml_tokens l) + charge k actual (ml_tokens l)) ->
  let m1 := settle now l actual m in Inv now x' (m1 <| rs_leases := <[id := l']> (rs_leases m1) |>).
Proof.
  intros (Hshape & _ & Hall & _) [I1 I2 I3 I4 I5 I6 I7] Hl Hp Hp' Ho Hid Hu Hs. cbv zeta.
  destruct (Hall id l Hl) as [[Hnd Hcfg] Hamt].
  destruct (settle_dated now l actual m) as [[D1 D2] C]; [intros t Ht Hk; destruct (Hcfg t Ht Hk) as (? & ? & _); done|done|done|done|].
  set (m' := (settle now l actual m) <| rs_leases := <[id := l']> (rs_leases (settle now l actual m)) |>).
  assert (Hpa : pending_amount k m' = pending_amount k m - amount_of k (ml_tokens l)) by (by apply pending_settled).
  assert (Hc' : rs_config m' = cfg) by (rewrite <- I1; apply config_settle).
  assert (Hl' : rs_leases m' = <[id := l']> (rs_leases m)) by (unfold m'; cbn; by rewrite leases_settle).
  change (tview k w (settle now l actual m)) with (tview k w m') in D1, D2, C. clearbody m'.
  split; try done; rewrite ?Hl'.
  - intros id' l1. intros [[<- <-]|[Hne Hl1]]%lookup_insert_Some; [done|]. intros Hp1.
    apply Ho; [done|]. by apply I4.
  - intros id' o Ho' Hlt. assert (id' <> id) as Hne by (intros ->; specialize (Hid o Ho'); lia).
    destruct (I5 id' o) as (l1 & Hl1 & Hp1); [by apply Ho|done|]. exists l1. split; [|done]. by rewrite lookup_insert_ne.
  - intros cut Hc. rewrite Hpa, C by done. specialize (I7 cut Hc). specialize (Hs cut Hc). lia.
Qed.

(** A terminal lease is dropped. *)
Lemma inv_delete now x m id l : Inv now x m -> rs_leases m !! id = Some l -> ml_state l <> LeasePending ->
  Inv now x (m <| rs_leases := delete id (rs_leases m) |>).
Proof.
  intros [I1 I2 I3 I4 I5 I6 I7] Hl Hp. pose proof (pending_deleted id l m Hl Hp) as Hpa.
  split; try done.
  - cbn. intros id' l1 [_ Hl1]%lookup_delete_Some. by apply I4.
  - intros id' o Ho Hlt. destruct (I5 id' o Ho Hlt) as (l1 & Hl1 & Hp1). exists l1. split; [|done].
    cbn. rewrite lookup_delete_ne; [done|]. intros ->. congruence.
  - intros cut Hc. rewrite Hpa. by apply I7.
Qed.

(** ** Cleanup *)

Lemma inv_cleanup_lease B now x m id l : acct k L w B m -> Inv now x m -> rs_leases m !! id = Some l -> Inv now x (cleanup_lease now m (id, l)).
Proof.
  intros HA HI Hl. unfold cleanup_lease. destruct (bool_decide (ml_state l = LeasePending)) eqn:Ep; bool_hyps; cbn [andb].
  - destruct (bool_decide (ml_pendingUntil l <= now)) eqn:Eu; bool_hyps; cbv beta iota zeta.
    + set (l' := l <| ml_state := LeaseExpired |> <| ml_terminalUntil := _ |>).
      assert (HE : Inv now x ((settle now l (-1) m) <| rs_leases := <[id := l']> (rs_leases (settle now l (-1) m)) |>)).
      { apply (inv_end B now x x m id l l' (-1)); try done.
        - intros o Ho. rewrite (inv_pending _ _ _ HI id l Hl Ep) in Ho. by injection Ho as <-.
        - apply HI.
        - intros cut Hc. rewrite charge_estimate. lia. }
      destruct (negb _ && _); [|exact HE]. apply (inv_delete _ _ _ id l'); [exact HE| |done]. cbn. by rewrite lookup_insert_eq.
    + rewrite bool_decide_true by done. done.
  - destruct (negb _ && _); [|done]. by eapply inv_delete.
Qed.

(** After a cleanup no pending lease is past its lifetime. *)
Lemma cleanup_lease_live now m id l id' l' : rs_leases (cleanup_lease now m (id, l)) !! id' = Some l' -> rs_leases m !! id = Some l ->
  ml_state l' = LeasePending -> rs_leases m !! id' = Some l' /\ (id' = id -> now < ml_pendingUntil l').
Proof.
  intros Hc Hl Hp. unfold cleanup_lease in Hc. destruct (bool_decide (ml_state l = LeasePending)) eqn:Ep; bool_hyps; cbn [andb] in Hc.
  - destruct (bool_decide (ml_pendingUntil l <= now)) eqn:Eu; bool_hyps; cbv beta iota zeta in Hc.
    + assert (id' <> id /\ rs_leases m !! id' = Some l') as [Hne Hm]; [|by split].
      destruct (negb _ && _); cbn in Hc; [apply lookup_delete_Some in Hc as [Hne' Hc]|];
        apply lookup_insert_Some in Hc as [[-> <-]|[Hne Hc]]; try done; rewrite leases_settle in Hc; by split.
    + rewrite bool_decide_true in Hc by done. cbn in Hc. split; [done|]. intros ->. rewrite Hl in Hc. injection Hc as <-. lia.
  - assert (id' <> id /\ rs_leases m !! id' = Some l') as [Hne Hm]; [|by split].
    destruct (negb _ && _); cbn in Hc; [apply lookup_delete_Some in Hc as [Hne' Hc]; by split|]. split; [|done]. intros ->. congruence.
Qed.

Lemma inv_cleanup_list B now x es m : acct k L w B m -> B < limit -> Inv now x m -> NoDup es.*1 ->
  (forall id l, (id, l) ∈ es -> rs_leases m !! id = Some l) ->
  Inv now x (fold_left (cleanup_lease now) es m) /\
  forall id l, rs_leases (fold_left (cleanup_lease now) es m) !! id = Some l -> ml_state l = LeasePending ->
    rs_leases m !! id = Some l /\ (id ∈ es.*1 -> now < ml_pendingUntil l).
Proof.
  intros HA HB. revert m HA. induction es as [|[id l] es IH]; intros m HA HI Hnd Hin; cbn [fold_left].
  { split; [done|]. intros id l Hl _. split; [done|]. set_solver. }
  cbn in Hnd. apply NoDup_cons in Hnd as [Hn Hnd]. assert (Hl : rs_leases m !! id = Some l) by (apply Hin; left).
  destruct (acct_cleanup_lease k L w now B m id l HA HB Hl) as [HA' Hrest].
  destruct (IH (cleanup_lease now m (id, l)) HA') as [HI' Hlive]; [by eapply inv_cleanup_lease|done| |].
  { intros id' l' Hin'. rewrite Hrest; [apply Hin; by right|]. intros ->. apply Hn. apply list_elem_of_fmap. by exists (id, l'). }
  split; [done|]. intros id' l' Hl' Hp. destruct (Hlive id' l' Hl' Hp) as [Hm Hf].
  destruct (cleanup_lease_live now m id l id' l' Hm Hl Hp) as [Hm' Hf']. split; [done|]. cbn. intros [->|Hes]%elem_of_cons; [by apply Hf'|by apply Hf].
Qed.

Lemma inv_cleanup B now x m : acct k L w B m -> B < limit -> Inv now x m ->
  Inv now x (cleanup enum now m) /\
  forall id l, rs_leases (cleanup enum now m) !! id = Some l -> ml_state l = LeasePending -> now < ml_pendingUntil l.
Proof.
  intros HA HB HI. destruct (inv_cleanup_list B now x (enum (rs_leases m)) m HA HB HI) as [HI' Hlive].
  - rewrite enum_perm. apply NoDup_fst_map_to_list.
  - intros id l. rewrite enum_perm. apply elem_of_map_to_list.
  - split; [done|]. intros id l Hl Hp. destruct (Hlive id l Hl Hp) as [Hm Hf]. apply Hf. rewrite enum_perm. apply list_elem_of_fmap.
    exists (id, l). split; [done|]. by apply elem_of_map_to_list.
Qed.

(** ** Admission *)

Lemma config_check_requests now rs m : rs_config (snd (check_requests now rs m)) = rs_config m.
Proof. revert m. induction rs as [|r rs IH]; intros m; cbn [check_requests]; [done|]. case_bool_decide; [done|]. by rewrite IH. Qed.

Lemma inv_check_requests now x rs m : Inv now x m -> Inv now x (snd (check_requests now rs m)).
Proof. apply inv_same; [apply config_check_requests|apply tview_check_requests|apply leases_check_requests]. Qed.

Lemma inv_check_tokens now x ts m : configured_tokens ts -> counter_shape w (tview k w m) -> Inv now x m -> Inv now x (snd (check_tokens now ts m)).
Proof.
  revert m. induction ts as [|t ts IH]; intros m Hcfg Hshape HI; cbn [check_tokens]; [done|].
  set (m1 := on_counter _ _ _ (prune now) m).
  assert (Hv : tview k w m1 = if bool_decide (tk_Key t = k) then prune now (tview k w m) else tview k w m)
    by (apply tview_token; intros Hk; apply Hcfg; [left|done]).
  assert (H1 : counter_shape w (tview k w m1) /\ Inv now x m1).
  { destruct (bool_decide (tk_Key t = k)); [|rewrite Hv; split; [done|by apply (inv_same now x m)]].
    destruct HI as [I1 I2 I3 I4 I5 I6 I7]. destruct (dated_prune now (tview k w m) Hshape (conj I2 I3)) as [[D1 D2] C].
    rewrite Hv. split; [by apply prune_tokens|]. split; rewrite ?Hv; try done.
    intros cut Hc. rewrite C by lia. by apply I7. }
  destruct H1 as [S1 HI1]. destruct (bool_decide (tk_Limit t < _)); [exact HI1|]. apply IH; [|done|done]. intros y Hy. apply Hcfg. by right.
Qed.

Lemma longest_window r : reservationWindow r = longest r.
Proof.
  unfold reservationWindow, longest.
  assert (Hf : forall {A} (f : A -> Z) xs acc, 0 <= acc ->
    fold_left (fun v c => if bool_decide (v < f c) then f c else v) xs acc = Z.max acc (fold_right Z.max 0 (map f xs))).
  { intros A f xs. induction xs as [|y xs IH]; intros acc Hacc; cbn [fold_left map fold_right]; [lia|].
    rewrite IH by (case_bool_decide; lia). case_bool_decide; lia. }
  assert (Hnn : forall u : list Z, 0 <= fold_right Z.max 0 u) by (intros u; induction u; cbn [fold_right]; lia).
  assert (Happ : forall u v : list Z, fold_right Z.max 0 (u ++ v) = Z.max (fold_right Z.max 0 u) (fold_right Z.max 0 v)).
  { intros u v. pose proof (Hnn v). induction u; cbn [app fold_right]; lia. }
  rewrite !Hf by (rewrite ?Hf by lia; lia). rewrite Happ. specialize (Hnn (map rq_Window (rv_Requests r))). lia.
Qed.

Lemma longest_nonneg r : 0 <= longest r.
Proof. unfold longest. induction (map rq_Window (rv_Requests r) ++ _); cbn [fold_right]; lia. Qed.

Lemma grant_leases now r m : rs_config m = cfg -> 2 * longest r < limit ->
  rs_config (Reserve_grant now r m) = cfg /\
  exists l, rs_leases (Reserve_grant now r m) = <[rv_ID r := l]> (rs_leases m) /\ ml_state l = LeasePending /\
    ml_tokens l = rv_Tokens r /\ ml_pendingUntil l = now + lifetime cfg r.
Proof.
  intros Hc Hw. unfold Reserve_grant. cbv zeta. set (m1 := fold_left _ (rv_Tokens r) _).
  assert (H1 : rs_leases m1 = rs_leases m) by (unfold m1; by rewrite !leases_fold).
  assert (Hfold : forall {A} (f : MemoryStore -> A -> MemoryStore) xs m, (forall m y, rs_config (f m y) = rs_config m) ->
    rs_config (fold_left f xs m) = rs_config m).
  { intros A f xs. induction xs as [|y xs IH]; intros m0 Hf; cbn [fold_left]; [done|]. by rewrite IH, Hf. }
  assert (H2 : rs_config m1 = cfg) by (unfold m1; by rewrite !Hfold).
  split; [exact H2|]. eexists. split; [cbn [rs_leases set_field]; by rewrite H1|]. split; [done|]. split; [done|]. cbn [ml_pendingUntil].
  unfold pendingTTL, lifetime. rewrite H2, longest_window, i64_small by (pose proof (longest_nonneg r); lia). case_bool_decide; lia.
Qed.

Lemma ledger_grant B now x r m : acct k L w B m -> Inv now x m -> rs_leases m !! rv_ID r = None -> ok_tokens k L w (rv_Tokens r) -> amounts_ok (rv_Tokens r) ->
  B + amount_of k (rv_Tokens r) < limit -> 2 * longest r < limit -> Inv now (lg_admit k cfg now r x) (Reserve_grant now r m).
Proof.
  intros HA [I1 I2 I3 I4 I5 I6 I7] Hid Hok Hamt HB Hw.
  destruct (acct_admit k L w enum enum_perm now B r m HA Hid Hok Hamt HB) as (_ & Hpend & Htok).
  destruct (grant_leases now r m I1 Hw) as (Hc & l & Hl & Hp & Hlt & Hlu).
  assert (Hlife : 0 <= lifetime cfg r) by (unfold lifetime; pose proof (longest_nonneg r); lia).
  assert (Hold : forall o, lg_open x !! rv_ID r = Some o -> o.2 <= now).
  { intros o Ho. destruct (decide (o.2 <= now)) as [|Hn]; [done|]. destruct (I5 _ o Ho) as (l0 & Hl0 & _); [lia|]. congruence. }
  split; rewrite ?Htok, ?Hl; try done.
  - intros id' l1 [[<- <-]|[Hne Hl1]]%lookup_insert_Some Hp1; cbn [lg_open lg_admit].
    + by rewrite lookup_insert_eq, Hlt, Hlu.
    + rewrite lookup_insert_ne by done. by apply I4.
  - intros id' o. cbn [lg_open lg_admit]. intros [[<- <-]|[Hne Ho]]%lookup_insert_Some Hlt'.
    + exists l. by rewrite lookup_insert_eq.
    + rewrite lookup_insert_ne by done. by apply (I5 id' o).
  - unfold lg_admit. cbn [lg_used]. destruct (lg_open x !! rv_ID r) as [[ts u]|] eqn:Ho; [|done].
    constructor; [|done]. apply (Hold _ eq_refl).
  - intros cut Hcut. specialize (I7 cut Hcut). rewrite Hpend. unfold usage, lg_admit in *. cbn [lg_used lg_open].
    assert (Hshare : open_share k cut (rv_Tokens r, now + lifetime cfg r) = amount_of k (rv_Tokens r))
      by (unfold open_share; cbn [fst snd]; by rewrite bool_decide_true by lia).
    destruct (lg_open x !! rv_ID r) as [[ts u]|] eqn:Ho.
    + rewrite charged_cons. rewrite <- insert_delete_eq, open_fresh, Hshare by apply lookup_delete_eq.
      rewrite (open_delete k cut (rv_ID r) (ts, u)) in I7 by done. unfold open_share in I7. cbn [fst snd] in *. lia.
    + rewrite open_fresh, Hshare by done. lia.
Qed.

(** ** Operations *)

(** The counter is used once per reservation, with one configuration, and no window overflows. *)
Definition op_fits (o : rate_op) : Prop :=
  op_ok k L w o /\ match o with RReserve _ r => 2 * longest r < limit | _ => True end.

Lemma inv_reserve B now now' x ctxErr r m : acct k L w B m -> Inv now x m -> now <= now' -> op_fits (RReserve ctxErr r) ->
  B + op_cost k (RReserve ctxErr r) < limit ->
  let '(evs, m') := rate_step enum m (now', RReserve ctxErr r) in Inv now' (lg_step k cfg (now', RReserve ctxErr r) evs x) m'.
Proof.
  intros HA HI Hn [Hok Hw] Hmax. cbn [op_cost op_ok] in *. apply (ledger_later B now now') in HI; [|done|done].
  unfold rate_step, Reserve. destruct ctxErr as [e|]; [done|]. destruct (bool_decide (rv_ID r = "")); [done|].
  destruct (validateReservation r) as [u|e] eqn:Hval; [|done]. apply valid_amounts in Hval as Hamt.
  pose proof (amount_nonneg k _ Hamt) as Ha. rewrite Z.max_r in Hmax by done.
  pose proof (acct_cleanup k L w enum enum_perm now' B m HA ltac:(lia)) as HA1. destruct (inv_cleanup B now' x m HA ltac:(lia) HI) as [HI1 _].
  set (m1 := cleanup enum now' m) in *.
  destruct (rs_leases m1 !! rv_ID r) as [l|] eqn:Hl; cbn beta iota; [by rewrite bool_decide_false by done|].
  apply (inv_check_requests now' x (rv_Requests r)) in HI1.
  pose proof (leases_check_requests now' (rv_Requests r) m1) as Hl2. pose proof (tview_check_requests k w now' (rv_Requests r) m1) as Hv2.
  destruct (check_requests now' (rv_Requests r) m1) as [ok m2]. cbn [snd] in Hl2, Hv2, HI1. destruct ok; cbn [negb]; cbn beta iota; [|done].
  destruct HA1 as (Hshape & Hres & Hall & HB). destruct Hok as [Hnd Hcfg].
  assert (Hcfg' : configured_tokens (rv_Tokens r)) by (intros t Ht Hk; destruct (Hcfg t Ht Hk) as (? & ? & _); done).
  apply (inv_check_tokens now' x (rv_Tokens r)) in HI1; [|done|by rewrite Hv2].
  pose proof (pending_nonneg k L w m1 Hall) as Hp.
  pose proof (check_tokens_room k L w enum enum_perm now' (rv_Tokens r) m2 B Hcfg Hamt ltac:(by rewrite Hv2) ltac:(rewrite Hv2; lia) ltac:(rewrite Hv2; lia)
    ltac:(intros t Ht Hk; rewrite <- (amount_single k enum enum_perm _ t Hnd Ht Hk); lia)) as Hroom.
  pose proof (leases_check_tokens now' (rv_Tokens r) m2) as Hl3.
  destruct (check_tokens now' (rv_Tokens r) m2) as [ok m3]. cbn [snd] in Hl3, HI1. destruct Hroom as (C1 & C2 & C3 & _).
  destruct ok; cbn [negb]; cbn beta iota; [|done]. rewrite bool_decide_true by done. cbn [lg_step fst snd].
  assert (Hp3 : pending_amount k m3 = pending_amount k m1) by (unfold pending_amount; by rewrite Hl3, Hl2). rewrite Hv2 in *.
  apply (ledger_grant B); [|done|by rewrite Hl3, Hl2|done|done|lia|done].
  unfold acct. rewrite Hl3, Hl2, Hp3. split_and!; [done|lia|done|lia].
Qed.

Lemma charge_named actual ts : 0 <= actual -> NoDup (map tk_Key ts) -> charge k actual ts = if bool_decide (k ∈ map tk_Key ts) then actual else 0.
Proof.
  intros Ha. induction ts as [|t ts IH]; intros Hnd; [done|]. cbn [map] in *. apply NoDup_cons in Hnd as [Hn Hnd].
  assert (Hc : charge k actual (t :: ts) = (if bool_decide (tk_Key t = k)
    then (if bool_decide (actual < 0) then tk_Amount t else actual) else 0) + charge k actual ts) by done.
  rewrite Hc. destruct (decide (tk_Key t = k)) as [E|E].
  - rewrite (bool_decide_true (tk_Key t = k)) by done. rewrite charge_absent by (by rewrite <- E). rewrite bool_decide_false by lia.
    rewrite bool_decide_true; [lia|]. rewrite E. by left.
  - rewrite (bool_decide_false (tk_Key t = k)) by done. rewrite IH by done. rewrite Z.add_0_l.
    destruct (decide (k ∈ map tk_Key ts)) as [Hin|Hin].
    + rewrite !bool_decide_true; [done| |done]. by right.
    + rewrite !bool_decide_false; [done| |done]. rewrite not_elem_of_cons. split; [congruence|done].
Qed.

Lemma inv_terminate B now now' x requested ctxErr id actual reported m : acct k L w B m -> Inv now x m -> now <= now' -> B < limit ->
  requested <> LeasePending -> match reported with Some n => actual = Z.max 0 n | None => actual = -1 end ->
  let '(ok, m') := terminate enum requested ctxErr now' id actual m in
  Inv now' (if is_ok ok then lg_settle k now' id reported x else x) m'.
Proof.
  intros HA HI Hn HB Hreq Hrep. apply (ledger_later B now now') in HI; [|done|done].
  unfold terminate. destruct ctxErr as [e|]; [done|].
  pose proof (acct_cleanup k L w enum enum_perm now' B m HA HB) as HA1. destruct (inv_cleanup B now' x m HA HB HI) as [HI1 Hlive].
  set (m1 := cleanup enum now' m) in *. destruct (rs_leases m1 !! id) as [l|] eqn:Hl; [|done].
  destruct (bool_decide (ml_state l = LeasePending)) eqn:Ep; cbn [negb]; cbn beta iota; [|done]. bool_hyps. cbn [is_ok].
  pose proof (inv_pending _ _ _ HI1 id l Hl Ep) as Ho. specialize (Hlive id l Hl Ep).
  destruct HA1 as (Hshape & Hres & Hall & HB'). destruct (Hall id l Hl) as [[Hnd Hcfg] Hamt].
  set (c := match reported with Some n => if bool_decide (k ∈ map tk_Key (ml_tokens l)) then Z.max 0 n else 0 | None => amount_of k (ml_tokens l) end).
  assert (Hc : charge k actual (ml_tokens l) = c).
  { unfold c. destruct reported as [n|]; subst actual; [apply charge_named; [lia|done]|apply charge_estimate]. }
  unfold lg_settle. rewrite Ho. fold c. apply (inv_end B now' x _ m1 id l _ actual); try done; cbn [lg_open lg_used].
  - intros id' o Hne. by rewrite lookup_delete_ne.
  - intros o. by rewrite lookup_delete_eq.
  - constructor; [done|]. apply HI1.
  - intros cut Hcut. unfold usage. cbn [lg_open lg_used]. rewrite charged_cons. cbn [fst snd]. rewrite bool_decide_true by lia.
    rewrite (open_delete k cut id _ (lg_open x) Ho). unfold open_share. cbn [fst snd]. rewrite bool_decide_true by lia. lia.
Qed.

Lemma inv_step B now now' x o m : acct k L w B m -> Inv now x m -> now <= now' -> op_fits o -> B + op_cost k o < limit ->
  let '(evs, m') := rate_step enum m (now', o) in Inv now' (lg_step k cfg (now', o) evs x) m'.
Proof.
  intros HA HI Hn Hok Hmax. pose proof (op_cost_nonneg k o). destruct o as [ctxErr r|ctxErr id actual|ctxErr id]; [by apply (inv_reserve B now)| |]; unfold rate_step.
  - pose proof (inv_terminate B now now' x LeaseCommitted ctxErr id (if bool_decide (actual < 0) then 0 else actual) (Some actual) m HA HI Hn
      ltac:(lia) ltac:(done) ltac:(case_bool_decide; lia)) as Ht. unfold Commit. destruct (terminate _ _ _ _ _ _ _) as [[u|e] m']; exact Ht.
  - pose proof (inv_terminate B now now' x LeaseReleased ctxErr id (-1) None m HA HI Hn ltac:(lia) ltac:(done) ltac:(done)) as Ht.
    unfold Release. destruct (terminate _ _ _ _ _ _ _) as [[u|e] m']; exact Ht.
Qed.

Lemma inv_run es B now x m : acct k L w B m -> Inv now x m -> Sorted Z.le (now :: map fst es) -> Forall (fun e => op_fits e.2) es ->
  B + run_cost k es < limit ->
  let '(x', m') := lg_run k cfg enum m es x in m' = snd (rate_run enum m es) /\ exists t, t ∈ now :: map fst es /\ Inv t x' m'.
Proof.
  revert B now x m. induction es as [|[t o] es IH]; intros B now x m HA HI Hs Hok Hmax.
  { split; [done|]. exists now. split; [by left|done]. }
  apply Forall_cons in Hok as [Ho Hok]. simpl in Hs. apply Sorted_inv in Hs as [Hs Hhd]. apply HdRel_inv in Hhd.
  assert (Hc : run_cost k ((t, o) :: es) = op_cost k o + run_cost k es) by done. rewrite Hc in Hmax. pose proof (run_cost_nonneg k es).
  pose proof (inv_step B now t x o m HA HI Hhd Ho ltac:(lia)) as HI1.
  pose proof (step_acct k L w enum enum_perm t o B m HA (proj1 Ho) ltac:(lia)) as HA1. cbn [lg_run rate_run].
  destruct (rate_step enum m (t, o)) as [evs m1]. cbn [snd] in HA1. specialize (IH _ t _ m1 HA1 HI1 Hs Hok ltac:(lia)).
  destruct (lg_run k cfg enum m1 es _) as [x' m']. destruct IH as [-> (t' & Ht' & HI')]. destruct (rate_run enum m1 es) as [evs' m2]. split; [done|].
  exists t'. split; [by right|done].
Qed.

End Invariant.


(** Ten tokens per minute: an estimate of eight is committed with five, so that five more
    fit; a minute after the commit its five are out of the window. *)
Definition ten_tokens (id : string) (n : Z) : Reservation :=
  mkReservation id [] [mkTokenReservation "key:a" 10 60 SlidingWindow n].
Definition token_attempts : list (Z * rate_op) :=
  [(0, RReserve None (ten_tokens "1" 8)); (1, RCommit None "1" 5)].

