(* ===== verification/RateLimiter.v ===== *)
(** The provider-attempt limiter (agent/ratelimit/limiter.go, char_estimator.go): its
    options, the reservation it builds for an attempt, its semaphores, and Reserve as
    the sequence of atomic steps between which other goroutines run. *)
From S2P Require Import Prelude Errors Messages Schema Tool Inference State RateStore.

(* agent/ratelimit/limiter.go:22-28: OverflowBehavior *)
Inductive OverflowBehavior : Type := BlockMode | FailFastMode.

#[global] Instance OverflowBehavior_eq_dec : EqDecision OverflowBehavior.
Proof. solve_decision. Defined.

(* agent/ratelimit/limiter.go:30-33: rateConfig *)
Record rateConfig := mkRateConfig { rc_Count : Z; rc_WindowSeconds : Z }.

(* agent/ratelimit/limiter.go: rateConfig.window *)
Definition rc_window (c : rateConfig) : Z := i64 (rc_WindowSeconds c * 1000000000).

(** * The character estimator *)

Section Estimator.
(** json.Marshal of a tool specification: the text, or None where it fails. *)
Variable spec_json : Spec -> option string.

(* agent/char_estimator.go:36-43: switch of EstimateTokens *)
Definition block_chars (b : ContentBlock) : nat :=
  match b with
  | TextBlock text => String.length text
  | ToolUseBlock u => String.length (tu_ToolUseID u) + String.length (tu_Name u) + String.length (default "" (tu_Input u))
  | ToolResultBlk r => String.length (tr_ToolUseID r) + String.length (tr_Content r)
  | _ => 0
  end.

(* agent/char_estimator.go: CharEstimator.EstimateTokens *)
Definition EstimateTokens (req : ModelRequest) : res Z :=
  let total := Z.of_nat (String.length (mq_System req)) in
  let total := fold_left (fun total msg =>
    fold_left (fun total b => i64 (total + Z.of_nat (block_chars b))) (m_Content msg) total) (mq_Messages req) total in
  let total := fold_left (fun total spec =>
    match spec_json spec with
    | None => total
    | Some data => i64 (total + Z.of_nat (String.length data))
    end) (mq_Tools req) total in
  if bool_decide (total = 0)%Z then Ok 0%Z else Ok (Z.quot (i64 (total + 3)) 4).

End Estimator.

(** * The limiter *)

(** The lease store as the limiter sees it.  [E] is what an operation observes of the
    outside, the reading of its clock for the in-process store. *)
(* agent/ratelimit/store.go:35-42: Store *)
Class Store (E T : Type) := {
  store_Reserve : option error -> E -> Reservation -> T -> res bool * T;
  store_Commit : option error -> E -> string -> Z -> T -> res unit * T;
  store_Release : option error -> E -> string -> T -> res unit * T }.

(** An admitted attempt.  [l_addr] identifies the object and with it its sync.Once;
    [l_sem] is the key of the semaphore that [free] gives back to. *)
(* agent/ratelimit/limiter.go:196-202: Lease *)
Record Lease := mkLimiterLease { l_limiter : nat; l_id : string; l_addr : nat; l_sem : option string }.

#[global] Instance eta_Lease : Settable Lease := fun l =>
  mkLimiterLease (l_limiter l) (l_id l) (l_addr l) (l_sem l).

(** [rl_semaphores] counts the taken slots per key; [rl_done] holds the leases whose
    Once has run, [rl_next] the next fresh object and [rl_self] the limiter's identity. *)
(* agent/ratelimit/limiter.go:38-51: RateLimiter *)
Record limiter (T : Type) := mkLimiter {
  rl_windowStrategy : WindowStrategy; rl_overflowBehavior : OverflowBehavior;
  rl_requestRateLimit : option rateConfig; rl_tokenRateLimit : option rateConfig;
  rl_globalRequestLimit : option rateConfig; rl_globalTokenLimit : option rateConfig;
  rl_maxConcurrent : Z; rl_maxConcurrentSet : bool;
  rl_tokenEstimator : option (ModelRequest -> res Z); rl_tokenReservationDisabled : bool;
  rl_outputReservationFallback : Z; rl_store : option T;
  rl_semaphores : option (gmap string nat); rl_self : nat; rl_done : gset nat; rl_next : nat }.
Arguments mkLimiter {T}.
Arguments rl_windowStrategy {T} _. Arguments rl_overflowBehavior {T} _.
Arguments rl_requestRateLimit {T} _. Arguments rl_tokenRateLimit {T} _.
Arguments rl_globalRequestLimit {T} _. Arguments rl_globalTokenLimit {T} _.
Arguments rl_maxConcurrent {T} _. Arguments rl_maxConcurrentSet {T} _.
Arguments rl_tokenEstimator {T} _. Arguments rl_tokenReservationDisabled {T} _.
Arguments rl_outputReservationFallback {T} _. Arguments rl_store {T} _.
Arguments rl_semaphores {T} _. Arguments rl_self {T} _. Arguments rl_done {T} _. Arguments rl_next {T} _.

#[global] Instance eta_limiter T : Settable (limiter T) := fun r =>
  mkLimiter (rl_windowStrategy r) (rl_overflowBehavior r) (rl_requestRateLimit r) (rl_tokenRateLimit r)
    (rl_globalRequestLimit r) (rl_globalTokenLimit r) (rl_maxConcurrent r) (rl_maxConcurrentSet r)
    (rl_tokenEstimator r) (rl_tokenReservationDisabled r) (rl_outputReservationFallback r) (rl_store r)
    (rl_semaphores r) (rl_self r) (rl_done r) (rl_next r).

Section Options.
Context {T : Type}.
Implicit Types r : limiter T.

(* agent/ratelimit/limiter.go: WithFixedWindow *)
Definition WithFixedWindow r := r <| rl_windowStrategy := FixedWindow |>.
(* agent/ratelimit/limiter.go: WithSlidingWindow *)
Definition WithSlidingWindow r := r <| rl_windowStrategy := SlidingWindow |>.
(* agent/ratelimit/limiter.go: WithFailFast *)
Definition WithFailFast r := r <| rl_overflowBehavior := FailFastMode |>.
(* agent/ratelimit/limiter.go: WithBlock *)
Definition WithBlock r := r <| rl_overflowBehavior := BlockMode |>.
(* agent/ratelimit/limiter.go: RequestRateLimit *)
Definition RequestRateLimit (count windowSeconds : Z) r :=
  r <| rl_requestRateLimit := Some (mkRateConfig count windowSeconds) |>.
(* agent/ratelimit/limiter.go: TokenRateLimit *)
Definition TokenRateLimit (count windowSeconds : Z) r :=
  r <| rl_tokenRateLimit := Some (mkRateConfig count windowSeconds) |>.
(* agent/ratelimit/limiter.go: RPM *)
Definition RPM (count : Z) : limiter T -> limiter T := RequestRateLimit count 60.
(* agent/ratelimit/limiter.go: TPM *)
Definition TPM (count : Z) : limiter T -> limiter T := TokenRateLimit count 60.
(* agent/ratelimit/limiter.go: MaxConcurrent *)
Definition MaxConcurrent (n : Z) r := r <| rl_maxConcurrent := n |> <| rl_maxConcurrentSet := true |>.
(* agent/ratelimit/limiter.go: WithGlobalRequestLimit *)
Definition WithGlobalRequestLimit (count windowSeconds : Z) r :=
  r <| rl_globalRequestLimit := Some (mkRateConfig count windowSeconds) |>.
(* agent/ratelimit/limiter.go: WithGlobalTokenLimit *)
Definition WithGlobalTokenLimit (count windowSeconds : Z) r :=
  r <| rl_globalTokenLimit := Some (mkRateConfig count windowSeconds) |>.
(* agent/ratelimit/limiter.go: WithGlobalRPM *)
Definition WithGlobalRPM (count : Z) : limiter T -> limiter T := WithGlobalRequestLimit count 60.
(* agent/ratelimit/limiter.go: WithGlobalTPM *)
Definition WithGlobalTPM (count : Z) : limiter T -> limiter T := WithGlobalTokenLimit count 60.
(* agent/ratelimit/limiter.go: WithStore *)
Definition WithStore (store : option T) r := r <| rl_store := store |>.
(* agent/ratelimit/limiter.go: WithoutTokenReservation *)
Definition WithoutTokenReservation r :=
  r <| rl_tokenReservationDisabled := true |> <| rl_tokenEstimator := None |>.
(* agent/ratelimit/limiter.go: WithOutputReservationFallback *)
Definition WithOutputReservationFallback (tokens : Z) r := r <| rl_outputReservationFallback := tokens |>.

(** The character estimator, the default. *)
Variable charEstimator : ModelRequest -> res Z.

(* agent/ratelimit/limiter.go: WithTokenEstimator *)
Definition WithTokenEstimator (estimator : option (ModelRequest -> res Z)) r :=
  match estimator with
  | None => r <| rl_tokenEstimator := Some charEstimator |>
  | Some e => r <| rl_tokenEstimator := Some e |>
  end.

(** The limits by name; [enum] is the order in which Go enumerates the map. *)
Definition named_limits r : list (string * option rateConfig) :=
  [("request", rl_requestRateLimit r); ("token", rl_tokenRateLimit r);
   ("global request", rl_globalRequestLimit r); ("global token", rl_globalTokenLimit r)].

Definition bad_limit (c : option rateConfig) : bool :=
  match c with
  | None => false
  | Some c => bool_decide (rc_Count c <= 0)%Z || bool_decide (rc_WindowSeconds c <= 0)%Z
  end.

Definition unset {A} (o : option A) : bool := match o with None => true | Some _ => false end.

(** [memory] is the result of NewMemoryStore, [self] the address of the new limiter. *)
(* agent/ratelimit/limiter.go: NewRateLimiter *)
Definition NewRateLimiter (enum : list (string * option rateConfig) -> list (string * option rateConfig))
  (memory : res T) (self : nat) (opts : list (limiter T -> limiter T)) : res (limiter T) :=
  let r := fold_left (fun r opt => opt r) opts
    (mkLimiter SlidingWindow FailFastMode None None None None 0 false None false 0 None None self ∅ 0) in
  match List.find (fun nc => bad_limit (snd nc)) (enum (named_limits r)) with
  | Some (name, _) => Err (ENew (name +:+ " rate limit count and window must be > 0"))
  | None =>
      if rl_maxConcurrentSet r && bool_decide (rl_maxConcurrent r <= 0)%Z
      then Err (ENew "MaxConcurrent must be > 0")
      else if bool_decide (rl_outputReservationFallback r < 0)%Z
      then Err (ENew "output reservation fallback must be >= 0")
      else if unset (rl_requestRateLimit r) && unset (rl_tokenRateLimit r) && unset (rl_globalRequestLimit r) &&
              unset (rl_globalTokenLimit r) && bool_decide (rl_maxConcurrent r = 0)%Z
      then Err (ENew "at least one rate limit option must be provided")
      else
        let r := if negb (rl_tokenReservationDisabled r) &&
                    (negb (unset (rl_tokenRateLimit r)) || negb (unset (rl_globalTokenLimit r))) &&
                    unset (rl_tokenEstimator r)
                 then r <| rl_tokenEstimator := Some charEstimator |> else r in
        match (match rl_store r with
               | Some _ => Ok r
               | None => match memory with Err e => Err e | Ok store => Ok (r <| rl_store := Some store |>) end
               end) with
        | Err e => Err e
        | Ok r => Ok (if bool_decide (0 < rl_maxConcurrent r)%Z then r <| rl_semaphores := Some ∅ |> else r)
        end
  end.

End Options.

(** * Semaphores *)

Section Limiter.
Context {E T : Type} `{Store E T}.
Implicit Types r : limiter T.

(** The taken slots of a key's semaphore, which is created empty on first use. *)
(* agent/ratelimit/limiter.go: RateLimiter.semaphore *)
Definition semaphore (key : string) r : nat := default 0 (default ∅ (rl_semaphores r) !! key).

Definition set_slots (key : string) (n : nat) r : limiter T :=
  r <| rl_semaphores := (fun m => <[key := n]> m) <$> rl_semaphores r |>.

Definition has_slot (key : string) r : bool := bool_decide (Z.of_nat (semaphore key r) < rl_maxConcurrent r)%Z.

(* agent/ratelimit/limiter.go: concurrencySem.free *)
Definition sem_free (key : string) r : limiter T := set_slots key (Nat.pred (semaphore key r)) r.

(** [free] of a lease: give the slot back once. *)
(* agent/ratelimit/limiter.go:215-222: lease.free *)
Definition lease_free (l : Lease) r : limiter T :=
  match l_sem l with
  | None => r
  | Some key =>
      if decide (l_addr l ∈ rl_done r) then r
      else (sem_free key r) <| rl_done := {[l_addr l]} ∪ rl_done r |>
  end.

(** * Reservations *)

(* agent/ratelimit/limiter.go:145-151: storeKey *)
Definition storeGlobalKey : string := "global".
Definition storeKey (key : string) : string := "key:" +:+ key.

(* agent/ratelimit/limiter.go:284-292: estimate of reservation *)
Definition reservation_estimate (request : ModelRequest) r : Z :=
  let estimate := rl_outputReservationFallback r in
  let estimate :=
    match rl_tokenEstimator r with
    | Some est =>
        if negb (rl_tokenReservationDisabled r) &&
           (negb (unset (rl_tokenRateLimit r)) || negb (unset (rl_globalTokenLimit r)))
        then match est request with
             | Ok n => if bool_decide (0 < n)%Z then i64 (estimate + n) else estimate
             | Err _ => estimate
             end
        else estimate
    | None => estimate
    end in
  match mq_InferenceConfig request with
  | Some c => match ic_MaxTokens c with
              | Some n => if bool_decide (0 < n)%Z then i64 (estimate + n) else estimate
              | None => estimate
              end
  | None => estimate
  end.

(* agent/ratelimit/limiter.go: RateLimiter.reservation *)
Definition reservation (id key : string) (request : ModelRequest) r : Reservation :=
  let estimate := reservation_estimate request r in
  let requests k (c : option rateConfig) := match c with
    | Some c => [mkRequestCounter k (rc_Count c) (rc_window c) (rl_windowStrategy r)] | None => [] end in
  let tokens k (c : option rateConfig) := match c with
    | Some c => [mkTokenReservation k (rc_Count c) (rc_window c) (rl_windowStrategy r) estimate] | None => [] end in
  mkReservation id
    (requests (storeKey key) (rl_requestRateLimit r) ++ requests storeGlobalKey (rl_globalRequestLimit r))
    (tokens (storeKey key) (rl_tokenRateLimit r) ++ tokens storeGlobalKey (rl_globalTokenLimit r)).

(** * Reserve *)

(** What a step observes: the context's error, the error seen by a second look at it,
    which of two ready cases a select takes, random bytes and the store's environment. *)
Record obs := mkObs {
  o_ctx : option error; o_ctx2 : option error; o_pick : bool; o_rand : res (list N); o_env : E }.

(** Where a call of Reserve stands. *)
Inductive phase : Type :=
| PhStart                      (* entry *)
| PhTake (l : Lease)           (* about to take a slot *)
| PhSelect (l : Lease)         (* blocked on the semaphore or the context *)
| PhStore (l : Lease)          (* about to ask the store *)
| PhWait (l : Lease)           (* between two polls *)
| PhDone (x : res Lease).

(* agent/ratelimit/limiter.go: leaseID *)
Definition leaseID (o : obs) : res string :=
  match o_rand o with
  | Ok b => Ok (hex_encode b)
  | Err e => Err (EWrap "generate rate limit lease ID" e)
  end.

(** The panic of a call on a nil store; NewRateLimiter always sets one. *)
Definition nil_store : error := ENew "invalid memory address or nil pointer dereference".

(** One atomic step of a call; a blocked call stays where it is. *)
(* agent/ratelimit/limiter.go:207-242: RateLimiter.Reserve *)
Definition reserve_step (o : obs) (key : string) (request : ModelRequest) (p : phase) r : phase * limiter T :=
  let failed l e := (PhDone (Err e), lease_free l r) in
  match p with
  | PhStart =>
      match o_ctx o with
      | Some e => (PhDone (Err e), r)
      | None =>
          match leaseID o with
          | Err e => (PhDone (Err e), r)
          | Ok id =>
              let l := mkLimiterLease (rl_self r) id (rl_next r) None in
              let r := r <| rl_next := S (rl_next r) |> in
              (if bool_decide (0 < rl_maxConcurrent r)%Z then PhTake l else PhStore l, r)
          end
      end
  | PhTake l =>
      match o_ctx o with
      | Some e => (PhDone (Err e), r)
      | None =>
          if bool_decide (rl_overflowBehavior r = FailFastMode) then
            if has_slot key r
            then (PhStore (l <| l_sem := Some key |>), set_slots key (S (semaphore key r)) r)
            else (PhDone (Err (ESentinel ErrRateLimitExceeded)), r)
          else (PhSelect l, r)
      end
  | PhSelect l =>
      let done e := (PhDone (Err e), r) in
      let take :=
        let r := set_slots key (S (semaphore key r)) r in
        match o_ctx2 o with
        | Some e => (PhDone (Err e), sem_free key r)
        | None => (PhStore (l <| l_sem := Some key |>), r)
        end in
      match o_ctx o with
      | Some e => if has_slot key r && o_pick o then take else done e
      | None => if has_slot key r then take else (PhSelect l, r)
      end
  | PhStore l =>
      match rl_store r with
      | None => (PhDone (Err nil_store), r)
      | Some st =>
          let '(ok, st) := store_Reserve (o_ctx o) (o_env o) (reservation (l_id l) key request r) st in
          let r := r <| rl_store := Some st |> in
          match ok with
          | Err e => (PhDone (Err e), lease_free l r)
          | Ok true => (PhDone (Ok l), r)
          | Ok false =>
              if bool_decide (rl_overflowBehavior r = FailFastMode)
              then (PhDone (Err (ESentinel ErrRateLimitExceeded)), lease_free l r)
              else (PhWait l, r)
          end
      end
  | PhWait l =>
      match o_ctx o with
      | Some e => if o_pick o then failed l e else (PhStore l, r)
      | None => (PhStore l, r)
      end
  | PhDone _ => (p, r)
  end.

(** A call on its own: the steps it takes with the given observations, None while it
    is not finished. *)
Fixpoint reserve_run (os : list obs) (key : string) (request : ModelRequest) (p : phase) r : option (res Lease) * limiter T :=
  match p with
  | PhDone x => (Some x, r)
  | _ => match os with
         | [] => (None, r)
         | o :: os => let '(p, r) := reserve_step o key request p r in reserve_run os key request p r
         end
  end.

(** * Commit and Release *)

(* agent/ratelimit/limiter.go: RateLimiter.ownedLease *)
Definition ownedLease (l : Lease) r : res Lease :=
  if bool_decide (l_limiter l = rl_self r) then Ok l else Err (ESentinel ErrRateLimitLeaseUnknown).

(* agent/ratelimit/limiter.go: isTerminal *)
Definition isTerminal (e : error) : bool :=
  match e with
  | ESentinel ErrRateLimitLeaseTerminal | ESentinel ErrRateLimitLeaseCrossTerminal
  | ESentinel ErrRateLimitLeaseExpired => true
  | _ => false
  end.

(** The tail of both: the slot is freed when the lease has reached its end. *)
(* agent/ratelimit/limiter.go:253-256: lease.free after settlement *)
Definition settled_free (l : Lease) (ok : res unit) r : res unit * limiter T :=
  match ok with
  | Ok _ => (ok, lease_free l r)
  | Err e => (ok, if isTerminal e then lease_free l r else r)
  end.

(** [o_ctx] is the error of the accounting context, which only its own timeout sets. *)
(* agent/ratelimit/limiter.go: RateLimiter.Commit *)
Definition limiter_Commit (o : obs) (opaque : Lease) (usage : TokenUsage) r : res unit * limiter T :=
  match ownedLease opaque r with
  | Err e => (Err e, r)
  | Ok lease =>
      match rl_store r with
      | None => (Err nil_store, r)
      | Some st =>
          let '(ok, st) := store_Commit (o_ctx o) (o_env o) (l_id lease) (Z.max (usage_Total usage) 0) st in
          settled_free lease ok (r <| rl_store := Some st |>)
      end
  end.

(* agent/ratelimit/limiter.go: RateLimiter.Release *)
Definition limiter_Release (o : obs) (opaque : Lease) r : res unit * limiter T :=
  match ownedLease opaque r with
  | Err e => (Err e, r)
  | Ok lease =>
      match rl_store r with
      | None => (Err nil_store, r)
      | Some st =>
          let '(ok, st) := store_Release (o_ctx o) (o_env o) (l_id lease) st in
          settled_free lease ok (r <| rl_store := Some st |>)
      end
  end.

End Limiter.

Arguments obs E : clear implicits.

(** The in-process store behind the interface; its environment is the clock. *)
#[global] Instance memory_store (enum : gmap string memoryLease -> list (string * memoryLease)) : Store Z MemoryStore := {
  store_Reserve := Reserve enum;
  store_Commit := Commit enum;
  store_Release := Release enum }.
