(* ===== verification/LimiterProps.v ===== *)
(** Properties of the limiter: the concurrency bound under every interleaving of calls
    and over every store, termination of a fail-fast reservation, and how the limiter's
    reservations meet the conditions of the window theorems. *)
From S2P Require Import Prelude Errors Messages Schema Tool Inference State RateStore.
From S2P Require Import RateProps RateTokens RateLimiter.

(** * Calls in flight *)

Section System.
Context {E T : Type} `{Store E T}.

(** A goroutine in Reserve, or the lease it came back with. *)
Record call := mkCall { c_key : string; c_req : ModelRequest; c_phase : phase }.
Record sys := mkSys { s_calls : list call; s_lim : limiter T }.

Inductive sys_event : Type :=
| SNew (key : string) (req : ModelRequest)
| SStep (i : nat) (o : obs E)
| SCommit (i : nat) (o : obs E) (usage : TokenUsage)
| SRelease (i : nat) (o : obs E).

Definition sys_step (s : sys) (e : sys_event) : sys :=
  match e with
  | SNew key req => mkSys (s_calls s ++ [mkCall key req PhStart]) (s_lim s)
  | SStep i o =>
      match s_calls s !! i with
      | None => s
      | Some c =>
          let '(p, r) := reserve_step o (c_key c) (c_req c) (c_phase c) (s_lim s) in
          mkSys (<[i := mkCall (c_key c) (c_req c) p]> (s_calls s)) r
      end
  | SCommit i o usage =>
      match s_calls s !! i with
      | Some (mkCall _ _ (PhDone (Ok l))) => mkSys (s_calls s) (snd (limiter_Commit o l usage (s_lim s)))
      | _ => s
      end
  | SRelease i o =>
      match s_calls s !! i with
      | Some (mkCall _ _ (PhDone (Ok l))) => mkSys (s_calls s) (snd (limiter_Release o l (s_lim s)))
      | _ => s
      end
  end.

Definition sys_run (s : sys) (es : list sys_event) : sys := fold_left sys_step es s.

(** ** Slots and their holders *)

Definition phase_lease (p : phase) : option Lease :=
  match p with
  | PhStart | PhDone (Err _) => None
  | PhTake l | PhSelect l | PhStore l | PhWait l | PhDone (Ok l) => Some l
  end.

(** The call holds a slot of the key: it took one and its lease has not given it back. *)
Definition holds (D : gset nat) (key : string) (c : call) : bool :=
  match phase_lease (c_phase c) with
  | Some l => bool_decide (l_sem l = Some key) && negb (bool_decide (l_addr l ∈ D))
  | None => false
  end.

Definition held (D : gset nat) (key : string) (cs : list call) : nat := length (List.filter (holds D key) cs).

Definition b2n (b : bool) : nat := if b then 1 else 0.

Lemma held_change D D' key cs i c c' : cs !! i = Some c ->
  (forall j cj, j <> i -> cs !! j = Some cj -> holds D' key cj = holds D key cj) ->
  (held D' key (<[i := c']> cs) + b2n (holds D key c) = held D key cs + b2n (holds D' key c'))%nat.
Proof.
  unfold held. revert i. induction cs as [|x cs IH]; intros [|i] Hi Hsame; simpl in *; try done.
  - injection Hi as ->.
    assert (Heq : List.filter (holds D' key) cs = List.filter (holds D key) cs).
    { apply List.filter_ext_in. intros y Hy. apply list_elem_of_In, list_elem_of_lookup in Hy as [j Hj]. by apply (Hsame (S j)). }
    rewrite Heq. destruct (holds D key c), (holds D' key c'); simpl; lia.
  - pose proof (IH i Hi (fun j cj Hne Hj => Hsame (S j) cj ltac:(lia) Hj)) as Hrec.
    rewrite (Hsame 0 x) by done. destruct (holds D key x); simpl; lia.
Qed.

Lemma held_snoc D key cs c : held D key (cs ++ [c]) = (held D key cs + b2n (holds D key c))%nat.
Proof. unfold held. rewrite List.filter_app, length_app. simpl. destruct (holds D key c); simpl; lia. Qed.

(** ** The invariant *)

(** A lease of the limiter is one object: no two calls share it, and it is older than
    the next one. *)
Record sys_ok (n : Z) (s : sys) : Prop := {
  ok_max : rl_maxConcurrent (s_lim s) = n;
  ok_sems : is_Some (rl_semaphores (s_lim s));
  ok_store : is_Some (rl_store (s_lim s));
  ok_slots : forall key, semaphore key (s_lim s) = held (rl_done (s_lim s)) key (s_calls s);
  ok_bound : forall key, (Z.of_nat (semaphore key (s_lim s)) <= n)%Z;
  ok_fresh : forall i c l, s_calls s !! i = Some c -> phase_lease (c_phase c) = Some l ->
    (l_addr l < rl_next (s_lim s))%nat;
  ok_done : forall a, a ∈ rl_done (s_lim s) -> (a < rl_next (s_lim s))%nat;
  ok_uniq : forall i j ci cj li lj, s_calls s !! i = Some ci -> s_calls s !! j = Some cj ->
    phase_lease (c_phase ci) = Some li -> phase_lease (c_phase cj) = Some lj -> l_addr li = l_addr lj -> i = j;
  (** Before the slot is taken the lease has none and was not freed; a slot taken is
      one of the call's key. *)
  ok_phase : forall i c l, s_calls s !! i = Some c -> phase_lease (c_phase c) = Some l ->
    match c_phase c with
    | PhTake _ | PhSelect _ => l_sem l = None /\ l_addr l ∉ rl_done (s_lim s)
    | PhStore _ | PhWait _ => l_addr l ∉ rl_done (s_lim s)
    | _ => True
    end }.

Lemma semaphore_set key key' n r : is_Some (rl_semaphores r) ->
  semaphore key (set_slots (T:=T) key' n r) = if bool_decide (key = key') then n else semaphore key r.
Proof.
  intros [m Hm]. unfold semaphore, set_slots. cbn [rl_semaphores set_field]. rewrite Hm. simpl.
  case_bool_decide as Hk; [subst; by rewrite lookup_insert_eq|by rewrite lookup_insert_ne].
Qed.

(** What one event may do: to the phase of one call, the slots and the leases. *)
Record move_ok (n : Z) (r r' : limiter T) (c c' : call) : Prop := {
  mv_max : rl_maxConcurrent r' = rl_maxConcurrent r;
  mv_sems : is_Some (rl_semaphores r');
  mv_store : is_Some (rl_store r');
  mv_next : (rl_next r <= rl_next r')%nat;
  mv_lease : forall l', phase_lease (c_phase c') = Some l' ->
    (exists l, phase_lease (c_phase c) = Some l /\ l_addr l' = l_addr l) \/
    (l_addr l' = rl_next r /\ rl_next r' = S (rl_next r));
  mv_done : rl_done r' = rl_done r \/
    exists l, phase_lease (c_phase c) = Some l /\ rl_done r' = {[l_addr l]} ∪ rl_done r;
  mv_slots : forall key, (semaphore key r' + b2n (holds (rl_done r) key c) =
    semaphore key r + b2n (holds (rl_done r') key c'))%nat;
  mv_bound : forall key, (Z.of_nat (semaphore key r') <= n)%Z;
  mv_phase : forall l', phase_lease (c_phase c') = Some l' ->
    match c_phase c' with
    | PhTake _ | PhSelect _ => l_sem l' = None /\ l_addr l' ∉ rl_done r'
    | PhStore _ | PhWait _ => l_addr l' ∉ rl_done r'
    | _ => True
    end }.

(** The lease of another call is not the one that was freed. *)
Lemma move_others n s i c c' r' j cj l : sys_ok n s -> s_calls s !! i = Some c -> move_ok n (s_lim s) r' c c' ->
  j <> i -> s_calls s !! j = Some cj -> phase_lease (c_phase cj) = Some l ->
  l_addr l ∈ rl_done r' <-> l_addr l ∈ rl_done (s_lim s).
Proof.
  intros Hok Hi Hmv Hne Hj Hl. destruct (mv_done _ _ _ _ _ Hmv) as [->|(l0 & Hl0 & ->)]; [done|].
  rewrite elem_of_union, elem_of_singleton. split; [|by right]. intros [Heq|Hd]; [|done].
  exfalso. apply Hne. by apply (ok_uniq _ _ Hok j i cj c l l0).
Qed.

Lemma move_fresh n s i c c' r' j cj l l' : sys_ok n s -> s_calls s !! i = Some c -> move_ok n (s_lim s) r' c c' ->
  j <> i -> s_calls s !! j = Some cj -> phase_lease (c_phase cj) = Some l -> phase_lease (c_phase c') = Some l' ->
  l_addr l <> l_addr l'.
Proof.
  intros Hok Hi Hmv Hne Hj Hl Hl' Heq. destruct (mv_lease _ _ _ _ _ Hmv l' Hl') as [(l0 & Hl0 & Ha)|[Ha _]].
  - apply Hne. apply (ok_uniq _ _ Hok j i cj c l l0); congruence.
  - pose proof (ok_fresh _ _ Hok j cj l Hj Hl). lia.
Qed.

Lemma sys_move n s i c c' r' : sys_ok n s -> s_calls s !! i = Some c -> move_ok n (s_lim s) r' c c' ->
  sys_ok n (mkSys (<[i := c']> (s_calls s)) r').
Proof.
  intros Hok Hi Hmv. pose proof (lookup_lt_Some _ _ _ Hi) as Hlen.
  assert (Hlook : forall j cj, <[i := c']> (s_calls s) !! j = Some cj -> (j = i /\ cj = c') \/ (j <> i /\ s_calls s !! j = Some cj)).
  { intros j cj. destruct (decide (j = i)) as [->|Hne]; [rewrite list_lookup_insert_eq by done; intros [= <-]; by left|].
    rewrite list_lookup_insert_ne by done. by right. }
  constructor; cbn [s_lim s_calls].
  - rewrite (mv_max _ _ _ _ _ Hmv). apply Hok.
  - apply Hmv.
  - apply Hmv.
  - intros key. pose proof (held_change (rl_done (s_lim s)) (rl_done r') key _ i c c' Hi) as Hh.
    pose proof (mv_slots _ _ _ _ _ Hmv key) as Hs. rewrite (ok_slots _ _ Hok key) in Hs.
    enough (held (rl_done r') key (<[i:=c']> (s_calls s)) + b2n (holds (rl_done (s_lim s)) key c) =
      held (rl_done (s_lim s)) key (s_calls s) + b2n (holds (rl_done r') key c'))%nat by lia.
    apply Hh. intros j cj Hne Hj. unfold holds. destruct (phase_lease (c_phase cj)) as [l|] eqn:Hl; [|done].
    do 2 f_equal. apply bool_decide_ext.
    exact (move_others n s i c c' r' j cj l Hok Hi Hmv Hne Hj Hl).
  - apply Hmv.
  - intros j cj l [[-> ->]|[Hne Hj]]%Hlook Hl.
    + destruct (mv_lease _ _ _ _ _ Hmv l Hl) as [(l0 & Hl0 & ->)|[-> ->]]; [|lia].
      pose proof (ok_fresh _ _ Hok i c l0 Hi Hl0). pose proof (mv_next _ _ _ _ _ Hmv). lia.
    + pose proof (ok_fresh _ _ Hok j cj l Hj Hl). pose proof (mv_next _ _ _ _ _ Hmv). lia.
  - intros a Ha. pose proof (mv_next _ _ _ _ _ Hmv).
    destruct (mv_done _ _ _ _ _ Hmv) as [Hd|(l0 & Hl0 & Hd)]; rewrite Hd in Ha.
    + pose proof (ok_done _ _ Hok a Ha). lia.
    + apply elem_of_union in Ha as [Ha%elem_of_singleton|Ha].
      * subst. pose proof (ok_fresh _ _ Hok i c l0 Hi Hl0). lia.
      * pose proof (ok_done _ _ Hok a Ha). lia.
  - intros j1 j2 c1 c2 l1 l2 [[-> ->]|[Hn1 H1]]%Hlook [[-> ->]|[Hn2 H2]]%Hlook Hl1 Hl2 Heq; [done| | |].
    + exfalso. by apply (move_fresh n s i c c' r' j2 c2 l2 l1).
    + exfalso. by apply (move_fresh n s i c c' r' j1 c1 l1 l2).
    + by apply (ok_uniq _ _ Hok j1 j2 c1 c2 l1 l2).
  - intros j cj l [[-> ->]|[Hne Hj]]%Hlook Hl; [by apply Hmv|].
    pose proof (ok_phase _ _ Hok j cj l Hj Hl) as Hp. pose proof (move_others n s i c c' r' j cj l Hok Hi Hmv Hne Hj Hl) as Hd.
    destruct (c_phase cj); tauto.
Qed.

(** ** The moves *)

(** The phase changes, the limiter does not: no slot is gained or lost. *)
Lemma move_same n s i c c' r' : sys_ok n s -> s_calls s !! i = Some c ->
  rl_maxConcurrent r' = rl_maxConcurrent (s_lim s) -> is_Some (rl_semaphores r') -> is_Some (rl_store r') ->
  (forall key, semaphore key r' = semaphore key (s_lim s)) ->
  rl_next r' = rl_next (s_lim s) -> rl_done r' = rl_done (s_lim s) ->
  (phase_lease (c_phase c') = phase_lease (c_phase c) \/
   (phase_lease (c_phase c') = None /\ forall l, phase_lease (c_phase c) = Some l -> l_sem l = None)) ->
  (forall l', phase_lease (c_phase c') = Some l' ->
    match c_phase c' with
    | PhTake _ | PhSelect _ => l_sem l' = None /\ l_addr l' ∉ rl_done r'
    | PhStore _ | PhWait _ => l_addr l' ∉ rl_done r'
    | _ => True
    end) -> move_ok n (s_lim s) r' c c'.
Proof.
  intros Hok Hi Hm Hs Hst Hsem Hn Hd Hl Hph. constructor; try done.
  - lia.
  - intros l' Hl'. left. destruct Hl as [Heq|[Hnone _]]; [exists l'; by rewrite <- Heq|congruence].
  - by left.
  - intros key. rewrite Hsem, Hd. unfold holds. destruct Hl as [->|[-> Hnone]]; [done|].
    destruct (phase_lease (c_phase c)) as [l|]; [|done]. rewrite (Hnone l eq_refl), bool_decide_false by done. done.
  - intros key. rewrite Hsem. apply Hok.
Qed.

(** A slot is taken. *)
Lemma move_take n s i c l key : sys_ok n s -> s_calls s !! i = Some c -> phase_lease (c_phase c) = Some l ->
  l_sem l = None -> l_addr l ∉ rl_done (s_lim s) -> has_slot key (s_lim s) = true ->
  move_ok n (s_lim s) (set_slots key (S (semaphore key (s_lim s))) (s_lim s)) c
    (mkCall (c_key c) (c_req c) (PhStore (l <| l_sem := Some key |>))).
Proof.
  intros Hok Hi Hl Hsem Hd Hslot. pose proof (ok_sems _ _ Hok) as [m Hm]. constructor; cbn [c_phase phase_lease]; try done.
  - unfold set_slots. cbn [rl_semaphores set_field]. by rewrite Hm.
  - apply Hok.
  - intros l' [= <-]. left. by exists l.
  - by left.
  - intros key'. rewrite semaphore_set by apply Hok. unfold holds. cbn [c_phase phase_lease]. rewrite Hl, Hsem.
    rewrite (bool_decide_false (None = Some key')) by done. cbn [andb b2n l_sem l_addr set_field].
    rewrite (bool_decide_false (l_addr l ∈ _)) by done. cbn [negb]. rewrite andb_true_r.
    destruct (decide (key' = key)) as [->|Hne]; [rewrite !bool_decide_true by done; simpl; lia|].
    rewrite !bool_decide_false by congruence. simpl. lia.
  - intros key'. rewrite semaphore_set by apply Hok. unfold has_slot in Hslot. bool_hyps.
    case_bool_decide; [|apply Hok]. subst. pose proof (ok_max _ _ Hok). lia.
  - by intros l' [= <-].
Qed.

(** A slot is given back by a lease, once. *)
Lemma move_free n s i c c' l r1 : sys_ok n s -> s_calls s !! i = Some c -> phase_lease (c_phase c) = Some l ->
  rl_maxConcurrent r1 = rl_maxConcurrent (s_lim s) -> rl_semaphores r1 = rl_semaphores (s_lim s) ->
  rl_next r1 = rl_next (s_lim s) -> rl_done r1 = rl_done (s_lim s) -> is_Some (rl_store r1) ->
  (exists e, c_phase c' = PhDone (Err e)) \/ (c' = c /\ c_phase c = PhDone (Ok l)) ->
  move_ok n (s_lim s) (lease_free l r1) c c'.
Proof.
  intros Hok Hi Hl Hm Hs Hn Hd Hst Hc'. unfold lease_free.
  assert (Hsem : forall key, semaphore key r1 = semaphore key (s_lim s)) by (intros key; unfold semaphore; by rewrite Hs).
  assert (Hlease : forall l', phase_lease (c_phase c') = Some l' -> c' = c /\ c_phase c = PhDone (Ok l)).
  { destruct Hc' as [[e He]|?]; [rewrite He; done|done]. }
  assert (Hph : forall D l', phase_lease (c_phase c') = Some l' ->
    match c_phase c' with
    | PhTake _ | PhSelect _ => l_sem l' = None /\ l_addr l' ∉ (D : gset nat)
    | PhStore _ | PhWait _ => l_addr l' ∉ D
    | _ => True
    end).
  { intros D l' [-> ->]%Hlease. done. }
  destruct (l_sem l) as [key|] eqn:Hk.
  2:{ apply (move_same n s i); try done; [rewrite Hs; apply Hok| |apply Hph]. destruct Hc' as [[e He]|[-> _]]; [right|by left].
      rewrite He. split; [done|]. intros l' Hl'. congruence. }
  destruct (decide (l_addr l ∈ rl_done r1)) as [Hin|Hnin].
  - constructor; try done; [rewrite Hs; apply Hok|lia| |by left| |intros key'; rewrite Hsem; apply Hok|apply Hph].
    + intros l' Hl'. destruct (Hlease l' Hl') as [-> Hp]. left. exists l'. by rewrite Hl' in *.
    + intros key'. rewrite Hsem, Hd. unfold holds at 1. rewrite Hl. rewrite (bool_decide_true (l_addr l ∈ _)) by congruence.
      rewrite andb_false_r. unfold holds. destruct (phase_lease (c_phase c')) as [l'|] eqn:Hl'; [|simpl; lia].
      destruct (Hlease l' eq_refl) as [-> Hp]. rewrite Hl in Hl'. injection Hl' as <-.
      rewrite (bool_decide_true (l_addr l ∈ _)) by congruence. by rewrite andb_false_r.
  - rewrite Hd in Hnin.
    assert (Hsem' : forall key', semaphore key' ((sem_free key r1) <| rl_done := {[l_addr l]} ∪ rl_done r1 |>) =
      if bool_decide (key' = key) then Nat.pred (semaphore key (s_lim s)) else semaphore key' (s_lim s)).
    { intros key'. change (semaphore key' ((sem_free key r1) <| rl_done := _ |>)) with (semaphore key' (sem_free key r1)).
      unfold sem_free. rewrite semaphore_set by (rewrite Hs; apply Hok). by rewrite !Hsem. }
    assert (Hone : (0 < semaphore key (s_lim s))%nat).
    { rewrite (ok_slots _ _ Hok). unfold held. assert (Hin : In c (List.filter (holds (rl_done (s_lim s)) key) (s_calls s))).
      { apply List.filter_In. split; [apply list_elem_of_In; by eapply list_elem_of_lookup_2|]. unfold holds. rewrite Hl, Hk.
        by rewrite bool_decide_true, bool_decide_false. }
      destruct (List.filter _ _); [done|simpl; lia]. }
    constructor; try done.
    + cbn. rewrite Hs. destruct (ok_sems _ _ Hok) as [m ->]. done.
    + cbn. lia.
    + intros l' Hl'. destruct (Hlease l' Hl') as [-> Hp]. left. exists l'. by rewrite Hl' in *.
    + right. exists l. split; [done|]. cbn. by rewrite Hd.
    + intros key'. rewrite Hsem'.
      assert (Hc0 : holds (rl_done ((sem_free key r1) <| rl_done := {[l_addr l]} ∪ rl_done r1 |>)) key' c' = false).
      { unfold holds. destruct (phase_lease (c_phase c')) as [l'|] eqn:Hl'; [|done]. destruct (Hlease l' eq_refl) as [-> Hp].
        rewrite Hl in Hl'. injection Hl' as <-. cbn [rl_done set_field]. rewrite (bool_decide_true (l_addr l ∈ _)) by set_solver.
        by rewrite andb_false_r. }
      rewrite Hc0. unfold holds. rewrite Hl, Hk. rewrite (bool_decide_false (l_addr l ∈ _)) by done. cbn [negb]. rewrite andb_true_r.
      destruct (decide (key' = key)) as [->|Hne]; [rewrite !bool_decide_true by done; simpl; lia|].
      rewrite !bool_decide_false by congruence. simpl. lia.
    + intros key'. rewrite Hsem'. pose proof (ok_bound _ _ Hok key). case_bool_decide; [lia|apply Hok].
    + apply Hph.
Qed.

(** A fresh lease, which holds nothing yet. *)
Lemma move_new n s i c c' id r' : sys_ok n s -> s_calls s !! i = Some c -> c_phase c = PhStart ->
  (c_phase c' = PhTake (mkLimiterLease (rl_self (s_lim s)) id (rl_next (s_lim s)) None) \/
   c_phase c' = PhStore (mkLimiterLease (rl_self (s_lim s)) id (rl_next (s_lim s)) None)) ->
  r' = (s_lim s) <| rl_next := S (rl_next (s_lim s)) |> -> move_ok n (s_lim s) r' c c'.
Proof.
  intros Hok Hi Hc Hc' ->.
  assert (Hl : phase_lease (c_phase c') = Some (mkLimiterLease (rl_self (s_lim s)) id (rl_next (s_lim s)) None))
    by (by destruct Hc' as [-> | ->]).
  assert (Hd : rl_next (s_lim s) ∉ rl_done (s_lim s)) by (intros Hin; pose proof (ok_done _ _ Hok _ Hin); lia).
  constructor; try done; try apply Hok.
  - cbn. lia.
  - intros l' Hl'. right. split; [|done]. rewrite Hl in Hl'. by injection Hl' as <-.
  - by left.
  - intros key. unfold holds. rewrite Hl, Hc. cbn. by rewrite bool_decide_false.
  - intros l' Hl'. rewrite Hl in Hl'. injection Hl' as <-. by destruct Hc' as [-> | ->].
Qed.

(** The limiter's slots stay: the call keeps its lease, or fails without a slot. *)
Ltac stay Hok Hc :=
  eapply move_same; [exact Hok|eassumption|done|apply Hok|first [apply Hok|done]|done|done|done| |];
  [rewrite Hc; first [by left|right; split; [done|by intros ? [= <-]]]|try done; try (by intros ? [= <-])].

Lemma reserve_step_move n s i c o : sys_ok n s -> s_calls s !! i = Some c ->
  let '(p, r) := reserve_step o (c_key c) (c_req c) (c_phase c) (s_lim s) in
  move_ok n (s_lim s) r c (mkCall (c_key c) (c_req c) p).
Proof.
  intros Hok Hi.
  assert (Hph : forall l, phase_lease (c_phase c) = Some l -> match c_phase c with
      | PhTake _ | PhSelect _ => l_sem l = None /\ l_addr l ∉ rl_done (s_lim s)
      | PhStore _ | PhWait _ => l_addr l ∉ rl_done (s_lim s)
      | _ => True end) by (intros l Hl; exact (ok_phase _ _ Hok i c l Hi Hl)).
  destruct (c_phase c) as [|l|l|l|l|x] eqn:Hc; cbn [reserve_step].
  - destruct (o_ctx o); [stay Hok Hc|].
    destruct (leaseID o); [|stay Hok Hc].
    eapply (move_new n s i); [done|done|done| |done]. case_bool_decide; [by left|by right].
  - destruct (Hph l eq_refl) as [Hs Hd].
    assert (Hfail : forall e, move_ok n (s_lim s) (s_lim s) c (mkCall (c_key c) (c_req c) (PhDone (Err e)))).
    { intros e. stay Hok Hc. }
    destruct (o_ctx o); [apply Hfail|]. case_bool_decide.
    + destruct (has_slot (c_key c) (s_lim s)) eqn:Hslot; [|apply Hfail]. apply (move_take n s i); try done. by rewrite Hc.
    + stay Hok Hc.
  - destruct (Hph l eq_refl) as [Hs Hd].
    assert (Hfail : forall e, move_ok n (s_lim s) (s_lim s) c (mkCall (c_key c) (c_req c) (PhDone (Err e)))).
    { intros e. stay Hok Hc. }
    set (take := match o_ctx2 o with Some e => _ | None => _ end).
    assert (Htake : has_slot (c_key c) (s_lim s) = true -> let '(p, r) := take in move_ok n (s_lim s) r c (mkCall (c_key c) (c_req c) p)).
    { intros Hslot. unfold take. destruct (o_ctx2 o) as [e|]; [|apply (move_take n s i); try done; by rewrite Hc].
      apply (move_same n s i); try done; try apply Hok.
      - unfold sem_free, set_slots. cbn [rl_semaphores set_field]. destruct (ok_sems _ _ Hok) as [m ->]. done.
      - intros key. unfold sem_free. destruct (ok_sems _ _ Hok) as [m Hm]. rewrite !semaphore_set; try apply Hok;
          [|unfold set_slots; cbn [rl_semaphores set_field]; by rewrite Hm].
        rewrite (bool_decide_true (c_key c = c_key c)) by done. case_bool_decide; [by subst|done].
      - right. split; [done|]. rewrite Hc. by intros l' [= <-]. }
    destruct (o_ctx o) as [e|].
    + destruct (has_slot (c_key c) (s_lim s)); cbn [andb]; [|apply Hfail]. destruct (o_pick o); [by apply Htake|apply Hfail].
    + destruct (has_slot (c_key c) (s_lim s)); [by apply Htake|]. stay Hok Hc.
  - pose proof (Hph l eq_refl) as Hd. cbn beta iota in Hd. destruct (ok_store _ _ Hok) as [st Hst]. rewrite Hst.
    destruct (store_Reserve _ _ _ st) as [[[]|e] st'].
    + stay Hok Hc.
    + case_bool_decide.
      * eapply (move_free n s i); try done; [by rewrite Hc|left; by eexists].
      * stay Hok Hc.
    + eapply (move_free n s i); try done; [by rewrite Hc|left; by eexists].
  - pose proof (Hph l eq_refl) as Hd. cbn beta iota in Hd.
    assert (Hgo : move_ok n (s_lim s) (s_lim s) c (mkCall (c_key c) (c_req c) (PhStore l))).
    { stay Hok Hc. }
    destruct (o_ctx o) as [e|]; [|done]. destruct (o_pick o); [|done].
    eapply (move_free n s i); try done; [by rewrite Hc|apply Hok|left; by eexists].
  - stay Hok Hc.
Qed.

Lemma settle_move n s i key req l ok r1 : sys_ok n s -> s_calls s !! i = Some (mkCall key req (PhDone (Ok l))) ->
  rl_maxConcurrent r1 = rl_maxConcurrent (s_lim s) -> rl_semaphores r1 = rl_semaphores (s_lim s) ->
  rl_next r1 = rl_next (s_lim s) -> rl_done r1 = rl_done (s_lim s) -> is_Some (rl_store r1) ->
  sys_ok n (mkSys (s_calls s) (snd (settled_free l ok r1))).
Proof.
  intros Hok Hi Hm Hs Hn Hd Hst. set (c := mkCall key req (PhDone (Ok l))) in *.
  rewrite <- (list_insert_id (s_calls s) i c) by done. apply (sys_move n s i c); [done|done|].
  assert (Hfree : move_ok n (s_lim s) (lease_free l r1) c c) by (apply (move_free n s i); try done; by right).
  assert (Hkeep : move_ok n (s_lim s) r1 c c).
  { apply (move_same n s i); try done; [rewrite Hs; apply Hok|intros k; unfold semaphore; by rewrite Hs|by left]. }
  destruct ok as [u|e]; cbn [settled_free snd]; [done|]. by destruct (isTerminal e).
Qed.

Lemma sys_step_ok n s e : sys_ok n s -> sys_ok n (sys_step s e).
Proof.
  intros Hok. destruct e as [key req|i o|i o usage|i o]; cbn [sys_step].
  - assert (Hlook : forall j c l, (s_calls s ++ [mkCall key req PhStart]) !! j = Some c -> phase_lease (c_phase c) = Some l ->
      s_calls s !! j = Some c).
    { intros j c l [?|[_ Hj]]%lookup_app_Some Hl; [done|]. apply list_lookup_singleton_Some in Hj as [_ <-]. done. }
    constructor; cbn [s_lim s_calls]; try apply Hok.
    + intros k. rewrite held_snoc. unfold holds. cbn. rewrite (ok_slots _ _ Hok). lia.
    + intros j c l Hj Hl. apply (ok_fresh _ _ Hok j c l); eauto.
    + intros j1 j2 c1 c2 l1 l2 H1 H2 Hl1 Hl2. apply (ok_uniq _ _ Hok j1 j2 c1 c2 l1 l2); eauto.
    + intros j c l Hj Hl. apply (ok_phase _ _ Hok j c l); eauto.
  - destruct (s_calls s !! i) as [c|] eqn:Hi; [|done]. pose proof (reserve_step_move n s i c o Hok Hi) as Hmv.
    destruct (reserve_step _ _ _ _ _) as [p r]. by apply (sys_move n s i c).
  - destruct (s_calls s !! i) as [[key req [| | | | |[l|]]]|] eqn:Hi; try done.
    unfold limiter_Commit, ownedLease. case_bool_decide; [|by destruct s]. destruct (ok_store _ _ Hok) as [st Hst]. rewrite Hst.
    destruct (store_Commit _ _ _ _ st) as [ok st']. by apply (settle_move n s i key req).
  - destruct (s_calls s !! i) as [[key req [| | | | |[l|]]]|] eqn:Hi; try done.
    unfold limiter_Release, ownedLease. case_bool_decide; [|by destruct s]. destruct (ok_store _ _ Hok) as [st Hst]. rewrite Hst.
    destruct (store_Release _ _ _ st) as [ok st']. by apply (settle_move n s i key req).
Qed.

Lemma sys_run_ok n es s : sys_ok n s -> sys_ok n (sys_run s es).
Proof. revert s. induction es as [|e es IH]; intros s Hok; [done|]. apply IH. by apply sys_step_ok. Qed.

(** ** What is seen from outside

    A reply to Commit or Release that says that the lease has ended: success, or the errors for a lease that was settled
    before or has expired. *)
Definition ends (reply : res unit) : bool :=
  match reply with
  | Ok _ => true
  | Err (ESentinel s) => bool_decide (s ∈ [ErrRateLimitLeaseTerminal; ErrRateLimitLeaseCrossTerminal; ErrRateLimitLeaseExpired])
  | Err _ => false
  end.
(** The calls whose lease has ended, by the replies that the application got. *)
Definition ended_step (s : sys) (e : sys_event) (D : gset nat) : gset nat :=
  match e with
  | SCommit i o usage =>
      match s_calls s !! i with
      | Some (mkCall _ _ (PhDone (Ok l))) => if ends (fst (limiter_Commit o l usage (s_lim s))) then {[i]} ∪ D else D
      | _ => D
      end
  | SRelease i o =>
      match s_calls s !! i with
      | Some (mkCall _ _ (PhDone (Ok l))) => if ends (fst (limiter_Release o l (s_lim s))) then {[i]} ∪ D else D
      | _ => D
      end
  | _ => D
  end.
Fixpoint ended (s : sys) (es : list sys_event) (D : gset nat) : gset nat :=
  match es with [] => D | e :: es => ended (sys_step s e) es (ended_step s e D) end.

(** Call [i] uses a slot of the key: it waits for the store with one, or came back with a lease that has not ended. *)
Definition in_use (D : gset nat) (key : string) (i : nat) (c : call) : bool :=
  bool_decide (c_key c = key) &&
  match c_phase c with
  | PhStore _ | PhWait _ => true
  | PhDone (Ok _) => negb (bool_decide (i ∈ D))
  | _ => false
  end.
Definition users (D : gset nat) (key : string) (cs : list call) : nat := length (List.filter (fun ic => in_use D key ic.1 ic.2) (imap pair cs)).

(** A call that got past the semaphore has a slot of its key; that of a lease that came back is free exactly when the
    lease has ended. *)
Definition outside_ok (D : gset nat) (s : sys) : Prop := forall i c, s_calls s !! i = Some c ->
  match c_phase c with
  | PhStore l | PhWait l => l_sem l = Some (c_key c)
  | PhDone (Ok l) => l_sem l = Some (c_key c) /\ l_limiter l = rl_self (s_lim s) /\ (l_addr l ∈ rl_done (s_lim s) <-> i ∈ D)
  | _ => True
  end /\
  match phase_lease (c_phase c) with Some l => l_limiter l = rl_self (s_lim s) | None => True end.

Lemma ends_terminal e : ends (Err e) = isTerminal e.
Proof. destruct e as [s| | | | | | | | | |]; try done. by destruct s. Qed.

Lemma free_self l r : rl_self (lease_free (T:=T) l r) = rl_self r.
Proof. unfold lease_free. destruct (l_sem l); [|done]. by case_decide. Qed.

Lemma reserve_step_self o key req p r : rl_self (reserve_step o key req p r).2 = rl_self r.
Proof.
  destruct p as [|l|l|l|l|x]; cbn [reserve_step].
  - destruct (o_ctx o); [done|]. destruct (leaseID o); [|done]. by case_bool_decide.
  - destruct (o_ctx o); [done|]. case_bool_decide; [|done]. by destruct (has_slot key r).
  - assert (Ht : rl_self (match o_ctx2 o with
        | Some e => (PhDone (Err e), sem_free key (set_slots key (S (semaphore key r)) r))
        | None => (PhStore (l <| l_sem := Some key |>), set_slots key (S (semaphore key r)) r) end).2 = rl_self r) by (by destruct (o_ctx2 o)).
    destruct (o_ctx o), (has_slot key r); try done. simpl. by destruct (o_pick o).
  - destruct (rl_store r) as [st|]; [|done]. destruct (store_Reserve _ _ _ st) as [[[]|e] st']; cbn; [done| |by rewrite free_self].
    case_bool_decide; cbn; [by rewrite free_self|done].
  - destruct (o_ctx o); [|done]. destruct (o_pick o); [|done]. cbn. by rewrite free_self.
  - done.
Qed.

(** One move of call [i], which leaves the leases of the others alone. *)
Lemma outside_move n D D' s i c c' r' : sys_ok n s -> outside_ok D s -> s_calls s !! i = Some c -> move_ok n (s_lim s) r' c c' ->
  rl_self r' = rl_self (s_lim s) -> (forall j, j <> i -> j ∈ D' <-> j ∈ D) ->
  match c_phase c' with
  | PhStore l | PhWait l => l_sem l = Some (c_key c')
  | PhDone (Ok l) => l_sem l = Some (c_key c') /\ (l_addr l ∈ rl_done r' <-> i ∈ D')
  | _ => True
  end -> match phase_lease (c_phase c') with Some l => l_limiter l = rl_self (s_lim s) | None => True end ->
  outside_ok D' (mkSys (<[i := c']> (s_calls s)) r').
Proof.
  intros Hok Hout Hi Hmv Hself HD Hc' Hlim j cj. cbn [s_calls s_lim]. destruct (decide (j = i)) as [->|Hne].
  - rewrite list_lookup_insert_eq by (by eapply lookup_lt_Some). intros [= <-]. rewrite Hself. split; [|done].
    destruct (c_phase c') as [| | | | |[l|]]; try done. destruct Hc'. done.
  - rewrite list_lookup_insert_ne by done. intros Hj. rewrite Hself. pose proof (Hout j cj Hj) as [Hcj Hlj]. split; [|done].
    destruct (c_phase cj) as [| | | | |[l|]] eqn:Hp; try done. destruct Hcj as (Hs & Hl & Hd). split_and!; [done..|].
    rewrite HD by done. rewrite <- Hd. apply (move_others n s i c c' r' j cj l); try done. by rewrite Hp.
Qed.

Lemma reserve_step_outside n D s i c o : (0 < n)%Z -> sys_ok n s -> outside_ok D s -> s_calls s !! i = Some c ->
  i ∉ D \/ (exists x, c_phase c = PhDone x) ->
  let '(p, r) := reserve_step o (c_key c) (c_req c) (c_phase c) (s_lim s) in
  match p with
  | PhStore l | PhWait l => l_sem l = Some (c_key c)
  | PhDone (Ok l) => l_sem l = Some (c_key c) /\ (l_addr l ∈ rl_done r <-> i ∈ D)
  | _ => True
  end /\ match phase_lease p with Some l => l_limiter l = rl_self (s_lim s) | None => True end.
Proof.
  intros Hn Hok Hout Hi HD. pose proof (Hout i c Hi) as [Hc Hlim]. pose proof (ok_max _ _ Hok) as Hmax.
  pose proof (fun l => ok_phase _ _ Hok i c l Hi) as Hph.
  destruct (c_phase c) as [|l|l|l|l|x]; cbn [reserve_step phase_lease] in *.
  - destruct (o_ctx o); [done|]. destruct (leaseID o); [|done]. cbn [rl_maxConcurrent set_field]. rewrite bool_decide_true by lia. done.
  - destruct (o_ctx o); [done|]. case_bool_decide; [|done]. by destruct (has_slot _ _).
  - destruct (o_ctx o), (has_slot _ _); cbn [andb]; try done; destruct (o_ctx2 o); try done; by destruct (o_pick o).
  - destruct (ok_store _ _ Hok) as [st ->]. destruct (store_Reserve _ _ _ st) as [[[]|e] st']; [|by case_bool_decide|done].
    split; [|done]. split; [done|]. cbn [rl_done set_field]. specialize (Hph l eq_refl). destruct HD as [HD|[x Hx]]; [|done]. tauto.
  - destruct (o_ctx o); [|done]. by destruct (o_pick o).
  - destruct x as [l|]; [|done]. destruct Hc as (? & ? & ?). done.
Qed.

(** A settlement frees the slot exactly when its reply ends the lease. *)
Lemma settled_free_outside n D s i key req l ok r1 : sys_ok n s -> outside_ok D s -> s_calls s !! i = Some (mkCall key req (PhDone (Ok l))) ->
  rl_maxConcurrent r1 = rl_maxConcurrent (s_lim s) -> rl_semaphores r1 = rl_semaphores (s_lim s) ->
  rl_next r1 = rl_next (s_lim s) -> rl_done r1 = rl_done (s_lim s) -> is_Some (rl_store r1) -> rl_self r1 = rl_self (s_lim s) ->
  fst (settled_free l ok r1) = ok /\
  outside_ok (if ends ok then {[i]} ∪ D else D) (mkSys (s_calls s) (snd (settled_free l ok r1))).
Proof.
  intros Hok Hout Hi Hm Hs Hn Hd Hst Hself. set (c := mkCall key req (PhDone (Ok l))) in *.
  pose proof (Hout i c Hi) as [(Hsem & Hl & Hin) _]. cbn [c_key] in Hsem.
  split; [unfold settled_free; by destruct ok|]. rewrite <- (list_insert_id (s_calls s) i c) at 1 by done.
  assert (Hfree : outside_ok ({[i]} ∪ D) (mkSys (<[i := c]> (s_calls s)) (lease_free l r1))).
  { apply (outside_move n D _ s i c); try done; [apply (move_free n s i); try done; by right|by rewrite free_self|set_solver|].
    split; [done|]. unfold lease_free. rewrite Hsem. case_decide; cbn [rl_done set_field]; set_solver. }
  assert (Hkeep : outside_ok D (mkSys (<[i := c]> (s_calls s)) r1)).
  { apply (outside_move n D _ s i c); try done; [|cbn; by rewrite Hd].
    apply (move_same n s i); try done; [rewrite Hs; apply Hok|intros k; unfold semaphore; by rewrite Hs|by left]. }
  destruct ok as [u|e]; cbn [settled_free snd]; [done|]. rewrite ends_terminal. by destruct (isTerminal e).
Qed.

Lemma sys_step_outside n D s e : (0 < n)%Z -> sys_ok n s -> outside_ok D s ->
  (forall j, j ∈ D -> exists c l, s_calls s !! j = Some c /\ c_phase c = PhDone (Ok l)) ->
  outside_ok (ended_step s e D) (sys_step s e) /\
  (forall j, j ∈ ended_step s e D -> exists c l, s_calls (sys_step s e) !! j = Some c /\ c_phase c = PhDone (Ok l)).
Proof.
  intros Hn Hok Hout HD. destruct e as [key req|i o|i o usage|i o]; cbn [sys_step ended_step].
  - split.
    + intros j c [Hj|[_ Hj]]%lookup_app_Some; [by apply Hout|]. apply list_lookup_singleton_Some in Hj as [_ <-]. done.
    + intros j (c & l & Hj & Hp)%HD. exists c, l. split; [|done]. by apply lookup_app_l_Some.
  - destruct (s_calls s !! i) as [c|] eqn:Hi; [|done]. pose proof (reserve_step_move n s i c o Hok Hi) as Hmv.
    pose proof (reserve_step_self o (c_key c) (c_req c) (c_phase c) (s_lim s)) as Hself.
    assert (Hnew : i ∉ D \/ exists x, c_phase c = PhDone x).
    { destruct (decide (i ∈ D)) as [Hin|?]; [|by left]. right. destruct (HD i Hin) as (c0 & l & Hc0 & Hp). rewrite Hi in Hc0. injection Hc0 as <-. by exists (Ok l). }
    pose proof (reserve_step_outside n D s i c o Hn Hok Hout Hi Hnew) as Hc'.
    assert (Hdone : forall x, c_phase c = PhDone x -> reserve_step o (c_key c) (c_req c) (c_phase c) (s_lim s) = (PhDone x, s_lim s)) by (by intros x ->).
    destruct (reserve_step _ _ _ _ _) as [p r]. destruct Hc' as [Hc' Hlim]. split; [by apply (outside_move n D D s i c)|]. cbn [s_calls].
    intros j (cj & l & Hj & Hp)%HD. destruct (decide (j = i)) as [->|Hne]; [|exists cj, l; by rewrite list_lookup_insert_ne].
    rewrite Hi in Hj. injection Hj as <-. specialize (Hdone _ Hp). injection Hdone as -> _.
    exists (mkCall (c_key c) (c_req c) (PhDone (Ok l))), l. rewrite list_lookup_insert_eq by (by eapply lookup_lt_Some). done.
  - destruct (s_calls s !! i) as [[key req [| | | | |[l|]]]|] eqn:Hi; try done.
    pose proof (Hout i _ Hi) as [(_ & Hl & _) _]. unfold limiter_Commit, ownedLease. rewrite bool_decide_true by done.
    destruct (ok_store _ _ Hok) as [st Hst]. rewrite Hst. destruct (store_Commit _ _ _ _ st) as [ok st'].
    destruct (settled_free_outside n D s i key req l ok ((s_lim s) <| rl_store := Some st' |>) Hok Hout Hi) as [-> Ho]; try done.
    split; [done|]. cbn [s_calls]. intros j Hj. destruct (ends ok); [apply elem_of_union in Hj as [->%elem_of_singleton|Hj]; [by eexists _, l|]|]; by apply HD.
  - destruct (s_calls s !! i) as [[key req [| | | | |[l|]]]|] eqn:Hi; try done.
    pose proof (Hout i _ Hi) as [(_ & Hl & _) _]. unfold limiter_Release, ownedLease. rewrite bool_decide_true by done.
    destruct (ok_store _ _ Hok) as [st Hst]. rewrite Hst. destruct (store_Release _ _ _ st) as [ok st'].
    destruct (settled_free_outside n D s i key req l ok ((s_lim s) <| rl_store := Some st' |>) Hok Hout Hi) as [-> Ho]; try done.
    split; [done|]. cbn [s_calls]. intros j Hj. destruct (ends ok); [apply elem_of_union in Hj as [->%elem_of_singleton|Hj]; [by eexists _, l|]|]; by apply HD.
Qed.

Lemma sys_run_outside n es : forall s D, (0 < n)%Z -> sys_ok n s -> outside_ok D s ->
  (forall j, j ∈ D -> exists c l, s_calls s !! j = Some c /\ c_phase c = PhDone (Ok l)) -> outside_ok (ended s es D) (sys_run s es).
Proof.
  induction es as [|e es IH]; intros s D Hn Hok Hout HD; [done|]. cbn [ended]. destruct (sys_step_outside n D s e Hn Hok Hout HD) as [Ho HD'].
  apply IH; [done|by apply sys_step_ok|done|done].
Qed.

(** The slots that the limiter counts are those in use. *)
Lemma held_users n D s key : sys_ok n s -> outside_ok D s -> held (rl_done (s_lim s)) key (s_calls s) = users D key (s_calls s).
Proof.
  intros Hok Hout. unfold held, users.
  enough (Hgen : forall cs k, (forall i c, cs !! i = Some c -> holds (rl_done (s_lim s)) key c = in_use D key (k + i) c) ->
    length (List.filter (holds (rl_done (s_lim s)) key) cs) = length (List.filter (fun ic => in_use D key ic.1 ic.2) (imap (fun i c => (k + i, c)%nat) cs))).
  { apply (Hgen (s_calls s) 0). intros i c Hi. pose proof (Hout i c Hi) as [Hc _]. pose proof (fun l => ok_phase _ _ Hok i c l Hi) as Hph.
    unfold holds, in_use. cbn [Nat.add]. destruct (c_phase c) as [|l|l|l|l|[l|]]; cbn [phase_lease] in *; try (by rewrite andb_false_r).
    - destruct (Hph l eq_refl) as [-> _]. rewrite bool_decide_false by done. by rewrite andb_false_r.
    - destruct (Hph l eq_refl) as [-> _]. rewrite bool_decide_false by done. by rewrite andb_false_r.
    - specialize (Hph l eq_refl). rewrite Hc, (bool_decide_false (l_addr l ∈ _)) by done. cbn [negb]. rewrite !andb_true_r. apply bool_decide_ext. naive_solver.
    - specialize (Hph l eq_refl). rewrite Hc, (bool_decide_false (l_addr l ∈ _)) by done. cbn [negb]. rewrite !andb_true_r. apply bool_decide_ext. naive_solver.
    - destruct Hc as (-> & _ & Hd). f_equal; [apply bool_decide_ext; naive_solver|]. f_equal. by apply bool_decide_ext. }
  induction cs as [|c cs IH]; intros k Hcs; [done|]. cbn [List.filter imap]. cbn [fst snd].
  rewrite (Hcs 0 c eq_refl). specialize (IH (S k) ltac:(intros i ci Hi; rewrite (Hcs (S i) ci Hi); f_equal; lia)).
  assert (Him : imap ((fun i c => (k + i, c)%nat) ∘ S) cs = imap (fun i c => (S k + i, c)%nat) cs) by (apply imap_ext; intros i ci _; simpl; f_equal; lia).
  rewrite Him. destruct (in_use D key (k + 0) c); cbn [length]; by rewrite IH.
Qed.

(** The options of the package: a RateLimiterOption cannot reach the other fields. *)
Inductive package_option (char : ModelRequest -> res Z) : (limiter T -> limiter T) -> Prop :=
| opt_FixedWindow : package_option char WithFixedWindow
| opt_SlidingWindow : package_option char WithSlidingWindow
| opt_FailFast : package_option char WithFailFast
| opt_Block : package_option char WithBlock
| opt_RequestRateLimit count window : package_option char (RequestRateLimit count window)
| opt_TokenRateLimit count window : package_option char (TokenRateLimit count window)
| opt_MaxConcurrent n : package_option char (MaxConcurrent n)
| opt_GlobalRequestLimit count window : package_option char (WithGlobalRequestLimit count window)
| opt_GlobalTokenLimit count window : package_option char (WithGlobalTokenLimit count window)
| opt_Store st : package_option char (WithStore st)
| opt_TokenEstimator est : package_option char (WithTokenEstimator char est)
| opt_WithoutTokenReservation : package_option char WithoutTokenReservation
| opt_OutputReservationFallback n : package_option char (WithOutputReservationFallback n).

Lemma options_fresh char opts r : Forall (package_option char) opts ->
  rl_done (fold_left (fun r opt => opt r) opts r) = rl_done r /\ rl_next (fold_left (fun r opt => opt r) opts r) = rl_next r.
Proof.
  intros Hopts. revert r. induction Hopts as [|opt opts Hopt _ IH]; intros r; [done|]. cbn [fold_left].
  destruct (IH (opt r)) as [-> ->]. destruct Hopt; try done. by destruct est.
Qed.

(** A new limiter has a store, and semaphores when it bounds concurrency. *)
Lemma new_limiter_fields char enum memory self opts r : NewRateLimiter (T:=T) char enum memory self opts = Ok r ->
  Forall (package_option char) opts ->
  rl_done r = ∅ /\ rl_next r = 0 /\ is_Some (rl_store r) /\ ((0 < rl_maxConcurrent r)%Z -> rl_semaphores r = Some ∅).
Proof.
  intros Hnew Hopts. unfold NewRateLimiter in Hnew. match type of Hnew with context [fold_left _ opts ?x] =>
    destruct (options_fresh char opts x Hopts) as [Hd Hn] end.
  set (r0 := fold_left _ opts _) in *. destruct (List.find _ _) as [[]|]; [done|].
  destruct (rl_maxConcurrentSet r0 && _); [done|]. destruct (bool_decide _); [done|]. destruct (_ && bool_decide _); [done|].
  match type of Hnew with context [if ?b then ?x else r0] => set (r1 := if b then x else r0) in Hnew end.
  assert (Hr1 : rl_done r1 = ∅ /\ rl_next r1 = 0) by (unfold r1; by destruct (_ && _)).
  clearbody r1. destruct Hr1 as [Hd1 Hn1].
  assert (Hfin : forall r2, is_Some (rl_store r2) -> rl_done r2 = ∅ -> rl_next r2 = 0 ->
    r = (if bool_decide (0 < rl_maxConcurrent r2)%Z then r2 <| rl_semaphores := Some ∅ |> else r2) ->
    rl_done r = ∅ /\ rl_next r = 0 /\ is_Some (rl_store r) /\ ((0 < rl_maxConcurrent r)%Z -> rl_semaphores r = Some ∅)).
  { intros r2 ? ? ? ->. case_bool_decide; done. }
  destruct (rl_store r1) as [st|] eqn:Hst.
  - injection Hnew as <-. apply (Hfin r1); done.
  - destruct memory as [st|e]; [|done]. injection Hnew as <-. by apply (Hfin (r1 <| rl_store := Some st |>)).
Qed.

Lemma new_limiter_ok char enum memory self opts r : NewRateLimiter (T:=T) char enum memory self opts = Ok r ->
  Forall (package_option char) opts -> (0 < rl_maxConcurrent r)%Z -> sys_ok (rl_maxConcurrent r) (mkSys [] r).
Proof.
  intros Hnew Hopts Hmax. destruct (new_limiter_fields _ _ _ _ _ _ Hnew Hopts) as (Hd & Hn & Hst & Hs). specialize (Hs Hmax).
  assert (Hz : forall key, semaphore key r = 0) by (intros key; unfold semaphore; by rewrite Hs).
  constructor; cbn [s_lim s_calls]; try done; try (rewrite Hs; done).
  - intros key. rewrite Hz. lia.
  - rewrite Hd. set_solver.
Qed.

End System.

Arguments sys_event E : clear implicits.

(** C32. MaxConcurrent holds under every interleaving: for every store, whatever calls of Reserve, Commit and Release run
    concurrently and however their steps are interleaved, the slots of a key that the limiter counts as taken are
    exactly those in use: by the calls with that key that wait for the store with a slot, and by those that came back
    with a lease of which no Commit or Release was answered, yet, with success or with an error that says that it is
    over (settled before, or expired).  So never more than MaxConcurrent such calls exist at a time, no slot is counted
    twice and none is lost. *)
Theorem concurrency_bounded {E T} `{Store E T} char enum memory self opts (r : limiter T) (es : list (sys_event E)) key :
  NewRateLimiter char enum memory self opts = Ok r -> Forall (package_option char) opts -> (0 < rl_maxConcurrent r)%Z ->
  let s := sys_run (mkSys [] r) es in
  let D := ended (mkSys [] r) es ∅ in
  semaphore key (s_lim s) = users D key (s_calls s) /\
  (Z.of_nat (users D key (s_calls s)) <= rl_maxConcurrent r)%Z.
Proof.
  intros Hnew Hopts Hmax s D. pose proof (new_limiter_ok char enum memory self opts r Hnew Hopts Hmax) as Hok0.
  pose proof (sys_run_ok _ es _ Hok0) as Hok. fold s in Hok.
  assert (Hout : outside_ok D s).
  { apply (sys_run_outside (rl_maxConcurrent r)); [done|done| |]; [intros i c Hi; discriminate Hi|set_solver]. }
  rewrite <- (held_users _ D s key Hok Hout), <- (ok_slots _ _ Hok). split; [done|apply Hok].
Qed.

Definition empty_request : ModelRequest := mkRequest [] "" [] None None.

(** Two calls with the same key and one slot: the second is refused until the first has
    committed. *)
Definition one_slot : list (limiter MemoryStore -> limiter MemoryStore) := [RPM 10; MaxConcurrent 1].
Definition at_ (t : Z) : obs Z := mkObs None None true (Ok [Z.to_N t]) t.
Definition two_calls : list (sys_event Z) :=
  [SNew "a" empty_request; SNew "a" empty_request; SStep 0 (at_ 1); SStep 1 (at_ 2); SStep 0 (at_ 3); SStep 0 (at_ 4);
   SStep 1 (at_ 5); SCommit 0 (at_ 6) usage_zero; SNew "a" empty_request; SStep 2 (at_ 7); SStep 2 (at_ 8); SStep 2 (at_ 9)].
Definition char_zero : ModelRequest -> res Z := EstimateTokens (fun _ => None).
Definition empty_store : MemoryStore := mkMemoryStore ∅ ∅ (mkStoreConfig 0 0 false false).
Definition one_slot_limiter : limiter MemoryStore :=
  match NewRateLimiter char_zero id (NewMemoryStore (mkStoreConfig 0 0 false false)) 1 one_slot with
  | Ok r => r
  | Err _ => mkLimiter SlidingWindow FailFastMode None None None None 0 false None false 0 None None 0 ∅ 0
  end.

Lemma concurrency_bounded_witness :
  let _ := memory_store map_to_list in
  let s := sys_run (mkSys [] one_slot_limiter) two_calls in
  let D := ended (mkSys [] one_slot_limiter) two_calls ∅ in
  D = {[ 0 ]} /\ users D "a" (s_calls s) = 1 /\
  semaphore "a" (s_lim s) = users D "a" (s_calls s) /\
  (Z.of_nat (users D "a" (s_calls s)) <= 1)%Z.
Proof.
  intros st s D. split; [vm_compute; reflexivity|]. split; [vm_compute; reflexivity|].
  refine (concurrency_bounded (H:=st) char_zero id (NewMemoryStore (mkStoreConfig 0 0 false false)) 1 one_slot one_slot_limiter
    two_calls "a" _ _ _).
  - vm_compute. reflexivity.
  - repeat constructor.
  - vm_compute. reflexivity.
Defined.

(** * Reserve returns *)

(** What Reserve relies on from its store: a cancelled context is reported. *)
Class StoreCancels (E T : Type) `{Store E T} : Prop :=
  store_cancelled : forall (e : error) (env : E) (r : Reservation) (st : T), is_ok (fst (store_Reserve (Some e) env r st)) = false.

#[global] Instance memory_store_cancels enum : @StoreCancels Z MemoryStore (memory_store enum).
Proof. intros e env r st. done. Qed.

Lemma step_failfast {E T} `{Store E T} (o : obs E) key req p (r : limiter T) : rl_overflowBehavior r = FailFastMode ->
  let '(p', r') := reserve_step o key req p r in
  rl_overflowBehavior r' = FailFastMode /\
  match p with
  | PhStart => match p' with PhTake _ | PhStore _ | PhDone _ => True | _ => False end
  | PhTake _ => match p' with PhStore _ | PhDone _ => True | _ => False end
  | PhStore _ => match p' with PhDone _ => True | _ => False end
  | _ => True
  end.
Proof.
  intros Hff. assert (Hfree : forall l r1, rl_overflowBehavior (lease_free (T:=T) l r1) = rl_overflowBehavior r1).
  { intros l r1. unfold lease_free. destruct (l_sem l); [|done]. by destruct (decide _). }
  destruct p as [|l|l|l|l|x]; cbn [reserve_step].
  - destruct (o_ctx o); [done|]. destruct (leaseID o); [|done]. by destruct (bool_decide _).
  - destruct (o_ctx o); [done|]. rewrite bool_decide_true by done. by destruct (has_slot key r).
  - destruct (o_ctx o); [destruct (has_slot key r && _)|destruct (has_slot key r)]; try done; by destruct (o_ctx2 o).
  - destruct (rl_store r) as [st|]; [|done]. destruct (store_Reserve _ _ _ st) as [[[]|e] st']; [done| |by rewrite Hfree].
    rewrite bool_decide_true by done. by rewrite Hfree.
  - destruct (o_ctx o); [destruct (o_pick o); [by rewrite Hfree|done]|done].
  - done.
Qed.

Lemma step_cancelled {E T} `{StoreCancels E T} (o : obs E) key req p (r : limiter T) : o_ctx o <> None ->
  let '(p', r') := reserve_step o key req p r in
  match p with
  | PhStart | PhTake _ | PhStore _ | PhDone _ => match p' with PhDone _ => True | _ => False end
  | PhSelect _ | PhWait _ => match p' with PhStore _ | PhDone _ => True | _ => False end
  end.
Proof.
  intros Hctx. destruct (o_ctx o) as [e|] eqn:Ho; [|done]. destruct p as [|l|l|l|l|x]; cbn [reserve_step]; rewrite ?Ho; try done.
  - destruct (has_slot key r && o_pick o); [|done]. by destruct (o_ctx2 o).
  - destruct (rl_store r) as [st|]; [|done]. pose proof (store_cancelled e (o_env o) (reservation (l_id l) key req r) st) as Hc.
    destruct (store_Reserve _ _ _ st) as [[b|e'] st']; done.
  - by destruct (o_pick o).
Qed.

(** Reserve returns: a fail-fast reservation finishes within three steps, and in
    either mode a call whose context has been cancelled finishes within two steps
    from wherever it stands, for every store that reports a cancelled context. *)
Theorem reserve_terminates {E T} `{StoreCancels E T} key req (r : limiter T) :
  (forall o1 o2 o3 : obs E, rl_overflowBehavior r = FailFastMode ->
     exists x, fst (reserve_run [o1; o2; o3] key req PhStart r) = Some x) /\
  (forall (o1 o2 : obs E) p, o_ctx o1 <> None -> o_ctx o2 <> None ->
     exists x, fst (reserve_run [o1; o2] key req p r) = Some x).
Proof.
  split.
  - intros o1 o2 o3 Hff. cbn [reserve_run]. pose proof (step_failfast o1 key req PhStart r Hff) as H1.
    destruct (reserve_step o1 key req PhStart r) as [p1 r1]. destruct H1 as [Hff1 H1].
    destruct p1 as [|l|l|l|l|x]; try done; cbn [reserve_run]; [| |by eexists].
    + pose proof (step_failfast o2 key req (PhTake l) r1 Hff1) as H2.
      destruct (reserve_step o2 key req (PhTake l) r1) as [p2 r2]. destruct H2 as [Hff2 H2].
      destruct p2 as [|l2|l2|l2|l2|x]; try done; cbn [reserve_run]; [|by eexists].
      pose proof (step_failfast o3 key req (PhStore l2) r2 Hff2) as H3.
      destruct (reserve_step o3 key req (PhStore l2) r2) as [p3 r3]. destruct H3 as [_ H3]. destruct p3; try done. by eexists.
    + pose proof (step_failfast o2 key req (PhStore l) r1 Hff1) as H2.
      destruct (reserve_step o2 key req (PhStore l) r1) as [p2 r2]. destruct H2 as [_ H2]. destruct p2; try done. by eexists.
  - intros o1 o2 p H1 H2. pose proof (step_cancelled o1 key req p r H1) as S1.
    assert (Hgo : exists x, fst (let '(p', r') := reserve_step o1 key req p r in reserve_run [o2] key req p' r') = Some x).
    { destruct (reserve_step o1 key req p r) as [p1 r1].
      assert (Hp1 : match p1 with PhStore _ | PhDone _ => True | _ => False end) by (destruct p, p1; done).
      destruct p1 as [| | |l| |x]; try done; cbn [reserve_run]; [|by eexists].
      pose proof (step_cancelled o2 key req (PhStore l) r1 H2) as S2.
      destruct (reserve_step o2 key req (PhStore l) r1) as [p2 r2]. destruct p2; try done. by eexists. }
    destruct p; exact Hgo.
Qed.

Lemma reserve_terminates_witness :
  let _ := memory_store map_to_list in
  fst (reserve_run [at_ 1; at_ 2; at_ 3] "a" empty_request PhStart one_slot_limiter) =
    Some (Ok (mkLimiterLease 1 "01" 0 (Some "a"))) /\
  (exists x, fst (reserve_run [at_ 1; at_ 2; at_ 3] "a" empty_request PhStart one_slot_limiter) = Some x) /\
  (exists x, fst (reserve_run [mkObs (Some (ENew "canceled")) None true (Ok []) 1%Z; mkObs (Some (ENew "canceled")) None true (Ok []) 2%Z]
     "a" empty_request PhStart one_slot_limiter) = Some x).
Proof.
  intros st. split; [vm_compute; reflexivity|].
  destruct (@reserve_terminates Z MemoryStore st (memory_store_cancels map_to_list) "a" empty_request one_slot_limiter) as [H1 H2].
  split; [apply H1; vm_compute; reflexivity|apply H2; discriminate].
Defined.

(** * The limiter's reservations *)

(** The limiter's reservations meet what the window theorems ask: each uses a counter
    once, and every use of a key's counters or of the global ones carries the
    configured limit, window and strategy. *)
Theorem reservation_configured {T} id key req (r : limiter T) :
  let v := reservation id key req r in
  NoDup (map rq_Key (rv_Requests v)) /\ NoDup (map tk_Key (rv_Tokens v)) /\
  (forall rq, rq ∈ rv_Requests v -> rq_Strategy rq = rl_windowStrategy r /\
     exists c, (if bool_decide (rq_Key rq = storeGlobalKey) then rl_globalRequestLimit r else rl_requestRateLimit r) = Some c /\
       rq_Limit rq = rc_Count c /\ rq_Window rq = rc_window c) /\
  (forall t, t ∈ rv_Tokens v -> tk_Strategy t = rl_windowStrategy r /\ tk_Amount t = reservation_estimate req r /\
     exists c, (if bool_decide (tk_Key t = storeGlobalKey) then rl_globalTokenLimit r else rl_tokenRateLimit r) = Some c /\
       tk_Limit t = rc_Count c /\ tk_Window t = rc_window c).
Proof.
  assert (Hne : storeKey key <> storeGlobalKey) by done.
  cbv zeta. unfold reservation. cbn [rv_Requests rv_Tokens]. split_and!.
  - destruct (rl_requestRateLimit r), (rl_globalRequestLimit r); cbn [app map rq_Key];
      repeat (apply NoDup_cons; split); try apply NoDup_nil_2; set_solver.
  - destruct (rl_tokenRateLimit r), (rl_globalTokenLimit r); cbn [app map tk_Key];
      repeat (apply NoDup_cons; split); try apply NoDup_nil_2; set_solver.
  - intros rq [Hq|Hq]%elem_of_app.
    + destruct (rl_requestRateLimit r) as [c|] eqn:Hc; [|set_solver]. apply list_elem_of_singleton in Hq as ->.
      cbn [rq_Key rq_Strategy rq_Limit rq_Window]. rewrite bool_decide_false by done. split; [done|by exists c].
    + destruct (rl_globalRequestLimit r) as [c|] eqn:Hc; [|set_solver]. apply list_elem_of_singleton in Hq as ->.
      cbn [rq_Key rq_Strategy rq_Limit rq_Window]. rewrite bool_decide_true by done. split; [done|by exists c].
  - intros t [Hq|Hq]%elem_of_app.
    + destruct (rl_tokenRateLimit r) as [c|] eqn:Hc; [|set_solver]. apply list_elem_of_singleton in Hq as ->.
      cbn [tk_Key tk_Strategy tk_Limit tk_Window tk_Amount]. rewrite bool_decide_false by done. split_and!; [done|done|by exists c].
    + destruct (rl_globalTokenLimit r) as [c|] eqn:Hc; [|set_solver]. apply list_elem_of_singleton in Hq as ->.
      cbn [tk_Key tk_Strategy tk_Limit tk_Window tk_Amount]. rewrite bool_decide_true by done. split_and!; [done|done|by exists c].
Qed.

(** * Where the code departs from what it promises *)

Section Leak.
Variable enum : gmap string memoryLease -> list (string * memoryLease).
Hypothesis enum_perm : forall m, enum m ≡ₚ map_to_list m.

Lemma enum_empty : enum ∅ = [].
Proof. apply Permutation_nil_r. rewrite enum_perm. by rewrite map_to_list_empty. Qed.

Lemma enum_singleton id l : enum {[id := l]} = [(id, l)].
Proof. apply Permutation_singleton_r. rewrite enum_perm. by rewrite map_to_list_singleton. Qed.

(** A reservation without counters has no window, and its lease no lifetime. *)
Lemma zero_window_reserve now id : id <> "" ->
  Reserve enum None now (mkReservation id [] []) empty_store =
    (Ok true, mkMemoryStore {[id := mkLease LeasePending [] 0 now now]} ∅ (mkStoreConfig 0 0 false false)).
Proof.
  intros Hid. unfold Reserve. cbn [rv_ID]. rewrite bool_decide_false by done. cbn [validateReservation existsb rv_Requests rv_Tokens].
  unfold cleanup, empty_store. cbn [rs_leases]. rewrite enum_empty. cbn [fold_left rs_leases]. rewrite lookup_empty.
  cbn [check_requests check_tokens negb]. unfold Reserve_grant. cbn [rv_Requests rv_Tokens fold_left reservationWindow rv_ID].
  unfold pendingTTL, terminalTTL. cbn [rs_config sc_PendingTTL sc_TerminalTTL]. change (i64 (2 * 0)) with 0%Z.
  rewrite bool_decide_false by lia. by rewrite Z.add_0_r.
Qed.

Lemma zero_window_commit t0 t1 id actual : (t0 <= t1)%Z ->
  Commit enum None t1 id actual (mkMemoryStore {[id := mkLease LeasePending [] 0 t0 t0]} ∅ (mkStoreConfig 0 0 false false)) =
    (Err (ESentinel ErrRateLimitLeaseUnknown), mkMemoryStore ∅ ∅ (mkStoreConfig 0 0 false false)).
Proof.
  intros Ht. unfold Commit, terminate, cleanup. cbn [rs_leases]. rewrite enum_singleton. cbn [fold_left].
  assert (Hc : cleanup_lease t1 (mkMemoryStore {[id := mkLease LeasePending [] 0 t0 t0]} ∅ (mkStoreConfig 0 0 false false))
    (id, mkLease LeasePending [] 0 t0 t0) = mkMemoryStore ∅ ∅ (mkStoreConfig 0 0 false false)).
  { unfold cleanup_lease. cbn [ml_state ml_pendingUntil]. rewrite (bool_decide_true (t0 <= t1)%Z) by done.
    change (bool_decide (LeasePending = LeasePending) && true) with true. cbv beta iota.
    match goal with |- context [bool_decide (ml_terminalUntil ?l <= t1)%Z] =>
      rewrite (bool_decide_true (ml_terminalUntil l <= t1)%Z) by (change (t1 + 0 <= t1)%Z; lia);
      change (negb (bool_decide (ml_state l = LeasePending))) with true end. cbn. f_equal. apply map_eq. intros i.
    rewrite lookup_empty. apply lookup_delete_None. destruct (decide (id = i)) as [->|Hne]; [by left|right].
    rewrite lookup_insert_ne by done. by apply lookup_singleton_None. }
  rewrite Hc. cbn [rs_leases]. by rewrite lookup_empty.
Qed.

End Leak.

(** The limiter that NewRateLimiter(MaxConcurrent(1)) returns. *)
Definition concurrency_only : limiter MemoryStore :=
  mkLimiter SlidingWindow FailFastMode None None None None 1 true None false 0 (Some empty_store) (Some ∅) 1 ∅ 0.

(** A limiter with only MaxConcurrent leaks its slots over the in-process store: the
    reservation has no counter and so no window, its lease has expired and is dropped
    before it can be committed, Commit reports an unknown lease and does not free the
    slot, and every later attempt with the key is refused. *)
Theorem concurrency_only_leaks enum key req usage b1 b2 t0 t1 t2 t3 t4 t5 :
  (forall m, enum m ≡ₚ map_to_list m) -> hex_encode b1 <> "" -> (t2 <= t3)%Z ->
  let _ := memory_store enum in
  let look b t := mkObs None None true (Ok b) t in
  let l := mkLimiterLease 1 (hex_encode b1) 0 (Some key) in
  NewRateLimiter char_zero id (NewMemoryStore (mkStoreConfig 0 0 false false)) 1 [MaxConcurrent 1] = Ok concurrency_only /\
  let '(x, r1) := reserve_run [look b1 t0; look b1 t1; look b1 t2] key req PhStart concurrency_only in
  x = Some (Ok l) /\
  let '(c, r2) := limiter_Commit (look b1 t3) l usage r1 in
  c = Err (ESentinel ErrRateLimitLeaseUnknown) /\ semaphore key r2 = 1 /\
  fst (reserve_run [look b2 t4; look b2 t5] key req PhStart r2) = Some (Err (ESentinel ErrRateLimitExceeded)).
Proof.
  intros Henum Hb Ht st look l. split; [vm_compute; reflexivity|].
  set (l0 := mkLimiterLease 1 (hex_encode b1) 0 None). set (r0 := concurrency_only <| rl_next := 1 |>).
  set (cfg := mkStoreConfig 0 0 false false).
  set (ms := mkMemoryStore {[hex_encode b1 := mkLease LeasePending [] 0 t2 t2]} ∅ cfg).
  set (r1 := (set_slots key 1 r0) <| rl_store := Some ms |>).
  assert (H1 : reserve_step (look b1 t0) key req PhStart concurrency_only = (PhTake l0, r0)) by reflexivity.
  assert (H2 : reserve_step (look b1 t1) key req (PhTake l0) r0 = (PhStore l, set_slots key 1 r0)) by reflexivity.
  assert (H3 : reserve_step (look b1 t2) key req (PhStore l) (set_slots key 1 r0) = (PhDone (Ok l), r1)).
  { cbn [reserve_step]. change (rl_store (set_slots key 1 r0)) with (Some empty_store). cbv iota.
    change (reservation _ key req (set_slots key 1 r0)) with (mkReservation (hex_encode b1) [] []).
    change (store_Reserve (o_ctx (look b1 t2)) (o_env (look b1 t2)) ?v empty_store) with (Reserve enum None t2 v empty_store).
    by rewrite zero_window_reserve. }
  assert (Hres : reserve_run [look b1 t0; look b1 t1; look b1 t2] key req PhStart concurrency_only = (Some (Ok l), r1)).
  { cbn [reserve_run]. by rewrite H1, H2, H3. }
  rewrite Hres. split; [done|].
  set (r2 := r1 <| rl_store := Some (mkMemoryStore ∅ ∅ cfg) |>).
  assert (Hcom : limiter_Commit (look b1 t3) l usage r1 = (Err (ESentinel ErrRateLimitLeaseUnknown), r2)).
  { unfold limiter_Commit. change (ownedLease l r1) with (Ok l : res Lease). change (rl_store r1) with (Some ms). cbv iota.
    change (store_Commit (o_ctx (look b1 t3)) (o_env (look b1 t3)) (l_id l) ?v ms) with (Commit enum None t3 (hex_encode b1) v ms).
    unfold ms, cfg. by rewrite (zero_window_commit enum Henum). }
  rewrite Hcom.
  assert (Hsem : semaphore key r2 = 1).
  { change (semaphore key r2) with (semaphore key (set_slots key 1 r0)). rewrite semaphore_set by by eexists.
    by rewrite bool_decide_true. }
  split_and!; [done|done|].
  assert (H5 : reserve_step (look b2 t4) key req PhStart r2 =
    (PhTake (mkLimiterLease 1 (hex_encode b2) 1 None), r2 <| rl_next := 2 |>)) by reflexivity.
  cbn [reserve_run]. rewrite H5. cbn [reserve_run reserve_step]. change (o_ctx (look b2 t5)) with (None (A:=error)). cbv iota.
  unfold has_slot. change (semaphore key (r2 <| rl_next := 2 |>)) with (semaphore key r2). rewrite Hsem.
  reflexivity.
Qed.

Lemma concurrency_only_leaks_witness :
  let _ := memory_store map_to_list in
  let look b t := mkObs None None true (Ok b) t in
  let l := mkLimiterLease 1 "01" 0 (Some "a") in
  NewRateLimiter char_zero id (NewMemoryStore (mkStoreConfig 0 0 false false)) 1 [MaxConcurrent 1] = Ok concurrency_only /\
  let '(x, r1) := reserve_run [look [1%N] 1; look [1%N] 2; look [1%N] 3]%Z "a" empty_request PhStart concurrency_only in
  x = Some (Ok l) /\
  let '(c, r2) := limiter_Commit (look [1%N] 4%Z) l usage_zero r1 in
  c = Err (ESentinel ErrRateLimitLeaseUnknown) /\ semaphore "a" r2 = 1 /\
  fst (reserve_run [look [2%N] 5; look [2%N] 6]%Z "a" empty_request PhStart r2) = Some (Err (ESentinel ErrRateLimitExceeded)).
Proof.
  refine (concurrency_only_leaks map_to_list "a" empty_request usage_zero [1%N] [2%N] 1 2 3 4 5 6 _ _ _).
  - reflexivity.
  - discriminate.
  - lia.
Defined.

(** The output fallback is reserved on top of MaxTokens: where a request sets a
    positive output bound and no estimator runs, the limiter reserves the fallback and
    the bound together, though the option is documented for requests without a bound. *)
Theorem fallback_added_to_bound {T} (r : limiter T) req c n :
  rl_tokenEstimator r = None -> mq_InferenceConfig req = Some c -> ic_MaxTokens c = Some n -> (0 < n)%Z ->
  reservation_estimate req r = i64 (rl_outputReservationFallback r + n).
Proof. intros He Hc Hn Hpos. unfold reservation_estimate. rewrite He, Hc, Hn. by rewrite bool_decide_true. Qed.

Definition fallback_limiter : limiter MemoryStore :=
  mkLimiter SlidingWindow FailFastMode None (Some (mkRateConfig 1000 60)) None None 0 false None true 500
    (Some empty_store) None 1 ∅ 0.
Definition bounded_config : InferenceConfig := mkInference None None None None (Some 200%Z).

Lemma fallback_added_to_bound_witness :
  reservation_estimate (mkRequest [] "" [] None (Some bounded_config)) fallback_limiter = 700%Z /\
  reservation_estimate (mkRequest [] "" [] None (Some bounded_config)) fallback_limiter = i64 (500 + 200).
Proof.
  split; [vm_compute; reflexivity|].
  exact (fallback_added_to_bound fallback_limiter (mkRequest [] "" [] None (Some bounded_config)) bounded_config 200
    eq_refl eq_refl eq_refl eq_refl).
Defined.

(** A fixed window of 60 with ten tokens: a lease of the first window is settled in the
    second, where another lease is pending. *)
Definition ten_fixed (id : string) : Reservation :=
  mkReservation id [] [mkTokenReservation "key:a" 10 60 FixedWindow 10].
Definition fixed_attempts : list (Z * rate_op) :=
  [(0%Z, RReserve None (ten_fixed "1")); (61%Z, RReserve None (ten_fixed "2")); (62%Z, RReserve None (ten_fixed "3"));
   (63%Z, RCommit None "1" 0); (64%Z, RReserve None (ten_fixed "3"))].

(** A fixed window can Reserve_grant twice its token limit: a rollover forgets the reservations
    of pending leases, and the settlement of one of them then takes its estimate off
    the reservations of the new window.  In the run above a third reservation is
    refused while the second is pending, and admitted in the same window once the
    first, of the window before, has been settled with no usage: twenty estimated tokens
    are pending under a limit of ten. *)
Theorem fixed_window_overcommits :
  let run := rate_run map_to_list (mkMemoryStore ∅ ∅ (mkStoreConfig 0 0 false false)) fixed_attempts in
  fst run = [EvAdmitted 0 (ten_fixed "1"); EvAdmitted 61 (ten_fixed "2"); EvSettled "1"; EvAdmitted 64 (ten_fixed "3")] /\
  pending_amount "key:a" (snd run) = 20%Z /\
  mc_fixedStart <$> (rs_counters (snd run) !! "t:key:a") = Some (Some 61%Z).
Proof. vm_compute. split_and!; reflexivity. Qed.
