(* ===== verification/ContextManagers.v ===== *)
(** Context managers (agent/contextmanager/contextmanager.go): what part of an
    append-only conversation the model is shown.  Passthrough, the window that keeps
    tool calls with their results, the text filter and the rolling summary, each as a
    [ContextManager] of the engine. *)
From S2P Require Import Prelude Errors Messages Execution Schema Tool Inference Stores.
From S2P Require Import ConversationMemory State.

(** The derived state of a strategy, beside the canonical history. *)
(* agent/conversation.go:78-81: ContextStateStore *)
Record ContextStateStore (W : Type) := mkContextStateStore {
  xs_Load : string -> string -> W -> res ContextStateSnapshot * W;
  xs_Save : string -> string -> RawMessage -> N -> W -> res N * W }.
Arguments xs_Load {W}.
Arguments xs_Save {W}.
Arguments mkContextStateStore {W}.

(** * Tool calls and results in a range of messages *)

(* agent/contextmanager/contextmanager.go:108-119: loop of hasOrphanedToolResult *)
Fixpoint orphan_loop (uses : gset string) (bs : list ContentBlock) : bool :=
  match bs with
  | [] => false
  | ToolUseBlock u :: bs => orphan_loop ({[tu_ToolUseID u]} ∪ uses) bs
  | ToolResultBlk r :: bs => if decide (tr_ToolUseID r ∈ uses) then orphan_loop uses bs else true
  | _ :: bs => orphan_loop uses bs
  end.

(* agent/contextmanager/contextmanager.go: hasOrphanedToolResult *)
Definition hasOrphanedToolResult (messages : list Message) : bool := orphan_loop ∅ (all_blocks messages).

(** The counts of calls that wait for a result; a count that reaches zero is deleted. *)
(* agent/contextmanager/contextmanager.go:317-327: switch of hasUnresolved *)
Definition pending_step (pending : gmap string nat) (b : ContentBlock) : gmap string nat :=
  match b with
  | ToolUseBlock u => <[tu_ToolUseID u := S (default 0 (pending !! tu_ToolUseID u))]> pending
  | ToolResultBlk r =>
      match default 0 (pending !! tr_ToolUseID r) with
      | O => pending
      | S n => if bool_decide (n = 0) then delete (tr_ToolUseID r) pending else <[tr_ToolUseID r := n]> pending
      end
  | _ => pending
  end.

(* agent/contextmanager/contextmanager.go: hasUnresolved *)
Definition hasUnresolved (messages : list Message) : bool :=
  negb (bool_decide (fold_left pending_step (all_blocks messages) ∅ = ∅)).

Section Managers.
Context {W : Type}.

(** The projection of passthrough and window. *)
(* agent/contextmanager/contextmanager.go: Passthrough.Prepare *)
Definition passthrough_Prepare (inp : ContextManagerInput) (w : W) : res (list Message) * W :=
  (Ok ((ci_Recent inp ++ ci_Transient inp) ++ ci_Current inp), w).

(* agent/contextmanager/contextmanager.go:20-27: Passthrough *)
Definition Passthrough : ContextManager W := mkContextManager (fun _ w => (Ok 0%N, w)) passthrough_Prepare.

(** * Window *)

(* agent/contextmanager/contextmanager.go:32-35: Window *)
Record Window := mkWindow { wd_store : ConversationStore W; wd_count : N }.

(* agent/contextmanager/contextmanager.go: NewWindow *)
Definition NewWindow (store : option (ConversationStore W)) (messages : Z) : res Window :=
  match store with
  | None => Err (ENew "contextmanager: store is required")
  | Some store =>
      if bool_decide (messages < 1)%Z then Err (ENew "contextmanager: window messages must be >= 1")
      else Ok (mkWindow store (Z.to_N messages))
  end.

(** The loop goes back one message at a time; it ends at the beginning at the latest. *)
(* agent/contextmanager/contextmanager.go:55-64: loop of HistoryBoundary *)
Fixpoint window_back (store : ConversationStore W) (id : string) (start : nat) (w : W) : res N * W :=
  match cs_LoadAfter store id (N.of_nat start) w with
  | (Err e, w) => (Err e, w)
  | (Ok tail, w) =>
      if negb (hasOrphanedToolResult (sn_Messages tail)) then (Ok (N.of_nat start), w)
      else match start with
           | O => (Ok 0%N, w)
           | S start => window_back store id start w
           end
  end.

(* agent/contextmanager/contextmanager.go: Window.HistoryBoundary *)
Definition window_HistoryBoundary (wd : Window) (id : string) (w : W) : res N * W :=
  match cs_LoadAfter (wd_store wd) id 18446744073709551615 w with
  | (Err e, w) => (Err e, w)
  | (Ok meta, w) =>
      if bool_decide (sn_LastSequence meta <= wd_count wd)%N then (Ok 0%N, w)
      else window_back (wd_store wd) id (N.to_nat (sn_LastSequence meta - wd_count wd)) w
  end.

(* agent/contextmanager/contextmanager.go: Window.Prepare *)
Definition window_Prepare (inp : ContextManagerInput) (w : W) : res (list Message) * W :=
  (Ok ((ci_Recent inp ++ ci_Transient inp) ++ ci_Current inp), w).

Definition window_manager (wd : Window) : ContextManager W :=
  mkContextManager (window_HistoryBoundary wd) window_Prepare.

(** * Filter *)

(* agent/contextmanager/contextmanager.go:92-97: block loop of Filter.Prepare *)
Definition text_blocks (bs : list ContentBlock) : list ContentBlock :=
  List.filter (fun b => match b with TextBlock _ => true | _ => false end) bs.

(* agent/contextmanager/contextmanager.go:90-101: message loop of Filter.Prepare *)
Definition filter_text (msgs : list Message) : list Message :=
  omap (fun m => match text_blocks (m_Content m) with
    | [] => None
    | bs => Some (mkMessage (m_Role m) bs)
    end) msgs.

(* agent/contextmanager/contextmanager.go: Filter.Prepare *)
Definition filter_Prepare (inner : ContextManager W) (inp : ContextManagerInput) (w : W) : res (list Message) * W :=
  match cm_Prepare inner inp w with
  | (Err e, w) => (Err e, w)
  | (Ok out, w) => (Ok (filter_text out), w)
  end.

(* agent/contextmanager/contextmanager.go:76-84: NewFilter *)
Definition NewFilter (inner : option (ContextManager W)) : ContextManager W :=
  let inner := default Passthrough inner in
  mkContextManager (cm_HistoryBoundary inner) (filter_Prepare inner).

End Managers.
Arguments Window W : clear implicits.

(** * Rolling summary *)

(* agent/contextmanager/contextmanager.go:126-126: Summarizer *)
Definition Summarizer (W : Type) : Type := string -> list Message -> W -> res string * W.

(* agent/contextmanager/contextmanager.go:128-133: rollingState *)
Record rollingState := mkRolling {
  ro_Version : Z; ro_Summary : string; ro_CoveredThrough : N; ro_SourceRevision : N }.

(** encoding/json on the state.  [rc_text] is what the encoder does to a string (it
    replaces invalid UTF-8); an encoding is valid JSON and not empty. *)
Class RollingCodec := {
  rolling_Marshal : rollingState -> string;
  rolling_Unmarshal : string -> option rollingState;
  rc_text : string -> string;
  rolling_nonempty s : rolling_Marshal s <> "";
  rolling_roundtrip s : rolling_Unmarshal (rolling_Marshal s) =
    Some (mkRolling (ro_Version s) (rc_text (ro_Summary s)) (ro_CoveredThrough s) (ro_SourceRevision s)) }.

Section Rolling.
Context {W : Type} `{RollingCodec}.

(* agent/contextmanager/contextmanager.go:138-146: RollingSummary *)
Record RollingSummary := mkRollingSummary {
  rg_store : ConversationStore W; rg_state : option (ContextStateStore W);
  rg_estimator : ModelRequest -> res Z; rg_summarizer : Summarizer W;
  rg_maxInput : Z; rg_preserve : N; rg_key : string }.

#[global] Instance eta_RollingSummary : Settable RollingSummary := fun r =>
  mkRollingSummary (rg_store r) (rg_state r) (rg_estimator r) (rg_summarizer r) (rg_maxInput r)
    (rg_preserve r) (rg_key r).

Definition RollingOption : Type := RollingSummary -> res RollingSummary.

(* agent/contextmanager/contextmanager.go: WithStateStore *)
Definition WithStateStore (s : option (ContextStateStore W)) : RollingOption := fun r =>
  match s with
  | None => Err (ENew "contextmanager: state store is required")
  | Some _ => Ok (r <| rg_state := s |>)
  end.
(* agent/contextmanager/contextmanager.go: WithTokenEstimator *)
Definition rolling_WithTokenEstimator (e : option (ModelRequest -> res Z)) : RollingOption := fun r =>
  match e with
  | None => Err (ENew "contextmanager: token estimator is required")
  | Some e => Ok (r <| rg_estimator := e |>)
  end.
(* agent/contextmanager/contextmanager.go: WithMaxInputTokens *)
Definition WithMaxInputTokens (n : Z) : RollingOption := fun r =>
  if bool_decide (n < 1)%Z then Err (ENew "contextmanager: max input tokens must be >= 1")
  else Ok (r <| rg_maxInput := n |>).
(* agent/contextmanager/contextmanager.go: WithPreserveRecentTurns *)
Definition WithPreserveRecentTurns (n : Z) : RollingOption := fun r =>
  if bool_decide (n < 0)%Z then Err (ENew "contextmanager: preserve recent turns must be >= 0")
  else Ok (r <| rg_preserve := Z.to_N (i64 (n * 2) mod 18446744073709551616) |>).
(* agent/contextmanager/contextmanager.go: WithStateKey *)
Definition WithStateKey (key : string) : RollingOption := fun r =>
  if bool_decide (key = "") then Err (ENew "contextmanager: state key is required")
  else Ok (r <| rg_key := key |>).

(** Options in order; the first error ends the construction. *)
Fixpoint apply_options (opts : list RollingOption) (r : RollingSummary) : res RollingSummary :=
  match opts with
  | [] => Ok r
  | o :: opts => match o r with Err e => Err e | Ok r => apply_options opts r end
  end.

(** [asState] is the store as a ContextStateStore, where it implements that interface. *)
(* agent/contextmanager/contextmanager.go: NewRollingSummary *)
Definition NewRollingSummary (charEstimator : ModelRequest -> res Z) (store : option (ConversationStore W))
  (asState : option (ContextStateStore W)) (summarizer : option (Summarizer W)) (opts : list RollingOption)
  : res RollingSummary :=
  match store with
  | None => Err (ENew "contextmanager: store is required")
  | Some store =>
      match summarizer with
      | None => Err (ENew "contextmanager: summarizer is required")
      | Some summarizer =>
          match apply_options opts
            (mkRollingSummary store None charEstimator summarizer 100000 20 "rolling_summary") with
          | Err e => Err e
          | Ok r =>
              match rg_state r with
              | Some _ => Ok r
              | None =>
                  match asState with
                  | Some s => Ok (r <| rg_state := Some s |>)
                  | None => Err (ENew "contextmanager: store does not support ContextStateStore; use WithStateStore")
                  end
              end
          end
      end
  end.

Variable r : RollingSummary.
(** The state store of a constructed manager. *)
Variable state_store : ContextStateStore W.

(** A snapshot as a rolling state. *)
Definition decode_state (snapshot : ContextStateSnapshot) : res rollingState :=
  match ss_Data snapshot with
  | None | Some "" => Ok (mkRolling 1 "" 0 0)
  | Some data => match rolling_Unmarshal data with
      | None => Err (ENew "contextmanager: decode rolling state")
      | Some state => Ok state
      end
  end.

(* agent/contextmanager/contextmanager.go: RollingSummary.load *)
Definition rolling_load (id : string) (w : W) : res (rollingState * N) * W :=
  match xs_Load state_store id (rg_key r) w with
  | (Err e, w) => (Err e, w)
  | (Ok snapshot, w) =>
      (match decode_state snapshot with Err e => Err e | Ok state => Ok (state, ss_Revision snapshot) end, w)
  end.

(* agent/contextmanager/contextmanager.go: RollingSummary.HistoryBoundary *)
Definition rolling_HistoryBoundary (id : string) (w : W) : res N * W :=
  match rolling_load id w with
  | (Err e, w) => (Err e, w)
  | (Ok (state, _), w) => (Ok (ro_CoveredThrough state), w)
  end.

(* agent/contextmanager/contextmanager.go: summaryMessage *)
Definition summaryMessage (text : string) : Message :=
  mkMessage RoleUser [TextBlock
    ("[Automated summary of earlier messages in this conversation — not a new user message]" +:+
     String (Ascii.ascii_of_nat 10) (String (Ascii.ascii_of_nat 10) text))].

(* agent/contextmanager/contextmanager.go:261-269: build of Prepare *)
Definition rolling_build (recent transient current : list Message) (s : rollingState) : list Message :=
  (((if bool_decide (ro_Summary s = "") then [] else [summaryMessage (ro_Summary s)]) ++ recent) ++ transient) ++ current.

(** The longest prefix of at most [cut] messages without a call that waits for its
    result. *)
(* agent/contextmanager/contextmanager.go:284-286: loop of Prepare *)
Fixpoint safe_cut (recent : list Message) (cut : nat) : nat :=
  match cut with
  | O => O
  | S cut' => if hasUnresolved (take cut recent) then safe_cut recent cut' else cut
  end.

(* agent/contextmanager/contextmanager.go:281-311: compaction of Prepare *)
Definition rolling_compact (inp : ContextManagerInput) (boundary : N) (recent : list Message)
  (state : rollingState) (stateRev : N) (messages : list Message) (w : W) : res (list Message) * W :=
  let cut := safe_cut recent (length recent - N.to_nat (rg_preserve r)) in
  if bool_decide (cut = 0) then (Ok messages, w)
  else
    match rg_summarizer r (ro_Summary state) (take cut recent) w with
    | (Err e, w) => (Err (EWrap "contextmanager: summarize" e), w)
    | (Ok newSummary, w) =>
        let state := mkRolling 1 newSummary (u64 (boundary + N.of_nat cut)) (ci_Revision inp) in
        match xs_Save state_store (ci_ConversationID inp) (rg_key r) (Some (rolling_Marshal state)) stateRev w with
        | (Err e, w) => (Err (EWrap "contextmanager: save summary state" e), w)
        | (Ok _, w) => (Ok (rolling_build (drop cut recent) (ci_Transient inp) (ci_Current inp) state), w)
        end
    end.

(* agent/contextmanager/contextmanager.go: RollingSummary.Prepare *)
Definition rolling_Prepare (inp : ContextManagerInput) (w : W) : res (list Message) * W :=
  match rolling_load (ci_ConversationID inp) w with
  | (Err e, w) => (Err e, w)
  | (Ok (state, stateRev), w) =>
      let ahead := bool_decide (ci_Boundary inp < ro_CoveredThrough state)%N in
      let skip := (ro_CoveredThrough state - ci_Boundary inp)%N in
      if ahead && bool_decide (lenN (ci_Recent inp) < skip)%N
      then (Err (ENew "contextmanager: state covers a sequence beyond loaded recent history"), w)
      else
        let recent := if ahead then drop (N.to_nat skip) (ci_Recent inp) else ci_Recent inp in
        let boundary := if ahead then ro_CoveredThrough state else ci_Boundary inp in
        let messages := rolling_build recent (ci_Transient inp) (ci_Current inp) state in
        match rg_estimator r (mkRequest messages (ci_System inp) (ci_Tools inp) None None) with
        | Err e => (Err (EWrap "contextmanager: estimate tokens" e), w)
        | Ok estimate =>
            if bool_decide (estimate <= rg_maxInput r)%Z then (Ok messages, w)
            else if bool_decide (lenN recent <= rg_preserve r)%N then (Ok messages, w)
            else rolling_compact inp boundary recent state stateRev messages w
        end
  end.

Definition rolling_manager : ContextManager W := mkContextManager rolling_HistoryBoundary rolling_Prepare.

End Rolling.
Arguments RollingSummary W : clear implicits.

(** * The summarizer that asks a provider *)

(* agent/contextmanager/contextmanager.go:335-336: DefaultSummaryPrompt *)
Definition DefaultSummaryPrompt : string :=
  "Summarize the following conversation into a single concise paragraph. Preserve all key facts, names, and decisions.".

Section ProviderSummary.
Context {W : Type}.
(** strconv.Quote, which fmt uses for the q verb, and the error of the call's context. *)
Variables (quote : string -> string) (ctxErr : W -> option error).

(* agent/contextmanager/contextmanager.go: renderBlock *)
Definition renderBlock (b : ContentBlock) : string :=
  match b with
  | TextBlock text => text
  | ToolUseBlock u =>
      let input := default "" (tu_Input u) in
      let input := if bool_decide (input = "") then "{}" else input in
      "[called tool " +:+ quote (tu_Name u) +:+ " with " +:+ input +:+ "]"
  | ToolResultBlk r =>
      if tr_IsError r then "[tool error: " +:+ tr_Content r +:+ "]" else "[tool result: " +:+ tr_Content r +:+ "]"
  | _ => ""
  end.

(* agent/contextmanager/contextmanager.go:394-403: block loop of ProviderSummarizer *)
Definition render_message (m : Message) : string :=
  fold_left (fun sb b =>
    let line := renderBlock b in
    if bool_decide (line = "") then sb else sb +:+ m_Role m +:+ ": " +:+ line +:+ newline) (m_Content m) "".

(* agent/contextmanager/contextmanager.go:387-404: text of ProviderSummarizer *)
Definition summary_input (existing : string) (messages : list Message) : string :=
  let sb := if bool_decide (existing = "") then ""
            else "Summary so far:" +:+ newline +:+ existing +:+ newline +:+ newline +:+
                 "New messages to fold into the summary:" +:+ newline in
  fold_left (fun sb m => sb +:+ render_message m) messages sb.

(* agent/contextmanager/contextmanager.go: ProviderSummarizer *)
Definition ProviderSummarizer (provider : option (Provider W)) (system : string) : Summarizer W :=
  fun existing messages w =>
    match provider with
    | None => (Err (ENew "contextmanager: summarizer provider is required"), w)
    | Some p =>
        let req := mkRequest [mkMessage RoleUser [TextBlock (summary_input existing messages)]] system [] None None in
        let '(_, w) := pv_Events p req w in
        match pv_Answer p req (ctxErr w) w with
        | (Err e, w) => (Err (EWrap "contextmanager: provider summary" e), w)
        | (Ok response, w) => (Ok (mr_Text response), w)
        end
    end.

(* agent/contextmanager/contextmanager.go: DefaultProviderSummarizer *)
Definition DefaultProviderSummarizer (provider : option (Provider W)) : Summarizer W :=
  ProviderSummarizer provider DefaultSummaryPrompt.

End ProviderSummary.


(** What the context managers show the model: ranges that keep a tool result with its
    call, and summaries that cover exactly what is not shown. *)

(** * Calls and results *)

Definition use_id (b : ContentBlock) : option string := match b with ToolUseBlock u => Some (tu_ToolUseID u) | _ => None end.
Definition result_id (b : ContentBlock) : option string := match b with ToolResultBlk r => Some (tr_ToolUseID r) | _ => None end.
Definition use_ids (bs : list ContentBlock) : list string := omap use_id bs.
Definition result_ids (bs : list ContentBlock) : list string := omap result_id bs.

(** A result that comes before any call with its ID. *)
Lemma orphan_loop_true uses bs : (orphan_loop uses bs = true) <->
  exists p b q x, bs = p ++ (b :: q) /\ result_id b = Some x /\ (x ∉ uses) /\ x ∉ use_ids p.
Proof.
  revert uses. induction bs as [|b bs IH]; intros uses.
  { split; [done|]. intros (p & b & q & x & Hb & _). by destruct p. }
  assert (Hskip : forall uses', (forall x, x ∈ uses' <-> x ∈ uses \/ use_id b = Some x) ->
    (forall x, result_id b = Some x -> x ∈ uses) ->
    (orphan_loop uses' bs = true) <-> exists p b' q x, b :: bs = p ++ (b' :: q) /\ result_id b' = Some x /\ (x ∉ uses) /\ x ∉ use_ids p).
  { intros uses' Hu Hr. rewrite IH. split.
    - intros (p & b' & q & x & -> & Hb' & Hx & Hp). exists (b :: p), b', q, x. split_and!; try done.
      + intros Hin. apply Hx, Hu. by left.
      + unfold use_ids. simpl. destruct (use_id b) as [y|] eqn:Hy; [|done].
        intros [->|Hin]%elem_of_cons; [|done]. apply Hx, Hu. by right.
    - intros ([|b0 p] & b' & q & x & Hb & Hb' & Hx & Hp); simplify_eq/=; [by exfalso; apply Hx, Hr|].
      exists p, b', q, x. split_and!; try done.
      + intros [Hin|Hin]%Hu; [done|]. apply Hp. unfold use_ids. simpl. rewrite Hin. set_solver.
      + intros Hin. apply Hp. unfold use_ids. simpl. destruct (use_id b0); [by right|done]. }
  destruct b as [t|u|r|s|d|wi]; cbn [orphan_loop]; try (apply Hskip; [intros x; simpl; set_solver|done]).
  destruct (decide (tr_ToolUseID r ∈ uses)) as [Hin|Hnin].
  - apply Hskip; [intros x; simpl; set_solver|]. by intros x [= <-].
  - split; [intros _|done]. exists [], (ToolResultBlk r), bs, (tr_ToolUseID r). split_and!; try done. apply not_elem_of_nil.
Qed.

(** A call without a result keeps its count. *)
Lemma pending_step_other pending b x : use_id b <> Some x -> result_id b <> Some x -> pending_step pending b !! x = pending !! x.
Proof.
  intros Hu Hr. destruct b as [t|u|r|s|d|wi]; simpl in *; try done.
  - rewrite lookup_insert_ne; [done|congruence].
  - destruct (default 0 _) as [|n]; [done|]. destruct (bool_decide (n = 0));
      [rewrite lookup_delete_ne|rewrite lookup_insert_ne]; congruence.
Qed.

Lemma pending_kept bs pending x n : x ∉ result_ids bs -> pending !! x = Some (S n) ->
  exists n', fold_left pending_step bs pending !! x = Some (S n').
Proof.
  revert pending n. induction bs as [|b bs IH]; intros pending n Hr Hp; cbn [fold_left]; [by eexists|].
  assert (Hrb : result_id b <> Some x).
  { intros Hb. apply Hr. unfold result_ids. simpl. rewrite Hb. set_solver. }
  assert (Hrs : x ∉ result_ids bs).
  { intros Hin. apply Hr. unfold result_ids. simpl. destruct (result_id b); [by right|done]. }
  destruct (decide (use_id b = Some x)) as [Hu|Hu].
  - destruct b as [t|u|r|s|d|wi]; simplify_eq/=. eapply IH; [done|]. rewrite lookup_insert_eq. done.
  - eapply IH; [done|]. rewrite pending_step_other by done. exact Hp.
Qed.

(** In a range without unresolved calls every call has a result. *)
Lemma resolved_answered msgs x : hasUnresolved msgs = false -> x ∈ use_ids (all_blocks msgs) -> x ∈ result_ids (all_blocks msgs).
Proof.
  unfold hasUnresolved. intros Hu Hx. apply negb_false_iff, bool_decide_eq_true in Hu.
  destruct (decide (x ∈ result_ids (all_blocks msgs))) as [|Hn]; [done|]. exfalso.
  unfold use_ids in Hx. apply list_elem_of_omap in Hx as (b & Hb & Hbx). apply list_elem_of_split in Hb as (p & q & Heq).
  rewrite Heq, fold_left_app in Hu. cbn [fold_left] in Hu. destruct b as [t|u|r|s|d|wi]; simplify_eq/=.
  destruct (pending_kept q (<[tu_ToolUseID u := S (default 0 (fold_left pending_step p ∅ !! tu_ToolUseID u))]> (fold_left pending_step p ∅))
    (tu_ToolUseID u) (default 0 (fold_left pending_step p ∅ !! tu_ToolUseID u))) as [n Hk].
  - intros Hin. apply Hn. rewrite Heq. unfold result_ids. rewrite omap_app. apply elem_of_app. right. done.
  - by rewrite lookup_insert_eq.
  - rewrite Hu, lookup_empty in Hk. done.
Qed.

(** A resolved prefix can be cut off without separating a result from its call. *)
Lemma cut_keeps_calls msgs n : hasOrphanedToolResult msgs = false -> NoDup (result_ids (all_blocks msgs)) ->
  hasUnresolved (take n msgs) = false -> hasOrphanedToolResult (drop n msgs) = false.
Proof.
  intros Ho Hnd Hu. apply not_true_iff_false. intros Hd. unfold hasOrphanedToolResult in *.
  apply orphan_loop_true in Hd as (p & b & q & x & Heq & Hb & _ & Hp).
  assert (Hall : all_blocks msgs = all_blocks (take n msgs) ++ p ++ b :: q).
  { rewrite <- Heq, <- all_blocks_app, take_drop. done. }
  apply not_true_iff_false in Ho. apply Ho. apply orphan_loop_true.
  exists (all_blocks (take n msgs) ++ p), b, q, x. split_and!; [by rewrite Hall, app_assoc|done|set_solver|].
  unfold use_ids. rewrite omap_app. intros [Hin|Hin]%elem_of_app; [|done].
  apply (resolved_answered _ x Hu) in Hin. rewrite Hall in Hnd. unfold result_ids in *. rewrite !omap_app in Hnd. simpl in Hnd. rewrite Hb in Hnd.
  apply NoDup_app in Hnd as (_ & Hdis & _). apply (Hdis x Hin). set_solver.
Qed.

Lemma safe_cut_le recent cut : safe_cut recent cut <= cut.
Proof. induction cut as [|cut IH]; cbn [safe_cut]; [done|]. destruct (hasUnresolved _); lia. Qed.

Lemma safe_cut_resolved recent cut : safe_cut recent cut <> 0 -> hasUnresolved (take (safe_cut recent cut) recent) = false.
Proof. induction cut as [|cut IH]; cbn [safe_cut]; [done|]. destruct (hasUnresolved (take (S cut) recent)) eqn:E; [done|]. by intros _. Qed.

(** * The window *)

Section WindowProps.
Context {W : Type} (store : ConversationStore W) `{L : !ConversationLaws store}.
Variable id : string.

(** A history that can be counted in the end could be counted all along. *)
Lemma seq_ok_before w w' : cl_ok w -> cl_evolves w w' -> seq_ok (length (cl_log w' id)) -> seq_ok (length (cl_log w id)).
Proof.
  intros Hok Hev. pose proof (prefix_length _ _ (cl_append_only w w' id Hok Hev)). unfold seq_ok. lia.
Qed.

Lemma window_back_spec start w : cl_ok w ->
  let '(x, w') := window_back store id start w in
  cl_evolves w w' /\ forall b, seq_ok (length (cl_log w' id)) -> x = Ok b -> (N.to_nat b <= start)%nat /\
    (b = 0%N \/ exists w1, cl_evolves w w1 /\ cl_evolves w1 w' /\
       hasOrphanedToolResult (drop (N.to_nat b) (cl_log w1 id)) = false) /\
    (forall s, (N.to_nat b < s <= start)%nat -> exists w1, cl_evolves w w1 /\ cl_evolves w1 w' /\
       hasOrphanedToolResult (drop s (cl_log w1 id)) = true).
Proof.
  revert w. induction start as [|start IH]; intros w Hok; cbn [window_back];
    match goal with |- context [cs_LoadAfter store id ?n w] => pose proof (cl_load_after id n w Hok) as Hl;
      destruct (cs_LoadAfter store id n w) as [[tail|e] w1] end; destruct Hl as [Hev Hl]; try done;
    destruct (Hl tail eq_refl) as (w0 & H0 & H01 & Hmsgs & _); rewrite Nat2N.id in Hmsgs;
    assert (Hm : seq_ok (length (cl_log w1 id)) -> sn_Messages tail = drop _ (cl_log w0 id))
      by (intros Hs; apply Hmsgs, (seq_ok_before w0 w1); [by eapply cl_ok_evolves|done|done]);
    destruct (hasOrphanedToolResult (sn_Messages tail)) eqn:Ho; cbn [negb].
  - split; [done|]. intros b _ [= <-]. split_and!; [lia|by left|intros s Hs; lia].
  - split; [done|]. intros b _ [= <-]. split_and!; [lia|by left|intros s Hs; lia].
  - specialize (IH w1 (cl_ok_evolves _ _ Hok Hev)).
    destruct (window_back store id start w1) as [x w']. destruct IH as [Hev' IH]. split; [exact (transitivity Hev Hev')|].
    intros b Hseq Hb. destruct (IH b Hseq Hb) as (Hle & Hsafe & Hmax).
    specialize (Hm (seq_ok_before w1 w' (cl_ok_evolves _ _ Hok Hev) Hev' Hseq)). rewrite Hm in Ho. split_and!; [lia| |].
    + destruct Hsafe as [->|(w2 & H2 & H2' & Hs)]; [by left|right]. exists w2. split_and!; [exact (transitivity Hev H2)|done|done].
    + intros s Hs. destruct (decide (s = S start)) as [->|Hne].
      * exists w0. split_and!; [done|exact (transitivity H01 Hev')|done].
      * destruct (Hmax s) as (w2 & H2 & H2' & Hs2); [lia|]. exists w2. split_and!; [exact (transitivity Hev H2)|done|done].
  - split; [done|]. intros b Hseq Hb. assert (b = N.of_nat (S start)) as -> by congruence. rewrite Nat2N.id. rewrite (Hm Hseq) in Ho.
    split_and!; [lia| |intros s Hs; lia]. right. exists w0. by split_and!.
Qed.

End WindowProps.

(** The window's boundary is safe and tight, over every conversation store that keeps
    its contract and whatever other writers append meanwhile: the boundary leaves at
    least the configured number of messages, the range after it has no tool result
    without its call (unless it is the whole history), and every later boundary that
    leaves enough messages was seen to separate a result from its call. *)
Theorem window_boundary_spec {W} (store : ConversationStore W) `{!ConversationLaws store} count id w :
  cl_ok w ->
  let '(x, w') := window_HistoryBoundary (mkWindow store count) id w in
  forall b, x = Ok b -> seq_ok (length (cl_log w' id)) -> exists w0, cl_evolves w w0 /\ cl_evolves w0 w' /\
    (b = 0%N \/ (N.to_nat b + N.to_nat count <= length (cl_log w0 id))%nat /\
       exists w1, cl_evolves w w1 /\ cl_evolves w1 w' /\ hasOrphanedToolResult (drop (N.to_nat b) (cl_log w1 id)) = false) /\
    (forall s, (N.to_nat b < s)%nat -> (s + N.to_nat count <= length (cl_log w0 id))%nat ->
       exists w1, cl_evolves w w1 /\ cl_evolves w1 w' /\ hasOrphanedToolResult (drop s (cl_log w1 id)) = true).
Proof.
  intros Hok. unfold window_HistoryBoundary. cbn [wd_store wd_count].
  pose proof (cl_load_after id 18446744073709551615 w Hok) as Hl. destruct (cs_LoadAfter store id _ w) as [[meta|e] w1];
    destruct Hl as [Hev Hl]; [|done]. destruct (Hl meta eq_refl) as (w0 & H0 & H01 & _ & _ & Hlast).
  assert (Hlen : seq_ok (length (cl_log w1 id)) -> sn_LastSequence meta = N.of_nat (length (cl_log w0 id))).
  { intros Hs. rewrite Hlast. apply u64_small. apply (seq_ok_before store id w0 w1); [by eapply cl_ok_evolves|done|done]. }
  case_bool_decide as Hc.
  - intros b [= <-] Hseq. specialize (Hlen Hseq). exists w0. split_and!; [done|done|by left|]. intros s Hs Hs'. lia.
  - pose proof (window_back_spec store id (N.to_nat (sn_LastSequence meta - count)) w1 (cl_ok_evolves _ _ Hok Hev)) as Hb.
    destruct (window_back store id _ w1) as [x w']. destruct Hb as [Hev' Hb]. intros b Hx Hseq.
    specialize (Hlen (seq_ok_before store id w1 w' (cl_ok_evolves _ _ Hok Hev) Hev' Hseq)).
    destruct (Hb b Hseq Hx) as (Hle & Hsafe & Hmax). exists w0. split_and!; [done|exact (transitivity H01 Hev')| |].
    + destruct Hsafe as [->|(w2 & H2 & H2' & Hs)]; [by left|right]. split; [lia|]. exists w2. split_and!; [exact (transitivity Hev H2)|done|done].
    + intros s Hs Hs'. destruct (Hmax s) as (w2 & H2 & H2' & Hs2); [lia|]. exists w2. split_and!; [exact (transitivity Hev H2)|done|done].
Qed.

(** A conversation with a tool call: of the last two messages the first is a result, so
    that the window starts one message earlier, at the call. *)
Definition called_transcript : list Message :=
  [mkMessage RoleUser [TextBlock "hi"]; mkMessage RoleAssistant [ToolUseBlock (mkToolUse "c1" "look" (Some "{}"))];
   mkMessage RoleUser [ToolResultBlk (mkToolResult "c1" "ok" false [])]; mkMessage RoleAssistant [TextBlock "done"]].
Definition called_memory : InMemory := snd (Append "c" called_transcript 0 ∅).

Lemma called_memory_ok : mem_ok called_memory.
Proof.
  pose proof (Append_commit "c" called_transcript ∅ mem_ok_empty) as H. unfold called_memory.
  change 0%N with (mem_rev ∅ "c"). destruct (Append "c" called_transcript (mem_rev ∅ "c") ∅). by destruct H.
Qed.

Lemma window_boundary_spec_witness :
  window_HistoryBoundary (mkWindow memory_store 2) "c" called_memory = (Ok 1%N, called_memory) /\
  exists w0, mem_evolves called_memory w0 /\ mem_evolves w0 called_memory /\
    (1%N = 0%N \/ (1 + 2 <= length (mem_log w0 "c"))%nat /\ exists w1, mem_evolves called_memory w1 /\
       mem_evolves w1 called_memory /\ hasOrphanedToolResult (drop 1 (mem_log w1 "c")) = false) /\
    (forall s, (1 < s)%nat -> (s + 2 <= length (mem_log w0 "c"))%nat ->
       exists w1, mem_evolves called_memory w1 /\ mem_evolves w1 called_memory /\
         hasOrphanedToolResult (drop s (mem_log w1 "c")) = true).
Proof.
  assert (E : window_HistoryBoundary (mkWindow memory_store 2) "c" called_memory = (Ok 1%N, called_memory))
    by (vm_compute; reflexivity).
  split; [exact E|].
  pose proof (window_boundary_spec memory_store 2 "c" called_memory called_memory_ok) as H. rewrite E in H.
  exact (H 1%N eq_refl eq_refl).
Defined.

(** * The rolling summary *)

(** What a store of derived state promises: Load reads the current value, a Save that
    succeeds found the expected revision and replaced the value.  [xl_at] is the value
    of a key in a world. *)
Class ContextStateLaws {W} (xs : ContextStateStore W) := {
  xl_at : W -> string -> string -> ContextStateSnapshot;
  xl_load id key w : let '(x, w') := xs_Load xs id key w in
    (forall i k, xl_at w' i k = xl_at w i k) /\ forall sn, x = Ok sn -> sn = xl_at w id key;
  xl_save id key data expected w : let '(x, w') := xs_Save xs id key data expected w in
    forall n, x = Ok n -> ss_Revision (xl_at w id key) = expected /\
      default "" (ss_Data (xl_at w' id key)) = default "" data }.

(** The in-process store as a state store, and its contract. *)
Definition memory_state_store (json_Valid : string -> bool) : ContextStateStore InMemory :=
  mkContextStateStore (fun id key m => (Ok (LoadContextState id key m), m)) (SaveContextState json_Valid).

#[export, refine] Instance memory_state_laws json_Valid : ContextStateLaws (memory_state_store json_Valid) := {|
  xl_at := fun m id key => LoadContextState id key m |}.
Proof.
  - intros id key m. simpl. split; [done|]. by intros sn [= <-].
  - intros id key data expected m. simpl. unfold SaveContextState. destruct (json_Valid _); [|done]. cbn [negb].
    case_bool_decide as Hrev; [done|]. intros n _. split.
    + rewrite <- Hrev. unfold LoadContextState. by destruct (me_contextState (entry m id) !! key).
    + unfold LoadContextState. rewrite entry_insert, decide_True by done. cbn [me_contextState set_field].
      rewrite lookup_insert_eq. cbn [ss_Data ms_data]. destruct data as [[|c d]|]; done.
Defined.

(** The summaries that cover a prefix of a history: from nothing, by one summary after
    the other, each of the messages that follow the covered ones and up to a point
    where no tool call waits for its result. *)
Inductive rolling_covers {W} `{RollingCodec} (summ : Summarizer W) (log : list Message) : rollingState -> Prop :=
| covers_none : rolling_covers summ log (mkRolling 1 "" 0 0)
| covers_more st n text rev w w' : rolling_covers summ log st -> (0 < n)%nat ->
    let seg := take n (drop (N.to_nat (ro_CoveredThrough st)) log) in
    (N.to_nat (ro_CoveredThrough st) + n <= length log)%nat -> hasUnresolved seg = false ->
    summ (ro_Summary st) seg w = (Ok text, w') ->
    rolling_covers summ log (mkRolling 1 (rc_text text) (ro_CoveredThrough st + N.of_nat n) rev).

Section RollingProps.
Context {W : Type} `{C : RollingCodec} (xs : ContextStateStore W) `{X : !ContextStateLaws xs}.
Variable r : RollingSummary W.

Lemma covers_bound summ log st : rolling_covers (W:=W) summ log st -> (N.to_nat (ro_CoveredThrough st) <= length log)%nat.
Proof. intros Hc. induction Hc; simpl; lia. Qed.

(** What was covered stays covered while the history grows. *)
Lemma covers_grow summ log ext st : rolling_covers (W:=W) summ log st -> rolling_covers summ (log ++ ext) st.
Proof.
  induction 1 as [|st n text rev w w' Hc IH Hn seg Hlen Hu Hs]; [constructor|].
  assert (Hseg : take n (drop (N.to_nat (ro_CoveredThrough st)) (log ++ ext)) = seg).
  { unfold seg. rewrite drop_app_le by lia. rewrite take_app_le; [done|]. rewrite length_drop. lia. }
  apply (covers_more summ (log ++ ext) st n text rev w w'); rewrite ?Hseg; try done. rewrite length_app. lia.
Qed.

Lemma decode_saved state n : decode_state (mkStateSnapshot (Some (rolling_Marshal state)) n) =
  Ok (mkRolling (ro_Version state) (rc_text (ro_Summary state)) (ro_CoveredThrough state) (ro_SourceRevision state)).
Proof.
  unfold decode_state. cbn [ss_Data]. pose proof (rolling_nonempty state) as Hne.
  destruct (rolling_Marshal state) as [|c s] eqn:E; [done|]. rewrite <- E, rolling_roundtrip. done.
Qed.

Lemma decode_data sn sn' : default "" (ss_Data sn) = default "" (ss_Data sn') -> decode_state sn = decode_state sn'.
Proof.
  unfold decode_state. destruct (ss_Data sn) as [[|]|], (ss_Data sn') as [[|]|]; simpl; intros; simplify_eq; done.
Qed.

Definition shown (text : string) (covered : N) (log : list Message) (inp : ContextManagerInput) : list Message :=
  (((if bool_decide (text = "") then [] else [summaryMessage text]) ++ drop (N.to_nat covered) log)
     ++ ci_Transient inp) ++ ci_Current inp.

Lemma compact_covers log inp st rev messages w : (lenN log < 18446744073709551616)%N ->
  let id := ci_ConversationID inp in
  decode_state (xl_at w id (rg_key r)) = Ok st ->
  rolling_covers (rg_summarizer r) log st -> messages = shown (ro_Summary st) (ro_CoveredThrough st) log inp ->
  let recent := drop (N.to_nat (ro_CoveredThrough st)) log in
  let '(x, w') := rolling_compact r xs inp (ro_CoveredThrough st) recent st rev messages w in
  forall out, x = Ok out -> exists st' text, decode_state (xl_at w' id (rg_key r)) = Ok st' /\
    rolling_covers (rg_summarizer r) log st' /\ (ro_CoveredThrough st <= ro_CoveredThrough st')%N /\
    (ro_Summary st' = text \/ ro_Summary st' = rc_text text) /\
    out = shown text (ro_CoveredThrough st') log inp /\
    (st' = st \/ N.to_nat (ro_CoveredThrough st') + N.to_nat (rg_preserve r) <= length log)%nat.
Proof.
  intros Hlog id Hst Hcov Hmsgs recent. pose proof (covers_bound _ _ _ Hcov) as Hb. unfold rolling_compact.
  set (cut := safe_cut recent _). pose proof (safe_cut_le recent (length recent - N.to_nat (rg_preserve r))) as Hcle. fold cut in Hcle.
  assert (Hrl : length recent = length log - N.to_nat (ro_CoveredThrough st)) by apply length_drop.
  case_bool_decide as Hc0.
  { intros out [= <-]. exists st, (ro_Summary st). split_and!; try done; [by left|by left]. }
  pose proof (safe_cut_resolved recent _ Hc0) as Hres. fold cut in Hres.
  destruct (rg_summarizer r (ro_Summary st) (take cut recent) w) as [[text|e] w1] eqn:Hsum; [|done].
  set (st' := mkRolling 1 text _ _). pose proof (xl_save id (rg_key r) (Some (rolling_Marshal st')) rev w1) as Hs.
  fold id. destruct (xs_Save xs id (rg_key r) _ rev w1) as [[n|e] w2]; [|done]. destruct (Hs n eq_refl) as [_ Hd].
  intros out [= <-]. unfold lenN in Hlog.
  assert (Hsum64 : u64 (ro_CoveredThrough st + N.of_nat cut) = (ro_CoveredThrough st + N.of_nat cut)%N) by (apply u64_small; lia).
  exists (mkRolling 1 (rc_text text) (ro_CoveredThrough st + N.of_nat cut) (ci_Revision inp)), text. split_and!.
  - rewrite (decode_data _ (mkStateSnapshot (Some (rolling_Marshal st')) n)) by exact Hd. rewrite decode_saved.
    unfold st'. cbn [ro_Version ro_Summary ro_CoveredThrough ro_SourceRevision]. by rewrite Hsum64.
  - apply (covers_more _ _ st cut text (ci_Revision inp) w w1); try done; lia.
  - cbn [ro_CoveredThrough]. lia.
  - by right.
  - unfold shown, rolling_build, st'. cbn [ro_Summary ro_CoveredThrough]. unfold recent.
    rewrite drop_drop. repeat f_equal. lia.
  - right. cbn [ro_CoveredThrough]. lia.
Qed.

End RollingProps.

(** C34. A rolling summary loses nothing: when Prepare succeeds on a history whose covered
    prefix was summarised step by step, the stored state again covers a prefix, no
    shorter than before, and the model is shown the summary of that prefix followed by
    every later message of the history verbatim, then the transient and the current
    ones.  A summary only extends over complete tool calls and leaves the configured
    number of recent messages. *)
Theorem rolling_prepare_covers {W} `{C : RollingCodec} (xs : ContextStateStore W) `{X : !ContextStateLaws xs}
  (r : RollingSummary W) log inp st w :
  (lenN log < 18446744073709551616)%N ->
  let id := ci_ConversationID inp in
  ci_Recent inp = drop (N.to_nat (ci_Boundary inp)) log -> (ci_Boundary inp <= ro_CoveredThrough st)%N ->
  decode_state (xl_at w id (rg_key r)) = Ok st -> rolling_covers (rg_summarizer r) log st ->
  let '(x, w') := rolling_Prepare r xs inp w in
  forall out, x = Ok out -> exists st' text, decode_state (xl_at w' id (rg_key r)) = Ok st' /\
    rolling_covers (rg_summarizer r) log st' /\ (ro_CoveredThrough st <= ro_CoveredThrough st')%N /\
    (ro_Summary st' = text \/ ro_Summary st' = rc_text text) /\
    out = shown text (ro_CoveredThrough st') log inp /\
    (st' = st \/ N.to_nat (ro_CoveredThrough st') + N.to_nat (rg_preserve r) <= length log)%nat.
Proof.
  intros Hlog id Hrecent Hle Hst Hcov. pose proof (covers_bound _ _ _ Hcov) as Hb.
  unfold rolling_Prepare, rolling_load. fold id. pose proof (xl_load id (rg_key r) w) as Hload.
  destruct (xs_Load xs id (rg_key r) w) as [[sn|e] w1]; [|done]. destruct Hload as [Hsame Hsn].
  rewrite (Hsn sn eq_refl), Hst. clear Hsn. cbn beta iota. rewrite <- (Hsame id (rg_key r)) in Hst |- *.
  set (ahead := bool_decide (ci_Boundary inp < ro_CoveredThrough st)%N). set (skip := (ro_CoveredThrough st - ci_Boundary inp)%N).
  assert (Hnt : ahead && bool_decide (lenN (ci_Recent inp) < skip)%N = false).
  { rewrite (bool_decide_false (_ < skip)%N), andb_false_r; [done|]. unfold skip, lenN. rewrite Hrecent, length_drop. lia. }
  rewrite Hnt. clear Hnt.
  assert (Hrec : (if ahead then drop (N.to_nat skip) (ci_Recent inp) else ci_Recent inp) = drop (N.to_nat (ro_CoveredThrough st)) log).
  { unfold ahead, skip. rewrite Hrecent. case_bool_decide; [rewrite drop_drop|]; f_equal; lia. }
  assert (Hbd : (if ahead then ro_CoveredThrough st else ci_Boundary inp) = ro_CoveredThrough st).
  { unfold ahead. case_bool_decide; [done|lia]. }
  rewrite Hrec, Hbd. set (messages := rolling_build _ _ _ st).
  assert (Hkeep : forall out, Ok messages = Ok out :> res (list Message) -> exists st' text,
    decode_state (xl_at w1 id (rg_key r)) = Ok st' /\ rolling_covers (rg_summarizer r) log st' /\
    (ro_CoveredThrough st <= ro_CoveredThrough st')%N /\ (ro_Summary st' = text \/ ro_Summary st' = rc_text text) /\
    out = shown text (ro_CoveredThrough st') log inp /\
    (st' = st \/ N.to_nat (ro_CoveredThrough st') + N.to_nat (rg_preserve r) <= length log)%nat).
  { intros out [= <-]. exists st, (ro_Summary st). split_and!; try done; by left. }
  destruct (rg_estimator r _) as [estimate|e]; [|done]. case_bool_decide; [done|]. case_bool_decide; [done|].
  exact (compact_covers xs r log inp st (ss_Revision (xl_at w1 id (rg_key r))) messages w1 Hlog Hst Hcov eq_refl).
Qed.

(** An encoding for which the laws hold: the state as a number in binary. *)
Fixpoint digits (p : positive) : string :=
  match p with xH => "" | xO p => String Ascii.zero (digits p) | xI p => String Ascii.one (digits p) end.
Fixpoint undigits (s : string) : option positive :=
  match s with
  | EmptyString => Some xH
  | String (Ascii.Ascii b _ _ _ _ _ _ _) s => (if b then xI else xO) <$> undigits s
  end.

Lemma undigits_digits p : undigits (digits p) = Some p.
Proof. induction p as [p IH|p IH|]; simpl; [by rewrite IH|by rewrite IH|done]. Qed.

Definition state_tuple (s : rollingState) : Z * string * N * N :=
  (ro_Version s, ro_Summary s, ro_CoveredThrough s, ro_SourceRevision s).

#[refine] Definition binary_codec : RollingCodec := {|
  rolling_Marshal s := digits (xO (encode (state_tuple s)));
  rolling_Unmarshal s := match undigits s with
    | Some (xO p) => '(v, t, c, n) ← decode p; Some (mkRolling v t c n)
    | _ => None
    end;
  rc_text := id |}.
Proof.
  - intros s. done.
  - intros s. rewrite undigits_digits. rewrite decode_encode. done.
Defined.

Definition sample_rolling : RollingSummary InMemory :=
  mkRollingSummary memory_store (Some (memory_state_store (fun _ => true))) (fun _ => Ok 5%Z)
    (fun existing msgs m => (Ok (existing +:+ "S"), m)) 1 1 "rolling_summary".
Definition sample_input : ContextManagerInput :=
  mkContextInput "c" 0 1 4 called_transcript [mkMessage RoleUser [TextBlock "next"]] [] "" [].

Lemma rolling_prepare_covers_witness :
  let _ := binary_codec in
  let '(x, w') := rolling_Prepare sample_rolling (memory_state_store (fun _ => true)) sample_input called_memory in
  x = Ok [summaryMessage "S"; mkMessage RoleAssistant [TextBlock "done"]; mkMessage RoleUser [TextBlock "next"]] /\
  exists st' text, decode_state (LoadContextState "c" "rolling_summary" w') = Ok st' /\
    rolling_covers (rg_summarizer sample_rolling) called_transcript st' /\ (0 <= ro_CoveredThrough st')%N /\
    (ro_Summary st' = text \/ ro_Summary st' = text) /\
    [summaryMessage "S"; mkMessage RoleAssistant [TextBlock "done"]; mkMessage RoleUser [TextBlock "next"]] =
      shown text (ro_CoveredThrough st') called_transcript sample_input /\
    (st' = mkRolling 1 "" 0 0 \/ N.to_nat (ro_CoveredThrough st') + 1 <= 4)%nat.
Proof.
  intros C.
  pose proof (@rolling_prepare_covers InMemory C (memory_state_store (fun _ => true)) (memory_state_laws (fun _ => true))
    sample_rolling called_transcript sample_input (mkRolling 1 "" 0 0) called_memory
    ltac:(reflexivity) eq_refl ltac:(discriminate) ltac:(vm_compute; reflexivity) (covers_none _ _)) as H.
  assert (E : fst (rolling_Prepare sample_rolling (memory_state_store (fun _ => true)) sample_input called_memory) =
    Ok [summaryMessage "S"; mkMessage RoleAssistant [TextBlock "done"]; mkMessage RoleUser [TextBlock "next"]])
    by (vm_compute; reflexivity).
  destruct (rolling_Prepare sample_rolling (memory_state_store (fun _ => true)) sample_input called_memory) as [x w'].
  simpl in E. split; [exact E|]. exact (H _ E).
Defined.

(** What a rolling summary leaves shown starts with complete tool calls: where no
    result of the history precedes its call and no call has two results, the messages
    after a prefix without unresolved calls again have no result without its call. *)
Theorem rolling_cut_keeps_calls recent cut : hasOrphanedToolResult recent = false ->
  NoDup (result_ids (all_blocks recent)) ->
  hasOrphanedToolResult (drop (safe_cut recent cut) recent) = false.
Proof.
  intros Ho Hnd. destruct (decide (safe_cut recent cut = 0)) as [->|Hne]; [by rewrite drop_0|].
  apply cut_keeps_calls; [done|done|by apply safe_cut_resolved].
Qed.

Lemma rolling_cut_keeps_calls_witness : safe_cut called_transcript 2 = 1 /\
  hasOrphanedToolResult (drop (safe_cut called_transcript 2) called_transcript) = false.
Proof.
  split; [vm_compute; reflexivity|]. apply rolling_cut_keeps_calls; [vm_compute; reflexivity|].
  vm_compute. apply NoDup_singleton.
Defined.
