(* ===== verification/MessageCodec.v ===== *)
(** The JSON encoding of messages for external stores
    (agent/conversation/json_marshal.go): the envelope with its omitempty fields, both
    directions, and that decoding what was encoded gives the messages back. *)
From Stdlib Require Import Ascii.
From S2P Require Import Prelude Errors Messages Execution.

(** * What the code uses of encoding/json

    A JSON value is its text.  The encoder writes compact text: strings with invalid
    UTF-8 replaced ([mj_text] is what comes back of a string), bytes in base64, a raw
    message compacted, failing when it is not JSON.  The decoder reads a value by the type of
    its target; a raw message keeps the text of the value.  [mj_value] says that a text
    is one value as the encoder writes it, so that the text of an object or an array can be
    split again.  Keys are matched exactly: the decoder's case folding, its
    handling of null and its last-duplicate rule concern texts that this encoder never writes. *)
Fixpoint is_ascii (s : string) : bool :=
  match s with
  | EmptyString => true
  | String c s => bool_decide (Ascii.nat_of_ascii c < 128)%nat && is_ascii s
  end.

Class MessageJSON := {
  mj_value : string -> Prop;
  mj_text : string -> string;
  enc_string : string -> string; dec_string : string -> option string;
  enc_bool : bool -> string; dec_bool : string -> option bool;
  enc_bytes : string -> string; dec_bytes : string -> option string;
  enc_raw : string -> option string;
  enc_array : list string -> string; dec_array : string -> option (list string);
  enc_object : list (string * string) -> string; dec_object : string -> option (list (string * string));
  mj_ascii s : is_ascii s = true -> mj_text s = s;
  string_value s : mj_value (enc_string s);
  bool_value b : mj_value (enc_bool b);
  bytes_value s : mj_value (enc_bytes s);
  raw_value s t : enc_raw s = Some t -> mj_value t;
  array_value xs : Forall mj_value xs -> mj_value (enc_array xs);
  object_value fs : Forall mj_value fs.*2 -> mj_value (enc_object fs);
  string_decode s : dec_string (enc_string s) = Some (mj_text s);
  bool_decode b : dec_bool (enc_bool b) = Some b;
  bytes_decode s : dec_bytes (enc_bytes s) = Some s;
  array_decode xs : Forall mj_value xs -> dec_array (enc_array xs) = Some xs;
  object_decode fs : Forall mj_value fs.*2 -> Forall (fun k => is_ascii k = true) fs.*1 ->
    dec_object (enc_object fs) = Some fs }.

(** * The envelope *)

(* agent/conversation/json_marshal.go:41-46: jsonToolResultImage *)
Record jsonToolResultImage := mkJsonImage {
  ji_Data : RawMessage; ji_Base64 : string; ji_URL : string; ji_MIMEType : string }.

(* agent/conversation/json_marshal.go:11-38: jsonContentBlock *)
Record jsonContentBlock := mkJsonBlock {
  jb_Type : string; jb_Text : string; jb_ToolUseID : string; jb_Name : string; jb_Input : RawMessage;
  jb_Content : string; jb_IsError : bool;
  jb_ImageData : RawMessage; jb_ImageBase64 : string; jb_ImageURL : string; jb_ImageMIMEType : string;
  jb_DocData : RawMessage; jb_DocBase64 : string; jb_DocURL : string; jb_DocFileID : string; jb_DocS3URI : string;
  jb_DocS3BucketOwner : string; jb_DocMIMEType : string; jb_DocName : string;
  jb_ToolResultImages : list jsonToolResultImage; jb_WidgetType : string; jb_WidgetPayload : RawMessage }.

#[global] Instance eta_jsonContentBlock : Settable jsonContentBlock := fun b =>
  mkJsonBlock (jb_Type b) (jb_Text b) (jb_ToolUseID b) (jb_Name b) (jb_Input b) (jb_Content b) (jb_IsError b)
    (jb_ImageData b) (jb_ImageBase64 b) (jb_ImageURL b) (jb_ImageMIMEType b) (jb_DocData b) (jb_DocBase64 b)
    (jb_DocURL b) (jb_DocFileID b) (jb_DocS3URI b) (jb_DocS3BucketOwner b) (jb_DocMIMEType b) (jb_DocName b)
    (jb_ToolResultImages b) (jb_WidgetType b) (jb_WidgetPayload b).

(** The zero value with its type discriminator. *)
Definition json_block (ty : string) : jsonContentBlock :=
  mkJsonBlock ty "" "" "" None "" false None "" "" "" None "" "" "" "" "" "" "" [] "" None.

(* agent/conversation/json_marshal.go:49-52: jsonMessage *)
Record jsonMessage := mkJsonMessage { jm_Role : string; jm_Content : list jsonContentBlock }.

(* agent/conversation/json_marshal.go: contentBlockToJSON *)
Definition contentBlockToJSON (cb : ContentBlock) : jsonContentBlock :=
  match cb with
  | TextBlock text => (json_block "text") <| jb_Text := text |>
  | ToolUseBlock b => (json_block "tool_use") <| jb_ToolUseID := tu_ToolUseID b |> <| jb_Name := tu_Name b |>
      <| jb_Input := tu_Input b |>
  | ToolResultBlk b => (json_block "tool_result") <| jb_ToolUseID := tr_ToolUseID b |> <| jb_Content := tr_Content b |>
      <| jb_IsError := tr_IsError b |>
      <| jb_ToolResultImages := map (fun img => mkJsonImage (is_Data img) (is_Base64 img) (is_URL img) (is_MIMEType img)) (tr_Images b) |>
  | ImageBlock s => (json_block "image") <| jb_ImageData := is_Data s |> <| jb_ImageBase64 := is_Base64 s |>
      <| jb_ImageURL := is_URL s |> <| jb_ImageMIMEType := is_MIMEType s |>
  | DocumentBlock s => (json_block "document") <| jb_DocData := ds_Data s |> <| jb_DocBase64 := ds_Base64 s |>
      <| jb_DocURL := ds_URL s |> <| jb_DocFileID := ds_FileID s |> <| jb_DocS3URI := ds_S3URI s |>
      <| jb_DocS3BucketOwner := ds_S3BucketOwner s |> <| jb_DocMIMEType := ds_MIMEType s |> <| jb_DocName := ds_Name s |>
  | WidgetBlock b => (json_block "widget") <| jb_WidgetType := w_Type b |> <| jb_WidgetPayload := w_Payload b |>
  end.

(* agent/conversation/json_marshal.go: jsonToContentBlock *)
Definition jsonToContentBlock (j : jsonContentBlock) : ContentBlock :=
  if bool_decide (jb_Type j = "text") then TextBlock (jb_Text j)
  else if bool_decide (jb_Type j = "tool_use") then ToolUseBlock (mkToolUse (jb_ToolUseID j) (jb_Name j) (jb_Input j))
  else if bool_decide (jb_Type j = "tool_result") then
    ToolResultBlk (mkToolResult (jb_ToolUseID j) (jb_Content j) (jb_IsError j)
      (map (fun i => mkImageSource (ji_Data i) (ji_Base64 i) (ji_URL i) (ji_MIMEType i)) (jb_ToolResultImages j)))
  else if bool_decide (jb_Type j = "image") then
    ImageBlock (mkImageSource (jb_ImageData j) (jb_ImageBase64 j) (jb_ImageURL j) (jb_ImageMIMEType j))
  else if bool_decide (jb_Type j = "document") then
    DocumentBlock (mkDocumentSource (jb_DocData j) (jb_DocBase64 j) (jb_DocURL j) (jb_DocFileID j) (jb_DocS3URI j)
      (jb_DocS3BucketOwner j) (jb_DocMIMEType j) (jb_DocName j))
  else if bool_decide (jb_Type j = "widget") then WidgetBlock (mkWidget (jb_WidgetType j) (jb_WidgetPayload j))
  else TextBlock "".

Section Codec.
Context `{MessageJSON}.

(** * Fields

    Encoding a field fails, leaves the field out (omitempty on the zero value) or gives its
    text; an absent field decodes to the zero value. *)
Definition put_required (s : string) : option (option string) := Some (Some (enc_string s)).
Definition put_string (s : string) : option (option string) := Some (if bool_decide (s = "") then None else Some (enc_string s)).
Definition put_bool (b : bool) : option (option string) := Some (if b then Some (enc_bool b) else None).
Definition put_bytes (b : RawMessage) : option (option string) := Some (enc_bytes <$> cloneRaw b).
Definition put_raw (b : RawMessage) : option (option string) :=
  match cloneRaw b with None => Some None | Some r => Some <$> enc_raw r end.

(** An object with the fields that are present. *)
Fixpoint present (fs : list (string * option (option string))) : option (list (string * string)) :=
  match fs with
  | [] => Some []
  | (k, o) :: fs => v ← o; rest ← present fs; Some (match v with Some t => (k, t) :: rest | None => rest end)
  end.
Definition object (fs : list (string * option (option string))) : option string := enc_object <$> present fs.

Fixpoint get (k : string) (fs : list (string * string)) : option string :=
  match fs with
  | [] => None
  | (k', v) :: fs => if bool_decide (k' = k) then Some v else get k fs
  end.
Definition get_string (k : string) (fs : list (string * string)) : option string :=
  match get k fs with None => Some "" | Some t => dec_string t end.
Definition get_bool (k : string) (fs : list (string * string)) : option bool :=
  match get k fs with None => Some false | Some t => dec_bool t end.
Definition get_bytes (k : string) (fs : list (string * string)) : option RawMessage :=
  match get k fs with None => Some None | Some t => Some <$> dec_bytes t end.
Definition get_raw (k : string) (fs : list (string * string)) : option RawMessage := Some (get k fs).

(** ** The struct tags *)

(* agent/conversation/json_marshal.go:41-46: json tags of jsonToolResultImage *)
Definition image_fields (i : jsonToolResultImage) : list (string * option (option string)) :=
  [("data", put_bytes (ji_Data i)); ("base64", put_string (ji_Base64 i)); ("url", put_string (ji_URL i));
   ("mime_type", put_string (ji_MIMEType i))].
Definition image_to_json (i : jsonToolResultImage) : option string := object (image_fields i).
Definition image_of_fields (fs : list (string * string)) : option jsonToolResultImage :=
  data ← get_bytes "data" fs; base64 ← get_string "base64" fs; url ← get_string "url" fs;
  mime ← get_string "mime_type" fs; Some (mkJsonImage data base64 url mime).
Definition image_of_json (t : string) : option jsonToolResultImage := dec_object t ≫= image_of_fields.

Definition put_images (imgs : list jsonToolResultImage) : option (option string) :=
  if is_nil imgs then Some None else (fun xs => Some (enc_array xs)) <$> mapM image_to_json imgs.
Definition get_images (k : string) (fs : list (string * string)) : option (list jsonToolResultImage) :=
  match get k fs with None => Some [] | Some t => dec_array t ≫= mapM image_of_json end.

(* agent/conversation/json_marshal.go:11-38: json tags of jsonContentBlock *)
Definition block_fields (b : jsonContentBlock) : list (string * option (option string)) :=
  [("type", put_required (jb_Type b)); ("text", put_string (jb_Text b)); ("tool_use_id", put_string (jb_ToolUseID b));
   ("name", put_string (jb_Name b)); ("input", put_raw (jb_Input b)); ("content", put_string (jb_Content b));
   ("is_error", put_bool (jb_IsError b)); ("image_data", put_bytes (jb_ImageData b));
   ("image_base64", put_string (jb_ImageBase64 b)); ("image_url", put_string (jb_ImageURL b));
   ("image_mime_type", put_string (jb_ImageMIMEType b)); ("doc_data", put_bytes (jb_DocData b));
   ("doc_base64", put_string (jb_DocBase64 b)); ("doc_url", put_string (jb_DocURL b));
   ("doc_file_id", put_string (jb_DocFileID b)); ("doc_s3_uri", put_string (jb_DocS3URI b));
   ("doc_s3_bucket_owner", put_string (jb_DocS3BucketOwner b)); ("doc_mime_type", put_string (jb_DocMIMEType b));
   ("doc_name", put_string (jb_DocName b)); ("tool_result_images", put_images (jb_ToolResultImages b));
   ("widget_type", put_string (jb_WidgetType b)); ("widget_payload", put_raw (jb_WidgetPayload b))].
Definition block_to_json (b : jsonContentBlock) : option string := object (block_fields b).
Definition block_of_fields (fs : list (string * string)) : option jsonContentBlock :=
  ty ← get_string "type" fs; text ← get_string "text" fs; id ← get_string "tool_use_id" fs;
  name ← get_string "name" fs; input ← get_raw "input" fs; content ← get_string "content" fs;
  is_error ← get_bool "is_error" fs; idata ← get_bytes "image_data" fs; ib64 ← get_string "image_base64" fs;
  iurl ← get_string "image_url" fs; imime ← get_string "image_mime_type" fs; ddata ← get_bytes "doc_data" fs;
  db64 ← get_string "doc_base64" fs; durl ← get_string "doc_url" fs; dfile ← get_string "doc_file_id" fs;
  ds3 ← get_string "doc_s3_uri" fs; downer ← get_string "doc_s3_bucket_owner" fs;
  dmime ← get_string "doc_mime_type" fs; dname ← get_string "doc_name" fs;
  images ← get_images "tool_result_images" fs; wtype ← get_string "widget_type" fs;
  wpayload ← get_raw "widget_payload" fs;
  Some (mkJsonBlock ty text id name input content is_error idata ib64 iurl imime ddata db64 durl dfile ds3
    downer dmime dname images wtype wpayload).
Definition block_of_json (t : string) : option jsonContentBlock := dec_object t ≫= block_of_fields.

(* agent/conversation/json_marshal.go:49-52: json tags of jsonMessage *)
Definition message_fields (m : jsonMessage) : list (string * option (option string)) :=
  [("role", put_required (jm_Role m)); ("content", (fun xs => Some (enc_array xs)) <$> mapM block_to_json (jm_Content m))].
Definition message_to_json (m : jsonMessage) : option string := object (message_fields m).
Definition message_of_fields (fs : list (string * string)) : option jsonMessage :=
  role ← get_string "role" fs;
  content ← match get "content" fs with None => Some [] | Some t => dec_array t ≫= mapM block_of_json end;
  Some (mkJsonMessage role content).
Definition message_of_json (t : string) : option jsonMessage := dec_object t ≫= message_of_fields.

(** ** The two directions *)

(* agent/conversation/json_marshal.go: MarshalMessages *)
Definition MarshalMessages (messages : list Message) : option string :=
  let jmsgs := map (fun msg => mkJsonMessage (m_Role msg) (map contentBlockToJSON (m_Content msg))) messages in
  enc_array <$> mapM message_to_json jmsgs.

(* agent/conversation/json_marshal.go: UnmarshalMessages *)
Definition UnmarshalMessages (data : string) : option (list Message) :=
  jmsgs ← dec_array data ≫= mapM message_of_json;
  Some (map (fun jm => mkMessage (jm_Role jm) (map jsonToContentBlock (jm_Content jm))) jmsgs).

(** * What storage does to a message *)

Definition stored_raw (b : RawMessage) : RawMessage := cloneRaw b ≫= enc_raw.
Definition stored_image (s : ImageSource) : ImageSource :=
  mkImageSource (cloneRaw (is_Data s)) (mj_text (is_Base64 s)) (mj_text (is_URL s)) (mj_text (is_MIMEType s)).
Definition stored_block (b : ContentBlock) : ContentBlock :=
  match b with
  | TextBlock t => TextBlock (mj_text t)
  | ToolUseBlock u => ToolUseBlock (mkToolUse (mj_text (tu_ToolUseID u)) (mj_text (tu_Name u)) (stored_raw (tu_Input u)))
  | ToolResultBlk r => ToolResultBlk (mkToolResult (mj_text (tr_ToolUseID r)) (mj_text (tr_Content r)) (tr_IsError r)
      (map stored_image (tr_Images r)))
  | ImageBlock s => ImageBlock (stored_image s)
  | DocumentBlock s => DocumentBlock (mkDocumentSource (cloneRaw (ds_Data s)) (mj_text (ds_Base64 s)) (mj_text (ds_URL s))
      (mj_text (ds_FileID s)) (mj_text (ds_S3URI s)) (mj_text (ds_S3BucketOwner s)) (mj_text (ds_MIMEType s)) (mj_text (ds_Name s)))
  | WidgetBlock w => WidgetBlock (mkWidget (mj_text (w_Type w)) (stored_raw (w_Payload w)))
  end.
Definition stored_message (m : Message) : Message := mkMessage (mj_text (m_Role m)) (map stored_block (m_Content m)).

(** ** Decoding what was encoded *)

(** The text of a field is one value. *)
Definition one_value (o : option (option string)) : Prop := forall t, o = Some (Some t) -> mj_value t.

Lemma put_required_value s : one_value (put_required s).
Proof. intros t [= <-]. apply string_value. Qed.
Lemma put_string_value s : one_value (put_string s).
Proof. intros t. unfold put_string. case_bool_decide; intros [= <-]. apply string_value. Qed.
Lemma put_bool_value b : one_value (put_bool b).
Proof. intros t. destruct b; intros [= <-]. apply bool_value. Qed.
Lemma put_bytes_value b : one_value (put_bytes b).
Proof. intros t. unfold put_bytes. destruct (cloneRaw b); intros [= <-]. apply bytes_value. Qed.
Lemma put_raw_value b : one_value (put_raw b).
Proof.
  intros t. unfold put_raw. destruct (cloneRaw b) as [r|]; [|done]. destruct (enc_raw r) eqn:Hr; intros [= <-]. by eapply raw_value.
Qed.

Lemma present_keys fs efs : present fs = Some efs -> forall k, k ∈ efs.*1 -> k ∈ fs.*1.
Proof.
  revert efs. induction fs as [|[k o] fs IH]; intros efs; cbn; [by intros [= <-]|].
  destruct o as [v|]; cbn; [|done]. destruct (present fs) as [rest|]; [|done]. cbn. intros [= <-] k'.
  specialize (IH rest eq_refl k'). destruct v; cbn; set_solver.
Qed.

Lemma present_values fs efs : Forall (fun f => one_value f.2) fs -> present fs = Some efs -> Forall mj_value efs.*2.
Proof.
  intros Hv. revert efs. induction Hv as [|[k o] fs Ho Hv IH]; intros efs; cbn; [by intros [= <-]|].
  destruct o as [v|]; cbn; [|done]. destruct (present fs) as [rest|]; [|done]. cbn. intros [= <-].
  specialize (IH rest eq_refl). destruct v; cbn; [constructor; [by apply Ho|done]|done].
Qed.

Lemma get_absent k fs : k ∉ fs.*1 -> get k fs = None.
Proof. induction fs as [|[k' v] fs IH]; cbn; intros Hk; [done|]. rewrite bool_decide_false by set_solver. apply IH. set_solver. Qed.

(** A field is found under its key. *)
Lemma present_get fs efs : NoDup fs.*1 -> present fs = Some efs -> Forall (fun f => f.2 = Some (get f.1 efs)) fs.
Proof.
  revert efs. induction fs as [|[k o] fs IH]; intros efs Hnd; cbn; [constructor|]. cbn in Hnd. apply NoDup_cons in Hnd as [Hk Hnd].
  destruct o as [v|]; cbn; [|done]. destruct (present fs) as [rest|] eqn:Hr; [|done]. cbn. intros [= <-].
  assert (Hn : get k rest = None) by (apply get_absent; intros Hi; by apply Hk, (present_keys _ _ Hr)).
  specialize (IH rest Hnd eq_refl). constructor; cbn.
  - destruct v; cbn; [by rewrite bool_decide_true|by rewrite Hn].
  - apply Forall_forall. intros [k' o'] Hin. pose proof (proj1 (Forall_forall _ _) IH _ Hin) as Hf. cbn in Hf |- *. destruct v; [|done].
    cbn. rewrite bool_decide_false; [done|]. intros ->. apply Hk. by apply (list_elem_of_fmap_2 fst _ _ Hin).
Qed.

(** An object that was encoded is decoded to fields from which each one can be read. *)
Lemma object_fields fs t :
  bool_decide (NoDup fs.*1) && forallb is_ascii fs.*1 = true -> Forall (fun f => one_value f.2) fs -> object fs = Some t ->
  mj_value t /\ exists efs, dec_object t = Some efs /\ Forall (fun f => f.2 = Some (get f.1 efs)) fs.
Proof.
  intros [Hnd%bool_decide_eq_true Ha]%andb_true_iff Hv. unfold object. destruct (present fs) as [efs|] eqn:Hp; [|done]. cbn. intros [= <-].
  pose proof (present_values _ _ Hv Hp) as Hval. split; [by apply object_value|]. exists efs.
  split; [|by apply present_get]. apply object_decode; [done|]. apply Forall_forall. intros k Hk.
  apply (proj1 (forallb_forall _ _) Ha). apply list_elem_of_In. by eapply present_keys.
Qed.

(** A list of values, each decoded to what it was encoded from. *)
Lemma array_fields {A B} (enc : A -> option string) (dec : string -> option B) (g : A -> B) xs ts :
  (forall x t, enc x = Some t -> mj_value t /\ dec t = Some (g x)) ->
  mapM enc xs = Some ts -> Forall mj_value ts /\ mapM dec ts = Some (map g xs).
Proof.
  intros Hd Hm. apply mapM_Some in Hm. induction Hm as [|x t xs ts Hx Hm [IHv IHd]]; [done|].
  destruct (Hd _ _ Hx) as [Hv Hg]. split; [by constructor|]. cbn. rewrite Hg. cbn. by rewrite IHd.
Qed.

Lemma read_required k s fs : put_required s = Some (get k fs) -> get_string k fs = Some (mj_text s).
Proof. intros [= Hg]. unfold get_string. rewrite <- Hg. apply string_decode. Qed.
Lemma read_string k s fs : put_string s = Some (get k fs) -> get_string k fs = Some (mj_text s).
Proof.
  unfold put_string, get_string. intros [= Hg]. rewrite <- Hg. case_bool_decide as Hs; [subst; by rewrite mj_ascii|apply string_decode].
Qed.
Lemma read_bool k b fs : put_bool b = Some (get k fs) -> get_bool k fs = Some b.
Proof. unfold get_bool. intros [= Hg]. rewrite <- Hg. destruct b; [apply bool_decode|done]. Qed.
Lemma read_bytes k b fs : put_bytes b = Some (get k fs) -> get_bytes k fs = Some (cloneRaw b).
Proof. unfold put_bytes, get_bytes. intros [= Hg]. rewrite <- Hg. destruct (cloneRaw b); [cbn; by rewrite bytes_decode|done]. Qed.
Lemma read_raw k b fs : put_raw b = Some (get k fs) -> get_raw k fs = Some (stored_raw b).
Proof.
  unfold put_raw, get_raw, stored_raw. destruct (cloneRaw b) as [r|]; cbn; [|by intros [= <-]]. destruct (enc_raw r); by intros [= <-].
Qed.

Definition jimage_norm (i : jsonToolResultImage) : jsonToolResultImage :=
  mkJsonImage (cloneRaw (ji_Data i)) (mj_text (ji_Base64 i)) (mj_text (ji_URL i)) (mj_text (ji_MIMEType i)).

Definition jblock_norm (b : jsonContentBlock) : jsonContentBlock :=
  mkJsonBlock (mj_text (jb_Type b)) (mj_text (jb_Text b)) (mj_text (jb_ToolUseID b)) (mj_text (jb_Name b))
    (stored_raw (jb_Input b)) (mj_text (jb_Content b)) (jb_IsError b) (cloneRaw (jb_ImageData b))
    (mj_text (jb_ImageBase64 b)) (mj_text (jb_ImageURL b)) (mj_text (jb_ImageMIMEType b)) (cloneRaw (jb_DocData b))
    (mj_text (jb_DocBase64 b)) (mj_text (jb_DocURL b)) (mj_text (jb_DocFileID b)) (mj_text (jb_DocS3URI b))
    (mj_text (jb_DocS3BucketOwner b)) (mj_text (jb_DocMIMEType b)) (mj_text (jb_DocName b))
    (map jimage_norm (jb_ToolResultImages b)) (mj_text (jb_WidgetType b)) (stored_raw (jb_WidgetPayload b)).

(** Every field of a literal list is one value. *)
Create HintDb codec discriminated.
#[local] Hint Resolve put_required_value put_bytes_value put_string_value put_raw_value put_bool_value : codec.
Ltac fields_ok := repeat first [apply Forall_nil_2 | apply Forall_cons_2; cbn [snd]; [solve [eauto 1 with codec]|]].

Lemma image_decode i t : image_to_json i = Some t -> mj_value t /\ image_of_json t = Some (jimage_norm i).
Proof.
  intros Ht. apply object_fields in Ht as [Hv (fs & Hd & Hf)]; [|reflexivity|fields_ok].
  split; [done|]. unfold image_of_json. rewrite Hd. cbn [mbind option_bind]. unfold image_fields in Hf.
  repeat (apply Forall_cons in Hf as [? Hf]). cbn [fst snd] in *. unfold image_of_fields.
  erewrite read_bytes by eassumption. do 3 (cbn [mbind option_bind]; erewrite read_string by eassumption). done.
Qed.

Lemma images_decode imgs ts : mapM image_to_json imgs = Some ts ->
  Forall mj_value ts /\ mapM image_of_json ts = Some (map jimage_norm imgs).
Proof. apply array_fields, image_decode. Qed.

Lemma put_images_value imgs : one_value (put_images imgs).
Proof.
  intros t. unfold put_images. destruct (is_nil imgs); [done|]. destruct (mapM image_to_json imgs) eqn:Hm; intros [= <-].
  by apply array_value, (images_decode imgs).
Qed.
#[local] Hint Resolve put_images_value : codec.
Lemma read_images k imgs fs : put_images imgs = Some (get k fs) -> get_images k fs = Some (map jimage_norm imgs).
Proof.
  unfold put_images, get_images. destruct imgs as [|i imgs]; cbn [is_nil]; [by intros [= <-]|].
  destruct (mapM image_to_json (i :: imgs)) as [ts|] eqn:Hm; intros [= <-]. apply images_decode in Hm as [Hv Hd].
  rewrite array_decode by done. done.
Qed.

(** Read the next field of a block. *)
Ltac read_field :=
  cbn [mbind option_bind];
  first [erewrite read_required by eassumption | erewrite read_string by eassumption | erewrite read_raw by eassumption
        | erewrite read_bytes by eassumption | erewrite read_bool by eassumption | erewrite read_images by eassumption].

Lemma block_decode b t : block_to_json b = Some t -> mj_value t /\ block_of_json t = Some (jblock_norm b).
Proof.
  intros Ht. apply object_fields in Ht as [Hv (fs & Hd & Hf)]; [|reflexivity|fields_ok].
  split; [done|]. unfold block_of_json. rewrite Hd. cbn [mbind option_bind]. unfold block_fields in Hf.
  repeat (apply Forall_cons in Hf as [? Hf]). cbn [fst snd] in *. unfold block_of_fields. do 22 read_field. done.
Qed.

Lemma message_decode m t : message_to_json m = Some t ->
  mj_value t /\ message_of_json t = Some (mkJsonMessage (mj_text (jm_Role m)) (map jblock_norm (jm_Content m))).
Proof.
  intros Ht. apply object_fields in Ht as [Hv (fs & Hd & Hf)]; [|reflexivity|].
  - split; [done|]. unfold message_of_json. rewrite Hd. cbn [mbind option_bind]. unfold message_fields in Hf.
    repeat (apply Forall_cons in Hf as [? Hf]). cbn [fst snd] in *. unfold message_of_fields. read_field. cbn [mbind option_bind].
    destruct (mapM block_to_json (jm_Content m)) as [ts|] eqn:Hm; simplify_eq/=.
    apply (array_fields _ _ _ _ _ block_decode) in Hm as [Hts Hdec]. rewrite <- H1. rewrite array_decode by done. cbn. by rewrite Hdec.
  - apply Forall_cons_2; [apply put_required_value|]. apply Forall_cons_2; [|apply Forall_nil_2]. intros t'. cbn. destruct (mapM block_to_json (jm_Content m)) as [ts|] eqn:Hm; intros [= <-].
    by apply array_value, (array_fields _ _ _ _ _ block_decode Hm).
Qed.

(** ** When encoding succeeds *)

(** A raw message is JSON, or empty. *)
Definition raw_ok (b : RawMessage) : bool := match cloneRaw b with None => true | Some r => bool_decide (is_Some (enc_raw r)) end.
Definition block_ok (b : ContentBlock) : bool :=
  match b with ToolUseBlock u => raw_ok (tu_Input u) | WidgetBlock w => raw_ok (w_Payload w) | _ => true end.
Definition message_ok (m : Message) : bool := forallb block_ok (m_Content m).

Definition present_ok (fs : list (string * option (option string))) : bool :=
  forallb (fun f => match f.2 with Some _ => true | None => false end) fs.

Lemma object_some fs : bool_decide (is_Some (object fs)) = present_ok fs.
Proof.
  unfold object. induction fs as [|[k o] fs IH]; [done|]. cbn. destruct o as [v|]; cbn; [|done].
  fold (present_ok fs). rewrite <- IH. by destruct (present fs).
Qed.

Lemma put_raw_some b : match put_raw b with Some _ => true | None => false end = raw_ok b.
Proof. unfold put_raw, raw_ok. destruct (cloneRaw b) as [r|]; [|done]. by destruct (enc_raw r). Qed.

Lemma mapM_some {A B} (f : A -> option B) xs :
  bool_decide (is_Some (mapM f xs)) = forallb (fun x => bool_decide (is_Some (f x))) xs.
Proof. induction xs as [|x xs IH]; [done|]. cbn. destruct (f x) as [y|]; cbn; [|done]. rewrite <- IH. by destruct (mapM f xs). Qed.

Lemma put_images_some imgs : exists o, put_images imgs = Some o.
Proof.
  unfold put_images. destruct (is_nil imgs); [by eexists|].
  assert (Hm : bool_decide (is_Some (mapM image_to_json imgs)) = true).
  { rewrite mapM_some. apply forallb_forall. intros i _. apply object_some. }
  apply bool_decide_eq_true in Hm as [ts ->]. by eexists.
Qed.

Lemma block_to_json_some b : bool_decide (is_Some (block_to_json (contentBlockToJSON b))) = block_ok b.
Proof.
  unfold block_to_json. rewrite object_some. unfold present_ok, block_fields. cbn [forallb snd]. rewrite !put_raw_some.
  destruct (put_images_some (jb_ToolResultImages (contentBlockToJSON b))) as [o ->].
  destruct b; cbn; by rewrite ?andb_true_r.
Qed.

Lemma message_to_json_some m :
  bool_decide (is_Some (message_to_json (mkJsonMessage (m_Role m) (map contentBlockToJSON (m_Content m))))) = message_ok m.
Proof.
  unfold message_to_json. rewrite object_some. unfold present_ok, message_fields, message_ok. cbn [forallb snd put_required jm_Content].
  rewrite andb_true_r, andb_true_l.
  transitivity (bool_decide (is_Some (mapM block_to_json (map contentBlockToJSON (m_Content m))))); [by destruct (mapM _ _)|].
  rewrite mapM_some. induction (m_Content m) as [|b bs IH]; [done|]. cbn [map forallb]. by rewrite block_to_json_some, IH.
Qed.

(** Every field comes back to its own place. *)
Lemma block_roundtrip b : jsonToContentBlock (jblock_norm (contentBlockToJSON b)) = stored_block b.
Proof.
  unfold jsonToContentBlock. destruct b as [t|u|r|s|d|w];
    cbn [contentBlockToJSON json_block set_field jblock_norm jb_Type jb_Text jb_ToolUseID jb_Name jb_Input jb_Content
      jb_IsError jb_ImageData jb_ImageBase64 jb_ImageURL jb_ImageMIMEType jb_DocData jb_DocBase64 jb_DocURL jb_DocFileID
      jb_DocS3URI jb_DocS3BucketOwner jb_DocMIMEType jb_DocName jb_ToolResultImages jb_WidgetType jb_WidgetPayload];
    rewrite mj_ascii by reflexivity; try reflexivity.
  cbn [stored_block]. rewrite !map_map. reflexivity.
Qed.

(** What was encoded is decoded. *)
Lemma marshal_decodes msgs data : MarshalMessages msgs = Some data -> UnmarshalMessages data = Some (map stored_message msgs).
Proof.
  unfold MarshalMessages, UnmarshalMessages. destruct (mapM message_to_json _) as [ts|] eqn:Hm; [|done]. intros [= <-].
  apply (array_fields _ _ _ _ _ message_decode) in Hm as [Hv Hd]. rewrite array_decode by done. cbn. rewrite Hd. cbn. f_equal.
  rewrite !map_map. apply map_ext. intros m. unfold stored_message. cbn. f_equal. rewrite !map_map. apply map_ext, block_roundtrip.
Qed.
End Codec.

(** C35. Messages survive their encoding, and only a raw message that is not JSON prevents
    it: when every tool input and widget payload is empty or valid JSON, MarshalMessages
    succeeds and UnmarshalMessages reads back the same messages, roles, blocks and
    fields in the same order, up to what the JSON encoder does to a string and to a raw message;
    otherwise MarshalMessages fails. *)
Theorem marshal_unmarshal `{MessageJSON} msgs :
  match MarshalMessages msgs with
  | Some data => forallb message_ok msgs = true /\ UnmarshalMessages data = Some (map stored_message msgs)
  | None => forallb message_ok msgs = false
  end.
Proof.
  assert (Hok : bool_decide (is_Some (MarshalMessages msgs)) = forallb message_ok msgs).
  { unfold MarshalMessages. trans (bool_decide (is_Some (mapM message_to_json
      (map (fun msg => mkJsonMessage (m_Role msg) (map contentBlockToJSON (m_Content msg))) msgs)))).
    - apply bool_decide_ext. by rewrite fmap_is_Some.
    - rewrite mapM_some. induction msgs as [|m msgs IH]; [done|]. cbn [map forallb]. by rewrite message_to_json_some, IH. }
  destruct (MarshalMessages msgs) as [data|] eqn:Hm; [|done]. split; [done|by apply marshal_decodes].
Qed.

(** * A library for which the laws hold

    Lists of texts with every character marked and every element terminated; strings,
    bytes and raw messages are their own text, and a raw message must not start with "!". *)
Fixpoint mark (s : string) : string := match s with EmptyString => ";" | String c s => String "c"%char (String c (mark s)) end.
Fixpoint marks (xs : list string) : string := match xs with [] => "" | x :: xs => mark x +:+ marks xs end.
Fixpoint unmark (cur s : string) : option (list string) :=
  match s with
  | EmptyString => if bool_decide (cur = "") then Some [] else None
  | String t (String c s as s') =>
      if bool_decide (t = "c"%char) then unmark (cur +:+ String c "") s
      else xs ← unmark "" s'; Some (cur :: xs)
  | String t EmptyString => Some [cur]
  end.
Fixpoint pairs (xs : list string) : list (string * string) :=
  match xs with k :: v :: xs => (k, v) :: pairs xs | _ => [] end.
Fixpoint unpairs (fs : list (string * string)) : list string :=
  match fs with [] => [] | (k, v) :: fs => k :: v :: unpairs fs end.

Lemma append_assoc a b c : (a +:+ b) +:+ c = a +:+ b +:+ c.
Proof. induction a as [|x a IH]; [done|]. by rewrite !string_app_cons, IH. Qed.

Lemma unmark_mark s cur rest xs : unmark "" rest = Some xs -> unmark cur (mark s +:+ rest) = Some ((cur +:+ s) :: xs).
Proof.
  intros Hr. revert cur. induction s as [|c s IH]; intros cur.
  - rewrite string_app_nil_r. change (mark "" +:+ rest) with (String ";"%char rest). destruct rest as [|c rest]; [by injection Hr as <-|].
    change (unmark cur _) with (xs ← unmark "" (String c rest); Some (cur :: xs)). by rewrite Hr.
  - change (unmark cur _) with (unmark (cur +:+ String c "") (mark s +:+ rest)). by rewrite IH, append_assoc.
Qed.
Lemma unmarks xs : unmark "" (marks xs) = Some xs.
Proof. induction xs as [|x xs IH]; [done|]. by apply (unmark_mark x ""). Qed.
Lemma pairs_unpairs fs : pairs (unpairs fs) = fs.
Proof. induction fs as [|[k v] fs IH]; [done|]. cbn. by rewrite IH. Qed.

#[export, program] Instance marked_json : MessageJSON := {
  mj_value _ := True; mj_text s := s;
  enc_string s := s; dec_string s := Some s;
  enc_bool b := if b : bool then "t" else "f"; dec_bool s := Some (bool_decide (s = "t"));
  enc_bytes s := s; dec_bytes s := Some s;
  enc_raw s := match s with String "!"%char _ => None | _ => Some s end;
  enc_array := marks; dec_array := unmark "";
  enc_object fs := marks (unpairs fs); dec_object s := pairs <$> unmark "" s }.
Solve Obligations with try done.
Next Obligation. by intros []. Qed.
Next Obligation. intros xs _. apply unmarks. Qed.
Next Obligation. intros fs _ _. cbv beta. pose proof (unmarks (unpairs fs)) as Hu. change ((pairs <$> unmark "" (marks (unpairs fs))) = Some fs). rewrite Hu. cbn. by rewrite pairs_unpairs. Qed.

Definition codec_sample : list Message :=
  [mkMessage "user" [TextBlock "hi"; ImageBlock (mkImageSource (Some "x") "" "" "image/png")];
   mkMessage "assistant" [ToolUseBlock (mkToolUse "c1" "look" (Some "{}"))];
   mkMessage "user" [ToolResultBlk (mkToolResult "c1" "" true [mkImageSource (Some "") "aa" "" ""]);
                     DocumentBlock (mkDocumentSource None "" "u" "f" "" "" "m" "n"); WidgetBlock (mkWidget "w" (Some "[1]"))]].

Lemma marshal_unmarshal_witness :
  (exists data, MarshalMessages codec_sample = Some data /\ UnmarshalMessages data = Some (map stored_message codec_sample)) /\
  MarshalMessages [mkMessage "assistant" [ToolUseBlock (mkToolUse "c1" "look" (Some "!"))]] = None.
Proof.
  split; [|vm_compute; reflexivity].
  assert (Hm : is_Some (MarshalMessages codec_sample)) by (vm_compute; by eexists).
  pose proof (marshal_unmarshal codec_sample) as Hr. destruct (MarshalMessages codec_sample) as [data|]; [|by destruct Hm].
  exists data. split; [done|]. exact (proj2 Hr).
Defined.
