(* ===== verification/Fallback.v ===== *)
(** A chain of providers (agent/provider/fallback/fallback.go): the next provider is tried
    only while nothing has reached the caller, and the chain claims no more than
    every member can do. *)
From stdpp Require Import pretty.
From S2P Require Import Prelude Errors Messages Tool Inference State Structured.

(** * A provider as its caller sees it

    A call of [Provider.Stream] emits events to the callback and returns.  The callback
    runs in between, so the rest of the call depends on the world it leaves. *)
Inductive Session (W : Type) : Type :=
| Returns (r : res ModelResponse) (w : W)
| Emits (ev : ModelEvent) (w : W) (k : W -> Session W).
Arguments Returns {W} r w.
Arguments Emits {W} ev w k.

Section Fallback.
Context {W : Type}.

Record Delegate := mkDelegate {
  d_Stream : ModelRequest -> W -> Session W;
  (** [None] when the provider does not implement CapabilityProvider. *)
  d_Capabilities : option ModelCapabilities }.

(* agent/capabilities.go: CapabilitiesOf *)
Definition CapabilitiesOf (p : option Delegate) : ModelCapabilities :=
  match p with
  | None => capabilities_zero
  | Some p => default capabilities_zero (d_Capabilities p)
  end.

(** Run a call with a callback; the flag is [emitted]. *)
Fixpoint run_session (emit : ModelEvent -> W -> W) (s : Session W) : res ModelResponse * W * bool :=
  match s with
  | Returns r w => (r, w, false)
  | Emits ev w k => let '(r, w', _) := run_session emit (k (emit ev w)) in (r, w', true)
  end.

(** A nil callback is passed on: the provider's events go nowhere. *)
Definition attempt_stream (emit : option (ModelEvent -> W -> W)) (s : Session W) : res ModelResponse * W * bool :=
  match emit with
  | Some emit => run_session emit s
  | None => let '(r, w, _) := run_session (fun _ w => w) s in (r, w, false)
  end.

(* agent/provider/fallback/fallback.go:24-26: Provider *)
Record FallbackProvider := mkFallback { f_chain : list Delegate }.

(* agent/provider/fallback/fallback.go: New *)
Definition NewFallback (primary : Delegate) (fallbacks : list Delegate) : FallbackProvider :=
  mkFallback (primary :: fallbacks).

(* agent/provider/fallback/fallback.go: Provider.Name *)
Definition fallback_Name (p : FallbackProvider) : string := "fallback".

(** ** Capabilities *)

(* agent/provider/fallback/fallback.go: conservativeCapability *)
Definition conservativeCapability (l r : Capability) : Capability :=
  if bool_decide (l = Unsupported_) || bool_decide (r = Unsupported_) then Unsupported_
  else if bool_decide (l = Supported) && bool_decide (r = Supported) then Supported
  else Unknown.

(* agent/provider/fallback/fallback.go: conservativeLimit *)
Definition conservativeLimit (l r : Z) : Z :=
  if bool_decide (l <= 0)%Z || bool_decide (r <= 0)%Z then 0
  else if bool_decide (r < l)%Z then r else l.

(* agent/provider/fallback/fallback.go:60-69: one round of Provider.Capabilities *)
Definition conservative_caps (caps next : ModelCapabilities) : ModelCapabilities :=
  mkCapabilities
    (conservativeLimit (mc_ContextWindowTokens caps) (mc_ContextWindowTokens next))
    (conservativeLimit (mc_MaxOutputTokens caps) (mc_MaxOutputTokens next))
    (conservativeCapability (mc_ToolUse caps) (mc_ToolUse next))
    (conservativeCapability (mc_ChoiceAuto caps) (mc_ChoiceAuto next))
    (conservativeCapability (mc_ChoiceRequired caps) (mc_ChoiceRequired next))
    (conservativeCapability (mc_ChoiceSpecific caps) (mc_ChoiceSpecific next))
    (conservativeCapability (mc_NativeStructuredOutput caps) (mc_NativeStructuredOutput next)).

(* agent/provider/fallback/fallback.go:47-71: Provider.Capabilities *)
Definition fallback_Capabilities (p : FallbackProvider) : ModelCapabilities :=
  match f_chain p with
  | [] => capabilities_zero
  | first :: rest =>
      foldl (fun caps provider => conservative_caps caps (CapabilitiesOf (Some provider))) (CapabilitiesOf (Some first)) rest
  end.

(** ** Streaming *)

(* agent/provider/fallback/fallback.go:99-119: loop of Provider.Stream *)
Fixpoint stream_chain (emit : option (ModelEvent -> W -> W)) (req : ModelRequest) (i : N) (chain : list Delegate)
  (lastErr : error) (w : W) : res ModelResponse * W :=
  match chain with
  | [] => (Err (EWrap "all providers failed" lastErr), w)
  | provider :: chain =>
      let '(r, w, emitted) := attempt_stream emit (d_Stream provider req w) in
      match r with
      | Ok resp => (Ok resp, w)
      | Err err =>
          let lastErr := EWrap ("provider[" +:+ pretty i +:+ "]") err in
          if emitted : bool then (Err lastErr, w) else stream_chain emit req (i + 1) chain lastErr w
      end
  end.

(** A nil [lastErr] is only formatted when the chain is empty. *)
Definition nil_error : error := ENew "%!w(<nil>)".

(* agent/provider/fallback/fallback.go: Provider.Stream *)
Definition fallback_Stream (p : FallbackProvider) (req : ModelRequest) (emit : option (ModelEvent -> W -> W)) (w : W) :
  res ModelResponse * W := stream_chain emit req 0 (f_chain p) nil_error w.

(** * Properties *)

(** A call that returns an error without having emitted: its world does not depend on
    the callback. *)
Definition silent_failure (req : ModelRequest) (p : Delegate) (w : W) (e : error) (w' : W) : Prop :=
  d_Stream p req w = Returns (Err e) w'.

(** The providers [pre] failed silently one after the other, the last one with [e]. *)
Inductive skipped (req : ModelRequest) : N -> list Delegate -> W -> error -> W -> error -> Prop :=
| skipped_nil i w e : skipped req i [] w e w e
| skipped_cons i p pre w e e1 w1 w2 e2 :
    silent_failure req p w e1 w1 ->
    skipped req (i + 1) pre w1 (EWrap ("provider[" +:+ pretty i +:+ "]") e1) w2 e2 ->
    skipped req i (p :: pre) w e w2 e2.

Lemma run_session_silent emit (s : Session W) r w : run_session emit s = (r, w, false) -> s = Returns r w.
Proof. destruct s as [r' w'|ev w' k]; cbn; [by intros [= -> ->]|]. destruct (run_session emit _) as [[? ?] ?]. by intros [=]. Qed.

Lemma stream_chain_spec emit req chain : forall i e w,
  (exists pre p post w0 e0 r w1 emitted, chain = pre ++ p :: post /\ skipped req i pre w e w0 e0 /\
     run_session emit (d_Stream p req w0) = (r, w1, emitted) /\
     match r with
     | Ok resp => stream_chain (Some emit) req i chain e w = (Ok resp, w1)
     | Err e1 => emitted = true /\
         stream_chain (Some emit) req i chain e w = (Err (EWrap ("provider[" +:+ pretty (i + N.of_nat (length pre))%N +:+ "]") e1), w1)
     end) \/
  (exists w0 e0, skipped req i chain w e w0 e0 /\ stream_chain (Some emit) req i chain e w = (Err (EWrap "all providers failed" e0), w0)).
Proof.
  induction chain as [|p chain IH]; intros i e w; [right; exists w, e; split; [constructor|done]|].
  cbn. destruct (run_session emit (d_Stream p req w)) as [[r w1] emitted] eqn:Hr.
  destruct r as [resp|err]; [|destruct emitted].
  - left. exists [], p, chain, w, e, (Ok resp), w1, emitted. repeat split; [constructor|done].
  - left. exists [], p, chain, w, e, (Err err), w1, true. repeat split; [constructor|done|]. by rewrite N.add_0_r.
  - assert (Hs : silent_failure req p w err w1) by by eapply run_session_silent.
    destruct (IH (i + 1)%N (EWrap ("provider[" +:+ pretty i +:+ "]") err) w1) as
      [(pre & q & post & w0 & e0 & r & w2 & em & -> & Hk & Hq & Hres)|(w0 & e0 & Hk & Hres)].
    + left. exists (p :: pre), q, post, w0, e0, r, w2, em. repeat split; [by econstructor|done|].
      replace (i + N.of_nat (length (p :: pre)))%N with (i + 1 + N.of_nat (length pre))%N by (cbn; lia). done.
    + right. exists w0, e0. split; [by econstructor|done].
Qed.

(** What the chain claims of one feature, for the member at hand. *)
Lemma conservative_unsupported l r : conservativeCapability l r = Unsupported_ <-> l = Unsupported_ \/ r = Unsupported_.
Proof. destruct l, r; cbn; naive_solver. Qed.
Lemma conservative_supported l r : conservativeCapability l r = Supported <-> l = Supported /\ r = Supported.
Proof. destruct l, r; cbn; naive_solver. Qed.

Section Feature.
Variable feature : ModelCapabilities -> Capability.
Hypothesis feature_meet : forall a b, feature (conservative_caps a b) = conservativeCapability (feature a) (feature b).

Lemma fold_supported rest caps :
  feature (foldl (fun caps p => conservative_caps caps (CapabilitiesOf (Some p))) caps rest) = Supported <->
  feature caps = Supported /\ Forall (fun p => feature (CapabilitiesOf (Some p)) = Supported) rest.
Proof.
  revert caps. induction rest as [|p rest IH]; intros caps; cbn [foldl]; [by rewrite Forall_nil; tauto|].
  rewrite IH, feature_meet, conservative_supported, Forall_cons. tauto.
Qed.
Lemma fold_unsupported rest caps :
  feature (foldl (fun caps p => conservative_caps caps (CapabilitiesOf (Some p))) caps rest) = Unsupported_ <->
  feature caps = Unsupported_ \/ Exists (fun p => feature (CapabilitiesOf (Some p)) = Unsupported_) rest.
Proof.
  revert caps. induction rest as [|p rest IH]; intros caps; cbn [foldl]; [by rewrite Exists_nil; tauto|].
  rewrite IH, feature_meet, conservative_unsupported, Exists_cons. tauto.
Qed.

Lemma feature_spec first rest :
  (feature (fallback_Capabilities (NewFallback first rest)) = Supported <->
     Forall (fun p => feature (CapabilitiesOf (Some p)) = Supported) (first :: rest)) /\
  (feature (fallback_Capabilities (NewFallback first rest)) = Unsupported_ <->
     Exists (fun p => feature (CapabilitiesOf (Some p)) = Unsupported_) (first :: rest)).
Proof. unfold fallback_Capabilities. cbn [f_chain NewFallback]. by rewrite fold_supported, fold_unsupported, Forall_cons, Exists_cons. Qed.
End Feature.

Section Limit.
Variable limit : ModelCapabilities -> Z.
Hypothesis limit_meet : forall a b, limit (conservative_caps a b) = conservativeLimit (limit a) (limit b).

Lemma fold_limit rest caps n : (0 < n)%Z ->
  limit (foldl (fun caps p => conservative_caps caps (CapabilitiesOf (Some p))) caps rest) = n ->
  (n <= limit caps)%Z /\ Forall (fun p => (n <= limit (CapabilitiesOf (Some p)))%Z) rest.
Proof.
  intros Hn. revert caps. induction rest as [|p rest IH]; intros caps; cbn [foldl]; [intros ->; split; [lia|constructor]|].
  intros [Hl Hf]%IH. rewrite limit_meet in Hl. unfold conservativeLimit in Hl.
  repeat case_bool_decide; cbn [orb] in Hl; (split; [lia|constructor; [lia|done]]).
Qed.
End Limit.

End Fallback.

Arguments Delegate W : clear implicits.
Arguments FallbackProvider W : clear implicits.

(** C36. A chain speaks with one voice: the outcome of Stream is that of one provider,
    called after the ones before it had each failed without emitting anything; its events are the
    only ones the caller sees, its success is returned as it is, its failure is returned at
    once when it had emitted.  Only when every provider failed silently is the last
    failure returned as "all providers failed". *)
Theorem fallback_one_voice {W} (p : FallbackProvider W) req emit w :
  (exists pre d post w0 e0 r w1 emitted, f_chain p = pre ++ d :: post /\ skipped req 0 pre w nil_error w0 e0 /\
     run_session emit (d_Stream d req w0) = (r, w1, emitted) /\
     match r with
     | Ok resp => fallback_Stream p req (Some emit) w = (Ok resp, w1)
     | Err e => emitted = true /\
         fallback_Stream p req (Some emit) w = (Err (EWrap ("provider[" +:+ pretty (N.of_nat (length pre)) +:+ "]") e), w1)
     end) \/
  (exists w0 e0, skipped req 0 (f_chain p) w nil_error w0 e0 /\
     fallback_Stream p req (Some emit) w = (Err (EWrap "all providers failed" e0), w0)).
Proof. apply (stream_chain_spec emit req (f_chain p) 0 nil_error w). Qed.

(** The chain claims the conservative meet of its members: each feature is Supported
    exactly when all members support it and Unsupported exactly when one does not; a positive
    limit is at most every member's.  So the tool choice InvokeSchema makes for the chain is
    one that no member, whichever ends up serving the call, declares unsupported. *)
Theorem fallback_capabilities_meet {W} (first : Delegate W) rest :
  let caps := fallback_Capabilities (NewFallback first rest) in
  let members := map (fun p => CapabilitiesOf (Some p)) (first :: rest) in
  (forall feature, feature ∈ [mc_ToolUse; mc_ChoiceAuto; mc_ChoiceRequired; mc_ChoiceSpecific; mc_NativeStructuredOutput] ->
     (feature caps = Supported <-> Forall (fun m => feature m = Supported) members) /\
     (feature caps = Unsupported_ <-> Exists (fun m => feature m = Unsupported_) members)) /\
  (forall limit, limit ∈ [mc_ContextWindowTokens; mc_MaxOutputTokens] -> (0 < limit caps)%Z ->
     Forall (fun m => (limit caps <= limit m)%Z) members) /\
  (forall choice, structuredOutputToolChoice caps = Ok choice ->
     Forall (fun m => mc_ToolUse m <> Unsupported_ /\
       (if choice is Some _ then mc_ChoiceSpecific m <> Unsupported_ else mc_ChoiceAuto m <> Unsupported_)) members).
Proof.
  intros caps members.
  assert (Hfeat : forall feature, feature ∈ [mc_ToolUse; mc_ChoiceAuto; mc_ChoiceRequired; mc_ChoiceSpecific; mc_NativeStructuredOutput] ->
     (feature caps = Supported <-> Forall (fun m => feature m = Supported) members) /\
     (feature caps = Unsupported_ <-> Exists (fun m => feature m = Unsupported_) members)).
  { intros feature Hin. unfold members. rewrite Forall_map, Exists_map. apply feature_spec. set_solver. }
  split; [done|split].
  - intros limit Hin Hpos. unfold members. rewrite Forall_map, Forall_cons.
    apply (fold_limit limit) with (n := limit caps); [set_solver|done|done].
  - assert (Hnone : forall feature, feature ∈ [mc_ToolUse; mc_ChoiceAuto; mc_ChoiceRequired; mc_ChoiceSpecific; mc_NativeStructuredOutput] ->
      feature caps <> Unsupported_ -> Forall (fun m => feature m <> Unsupported_) members).
    { intros feature Hin Hne. apply Forall_Exists_neg. by rewrite <- (proj2 (Hfeat feature Hin)). }
    intros choice. unfold structuredOutputToolChoice. repeat case_bool_decide; intros [= <-]; apply Forall_and; split; apply Hnone; set_solver.
Qed.
