(* ===== verification/Compose.v ===== *)
(** Agents as tools (agent/compose.go): the handler that runs a child agent, the
    identity of the child's conversation, and what happens when the child pauses. *)
From Stdlib Require Import Ascii.
From S2P Require Import Prelude Errors Messages Normalize TurnMessages Execution Schema Tool.
From S2P Require Import Inference Stores EventSink State ToolBatch ToolExec Engine Sample.

(** * The child's conversation *)

(** byte(n >> (8 * i)) *)
Definition be_byte (n : Z) (i : Z) : ascii := ascii_of_N (Z.to_N (Z.land (Z.shiftr n (8 * i)) 255)).
(* agent/compose.go:73-76: length of childConversationID *)
Definition be64 (n : Z) : string :=
  String (be_byte n 7) (String (be_byte n 6) (String (be_byte n 5) (String (be_byte n 4)
    (String (be_byte n 3) (String (be_byte n 2) (String (be_byte n 1) (String (be_byte n 0) ""))))))).

(* agent/compose.go:72-79: hashed text of childConversationID *)
Fixpoint delimited (parts : list string) : string :=
  match parts with
  | [] => ""
  | part :: parts => be64 (Z.of_nat (String.length part)) +:+ part +:+ delimited parts
  end.

(* agent/compose.go: childConversationID *)
Definition childConversationID `{Hashing} (parentConversationID toolCallID toolName childName : string) : string :=
  "agent-as-tool/v1/" +:+ sha256_hex (delimited ["agent-as-tool/v1"; parentConversationID; toolCallID; toolName; childName]).

Section Compose.
Context {W : Type} `{Hashing} `{JSONLib} `{Texts}.

(** The consumer of Invoke takes every event and stops at an error, which comes with
    the last one. *)
(* agent/engine.go: collectResult *)
Definition collecting (a : Agent W) : Agent W :=
  mkAgent (a_provider a) (a_instructions a) (a_toolRegistry a) (a_inferenceConfig a) (a_maxIterations a)
    (a_tokenBudget a) (a_sequentialTools a) (a_maxConcurrentTools a) (a_conversation a) (a_contextManager a)
    (a_executionStore a) (a_normStrategy a) (a_normDisabled a) (a_retriever a) (a_contextFormatter a)
    (a_middlewares a) (a_inputGuardrails a) (a_outputGuardrails a) (a_toolVisibility a) (a_rateLimiter a)
    (a_rateLimitKey a) (a_random a) (a_ctxErr a) (fun _ err w => (bool_decide (err = None), w)) (a_schedule a).

(* agent/engine.go: Agent.Invoke *)
Definition Invoke (a : Agent W) (cfg : invocationConfig) (input : string) (w : W) : Out * W :=
  let '(o, s) := stream (collecting a) (InvokeInput input) cfg w in (default (Result_zero, None) o, st_world s).

(** The context a handler receives: its configuration and, inside a tool call, the ID of the call. *)
Record ParentContext := mkParent { pc_cfg : invocationConfig; pc_call : option string }.

(** NewContext of a plain context. *)
Definition new_parent : ParentContext := mkParent (mkConfig "" "" false false 0 [] [] None None "" false) None.

(* agent/compose.go: consumeChildExecution *)
Definition consumeChildExecution (child : Agent W) (interrupt : Interrupt) (w : W) : option error * W :=
  match a_executionStore child with
  | None => (None, w)
  | Some es =>
      let '(loaded, w) := es_Load es (in_ExecutionID interrupt) w in
      match loaded with
      | Err err => if errors_Is err ErrExecutionNotFound then (None, w) else (Some (EWrap "load child execution" err), w)
      | Ok execution =>
          if bool_decide (x_Status execution <> ExecutionPaused) ||
             bool_decide (x_Version execution <> in_ExecutionVersion interrupt) then (None, w)
          else
            let '(saved, w) := es_Save es (execution <| x_Status := ExecutionCanceled |>
              <| x_Phase := ExecutionPhaseDone |> <| x_Pause := None |>) (x_Version execution) w in
            match saved with
            | Err err => if errors_Is err ErrExecutionConflict then (None, w) else (Some (EWrap "cancel child execution" err), w)
            | Ok _ => (None, w)
            end
      end
  end.

Section Handler.
(** [child_name] is child.Name(); [unmarshal_message] decodes the raw input into
    a struct with a string field "message". *)
Context (name : string) (child : Agent W) (child_name : string) (unmarshal_message : RawMessage -> res string).

(* agent/compose.go:42-48: context of the child *)
Definition child_config (parent : ParentContext) : res invocationConfig :=
  let childCtx := cloneInvocationConfig (pc_cfg parent) in
  match a_conversation child with
  | None => Ok childCtx
  | Some _ =>
      let call := default "" (pc_call parent) in
      if bool_decide (cfg_conversationID (pc_cfg parent) = "") || bool_decide (call = "")
      then Err (ENew "child agent requires a parent conversation and tool call ID")
      else Ok (childCtx <| cfg_conversationID := childConversationID (cfg_conversationID (pc_cfg parent)) call name child_name |>)
  end.

(* agent/compose.go:51-65: outcome of the child *)
Definition child_outcome (out : Out) (w : W) : res string * W :=
  let '(res, err) := out in
  match rs_StopReason res, rs_Interrupt res with
  | StopInterrupt, Some i =>
      let '(cleanupErr, w) := consumeChildExecution child i w in
      let pauseErr := ENew "child agent paused; interrupts cannot propagate through AgentAsTool" in
      let pauseErr := match cleanupErr with Some e => EJoin pauseErr e | None => pauseErr end in
      (Err (match err with Some e => EWrap "child agent" (EJoin e pauseErr) | None => pauseErr end), w)
  | _, _ => (match err with Some e => Err (EWrap "child agent" e) | None => Ok (rs_Text res) end, w)
  end.

(* agent/compose.go:30-67: handler of AgentAsTool *)
Definition agent_handler (parent : option ParentContext) (input : RawMessage) (w : W) : res string * W :=
  match unmarshal_message input with
  | Err e => (Err e, w)
  | Ok message =>
      match child_config (default new_parent parent) with
      | Err e => (Err e, w)
      | Ok childCtx => let '(out, w) := Invoke child childCtx message w in child_outcome out w
      end
  end.

(** [FromContext] is the framework's context of the handler's context, if it has one. *)
(* agent/compose.go: AgentAsTool *)
Definition AgentAsTool (description : string) (FromContext : HandlerCtx -> option ParentContext) : Tool W :=
  mkTool (mkSpec name description (Some (AObj
    [("type", AStr "object");
     ("properties", AObj [("message", AObj [("type", AStr "string"); ("description", AStr "The message to send to the sub-agent")])]);
     ("required", AStrs ["message"])])))
    (Some (fun ctx input w => let '(r, w) := agent_handler (FromContext ctx) input w in (([], r), w)))
    None None false false None.

End Handler.
End Compose.

(** * The identity of a child conversation *)

Lemma be_byte_mod n i : (0 <= n)%Z -> (0 <= i)%Z -> Z.of_N (N_of_ascii (be_byte n i)) = ((n / 2 ^ (8 * i)) mod 256)%Z.
Proof.
  intros Hn Hi. unfold be_byte. change 255%Z with (Z.ones 8). rewrite Z.land_ones, Z.shiftr_div_pow2 by lia. change (2 ^ 8)%Z with 256%Z.
  pose proof (Z.mod_pos_bound (n / 2 ^ (8 * i)) 256 ltac:(lia)). rewrite N_ascii_embedding by lia. lia.
Qed.

(** A number is given by its digits to the base 256. *)
Lemma digits_inj (k : nat) : forall n1 n2, (0 <= n1 < 256 ^ Z.of_nat k)%Z -> (0 <= n2 < 256 ^ Z.of_nat k)%Z ->
  (forall i, (0 <= i < Z.of_nat k)%Z -> ((n1 / 256 ^ i) mod 256 = (n2 / 256 ^ i) mod 256)%Z) -> n1 = n2.
Proof.
  induction k as [|k IH]; intros n1 n2 H1 H2 Hd; [cbn in *; lia|].
  rewrite Nat2Z.inj_succ, Z.pow_succ_r in H1, H2 by lia.
  assert (Hq : (n1 / 256 = n2 / 256)%Z).
  { apply IH.
    - split; [apply Z.div_pos; lia|apply Z.div_lt_upper_bound; lia].
    - split; [apply Z.div_pos; lia|apply Z.div_lt_upper_bound; lia].
    - intros i Hi. rewrite !Z.div_div, <- !Z.pow_succ_r by lia. apply Hd. lia. }
  pose proof (Hd 0%Z ltac:(lia)) as Hr. rewrite Z.pow_0_r, !Z.div_1_r in Hr.
  rewrite (Z.div_mod n1 256), (Z.div_mod n2 256) by lia. lia.
Qed.

Lemma be64_inj n1 n2 : (0 <= n1 < 2 ^ 64)%Z -> (0 <= n2 < 2 ^ 64)%Z -> be64 n1 = be64 n2 -> n1 = n2.
Proof.
  intros H1 H2 Hb. unfold be64 in Hb. injection Hb as E7 E6 E5 E4 E3 E2 E1 E0.
  assert (Hbyte : forall i, (0 <= i)%Z -> be_byte n1 i = be_byte n2 i -> ((n1 / 2 ^ (8 * i)) mod 256 = (n2 / 2 ^ (8 * i)) mod 256)%Z).
  { intros i Hi E. rewrite <- !be_byte_mod by lia. by rewrite E. }
  apply (digits_inj 8); [done..|]. intros i Hi. change 256%Z with (2 ^ 8)%Z at 1 3. rewrite <- !Z.pow_mul_r by lia.
  apply Hbyte; [lia|].
  assert (Hc : (i = 0 \/ i = 1 \/ i = 2 \/ i = 3 \/ i = 4 \/ i = 5 \/ i = 6 \/ i = 7)%Z) by lia.
  by destruct Hc as [->|[->|[->|[->|[->|[->|[->| ->]]]]]]].
Qed.

Lemma delimited_inj ps qs :
  Forall2 (fun p q => Z.of_nat (String.length p) < 2 ^ 64 /\ Z.of_nat (String.length q) < 2 ^ 64)%Z ps qs ->
  delimited ps = delimited qs -> ps = qs.
Proof.
  induction 1 as [|p q ps qs [Hp Hq] _ IH]; [done|]. cbn [delimited]. intros Heq.
  apply string_app_inj_length in Heq as [Hl Heq]; [|done]. apply be64_inj in Hl; [|lia..].
  apply string_app_inj_length in Heq as [-> Heq]; [|lia]. by rewrite (IH Heq).
Qed.

(** * A child that pauses *)

(** What the wrapper relies on when a store refuses: the record was not there, or was
    no longer at the expected version. *)
Class ExecutionRefusals {W} (es : ExecutionStore W) (ok : W -> Prop) (evolves : relation W) `{!ExecutionLaws es ok evolves} := {
  er_load id w e w' : ok w -> es_Load es id w = (Err e, w') -> errors_Is e ErrExecutionNotFound = true ->
    exists w1, evolves w w1 /\ evolves w1 w' /\ el_at w1 id = None;
  er_save x v w e w' : ok w -> es_Save es x v w = (Err e, w') -> errors_Is e ErrExecutionConflict = true ->
    exists w1, evolves w w1 /\ evolves w1 w' /\ forall x0, el_at w1 (x_ID x) = Some x0 -> x_Version x0 <> v }.

Section Pause.
Context {W : Type} `{Hashing} `{JSONLib} `{Texts}.
Context (es : ExecutionStore W) (ok : W -> Prop) (evolves : relation W).
Context `{!PreOrder evolves} `{!ExecutionLaws es ok evolves} `{!ExecutionRefusals es ok evolves}.
Context (ok_evolves : forall w w', ok w -> evolves w w' -> ok w').
Context (child : Agent W) (i : Interrupt).
Context (child_store : a_executionStore child = Some es).

(** The store once held the execution at the version of the interrupt. *)
Definition issued (w : W) : Prop :=
  exists w0 x0, ok w0 /\ evolves w0 w /\ el_at w0 (in_ExecutionID i) = Some x0 /\ x_Version x0 = in_ExecutionVersion i.

(** The interrupt cannot be resumed any more. *)
Definition consumed (w : W) : Prop :=
  exists x, el_at w (in_ExecutionID i) = Some x /\
    ((in_ExecutionVersion i < x_Version x)%N \/ (x_Version x = in_ExecutionVersion i /\ x_Status x <> ExecutionPaused)).

Lemma consumed_stays w w' : ok w -> evolves w w' -> consumed w -> consumed w'.
Proof.
  intros Hok Hev (x & Hx & Hc). destruct (el_version_grows _ _ _ _ Hok Hev Hx) as (x' & Hx' & Hle & Heq). exists x'. split; [done|].
  destruct Hc as [Hlt|[Hv Hs]]; [left; lia|]. destruct (decide (x_Version x = x_Version x')) as [E|E]; [|left; lia].
  right. by rewrite <- (Heq E).
Qed.

Lemma issued_later w w' x : issued w -> evolves w w' -> el_at w' (in_ExecutionID i) = Some x ->
  (in_ExecutionVersion i <= x_Version x)%N.
Proof.
  intros (w0 & x0 & Hok & Hev & Hx0 & Hv) Hev' Hx.
  destruct (el_version_grows _ _ _ _ Hok (transitivity Hev Hev') Hx0) as (x' & Hx' & Hle & _). simplify_eq. lia.
Qed.

Lemma issued_present w w' : issued w -> evolves w w' -> exists x, el_at w' (in_ExecutionID i) = Some x.
Proof.
  intros (w0 & x0 & Hok & Hev & Hx0 & _) Hev'.
  destruct (el_version_grows _ _ _ _ Hok (transitivity Hev Hev') Hx0) as (x' & Hx' & _). by exists x'.
Qed.

Lemma consume_consumes w w' : ok w -> issued w -> consumeChildExecution child i w = (None, w') -> evolves w w' /\ consumed w'.
Proof.
  intros Hok Hi. unfold consumeChildExecution. rewrite child_store.
  pose proof (el_load (in_ExecutionID i) w Hok) as Hl. destruct (es_Load es (in_ExecutionID i) w) as [[x|e] w1] eqn:El.
  - destruct Hl as [Hev1 Hl]. destruct (Hl x eq_refl) as (wa & Hwa & Hwb & Hx & Hid).
    assert (Hoka : ok wa) by eauto. assert (Hge := issued_later _ _ _ Hi Hwa Hx).
    destruct (bool_decide (x_Status x <> ExecutionPaused) || bool_decide (x_Version x <> in_ExecutionVersion i)) eqn:Hc.
    + intros [= <-]. split; [done|]. apply (consumed_stays wa); [done..|]. exists x. split; [done|].
      apply orb_true_iff in Hc as [Hc%bool_decide_eq_true|Hc%bool_decide_eq_true]; [|left; lia].
      destruct (decide (x_Version x = in_ExecutionVersion i)); [by right|left; lia].
    + apply orb_false_iff in Hc as [_ Hv%bool_decide_eq_false]. assert (Hv' : x_Version x = in_ExecutionVersion i) by (destruct (decide (x_Version x = in_ExecutionVersion i)); [done|by destruct Hv]).
      set (x' := x <| x_Status := _ |> <| x_Phase := _ |> <| x_Pause := _ |>).
      assert (Hok1 : ok w1) by eauto. assert (Hid' : x_ID x' = in_ExecutionID i) by done.
      pose proof (el_save x' (x_Version x) w1 Hok1) as Hs. destruct (es_Save es x' (x_Version x) w1) as [[y|e] w2] eqn:Es.
      * destruct Hs as [Hev2 Hs]. intros [= <-]. split; [exact (transitivity Hev1 Hev2)|].
        destruct (Hs y eq_refl) as (wc & wd & x0 & Hwc & Hwd & Hwe & _ & _ & Hy & Hy'). rewrite Hid' in Hy.
        apply (consumed_stays wd); [eauto|done|]. exists y. split; [done|]. left. rewrite Hy'. cbn. lia.
      * destruct Hs as [Hev2 _]. destruct (errors_Is e ErrExecutionConflict) eqn:He; intros [= <-].
        split; [exact (transitivity Hev1 Hev2)|]. destruct (er_save _ _ _ _ _ Hok1 Es He) as (wc & Hwc & Hwd & Hne). rewrite Hid' in Hne.
        apply (consumed_stays wc); [eauto|done|]. destruct (issued_present w wc Hi (transitivity Hev1 Hwc)) as [z Hz]. exists z. split; [done|].
        left. pose proof (issued_later w wc z Hi (transitivity Hev1 Hwc) Hz). specialize (Hne z Hz). lia.
  - destruct Hl as [Hev1 _]. destruct (errors_Is e ErrExecutionNotFound) eqn:He; intros [= <-].
    destruct (er_load _ _ _ _ Hok El He) as (wa & Hwa & _ & Hn). destruct (issued_present w wa Hi Hwa) as [z Hz]. by rewrite Hz in Hn.
Qed.

Lemma consumed_refused resp (s : St W) : ok (st_world s) -> consumed (st_world s) -> is_ok (fst (claim_resume child i resp s)) = false.
Proof.
  intros Hok Hc. unfold claim_resume. case_bool_decide; [done|]. rewrite child_store. destruct (a_conversation child); [|done].
  unfold bind, modR, world. cbn. pose proof (el_load (in_ExecutionID i) (st_world s) Hok) as Hl.
  destruct (es_Load es (in_ExecutionID i) (st_world s)) as [[x|e] w1]; [|done].
  destruct Hl as [Hev Hl]. destruct (Hl x eq_refl) as (wa & Hwa & Hwb & Hx & _).
  destruct (consumed_stays _ _ Hok Hwa Hc) as (z & Hz & Hr). simplify_eq.
  assert (Hb : bool_decide (x_Status x <> ExecutionPaused) || bool_decide (x_Pause x = None) ||
    bool_decide (x_Version x <> in_ExecutionVersion i) = true).
  { destruct Hr as [Hlt|[_ Hs]]; [rewrite (bool_decide_true (x_Version x <> _)) by lia; apply orb_true_r|by rewrite (bool_decide_true (x_Status x <> _)) by done]. }
  cbn. by rewrite Hb.
Qed.

End Pause.

(** The context of a child, whether it persists or not. *)
Lemma child_config_spec {W} `{Hashing} `{JSONLib} `{Texts} name (child : Agent W) child_name parent cfg :
  child_config name child child_name parent = Ok cfg ->
  cfg_executionID cfg = "" /\ cfg_executionIDSet cfg = false /\ cfg_executionResume cfg = false /\
  cfg_principal cfg = cfg_principal (pc_cfg parent) /\ cfg_instructions cfg = cfg_instructions (pc_cfg parent) /\
  (is_Some (a_conversation child) -> exists call, pc_call parent = Some call /\ call <> "" /\ cfg_conversationID (pc_cfg parent) <> "" /\
     cfg_conversationID cfg = childConversationID (cfg_conversationID (pc_cfg parent)) call name child_name).
Proof.
  unfold child_config. destruct (a_conversation child) as [cs|]; [|intros [= <-]; split_and!; try done; by intros []].
  destruct (bool_decide (cfg_conversationID _ = "")) eqn:E1; [done|].
  destruct (bool_decide (default "" _ = "")) eqn:E2; [done|]. intros [= <-]. split_and!; try done. intros _.
  apply bool_decide_eq_false in E1, E2. destruct (pc_call parent) as [call|]; [|by destruct E2]. exists call. by split_and!.
Qed.

(** * Properties *)

(** C38. A child conversation is isolated: two delegations share a conversation ID only
    when parent conversation, tool call, wrapper name and child name are all the same, or
    two different texts are exhibited on which SHA-256 collides.  The names are shorter than
    2^63 bytes, as every Go string is. *)
Theorem childConversationID_injective `{Hashing} p1 c1 t1 n1 p2 c2 t2 n2 :
  (forall s, s ∈ [p1; c1; t1; n1; p2; c2; t2; n2] -> (Z.of_nat (String.length s) < 2 ^ 63)%Z) ->
  childConversationID p1 c1 t1 n1 = childConversationID p2 c2 t2 n2 ->
  (p1, c1, t1, n1) = (p2, c2, t2, n2) \/ exists a b, a <> b /\ sha256_hex a = sha256_hex b.
Proof.
  intros Hlen Heq. unfold childConversationID in Heq. apply string_app_inj_length in Heq as [_ Heq]; [|done].
  set (d1 := delimited _) in Heq. set (d2 := delimited ["agent-as-tool/v1"; p2; c2; t2; n2]) in Heq.
  destruct (decide (d1 = d2)) as [Hd|Hd]; [left|right; by exists d1, d2].
  apply delimited_inj in Hd; [by simplify_eq|].
  repeat constructor; cbn -[Z.pow]; try lia; (eapply Z.lt_trans; [apply Hlen; set_solver|lia]).
Qed.

Lemma childConversationID_injective_witness :
  childConversationID "conv" "c1" "research" "child" <> childConversationID "conv" "c2" "research" "child" \/
  exists a b : string, a <> b /\ sha256_hex a = sha256_hex b.
Proof.
  destruct (decide (childConversationID "conv" "c1" "research" "child" = childConversationID "conv" "c2" "research" "child")) as [E|E]; [|by left].
  right. destruct (childConversationID_injective "conv" "c1" "research" "child" "conv" "c2" "research" "child") as [Hc|Hc]; [|exact E|discriminate Hc|exact Hc].
  intros s Hs. repeat (apply elem_of_cons in Hs as [->|Hs]; [vm_compute; reflexivity|]). by apply elem_of_nil in Hs.
Defined.

(** A child's pause that its store acknowledged does not leak: when the child run ends in an
    interrupt whose version the store once held, the parent's tool call gets an error, never a
    result, and unless the clean-up reported a failure of the store, the interrupt cannot be
    resumed in any later state, whatever else happens to the stores.  A pause whose save failed
    is exposed with version 0 and is not covered: see [child_pause_left_behind]. *)
Theorem child_pause_contained {W} `{Hashing} `{JSONLib} `{Texts} (es : ExecutionStore W) ok evolves
  `{!PreOrder evolves} `{!ExecutionLaws es ok evolves} `{!ExecutionRefusals es ok evolves}
  (child : Agent W) name child_name (unmarshal_message : RawMessage -> res string) parent input message cfg w result err w1 i :
  (forall w w', ok w -> evolves w w' -> ok w') ->
  a_executionStore child = Some es ->
  unmarshal_message input = Ok message -> child_config name child child_name (default new_parent parent) = Ok cfg ->
  Invoke child cfg message w = ((result, err), w1) ->
  rs_StopReason result = StopInterrupt -> rs_Interrupt result = Some i -> ok w1 -> issued es ok evolves i w1 ->
  let '(cleanup, w2) := consumeChildExecution child i w1 in
  (exists e, agent_handler name child child_name unmarshal_message parent input w = (Err e, w2)) /\
  (cleanup = None -> forall s resp, evolves w2 (st_world s) -> is_ok (fst (claim_resume child i resp s)) = false).
Proof.
  intros Hoks Hes Hm Hcfg Hinv Hstop Hint Hok Hi. destruct (consumeChildExecution child i w1) as [cleanup w2] eqn:Hc. split.
  - unfold agent_handler. rewrite Hm, Hcfg, Hinv. unfold child_outcome. rewrite Hstop, Hint, Hc. by eexists.
  - intros -> s resp Hev. destruct (consume_consumes es ok evolves Hoks child i Hes _ _ Hok Hi Hc) as [Hev2 Hcons].
    assert (Hok2 : ok w2) by eauto.
    apply (consumed_refused es ok evolves child i Hes); [by eauto|]. by eapply consumed_stays.
Qed.

(** The parent's call succeeds exactly when the child finished without a pause and without an
    error, and then with the child's final text; the child runs in its own execution, in its own
    conversation when it has a store, under the parent's principal and instructions override. *)
Theorem agent_handler_success {W} `{Hashing} `{JSONLib} `{Texts} (child : Agent W) name child_name (unmarshal_message : RawMessage -> res string) parent input w text w' :
  agent_handler name child child_name unmarshal_message parent input w = (Ok text, w') ->
  exists message cfg result, unmarshal_message input = Ok message /\
    Invoke child cfg message w = ((result, None), w') /\ rs_Text result = text /\
    ~ (rs_StopReason result = StopInterrupt /\ is_Some (rs_Interrupt result)) /\
    let parent := default new_parent parent in
    cfg_executionID cfg = "" /\ cfg_executionIDSet cfg = false /\ cfg_executionResume cfg = false /\
    cfg_principal cfg = cfg_principal (pc_cfg parent) /\ cfg_instructions cfg = cfg_instructions (pc_cfg parent) /\
    (is_Some (a_conversation child) -> exists call, pc_call parent = Some call /\ call <> "" /\ cfg_conversationID (pc_cfg parent) <> "" /\
       cfg_conversationID cfg = childConversationID (cfg_conversationID (pc_cfg parent)) call name child_name).
Proof.
  unfold agent_handler. destruct (unmarshal_message input) as [message|]; [|done].
  destruct (child_config name child child_name (default new_parent parent)) as [cfg|] eqn:Hcfg; [|done].
  destruct (Invoke child cfg message w) as [[result err] w1] eqn:Hinv. intros Hout. exists message, cfg, result.
  assert (Hr : err = None /\ rs_Text result = text /\ w1 = w' /\ ~ (rs_StopReason result = StopInterrupt /\ is_Some (rs_Interrupt result))).
  { unfold child_outcome in Hout. destruct (rs_StopReason result), (rs_Interrupt result), err;
      try destruct (consumeChildExecution _ _ _); simplify_eq; split_and!; try done; by intros [? []]. }
  destruct Hr as (-> & Ht & -> & Hn). destruct (child_config_spec _ _ _ _ _ Hcfg) as (? & ? & ? & ? & ? & ?). by split_and!.
Qed.

(** * A concrete child

    The sample agent with a tool that needs approval, so that its run pauses. *)
Definition sample_ok (w : SW) : Prop := forall id x, sw_exec w !! id = Some x -> x_ID x = id.
Definition sample_evolves (w w' : SW) : Prop :=
  (sample_ok w -> sample_ok w') /\
  forall id x, sw_exec w !! id = Some x -> exists x', sw_exec w' !! id = Some x' /\ (x_Version x <= x_Version x')%N /\
    (x_Version x = x_Version x' -> x = x').

#[export] Instance sample_evolves_preorder : PreOrder sample_evolves.
Proof.
  split.
  - intros w. split; [done|]. intros id x Hx. exists x. split_and!; done || lia.
  - intros w1 w2 w3 [Hok1 H12] [Hok2 H23]. split; [auto|]. intros id x Hx.
    destruct (H12 id x Hx) as (x2 & Hx2 & Hle & Heq). destruct (H23 id x2 Hx2) as (x3 & Hx3 & Hle3 & Heq3).
    exists x3. split_and!; [done|lia|]. intros Hv. rewrite Heq by lia. apply Heq3. lia.
Qed.

Lemma sample_insert_evolves w (x : Execution) :
  (forall y, sw_exec w !! x_ID x = Some y -> (x_Version y < x_Version x)%N) ->
  sample_evolves w (w <| sw_exec := <[x_ID x := x]> (sw_exec w) |>).
Proof.
  intros Hv. split.
  - intros Hok id y. cbn. destruct (decide (id = x_ID x)) as [->|Hne]; [rewrite lookup_insert_eq; by intros [= <-]|].
    rewrite lookup_insert_ne by done. apply Hok.
  - intros id y Hy. cbn. destruct (decide (id = x_ID x)) as [->|Hne].
    + rewrite lookup_insert_eq. exists x. specialize (Hv y Hy). split_and!; [done|lia|lia].
    + rewrite lookup_insert_ne by done. exists y. split_and!; done || lia.
Qed.

#[export, refine] Instance sample_execution_laws : ExecutionLaws sample_exec sample_ok sample_evolves := {|
  el_at w id := sw_exec w !! id; el_norm := cloneRaw |}.
Proof.
  - intros w w' id x _ [_ Hev]. apply Hev.
  - intros x w Hok. simpl. unfold sample_create. destruct (sw_exec w !! x_ID x) as [y|] eqn:E; [by split|].
    set (x' := exec_map_raw cloneRaw x <| x_Version := 1%N |>).
    assert (Hev : sample_evolves w (w <| sw_exec := <[x_ID x := x']> (sw_exec w) |>)).
    { apply (sample_insert_evolves w x'). change (x_ID x') with (x_ID x). by rewrite E. }
    split; [done|]. intros y [= <-]. exists w, (w <| sw_exec := <[x_ID x := x']> (sw_exec w) |>).
    split_and!; try done. cbn. by rewrite lookup_insert_eq.
  - intros id w Hok. simpl. unfold sample_load. split; [done|]. destruct (sw_exec w !! id) as [y|] eqn:E; [|done].
    intros x [= <-]. exists w. split_and!; try done. by apply Hok.
  - intros x v w Hok. simpl. unfold sample_save. destruct (sw_exec w !! x_ID x) as [y|] eqn:E; [|by split].
    case_bool_decide as Hv; [|by split]. set (x' := exec_map_raw cloneRaw x <| x_Version := (v + 1)%N |>).
    assert (Hev : sample_evolves w (w <| sw_exec := <[x_ID x := x']> (sw_exec w) |>)).
    { apply (sample_insert_evolves w x'). change (x_ID x') with (x_ID x). rewrite E. intros z [= <-]. cbn. lia. }
    split; [done|]. intros z [= <-]. exists w, (w <| sw_exec := <[x_ID x := x']> (sw_exec w) |>), y.
    split_and!; try done. cbn. by rewrite lookup_insert_eq.
Defined.

#[export] Instance sample_refusals : ExecutionRefusals sample_exec sample_ok sample_evolves.
Proof.
  split.
  - intros id w e w' _ [= He <-] _. exists w. split_and!; try done. cbn. by destruct (sw_exec w !! id).
  - intros x v w e w' _ Hs _. exists w. simpl in Hs. unfold sample_save in Hs.
    destruct (sw_exec w !! x_ID x) as [y|] eqn:E; [case_bool_decide|]; simplify_eq; split_and!; try done; cbn; rewrite E; [|done].
    by intros z [= <-].
Defined.

Definition asking_tool : Tool SW := (sample_tool false) <| t_needsApproval := true |>.
Definition child_agent (t : Tool SW) : Agent SW :=
  mkAgent sample_provider "be brief" (fun _ => {[ "count" := t ]}) None 5 0 false 4
    (Some sample_conv) None (Some sample_exec) None false None (fun _ => "") [] [] [] (fun _ => [])
    None None (fun w => (Ok (repeat 7%N 16), w)) (fun _ => None) (fun _ _ w => (true, w)) (fun w => (sw_schedule w, w)).
Definition sample_unmarshal (input : RawMessage) : res string := Ok (default "" input).
Definition sample_parent : option ParentContext := Some (mkParent sample_cfg (Some "c9")).
Definition sample_child_cfg : invocationConfig :=
  (cloneInvocationConfig sample_cfg) <| cfg_conversationID := childConversationID "conv" "c9" "research" "child" |>.

Lemma agent_handler_success_witness :
  fst (agent_handler "research" (child_agent (sample_tool false)) "child" sample_unmarshal sample_parent (Some "how many?") sample_world) = Ok "two" /\
  exists cfg result w', Invoke (child_agent (sample_tool false)) cfg "how many?" sample_world = ((result, None), w') /\ rs_Text result = "two".
Proof.
  assert (Hr : fst (agent_handler "research" (child_agent (sample_tool false)) "child" sample_unmarshal sample_parent (Some "how many?") sample_world) = Ok "two")
    by (vm_compute; reflexivity).
  destruct (agent_handler "research" (child_agent (sample_tool false)) "child" sample_unmarshal sample_parent (Some "how many?") sample_world) as [r w'] eqn:E.
  change (fst (r, w')) with r in Hr |- *. subst r. split; [exact eq_refl|].
  destruct (agent_handler_success _ _ _ _ _ _ _ _ _ E) as (m & cfg & result & Hm & Hi & Ht & _). exists cfg, result, w'. split; [|exact Ht].
  injection Hm as <-. exact Hi.
Defined.

Definition paused_out : Out := fst (Invoke (child_agent asking_tool) sample_child_cfg "how many?" sample_world).
Definition paused_world : SW := snd (Invoke (child_agent asking_tool) sample_child_cfg "how many?" sample_world).
Definition paused_interrupt : Interrupt :=
  default (mkInterrupt "" 0 InterruptApproval "" 0 0 None None) (rs_Interrupt (fst paused_out)).

(** The pause exists in the world, and the record of every execution is under its own ID. *)
Lemma paused_world_facts :
  rs_StopReason (fst paused_out) = StopInterrupt /\ rs_Interrupt (fst paused_out) = Some paused_interrupt /\
  sample_ok paused_world /\ issued sample_exec sample_ok sample_evolves paused_interrupt paused_world.
Proof.
  assert (Hok : sample_ok paused_world).
  { assert (Hm : bool_decide (map_Forall (fun id x => x_ID x = id) (sw_exec paused_world)) = true) by (vm_compute; reflexivity).
    by apply bool_decide_eq_true in Hm. }
  split_and!; [vm_compute; reflexivity|vm_compute; reflexivity|exact Hok|].
  assert (Hx : match sw_exec paused_world !! in_ExecutionID paused_interrupt with
    | Some x => bool_decide (x_Version x = in_ExecutionVersion paused_interrupt) | None => false end = true) by (vm_compute; reflexivity).
  destruct (sw_exec paused_world !! in_ExecutionID paused_interrupt) as [x|] eqn:E; [|discriminate Hx].
  exists paused_world, x. split_and!; [exact Hok|reflexivity|exact E|by apply bool_decide_eq_true in Hx].
Qed.

Lemma child_pause_contained_witness :
  fst (consumeChildExecution (child_agent asking_tool) paused_interrupt paused_world) = None /\
  forall resp, let w2 := snd (consumeChildExecution (child_agent asking_tool) paused_interrupt paused_world) in
    is_ok (fst (claim_resume (child_agent asking_tool) paused_interrupt resp (initial sample_cfg None w2))) = false.
Proof.
  assert (Hn : fst (consumeChildExecution (child_agent asking_tool) paused_interrupt paused_world) = None) by (vm_compute; reflexivity).
  split; [exact Hn|]. destruct paused_world_facts as (Hs & Hi & Hok & His).
  pose proof (child_pause_contained sample_exec sample_ok sample_evolves (child_agent asking_tool) "research" "child" sample_unmarshal
    sample_parent (Some "how many?") "how many?" sample_child_cfg sample_world (fst paused_out) (snd paused_out) paused_world paused_interrupt) as Hc.
  destruct (consumeChildExecution (child_agent asking_tool) paused_interrupt paused_world) as [cleanup w2].
  intros resp. refine (proj2 (Hc _ eq_refl eq_refl eq_refl _ Hs Hi Hok His) Hn _ resp _); [intros w w' Ho Hev; exact (proj1 Hev Ho)| |reflexivity].
  unfold paused_out, paused_world. by destruct (Invoke _ _ _ _) as [[? ?] ?].
Defined.

(** A store whose answer to the save of a pause is lost after the save. *)
Definition lossy_exec : ExecutionStore SW := mkExecutionStore sample_create sample_load (fun x v w =>
  let '(r, w) := sample_save x v w in (if bool_decide (x_Status x = ExecutionPaused) then Err (ENew "timeout") else r, w)).
Definition lossy_child : Agent SW :=
  mkAgent sample_provider "be brief" (fun _ => {[ "count" := asking_tool ]}) None 5 0 false 4
    (Some sample_conv) None (Some lossy_exec) None false None (fun _ => "") [] [] [] (fun _ => [])
    None None (fun w => (Ok (repeat 7%N 16), w)) (fun _ => None) (fun _ _ w => (true, w)) (fun w => (sw_schedule w, w)).

(** When the answer to the save of the child's pause is lost, the interrupt is exposed with
    version 0; the clean-up compares it with the stored version, skips the record and reports
    success, and the paused execution stays in the store. *)
Lemma child_pause_left_behind :
  let '(out, w1) := Invoke lossy_child sample_child_cfg "how many?" sample_world in
  match rs_Interrupt out.1 with
  | Some i =>
      in_ExecutionVersion i = 0%N /\
      let '(cleanup, w2) := consumeChildExecution lossy_child i w1 in
      cleanup = None /\
      option_map (fun x => (x_Status x, bool_decide (x_Pause x = None))) (sw_exec w2 !! in_ExecutionID i) = Some (ExecutionPaused, false)
  | None => False
  end.
Proof. vm_compute. done. Qed.
