(* ===== verification/Ranking.v ===== *)
(** Ranking by similarity (agent/rag/rag.go and agent/memory/store.go): cosine similarity in IEEE binary64,
    the stable sort by descending score, and that it sorts when no score is NaN. *)
From Stdlib Require Import SpecFloat Sorted.
From S2P Require Import Prelude.

(** * Numbers

    float64 as the standard library specifies it: binary64, round to nearest even. *)
Abbreviation float := spec_float.
Definition f_zero : float := S754_zero false.
Definition f_add : float -> float -> float := SFadd 53 1024.
Definition f_mul : float -> float -> float := SFmul 53 1024.
Definition f_div : float -> float -> float := SFdiv 53 1024.
Definition f_sqrt : float -> float := SFsqrt 53 1024.
Definition f_gt (x y : float) : bool := SFltb y x.
Definition f_ge (x y : float) : bool := SFleb y x.
Definition f_is_zero (x : float) : bool := SFeqb x f_zero.
Definition f_is_nan (x : float) : bool := match x with S754_nan => true | _ => false end.

(* agent/rag/rag.go:320-325: sums of cosineSimilarity *)
Fixpoint cosine_sums (a b : list float) (dot normA normB : float) : float * float * float :=
  match a, b with
  | x :: a, y :: b => cosine_sums a b (f_add dot (f_mul x y)) (f_add normA (f_mul x x)) (f_add normB (f_mul y y))
  | _, _ => (dot, normA, normB)
  end.

(* agent/rag/rag.go: cosineSimilarity *)
Definition cosineSimilarity (a b : list float) : float :=
  if bool_decide (length a <> length b) then f_zero
  else
    let '(dot, normA, normB) := cosine_sums a b f_zero f_zero f_zero in
    let magA := f_sqrt normA in let magB := f_sqrt normB in
    if f_is_zero magA || f_is_zero magB then f_zero else f_div dot (f_mul magA magB).

(** * The order *)

(** The order of the numbers that are not NaN: by sign and infinity, then exponent, then mantissa. *)
Definition f_key (x : float) : Z * Z * Z :=
  match x with
  | S754_infinity true => (-2, 0, 0)
  | S754_finite true m e => (-1, - e, - Zpos m)
  | S754_zero _ | S754_nan => (0, 0, 0)
  | S754_finite false m e => (1, e, Zpos m)
  | S754_infinity false => (2, 0, 0)
  end%Z.
Definition key_lt (a b : Z * Z * Z) : Prop :=
  let '(a1, a2, a3) := a in let '(b1, b2, b3) := b in (a1 < b1 \/ (a1 = b1 /\ (a2 < b2 \/ (a2 = b2 /\ a3 < b3))))%Z.
Definition is_number (x : float) : Prop := x <> S754_nan.

Lemma f_gt_key x y : is_number x -> is_number y -> f_gt x y = true <-> key_lt (f_key y) (f_key x).
Proof.
  unfold is_number, f_gt, SFltb, SFcompare, key_lt. intros Hx Hy.
  destruct x as [[]|[]| |[] mx ex], y as [[]|[]| |[] my ey]; cbn -[Z.compare Pos.compare_cont]; try done; try (split; [done|lia]).
  all: try (split; [lia|done]).
  all: change (PosDef.Pos.compare_cont Eq my mx) with (my ?= mx)%positive;
    destruct (Z.compare_spec ey ex), (Pos.compare_spec my mx); cbn; split; (done || lia).
Qed.

(** Not being better is transitive and total. *)
Lemma f_gt_trans x y z : is_number x -> is_number y -> is_number z -> f_gt y x = false -> f_gt z y = false -> f_gt z x = false.
Proof.
  intros Hx Hy Hz H1 H2. destruct (f_gt z x) eqn:E; [|done]. apply f_gt_key in E; [|done..].
  assert (N1 : ~ key_lt (f_key x) (f_key y)) by (rewrite <- f_gt_key by done; by rewrite H1).
  assert (N2 : ~ key_lt (f_key y) (f_key z)) by (rewrite <- f_gt_key by done; by rewrite H2).
  unfold key_lt in *. destruct (f_key x) as [[? ?] ?], (f_key y) as [[? ?] ?], (f_key z) as [[? ?] ?]. lia.
Qed.
Lemma f_gt_asym x y : is_number x -> is_number y -> f_gt x y = true -> f_gt y x = false.
Proof.
  intros Hx Hy H1. destruct (f_gt y x) eqn:E; [|done]. apply f_gt_key in E; [|done..]. apply f_gt_key in H1; [|done..].
  unfold key_lt in *. destruct (f_key x) as [[? ?] ?], (f_key y) as [[? ?] ?]. lia.
Qed.

(** * The sort

    The insertion sort of sort.SliceStable, on the reversed sorted prefix: the new element moves left
    past the elements it is strictly better than.  Longer inputs are sorted in blocks and
    merged, with the same result whenever the comparison is consistent. *)
Section Sort.
Context {A : Type} (score : A -> float).

Fixpoint insert_by (x : A) (prefix : list A) : list A :=
  match prefix with
  | [] => [x]
  | y :: ys => if f_gt (score x) (score y) then y :: insert_by x ys else x :: y :: ys
  end.
Definition sort_by (xs : list A) : list A := rev (fold_left (fun acc x => insert_by x acc) xs []).

(** [a] may stand before [b]: [b] is not strictly better. *)
Definition not_worse (a b : A) : Prop := f_gt (score b) (score a) = false.
Definition numbered (d : A) : Prop := is_number (score d).

Lemma insert_by_perm x ys : insert_by x ys ≡ₚ x :: ys.
Proof. induction ys as [|y ys IH]; cbn; [done|]. destruct (f_gt _ _); [|done]. rewrite IH. by constructor. Qed.

(** The prefix is kept reversed, worst first. *)
Lemma insert_by_sorted x ys : numbered x -> Forall numbered ys -> StronglySorted (flip not_worse) ys ->
  StronglySorted (flip not_worse) (insert_by x ys).
Proof.
  intros Hx Hys. induction ys as [|y ys IH]; cbn; intros Hs; [by repeat constructor|].
  apply Forall_cons in Hys as [Hy Hys]. inversion Hs as [|? ? Hs' Hall]; subst. destruct (f_gt (score x) (score y)) eqn:E.
  - constructor; [by apply IH|]. rewrite insert_by_perm. constructor; [|done]. unfold flip, not_worse. by apply f_gt_asym.
  - constructor; [done|]. constructor; [done|]. apply Forall_forall. intros z Hz.
    unfold flip, not_worse. apply (f_gt_trans _ (score y)); try done.
    + by apply (proj1 (Forall_forall _ _) Hys).
    + exact (proj1 (Forall_forall _ _) Hall z Hz).
Qed.

(** Whatever the scores, sorting loses and invents nothing. *)
Lemma sort_by_perm xs : sort_by xs ≡ₚ xs.
Proof.
  unfold sort_by. rewrite <- Permutation_rev. transitivity (xs ++ []); [|by rewrite app_nil_r]. generalize (@nil A).
  induction xs as [|x xs IH]; intros acc; [done|]. cbn [fold_left]. rewrite IH, insert_by_perm. cbn. by rewrite Permutation_middle.
Qed.

Lemma sort_by_acc xs : forall acc, Forall numbered xs -> Forall numbered acc -> StronglySorted (flip not_worse) acc ->
  let r := fold_left (fun acc x => insert_by x acc) xs acc in StronglySorted (flip not_worse) r /\ r ≡ₚ xs ++ acc.
Proof.
  induction xs as [|x xs IH]; intros acc Hxs Hacc Hs; [done|]. apply Forall_cons in Hxs as [Hx Hxs]. cbn [fold_left].
  destruct (IH (insert_by x acc)) as [Hr Hp]; [done|rewrite insert_by_perm; by constructor|by apply insert_by_sorted|].
  split; [done|]. rewrite Hp, insert_by_perm. cbn. by rewrite Permutation_middle.
Qed.

Lemma StronglySorted_rev (R : relation A) xs : StronglySorted (flip R) xs -> StronglySorted R (rev xs).
Proof.
  induction xs as [|x xs IH]; cbn; intros Hs; [constructor|]. inversion Hs as [|? ? Hs' Hall]; subst.
  specialize (IH Hs'). clear Hs Hs'. assert (Hr : Forall (fun y => R y x) (rev xs)) by (by rewrite <- Permutation_rev).
  clear Hall. induction IH as [|y ys Hys IHy Hy]; cbn; [by repeat constructor|]. apply Forall_cons in Hr as [Hyx Hr].
  constructor; [by apply IHy|]. apply Forall_app. split; [done|]. by constructor.
Qed.

Lemma sort_by_spec xs : Forall numbered xs -> StronglySorted not_worse (sort_by xs) /\ sort_by xs ≡ₚ xs.
Proof.
  intros Hxs. destruct (sort_by_acc xs [] Hxs) as [Hs Hp]; [constructor|constructor|]. unfold sort_by. split; [by apply StronglySorted_rev|].
  rewrite <- Permutation_rev, Hp. by rewrite app_nil_r.
Qed.

End Sort.
