(* ===== verification/Chunks.v ===== *)
(** Runes and text splitting (agent/rag/rag.go, SplitText): the conversions between strings and
    runes as the language defines them, the chunking loop with its integers at their
    width, and what the chunks cover. *)
From Stdlib Require Import Ascii Lia ZifyBool ZifyN.
From S2P Require Import Prelude Errors.

(** * Runes *)

Definition RuneError : N := 65533.

Definition byte_of (c : ascii) : N := N_of_ascii c.
Definition between (lo b hi : N) : bool := (lo <=? b)%N && (b <=? hi)%N.
(** The allowed second byte after the first byte [b0] of a three- or four-byte rune. *)
Definition second_ok (b0 b1 : N) : bool :=
  if (b0 =? 224)%N then between 160 b1 191
  else if (b0 =? 237)%N then between 128 b1 159
  else if (b0 =? 240)%N then between 144 b1 191
  else if (b0 =? 244)%N then between 128 b1 143
  else between 128 b1 191.

(** The conversion []rune(s): a byte that starts no valid encoding becomes RuneError. *)
Fixpoint runes (s : string) : list N :=
  match s with
  | EmptyString => []
  | String c0 s1 =>
      let b0 := byte_of c0 in
      if (b0 <? 128)%N then b0 :: runes s1
      else if between 194 b0 223 then
        match s1 with
        | String c1 s2 =>
            if between 128 (byte_of c1) 191 then ((b0 - 192) * 64 + (byte_of c1 - 128))%N :: runes s2 else RuneError :: runes s1
        | EmptyString => RuneError :: runes s1
        end
      else if between 224 b0 239 then
        match s1 with
        | String c1 (String c2 s3) =>
            if second_ok b0 (byte_of c1) && between 128 (byte_of c2) 191
            then ((b0 - 224) * 4096 + (byte_of c1 - 128) * 64 + (byte_of c2 - 128))%N :: runes s3 else RuneError :: runes s1
        | _ => RuneError :: runes s1
        end
      else if between 240 b0 244 then
        match s1 with
        | String c1 (String c2 (String c3 s4)) =>
            if second_ok b0 (byte_of c1) && between 128 (byte_of c2) 191 && between 128 (byte_of c3) 191
            then ((b0 - 240) * 262144 + (byte_of c1 - 128) * 4096 + (byte_of c2 - 128) * 64 + (byte_of c3 - 128))%N :: runes s4
            else RuneError :: runes s1
        | _ => RuneError :: runes s1
        end
      else RuneError :: runes s1
  end.

(** A Unicode scalar value. *)
Definition scalar (r : N) : bool := (r <? 55296)%N || between 57344 r 1114111.

Definition chr (b : N) : ascii := ascii_of_N b.
Definition encode_rune (r : N) : string :=
  let r := if scalar r then r else RuneError in
  if (r <? 128)%N then String (chr r) ""
  else if (r <? 2048)%N then String (chr (192 + r / 64)) (String (chr (128 + r mod 64)) "")
  else if (r <? 65536)%N then
    String (chr (224 + r / 4096)) (String (chr (128 + r / 64 mod 64)) (String (chr (128 + r mod 64)) ""))
  else String (chr (240 + r / 262144)) (String (chr (128 + r / 4096 mod 64)) (String (chr (128 + r / 64 mod 64))
    (String (chr (128 + r mod 64)) ""))).

(** The conversion string(rs). *)
Fixpoint string_of (rs : list N) : string :=
  match rs with [] => "" | r :: rs => encode_rune r +:+ string_of rs end.

(** * SplitText *)

(** [runes[i:end]]: out of range it panics. *)
Definition rune_slice (rs : list N) (i j : Z) : option (list N) :=
  if bool_decide (0 <= i <= j /\ j <= Z.of_nat (length rs))%Z
  then Some (take (Z.to_nat (j - i)) (drop (Z.to_nat i) rs)) else None.

(** [None] is a panic; the fuel is the number of runes, since every round advances. *)
(* agent/rag/rag.go:170-176: loop of SplitText *)
Fixpoint split_loop (fuel : nat) (rs : list N) (chunkSize step i : Z) : option (list string) :=
  let n := Z.of_nat (length rs) in
  if bool_decide (i < n)%Z then
    match fuel with
    | O => None
    | S fuel =>
        let end_ := i64 (i + chunkSize) in
        let end_ := if bool_decide (end_ > n)%Z then n else end_ in
        chunk ← rune_slice rs i end_;
        rest ← split_loop fuel rs chunkSize step (i64 (i + step));
        Some (string_of chunk :: rest)
    end
  else Some [].

(* agent/rag/rag.go: SplitText *)
Definition SplitText (text : string) (chunkSize overlap : Z) : option (res (list string)) :=
  if bool_decide (chunkSize < 1)%Z then Some (Err (ENew "splittext: chunkSize must be >= 1"))
  else if bool_decide (overlap < 0)%Z then Some (Err (ENew "splittext: overlap must be >= 0"))
  else if bool_decide (overlap >= chunkSize)%Z then Some (Err (ENew "splittext: overlap must be < chunkSize"))
  else
    let rs := runes text in
    if is_nil rs then Some (Ok [])
    else
      (** make with a negative capacity panics. *)
      let capacity := Z.quot (i64 (i64 (Z.of_nat (length rs) + chunkSize) - 1)) chunkSize in
      if bool_decide (capacity < 0)%Z then None
      else Ok <$> split_loop (length rs) rs chunkSize (i64 (chunkSize - overlap)) 0.

(** * Decoding what was encoded *)

Lemma byte_chr b : (b < 256)%N -> byte_of (chr b) = b.
Proof. apply N_ascii_embedding. Qed.

#[local] Ltac Zify.zify_post_hook ::= Z.to_euclidean_division_equations.

Lemma second_ok_3 r : (2048 <= r < 55296 \/ 57344 <= r < 65536)%N -> second_ok (224 + r / 4096) (128 + r / 64 mod 64) = true.
Proof. intros Hr. unfold second_ok, between. repeat case_match; lia. Qed.
Lemma second_ok_4 r : (65536 <= r <= 1114111)%N -> second_ok (240 + r / 262144) (128 + r / 4096 mod 64) = true.
Proof. intros Hr. unfold second_ok, between. repeat case_match; lia. Qed.

(** Evaluate the decoder on encoded bytes: every test is decided by the range of the rune. *)
Ltac decode_bytes :=
  cbn [String.append runes]; unfold between;
  repeat match goal with
  | |- context [byte_of (chr ?b)] => rewrite (byte_chr b) by lia
  end;
  rewrite ?second_ok_3, ?second_ok_4 by lia;
  repeat match goal with
  | |- context [if ?b then _ else _] => let E := fresh "E" in destruct b eqn:E; try (exfalso; lia)
  end;
  f_equal; lia.

Lemma runes_encode1 r s : (r < 128)%N -> runes (String (chr r) s) = r :: runes s.
Proof. intros Hr. decode_bytes. Qed.
Lemma runes_encode2 r s : (128 <= r < 2048)%N ->
  runes (String (chr (192 + r / 64)) (String (chr (128 + r mod 64)) s)) = r :: runes s.
Proof. intros Hr. decode_bytes. Qed.
Lemma runes_encode3 r s : (2048 <= r < 55296 \/ 57344 <= r < 65536)%N ->
  runes (String (chr (224 + r / 4096)) (String (chr (128 + r / 64 mod 64)) (String (chr (128 + r mod 64)) s))) = r :: runes s.
Proof. intros Hr. decode_bytes. Qed.
Lemma runes_encode4 r s : (65536 <= r <= 1114111)%N ->
  runes (String (chr (240 + r / 262144)) (String (chr (128 + r / 4096 mod 64)) (String (chr (128 + r / 64 mod 64))
    (String (chr (128 + r mod 64)) s)))) = r :: runes s.
Proof. intros Hr. decode_bytes. Qed.

Lemma runes_encode r s : scalar r = true -> runes (encode_rune r +:+ s) = r :: runes s.
Proof.
  intros Hs. unfold encode_rune. rewrite Hs. unfold scalar, between in Hs.
  destruct (r <? 128)%N eqn:E1; [|destruct (r <? 2048)%N eqn:E2; [|destruct (r <? 65536)%N eqn:E3]]; cbn [String.append].
  - apply runes_encode1. lia.
  - apply runes_encode2. lia.
  - apply runes_encode3. lia.
  - apply runes_encode4. lia.
Qed.

Lemma runes_string_of rs : Forall (fun r => scalar r = true) rs -> runes (string_of rs) = rs.
Proof. induction 1 as [|r rs Hr _ IH]; [done|]. cbn [string_of]. by rewrite runes_encode, IH. Qed.

Lemma scalar2 b0 b1 : between 194 b0 223 = true -> between 128 b1 191 = true -> scalar ((b0 - 192) * 64 + (b1 - 128)) = true.
Proof. unfold scalar, between. lia. Qed.
Lemma scalar3 b0 b1 b2 : between 224 b0 239 = true -> second_ok b0 b1 = true -> between 128 b2 191 = true ->
  scalar ((b0 - 224) * 4096 + (b1 - 128) * 64 + (b2 - 128)) = true.
Proof. unfold scalar, second_ok, between. intros H0 H1 H2. repeat case_match; lia. Qed.
Lemma scalar4 b0 b1 b2 b3 : between 240 b0 244 = true -> second_ok b0 b1 = true -> between 128 b2 191 = true -> between 128 b3 191 = true ->
  scalar ((b0 - 240) * 262144 + (b1 - 128) * 4096 + (b2 - 128) * 64 + (b3 - 128)) = true.
Proof. unfold scalar, second_ok, between. intros H0 H1 H2 H3. repeat case_match; lia. Qed.
Lemma scalar1 b : (b <? 128)%N = true -> scalar b = true.
Proof. unfold scalar. lia. Qed.

(** Whatever the bytes, decoding gives scalar values. *)
Lemma runes_scalar s : Forall (fun r => scalar r = true) (runes s).
Proof.
  assert (Hn : forall n s, (String.length s <= n)%nat -> Forall (fun r => scalar r = true) (runes s)); [|by eapply Hn].
  clear s. induction n as [|n IH]; intros [|c0 s] Hl; cbn [String.length] in Hl; [constructor|lia|constructor|].
  assert (He : Forall (fun r => scalar r = true) (RuneError :: runes s)) by (constructor; [done|apply IH; lia]).
  cbn [runes]. destruct (_ <? _)%N eqn:E0; [constructor; [by apply scalar1|apply IH; lia]|]. clear E0.
  destruct (between 194 _ _) eqn:E1; [|destruct (between 224 _ _) eqn:E2; [|destruct (between 240 _ _) eqn:E3; [|done]]].
  - destruct s as [|c1 s]; [done|]. destruct (between 128 _ _) eqn:B1; [|done]. constructor; [by apply scalar2|apply IH; cbn in Hl; lia].
  - destruct s as [|c1 [|c2 s]]; [done..|]. destruct (second_ok _ _) eqn:B1; [|done]. destruct (between 128 _ _) eqn:B2; [|done].
    constructor; [by apply scalar3|apply IH; cbn in Hl; lia].
  - destruct s as [|c1 [|c2 [|c3 s]]]; [done..|]. destruct (second_ok _ _) eqn:B1; [|done].
    destruct (between 128 (byte_of c2) _) eqn:B2; [|done]. destruct (between 128 (byte_of c3) _) eqn:B3; [|done].
    constructor; [by apply scalar4|apply IH; cbn in Hl; lia].
Qed.

(** * What the chunks cover *)

(** The reference: a window of [size] runes every [step] runes. *)
Fixpoint pieces (fuel size step : nat) (rs : list N) : list (list N) :=
  match fuel, rs with
  | S fuel, _ :: _ => take size rs :: pieces fuel size step (drop step rs)
  | _, _ => []
  end.

Section Pieces.
Context (size step : nat).
Hypotheses (step_pos : (1 <= step)%nat) (step_le : (step <= size)%nat).

Lemma pieces_concat fuel : forall rs, (length rs <= fuel)%nat -> concat (map (take step) (pieces fuel size step rs)) = rs.
Proof.
  induction fuel as [|fuel IH]; intros [|r rs] Hl; cbn [length] in Hl; [done|lia|done|]. cbn [pieces map concat].
  rewrite take_take, Nat.min_l, IH by (rewrite ?length_drop; cbn; lia). apply take_drop.
Qed.

Lemma pieces_bounds fuel : forall rs, Forall (fun p => (1 <= length p <= size)%nat) (pieces fuel size step rs).
Proof.
  induction fuel as [|fuel IH]; intros [|r rs]; [constructor..|]. constructor; [|apply IH]. rewrite length_take. cbn. lia.
Qed.

Lemma pieces_overlap fuel : forall rs k p p', pieces fuel size step rs !! k = Some p -> pieces fuel size step rs !! S k = Some p' ->
  drop step p `prefix_of` p'.
Proof.
  induction fuel as [|fuel IH]; intros [|r rs] k p p'; [done..|]. cbn [pieces]. destruct k as [|k]; cbn [lookup list_lookup]; [|apply IH].
  intros [= <-] Hp. destruct fuel as [|fuel]; [done|]. destruct (drop step (r :: rs)) as [|r' rs'] eqn:E; [done|]. injection Hp as <-.
  assert (Hd : drop step (take size (r :: rs)) = take (size - step) (r' :: rs')).
  { rewrite <- E, take_drop_commute. by replace (step + (size - step))%nat with size by lia. }
  rewrite Hd. exists (drop (size - step) (take size (r' :: rs'))).
  transitivity (take (size - step) (take size (r' :: rs')) ++ drop (size - step) (take size (r' :: rs'))); [by rewrite take_drop|].
  by rewrite take_take, Nat.min_l by lia.
Qed.

Lemma pieces_Forall (P : N -> Prop) fuel : forall rs, Forall P rs -> Forall (Forall P) (pieces fuel size step rs).
Proof.
  induction fuel as [|fuel IH]; intros [|r rs] Hp; [constructor..|].
  constructor; [by apply Forall_take|by apply IH, Forall_drop].
Qed.
End Pieces.

Lemma split_loop_pieces size step rs : (1 <= step <= size)%nat -> (Z.of_nat (length rs) + Z.of_nat size < 9223372036854775808)%Z ->
  forall fuel i, (length rs - i <= fuel)%nat -> (i <= length rs + step)%nat ->
  split_loop fuel rs (Z.of_nat size) (Z.of_nat step) (Z.of_nat i) = Some (map string_of (pieces fuel size step (drop i rs))).
Proof.
  intros Hstep Hsmall. induction fuel as [|fuel IH]; intros i Hf Hi; cbn [split_loop].
  - rewrite bool_decide_false by lia. rewrite drop_ge by lia. done.
  - destruct (decide (i < length rs)%nat) as [Hlt|Hge].
    + rewrite bool_decide_true by lia. rewrite !i64_small by lia.
      set (e := if bool_decide _ then _ else _). assert (He : e = Z.of_nat (Nat.min (i + size) (length rs))) by (unfold e; case_bool_decide; lia).
      rewrite He. clear e He. unfold rune_slice. rewrite bool_decide_true by lia. cbn [mbind option_bind].
      replace (Z.of_nat i + Z.of_nat step)%Z with (Z.of_nat (i + step)) by lia. rewrite IH by lia. cbn [mbind option_bind].
      rewrite Nat2Z.id. destruct (drop i rs) as [|r rest] eqn:Hd; [apply (f_equal length) in Hd; rewrite length_drop in Hd; cbn in Hd; lia|].
      cbn [pieces map]. rewrite <- Hd, drop_drop. do 3 f_equal.
      assert (Hlen : length (drop i rs) = (length rs - i)%nat) by apply length_drop.
      destruct (decide (i + size <= length rs)%nat) as [Hle|Hgt].
      * f_equal. lia.
      * rewrite !take_ge by lia. done.
    + rewrite bool_decide_false by lia. rewrite drop_ge by lia. done.
Qed.

(** SplitText covers the text: with valid sizes that do not overflow, every call returns chunks
    of one to [chunkSize] runes such that the first [chunkSize - overlap] runes of the
    chunks, put together, are the text's runes, and what a chunk has beyond them starts the next chunk. *)
Theorem SplitText_covers text (chunkSize overlap : nat) :
  (overlap < chunkSize)%nat -> (Z.of_nat (length (runes text)) + Z.of_nat chunkSize < 9223372036854775808)%Z ->
  exists chunks, SplitText text (Z.of_nat chunkSize) (Z.of_nat overlap) = Some (Ok chunks) /\
    concat (map (fun c => take (chunkSize - overlap) (runes c)) chunks) = runes text /\
    Forall (fun c => (1 <= length (runes c) <= chunkSize)%nat) chunks /\
    forall k c c', chunks !! k = Some c -> chunks !! S k = Some c' -> drop (chunkSize - overlap) (runes c) `prefix_of` runes c'.
Proof.
  intros Ho Hsmall. set (rs := runes text) in *. set (ps := pieces (length rs) chunkSize (chunkSize - overlap) rs).
  exists (map string_of ps).
  assert (Hps : map runes (map string_of ps) = ps).
  { rewrite map_map. transitivity (map id ps); [|apply map_id]. apply map_ext_in. intros p Hp%list_elem_of_In.
    apply runes_string_of. exact (proj1 (Forall_forall _ _) (pieces_Forall _ _ _ _ rs (runes_scalar text)) p Hp). }
  split; [|split_and!].
  - unfold SplitText. rewrite !bool_decide_false by lia. cbv zeta. fold rs. unfold ps. destruct rs as [|r rs'] eqn:Hrs; [done|]. cbn [is_nil].
    rewrite <- Hrs in *. rewrite bool_decide_false.
    + rewrite i64_small by lia. replace (Z.of_nat chunkSize - Z.of_nat overlap)%Z with (Z.of_nat (chunkSize - overlap)) by lia.
      pose proof (split_loop_pieces chunkSize (chunkSize - overlap) rs ltac:(lia) Hsmall (length rs) 0 ltac:(lia) ltac:(lia)) as Hl.
      change (Z.of_nat 0) with 0%Z in Hl. by rewrite Hl.
    + rewrite (i64_small (Z.of_nat (length rs) + _)), i64_small by lia. assert (0 <= Z.quot (Z.of_nat (length rs) + Z.of_nat chunkSize - 1) (Z.of_nat chunkSize))%Z; [|lia].
      apply Z.quot_pos; lia.
  - rewrite <- (map_map runes), Hps. by apply pieces_concat; lia.
  - pose proof (pieces_bounds chunkSize (chunkSize - overlap) ltac:(lia) ltac:(lia) (length rs) rs) as Hb. fold ps in Hb.
    by rewrite <- Hps, Forall_map in Hb.
  - intros k c c' Hc Hc'. apply (pieces_overlap chunkSize (chunkSize - overlap) ltac:(lia) ltac:(lia) (length rs) rs k); fold ps; rewrite <- Hps, list_lookup_fmap.
    + by rewrite Hc.
    + by rewrite Hc'.
Qed.

Lemma SplitText_covers_witness :
  SplitText "héllo wörld" 4 1 = Some (Ok ["héll"; "lo w"; "wörl"; "ld"]) /\
  exists chunks, SplitText "héllo wörld" 4 1 = Some (Ok chunks) /\ concat (map (fun c => take 3 (runes c)) chunks) = runes "héllo wörld".
Proof.
  split; [vm_compute; reflexivity|].
  destruct (SplitText_covers "héllo wörld" 4 1 ltac:(lia) ltac:(vm_compute; reflexivity)) as (chunks & Hs & Hc & _). by exists chunks.
Defined.

(** Valid sizes can still panic: with the largest int as chunk size and one less as overlap,
    which the checks accept, every text of at least two runes makes SplitText panic, in the capacity
    of make or in a slice whose end has wrapped around. *)
Theorem SplitText_overflow_panics text :
  (2 <= length (runes text))%nat -> (Z.of_nat (length (runes text)) < 4611686018427387904)%Z ->
  SplitText text 9223372036854775807 9223372036854775806 = None.
Proof.
  intros Hl Hs. unfold SplitText. rewrite !bool_decide_false by lia. cbv zeta. set (rs := runes text) in *. clearbody rs.
  destruct (is_nil rs) eqn:Hn; [apply is_nil_true in Hn; subst; cbn in Hl; lia|]. case_bool_decide as Hc; [done|].
  destruct rs as [|r0 [|r1 rs]]; [cbn in Hl; lia|cbn in Hl; lia|]. set (n := Z.of_nat (length (r0 :: r1 :: rs))) in *.
  change (length (r0 :: r1 :: rs)) with (S (S (length rs))). change (i64 (9223372036854775807 - 9223372036854775806)) with 1%Z.
  cbn [split_loop]. fold n. rewrite (bool_decide_true (0 < n)%Z) by lia. change (i64 (0 + 9223372036854775807)) with 9223372036854775807%Z.
  rewrite (bool_decide_true (9223372036854775807 > n)%Z) by lia. change (i64 (0 + 1)) with 1%Z.
  rewrite (bool_decide_true (1 < n)%Z) by lia. change (i64 (1 + 9223372036854775807)) with (-9223372036854775808)%Z.
  rewrite (bool_decide_false (-9223372036854775808 > n)%Z) by lia.
  assert (Hsl : rune_slice (r0 :: r1 :: rs) 1 (-9223372036854775808) = None) by (unfold rune_slice; by rewrite bool_decide_false by lia).
  rewrite Hsl. cbn [mbind option_bind].
  destruct (rune_slice (r0 :: r1 :: rs) 0 n); reflexivity.
Qed.

Lemma SplitText_overflow_panics_witness : SplitText "abcdef" 9223372036854775807 9223372036854775806 = None.
Proof. apply SplitText_overflow_panics; vm_compute; [lia|reflexivity]. Defined.
