(* ===== verification/Retrieval.v ===== *)
(** Retrieval (agent/rag/rag.go): the in-process vector store with its cosine ranking in IEEE
    binary64, the retriever over a store, the retriever tool and ingestion. *)
From stdpp Require Import pretty.
From S2P Require Import Prelude Errors Messages Execution Schema Tool Ranking Chunks.

(** * Documents and stores *)

(* agent/rag/rag.go:18-22: Document *)
Record Document := mkDocument { doc_ID : string; doc_Content : string; doc_Metadata : gmap string string }.
#[global] Instance eta_Document : Settable Document := fun d => mkDocument (doc_ID d) (doc_Content d) (doc_Metadata d).

(* agent/rag/rag.go:25-28: ScoredDocument *)
Record ScoredDocument := mkScored { sd_Document : Document; sd_Score : float }.

(* agent/rag/rag.go:180-184: storeEntry *)
Record storeEntry := mkEntry { e_id : string; e_doc : Document; e_embedding : list float }.

(* agent/rag/rag.go:187-191: MemoryStore *)
Record MemoryStore := mkMemory { ms_entries : list storeEntry; ms_nextID : Z }.

(* agent/rag/rag.go: NewMemoryStore *)
Definition NewMemoryStore : MemoryStore := mkMemory [] 0.

(** Replace the first entry of the ID, or append. *)
(* agent/rag/rag.go:214-224: placement of MemoryStore.Upsert *)
Fixpoint place (e : storeEntry) (entries : list storeEntry) : list storeEntry :=
  match entries with
  | [] => [e]
  | x :: entries => if bool_decide (e_id x = e_id e) then e :: entries else x :: place e entries
  end.

(* agent/rag/rag.go:206-225: round of MemoryStore.Upsert *)
Definition upsert_one (s : MemoryStore) (doc : Document) (embedding : list float) : string * MemoryStore :=
  let '(id, next) := if bool_decide (doc_ID doc = "")
    then let n := i64 (ms_nextID s + 1) in (pretty n, n) else (doc_ID doc, ms_nextID s) in
  (id, mkMemory (place (mkEntry id (doc <| doc_ID := id |>) embedding) (ms_entries s)) next).

Fixpoint upsert_all (s : MemoryStore) (docs : list (Document * list float)) : list string * MemoryStore :=
  match docs with
  | [] => ([], s)
  | (doc, embedding) :: docs =>
      let '(id, s) := upsert_one s doc embedding in
      let '(ids, s) := upsert_all s docs in (id :: ids, s)
  end.

(* agent/rag/rag.go: MemoryStore.Upsert *)
Definition Upsert (docs : list Document) (embeddings : list (list float)) (s : MemoryStore) : res (list string) * MemoryStore :=
  if bool_decide (length docs <> length embeddings) then (Err (ENew "vectorstore: docs and embeddings length mismatch"), s)
  else let '(ids, s) := upsert_all s (zip docs embeddings) in (Ok ids, s).

(* agent/rag/rag.go:237-240: scores of MemoryStore.Search *)
Definition score_entries (q : list float) (entries : list storeEntry) : list ScoredDocument :=
  map (fun e => mkScored (e_doc e) (cosineSimilarity q (e_embedding e))) entries.

(* agent/rag/rag.go: MemoryStore.Search *)
Definition Search (queryEmbedding : list float) (topK : Z) (s : MemoryStore) : res (list ScoredDocument) :=
  if bool_decide (topK < 1)%Z then Err (ENew "vectorstore: topK must be >= 1")
  else Ok (take (Z.to_nat topK) (sort_by sd_Score (score_entries queryEmbedding (ms_entries s)))).

(* agent/rag/rag.go: MemoryStore.Find *)
Definition Find (ids : list string) (s : MemoryStore) : list Document :=
  let byID := fold_left (fun m e => <[e_id e := e_doc e]> m) (ms_entries s) (∅ : gmap string Document) in
  omap (fun id => byID !! id) ids.

(* agent/rag/rag.go: metadataMatchesFilter *)
Definition metadataMatchesFilter (metadata filter : gmap string string) : bool :=
  forallb (fun kv => bool_decide (default "" (metadata !! kv.1) = kv.2)) (map_to_list filter).

(* agent/rag/rag.go: MemoryStore.DeleteByMetadata *)
Definition DeleteByMetadata (filter : gmap string string) (s : MemoryStore) : res unit * MemoryStore :=
  if bool_decide (filter = ∅) then (Err (ENew "vectorstore: filter must not be empty"), s)
  else (Ok tt, mkMemory (List.filter (fun e => negb (metadataMatchesFilter (doc_Metadata (e_doc e)) filter)) (ms_entries s)) (ms_nextID s)).

(* agent/rag/rag.go: MemoryStore.Delete *)
Definition Delete (ids : list string) (s : MemoryStore) : MemoryStore :=
  mkMemory (List.filter (fun e => negb (bool_decide (e_id e ∈ ids))) (ms_entries s)) (ms_nextID s).

(** * Formatting *)

(* agent/rag/rag.go:96-107: DefaultContextFormatter *)
Definition DefaultContextFormatter (docs : list Document) : string :=
  if is_nil docs then ""
  else "<retrieved_context>" +:+ newline +:+
    (fix go (i : N) docs := match docs with
     | [] => ""
     | d :: docs => "[" +:+ pretty i +:+ "] " +:+ doc_Content d +:+ newline +:+ go (i + 1)%N docs
     end) 1%N docs +:+ "</retrieved_context>".

(** * Retrieving and ingesting *)

Section Retrieval.
Context {W : Type}.

(* agent/rag/rag.go:36-47: Store *)
Record VectorStore := mkVectorStore {
  vs_Upsert : list Document -> list (list float) -> W -> res (list string) * W;
  vs_Search : list float -> Z -> W -> res (list ScoredDocument) * W;
  vs_Delete : list string -> W -> res unit * W;
  (** DeleteByMetadata, when the store is a Manager. *)
  vs_DeleteByMetadata : option (gmap string string -> W -> res unit * W) }.

Definition EmbedFn : Type := string -> W -> res (list float) * W.

(* agent/rag/rag.go:336-342: storeRetriever *)
Record storeRetriever := mkRetriever {
  sr_embedder : EmbedFn; sr_store : VectorStore; sr_maxResults : Z; sr_scoreThreshold : float;
  sr_reranker : option (string -> list Document -> W -> res (list Document) * W) }.
#[global] Instance eta_storeRetriever : Settable storeRetriever := fun r =>
  mkRetriever (sr_embedder r) (sr_store r) (sr_maxResults r) (sr_scoreThreshold r) (sr_reranker r).

(* agent/rag/rag.go: WithMaxResults *)
Definition WithMaxResults (n : Z) (r : storeRetriever) : storeRetriever := r <| sr_maxResults := n |>.
(* agent/rag/rag.go: WithScoreThreshold *)
Definition WithScoreThreshold (threshold : float) (r : storeRetriever) : storeRetriever := r <| sr_scoreThreshold := threshold |>.
(* agent/rag/rag.go: WithReranker *)
Definition WithReranker (reranker : string -> list Document -> W -> res (list Document) * W) (r : storeRetriever) : storeRetriever :=
  r <| sr_reranker := Some reranker |>.

(* agent/rag/rag.go: NewRetriever *)
Definition NewRetriever (embedder : EmbedFn) (store : VectorStore) (opts : list (storeRetriever -> storeRetriever)) : storeRetriever :=
  fold_left (fun r opt => opt r) opts (mkRetriever embedder store 4 f_zero None).

(* agent/rag/rag.go: storeRetriever.Retrieve *)
Definition Retrieve (r : storeRetriever) (query : string) (w : W) : res (list Document) * W :=
  if bool_decide (query = "") then (Err (ENew "retrieve: query must not be empty"), w)
  else
    let '(embedding, w) := sr_embedder r query w in
    match embedding with
    | Err e => (Err e, w)
    | Ok embedding =>
        let '(scored, w) := vs_Search (sr_store r) embedding (sr_maxResults r) w in
        match scored with
        | Err e => (Err e, w)
        | Ok scored =>
            let docs := map sd_Document (List.filter (fun d => f_ge (sd_Score d) (sr_scoreThreshold r)) scored) in
            match sr_reranker r with
            | None => (Ok docs, w)
            | Some rerank =>
                let '(docs, w) := rerank query docs w in
                (match docs with Ok docs => Ok docs | Err e => Err (EWrap "reranker" e) end, w)
            end
        end
    end.

(** [unmarshal_query] decodes the raw input into a struct with a string field "query". *)
(* agent/rag/rag.go: NewRetrieverTool *)
Definition NewRetrieverTool (name description : string) (retrieve : string -> W -> res (list Document) * W)
  (formatter : option (list Document -> string)) (unmarshal_query : RawMessage -> res string) : Tool W :=
  mkTool (mkSpec name description (Some (AObj
    [("type", AStr "object"); ("properties", AObj [("query", AObj [("type", AStr "string")])]); ("required", AArr [AStr "query"])])))
    (Some (fun _ input w =>
      match unmarshal_query input with
      | Err e => (([], Err e), w)
      | Ok query =>
          let '(docs, w) := retrieve query w in
          (([], match docs with
           | Err e => Err e
           | Ok docs => if is_nil docs then Ok "No relevant documents found."
                        else Ok (default DefaultContextFormatter formatter docs)
           end), w)
      end)) None None false false None.

(** ** Ingestion *)

(* agent/rag/rag.go:401-405: ingestConfig *)
Record ingestConfig := mkIngest { ic_chunkSize : Z; ic_chunkOverlap : Z; ic_concurrency : Z }.
(* agent/rag/rag.go: WithChunkSize *)
Definition WithChunkSize (n : Z) (c : ingestConfig) : ingestConfig := mkIngest n (ic_chunkOverlap c) (ic_concurrency c).
(* agent/rag/rag.go: WithChunkOverlap *)
Definition WithChunkOverlap (n : Z) (c : ingestConfig) : ingestConfig := mkIngest (ic_chunkSize c) n (ic_concurrency c).
(* agent/rag/rag.go: WithConcurrency *)
Definition WithConcurrency (n : Z) (c : ingestConfig) : ingestConfig :=
  mkIngest (ic_chunkSize c) (ic_chunkOverlap c) (if bool_decide (n < 1)%Z then 1%Z else n).

(* agent/rag/rag.go:445-451: metadata of a chunk in Ingest *)
Definition chunk_doc (sourceMetadata : gmap string string) (sourceIndex chunkIndex : nat) (part : string) : Document :=
  mkDocument "" part (<["chunk_index" := pretty (N.of_nat chunkIndex)]> (<["source_index" := pretty (N.of_nat sourceIndex)]> sourceMetadata)).

(** [None] is a panic of SplitText. *)
(* agent/rag/rag.go:434-453: chunks of Ingest *)
Fixpoint ingest_chunks (cfg : ingestConfig) (sourceIndex : nat) (texts : list string) (metadata : list (gmap string string)) :
  option (res (list Document)) :=
  match texts with
  | [] => Some (Ok [])
  | text :: texts =>
      parts ← SplitText text (ic_chunkSize cfg) (ic_chunkOverlap cfg);
      match parts with
      | Err e => Some (Err (EWrap "ingest: split text" e))
      | Ok parts =>
          rest ← ingest_chunks cfg (S sourceIndex) texts metadata;
          Some (match rest with
                | Err e => Err e
                | Ok rest => Ok (imap (chunk_doc (default ∅ (metadata !! sourceIndex)) sourceIndex) parts ++ rest)
                end)
      end
  end.

(* agent/rag/rag.go:461-467: sequential embedding of Ingest *)
Fixpoint embed_sequential (embed : EmbedFn) (chunks : list Document) (w : W) : res (list (list float)) * W :=
  match chunks with
  | [] => (Ok [], w)
  | d :: chunks =>
      let '(r, w) := embed (doc_Content d) w in
      match r with
      | Err e => (Err (EWrap "ingest: embed chunk" e), w)
      | Ok v => let '(rest, w) := embed_sequential embed chunks w in
                (match rest with Ok vs => Ok (v :: vs) | Err e => Err e end, w)
      end
  end.

(** One goroutine: the context is checked, then the chunk is embedded. *)
(* agent/rag/rag.go:475-489: goroutine of Ingest *)
Definition embed_task (ctxErr : W -> option error) (embed : EmbedFn) (chunk : Document) (w : W) : res (list float) * W :=
  match ctxErr w with
  | Some e => (Err e, w)
  | None => let '(r, w) := embed (doc_Content chunk) w in
            (match r with Ok v => Ok v | Err e => Err (EWrap "ingest: embed chunk" e) end, w)
  end.

(** The goroutines take the semaphore in an arbitrary [order]; each writes its own slot.  Every goroutine
    runs, those of earlier failures included. *)
Fixpoint embed_tasks (ctxErr : W -> option error) (embed : EmbedFn) (chunks : list Document) (order : list nat)
  (slots : list (option (res (list float)))) (w : W) : list (option (res (list float))) * W :=
  match order with
  | [] => (slots, w)
  | i :: order =>
      match chunks !! i with
      | None => embed_tasks ctxErr embed chunks order slots w
      | Some c => let '(r, w) := embed_task ctxErr embed c w in
                  embed_tasks ctxErr embed chunks order (<[i := Some r]> slots) w
      end
  end.

(** The first error in input order, or all vectors. *)
(* agent/rag/rag.go:492-496: errors of Ingest *)
Fixpoint collect_slots (slots : list (option (res (list float)))) : res (list (list float)) :=
  match slots with
  | [] => Ok []
  | Some (Err e) :: _ => Err e
  | s :: slots => match collect_slots slots with
                  | Err e => Err e
                  | Ok vs => Ok (match s with Some (Ok v) => v | _ => [] end :: vs)
                  end
  end.

(* agent/rag/rag.go:460-497: embedding of Ingest *)
Definition embed_chunks (cfg : ingestConfig) (ctxErr : W -> option error) (embed : EmbedFn) (order : list nat)
  (chunks : list Document) (w : W) : res (list (list float)) * W :=
  if bool_decide (ic_concurrency cfg <= 1)%Z then embed_sequential embed chunks w
  else let '(slots, w) := embed_tasks ctxErr embed chunks order (replicate (length chunks) None) w in (collect_slots slots, w).

(** The set of sources is visited in an arbitrary order. *)
(* agent/rag/rag.go:500-505: sources of Ingest *)
Definition ingest_sources (metadata : list (gmap string string)) : gset string :=
  list_to_set (List.filter (fun s => negb (bool_decide (s = ""))) (map (fun m => default "" (m !! "source")) metadata)).

(* agent/rag/rag.go:506-510: deletions of Ingest *)
Fixpoint delete_sources (del : gmap string string -> W -> res unit * W) (sources : list string) (w : W) : res unit * W :=
  match sources with
  | [] => (Ok tt, w)
  | s :: sources => let '(r, w) := del {[ "source" := s ]} w in
                    match r with Err e => (Err (EWrap "ingest: delete old chunks" e), w) | Ok _ => delete_sources del sources w end
  end.

(** [order] is the order in which the goroutines run, [sources] the order of the range over the set. *)
(* agent/rag/rag.go: Ingest *)
Definition Ingest (ctxErr : W -> option error) (store : VectorStore) (embed : EmbedFn) (texts : list string)
  (metadata : list (gmap string string)) (opts : list (ingestConfig -> ingestConfig)) (order : list nat) (sources : list string) (w : W) :
  option (res unit * W) :=
  let cfg := fold_left (fun c opt => opt c) opts (mkIngest 512 64 1) in
  chunks ← ingest_chunks cfg 0 texts metadata;
  Some match chunks with
  | Err e => (Err e, w)
  | Ok chunks =>
      if is_nil chunks then (Ok tt, w)
      else
        let '(embeddings, w) := embed_chunks cfg ctxErr embed order chunks w in
        match embeddings with
        | Err e => (Err e, w)
        | Ok embeddings =>
            let '(deleted, w) := match vs_DeleteByMetadata store with
              | Some del => delete_sources del sources w | None => (Ok tt, w) end in
            match deleted with
            | Err e => (Err e, w)
            | Ok _ => let '(r, w) := vs_Upsert store chunks embeddings w in
                      (match r with Err e => Err (EWrap "ingest: store.Upsert" e) | Ok _ => Ok tt end, w)
            end
        end
  end.

End Retrieval.
Arguments VectorStore W : clear implicits.
Arguments EmbedFn W : clear implicits.

(** The in-process store behind the interface. *)
Definition memory_vector_store : VectorStore MemoryStore :=
  mkVectorStore Upsert (fun q k s => (Search q k s, s)) (fun ids s => (Ok tt, Delete ids s)) (Some DeleteByMetadata).
