(* ===== verification/RetrievalProps.v ===== *)
(** The in-process vector store as a map and as a ranking: every operation against its
    specification, and what ingestion replaces. *)
From Stdlib Require Import SpecFloat Sorted.
From stdpp Require Import pretty.
From S2P Require Import Prelude Errors Messages Execution Schema Tool Ranking Chunks Retrieval.

(** * The store is a map from IDs *)

Abbreviation slot := (Document * list float)%type.

Definition entry_slot (e : storeEntry) : slot := (e_doc e, e_embedding e).

(** What the store holds under an ID. *)
Fixpoint held (entries : list storeEntry) (id : string) : option slot :=
  match entries with
  | [] => None
  | e :: entries => if bool_decide (e_id e = id) then Some (entry_slot e) else held entries id
  end.

(** IDs are distinct, non-empty and those of the documents. *)
Record store_wf (s : MemoryStore) : Prop := {
  sw_nodup : NoDup (map e_id (ms_entries s));
  sw_ids : Forall (fun e => doc_ID (e_doc e) = e_id e /\ e_id e <> "") (ms_entries s) }.

Lemma held_None entries id : held entries id = None <-> id ∉ map e_id entries.
Proof.
  induction entries as [|e entries IH]; cbn; [set_solver|]. case_bool_decide as He; [subst; set_solver|]. rewrite IH. set_solver.
Qed.

Lemma held_elem entries e : NoDup (map e_id entries) -> e ∈ entries -> held entries (e_id e) = Some (entry_slot e).
Proof.
  induction entries as [|x entries IH]; cbn; intros Hnd He; [set_solver|]. apply NoDup_cons in Hnd as [Hx Hnd].
  apply elem_of_cons in He as [->|He]; [by rewrite bool_decide_true|]. rewrite bool_decide_false; [by apply IH|].
  intros Heq. apply Hx. rewrite Heq. by apply (list_elem_of_fmap_2 e_id).
Qed.

Lemma place_ids e entries : map e_id (place e entries) = if bool_decide (e_id e ∈ map e_id entries) then map e_id entries else map e_id entries ++ [e_id e].
Proof.
  induction entries as [|x entries IH]; cbn; [done|]. destruct (decide (e_id x = e_id e)) as [He|He].
  - rewrite (bool_decide_true (e_id x = _)) by done. rewrite bool_decide_true by set_solver. cbn. by rewrite He.
  - rewrite (bool_decide_false (e_id x = _)) by done. cbn. rewrite IH. destruct (decide (e_id e ∈ map e_id entries)) as [Hin|Hin].
    + rewrite !bool_decide_true by set_solver. done.
    + rewrite !bool_decide_false by set_solver. done.
Qed.

Lemma place_held e entries id : held (place e entries) id = if bool_decide (e_id e = id) then Some (entry_slot e) else held entries id.
Proof.
  induction entries as [|x entries IH]; cbn; [done|]. destruct (decide (e_id x = e_id e)) as [He|He].
  - rewrite (bool_decide_true (e_id x = e_id e)) by done. cbn. rewrite He. by case_bool_decide.
  - rewrite (bool_decide_false (e_id x = e_id e)) by done. cbn. rewrite IH. repeat case_bool_decide; congruence.
Qed.

Lemma place_wf e entries n : doc_ID (e_doc e) = e_id e -> e_id e <> "" -> store_wf (mkMemory entries n) -> forall n', store_wf (mkMemory (place e entries) n').
Proof.
  intros Hid Hne [Hnd Hids] n'. cbn in *. split; cbn.
  - rewrite place_ids. case_bool_decide as Hin; [done|]. apply NoDup_app. split_and!; [done|set_solver|apply NoDup_singleton].
  - clear Hnd. induction Hids as [|x xs Hx Hids IH]; cbn; [by repeat constructor|]. case_bool_decide; by constructor.
Qed.

(** ** Upsert *)

Lemma pretty_N_go_nonempty x s : s <> "" -> pretty_N_go x s <> "".
Proof.
  revert s. induction (N.lt_wf_0 x) as [x _ IH]; intros s Hs. destruct (decide (x = 0)%N) as [->|Hx]; [by rewrite pretty_N_go_0|].
  rewrite pretty_N_go_step by lia. apply IH; [apply N.div_lt; lia|done].
Qed.

Lemma pretty_Z_nonempty (z : Z) : pretty z <> "".
Proof.
  destruct z as [|p|p]; [done| |done]. change (pretty (Z.pos p)) with (pretty (N.pos p)). unfold pretty, pretty_N.
  case_decide; [done|]. rewrite pretty_N_go_step by lia. by apply pretty_N_go_nonempty.
Qed.

Lemma upsert_one_spec s doc v id s' : upsert_one s doc v = (id, s') -> store_wf s ->
  store_wf s' /\ (doc_ID doc <> "" -> id = doc_ID doc) /\ id <> "" /\
  forall k, held (ms_entries s') k = if bool_decide (id = k) then Some (doc <| doc_ID := id |>, v) else held (ms_entries s) k.
Proof.
  unfold upsert_one. intros Hu Hwf. destruct s as [entries n]. cbn in Hu.
  assert (Hid : id <> "" /\ (doc_ID doc <> "" -> id = doc_ID doc)).
  { destruct (bool_decide (doc_ID doc = "")) eqn:E; injection Hu as <- <-.
    - apply bool_decide_eq_true in E. split; [apply pretty_Z_nonempty|done].
    - by apply bool_decide_eq_false in E. }
  destruct Hid as [Hne Hgiven]. destruct (if bool_decide _ then _ else _) as [id' n'] eqn:E. injection Hu as -> <-. cbn.
  split_and!; [by eapply place_wf|done|done|]. intros k. apply place_held.
Qed.

(** The store after a batch, as a map. *)
Fixpoint put_all (docs : list (string * slot)) (f : string -> option slot) (k : string) : option slot :=
  match docs with
  | [] => f k
  | (id, (doc, v)) :: docs => put_all docs (fun k => if bool_decide (id = k) then Some (doc <| doc_ID := id |>, v) else f k) k
  end.

Lemma put_all_ext docs : forall f g k, (forall k, f k = g k) -> put_all docs f k = put_all docs g k.
Proof. induction docs as [|[id [doc v]] docs IH]; intros f g k Hfg; [done|]. cbn. apply IH. intros k'. by rewrite Hfg. Qed.

Lemma upsert_all_spec docs : forall s ids s', upsert_all s docs = (ids, s') -> store_wf s ->
  store_wf s' /\ Forall2 (fun id d => id <> "" /\ (doc_ID d.1 <> "" -> id = doc_ID d.1)) ids docs /\
  forall k, held (ms_entries s') k = put_all (zip ids docs) (held (ms_entries s)) k.
Proof.
  induction docs as [|[doc v] docs IH]; intros s ids s'; cbn; [intros [= <- <-] Hwf; by split_and!|].
  destruct (upsert_one s doc v) as [id s1] eqn:E1. destruct (upsert_all s1 docs) as [ids' s2] eqn:E2. intros [= <- <-] Hwf.
  destruct (upsert_one_spec _ _ _ _ _ E1 Hwf) as (Hwf1 & Hid & Hne & Hh). destruct (IH _ _ _ E2 Hwf1) as (Hwf2 & Hf & Hh2).
  split_and!; [done|by constructor|]. intros k. rewrite Hh2. cbn. by apply put_all_ext.
Qed.

(** ** Find and deletions *)

Lemma byID_fold entries : forall (m : gmap string Document) id, NoDup (map e_id entries) ->
  fold_left (fun m e => <[e_id e := e_doc e]> m) entries m !! id = match held entries id with Some (d, _) => Some d | None => m !! id end.
Proof.
  induction entries as [|e entries IH]; intros m id Hnd; [done|]. cbn [map] in Hnd. apply NoDup_cons in Hnd as [He Hnd]. cbn [fold_left held].
  rewrite IH by done. case_bool_decide as Hid.
  - subst id. rewrite (proj2 (held_None entries (e_id e)) He). cbn. by rewrite lookup_insert_eq.
  - destruct (held entries id) as [[d v]|]; [done|]. by rewrite lookup_insert_ne.
Qed.

Lemma Find_spec ids s : store_wf s -> Find ids s = omap (fun id => fst <$> held (ms_entries s) id) ids.
Proof.
  intros [Hnd _]. unfold Find. induction ids as [|id ids IH]; [done|]. cbn [omap list_omap]. rewrite byID_fold by done.
  destruct (held (ms_entries s) id) as [[d v]|]; cbn; [by rewrite IH|]. by rewrite lookup_empty, IH.
Qed.

Lemma filter_wf f s n : store_wf s -> store_wf (mkMemory (List.filter f (ms_entries s)) n).
Proof.
  intros [Hnd Hids]. split; cbn.
  - eapply sublist_NoDup; [exact Hnd|]. apply fmap_sublist. apply sublist_filter.
  - apply Forall_forall. intros e [He _]%list_elem_of_In%filter_In. by apply (proj1 (Forall_forall _ _) Hids), list_elem_of_In.
Qed.

(** Deleting by a test on ID and content. *)
Lemma held_filter (f : storeEntry -> bool) (g : string -> slot -> bool) entries k :
  (forall e, f e = g (e_id e) (entry_slot e)) -> NoDup (map e_id entries) ->
  held (List.filter f entries) k = match held entries k with Some v => if g k v then Some v else None | None => None end.
Proof.
  intros Hfg. induction entries as [|e entries IH]; cbn; intros Hnd; [done|]. apply NoDup_cons in Hnd as [He Hnd]. specialize (IH Hnd).
  rewrite Hfg. destruct (decide (e_id e = k)) as [<-|Hk].
  - rewrite (bool_decide_true (e_id e = e_id e)) by done. destruct (g (e_id e) (entry_slot e)); cbn; [by rewrite bool_decide_true|].
    by rewrite IH, (proj2 (held_None entries _) He).
  - rewrite (bool_decide_false (e_id e = k)) by done. destruct (g (e_id e) (entry_slot e)); cbn; [by rewrite bool_decide_false|done].
Qed.

Lemma Delete_spec ids s : store_wf s -> store_wf (Delete ids s) /\
  forall k, held (ms_entries (Delete ids s)) k = if bool_decide (k ∈ ids) then None else held (ms_entries s) k.
Proof.
  intros Hwf. split; [by apply filter_wf|]. intros k. cbn. rewrite (held_filter _ (fun id _ => negb (bool_decide (id ∈ ids)))); [|done|apply Hwf].
  destruct (held _ _); by case_bool_decide.
Qed.

Lemma DeleteByMetadata_spec filter s : filter <> ∅ -> store_wf s ->
  exists s', DeleteByMetadata filter s = (Ok tt, s') /\ store_wf s' /\
  forall k, held (ms_entries s') k = match held (ms_entries s) k with
    | Some (d, v) => if metadataMatchesFilter (doc_Metadata d) filter then None else Some (d, v) | None => None end.
Proof.
  intros Hf Hwf. unfold DeleteByMetadata. rewrite bool_decide_false by done. eexists. split_and!; [done|by apply filter_wf|].
  intros k. cbn. rewrite (held_filter _ (fun _ v => negb (metadataMatchesFilter (doc_Metadata v.1) filter))); [|done|apply Hwf].
  destruct (held _ _) as [[d v]|]; [|done]. cbn. by destruct (metadataMatchesFilter _ _).
Qed.

(** The IDs of a batch when the counter is at [n]: a document keeps its own, one without gets the next number. *)
Fixpoint ids_from (n : Z) (docs : list Document) : list string :=
  match docs with
  | [] => []
  | d :: docs => if bool_decide (doc_ID d = "") then pretty (n + 1)%Z :: ids_from (n + 1) docs else doc_ID d :: ids_from n docs
  end.
Definition unnamed (docs : list Document) : Z := Z.of_nat (length (List.filter (fun d => bool_decide (doc_ID d = "")) docs)).

Lemma upsert_all_ids docs : forall s ids s', upsert_all s docs = (ids, s') -> (0 <= ms_nextID s)%Z ->
  (ms_nextID s + unnamed docs.*1 < 9223372036854775808)%Z ->
  ids = ids_from (ms_nextID s) docs.*1 /\ ms_nextID s' = (ms_nextID s + unnamed docs.*1)%Z.
Proof.
  induction docs as [|[doc v] docs IH]; intros s ids s'; cbn [upsert_all]; [intros [= <- <-] _ _; split; [done|unfold unnamed; simpl; lia]|].
  destruct (upsert_one s doc v) as [id s1] eqn:E1. destruct (upsert_all s1 docs) as [ids' s2] eqn:E2. intros [= <- <-] Hn Hlt.
  unfold upsert_one in E1. unfold unnamed in *. cbn [fmap list_fmap fst List.filter ids_from] in *. case_bool_decide as Hd; injection E1 as <- <-; cbn [length] in Hlt |- *.
  - assert (Hi : i64 (ms_nextID s + 1) = (ms_nextID s + 1)%Z) by (apply i64_small; lia). rewrite Hi in *.
    destruct (IH _ _ _ E2) as [-> ->]; cbn [ms_nextID]; [lia|lia|]. split; [done|lia].
  - destruct (IH _ _ _ E2) as [-> ->]; cbn [ms_nextID]; [lia|lia|]. done.
Qed.

(** A document has every pair of a filter; a key that it lacks has the empty value. *)
Definition has_pairs (filter : gmap string string) (d : Document) : Prop :=
  forall k v, filter !! k = Some v -> default "" (doc_Metadata d !! k) = v.

Lemma matches_has_pairs filter d : metadataMatchesFilter (doc_Metadata d) filter = true <-> has_pairs filter d.
Proof.
  unfold metadataMatchesFilter, has_pairs. rewrite forallb_forall. split.
  - intros Hall k v Hk. apply elem_of_map_to_list, list_elem_of_In in Hk. specialize (Hall _ Hk). by apply bool_decide_eq_true in Hall.
  - intros Hall [k v] Hin%list_elem_of_In%elem_of_map_to_list. apply bool_decide_eq_true. by apply Hall.
Qed.

(** C39. The in-process vector store is a map from IDs to documents with their embeddings: from a well-formed store
    (distinct, non-empty IDs, each the ID of its document) Upsert puts the batch under the IDs it returns, later entries
    winning: a document keeps its ID, and one without gets the next number of a counter that never goes back (until it
    overflows), so that generated IDs are never generated again; Find is lookup in input order; Delete removes exactly
    the named documents and DeleteByMetadata exactly those that have every pair of the filter, where a pair with an
    empty value is also had by a document without the key; lists of different lengths and an empty filter are refused;
    all keep the store well-formed. *)
Theorem vector_store_refines_map s : store_wf s ->
  (forall docs embeddings, length docs = length embeddings -> exists ids s', Upsert docs embeddings s = (Ok ids, s') /\ store_wf s' /\
     Forall2 (fun id d => id <> "" /\ (doc_ID d <> "" -> id = doc_ID d)) ids docs /\
     (forall k, held (ms_entries s') k = put_all (zip ids (zip docs embeddings)) (held (ms_entries s)) k) /\
     ((0 <= ms_nextID s)%Z -> (ms_nextID s + unnamed docs < 9223372036854775808)%Z ->
      ids = ids_from (ms_nextID s) docs /\ ms_nextID s' = (ms_nextID s + unnamed docs)%Z)) /\
  (forall docs embeddings, length docs <> length embeddings -> exists e, Upsert docs embeddings s = (Err e, s)) /\
  (forall ids, Find ids s = omap (fun id => fst <$> held (ms_entries s) id) ids) /\
  (forall ids, store_wf (Delete ids s) /\ ms_nextID (Delete ids s) = ms_nextID s /\
     forall k, held (ms_entries (Delete ids s)) k = if bool_decide (k ∈ ids) then None else held (ms_entries s) k) /\
  (exists e, DeleteByMetadata ∅ s = (Err e, s)) /\
  (forall filter, filter <> ∅ -> exists s', DeleteByMetadata filter s = (Ok tt, s') /\ store_wf s' /\ ms_nextID s' = ms_nextID s /\
     forall k, (forall d v, held (ms_entries s') k = Some (d, v) <-> held (ms_entries s) k = Some (d, v) /\ ~ has_pairs filter d)).
Proof.
  intros Hwf. split_and!.
  - intros docs embeddings Hl. unfold Upsert. rewrite bool_decide_false by (intros Hn; by apply Hn).
    destruct (upsert_all s (zip docs embeddings)) as [ids s'] eqn:E. exists ids, s'.
    destruct (upsert_all_spec _ _ _ _ E Hwf) as (Hwf' & Hf & Hh). pose proof (upsert_all_ids _ _ _ _ E) as Hids. rewrite fst_zip in Hids by lia.
    split_and!; try done. rewrite <- (fst_zip docs embeddings) by lia. by apply Forall2_fmap_r.
  - intros docs embeddings Hl. unfold Upsert. rewrite bool_decide_true by done. by eexists.
  - intros ids. by apply Find_spec.
  - intros ids. destruct (Delete_spec ids s Hwf) as [? ?]. done.
  - by eexists.
  - intros filter Hf. destruct (DeleteByMetadata_spec filter s Hf Hwf) as (s' & Hd & Hwf' & Hh). exists s'. split_and!; [done..| |].
    + unfold DeleteByMetadata in Hd. rewrite bool_decide_false in Hd by done. by injection Hd as <-.
    + intros k d v. rewrite Hh. pose proof (matches_has_pairs filter) as Hm. destruct (held (ms_entries s) k) as [[d' v']|]; [|naive_solver].
      specialize (Hm d'). destruct (metadataMatchesFilter (doc_Metadata d') filter); naive_solver.
Qed.

(** * The ranking *)

Abbreviation not_worse := (not_worse sd_Score).
Definition scored (d : ScoredDocument) : Prop := is_number (sd_Score d).

(** Search returns the best: when no score is NaN, the result of Search is in order of score,
    has the smaller of [topK] and the number of documents, and no document left out
    scores strictly higher than one returned. *)
Theorem Search_returns_best q topK s :
  (1 <= topK)%Z -> Forall scored (score_entries q (ms_entries s)) ->
  exists found rest, Search q topK s = Ok found /\ found ++ rest ≡ₚ score_entries q (ms_entries s) /\
    StronglySorted not_worse found /\ length found = Nat.min (Z.to_nat topK) (length (ms_entries s)) /\
    forall a b, a ∈ found -> b ∈ rest -> not_worse a b.
Proof.
  intros Hk Hsc. destruct (sort_by_spec sd_Score _ Hsc) as [Hs Hp]. unfold Search. rewrite bool_decide_false by lia.
  set (xs := sort_by sd_Score (score_entries q (ms_entries s))) in *.
  exists (take (Z.to_nat topK) xs), (drop (Z.to_nat topK) xs). split_and!; [done|by rewrite take_drop| | |].
  - rewrite <- (take_drop (Z.to_nat topK) xs) in Hs. revert Hs. generalize (take (Z.to_nat topK) xs) (drop (Z.to_nat topK) xs). clear.
    intros a b. induction a as [|x a IH]; cbn; intros Hs; [constructor|]. inversion Hs as [|? ? Hs' Hall]; subst.
    constructor; [by apply IH|]. by apply Forall_app in Hall as [? _].
  - rewrite length_take, Hp. unfold score_entries. by rewrite length_map.
  - rewrite <- (take_drop (Z.to_nat topK) xs) in Hs. revert Hs. generalize (take (Z.to_nat topK) xs) (drop (Z.to_nat topK) xs). clear.
    intros a b. induction a as [|x a IH]; cbn; intros Hs y z Hy Hz; [by apply elem_of_nil in Hy|]. inversion Hs as [|? ? Hs' Hall]; subst.
    apply elem_of_cons in Hy as [->|Hy]; [|by apply IH]. apply Forall_app in Hall as [_ Hb]. by apply (proj1 (Forall_forall _ _) Hb).
Qed.

(** * Ingestion *)

(** Generated IDs count up. *)
Lemma upsert_all_generated docs : forall s ids s', Forall (fun d : slot => doc_ID d.1 = "") docs ->
  (0 <= ms_nextID s)%Z -> (ms_nextID s + Z.of_nat (length docs) < 9223372036854775808)%Z ->
  upsert_all s docs = (ids, s') -> ids = map (fun i => pretty (ms_nextID s + 1 + Z.of_nat i)%Z) (seq 0 (length docs)).
Proof.
  induction docs as [|[doc v] docs IH]; intros s ids s' Hd Hn Hl; cbn [upsert_all]; [by intros [= <- _]|].
  apply Forall_cons in Hd as [Hdoc Hd]. cbn [fst] in Hdoc. cbn [length] in Hl. unfold upsert_one. rewrite bool_decide_true by done.
  rewrite i64_small by lia. set (s1 := mkMemory _ _). destruct (upsert_all s1 docs) as [ids' s2] eqn:E. intros [= <- _].
  apply IH in E; [|done|cbn; lia|cbn; lia]. cbn [length seq map]. f_equal; [f_equal; lia|].
  rewrite E, <- seq_shift, map_map. apply map_ext. intros i. f_equal. cbn. lia.
Qed.

Lemma put_all_inv docs : forall f k sl, put_all docs f k = Some sl ->
  f k = Some sl \/ exists id d v, (id, (d, v)) ∈ docs /\ sl = (d <| doc_ID := id |>, v) /\ k = id.
Proof.
  induction docs as [|[id [d v]] docs IH]; intros f k sl; cbn; [by left|]. intros [Hf|(id' & d' & v' & Hin & -> & ->)]%IH.
  - case_bool_decide as Hk; [|by left]. injection Hf as <-. right. exists id, d, v. split_and!; [set_solver|done|done].
  - right. exists id', d', v'. split_and!; [set_solver|done|done].
Qed.

Lemma put_all_other docs : forall f k, k ∉ docs.*1 -> put_all docs f k = f k.
Proof.
  induction docs as [|[id [d v]] docs IH]; intros f k Hk; [done|]. cbn in *. rewrite IH by set_solver. by rewrite bool_decide_false by set_solver.
Qed.

Lemma put_all_found docs : NoDup docs.*1 -> forall f id d v, (id, (d, v)) ∈ docs -> put_all docs f id = Some (d <| doc_ID := id |>, v).
Proof.
  induction docs as [|[id' [d' v']] docs IH]; intros Hnd f id d v Hin; [by apply elem_of_nil in Hin|].
  cbn [fmap list_fmap fst] in Hnd. apply NoDup_cons in Hnd as [Hn Hnd]. cbn. apply elem_of_cons in Hin as [[= -> -> ->]|Hin].
  - rewrite put_all_other by done. by rewrite bool_decide_true.
  - by apply IH.
Qed.

Definition doc_source (d : Document) : string := default "" (doc_Metadata d !! "source").

Lemma source_filter d src : src <> "" -> metadataMatchesFilter (doc_Metadata d) {[ "source" := src ]} = bool_decide (doc_source d = src).
Proof. intros Hs. unfold metadataMatchesFilter. rewrite map_to_list_singleton. cbn. by rewrite andb_true_r. Qed.

Lemma delete_sources_spec sources : forall s r s', Forall (fun x => x <> "") sources -> store_wf s ->
  delete_sources DeleteByMetadata sources s = (r, s') ->
  r = Ok tt /\ store_wf s' /\ ms_nextID s' = ms_nextID s /\
  forall k d v, held (ms_entries s') k = Some (d, v) -> held (ms_entries s) k = Some (d, v) /\ doc_source d ∉ sources.
Proof.
  induction sources as [|src sources IH]; intros s r s' Hne Hwf; cbn.
  - intros [= <- <-]. split_and!; try done. intros k d v Hk. split; [done|]. apply not_elem_of_nil.
  - apply Forall_cons in Hne as [Hsrc Hne].
    destruct (DeleteByMetadata_spec {[ "source" := src ]} s) as (s1 & E & Hwf1 & Hh); [apply map_non_empty_singleton|done|].
    assert (Hn1 : ms_nextID s1 = ms_nextID s) by (unfold DeleteByMetadata in E; destruct (bool_decide _); by simplify_eq). rewrite E.
    intros (-> & Hwf' & Hn & Hk)%IH; [|done..]. split_and!; try done; [congruence|]. intros k d v [Hd Hs]%Hk. rewrite Hh in Hd.
    destruct (held (ms_entries s) k) as [[d' v']|]; [|done]. rewrite source_filter in Hd by done.
    case_bool_decide; [done|]. simplify_eq. split; [done|]. set_solver.
Qed.

Lemma ingest_chunks_ids cfg texts metadata : forall i chunks, ingest_chunks cfg i texts metadata = Some (Ok chunks) ->
  Forall (fun d => doc_ID d = "") chunks.
Proof.
  induction texts as [|t texts IH]; intros i chunks; cbn; [by intros [= <-]|]. destruct (SplitText _ _ _) as [[parts|]|]; cbn; [|done..].
  destruct (ingest_chunks cfg (S i) texts metadata) as [[rest|]|] eqn:E; cbn; [|done..]. intros [= <-]. apply Forall_app. split; [|by eapply IH].
  apply Forall_forall. intros d Hd. apply list_elem_of_lookup in Hd as [j Hj]. rewrite list_lookup_imap in Hj.
  destruct (parts !! j); [|done]. by injection Hj as <-.
Qed.

Section Embed.
Context {W : Type} (ctxErr : W -> option error) (embed : EmbedFn W).
Hypothesis embed_pure : forall t w, snd (embed t w) = w.

Lemma embed_sequential_spec chunks : forall w vs w', embed_sequential embed chunks w = (Ok vs, w') -> w' = w /\ length vs = length chunks.
Proof.
  induction chunks as [|d chunks IH]; intros w vs w'; cbn; [by intros [= <- <-]|]. pose proof (embed_pure (doc_Content d) w) as Hp.
  destruct (embed (doc_Content d) w) as [[v|] w1]; [|done]. cbn in Hp. subst w1.
  destruct (embed_sequential embed chunks w) as [[vs'|] w2] eqn:E; [|done]. intros [= <- <-]. destruct (IH _ _ _ E) as [-> Hl]. split; [done|]. cbn. by rewrite Hl.
Qed.

Lemma embed_tasks_spec chunks order : forall slots w slots' w', embed_tasks ctxErr embed chunks order slots w = (slots', w') ->
  w' = w /\ length slots' = length slots.
Proof.
  induction order as [|i order IH]; intros slots w slots' w'; cbn; [by intros [= <- <-]|]. destruct (chunks !! i) as [c|]; [|apply IH].
  unfold embed_task. destruct (ctxErr w).
  - intros [-> Hl]%IH. split; [done|]. by rewrite Hl, length_insert.
  - pose proof (embed_pure (doc_Content c) w) as Hp. destruct (embed (doc_Content c) w) as [r w1]. cbn in Hp. subst w1.
    intros [-> Hl]%IH. split; [done|]. by rewrite Hl, length_insert.
Qed.

Lemma collect_slots_length slots : forall vs, collect_slots slots = Ok vs -> length vs = length slots.
Proof.
  induction slots as [|[[v|e]|] slots IH]; intros vs; cbn; [by intros [= <-]| |done|];
    destruct (collect_slots slots) as [vs'|]; [|done| |done]; intros [= <-]; cbn; by rewrite (IH vs').
Qed.

Lemma embed_chunks_spec cfg order chunks w vs w' : embed_chunks cfg ctxErr embed order chunks w = (Ok vs, w') -> w' = w /\ length vs = length chunks.
Proof.
  unfold embed_chunks. case_bool_decide; [apply embed_sequential_spec|].
  destruct (embed_tasks _ _ _ _ _ _) as [slots w1] eqn:E. intros [= Hc <-]. destruct (embed_tasks_spec _ _ _ _ _ _ E) as [-> Hl].
  split; [done|]. apply collect_slots_length in Hc. by rewrite Hc, Hl, length_replicate.
Qed.
End Embed.

Lemma zip3_elem {A B C} (ids : list A) (docs : list B) (vs : list C) d : length ids = length docs -> length vs = length docs ->
  d ∈ docs -> exists id v, (id, (d, v)) ∈ zip ids (zip docs vs).
Proof.
  revert ids vs. induction docs as [|x docs IH]; intros [|id ids] [|v vs] Hi Hv Hd; try done; [by apply elem_of_nil in Hd|].
  apply elem_of_cons in Hd as [->|Hd]; [exists id, v; cbn; set_solver|].
  destruct (IH ids vs ltac:(by injection Hi) ltac:(by injection Hv) Hd) as (id' & v' & Hin). exists id', v'. cbn. set_solver.
Qed.
Lemma zip3_elem_inv {A B C} (ids : list A) (docs : list B) (vs : list C) id d v : (id, (d, v)) ∈ zip ids (zip docs vs) -> d ∈ docs.
Proof. intros Hin%list_elem_of_In. apply list_elem_of_In. by apply in_combine_r, in_combine_l in Hin. Qed.

(** Ingest replaces its sources: after a successful Ingest into the in-process store, sequential
    or parallel in any order, every new chunk is in the store under an ID of its own, and every other
    document was there before, unchanged, and comes from none of the sources named in the metadata. *)
Theorem Ingest_replaces_sources ctxErr embed texts metadata opts order sources s chunks s' :
  let cfg := fold_left (fun c opt => opt c) opts (mkIngest 512 64 1) in
  store_wf s -> (0 <= ms_nextID s)%Z -> (forall t w, snd (embed t w) = w) ->
  sources ≡ₚ elements (ingest_sources metadata) ->
  ingest_chunks cfg 0 texts metadata = Some (Ok chunks) -> chunks <> [] ->
  (ms_nextID s + Z.of_nat (length chunks) < 9223372036854775808)%Z ->
  Ingest ctxErr memory_vector_store embed texts metadata opts order sources s = Some (Ok tt, s') ->
  store_wf s' /\
  (forall d, d ∈ chunks -> exists id v, held (ms_entries s') id = Some (d <| doc_ID := id |>, v)) /\
  (forall id d v, held (ms_entries s') id = Some (d, v) ->
     (exists c, c ∈ chunks /\ d = c <| doc_ID := id |>) \/
     (held (ms_entries s) id = Some (d, v) /\ doc_source d ∉ ingest_sources metadata)).
Proof.
  intros cfg Hwf Hn Hpure Hsrc Hchunks Hne Hsmall. unfold Ingest. fold cfg. rewrite Hchunks. cbn [mbind option_bind].
  destruct (is_nil chunks) eqn:E0; [by apply is_nil_true in E0|]. intros [= HI]. revert HI.
  destruct (embed_chunks cfg ctxErr embed order chunks s) as [[vs|] w] eqn:Ee; [|done].
  destruct (embed_chunks_spec ctxErr embed Hpure _ _ _ _ _ _ Ee) as [-> Hvs]. cbn [vs_DeleteByMetadata memory_vector_store].
  destruct (delete_sources DeleteByMetadata sources s) as [r s1] eqn:Ed.
  assert (Hnonempty : Forall (fun x => x <> "") sources).
  { rewrite Hsrc. apply Forall_forall. intros x. rewrite elem_of_elements. unfold ingest_sources. rewrite elem_of_list_to_set, list_elem_of_In, filter_In.
    intros [_ Hx]. by bool_hyps. }
  destruct (delete_sources_spec _ _ _ _ Hnonempty Hwf Ed) as (-> & Hwf1 & Hn1 & Hh1). cbn [vs_Upsert memory_vector_store]. unfold Upsert.
  rewrite bool_decide_false by lia. destruct (upsert_all s1 (zip chunks vs)) as [ids s2] eqn:Eu. intros [= ->].
  destruct (upsert_all_spec _ _ _ _ Eu Hwf1) as (Hwf2 & Hf2 & Hh2).
  assert (Hz : length (zip chunks vs) = length chunks) by (rewrite length_zip_with; lia).
  pose proof (Forall2_length _ _ _ Hf2) as Hlen. rewrite Hz in Hlen.
  assert (Hids : NoDup ids).
  { apply upsert_all_generated in Eu; [|apply Forall_forall; intros [d v] Hd%list_elem_of_In%in_combine_l%list_elem_of_In; cbn;
      by apply (proj1 (Forall_forall _ _) (ingest_chunks_ids _ _ _ _ _ Hchunks))|lia|rewrite Hz; lia].
    rewrite Eu. apply NoDup_fmap_2_strong; [|apply NoDup_seq]. intros i j _ _ Hij%(inj pretty). lia. }
  assert (Hkeys : (zip ids (zip chunks vs)).*1 = ids) by (apply fst_zip; lia).
  split_and!; [done| |].
  - intros d Hd. destruct (zip3_elem ids chunks vs d Hlen Hvs Hd) as (id & v & Hin). exists id, v. rewrite Hh2.
    apply put_all_found; [by rewrite Hkeys|done].
  - intros id d v Hd. rewrite Hh2 in Hd. apply put_all_inv in Hd as [Hd|(id' & c & v' & Hin & Heq & ->)].
    + right. apply Hh1 in Hd as [Hd Hs]. split; [done|]. by rewrite Hsrc, elem_of_elements in Hs.
    + left. injection Heq as -> ->. exists c. split; [by eapply zip3_elem_inv|done].
Qed.

(** * Concrete stores *)

Definition f_one : float := S754_finite false 4503599627370496 (-52).
Definition f_inf : float := S754_infinity false.
Definition note_doc (id content source : string) : Document := mkDocument id content {[ "source" := source ]}.
Definition sample_store : MemoryStore :=
  mkMemory [mkEntry "a" (note_doc "a" "old a" "wiki") [f_zero; f_one]; mkEntry "b" (note_doc "b" "old b" "blog") [f_one; f_zero]] 0.

Lemma sample_store_wf : store_wf sample_store.
Proof. split; [apply (bool_decide_unpack _); vm_compute; reflexivity|]. repeat constructor; done. Qed.

Lemma vector_store_refines_map_witness :
  Find ["b"; "x"] sample_store = [note_doc "b" "old b" "blog"] /\
  Find ["b"; "x"] sample_store = omap (fun id => fst <$> held (ms_entries sample_store) id) ["b"; "x"] /\
  ms_nextID (Upsert [note_doc "" "new" "wiki"; note_doc "a" "new a" "wiki"] [[f_one]; [f_one]] sample_store).2 = 1%Z /\
  exists s', DeleteByMetadata {[ "source" := "blog" ]} sample_store = (Ok tt, s') /\ map e_id (ms_entries s') = ["a"].
Proof.
  destruct (vector_store_refines_map sample_store sample_store_wf) as (Hu & _ & Hf & _ & _ & Hd).
  split; [vm_compute; reflexivity|]. split; [apply Hf|]. split.
  - destruct (Hu [note_doc "" "new" "wiki"; note_doc "a" "new a" "wiki"] [[f_one]; [f_one]] eq_refl) as (ids & s' & He & _ & _ & _ & Hn).
    rewrite He. destruct Hn as [_ Hn]; [cbn; lia|vm_compute; reflexivity|]. cbn [snd]. rewrite Hn. vm_compute. reflexivity.
  - destruct (Hd {[ "source" := "blog" ]}) as (s' & He & _); [by apply insert_non_empty|]. exists s'. split; [exact He|].
    assert (Hs : DeleteByMetadata {[ "source" := "blog" ]} sample_store = (Ok tt, mkMemory [mkEntry "a" (note_doc "a" "old a" "wiki") [f_zero; f_one]] 0)) by (vm_compute; reflexivity).
    rewrite Hs in He. injection He as <-. reflexivity.
Defined.

Lemma Search_returns_best_witness :
  match Search [f_one; f_zero] 1 sample_store with Ok found => map (fun d => doc_ID (sd_Document d)) found = ["b"] | Err _ => False end /\
  exists found rest, Search [f_one; f_zero] 1 sample_store = Ok found /\ found ++ rest ≡ₚ score_entries [f_one; f_zero] (ms_entries sample_store).
Proof.
  split; [vm_compute; reflexivity|].
  destruct (Search_returns_best [f_one; f_zero] 1 sample_store) as (found & rest & Hs & Hp & _); [lia| |by exists found, rest].
  repeat constructor; vm_compute; discriminate.
Defined.

(** One entry whose score is NaN hides the best document behind it. *)
Lemma nan_score_hides_best :
  let s := mkMemory [mkEntry "far" (note_doc "far" "" "") [f_zero; f_one]; mkEntry "bad" (note_doc "bad" "" "") [f_inf; f_zero];
                     mkEntry "best" (note_doc "best" "" "") [f_one; f_zero]] 0 in
  match Search [f_one; f_zero] 1 s with Ok found => map (fun d => doc_ID (sd_Document d)) found = ["far"] | Err _ => False end.
Proof. vm_compute. reflexivity. Qed.

(** A filter with an empty value matches documents that lack the key. *)
Lemma empty_value_matches_absent :
  ms_entries (snd (DeleteByMetadata {[ "tag" := "" ]} sample_store)) = [].
Proof. vm_compute. reflexivity. Qed.

(** A generated ID can replace a document of the caller: IDs are generated without looking at the
    store, so after Upsert of a document the caller named with the next number, an Upsert of a
    document without an ID returns that same ID and the caller's document is gone. *)
Theorem generated_id_overwrites s d d' v v' :
  store_wf s -> (0 <= ms_nextID s < 9223372036854775807)%Z -> doc_ID d = pretty (ms_nextID s + 1)%Z -> doc_ID d' = "" ->
  exists s1 s2, Upsert [d] [v] s = (Ok [doc_ID d], s1) /\ Upsert [d'] [v'] s1 = (Ok [doc_ID d], s2) /\
    held (ms_entries s1) (doc_ID d) = Some (d, v) /\ held (ms_entries s2) (doc_ID d) = Some (d' <| doc_ID := doc_ID d |>, v').
Proof.
  intros Hwf Hn Hd Hd'. assert (Hne : doc_ID d <> "") by (rewrite Hd; apply pretty_Z_nonempty).
  assert (Hup : forall d v s, Upsert [d] [v] s = let '(id, s') := upsert_one s d v in (Ok [id], s')).
  { intros d0 v0 s0. unfold Upsert. rewrite bool_decide_false by (intros Hx; by apply Hx). cbn. by destruct (upsert_one s0 d0 v0). }
  rewrite Hup. unfold upsert_one. rewrite bool_decide_false by done. do 2 eexists. split; [done|]. rewrite Hup. unfold upsert_one.
  rewrite bool_decide_true by done. cbn [ms_nextID ms_entries]. rewrite i64_small, <- Hd by lia. split; [done|].
  split; cbn [ms_entries]; rewrite place_held; cbn [e_id]; rewrite bool_decide_true by done; [|done]. by destruct d.
Qed.

Lemma generated_id_overwrites_witness :
  exists s1 s2, Upsert [note_doc "1" "mine" ""] [[]] sample_store = (Ok ["1"], s1) /\ Upsert [note_doc "" "other" ""] [[]] s1 = (Ok ["1"], s2) /\
    doc_Content <$> (fst <$> held (ms_entries s2) "1") = Some "other".
Proof.
  destruct (generated_id_overwrites sample_store (note_doc "1" "mine" "") (note_doc "" "other" "") [] []) as (s1 & s2 & H1 & H2 & _ & H3);
    [exact sample_store_wf|cbn; lia|vm_compute; reflexivity|reflexivity|]. exists s1, s2. split_and!; [exact H1|exact H2|]. cbn in H3. by rewrite H3.
Defined.

Definition sample_embed (t : string) (w : MemoryStore) : res (list float) * MemoryStore := (Ok [f_one; f_one], w).
Definition sample_meta : list (gmap string string) := [ {[ "source" := "wiki" ]} ].

Lemma Ingest_replaces_sources_witness :
  exists s', Ingest (fun _ => None) memory_vector_store sample_embed ["new text"] sample_meta [WithConcurrency 4; WithChunkSize 6; WithChunkOverlap 2] [1; 0] ["wiki"] sample_store
      = Some (Ok tt, s') /\
    map (fun e => doc_Content (e_doc e)) (ms_entries s') = ["old b"; "new te"; "text"] /\ store_wf s'.
Proof.
  eexists. split; [vm_compute; reflexivity|]. split; [vm_compute; reflexivity|].
  eapply (Ingest_replaces_sources (fun _ => None) sample_embed ["new text"] sample_meta [WithConcurrency 4; WithChunkSize 6; WithChunkOverlap 2] [1; 0] ["wiki"] sample_store).
  - exact sample_store_wf.
  - cbn. lia.
  - reflexivity.
  - vm_compute. reflexivity.
  - vm_compute. reflexivity.
  - discriminate.
  - vm_compute. reflexivity.
  - vm_compute. reflexivity.
Defined.
