(* ===== verification/SemanticMemory.v ===== *)
(** Semantic memory (agent/memory/memory.go and store.go): the in-process store partitioned by identity, its
    struct schema, and the tools over it. *)
From Stdlib Require Import Ascii.
From Stdlib Require Import Sorted.
From S2P Require Import Prelude Errors Messages Execution Schema Tool Ranking.

(** * Queries and identities *)

(* agent/memory/memory.go:51-55: Filter *)
Record Filter := mkFilter { fl_Field : string; fl_Operator : string; fl_Value : GoAny }.
(* agent/memory/memory.go:68-71: Order *)
Record Order := mkOrder { od_Field : string; od_Direction : string }.
(* agent/memory/memory.go:79-85: RecallQuery *)
Record RecallQuery := mkRecall {
  rq_Text : string; rq_Limit : Z; rq_MinSimilarity : float; rq_Filters : list Filter; rq_Order : list Order }.

(** The package's error values. *)
(* agent/memory/memory.go:87-97: errors of the package *)
Definition ErrInvalidRecallQuery : error := ENew "memory: invalid recall query".
Definition ErrUnsupportedFilter : error := ENew "memory: unsupported filter".
Definition ErrUnsupportedOrder : error := ENew "memory: unsupported order".
Definition ErrMissingIdentity : error := ENew "memory: identity not set on context".

(** What a tool can read of its invocation: agent.IdentityFrom and agent.ScopeFrom. *)
Record Invocation := mkInvocation { inv_Identity : string; inv_Scopes : gmap string string }.

(* agent/memory/memory.go: ResolveIdentity *)
Definition ResolveIdentity (ctx : Invocation) (scope : string) : res string :=
  if bool_decide (scope <> "") then
    match inv_Scopes ctx !! scope with
    | Some value => if bool_decide (value = "") then Err (EWrap "scope not set" ErrMissingIdentity) else Ok value
    | None => Err (EWrap "scope not set" ErrMissingIdentity)
    end
  else if bool_decide (inv_Identity ctx = "") then Err (EWrap "use c.WithIdentity(id)" ErrMissingIdentity)
  else Ok (inv_Identity ctx).

(** * Struct schemas *)

(** strings.Split on a comma and strings.TrimSpace on ASCII text. *)
Fixpoint split_comma (s : string) : list string :=
  match s with
  | EmptyString => [""]
  | String c s =>
      if bool_decide (c = ","%char) then "" :: split_comma s
      else match split_comma s with [] => [String c ""] | p :: ps => String c p :: ps end
  end.
Definition is_space (c : ascii) : bool :=
  let n := nat_of_ascii c in bool_decide (n = 32 \/ 9 <= n <= 13)%nat.
Fixpoint trim_left (s : string) : string :=
  match s with String c s' => if is_space c then trim_left s' else s | EmptyString => "" end.
Fixpoint all_space (s : string) : bool := match s with String c s => is_space c && all_space s | EmptyString => true end.
Fixpoint trim_right (s : string) : string :=
  match s with
  | EmptyString => ""
  | String c s' => if all_space s then "" else String c (trim_right s')
  end.
Definition trim_space (s : string) : string := trim_right (trim_left s).

(** A field of a struct type as reflection sees it; [sf_schema] is tool.GoTypeToSchema of its type. *)
Record StructField := mkField {
  sf_Name : string; sf_exported : bool; sf_db : string; sf_json : string; sf_description : string; sf_required : string;
  sf_schema : list (string * GoAny) }.
Inductive GoType : Type := GoStruct (fields : list StructField) | GoPtr | GoOther.

(* agent/memory/store.go:41-45: memSchema *)
Record memSchema := mkSchema { ms_pkIdx : Z; ms_identIdx : Z; ms_contentIdx : Z }.

(** The options of a db tag; none when the field is not stored. *)
Definition db_options (f : StructField) : option (list string) :=
  if negb (sf_exported f) || bool_decide (sf_db f = "") || bool_decide (sf_db f = "-") then None
  else Some (map trim_space (tail (split_comma (sf_db f)))).

(* agent/memory/store.go:431-440: options of a field in parseMemSchema *)
Definition schema_option (i : Z) (s : memSchema) (p : string) : memSchema :=
  if bool_decide (p = "pk") then mkSchema i (ms_identIdx s) (ms_contentIdx s)
  else if bool_decide (p = "identifier") then mkSchema (ms_pkIdx s) i (ms_contentIdx s)
  else if bool_decide (p = "content") then mkSchema (ms_pkIdx s) (ms_identIdx s) i
  else s.

(* agent/memory/store.go:421-441: fields of parseMemSchema *)
Fixpoint schema_fields (i : Z) (fs : list StructField) (s : memSchema) : memSchema :=
  match fs with
  | [] => s
  | f :: fs => schema_fields (i + 1) fs (fold_left (schema_option i) (default [] (db_options f)) s)
  end.

(* agent/memory/store.go: parseMemSchema *)
Definition parseMemSchema (t : GoType) : res memSchema :=
  match t with
  | GoPtr => Err (ENew "memory: T must be a non-pointer struct")
  | GoOther => Err (ENew "memory: T must be a struct")
  | GoStruct fs =>
      let s := schema_fields 0 fs (mkSchema (-1) (-1) (-1)) in
      if bool_decide (ms_identIdx s = -1)%Z then Err (ENew "memory: struct must have an identifier field")
      else if bool_decide (ms_contentIdx s = -1)%Z then Err (ENew "memory: struct must have a content field")
      else Ok s
  end.

(** Assign a key of a map. *)
Fixpoint set_key {A} (k : string) (v : A) (m : list (string * A)) : list (string * A) :=
  match m with
  | [] => [(k, v)]
  | (k', v') :: m => if bool_decide (k' = k) then (k, v) :: m else (k', v') :: set_key k v m
  end.

(** The JSON name of a field, unless it is left out. *)
(* agent/memory/store.go:510-519: name of a field in generateMemSchema *)
Definition json_name (f : StructField) : option string :=
  if bool_decide (sf_json f = "") then Some (sf_Name f)
  else match split_comma (sf_json f) with
       | "-" :: _ => None
       | "" :: _ | [] => Some (sf_Name f)
       | n :: _ => Some n
       end.

(* agent/memory/store.go:490-528: fields of generateMemSchema *)
Fixpoint tool_schema (fs : list StructField) (props : list (string * GoAny)) (required : list string) :
  list (string * GoAny) * list string :=
  match fs with
  | [] => (props, required)
  | f :: fs =>
      match db_options f with
      | None => tool_schema fs props required
      | Some opts =>
          if existsb (fun p => bool_decide (p ∈ ["pk"; "identifier"; "noinput"])) opts then tool_schema fs props required
          else
            match json_name f with
            | None => tool_schema fs props required
            | Some name =>
                let prop := if bool_decide (sf_description f <> "") then set_key "description" (AStr (sf_description f)) (sf_schema f) else sf_schema f in
                tool_schema fs (set_key name (AObj prop) props)
                  (if bool_decide (sf_required f = "true") then required ++ [name] else required)
            end
      end
  end.

(* agent/memory/store.go: generateMemSchema *)
Definition generateMemSchema (fs : list StructField) : list (string * GoAny) * list string := tool_schema fs [] [].
Definition schema_value (s : list (string * GoAny) * list string) : GoAny :=
  AObj ([("type", AStr "object"); ("properties", AObj s.1)] ++ if is_nil s.2 then [] else [("required", AStrs s.2)]).

(* agent/memory/store.go:288-295: schema of NewUpdateTool *)
Definition update_schema (fs : list StructField) : GoAny :=
  let '(props, required) := generateMemSchema fs in
  let props := set_key "id" (AObj [("type", AStr "string"); ("description", AStr "The ID of the entry to update (from a previous recall).")]) props in
  AObj [("type", AStr "object"); ("properties", AObj props);
        ("required", if is_nil required then AArr [AStr "id"] else AStrs (required ++ ["id"]))].

(** * The store *)

Section Memory.
(** [T] is the struct type, with its identifier, content and primary key fields as reflection reads and
    sets them; [E] is the world of the embedder and of the random source. *)
Context {T E : Type}.

Record MemType := mkMemType {
  mt_setIdentifier : string -> T -> T;
  mt_content : T -> string;
  mt_pk : T -> string }.

(* agent/memory/store.go:35-39: memEntry *)
Record memEntry := mkMemEntry { me_id : string; me_value : T; me_embedding : list float }.
(* agent/memory/memory.go:118-122: Entry *)
Record Entry := mkEntryT { en_ID : string; en_Value : T; en_Score : float }.

Abbreviation Buckets := (gmap string (list memEntry)).

(** The store and the world around it. *)
(* agent/memory/store.go:24-33: Store *)
Record MemState := mkMem { mem_entries : Buckets; mem_world : E }.

(** A store needs an embedder and a struct type with identifier and content fields. *)
(* agent/memory/store.go: NewStore *)
Definition NewStore (embedder_set : bool) (t : GoType) (w : E) : res (memSchema * MemState) :=
  if negb embedder_set then Err (ENew "memory: embedder is required")
  else letr schema := parseMemSchema t in Ok (schema, mkMem ∅ w).

Context (mt : MemType) (embed : string -> E -> res (list float) * E) (random : E -> res (list N) * E).

(* agent/memory/store.go: randomID *)
Definition randomID (w : E) : res string * E :=
  let '(r, w) := random w in
  (match r with Ok bytes => Ok (hex_encode bytes) | Err e => Err (EWrap "memory: generate entry ID" e) end, w).

Definition bucket (m : Buckets) (identity : string) : list memEntry := default [] (m !! identity).

(* agent/memory/store.go:76-83: entry ID of Store.Remember *)
Definition entry_id (value : T) (w : E) : res string * E :=
  if bool_decide (mt_pk mt value = "") then randomID w else (Ok (mt_pk mt value), w).

(* agent/memory/store.go: Store.Remember *)
Definition Remember (identifier : string) (value : T) (s : MemState) : res unit * MemState :=
  if bool_decide (identifier = "") then (Err (ENew "memory: identifier must not be empty"), s)
  else
    let value := mt_setIdentifier mt identifier value in
    if bool_decide (mt_content mt value = "") then (Err (ENew "memory: content field is empty"), s)
    else
      let '(id, w) := entry_id value (mem_world s) in
      match id with
      | Err e => (Err e, mkMem (mem_entries s) w)
      | Ok id =>
          let '(v, w) := embed (mt_content mt value) w in
          match v with
          | Err e => (Err (EWrap "memory: embed" e), mkMem (mem_entries s) w)
          | Ok v => (Ok tt, mkMem (<[identifier := bucket (mem_entries s) identifier ++ [mkMemEntry id value v]]> (mem_entries s)) w)
          end
      end.

(* agent/memory/store.go: cosineSimilarity *)
Definition mem_cosineSimilarity (a b : list float) : float := cosineSimilarity a b.

Definition f_lt_zero (x : float) : bool := f_gt f_zero x.
Definition f_unit : float := SpecFloat.S754_finite false 4503599627370496 (-52).

(* agent/memory/store.go:101-118: checks of Store.Recall *)
Definition check_recall (identity : string) (q : RecallQuery) : res unit :=
  if bool_decide (identity = "") then Err (ENew "memory: identity must not be empty")
  else if bool_decide (rq_Text q = "") then Err (EWrap "text must not be empty" ErrInvalidRecallQuery)
  else if bool_decide (rq_Limit q < 0)%Z then Err (EWrap "limit must be >= 0" ErrInvalidRecallQuery)
  else if f_is_nan (rq_MinSimilarity q) || f_lt_zero (rq_MinSimilarity q) || f_gt (rq_MinSimilarity q) f_unit
  then Err (EWrap "min similarity must be between 0 and 1" ErrInvalidRecallQuery)
  else if negb (is_nil (rq_Filters q)) then Err (EWrap "in-memory store does not support filters" ErrUnsupportedFilter)
  else if negb (is_nil (rq_Order q)) then Err (EWrap "in-memory store does not support explicit ordering" ErrUnsupportedOrder)
  else Ok tt.

(* agent/memory/store.go:132-154: ranking of Store.Recall *)
Definition rank_bucket (embedding : list float) (q : RecallQuery) (entries : list memEntry) : list Entry :=
  let scored := map (fun e => mkEntryT (me_id e) (me_value e) (mem_cosineSimilarity embedding (me_embedding e))) entries in
  let results := sort_by en_Score (List.filter (fun r => f_is_zero (rq_MinSimilarity q) || f_ge (en_Score r) (rq_MinSimilarity q)) scored) in
  if bool_decide (0 < rq_Limit q)%Z && bool_decide (rq_Limit q < Z.of_nat (length results))%Z
  then take (Z.to_nat (rq_Limit q)) results else results.

(* agent/memory/store.go: Store.Recall *)
Definition Recall (identity : string) (q : RecallQuery) (s : MemState) : res (list Entry) * MemState :=
  match check_recall identity q with
  | Err e => (Err e, s)
  | Ok _ =>
      let '(v, w) := embed (rq_Text q) (mem_world s) in
      match v with
      | Err e => (Err (EWrap "memory: embed query" e), mkMem (mem_entries s) w)
      | Ok v => (Ok (rank_bucket v q (bucket (mem_entries s) identity)), mkMem (mem_entries s) w)
      end
  end.

(** Replace the first entry of the ID. *)
(* agent/memory/store.go:180-185: replacement of Store.Update *)
Fixpoint replace_entry (e : memEntry) (entries : list memEntry) : option (list memEntry) :=
  match entries with
  | [] => None
  | x :: entries => if bool_decide (me_id x = me_id e) then Some (e :: entries) else (fun r => x :: r) <$> replace_entry e entries
  end.

(* agent/memory/store.go: Store.Update *)
Definition Update (identifier id : string) (value : T) (s : MemState) : res unit * MemState :=
  if bool_decide (identifier = "") then (Err (ENew "memory: identifier must not be empty"), s)
  else if bool_decide (id = "") then (Err (ENew "memory: id must not be empty"), s)
  else
    let value := mt_setIdentifier mt identifier value in
    if bool_decide (mt_content mt value = "") then (Err (ENew "memory: content field is empty"), s)
    else
      let '(v, w) := embed (mt_content mt value) (mem_world s) in
      match v with
      | Err e => (Err (EWrap "memory: embed" e), mkMem (mem_entries s) w)
      | Ok v =>
          match replace_entry (mkMemEntry id value v) (bucket (mem_entries s) identifier) with
          | None => (Err (ENew "memory: entry not found"), mkMem (mem_entries s) w)
          | Some b => (Ok tt, mkMem (<[identifier := b]> (mem_entries s)) w)
          end
      end.

(* agent/memory/store.go: Store.ForgetAll *)
Definition ForgetAll (identifier : string) (s : MemState) : res unit * MemState :=
  if bool_decide (identifier = "") then (Err (ENew "memory: identifier must not be empty"), s)
  else (Ok tt, mkMem (delete identifier (mem_entries s)) (mem_world s)).

(** Remove the first entry of the ID. *)
Fixpoint remove_entry (id : string) (entries : list memEntry) : option (list memEntry) :=
  match entries with
  | [] => None
  | x :: entries => if bool_decide (me_id x = id) then Some entries else (fun r => x :: r) <$> remove_entry id entries
  end.

(* agent/memory/store.go: Store.Forget *)
Definition Forget (identifier id : string) (s : MemState) : res unit * MemState :=
  if bool_decide (identifier = "") then (Err (ENew "memory: identifier must not be empty"), s)
  else if bool_decide (id = "") then (Err (ENew "memory: id must not be empty"), s)
  else
    (Ok tt, match remove_entry id (bucket (mem_entries s) identifier) with
            | Some b => mkMem (<[identifier := b]> (mem_entries s)) (mem_world s)
            | None => s
            end).

(** * Tools *)

(* agent/memory/store.go:224-227: toolCfg *)
Record toolCfg := mkToolCfg { tc_name : string; tc_description : string; tc_scope : string }.
(* agent/memory/store.go: WithToolName *)
Definition WithToolName (name : string) (c : toolCfg) : toolCfg :=
  if bool_decide (name <> "") then mkToolCfg name (tc_description c) (tc_scope c) else c.
(* agent/memory/store.go: WithToolDescription *)
Definition WithToolDescription (desc : string) (c : toolCfg) : toolCfg :=
  if bool_decide (desc <> "") then mkToolCfg (tc_name c) desc (tc_scope c) else c.
(* agent/memory/store.go: WithScope *)
Definition WithScope (key : string) (c : toolCfg) : toolCfg := mkToolCfg (tc_name c) (tc_description c) key.

Definition tool_cfg (name description : string) (opts : list (toolCfg -> toolCfg)) : toolCfg :=
  fold_left (fun c o => o c) opts (mkToolCfg name description "").

(** [invocation] is what a handler's context carries; the [unmarshal_*] are json.Unmarshal into [T] and into the
    parameter structs; [show_value] and [show_score] are json.Marshal and the %.4f verb. *)
Context (fields : list StructField) (invocation : HandlerCtx -> Invocation).
Context (unmarshal_value : RawMessage -> res T) (unmarshal_id : RawMessage -> res string) (unmarshal_query : RawMessage -> res (string * Z)).
Context (show_value : T -> string) (show_score : float -> string).

(** A tool whose handler first resolves the identity. *)
Definition identity_tool (cfg : toolCfg) (schema : GoAny) (handler : string -> RawMessage -> MemState -> res string * MemState) : Tool MemState :=
  mkTool (mkSpec (tc_name cfg) (tc_description cfg) (Some schema))
    (Some (fun ctx input s =>
      match ResolveIdentity (invocation ctx) (tc_scope cfg) with
      | Err e => (([], Err e), s)
      | Ok identity => let '(r, s) := handler identity input s in (([], r), s)
      end)) None None false false None.

Definition answer (text : string) (r : res unit * MemState) : res string * MemState :=
  (match r.1 with Ok _ => Ok text | Err e => Err e end, r.2).

(* agent/memory/store.go: NewRememberTool *)
Definition NewRememberTool (opts : list (toolCfg -> toolCfg)) : Tool MemState :=
  identity_tool (tool_cfg "remember" "Store a memory entry for later recall." opts) (schema_value (generateMemSchema fields))
    (fun identity input s =>
      match unmarshal_value input with
      | Err e => (Err (EWrap "memory: unmarshal" e), s)
      | Ok value => answer "Remembered." (Remember identity value s)
      end).

(* agent/memory/store.go: NewUpdateTool *)
Definition NewUpdateTool (opts : list (toolCfg -> toolCfg)) : Tool MemState :=
  identity_tool (tool_cfg "update" "Update an existing memory entry by its ID." opts) (update_schema fields)
    (fun identity input s =>
      match unmarshal_id input with
      | Err e => (Err e, s)
      | Ok id =>
          match unmarshal_value input with
          | Err e => (Err (EWrap "memory: unmarshal" e), s)
          | Ok value => answer "Updated." (Update identity id value s)
          end
      end).

(* agent/memory/store.go:363-371: rendering of NewRecallTool *)
Fixpoint render_entries (first : bool) (results : list Entry) : string :=
  match results with
  | [] => ""
  | r :: results =>
      (if first then "" else newline) +:+ "- " +:+ show_value (en_Value r) +:+ newline +:+ "  ID: " +:+ en_ID r +:+ newline +:+
      "  Score: " +:+ show_score (en_Score r) +:+ render_entries false results
  end.

(* agent/memory/store.go: NewRecallTool *)
Definition NewRecallTool (opts : list (toolCfg -> toolCfg)) : Tool MemState :=
  identity_tool (tool_cfg "recall" "Retrieve relevant memory entries by semantic similarity." opts)
    (AObj [("type", AStr "object");
      ("properties", AObj [("query", AObj [("type", AStr "string"); ("description", AStr "A natural-language query describing what to recall.")]);
                           ("limit", AObj [("type", AStr "integer"); ("description", AStr "Maximum number of results. Defaults to 5.")])]);
      ("required", AArr [AStr "query"])])
    (fun identity input s =>
      match unmarshal_query input with
      | Err e => (Err e, s)
      | Ok (query, limit) =>
          let limit := if bool_decide (limit = 0)%Z then 5%Z else limit in
          let '(r, s) := Recall identity (mkRecall query limit f_zero [] []) s in
          (match r with
           | Err e => Err e
           | Ok results => if is_nil results then Ok "No relevant memories found." else Ok (render_entries true results)
           end, s)
      end).

(* agent/memory/store.go: NewForgetTool *)
Definition NewForgetTool (opts : list (toolCfg -> toolCfg)) : Tool MemState :=
  identity_tool (tool_cfg "forget" "Remove a specific memory entry by its ID." opts)
    (AObj [("type", AStr "object");
      ("properties", AObj [("id", AObj [("type", AStr "string"); ("description", AStr "The ID of the entry to forget.")])]);
      ("required", AArr [AStr "id"])])
    (fun identity input s =>
      match unmarshal_id input with
      | Err e => (Err e, s)
      | Ok id => answer "Forgotten." (Forget identity id s)
      end).

End Memory.

Arguments MemType T : clear implicits.
Arguments memEntry T : clear implicits.
Arguments Entry T : clear implicits.
Arguments MemState T E : clear implicits.


(** What semantic memory promises: entries stay with their identity, what was remembered is
    recalled, and recall returns the most similar entries. *)

(** * Operations as steps *)

Inductive mem_op (T : Type) : Type :=
| ORemember (identity : string) (value : T)
| ORecall (identity : string) (q : RecallQuery)
| OUpdate (identity id : string) (value : T)
| OForget (identity id : string)
| OForgetAll (identity : string).
Arguments ORemember {T} identity value.
Arguments ORecall {T} identity q.
Arguments OUpdate {T} identity id value.
Arguments OForget {T} identity id.
Arguments OForgetAll {T} identity.

Definition op_identity {T} (o : mem_op T) : string :=
  match o with ORemember i _ | ORecall i _ | OUpdate i _ _ | OForget i _ | OForgetAll i => i end.

Section Props.
Context {T E : Type} (mt : MemType T) (embed : string -> E -> res (list float) * E) (random : E -> res (list N) * E).

Definition mem_step (s : MemState T E) (o : mem_op T) : MemState T E :=
  match o with
  | ORemember i v => snd (Remember mt embed random i v s)
  | ORecall i q => snd (Recall embed i q s)
  | OUpdate i id v => snd (Update mt embed i id v s)
  | OForget i id => snd (Forget i id s)
  | OForgetAll i => snd (ForgetAll i s)
  end.

(** How an operation changes the bucket of its identity. *)
Inductive bucket_change (i : string) : list (memEntry T) -> list (memEntry T) -> Prop :=
| change_none b : bucket_change i b b
| change_append b id v e : bucket_change i b (b ++ [mkMemEntry id (mt_setIdentifier mt i v) e])
| change_replace b b' id v e : replace_entry (mkMemEntry id (mt_setIdentifier mt i v) e) b = Some b' -> bucket_change i b b'
| change_remove b b' id : remove_entry id b = Some b' -> bucket_change i b b'
| change_clear b : bucket_change i b [].

Lemma bucket_insert (m : gmap string (list (memEntry T))) i b k : bucket (<[i := b]> m) k = if bool_decide (k = i) then b else bucket m k.
Proof. unfold bucket. case_bool_decide as Hk; [subst; by rewrite lookup_insert_eq|by rewrite lookup_insert_ne]. Qed.

(** Every operation changes at most the bucket of its identity, in one of these ways. *)
Lemma mem_step_change s o k :
  if bool_decide (k = op_identity o) then bucket_change k (bucket (mem_entries s) k) (bucket (mem_entries (mem_step s o)) k)
  else bucket (mem_entries (mem_step s o)) k = bucket (mem_entries s) k.
Proof.
  assert (Hsame : forall s' : MemState T E, mem_entries s' = mem_entries s ->
    if bool_decide (k = op_identity o) then bucket_change k (bucket (mem_entries s) k) (bucket (mem_entries s') k)
    else bucket (mem_entries s') k = bucket (mem_entries s) k).
  { intros s' ->. case_bool_decide; [constructor|done]. }
  destruct o as [i v|i q|i id v|i id|i]; cbn [mem_step op_identity] in *.
  - unfold Remember. destruct (bool_decide (i = "")); [by apply Hsame|]. destruct (bool_decide (mt_content _ _ = "")); [by apply Hsame|].
    destruct (entry_id _ _ _ _) as [[id|] w]; [|by apply Hsame]. destruct (embed _ w) as [[e|] w']; [|by apply Hsame].
    cbn. rewrite bucket_insert. case_bool_decide; [subst; constructor|done].
  - unfold Recall. destruct (check_recall i q); [|by apply Hsame]. destruct (embed _ _) as [[e|] w']; by apply Hsame.
  - unfold Update. destruct (bool_decide (i = "")); [by apply Hsame|]. destruct (bool_decide (id = "")); [by apply Hsame|]. destruct (bool_decide (mt_content _ _ = "")); [by apply Hsame|].
    destruct (embed _ _) as [[e|] w']; [|by apply Hsame]. destruct (replace_entry _ _) as [b|] eqn:Eb; [|by apply Hsame].
    cbn. rewrite bucket_insert. case_bool_decide; [subst; by econstructor|done].
  - unfold Forget. destruct (bool_decide (i = "")); [by apply Hsame|]. destruct (bool_decide (id = "")); [by apply Hsame|]. destruct (remove_entry _ _) as [b|] eqn:Eb; [|by apply Hsame].
    cbn. rewrite bucket_insert. case_bool_decide; [subst; by econstructor|done].
  - unfold ForgetAll. destruct (bool_decide (i = "")); [by apply Hsame|]. cbn. unfold bucket at 2 3. case_bool_decide; [subst; rewrite lookup_delete_eq; constructor|].
    by rewrite lookup_delete_ne.
Qed.

(** An invariant of the entries of an identity that holds of what is stored for it. *)
Section Entries.
Context (P : string -> memEntry T -> Prop).
Hypothesis P_stored : forall i id v e, P i (mkMemEntry id (mt_setIdentifier mt i v) e).

Lemma replace_Forall i e b b' : P i e -> replace_entry e b = Some b' -> Forall (P i) b -> Forall (P i) b'.
Proof.
  intros He. revert b'. induction b as [|x b IH]; intros b'; cbn; [done|]. case_bool_decide; [intros [= <-] [_ ?]%Forall_cons; by constructor|].
  destruct (replace_entry e b); [|done]. intros [= <-] [Hx Hb]%Forall_cons. constructor; [done|by apply IH].
Qed.
Lemma remove_Forall i id b b' : remove_entry id b = Some b' -> Forall (P i) b -> Forall (P i) b'.
Proof.
  revert b'. induction b as [|x b IH]; intros b'; cbn; [done|]. case_bool_decide; [by intros [= <-] [_ ?]%Forall_cons|].
  destruct (remove_entry id b); [|done]. intros [= <-] [Hx Hb]%Forall_cons. constructor; [done|by apply IH].
Qed.
Lemma change_Forall i b b' : bucket_change i b b' -> Forall (P i) b -> Forall (P i) b'.
Proof.
  destruct 1 as [b|b id v e|b b' id v e Hr|b b' id Hr|b]; intros Hb; [done|apply Forall_app; split; [done|by constructor]
    |by eapply replace_Forall|by eapply remove_Forall|constructor].
Qed.

Lemma steps_Forall ops w k : Forall (P k) (bucket (mem_entries (fold_left mem_step ops (mkMem ∅ w))) k).
Proof.
  assert (H0 : Forall (P k) (bucket (mem_entries (mkMem (∅ : gmap string (list (memEntry T))) w)) k)) by (cbn; unfold bucket; rewrite lookup_empty; constructor).
  revert H0. generalize (mkMem (∅ : gmap string (list (memEntry T))) w). induction ops as [|o ops IH]; intros s H0; [done|]. cbn [fold_left]. apply IH.
  pose proof (mem_step_change s o k) as Hc. case_bool_decide; [by eapply change_Forall|by rewrite Hc].
Qed.
End Entries.

(** ** Recall *)

Lemma rank_bucket_perm v q (entries : list (memEntry T)) : exists rest,
  rank_bucket v q entries ++ rest ≡ₚ List.filter (fun r => f_is_zero (rq_MinSimilarity q) || f_ge (en_Score r) (rq_MinSimilarity q))
    (map (fun e => mkEntryT (me_id e) (me_value e) (mem_cosineSimilarity v (me_embedding e))) entries).
Proof.
  unfold rank_bucket. set (xs := List.filter _ _). destruct (bool_decide _ && bool_decide _).
  - exists (drop (Z.to_nat (rq_Limit q)) (sort_by en_Score xs)). by rewrite take_drop, sort_by_perm.
  - exists []. by rewrite app_nil_r, sort_by_perm.
Qed.

Lemma rank_bucket_elem v q (entries : list (memEntry T)) r : r ∈ rank_bucket v q entries ->
  exists e, e ∈ entries /\ r = mkEntryT (me_id e) (me_value e) (mem_cosineSimilarity v (me_embedding e)) /\
    (f_is_zero (rq_MinSimilarity q) || f_ge (en_Score r) (rq_MinSimilarity q) = true).
Proof.
  intros Hr. destruct (rank_bucket_perm v q entries) as [rest Hp].
  assert (Hin : r ∈ rank_bucket v q entries ++ rest) by set_solver. rewrite Hp in Hin.
  apply list_elem_of_In, filter_In in Hin as [Hin Hq]. apply in_map_iff in Hin as (e & <- & He). exists e. by rewrite list_elem_of_In.
Qed.

End Props.

(** Memory is partitioned by identity: after any sequence of operations from an empty store, whatever Recall
    returns for an identity carries that identity in its identifier field; and an operation for
    another identity leaves the entries of this one as they are. *)
Theorem memory_partitioned {T E} (mt : MemType T) (embed : string -> E -> res (list float) * E) random (ident_of : T -> string) w ops identity :
  (forall i v, ident_of (mt_setIdentifier mt i v) = i) ->
  let s := fold_left (mem_step mt embed random) ops (mkMem ∅ w) in
  (forall q, match fst (Recall embed identity q s) with
     | Ok results => Forall (fun r => ident_of (en_Value r) = identity) results
     | Err _ => True end) /\
  (forall o, op_identity o <> identity -> bucket (mem_entries (mem_step mt embed random s o)) identity = bucket (mem_entries s) identity).
Proof.
  intros Hset s. split.
  - intros q. unfold Recall. destruct (check_recall identity q); [|done]. destruct (embed _ _) as [[v|] w']; [|done]. cbn.
    apply Forall_forall. intros r (e & He & -> & _)%rank_bucket_elem. cbn.
    pose proof (steps_Forall mt embed random (fun i e => ident_of (me_value e) = i) ltac:(intros; apply Hset) ops w identity) as Hf.
    exact (proj1 (Forall_forall _ _) Hf e He).
  - intros o Ho. pose proof (mem_step_change mt embed random s o identity) as Hc. by rewrite bool_decide_false in Hc by done.
Qed.

(** What is remembered is recalled: after a successful Remember, an unlimited Recall of the same
    identity that succeeds returns an entry with the remembered value, under its primary key when it has one. *)
Theorem Remember_Recall_roundtrip {T E} (mt : MemType T) (embed : string -> E -> res (list float) * E) random identity value s s1 text results s2 :
  Remember mt embed random identity value s = (Ok tt, s1) ->
  Recall embed identity (mkRecall text 0 f_zero [] []) s1 = (Ok results, s2) ->
  exists r, r ∈ results /\ en_Value r = mt_setIdentifier mt identity value /\
    (mt_pk mt (mt_setIdentifier mt identity value) <> "" -> en_ID r = mt_pk mt (mt_setIdentifier mt identity value)).
Proof.
  unfold Remember, Recall. case_bool_decide; [done|]. destruct (bool_decide (mt_content _ _ = "")); [done|].
  destruct (entry_id _ _ _ _) as [[id|] w] eqn:Eid; [|done]. destruct (embed _ w) as [[e|] w']; [|done]. intros [= <-].
  destruct (check_recall _ _); [|done]. cbn. destruct (embed text w') as [[v|] w'']; [|done]. intros [= <- _].
  rewrite bucket_insert, bool_decide_true by done. set (b := bucket _ _ ++ _).
  exists (mkEntryT id (mt_setIdentifier mt identity value) (mem_cosineSimilarity v e)). split_and!; [|done|].
  - unfold rank_bucket. cbn [rq_Limit rq_MinSimilarity]. rewrite (bool_decide_false (0 < 0)%Z) by lia. cbn [andb].
    rewrite (sort_by_perm en_Score).
    apply list_elem_of_In, filter_In. split; [|done]. apply in_map_iff. exists (mkMemEntry id (mt_setIdentifier mt identity value) e).
    split; [done|]. apply in_app_iff. right. by left.
  - intros Hpk. cbn. unfold entry_id in Eid. rewrite bool_decide_false in Eid by done. by injection Eid.
Qed.

(** * Concrete memories *)

(** Values with identifier, primary key and content. *)
Definition note : Type := string * string * string.
Definition note_type : MemType note := mkMemType (fun i v => (i, v.1.2, v.2)) (fun v => v.2) (fun v => v.1.2).
Definition note_embed (t : string) (w : unit) : res (list float) * unit := (Ok [f_unit], w).
Definition note_random (w : unit) : res (list N) * unit := (Ok (repeat 171%N 16), w).
Definition note_ops : list (mem_op note) :=
  [ORemember "ann" ("", "k1", "likes tea"); ORemember "bob" ("", "k1", "likes coffee"); OUpdate "ann" "k1" ("", "", "likes green tea"); OForget "bob" "x"].

Lemma memory_partitioned_witness :
  let s := fold_left (mem_step note_type note_embed note_random) note_ops (mkMem ∅ tt) in
  map me_value (bucket (mem_entries s) "ann") = [("ann", "", "likes green tea")] /\
  bucket (mem_entries (mem_step note_type note_embed note_random s (OForgetAll "bob"))) "ann" = bucket (mem_entries s) "ann".
Proof.
  intros s. split; [vm_compute; reflexivity|].
  refine (proj2 (memory_partitioned note_type note_embed note_random (fun v => v.1.1) tt note_ops "ann" _) (OForgetAll "bob") _); [reflexivity|discriminate].
Defined.

Lemma Remember_Recall_roundtrip_witness :
  exists s1 results s2, Remember note_type note_embed note_random "ann" ("", "k1", "likes tea") (mkMem ∅ tt) = (Ok tt, s1) /\
    Recall note_embed "ann" (mkRecall "drink?" 0 f_zero [] []) s1 = (Ok results, s2) /\
    exists r, r ∈ results /\ en_Value r = ("ann", "k1", "likes tea").
Proof.
  do 3 eexists. split; [vm_compute; reflexivity|]. split; [vm_compute; reflexivity|].
  edestruct (fun s1 => Remember_Recall_roundtrip note_type note_embed note_random "ann" ("", "k1", "likes tea") (mkMem ∅ tt) s1 "drink?") as (r & Hr & Hv & _);
    [vm_compute; reflexivity|vm_compute; reflexivity|]. exists r. split; [exact Hr|exact Hv].
Defined.

(** A primary key is not unique in the in-process memory: two Remember calls with the same key
    both append, so after a Forget of the key that reports success an entry with that key is still recalled. *)
Theorem Forget_leaves_duplicate {T E} (mt : MemType T) (embed : string -> E -> res (list float) * E) random identity key v1 v2 s s1 s2 :
  mt_pk mt (mt_setIdentifier mt identity v1) = key -> mt_pk mt (mt_setIdentifier mt identity v2) = key -> key <> "" ->
  Remember mt embed random identity v1 s = (Ok tt, s1) -> Remember mt embed random identity v2 s1 = (Ok tt, s2) ->
  exists s3 e, Forget identity key s2 = (Ok tt, s3) /\ e ∈ bucket (mem_entries s3) identity /\ me_id e = key.
Proof.
  intros H1 H2 Hk R1 R2.
  assert (Hrem : forall v (s s' : MemState T E), mt_pk mt (mt_setIdentifier mt identity v) = key -> Remember mt embed random identity v s = (Ok tt, s') ->
    identity <> "" /\ exists e, me_id e = key /\ bucket (mem_entries s') identity = bucket (mem_entries s) identity ++ [e]).
  { intros v s' s'' Hv. unfold Remember. case_bool_decide; [done|]. destruct (bool_decide (mt_content _ _ = "")); [done|].
    unfold entry_id. rewrite Hv, (bool_decide_false (key = "")) by done. destruct (embed _ _) as [[e|] w]; [|done].
    intros [= <-]. split; [done|]. exists (mkMemEntry key (mt_setIdentifier mt identity v) e). split; [done|]. cbn. by rewrite bucket_insert, bool_decide_true. }
  destruct (Hrem _ _ _ H1 R1) as (Hi & e1 & He1 & Hb1). destruct (Hrem _ _ _ H2 R2) as (_ & e2 & He2 & Hb2).
  assert (Hr : exists b, remove_entry key (bucket (mem_entries s2) identity) = Some b /\ e2 ∈ b).
  { rewrite Hb2, Hb1, <- app_assoc. generalize (bucket (mem_entries s) identity). intros b. induction b as [|x b [b' [Hb' Hin]]]; cbn.
    - rewrite bool_decide_true by done. eexists. split; [done|]. cbn. set_solver.
    - case_bool_decide; [eexists; split; [done|]; cbn; set_solver|]. cbn in Hb'. rewrite Hb'. eexists. split; [done|]. set_solver. }
  destruct Hr as (b & Hb & Hin). unfold Forget. rewrite !bool_decide_false by done. rewrite Hb. eexists _, e2. split_and!; [done| |done].
  cbn. by rewrite bucket_insert, bool_decide_true.
Qed.

Lemma Forget_leaves_duplicate_witness :
  exists s1 s2, Remember note_type note_embed note_random "ann" ("", "k1", "old") (mkMem ∅ tt) = (Ok tt, s1) /\
    Remember note_type note_embed note_random "ann" ("", "k1", "new") s1 = (Ok tt, s2) /\
    exists s3 e, Forget "ann" "k1" s2 = (Ok tt, s3) /\ e ∈ bucket (mem_entries s3) "ann" /\ me_id e = "k1".
Proof.
  do 2 eexists. split; [vm_compute; reflexivity|]. split; [vm_compute; reflexivity|].
  eapply (Forget_leaves_duplicate note_type note_embed note_random "ann" "k1" ("", "k1", "old") ("", "k1", "new") (mkMem ∅ tt));
    [reflexivity|reflexivity|discriminate|vm_compute; reflexivity|vm_compute; reflexivity].
Defined.
