(* ===== verification/Construct.v ===== *)
(** Construction of an agent (agent/agent.go and agent/options.go): every option as a step on the agent
    under construction, New with its final checks, and the settings an agent can have. *)
From S2P Require Import Prelude Errors Messages Normalize Execution Schema Tool Inference.
From S2P Require Import Stores EventSink State ToolBatch ToolExec.

(* agent/options.go:67-77: ToolExecutionMode *)
Definition ToolExecutionParallel : Z := 0.
Definition ToolExecutionSequential : Z := 1.

(* agent/options.go: ToolExecutionMode.String *)
Definition mode_string (show : Z -> string) (m : Z) : string :=
  if bool_decide (m = ToolExecutionParallel) then "parallel"
  else if bool_decide (m = ToolExecutionSequential) then "sequential"
  else "ToolExecutionMode(" +:+ show m +:+ ")".

Section Construct.
Context {W : Type}.

(** A pointer to a registry: the agent's own, or one that the application shares and keeps in the world. *)
Inductive RegistryRef : Type :=
| OwnRegistry (r : Registry W)
| SharedRegistry (read : W -> Registry W) (write : Registry W -> W -> W).

Definition registry_of (ref : RegistryRef) (w : W) : Registry W :=
  match ref with OwnRegistry r => r | SharedRegistry read _ => read w end.
Definition put_registry (ref : RegistryRef) (r : Registry W) (w : W) : RegistryRef * W :=
  match ref with OwnRegistry _ => (OwnRegistry r, w) | SharedRegistry _ write => (ref, write r w) end.

(** The struct as New fills it; observers only by their number. *)
(* agent/agent.go:17-60: Agent under construction *)
Record Builder := mkBuilder {
  b_name : string; b_provider : Provider W; b_instructions : string; b_toolRegistry : RegistryRef;
  b_inferenceConfig : option InferenceConfig; b_maxIterations : Z; b_tokenBudget : Z;
  b_toolExecution : Z; b_maxConcurrentTools : Z;
  b_conversation : option (ConversationStore W); b_contextManager : option (ContextManager W);
  b_executionStore : option (ExecutionStore W);
  b_normStrategy : option NormStrategy; b_normDisabled : bool;
  b_retriever : option (string -> W -> res (list string) * W); b_contextFormatter : option (list string -> string);
  b_middlewares : list (Middleware W);
  b_inputGuardrails : list (string -> W -> res string * W); b_outputGuardrails : list (string -> W -> res string * W);
  b_toolVisibility : list (ToolVisibility W);
  b_rateLimiter : option (RateLimiter W); b_rateLimitKey : option (W -> string);
  b_providerTimeout : Z; b_observers : nat }.

#[global] Instance eta_Builder : Settable Builder := fun b =>
  mkBuilder (b_name b) (b_provider b) (b_instructions b) (b_toolRegistry b) (b_inferenceConfig b) (b_maxIterations b)
    (b_tokenBudget b) (b_toolExecution b) (b_maxConcurrentTools b) (b_conversation b) (b_contextManager b) (b_executionStore b)
    (b_normStrategy b) (b_normDisabled b) (b_retriever b) (b_contextFormatter b) (b_middlewares b) (b_inputGuardrails b)
    (b_outputGuardrails b) (b_toolVisibility b) (b_rateLimiter b) (b_rateLimitKey b) (b_providerTimeout b) (b_observers b).

(** An option runs on the agent and may change a shared registry even when it fails. *)
(* agent/options.go:19-20: Option *)
Definition AgentOption : Type := Builder -> W -> res Builder * W.

Definition setting (f : Builder -> Builder) : AgentOption := fun b w => (Ok (f b), w).
Definition checked (ok : bool) (msg : string) (f : Builder -> Builder) : AgentOption := fun b w =>
  if ok then (Ok (f b), w) else (Err (ENew msg), w).
(** An option whose argument is an interface or function that must not be nil. *)
Definition required {A} (arg : option A) (msg : string) (f : A -> Builder -> Builder) : AgentOption := fun b w =>
  match arg with Some x => (Ok (f x b), w) | None => (Err (ENew msg), w) end.

(* agent/options.go: WithName *)
Definition WithName (name : string) : AgentOption := setting (fun b => b <| b_name := name |>).
(* agent/options.go: WithMaxIterations *)
Definition WithMaxIterations (n : Z) : AgentOption :=
  checked (negb (bool_decide (n < 1)%Z)) "maxIterations must be >= 1" (fun b => b <| b_maxIterations := n |>).

(* agent/options.go: WithTools *)
Fixpoint WithTools (tools : list (Tool W)) (b : Builder) (w : W) : res Builder * W :=
  match tools with
  | [] => (Ok b, w)
  | t :: tools =>
      match Register (registry_of (b_toolRegistry b) w) t with
      | Err e => (Err e, w)
      | Ok r => let '(ref, w) := put_registry (b_toolRegistry b) r w in WithTools tools (b <| b_toolRegistry := ref |>) w
      end
  end.

(* agent/options.go: WithToolRegistry *)
Definition WithToolRegistry (registry : option ((W -> Registry W) * (Registry W -> W -> W))) : AgentOption :=
  required registry "tool registry must not be nil" (fun r b => b <| b_toolRegistry := SharedRegistry r.1 r.2 |>).
(* agent/options.go: WithToolExecution *)
Definition WithToolExecution (mode : Z) : AgentOption :=
  checked (bool_decide (mode = ToolExecutionParallel) || bool_decide (mode = ToolExecutionSequential)) "WithToolExecution: unknown mode"
    (fun b => b <| b_toolExecution := mode |>).
(* agent/options.go: WithMaxConcurrentTools *)
Definition WithMaxConcurrentTools (n : Z) : AgentOption :=
  checked (negb (bool_decide (n < 1)%Z)) "WithMaxConcurrentTools: n must be >= 1" (fun b => b <| b_maxConcurrentTools := n |>).
(* agent/options.go: WithConversationStore *)
Definition WithConversationStore (c : option (ConversationStore W)) : AgentOption := setting (fun b => b <| b_conversation := c |>).
(* agent/options.go: WithExecutionStore *)
Definition WithExecutionStore (store : option (ExecutionStore W)) : AgentOption :=
  required store "WithExecutionStore: store must not be nil" (fun s b => b <| b_executionStore := Some s |>).
(* agent/options.go: WithContextManager *)
Definition WithContextManager (manager : option (ContextManager W)) : AgentOption :=
  required manager "context manager must not be nil" (fun m b => b <| b_contextManager := Some m |>).
(* agent/options.go: WithMiddleware *)
Definition WithMiddleware (mws : list (Middleware W)) : AgentOption := setting (fun b => b <| b_middlewares := b_middlewares b ++ mws |>).
(* agent/options.go: WithInputGuardrail *)
Definition WithInputGuardrail (g : list (string -> W -> res string * W)) : AgentOption :=
  setting (fun b => b <| b_inputGuardrails := b_inputGuardrails b ++ g |>).
(* agent/options.go: WithOutputGuardrail *)
Definition WithOutputGuardrail (g : list (string -> W -> res string * W)) : AgentOption :=
  setting (fun b => b <| b_outputGuardrails := b_outputGuardrails b ++ g |>).
(* agent/options.go: WithToolVisibility *)
Definition WithToolVisibility (rules : list (option (ToolVisibility W))) : AgentOption :=
  required (mapM id rules) "WithToolVisibility: rule must not be nil" (fun rs b => b <| b_toolVisibility := b_toolVisibility b ++ rs |>).
(* agent/options.go: WithTokenBudget *)
Definition WithTokenBudget (maxTokens : Z) : AgentOption :=
  checked (negb (bool_decide (maxTokens < 0)%Z)) "token budget must be >= 0" (fun b => b <| b_tokenBudget := maxTokens |>).
(* agent/options.go: WithRateLimiter *)
Definition WithRateLimiter (rl : option (RateLimiter W)) : AgentOption := setting (fun b => b <| b_rateLimiter := rl |>).
(* agent/options.go: WithRateLimitKey *)
Definition WithRateLimitKey (fn : option (W -> string)) : AgentOption :=
  required fn "WithRateLimitKey: fn must not be nil" (fun f b => b <| b_rateLimitKey := Some f |>).
(* agent/options.go: WithRetriever *)
Definition WithRetriever (r : option (string -> W -> res (list string) * W)) : AgentOption := setting (fun b => b <| b_retriever := r |>).
(* agent/options.go: WithContextFormatter *)
Definition WithContextFormatter (f : option (list string -> string)) : AgentOption := setting (fun b => b <| b_contextFormatter := f |>).

(** The strategies are the values 0, 1 and 2. *)
Definition norm_of (s : Z) : option NormStrategy :=
  if bool_decide (s = 0)%Z then Some NormMerge else if bool_decide (s = 1)%Z then Some NormFill
  else if bool_decide (s = 2)%Z then Some NormRemove else None.
(* agent/options.go: WithNormalization *)
Definition WithNormalization (s : Z) : AgentOption :=
  required (norm_of s) "invalid normalization strategy" (fun n b => b <| b_normStrategy := Some n |> <| b_normDisabled := false |>).
(* agent/options.go: WithoutNormalization *)
Definition WithoutNormalization : AgentOption := setting (fun b => b <| b_normDisabled := true |>).
(* agent/options.go: WithProviderTimeout *)
Definition WithProviderTimeout (d : Z) : AgentOption :=
  checked (negb (bool_decide (d < 0)%Z)) "timeout must be non-negative" (fun b => b <| b_providerTimeout := d |>).

Definition inference (f : InferenceConfig -> InferenceConfig) (b : Builder) : Builder :=
  b <| b_inferenceConfig := Some (f (default (mkInference None None None None None) (b_inferenceConfig b))) |>.
(* agent/options.go: WithTemperature *)
Definition WithTemperature (v : float64) : AgentOption :=
  checked (negb (lt_zero v || gt_one v)) "temperature must be between 0.0 and 1.0" (inference (fun c => c <| ic_Temperature := Some v |>)).
(* agent/options.go: WithTopP *)
Definition WithTopP (v : float64) : AgentOption :=
  checked (negb (lt_zero v || gt_one v)) "top_p must be between 0.0 and 1.0" (inference (fun c => c <| ic_TopP := Some v |>)).
(* agent/options.go: WithTopK *)
Definition WithTopK (v : Z) : AgentOption :=
  checked (negb (bool_decide (v < 1)%Z)) "top_k must be >= 1" (inference (fun c => c <| ic_TopK := Some v |>)).
(* agent/options.go: WithStopSequences *)
Definition WithStopSequences (s : option (list string)) : AgentOption := setting (inference (fun c => c <| ic_StopSequences := s |>)).
(* agent/options.go: WithMaxOutputTokens *)
Definition WithMaxOutputTokens (n : Z) : AgentOption :=
  checked (negb (bool_decide (n < 1)%Z)) "max_tokens must be >= 1" (inference (fun c => c <| ic_MaxTokens := Some n |>)).

(** [supported] is supportsObserver of the argument. *)
(* agent/options.go: WithObserver *)
Definition WithObserver (supported : bool) : AgentOption :=
  checked supported "WithObserver: implements no observer capability" (fun b => b <| b_observers := S (b_observers b) |>).

(** ** New *)

(* agent/agent.go:73-80: options of New *)
Fixpoint apply_options (opts : list (option AgentOption)) (b : Builder) (w : W) : res Builder * W :=
  match opts with
  | [] => (Ok b, w)
  | None :: opts => apply_options opts b w
  | Some opt :: opts =>
      let '(r, w) := opt b w in
      match r with Err e => (Err e, w) | Ok b => apply_options opts b w end
  end.

(* agent/agent.go:84-88: tools of New *)
Fixpoint validate_tools (ts : list (Tool W)) : res unit :=
  match ts with
  | [] => Ok tt
  | t :: ts => letr _ := Tool_Validate t in validate_tools ts
  end.

(* agent/agent.go:81-98: checks of New *)
Definition check_built (b : Builder) (w : W) : res Builder :=
  letr _ := validate_tools (Registry_List (registry_of (b_toolRegistry b) w)) in
  if bool_decide (is_Some (b_executionStore b)) && negb (bool_decide (is_Some (b_conversation b)))
  then Err (ENew "ExecutionStore requires ConversationStore")
  else if bool_decide (b_toolExecution b = ToolExecutionSequential) && bool_decide (1 < b_maxConcurrentTools b)%Z
  then Err (ENew "WithToolExecution(ToolExecutionSequential) conflicts with WithMaxConcurrentTools")
  else if bool_decide (is_Some (b_rateLimitKey b)) && negb (bool_decide (is_Some (b_rateLimiter b)))
  then Err (ENew "WithRateLimitKey requires WithRateLimiter")
  else Ok b.

(* agent/agent.go:67-72: agent before the options *)
Definition initial_builder (provider : Provider W) (instructions : string) : Builder :=
  mkBuilder "" provider instructions (OwnRegistry ∅) None 10 0 ToolExecutionParallel 0 None None None None false None None
    [] [] [] [] None None 0 0.

(* agent/agent.go: New *)
Definition New (provider : option (Provider W)) (instructions : string) (opts : list (option AgentOption)) (w : W) : res Builder * W :=
  match provider with
  | None => (Err (ENew "provider is required"), w)
  | Some provider =>
      let '(r, w) := apply_options opts (initial_builder provider instructions) w in
      match r with
      | Err e => (Err e, w)
      | Ok b => (check_built b w, w)
      end
  end.

(* agent/agent.go: RAGAgent *)
Definition RAGAgent (provider : option (Provider W)) (instructions : string) (retriever : option (string -> W -> res (list string) * W))
  (opts : list (option AgentOption)) (w : W) : res Builder * W :=
  match retriever with
  | None => (Err (ESentinel ErrRetrieverRequired), w)
  | Some r => New provider instructions (Some (WithRetriever (Some r)) :: opts) w
  end.

(* agent/agent.go: Agent.ToolSpecs *)
Definition ToolSpecs (b : Builder) (w : W) : list Spec := map t_Spec (Registry_List (registry_of (b_toolRegistry b) w)).

(** The agent the engine runs; [env] supplies its surroundings (random source, contexts, consumer, scheduler)
    and [default_format] the formatter used when none is set. *)
Definition built (env : Agent W) (default_format : list string -> string) (b : Builder) : Agent W :=
  mkAgent (b_provider b) (b_instructions b) (registry_of (b_toolRegistry b)) (b_inferenceConfig b) (b_maxIterations b) (b_tokenBudget b)
    (bool_decide (b_toolExecution b = ToolExecutionSequential)) (b_maxConcurrentTools b) (b_conversation b) (b_contextManager b)
    (b_executionStore b) (b_normStrategy b) (b_normDisabled b) (b_retriever b) (default default_format (b_contextFormatter b))
    (b_middlewares b) (b_inputGuardrails b) (b_outputGuardrails b) (fun _ => b_toolVisibility b) (b_rateLimiter b) (b_rateLimitKey b)
    (a_random env) (a_ctxErr env) (a_yield env) (a_schedule env).

End Construct.

Arguments Builder W : clear implicits.
Arguments AgentOption W : clear implicits.
Arguments RegistryRef W : clear implicits.


(** What construction guarantees: the ranges and combinations of settings an agent can have, whatever options it
    was built with. *)

Section Props.
Context {W : Type}.

(** The options of the package. *)
Inductive library_option : AgentOption W -> Prop :=
| lo_Name n : library_option (WithName n)
| lo_MaxIterations n : library_option (WithMaxIterations n)
| lo_Tools ts : library_option (WithTools ts)
| lo_ToolRegistry r : library_option (WithToolRegistry r)
| lo_ToolExecution m : library_option (WithToolExecution m)
| lo_MaxConcurrentTools n : library_option (WithMaxConcurrentTools n)
| lo_ConversationStore c : library_option (WithConversationStore c)
| lo_ExecutionStore s : library_option (WithExecutionStore s)
| lo_ContextManager m : library_option (WithContextManager m)
| lo_Middleware ms : library_option (WithMiddleware ms)
| lo_InputGuardrail g : library_option (WithInputGuardrail g)
| lo_OutputGuardrail g : library_option (WithOutputGuardrail g)
| lo_ToolVisibility rs : library_option (WithToolVisibility rs)
| lo_TokenBudget n : library_option (WithTokenBudget n)
| lo_RateLimiter rl : library_option (WithRateLimiter rl)
| lo_RateLimitKey f : library_option (WithRateLimitKey f)
| lo_Retriever r : library_option (WithRetriever r)
| lo_ContextFormatter f : library_option (WithContextFormatter f)
| lo_Normalization s : library_option (WithNormalization s)
| lo_NoNormalization : library_option WithoutNormalization
| lo_ProviderTimeout d : library_option (WithProviderTimeout d)
| lo_Temperature v : library_option (WithTemperature v)
| lo_TopP v : library_option (WithTopP v)
| lo_TopK v : library_option (WithTopK v)
| lo_StopSequences s : library_option (WithStopSequences s)
| lo_MaxOutputTokens n : library_option (WithMaxOutputTokens n)
| lo_Observer o : library_option (WithObserver o).

(** The ranges that every option keeps. *)
Record ranges_ok (b : Builder W) : Prop := {
  ro_iterations : (1 <= b_maxIterations b)%Z;
  ro_budget : (0 <= b_tokenBudget b)%Z;
  ro_concurrent : (0 <= b_maxConcurrentTools b)%Z;
  ro_mode : b_toolExecution b = ToolExecutionParallel \/ b_toolExecution b = ToolExecutionSequential;
  ro_timeout : (0 <= b_providerTimeout b)%Z;
  ro_inference : validateInferenceConfig (b_inferenceConfig b) = Ok tt }.

Lemma WithTools_ranges ts : forall b w b' w', WithTools ts b w = (Ok b', w') -> ranges_ok b -> ranges_ok b'.
Proof.
  induction ts as [|t ts IH]; intros b w b' w'; cbn; [by intros [= <- _]|]. destruct (Register _ _); [|done].
  destruct (put_registry _ _ _) as [ref w1]. intros Hw Hb. apply (IH _ _ _ _ Hw). by destruct Hb.
Qed.

(** The checks of an inference configuration are independent. *)
Lemma validate_fields c : validateInferenceConfig (Some c) = Ok tt <->
  check_set (fun f => lt_zero f || gt_one f) "temperature must be between 0.0 and 1.0" (ic_Temperature c) = Ok tt /\
  check_set (fun f => lt_zero f || gt_one f) "top_p must be between 0.0 and 1.0" (ic_TopP c) = Ok tt /\
  check_set (fun k => bool_decide (k < 1)%Z) "top_k must be >= 1" (ic_TopK c) = Ok tt /\
  check_set (fun k => bool_decide (k < 1)%Z) "max_tokens must be >= 1" (ic_MaxTokens c) = Ok tt.
Proof.
  unfold validateInferenceConfig, res_bind. repeat (destruct (check_set _ _ _) as [[]|]; [|split; [done|by intros (? & ? & ? & ?)]]). done.
Qed.

Lemma inference_ranges f b : ranges_ok b ->
  (forall c, validateInferenceConfig (Some c) = Ok tt -> validateInferenceConfig (Some (f c)) = Ok tt) -> ranges_ok (inference f b).
Proof. intros [] Hf. split; try done. cbn. apply Hf. by destruct (b_inferenceConfig b). Qed.

Lemma setting_ok f b w b' w' : @setting W f b w = (Ok b', w') -> b' = f b.
Proof. by intros [= <- _]. Qed.
Lemma checked_ok ok msg f b w b' w' : @checked W ok msg f b w = (Ok b', w') -> ok = true /\ b' = f b.
Proof. unfold checked. destruct ok; [|done]. by intros [= <- _]. Qed.
Lemma required_ok {A} (arg : option A) msg f b w b' w' : @required W A arg msg f b w = (Ok b', w') -> exists x, arg = Some x /\ b' = f x b.
Proof. unfold required. destruct arg; [|done]. intros [= <- _]. by eexists. Qed.

Lemma library_option_ranges opt b w b' w' : library_option opt -> opt b w = (Ok b', w') -> ranges_ok b -> ranges_ok b'.
Proof.
  intros Hlib Hopt Hb. destruct Hlib; try (apply setting_ok in Hopt as ->; by destruct Hb);
    try (apply required_ok in Hopt as (x & _ & ->); by destruct Hb); try (by eapply WithTools_ranges);
    try (apply checked_ok in Hopt as [Hok ->]; bool_hyps; destruct Hb; split; cbn; done || lia);
    try (apply checked_ok in Hopt as [Hok ->]; apply inference_ranges; [done|]; intros c; rewrite !validate_fields; cbn; apply negb_true_iff in Hok; rewrite Hok; tauto).
  - apply checked_ok in Hopt as [Hok ->]. destruct Hb. split; try done. cbn. apply orb_true_iff in Hok as [Hm|Hm]; apply bool_decide_eq_true in Hm; auto.
  - apply setting_ok in Hopt as ->. apply inference_ranges; [done|]. intros c. rewrite !validate_fields. cbn. tauto.
Qed.

Lemma apply_options_ranges opts : forall b w b' w',
  Forall (fun o => match o with Some opt => library_option opt | None => True end) opts ->
  apply_options opts b w = (Ok b', w') -> ranges_ok b -> ranges_ok b'.
Proof.
  induction opts as [|[opt|] opts IH]; intros b w b' w' Hl; cbn; [by intros [= <- _]| |].
  - apply Forall_cons in Hl as [Hopt Hl]. destruct (opt b w) as [[b1|] w1] eqn:E; [|done]. intros Ha Hb.
    eapply IH; [done..|]. by eapply library_option_ranges.
  - apply Forall_cons in Hl as [_ Hl]. by eapply IH.
Qed.

Lemma validate_tools_ok (ts : list (Tool W)) : validate_tools ts = Ok tt <-> Forall (fun t => Tool_Validate t = Ok tt) ts.
Proof.
  induction ts as [|t ts IH]; cbn; [by rewrite Forall_nil|]. rewrite Forall_cons. destruct (Tool_Validate t) as [[]|]; cbn; [by rewrite IH; tauto|].
  split; [done|by intros [? _]].
Qed.

End Props.

(** An agent that New returns is well configured, whatever options of the package it was built with and in
    whatever order: at least one iteration, no negative budget, limit or timeout, a known tool mode, an
    inference configuration that the per-invocation check accepts, only valid tools, an execution store
    only beside a conversation store, no parallel limit under sequential execution, a rate-limit key
    only beside a limiter. *)
Theorem New_well_formed {W} (provider : option (Provider W)) instructions opts w b w' :
  Forall (fun o => match o with Some opt => library_option opt | None => True end) opts ->
  New provider instructions opts w = (Ok b, w') ->
  ranges_ok b /\
  (forall name t, registry_of (b_toolRegistry b) w' !! name = Some t -> Tool_Validate t = Ok tt) /\
  (is_Some (b_executionStore b) -> is_Some (b_conversation b)) /\
  (b_toolExecution b = ToolExecutionSequential -> (b_maxConcurrentTools b <= 1)%Z) /\
  (is_Some (b_rateLimitKey b) -> is_Some (b_rateLimiter b)) /\
  (forall env fmt, concurrentLimit (built env fmt b) = if bool_decide (b_toolExecution b = ToolExecutionSequential) then 1%Z else b_maxConcurrentTools b).
Proof.
  intros Hl. unfold New. destruct provider as [p|]; [|done].
  destruct (apply_options opts (initial_builder p instructions) w) as [[b1|] w1] eqn:E; [|done]. intros [= Hc <-].
  assert (Hr : ranges_ok b1) by (eapply apply_options_ranges; [done..|]; by split; cbn; auto; lia).
  unfold check_built in Hc. apply res_bind_ok in Hc as ([] & Hv & Hc).
  destruct (bool_decide (is_Some (b_executionStore b1)) && _) eqn:C1; [done|].
  destruct (bool_decide (b_toolExecution b1 = _) && _) eqn:C2; [done|].
  destruct (bool_decide (is_Some (b_rateLimitKey b1)) && _) eqn:C3; [done|]. injection Hc as <-. split_and!; try done.
  - intros name t Ht. apply validate_tools_ok in Hv. apply (proj1 (Forall_forall _ _) Hv). apply Registry_List_elem. by exists name.
  - intros Hs. rewrite (bool_decide_true (is_Some (b_executionStore b1))) in C1 by done. cbn in C1. by bool_hyps.
  - intros Hm. rewrite (bool_decide_true (b_toolExecution b1 = _)) in C2 by done. cbn in C2. bool_hyps. lia.
  - intros Hs. rewrite (bool_decide_true (is_Some (b_rateLimitKey b1))) in C3 by done. cbn in C3. by bool_hyps.
Qed.

(** The order of options can lose tools: tools registered with WithTools before WithToolRegistry are accepted and
    then absent, since the second option replaces the registry they were put in; in the other order they
    are registered in the shared registry. *)
Theorem tools_before_registry_lost {W} (p : Provider W) instructions (read : W -> Registry W) write t w :
  Tool_Validate t = Ok tt -> read w !! sp_Name (t_Spec t) = None -> registry_wf (read w) ->
  (let r := <[sp_Name (t_Spec t) := t]> (read w) : gmap string (Tool W) in read (write r w) = r) ->
  (exists b, New (Some p) instructions [Some (WithTools [t]); Some (WithToolRegistry (Some (read, write)))] w = (Ok b, w) /\
     registry_of (b_toolRegistry b) w !! sp_Name (t_Spec t) = None) /\
  (exists b w', New (Some p) instructions [Some (WithToolRegistry (Some (read, write))); Some (WithTools [t])] w = (Ok b, w') /\
     registry_of (b_toolRegistry b) w' !! sp_Name (t_Spec t) = Some t).
Proof.
  intros Hv Hn Hwf Hrw.
  assert (Hlist : forall r : Registry W, registry_wf r -> validate_tools (Registry_List r) = Ok tt).
  { intros r Hr. apply validate_tools_ok, Forall_forall. intros x [k Hk]%Registry_List_elem. by apply (Hr k x). }
  split.
  - assert (Hreg : Register ∅ t = Ok {[ sp_Name (t_Spec t) := t ]}) by (unfold Register; by rewrite Hv).
    eexists. split; [unfold New; cbn; rewrite Hreg; cbn; unfold check_built; cbn; by rewrite Hlist|exact Hn].
  - assert (Hreg : Register (read w) t = Ok (<[sp_Name (t_Spec t) := t]> (read w))) by (unfold Register; by rewrite Hv, Hn).
    assert (Hwf' : registry_wf (<[sp_Name (t_Spec t) := t]> (read w))) by (by eapply Register_wf).
    do 2 eexists. split; [unfold New; cbn; rewrite Hreg; cbn; unfold check_built; cbn; by rewrite Hrw, Hlist|]. cbn. rewrite Hrw. apply (lookup_insert_eq (M := gmap string)).
Qed.

(** * A concrete construction

    The tool is the least valid one. *)
Definition CW : Type := nat.
Definition plain_provider : Provider CW := mkProvider "m" (fun _ w => ([], w)) (fun _ _ w => (Err (ENew "none"), w)).
Definition plain_tool (name : string) : Tool CW :=
  mkTool (mkSpec name "a tool" (Some (AObj []))) (Some (fun _ _ w => (([], Ok ""), w))) None None false false None.

Lemma New_well_formed_witness :
  exists b, New (Some plain_provider) "be brief" [Some (WithTools [plain_tool "t"]); None; Some (WithMaxIterations 3); Some (WithTopK 5)] 0%nat = (Ok b, 0%nat) /\
    b_maxIterations b = 3%Z /\ ranges_ok b.
Proof.
  eexists. split; [vm_compute; reflexivity|]. split; [reflexivity|].
  refine (proj1 (New_well_formed (Some plain_provider) "be brief" [Some (WithTools [plain_tool "t"]); None; Some (WithMaxIterations 3); Some (WithTopK 5)] 0%nat _ 0%nat _ _));
    [repeat constructor|vm_compute; reflexivity].
Defined.

(** A world that only says whether the tool was registered. *)
Definition flag_tool : Tool bool :=
  mkTool (mkSpec "t" "a tool" (Some (AObj []))) (Some (fun _ _ w => (([], Ok ""), w))) None None false false None.
Definition flag_read (w : bool) : Registry bool := if w then {[ "t" := flag_tool ]} else ∅.

Lemma tools_before_registry_lost_witness :
  exists b, New (Some (mkProvider "m" (fun _ w => ([], w)) (fun _ _ w => (Err (ENew "none"), w)))) "be brief"
      [Some (WithTools [flag_tool]); Some (WithToolRegistry (Some (flag_read, fun _ _ => true)))] false = (Ok b, false) /\
    registry_of (b_toolRegistry b) false !! "t" = None.
Proof.
  refine (proj1 (tools_before_registry_lost _ "be brief" flag_read (fun _ _ => true) flag_tool false _ _ _ _)); try reflexivity.
  intros k t Hk. destruct (decide (k = "t")); discriminate Hk.
Defined.
