(* ===== verification/McpPool.v ===== *)
(** MCP (agent/mcp/mcp.go and pool.go): which tools a client exposes, their handlers, and the connection pool
    as a state machine of callers under its mutex. *)
From S2P Require Import Prelude Errors Messages Execution Schema Tool.

(** * Tools of a client *)

(* agent/mcp/mcp.go:141-145: toolsConfig *)
Record toolsConfig := mkToolsConfig { tl_include : gset string; tl_exclude : gset string; tl_prefix : string }.
(* agent/mcp/mcp.go: toolsConfig.allow *)
Definition allow (c : toolsConfig) (name : string) : bool :=
  if bool_decide (tl_include c <> ∅) then bool_decide (name ∈ tl_include c)
  else if bool_decide (tl_exclude c <> ∅) then negb (bool_decide (name ∈ tl_exclude c))
  else true.
(* agent/mcp/mcp.go: WithToolPrefix *)
Definition WithToolPrefix (prefix : string) (c : toolsConfig) : toolsConfig := mkToolsConfig (tl_include c) (tl_exclude c) prefix.
(* agent/mcp/mcp.go: IncludeTools *)
Definition IncludeTools (names : list string) (c : toolsConfig) : toolsConfig :=
  mkToolsConfig (tl_include c ∪ list_to_set names) (tl_exclude c) (tl_prefix c).
(* agent/mcp/mcp.go: ExcludeTools *)
Definition ExcludeTools (names : list string) (c : toolsConfig) : toolsConfig :=
  mkToolsConfig (tl_include c) (tl_exclude c ∪ list_to_set names) (tl_prefix c).

(** A tool definition of the server: its schema is nil, a map, or a value that JSON turns into a map. *)
Record McpTool := mkMcpTool { mt_Name : string; mt_Description : string; mt_InputSchema : option GoAny }.
(** A result: the texts of its text contents ([None] for other contents) and the error flag. *)
Record CallToolResult := mkCallResult { cr_Content : list (option string); cr_IsError : bool }.

(** [reencode] is json.Marshal followed by json.Unmarshal into a map. *)
(* agent/mcp/mcp.go: toSchemaMap *)
Definition toSchemaMap (reencode : GoAny -> res GoAny) (schema : option GoAny) : res GoAny :=
  match schema with
  | None => Ok (AObj [("type", AStr "object"); ("properties", AObj [])])
  | Some (AObj m) => Ok (AObj m)
  | Some v => reencode v
  end.

(* agent/mcp/mcp.go: extractText *)
Definition extractText (content : list (option string)) : string :=
  fold_left (fun result c =>
    match c with
    | Some t => if bool_decide (t = "") then result
                else if bool_decide (result = "") then t else result +:+ newline +:+ t
    | None => result
    end) content "".

(** What a handler makes of the answer of the server. *)
(* agent/mcp/mcp.go:228-238: answer of wrapTool *)
Definition tool_answer (name : string) (r : res CallToolResult) : res string :=
  match r with
  | Err e => Err (EWrap ("mcp tool " +:+ name) e)
  | Ok r => let text := extractText (cr_Content r) in
            if cr_IsError r then Err (ENew ("mcp tool " +:+ name +:+ " returned error: " +:+ text)) else Ok text
  end.

(** CallTool's error is a JSON-RPC error of the server, or something else. *)
Inductive call_outcome : Type := CallOk | CallRPCError | CallFailed.
(* agent/mcp/pool.go: reusable *)
Definition reusable (o : call_outcome) : bool := match o with CallFailed => false | _ => true end.

Section Client.
Context {W : Type}.
(** [call] is CallTool of the session; [decode_args] decodes the input into a map. *)
Context (reencode : GoAny -> res GoAny) (decode_args : string -> res GoAny).

(** An empty input means no arguments. *)
Definition tool_args (name : string) (input : RawMessage) : res (option GoAny) :=
  match cloneRaw input with
  | None => Ok None
  | Some s => match decode_args s with Ok v => Ok (Some v) | Err e => Err (EWrap ("mcp tool " +:+ name +:+ ": unmarshal input") e) end
  end.

(* agent/mcp/mcp.go: Client.wrapTool *)
Definition client_wrapTool (call : string -> option GoAny -> W -> res CallToolResult * W) (t : McpTool) (prefix : string) : res (Tool W) :=
  match toSchemaMap reencode (mt_InputSchema t) with
  | Err e => Err (EWrap "convert schema" e)
  | Ok schema =>
      Ok (mkTool (mkSpec (prefix +:+ mt_Name t) (mt_Description t) (Some schema))
        (Some (fun _ input w =>
          match tool_args (mt_Name t) input with
          | Err e => (([], Err e), w)
          | Ok args => let '(r, w) := call (mt_Name t) args w in (([], tool_answer (mt_Name t) r), w)
          end)) None None false false None)
  end.

(* agent/mcp/mcp.go: Client.Tools *)
Fixpoint wrap_allowed (call : string -> option GoAny -> W -> res CallToolResult * W) (cfg : toolsConfig) (ts : list (res McpTool)) : res (list (Tool W)) :=
  match ts with
  | [] => Ok []
  | Err e :: _ => Err (EWrap "mcp list tools" e)
  | Ok t :: ts =>
      if negb (allow cfg (mt_Name t)) then wrap_allowed call cfg ts
      else match client_wrapTool call t (tl_prefix cfg) with
           | Err e => Err (EWrap "mcp wrap tool" e)
           | Ok wrapped => letr rest := wrap_allowed call cfg ts in Ok (wrapped :: rest)
           end
  end.

(** The pool leases a session for each call; [is_rpc] is errors.As for *jsonrpc.Error. *)
Context {S : Type} (is_rpc : error -> bool) (acquire : W -> res S * W) (release discard : S -> W -> W)
  (CallTool : S -> string -> option GoAny -> W -> res CallToolResult * W).

Definition outcome_of (r : res CallToolResult) : call_outcome :=
  match r with Ok _ => CallOk | Err e => if is_rpc e then CallRPCError else CallFailed end.

(* agent/mcp/pool.go:301-316: call of Pool.wrapTool *)
Definition pool_call (name : string) (args : option GoAny) (w : W) : res CallToolResult * W :=
  let '(leased, w) := acquire w in
  match leased with
  | Err e => (Err (EWrap "acquire connection" e), w)
  | Ok session =>
      let '(r, w) := CallTool session name args w in
      (r, if reusable (outcome_of r) then release session w else discard session w)
  end.

(* agent/mcp/pool.go: Pool.wrapTool *)
Definition pool_wrapTool (t : McpTool) : res (Tool W) := client_wrapTool pool_call t "".

(* agent/mcp/pool.go: Pool.Tools *)
Fixpoint pool_Tools (ts : list McpTool) : res (list (Tool W)) :=
  match ts with
  | [] => Ok []
  | t :: ts => match pool_wrapTool t with
               | Err e => Err (EWrap "mcp pool wrap tool" e)
               | Ok wrapped => letr rest := pool_Tools ts in Ok (wrapped :: rest)
               end
  end.
End Client.

(** * The pool

    Callers are numbered, sessions too.  The fields of the struct are [pl_size], [pl_maxSize], [pl_closed] and
    [pl_sessions] (the idle channel); the rest says where the callers and the sessions outside the channel are. *)
(* agent/mcp/pool.go:29-45: Pool *)
Record Pool := mkPool {
  pl_size : Z; pl_maxSize : Z; pl_closed : bool; pl_sessions : list N;
  (** callers at the head of acquire's loop: newly arrived, or woken from cond.Wait *)
  pl_arrived : list N; pl_woken : list N;
  (** callers in cond.Wait *)
  pl_sleeping : list N;
  (** callers that reserved capacity and are connecting; that have a new session and are about to check closed *)
  pl_connecting : list N; pl_connected : list (N * N);
  (** callers with a leased session *)
  pl_leased : list (N * N);
  (** sessions on which Close is being called outside the lock, and those closed *)
  pl_closing : list N; pl_gone : list N;
  (** the number of sessions started *)
  pl_started : N }.

#[global] Instance eta_Pool : Settable Pool := fun p =>
  mkPool (pl_size p) (pl_maxSize p) (pl_closed p) (pl_sessions p) (pl_arrived p) (pl_woken p) (pl_sleeping p)
    (pl_connecting p) (pl_connected p) (pl_leased p) (pl_closing p) (pl_gone p) (pl_started p).

(* agent/mcp/pool.go: WithPoolSize *)
Definition WithPoolSize (n : Z) : res Z := if bool_decide (n < 1)%Z then Err (ENew "mcp pool: size must be >= 1") else Ok n.

(** After discovery: one idle session. *)
(* agent/mcp/pool.go:122-125: pool of NewPool *)
Definition new_pool (maxSize : Z) : Pool := mkPool 1 maxSize false [0%N] [] [] [] [] [] [] [] [] 1.

(** Take a caller out of a list. *)
Fixpoint leave (c : N) (cs : list N) : option (list N) :=
  match cs with
  | [] => None
  | x :: cs => if bool_decide (x = c) then Some cs else (fun r => x :: r) <$> leave c cs
  end.
Fixpoint leave_with (c : N) (cs : list (N * N)) : option (N * list (N * N)) :=
  match cs with
  | [] => None
  | (x, s) :: cs => if bool_decide (x = c) then Some (s, cs) else (fun r => (r.1, (x, s) :: r.2)) <$> leave_with c cs
  end.

(** cond.Broadcast *)
Definition broadcast (p : Pool) : Pool := p <| pl_woken := pl_woken p ++ pl_sleeping p |> <| pl_sleeping := [] |>.
(** cond.Signal: one waiter, if there is one; which one is up to the runtime. *)
Definition signal (w : option N) (p : Pool) : option Pool :=
  match w with
  | None => if is_nil (pl_sleeping p) then Some p else None
  | Some c => rest ← leave c (pl_sleeping p); Some (p <| pl_sleeping := rest |> <| pl_woken := pl_woken p ++ [c] |>)
  end.

(** One round of acquire's loop under the lock, for a caller that has left the head of the loop; [cancelled] is
    whether its context has ended. *)
(* agent/mcp/pool.go:156-212: round of Pool.acquire *)
Definition acquire_round (c : N) (cancelled : bool) (p : Pool) : Pool :=
  if pl_closed p then p
  else match pl_sessions p with
  | s :: rest => p <| pl_sessions := rest |> <| pl_leased := (c, s) :: pl_leased p |>
  | [] =>
      if bool_decide (pl_size p < pl_maxSize p)%Z then p <| pl_size := (pl_size p + 1)%Z |> <| pl_connecting := c :: pl_connecting p |>
      else if cancelled then p
      else p <| pl_sleeping := pl_sleeping p ++ [c] |>
  end.

(** The connection attempt failed. *)
(* agent/mcp/pool.go:174-180: failed connection of Pool.acquire *)
Definition connect_failed (p : Pool) : Pool := broadcast (p <| pl_size := (pl_size p - 1)%Z |>).

(** The lock is taken again with the new session. *)
(* agent/mcp/pool.go:182-192: new session of Pool.acquire *)
Definition connect_done (c s : N) (p : Pool) : Pool :=
  if pl_closed p then broadcast (p <| pl_size := (pl_size p - 1)%Z |> <| pl_closing := s :: pl_closing p |>)
  else p <| pl_leased := (c, s) :: pl_leased p |>.

(* agent/mcp/pool.go: Pool.release *)
Definition release (s : N) (w : option N) (p : Pool) : option Pool :=
  if pl_closed p then Some (broadcast (p <| pl_size := (pl_size p - 1)%Z |> <| pl_closing := s :: pl_closing p |>))
  else signal w (p <| pl_sessions := pl_sessions p ++ [s] |>).

(* agent/mcp/pool.go: Pool.discard *)
Definition discard (s : N) (p : Pool) : Pool :=
  broadcast (p <| pl_size := (pl_size p - 1)%Z |> <| pl_closing := s :: pl_closing p |>).

(* agent/mcp/pool.go: Pool.Close *)
Definition Close (p : Pool) : Pool :=
  if pl_closed p then p
  else broadcast (p <| pl_closed := true |> <| pl_size := (pl_size p - Z.of_nat (length (pl_sessions p)))%Z |>
                    <| pl_closing := pl_sessions p ++ pl_closing p |> <| pl_sessions := [] |>).

(* agent/mcp/pool.go: Pool.Size *)
Definition Size (p : Pool) : Z := pl_size p.

(** ** Steps

    The critical sections, in any order the runtime and the callers choose. *)
Inductive pool_event : Type :=
| PArrive (c : N)                              (* a tool call enters acquire *)
| PRound (c : N) (cancelled : bool)            (* a caller at the head of the loop takes the lock *)
| PConnect (c : N) (ok : bool)                 (* connect returns *)
| PConnected (c : N)                           (* the caller takes the lock with its new session *)
| PCancel                                      (* a context ends: its goroutine broadcasts *)
| PReturn (c : N) (o : call_outcome) (w : option N) (* CallTool returns: the session is released or discarded *)
| PClosed (s : N)                              (* session.Close returns *)
| PClose.                                      (* Pool.Close *)

Definition pool_step (e : pool_event) (p : Pool) : option Pool :=
  match e with
  | PArrive c => Some (p <| pl_arrived := c :: pl_arrived p |>)
  | PRound c cancelled =>
      match leave c (pl_woken p), leave c (pl_arrived p) with
      | Some rest, _ => Some (acquire_round c cancelled (p <| pl_woken := rest |>))
      | None, Some rest => Some (acquire_round c cancelled (p <| pl_arrived := rest |>))
      | None, None => None
      end
  | PConnect c ok =>
      rest ← leave c (pl_connecting p);
      let p := p <| pl_connecting := rest |> in
      Some (if ok : bool then p <| pl_connected := (c, pl_started p) :: pl_connected p |> <| pl_started := (pl_started p + 1)%N |>
            else connect_failed p)
  | PConnected c => r ← leave_with c (pl_connected p); Some (connect_done c r.1 (p <| pl_connected := r.2 |>))
  | PCancel => Some (broadcast p)
  | PReturn c o w =>
      r ← leave_with c (pl_leased p);
      let p := p <| pl_leased := r.2 |> in
      if reusable o then release r.1 w p else Some (discard r.1 p)
  | PClosed s => rest ← leave s (pl_closing p); Some (p <| pl_closing := rest |> <| pl_gone := s :: pl_gone p |>)
  | PClose => Some (Close p)
  end.

Fixpoint pool_run (es : list pool_event) (p : Pool) : option Pool :=
  match es with
  | [] => Some p
  | e :: es => p ← pool_step e p; pool_run es p
  end.

(** * Invariants *)

Lemma leave_perm c cs rest : leave c cs = Some rest -> cs ≡ₚ c :: rest.
Proof.
  revert rest. induction cs as [|x cs IH]; intros rest; cbn; [done|]. case_bool_decide as Hx; [by intros [= <-]; subst|].
  destruct (leave c cs) as [r|]; [|done]. intros [= <-]. rewrite (IH r eq_refl). constructor.
Qed.
Lemma leave_with_perm c cs s rest : leave_with c cs = Some (s, rest) -> cs ≡ₚ (c, s) :: rest.
Proof.
  revert s rest. induction cs as [|[x t] cs IH]; intros s rest; cbn; [done|]. case_bool_decide as Hx; [by intros [= <- <-]; subst|].
  destruct (leave_with c cs) as [[s' r]|]; [|done]. intros [= <- <-]. cbn. rewrite (IH s' r eq_refl). constructor.
Qed.

(** Every session that was started is in exactly one place. *)
Definition all_sessions (p : Pool) : list N :=
  pl_sessions p ++ (pl_leased p).*2 ++ (pl_connected p).*2 ++ pl_closing p ++ pl_gone p.

(** What holds at every moment: the size counts the sessions in use, idle or being started, within the
    maximum, and a closed pool has no idle session. *)
Record core_ok (p : Pool) : Prop := {
  co_size : pl_size p = Z.of_nat (length (pl_sessions p) + length (pl_leased p) + length (pl_connected p) + length (pl_connecting p));
  co_max : (pl_size p <= pl_maxSize p)%Z;
  co_unique : NoDup (all_sessions p);
  co_started : Forall (fun s => s < pl_started p)%N (all_sessions p);
  co_count : length (all_sessions p) = N.to_nat (pl_started p);
  co_pos : (1 <= pl_maxSize p)%Z;
  co_closed : pl_closed p = true -> pl_sessions p = [] }.

(** A sleeper sleeps for a reason: the pool is open and full, and the idle sessions, up to [n] of them, are
    those of callers already woken. *)
Definition sleep_ok (n : nat) (p : Pool) : Prop :=
  pl_sleeping p <> [] -> pl_closed p = false /\ pl_size p = pl_maxSize p /\ (length (pl_sessions p) <= n + length (pl_woken p))%nat.

Definition pool_ok (p : Pool) : Prop := core_ok p /\ sleep_ok 0 p.

Lemma new_pool_ok maxSize : (1 <= maxSize)%Z -> pool_ok (new_pool maxSize).
Proof. intros Hm. split; [|done]. split; cbn; try done; try lia; [apply NoDup_singleton|repeat constructor]. Qed.

Lemma broadcast_ok p : core_ok p -> pool_ok (broadcast p).
Proof. intros [H1 H2 H3 H4 H5 H6 H7]. by split; [split|]. Qed.

(** A session moved: the places have the same sessions and the size still counts them. *)
Lemma core_ok_moved p p' : core_ok p -> all_sessions p' ≡ₚ all_sessions p -> pl_started p' = pl_started p -> pl_maxSize p' = pl_maxSize p ->
  pl_size p' = Z.of_nat (length (pl_sessions p') + length (pl_leased p') + length (pl_connected p') + length (pl_connecting p')) ->
  (pl_size p' <= pl_maxSize p)%Z -> (pl_closed p' = true -> pl_sessions p' = []) -> core_ok p'.
Proof. intros [] Hp Hs Hm Hz Hle Hc. split; [done|by rewrite Hm|by rewrite Hp|by rewrite Hp, Hs|by rewrite Hp, Hs|by rewrite Hm|done]. Qed.

Lemma acquire_round_ok c cancelled p : core_ok p -> sleep_ok 1 p -> pool_ok (acquire_round c cancelled p).
Proof.
  intros Hc Hs. pose proof Hc as [Hsz Hmx Hu Hst Hct Hps Hcl]. unfold acquire_round.
  destruct (pl_closed p) eqn:Ecl.
  { split; [done|]. intros Hne. destruct (Hs Hne). congruence. }
  destruct (pl_sessions p) as [|s rest] eqn:Es; [destruct (bool_decide _) eqn:Elt; [|destruct cancelled]|].
  - apply bool_decide_eq_true in Elt. split.
    + apply (core_ok_moved p); try done; cbn in *; rewrite ?Es; cbn; lia.
    + intros Hne. destruct (Hs Hne) as (_ & Hm & _). lia.
  - split; [done|]. intros Hne. destruct (Hs Hne) as (? & ? & _). rewrite Es. cbn. split_and!; first [done|lia].
  - apply bool_decide_eq_false in Elt. split; [by destruct Hc; split|]. intros _. cbn. rewrite Es. cbn. split_and!; first [done|lia].
  - split.
    + apply (core_ok_moved p); try done; [unfold all_sessions; cbn; rewrite Es; cbn; solve_Permutation|cbn in *; lia|cbn; congruence].
    + intros Hne. destruct (Hs Hne) as (? & ? & Hl). rewrite Es in Hl. cbn in *. split_and!; first [done|lia].
Qed.

Lemma signal_ok w p p' : core_ok p -> sleep_ok 1 p -> signal w p = Some p' -> pool_ok p'.
Proof.
  intros [H1 H2 H3 H4 H5 H6 H7] Hs. unfold signal. destruct w as [c|].
  - destruct (leave c (pl_sleeping p)) as [rest|] eqn:El; [|done]. intros [= <-]. split; [by split|].
    intros _. cbn. rewrite length_app. cbn. destruct Hs as (? & ? & ?); [|split_and!; first [done|lia]].
    intros E. by rewrite E in El.
  - destruct (pl_sleeping p) eqn:Es; [|done]. intros [= <-]. split; [by split|]. intros Hne. by rewrite Es in Hne.
Qed.

(** A caller gives its session up: it is closed outside the lock, and the slot is free. *)
Lemma lease_given_up_ok c s rest p : core_ok p -> pl_leased p ≡ₚ (c, s) :: rest ->
  pool_ok (broadcast (p <| pl_leased := rest |> <| pl_size := (pl_size p - 1)%Z |> <| pl_closing := s :: pl_closing p |>)).
Proof.
  intros Hc Hp. pose proof Hc as [Hsz Hmx Hu Hst Hct Hps Hcl]. pose proof (Permutation_length Hp) as Hl. cbn in Hl.
  apply broadcast_ok, (core_ok_moved p); try done; cbn; try lia.
  unfold all_sessions. cbn. rewrite (fmap_Permutation _ _ _ Hp). cbn. solve_Permutation.
Qed.

Lemma release_ok c s rest w p p' : pool_ok p -> pl_leased p ≡ₚ (c, s) :: rest ->
  release s w (p <| pl_leased := rest |>) = Some p' -> pool_ok p'.
Proof.
  intros [Hc Hs] Hp. unfold release. destruct (pl_closed (p <| pl_leased := rest |>)) eqn:Ecl; [intros [= <-]; by apply (lease_given_up_ok c s rest p)|]. cbn in Ecl.
  pose proof (Permutation_length Hp) as Hl. pose proof Hc as [Hsz Hmx Hu Hst Hct Hps Hcl]. cbn in Hl. apply signal_ok.
  - apply (core_ok_moved p); try done; cbn; rewrite ?length_app; cbn; try lia; try congruence.
    unfold all_sessions. cbn. rewrite (fmap_Permutation _ _ _ Hp). cbn. solve_Permutation.
  - intros Hne. destruct (Hs Hne) as (? & ? & ?). cbn. rewrite length_app. cbn. split_and!; first [done|lia].
Qed.

Lemma connect_done_ok c s rest p : pool_ok p -> pl_connected p ≡ₚ (c, s) :: rest ->
  pool_ok (connect_done c s (p <| pl_connected := rest |>)).
Proof.
  intros [Hc Hs] Hp. pose proof (Permutation_length Hp) as Hl. pose proof Hc as [Hsz Hmx Hu Hst Hct Hps Hcl]. cbn in Hl.
  unfold connect_done. destruct (pl_closed (p <| pl_connected := rest |>)) eqn:Ecl; cbn in Ecl; [apply broadcast_ok|split; [|done]].
  all: apply (core_ok_moved p); try done; cbn; try lia; try congruence.
  all: unfold all_sessions; cbn; rewrite (fmap_Permutation _ _ _ Hp); cbn; solve_Permutation.
Qed.

Lemma connect_ok c rest ok p : pool_ok p -> pl_connecting p ≡ₚ c :: rest ->
  let p0 := p <| pl_connecting := rest |> in
  pool_ok (if ok : bool then p0 <| pl_connected := (c, pl_started p0) :: pl_connected p0 |> <| pl_started := (pl_started p0 + 1)%N |>
           else connect_failed p0).
Proof.
  intros [Hc Hs] Hp. pose proof (Permutation_length Hp) as Hl. pose proof Hc as [Hsz Hmx Hu Hst Hct Hps Hcl]. cbn in Hl.
  destruct ok; cbn; [split; [|done]|apply broadcast_ok, (core_ok_moved p); try done; cbn; lia].
  assert (Hn : all_sessions (p <| pl_connecting := rest |> <| pl_connected := (c, pl_started p) :: pl_connected p |> <| pl_started := (pl_started p + 1)%N |>)
    ≡ₚ pl_started p :: all_sessions p) by (unfold all_sessions; cbn; solve_Permutation).
  rewrite Forall_forall in Hst. split; try rewrite Hn; cbn; try done; try lia.
  - apply NoDup_cons. split; [|done]. intros Hin. specialize (Hst _ Hin). cbn in Hst. lia.
  - constructor; [lia|]. apply Forall_forall. intros x Hx. specialize (Hst _ Hx). cbn in Hst. lia.
Qed.

Lemma Close_ok p : pool_ok p -> pool_ok (Close p).
Proof.
  intros Hp. unfold Close. destruct (pl_closed p) eqn:Ecl; [done|]. destruct Hp as [Hc Hs]. pose proof Hc as [Hsz Hmx Hu Hst Hct Hps Hcl].
  apply broadcast_ok, (core_ok_moved p); try done; cbn; try lia. unfold all_sessions. cbn. solve_Permutation.
Qed.

Lemma pool_step_ok e p p' : pool_ok p -> pool_step e p = Some p' -> pool_ok p'.
Proof.
  intros Hp. pose proof Hp as [[H1 H2 H3 H4 H5 H6 H7] Hs]. destruct e as [c|c b|c ok|c| |c o w|s|]; cbn.
  - intros [= <-]. by split; [split|].
  - destruct (leave c (pl_woken p)) as [rest|] eqn:Ew; [|destruct (leave c (pl_arrived p)) as [rest|] eqn:Ea; [|done]].
    all: intros [= <-]; apply acquire_round_ok; [by split|]; intros Hne; destruct (Hs Hne) as (? & ? & Hl); cbn in *.
    + apply leave_perm, Permutation_length in Ew. cbn in Ew. split_and!; first [done|lia].
    + split_and!; first [done|lia].
  - destruct (leave c (pl_connecting p)) as [rest|] eqn:El; [|done]. intros [= <-]. by apply connect_ok, leave_perm.
  - destruct (leave_with c (pl_connected p)) as [[s rest]|] eqn:El; [|done]. intros [= <-]. by apply connect_done_ok, leave_with_perm.
  - intros [= <-]. by apply broadcast_ok.
  - destruct (leave_with c (pl_leased p)) as [[s rest]|] eqn:El; [|done]. apply leave_with_perm in El. cbn.
    destruct (reusable o); [by apply (release_ok c s rest w p)|]. intros [= <-]. by apply (lease_given_up_ok c s rest p).
  - destruct (leave s (pl_closing p)) as [rest|] eqn:El; [|done]. intros [= <-]. apply leave_perm in El. split; [|done].
    apply (core_ok_moved p); try done. unfold all_sessions. cbn. rewrite El. solve_Permutation.
  - intros [= <-]. by apply Close_ok.
Qed.

Lemma pool_run_ok es p p' : pool_ok p -> pool_run es p = Some p' -> pool_ok p'.
Proof.
  revert p. induction es as [|e es IH]; intros p Hp; cbn; [by intros [= <-]|].
  destruct (pool_step e p) as [q|] eqn:Eq; [|done]. cbn. apply IH. by apply (pool_step_ok e p).
Qed.

Lemma pool_step_maxSize e p p' : pool_step e p = Some p' -> pl_maxSize p' = pl_maxSize p.
Proof.
  destruct e as [c|c b|c ok|c| |c o w|s|]; cbn.
  - by intros [= <-].
  - destruct (leave c (pl_woken p)); [|destruct (leave c (pl_arrived p)); [|done]]; intros [= <-]; unfold acquire_round; cbn; by repeat case_match.
  - destruct (leave c (pl_connecting p)); [|done]. intros [= <-]. by destruct ok.
  - destruct (leave_with c (pl_connected p)); [|done]. intros [= <-]. unfold connect_done. cbn. by destruct (pl_closed p).
  - by intros [= <-].
  - destruct (leave_with c (pl_leased p)); [|done]. cbn. destruct (reusable o); [|by intros [= <-]]. unfold release. cbn.
    destruct (pl_closed p); [by intros [= <-]|]. unfold signal. cbn. destruct w; [destruct (leave _ _)|destruct (is_nil _)]; [|done| |done]; by intros [= <-].
  - destruct (leave s (pl_closing p)); [|done]. by intros [= <-].
  - intros [= <-]. unfold Close. by destruct (pl_closed p).
Qed.
Lemma pool_run_maxSize es p p' : pool_run es p = Some p' -> pl_maxSize p' = pl_maxSize p.
Proof.
  revert p. induction es as [|e es IH]; intros p; cbn; [by intros [= <-]|].
  destruct (pool_step e p) as [q|] eqn:Eq; [|done]. cbn. intros H. by rewrite (IH q H), (pool_step_maxSize e p).
Qed.

(** Something will still happen in the pool: a caller is about to take the lock or holds a session. *)
Definition active (p : Pool) : bool :=
  negb (is_nil (pl_woken p) && is_nil (pl_connecting p) && is_nil (pl_connected p) && is_nil (pl_leased p)).

Lemma sleeper_not_alone p : pool_ok p -> active p = false -> pl_sleeping p = [].
Proof.
  intros [[Hsz _ _ _ _ Hps _] Hs] Ha. destruct (decide (pl_sleeping p = [])) as [|Hne]; [done|]. destruct (Hs Hne) as (_ & Hm & Hl).
  unfold active in Ha. destruct (pl_woken p), (pl_connecting p), (pl_connected p), (pl_leased p); try done. cbn in *. lia.
Qed.

(** C37. The connection pool, for every interleaving of arriving calls, rounds of acquire, connection attempts, cancellations,
    returned sessions and Close, from a new pool.  Its size counts the idle sessions, the leases and the attempts, and never exceeds
    the maximum.  Every session that was started is in exactly one place: idle, leased to one caller, being closed, or closed; none
    is lost.  No wakeup is lost: while a caller sleeps the pool is open and full, each idle session has a woken caller to take it, and
    somebody is awake or holds a session, so that when nobody does, nobody sleeps.  After Close no session is idle. *)
Theorem pool_no_lost_wakeup (es : list pool_event) (maxSize : Z) (p : Pool) :
  (1 <= maxSize)%Z -> pool_run es (new_pool maxSize) = Some p ->
  Size p = Z.of_nat (length (pl_sessions p) + length (pl_leased p) + length (pl_connected p) + length (pl_connecting p)) /\
  (Size p <= maxSize)%Z /\
  NoDup (all_sessions p) /\ (forall s, s ∈ all_sessions p -> (s < pl_started p)%N) /\ length (all_sessions p) = N.to_nat (pl_started p) /\
  (pl_sleeping p <> [] -> pl_closed p = false /\ Size p = maxSize /\ (length (pl_sessions p) <= length (pl_woken p))%nat /\ active p = true) /\
  (pl_closed p = true -> pl_sessions p = []).
Proof.
  intros Hm Hr. pose proof (pool_run_ok es _ p (new_pool_ok maxSize Hm) Hr) as Hok. pose proof (pool_run_maxSize es _ p Hr) as Hx. cbn in Hx.
  pose proof Hok as [[Hsz Hmx Hu Hst Hct Hps Hcl] Hs]. unfold Size. rewrite <- Hx. rewrite Forall_forall in Hst. split_and!; try done.
  intros Hne. destruct (Hs Hne) as (? & ? & ?). split_and!; try done. destruct (active p) eqn:Ea; [done|]. by apply (sleeper_not_alone p Hok) in Ea.
Qed.
(** Three calls on a pool of two: the third sleeps, is woken by a release, and takes the session. *)
Lemma pool_no_lost_wakeup_witness :
  exists p, pool_run [PArrive 1; PArrive 2; PArrive 3; PRound 1 false; PRound 2 false; PConnect 2 true; PRound 3 false; PConnected 2;
                      PReturn 1 CallOk (Some 3%N); PRound 3 false; PReturn 2 CallFailed None]%N (new_pool 2) = Some p /\
    pl_leased p = [(3, 0)]%N /\ pl_closing p = [1%N] /\ (Size p <= 2)%Z.
Proof.
  eexists. split; [vm_compute; reflexivity|]. split; [reflexivity|]. split; [reflexivity|].
  eapply (pool_no_lost_wakeup [PArrive 1; PArrive 2; PArrive 3; PRound 1 false; PRound 2 false; PConnect 2 true; PRound 3 false; PConnected 2;
                      PReturn 1 CallOk (Some 3%N); PRound 3 false; PReturn 2 CallFailed None]%N 2); [lia|vm_compute; reflexivity].
Defined.

(** The names a client exposes: the allowed ones with the prefix, in the order of the server. *)
Lemma wrap_allowed_names {W} reencode decode_args (call : string -> option GoAny -> W -> res CallToolResult * W) cfg ts tools :
  wrap_allowed reencode decode_args call cfg (Ok <$> ts) = Ok tools ->
  (fun t => sp_Name (t_Spec t)) <$> tools = (fun n => tl_prefix cfg +:+ n) <$> List.filter (allow cfg) (mt_Name <$> ts).
Proof.
  revert tools. induction ts as [|t ts IH]; intros tools; cbn; [by intros [= <-]|].
  destruct (allow cfg (mt_Name t)); cbn; [|apply IH]. unfold client_wrapTool. destruct (toSchemaMap reencode (mt_InputSchema t)); cbn; [|done].
  destruct (wrap_allowed _ _ _ _ _) as [rest|]; cbn; [|done]. intros [= <-]. cbn. f_equal. by apply IH.
Qed.

(** An allowlist without names allows every tool. *)
Lemma IncludeTools_empty_allows_all name : allow (IncludeTools [] (mkToolsConfig ∅ ∅ "")) name = true.
Proof. reflexivity. Qed.
