(* ===== verification/SqlConversation.v ===== *)
(** The SQL conversation stores (agent/conversation/sqlite/conversation.go and postgres/conversation.go): the two
    tables, the statements the stores send, transactions, and every operation as a sequence of statements.

    The database is not part of the model's code, the statements are: each is a function on the tables.  What the
    surroundings do is an argument of a run, a list with one entry per statement: a step of other processes
    before it, the clock, and whether the statement fails. *)
From stdpp Require Import sorting.
From S2P Require Import Prelude Errors Messages Execution Stores ConversationMemory MessageCodec.

(** * Tables *)

(** A row of the metadata table.  [mr_messages] is the legacy snapshot column. *)
(* agent/conversation/sqlite/conversation.go:65-73: metadata table *)
Record meta_row := mkMetaRow {
  mr_messages : option string; mr_revision : N; mr_last_sequence : N;
  mr_context_state : string; mr_context_state_revision : N; mr_updated_at : Z }.

#[global] Instance eta_meta_row : Settable meta_row := fun r =>
  mkMetaRow (mr_messages r) (mr_revision r) (mr_last_sequence r) (mr_context_state r) (mr_context_state_revision r) (mr_updated_at r).

(** The message table has the primary key (conversation_id, sequence). *)
(* agent/conversation/sqlite/conversation.go:90-96: message table *)
Record sqldb := mkDb { db_meta : gmap string meta_row; db_msgs : gmap (string * N) string }.

#[global] Instance eta_sqldb : Settable sqldb := fun d => mkDb (db_meta d) (db_msgs d).

(** * Statements *)

(** SELECT sequence, message FROM messages WHERE conversation_id = id AND sequence > after ORDER BY sequence *)
Definition sel_keys (id : string) (after : N) (db : sqldb) : list N :=
  merge_sort N.le (elements (set_map snd (filter (fun p => p.1 = id /\ (after < p.2)%N) (dom (db_msgs db))) : gset N)).
Definition sel_rows (id : string) (after : N) (db : sqldb) : list (N * string) :=
  omap (fun k => raw ← db_msgs db !! (id, k); Some (k, raw)) (sel_keys id after db).

(** INSERT INTO messages: the primary key and the foreign key. *)
Definition ins_message (id : string) (seq : N) (raw : string) (db : sqldb) : res unit * sqldb :=
  match db_msgs db !! (id, seq), db_meta db !! id with
  | Some _, _ => (Err (ENew "UNIQUE constraint failed"), db)
  | None, None => (Err (ENew "FOREIGN KEY constraint failed"), db)
  | None, Some _ => (Ok tt, db <| db_msgs := <[(id, seq) := raw]> (db_msgs db) |>)
  end.

(** INSERT INTO metadata ... VALUES (id, 0, 0, '{}', 0, now) ON CONFLICT DO NOTHING; whether a row was inserted. *)
Definition ins_meta (id : string) (now : Z) (db : sqldb) : res bool * sqldb :=
  match db_meta db !! id with
  | Some _ => (Ok false, db)
  | None => (Ok true, db <| db_meta := <[id := mkMetaRow None 0 0 "{}" 0 now]> (db_meta db) |>)
  end.

(** UPDATE metadata SET revision, last_sequence, updated_at WHERE conversation_id = id AND revision = revision; the rows affected. *)
Definition upd_meta (id : string) (next nextLast revision : N) (now : Z) (db : sqldb) : res N * sqldb :=
  match db_meta db !! id with
  | Some row =>
      if bool_decide (mr_revision row = revision) then
        (Ok 1%N, db <| db_meta := <[id := row <| mr_revision := next |> <| mr_last_sequence := nextLast |> <| mr_updated_at := now |>]> (db_meta db) |>)
      else (Ok 0%N, db)
  | None => (Ok 0%N, db)
  end.

(** UPDATE metadata SET last_sequence WHERE conversation_id = id *)
Definition upd_last (id : string) (last : N) (db : sqldb) : res unit * sqldb :=
  (Ok tt, db <| db_meta := alter (fun row => row <| mr_last_sequence := last |>) id (db_meta db) |>).

(** INSERT INTO metadata ... VALUES (id, 0, 0, state, 1, now) ON CONFLICT DO UPDATE SET context_state, context_state_revision + 1 *)
Definition upsert_state (id state : string) (now : Z) (db : sqldb) : res unit * sqldb :=
  let row := match db_meta db !! id with
             | None => mkMetaRow None 0 0 state 1 now
             | Some row => row <| mr_context_state := state |> <| mr_context_state_revision := (mr_context_state_revision row + 1)%N |>
             end in
  (Ok tt, db <| db_meta := <[id := row]> (db_meta db) |>).

(** UPDATE metadata SET context_state, context_state_revision + 1 WHERE conversation_id = id *)
Definition upd_state (id state : string) (db : sqldb) : res unit * sqldb :=
  (Ok tt, db <| db_meta := alter (fun row => row <| mr_context_state := state |> <| mr_context_state_revision := (mr_context_state_revision row + 1)%N |>) id (db_meta db) |>).

(** DELETE FROM metadata WHERE conversation_id = id, with ON DELETE CASCADE on the messages. *)
Definition del_meta (id : string) (db : sqldb) : res unit * sqldb :=
  (Ok tt, mkDb (delete id (db_meta db)) (filter (fun p => p.1.1 <> id) (db_msgs db))).

(** SELECT conversation_id FROM metadata WHERE revision > 0 ORDER BY updated_at DESC *)
Definition later (a b : string * meta_row) : Prop := (mr_updated_at b.2 <= mr_updated_at a.2)%Z.
#[global] Instance later_dec : RelDecision later := fun a b => decide ((mr_updated_at b.2 <= mr_updated_at a.2)%Z).
Definition sel_ids (db : sqldb) : list string :=
  (merge_sort later (List.filter (fun p => bool_decide (0 < mr_revision p.2)%N) (map_to_list (db_meta db)))).*1.

(** SELECT conversation_id, messages FROM metadata WHERE last_sequence = 0 AND messages IS NOT NULL AND messages != '[]' *)
Definition sel_legacy (db : sqldb) : list (string * string) :=
  omap (fun p => raw ← mr_messages p.2; if bool_decide (mr_last_sequence p.2 = 0%N /\ raw <> "[]") then Some (p.1, raw) else None)
    (map_to_list (db_meta db)).

(** The drivers refuse a uint64 parameter with the high bit set. *)
Definition bind_int (n : N) : res N :=
  if bool_decide (n < 9223372036854775808)%N then Ok n else Err (ENew "uint64 values with high bit set are not supported").

(** * Running statements *)

Inductive fault : Type := NoFault | Failed (e : error) | LostAck (e : error).

(** What happens around one statement: a step of other processes before it, the time, and its failure.  A commit
    whose acknowledgement is lost has taken effect. *)
Record sqlenv := mkEnv { e_before : sqldb -> sqldb; e_now : Z; e_fault : fault }.
Definition quiet : sqlenv := mkEnv (fun db => db) 0 NoFault.

(** [sq_base] is what the database is without the uncommitted writes of the open transaction. *)
Record sqlw := mkSqlw { sq_db : sqldb; sq_base : sqldb; sq_env : list sqlenv }.

#[global] Instance eta_sqlw : Settable sqlw := fun w => mkSqlw (sq_db w) (sq_base w) (sq_env w).

Definition SM (A : Type) : Type := sqlw -> res A * sqlw.
Definition sret {A} (a : A) : SM A := fun w => (Ok a, w).
Definition sfail {A} (e : error) : SM A := fun w => (Err e, w).
Definition sbind {A B} (m : SM A) (k : A -> SM B) : SM B := fun w =>
  match m w with (Ok a, w) => k a w | (Err e, w) => (Err e, w) end.
Notation "'let$' x := m 'in' k" := (sbind m (fun x => k)) (at level 10, x binder, m at level 100, k at level 200) : gude_scope.
(** The error is wrapped with a prefix. *)
Definition swrap {A} (msg : string) (m : SM A) : SM A := fun w =>
  match m w with (Ok a, w) => (Ok a, w) | (Err e, w) => (Err (EWrap msg e), w) end.
Definition slift {A} (r : res A) : SM A := fun w => (r, w).

(** The next entry of the surroundings. *)
Definition next_env (w : sqlw) : sqlenv * sqlw :=
  match sq_env w with [] => (quiet, w) | e :: es => (e, w <| sq_env := es |>) end.

(** Run a statement.  [free]: other processes may have acted since the last one; otherwise the open
    transaction keeps them out by its snapshot or its locks. *)
Definition exec {A} (free : bool) (f : Z -> sqldb -> res A * sqldb) : SM A := fun w =>
  let '(e, w) := next_env w in
  let w := if free then w <| sq_db := e_before e (sq_db w) |> <| sq_base := e_before e (sq_db w) |> else w in
  match e_fault e with
  | Failed err | LostAck err => (Err err, w)
  | NoFault => let '(r, db) := f (e_now e) (sq_db w) in (r, w <| sq_db := db |>)
  end.

(** A query only reads. *)
Definition query {A} (free : bool) (f : sqldb -> A) : SM A := exec free (fun _ db => (Ok (f db), db)).

(** A statement outside a transaction commits by itself. *)
Definition autocommit {A} (m : SM A) : SM A := fun w =>
  let '(r, w) := m w in (r, w <| sq_base := sq_db w |>).

Definition rollback (w : sqlw) : sqlw := w <| sq_db := sq_base w |>.

(** tx.Commit *)
Definition commit : SM unit := fun w =>
  let '(e, w) := next_env w in
  match e_fault e with
  | NoFault => (Ok tt, w <| sq_base := sq_db w |>)
  | LostAck err => (Err err, w <| sq_base := sq_db w |>)
  | Failed err => (Err err, rollback w)
  end.

(** BeginTx, the body, Commit; the deferred Rollback undoes the body when it returns an error. *)
Definition transaction {A} (begin_err commit_err : string) (body : SM A) : SM A :=
  let$ _ := swrap begin_err (exec true (fun _ db => (Ok tt, db))) in
  fun w => match body w with
           | (Err e, w) => (Err e, rollback w)
           | (Ok a, w) => (let$ _ := swrap commit_err commit in sret a) w
           end.

(** * Columns

    SQLite stores a message as text; PostgreSQL as JSONB, which rewrites the text but keeps its meaning. *)
Class MessageColumn `{MessageJSON} := {
  column : string -> string;
  column_norm : Message -> Message;
  column_law msg raw : MarshalMessages [msg] = Some raw -> UnmarshalMessages (column raw) = Some [column_norm msg] }.

(** The context states of a conversation as one JSON object; [states_norm] is what encoding does to a raw message. *)
Class StateCodec := {
  enc_states : gmap string memoryContextState -> string;
  dec_states : string -> option (gmap string memoryContextState);
  states_norm : RawMessage -> RawMessage;
  states_empty : dec_states "{}" = Some ∅;
  states_law s : dec_states (enc_states s) = Some ((fun v => mkContextState (states_norm (ms_data v)) (ms_revision v)) <$> s) }.

(** * Operations *)

Section Operations.
Context `{MessageColumn} `{StateCodec}.

(* agent/conversation/sqlite/conversation.go: Conversation.insertMessage *)
Definition insertMessage (db : string) (free : bool) (id : string) (sequence : N) (message : Message) : SM unit :=
  match MarshalMessages [message] with
  | None => sfail (ENew (db +:+ " conversation: marshal message"))
  | Some raw =>
      swrap (db +:+ " conversation: insert message")
        (let$ sequence := slift (bind_int sequence) in exec free (fun _ => ins_message id sequence (column raw)))
  end.

(** The loop over the messages, from sequence [last + i + 1]. *)
Fixpoint insert_messages (db : string) (free : bool) (id : string) (last : N) (messages : list Message) : SM unit :=
  match messages with
  | [] => sret tt
  | message :: messages =>
      let$ _ := insertMessage db free id (u64 (last + 1)) message in insert_messages db false id (u64 (last + 1)) messages
  end.

(** The rows of a range, each of one message. *)
Fixpoint decode_rows (db : string) (rows : list (N * string)) : res (list Message) :=
  match rows with
  | [] => Ok []
  | (seq, raw) :: rows =>
      match UnmarshalMessages raw with
      | None => Err (ENew (db +:+ " conversation: decode message"))
      | Some [one] => letr rest := decode_rows db rows in Ok (one :: rest)
      | Some _ => Err (EWrap (db +:+ " conversation: decode message") (ENew "expected one message"))
      end
  end.

(** Two queries without a transaction. *)
(* agent/conversation/sqlite/conversation.go: Conversation.LoadAfter *)
Definition load_after (db id : string) (after : N) : SM ConversationSnapshot :=
  let$ meta := swrap (db +:+ " conversation: load metadata") (query true (fun d => db_meta d !! id)) in
  match meta with
  | None => sret (mkSnapshot [] 0 0)
  | Some row =>
      let$ rows := swrap (db +:+ " conversation: load range")
        (let$ after := slift (bind_int after) in query true (sel_rows id after)) in
      let$ messages := slift (decode_rows db rows) in
      sret (mkSnapshot messages (mr_revision row) (mr_last_sequence row))
  end.

Definition append_conflict {A} (db : string) : SM A := sfail (EWrap (db +:+ " conversation: append") (ESentinel ErrConversationConflict)).

(** The compare-and-swap that ends an append. *)
(* agent/conversation/sqlite/conversation.go:231-240: end of Append *)
Definition advance (db id : string) (revision last : N) (messages : list Message) : SM ConversationCursor :=
  let next := u64 (revision + 1) in
  let nextLast := u64 (last + lenN messages) in
  let$ n := swrap (db +:+ " conversation: update metadata")
    (let$ next := slift (bind_int next) in let$ nextLast := slift (bind_int nextLast) in let$ revision := slift (bind_int revision) in
     exec false (upd_meta id next nextLast revision)) in
  if bool_decide (n <> 1%N) then append_conflict db else sret (mkCursor next nextLast).

(* agent/conversation/sqlite/conversation.go:204-240: body of Append *)
Definition sqlite_append_body (id : string) (messages : list Message) (expected : N) : SM ConversationCursor :=
  let$ meta := swrap "sqlite conversation: append metadata" (query true (fun d => db_meta d !! id)) in
  let '(revision, last) := match meta with None => (0%N, 0%N) | Some row => (mr_revision row, mr_last_sequence row) end in
  if bool_decide (revision <> expected) then append_conflict "sqlite"
  else if is_nil messages then sret (mkCursor revision last)
  else
    let$ _ := (if bool_decide (revision = 0%N /\ last = 0%N) then swrap "sqlite conversation: create metadata" (exec false (ins_meta id))
               else sret false) in
    let$ _ := insert_messages "sqlite" false id last messages in
    advance "sqlite" id revision last messages.

(* agent/conversation/sqlite/conversation.go: Conversation.Append *)
Definition sqlite_Append (id : string) (messages : list Message) (expected : N) : SM ConversationCursor :=
  transaction "sqlite conversation: begin append" "sqlite conversation: commit append" (sqlite_append_body id messages expected).

(** FOR UPDATE locks the row when there is one.  Without one other transactions may act until the row or a message
    of the conversation is inserted. *)
(* agent/conversation/postgres/conversation.go:176-210: body of Append *)
Definition pg_append_body (id : string) (msgs : list Message) (expected : N) : SM ConversationCursor :=
  let$ meta := swrap "postgres conversation: append metadata" (query true (fun d => db_meta d !! id)) in
  let '(rev, last) := match meta with None => (0%N, 0%N) | Some row => (mr_revision row, mr_last_sequence row) end in
  if bool_decide (rev <> expected) then append_conflict "postgres"
  else if is_nil msgs then sret (mkCursor rev last)
  else
    let$ created := match meta with
                    | None => swrap "postgres conversation: create metadata" (exec true (ins_meta id))
                    | Some _ => sret true
                    end in
    let$ _ := insert_messages "postgres" (negb created) id last msgs in
    advance "postgres" id rev last msgs.

(* agent/conversation/postgres/conversation.go: Conversation.Append *)
Definition pg_Append (id : string) (msgs : list Message) (expected : N) : SM ConversationCursor :=
  transaction "postgres conversation: begin append" "postgres conversation: commit append" (pg_append_body id msgs expected).

(* agent/conversation/sqlite/conversation.go: Conversation.Load *)
Definition sqlite_Load (id : string) : SM ConversationSnapshot := load_after "sqlite" id 0.
(* agent/conversation/postgres/conversation.go: Conversation.Load *)
Definition pg_Load (id : string) : SM ConversationSnapshot := load_after "postgres" id 0.
(* agent/conversation/postgres/conversation.go: Conversation.LoadAfter *)
Definition pg_LoadAfter (id : string) (after : N) : SM ConversationSnapshot := load_after "postgres" id after.
(* agent/conversation/postgres/conversation.go: Conversation.insertMessage *)
Definition pg_insertMessage := insertMessage "postgres".

(** ** Context state *)

Definition states_of (db raw : string) : res (gmap string memoryContextState) :=
  match dec_states raw with None => Err (ENew (db +:+ " conversation: decode context state")) | Some s => Ok s end.
Definition state_of (key : string) (states : gmap string memoryContextState) : memoryContextState :=
  default (mkContextState None 0) (states !! key).

(* agent/conversation/sqlite/conversation.go: Conversation.LoadContextState *)
Definition load_context_state (db id key : string) : SM ContextStateSnapshot :=
  let$ raw := swrap (db +:+ " conversation: load context state") (query true (fun d => mr_context_state <$> db_meta d !! id)) in
  match raw with
  | None => sret (mkStateSnapshot None 0)
  | Some raw =>
      let$ states := slift (states_of db raw) in
      let v := state_of key states in
      sret (mkStateSnapshot (cloneRaw (ms_data v)) (ms_revision v))
  end.
(* agent/conversation/postgres/conversation.go: Conversation.LoadContextState *)
Definition pg_LoadContextState := load_context_state "postgres".

(** The checked change of one namespace: its next revision and the new states. *)
(* agent/conversation/sqlite/conversation.go:284-298: change of SaveContextState *)
Definition next_states (db key : string) (data : RawMessage) (expected : N) (raw : string) : res (N * string) :=
  letr states := states_of db raw in
  let current := state_of key states in
  if bool_decide (ms_revision current <> expected) then Err (EWrap (db +:+ " conversation: context state") (ESentinel ErrContextStateConflict))
  else let current := mkContextState (cloneRaw data) (u64 (ms_revision current + 1)) in
       Ok (ms_revision current, enc_states (<[key := current]> states)).

(* agent/conversation/sqlite/conversation.go: Conversation.SaveContextState *)
Definition sqlite_SaveContextState (json_Valid : string -> bool) (id key : string) (data : RawMessage) (expected : N) : SM N :=
  if negb (json_Valid (default "" data)) then sfail (ENew "sqlite conversation: context state is invalid JSON")
  else transaction "sqlite conversation: begin context state" "sqlite conversation: commit context state" (
    let$ raw := swrap "sqlite conversation: context metadata" (query true (fun d => mr_context_state <$> db_meta d !! id)) in
    let$ next := slift (next_states "sqlite" key data expected (default "{}" raw)) in
    let$ _ := swrap "sqlite conversation: save context state" (exec false (upsert_state id next.2)) in
    sret next.1).

(** Without a row there is nothing to lock: other transactions may act before the insert. *)
(* agent/conversation/postgres/conversation.go: Conversation.SaveContextState *)
Definition pg_SaveContextState (json_Valid : string -> bool) (id key : string) (data : RawMessage) (expected : N) : SM N :=
  if negb (json_Valid (default "" data)) then sfail (ENew "postgres conversation: context state is invalid JSON")
  else transaction "begin" "commit" (
    let$ raw := query true (fun d => mr_context_state <$> db_meta d !! id) in
    let$ next := slift (next_states "postgres" key data expected (default "{}" raw)) in
    let$ _ := swrap "postgres conversation: save context state"
      match raw with
      | None => exec true (upsert_state id next.2)
      | Some _ => exec false (fun _ => upd_state id next.2)
      end in
    sret next.1).

(** ** Managing conversations and the legacy layout *)

(* agent/conversation/sqlite/conversation.go: Conversation.List *)
Definition sql_List (db : string) : SM (list string) := swrap (db +:+ " conversation: list") (query true sel_ids).
(* agent/conversation/postgres/conversation.go: Conversation.List *)
Definition pg_List := sql_List "postgres".
(* agent/conversation/sqlite/conversation.go: Conversation.Delete *)
Definition sql_Delete (db id : string) : SM unit := swrap (db +:+ " conversation: delete") (autocommit (exec true (fun _ => del_meta id))).
(* agent/conversation/postgres/conversation.go: Conversation.Delete *)
Definition pg_Delete := sql_Delete "postgres".

(* agent/conversation/sqlite/conversation.go:120-137: rows of migrateLegacy *)
Fixpoint migrate_rows (db : string) (rows : list (string * string)) : SM unit :=
  match rows with
  | [] => sret tt
  | (id, raw) :: rows =>
      match UnmarshalMessages raw with
      | None => sfail (ENew (db +:+ " conversation: decode legacy"))
      | Some msgs =>
          let$ _ := insert_messages db false id 0 msgs in
          let$ _ := swrap (db +:+ " conversation: migrate metadata") (exec false (fun _ => upd_last id (lenN msgs))) in
          migrate_rows db rows
      end
  end.

(* agent/conversation/sqlite/conversation.go: Conversation.migrateLegacy *)
Definition migrateLegacy (db : string) : SM unit :=
  transaction (db +:+ " conversation: begin migration") (db +:+ " conversation: commit migration") (
    let$ rows := swrap (db +:+ " conversation: legacy scan") (query true sel_legacy) in migrate_rows db rows).

(** PostgreSQL decodes every snapshot before the first write. *)
Fixpoint pg_decode_legacy (rows : list (string * string)) : res (list (string * list Message)) :=
  match rows with
  | [] => Ok []
  | (id, raw) :: rows =>
      match UnmarshalMessages raw with
      | None => Err (ENew "postgres conversation: decode legacy")
      | Some msgs => letr rest := pg_decode_legacy rows in Ok ((id, msgs) :: rest)
      end
  end.
Fixpoint pg_write_legacy (rows : list (string * list Message)) : SM unit :=
  match rows with
  | [] => sret tt
  | (id, msgs) :: rows =>
      let$ _ := insert_messages "postgres" false id 0 msgs in
      let$ _ := swrap "postgres conversation: update legacy metadata" (exec false (fun _ => upd_last id (lenN msgs))) in
      pg_write_legacy rows
  end.
(* agent/conversation/postgres/conversation.go: Conversation.migrateLegacy *)
Definition pg_migrateLegacy : SM unit :=
  transaction "postgres conversation: begin legacy migration" "postgres conversation: commit legacy migration" (
    let$ rows := swrap "postgres conversation: query legacy" (query true sel_legacy) in
    let$ legacy := slift (pg_decode_legacy rows) in
    pg_write_legacy legacy).
End Operations.

(** The stores as the engine sees them. *)
Definition sqlite_store `{MessageColumn} : ConversationStore sqlw := mkConversationStore sqlite_Load (load_after "sqlite") sqlite_Append.
Definition pg_store `{MessageColumn} : ConversationStore sqlw := mkConversationStore pg_Load pg_LoadAfter pg_Append.
