(* ===== verification/SqlProps.v ===== *)
(** What the SQL conversation stores promise under faults and other writers: an append is atomic and has one winner,
    a load reads two moments, context state is safe in SQLite and can be lost in PostgreSQL. *)
From stdpp Require Import sorting.
From S2P Require Import Prelude Errors Messages Execution Stores ConversationMemory MessageCodec SqlConversation.

(** * What the tables say *)

Section Tables.
Context `{MessageColumn}.

(** The message of a row. *)
Definition row_msg (db : sqldb) (id : string) (k : N) : option Message :=
  raw ← db_msgs db !! (id, k); match UnmarshalMessages raw with Some [m] => Some m | _ => None end.

(** The sequences after [a], [n] of them. *)
Definition seqs (a n : N) : list N := N.of_nat <$> seq (S (N.to_nat a)) (N.to_nat n).

Definition sql_rev (db : sqldb) (id : string) : N := default 0%N (mr_revision <$> db_meta db !! id).
Definition sql_last (db : sqldb) (id : string) : N := default 0%N (mr_last_sequence <$> db_meta db !! id).
Definition sql_log (db : sqldb) (id : string) : list Message := omap (row_msg db id) (seqs 0 (sql_last db id)).

(** The rows of a conversation have the sequences 1 to [last_sequence], each one message, and belong to a metadata row. *)
Definition db_ok (db : sqldb) : Prop := forall id,
  (sql_last db id < 9223372036854775808)%N /\ (sql_rev db id < 9223372036854775808)%N /\
  (forall k, is_Some (db_msgs db !! (id, k)) <-> (1 <= k <= sql_last db id)%N) /\
  (forall k, is_Some (db_msgs db !! (id, k)) -> is_Some (row_msg db id k)).

(** Later states: [k] appends added the messages [ext]. *)
Definition sql_evolves (db db' : sqldb) : Prop := (db_ok db -> db_ok db') /\ forall id, exists k ext,
  sql_log db' id = sql_log db id ++ ext /\ (k <= length ext)%nat /\ (k = 0%nat -> ext = []) /\
  sql_rev db' id = (sql_rev db id + N.of_nat k)%N.

#[global] Instance sql_evolves_preorder : PreOrder sql_evolves.
Proof.
  split.
  - intros db. split; [done|]. intros id. exists 0%nat, []. rewrite app_nil_r, N.add_0_r. by split_and!.
  - intros db1 db2 db3 [Hok12 H12] [Hok23 H23]. split; [auto|]. intros id.
    destruct (H12 id) as (k1 & e1 & Hl1 & Hk1 & Hz1 & Hr1), (H23 id) as (k2 & e2 & Hl2 & Hk2 & Hz2 & Hr2).
    exists (k1 + k2)%nat, (e1 ++ e2). rewrite Hl2, Hl1, <- app_assoc, Hr2, Hr1, length_app. split_and!; [done|lia| |lia].
    intros ?. rewrite Hz1, Hz2 by lia. done.
Qed.

(** A conversation that has had at least as many messages as appends keeps it so. *)
Lemma rev_bound_evolves db db' id : sql_evolves db db' -> (sql_rev db id <= lenN (sql_log db id))%N -> (sql_rev db' id <= lenN (sql_log db' id))%N.
Proof. intros [_ Hev] Hb. destruct (Hev id) as (k & ext & -> & Hk & _ & ->). rewrite lenN_app. unfold lenN in *. lia. Qed.

(** ** Sequences *)

Lemma seqs_elem a n k : k ∈ seqs a n <-> (a < k <= a + n)%N.
Proof.
  unfold seqs. rewrite list_elem_of_fmap. setoid_rewrite elem_of_seq. split; [intros (x & -> & ?); lia|].
  intros ?. exists (N.to_nat k). lia.
Qed.
Lemma seqs_sorted a n : StronglySorted N.le (seqs a n).
Proof.
  unfold seqs. generalize (S (N.to_nat a)) as s. induction (N.to_nat n) as [|m IH]; intros s; cbn; constructor; [apply IH|].
  apply Forall_fmap, Forall_forall. intros x Hx%elem_of_seq. cbn. lia.
Qed.
Lemma seqs_NoDup a n : NoDup (seqs a n).
Proof. apply NoDup_fmap; [intros x y Hxy; lia|apply NoDup_seq]. Qed.
Lemma seqs_app a n m : seqs a (n + m) = seqs a n ++ seqs (a + n) m.
Proof. unfold seqs. rewrite !N2Nat.inj_add, seq_app, fmap_app. do 2 f_equal; lia. Qed.
Lemma seqs_length a n : length (seqs a n) = N.to_nat n.
Proof. unfold seqs. by rewrite length_fmap, length_seq. Qed.

Lemma omap_all_length {A B} (f : A -> option B) (xs : list A) : (forall x, x ∈ xs -> is_Some (f x)) -> length (omap f xs) = length xs.
Proof.
  induction xs as [|x xs IH]; intros Hf; [done|]. cbn. destruct (Hf x) as [y ->]; [by left|]. cbn. f_equal. apply IH.
  intros z Hz. apply Hf. by right.
Qed.

Lemma omap_agree {A B} (f g : A -> option B) (xs : list A) : (forall x, x ∈ xs -> f x = g x) -> omap f xs = omap g xs.
Proof.
  intros Hf. apply list_omap_ext, Forall_Forall2_diag, Forall_forall. done.
Qed.

Lemma row_msg_some db id k : db_ok db -> (1 <= k <= sql_last db id)%N -> is_Some (row_msg db id k).
Proof. intros Hok Hk. destruct (Hok id) as (_ & _ & H1 & H2). apply H2, H1, Hk. Qed.

Lemma sql_log_length db id : db_ok db -> length (sql_log db id) = N.to_nat (sql_last db id).
Proof.
  intros Hok. unfold sql_log. rewrite omap_all_length, seqs_length; [done|]. intros k Hk%seqs_elem. apply row_msg_some; [done|lia].
Qed.

(** A range of the log. *)
Lemma sql_log_drop db id after : db_ok db ->
  omap (row_msg db id) (seqs after (sql_last db id - after)) = drop (N.to_nat after) (sql_log db id).
Proof.
  intros Hok. destruct (N.le_gt_cases after (sql_last db id)) as [Hle|Hgt].
  - unfold sql_log. replace (sql_last db id) with (after + (sql_last db id - after))%N at 2 by lia.
    rewrite seqs_app, omap_app, drop_app_length'; [by rewrite N.add_0_l|]. rewrite omap_all_length, seqs_length; [done|].
    intros k Hk%seqs_elem. apply row_msg_some; [done|lia].
  - rewrite drop_ge by (rewrite sql_log_length; [lia|done]). by replace (sql_last db id - after)%N with 0%N by lia.
Qed.

(** ** The range query *)

Lemma sel_keys_ok db id after : db_ok db -> sel_keys id after db = seqs after (sql_last db id - after).
Proof.
  intros Hok. unfold sel_keys. apply (StronglySorted_unique N.le); [apply StronglySorted_merge_sort; apply _|apply seqs_sorted|].
  rewrite merge_sort_Permutation. apply NoDup_Permutation; [apply NoDup_elements|apply seqs_NoDup|].
  intros k. rewrite elem_of_elements, elem_of_map, seqs_elem. destruct (Hok id) as (_ & _ & Hk & _). split.
  - intros ([id' k'] & -> & [[Hid Ha] Hd]%elem_of_filter). cbn in *. subst id'. apply elem_of_dom, Hk in Hd. lia.
  - intros Hr. exists (id, k). split; [done|]. apply elem_of_filter. cbn. split; [split; [done|lia]|]. apply elem_of_dom, Hk. lia.
Qed.

Lemma decode_rows_ok dbn db id keys : db_ok db -> (forall k, k ∈ keys -> (1 <= k <= sql_last db id)%N) ->
  decode_rows dbn (omap (fun k => raw ← db_msgs db !! (id, k); Some (k, raw)) keys) = Ok (omap (row_msg db id) keys).
Proof.
  intros Hok. induction keys as [|k keys IH]; intros Hk; [done|].
  destruct (row_msg_some db id k Hok (Hk k (list_elem_of_here _ _))) as [m Hm]. cbn. rewrite Hm. unfold row_msg in Hm.
  destruct (db_msgs db !! (id, k)) as [raw|]; [|done]. cbn in *.
  destruct (UnmarshalMessages raw) as [[|m' [|]]|]; try done. simplify_eq. rewrite IH; [done|]. intros x Hx. apply Hk. by right.
Qed.

Lemma sel_rows_decode dbn db id after : db_ok db ->
  decode_rows dbn (sel_rows id after db) = Ok (drop (N.to_nat after) (sql_log db id)).
Proof.
  intros Hok. unfold sel_rows. rewrite sel_keys_ok by done. rewrite decode_rows_ok; [by rewrite sql_log_drop|done|]. intros k Hk%seqs_elem. lia.
Qed.

(** * Appending rows *)

(** The rows that a successful run of inserts leaves. *)
Fixpoint put_rows (id : string) (last : N) (raws : list string) (msgs : gmap (string * N) string) : gmap (string * N) string :=
  match raws with
  | [] => msgs
  | raw :: raws => put_rows id (last + 1) raws (<[(id, (last + 1)%N) := column raw]> msgs)
  end.

Lemma put_rows_other id last raws msgs id' k : id' <> id \/ (k <= last)%N -> put_rows id last raws msgs !! (id', k) = msgs !! (id', k).
Proof.
  revert last msgs. induction raws as [|raw raws IH]; intros last msgs Hk; [done|]. cbn. rewrite IH by (destruct Hk; [by left|right; lia]).
  apply lookup_insert_ne. intros [= -> <-]. destruct Hk; [done|lia].
Qed.
Lemma put_rows_new id last raws msgs i raw : raws !! i = Some raw ->
  put_rows id last raws msgs !! (id, (last + 1 + N.of_nat i)%N) = Some (column raw).
Proof.
  revert last msgs i. induction raws as [|raw' raws IH]; intros last msgs i; [done|]. destruct i as [|i]; cbn.
  - intros [= ->]. rewrite N.add_0_r, put_rows_other by (right; lia). apply lookup_insert_eq.
  - intros Hi. rewrite <- (IH (last + 1)%N (<[(id, (last + 1)%N):=column raw']> msgs) i Hi). f_equal. f_equal. lia.
Qed.
Lemma put_rows_beyond id last raws msgs k : (last + lenN raws < k)%N -> put_rows id last raws msgs !! (id, k) = msgs !! (id, k).
Proof.
  revert last msgs. unfold lenN. induction raws as [|raw raws IH]; intros last msgs Hk; [done|]. cbn in *. rewrite IH by lia.
  apply lookup_insert_ne. intros [= <-]. lia.
Qed.

(** A conversation is extended by an append: nothing else changes. *)
Record appended (db db' : sqldb) (id : string) (msgs : list Message) (cu : ConversationCursor) : Prop := {
  ap_ok : db_ok db';
  ap_log : sql_log db' id = sql_log db id ++ map column_norm msgs;
  ap_rev : sql_rev db' id = (sql_rev db id + if is_nil msgs then 0 else 1)%N;
  ap_cursor : cu = mkCursor (sql_rev db' id) (lenN (sql_log db' id));
  ap_other id' : id' <> id -> db_meta db' !! id' = db_meta db !! id' /\ sql_log db' id' = sql_log db id' ;
  ap_state : mr_context_state <$> db_meta db' !! id = Some (default "{}" (mr_context_state <$> db_meta db !! id)) \/ msgs = [] /\ db' = db }.

Lemma appended_evolves db db' id msgs cu : appended db db' id msgs cu -> sql_evolves db db'.
Proof.
  intros [Hok Hl Hr _ Ho _]. split; [done|]. intros id'. destruct (decide (id' = id)) as [->|Hne].
  - exists (if is_nil msgs then 0 else 1)%nat, (map column_norm msgs). rewrite Hl, Hr. destruct msgs; cbn; split_and!; (done || lia).
  - destruct (Ho id' Hne) as [Hm Hl']. exists 0%nat, []. rewrite Hl', app_nil_r. unfold sql_rev. rewrite Hm. split_and!; (done || lia).
Qed.

Lemma sql_log_same db db' id : db_meta db' !! id = db_meta db !! id -> (forall k, db_msgs db' !! (id, k) = db_msgs db !! (id, k)) ->
  sql_log db' id = sql_log db id /\ (forall k, row_msg db' id k = row_msg db id k) /\ sql_last db' id = sql_last db id /\ sql_rev db' id = sql_rev db id.
Proof.
  intros Hm Hk. assert (Hr : forall k, row_msg db' id k = row_msg db id k) by (intros k; unfold row_msg; by rewrite Hk).
  assert (Hl : sql_last db' id = sql_last db id) by (unfold sql_last; by rewrite Hm). unfold sql_log, sql_rev. rewrite Hl, Hm. split_and!; [|done..].
  by apply omap_agree.
Qed.

(** The new rows read back as the messages. *)
Lemma put_rows_msgs db' id last raws msgs : Forall2 (fun m raw => MarshalMessages [m] = Some raw) msgs raws ->
  (forall i raw, raws !! i = Some raw -> db_msgs db' !! (id, (last + 1 + N.of_nat i)%N) = Some (column raw)) ->
  omap (row_msg db' id) (seqs last (lenN msgs)) = map column_norm msgs.
Proof.
  unfold lenN, seqs. rewrite Nat2N.id. intros Hm. revert last. induction Hm as [|m raw msgs raws Em Hm IH]; intros last Hr; [done|].
  pose proof (Hr 0%nat raw eq_refl) as Hz. replace (last + 1 + N.of_nat 0)%N with (N.of_nat (S (N.to_nat last))) in Hz by lia.
  cbn [length seq fmap list_fmap omap list_omap map]. unfold row_msg at 1. rewrite Hz. cbn [mbind option_bind].
  rewrite (column_law m raw Em). f_equal. rewrite <- (IH (last + 1)%N).
  - by replace (N.to_nat (last + 1)) with (S (N.to_nat last)) by lia.
  - intros i r Hi. rewrite <- (Hr (S i) r Hi). do 2 f_equal. lia.
Qed.

(** The tables after rows were added to a conversation and its metadata row was replaced. *)
Lemma extend_rows_ok db db' id row' msgs raws : db_ok db -> Forall2 (fun m raw => MarshalMessages [m] = Some raw) msgs raws ->
  mr_last_sequence row' = (sql_last db id + lenN msgs)%N -> (mr_last_sequence row' < 9223372036854775808)%N -> (mr_revision row' < 9223372036854775808)%N ->
  db_meta db' = <[id := row']> (db_meta db) -> db_msgs db' = put_rows id (sql_last db id) raws (db_msgs db) ->
  db_ok db' /\ sql_log db' id = sql_log db id ++ map column_norm msgs /\
  (forall id', id' <> id -> db_meta db' !! id' = db_meta db !! id' /\ sql_log db' id' = sql_log db id').
Proof.
  set (last := sql_last db id). intros Hok Hm Hl' Hb Hrb Hmeta Hmsgs. pose proof (Forall2_length _ _ _ Hm) as Hlen.
  assert (Hrev' : sql_rev db' id = mr_revision row') by (unfold sql_rev; by rewrite Hmeta, lookup_insert_eq).
  assert (Hlast' : sql_last db' id = (last + lenN msgs)%N) by (unfold sql_last; by rewrite Hmeta, lookup_insert_eq).
  assert (Ho : forall id', id' <> id -> db_meta db' !! id' = db_meta db !! id' /\ (forall k, db_msgs db' !! (id', k) = db_msgs db !! (id', k))).
  { intros id' Hid. rewrite Hmeta, lookup_insert_ne by done. split; [done|]. intros k. rewrite Hmsgs. apply put_rows_other. by left. }
  assert (Hold : forall k, (k <= last)%N -> db_msgs db' !! (id, k) = db_msgs db !! (id, k)).
  { intros k Hk. rewrite Hmsgs. apply put_rows_other. by right. }
  assert (Hnew : forall i raw, raws !! i = Some raw -> db_msgs db' !! (id, (last + 1 + N.of_nat i)%N) = Some (column raw)).
  { intros i raw Hi. rewrite Hmsgs. by apply put_rows_new. }
  assert (Hcase : forall k, (last < k <= last + lenN msgs)%N -> is_Some (db_msgs db' !! (id, k)) /\ is_Some (row_msg db' id k)).
  { intros k Hk. destruct (lookup_lt_is_Some_2 raws (N.to_nat (k - last - 1))) as [raw Hraw]; [unfold lenN in *; lia|].
    pose proof (Hnew _ _ Hraw) as Hr. replace (last + 1 + N.of_nat (N.to_nat (k - last - 1)))%N with k in Hr by lia.
    destruct (Forall2_lookup_r _ _ _ _ _ Hm Hraw) as (m & _ & Em). unfold row_msg. rewrite Hr. cbn. by rewrite (column_law m raw Em). }
  split_and!.
  - intros id'. destruct (decide (id' = id)) as [->|Hid].
    + destruct (Hok id) as (Hl & Hr & Hk & Hd). fold last in Hl, Hk. rewrite Hlast', Hrev'. rewrite Hl' in Hb.
      split_and!; [done|done| |]; intros k; (destruct (N.le_gt_cases k last) as [Hle|Hgt]; [|destruct (N.le_gt_cases k (last + lenN msgs)) as [Hle|Hgt']]).
      * rewrite Hold, Hk by done. lia.
      * split; [intros _; lia|]. intros _. by apply Hcase.
      * rewrite Hmsgs, put_rows_beyond, Hk by (unfold lenN in *; lia). lia.
      * unfold row_msg. rewrite Hold by done. apply Hd.
      * intros _. by apply Hcase.
      * rewrite Hmsgs, put_rows_beyond, Hk by (unfold lenN in *; lia). lia.
    + destruct (Ho id' Hid) as [Hm1 Hm2]. destruct (sql_log_same db db' id' Hm1 Hm2) as (_ & Hrm & -> & ->).
      destruct (Hok id') as (? & ? & Hk & Hd). split_and!; [done..| |]; intros k; [by rewrite Hm2|rewrite Hm2, Hrm; apply Hd].
  - unfold sql_log. rewrite Hlast', seqs_app, omap_app, N.add_0_l. f_equal; [|by apply (put_rows_msgs db' id _ raws)].
    apply omap_agree. intros k Hk%seqs_elem. unfold row_msg. rewrite Hold by lia. done.
  - intros id' Hid. destruct (Ho id' Hid) as [Hm1 Hm2]. split; [done|]. by apply sql_log_same.
Qed.

(** The tables after an append that starts from [db]. *)
Lemma append_rows_ok db db' id row msgs raws now0 now : db_ok db -> msgs <> [] ->
  Forall2 (fun m raw => MarshalMessages [m] = Some raw) msgs raws ->
  row = default (mkMetaRow None 0 0 "{}" 0 now0) (db_meta db !! id) ->
  (mr_revision row + 1 < 9223372036854775808)%N -> (mr_last_sequence row + lenN msgs < 9223372036854775808)%N ->
  db_meta db' = <[id := row <| mr_revision := (mr_revision row + 1)%N |> <| mr_last_sequence := (mr_last_sequence row + lenN msgs)%N |> <| mr_updated_at := now |>]> (db_meta db) ->
  db_msgs db' = put_rows id (mr_last_sequence row) raws (db_msgs db) ->
  appended db db' id msgs (mkCursor (mr_revision row + 1) (mr_last_sequence row + lenN msgs)).
Proof.
  intros Hok Hne Hm Hrow Hrb Hb Hmeta Hmsgs.
  assert (Hrev : sql_rev db id = mr_revision row) by (unfold sql_rev; rewrite Hrow; by destruct (db_meta db !! id)).
  assert (Hlast : sql_last db id = mr_last_sequence row) by (unfold sql_last; rewrite Hrow; by destruct (db_meta db !! id)).
  assert (Hrev' : sql_rev db' id = (mr_revision row + 1)%N) by (unfold sql_rev; by rewrite Hmeta, lookup_insert_eq).
  rewrite <- Hlast in Hmsgs. pose proof Hmeta as Hmeta0.
  eapply (extend_rows_ok db db' id _ msgs raws Hok Hm) in Hmeta as (Hok' & Hlog & Ho); [|cbn; by rewrite Hlast|done..].
  split; try done.
  - rewrite Hrev, Hrev'. by destruct msgs.
  - rewrite Hrev', Hlog. f_equal. unfold lenN. rewrite length_app, length_map, sql_log_length, Hlast by done. lia.
  - left. rewrite Hmeta0, lookup_insert_eq. cbn. f_equal. rewrite Hrow. by destruct (db_meta db !! id).
Qed.

(** * Running statements

    [sp m w Q]: running [m] in [w] ends in [Q].  The rules follow the operations. *)
Definition sp {A} (m : SM A) (w : sqlw) (Q : res A -> sqlw -> Prop) : Prop := Q (m w).1 (m w).2.

(** Surroundings whose steps are appends of other writers. *)
Class Surroundings := {
  env_ok : sqlenv -> Prop;
  env_sound e : env_ok e -> forall db, db_ok db -> sql_evolves db (e_before e db);
  env_quiet : env_ok quiet }.
Context {Env : Surroundings}.
Definition envs_ok (es : list sqlenv) : Prop := Forall env_ok es.

Lemma sp_bind {A B} (m : SM A) (k : A -> SM B) w Q :
  sp m w (fun r w' => match r with Ok a => sp (k a) w' Q | Err e => Q (Err e) w' end) -> sp (sbind m k) w Q.
Proof. unfold sp, sbind. by destruct (m w) as [[a|e] w']. Qed.
Lemma sp_wrap {A} msg (m : SM A) w Q :
  sp m w (fun r w' => match r with Ok a => Q (Ok a) w' | Err e => Q (Err (EWrap msg e)) w' end) -> sp (swrap msg m) w Q.
Proof. unfold sp, swrap. by destruct (m w) as [[a|e] w']. Qed.
Lemma sp_mono {A} (m : SM A) w (Q Q' : res A -> sqlw -> Prop) : sp m w Q -> (forall r w', Q r w' -> Q' r w') -> sp m w Q'.
Proof. unfold sp. auto. Qed.
Lemma sp_ret {A} (a : A) w (Q : res A -> sqlw -> Prop) : Q (Ok a) w -> sp (sret a) w Q.
Proof. done. Qed.
Lemma sp_fail {A} e w (Q : res A -> sqlw -> Prop) : Q (Err e) w -> sp (sfail e) w Q.
Proof. done. Qed.
Lemma sp_lift {A} (r : res A) w (Q : res A -> sqlw -> Prop) : Q r w -> sp (slift r) w Q.
Proof. done. Qed.
Lemma sp_bind_int n w (Q : res N -> sqlw -> Prop) :
  (forall e, Q (Err e) w) -> ((n < 9223372036854775808)%N -> Q (Ok n) w) -> sp (slift (bind_int n)) w Q.
Proof. unfold sp, slift, bind_int. cbn. intros He Hn. case_bool_decide; auto. Qed.

Lemma next_env_ok w : envs_ok (sq_env w) -> env_ok (next_env w).1 /\ exists es, envs_ok es /\ (next_env w).2 = mkSqlw (sq_db w) (sq_base w) es.
Proof.
  intros Hw. unfold next_env. destruct w as [db base [|e es]]; cbn in *.
  - split; [apply env_quiet|by exists []].
  - apply Forall_cons in Hw as [He Hes]. split; [done|]. by exists es.
Qed.

Lemma sp_exec_locked {A} (f : Z -> sqldb -> res A * sqldb) w Q : envs_ok (sq_env w) ->
  (forall es e, envs_ok es -> Q (Err e) (mkSqlw (sq_db w) (sq_base w) es)) ->
  (forall es now, envs_ok es -> Q (f now (sq_db w)).1 (mkSqlw (f now (sq_db w)).2 (sq_base w) es)) ->
  sp (exec false f) w Q.
Proof.
  intros Hw He Hf. unfold sp, exec. destruct (next_env_ok w Hw) as (_ & es & Hes & Hn). destruct (next_env w) as [e w']. cbn in *. subst w'.
  destruct (e_fault e); cbn; [|by apply He..]. specialize (Hf es (e_now e) Hes). by destruct (f (e_now e) (sq_db w)).
Qed.
(** Before a statement that is not kept apart, other writers may have acted. *)
Lemma sp_exec_free {A} (f : Z -> sqldb -> res A * sqldb) w Q : envs_ok (sq_env w) -> db_ok (sq_db w) ->
  (forall es e db, envs_ok es -> sql_evolves (sq_db w) db -> Q (Err e) (mkSqlw db db es)) ->
  (forall es now db, envs_ok es -> sql_evolves (sq_db w) db -> (exists e, env_ok e /\ db = e_before e (sq_db w)) ->
     Q (f now db).1 (mkSqlw (f now db).2 db es)) ->
  sp (exec true f) w Q.
Proof.
  intros Hw Hok He Hf. unfold sp, exec. destruct (next_env_ok w Hw) as (Hev & es & Hes & Hn). destruct (next_env w) as [e w']. cbn in *. subst w'.
  cbn. pose proof (env_sound e Hev (sq_db w) Hok) as Hst.
  destruct (e_fault e); cbn; [|by apply He..]. specialize (Hf es (e_now e) _ Hes Hst (ex_intro _ e (conj Hev eq_refl))). by destruct (f (e_now e) _).
Qed.

Lemma sp_transaction {A} b c (body : SM A) w (Q : res A -> sqlw -> Prop) (P : sqldb -> sqldb -> A -> Prop) :
  envs_ok (sq_env w) -> db_ok (sq_db w) ->
  (forall es db, envs_ok es -> sql_evolves (sq_db w) db -> sp body (mkSqlw db db es) (fun r w' => envs_ok (sq_env w') /\
     sql_evolves db (sq_base w') /\ forall a, r = Ok a -> P (sq_base w') (sq_db w') a)) ->
  (forall es e db, envs_ok es -> sql_evolves (sq_db w) db -> Q (Err e) (mkSqlw db db es)) ->
  (forall es db db' a, envs_ok es -> sql_evolves (sq_db w) db -> P db db' a -> Q (Ok a) (mkSqlw db' db' es) /\ forall e, Q (Err e) (mkSqlw db' db' es)) ->
  sp (transaction b c body) w Q.
Proof.
  intros Hw Hok Hb He Hc. unfold transaction. apply sp_bind, sp_wrap, sp_exec_free; [done|done|by auto|]. intros es _ db Hes Hev _. cbn.
  specialize (Hb es db Hes Hev). unfold sp in *. destruct (body (mkSqlw db db es)) as [r w']. cbn in Hb. destruct Hb as (Hes' & Hev' & HP).
  assert (Hev2 : sql_evolves (sq_db w) (sq_base w')) by by etrans. destruct r as [a|e]; [|by apply He].
  specialize (HP a eq_refl). unfold sbind, swrap, commit. destruct (next_env_ok w' Hes') as (_ & es2 & Hes2 & Hn).
  destruct (next_env w') as [e w2]. cbn in Hn. subst w2. destruct (Hc es2 _ _ a Hes2 Hev2 HP) as [Hq1 Hq2].
  destruct (e_fault e); cbn; [done|by apply He|by apply Hq2].
Qed.

(** ** Inserts *)

Lemma sp_insertMessage d id seq m w (Q : res unit -> sqlw -> Prop) : envs_ok (sq_env w) ->
  (forall es e, envs_ok es -> Q (Err e) (mkSqlw (sq_db w) (sq_base w) es)) ->
  (forall raw es, envs_ok es -> MarshalMessages [m] = Some raw -> (seq < 9223372036854775808)%N -> db_msgs (sq_db w) !! (id, seq) = None ->
     is_Some (db_meta (sq_db w) !! id) -> Q (Ok tt) (mkSqlw ((sq_db w) <| db_msgs := <[(id, seq) := column raw]> (db_msgs (sq_db w)) |>) (sq_base w) es)) ->
  sp (insertMessage d false id seq m) w Q.
Proof.
  intros Hw He Hq. assert (He' : forall e, Q (Err e) w) by (intros e; destruct w; by apply He).
  unfold insertMessage. destruct (MarshalMessages [m]) as [raw|] eqn:Em; [|by apply sp_fail].
  apply sp_wrap, sp_bind, sp_bind_int; [done|]. intros Hb. apply sp_exec_locked; [done|by auto|].
  intros es _ Hes. unfold ins_message. destruct (db_msgs (sq_db w) !! (id, seq)) eqn:Ek; [by apply He|].
  destruct (db_meta (sq_db w) !! id) eqn:Er; [by apply Hq|by apply He].
Qed.
Lemma u64_next last : (last < 9223372036854775808)%N -> u64 (last + 1) = (last + 1)%N.
Proof. intros ?. apply u64_small. lia. Qed.

(** Every error leaves the committed state alone; success leaves the rows of all messages. *)
Lemma sp_insert_messages d id last msgs w (Q : res unit -> sqlw -> Prop) : envs_ok (sq_env w) -> (last < 9223372036854775808)%N ->
  (forall e es db, envs_ok es -> Q (Err e) (mkSqlw db (sq_base w) es)) ->
  (forall raws es, envs_ok es -> Forall2 (fun m raw => MarshalMessages [m] = Some raw) msgs raws -> (last + lenN msgs < 9223372036854775808)%N ->
     Q (Ok tt) (mkSqlw ((sq_db w) <| db_msgs := put_rows id last raws (db_msgs (sq_db w)) |>) (sq_base w) es)) ->
  sp (insert_messages d false id last msgs) w Q.
Proof.
  revert last w Q. induction msgs as [|m msgs IH]; intros last w Q Hw Hl He Hq; cbn [insert_messages].
  - apply sp_ret. specialize (Hq [] (sq_env w)). destruct w as [[mm mg] base es]. apply Hq; [done|constructor|]. unfold lenN. cbn. lia.
  - rewrite u64_next by done. apply sp_bind, sp_insertMessage; [done|by auto|]. intros raw es Hes Em Hb _ _. apply IH; [done|done|by auto|].
    intros raws es' Hes' Hr Hb'. unfold lenN in *. cbn [length] in *. apply (Hq (raw :: raws)); [done|by constructor|]. lia.
Qed.

(** ** The compare-and-swap *)

Lemma sp_advance d id rev last msgs w (Q : res ConversationCursor -> sqlw -> Prop) : envs_ok (sq_env w) ->
  (rev < 9223372036854775808)%N -> (last + lenN msgs < 9223372036854775808)%N ->
  (forall e es db, envs_ok es -> Q (Err e) (mkSqlw db (sq_base w) es)) ->
  (forall es row now, envs_ok es -> (rev + 1 < 9223372036854775808)%N -> db_meta (sq_db w) !! id = Some row -> mr_revision row = rev ->
     Q (Ok (mkCursor (rev + 1) (last + lenN msgs)))
       (mkSqlw ((sq_db w) <| db_meta := <[id := row <| mr_revision := (rev + 1)%N |> <| mr_last_sequence := (last + lenN msgs)%N |> <| mr_updated_at := now |>]> (db_meta (sq_db w)) |>)
          (sq_base w) es)) ->
  sp (advance d id rev last msgs) w Q.
Proof.
  intros Hw Hr Hl He Hq. assert (He' : forall e, Q (Err e) w) by (intros e; destruct w; by apply He).
  unfold advance. rewrite u64_next by done. rewrite (u64_small (last + lenN msgs)) by lia.
  apply sp_bind, sp_wrap, sp_bind, sp_bind_int; [done|]. intros Hb. apply sp_bind, sp_bind_int; [done|]. intros _.
  apply sp_bind, sp_bind_int; [done|]. intros _. apply sp_exec_locked; [done|by auto|]. intros es now Hes. unfold upd_meta.
  destruct (db_meta (sq_db w) !! id) as [row|] eqn:Er; [|by apply He]. case_bool_decide as Hrev; [|by apply He]. by apply Hq.
Qed.

(** ** Append *)

Definition append_post (id : string) (msgs : list Message) (expected : N) (db0 : sqldb) (r : res ConversationCursor) (w' : sqlw) : Prop :=
  envs_ok (sq_env w') /\ sql_evolves db0 (sq_base w') /\
  forall cu, r = Ok cu -> sql_rev (sq_base w') id = expected /\ appended (sq_base w') (sq_db w') id msgs cu.

Lemma appended_nil db id row : db_ok db -> (row = (0%N, 0%N) /\ db_meta db !! id = None \/ exists m, db_meta db !! id = Some m /\ row = (mr_revision m, mr_last_sequence m)) ->
  appended db db id [] (mkCursor row.1 row.2).
Proof.
  intros Hok Hrow. assert (Hr : row = (sql_rev db id, sql_last db id)).
  { unfold sql_rev, sql_last. destruct Hrow as [[-> ->]|(m & -> & ->)]; done. }
  rewrite Hr. split; try done; cbn; rewrite ?app_nil_r, ?N.add_0_r; try done; [|by right].
  unfold lenN. rewrite sql_log_length by done. by rewrite N2Nat.id.
Qed.

(** The part of an append that nobody can disturb: the conversation has a row and the transaction holds it. *)
Lemma sp_append_tail d id msgs base db row now0 es : envs_ok es -> db_ok base -> msgs <> [] ->
  row = default (mkMetaRow None 0 0 "{}" 0 now0) (db_meta base !! id) -> db_meta db = <[id := row]> (db_meta base) -> db_msgs db = db_msgs base ->
  sp (let$ _ := insert_messages d false id (mr_last_sequence row) msgs in advance d id (mr_revision row) (mr_last_sequence row) msgs)
    (mkSqlw db base es) (append_post id msgs (mr_revision row) base).
Proof.
  intros Hes Hok Hne Hrow Hmeta Hmsgs. destruct (Hok id) as (Hl & Hr & _).
  assert (Hrl : sql_rev base id = mr_revision row /\ sql_last base id = mr_last_sequence row).
  { unfold sql_rev, sql_last. rewrite Hrow. by destruct (db_meta base !! id). }
  destruct Hrl as [Hrev Hlast]. rewrite Hrev, Hlast in *.
  apply sp_bind, sp_insert_messages; [done|done| |].
  { intros e es' db' Hes'. split_and!; [done|reflexivity|done]. }
  intros raws es' Hes' Hraws Hb. apply sp_advance; cbn; [done|lia|done| |].
  { intros e es2 db2 Hes2. split_and!; [done|reflexivity|done]. }
  intros es2 row2 now Hes2 Hrb Hr2 Hrv. rewrite Hmeta, lookup_insert_eq in Hr2. injection Hr2 as <-.
  split_and!; [done|reflexivity|]. intros cu [= <-]. cbn. split; [done|]. apply (append_rows_ok base _ id row msgs raws now0 now); try done.
  - cbn. by rewrite Hmeta, insert_insert_eq.
  - cbn. by rewrite Hmsgs.
Qed.

Lemma append_post_stop id msgs expected db e es : envs_ok es -> append_post id msgs expected db (Err e) (mkSqlw db db es).
Proof. intros Hes. split_and!; [done|reflexivity|done]. Qed.

Lemma row_insert_id db id row : db_meta db !! id = Some row -> db_meta db = <[id := row]> (db_meta db).
Proof. intros Hr. by rewrite insert_id. Qed.

(** Adding the steps of the others before a body. *)
Lemma append_post_later id msgs expected db db' r w : sql_evolves db db' -> append_post id msgs expected db' r w -> append_post id msgs expected db r w.
Proof. intros Hev (? & ? & ?). split_and!; [done|by etrans|done]. Qed.

(** The tail of an append on an existing row, and on a row the transaction has just inserted. *)
Lemma sp_append_row d id msgs db row es : envs_ok es -> db_ok db -> msgs <> [] -> db_meta db !! id = Some row ->
  sp (let$ _ := insert_messages d false id (mr_last_sequence row) msgs in advance d id (mr_revision row) (mr_last_sequence row) msgs)
    (mkSqlw db db es) (append_post id msgs (mr_revision row) db).
Proof. intros Hes Hok Hne Er. apply (sp_append_tail d id msgs db db row 0); try done; [by rewrite Er|by apply row_insert_id]. Qed.
Lemma sp_append_new d id msgs db now es : envs_ok es -> db_ok db -> msgs <> [] -> db_meta db !! id = None ->
  sp (let$ _ := insert_messages d false id 0 msgs in advance d id 0 0 msgs)
    (mkSqlw (db <| db_meta := <[id := mkMetaRow None 0 0 "{}" 0 now]> (db_meta db) |>) db es) (append_post id msgs 0 db).
Proof. intros Hes Hok Hne Er. apply (sp_append_tail d id msgs db _ (mkMetaRow None 0 0 "{}" 0 now) now); try done. by rewrite Er. Qed.

(** An insert that is not kept apart runs as one that is, after a step of the others. *)
Lemma insert_messages_free d id last m msgs w : envs_ok (sq_env w) -> db_ok (sq_db w) -> sq_base w = sq_db w ->
  exists db, sql_evolves (sq_db w) db /\
    insert_messages d true id last (m :: msgs) w = insert_messages d false id last (m :: msgs) (mkSqlw db db (sq_env w)).
Proof.
  intros Hw Hok Hb. destruct w as [db base es]. cbn in *. subst base. unfold sbind, insertMessage.
  destruct (MarshalMessages [m]) as [raw|]; [|by exists db]. unfold swrap, sbind, slift, bind_int.
  case_bool_decide; [|by exists db]. exists (e_before (next_env (mkSqlw db db es)).1 db). split; [apply env_sound; [|done]; by apply (next_env_ok (mkSqlw db db es))|].
  unfold exec, next_env. by destruct es.
Qed.

(** A sequence that is taken, or a missing row, stops the inserts. *)
Lemma sp_insert_stopped d id last m msgs db es Q : envs_ok es -> (last < 9223372036854775808)%N ->
  is_Some (db_msgs db !! (id, (last + 1)%N)) \/ db_meta db !! id = None -> (forall e es, envs_ok es -> Q (Err e) (mkSqlw db db es)) ->
  sp (insert_messages d false id last (m :: msgs)) (mkSqlw db db es) Q.
Proof.
  intros Hes Hl Hs He. cbn [insert_messages]. rewrite u64_next by done. apply sp_bind, sp_insertMessage; [done|by auto|].
  cbn. intros raw es' _ _ _ Hk Hm. rewrite Hk in Hs. destruct Hs as [Hs|Hs]; [by destruct Hs|]. rewrite Hs in Hm. by destruct Hm.
Qed.

(** Without a row, another append may come first: then the insert of message 1 fails. *)
Lemma sp_append_racing d id msgs db es : envs_ok es -> db_ok db -> (sql_rev db id <= lenN (sql_log db id))%N -> msgs <> [] ->
  sp (let$ _ := insert_messages d true id 0 msgs in advance d id 0 0 msgs) (mkSqlw db db es) (append_post id msgs 0 db).
Proof.
  intros Hes Hok Hrl Hne. destruct msgs as [|m msgs]; [done|].
  destruct (insert_messages_free d id 0 m msgs (mkSqlw db db es) Hes Hok eq_refl) as (db' & Hev & Heq). cbn in Hev.
  assert (Hok' : db_ok db') by by apply Hev. apply (rev_bound_evolves _ _ id Hev) in Hrl. apply (sp_mono _ _ (append_post id (m :: msgs) 0 db')); [|intros r w'; by apply append_post_later].
  assert (Hrun : forall Q, sp (let$ _ := insert_messages d false id 0 (m :: msgs) in advance d id 0 0 (m :: msgs)) (mkSqlw db' db' es) Q ->
    sp (let$ _ := insert_messages d true id 0 (m :: msgs) in advance d id 0 0 (m :: msgs)) (mkSqlw db db es) Q).
  { intros Q. unfold sp, sbind. by rewrite Heq. }
  apply Hrun. destruct (db_meta db' !! id) as [row|] eqn:Er.
  - destruct (Hok' id) as (_ & _ & Hk & _). unfold lenN in Hrl. rewrite sql_log_length in Hrl by done.
    unfold sql_rev, sql_last in Hrl, Hk. rewrite Er in Hrl, Hk. cbn in Hrl, Hk.
    destruct (N.eq_0_gt_0_cases (mr_last_sequence row)) as [Hz|Hp].
    + pose proof (sp_append_row d id (m :: msgs) db' row es Hes Hok' Hne Er) as Ht. replace (mr_revision row) with 0%N in Ht by lia. by rewrite Hz in Ht.
    + apply sp_bind, sp_insert_stopped; [done|lia| |intros; by apply append_post_stop]. left. apply Hk. lia.
  - apply sp_bind, sp_insert_stopped; [done|lia|by right|intros; by apply append_post_stop].
Qed.

Lemma sqlite_append_body_ok id msgs expected db es : envs_ok es -> db_ok db ->
  sp (sqlite_append_body id msgs expected) (mkSqlw db db es) (append_post id msgs expected db).
Proof.
  intros Hes Hok. unfold sqlite_append_body. apply sp_bind, sp_wrap, sp_exec_free; [done|done| |].
  { intros es' e db' Hes' Hev. apply (append_post_later _ _ _ _ _ _ _ Hev). by apply append_post_stop. }
  intros es' _ db' Hes' Hev _. cbn. assert (Hok' : db_ok db') by by apply Hev.
  apply (sp_mono _ _ (append_post id msgs expected db')); [|intros r w'; by apply append_post_later].
  destruct (db_meta db' !! id) as [row|] eqn:Er; (case_bool_decide as Hx; [by apply append_post_stop|]); subst expected;
    (destruct (is_nil msgs) eqn:En; bool_hyps; [subst msgs|]).
  - split_and!; [done|reflexivity|]. intros cu [= <-]. split; [unfold sql_rev; cbn; by rewrite Er|].
    apply (appended_nil db' id (mr_revision row, mr_last_sequence row)); [done|]. right. by exists row.
  - apply sp_bind. case_bool_decide; [|by apply sp_append_row]. apply sp_wrap, sp_exec_locked; [done|intros; by apply append_post_stop|].
    intros es2 now Hes2. unfold ins_meta. cbn. rewrite Er. by apply sp_append_row.
  - split_and!; [done|reflexivity|]. intros cu [= <-]. split; [unfold sql_rev; cbn; by rewrite Er|].
    apply (appended_nil db' id (0, 0)%N); [done|]. by left.
  - apply sp_bind. rewrite bool_decide_true by done. apply sp_wrap, sp_exec_locked; [done|intros; by apply append_post_stop|].
    intros es2 now Hes2. unfold ins_meta. cbn. rewrite Er. by apply sp_append_new.
Qed.

Lemma pg_append_body_ok id msgs expected db es : envs_ok es -> db_ok db ->
  sp (pg_append_body id msgs expected) (mkSqlw db db es) (append_post id msgs expected db).
Proof.
  intros Hes Hok. unfold pg_append_body. apply sp_bind, sp_wrap, sp_exec_free; [done|done| |].
  { intros es' e db' Hes' Hev. apply (append_post_later _ _ _ _ _ _ _ Hev). by apply append_post_stop. }
  intros es' _ db' Hes' Hev _. cbn. assert (Hok' : db_ok db') by by apply Hev.
  apply (sp_mono _ _ (append_post id msgs expected db')); [|intros r w'; by apply append_post_later].
  destruct (db_meta db' !! id) as [row|] eqn:Er; (case_bool_decide as Hx; [by apply append_post_stop|]); subst expected;
    (destruct (is_nil msgs) eqn:En; bool_hyps; [subst msgs|]).
  - split_and!; [done|reflexivity|]. intros cu [= <-]. split; [unfold sql_rev; cbn; by rewrite Er|].
    apply (appended_nil db' id (mr_revision row, mr_last_sequence row)); [done|]. right. by exists row.
  - apply sp_bind, sp_ret. by apply sp_append_row.
  - split_and!; [done|reflexivity|]. intros cu [= <-]. split; [unfold sql_rev; cbn; by rewrite Er|].
    apply (appended_nil db' id (0, 0)%N); [done|]. by left.
  - apply sp_bind, sp_wrap, sp_exec_free; [done|done| |].
    { intros es2 e db2 Hes2 Hev2. apply (append_post_later _ _ _ _ _ _ _ Hev2). by apply append_post_stop. }
    intros es2 now db2 Hes2 Hev2 _. assert (Hok2 : db_ok db2) by by apply Hev2.
    unfold ins_meta. destruct (db_meta db2 !! id) as [row|] eqn:Er2; cbn.
    all: apply (sp_mono _ _ (append_post id msgs 0 db2)); [|intros r w'; by apply append_post_later].
    + apply sp_append_racing; try done. apply (rev_bound_evolves _ _ id Hev2). unfold sql_rev. cbn. rewrite Er. cbn. lia.
    + by apply sp_append_new.
Qed.

(** A world outside a transaction. *)
Record world_ok (w : sqlw) : Prop := { wo_db : db_ok (sq_db w); wo_base : sq_base w = sq_db w; wo_env : envs_ok (sq_env w) }.

(** What an append does to the world: it is decided at one moment of the database, [db1]. *)
Definition append_outcome (id : string) (msgs : list Message) (expected : N) (w : sqlw) (r : res ConversationCursor) (w' : sqlw) : Prop :=
  world_ok w' /\ exists db1, sql_evolves (sq_db w) db1 /\
  match r with
  | Ok cu => sql_rev db1 id = expected /\ appended db1 (sq_db w') id msgs cu
  | Err _ => sq_db w' = db1 \/ exists cu, sql_rev db1 id = expected /\ appended db1 (sq_db w') id msgs cu
  end.

Lemma append_outcome_evolves id msgs expected w r w' : append_outcome id msgs expected w r w' -> sql_evolves (sq_db w) (sq_db w').
Proof.
  intros (_ & db1 & Hev & Hr). etrans; [exact Hev|]. destruct r as [cu|e]; [destruct Hr as [_ Ha]; by eapply appended_evolves|].
  destruct Hr as [->|(cu & _ & Ha)]; [reflexivity|by eapply appended_evolves].
Qed.

Lemma append_transaction_ok b c body id msgs expected w : world_ok w ->
  (forall db es, envs_ok es -> db_ok db -> sp body (mkSqlw db db es) (append_post id msgs expected db)) ->
  sp (transaction b c body) w (append_outcome id msgs expected w).
Proof.
  intros [Hok Hb He] Hbody. apply (sp_transaction b c body w _ (fun db db' cu => sql_rev db id = expected /\ appended db db' id msgs cu)); [done|done| | |].
  - intros es db Hes [Hev _]. apply (Hbody db es Hes). by apply Hev.
  - intros es e db Hes Hev. split; [split; [by apply Hev|done|done]|]. exists db. split; [done|]. by left.
  - intros es db db' cu Hes Hev [Hr Ha]. assert (Hw : world_ok (mkSqlw db' db' es)) by (split; [by apply Ha|done|done]).
    split; [|intros e]; (split; [done|]; exists db; split; [done|]); [done|]. right. by exists cu.
Qed.

Lemma sqlite_Append_ok id msgs expected w : world_ok w -> sp (sqlite_Append id msgs expected) w (append_outcome id msgs expected w).
Proof. intros Hw. apply append_transaction_ok; [done|]. intros. by apply sqlite_append_body_ok. Qed.
Lemma pg_Append_ok id msgs expected w : world_ok w -> sp (pg_Append id msgs expected) w (append_outcome id msgs expected w).
Proof. intros Hw. apply append_transaction_ok; [done|]. intros. by apply pg_append_body_ok. Qed.

(** * Load *)

(** The two moments of a load. *)
Definition load_outcome (id : string) (after : N) (w : sqlw) (r : res ConversationSnapshot) (w' : sqlw) : Prop :=
  world_ok w' /\ sql_evolves (sq_db w) (sq_db w') /\
  forall sn, r = Ok sn -> exists e1 e2, env_ok e1 /\ env_ok e2 /\
    let db1 := e_before e1 (sq_db w) in let db2 := e_before e2 db1 in
    sn = mkSnapshot (if bool_decide (db_meta db1 !! id = None) then [] else drop (N.to_nat after) (sql_log db2 id))
           (sql_rev db1 id) (lenN (sql_log db1 id)) /\
    (sq_db w' = db2 \/ db_meta db1 !! id = None /\ sq_db w' = db1).

Lemma world_now db es : db_ok db -> envs_ok es -> world_ok (mkSqlw db db es).
Proof. by split. Qed.

Lemma load_after_ok d id after w : world_ok w -> sp (load_after d id after) w (load_outcome id after w).
Proof.
  intros [Hok Hb Hes]. unfold load_after. apply sp_bind, sp_wrap, sp_exec_free; [done|done| |].
  { intros es e db Hes' Hev. split_and!; [apply world_now; [by apply Hev|done]|done|done]. }
  intros es1 _ db1 Hes1 Hev1 (e1 & He1 & Hd1). assert (Hok1 : db_ok db1) by by apply Hev1. cbn.
  assert (Hlen : lenN (sql_log db1 id) = sql_last db1 id) by (unfold lenN; rewrite sql_log_length by done; by rewrite N2Nat.id).
  destruct (db_meta db1 !! id) as [row|] eqn:Er.
  - apply sp_bind, sp_wrap, sp_bind, sp_bind_int.
    { intros e. split_and!; [by apply world_now|done|done]. }
    intros _. apply sp_exec_free; [done|done| |].
    { intros es e db Hes' Hev. split_and!; [apply world_now; [by apply Hev|done]|by etrans|done]. }
    intros es2 _ db2 Hes2 Hev2 (e2 & He2 & Hd2). assert (Hok2 : db_ok db2) by by apply Hev2. cbn in *.
    unfold sp, sbind, slift. rewrite sel_rows_decode by done. cbn. split_and!; [by apply world_now|by etrans|].
    intros sn [= <-]. exists e1, e2. cbv zeta. rewrite <- Hd1, <- Hd2. split_and!; [done..| |by left].
    rewrite bool_decide_false by congruence. rewrite Hlen. unfold sql_rev, sql_last. by rewrite Er.
  - split_and!; [by apply world_now|done|]. intros sn [= <-]. exists e1, quiet. cbv zeta. rewrite <- Hd1.
    split_and!; [done|apply env_quiet| |by right]. rewrite bool_decide_true by done. rewrite Hlen. unfold sql_rev, sql_last. by rewrite Er.
Qed.

(** C8. Append of the SQL stores is atomic and a compare-and-swap, with any statement failing, the acknowledgement of the commit
    lost, and other writers appending before the transaction, and in PostgreSQL also between its SELECT of a missing row and
    its first insert.  There is one moment of the database at which the append is decided: if it succeeds, the conversation had the expected
    revision then, its log is extended by exactly the stored messages, the revision by one (by none for no messages), the
    returned cursor is the new one, and no other conversation and no context state changes.  If it fails, it changed nothing, or the
    whole append is there and only its acknowledgement was lost. *)
Theorem sql_append_atomic (id : string) (msgs : list Message) (expected : N) (w : sqlw) : world_ok w ->
  (let '(r, w') := sqlite_Append id msgs expected w in append_outcome id msgs expected w r w') /\
  (let '(r, w') := pg_Append id msgs expected w in append_outcome id msgs expected w r w').
Proof.
  intros Hw. pose proof (sqlite_Append_ok id msgs expected w Hw) as Hs. pose proof (pg_Append_ok id msgs expected w Hw) as Hp.
  unfold sp in Hs, Hp. by destruct (sqlite_Append id msgs expected w), (pg_Append id msgs expected w).
Qed.
End Tables.

(** Other writers append whenever they like; or there are none. *)
Definition writers `{MessageColumn} : Surroundings.
Proof. refine {| env_ok := fun e => forall db, db_ok db -> sql_evolves db (e_before e db) |}; [done|intros db _; reflexivity]. Defined.
Definition alone `{MessageColumn} : Surroundings.
Proof. refine {| env_ok := fun e => forall db, e_before e db = db |}; [intros e He db _; rewrite He; reflexivity|done]. Defined.

(** SQLite keeps the text of a message as it is. *)
#[export, refine] Instance text_column `{MessageJSON} : MessageColumn := {| column := fun raw => raw; column_norm := stored_message |}.
Proof. intros msg raw Hm. by apply marshal_decodes in Hm. Defined.

(** * The contract of the engine

    With nobody else at work the SQL stores keep [ConversationLaws]. *)
Section Laws.
Context `{MessageColumn}.
Existing Instance alone.

Definition later_world (w w' : sqlw) : Prop := (world_ok w -> world_ok w') /\ sql_evolves (sq_db w) (sq_db w').
#[local] Instance later_world_preorder : PreOrder later_world.
Proof.
  split; [intros w; split; [done|reflexivity]|]. intros w1 w2 w3 [H1 H2] [H3 H4]. split; [auto|by etrans].
Qed.

Lemma log_seq db id : db_ok db -> u64 (lenN (sql_log db id)) = lenN (sql_log db id).
Proof. intros Hok. destruct (Hok id) as (Hl & _). apply u64_small. unfold lenN. rewrite sql_log_length by done. lia. Qed.

Lemma load_alone d id after w : world_ok w -> let '(r, w') := load_after d id after w in later_world w w' /\
  forall sn, r = Ok sn -> sn = mkSnapshot (drop (N.to_nat after) (sql_log (sq_db w) id)) (sql_rev (sq_db w) id) (u64 (lenN (sql_log (sq_db w) id))).
Proof.
  intros Hw. pose proof (load_after_ok d id after w Hw) as Hl. unfold sp in Hl. destruct (load_after d id after w) as [r w'].
  destruct Hl as (Hw' & Hev & Hsn). split; [by split|]. intros sn Hr. destruct (Hsn sn Hr) as (e1 & e2 & He1 & He2 & -> & _). cbn in He1, He2.
  rewrite He2, He1, log_seq by apply Hw.
  destruct (decide (db_meta (sq_db w) !! id = None)) as [Hm|Hm]; [rewrite bool_decide_true by done|by rewrite bool_decide_false].
  assert (Hn : sql_log (sq_db w) id = []) by (unfold sql_log, sql_last; by rewrite Hm). by rewrite Hn, drop_nil.
Qed.

Definition sql_laws (d : string) (append : string -> list Message -> N -> SM ConversationCursor)
  (Happ : forall id msgs expected w, world_ok w -> sp (append id msgs expected) w (append_outcome id msgs expected w)) :
  ConversationLaws (mkConversationStore (fun id => load_after d id 0) (load_after d) append).
Proof.
  refine {| cl_ok := world_ok; cl_evolves := later_world; cl_log := fun w => sql_log (sq_db w);
            cl_rev := fun w => sql_rev (sq_db w); cl_norm := column_norm |}.
  - intros w w' Hw [Hok _]. auto.
  - intros w w' c _ [_ [_ Hev]]. destruct (Hev c) as (k & ext & -> & _). by eexists.
  - intros w w' c _ [_ [_ Hev]] Hr _. destruct (Hev c) as (k & ext & -> & _ & Hz & Hk). rewrite Hz, app_nil_r by lia. done.
  - intros c w Hw. cbn. pose proof (load_alone d c 0 w Hw) as Hl. destruct (load_after d c 0 w) as [r w']. destruct Hl as [Hlt Hsn].
    split; [done|]. intros sn Hr. rewrite (Hsn sn Hr). exists w. by split_and!.
  - intros c after w Hw. cbn. pose proof (load_alone d c after w Hw) as Hl. destruct (load_after d c after w) as [r w']. destruct Hl as [Hlt Hsn].
    split; [done|]. intros sn Hr. rewrite (Hsn sn Hr). exists w. by split_and!.
  - intros c delta expected w Hw. cbn. pose proof (Happ c delta expected w Hw) as Ha. unfold sp in Ha. destruct (append c delta expected w) as [r w'].
    pose proof (append_outcome_evolves _ _ _ _ _ _ Ha) as Hall.
    destruct Ha as (Hw' & db1 & Hev & Hr). cbn in Hw', Hr. assert (Hok1 : db_ok db1) by (by apply Hev; apply Hw). split.
    + by split.
    + intros cu ->. destruct Hr as [Hx Ha]. exists (mkSqlw db1 db1 []), w'. pose proof (appended_evolves _ _ _ _ _ Ha) as Hev'. destruct Ha as [Hok' Hl _ Hcu _ _].
      rewrite Hcu, log_seq by done. split_and!; try done.
      split; [intros _; split; [done..|constructor]|done].
Defined.

#[export] Instance sqlite_store_laws : ConversationLaws sqlite_store := sql_laws "sqlite" sqlite_Append sqlite_Append_ok.
#[export] Instance pg_store_laws : ConversationLaws pg_store := sql_laws "postgres" pg_Append pg_Append_ok.
End Laws.

(** * Torn loads *)

Definition appending `{MessageColumn} (id : string) (msgs : list Message) : sqlenv :=
  mkEnv (fun db => sq_db (sqlite_Append id msgs (sql_rev db id) (mkSqlw db db [])).2) 0 NoFault.

(** LoadAfter of the SQL stores is not one view of a conversation: it reads the metadata and the messages in two queries
    without a transaction.  When another writer's append commits between them, the snapshot has the appended messages, but the
    revision and the last sequence from before them, a combination the conversation never had. *)
Theorem sql_load_torn `{MessageColumn} (d id : string) (msgs : list Message) (db db' : sqldb) (cu : ConversationCursor) (row : meta_row) :
  db_ok db -> db_meta db !! id = Some row -> msgs <> [] ->
  sqlite_Append id msgs (sql_rev db id) (mkSqlw db db []) = (Ok cu, mkSqlw db' db' []) ->
  load_after d id 0 (mkSqlw db db [quiet; appending id msgs]) =
    (Ok (mkSnapshot (sql_log db id ++ map column_norm msgs) (sql_rev db id) (lenN (sql_log db id))), mkSqlw db' db' []) /\
  (sql_rev db id < cu_Revision cu)%N /\ (lenN (sql_log db id) < cu_LastSequence cu)%N.
Proof.
  intros Hok Er Hne Ha. assert (Hw : world_ok (Env := alone) (mkSqlw db db [])) by (split; [done..|constructor]).
  pose proof (sqlite_Append_ok (Env := alone) id msgs (sql_rev db id) _ Hw) as Hp. unfold sp in Hp. rewrite Ha in Hp.
  destruct Hp as (_ & db1 & Hev & Hx & [Hok' Hl Hr Hcu _ _]). cbn [fst snd sq_db] in *.
  assert (Hlog : sql_log db1 id = sql_log db id).
  { destruct Hev as [_ Hev]. destruct (Hev id) as (k & ext & -> & _ & Hz & Hk). rewrite Hz, app_nil_r by lia. done. }
  rewrite Hlog, Hx in *. subst cu. rewrite Hl, Hr. split; [|destruct msgs; [done|]; cbn; rewrite lenN_app; unfold lenN; cbn; lia].
  assert (Hlast : lenN (sql_log db id) = mr_last_sequence row).
  { unfold lenN. rewrite sql_log_length, N2Nat.id by done. unfold sql_last. by rewrite Er. }
  assert (Hrev : sql_rev db id = mr_revision row) by (unfold sql_rev; by rewrite Er).
  unfold load_after, sbind, swrap, query, exec, next_env, slift, bind_int. cbn -[sel_rows decode_rows]. rewrite Er. cbn -[sel_rows decode_rows sqlite_Append]. rewrite Ha.
  cbn -[sel_rows decode_rows]. rewrite bool_decide_true by done. cbn -[sel_rows decode_rows]. rewrite sel_rows_decode by done. cbn. by rewrite Hl, Hlast, Hrev.
Qed.
Lemma db_ok_empty `{MessageColumn} : db_ok (mkDb ∅ ∅).
Proof.
  intros id. assert (Hl : sql_last (mkDb ∅ ∅) id = 0%N) by reflexivity. rewrite Hl.
  split_and!; [done|done| |]; intros k; cbn; rewrite lookup_empty; [split; [by intros []|lia]|by intros []].
Qed.

(** A user message is there; another is appended while it is read. *)
Definition torn_db : sqldb := sq_db (sqlite_Append "c" [sample_message] 0 (mkSqlw (mkDb ∅ ∅) (mkDb ∅ ∅) [])).2.
Lemma torn_db_ok : db_ok torn_db.
Proof.
  assert (Hw : world_ok (Env := alone) (mkSqlw (mkDb ∅ ∅) (mkDb ∅ ∅) [])).
  { split; [apply db_ok_empty|done|constructor]. }
  pose proof (sqlite_Append_ok (Env := alone) "c" [sample_message] 0 _ Hw) as Hp. exact (wo_db _ (proj1 Hp)).
Qed.
Lemma sql_load_torn_witness :
  fst (load_after "sqlite" "c" 0 (mkSqlw torn_db torn_db [quiet; appending "c" [sample_message]])) =
    Ok (mkSnapshot [sample_message; sample_message] 1 1).
Proof.
  destruct (sqlite_Append "c" [sample_message] (sql_rev torn_db "c") (mkSqlw torn_db torn_db [])) as [r w] eqn:Ha.
  assert (Hr : r = Ok (mkCursor 2 2)) by (apply (f_equal fst) in Ha; vm_compute in Ha; by rewrite <- Ha).
  destruct (sql_load_torn "sqlite" "c" [sample_message] torn_db (sq_db w) (mkCursor 2 2)
    (mkMetaRow None 1 1 "{}" 0 0) torn_db_ok ltac:(vm_compute; reflexivity) ltac:(discriminate)) as [Hl _].
  - rewrite Ha, Hr. f_equal. apply (f_equal snd) in Ha. vm_compute in Ha. by rewrite <- Ha.
  - rewrite Hl. vm_compute. reflexivity.
Defined.

(** Another writer's append is a step of the surroundings. *)
Lemma alone_world `{MessageColumn} db : db_ok db -> world_ok (Env := alone) (mkSqlw db db []).
Proof. intros Hok. split; [done..|constructor]. Qed.
Lemma appending_ok `{MessageColumn} id msgs : env_ok (Surroundings := writers) (appending id msgs).
Proof.
  intros db Hok. pose proof (sqlite_Append_ok (Env := alone) id msgs (sql_rev db id) _ (alone_world db Hok)) as Ha.
  exact (append_outcome_evolves (Env := alone) _ _ _ _ _ _ Ha).
Qed.

(** PostgreSQL: between the SELECT that finds no row and the INSERT, another writer creates the conversation. *)
Definition racing_world : sqlw := mkSqlw (mkDb ∅ ∅) (mkDb ∅ ∅) [quiet; quiet; appending "c" [sample_message]].
Lemma sql_append_atomic_witness :
  append_outcome (Env := writers) "c" [sample_message] 0 racing_world (pg_Append "c" [sample_message] 0 racing_world).1 (pg_Append "c" [sample_message] 0 racing_world).2 /\
  sql_log (sq_db (pg_Append "c" [sample_message] 0 racing_world).2) "c" = [sample_message].
Proof.
  assert (Hw : world_ok (Env := writers) racing_world).
  { split; [apply db_ok_empty|done|]. pose proof (env_quiet (Surroundings := writers)) as Hq.
    constructor; [exact Hq|constructor; [exact Hq|constructor; [apply appending_ok|constructor]]]. }
  destruct (sql_append_atomic (Env := writers) "c" [sample_message] 0 racing_world Hw) as [_ Hp].
  split; [|vm_compute; reflexivity]. by destruct (pg_Append "c" [sample_message] 0 racing_world).
Defined.

(** The loser of that race gets the constraint violation of its insert and not ErrConversationConflict. *)
Lemma pg_append_race_not_conflict : exists e,
  (pg_Append "c" [sample_message] 0 racing_world).1 = Err e /\ errors_Is e ErrConversationConflict = false.
Proof. eexists. split; vm_compute; reflexivity. Qed.
