(* ===== verification/SqlState.v ===== *)
(** Context state in the SQL stores: a compare-and-swap in SQLite that leaves the transcript alone, an update that
    can be lost in PostgreSQL; the range of List. *)
From stdpp Require Import sorting.
From Stdlib Require Import Ascii String.
From S2P Require Import Prelude Errors Messages Execution Stores ConversationMemory MessageCodec SqlConversation.
From S2P Require Import SqlProps.

Section States.
Context `{MessageColumn} `{StateCodec}.

(** The states of a conversation. *)
Definition context_of (db : sqldb) (id : string) : option (gmap string memoryContextState) :=
  dec_states (default "{}" (mr_context_state <$> db_meta db !! id)).

(** What storage makes of a state. *)
Definition stored_state (v : memoryContextState) : memoryContextState := mkContextState (states_norm (ms_data v)) (ms_revision v).

(** Two databases with the same transcripts. *)
Definition same_transcripts (db db' : sqldb) : Prop :=
  forall id, sql_log db' id = sql_log db id /\ sql_rev db' id = sql_rev db id /\ sql_last db' id = sql_last db id.

Lemma upsert_state_transcripts id state now db : let db' := (upsert_state id state now db).2 in
  same_transcripts db db' /\ sql_evolves db db' /\ context_of db' id = dec_states state.
Proof.
  cbn. set (row := match db_meta db !! id with None => _ | Some _ => _ end). set (db' := mkDb (<[id := row]> (db_meta db)) (db_msgs db)).
  assert (Hm : forall c, sql_rev db' c = sql_rev db c /\ sql_last db' c = sql_last db c).
  { intros c. unfold sql_rev, sql_last. cbn. destruct (decide (id = c)) as [<-|Hne]; [|by rewrite lookup_insert_ne].
    rewrite lookup_insert_eq. subst row. by destruct (db_meta db !! id). }
  assert (Hl : forall c, sql_log db' c = sql_log db c) by (intros c; unfold sql_log; by rewrite (proj2 (Hm c))).
  split_and!.
  - intros c. destruct (Hm c). by rewrite Hl.
  - split.
    + intros Hok c. destruct (Hm c) as [-> ->]. exact (Hok c).
    + intros c. exists 0%nat, []. rewrite Hl, app_nil_r, (proj1 (Hm c)). split_and!; (done || lia).
  - unfold context_of. cbn. rewrite lookup_insert_eq. subst row. by destruct (db_meta db !! id).
Qed.

Lemma next_states_ok d key data expected raw n enc : next_states d key data expected raw = Ok (n, enc) ->
  exists states, dec_states raw = Some states /\ ms_revision (state_of key states) = expected /\ n = u64 (expected + 1) /\
    enc = enc_states (<[key := mkContextState (cloneRaw data) n]> states).
Proof.
  unfold next_states, states_of. destruct (dec_states raw) as [states|]; [|done]. cbn. case_bool_decide as Hx; [done|].
  intros [= <- <-]. exists states. by rewrite Hx.
Qed.

Context {Env : Surroundings}.

(** SaveContextState of the SQLite store is a compare-and-swap on the revision of one namespace, with failing statements and other
    writers at work: a success was decided at one moment of the database, at which the namespace had the expected revision; afterwards it
    holds the data under the next revision and every other namespace what it held.  Whatever the outcome, the transcripts of
    all conversations, their revisions and sequences are those of that moment. *)
Theorem sqlite_state_cas (json_Valid : string -> bool) (id key : string) (data : RawMessage) (expected : N) (w : sqlw) : world_ok w ->
  let '(r, w') := sqlite_SaveContextState json_Valid id key data expected w in
  world_ok w' /\ exists db1, sql_evolves (sq_db w) db1 /\ same_transcripts db1 (sq_db w') /\
  forall n, r = Ok n -> json_Valid (default "" data) = true /\ n = u64 (expected + 1) /\ exists states, context_of db1 id = Some states /\
    ms_revision (state_of key states) = expected /\
    context_of (sq_db w') id = Some (stored_state <$> <[key := mkContextState (cloneRaw data) n]> states).
Proof.
  intros Hw. pose proof Hw as [Hok Hb Hes].
  set (Q := fun (r : res N) (w' : sqlw) => world_ok w' /\ exists db1, sql_evolves (sq_db w) db1 /\ same_transcripts db1 (sq_db w') /\
    forall n, r = Ok n -> json_Valid (default "" data) = true /\ n = u64 (expected + 1) /\ exists states, context_of db1 id = Some states /\
    ms_revision (state_of key states) = expected /\
    context_of (sq_db w') id = Some (stored_state <$> <[key := mkContextState (cloneRaw data) n]> states)).
  assert (Hq : sp (sqlite_SaveContextState json_Valid id key data expected) w Q); [|unfold sp in Hq; by destruct (sqlite_SaveContextState _ _ _ _ _ w)].
  unfold sqlite_SaveContextState. destruct (json_Valid (default "" data)) eqn:Ev; cbn [negb].
  2:{ apply sp_fail. split; [done|]. exists (sq_db w). split_and!; [reflexivity|by intros c|done]. }
  apply (sp_transaction _ _ _ w Q (fun db db' n => sql_evolves (sq_db w) db /\ n = u64 (expected + 1) /\ exists states, context_of db id = Some states /\
    ms_revision (state_of key states) = expected /\ exists now, db' = (upsert_state id (enc_states (<[key := mkContextState (cloneRaw data) n]> states)) now db).2));
    [done|done| | |].
  - intros es db Hes' Hev. assert (Hokd : db_ok db) by by apply Hev. apply sp_bind, sp_wrap, sp_exec_free; [done|done| |].
    { intros es' e db' ? ?. split_and!; [done..|done]. }
    intros es1 _ db1 Hes1 Hev1 _. cbn. apply sp_bind, sp_lift. destruct (next_states _ _ _ _ _) as [[n enc]|e] eqn:En; [|by split_and!].
    apply next_states_ok in En as (states & Hd & Hx & -> & ->). apply sp_bind, sp_wrap, sp_exec_locked; [done|by intros; split_and!|].
    intros es2 now Hes2. cbn. split_and!; [done|done|]. intros n [= <-]. split_and!; [by etrans|done|]. exists states. split_and!; [done|done|]. by exists now.
  - intros es e db Hes' Hev. split; [apply world_now; [by apply Hev|done]|]. exists db. split_and!; [done|by intros c|done].
  - intros es db db' n Hes' Hev (_ & -> & states & Hc & Hx & now & ->). destruct (upsert_state_transcripts id (enc_states (<[key:=mkContextState (cloneRaw data) (u64 (expected + 1))]> states)) now db) as (Ht & Hu & Hd).
    assert (Hw' : db_ok (upsert_state id (enc_states (<[key:=mkContextState (cloneRaw data) (u64 (expected + 1))]> states)) now db).2) by by apply Hu, Hev.
    split; [|intros e]; (split; [by apply world_now|exists db; split_and!; [done|done|]]); [|done].
    intros n [= <-]. split_and!; [done|done|]. exists states. split_and!; [done|done|]. cbn [sq_db]. rewrite Hd. apply states_law.
Qed.
End States.

(** * Migration of the snapshot layout *)

Section Migration.
Context `{MessageColumn} {Env : Surroundings}.

(** The snapshot a conversation still has to be migrated from. *)
Definition legacy_messages (db : sqldb) (id : string) : option (list Message) :=
  row ← db_meta db !! id; raw ← mr_messages row;
  if bool_decide (mr_last_sequence row = 0%N /\ raw <> "[]") then UnmarshalMessages raw else None.

(** The conversations of [rows] have the messages of their snapshots, the others what they had. *)
Definition migrated_rows (rows : list (string * string)) (db db' : sqldb) : Prop :=
  db_ok db' /\ (forall id, sql_rev db' id = sql_rev db id) /\
  (forall id raw, (id, raw) ∈ rows -> exists msgs, UnmarshalMessages raw = Some msgs /\ sql_log db' id = map column_norm msgs) /\
  (forall id, id ∉ rows.*1 -> sql_log db' id = sql_log db id).

Lemma alter_row (f : meta_row -> meta_row) (m : gmap string meta_row) id row : m !! id = Some row -> alter f id m = <[id := f row]> m.
Proof.
  intros Hr. apply map_eq. intros c. destruct (decide (c = id)) as [->|Hne]; [by rewrite lookup_alter_eq, Hr, lookup_insert_eq|].
  by rewrite lookup_alter_ne, lookup_insert_ne by done.
Qed.

Lemma migrate_one_ok db id row msgs raws : db_ok db -> db_meta db !! id = Some row -> mr_last_sequence row = 0%N ->
  Forall2 (fun m raw => MarshalMessages [m] = Some raw) msgs raws -> (lenN msgs < 9223372036854775808)%N ->
  let db' := (upd_last id (lenN msgs) (db <| db_msgs := put_rows id 0 raws (db_msgs db) |>)).2 in
  db_ok db' /\ sql_log db' id = map column_norm msgs /\ (forall c, sql_rev db' c = sql_rev db c) /\
  (forall c, c <> id -> db_meta db' !! c = db_meta db !! c /\ sql_log db' c = sql_log db c).
Proof.
  intros Hok Hr Hz Hraws Hb db'. assert (Hlast : sql_last db id = 0%N) by (unfold sql_last; by rewrite Hr).
  assert (Hlog : sql_log db id = []) by (unfold sql_log; by rewrite Hlast).
  destruct (extend_rows_ok db db' id (row <| mr_last_sequence := lenN msgs |>) msgs raws Hok Hraws) as (Hok' & Hl & Ho).
  - cbn. by rewrite Hlast.
  - done.
  - cbn. destruct (Hok id) as (_ & Hrv & _). unfold sql_rev in Hrv. by rewrite Hr in Hrv.
  - apply (alter_row (fun row => row <| mr_last_sequence := lenN msgs |>) (db_meta db) id row Hr).
  - by rewrite Hlast.
  - rewrite Hlog in Hl. split_and!; [done|done| |done]. intros c. unfold sql_rev. destruct (decide (c = id)) as [->|Hne]; [|by rewrite (proj1 (Ho c Hne))].
    cbn. by rewrite lookup_alter_eq, Hr.
Qed.

Lemma migrate_rows_ok d rows db base es : envs_ok es -> db_ok db -> NoDup rows.*1 ->
  (forall id raw, (id, raw) ∈ rows -> exists row, db_meta db !! id = Some row /\ mr_last_sequence row = 0%N) ->
  sp (migrate_rows d rows) (mkSqlw db base es) (fun r w' => envs_ok (sq_env w') /\ sq_base w' = base /\ forall a, r = Ok a -> migrated_rows rows db (sq_db w')).
Proof.
  revert db es. induction rows as [|[id raw] rows IH]; intros db es Hes Hok Hnd Hrows; cbn [migrate_rows].
  { apply sp_ret. split_and!; [done|done|]. intros [] _. split_and!; [done|done| |done]. by intros id raw Hin%elem_of_nil. }
  apply NoDup_cons in Hnd as [Hni Hnd]. destruct (Hrows id raw (list_elem_of_here _ _)) as (row & Hr & Hz).
  destruct (UnmarshalMessages raw) as [msgs|] eqn:Eu; [|apply sp_fail; by split_and!].
  apply sp_bind, sp_insert_messages; [done|done|by intros; split_and!|]. intros raws es1 Hes1 Hraws Hb. cbn [sq_db sq_base].
  apply sp_bind, sp_wrap, sp_exec_locked; [done|by intros; split_and!|]. intros es2 _ Hes2.
  destruct (migrate_one_ok db id row msgs raws Hok Hr Hz Hraws Hb) as (Hok' & Hlog & Hrev & Ho).
  set (db' := (upd_last id (lenN msgs) (db <| db_msgs := put_rows id 0 raws (db_msgs db) |>)).2) in *.
  match goal with |- context [sp (migrate_rows d rows) _ ?Q] => change (sp (migrate_rows d rows) (mkSqlw db' base es2) Q) end.
  assert (Hrows' : forall c rw, (c, rw) ∈ rows -> exists row, db_meta db' !! c = Some row /\ mr_last_sequence row = 0%N).
  { intros c rw Hin. assert (Hne : c <> id) by (intros ->; apply Hni, list_elem_of_fmap; by exists (id, rw)).
    rewrite (proj1 (Ho c Hne)). apply (Hrows c rw). by right. }
  apply (sp_mono _ _ _ _ (IH db' es2 Hes2 Hok' Hnd Hrows')). intros r w' (Hes' & Hbase & Hm). split_and!; [done|done|].
  intros a Ha. destruct (Hm a Ha) as (Hok2 & Hrev2 & Hin2 & Hout2). split_and!; [done| | |].
  - intros c. by rewrite Hrev2.
  - intros c rw [Heq|Hin]%elem_of_cons; [|by apply Hin2]. injection Heq as -> ->. exists msgs. split; [done|]. by rewrite Hout2.
  - intros c [Hne Hc]%not_elem_of_cons. rewrite Hout2 by done. by apply Ho.
Qed.

(** The rows of the scan. *)
Lemma sel_legacy_elem db id raw : (id, raw) ∈ sel_legacy db <->
  exists row, db_meta db !! id = Some row /\ mr_messages row = Some raw /\ mr_last_sequence row = 0%N /\ raw <> "[]".
Proof.
  unfold sel_legacy. rewrite list_elem_of_omap. split.
  - intros ([id' row] & Hin & Hp). apply elem_of_map_to_list in Hin. cbn in Hp. destruct (mr_messages row) as [raw'|] eqn:Em; [|done]. cbn in Hp.
    case_bool_decide as Hc; [|done]. injection Hp as -> ->. exists row. by destruct Hc.
  - intros (row & Hr & Hm & Hz & Hne). exists (id, row). split; [by apply elem_of_map_to_list|]. cbn. rewrite Hm. cbn. by rewrite bool_decide_true.
Qed.
Lemma sel_legacy_NoDup db : NoDup (sel_legacy db).*1.
Proof.
  unfold sel_legacy. pose proof (NoDup_fst_map_to_list (db_meta db)) as Hnd. induction (map_to_list (db_meta db)) as [|[id row] l IH]; [constructor|].
  cbn in Hnd. apply NoDup_cons in Hnd as [Hni Hnd]. cbn.
  destruct (raw ← mr_messages row; if bool_decide _ then Some (id, raw) else None) as [[id' raw]|] eqn:Ep; [|by apply IH].
  assert (id' = id) as ->. { destruct (mr_messages row); cbn in Ep; [|done]. case_bool_decide; [|done]. by injection Ep. }
  cbn. apply NoDup_cons. split; [|by apply IH]. intros Hin. apply Hni. apply list_elem_of_fmap in Hin as ([c rw] & -> & Hin).
  apply list_elem_of_omap in Hin as ([c' row'] & Hin & Hp). cbn in Hp. destruct (mr_messages row'); cbn in Hp; [|done]. case_bool_decide; [|done].
  injection Hp as -> _. apply list_elem_of_fmap. by exists (c, row').
Qed.

(** The migration of the old snapshot layout loses nothing: decided at one moment of the database, it either changed nothing, or
    afterwards every conversation with a snapshot that was not yet migrated has exactly the messages of that snapshot as its
    log, every other conversation the log it had, and no revision changed; and if the migration reports success it is the latter. *)
Theorem migrate_keeps_history (d : string) (w : sqlw) : world_ok w ->
  let '(r, w') := migrateLegacy d w in
  world_ok w' /\ exists db1, sql_evolves (sq_db w) db1 /\
  (sq_db w' = db1 /\ is_ok r = false \/
   forall id, sql_rev (sq_db w') id = sql_rev db1 id /\
     sql_log (sq_db w') id = match legacy_messages db1 id with Some msgs => map column_norm msgs | None => sql_log db1 id end).
Proof.
  intros [Hok Hb Hes]. set (done_ db1 db' := forall id, sql_rev db' id = sql_rev db1 id /\
    sql_log db' id = match legacy_messages db1 id with Some msgs => map column_norm msgs | None => sql_log db1 id end).
  set (Q := fun (r : res unit) (w' : sqlw) => world_ok w' /\ exists db1, sql_evolves (sq_db w) db1 /\ (sq_db w' = db1 /\ is_ok r = false \/ done_ db1 (sq_db w'))).
  assert (Hq : sp (migrateLegacy d) w Q); [|unfold sp in Hq; by destruct (migrateLegacy d w)].
  apply (sp_transaction _ _ _ w Q (fun db db' _ => db_ok db' /\ done_ db db')); [done|done| | |].
  - intros es db Hes' Hev. apply sp_bind, sp_wrap, sp_exec_free; [done|by apply Hev|by intros; split_and!|]. intros es1 _ db1 Hes1 Hev1 _. cbn [fst snd].
    assert (Hok1 : db_ok db1) by by apply Hev1, Hev. eapply sp_mono; [apply (migrate_rows_ok d (sel_legacy db1) db1 db1 es1 Hes1 Hok1 (sel_legacy_NoDup db1))|].
    + intros id raw (row & ? & _ & ? & _)%sel_legacy_elem. by exists row.
    + intros r w' (He & -> & Hm). split_and!; [done|done|]. intros a Ha. destruct (Hm a Ha) as (Hok2 & Hrev & Hin & Hout). split; [done|]. intros id. split; [done|].
      unfold legacy_messages. destruct (decide (id ∈ (sel_legacy db1).*1)) as [Hi|Hi].
      * apply list_elem_of_fmap in Hi as ([c raw] & -> & Hi). cbn [fst]. destruct (Hin c raw Hi) as (msgs & Hu & ->).
        apply sel_legacy_elem in Hi as (row & -> & Hm' & Hz & Hne). cbn. rewrite Hm'. cbn. rewrite bool_decide_true by done. by rewrite Hu.
      * rewrite Hout by done. destruct (db_meta db1 !! id) as [row|] eqn:Er; [|done]. cbn. destruct (mr_messages row) as [raw|] eqn:Em; [|done]. cbn.
        destruct (decide (mr_last_sequence row = 0%N /\ raw <> "[]")) as [[Hz Hne]|Hn]; [|by rewrite bool_decide_false].
        destruct Hi. apply list_elem_of_fmap. exists (id, raw). split; [done|]. apply sel_legacy_elem. by exists row.
  - intros es e db Hes' Hev. split; [apply world_now; [by apply Hev|done]|]. exists db. split; [done|]. by left.
  - intros es db db' a Hes' Hev [Hok' Hd]. split; [|intros e]; (split; [by apply world_now|]; exists db; split; [done|]; by right).
Qed.
End Migration.

(** * A codec for which the laws hold

    A state is three marked texts: its key, its data behind a letter that tells nil from empty, and its revision in unary. *)
Fixpoint unary (n : nat) : string := match n with O => "" | S n => String "1"%char (unary n) end.
Definition put_state (p : string * memoryContextState) : list string :=
  [p.1; match ms_data p.2 with None => "n" | Some d => "d" +:+ d end; unary (N.to_nat (ms_revision p.2))].
Fixpoint get_states (xs : list string) : list (string * memoryContextState) :=
  match xs with
  | k :: d :: r :: xs =>
      (k, mkContextState (match d with String "d" d => Some d | _ => None end) (N.of_nat (String.length r))) :: get_states xs
  | _ => []
  end.
Lemma unary_length n : String.length (unary n) = n.
Proof. induction n as [|n IH]; [done|]. cbn. by rewrite IH. Qed.
Lemma get_put_states ps : get_states (flat_map put_state ps) = ps.
Proof.
  induction ps as [|[k [d r]] ps IH]; [done|]. cbn. rewrite IH, unary_length, N2Nat.id. by destruct d.
Qed.
Lemma marks_not_braces xs : marks xs <> "{}".
Proof. destruct xs as [|[|c x] xs]; done. Qed.

#[export, refine] Instance marked_states : StateCodec := {|
  enc_states := fun s => marks (flat_map put_state (map_to_list s));
  dec_states := fun t => if bool_decide (t = "{}") then Some ∅ else (fun xs => list_to_map (get_states xs)) <$> unmark "" t;
  states_norm := fun d => d |}.
Proof.
  - done.
  - intros s. rewrite bool_decide_false by apply marks_not_braces. rewrite unmarks. cbn. rewrite get_put_states, list_to_map_to_list. f_equal.
    symmetry. rewrite <- (map_fmap_id s) at 2. apply map_fmap_ext. intros k [d r] _. done.
Defined.

(** Two conversations were written to; the first has a state of revision 1. *)
Lemma sqlite_state_cas_witness :
  let w := mkSqlw torn_db torn_db [quiet; appending "c" [sample_message]] in
  let '(r, w') := sqlite_SaveContextState (fun _ => true) "c" "rolling" (Some "{}") 0 w in
  r = Ok 1%N /\ exists db1, sql_evolves (sq_db w) db1 /\ same_transcripts db1 (sq_db w').
Proof.
  assert (Hw : world_ok (Env := writers) (mkSqlw torn_db torn_db [quiet; appending "c" [sample_message]])).
  { apply (world_now (Env := writers) _ _ torn_db_ok).
    constructor; [apply (env_quiet (Surroundings := writers))|constructor; [apply appending_ok|constructor]]. }
  pose proof (sqlite_state_cas (Env := writers) (fun _ => true) "c" "rolling" (Some "{}") 0 _ Hw) as Hc. cbv zeta.
  assert (Hr : (sqlite_SaveContextState (fun _ => true) "c" "rolling" (Some "{}") 0 (mkSqlw torn_db torn_db [quiet; appending "c" [sample_message]])).1 = Ok 1%N)
    by (vm_compute; reflexivity).
  destruct (sqlite_SaveContextState _ _ _ _ _ _) as [r w']. split; [exact Hr|].
  destruct Hc as (_ & db1 & Hev & Ht & _). exists db1. exact (conj Hev Ht).
Defined.

(** * The lost update of PostgreSQL *)

Definition saving `{StateCodec} (json_Valid : string -> bool) (id key : string) (data : RawMessage) : sqlenv :=
  mkEnv (fun db => sq_db (pg_SaveContextState json_Valid id key data 0 (mkSqlw db db [])).2) 0 NoFault.

(** SaveContextState of the PostgreSQL store loses an acknowledged write: for a conversation without a row there is
    nothing for FOR UPDATE to lock, and the insert then overwrites the whole column.  Of two first saves of different
    namespaces that both read the missing row, both succeed with revision 1, and afterwards the state of the
    first to commit is gone. *)
Theorem pg_context_state_lost `{StateCodec} (json_Valid : string -> bool) (id key1 key2 : string) (data1 data2 : RawMessage) (db : sqldb) :
  db_meta db !! id = None -> key1 <> key2 -> json_Valid (default "" data1) = true -> json_Valid (default "" data2) = true ->
  (pg_SaveContextState json_Valid id key2 data2 0 (mkSqlw db db [])).1 = Ok 1%N /\
  (let '(r, w) := pg_SaveContextState json_Valid id key1 data1 0 (mkSqlw db db [quiet; quiet; saving json_Valid id key2 data2]) in
   r = Ok 1%N /\ (load_context_state "postgres" id key2 w).1 = Ok (mkStateSnapshot None 0) /\
   (load_context_state "postgres" id key1 w).1 = Ok (mkStateSnapshot (cloneRaw (states_norm (cloneRaw data1))) 1)).
Proof.
  intros Hr Hne H1 H2.
  assert (Hn : forall key data, next_states "postgres" key data 0 "{}" = Ok (1%N, enc_states {[key := mkContextState (cloneRaw data) 1]})).
  { intros key data. unfold next_states, states_of. rewrite states_empty. cbn. unfold state_of. rewrite lookup_empty. done. }
  assert (Hs : pg_SaveContextState json_Valid id key2 data2 0 (mkSqlw db db []) =
    (Ok 1%N, let db2 := (upsert_state id (enc_states {[key2 := mkContextState (cloneRaw data2) 1]}) 0 db).2 in mkSqlw db2 db2 [])).
  { unfold pg_SaveContextState, transaction, query, exec, next_env, commit, sbind, swrap, slift, sret. rewrite H2. cbn -[next_states upsert_state].
    rewrite Hr. cbn -[next_states upsert_state]. by rewrite Hn. }
  rewrite Hs. split; [done|].
  set (st1 := {[key1 := mkContextState (cloneRaw data1) 1]} : gmap string memoryContextState).
  set (db1 := (upsert_state id (enc_states {[key2 := mkContextState (cloneRaw data2) 1]}) 0 db).2) in *.
  set (db2 := (upsert_state id (enc_states st1) 0 db1).2).
  assert (Hb : e_before (saving json_Valid id key2 data2) db = db1) by (unfold saving; cbn [e_before]; by rewrite Hs).
  assert (Hs2 : pg_SaveContextState json_Valid id key1 data1 0 (mkSqlw db db [quiet; quiet; saving json_Valid id key2 data2]) = (Ok 1%N, mkSqlw db2 db2 [])).
  { unfold pg_SaveContextState, transaction, query, exec, next_env, commit, sbind, swrap, slift, sret. rewrite H1.
    cbn -[next_states upsert_state saving e_before]. cbn [e_before quiet]. rewrite Hr. cbn -[next_states upsert_state saving e_before]. rewrite Hn.
    cbn -[next_states upsert_state saving e_before]. rewrite Hb. cbn [saving e_fault e_now]. done. }
  rewrite Hs2. split; [done|].
  assert (Hload : forall key, (load_context_state "postgres" id key (mkSqlw db2 db2 [])).1 =
    let v := state_of key (stored_state <$> st1) in Ok (mkStateSnapshot (cloneRaw (ms_data v)) (ms_revision v))).
  { intros key. pose proof (proj2 (proj2 (upsert_state_transcripts id (enc_states st1) 0 db1))) as Hc. rewrite states_law in Hc.
    unfold load_context_state, sbind, swrap, query, exec, next_env. cbn -[upsert_state]. unfold context_of in Hc. fold db2 in Hc.
    destruct (db_meta db2 !! id) as [row|] eqn:Er2; [|by unfold db2 in Er2; cbn in Er2; rewrite lookup_insert_eq in Er2].
    cbn in *. unfold states_of, slift. by rewrite Hc. }
  rewrite !Hload. unfold state_of, st1. rewrite map_fmap_singleton. split.
  - by rewrite lookup_singleton_ne.
  - by rewrite lookup_singleton_eq.
Qed.
(** A summary and a widget state are saved at the same time. *)
Lemma pg_context_state_lost_witness :
  (pg_SaveContextState (fun _ => true) "c" "b" (Some "2") 0 (mkSqlw (mkDb ∅ ∅) (mkDb ∅ ∅) [])).1 = Ok 1%N /\
  (let '(r, w) := pg_SaveContextState (fun _ => true) "c" "a" (Some "1") 0
      (mkSqlw (mkDb ∅ ∅) (mkDb ∅ ∅) [quiet; quiet; saving (fun _ => true) "c" "b" (Some "2")]) in
   r = Ok 1%N /\ (load_context_state "postgres" "c" "b" w).1 = Ok (mkStateSnapshot None 0) /\
   (load_context_state "postgres" "c" "a" w).1 = Ok (mkStateSnapshot (Some "1") 1)).
Proof.
  exact (pg_context_state_lost (fun _ => true) "c" "a" "b" (Some "1") (Some "2") (mkDb ∅ ∅) eq_refl ltac:(discriminate) eq_refl eq_refl).
Defined.

(** * Listing *)

(** List returns the conversations with at least one append. *)
Lemma sel_ids_elem db id : id ∈ sel_ids db <-> exists row, db_meta db !! id = Some row /\ (0 < mr_revision row)%N.
Proof.
  unfold sel_ids. rewrite merge_sort_Permutation, list_elem_of_fmap. setoid_rewrite list_elem_of_In. setoid_rewrite filter_In. split.
  - intros ([id' row] & -> & Hin & Hp). bool_hyps. exists row. split; [|done]. by apply list_elem_of_In, elem_of_map_to_list in Hin.
  - intros (row & Hr & Hp). exists (id, row). split; [done|]. split; [by apply list_elem_of_In, elem_of_map_to_list|by apply bool_decide_true].
Qed.

(** A snapshot of the old layout that was never revised is migrated with its messages, keeps revision 0 and is
    therefore not listed. *)
Definition legacy_db : sqldb := mkDb {["old" := mkMetaRow (MarshalMessages [sample_message]) 0 0 "{}" 0 0]} ∅.
Lemma migrated_not_listed :
  let w := (migrateLegacy "sqlite" (mkSqlw legacy_db legacy_db [])).2 in
  (load_after "sqlite" "old" 0 w).1 = Ok (mkSnapshot [sample_message] 0 1) /\ (sql_List "sqlite" w).1 = Ok [].
Proof. split; vm_compute; reflexivity. Qed.
Lemma legacy_db_ok : db_ok legacy_db.
Proof.
  intros id. assert (Hrow : forall row, db_meta legacy_db !! id = Some row -> mr_revision row = 0%N /\ mr_last_sequence row = 0%N).
  { intros row Hr. unfold legacy_db in Hr. cbn [db_meta] in Hr. apply lookup_singleton_Some in Hr as [_ <-]. done. }
  assert (Hl : sql_last legacy_db id = 0%N) by (unfold sql_last; destruct (db_meta legacy_db !! id); [by apply Hrow|done]).
  assert (Hr : sql_rev legacy_db id = 0%N) by (unfold sql_rev; destruct (db_meta legacy_db !! id); [by apply Hrow|done]).
  rewrite Hl, Hr. split_and!; [done|done| |]; intros k; cbn; rewrite lookup_empty; [split; [by intros []|lia]|by intros []].
Qed.
Lemma migrate_keeps_history_witness :
  let '(r, w') := migrateLegacy "sqlite" (mkSqlw legacy_db legacy_db []) in
  r = Ok tt /\ exists db1, sql_evolves (sq_db (mkSqlw legacy_db legacy_db [])) db1 /\ forall id, sql_rev (sq_db w') id = sql_rev db1 id.
Proof.
  pose proof (migrate_keeps_history (Env := alone) "sqlite" _ (alone_world legacy_db legacy_db_ok)) as Hm.
  assert (Hr : (migrateLegacy "sqlite" (mkSqlw legacy_db legacy_db [])).1 = Ok tt) by (vm_compute; reflexivity).
  destruct (migrateLegacy "sqlite" _) as [r w']. split; [exact Hr|]. destruct Hm as (_ & db1 & Hev & [[_ Hf]|Hd]).
  - cbn in Hr. subst r. discriminate Hf.
  - exists db1. split; [exact Hev|]. intros id. exact (proj1 (Hd id)).
Defined.
