(* ===== verification/ExecutionBackends.v ===== *)
(** The durable execution stores (agent/execution/postgres/store.go, redis/store.go, dynamodb/store.go).

    Each operation is one atomic request to its database: a SQL statement, a Lua script or a conditional put, which
    is a function on the stored rows.  Around a request other processes act and the request or its answer can be
    lost.  The stores are shown to refine the in-process store, up to the numbers their databases can count to. *)
From stdpp Require Import pretty.
From S2P Require Import Prelude Errors Messages Execution Stores ExecutionMemory SqlConversation.

(* agent/execution/internal/record/record.go: Wrap *)
Definition record_Wrap (operation : string) (err : error) : error := EWrap ("execution: " +:+ operation) err.

(** * Requests *)

Section Requests.
Context {R : Type}.

(** One entry per request: what other processes do before it, and whether it fails. *)
Record benv := mkBenv { b_before : gmap string R -> gmap string R; b_fault : fault }.
Record bworld := mkBworld { bw_rows : gmap string R; bw_env : list benv }.

(** The rows at the moment of the next request. *)
Definition moment (w : bworld) : gmap string R := match bw_env w with [] => bw_rows w | e :: _ => b_before e (bw_rows w) end.

Definition request {A} (f : gmap string R -> res A * gmap string R) (w : bworld) : res A * bworld :=
  let rows := moment w in
  match bw_env w with
  | [] => let '(r, rows) := f rows in (r, mkBworld rows [])
  | e :: es =>
      match b_fault e with
      | NoFault => let '(r, rows) := f rows in (r, mkBworld rows es)
      | Failed err => (Err err, mkBworld rows es)
      | LostAck err => (Err err, mkBworld (f rows).2 es)
      end
  end.
End Requests.
Arguments benv : clear implicits.
Arguments bworld : clear implicits.

(** * PostgreSQL *)

Record pgx_row := pgx_mkRow { pgx_version : Z; pgx_payload : string }.

(** INSERT INTO ... VALUES (id, 1, payload) ON CONFLICT DO NOTHING; the rows affected. *)
(* agent/execution/postgres/store.go:97-99: INSERT of Create *)
Definition pgx_insert_row (id payload : string) (rows : gmap string pgx_row) : res Z * gmap string pgx_row :=
  match rows !! id with
  | Some _ => (Ok 0%Z, rows)
  | None => (Ok 1%Z, <[id := pgx_mkRow 1 payload]> rows)
  end.

(** UPDATE ... SET version = version + 1 WHERE execution_id = id AND version = expected RETURNING version *)
(* agent/execution/postgres/store.go:148-150: UPDATE of Save *)
Definition pgx_update_row (id : string) (expected : Z) (payload : string) (rows : gmap string pgx_row) : res (option Z) * gmap string pgx_row :=
  match rows !! id with
  | Some r =>
      if bool_decide (pgx_version r = expected) then
        if bool_decide (pgx_version r + 1 < 2 ^ 63)%Z then (Ok (Some (pgx_version r + 1)%Z), <[id := pgx_mkRow (pgx_version r + 1) payload]> rows)
        else (Err (ENew "bigint out of range"), rows)
      else (Ok None, rows)
  | None => (Ok None, rows)
  end.

Section PostgresStore.
Context `{ExecutionCodec}.

(** The configuration error that New keeps. *)
(* agent/execution/postgres/store.go: New *)
Definition pgx_New (db_nil : bool) (table : string) (has_nul : bool) : option error :=
  if db_nil then Some (ENew "execution/postgres: database is required")
  else if bool_decide (table = "") || has_nul then Some (ENew "execution/postgres: table name is invalid")
  else None.

(* agent/execution/postgres/store.go: Store.check *)
Definition pgx_check (err : option error) (id : string) : res unit :=
  match err with Some e => Err e | None => ValidateID id end.

(* agent/execution/postgres/store.go: Store.Create *)
Definition pgx_Create (err : option error) (execution : Execution) (w : bworld pgx_row) : res Execution * bworld pgx_row :=
  match pgx_check err (x_ID execution) with
  | Err e => (Err e, w)
  | Ok _ =>
      match Marshal execution with
      | Err e => (Err e, w)
      | Ok payload =>
          let '(r, w) := request (pgx_insert_row (x_ID execution) payload) w in
          (match r with
           | Err e => Err (record_Wrap "create" e)
           | Ok n => if bool_decide (n = 0%Z) then Err Conflict else Unmarshal payload (x_ID execution) 1
           end, w)
      end
  end.

(* agent/execution/postgres/store.go: Store.Load *)
Definition pgx_Load (err : option error) (id : string) (w : bworld pgx_row) : res Execution * bworld pgx_row :=
  match pgx_check err id with
  | Err e => (Err e, w)
  | Ok _ =>
      let '(r, w) := request (fun rows => (Ok (rows !! id), rows)) w in
      (match r with
       | Err e => Err (record_Wrap "load" e)
       | Ok None => Err NotFound
       | Ok (Some r) => letr v := Version (pgx_version r) in Unmarshal (pgx_payload r) id v
       end, w)
  end.

(* agent/execution/postgres/store.go: Store.Save *)
Definition pgx_Save (err : option error) (execution : Execution) (expectedVersion : N) (w : bworld pgx_row) : res Execution * bworld pgx_row :=
  match pgx_check err (x_ID execution) with
  | Err e => (Err e, w)
  | Ok _ =>
      match CheckExpected expectedVersion with
      | Err e => (Err e, w)
      | Ok _ =>
          match Marshal execution with
          | Err e => (Err e, w)
          | Ok payload =>
              let '(r, w) := request (pgx_update_row (x_ID execution) (Z.of_N expectedVersion) payload) w in
              (match r with
               | Err e => Err (record_Wrap "save" e)
               | Ok None => Err Conflict
               | Ok (Some n) => letr v := Version n in Unmarshal payload (x_ID execution) v
               end, w)
          end
      end
  end.
End PostgresStore.

(** * Redis *)

(** A hash with the fields version and payload, and its expiry in milliseconds. *)
Record rds_hash := rds_mkHash { rds_version : Z; rds_payload : string; rds_ttl : option Z }.

(** Numbers of a Lua script are binary64: an integer of more than 53 bits is rounded to even. *)
Definition rds_tonumber (n : Z) : Z :=
  if bool_decide (n < 2 ^ 53)%Z then n
  else let e := (Z.log2 n - 52)%Z in
       let q := (n / 2 ^ e)%Z in
       let r := (n mod 2 ^ e)%Z in
       let half := (2 ^ (e - 1))%Z in
       ((if bool_decide (r < half)%Z || (bool_decide (r = half) && Z.even q) then q else q + 1) * 2 ^ e)%Z.

(* agent/execution/redis/store.go:40-49: createScript *)
Definition rds_createScript (key payload : string) (ttl : Z) (hashes : gmap string rds_hash) : res Z * gmap string rds_hash :=
  match hashes !! key with
  | Some _ => (Ok 0%Z, hashes)
  | None => (Ok 1%Z, <[key := rds_mkHash 1 payload (if bool_decide (0 < ttl)%Z then Some ttl else None)]> hashes)
  end.

(* agent/execution/redis/store.go:50-63: saveScript *)
Definition rds_saveScript (key : string) (expected : Z) (payload : string) (ttl : Z) (hashes : gmap string rds_hash) : res Z * gmap string rds_hash :=
  match hashes !! key with
  | None => (Ok 0%Z, hashes)
  | Some current =>
      if bool_decide (rds_tonumber (rds_version current) <> rds_tonumber expected) then (Ok 0%Z, hashes)
      else let nextVersion := rds_tonumber (rds_tonumber (rds_version current) + 1) in
           (Ok nextVersion, <[key := rds_mkHash nextVersion payload (if bool_decide (0 < ttl)%Z then Some ttl else None)]> hashes)
  end.

Section RedisStore.
Context `{ExecutionCodec}.

(* agent/execution/redis/store.go:68-75: Store *)
Record rds_Store := rds_mkStore { rds_client_nil : bool; rds_prefix : string; rds_ttlMillis : Z }.

(* agent/execution/redis/store.go: Store.key *)
Definition rds_key (s : rds_Store) (id : string) : string := rds_prefix s +:+ id.

(* agent/execution/redis/store.go: Store.check *)
Definition rds_check (s : rds_Store) (id : string) : res unit :=
  if rds_client_nil s then Err (ENew "execution/redis: client is required") else ValidateID id.

(* agent/execution/redis/store.go: Store.Create *)
Definition rds_Create (s : rds_Store) (execution : Execution) (w : bworld rds_hash) : res Execution * bworld rds_hash :=
  match rds_check s (x_ID execution) with
  | Err e => (Err e, w)
  | Ok _ =>
      match Marshal execution with
      | Err e => (Err e, w)
      | Ok payload =>
          let '(r, w) := request (rds_createScript (rds_key s (x_ID execution)) payload (rds_ttlMillis s)) w in
          (match r with
           | Err e => Err (record_Wrap "create" e)
           | Ok created => if bool_decide (created <> 1%Z) then Err Conflict else Unmarshal payload (x_ID execution) 1
           end, w)
      end
  end.

(* agent/execution/redis/store.go: Store.Load *)
Definition rds_Load (s : rds_Store) (id : string) (w : bworld rds_hash) : res Execution * bworld rds_hash :=
  match rds_check s id with
  | Err e => (Err e, w)
  | Ok _ =>
      let '(r, w) := request (fun hashes => (Ok (hashes !! rds_key s id), hashes)) w in
      (match r with
       | Err e => Err (record_Wrap "load" e)
       | Ok None => Err NotFound
       | Ok (Some h) => letr v := Version (rds_version h) in Unmarshal (rds_payload h) id v
       end, w)
  end.

(* agent/execution/redis/store.go: Store.Save *)
Definition rds_Save (s : rds_Store) (execution : Execution) (expectedVersion : N) (w : bworld rds_hash) : res Execution * bworld rds_hash :=
  match rds_check s (x_ID execution) with
  | Err e => (Err e, w)
  | Ok _ =>
      match CheckExpected expectedVersion with
      | Err e => (Err e, w)
      | Ok _ =>
          match Marshal execution with
          | Err e => (Err e, w)
          | Ok payload =>
              let '(r, w) := request (rds_saveScript (rds_key s (x_ID execution)) (Z.of_N expectedVersion) payload (rds_ttlMillis s)) w in
              (match r with
               | Err e => Err (record_Wrap "save" e)
               | Ok next => if bool_decide (next = 0%Z) then Err Conflict else letr v := Version next in Unmarshal payload (x_ID execution) v
               end, w)
          end
      end
  end.
End RedisStore.

(** * DynamoDB *)

(** An item: the number [version] and the string [payload]. *)
Record ddb_item := ddb_mkItem { ddb_version : N; ddb_payload : string }.

(** PutItem with a condition on the current item. *)
Definition ddb_PutItem (key : string) (new : ddb_item) (cond : option ddb_item -> bool) (items : gmap string ddb_item) : res bool * gmap string ddb_item :=
  if cond (items !! key) then (Ok true, <[key := new]> items) else (Ok false, items).

(** createCondExpr and saveCondExpr *)
(* agent/execution/dynamodb/store.go:48: createCondExpr *)
Definition ddb_attribute_not_exists (i : option ddb_item) : bool := match i with None => true | Some _ => false end.
(* agent/execution/dynamodb/store.go:49: saveCondExpr *)
Definition ddb_version_is (expected : N) (i : option ddb_item) : bool :=
  match i with None => false | Some i => bool_decide (ddb_version i = expected) end.

Section DynamoStore.
Context `{ExecutionCodec}.

(* agent/execution/dynamodb/store.go:61-65: Store *)
Record ddb_Store := ddb_mkStore { ddb_client_nil : bool; ddb_table : string; ddb_prefix : string }.

(* agent/execution/dynamodb/store.go: Store.partitionKey *)
Definition ddb_partitionKey (s : ddb_Store) (id : string) : string := pretty (N.of_nat (String.length (ddb_prefix s))) +:+ ":" +:+ ddb_prefix s +:+ id.

(* agent/execution/dynamodb/store.go: Store.check *)
Definition ddb_check (s : ddb_Store) (id : string) : res unit :=
  if ddb_client_nil s then Err (ENew "execution/dynamodb: client is required")
  else if bool_decide (ddb_table s = "") then Err (ENew "execution/dynamodb: table name is required")
  else ValidateID id.

(** ParseInt accepts at most the largest int64. *)
(* agent/execution/dynamodb/store.go: decodeItem *)
Definition ddb_decodeItem (i : ddb_item) : res (N * string) :=
  if bool_decide (2 ^ 63 <= ddb_version i)%N then Err (ENew "execution/dynamodb: malformed version")
  else match Version (Z.of_N (ddb_version i)) with Err e => Err e | Ok v => Ok (v, ddb_payload i) end.

(* agent/execution/dynamodb/store.go: Store.Create *)
Definition ddb_Create (s : ddb_Store) (execution : Execution) (w : bworld ddb_item) : res Execution * bworld ddb_item :=
  match ddb_check s (x_ID execution) with
  | Err e => (Err e, w)
  | Ok _ =>
      match Marshal execution with
      | Err e => (Err e, w)
      | Ok payload =>
          let '(r, w) := request (ddb_PutItem (ddb_partitionKey s (x_ID execution)) (ddb_mkItem 1 payload) ddb_attribute_not_exists) w in
          (match r with
           | Err e => Err (record_Wrap "create" e)
           | Ok false => Err Conflict
           | Ok true => Unmarshal payload (x_ID execution) 1
           end, w)
      end
  end.

(* agent/execution/dynamodb/store.go: Store.Load *)
Definition ddb_Load (s : ddb_Store) (id : string) (w : bworld ddb_item) : res Execution * bworld ddb_item :=
  match ddb_check s id with
  | Err e => (Err e, w)
  | Ok _ =>
      let '(r, w) := request (fun items => (Ok (items !! ddb_partitionKey s id), items)) w in
      (match r with
       | Err e => Err (record_Wrap "load" e)
       | Ok None => Err NotFound
       | Ok (Some i) => letr d := ddb_decodeItem i in Unmarshal d.2 id d.1
       end, w)
  end.

(* agent/execution/dynamodb/store.go: Store.Save *)
Definition ddb_Save (s : ddb_Store) (execution : Execution) (expectedVersion : N) (w : bworld ddb_item) : res Execution * bworld ddb_item :=
  match ddb_check s (x_ID execution) with
  | Err e => (Err e, w)
  | Ok _ =>
      match CheckExpected expectedVersion with
      | Err e => (Err e, w)
      | Ok _ =>
          match Marshal execution with
          | Err e => (Err e, w)
          | Ok payload =>
              let next := u64 (expectedVersion + 1) in
              let '(r, w) := request (ddb_PutItem (ddb_partitionKey s (x_ID execution)) (ddb_mkItem next payload) (ddb_version_is expectedVersion)) w in
              (match r with
               | Err e => Err (record_Wrap "save" e)
               | Ok false => Err Conflict
               | Ok true => Unmarshal payload (x_ID execution) next
               end, w)
          end
      end
  end.
End DynamoStore.

(** * Refinement of the in-process store *)

(** What a backend stores under an execution ID. *)
Definition pgx_record (r : pgx_row) : memoryRecord := mkRecord (Z.to_N (pgx_version r)) (pgx_payload r).
Definition rds_record (h : rds_hash) : memoryRecord := mkRecord (Z.to_N (rds_version h)) (rds_payload h).
Definition ddb_record (i : ddb_item) : memoryRecord := mkRecord (ddb_version i) (ddb_payload i).
Definition view {R} (rec : R -> memoryRecord) (key : string -> string) (rows : gmap string R) (id : string) : option memoryRecord :=
  rec <$> rows !! key id.
Definition pgx_view := view pgx_record (fun id => id).
Definition rds_view (s : rds_Store) := view rds_record (rds_key s).
Definition ddb_view (s : ddb_Store) := view ddb_record (ddb_partitionKey s).

(** The versions a backend can hold. *)
Definition pgx_ok (rows : gmap string pgx_row) : Prop := map_Forall (fun _ r => (1 <= pgx_version r < 2 ^ 63)%Z) rows.
Definition rds_ok (hashes : gmap string rds_hash) : Prop := map_Forall (fun _ h => (1 <= rds_version h <= 2 ^ 53)%Z) hashes.
Definition ddb_ok (items : gmap string ddb_item) : Prop := map_Forall (fun _ i => (1 <= ddb_version i < 2 ^ 63)%N) items.

(** A backend operation does, at one moment of its rows, what the in-process operation does on a map that shows the same
    records; or it fails, and has done that or nothing. *)
Definition refines {R A} (view : gmap string R -> string -> option memoryRecord) (op : bworld R -> res A * bworld R)
  (mop : gmap string memoryRecord -> res A * gmap string memoryRecord) (w : bworld R) : Prop :=
  exists rows1, (rows1 = bw_rows w \/ rows1 = moment w) /\ forall m, (forall id, m !! id = view rows1 id) ->
    let '(r, w') := op w in let '(r', m') := mop m in
    r = r' /\ (forall id, m' !! id = view (bw_rows w') id) \/
    is_ok r = false /\ (bw_rows w' = rows1 \/ forall id, m' !! id = view (bw_rows w') id).

Section Refinement.
Context `{ExecutionCodec}.

(** A request of an operation: [k] is what the operation does with the answer. *)
Lemma request_refines {R A B} view (f : gmap string R -> res A * gmap string R) (k : res A -> res B) mop (w : bworld R) :
  (forall e, is_ok (k (Err e)) = false) ->
  (forall m, (forall id, m !! id = view (moment w) id) ->
     let '(r', m') := mop m in
     (r' = k (f (moment w)).1 /\ (forall id, m' !! id = view (f (moment w)).2 id)) \/
     is_ok (k (f (moment w)).1) = false /\ (f (moment w)).2 = moment w) ->
  refines view (fun w => let '(r, w') := request f w in (k r, w')) mop w.
Proof.
  intros Hk Hf. exists (moment w). split; [by right|]. intros m Hm. specialize (Hf m Hm). destruct (mop m) as [r' m'].
  unfold request. destruct (bw_env w) as [|e es]; [|destruct (b_fault e) as [|err|err]].
  1,2: destruct (f (moment w)) as [r rows']; cbn in *; destruct Hf as [[-> Hv]|[Hr Hv]]; [by left|right; split; [done|by left]].
  - right. split; [by apply Hk|by left].
  - right. split; [by apply Hk|]. cbn. destruct Hf as [[_ Hv]|[_ Hv]]; [by right|by left].
Qed.

(** An operation that stops before its request. *)
Lemma stopped_refines {R A} view e (mop : gmap string memoryRecord -> res A * gmap string memoryRecord) (w : bworld R) :
  (forall m, mop m = (Err e, m)) -> refines view (fun w => (Err e, w)) mop w.
Proof. intros Hm. exists (bw_rows w). split; [by left|]. intros m Hv. rewrite Hm. by left. Qed.


Lemma view_insert {R} (rec : R -> memoryRecord) key rows (m : gmap string memoryRecord) id (r : R) : Inj (=) (=) key ->
  (forall id, m !! id = view rec key rows id) -> forall id', <[id := rec r]> m !! id' = view rec key (<[key id := r]> rows) id'.
Proof.
  intros Hk Hm id'. unfold view. destruct (decide (id' = id)) as [->|Hne]; [by rewrite !lookup_insert_eq|].
  rewrite !lookup_insert_ne; [apply Hm|intros Heq; by apply Hne, (inj key)|done].
Qed.

(** The answers of the three operations of every backend. *)
Lemma create_case {R} (rec : R -> memoryRecord) key (rows : gmap string R) x payload (r : R) m : Inj (=) (=) key ->
  x_ID x <> "" -> Marshal x = Ok payload -> rec r = mkRecord 1 payload -> (forall id, m !! id = view rec key rows id) ->
  let '(r', m') := Create x m in
  match rows !! key (x_ID x) with
  | Some _ => r' = Err Conflict /\ forall id, m' !! id = view rec key rows id
  | None => r' = Unmarshal payload (x_ID x) 1 /\ forall id, m' !! id = view rec key (<[key (x_ID x) := r]> rows) id
  end.
Proof.
  intros Hk Hid Hp Hr Hm. unfold Create. rewrite (proj2 (ValidateID_ok (x_ID x)) Hid), Hp. pose proof (Hm (x_ID x)) as Hx. unfold view in Hx.
  destruct (rows !! key (x_ID x)) as [r0|]; cbn in Hx; rewrite Hx; split; try done. rewrite <- Hr. by apply view_insert.
Qed.
Lemma save_case {R} (rec : R -> memoryRecord) key (rows : gmap string R) x expected payload (r : R) m : Inj (=) (=) key ->
  x_ID x <> "" -> Marshal x = Ok payload -> (0 < expected < 9223372036854775807)%N -> rec r = mkRecord (expected + 1) payload ->
  (forall id, m !! id = view rec key rows id) ->
  let '(r', m') := Save x expected m in
  if decide (mr_version <$> (rec <$> rows !! key (x_ID x)) = Some expected)
  then r' = Unmarshal payload (x_ID x) (expected + 1) /\ forall id, m' !! id = view rec key (<[key (x_ID x) := r]> rows) id
  else r' = Err Conflict /\ forall id, m' !! id = view rec key rows id.
Proof.
  intros Hk Hid Hp He Hr Hm. rewrite Save_spec. rewrite decide_False by done. rewrite decide_True by lia. rewrite Hp, (Hm (x_ID x)). unfold view.
  case_decide; [|done]. split; [by rewrite (Unmarshal_Marshal _ _ _ Hp)|]. rewrite <- Hr. by apply view_insert.
Qed.

#[local] Instance id_inj : Inj (=) (=) (fun id : string => id).
Proof. by intros x y. Qed.
#[local] Instance rds_key_inj s : Inj (=) (=) (rds_key s).
Proof. intros x y Heq. by apply string_app_inj_length in Heq as [_ ?]. Qed.
Lemma partitionKey_inj s1 s2 id1 id2 : ddb_partitionKey s1 id1 = ddb_partitionKey s2 id2 -> ddb_prefix s1 = ddb_prefix s2 /\ id1 = id2.
Proof. apply length_delimited_inj. Qed.
#[local] Instance ddb_key_inj s : Inj (=) (=) (ddb_partitionKey s).
Proof. intros x y Heq. by apply partitionKey_inj in Heq as [_ ?]. Qed.

Lemma tonumber_exact n : (0 <= n <= 2 ^ 53)%Z -> rds_tonumber n = n.
Proof.
  intros Hn. unfold rds_tonumber. destruct (decide (n < 2 ^ 53)%Z); [by rewrite bool_decide_true|].
  replace n with (2 ^ 53)%Z by lia. vm_compute. reflexivity.
Qed.

(** ** Every operation *)

(** Stop at a failed check or encoding, else go on with the request. *)
Ltac stops_early := apply stopped_refines; intros m; unfold Create, LoadExecution, Save;
  repeat match goal with H : _ = Err _ |- _ => rewrite H | H : _ = Ok _ |- _ => rewrite H end; done.
Ltac to_request x := destruct (ValidateID x) as [[]|?] eqn:Ev; [|stops_early]; pose proof (proj1 (ValidateID_ok _) Ev) as Hid.

Lemma pgx_Create_refines x w : refines pgx_view (pgx_Create None x) (Create x) w.
Proof.
  unfold pgx_Create, pgx_check. to_request (x_ID x). destruct (Marshal x) as [payload|e] eqn:Ep; [|stops_early].
  apply (request_refines pgx_view (pgx_insert_row (x_ID x) payload)); [done|]. intros m Hm. unfold pgx_insert_row.
  pose proof (create_case pgx_record (fun id => id) (moment w) x payload (pgx_mkRow 1 payload) m _ Hid Ep eq_refl Hm) as Hc.
  destruct (Create x m) as [r' m'], (moment w !! x_ID x); left; exact Hc.
Qed.
Lemma rds_Create_refines s x w : rds_client_nil s = false -> refines (rds_view s) (rds_Create s x) (Create x) w.
Proof.
  intros Hs. unfold rds_Create, rds_check. rewrite Hs. to_request (x_ID x). destruct (Marshal x) as [payload|e] eqn:Ep; [|stops_early].
  apply (request_refines (rds_view s) (rds_createScript _ payload _)); [done|]. intros m Hm. unfold rds_createScript.
  pose proof (create_case rds_record (rds_key s) (moment w) x payload
    (rds_mkHash 1 payload (if bool_decide (0 < rds_ttlMillis s)%Z then Some (rds_ttlMillis s) else None)) m _ Hid Ep eq_refl Hm) as Hc.
  destruct (Create x m) as [r' m'], (moment w !! rds_key s (x_ID x)); left; exact Hc.
Qed.
Lemma ddb_Create_refines s x w : ddb_client_nil s = false -> ddb_table s <> "" -> refines (ddb_view s) (ddb_Create s x) (Create x) w.
Proof.
  intros Hs Ht. unfold ddb_Create, ddb_check. rewrite Hs, bool_decide_false by done. to_request (x_ID x). destruct (Marshal x) as [payload|e] eqn:Ep; [|stops_early].
  apply (request_refines (ddb_view s) (ddb_PutItem _ _ _)); [done|]. intros m Hm. unfold ddb_PutItem, ddb_attribute_not_exists.
  pose proof (create_case ddb_record (ddb_partitionKey s) (moment w) x payload (ddb_mkItem 1 payload) m _ Hid Ep eq_refl Hm) as Hc.
  destruct (Create x m) as [r' m'], (moment w !! ddb_partitionKey s (x_ID x)); left; exact Hc.
Qed.

Lemma Version_pos n : (1 <= n)%Z -> Version n = Ok (Z.to_N n).
Proof. intros Hn. unfold Version. by rewrite bool_decide_false by lia. Qed.

Lemma pgx_Load_refines id w : pgx_ok (moment w) -> refines pgx_view (pgx_Load None id) (LoadExecution id) w.
Proof.
  intros Hok. unfold pgx_Load, pgx_check. to_request id. apply (request_refines pgx_view (fun rows => (Ok (rows !! id), rows))); [done|].
  intros m Hm. unfold LoadExecution. rewrite Ev, (Hm id). unfold pgx_view, view.
  destruct (moment w !! id) as [r|] eqn:Er; left; [|by split]. cbn. rewrite Version_pos by (apply (Hok _ _ Er)). by split.
Qed.
Lemma rds_Load_refines s id w : rds_client_nil s = false -> rds_ok (moment w) -> refines (rds_view s) (rds_Load s id) (LoadExecution id) w.
Proof.
  intros Hs Hok. unfold rds_Load, rds_check. rewrite Hs. to_request id. apply (request_refines (rds_view s) (fun rows => (Ok (rows !! _), rows))); [done|].
  intros m Hm. unfold LoadExecution. rewrite Ev, (Hm id). unfold rds_view, view.
  destruct (moment w !! rds_key s id) as [h|] eqn:Er; left; [|by split]. cbn. rewrite Version_pos by (apply (Hok _ _ Er)). by split.
Qed.
Lemma ddb_Load_refines s id w : ddb_client_nil s = false -> ddb_table s <> "" -> ddb_ok (moment w) ->
  refines (ddb_view s) (ddb_Load s id) (LoadExecution id) w.
Proof.
  intros Hs Ht Hok. unfold ddb_Load, ddb_check. rewrite Hs, bool_decide_false by done. to_request id.
  apply (request_refines (ddb_view s) (fun rows => (Ok (rows !! _), rows))); [done|].
  intros m Hm. unfold LoadExecution. rewrite Ev, (Hm id). unfold ddb_view, view.
  destruct (moment w !! ddb_partitionKey s id) as [i|] eqn:Er; left; [|by split]. pose proof (Hok _ _ Er) as Hv. cbn in Hv. cbn. unfold ddb_decodeItem.
  rewrite bool_decide_false by lia. rewrite Version_pos by lia. cbn. by rewrite N2Z.id.
Qed.

Lemma pgx_Save_refines x expected w : pgx_ok (moment w) -> refines pgx_view (pgx_Save None x expected) (Save x expected) w.
Proof.
  intros Hok. unfold pgx_Save, pgx_check. to_request (x_ID x). destruct (CheckExpected expected) as [[]|e] eqn:Ec; [|stops_early].
  pose proof (proj1 (CheckExpected_ok _) Ec) as He. destruct (Marshal x) as [payload|e] eqn:Ep; [|stops_early].
  apply (request_refines pgx_view (pgx_update_row (x_ID x) (Z.of_N expected) payload)); [done|]. intros m Hm.
  assert (Hc : expected = 9223372036854775807%N \/ (0 < expected < 9223372036854775807)%N) by lia. unfold pgx_update_row.
  destruct (moment w !! x_ID x) as [r|] eqn:Er.
  2:{ pose proof (Hm (x_ID x)) as Hx. unfold pgx_view, view in Hx. rewrite Er in Hx. rewrite Save_spec. rewrite decide_False by done.
      rewrite decide_True, Ep, Hx by lia. cbn. by left. }
  destruct Hc as [->|Hc].
  - destruct (Save _ _ _). right. case_bool_decide as Hv; [|done]. by rewrite bool_decide_false by (rewrite Hv; lia).
  - pose proof (save_case pgx_record (fun id => id) (moment w) x expected payload (pgx_mkRow (Z.of_N expected + 1) payload) m _ Hid Ep Hc) as Hs.
    specialize (Hs ltac:(unfold pgx_record; cbn; f_equal; lia) Hm). destruct (Save x expected m) as [r' m']. rewrite Er in Hs. cbn in Hs.
    left. case_bool_decide as Hv; case_decide as Hd; try done.
    + rewrite Hv, bool_decide_true by lia. cbn. rewrite Version_pos by lia. cbn. replace (Z.to_N (Z.of_N expected + 1)) with (expected + 1)%N by lia. done.
    + destruct Hd. f_equal. lia.
    + injection Hd as Hd. destruct Hv. pose proof (Hok _ _ Er). cbn in *. lia.
Qed.

Lemma rds_Save_refines s x expected w : rds_client_nil s = false -> rds_ok (moment w) -> (expected < 2 ^ 53)%N ->
  refines (rds_view s) (rds_Save s x expected) (Save x expected) w.
Proof.
  intros Hs Hok Hlim. unfold rds_Save, rds_check. rewrite Hs. to_request (x_ID x). destruct (CheckExpected expected) as [[]|e] eqn:Ec; [|stops_early].
  pose proof (proj1 (CheckExpected_ok _) Ec) as He. destruct (Marshal x) as [payload|e] eqn:Ep; [|stops_early].
  apply (request_refines (rds_view s) (rds_saveScript _ _ _ _)); [done|]. intros m Hm. unfold rds_saveScript. set (ttl := if bool_decide _ then _ else _).
  pose proof (save_case rds_record (rds_key s) (moment w) x expected payload (rds_mkHash (Z.of_N expected + 1) payload ttl) m _ Hid Ep ltac:(lia)) as Hc.
  specialize (Hc ltac:(unfold rds_record; cbn; f_equal; lia) Hm). destruct (Save x expected m) as [r' m'].
  destruct (moment w !! rds_key s (x_ID x)) as [h|] eqn:Er; cbn in Hc; [|left; exact Hc]. pose proof (Hok _ _ Er) as Hv. cbn in Hv.
  rewrite !tonumber_exact by lia. left. case_bool_decide as Hx; case_decide as Hd; try done.
  - injection Hd as Hd. destruct Hx. lia.
  - rewrite Hx, tonumber_exact by lia. cbn. rewrite bool_decide_false by lia. rewrite Version_pos by lia. cbn.
    replace (Z.to_N (Z.of_N expected + 1)) with (expected + 1)%N by lia. done.
  - destruct Hd. f_equal. lia.
Qed.

Lemma ddb_Save_refines s x expected w : ddb_client_nil s = false -> ddb_table s <> "" -> (expected < 9223372036854775807)%N ->
  refines (ddb_view s) (ddb_Save s x expected) (Save x expected) w.
Proof.
  intros Hs Ht Hlim. unfold ddb_Save, ddb_check. rewrite Hs, bool_decide_false by done. to_request (x_ID x).
  destruct (CheckExpected expected) as [[]|e] eqn:Ec; [|stops_early].
  pose proof (proj1 (CheckExpected_ok _) Ec) as He. destruct (Marshal x) as [payload|e] eqn:Ep; [|stops_early].
  apply (request_refines (ddb_view s) (ddb_PutItem _ _ _)); [done|]. intros m Hm. unfold ddb_PutItem, ddb_version_is. rewrite u64_small by lia.
  pose proof (save_case ddb_record (ddb_partitionKey s) (moment w) x expected payload (ddb_mkItem (expected + 1) payload) m _ Hid Ep ltac:(lia) eq_refl Hm) as Hc.
  destruct (Save x expected m) as [r' m']. destruct (moment w !! ddb_partitionKey s (x_ID x)) as [i|] eqn:Er; cbn in Hc; [|left; exact Hc].
  left. case_bool_decide as Hx; case_decide as Hd; try done; [by destruct Hd; rewrite Hx|by injection Hd].
Qed.

(** * The contract of the engine

    The PostgreSQL store keeps [ExecutionLaws] whatever other processes and failures do, as long as the steps of the
    others keep it. *)

Definition pgx_memory (rows : gmap string pgx_row) : gmap string memoryRecord := pgx_record <$> rows.
Definition rows_good (rows : gmap string pgx_row) : Prop := pgx_ok rows /\ exec_ok (pgx_memory rows).
Definition rows_later (rows rows' : gmap string pgx_row) : Prop :=
  (rows_good rows -> rows_good rows') /\ exec_evolves (pgx_memory rows) (pgx_memory rows').
Definition pgx_world (w : bworld pgx_row) : Prop :=
  rows_good (bw_rows w) /\ Forall (fun e => forall rows, rows_good rows -> rows_later rows (b_before e rows)) (bw_env w).
Definition pgx_later (w w' : bworld pgx_row) : Prop := (pgx_world w -> pgx_world w') /\ exec_evolves (pgx_memory (bw_rows w)) (pgx_memory (bw_rows w')).

#[global] Instance pgx_later_preorder : PreOrder pgx_later.
Proof.
  split; [intros w; split; [done|reflexivity]|]. intros w1 w2 w3 [H1 H2] [H3 H4]. split; [auto|by etrans].
Qed.

Lemma view_memory (rows : gmap string pgx_row) m : (forall id, m !! id = pgx_view rows id) <-> m = pgx_memory rows.
Proof.
  split; [|intros ->; intros id; apply lookup_fmap]. intros Hm. apply map_eq. intros id. rewrite (Hm id). symmetry. apply lookup_fmap.
Qed.

(** A request keeps the world, if its statement keeps the rows. *)
Lemma request_world {A} (f : gmap string pgx_row -> res A * gmap string pgx_row) w :
  pgx_world w -> (forall rows, pgx_ok rows -> pgx_ok (f rows).2) -> pgx_world w /\ rows_later (bw_rows w) (moment w) /\
  pgx_ok (bw_rows (request f w).2) /\ Forall (fun e => forall rows, rows_good rows -> rows_later rows (b_before e rows)) (bw_env (request f w).2).
Proof.
  intros Hw Hf. pose proof Hw as [Hg He]. split; [done|].
  assert (Hm : rows_later (bw_rows w) (moment w)).
  { unfold moment. destruct (bw_env w) as [|e es]; [split; [done|reflexivity]|]. apply Forall_cons in He as [He _]. by apply He. }
  split; [done|]. assert (Hok : pgx_ok (moment w)) by by apply Hm. specialize (Hf _ Hok). unfold request.
  destruct (bw_env w) as [|e es]; [|apply Forall_cons in He as [_ He]; destruct (b_fault e)]; try (destruct (f (moment w)) as [r rows']); by split.
Qed.

Lemma pgx_insert_ok id payload rows : pgx_ok rows -> pgx_ok (pgx_insert_row id payload rows).2.
Proof. intros Hok. unfold pgx_insert_row. destruct (rows !! id); [done|]. cbn. apply map_Forall_insert_2; [cbn; lia|done]. Qed.
Lemma pgx_update_ok id expected payload rows : pgx_ok rows -> pgx_ok (pgx_update_row id expected payload rows).2.
Proof.
  intros Hok. unfold pgx_update_row. destruct (rows !! id) as [r|] eqn:Er; [|done]. case_bool_decide; [|done]. case_bool_decide; [|done]. cbn.
  apply map_Forall_insert_2; [|done]. pose proof (Hok _ _ Er) as Hv. cbn in *. lia.
Qed.

(** From a refining operation to its law: [commit] is what the in-process operation guarantees. *)
Lemma refined_law {A} (op : bworld pgx_row -> res A * bworld pgx_row) mop (P : gmap string memoryRecord -> gmap string memoryRecord -> A -> Prop) w :
  pgx_world w -> (pgx_ok (moment w) -> refines pgx_view op mop w) -> rows_later (bw_rows w) (moment w) ->
  pgx_ok (bw_rows (op w).2) /\ Forall (fun e => forall rows, rows_good rows -> rows_later rows (b_before e rows)) (bw_env (op w).2) ->
  (forall m, exec_ok m -> let '(r, m') := mop m in exec_evolves m m' /\ forall a, r = Ok a -> P m m' a) ->
  let '(r, w') := op w in pgx_later w w' /\
  forall a, r = Ok a -> exists w1, pgx_later w w1 /\ pgx_later w1 w' /\ P (pgx_memory (bw_rows w1)) (pgx_memory (bw_rows w')) a.
Proof.
  intros Hw Hr Hm Hok Hc. pose proof Hw as [Hg _]. destruct (Hr ltac:(by apply Hm)) as (rows1 & H1 & Hsim).
  assert (Hl : rows_later (bw_rows w) rows1) by (destruct H1 as [->| ->]; [split; [done|reflexivity]|done]).
  specialize (Hsim (pgx_memory rows1) (proj2 (view_memory rows1 _) eq_refl)). specialize (Hc (pgx_memory rows1) (proj2 (proj1 Hl Hg))).
  destruct (op w) as [r w'], (mop (pgx_memory rows1)) as [r' m']. cbn in Hok. destruct Hc as [Hev HP], Hl as [Hlg Hle].
  assert (Hfin : exec_evolves (pgx_memory (bw_rows w)) (pgx_memory (bw_rows w'))).
  { destruct Hsim as [[_ Hv]|[_ [Hv|Hv]]].
    - apply view_memory in Hv. subst m'. exact (transitivity Hle Hev).
    - rewrite Hv. exact Hle.
    - apply view_memory in Hv. subst m'. exact (transitivity Hle Hev). }
  assert (Hw' : pgx_world w') by (destruct Hok as [Hok He]; split; [split; [done|by apply Hfin, Hg]|done]).
  split; [by split|]. intros a ->. destruct Hsim as [[Ha Hv%view_memory]|[Hf _]]; [|done]. subst m'.
  exists (mkBworld rows1 (bw_env w)). split_and!; [| |by apply HP].
  - split; [|done]. intros _. split; [by apply Hlg|by destruct Hw].
  - by split.
Qed.

Definition pgx_store : ExecutionStore (bworld pgx_row) := mkExecutionStore (pgx_Create None) (pgx_Load None) (pgx_Save None).

(** The request of an operation, or none. *)
Lemma op_world {A B} (f : gmap string pgx_row -> res A * gmap string pgx_row) (k : res A -> res B) w :
  pgx_world w -> (forall rows, pgx_ok rows -> pgx_ok (f rows).2) ->
  let op := fun w => let '(r, w') := request f w in (k r, w') in
  pgx_ok (bw_rows (op w).2) /\ Forall (fun e => forall rows, rows_good rows -> rows_later rows (b_before e rows)) (bw_env (op w).2).
Proof. intros Hw Hf. destruct (request_world f w Hw Hf) as (_ & _ & H1). cbn. by destruct (request f w). Qed.
Lemma moment_later w : pgx_world w -> rows_later (bw_rows w) (moment w).
Proof. intros Hw. by apply (request_world (fun rows => (Ok tt, rows)) w Hw). Qed.

(** Every operation keeps the world. *)
Lemma pgx_Create_world x w : pgx_world w ->
  pgx_ok (bw_rows (pgx_Create None x w).2) /\ Forall (fun e => forall rows, rows_good rows -> rows_later rows (b_before e rows)) (bw_env (pgx_Create None x w).2).
Proof.
  intros Hw. unfold pgx_Create, pgx_check. destruct (ValidateID _); [|by destruct Hw as [[? _] ?]]. destruct (Marshal x) as [payload|]; [|by destruct Hw as [[? _] ?]].
  apply (op_world (pgx_insert_row (x_ID x) payload)); [done|]. intros. by apply pgx_insert_ok.
Qed.
Lemma pgx_Load_world id w : pgx_world w ->
  pgx_ok (bw_rows (pgx_Load None id w).2) /\ Forall (fun e => forall rows, rows_good rows -> rows_later rows (b_before e rows)) (bw_env (pgx_Load None id w).2).
Proof.
  intros Hw. unfold pgx_Load, pgx_check. destruct (ValidateID _); [|by destruct Hw as [[? _] ?]]. by apply (op_world (fun rows => (Ok (rows !! id), rows))).
Qed.
Lemma pgx_Save_world x expected w : pgx_world w ->
  pgx_ok (bw_rows (pgx_Save None x expected w).2) /\ Forall (fun e => forall rows, rows_good rows -> rows_later rows (b_before e rows)) (bw_env (pgx_Save None x expected w).2).
Proof.
  intros Hw. unfold pgx_Save, pgx_check. destruct (ValidateID _); [|by destruct Hw as [[? _] ?]]. destruct (CheckExpected _); [|by destruct Hw as [[? _] ?]].
  destruct (Marshal x) as [payload|]; [|by destruct Hw as [[? _] ?]].
  apply (op_world (pgx_update_row (x_ID x) (Z.of_N expected) payload)); [done|]. intros. by apply pgx_update_ok.
Qed.

#[global, refine] Instance pgx_store_laws : ExecutionLaws pgx_store pgx_world pgx_later := {|
  el_at := fun w => mem_at (pgx_memory (bw_rows w)); el_norm := compact |}.
Proof.
  - intros w w' id x [[_ Hok] _] [_ Hev]. by apply mem_at_grows.
  - intros x w Hw. cbn [es_Create pgx_store].
    pose proof (refined_law _ _ _ w Hw (fun _ => pgx_Create_refines x w) (moment_later w Hw) (pgx_Create_world x w Hw) (Create_commit x)) as Hl.
    destruct (pgx_Create None x w) as [r w']. destruct Hl as [Hlt Hx]. split; [done|].
    intros x' Hr. destruct (Hx x' Hr) as (w1 & H1 & H2 & ? & ? & ?). exists w1, w'. by split_and!.
  - intros id w Hw. cbn [es_Load pgx_store].
    pose proof (refined_law _ _ (fun m _ x => mem_at m id = Some x /\ x_ID x = id) w Hw (pgx_Load_refines id w) (moment_later w Hw) (pgx_Load_world id w Hw)) as Hl.
    assert (Hc : forall m, exec_ok m -> let '(r, m') := LoadExecution id m in exec_evolves m m' /\ forall a, r = Ok a -> mem_at m id = Some a /\ x_ID a = id).
    { intros m _. pose proof (Load_commit id m) as Hc. destruct (LoadExecution id m). destruct Hc as [-> Hc]. by split. }
    specialize (Hl Hc). destruct (pgx_Load None id w) as [r w']. destruct Hl as [Hlt Hx]. split; [done|].
    intros x' Hr. destruct (Hx x' Hr) as (w1 & H1 & H2 & ? & ?). exists w1. by split_and!.
  - intros x expected w Hw. cbn [es_Save pgx_store].
    pose proof (refined_law _ _ _ w Hw (pgx_Save_refines x expected w) (moment_later w Hw) (pgx_Save_world x expected w Hw) (Save_commit x expected)) as Hl.
    destruct (pgx_Save None x expected w) as [r w']. destruct Hl as [Hlt Hx]. split; [done|].
    intros x' Hr. destruct (Hx x' Hr) as (w1 & H1 & H2 & x0 & ? & ? & ? & ?). exists w1, w', x0. by split_and!.
Defined.

(** ** At the limits *)

(** Redis counts versions in binary64: from 2^53 on the version stays the same, and two callers that loaded it both succeed. *)
Lemma saturated_save key payload ttl h hashes : hashes !! key = Some h -> rds_version h = (2 ^ 53)%Z -> exists h',
  rds_saveScript key (Z.of_N (2 ^ 53)) payload ttl hashes = (Ok (2 ^ 53)%Z, <[key := h']> hashes) /\ rds_version h' = (2 ^ 53)%Z.
Proof.
  intros Hh Hv. unfold rds_saveScript. rewrite Hh, Hv. assert (Ht : rds_tonumber (2 ^ 53) = (2 ^ 53)%Z) by (vm_compute; reflexivity).
  assert (Ht1 : rds_tonumber (2 ^ 53 + 1) = (2 ^ 53)%Z) by (vm_compute; reflexivity). change (Z.of_N (2 ^ 53)) with (2 ^ 53)%Z.
  rewrite Ht, bool_decide_false by tauto. rewrite Ht1. by eexists.
Qed.
Lemma rds_version_saturates s x1 x2 h hashes : rds_client_nil s = false -> x_ID x1 <> "" -> x_ID x1 = x_ID x2 ->
  is_ok (Marshal x1) = true -> is_ok (Marshal x2) = true -> hashes !! rds_key s (x_ID x1) = Some h -> rds_version h = (2 ^ 53)%Z ->
  let '(r1, w1) := rds_Save s x1 (2 ^ 53) (mkBworld hashes []) in
  let '(r2, w2) := rds_Save s x2 (2 ^ 53) w1 in
  is_ok r1 = true /\ is_ok r2 = true /\ rds_version <$> bw_rows w2 !! rds_key s (x_ID x1) = Some (2 ^ 53)%Z.
Proof.
  assert (Hsave : forall x h hashes, rds_client_nil s = false -> x_ID x <> "" -> is_ok (Marshal x) = true ->
    hashes !! rds_key s (x_ID x) = Some h -> rds_version h = (2 ^ 53)%Z -> exists x' h',
    rds_Save s x (2 ^ 53) (mkBworld hashes []) = (Ok x', mkBworld (<[rds_key s (x_ID x) := h']> hashes) []) /\ rds_version h' = (2 ^ 53)%Z).
  { intros x h0 hs Hs Hid Hm Hh Hv. destruct (Marshal x) as [p|] eqn:Ep; [|done].
    destruct (saturated_save (rds_key s (x_ID x)) p (rds_ttlMillis s) h0 hs Hh Hv) as (h' & Hsc & Hv').
    unfold rds_Save, rds_check, request, moment. rewrite Hs, (proj2 (ValidateID_ok _) Hid), Ep.
    assert (Hc : CheckExpected (2 ^ 53) = Ok tt) by reflexivity. rewrite Hc. cbn [bw_env bw_rows]. rewrite Hsc.
    eexists _, h'. split; [|done]. rewrite bool_decide_false, Version_pos by lia. cbn [res_bind]. by rewrite (Unmarshal_Marshal _ _ _ Ep). }
  intros Hs Hid Heq H1 H2 Hh Hv. destruct (Hsave x1 h hashes Hs Hid H1 Hh Hv) as (y1 & h1 & -> & Hv1).
  destruct (Hsave x2 h1 (<[rds_key s (x_ID x1) := h1]> hashes) Hs) as (y2 & h2 & -> & Hv2);
    [by rewrite <- Heq|done|rewrite <- Heq; apply lookup_insert_eq|done|].
  split_and!; [done|done|]. cbn. rewrite Heq, lookup_insert_eq. cbn. by rewrite Hv2.
Qed.

(** DynamoDB stores the version after the largest int64, which no later Load can read. *)
Lemma ddb_version_unreadable s x i items : ddb_client_nil s = false -> ddb_table s <> "" -> x_ID x <> "" -> is_ok (Marshal x) = true ->
  items !! ddb_partitionKey s (x_ID x) = Some i -> ddb_version i = 9223372036854775807%N ->
  let '(r, w) := ddb_Save s x 9223372036854775807 (mkBworld items []) in
  is_ok r = true /\ is_ok (ddb_Load s (x_ID x) w).1 = false.
Proof.
  intros Hs Ht Hid Hm Hi Hv. unfold ddb_Save, ddb_Load, ddb_check. rewrite Hs, bool_decide_false by done. rewrite (proj2 (ValidateID_ok _) Hid).
  assert (Hc : CheckExpected 9223372036854775807 = Ok tt) by reflexivity. rewrite Hc. destruct (Marshal x) as [p|] eqn:Ep; [|done].
  unfold request, moment, ddb_PutItem, ddb_version_is. cbn [bw_env bw_rows]. rewrite Hi, bool_decide_true by done. cbn.
  rewrite (Unmarshal_Marshal _ _ _ Ep), lookup_insert_eq. done.
Qed.
End Refinement.

(** C9. The durable execution stores do what the in-process store does: with other processes acting before the request, the request
    failing or only its answer being lost, each Create, Load and Save of the PostgreSQL, Redis and DynamoDB stores either has, at one moment of the
    stored rows, exactly the result and the effect of the in-process operation on the same records, or returns an error having had
    that effect or none.  The Redis store needs versions below 2^53, the DynamoDB store below the largest int64; the
    PostgreSQL store fails there by itself. *)
Theorem execution_backends_refine `{ExecutionCodec} (x : Execution) (id : string) (expected : N) :
  (forall w, pgx_ok (moment w) ->
     refines pgx_view (pgx_Create None x) (Create x) w /\ refines pgx_view (pgx_Load None id) (LoadExecution id) w /\
     refines pgx_view (pgx_Save None x expected) (Save x expected) w) /\
  (forall s w, rds_client_nil s = false -> rds_ok (moment w) -> (expected < 2 ^ 53)%N ->
     refines (rds_view s) (rds_Create s x) (Create x) w /\ refines (rds_view s) (rds_Load s id) (LoadExecution id) w /\
     refines (rds_view s) (rds_Save s x expected) (Save x expected) w) /\
  (forall s w, ddb_client_nil s = false -> ddb_table s <> "" -> ddb_ok (moment w) -> (expected < 2 ^ 63 - 1)%N ->
     refines (ddb_view s) (ddb_Create s x) (Create x) w /\ refines (ddb_view s) (ddb_Load s id) (LoadExecution id) w /\
     refines (ddb_view s) (ddb_Save s x expected) (Save x expected) w).
Proof.
  split_and!; intros.
  - split_and!; [apply pgx_Create_refines|by apply pgx_Load_refines|by apply pgx_Save_refines].
  - split_and!; [by apply rds_Create_refines|by apply rds_Load_refines|by apply rds_Save_refines].
  - split_and!; [by apply ddb_Create_refines|by apply ddb_Load_refines|by apply ddb_Save_refines].
Qed.

(** A save at version 1 whose answer is lost: it happened. *)
Lemma execution_backends_refine_witness :
  let w := mkBworld {["e" := pgx_mkRow 1 "e"]} [mkBenv (fun rows => rows) (LostAck (ENew "connection reset"))] in
  refines pgx_view (pgx_Save (H := sample_codec) None (execution_zero "e") 1) (Save (H := sample_codec) (execution_zero "e") 1) w /\
  bw_rows (pgx_Save (H := sample_codec) None (execution_zero "e") 1 w).2 = {["e" := pgx_mkRow 2 "e"]}.
Proof.
  cbv zeta. split; [|vm_compute; reflexivity].
  apply (execution_backends_refine (H := sample_codec) (execution_zero "e") "e" 1). apply map_Forall_singleton. cbn. lia.
Defined.
