(* ===== verification/Base64.v ===== *)
(** base64.StdEncoding of the Go standard library, as the providers use it for images
    and documents (EncodeToString and DecodeString), and its round trip. *)
From Stdlib Require Import Ascii.
From S2P Require Import Prelude.
Local Open Scope N_scope.

Definition b64_alphabet : list ascii :=
  String.list_ascii_of_string "ABCDEFGHIJKLMNOPQRSTUVWXYZabcdefghijklmnopqrstuvwxyz0123456789+/".
Definition b64_pad : ascii := ascii_of_nat 61.

(** The character of a 6-bit value, and back (no value for a character outside the
    alphabet). *)
Definition b64_char (v : N) : ascii := default b64_pad (b64_alphabet !! N.to_nat v).
Fixpoint b64_find (c : ascii) (xs : list ascii) (i : N) : option N :=
  match xs with [] => None | x :: xs => if Ascii.eqb x c then Some i else b64_find c xs (i + 1) end.
Definition b64_val (c : ascii) : option N := b64_find c b64_alphabet 0.

Definition byte (c : ascii) : N := N_of_ascii c.

(** Three bytes at a time, as four characters; one or two at the end are padded. *)
Fixpoint b64_encode (s : list ascii) : list ascii :=
  match s with
  | [] => []
  | [a] => [b64_char (byte a / 4); b64_char (byte a mod 4 * 16); b64_pad; b64_pad]
  | [a; b] => [b64_char (byte a / 4); b64_char (byte a mod 4 * 16 + byte b / 16);
               b64_char (byte b mod 16 * 4); b64_pad]
  | a :: b :: c :: s =>
      [b64_char (byte a / 4); b64_char (byte a mod 4 * 16 + byte b / 16);
       b64_char (byte b mod 16 * 4 + byte c / 64); b64_char (byte c mod 64)] ++ b64_encode s
  end.

(** Four characters at a time; padding ends the input.  The bits that padding leaves
    over are not checked. *)
Fixpoint b64_decode (s : list ascii) : option (list ascii) :=
  match s with
  | [] => Some []
  | c1 :: c2 :: c3 :: c4 :: rest =>
      match b64_val c1, b64_val c2 with
      | Some v1, Some v2 =>
          let a := ascii_of_N (v1 * 4 + v2 / 16) in
          match b64_val c3, b64_val c4 with
          | Some v3, Some v4 =>
              match b64_decode rest with
              | Some out => Some (a :: ascii_of_N (v2 mod 16 * 16 + v3 / 4) :: ascii_of_N (v3 mod 4 * 64 + v4) :: out)
              | None => None
              end
          | Some v3, None =>
              if Ascii.eqb c4 b64_pad && is_nil rest then Some [a; ascii_of_N (v2 mod 16 * 16 + v3 / 4)] else None
          | None, _ =>
              if Ascii.eqb c3 b64_pad && Ascii.eqb c4 b64_pad && is_nil rest then Some [a] else None
          end
      | _, _ => None
      end
  | _ => None
  end.

Definition is_newline (c : ascii) : bool := (byte c =? 10) || (byte c =? 13).

Definition EncodeToString (s : string) : string :=
  String.string_of_list_ascii (b64_encode (String.list_ascii_of_string s)).
(** Line breaks are skipped wherever they stand. *)
Definition DecodeString (s : string) : option string :=
  match b64_decode (List.filter (fun c => negb (is_newline c)) (String.list_ascii_of_string s)) with
  | Some out => Some (String.string_of_list_ascii out)
  | None => None
  end.

Example b64_examples :
  map EncodeToString [""; "f"; "fo"; "foo"; "foob"; "foobar"] = [""; "Zg=="; "Zm8="; "Zm9v"; "Zm9vYg=="; "Zm9vYmFy"]%string /\
  map DecodeString ["Zm9vYg=="; "Zm8"; "Zg==Zg=="; "===="; "Zm!v"; "Zh=="]%string =
    [Some "foob"; None; None; None; None; Some "f"]%string /\
  DecodeString ("Zm" +:+ newline +:+ "9v") = Some "foo"%string.
Proof. vm_compute. done. Qed.

(** * The round trip *)

Lemma byte_lt c : byte c < 256.
Proof. apply N_ascii_bounded. Qed.

Lemma values_all (P : N -> bool) : forallb P (map N.of_nat (seq 0 64)) = true -> forall v, v < 64 -> P v = true.
Proof.
  rewrite forallb_forall. intros H v Hv. apply H, in_map_iff. exists (N.to_nat v). split; [lia|]. apply in_seq. lia.
Qed.

(** The characters of values are in the alphabet, at their values, and no line breaks. *)
Lemma b64_char_spec v : v < 64 -> b64_val (b64_char v) = Some v /\ is_newline (b64_char v) = false.
Proof.
  intros Hv.
  assert (bool_decide (b64_val (b64_char v) = Some v) && negb (is_newline (b64_char v)) = true) as Hall.
  { revert v Hv. apply values_all. vm_compute. reflexivity. }
  by bool_hyps.
Qed.

Lemma b64_val_pad : b64_val b64_pad = None.
Proof. vm_compute. reflexivity. Qed.

Lemma byte_back n c : n = byte c -> ascii_of_N n = c.
Proof. intros ->. apply ascii_N_embedding. Qed.

(** Induction three bytes at a time. *)
Lemma three_ind (P : list ascii -> Prop) :
  P [] -> (forall a, P [a]) -> (forall a b, P [a; b]) -> (forall a b c s, P s -> P (a :: b :: c :: s)) ->
  forall s, P s.
Proof.
  intros H0 H1 H2 H3. fix IH 1. intros [|a [|b [|c s]]]; [exact H0 | apply H1 | apply H2 | apply H3, IH].
Qed.

(** Arithmetic of quotients and remainders on the bytes at hand. *)
Ltac b64_lia := zify; Z.to_euclidean_division_equations; lia.

Lemma b64_roundtrip s : b64_decode (b64_encode s) = Some s.
Proof.
  induction s as [|a|a b|a b c s IH] using three_ind; [done| | |]; cbn [b64_encode b64_decode app];
    rewrite ?b64_val_pad.
  - pose proof (byte_lt a). assert (byte a / 4 < 64 /\ byte a mod 4 * 16 < 64) as [V1 V2]
      by (split; b64_lia).
    rewrite (proj1 (b64_char_spec _ V1)), (proj1 (b64_char_spec _ V2)). rewrite ?Ascii.eqb_refl. cbn [andb is_nil]. do 2 f_equal.
    apply byte_back. b64_lia.
  - pose proof (byte_lt a). pose proof (byte_lt b).
    assert (byte a / 4 < 64 /\ byte a mod 4 * 16 + byte b / 16 < 64 /\ byte b mod 16 * 4 < 64) as (V1 & V2 & V3)
      by (split_and!; b64_lia).
    rewrite (proj1 (b64_char_spec _ V1)), (proj1 (b64_char_spec _ V2)), (proj1 (b64_char_spec _ V3)).
    rewrite ?Ascii.eqb_refl. cbn [andb is_nil]. do 2 f_equal; [|f_equal]; apply byte_back; b64_lia.
  - pose proof (byte_lt a). pose proof (byte_lt b). pose proof (byte_lt c).
    assert (byte a / 4 < 64 /\ byte a mod 4 * 16 + byte b / 16 < 64 /\ byte b mod 16 * 4 + byte c / 64 < 64 /\
            byte c mod 64 < 64) as (V1 & V2 & V3 & V4) by (split_and!; b64_lia).
    rewrite (proj1 (b64_char_spec _ V1)), (proj1 (b64_char_spec _ V2)), (proj1 (b64_char_spec _ V3)),
      (proj1 (b64_char_spec _ V4)), IH.
    do 2 f_equal; [|f_equal; [|f_equal]]; apply byte_back; b64_lia.
Qed.

Lemma b64_no_newline s : List.filter (fun c => negb (is_newline c)) (b64_encode s) = b64_encode s.
Proof.
  apply filter_all. assert (forall v, v < 64 -> negb (is_newline (b64_char v)) = true) as Hc
    by (intros v Hv; by rewrite (proj2 (b64_char_spec v Hv))).
  induction s as [|a|a b|a b c s IH] using three_ind; cbn [b64_encode app];
    repeat first [apply Forall_nil | apply Forall_cons; split | exact IH | done | apply Hc];
    try (pose proof (byte_lt a)); try (pose proof (byte_lt b)); try (pose proof (byte_lt c));
    b64_lia.
Qed.

Theorem DecodeString_EncodeToString s : DecodeString (EncodeToString s) = Some s.
Proof.
  unfold DecodeString, EncodeToString.
  rewrite String.list_ascii_of_string_of_list_ascii, b64_no_newline, b64_roundtrip.
  by rewrite String.string_of_list_ascii_of_string.
Qed.


(** base64.RawURLEncoding of the Go standard library: the URL alphabet without padding,
    and its round trip.  The Redis stores use it to put caller-chosen names into keys. *)

(** '-' and '_' stand for '+' and '/'. *)
Definition url_char (c : ascii) : ascii := (if Ascii.eqb c "+" then "-" else if Ascii.eqb c "/" then "_" else c)%char.
Definition std_char (c : ascii) : option ascii :=
  (if Ascii.eqb c "-" then Some "+" else if Ascii.eqb c "_" then Some "/"
   else if Ascii.eqb c "+" || Ascii.eqb c "/" || Ascii.eqb c b64_pad then None else Some c)%char.

Definition raw_chars (s : list ascii) : list ascii := List.filter (fun c => negb (Ascii.eqb c b64_pad)) s.

(** The padding that the encoding leaves out. *)
Fixpoint repad (s : list ascii) : option (list ascii) :=
  match s with
  | [] => Some []
  | c1 :: c2 :: c3 :: c4 :: rest => out ← repad rest; Some (c1 :: c2 :: c3 :: c4 :: out)
  | [c1; c2; c3] => Some [c1; c2; c3; b64_pad]
  | [c1; c2] => Some [c1; c2; b64_pad; b64_pad]
  | [_] => None
  end.

Definition RawURL_Encode (s : string) : string :=
  String.string_of_list_ascii (map url_char (raw_chars (b64_encode (String.list_ascii_of_string s)))).

Definition RawURL_Decode (s : string) : option string :=
  cs ← mapM std_char (List.filter (fun c => negb (is_newline c)) (String.list_ascii_of_string s));
  std ← repad cs;
  out ← b64_decode std;
  Some (String.string_of_list_ascii out).

Example rawurl_examples :
  map RawURL_Encode [""; "a"; "ab"; "abc"; "user:1/é"; "???"]%string = [""; "YQ"; "YWI"; "YWJj"; "dXNlcjoxL8Op"; "Pz8_"]%string /\
  map RawURL_Decode ["YQ"; "YWI"; "Pz8_"; "Pz8/"; "YQ=="; "Y"]%string = [Some "a"; Some "ab"; Some "???"; None; None; None]%string.
Proof. vm_compute. done. Qed.

(** A character of the encoding, as it comes back. *)
Lemma url_back v : v < 64 -> std_char (url_char (b64_char v)) = Some (b64_char v) /\ is_newline (url_char (b64_char v)) = false /\
  Ascii.eqb (b64_char v) b64_pad = false.
Proof.
  intros Hv.
  assert (bool_decide (std_char (url_char (b64_char v)) = Some (b64_char v)) && negb (is_newline (url_char (b64_char v))) &&
          negb (Ascii.eqb (b64_char v) b64_pad) = true) as Hall.
  { revert v Hv. apply values_all. vm_compute. reflexivity. }
  by bool_hyps.
Qed.

Definition plain_char (c : ascii) : Prop := std_char (url_char c) = Some c /\ is_newline (url_char c) = false /\ Ascii.eqb c b64_pad = false.

(** Without the padding, and with it again. *)
Lemma repad_raw s : repad (raw_chars (b64_encode s)) = Some (b64_encode s) /\ Forall plain_char (raw_chars (b64_encode s)).
Proof.
  assert (Hpad : Ascii.eqb b64_pad b64_pad = true) by apply Ascii.eqb_refl.
  induction s as [|a|a b|a b c s [IH1 IH2]] using three_ind; [done| | |]; unfold raw_chars in *; cbn [b64_encode app List.filter];
    rewrite ?Hpad; cbn [negb];
    try (pose proof (byte_lt a)); try (pose proof (byte_lt b)); try (pose proof (byte_lt c));
    repeat match goal with |- context [Ascii.eqb (b64_char ?v) b64_pad] =>
      let E := fresh "E" in assert (plain_char (b64_char v)) as E by (apply url_back; b64_lia);
      rewrite (proj2 (proj2 E)); cbn [negb] end;
    cbn [repad]; rewrite ?IH1; (split; [done|]); repeat (constructor; [done|]); done || constructor.
Qed.

Theorem RawURL_roundtrip s : RawURL_Decode (RawURL_Encode s) = Some s.
Proof.
  unfold RawURL_Decode, RawURL_Encode. rewrite String.list_ascii_of_string_of_list_ascii.
  destruct (repad_raw (String.list_ascii_of_string s)) as [Hpad Hplain]. set (cs := raw_chars _) in *.
  assert (Hm : mapM std_char (List.filter (fun c => negb (is_newline c)) (map url_char cs)) = Some cs).
  { clear Hpad. induction Hplain as [|c cs (H1 & H2 & _) _ IH]; [done|]. cbn [map List.filter]. rewrite H2. cbn [negb mapM].
    unfold mapM in *. simpl. rewrite H1. simpl. by rewrite IH. }
  rewrite Hm. simpl. rewrite Hpad. simpl. rewrite b64_roundtrip. simpl. by rewrite String.string_of_list_ascii_of_string.
Qed.

#[global] Instance RawURL_inj : Inj (=) (=) RawURL_Encode.
Proof. intros a b Hab. apply (f_equal RawURL_Decode) in Hab. rewrite !RawURL_roundtrip in Hab. congruence. Qed.
