(* ===== verification/NetAddr.v ===== *)
(** IP addresses as the URL guards use them: the parser and the classification
    predicates of Go's net/netip, and what the predicates mean as address blocks.

    An address is the 32-bit or 128-bit number netip keeps, with the zone of an IPv6
    address.  [ParseAddr] follows the scanner of the standard library byte by byte;
    net.ParseIP is the same parser without zones. *)
From Stdlib Require Import Ascii.
From S2P Require Import Prelude.
Local Open Scope Z_scope.

(** A valid netip.Addr. *)
Inductive Addr : Type :=
| V4 (ip : Z)
| V6 (ip : Z) (zone : string).

#[global] Instance Addr_eq_dec : EqDecision Addr.
Proof. solve_decision. Defined.

Definition addr_ok (a : Addr) : Prop :=
  match a with V4 ip => 0 <= ip < 2 ^ 32 | V6 ip _ => 0 <= ip < 2 ^ 128 end.

(** * The predicates of netip *)

(** Byte [i] of an IPv4 address, and of an IPv6 address, from the left. *)
Definition v4byte (ip : Z) (i : Z) : Z := Z.land (Z.shiftr ip ((3 - i) * 8)) 255.
Definition v6byte (ip : Z) (i : Z) : Z := Z.land (Z.shiftr ip ((15 - i) * 8)) 255.
(** The first 16-bit group of an IPv6 address. *)
Definition v6u16 (ip : Z) : Z := Z.land (Z.shiftr ip 112) 65535.

Definition Unmap (a : Addr) : Addr :=
  match a with
  | V6 ip _ => if Z.shiftr ip 32 =? 65535 then V4 (Z.land ip 4294967295) else a
  | V4 _ => a
  end.

Definition IsLoopback (a : Addr) : bool :=
  match a with V4 ip => v4byte ip 0 =? 127 | V6 ip _ => ip =? 1 end.
Definition IsLinkLocalUnicast (a : Addr) : bool :=
  match a with
  | V4 ip => (v4byte ip 0 =? 169) && (v4byte ip 1 =? 254)
  | V6 ip _ => Z.land (v6u16 ip) 65472 =? 65152
  end.
Definition IsLinkLocalMulticast (a : Addr) : bool :=
  match a with
  | V4 ip => (v4byte ip 0 =? 224) && (v4byte ip 1 =? 0) && (v4byte ip 2 =? 0)
  | V6 ip _ => Z.land (v6u16 ip) 65295 =? 65282
  end.
Definition IsPrivate (a : Addr) : bool :=
  match a with
  | V4 ip => (v4byte ip 0 =? 10) || ((v4byte ip 0 =? 172) && (Z.land (v4byte ip 1) 240 =? 16)) ||
             ((v4byte ip 0 =? 192) && (v4byte ip 1 =? 168))
  | V6 ip _ => Z.land (v6byte ip 0) 254 =? 252
  end.
Definition IsMulticast (a : Addr) : bool :=
  match a with V4 ip => Z.land (v4byte ip 0) 240 =? 224 | V6 ip _ => v6byte ip 0 =? 255 end.
(** A comparison with the two unspecified addresses: a zone makes the address differ. *)
Definition IsUnspecified (a : Addr) : bool := bool_decide (a = V4 0) || bool_decide (a = V6 0 "").

(** Bytes, most significant first, as netip.AddrFromSlice takes them. *)
Definition code (c : ascii) : Z := Z.of_N (N_of_ascii c).
Definition be_combine (bs : list Z) : Z := fold_left (fun acc b => acc * 256 + b) bs 0.
Definition AddrFromSlice (ip : string) : option Addr :=
  let bs := map code (String.list_ascii_of_string ip) in
  if Nat.eqb (length bs) 4 then Some (V4 (be_combine bs))
  else if Nat.eqb (length bs) 16 then Some (V6 (be_combine bs) "")
  else None.

(** * The parser *)

Definition is_digit (c : ascii) : bool := (48 <=? code c) && (code c <=? 57).

(** The fields of a dotted address: [digits] of the current one are read, with value
    [val], and [fields] are complete. *)
Fixpoint parseIPv4Fields (s : list ascii) (val : Z) (digits : nat) (fields : list Z) : option (list Z) :=
  match s with
  | [] => if bool_decide (length fields = 3)%nat && negb (Nat.eqb digits 0) then Some (fields ++ [val]) else None
  | c :: s =>
      if is_digit c then
        if Nat.eqb digits 1 && (val =? 0) then None
        else
          let val := val * 10 + (code c - 48) in
          if 255 <? val then None else parseIPv4Fields s val (S digits) fields
      else if Ascii.eqb c "." then
        if Nat.eqb digits 0 || is_nil s || bool_decide (length fields = 3)%nat then None
        else parseIPv4Fields s 0 0 (fields ++ [val])
      else None
  end.

Definition hex_val (c : ascii) : option Z :=
  if is_digit c then Some (code c - 48)
  else if (97 <=? code c) && (code c <=? 102) then Some (code c - 87)
  else if (65 <=? code c) && (code c <=? 70) then Some (code c - 55)
  else None.

(** The hexadecimal digits at the front: their value, their number and the rest;
    [None] when a group has more than four. *)
Fixpoint scan_hex (s : list ascii) (acc : Z) (off : nat) : option (Z * nat * list ascii) :=
  match s with
  | [] => Some (acc, off, [])
  | c :: s' =>
      match hex_val c with
      | None => Some (acc, off, s)
      | Some d => if (3 <? off)%nat then None else scan_hex s' (acc * 16 + d) (S off)
      end
  end.

(** One round of the group loop per unit of fuel; a round that goes on stores two
    bytes, so the eight rounds of [i < 16] are all there are.  [groups] are the bytes
    stored and [ellipsis] the number stored before the "::". *)
Fixpoint parse_groups (fuel : nat) (s : list ascii) (bytes : list Z) (ellipsis : option nat)
    : option (list ascii * list Z * option nat) :=
  match fuel with
  | O => Some (s, bytes, ellipsis)
  | S fuel =>
      match scan_hex s 0 0 with
      | None => None
      | Some (_, O, _) => None
      | Some (acc, _, rest) =>
          match rest with
          | c :: _ =>
              if Ascii.eqb c "." then
                if bool_decide (ellipsis = None) && negb (Nat.eqb (length bytes) 12) then None
                else if (16 <? length bytes + 4)%nat then None
                else match parseIPv4Fields s 0 0 [] with
                     | Some four => Some ([], bytes ++ four, ellipsis)
                     | None => None
                     end
              else
                let bytes := bytes ++ [acc / 256; acc mod 256] in
                if negb (Ascii.eqb c ":") then None
                else match rest with
                     | _ :: [] => None
                     | _ :: c2 :: s2 =>
                         if Ascii.eqb c2 ":" then
                           if bool_decide (ellipsis <> None) then None
                           else if is_nil s2 then Some ([], bytes, Some (length bytes))
                           else parse_groups fuel s2 bytes (Some (length bytes))
                         else parse_groups fuel (c2 :: s2) bytes ellipsis
                     | [] => None
                     end
          | [] => Some ([], bytes ++ [acc / 256; acc mod 256], ellipsis)
          end
      end
  end.

(** Filling the ellipsis with zeros. *)
Definition expand_groups (bytes : list Z) (ellipsis : option nat) : option (list Z) :=
  if (length bytes <? 16)%nat then
    match ellipsis with
    | None => None
    | Some e => Some (take e bytes ++ replicate (16 - length bytes)%nat 0 ++ drop e bytes)
    end
  else if bool_decide (ellipsis <> None) then None else Some bytes.

Fixpoint cut_at (sep : ascii) (s : list ascii) : list ascii * option (list ascii) :=
  match s with
  | [] => ([], None)
  | c :: s => if Ascii.eqb c sep then ([], Some s)
              else let '(pre, post) := cut_at sep s in (c :: pre, post)
  end.

Definition parseIPv6 (s : list ascii) : option Addr :=
  let '(s, z) := cut_at "%" s in
  let zone := match z with Some z => String.string_of_list_ascii z | None => ""%string end in
  if bool_decide (z = Some []) then None
  else
    let '(s, ellipsis) := match s with
                          | a :: b :: rest => if Ascii.eqb a ":" && Ascii.eqb b ":" then (rest, Some 0%nat) else (s, None)
                          | _ => (s, None)
                          end in
    if is_nil s && bool_decide (ellipsis <> None) then Some (V6 0 zone)
    else match parse_groups 8 s [] ellipsis with
         | Some (rest, bytes, ellipsis) =>
             if is_nil rest then
               match expand_groups bytes ellipsis with
               | Some bytes => Some (V6 (be_combine bytes) zone)
               | None => None
               end
             else None
         | None => None
         end.

Definition parseIPv4 (s : list ascii) : option Addr :=
  match parseIPv4Fields s 0 0 [] with Some four => Some (V4 (be_combine four)) | None => None end.

(** The first ".", ":" or "%" decides. *)
Fixpoint classify (s : list ascii) : option ascii :=
  match s with
  | [] => None
  | c :: s => if Ascii.eqb c "." || Ascii.eqb c ":" || Ascii.eqb c "%" then Some c else classify s
  end.

Definition ParseAddr (s : string) : option Addr :=
  let s := String.list_ascii_of_string s in
  match classify s with
  | Some c => if Ascii.eqb c "." then parseIPv4 s else if Ascii.eqb c ":" then parseIPv6 s else None
  | None => None
  end.

(** net.ParseIP: no zones; the 16-byte form of an IPv4 address is the IPv4 address. *)
Definition ParseIP (s : string) : option Addr :=
  match ParseAddr s with
  | Some (V6 ip zone) => if bool_decide (zone = ""%string) then Some (Unmap (V6 ip zone)) else None
  | r => r
  end.

Example parse_examples :
  map ParseAddr ["127.0.0.1"; "169.254.169.254"; "fd00:ec2::254"; "::1"; "::"; "::ffff:10.0.0.1"; "fe80::1%eth0";
                 "1:2:3:4:5:6:7:8"; "1:2:3:4:5:6:7::"]%string =
  map Some [V4 2130706433; V4 2852039166; V6 336294982257581694735330614659971547732 ""; V6 1 ""; V6 0 "";
            V6 281470849515521 ""; V6 338288524927261089654018896841347694593 "eth0";
            V6 5192455318486707404433266433261576 ""; V6 5192455318486707404433266433261568 ""]%string.
Proof. vm_compute. reflexivity. Qed.

Example parse_rejects :
  map ParseAddr ["127.0.0.01"; "256.0.0.1"; "1.2.3"; "1.2.3.4.5"; "1..2.3"; ".1.2.3"; "1.2.3."; "localhost"; "";
                 ":::"; "1::2::3"; "12345::"; "::1%"; "1:2:3:4:5:6:7:8:9"; "::1.2.3"; "1:2:3:4:5:6:7:8::"; "[::1]"]%string =
  replicate 17 None.
Proof. vm_compute. reflexivity. Qed.

(** * Blocks

    What the masks compute, as prefixes: an address is in a block when it agrees with
    its base on the first [len] bits. *)
Record Block := mkBlock { b_v4 : bool; b_base : Z; b_len : Z }.

Definition in_range (size base len ip : Z) : Prop := base <= ip < base + 2 ^ (size - len).
Definition in_block (a : Addr) (b : Block) : Prop :=
  match a with
  | V4 ip => b_v4 b = true /\ in_range 32 (b_base b) (b_len b) ip
  | V6 ip _ => b_v4 b = false /\ in_range 128 (b_base b) (b_len b) ip
  end.

Definition ip4 (a b c d len : Z) : Block := mkBlock true (be_combine [a; b; c; d]) len.
(** A block given by its first 16-bit group. *)
Definition ip6 (group len : Z) : Block := mkBlock false (group * 2 ^ 112) len.

Definition loopback_blocks : list Block := [ip4 127 0 0 0 8; mkBlock false 1 128].
Definition linklocal_blocks : list Block := [ip4 169 254 0 0 16; ip6 65152 10].
Definition private_blocks : list Block := [ip4 10 0 0 0 8; ip4 172 16 0 0 12; ip4 192 168 0 0 16; ip6 64512 7].
Definition multicast_blocks : list Block := [ip4 224 0 0 0 4; ip6 65280 8].
Definition unspecified_blocks : list Block := [ip4 0 0 0 0 32; mkBlock false 0 128].

Definition in_blocks (a : Addr) (bs : list Block) : Prop := Exists (in_block a) bs.

(** ** Masks on bytes and groups *)

Lemma range_all (n : nat) (P : Z -> bool) :
  forallb P (map Z.of_nat (seq 0 n)) = true -> forall b, 0 <= b < Z.of_nat n -> P b = true.
Proof.
  rewrite forallb_forall. intros H b Hb. apply H, in_map_iff. exists (Z.to_nat b).
  split; [lia|]. apply in_seq. lia.
Qed.

Lemma byte_mask_240 b : 0 <= b < 256 -> Z.land b 240 = b / 16 * 16.
Proof.
  intros Hb. apply Z.eqb_eq. revert b Hb.
  apply (range_all 256 (fun b => Z.land b 240 =? b / 16 * 16)). vm_compute. reflexivity.
Qed.

Lemma byte_mask_254 b : 0 <= b < 256 -> Z.land b 254 = b / 2 * 2.
Proof.
  intros Hb. apply Z.eqb_eq. revert b Hb.
  apply (range_all 256 (fun b => Z.land b 254 =? b / 2 * 2)). vm_compute. reflexivity.
Qed.

Lemma land_255 x : Z.land x 255 = x mod 256.
Proof. change 255 with (Z.ones 8). rewrite Z.land_ones; [done | lia]. Qed.

Lemma land_65535 x : Z.land x 65535 = x mod 65536.
Proof. change 65535 with (Z.ones 16). rewrite Z.land_ones; [done | lia]. Qed.

Lemma group_mask_ffc0 g : 0 <= g < 65536 -> Z.land g 65472 = g / 64 * 64.
Proof.
  intros Hg. replace 65472 with (Z.shiftl 1023 6) by reflexivity.
  replace (g / 64 * 64) with (Z.shiftl (Z.shiftr g 6) 6)
    by (rewrite Z.shiftl_mul_pow2, Z.shiftr_div_pow2 by lia; reflexivity).
  apply Z.bits_inj'. intros i Hi. rewrite Z.land_spec, !Z.shiftl_spec by lia.
  destruct (decide (i < 6)%Z); [rewrite !(Z.testbit_neg_r _ (i - 6)) by lia; by rewrite andb_false_r|].
  rewrite Z.shiftr_spec by lia. replace (i - 6 + 6) with i by lia.
  change 1023 with (Z.ones 10).
  destruct (decide (i - 6 < 10)%Z); [rewrite Z.ones_spec_low by lia; by rewrite andb_true_r|].
  rewrite Z.ones_spec_high, andb_false_r by lia. symmetry.
  destruct (decide (g = 0)) as [->|]; [apply Z.bits_0|].
  apply Z.bits_above_log2; [lia|]. apply Z.log2_lt_pow2; [lia|].
  apply Z.lt_le_trans with (2 ^ 16); [lia|]. apply Z.pow_le_mono_r; lia.
Qed.

Lemma v4byte_0 ip : 0 <= ip < 2 ^ 32 -> v4byte ip 0 = ip / 2 ^ 24.
Proof.
  intros Hip. unfold v4byte. rewrite land_255, Z.shiftr_div_pow2 by lia. apply Z.mod_small.
  split; [apply Z.div_pos; lia | apply Z.div_lt_upper_bound; lia].
Qed.

Lemma v4byte_1 ip : v4byte ip 1 = ip / 2 ^ 16 mod 256.
Proof. unfold v4byte. by rewrite land_255, Z.shiftr_div_pow2 by lia. Qed.

Lemma v6byte_0 ip : 0 <= ip < 2 ^ 128 -> v6byte ip 0 = ip / 2 ^ 120 /\ 0 <= ip / 2 ^ 120 < 256.
Proof.
  intros Hip. unfold v6byte. change ((15 - 0) * 8) with 120.
  rewrite land_255, Z.shiftr_div_pow2 by lia.
  assert (0 <= ip / 2 ^ 120 < 256)
    by (split; [apply Z.div_pos; lia | apply Z.div_lt_upper_bound; lia]).
  rewrite Z.mod_small; done.
Qed.

Lemma v6u16_div ip : 0 <= ip < 2 ^ 128 -> v6u16 ip = ip / 2 ^ 112 /\ 0 <= v6u16 ip < 65536.
Proof.
  intros Hip. unfold v6u16. rewrite land_65535, Z.shiftr_div_pow2 by lia.
  assert (0 <= ip / 2 ^ 112 < 65536)
    by (split; [apply Z.div_pos; lia | apply Z.div_lt_upper_bound; lia]).
  rewrite Z.mod_small; lia.
Qed.

(** Comparing the leading bits is being in the block they name. *)
Lemma div_block ip (p q : Z) : 0 < p -> ip / p = q <-> q * p <= ip < q * p + p.
Proof.
  intros Hp. split; [intros <-|].
  - pose proof (Z.div_mod ip p). pose proof (Z.mod_pos_bound ip p). lia.
  - intros H. symmetry. apply (Z.div_unique ip p q (ip - q * p)); lia.
Qed.

(** The first two bytes together, and the first byte with the high half of the second. *)
Lemma v4_two ip a b :
  0 <= ip < 2 ^ 32 -> 0 <= b < 256 -> v4byte ip 0 = a /\ v4byte ip 1 = b <-> ip / 2 ^ 16 = a * 256 + b.
Proof.
  intros Hip Hb. rewrite v4byte_0, v4byte_1 by done.
  replace (ip / 2 ^ 24) with (ip / 2 ^ 16 / 256) by (rewrite Z.div_div by lia; done).
  generalize (ip / 2 ^ 16). intros x. Z.to_euclidean_division_equations. lia.
Qed.

Lemma v4_half ip a h :
  0 <= ip < 2 ^ 32 -> 0 <= h < 16 ->
  v4byte ip 0 = a /\ Z.land (v4byte ip 1) 240 = h * 16 <-> ip / 2 ^ 20 = a * 16 + h.
Proof.
  intros Hip Hh. rewrite v4byte_0, v4byte_1 by done.
  rewrite byte_mask_240 by (apply Z.mod_pos_bound; lia).
  replace (ip / 2 ^ 24) with (ip / 2 ^ 16 / 256) by (rewrite Z.div_div by lia; done).
  replace (ip / 2 ^ 20) with (ip / 2 ^ 16 / 16) by (rewrite Z.div_div by lia; done).
  generalize (ip / 2 ^ 16). intros x. Z.to_euclidean_division_equations. lia.
Qed.

(** ** The predicates are memberships *)

Ltac addr_cases a :=
  destruct a as [ip|ip zone];
  unfold addr_ok, IsLoopback, IsLinkLocalUnicast, IsLinkLocalMulticast, IsPrivate, IsMulticast; intros Hip.
Ltac blocks :=
  unfold in_blocks, in_block, in_range, ip4, ip6; rewrite ?Exists_cons, ?Exists_nil;
  cbn [b_v4 b_base b_len be_combine fold_left].

Lemma IsLoopback_spec a : addr_ok a -> IsLoopback a = true <-> in_blocks a loopback_blocks.
Proof.
  addr_cases a; rewrite Z.eqb_eq; unfold loopback_blocks; blocks; [|lia].
  rewrite v4byte_0, div_block by lia. lia.
Qed.

Lemma IsLinkLocalUnicast_spec a : addr_ok a -> IsLinkLocalUnicast a = true <-> in_blocks a linklocal_blocks.
Proof.
  addr_cases a; unfold linklocal_blocks; blocks.
  - rewrite andb_true_iff, !Z.eqb_eq, v4_two, div_block by lia. lia.
  - pose proof (v6u16_div ip Hip) as [Hg Hr]. rewrite Z.eqb_eq, group_mask_ffc0, Hg by lia.
    assert (ip / 2 ^ 112 / 64 * 64 = 65152 <-> ip / 2 ^ 118 = 1018) as ->
      by (rewrite Z.div_div by lia; change (2 ^ 112 * 64) with (2 ^ 118); lia).
    rewrite div_block by lia. lia.
Qed.

Lemma IsPrivate_spec a : addr_ok a -> IsPrivate a = true <-> in_blocks a private_blocks.
Proof.
  addr_cases a; unfold private_blocks; blocks.
  - rewrite !orb_true_iff, !andb_true_iff, !Z.eqb_eq, v4_two by lia.
    change 16 with (1 * 16). rewrite v4_half, v4byte_0, !div_block by lia. lia.
  - pose proof (v6byte_0 ip Hip) as [Hg Hr]. rewrite Z.eqb_eq, Hg, byte_mask_254 by lia.
    assert (ip / 2 ^ 120 / 2 * 2 = 252 <-> ip / 2 ^ 121 = 126) as ->
      by (rewrite Z.div_div by lia; change (2 ^ 120 * 2) with (2 ^ 121); lia).
    rewrite div_block by lia. lia.
Qed.

Lemma IsMulticast_spec a : addr_ok a -> IsMulticast a = true <-> in_blocks a multicast_blocks.
Proof.
  addr_cases a; rewrite Z.eqb_eq; unfold multicast_blocks; blocks.
  - assert (0 <= ip / 2 ^ 24 < 256) by (split; [apply Z.div_pos; lia | apply Z.div_lt_upper_bound; lia]).
    rewrite v4byte_0, byte_mask_240 by lia.
    assert (ip / 2 ^ 24 / 16 * 16 = 224 <-> ip / 2 ^ 28 = 14) as ->
      by (rewrite Z.div_div by lia; change (2 ^ 24 * 16) with (2 ^ 28); lia).
    rewrite div_block by lia. lia.
  - pose proof (v6byte_0 ip Hip) as [Hg Hr]. rewrite Hg, div_block by lia. lia.
Qed.

Lemma IsUnspecified_spec a :
  IsUnspecified a = true <-> in_blocks a unspecified_blocks /\ (forall ip zone, a = V6 ip zone -> zone = ""%string).
Proof.
  unfold IsUnspecified, unspecified_blocks. rewrite orb_true_iff, !bool_decide_eq_true.
  destruct a as [ip|ip zone]; blocks.
  - split; [intros [[= ->]|?]; [split; [lia|done] | done]|]. intros [H _]. left. f_equal. lia.
  - split.
    + intros [?|[= -> ->]]; [done|]. split; [lia|]. by intros ? ? [= _ <-].
    + intros [H Hz]. right. rewrite (Hz ip zone) by done. f_equal. lia.
Qed.

(** Link-local multicast is multicast. *)
Lemma IsLinkLocalMulticast_multicast a : addr_ok a -> IsLinkLocalMulticast a = true -> IsMulticast a = true.
Proof.
  addr_cases a.
  - rewrite !andb_true_iff, !Z.eqb_eq. intros [[-> _] _]. reflexivity.
  - pose proof (v6u16_div ip Hip) as [Hg Hr]. pose proof (v6byte_0 ip Hip) as [Hb Hr'].
    assert (ip / 2 ^ 120 = v6u16 ip / 256) as Hdiv by (rewrite Hg, Z.div_div by lia; done).
    rewrite !Z.eqb_eq, Hb, Hdiv. intros Hm.
    assert (Z.shiftr (Z.land (v6u16 ip) 65295) 8 = 255) as Hs by (rewrite Hm; reflexivity).
    rewrite Z.shiftr_land in Hs. change (Z.shiftr 65295 8) with 255 in Hs.
    rewrite land_255, Z.shiftr_div_pow2 in Hs by lia. rewrite Z.mod_small in Hs; [exact Hs|].
    split; [apply Z.div_pos; lia | apply Z.div_lt_upper_bound; lia].
Qed.

(** ** The parser yields addresses in range *)

Lemma code_range c : 0 <= code c < 256.
Proof. unfold code. pose proof (N_ascii_bounded c). lia. Qed.

Definition is_byte (b : Z) : Prop := 0 <= b < 256.

Lemma be_combine_fold bs acc n :
  Forall is_byte bs -> 0 <= acc < 256 ^ n -> 0 <= n ->
  0 <= fold_left (fun acc b => acc * 256 + b) bs acc < 256 ^ (n + Z.of_nat (length bs)).
Proof.
  intros Hbs. revert acc n. induction Hbs as [|b bs Hb _ IH]; intros acc n Hacc Hn; simpl.
  - by rewrite Z.add_0_r.
  - unfold is_byte in Hb. specialize (IH (acc * 256 + b) (n + 1)).
    replace (n + Z.of_nat (S (length bs))) with (n + 1 + Z.of_nat (length bs)) by lia.
    apply IH; [|lia]. rewrite Z.pow_add_r by lia. lia.
Qed.

Lemma be_combine_range bs : Forall is_byte bs -> 0 <= be_combine bs < 256 ^ Z.of_nat (length bs).
Proof. intros Hbs. apply (be_combine_fold bs 0 0 Hbs); lia. Qed.

Lemma AddrFromSlice_ok ip a : AddrFromSlice ip = Some a -> addr_ok a.
Proof.
  unfold AddrFromSlice. set (bs := map code _).
  assert (Forall is_byte bs) as Hbs by (apply Forall_map, Forall_forall; intros c _; apply code_range).
  pose proof (be_combine_range bs Hbs) as Hr.
  destruct (Nat.eqb_spec (length bs) 4) as [Hl|_]; [|destruct (Nat.eqb_spec (length bs) 16) as [Hl|_]];
    intros [= <-]; rewrite Hl in Hr; exact Hr.
Qed.

Lemma parseIPv4Fields_ok s : forall val digits fields four,
  is_byte val -> Forall is_byte fields -> parseIPv4Fields s val digits fields = Some four ->
  Forall is_byte four /\ length four = 4%nat.
Proof.
  induction s as [|c s IH]; intros val digits fields four Hv Hf; simpl.
  - destruct (bool_decide _ && _) eqn:Hc; [|done]. intros [= <-]. bool_hyps. split; [|rewrite length_app; simpl; lia].
    apply Forall_app. auto.
  - pose proof (code_range c). unfold is_byte in *.
    destruct (is_digit c) eqn:Hd.
    + destruct (_ && _); [done|]. destruct (255 <? _) eqn:Hbig; [done|]. apply IH; [|done].
      unfold is_digit in Hd. bool_hyps. lia.
    + destruct (Ascii.eqb c "."); [|done]. destruct (_ || _); [done|].
      apply IH; [lia|]. apply Forall_app. split; [done|]. constructor; [exact Hv | constructor].
Qed.

Lemma hex_val_range c d : hex_val c = Some d -> 0 <= d < 16.
Proof.
  unfold hex_val, is_digit. intros H.
  repeat match type of H with (if ?b then _ else _) = _ => destruct b eqn:?; [injection H as <- | ] end;
    [bool_hyps; lia .. | done].
Qed.

Lemma scan_hex_range s : forall acc off v n rest,
  0 <= acc < 16 ^ Z.of_nat off -> (off <= 4)%nat -> scan_hex s acc off = Some (v, n, rest) -> 0 <= v < 65536.
Proof.
  assert (forall acc off, 0 <= acc < 16 ^ Z.of_nat off -> (off <= 4)%nat -> 0 <= acc < 65536) as Hend.
  { intros acc off Ha Ho. change 65536 with (16 ^ 4).
    pose proof (Z.pow_le_mono_r 16 (Z.of_nat off) 4). lia. }
  induction s as [|c s IH]; intros acc off v n rest Ha Ho; simpl.
  - intros [= <- <- <-]. eauto.
  - destruct (hex_val c) as [d|] eqn:Hd; [|intros [= <- <- <-]; eauto].
    apply hex_val_range in Hd. destruct (Nat.ltb_spec 3 off); [done|]. apply IH; [|lia].
    rewrite Nat2Z.inj_succ, Z.pow_succ_r by lia. lia.
Qed.

(** What the group loop keeps: bytes, at most sixteen, and an ellipsis inside them. *)
Definition groups_ok (bytes : list Z) (ellipsis : option nat) : Prop :=
  Forall is_byte bytes /\ (length bytes <= 16)%nat /\ (forall e, ellipsis = Some e -> (e <= length bytes)%nat).

Lemma groups_ok_more bytes e acc :
  groups_ok bytes e -> (length bytes + 2 <= 16)%nat -> 0 <= acc < 65536 ->
  groups_ok (bytes ++ [acc / 256; acc mod 256]) e /\
  groups_ok (bytes ++ [acc / 256; acc mod 256]) (Some (length (bytes ++ [acc / 256; acc mod 256]))).
Proof.
  intros (Hb & Hl & He) Hroom Ha.
  assert (Forall is_byte (bytes ++ [acc / 256; acc mod 256])).
  { apply Forall_app. split; [done|]. repeat constructor; unfold is_byte;
      Z.to_euclidean_division_equations; lia. }
  unfold groups_ok. rewrite !length_app. simpl.
  split; (split; [done|]); split; [lia | intros e' He'; specialize (He e' He'); lia | lia | intros e' [= <-]; lia].
Qed.

Lemma parse_groups_ok fuel : forall s bytes e rest bytes' e',
  groups_ok bytes e -> (length bytes + 2 * fuel <= 16)%nat ->
  parse_groups fuel s bytes e = Some (rest, bytes', e') -> groups_ok bytes' e'.
Proof.
  induction fuel as [|fuel IH]; intros s bytes e rest bytes' e' Hg Hf; simpl; [by intros [= <- <- <-]|].
  destruct (scan_hex s 0 0) as [[[acc n] tail]|] eqn:Hscan; [|done].
  apply scan_hex_range in Hscan; [|simpl; lia ..].
  destruct (groups_ok_more bytes e acc Hg) as [Hsame Hnew]; [lia | done|].
  assert (length (bytes ++ [(acc / 256)%Z; (acc mod 256)%Z]) + 2 * fuel <= 16)%nat as Hroom
    by (rewrite length_app; simpl; lia).
  destruct n as [|n]; [done|]. destruct tail as [|c tail]; [by intros [= <- <- <-]|].
  destruct (Ascii.eqb c ".") eqn:Hdot.
  - destruct (_ && _); [done|]. destruct (Nat.ltb_spec 16 (length bytes + 4)); [done|].
    destruct (parseIPv4Fields s 0 0 []) as [four|] eqn:Hfour; [|done]. intros [= <- <- <-].
    apply parseIPv4Fields_ok in Hfour as [Hbytes Hlen]; [|unfold is_byte; lia | constructor].
    destruct Hg as (Hb & Hl & He). split; [by apply Forall_app|]. rewrite length_app, Hlen.
    split; [lia|]. intros e0 He0. specialize (He e0 He0). lia.
  - destruct (negb _); [done|]. destruct tail as [|c2 s2]; [done|].
    destruct (Ascii.eqb c2 ":").
    + destruct (bool_decide _); [done|]. destruct (is_nil s2); [by intros [= <- <- <-]|].
      by apply IH.
    + by apply IH.
Qed.

Lemma expand_groups_ok bytes e bytes' :
  groups_ok bytes e -> expand_groups bytes e = Some bytes' -> Forall is_byte bytes' /\ length bytes' = 16%nat.
Proof.
  intros (Hb & Hl & He). unfold expand_groups. destruct (Nat.ltb_spec (length bytes) 16).
  - destruct e as [e|]; [|done]. specialize (He e eq_refl). intros [= <-]. split.
    + repeat apply Forall_app_2; [by apply Forall_take | | by apply Forall_drop].
      apply Forall_replicate. unfold is_byte. lia.
    + rewrite !length_app, length_take, length_replicate, length_drop. lia.
  - destruct (bool_decide _); [done|]. intros [= <-]. split; [done | lia].
Qed.

Theorem ParseAddr_ok s a : ParseAddr s = Some a -> addr_ok a.
Proof.
  unfold ParseAddr, parseIPv4, parseIPv6. destruct (classify _) as [c|]; [|done].
  destruct (Ascii.eqb c "."); [|destruct (Ascii.eqb c ":"); [|done]].
  - destruct (parseIPv4Fields _ _ _ _) as [four|] eqn:Hp; [|done]. intros [= <-].
    apply parseIPv4Fields_ok in Hp as [Hb Hl]; [|unfold is_byte; lia | constructor].
    pose proof (be_combine_range four Hb) as Hr. rewrite Hl in Hr. exact Hr.
  - destruct (cut_at _ _) as [s' z]. destruct (bool_decide _); [done|].
    destruct (match s' with [] => _ | _ => _ end) as [s'' e] eqn:Hs.
    destruct (is_nil s'' && _) eqn:Hempty; [intros [= <-]; simpl; lia|].
    destruct (parse_groups 8 s'' [] e) as [[[rest bytes] e']|] eqn:Hp; [|done].
    destruct (is_nil rest); [|done]. destruct (expand_groups bytes e') as [bytes'|] eqn:Hx; [|done].
    intros [= <-]. apply parse_groups_ok in Hp; [| |simpl; lia].
    + apply expand_groups_ok in Hx as [Hb Hl]; [|done].
      pose proof (be_combine_range bytes' Hb) as Hr. rewrite Hl in Hr. exact Hr.
    + split; [constructor|]. split; [simpl; lia|]. intros e0 ->.
      destruct s' as [|a1 [|b1 r]]; [done | done|].
      destruct (Ascii.eqb a1 ":" && Ascii.eqb b1 ":"); simplify_eq; simpl; lia.
Qed.

Lemma Unmap_ok a : addr_ok a -> addr_ok (Unmap a).
Proof.
  destruct a as [ip|ip zone]; [done|]. unfold Unmap. destruct (_ =? _); [|done]. intros _. unfold addr_ok.
  change 4294967295 with (Z.ones 32). rewrite Z.land_ones by lia. apply Z.mod_pos_bound. lia.
Qed.
