(* ===== verification/TextScrub.v ===== *)
(** Text that leaves the program cleaned: the whitespace and tag regular expressions,
    strings.TrimSpace and filepath.Ext, as agent/tool/webfetch/webfetch.go and
    sanitizeDocName of agent/provider/bedrock/bedrock.go use them.

    The functions work on bytes.  A byte that is not ASCII matches [[^>]] and none of
    [<], [>], [\s] and the document-name characters, alone or as part of a rune, so
    replacing byte by byte and rune by rune give the same text once runs of spaces
    are collapsed. *)
From Stdlib Require Import Ascii.
From S2P Require Import Prelude.

Definition code_is (n : nat) (c : ascii) : bool := Nat.eqb (nat_of_ascii c) n.
Definition sp : ascii := ascii_of_nat 32.

(** RE2's [\s]: tab, line feed, form feed, carriage return, space. *)
Definition re_space (c : ascii) : bool :=
  code_is 9 c || code_is 10 c || code_is 12 c || code_is 13 c || code_is 32 c.

Definition lt_char : ascii := ascii_of_nat 60.
Definition gt_char : ascii := ascii_of_nat 62.
Definition is_lt (c : ascii) : bool := Ascii.eqb c lt_char.
Definition is_gt (c : ascii) : bool := Ascii.eqb c gt_char.

(** ReplaceAllString of [<[^>]*>] by a space: leftmost matches, which do not overlap. *)
Fixpoint strip_tags (inside : bool) (s : list ascii) : list ascii :=
  match s with
  | [] => []
  | c :: s =>
      if inside then strip_tags (negb (is_gt c)) s
      else if is_lt c && existsb is_gt s then sp :: strip_tags true s
      else c :: strip_tags false s
  end.

(** ReplaceAllString of [\s{2,}] by a space: [pend] is the run of whitespace read, its
    first byte and whether it has a second one. *)
Definition flush (pend : option (ascii * bool)) : list ascii :=
  match pend with None => [] | Some (c, false) => [c] | Some (_, true) => [sp] end.
Definition pend_more (pend : option (ascii * bool)) (c : ascii) : option (ascii * bool) :=
  match pend with None => Some (c, false) | Some (c0, _) => Some (c0, true) end.
Fixpoint collapse (pend : option (ascii * bool)) (s : list ascii) : list ascii :=
  match s with
  | [] => flush pend
  | c :: s => if re_space c then collapse (pend_more pend c) s
              else flush pend ++ c :: collapse None s
  end.

(** The characters of unicode.IsSpace in UTF-8. *)
Definition space_runes : list (list ascii) :=
  map (map ascii_of_nat)
    ([[9]; [10]; [11]; [12]; [13]; [32]; [194; 133]; [194; 160]; [225; 154; 128];
      [226; 128; 168]; [226; 128; 169]; [226; 128; 175]; [226; 129; 159]; [227; 128; 128]] ++
     map (fun i => [226; 128; 128 + i]) (seq 0 11))%nat.

Fixpoint strip_prefix (p s : list ascii) : option (list ascii) :=
  match p, s with
  | [], _ => Some s
  | a :: p, b :: s => if Ascii.eqb a b then strip_prefix p s else None
  | _ :: _, [] => None
  end.

Fixpoint strip_rune (runes : list (list ascii)) (s : list ascii) : option (list ascii) :=
  match runes with
  | [] => None
  | p :: runes => match strip_prefix p s with Some rest => Some rest | None => strip_rune runes s end
  end.

(** A round strips at least one byte, so [length s] rounds are enough. *)
Fixpoint trim_front (fuel : nat) (runes : list (list ascii)) (s : list ascii) : list ascii :=
  match fuel with
  | O => s
  | S fuel => match strip_rune runes s with Some rest => trim_front fuel runes rest | None => s end
  end.

Definition trim_left (s : list ascii) : list ascii := trim_front (length s) space_runes s.
Definition trim_right (s : list ascii) : list ascii :=
  rev (trim_front (length s) (map (@rev ascii) space_runes) (rev s)).
Definition TrimSpace (s : list ascii) : list ascii := trim_right (trim_left s).

(** filepath.Ext: from the last dot after the last slash. *)
Fixpoint ext_of_rev (acc s : list ascii) : list ascii :=
  match s with
  | [] => []
  | c :: s => if code_is 47 c then [] else if code_is 46 c then c :: acc else ext_of_rev (c :: acc) s
  end.
Definition filepath_Ext (s : list ascii) : list ascii := ext_of_rev [] (rev s).

(* agent/tool/webfetch/webfetch.go: defaultFormatter *)
Definition defaultFormatter (html : string) : string :=
  String.string_of_list_ascii (TrimSpace (collapse None (strip_tags false (String.list_ascii_of_string html)))).

(** [^a-zA-Z0-9\s\-\(\)\[\]] *)
Definition docname_char (c : ascii) : bool :=
  let n := nat_of_ascii c in
  (Nat.leb 97 n && Nat.leb n 122) || (Nat.leb 65 n && Nat.leb n 90) || (Nat.leb 48 n && Nat.leb n 57) ||
  re_space c || code_is 45 c || code_is 40 c || code_is 41 c || code_is 91 c || code_is 93 c.

(* agent/provider/bedrock/bedrock.go:865-887: sanitizeDocName and its regular expressions *)
Definition sanitizeDocName (name : string) : string :=
  if bool_decide (name = "") then "document"
  else
    let s := String.list_ascii_of_string name in
    let idx := (length s - length (filepath_Ext s))%nat in
    let s := if Nat.ltb 0 idx then take idx s else s in
    let s := map (fun c => if docname_char c then c else sp) s in
    let s := TrimSpace (collapse None s) in
    if is_nil s then "document" else String.string_of_list_ascii s.

Example scrub_examples :
  defaultFormatter "<p>Hello,   <b>world</b></p> a < b" = "Hello, world a < b" /\
  map sanitizeDocName ["Q3 report.final.pdf"; ".pdf"; "a/b.c/d"; "??.txt"; "x"] =
    ["Q3 report final"; "pdf"; "a b c d"; "document"; "x"].
Proof. vm_compute. done. Qed.

(** * Whitespace *)

(** No two whitespace bytes next to each other. *)
Fixpoint no_double (s : list ascii) : bool :=
  match s with
  | a :: (b :: _) as s' => negb (re_space a && re_space b) && no_double s'
  | _ => true
  end.

Lemma no_double_cons c s : no_double (c :: s) = true -> no_double s = true.
Proof. destruct s; simpl; [done|]. intros. by bool_hyps. Qed.

Lemma no_double_app a b : no_double (a ++ b) = true -> no_double a = true /\ no_double b = true.
Proof.
  induction a as [|c a IH]; simpl; [done|]. intros H.
  destruct a as [|d a]; simpl in *; [by apply no_double_cons in H|].
  bool_hyps. destruct IH as [-> ->]; [done|]. by rewrite H.
Qed.

Lemma collapse_id s : no_double s = true -> collapse None s = s.
Proof.
  induction s as [|c s IH]; [done|]. intros H. pose proof (no_double_cons c s H) as Hs.
  simpl. destruct (re_space c) eqn:Hc; [|by rewrite IH].
  destruct s as [|d s]; [done|]. simpl in H. rewrite Hc in H. simpl in H. bool_hyps.
  simpl. rewrite H. simpl. f_equal. specialize (IH Hs). simpl in IH. rewrite H in IH. exact IH.
Qed.

(** The pending byte is whitespace. *)
Definition pend_ok (pend : option (ascii * bool)) : Prop :=
  match pend with Some (c, _) => re_space c = true | None => True end.

Lemma no_double_sep x c t : re_space c = false -> no_double (x :: c :: t) = no_double (c :: t).
Proof. intros Hc. cbn [no_double]. by rewrite Hc, andb_false_r. Qed.

Lemma collapse_no_double_gen s : forall pend, pend_ok pend -> no_double (collapse pend s) = true.
Proof.
  induction s as [|c s IH]; intros pend Hp; simpl; [by destruct pend as [[c []]|]|].
  destruct (re_space c) eqn:Hc; [apply IH; by destruct pend as [[c0 b]|]|].
  assert (no_double (c :: collapse None s) = true) as Hcs.
  { specialize (IH None I). destruct (collapse None s); [done|]. cbn [no_double] in *. by rewrite Hc, IH. }
  destruct pend as [[c0 []]|]; cbn [flush app]; by rewrite ?no_double_sep.
Qed.

Lemma collapse_no_double s : no_double (collapse None s) = true.
Proof. by apply collapse_no_double_gen. Qed.

(** * Trimming *)

Lemma strip_prefix_spec p s rest : strip_prefix p s = Some rest <-> s = p ++ rest.
Proof.
  revert s. induction p as [|a p IH]; intros [|b s]; simpl; [naive_solver..| |].
  { split; [done | discriminate]. }
  destruct (Ascii.eqb_spec a b) as [->|Hn]; [rewrite IH; naive_solver|]. naive_solver.
Qed.

Lemma strip_rune_spec runes s :
  match strip_rune runes s with
  | Some rest => exists p, p ∈ runes /\ s = p ++ rest
  | None => forall p rest, p ∈ runes -> s <> p ++ rest
  end.
Proof.
  induction runes as [|p runes IH]; simpl; [set_solver|].
  destruct (strip_prefix p s) as [rest|] eqn:Hp.
  - exists p. apply strip_prefix_spec in Hp. set_solver.
  - assert (forall rest, s <> p ++ rest) as Hno
      by (intros rest Heq; apply strip_prefix_spec in Heq; congruence).
    destruct (strip_rune runes s) as [rest|]; [destruct IH as (q & ? & ?); exists q; set_solver|].
    intros q rest [->|Hq]%elem_of_cons; [apply Hno | by apply IH].
Qed.

(** What trimming leaves is a suffix that no rune of the list starts. *)
Lemma trim_front_spec runes fuel s :
  [] ∉ runes -> (length s <= fuel)%nat ->
  (exists pre, s = pre ++ trim_front fuel runes s) /\
  (forall p rest, p ∈ runes -> trim_front fuel runes s <> p ++ rest).
Proof.
  intros Hne. revert s. induction fuel as [|fuel IH]; intros s Hlen.
  - destruct s; [|simpl in Hlen; lia]. split; [by exists []|]. intros [|a p] rest Hp; [done|]. discriminate.
  - simpl. pose proof (strip_rune_spec runes s) as Hs. destruct (strip_rune runes s) as [rest|]; [|by split; [exists []|]].
    destruct Hs as (p & Hp & ->). destruct p as [|a p]; [done|].
    destruct (IH rest) as [[pre Hpre] Hno]; [rewrite length_app in Hlen; simpl in Hlen; lia|].
    split; [|done]. exists ((a :: p) ++ pre). by rewrite <- app_assoc, <- Hpre.
Qed.

Lemma trim_front_id runes fuel s :
  (forall p rest, p ∈ runes -> s <> p ++ rest) -> trim_front fuel runes s = s.
Proof.
  intros Hno. destruct fuel; [done|]. simpl. pose proof (strip_rune_spec runes s) as Hs.
  destruct (strip_rune runes s); [|done]. destruct Hs as (p & Hp & Heq). by destruct (Hno p l Hp).
Qed.

Lemma space_runes_nonempty : ([] ∉ space_runes) /\ [] ∉ map (@rev ascii) space_runes.
Proof.
  assert (forall xs : list (list ascii), forallb (fun p => negb (is_nil p)) xs = true -> [] ∉ xs) as H.
  { intros xs Hxs Hin. rewrite forallb_forall in Hxs. by specialize (Hxs [] (proj1 (list_elem_of_In _ _) Hin)). }
  split; apply H; vm_compute; reflexivity.
Qed.

(** The trimmed text is an infix of the text, with no white space at either end. *)
Definition no_edges (s : list ascii) : Prop :=
  (forall p rest, p ∈ space_runes -> s <> p ++ rest) /\ (forall p rest, p ∈ space_runes -> s <> rest ++ p).

Lemma TrimSpace_spec s : (exists a b, s = a ++ TrimSpace s ++ b) /\ no_edges (TrimSpace s).
Proof.
  destruct space_runes_nonempty as [Hl Hr]. unfold TrimSpace, trim_right, trim_left.
  set (l := trim_front (length s) space_runes s).
  destruct (trim_front_spec space_runes (length s) s Hl) as [[a Ha] Hla]; [done|]. fold l in Ha, Hla.
  destruct (trim_front_spec (map (@rev ascii) space_runes) (length l) (rev l) Hr) as [[b Hb] Hlb];
    [by rewrite length_rev|].
  set (r := trim_front _ _ (rev l)) in *.
  assert (l = rev r ++ rev b) as Hlr by (rewrite <- rev_app_distr, <- Hb; by rewrite rev_involutive).
  split; [exists a, (rev b); by rewrite <- Hlr|]. split; intros p rest Hp Heq.
  - apply (Hla p (rest ++ rev b) Hp). by rewrite Hlr, Heq, app_assoc.
  - apply (Hlb (rev p) (rev rest)); [by apply list_elem_of_fmap_2|].
    rewrite <- rev_app_distr, <- Heq. by rewrite rev_involutive.
Qed.

Lemma TrimSpace_id s : no_edges s -> TrimSpace s = s.
Proof.
  intros [Hl Hr]. unfold TrimSpace, trim_left. rewrite trim_front_id by done. unfold trim_right.
  rewrite trim_front_id; [apply rev_involutive|]. intros p rest (q & -> & Hq)%list_elem_of_fmap Heq.
  apply (Hr q (rev rest) Hq). rewrite <- (rev_involutive s), Heq, rev_app_distr. by rewrite rev_involutive.
Qed.

(** * Tags *)

(** No [<] with a [>] behind it. *)
Fixpoint no_tags (s : list ascii) : bool :=
  match s with
  | [] => true
  | c :: s => if is_lt c then negb (existsb is_gt s) else no_tags s
  end.

Lemma no_gt_no_tags s : existsb is_gt s = false -> no_tags s = true.
Proof.
  induction s as [|c s IH]; simpl; [done|]. intros [_ Hs]%orb_false_iff.
  destruct (is_lt c); [by rewrite Hs | auto].
Qed.

Lemma no_tags_app a b : no_tags (a ++ b) = true -> no_tags a = true /\ no_tags b = true.
Proof.
  induction a as [|c a IH]; simpl; [done|]. destruct (is_lt c); [|done].
  rewrite existsb_app. intros [Ha Hb]%negb_true_iff%orb_false_iff. rewrite Ha. split; [done|].
  by apply no_gt_no_tags.
Qed.

(** Only the brackets of a text decide whether it has tags. *)
Definition brackets (s : list ascii) : list ascii := List.filter (fun c => is_lt c || is_gt c) s.

Lemma brackets_gt s : existsb is_gt (brackets s) = existsb is_gt s.
Proof.
  induction s as [|c s IH]; [done|]. unfold brackets in *. simpl.
  destruct (is_lt c) eqn:Hl, (is_gt c) eqn:Hg; simpl; rewrite ?Hg, ?IH; done.
Qed.

Lemma brackets_tags s : no_tags (brackets s) = no_tags s.
Proof.
  induction s as [|c s IH]; [done|]. pose proof (brackets_gt s) as Hgt. unfold brackets in *. simpl.
  destruct (is_lt c) eqn:Hl; simpl; [by rewrite Hl, Hgt|].
  destruct (is_gt c); simpl; [by rewrite Hl | done].
Qed.

Lemma space_no_bracket c : re_space c = true -> is_lt c || is_gt c = false.
Proof.
  intros Hc. destruct (is_lt c) eqn:Hl; [unfold is_lt in Hl; apply Ascii.eqb_eq in Hl; by subst|].
  destruct (is_gt c) eqn:Hg; [unfold is_gt in Hg; apply Ascii.eqb_eq in Hg; by subst | done].
Qed.

Lemma brackets_collapse s : forall pend, pend_ok pend -> brackets (collapse pend s) = brackets s.
Proof.
  assert (forall pend, pend_ok pend -> brackets (flush pend) = []) as Hflush.
  { intros [[c []]|] Hp; simpl; [done | | done]. unfold brackets. simpl. by rewrite space_no_bracket. }
  induction s as [|c s IH]; intros pend Hp; simpl; [by apply Hflush|].
  unfold brackets in *. simpl. destruct (re_space c) eqn:Hc.
  - rewrite (space_no_bracket c Hc). apply IH. by destruct pend as [[c0 b]|].
  - rewrite List.filter_app, Hflush by done. simpl. by rewrite (IH None I).
Qed.

Lemma strip_tags_no_tags s : forall inside,
  (inside = true -> existsb is_gt s = true) -> no_tags (strip_tags inside s) = true.
Proof.
  induction s as [|c s IH]; intros inside Hin; simpl; [done|]. destruct inside.
  - apply IH. specialize (Hin eq_refl). simpl in Hin. destruct (is_gt c); [done | auto].
  - destruct (is_lt c) eqn:Hl; simpl; [|rewrite Hl; by apply IH].
    destruct (existsb is_gt s) eqn:Hg; simpl; [by apply IH|]. rewrite Hl.
    clear IH Hl Hin. apply negb_true_iff. induction s as [|d s IHs]; simpl in *; [done|].
    apply orb_false_iff in Hg as [Hd Hg]. rewrite Hg, andb_false_r. simpl. rewrite Hd. auto.
Qed.

Lemma strip_tags_id s : no_tags s = true -> strip_tags false s = s.
Proof.
  induction s as [|c s IH]; simpl; [done|]. destruct (is_lt c) eqn:Hl; simpl.
  - intros Hg%negb_true_iff. rewrite Hg. simpl. f_equal. apply IH. by apply no_gt_no_tags.
  - intros Hs. f_equal. auto.
Qed.

(** * The formatter and the document names *)

Definition bytes_of (s : string) : list ascii := String.list_ascii_of_string s.

Lemma bytes_of_string s : bytes_of (String.string_of_list_ascii s) = s.
Proof. apply String.list_ascii_of_string_of_list_ascii. Qed.

Lemma string_of_bytes s : String.string_of_list_ascii (bytes_of s) = s.
Proof. apply String.string_of_list_ascii_of_string. Qed.

(** The text the formatter of web pages returns has no tag left, no two white
    space characters in a row and none at its ends, and formatting it again changes
    nothing. *)
Theorem defaultFormatter_clean (html : string) :
  let out := bytes_of (defaultFormatter html) in
  no_tags out = true /\ no_double out = true /\ no_edges out /\
  defaultFormatter (defaultFormatter html) = defaultFormatter html.
Proof.
  unfold defaultFormatter. fold (bytes_of html). fold bytes_of. cbv zeta. rewrite !bytes_of_string.
  set (t := collapse None (strip_tags false (bytes_of html))).
  destruct (TrimSpace_spec t) as [(a & b & Hinfix) Hedges].
  assert (no_tags t = true) as Htags.
  { unfold t. rewrite <- brackets_tags, brackets_collapse, brackets_tags by done. by apply strip_tags_no_tags. }
  pose proof (collapse_no_double (strip_tags false (bytes_of html))) as Hnd. fold t in Hnd.
  rewrite Hinfix in Htags, Hnd.
  apply no_tags_app in Htags as [_ [Htags _]%no_tags_app]. apply no_double_app in Hnd as [_ [Hnd _]%no_double_app].
  split_and!; [done | done | done|]. fold (bytes_of (String.string_of_list_ascii (TrimSpace t))).
  rewrite ?bytes_of_string, strip_tags_id, collapse_id, TrimSpace_id by done. done.
Qed.

(** Collapsing and trimming invent no character but the space. *)
Lemma collapse_chars (P : ascii -> Prop) s : forall pend,
  P sp -> (forall c b, pend = Some (c, b) -> P c) -> Forall P s -> Forall P (collapse pend s).
Proof.
  intros pend Hsp. revert pend. induction s as [|c s IH]; intros pend Hp Hs; simpl.
  - destruct pend as [[c []]|]; simpl; eauto.
  - inversion Hs as [|? ? Hc Hs']; subst. destruct (re_space c).
    + apply IH; [|done]. destruct pend as [[c0 b0]|]; simpl; intros ? ? [= <- <-]; eauto.
    + apply Forall_app. split; [destruct pend as [[c0 []]|]; simpl; eauto|]. constructor; [done|]. by apply IH.
Qed.

Lemma ext_of_rev_nodot s acc : Forall (fun c => docname_char c = true) s -> ext_of_rev acc s = [].
Proof.
  revert acc. induction s as [|c s IH]; intros acc Hs; simpl; [done|]. inversion Hs as [|? ? Hc Hs']; subst.
  destruct (code_is 47 c) eqn:Hslash; [done|].
  destruct (code_is 46 c) eqn:Hdot; [|by apply IH].
  exfalso. unfold code_is in Hdot. apply Nat.eqb_eq in Hdot. revert Hc. unfold docname_char, re_space, code_is.
  by rewrite Hdot.
Qed.

Definition docname_ok (s : list ascii) : Prop :=
  Forall (fun c => docname_char c = true) s /\ no_double s = true /\ no_edges s /\ s <> [].

Lemma docname_scrub s t :
  t = TrimSpace (collapse None (map (fun c => if docname_char c then c else sp) s)) -> t <> [] -> docname_ok t.
Proof.
  intros -> Hne. set (u := collapse None _). destruct (TrimSpace_spec u) as [(a & b & Hinfix) Hedges].
  assert (Forall (fun c => docname_char c = true) u) as Hchars.
  { apply collapse_chars; [done | done|]. apply Forall_map, Forall_forall. intros c _. simpl.
    by destruct (docname_char c) eqn:Hc. }
  pose proof (collapse_no_double (map (fun c => if docname_char c then c else sp) s)) as Hnd. fold u in Hnd.
  rewrite Hinfix in Hchars, Hnd. rewrite !Forall_app in Hchars.
  apply no_double_app in Hnd as [_ [Hnd _]%no_double_app]. split_and!; [tauto | done | done | done].
Qed.

Lemma docname_ok_fix s : docname_ok s -> sanitizeDocName (String.string_of_list_ascii s) = String.string_of_list_ascii s.
Proof.
  intros (Hchars & Hnd & Hedges & Hne). unfold sanitizeDocName. fold (bytes_of (String.string_of_list_ascii s)).
  rewrite bool_decide_false by (destruct s; done). rewrite bytes_of_string.
  unfold filepath_Ext. rewrite ext_of_rev_nodot by (apply Forall_rev; done). simpl.
  rewrite Nat.sub_0_r, firstn_all.
  assert (map (fun c => if docname_char c then c else sp) s = s) as Hmap.
  { clear -Hchars. induction Hchars as [|c s Hc _ IH]; simpl; [done|]. by rewrite Hc, IH. }
  destruct (Nat.ltb 0 (length s)); rewrite Hmap, collapse_id, TrimSpace_id by done; by destruct s.
Qed.

(** The name a document gets on Bedrock is never empty, has only the characters
    Bedrock accepts, no two white space characters in a row and none at its ends, and
    is its own sanitized name. *)
Theorem sanitizeDocName_valid (name : string) :
  docname_ok (bytes_of (sanitizeDocName name)) /\ sanitizeDocName (sanitizeDocName name) = sanitizeDocName name.
Proof.
  assert (docname_ok (bytes_of "document")) as Hdoc.
  { split_and!; [| vm_compute; reflexivity | | done].
    { apply Forall_forall. intros c Hc%list_elem_of_In.
      refine (proj1 (forallb_forall docname_char (bytes_of "document")) _ c Hc). vm_compute. reflexivity. }
    assert (TrimSpace (bytes_of "document") = bytes_of "document") as <- by (vm_compute; reflexivity).
    apply TrimSpace_spec. }
  assert (docname_ok (bytes_of (sanitizeDocName name))) as Hok.
  { unfold sanitizeDocName. destruct (bool_decide (name = "")); [done|].
    match goal with |- context [TrimSpace ?x] => destruct (is_nil (TrimSpace x)) eqn:Hn end; [done|].
    rewrite bytes_of_string. eapply docname_scrub; [reflexivity|]. by apply is_nil_false. }
  split; [done|]. apply docname_ok_fix in Hok. by rewrite string_of_bytes in Hok.
Qed.
