(* ===== verification/UrlFetch.v ===== *)
(** Fetching media by URL (agent/provider/bedrock/bedrock.go: the guarded client of
    image and document sources) over a model of net/http's client.

    The network is a world [W] that answers as it likes: names may resolve to other
    addresses at every lookup, and a server may redirect anywhere.  Every connection
    the client opens is recorded in [ns_dialed].  The transport opens one connection
    per request; a connection kept alive would be one that the same dialer opened. *)
From S2P Require Import Prelude Errors Messages NetAddr.

(** * The network and net/http *)

(** A parsed *url.URL: the parts the guards read, and the rest of it. *)
Record URL := mkURL { u_Scheme : string; u_User : bool; u_Hostname : string; u_Rest : string }.

(** An HTTP response: [rs_BodyErr] is the error that reading the body ends with, if
    it does not end with EOF. *)
Record Response := mkHTTPResponse {
  rs_StatusCode : Z; rs_Location : string; rs_ContentLength : Z; rs_ContentType : string;
  rs_Body : string; rs_BodyErr : option error }.

(** The network, and the text functions of net/url, net and fmt. *)
Class Net (W : Type) := {
  (* net.DefaultResolver.LookupIPAddr: the byte slices of the addresses *)
  net_LookupIPAddr : string -> W -> res (list string) * W;
  (* one request and its response over a connection *)
  net_Exchange : Addr -> string -> URL -> W -> res Response * W;
  url_Parse : string -> res URL;
  (* url.Parse of URL.String(), as http.NewRequestWithContext does *)
  url_Reparse : URL -> res URL;
  (* URL.Parse of a Location header *)
  url_Resolve : URL -> string -> res URL;
  (* the "host:port" that http.Transport dials for a URL *)
  url_DialAddress : URL -> string;
  net_SplitHostPort : string -> res (string * string);
  addr_String : Addr -> string;
  fmt_Quote : string -> string;
  fmt_Int : Z -> string }.

Section Fetch.
Context {W : Type} `{Net W}.

Record NetSt := mkNetSt { ns_world : W; ns_dialed : list Addr }.

Definition lookup_with (f : string -> W -> res (list string) * W) (host : string) (s : NetSt)
    : res (list string) * NetSt :=
  let '(r, w) := f host (ns_world s) in (r, mkNetSt w (ns_dialed s)).

(** A dialer takes the address and answers the connection's remote address and port. *)
Definition Dialer : Type := string -> NetSt -> res (Addr * string) * NetSt.
Definition RedirectCheck : Type := URL -> list URL -> NetSt -> res unit * NetSt.

(** http.Client with the parts of its transport that the source sets. *)
Record HttpClient := mkHttpClient {
  hc_Timeout : Z; hc_DialContext : Dialer; hc_CheckRedirect : option RedirectCheck }.

(** net/http: the policy of a client without CheckRedirect. *)
Definition defaultCheckRedirect : RedirectCheck := fun _ via s =>
  (if bool_decide (10 <= length via)%nat then Err (ENew "stopped after 10 redirects") else Ok tt, s).

Definition redirect_status (code : Z) : bool := bool_decide (code ∈ [301; 302; 303; 307; 308]%Z).

(** Transport.RoundTrip: dial, then the exchange. *)
Definition client_send (c : HttpClient) (u : URL) (s : NetSt) : res Response * NetSt :=
  match hc_DialContext c (url_DialAddress u) s with
  | (Err e, s) => (Err e, s)
  | (Ok (a, port), s) =>
      let '(r, w) := net_Exchange a port u (ns_world s) in (r, mkNetSt w (ns_dialed s))
  end.

(** Client.do: follow redirects as long as CheckRedirect agrees; [via] are the
    requests made so far.  One unit of fuel per request. *)
Fixpoint client_do (fuel : nat) (c : HttpClient) (u : URL) (via : list URL) (s : NetSt)
    : option (res Response) * NetSt :=
  match fuel with
  | O => (None, s)
  | S fuel =>
      match client_send c u s with
      | (Err e, s) => (Some (Err e), s)
      | (Ok resp, s) =>
          if redirect_status (rs_StatusCode resp) && bool_decide (rs_Location resp <> "") then
            match url_Resolve u (rs_Location resp) with
            | Err e => (Some (Err e), s)
            | Ok u' =>
                match default defaultCheckRedirect (hc_CheckRedirect c) u' (via ++ [u]) s with
                | (Err e, s) => (Some (Err (EWrap "Get" e)), s)
                | (Ok _, s) => client_do fuel c u' (via ++ [u]) s
                end
            end
          else (Some (Ok resp), s)
      end
  end.

(** io.ReadAll over io.LimitReader(body, n). *)
Definition read_limited (n : Z) (resp : Response) : res string :=
  if (n <=? Z.of_nat (String.length (rs_Body resp)))%Z then Ok (String.substring 0 (Z.to_nat n) (rs_Body resp))
  else match rs_BodyErr resp with Some e => Err e | None => Ok (rs_Body resp) end.

(** * The guarded client of Bedrock *)

(* agent/provider/bedrock/bedrock.go:43-45: limits *)
Definition defaultURLFetchTimeout : Z := 30000000000%Z.
Definition defaultURLFetchMaxResponseBytes : Z := 10485760%Z.
Definition defaultURLFetchMaxRedirects : nat := 3.

(* agent/provider/bedrock/bedrock.go:50-53: urlFetchPolicy *)
Record urlFetchPolicy := mkPolicy {
  allowPrivateNetworks : bool; lookupIPAddr : option (string -> W -> res (list string) * W) }.

Definition policy_zero : urlFetchPolicy := mkPolicy false None.

(* agent/provider/bedrock/bedrock.go:56-57: urlFetchMetadataIPv4 and urlFetchMetadataIPv6 *)
Definition urlFetchMetadata : list Addr :=
  [V4 2852039166; V6 336294982257581694735330614659971547732 ""].

(* agent/provider/bedrock/bedrock.go: validateURLFetchIP *)
Definition validateURLFetchIP (a : Addr) (policy : urlFetchPolicy) : res unit :=
  let refuse what := Err (ENew (what +:+ " IP address " +:+ addr_String a +:+ " is not allowed")) in
  if bool_decide (a ∈ urlFetchMetadata) then refuse "metadata"
  else if IsLoopback a then refuse "loopback"
  else if IsLinkLocalUnicast a || IsLinkLocalMulticast a then refuse "link-local"
  else if IsPrivate a && negb (allowPrivateNetworks policy) then refuse "private"
  else if IsUnspecified a then refuse "unspecified"
  else if IsMulticast a then refuse "multicast"
  else Ok tt.

(** The loop over the resolved addresses. *)
Fixpoint check_resolved (host : string) (policy : urlFetchPolicy) (resolved : list string) (ips : list Addr)
    : res (list Addr) :=
  match resolved with
  | [] => Ok ips
  | ip :: rest =>
      match AddrFromSlice ip with
      | None => Err (ENew ("resolve URL host " +:+ fmt_Quote host +:+ ": invalid address"))
      | Some a =>
          match validateURLFetchIP (Unmap a) policy with
          | Err e => Err (EWrap ("resolve URL host " +:+ fmt_Quote host) e)
          | Ok _ => check_resolved host policy rest (ips ++ [Unmap a])
          end
      end
  end.

(* agent/provider/bedrock/bedrock.go: resolveURLFetchHost *)
Definition resolveURLFetchHost (host : string) (policy : urlFetchPolicy) (s : NetSt) : res (list Addr) * NetSt :=
  match ParseAddr host with
  | Some a =>
      (match validateURLFetchIP (Unmap a) policy with Err e => Err e | Ok _ => Ok [Unmap a] end, s)
  | None =>
      match lookup_with (default net_LookupIPAddr (lookupIPAddr policy)) host s with
      | (Err e, s) => (Err (EWrap ("resolve URL host " +:+ fmt_Quote host) e), s)
      | (Ok [], s) => (Err (ENew ("resolve URL host " +:+ fmt_Quote host +:+ ": no addresses")), s)
      | (Ok resolved, s) => (check_resolved host policy resolved [], s)
      end
  end.

(* agent/provider/bedrock/bedrock.go: validateURLFetchTarget *)
Definition validateURLFetchTarget (target : URL) (policy : urlFetchPolicy) (s : NetSt) : res unit * NetSt :=
  if bool_decide (u_Scheme target <> "https") then (Err (ENew "only HTTPS URL targets are allowed"), s)
  else if u_User target then (Err (ENew "URL user credentials are not allowed"), s)
  else if bool_decide (u_Hostname target = "") then (Err (ENew "URL host is required"), s)
  else match resolveURLFetchHost (u_Hostname target) policy s with
       | (Err e, s) => (Err e, s)
       | (Ok _, s) => (Ok tt, s)
       end.

(* agent/provider/bedrock/bedrock.go: safeURLFetchDialContext *)
Definition safeURLFetchDialContext (policy : urlFetchPolicy) : Dialer := fun address s =>
  match net_SplitHostPort address with
  | Err e => (Err (EWrap ("invalid URL fetch address " +:+ fmt_Quote address) e), s)
  | Ok (host, port) =>
      match resolveURLFetchHost host policy s with
      | (Err e, s) => (Err e, s)
      | (Ok (a :: _), s) => (Ok (a, port), mkNetSt (ns_world s) (ns_dialed s ++ [a]))
      | (Ok [], s) => (Err (ENew "index out of range"), s)
      end
  end.

(* agent/provider/bedrock/bedrock.go: newURLFetchClient *)
Definition newURLFetchClient (timeout : Z) (policies : list urlFetchPolicy) : HttpClient :=
  let timeout := if (timeout <=? 0)%Z then defaultURLFetchTimeout else timeout in
  let policy := match policies with p :: _ => p | [] => policy_zero end in
  mkHttpClient timeout (safeURLFetchDialContext policy) None.

(** The CheckRedirect that a fetch installs on its copy of the client. *)
(* agent/provider/bedrock/bedrock.go:938-949: CheckRedirect of fetchURLBytesWithPolicy *)
Definition fetchCheckRedirect (policy : urlFetchPolicy) (prior : option RedirectCheck) : RedirectCheck :=
  fun redirect via s =>
    if bool_decide (defaultURLFetchMaxRedirects < length via)%nat then
      (Err (ENew ("URL fetch exceeded " +:+ fmt_Int (Z.of_nat defaultURLFetchMaxRedirects) +:+ " redirects")), s)
    else match validateURLFetchTarget redirect policy s with
         | (Err e, s) => (Err (EWrap "unsafe redirect target" e), s)
         | (Ok _, s) => match prior with Some check => check redirect via s | None => (Ok tt, s) end
         end.

(** The response checks after client.Do. *)
(* agent/provider/bedrock/bedrock.go:957-971: response of fetchURLBytesWithPolicy *)
Definition fetch_response (resource : string) (resp : Response) : res string :=
  let fetching := "fetch " +:+ resource +:+ " URL" in
  let too_big := fetching +:+ ": response exceeds " +:+ fmt_Int defaultURLFetchMaxResponseBytes +:+ "-byte limit" in
  if ((rs_StatusCode resp <? 200) || (300 <=? rs_StatusCode resp))%Z then
    Err (ENew (fetching +:+ ": status " +:+ fmt_Int (rs_StatusCode resp)))
  else if (defaultURLFetchMaxResponseBytes <? rs_ContentLength resp)%Z then Err (ENew too_big)
  else match read_limited (defaultURLFetchMaxResponseBytes + 1) resp with
       | Err e => Err (EWrap ("read " +:+ resource +:+ " URL body") e)
       | Ok body => if (defaultURLFetchMaxResponseBytes <? Z.of_nat (String.length body))%Z then Err (ENew too_big)
                    else Ok body
       end.

(* agent/provider/bedrock/bedrock.go: fetchURLBytesWithPolicy *)
Definition fetchURLBytesWithPolicy (fuel : nat) (fetchClient : option HttpClient) (policy : urlFetchPolicy)
    (rawURL resource : string) (s : NetSt) : option (res string) * NetSt :=
  let client := default (newURLFetchClient 0 [policy]) fetchClient in
  let failed e := Some (Err (EWrap ("fetch " +:+ resource +:+ " URL") e)) in
  match url_Parse rawURL with
  | Err e => (failed e, s)
  | Ok target =>
      match validateURLFetchTarget target policy s with
      | (Err e, s) => (failed e, s)
      | (Ok _, s) =>
          match url_Reparse target with
          | Err e => (failed e, s)
          | Ok req =>
              let client := mkHttpClient (hc_Timeout client) (hc_DialContext client)
                              (Some (fetchCheckRedirect policy (hc_CheckRedirect client))) in
              match client_do fuel client req [] s with
              | (None, s) => (None, s)
              | (Some (Err e), s) => (failed e, s)
              | (Some (Ok resp), s) => (Some (fetch_response resource resp), s)
              end
          end
      end
  end.

(* agent/provider/bedrock/bedrock.go: fetchURLBytes *)
Definition fetchURLBytes (fuel : nat) (fetchClient : option HttpClient) (rawURL resource : string) (s : NetSt)
    : option (res string) * NetSt :=
  fetchURLBytesWithPolicy fuel fetchClient policy_zero rawURL resource s.

(** * What a fetch may connect to *)

(** The addresses a policy admits, as blocks.  The last two lines are what the code
    compares with single addresses. *)
Definition dial_allowed (policy : urlFetchPolicy) (a : Addr) : Prop :=
  ~ in_blocks a loopback_blocks /\ ~ in_blocks a linklocal_blocks /\ ~ in_blocks a multicast_blocks /\
  (allowPrivateNetworks policy = false -> ~ in_blocks a private_blocks) /\
  (a ∉ urlFetchMetadata) /\ a <> V4 0 /\ a <> V6 0 "".

Lemma validate_allowed a policy :
  addr_ok a -> validateURLFetchIP a policy = Ok tt <-> dial_allowed policy a.
Proof.
  intros Ha. unfold validateURLFetchIP, dial_allowed.
  rewrite <- (IsLoopback_spec a), <- (IsLinkLocalUnicast_spec a), <- (IsPrivate_spec a), <- (IsMulticast_spec a) by done.
  pose proof (IsLinkLocalMulticast_multicast a Ha) as Hllm.
  assert (IsUnspecified a = false <-> a <> V4 0 /\ a <> V6 0 "") as Hun.
  { unfold IsUnspecified. rewrite orb_false_iff, !bool_decide_eq_false. done. }
  destruct (decide (a ∈ urlFetchMetadata)) as [Hm|Hm];
    [rewrite bool_decide_true by done | rewrite bool_decide_false by done]; [naive_solver|].
  destruct (IsLoopback a); [naive_solver|]. destruct (IsLinkLocalUnicast a); [naive_solver|].
  destruct (IsLinkLocalMulticast a); [naive_solver|]. cbn [orb].
  destruct (IsPrivate a), (allowPrivateNetworks policy); cbn [andb negb]; [|naive_solver| |];
    (destruct (IsUnspecified a); [naive_solver|]; destruct (IsMulticast a); naive_solver).
Qed.

Lemma check_resolved_ok host policy resolved : forall ips ips',
  Forall (dial_allowed policy) ips -> check_resolved host policy resolved ips = Ok ips' ->
  Forall (dial_allowed policy) ips'.
Proof.
  induction resolved as [|ip rest IH]; intros ips ips' Hips; simpl; [by intros [= <-]|].
  destruct (AddrFromSlice ip) as [a|] eqn:Ha; [|done]. apply AddrFromSlice_ok, Unmap_ok in Ha.
  destruct (validateURLFetchIP (Unmap a) policy) as [[]|] eqn:Hv; [|done].
  apply IH, Forall_app_2; [done|]. constructor; [|constructor]. by apply validate_allowed.
Qed.

(** Resolution hands out admitted addresses only and opens nothing. *)
Lemma resolve_ok host policy s r s' :
  resolveURLFetchHost host policy s = (r, s') ->
  ns_dialed s' = ns_dialed s /\ (forall ips, r = Ok ips -> Forall (dial_allowed policy) ips).
Proof.
  unfold resolveURLFetchHost, lookup_with. destruct (ParseAddr host) as [a|] eqn:Ha.
  - apply ParseAddr_ok, Unmap_ok in Ha. intros [= <- <-]. split; [done|]. intros ips.
    destruct (validateURLFetchIP _ _) as [[]|] eqn:Hv; [|done]. intros [= <-].
    constructor; [by apply validate_allowed | constructor].
  - destruct (default _ _ _ _) as [[[|ip rest]|e] w]; intros [= <- <-]; (split; [done|]); intros ips; [done| |done].
    apply (check_resolved_ok host policy (ip :: rest) []). constructor.
Qed.

Lemma validate_target_dials target policy s r s' :
  validateURLFetchTarget target policy s = (r, s') -> ns_dialed s' = ns_dialed s.
Proof.
  unfold validateURLFetchTarget. repeat (case_match; [by intros [= <- <-]|]).
  destruct (resolveURLFetchHost _ _ _) as [r0 s0] eqn:Hr. apply resolve_ok in Hr as [Hr _].
  destruct r0; by intros [= <- <-].
Qed.

(** One request opens at most one connection, to an admitted address. *)
Lemma send_dials timeout policy check u s r s' :
  client_send (mkHttpClient timeout (safeURLFetchDialContext policy) check) u s = (r, s') ->
  exists new, ns_dialed s' = ns_dialed s ++ new /\ Forall (dial_allowed policy) new /\ (length new <= 1)%nat.
Proof.
  unfold client_send, safeURLFetchDialContext. simpl.
  destruct (net_SplitHostPort _) as [[host port]|e]; [|intros [= <- <-]; exists []; rewrite app_nil_r; auto].
  destruct (resolveURLFetchHost host policy s) as [r0 s0] eqn:Hr. apply resolve_ok in Hr as [Hd Hok].
  destruct r0 as [[|a rest]|e]; [intros [= <- <-]; exists []; rewrite app_nil_r; auto | |
                                 intros [= <- <-]; exists []; rewrite app_nil_r; auto].
  simpl. destruct (net_Exchange _ _ _ _) as [r1 w]. intros [= <- <-]. exists [a]. simpl. rewrite Hd.
  specialize (Hok _ eq_refl). inversion Hok. auto.
Qed.

Lemma fetchCheck_dials policy u via s r s' :
  fetchCheckRedirect policy None u via s = (r, s') ->
  ns_dialed s' = ns_dialed s /\ (r = Ok tt -> (length via <= 3)%nat).
Proof.
  unfold fetchCheckRedirect, defaultURLFetchMaxRedirects. destruct (decide (3 < length via)%nat).
  - rewrite bool_decide_true by done. intros [= <- <-]. done.
  - rewrite bool_decide_false by done.
    destruct (validateURLFetchTarget u policy s) as [r0 s0] eqn:Hv. apply validate_target_dials in Hv.
    destruct r0; intros [= <- <-]; split; try done; lia.
Qed.

(** The request loop: from [via] requests on, at most [4 - length via] more. *)
Lemma client_do_dials timeout dialpol policy fuel : forall u via s r s',
  (length via <= 3)%nat ->
  client_do fuel (mkHttpClient timeout (safeURLFetchDialContext dialpol) (Some (fetchCheckRedirect policy None)))
    u via s = (r, s') ->
  exists new, ns_dialed s' = ns_dialed s ++ new /\ Forall (dial_allowed dialpol) new /\
    (length new + length via <= 4)%nat /\ ((4 <= fuel + length via)%nat -> r <> None).
Proof.
  induction fuel as [|fuel IH]; intros u via s r s' Hvia; cbn [client_do].
  { intros [= <- <-]. exists []. rewrite app_nil_r. split; [done|]. split; [constructor|]. simpl. lia. }
  destruct (client_send _ u s) as [r1 s1] eqn:Hs. apply send_dials in Hs as (new & Hd & Hok & Hlen).
  assert (forall rr s2, ns_dialed s2 = ns_dialed s1 -> rr <> None -> (rr, s2) = (r, s') ->
    exists new, ns_dialed s' = ns_dialed s ++ new /\ Forall (dial_allowed dialpol) new /\
      (length new + length via <= 4)%nat /\ ((4 <= S fuel + length via)%nat -> r <> None)) as Hstop.
  { intros rr s2 Hs2 Hrr [= <- <-]. exists new. rewrite Hs2. split_and!; try done. lia. }
  destruct r1 as [resp|e]; [|by apply Hstop]. destruct (_ && _); [|by apply Hstop].
  destruct (url_Resolve _ _) as [u'|e]; [|by apply Hstop].
  cbn [hc_CheckRedirect from_option]. unfold id.
  destruct (fetchCheckRedirect policy None u' (via ++ [u]) s1) as [r2 s2] eqn:Hc.
  apply fetchCheck_dials in Hc as [Hd2 Hcount].
  destruct r2 as [[]|e]; [|by apply Hstop].
  specialize (Hcount eq_refl). intros Hdo. apply IH in Hdo as (new2 & Hd3 & Hok2 & Hlen2 & Hfuel); [|done].
  rewrite length_app in Hlen2, Hfuel. simpl in Hlen2, Hfuel. exists (new ++ new2). rewrite Hd3, Hd2, Hd, app_assoc, length_app.
  split_and!; [done | by apply Forall_app_2 | lia | intros ?; apply Hfuel; lia].
Qed.

Lemma substring_length n s : (String.length (String.substring 0 n s) <= n)%nat.
Proof. revert s. induction n as [|n IH]; intros [|c s]; simpl; [lia..|]. specialize (IH s). lia. Qed.

Lemma fetch_response_bound resource resp body :
  fetch_response resource resp = Ok body -> (Z.of_nat (String.length body) <= 10485760)%Z.
Proof.
  unfold fetch_response, defaultURLFetchMaxResponseBytes. repeat case_match; try done; intros [= <-].
  by apply Z.ltb_ge.
Qed.

(** C23. Whatever the network does (names that resolve differently at every lookup,
    servers that redirect anywhere), a fetch through the guarded client opens at most
    four connections, all of them to addresses the client's policy admits: never to
    loopback, link-local or multicast blocks, never to a private block unless the
    policy allows private networks; it always comes to an end, and a body it returns
    has at most 10 MiB. *)
Theorem fetch_guarded (timeout : Z) (dialpol policy : urlFetchPolicy) (fuel : nat) (rawURL resource : string)
    (s : NetSt) :
  (4 <= fuel)%nat ->
  exists r s' new,
    fetchURLBytesWithPolicy fuel (Some (newURLFetchClient timeout [dialpol])) policy rawURL resource s = (Some r, s') /\
    ns_dialed s' = ns_dialed s ++ new /\ Forall (dial_allowed dialpol) new /\ (length new <= 4)%nat /\
    forall body, r = Ok body -> (Z.of_nat (String.length body) <= 10485760)%Z.
Proof.
  intros Hfuel. unfold fetchURLBytesWithPolicy, newURLFetchClient. cbn [from_option hc_Timeout hc_DialContext hc_CheckRedirect id].
  assert (forall (e : error) s0, ns_dialed s0 = ns_dialed s -> exists (r : res string) s' new,
    (Some (Err e), s0) = (Some r, s') /\ ns_dialed s' = ns_dialed s ++ new /\ Forall (dial_allowed dialpol) new /\
    (length new <= 4)%nat /\ forall body, r = Ok body -> (Z.of_nat (String.length body) <= 10485760)%Z) as Hstop.
  { intros e s0 Hs0. exists (Err e), s0, []. rewrite Hs0, app_nil_r. split_and!; try done. simpl. lia. }
  destruct (url_Parse rawURL) as [target|e]; [|by apply Hstop].
  destruct (validateURLFetchTarget target policy s) as [r0 s0] eqn:Hv. apply validate_target_dials in Hv.
  destruct r0; [|by apply Hstop]. destruct (url_Reparse target) as [req|e]; [|by apply Hstop].
  destruct (client_do _ _ _ _ _) as [r1 s1] eqn:Hdo.
  apply client_do_dials in Hdo as (new & Hd & Hok & Hlen & Hf); [|simpl; lia].
  simpl in Hlen, Hf. destruct r1 as [[resp|e]|]; [| |by destruct Hf; [lia|]].
  - exists (fetch_response resource resp), s1, new. rewrite Hd, Hv. split_and!; try done; [lia|].
    apply fetch_response_bound.
  - eexists _, s1, new. rewrite Hd, Hv. split_and!; try done. lia.
Qed.

(** An address with a zone escapes the comparisons of the guard: a URL whose host
    is [::%lo] is admitted although [::] is refused, and where private networks are
    allowed the IPv6 metadata address is admitted once it carries a zone.  Blocks that
    are neither private nor public (shared address space, the NAT64 form of the IPv4
    metadata address) are admitted too. *)
Theorem guard_gaps (s : NetSt) :
  resolveURLFetchHost "::%lo" policy_zero s = (Ok [V6 0 "lo"], s) /\
  is_ok (fst (resolveURLFetchHost "::" policy_zero s)) = false /\
  resolveURLFetchHost "fd00:ec2::254%eth0" (mkPolicy true None) s =
    (Ok [V6 336294982257581694735330614659971547732 "eth0"], s) /\
  is_ok (fst (resolveURLFetchHost "fd00:ec2::254" (mkPolicy true None) s)) = false /\
  resolveURLFetchHost "100.100.100.200" policy_zero s = (Ok [V4 1684301000], s) /\
  resolveURLFetchHost "64:ff9b::a9fe:a9fe" policy_zero s =
    (Ok [V6 524413980667603649783483184164284926 ""], s).
Proof. split_and!; vm_compute; reflexivity. Qed.
End Fetch.

(** A name that resolves to a public address when it is checked and to loopback when
    it is dialed; [203.0.113.7] answers every request with a redirect to itself. *)
Definition rebinding_net : Net nat := {|
  net_LookupIPAddr host n :=
    (Ok [if bool_decide (host = "evil.example") && Nat.odd n
         then String.string_of_list_ascii (map Ascii.ascii_of_nat [127; 0; 0; 1]%nat)
         else String.string_of_list_ascii (map Ascii.ascii_of_nat [203; 0; 113; 7]%nat)], S n);
  net_Exchange a port u n := (Ok (mkHTTPResponse 302 "/again" 0 "" "" None), n);
  url_Parse s := Ok (mkURL "https" false s "");
  url_Reparse u := Ok u;
  url_Resolve u loc := Ok u;
  url_DialAddress u := u_Hostname u;
  net_SplitHostPort a := Ok (a, "443");
  addr_String a := "";
  fmt_Quote s := s;
  fmt_Int z := "" |}.

Lemma fetch_guarded_witness :
  (exists r s', @fetchURLBytesWithPolicy nat rebinding_net 4 (Some (@newURLFetchClient nat rebinding_net 0 [policy_zero]))
      policy_zero "evil.example" "image" (mkNetSt 0%nat []) = (Some r, s') /\ ns_dialed s' = []) /\
  (exists r s' new, @fetchURLBytesWithPolicy nat rebinding_net 4 (Some (@newURLFetchClient nat rebinding_net 0 [policy_zero]))
      policy_zero "loop.example" "image" (mkNetSt 0%nat []) = (Some r, s') /\ ns_dialed s' = new /\ length new = 4%nat /\
      (length new <= 4)%nat).
Proof.
  split; [eexists _, _; split; vm_compute; reflexivity|].
  destruct (@fetch_guarded nat rebinding_net 0 policy_zero policy_zero 4 "loop.example" "image" (mkNetSt 0%nat []))
    as (r & s' & new & Heq & Hd & _ & Hlen & _); [lia|].
  exists r, s', new. split; [exact Heq|]. split; [exact Hd|]. split; [|exact Hlen].
  assert (exists r0, @fetchURLBytesWithPolicy nat rebinding_net 4 (Some (@newURLFetchClient nat rebinding_net 0 [policy_zero]))
      policy_zero "loop.example" "image" (mkNetSt 0%nat []) =
      (r0, mkNetSt 8%nat [V4 3405803783; V4 3405803783; V4 3405803783; V4 3405803783])) as [r0 Hrun]
    by (eexists; vm_compute; reflexivity).
  rewrite Hrun in Heq. injection Heq as _ <-. simpl in Hd. by rewrite <- Hd.
Defined.
