(* ===== verification/WebFetch.v ===== *)
(** The web fetch tool (agent/tool/webfetch/webfetch.go): its options and client, the
    guard on URLs, the page it returns. *)
From Stdlib Require Import Ascii.
From S2P Require Import Prelude Errors Messages NetAddr UrlFetch TextScrub.

Section WebFetch.
Context {W : Type} `{Net W}.

(* agent/tool/webfetch/webfetch.go:44: Formatter *)
Definition Formatter : Type := string -> res string.

(* agent/tool/webfetch/webfetch.go:46-53: config *)
Record fetchConfig := mkFetchConfig {
  fc_timeout : Z; fc_maxBytes : Z; fc_maxRedirects : Z; fc_maxChars : Z;
  fc_client : option (@HttpClient W); fc_formatter : option Formatter }.

#[global] Instance eta_fetchConfig : Settable fetchConfig := fun c =>
  mkFetchConfig (fc_timeout c) (fc_maxBytes c) (fc_maxRedirects c) (fc_maxChars c) (fc_client c) (fc_formatter c).

(* agent/tool/webfetch/webfetch.go:39: Option *)
Definition FetchOption : Type := fetchConfig -> fetchConfig.
(* agent/tool/webfetch/webfetch.go: WithTimeout *)
Definition WithTimeout (d : Z) : FetchOption := fun c => c <| fc_timeout := d |>.
(* agent/tool/webfetch/webfetch.go: WithMaxBytes *)
Definition WithMaxBytes (n : Z) : FetchOption := fun c => c <| fc_maxBytes := n |>.
(* agent/tool/webfetch/webfetch.go: WithMaxRedirects *)
Definition WithMaxRedirects (n : Z) : FetchOption := fun c => c <| fc_maxRedirects := n |>.
(* agent/tool/webfetch/webfetch.go: WithMaxChars *)
Definition WithMaxChars (n : Z) : FetchOption := fun c => c <| fc_maxChars := n |>.
(* agent/tool/webfetch/webfetch.go: WithClient *)
Definition WithClient (client : HttpClient) : FetchOption := fun c => c <| fc_client := Some client |>.
(* agent/tool/webfetch/webfetch.go: WithFormatter *)
Definition WithFormatter (f : Formatter) : FetchOption := fun c => c <| fc_formatter := Some f |>.

(* agent/tool/webfetch/webfetch.go:31-36: defaults *)
Definition fetchConfig_default : fetchConfig := mkFetchConfig 15000000000 32768 3 4000 None None.

(** net.Dialer of the default transport: an address literal, or the first address of
    the name; nothing is checked. *)
Definition plainDial : Dialer := fun address s =>
  match net_SplitHostPort address with
  | Err e => (Err e, s)
  | Ok (host, port) =>
      match ParseAddr host with
      | Some a => (Ok (a, port), mkNetSt (ns_world s) (ns_dialed s ++ [a]))
      | None =>
          match lookup_with net_LookupIPAddr host s with
          | (Err e, s) => (Err e, s)
          | (Ok [], s) => (Err (ENew "no such host"), s)
          | (Ok (ip :: _), s) =>
              match AddrFromSlice ip with
              | Some a => (Ok (a, port), mkNetSt (ns_world s) (ns_dialed s ++ [a]))
              | None => (Err (ENew "no such host"), s)
              end
          end
      end
  end.

(* agent/tool/webfetch/webfetch.go:110-115: CheckRedirect of New *)
Definition webCheckRedirect (maxRedirects : Z) : @RedirectCheck W := fun _ via s =>
  (if (maxRedirects <=? Z.of_nat (length via))%Z
   then Err (ENew ("stopped after " +:+ fmt_Int maxRedirects +:+ " redirects")) else Ok tt, s).

(* agent/tool/webfetch/webfetch.go:105-117: the client of New *)
Definition web_client (cfg : fetchConfig) : @HttpClient W :=
  match fc_client cfg with
  | Some client => client
  | None => mkHttpClient (fc_timeout cfg) plainDial (Some (webCheckRedirect (fc_maxRedirects cfg)))
  end.

(** strings.Index and slicing on the results. *)
Definition after_index (sub : string) (host : string) : string :=
  match String.index 0 sub host with
  | Some i => String.substring (i + String.length sub) (String.length host) host
  | None => host
  end.
Definition before_index (sub : string) (host : string) : string :=
  match String.index 0 sub host with Some i => String.substring 0 i host | None => host end.

(* agent/tool/webfetch/webfetch.go: isPrivateURL *)
Definition isPrivateURL (rawURL : string) : bool :=
  let host := before_index ":" (before_index "/" (after_index "://" rawURL)) in
  match ParseIP host with
  | None => false
  | Some ip => IsLoopback ip || IsPrivate ip || IsLinkLocalUnicast ip || IsLinkLocalMulticast ip
  end.

Definition contains (sub s : string) : bool := bool_decide (String.index 0 sub s <> None).

(* agent/tool/webfetch/webfetch.go: isTextContent *)
Definition isTextContent (ct : string) : bool :=
  if bool_decide (ct = "") then true
  else let ct := ToLower ct in
    existsb (fun prefix => contains prefix ct) ["text/"; "application/json"; "application/xml"; "application/xhtml"].

(** [s[:n]], which panics for a negative [n]. *)
Definition slice_to (s : string) (n : Z) : res string :=
  if (n <? 0)%Z then Err (ENew "panic: slice bounds out of range") else Ok (String.substring 0 (Z.to_nat n) s).
Definition slen (s : string) : Z := Z.of_nat (String.length s).

(** What follows client.Do: status, content type, reading, formatting, cutting. *)
(* agent/tool/webfetch/webfetch.go:189-226: response of fetchPage *)
Definition page_text (resp : Response) (maxBytes maxChars : Z) (format : Formatter) : res string :=
  if negb (rs_StatusCode resp =? 200)%Z then
    Err (ENew ("fetch returned HTTP " +:+ fmt_Int (rs_StatusCode resp)))
  else if negb (isTextContent (rs_ContentType resp)) then
    Err (ENew ("non-text content type: " +:+ rs_ContentType resp))
  else match read_limited (i64 (maxBytes + 1)) resp with
       | Err e => Err (EWrap "read body" e)
       | Ok body =>
           let cut := (maxBytes <? slen body)%Z in
           letr body := (if cut then slice_to body maxBytes else Ok body) in
           match format body with
           | Err e => Err (EWrap "format content" e)
           | Ok text =>
               let cut2 := (maxChars <? slen text)%Z in
               letr text := (if cut2 then slice_to text maxChars else Ok text) in
               Ok (if cut || cut2 then text +:+ newline +:+ newline +:+ "[truncated]" else text)
           end
       end.

(* agent/tool/webfetch/webfetch.go: fetchPage *)
Definition fetchPage (fuel : nat) (client : @HttpClient W) (pageURL : string) (maxBytes maxChars : Z)
    (format : Formatter) (s : NetSt) : option (res string) * NetSt :=
  if bool_decide (pageURL = "") then (Some (Err (ENew "url is required")), s)
  else if negb (String.prefix "http://" pageURL) && negb (String.prefix "https://" pageURL) then
    (Some (Err (ENew ("unsupported scheme in URL " +:+ fmt_Quote pageURL +:+ ": only http and https are allowed"))), s)
  else if isPrivateURL pageURL then
    (Some (Err (ENew ("URL " +:+ fmt_Quote pageURL +:+ " resolves to a private or loopback address"))), s)
  else match url_Parse pageURL with
       | Err e => (Some (Err (EWrap "create request" e)), s)
       | Ok req =>
           match client_do fuel client req [] s with
           | (None, s) => (None, s)
           | (Some (Err e), s) => (Some (Err (EWrap "fetch" e)), s)
           | (Some (Ok resp), s) => (Some (page_text resp maxBytes maxChars format), s)
           end
       end.

(** The handler of the tool on a decoded URL. *)
(* agent/tool/webfetch/webfetch.go:94-126: New *)
Definition web_fetch (fuel : nat) (opts : list FetchOption) (pageURL : string) (s : NetSt)
    : option (res string) * NetSt :=
  let cfg := fold_left (fun c o => o c) opts fetchConfig_default in
  fetchPage fuel (web_client cfg) pageURL (fc_maxBytes cfg) (fc_maxChars cfg)
    (default (fun html => Ok (defaultFormatter html)) (fc_formatter cfg)) s.

(** * What the limits give *)

Lemma slice_to_length s n t : slice_to s n = Ok t -> (0 <= n)%Z /\ (slen t <= n)%Z.
Proof.
  unfold slice_to, slen. destruct (Z.ltb_spec n 0); [done|]. intros [= <-]. split; [done|].
  pose proof (substring_length (Z.to_nat n) s). lia.
Qed.

Lemma slen_app a b : slen (a +:+ b) = (slen a + slen b)%Z.
Proof.
  unfold slen. rewrite <- Nat2Z.inj_add. f_equal. induction a as [|c a IH]; [done|].
  change (String c a +:+ b) with (String c (a +:+ b)). simpl. by rewrite IH.
Qed.

Lemma page_text_bound resp maxBytes maxChars format text :
  page_text resp maxBytes maxChars format = Ok text -> (0 <= maxChars)%Z -> (slen text <= maxChars + 13)%Z.
Proof.
  unfold page_text. do 2 (case_match; [done|]). destruct (read_limited _ _) as [body|]; [|done]. cbv zeta.
  intros [body' [_ Hfmt]]%res_bind_ok Hmax. destruct (format body') as [t|]; [|done].
  apply res_bind_ok in Hfmt as (t' & Ht' & [= <-]).
  assert (slen t' <= maxChars)%Z as Hle.
  { destruct (Z.ltb_spec maxChars (slen t)); [by apply slice_to_length in Ht' as [_ ?]|]. by injection Ht' as <-. }
  destruct (_ || _); [|lia]. rewrite !slen_app. unfold slen at 2 3 4. simpl. lia.
Qed.

(** The default client: one request and one more for every redirect it accepts. *)
Lemma web_client_requests timeout dial n fuel : forall u via s r s',
  (Z.of_nat (length via) < Z.max 1 n)%Z ->
  client_do fuel (mkHttpClient timeout dial (Some (webCheckRedirect n))) u via s = (r, s') ->
  (Z.max 1 n <= Z.of_nat (fuel + length via))%Z -> r <> None.
Proof.
  induction fuel as [|fuel IH]; intros u via s r s' Hvia; cbn [client_do]; [lia|].
  destruct (client_send _ u s) as [[resp|e] s1]; [|by intros [= <- <-]].
  destruct (_ && _); [|by intros [= <- <-]]. destruct (url_Resolve _ _) as [u'|e]; [|by intros [= <- <-]].
  cbn [hc_CheckRedirect from_option]. unfold id, webCheckRedirect at 1.
  destruct (Z.leb_spec n (Z.of_nat (length (via ++ [u])))) as [Hle|Hgt]; [by intros [= <- <-]|].
  intros Hdo Hfuel. refine (IH _ _ _ _ _ _ Hdo _).
  - lia.
  - rewrite length_app. simpl. lia.
Qed.

(** A fetch with the tool's own client always comes to an end, whatever servers
    answer: with [WithMaxRedirects n] it makes at most [n] requests (and at least one),
    and a page it returns has at most [maxChars] bytes and the truncation mark. *)
Theorem web_fetch_bounded (opts : list FetchOption) (pageURL : string) (s : NetSt) :
  let cfg := fold_left (fun c o => o c) opts fetchConfig_default in
  fc_client cfg = None -> (0 <= fc_maxChars cfg)%Z ->
  exists r s', web_fetch (Z.to_nat (Z.max 1 (fc_maxRedirects cfg))) opts pageURL s = (Some r, s') /\
    forall text, r = Ok text -> (slen text <= fc_maxChars cfg + 13)%Z.
Proof.
  cbv zeta. set (cfg := fold_left (fun c o => o c) opts fetchConfig_default). intros Hclient Hmax. unfold web_fetch. fold cfg. cbv zeta.
  unfold fetchPage, web_client. rewrite Hclient.
  do 3 (case_match; [eexists _, _; split; [reflexivity | discriminate]|]).
  destruct (url_Parse pageURL) as [req|e]; [|eexists _, _; split; [reflexivity | discriminate]].
  destruct (client_do _ _ _ _ _) as [r1 s1] eqn:Hdo.
  apply web_client_requests in Hdo; [| simpl; lia | simpl; lia].
  destruct r1 as [[resp|e]|]; [| |done]; eexists _, s1; (split; [reflexivity|]); [|discriminate].
  intros text Ht. eapply page_text_bound; eassumption.
Qed.
End WebFetch.

(** A small network: [a.example] answers with a redirect to [http://127.0.0.1/], which
    serves a page. *)
Definition page_net : Net unit := {|
  net_LookupIPAddr _ w := (Ok [String.string_of_list_ascii (map ascii_of_nat [203; 0; 113; 7]%nat)], w);
  net_Exchange a port u w :=
    (Ok (if IsLoopback a then mkHTTPResponse 200 "" 6 "text/html" "<b>secret</b>" None
         else mkHTTPResponse 302 "http://127.0.0.1/" 0 "" "" None), w);
  url_Parse s := Ok (mkURL "http" false (before_index "/" (after_index "://" s)) "");
  url_Reparse u := Ok u;
  url_Resolve u loc := Ok (mkURL "http" false (before_index "/" (after_index "://" loc)) "");
  url_DialAddress u := u_Hostname u;
  net_SplitHostPort a := Ok (a, "80");
  addr_String a := "";
  fmt_Quote s := s;
  fmt_Int z := "" |}.

(** The hypotheses of the bound hold of the tool with its default options. *)
Lemma web_fetch_bounded_witness :
  exists r s', @web_fetch unit page_net 3 [] "http://a.example/" (mkNetSt tt []) = (Some r, s') /\
    forall text, r = Ok text -> (slen text <= 4013)%Z.
Proof. apply (@web_fetch_bounded unit page_net [] "http://a.example/" (mkNetSt tt [])); [done|]. vm_compute. discriminate. Defined.

(** The guard of the tool looks at address literals of the first URL only: a
    bracketed IPv6 literal, a literal behind user information or before a query, and
    the unspecified address pass it, and a redirect to loopback is followed, so a page
    on the local machine is returned. *)
Theorem web_guard_gaps :
  isPrivateURL "http://127.0.0.1/" = true /\
  map isPrivateURL ["http://[::1]/"; "http://user@127.0.0.1/"; "http://127.0.0.1?q"; "http://0.0.0.0/"] =
    [false; false; false; false] /\
  @web_fetch unit page_net 3 [] "http://a.example/" (mkNetSt tt []) =
    (Some (Ok "secret"), mkNetSt tt [V4 3405803783; V4 2130706433]).
Proof. split_and!; vm_compute; reflexivity. Qed.

(** [WithMaxRedirects n] follows [n - 1] redirects: with [n = 1] a page behind a
    single redirect is refused, with [n = 2] it is fetched. *)
Theorem web_redirects_off_by_one :
  (exists e s', @web_fetch unit page_net 3 [WithMaxRedirects 1] "http://a.example/" (mkNetSt tt []) = (Some (Err e), s')) /\
  (exists t s', @web_fetch unit page_net 3 [WithMaxRedirects 2] "http://a.example/" (mkNetSt tt []) = (Some (Ok t), s')).
Proof. split; eexists _, _; vm_compute; reflexivity. Qed.
