(* ===== verification/Providers.v ===== *)
(** What the model providers share (agent/provider/defaults.go): thinking budgets, the
    capability catalog with its options, and a reference for streamed responses: the
    blocks a model produces and the response they amount to. *)
From S2P Require Import Prelude Errors Messages Execution Schema Tool Inference State Structured.

(** [int32(z)] *)
Definition i32 (z : Z) : Z := ((z + 2147483648) mod 4294967296 - 2147483648)%Z.

Lemma i32_small z : (-2147483648 <= z < 2147483648)%Z -> i32 z = z.
Proof. intros Hz. unfold i32. rewrite Z.mod_small; lia. Qed.

#[global] Instance eta_ModelResponse : Settable ModelResponse := fun r =>
  mkResponse (mr_Text r) (mr_ToolCalls r) (mr_Usage r) (mr_Metadata r).
#[global] Instance eta_TokenUsage : Settable TokenUsage := fun u =>
  mkTokenUsage (u_Input u) (u_Output u) (u_CacheRead u) (u_CacheWrite u).
#[global] Instance eta_ModelCapabilities : Settable ModelCapabilities := fun c =>
  mkCapabilities (mc_ContextWindowTokens c) (mc_MaxOutputTokens c) (mc_ToolUse c) (mc_ChoiceAuto c)
    (mc_ChoiceRequired c) (mc_ChoiceSpecific c) (mc_NativeStructuredOutput c).

Definition response_zero : ModelResponse := mkResponse "" [] usage_zero None.

(** * Thinking *)

(* agent/provider/defaults.go:9: ThinkingOutputHeadroom *)
Definition ThinkingOutputHeadroom : Z := 8192.

(* agent/provider/defaults.go:20-31: ThinkingEffort *)
Definition ThinkingEffort : Type := string.

(* agent/provider/defaults.go:36-41: ThinkingBudgets *)
Definition ThinkingBudgets : list (ThinkingEffort * Z) :=
  [("minimal", 1024); ("low", 2048); ("medium", 8192); ("high", 16384)]%Z.

(** A map of a catalog is a list of entries with different keys; a missing key of a
    map of integers reads as 0. *)
Fixpoint assoc {A} (k : string) (xs : list (string * A)) : option A :=
  match xs with [] => None | (k', v) :: xs => if bool_decide (k' = k) then Some v else assoc k xs end.
Definition thinking_budget (effort : ThinkingEffort) : Z := default 0%Z (assoc effort ThinkingBudgets).

Lemma thinking_budget_range effort : (0 <= thinking_budget effort <= 16384)%Z.
Proof. unfold thinking_budget, ThinkingBudgets. simpl. repeat case_bool_decide; simpl; lia. Qed.

Lemma assoc_elem {A} k (xs : list (string * A)) v : assoc k xs = Some v -> (k, v) ∈ xs.
Proof.
  induction xs as [|[k' v'] xs IH]; simpl; [done|]. case_bool_decide as Hk; [|set_solver].
  subst. intros [= ->]. set_solver.
Qed.

Lemma assoc_none {A} k (xs : list (string * A)) : k ∉ map fst xs -> assoc k xs = None.
Proof.
  induction xs as [|[k' v'] xs IH]; simpl; [done|]. rewrite not_elem_of_cons. intros [Hk Hxs].
  rewrite bool_decide_false by congruence. auto.
Qed.

(** * Capabilities from options

    The three adapters have the same capability options; an option is a function on the
    options value, applied in order after the catalog defaults. *)
Definition cap_tokens (tokens : Z) : Z := if (0 <? tokens)%Z then tokens else 0%Z.

Definition baseline_caps : ModelCapabilities :=
  capabilities_zero <| mc_NativeStructuredOutput := Unsupported_ |>.

(** The decoded input of a tool call; an empty object when it is missing or broken. *)
Definition decoded_input `{JSONLib} (input : RawMessage) : GoAny :=
  if bool_decide (0 < raw_len input)%nat then default (AObj []) (json_decode (default "" input)) else AObj [].

(** * Streamed responses

    The blocks of a model's message, with the pieces each is streamed in. *)
Inductive SBlock : Type :=
| SText (pieces : list string)
| STool (id name : string) (pieces : list string)
| SThinking (pieces : list string).

(** Go's [+=] over the pieces. *)
Definition pieces_text (pieces : list string) : string := fold_right (fun a b => a +:+ b) "" pieces.

Lemma str_app_assoc (a b c : string) : (a +:+ b) +:+ c = a +:+ (b +:+ c).
Proof.
  induction a as [|x a IH]; [done|].
  change (String x ((a +:+ b) +:+ c) = String x (a +:+ (b +:+ c))). by rewrite IH.
Qed.

Lemma str_app_nil (a : string) : a +:+ "" = a.
Proof. induction a as [|x a IH]; [done|]. change (String x (a +:+ "") = String x a). by rewrite IH. Qed.

Lemma pieces_text_app a b : pieces_text (a ++ b) = pieces_text a +:+ pieces_text b.
Proof.
  unfold pieces_text. induction a as [|x a IH]; [done|]. simpl. by rewrite IH, str_app_assoc.
Qed.

(** [json.RawMessage(s)], or an empty object where [s] is empty. *)
Definition input_or_empty (s : string) : RawMessage := if bool_decide (s = "") then Some "{}" else Some s.

Definition blocks_text (bs : list SBlock) : string :=
  pieces_text (concat (map (fun b => match b with SText ps => ps | _ => [] end) bs)).
Definition blocks_calls (bs : list SBlock) : list Call :=
  omap (fun b => match b with
                 | STool id name ps => Some (mkCall id name (Some (if bool_decide (pieces_text ps = "") then "{}" else pieces_text ps)))
                 | _ => None end) bs.
Definition blocks_events (bs : list SBlock) : list ModelEvent :=
  concat (map (fun b => match b with
                        | SText ps => map ModelEventText ps
                        | SThinking ps => map ModelEventThinking ps
                        | STool _ _ _ => [] end) bs).
Definition blocks_thinking (bs : list SBlock) : list string :=
  omap (fun b => match b with SThinking ps => Some (pieces_text ps) | _ => None end) bs.

(** The name of a tool is never empty. *)
Definition named (b : SBlock) : Prop := match b with STool _ name _ => name <> "" | _ => True end.

(** [resp.Metadata["thinking"]]: [existing + text]. *)
Definition metadata_thinking (md : option GoAny) : string :=
  match md with
  | Some (AObj fields) => match field "thinking" fields with Some (AStr s) => s | _ => "" end
  | _ => ""
  end.
Definition add_thinking (text : string) (r : ModelResponse) : ModelResponse :=
  r <| mr_Metadata := Some (AObj [("thinking", AStr (metadata_thinking (mr_Metadata r) +:+ text))]) |>.

(** A closed tool block as a call, appended. *)
Definition add_call (id name input : string) (r : ModelResponse) : ModelResponse :=
  r <| mr_ToolCalls := mr_ToolCalls r ++ [mkCall id name (input_or_empty input)] |>.
Definition add_text (text : string) (r : ModelResponse) : ModelResponse :=
  r <| mr_Text := mr_Text r +:+ text |>.

(** The response of a sequence of blocks, block by block: the reference for the
    providers' event loops.  [keep_empty] tells whether an empty thinking block leaves
    a trace in the metadata. *)
Definition block_response (keep_empty : bool) (r : ModelResponse) (b : SBlock) : ModelResponse :=
  match b with
  | SText ps => add_text (pieces_text ps) r
  | STool id name ps => add_call id name (pieces_text ps) r
  | SThinking ps => if keep_empty || bool_decide (pieces_text ps <> "") then add_thinking (pieces_text ps) r else r
  end.
Definition blocks_response (keep_empty : bool) (bs : list SBlock) : ModelResponse :=
  fold_left (block_response keep_empty) bs response_zero.

Lemma fold_response_text keep bs r :
  mr_Text (fold_left (block_response keep) bs r) = mr_Text r +:+ blocks_text bs /\
  mr_ToolCalls (fold_left (block_response keep) bs r) = mr_ToolCalls r ++ blocks_calls bs /\
  mr_Usage (fold_left (block_response keep) bs r) = mr_Usage r.
Proof.
  revert r. induction bs as [|b bs IH]; intros r; simpl.
  - unfold blocks_text. simpl. by rewrite str_app_nil, app_nil_r.
  - destruct (IH (block_response keep r b)) as (-> & -> & ->).
    unfold blocks_text. simpl. rewrite pieces_text_app.
    destruct b as [ps|id name ps|ps]; simpl.
    + by rewrite str_app_assoc.
    + rewrite <- app_assoc. unfold input_or_empty. by case_bool_decide.
    + by destruct (keep || _).
Qed.

Lemma fold_response_metadata keep bs r1 r2 :
  mr_Metadata r1 = mr_Metadata r2 ->
  mr_Metadata (fold_left (block_response keep) bs r1) = mr_Metadata (fold_left (block_response keep) bs r2).
Proof.
  revert r1 r2. induction bs as [|b bs IH]; intros r1 r2 Hr; simpl; [done|]. apply IH.
  destruct b; simpl; [done | done|]. case_match; simpl; by rewrite ?Hr.
Qed.

(** The thinking of a message, in the metadata when there is any: all of it, in order. *)
Definition blocks_metadata (bs : list SBlock) : option GoAny :=
  if is_nil (blocks_thinking bs) then None else Some (AObj [("thinking", AStr (pieces_text (blocks_thinking bs)))]).

Lemma fold_response_thinking bs r :
  mr_Metadata (fold_left (block_response true) bs r) =
  if is_nil (blocks_thinking bs) then mr_Metadata r
  else Some (AObj [("thinking", AStr (metadata_thinking (mr_Metadata r) +:+ pieces_text (blocks_thinking bs)))]).
Proof.
  revert r. induction bs as [|b bs IH]; intros r; [done|]. cbn [fold_left]. rewrite IH. destruct b as [ps|id name ps|ps]; [done|done|].
  change (blocks_thinking (SThinking ps :: bs)) with (pieces_text ps :: blocks_thinking bs). cbn [is_nil block_response orb add_thinking mr_Metadata set_field].
  destruct (blocks_thinking bs) as [|t ts]; cbn [is_nil].
  - unfold pieces_text at 2. cbn [fold_right]. by rewrite str_app_nil.
  - do 4 f_equal. change (metadata_thinking (Some (AObj [("thinking", AStr ?x)]))) with x. cbn [pieces_text fold_right]. by rewrite str_app_assoc.
Qed.

Lemma blocks_response_metadata bs : mr_Metadata (blocks_response true bs) = blocks_metadata bs.
Proof. apply fold_response_thinking. Qed.

(** The response is the concatenated text and the calls in order, however the model's
    message was cut into pieces. *)
Theorem blocks_response_parts keep bs :
  mr_Text (blocks_response keep bs) = blocks_text bs /\
  mr_ToolCalls (blocks_response keep bs) = blocks_calls bs.
Proof. unfold blocks_response. destruct (fold_response_text keep bs response_zero) as (-> & -> & _). done. Qed.

(** A JSON library for concrete runs: nothing decodes. *)
Definition plain_json : JSONLib := {|
  json_decode _ := None; json_Valid _ := true; sprint _ := ""; reint_wide m e := (m, e) |}.

(** Text, two pieces of a tool's input, thinking. *)
Definition sample_blocks : list SBlock :=
  [SThinking ["hm"]; SText ["Hel"; "lo"]; STool "t1" "search" ["[1,"; "2]"]; STool "t2" "now" []].
