(* ===== verification/Anthropic.v ===== *)
(** The Anthropic provider (agent/provider/anthropic/anthropic.go, models.go and
    estimator.go): options and catalog, request parameters, message conversion and the
    event loop of a streamed response.  The parameter types of the SDK are records and
    inductive types with the fields the adapter sets. *)
From S2P Require Import Prelude Errors Messages Execution Schema Tool Inference State.
From S2P Require Import Structured Base64 Providers.

(** * Options, catalog, construction *)

(* agent/provider/anthropic/anthropic.go:21-29: AnthropicProvider *)
Record AnthropicProvider := mkAnthropic {
  ap_model : string; ap_maxTokens : option Z; ap_thinkingEffort : ThinkingEffort; ap_thinkingBudget : Z;
  ap_cachingEnabled : bool; ap_capabilities : ModelCapabilities }.

(* agent/provider/anthropic/anthropic.go:34-41: options *)
Record a_options := mkAOptions {
  ao_apiKey : string; ao_maxTokens : option Z; ao_thinkingEffort : ThinkingEffort; ao_thinkingBudget : Z;
  ao_cachingEnabled : bool; ao_capabilities : ModelCapabilities }.

#[global] Instance eta_a_options : Settable a_options := fun o =>
  mkAOptions (ao_apiKey o) (ao_maxTokens o) (ao_thinkingEffort o) (ao_thinkingBudget o) (ao_cachingEnabled o)
    (ao_capabilities o).

(* agent/provider/anthropic/anthropic.go:32: Option *)
Definition AOption : Type := a_options -> a_options.
Definition a_caps (f : ModelCapabilities -> ModelCapabilities) : AOption := fun o =>
  o <| ao_capabilities := f (ao_capabilities o) |>.

(* agent/provider/anthropic/anthropic.go: WithAPIKey *)
Definition WithAPIKey (key : string) : AOption := fun o => o <| ao_apiKey := key |>.
(* agent/provider/anthropic/anthropic.go: WithCapabilities *)
Definition WithCapabilities (c : ModelCapabilities) : AOption := a_caps (fun b => MergeModelCapabilities b c).
(* agent/provider/anthropic/anthropic.go: WithContextWindowTokens *)
Definition WithContextWindowTokens (n : Z) : AOption := a_caps (fun b => b <| mc_ContextWindowTokens := cap_tokens n |>).
(* agent/provider/anthropic/anthropic.go: WithMaxOutputTokens *)
Definition WithMaxOutputTokens (n : Z) : AOption := a_caps (fun b => b <| mc_MaxOutputTokens := cap_tokens n |>).
(* agent/provider/anthropic/anthropic.go: WithToolUse *)
Definition WithToolUse (c : Capability) : AOption := a_caps (fun b => b <| mc_ToolUse := c |>).
(* agent/provider/anthropic/anthropic.go: WithToolChoice *)
Definition WithToolChoice (auto required specific : Capability) : AOption :=
  a_caps (fun b => MergeModelCapabilities b (mkCapabilities 0 0 Unknown auto required specific Unknown)).
(* agent/provider/anthropic/anthropic.go: WithToolChoiceAuto *)
Definition WithToolChoiceAuto (c : Capability) : AOption := a_caps (fun b => b <| mc_ChoiceAuto := c |>).
(* agent/provider/anthropic/anthropic.go: WithToolChoiceRequired *)
Definition WithToolChoiceRequired (c : Capability) : AOption := a_caps (fun b => b <| mc_ChoiceRequired := c |>).
(* agent/provider/anthropic/anthropic.go: WithToolChoiceSpecific *)
Definition WithToolChoiceSpecific (c : Capability) : AOption := a_caps (fun b => b <| mc_ChoiceSpecific := c |>).
(* agent/provider/anthropic/anthropic.go: WithNativeStructuredOutput *)
Definition WithNativeStructuredOutput (c : Capability) : AOption :=
  a_caps (fun b => b <| mc_NativeStructuredOutput := c |>).
(* agent/provider/anthropic/anthropic.go: WithMaxTokens *)
Definition WithMaxTokens (n : Z) : AOption := fun o => o <| ao_maxTokens := Some n |>.
(* agent/provider/anthropic/anthropic.go: WithThinking *)
Definition WithThinking (effort : ThinkingEffort) : AOption := fun o => o <| ao_thinkingEffort := effort |>.
(* agent/provider/anthropic/anthropic.go: WithThinkingBudget *)
Definition WithThinkingBudget (tokens : Z) : AOption := fun o => o <| ao_thinkingBudget := tokens |>.
(* agent/provider/anthropic/anthropic.go: WithPromptCaching *)
Definition WithPromptCaching : AOption := fun o => o <| ao_cachingEnabled := true |>.

(* agent/provider/anthropic/anthropic.go: baselineCapabilities *)
Definition baselineCapabilities : ModelCapabilities := baseline_caps.

Definition a_limits (window output : Z) : ModelCapabilities :=
  mkCapabilities window output Unknown Unknown Unknown Unknown Unknown.

(* agent/provider/anthropic/models.go:40-49: claude55Capabilities *)
Definition claude55Capabilities : ModelCapabilities :=
  mkCapabilities 1000000 128000 Supported Supported Unsupported_ Unsupported_ Unknown.

(* agent/provider/anthropic/models.go:23-36: catalog *)
Definition catalog : list (string * ModelCapabilities) :=
  [("claude-haiku-4-5", a_limits 200000 64000); ("claude-sonnet-4-5", a_limits 200000 64000);
   ("claude-sonnet-4-6", a_limits 1000000 128000); ("claude-sonnet-5", a_limits 1000000 128000);
   ("claude-opus-4-5", a_limits 200000 64000); ("claude-opus-4-6", a_limits 1000000 128000);
   ("claude-opus-4-7", a_limits 1000000 128000); ("claude-opus-4-8", a_limits 1000000 128000);
   ("claude-opus-5", a_limits 1000000 128000); ("claude-fable-5", a_limits 1000000 128000);
   ("claude-opus-5-5", claude55Capabilities); ("claude-sonnet-5-5", claude55Capabilities)].

(* agent/provider/anthropic/anthropic.go: New *)
Definition New (model : string) (opts : list AOption) : AnthropicProvider :=
  let caps := match assoc model catalog with
              | Some profile => MergeModelCapabilities baselineCapabilities profile
              | None => baselineCapabilities
              end in
  let o := fold_left (fun o fn => fn o) opts (mkAOptions "" None "" 0 false caps) in
  mkAnthropic model (ao_maxTokens o) (ao_thinkingEffort o) (ao_thinkingBudget o) (ao_cachingEnabled o)
    (ao_capabilities o).

(* agent/provider/anthropic/models.go:53-84: named models *)
Definition named_models : list string :=
  ["claude-haiku-4-5"; "claude-sonnet-4-5"; "claude-sonnet-4-6"; "claude-sonnet-5"; "claude-opus-4-5";
   "claude-opus-4-6"; "claude-opus-4-7"; "claude-opus-4-8"; "claude-opus-5"; "claude-fable-5";
   "claude-opus-5-5"; "claude-sonnet-5-5"].

(* agent/provider/anthropic/anthropic.go: AnthropicProvider.Capabilities *)
Definition Capabilities (p : AnthropicProvider) : ModelCapabilities := ap_capabilities p.
(* agent/provider/anthropic/anthropic.go: AnthropicProvider.ModelID *)
Definition ModelID (p : AnthropicProvider) : string := ap_model p.

(** * Request parameters *)

Inductive AImageSource : Type := AImageURL (url : string) | AImageBase64 (media data : string).
Inductive ADocSource : Type := ADocFile (id : string) | ADocURL (url : string) | ADocBase64PDF (data : string).
Inductive AResultPart : Type := APartText (text : string) | APartImage (src : AImageSource).

(** ContentBlockParamUnion *)
Inductive AParam : Type :=
| AText (text : string)
| AToolUse (id : string) (input : GoAny) (name : string)
| AToolResult (id : string) (content : list AResultPart) (is_error : bool)
| AImage (src : AImageSource)
| ADocument (src : ADocSource) (cache : bool).

Record AMessage := mkAMessage { am_Role : string; am_Content : list AParam }.
Record ATool := mkATool {
  at_Name : string; at_Description : string; at_Properties : option GoAny; at_Required : list string }.
Inductive AChoice : Type := AChoiceAuto | AChoiceAny | AChoiceTool (name : string).

(** MessageNewParams: the system prompt with its cache mark. *)
Record AParams := mkAParams {
  pa_Model : string; pa_MaxTokens : Z; pa_Messages : list AMessage; pa_System : option (string * bool);
  pa_Tools : list ATool; pa_ToolChoice : option AChoice; pa_Thinking : option Z;
  pa_Temperature : option float64; pa_TopP : option float64; pa_TopK : option Z;
  pa_StopSequences : option (list string) }.

Section Anthropic.
Context `{JSONLib}.

(* agent/provider/anthropic/anthropic.go: toAnthropicToolChoice *)
Definition toAnthropicToolChoice (tc : Choice) : AChoice :=
  if bool_decide (ch_Mode tc = "auto") then AChoiceAuto
  else if bool_decide (ch_Mode tc = "any") then AChoiceAny
  else if bool_decide (ch_Mode tc = "tool") then AChoiceTool (ch_Name tc)
  else AChoiceAuto.

(* agent/provider/anthropic/anthropic.go: toAnthropicRole *)
Definition toAnthropicRole (r : string) : string := if bool_decide (r = RoleAssistant) then "assistant" else "user".

(* agent/provider/anthropic/anthropic.go: imageBytes *)
Definition imageBytes (src : ImageSource) : res string :=
  if bool_decide (0 < raw_len (is_Data src))%nat then Ok (default "" (is_Data src))
  else match DecodeString (is_Base64 src) with
       | Some b => Ok b
       | None => Err (EWrap "base64 decode" (ENew "illegal base64 data"))
       end.

(* agent/provider/anthropic/anthropic.go:453-480: an image of a tool result *)
Definition result_image (img : ImageSource) : AImageSource :=
  if bool_decide (is_URL img <> "") then AImageURL (is_URL img)
  else
    let encoded := if bool_decide (is_Base64 img <> "") then is_Base64 img
                   else if bool_decide (0 < raw_len (is_Data img))%nat then EncodeToString (default "" (is_Data img))
                   else "" in
    AImageBase64 (is_MIMEType img) encoded.

(* agent/provider/anthropic/anthropic.go: buildAnthropicToolResultParam *)
Definition buildAnthropicToolResultParam (v : ToolResultBlock) : AParam :=
  AToolResult (tr_ToolUseID v)
    (APartText (tr_Content v) :: map (fun img => APartImage (result_image img)) (tr_Images v)) (tr_IsError v).

(* agent/provider/anthropic/anthropic.go: buildAnthropicImageParam *)
Definition buildAnthropicImageParam (src : ImageSource) : option AImageSource :=
  if bool_decide (is_URL src <> "") then Some (AImageURL (is_URL src))
  else if bool_decide (is_Base64 src <> "") then Some (AImageBase64 (is_MIMEType src) (is_Base64 src))
  else match imageBytes src with
       | Err _ => None
       | Ok bytes => Some (AImageBase64 (is_MIMEType src) (EncodeToString bytes))
       end.

(* agent/provider/anthropic/anthropic.go: buildAnthropicDocParam *)
Definition buildAnthropicDocParam (src : DocumentSource) : option ADocSource :=
  if bool_decide (ds_FileID src <> "") then Some (ADocFile (ds_FileID src))
  else if bool_decide (ds_URL src <> "") then Some (ADocURL (ds_URL src))
  else if bool_decide (ds_Base64 src <> "") then Some (ADocBase64PDF (ds_Base64 src))
  else match imageBytes (mkImageSource (ds_Data src) "" "" "") with
       | Err _ => None
       | Ok bytes => Some (ADocBase64PDF (EncodeToString bytes))
       end.

Definition toAnthropicBlock (role : string) (caching : bool) (b : ContentBlock) : option AParam :=
  match b with
  | TextBlock t => Some (AText t)
  | ToolUseBlock v => Some (AToolUse (tu_ToolUseID v) (decoded_input (tu_Input v)) (tu_Name v))
  | ToolResultBlk v => Some (buildAnthropicToolResultParam v)
  | ImageBlock src =>
      if bool_decide (role = RoleAssistant) then None else option_map AImage (buildAnthropicImageParam src)
  | DocumentBlock src =>
      if bool_decide (role = RoleAssistant) then None
      else option_map (fun d => ADocument d caching) (buildAnthropicDocParam src)
  | WidgetBlock _ => None
  end.

(* agent/provider/anthropic/anthropic.go: toAnthropicContentBlocks *)
Definition toAnthropicContentBlocks (blocks : list ContentBlock) (role : string) (caching : bool) : list AParam :=
  omap (toAnthropicBlock role caching) blocks.

(* agent/provider/anthropic/anthropic.go: toAnthropicMessages *)
Definition toAnthropicMessages (msgs : list Message) (caching : bool) : list AMessage :=
  map (fun m => mkAMessage (toAnthropicRole (m_Role m)) (toAnthropicContentBlocks (m_Content m) (m_Role m) caching)) msgs.

(** [s.InputSchema[k]] on a map that may be nil. *)
Definition schema_field (k : string) (s : Spec) : option GoAny :=
  match sp_InputSchema s with Some (AObj fields) => field k fields | _ => None end.

(* agent/provider/anthropic/anthropic.go: toAnthropicTools *)
Definition toAnthropicTools (specs : list Spec) : list ATool :=
  map (fun s =>
    let required := match schema_field "required" s with
                    | Some (AStrs rs) => rs
                    | Some (AArr rs) => as_strings rs
                    | _ => []
                    end in
    mkATool (sp_Name s) (sp_Description s) (schema_field "properties" s) required) specs.

(* agent/provider/anthropic/anthropic.go: AnthropicProvider.resolveThinkingBudget *)
Definition resolveThinkingBudget (p : AnthropicProvider) : Z :=
  if (0 <? ap_thinkingBudget p)%Z then ap_thinkingBudget p
  else if bool_decide (ap_thinkingEffort p <> "") then thinking_budget (ap_thinkingEffort p)
  else 0%Z.

(** The limit before thinking, and whether it is the model's ceiling. *)
(* agent/provider/anthropic/anthropic.go:327-339: maxTokens of buildParams *)
Definition max_tokens (p : AnthropicProvider) (cfg : option InferenceConfig) : Z * bool :=
  let ceiling := mc_MaxOutputTokens (ap_capabilities p) in
  let uses := bool_decide (ap_maxTokens p = None) && (0 <? ceiling)%Z && (ceiling <=? 128000)%Z in
  let maxTokens := match ap_maxTokens p with Some n => n | None => if uses then ceiling else 128000%Z end in
  match cfg with
  | Some c => match ic_MaxTokens c with Some n => (n, false) | None => (maxTokens, uses) end
  | None => (maxTokens, uses)
  end.

(* agent/provider/anthropic/anthropic.go: AnthropicProvider.buildParams *)
Definition buildParams (p : AnthropicProvider) (req : ModelRequest) : AParams :=
  let '(maxTokens, uses) := max_tokens p (mq_InferenceConfig req) in
  let budget := resolveThinkingBudget p in
  let cfg := mq_InferenceConfig req in
  mkAParams (ap_model p)
    (if (0 <? budget)%Z then
       (if uses then mc_MaxOutputTokens (ap_capabilities p) else i64 (maxTokens + budget))
     else maxTokens)
    (toAnthropicMessages (mq_Messages req) (ap_cachingEnabled p))
    (if bool_decide (mq_System req <> "") then Some (mq_System req, ap_cachingEnabled p) else None)
    (toAnthropicTools (mq_Tools req))
    (option_map toAnthropicToolChoice (mq_ToolChoice req))
    (if (0 <? budget)%Z then Some budget else None)
    (cfg ≫= ic_Temperature) (cfg ≫= ic_TopP) (cfg ≫= ic_TopK) (cfg ≫= ic_StopSequences).

(** ** The token counter *)

(** MessageCountTokensParams *)
Record ACount := mkACount {
  ca_Model : string; ca_Messages : list AMessage; ca_System : option string; ca_Tools : list ATool }.

(* agent/provider/anthropic/estimator.go: toCountTokensTools *)
Definition toCountTokensTools (specs : list Spec) : list ATool := toAnthropicTools specs.

(* agent/provider/anthropic/estimator.go: Estimator.EstimateTokens *)
Definition EstimateTokens (model : string) (CountTokens : ACount -> res Z) (req : ModelRequest) : res Z :=
  match CountTokens (mkACount model (toAnthropicMessages (mq_Messages req) false)
                       (if bool_decide (mq_System req <> "") then Some (mq_System req) else None)
                       (toCountTokensTools (mq_Tools req))) with
  | Err e => Err (EWrap "anthropic count_tokens" e)
  | Ok n => Ok n
  end.

(** * The event loop *)

(** MessageStreamEvent, with the block and delta types the loop knows. *)
Inductive AEvent : Type :=
| EvBlockStartTool (id name : string)
| EvBlockStartThinking
| EvBlockStartOther
| EvDeltaText (text : string)
| EvDeltaJSON (partial : string)
| EvDeltaThinking (text : string)
| EvDeltaOther
| EvBlockStop
| EvMessageStart (input cache_read cache_creation : Z)
| EvMessageDelta (output : Z)
| EvOther.

(** The variables of the loop and what was emitted. *)
Record ALoop := mkALoop {
  al_resp : ModelResponse; al_toolID : string; al_toolName : string; al_toolInput : string;
  al_thinking : string; al_inThinking : bool; al_events : list ModelEvent }.

#[global] Instance eta_ALoop : Settable ALoop := fun l =>
  mkALoop (al_resp l) (al_toolID l) (al_toolName l) (al_toolInput l) (al_thinking l) (al_inThinking l) (al_events l).

Definition loop_zero : ALoop := mkALoop response_zero "" "" "" "" false [].

(* agent/provider/anthropic/anthropic.go:260-283: content_block_stop *)
Definition block_stop (l : ALoop) : ALoop :=
  let l := if bool_decide (al_toolName l <> "") then
             l <| al_resp := add_call (al_toolID l) (al_toolName l) (al_toolInput l) (al_resp l) |>
               <| al_toolID := "" |> <| al_toolName := "" |> <| al_toolInput := "" |>
           else l in
  if al_inThinking l then
    l <| al_resp := add_thinking (al_thinking l) (al_resp l) |> <| al_inThinking := false |> <| al_thinking := "" |>
  else l.

(* agent/provider/anthropic/anthropic.go:230-294: one event of Stream *)
Definition stream_event (l : ALoop) (ev : AEvent) : ALoop :=
  match ev with
  | EvBlockStartTool id name => l <| al_toolID := id |> <| al_toolName := name |> <| al_toolInput := "" |>
  | EvBlockStartThinking => l <| al_inThinking := true |> <| al_thinking := "" |>
  | EvBlockStartOther | EvDeltaOther | EvOther => l
  | EvDeltaText t => l <| al_resp := add_text t (al_resp l) |> <| al_events := al_events l ++ [ModelEventText t] |>
  | EvDeltaJSON t => l <| al_toolInput := al_toolInput l +:+ t |>
  | EvDeltaThinking t => l <| al_thinking := al_thinking l +:+ t |> <| al_events := al_events l ++ [ModelEventThinking t] |>
  | EvBlockStop => block_stop l
  | EvMessageStart i r c =>
      let u := mr_Usage (al_resp l) in
      l <| al_resp := (al_resp l) <| mr_Usage := mkTokenUsage i (u_Output u) r c |> |>
  | EvMessageDelta o => l <| al_resp := (al_resp l) <| mr_Usage := (mr_Usage (al_resp l)) <| u_Output := o |> |> |>
  end.

(** [emit] may be nil; what was emitted is returned with the result. *)
(* agent/provider/anthropic/anthropic.go: AnthropicProvider.Stream *)
Definition Stream (p : AnthropicProvider) (NewStreaming : AParams -> list AEvent * option error)
    (req : ModelRequest) (emit : bool) : res ModelResponse * list ModelEvent :=
  let '(events, err) := NewStreaming (buildParams p req) in
  let l := fold_left stream_event events loop_zero in
  (match err with Some e => Err (EProvider e) | None => Ok (al_resp l) end, if emit then al_events l else []).

(** ** Streaming the blocks of a message *)

Definition block_events (b : SBlock) : list AEvent :=
  match b with
  | SText ps => EvBlockStartOther :: map EvDeltaText ps ++ [EvBlockStop]
  | STool id name ps => EvBlockStartTool id name :: map EvDeltaJSON ps ++ [EvBlockStop]
  | SThinking ps => EvBlockStartThinking :: map EvDeltaThinking ps ++ [EvBlockStop]
  end.
Definition message_events (input cr cc output : Z) (bs : list SBlock) : list AEvent :=
  EvMessageStart input cr cc :: concat (map block_events bs) ++ [EvMessageDelta output; EvOther].

(** Between blocks no tool and no thinking block is open. *)
Definition idle (l : ALoop) : Prop := al_toolName l = "" /\ al_inThinking l = false.

Lemma text_pieces ps l :
  fold_left stream_event (map EvDeltaText ps) l =
    l <| al_resp := add_text (pieces_text ps) (al_resp l) |> <| al_events := al_events l ++ map ModelEventText ps |>.
Proof.
  revert l. induction ps as [|t ps IH]; intros [[text calls usage md] id nm inp th inth evs]; simpl.
  - unfold add_text. simpl. by rewrite str_app_nil, app_nil_r.
  - rewrite IH. unfold add_text. simpl. by rewrite str_app_assoc, <- app_assoc.
Qed.

Lemma json_pieces ps l :
  fold_left stream_event (map EvDeltaJSON ps) l = l <| al_toolInput := al_toolInput l +:+ pieces_text ps |>.
Proof.
  revert l. induction ps as [|t ps IH]; intros [resp id nm inp th inth evs]; simpl; [by rewrite str_app_nil|].
  rewrite IH. simpl. by rewrite str_app_assoc.
Qed.

Lemma thinking_pieces ps l :
  fold_left stream_event (map EvDeltaThinking ps) l =
    l <| al_thinking := al_thinking l +:+ pieces_text ps |> <| al_events := al_events l ++ map ModelEventThinking ps |>.
Proof.
  revert l. induction ps as [|t ps IH]; intros [resp id nm inp th inth evs]; simpl; [by rewrite str_app_nil, app_nil_r|].
  rewrite IH. simpl. by rewrite str_app_assoc, <- app_assoc.
Qed.

(** A block contributes what the reference says and leaves the loop between blocks. *)
Lemma block_streamed b l :
  named b -> idle l ->
  let l' := fold_left stream_event (block_events b) l in
  idle l' /\ al_resp l' = block_response true (al_resp l) b /\ al_events l' = al_events l ++ blocks_events [b].
Proof.
  intros Hn [Htool Hth]. destruct l as [resp id nm inp th inth evs]. simpl in Htool, Hth. subst nm inth.
  unfold blocks_events, idle. destruct b as [ps|bid bname ps|ps]; simpl in Hn; cbn [block_events fold_left];
    rewrite fold_left_app, ?text_pieces, ?json_pieces, ?thinking_pieces; simpl; rewrite ?app_nil_r.
  - done.
  - unfold block_stop. simpl. by rewrite bool_decide_true.
  - done.
Qed.

Lemma blocks_streamed bs l :
  Forall named bs -> idle l ->
  let l' := fold_left stream_event (concat (map block_events bs)) l in
  idle l' /\ al_resp l' = fold_left (block_response true) bs (al_resp l) /\
  al_events l' = al_events l ++ blocks_events bs.
Proof.
  revert l. induction bs as [|b bs IH]; intros l Hn Hl; cbv zeta; simpl.
  - unfold blocks_events. simpl. by rewrite app_nil_r.
  - inversion Hn as [|? ? Hb Hbs]; subst. rewrite fold_left_app.
    destruct (block_streamed b l Hb Hl) as (Hidle & Hresp & Hevs).
    destruct (IH _ Hbs Hidle) as (H1 & H2 & H3). split; [done|]. rewrite H2, H3, Hresp, Hevs.
    split; [done|]. rewrite <- app_assoc. unfold blocks_events. simpl. by rewrite app_nil_r.
Qed.

(** C25. However a model's message is cut into stream events, the response has the concatenated text of its text blocks,
    its tool calls in order with the pieces of the input put together (an empty object for none), the texts of all
    thinking blocks one after the other in the metadata (which it has none of without a thinking block) and the usage of
    the message events; the events passed on are the text and thinking pieces in order.  Every tool block is assumed to
    name its tool. *)
Theorem anthropic_stream_assembles (p : AnthropicProvider) (req : ModelRequest) (emit : bool)
    (input cr cc output : Z) (bs : list SBlock) :
  Forall named bs ->
  let '(r, events) := Stream p (fun _ => (message_events input cr cc output bs, None)) req emit in
  (exists resp, r = Ok resp /\ mr_Text resp = blocks_text bs /\ mr_ToolCalls resp = blocks_calls bs /\
     mr_Metadata resp = blocks_metadata bs /\ mr_Usage resp = mkTokenUsage input output cr cc) /\
  events = (if emit then blocks_events bs else []).
Proof.
  intros Hn. unfold Stream, message_events. cbn [fold_left]. rewrite fold_left_app.
  destruct (blocks_streamed bs (stream_event loop_zero (EvMessageStart input cr cc)) Hn) as (_ & Hresp & Hevs); [done|].
  set (l := fold_left stream_event (concat _) _) in *. cbn [fold_left stream_event].
  destruct (fold_response_text true bs (al_resp (stream_event loop_zero (EvMessageStart input cr cc)))) as (Ht & Hc & Hu).
  rewrite <- Hresp in Ht, Hc, Hu.
  assert (mr_Metadata (al_resp l) = blocks_metadata bs) as Hmd
    by (rewrite Hresp, <- blocks_response_metadata; by apply fold_response_metadata).
  split; [|destruct emit; [exact Hevs | done]].
  eexists. split; [reflexivity|]. simpl. rewrite Ht, Hc, Hu, Hmd. done.
Qed.

(** ** Limits *)

Lemma catalog_ceilings model profile :
  assoc model catalog = Some profile -> mc_MaxOutputTokens profile = 64000%Z \/ mc_MaxOutputTokens profile = 128000%Z.
Proof.
  intros Hm%assoc_elem. unfold catalog in Hm. repeat (apply elem_of_cons in Hm as [[= _ ->]|Hm]; [simpl; auto|]).
  by apply elem_of_nil in Hm.
Qed.

Lemma max_tokens_unset p cfg :
  ap_maxTokens p = None -> cfg ≫= ic_MaxTokens = None ->
  max_tokens p cfg = let c := mc_MaxOutputTokens (ap_capabilities p) in
                     if (0 <? c)%Z && (c <=? 128000)%Z then (c, true) else (128000%Z, false).
Proof.
  intros Hp Hcfg. unfold max_tokens. rewrite Hp, bool_decide_true by done. cbn [andb].
  destruct cfg as [c|]; [simpl in Hcfg; rewrite Hcfg|]; by destruct (_ && _).
Qed.

Lemma max_tokens_set p cfg n :
  ap_maxTokens p = Some n -> cfg ≫= ic_MaxTokens = None -> max_tokens p cfg = (n, false).
Proof.
  intros Hp Hcfg. unfold max_tokens. rewrite Hp, bool_decide_false by done.
  destruct cfg as [c|]; [simpl in Hcfg; rewrite Hcfg|]; done.
Qed.

(** The limit and the budget of a request. *)
Lemma buildParams_limits p req m u :
  max_tokens p (mq_InferenceConfig req) = (m, u) -> (0 < resolveThinkingBudget p)%Z ->
  pa_Thinking (buildParams p req) = Some (resolveThinkingBudget p) /\
  pa_MaxTokens (buildParams p req) =
    if u then mc_MaxOutputTokens (ap_capabilities p) else i64 (m + resolveThinkingBudget p).
Proof. intros Hm Hb. unfold buildParams. rewrite Hm. simpl. destruct (Z.ltb_spec 0 (resolveThinkingBudget p)); [done | lia]. Qed.

(** Catalog models have one of two ceilings, other models none. *)
Lemma New_ceiling model effort o :
  let caps := ap_capabilities (New model (WithThinking effort :: o)) in
  o = [] \/ (exists n, o = [WithMaxTokens n]) ->
  mc_MaxOutputTokens caps ∈ [0; 64000; 128000]%Z.
Proof.
  intros caps Ho. assert (caps = ap_capabilities (New model [])) as -> by (destruct Ho as [->|[n ->]]; reflexivity).
  unfold New. destruct (assoc model catalog) as [profile|] eqn:Hm; [|simpl; set_solver].
  apply catalog_ceilings in Hm. cbn [fold_left ap_capabilities ao_capabilities MergeModelCapabilities mc_MaxOutputTokens].
  unfold override_int. destruct Hm as [-> | ->]; rewrite bool_decide_true by done; set_solver.
Qed.

Lemma effort_budget effort budget : (effort, budget) ∈ ThinkingBudgets ->
  effort <> "" /\ thinking_budget effort = budget /\ (0 < budget <= 16384)%Z.
Proof.
  unfold ThinkingBudgets. intros Hb.
  repeat (apply elem_of_cons in Hb as [[= -> ->]|Hb]; [split_and!; [done | reflexivity | lia | lia]|]).
  by apply elem_of_nil in Hb.
Qed.

(** With a predefined effort level, every model, known or not, gets a limit that
    leaves at least the output headroom of 8192 tokens above its thinking budget; an
    explicit limit is the room for the answer, with the budget on top of it. *)
Theorem anthropic_headroom (model : string) (effort : ThinkingEffort) (budget : Z) (req : ModelRequest) :
  (effort, budget) ∈ ThinkingBudgets -> mq_InferenceConfig req ≫= ic_MaxTokens = None ->
  pa_Thinking (buildParams (New model [WithThinking effort]) req) = Some budget /\
  (budget + ThinkingOutputHeadroom <= pa_MaxTokens (buildParams (New model [WithThinking effort]) req))%Z /\
  forall n : Z, (0 <= n < 9223372036854759424)%Z ->
    pa_MaxTokens (buildParams (New model [WithThinking effort; WithMaxTokens n]) req) = (n + budget)%Z.
Proof.
  intros Hb Hcfg. apply effort_budget in Hb as (Hne & Hbud & Hrange).
  assert (forall o, ap_thinkingBudget o = 0%Z -> ap_thinkingEffort o = effort -> resolveThinkingBudget o = budget) as Hres.
  { intros o Ho He. unfold resolveThinkingBudget. rewrite Ho, He. simpl. by rewrite bool_decide_true. }
  unfold ThinkingOutputHeadroom. set (p := New model [WithThinking effort]).
  assert (resolveThinkingBudget p = budget) as Hp by (by apply Hres).
  pose proof (New_ceiling model effort [] (or_introl eq_refl)) as Hc. fold p in Hc.
  pose proof (max_tokens_unset p _ eq_refl Hcfg) as Hm. cbv zeta in Hm.
  set (c := mc_MaxOutputTokens (ap_capabilities p)) in *.
  destruct (if (0 <? c)%Z && (c <=? 128000)%Z then (c, true) else (128000%Z, false)) as [m u] eqn:Hmu.
  destruct (buildParams_limits p req m u Hm) as [Ht Hl]; [lia|]. fold c in Hl. rewrite Ht, Hl, Hp.
  split; [done|]. split.
  - assert (c = 0 \/ c = 64000 \/ c = 128000)%Z as Hcases by set_solver.
    destruct Hcases as [Hz|[Hz|Hz]]; rewrite Hz in Hmu |- *; injection Hmu as <- <-; rewrite ?i64_small; lia.
  - intros n Hn. set (q := New model [WithThinking effort; WithMaxTokens n]).
    destruct (buildParams_limits q req n false) as [_ ->];
      [by apply max_tokens_set | rewrite Hres; [lia | done | done] |].
    rewrite (Hres q) by done. apply i64_small. lia.
Qed.
End Anthropic.

(** Every document that is not a file or URL reference is sent as a base64 PDF: the
    MIME type plays no part, and a source this provider cannot read (an S3 location)
    becomes an empty document instead of an error. *)
Theorem anthropic_documents_as_pdf (src : DocumentSource) (mime : string) :
  let with_mime := mkDocumentSource (ds_Data src) (ds_Base64 src) (ds_URL src) (ds_FileID src) (ds_S3URI src)
                     (ds_S3BucketOwner src) mime (ds_Name src) in
  buildAnthropicDocParam with_mime = buildAnthropicDocParam src /\
  forall uri owner name, buildAnthropicDocParam (mkDocumentSource None "" "" "" uri owner mime name) = Some (ADocBase64PDF "").
Proof. split; [done|]. intros uri owner name. reflexivity. Qed.

Lemma anthropic_stream_assembles_witness :
  let '(r, events) := @Stream plain_json (New "claude-opus-5" []) (fun _ => (message_events 7 0 0 3 sample_blocks, None))
                        (mkRequest [] "" [] None None) true in
  (exists resp, r = Ok resp /\ mr_Text resp = "Hello" /\
     mr_ToolCalls resp = [mkCall "t1" "search" (Some "[1,2]"); mkCall "t2" "now" (Some "{}")]) /\
  events = [ModelEventThinking "hm"; ModelEventText "Hel"; ModelEventText "lo"].
Proof.
  pose proof (@anthropic_stream_assembles plain_json (New "claude-opus-5" []) (mkRequest [] "" [] None None) true 7 0 0 3
    sample_blocks) as Hs.
  assert (Forall named sample_blocks) as Hn by (repeat constructor; discriminate). specialize (Hs Hn).
  destruct (Stream _ _ _ _) as [r events]. destruct Hs as [(resp & Hr & Ht & Hc & _) He].
  split; [exists resp; split; [exact Hr|]; split; [exact Ht | exact Hc] | exact He].
Defined.

Lemma anthropic_headroom_witness :
  (16384 + 8192 <= pa_MaxTokens (@buildParams plain_json (New "claude-haiku-4-5" [WithThinking "high"])
                                   (mkRequest [] "" [] None None)))%Z /\
  pa_MaxTokens (@buildParams plain_json (New "claude-haiku-4-5" [WithThinking "high"; WithMaxTokens 1000])
                  (mkRequest [] "" [] None None)) = 17384%Z.
Proof.
  destruct (@anthropic_headroom plain_json "claude-haiku-4-5" "high" 16384 (mkRequest [] "" [] None None))
    as (_ & Hroom & Hset); [unfold ThinkingBudgets; set_solver | reflexivity|].
  split; [exact Hroom|]. apply Hset. lia.
Defined.
