(* ===== verification/OpenAI.v ===== *)
(** The OpenAI provider (agent/provider/openai/openai.go, models.go, estimator.go) and the
    servers that share its adapter (agent/provider/ollama, agent/provider/vllm): options
    and catalog, request parameters, message conversion, and the reassembly of a
    streamed completion. *)
From stdpp Require Import pretty.
From S2P Require Import Prelude Errors Messages Execution Schema Tool Inference State.
From S2P Require Import Structured Base64 Providers.

(** * Options, catalog, construction *)

(* agent/provider/openai/openai.go:21-27: OpenAIProvider *)
Record OpenAIProvider := mkOpenAI {
  op_model : string; op_baseURL : string; op_maxTokens : Z; op_thinkingEffort : ThinkingEffort;
  op_capabilities : ModelCapabilities }.

(* agent/provider/openai/openai.go:38-44: options *)
Record o_options := mkOOptions {
  oo_apiKey : string; oo_baseURL : string; oo_maxTokens : Z; oo_thinkingEffort : ThinkingEffort;
  oo_capabilities : ModelCapabilities }.

#[global] Instance eta_o_options : Settable o_options := fun o =>
  mkOOptions (oo_apiKey o) (oo_baseURL o) (oo_maxTokens o) (oo_thinkingEffort o) (oo_capabilities o).

(* agent/provider/openai/openai.go:36: Option *)
Definition OOption : Type := o_options -> o_options.
Definition o_caps (f : ModelCapabilities -> ModelCapabilities) : OOption := fun o =>
  o <| oo_capabilities := f (oo_capabilities o) |>.

(* agent/provider/openai/openai.go: WithAPIKey *)
Definition WithAPIKey (key : string) : OOption := fun o => o <| oo_apiKey := key |>.
(* agent/provider/openai/openai.go: WithCapabilities *)
Definition WithCapabilities (c : ModelCapabilities) : OOption := o_caps (fun b => MergeModelCapabilities b c).
(* agent/provider/openai/openai.go: WithContextWindowTokens *)
Definition WithContextWindowTokens (n : Z) : OOption := o_caps (fun b => b <| mc_ContextWindowTokens := cap_tokens n |>).
(* agent/provider/openai/openai.go: WithMaxOutputTokens *)
Definition WithMaxOutputTokens (n : Z) : OOption := o_caps (fun b => b <| mc_MaxOutputTokens := cap_tokens n |>).
(* agent/provider/openai/openai.go: WithToolUse *)
Definition WithToolUse (c : Capability) : OOption := o_caps (fun b => b <| mc_ToolUse := c |>).
(* agent/provider/openai/openai.go: WithToolChoice *)
Definition WithToolChoice (auto required specific : Capability) : OOption :=
  o_caps (fun b => MergeModelCapabilities b (mkCapabilities 0 0 Unknown auto required specific Unknown)).
(* agent/provider/openai/openai.go: WithToolChoiceAuto *)
Definition WithToolChoiceAuto (c : Capability) : OOption := o_caps (fun b => b <| mc_ChoiceAuto := c |>).
(* agent/provider/openai/openai.go: WithToolChoiceRequired *)
Definition WithToolChoiceRequired (c : Capability) : OOption := o_caps (fun b => b <| mc_ChoiceRequired := c |>).
(* agent/provider/openai/openai.go: WithToolChoiceSpecific *)
Definition WithToolChoiceSpecific (c : Capability) : OOption := o_caps (fun b => b <| mc_ChoiceSpecific := c |>).
(* agent/provider/openai/openai.go: WithNativeStructuredOutput *)
Definition WithNativeStructuredOutput (c : Capability) : OOption :=
  o_caps (fun b => b <| mc_NativeStructuredOutput := c |>).
(* agent/provider/openai/openai.go: WithBaseURL *)
Definition WithBaseURL (url : string) : OOption := fun o => o <| oo_baseURL := url |>.
(* agent/provider/openai/openai.go: WithMaxTokens *)
Definition WithMaxTokens (n : Z) : OOption := fun o => o <| oo_maxTokens := n |>.
(* agent/provider/openai/openai.go: WithThinking *)
Definition WithThinking (effort : ThinkingEffort) : OOption := fun o => o <| oo_thinkingEffort := effort |>.

(* agent/provider/openai/openai.go: baselineCapabilities *)
Definition baselineCapabilities : ModelCapabilities := baseline_caps.

(* agent/provider/openai/models.go: caps *)
Definition caps (window output : Z) (toolUse : Capability) : ModelCapabilities :=
  mkCapabilities window output toolUse Unknown Unknown Unknown Unknown.

(* agent/provider/openai/models.go:31-62: catalog *)
Definition catalog : list (string * ModelCapabilities) :=
  [("gpt-4o", caps 128000 16384 Supported); ("gpt-4o-mini", caps 128000 16384 Supported);
   ("gpt-4.1", caps 1047576 32768 Supported); ("gpt-4.1-mini", caps 1047576 32768 Supported);
   ("gpt-4.1-nano", caps 1047576 32768 Supported);
   ("gpt-5", caps 400000 128000 Supported); ("gpt-5-mini", caps 400000 128000 Supported);
   ("gpt-5-nano", caps 400000 128000 Supported);
   ("gpt-5.4", caps 1050000 128000 Supported); ("gpt-5.4-mini", caps 400000 128000 Supported);
   ("gpt-5.4-nano", caps 400000 128000 Supported); ("gpt-5.5", caps 1050000 128000 Supported);
   ("gpt-5.6", caps 1050000 128000 Supported); ("gpt-5.6-sol", caps 1050000 128000 Supported);
   ("gpt-5.6-terra", caps 1050000 128000 Supported); ("gpt-5.6-luna", caps 1050000 128000 Supported);
   ("gpt-6-astra", caps 1050000 128000 Supported); ("gpt-6-sol", caps 1050000 128000 Unknown);
   ("gpt-6-luna", caps 1050000 128000 Unknown); ("gpt-6.1-sol", caps 0 0 Unsupported_);
   ("o3", caps 200000 100000 Supported); ("o3-mini", caps 200000 100000 Supported);
   ("o4-mini", caps 200000 100000 Supported)].

(* agent/provider/openai/openai.go: newProvider *)
Definition newProvider (model : string) (useCatalog : bool) (opts : list OOption) : OpenAIProvider :=
  let c := match assoc model catalog with
           | Some profile => if useCatalog then MergeModelCapabilities baselineCapabilities profile
                             else baselineCapabilities
           | None => baselineCapabilities
           end in
  let o := fold_left (fun o fn => fn o) opts (mkOOptions "" "" 0 "" c) in
  mkOpenAI model (oo_baseURL o) (oo_maxTokens o) (oo_thinkingEffort o) (oo_capabilities o).

(* agent/provider/openai/openai.go: New *)
Definition New (model : string) (opts : list OOption) : OpenAIProvider := newProvider model true opts.
(* agent/provider/openai/openai.go: NewCompatible *)
Definition NewCompatible (model : string) (opts : list OOption) : OpenAIProvider := newProvider model false opts.
(* agent/provider/openai/openai.go: OpenAIProvider.Capabilities *)
Definition Capabilities (p : OpenAIProvider) : ModelCapabilities := op_capabilities p.
(* agent/provider/openai/openai.go: OpenAIProvider.ModelID *)
Definition ModelID (p : OpenAIProvider) : string := op_model p.

(* agent/provider/ollama/models.go:34: toolUse *)
Definition ollama_toolUse : ModelCapabilities := capabilities_zero <| mc_ToolUse := Supported |>.

(* agent/provider/ollama/models.go:23-32: catalog *)
Definition ollama_catalog : list (string * ModelCapabilities) :=
  map (fun m => (m, ollama_toolUse))
    ["llama3.2"; "llama3.2:1b"; "llama3.2:3b"; "qwen3.5"; "gpt-oss"; "gpt-oss:20b"; "gpt-oss:120b"].

(* agent/provider/ollama/ollama.go: New *)
Definition ollama_New (env_OLLAMA_HOST : string) (model : string) (opts : list OOption) : OpenAIProvider :=
  let host := if bool_decide (env_OLLAMA_HOST = "") then "http://localhost:11434" else env_OLLAMA_HOST in
  let base := [WithBaseURL (host +:+ "/v1")] ++
              match assoc model ollama_catalog with Some profile => [WithCapabilities profile] | None => [] end in
  NewCompatible model (base ++ opts).

(* agent/provider/vllm/vllm.go: New *)
Definition vllm_New (env_VLLM_BASE_URL : string) (model : string) (opts : list OOption) : OpenAIProvider :=
  let baseURL := if bool_decide (env_VLLM_BASE_URL = "") then "http://localhost:8000/v1" else env_VLLM_BASE_URL in
  NewCompatible model ([WithBaseURL baseURL] ++ opts).

(** * Request parameters *)

Inductive OPart : Type :=
| OImagePart (url detail : string)
| OFilePart (filename : string) (file_id file_data : option string).
Record OToolCall := mkOToolCall { ot_ID : string; ot_Name : string; ot_Arguments : string }.

(** ChatCompletionMessageParamUnion *)
Inductive OMessage : Type :=
| OSystem (text : string)
| OUserText (text : string)
| OUserParts (parts : list OPart)
| OTool (content id : string)
| OAssistant (content : option string) (calls : list OToolCall).

Record OToolDef := mkOToolDef { od_Name : string; od_Description : string; od_Parameters : option GoAny }.
Inductive OChoice : Type := OChoiceMode (mode : string) | OChoiceFunction (name : string).

(** ChatCompletionNewParams *)
Record OParams := mkOParams {
  po_Model : string; po_Messages : list OMessage; po_MaxCompletionTokens : option Z; po_Tools : list OToolDef;
  po_ToolChoice : option OChoice; po_ReasoningEffort : string; po_Temperature : option float64;
  po_TopP : option float64; po_Stop : option (list string); po_IncludeUsage : bool }.

#[global] Instance eta_OParams : Settable OParams := fun p =>
  mkOParams (po_Model p) (po_Messages p) (po_MaxCompletionTokens p) (po_Tools p) (po_ToolChoice p)
    (po_ReasoningEffort p) (po_Temperature p) (po_TopP p) (po_Stop p) (po_IncludeUsage p).

Definition doc_source_error (b : ContentBlock) : option error :=
  match b with
  | DocumentBlock src =>
      if bool_decide (ds_URL src <> "") then
        Some (ENew "OpenAI Chat Completions does not support document URL sources; use Data, Base64, or FileID")
      else if bool_decide (ds_S3URI src <> "") then
        Some (ENew "OpenAI Chat Completions does not support Bedrock S3 document sources; use Data, Base64, or FileID")
      else None
  | _ => None
  end.
(* agent/provider/openai/openai.go: validateOpenAIDocumentSources *)
Definition validateOpenAIDocumentSources (msgs : list Message) : option error :=
  head (omap doc_source_error (concat (map m_Content msgs))).

(* agent/provider/openai/openai.go: imageBytes *)
Definition imageBytes (src : ImageSource) : res string :=
  if bool_decide (0 < raw_len (is_Data src))%nat then Ok (default "" (is_Data src))
  else match DecodeString (is_Base64 src) with
       | Some b => Ok b
       | None => Err (EWrap "base64 decode" (ENew "illegal base64 data"))
       end.

Definition data_url (mime b64 : string) : string := "data:" +:+ mime +:+ ";base64," +:+ b64.

(* agent/provider/openai/openai.go:422-445: the ImageBlock case of toOpenAIUserMessages *)
Definition image_message (src : ImageSource) : option OMessage :=
  let url := if bool_decide (is_URL src <> "") then Some (is_URL src)
             else if bool_decide (is_Base64 src <> "") then Some (data_url (is_MIMEType src) (is_Base64 src))
             else match imageBytes src with
                  | Err _ => None
                  | Ok bytes => Some (data_url (is_MIMEType src) (EncodeToString bytes))
                  end in
  option_map (fun u => OUserParts [OImagePart u "auto"]) url.

(* agent/provider/openai/openai.go:446-470: the DocumentBlock case of toOpenAIUserMessages *)
Definition document_message (src : DocumentSource) : option OMessage :=
  let name := if bool_decide (ds_Name src = "") then "document.pdf" else ds_Name src in
  if bool_decide (ds_FileID src <> "") then Some (OUserParts [OFilePart name (Some (ds_FileID src)) None])
  else
    let b64 := if bool_decide (ds_Base64 src <> "") then Some (ds_Base64 src)
               else if bool_decide (ds_URL src <> "") then None
               else Some (EncodeToString (default "" (ds_Data src))) in
    option_map (fun b => OUserParts [OFilePart name None (Some (data_url (ds_MIMEType src) b))]) b64.

(* agent/provider/openai/openai.go:414-421: the ToolResultBlock case of toOpenAIUserMessages *)
Definition tool_message (v : ToolResultBlock) : OMessage :=
  OTool (if is_nil (tr_Images v) then tr_Content v
         else tr_Content v +:+ newline +:+ newline +:+ "[" +:+ pretty (length (tr_Images v)) +:+
              " image(s) attached — this provider does not support images in tool results]")
    (tr_ToolUseID v).

Definition user_message (b : ContentBlock) : option OMessage :=
  match b with
  | TextBlock t => Some (OUserText t)
  | ToolResultBlk v => Some (tool_message v)
  | ImageBlock src => image_message src
  | DocumentBlock src => document_message src
  | ToolUseBlock _ | WidgetBlock _ => None
  end.

(* agent/provider/openai/openai.go: toOpenAIUserMessages *)
Definition toOpenAIUserMessages (blocks : list ContentBlock) : list OMessage := omap user_message blocks.

(* agent/provider/openai/openai.go: toOpenAIAssistantMessage *)
Definition toOpenAIAssistantMessage (blocks : list ContentBlock) : OMessage :=
  let text := pieces_text (omap (fun b => match b with TextBlock t => Some t | _ => None end) blocks) in
  let calls := omap (fun b => match b with
                              | ToolUseBlock v => Some (mkOToolCall (tu_ToolUseID v) (tu_Name v) (default "" (tu_Input v)))
                              | _ => None end) blocks in
  OAssistant (if bool_decide (text <> "") then Some text else None) calls.

(* agent/provider/openai/openai.go: toOpenAIMessages *)
Definition toOpenAIMessages (msgs : list Message) (system : string) : list OMessage :=
  (if bool_decide (system <> "") then [OSystem system] else []) ++
  concat (map (fun m => if bool_decide (m_Role m = RoleUser) then toOpenAIUserMessages (m_Content m)
                        else if bool_decide (m_Role m = RoleAssistant) then [toOpenAIAssistantMessage (m_Content m)]
                        else []) msgs).

(* agent/provider/openai/openai.go: toOpenAITools *)
Definition toOpenAITools (specs : list Spec) : list OToolDef :=
  map (fun s => mkOToolDef (sp_Name s) (sp_Description s) (sp_InputSchema s)) specs.

(* agent/provider/openai/openai.go: toOpenAIToolChoice *)
Definition toOpenAIToolChoice (tc : Choice) : OChoice :=
  if bool_decide (ch_Mode tc = "auto") then OChoiceMode "auto"
  else if bool_decide (ch_Mode tc = "any") then OChoiceMode "required"
  else if bool_decide (ch_Mode tc = "tool") then OChoiceFunction (ch_Name tc)
  else OChoiceMode "auto".

(* agent/provider/openai/openai.go: OpenAIProvider.buildParams *)
Definition buildParams (p : OpenAIProvider) (req : ModelRequest) : OParams :=
  let cfg := mq_InferenceConfig req in
  mkOParams (op_model p) (toOpenAIMessages (mq_Messages req) (mq_System req))
    (match cfg ≫= ic_MaxTokens with
     | Some n => Some n
     | None => if (0 <? op_maxTokens p)%Z then Some (op_maxTokens p) else None
     end)
    (toOpenAITools (mq_Tools req)) (option_map toOpenAIToolChoice (mq_ToolChoice req)) (op_thinkingEffort p)
    (cfg ≫= ic_Temperature) (cfg ≫= ic_TopP) (cfg ≫= ic_StopSequences) false.

(** * Responses *)

(** A tool call of a completion that is not streamed. *)
Record OCompletionCall := mkOCompletionCall {
  oc_Type : string; oc_ID : string; oc_Name : string; oc_Arguments : string }.

(* agent/provider/openai/openai.go: parseCompletion *)
Definition parseCompletion (choices : list (string * list OCompletionCall)) : ModelResponse :=
  match choices with
  | [] => response_zero
  | (content, calls) :: _ =>
      mkResponse content
        (omap (fun tc => if bool_decide (oc_Type tc = "function")
                         then Some (mkCall (oc_ID tc) (oc_Name tc) (input_or_empty (oc_Arguments tc))) else None) calls)
        usage_zero None
  end.

(** A chunk of the stream: usage, and for every choice the text and tool-call deltas. *)
Record ToolDelta := mkToolDelta { td_Index : Z; td_ID : string; td_Name : string; td_Arguments : string }.
Record Delta := mkDelta { de_Content : string; de_ToolCalls : list ToolDelta }.
Record Chunk := mkChunk { ck_Prompt : Z; ck_Completion : Z; ck_Cached : Z; ck_Choices : list Delta }.

(* agent/provider/openai/openai.go:230-234: toolCallAccum *)
Record Accum := mkAccum { ac_id : string; ac_name : string; ac_arguments : string }.

Record OLoop := mkOLoop { ol_resp : ModelResponse; ol_calls : gmap Z Accum; ol_events : list ModelEvent }.

#[global] Instance eta_OLoop : Settable OLoop := fun l => mkOLoop (ol_resp l) (ol_calls l) (ol_events l).

Definition accumulate (acc : Accum) (tc : ToolDelta) : Accum :=
  mkAccum (if bool_decide (td_ID tc <> "") then td_ID tc else ac_id acc)
    (if bool_decide (td_Name tc <> "") then td_Name tc else ac_name acc)
    (ac_arguments acc +:+ td_Arguments tc).

(* agent/provider/openai/openai.go:259-274: a tool call delta *)
Definition tool_delta (calls : gmap Z Accum) (tc : ToolDelta) : gmap Z Accum :=
  <[td_Index tc := accumulate (default (mkAccum "" "" "") (calls !! td_Index tc)) tc]> calls.

(* agent/provider/openai/openai.go:247-275: a choice of a chunk *)
Definition choice_step (l : OLoop) (d : Delta) : OLoop :=
  let l := if bool_decide (de_Content d <> "") then
             l <| ol_resp := add_text (de_Content d) (ol_resp l) |>
               <| ol_events := ol_events l ++ [ModelEventText (de_Content d)] |>
           else l in
  l <| ol_calls := fold_left tool_delta (de_ToolCalls d) (ol_calls l) |>.

(* agent/provider/openai/openai.go:240-245: the usage of a chunk *)
Definition usage_step (l : OLoop) (c : Chunk) : OLoop :=
  if (0 <? ck_Prompt c)%Z || (0 <? ck_Completion c)%Z then
    l <| ol_resp := (ol_resp l) <| mr_Usage := mkTokenUsage (ck_Prompt c) (ck_Completion c) (ck_Cached c)
                                      (u_CacheWrite (mr_Usage (ol_resp l))) |> |>
  else l.

(* agent/provider/openai/openai.go:237-276: a chunk of Stream *)
Definition chunk_step (l : OLoop) (c : Chunk) : OLoop := fold_left choice_step (ck_Choices c) (usage_step l c).

(* agent/provider/openai/openai.go:283-297: collecting the tool calls *)
Definition collect (calls : gmap Z Accum) : list Call :=
  omap (fun i => match calls !! Z.of_nat i with
                 | Some acc => Some (mkCall (ac_id acc) (ac_name acc) (input_or_empty (ac_arguments acc)))
                 | None => None
                 end) (seq 0 (size calls)).

(* agent/provider/openai/openai.go: OpenAIProvider.Stream *)
Definition Stream (p : OpenAIProvider) (NewStreaming : OParams -> list Chunk * option error)
    (req : ModelRequest) (emit : bool) : res ModelResponse * list ModelEvent :=
  match validateOpenAIDocumentSources (mq_Messages req) with
  | Some e => (Err (EProvider e), [])
  | None =>
      let '(chunks, err) := NewStreaming ((buildParams p req) <| po_IncludeUsage := true |>) in
      let l := fold_left chunk_step chunks (mkOLoop response_zero ∅ []) in
      (match err with
       | Some e => Err (EProvider e)
       | None => Ok ((ol_resp l) <| mr_ToolCalls := mr_ToolCalls (ol_resp l) ++ collect (ol_calls l) |>)
       end, if emit then ol_events l else [])
  end.

(** * Reassembly *)

Definition all_deltas (chunks : list Chunk) : list ToolDelta :=
  concat (map de_ToolCalls (concat (map ck_Choices chunks))).
Definition all_contents (chunks : list Chunk) : list string :=
  List.filter (fun t => bool_decide (t <> "")) (map de_Content (concat (map ck_Choices chunks))).

(** The call at an index, from its deltas alone: the last ID and the last name that are not empty, the arguments one after
    the other, an empty object for none. *)
Definition last_given (l : list string) : string := default "" (last (List.filter (fun t => bool_decide (t <> "")) l)).
Definition whole_call (ds : list ToolDelta) (i : Z) : Call :=
  let own := List.filter (fun d => bool_decide (td_Index d = i)) ds in
  let arguments := pieces_text (map td_Arguments own) in
  mkCall (last_given (map td_ID own)) (last_given (map td_Name own)) (Some (if bool_decide (arguments = "") then "{}" else arguments)).
(** The indices that deltas use, and those of them that are below their number. *)
Definition used_indices (ds : list ToolDelta) : gset Z := list_to_set (map td_Index ds).
Definition kept_indices (ds : list ToolDelta) : list Z :=
  List.filter (fun i => bool_decide (i ∈ used_indices ds)) (map Z.of_nat (seq 0 (size (used_indices ds)))).
(** The last usage reported. *)
Definition last_usage (chunks : list Chunk) : TokenUsage :=
  default usage_zero (last (omap (fun c => if (0 <? ck_Prompt c)%Z || (0 <? ck_Completion c)%Z
    then Some (mkTokenUsage (ck_Prompt c) (ck_Completion c) (ck_Cached c) 0) else None) chunks)).

Lemma fold_accumulate ds acc :
  fold_left accumulate ds acc =
  mkAccum (default (ac_id acc) (last (List.filter (fun t => bool_decide (t <> "")) (map td_ID ds))))
    (default (ac_name acc) (last (List.filter (fun t => bool_decide (t <> "")) (map td_Name ds))))
    (ac_arguments acc +:+ pieces_text (map td_Arguments ds)).
Proof.
  revert acc. induction ds as [|d ds IH]; intros [a n g]; cbn [fold_left map List.filter]; [simpl; by rewrite str_app_nil|].
  rewrite IH. unfold accumulate. cbn [ac_id ac_name ac_arguments]. f_equal.
  - clear IH. destruct (bool_decide (td_ID d <> "")); [|done]. rewrite last_cons. destruct (last _); reflexivity.
  - clear IH. destruct (bool_decide (td_Name d <> "")); [|done]. rewrite last_cons. destruct (last _); reflexivity.
  - simpl. by rewrite str_app_assoc.
Qed.

Lemma fold_tool_delta ds calls i :
  fold_left tool_delta ds calls !! i =
    if bool_decide (Exists (fun d => td_Index d = i) ds)
    then Some (fold_left accumulate (List.filter (fun d => bool_decide (td_Index d = i)) ds)
                 (default (mkAccum "" "" "") (calls !! i)))
    else calls !! i.
Proof.
  revert calls. induction ds as [|d ds IH]; intros calls; cbn [fold_left List.filter].
  { rewrite bool_decide_false; [done | intros Hn; inversion Hn]. }
  rewrite IH. unfold tool_delta. destruct (decide (td_Index d = i)) as [<-|Hne].
  - rewrite lookup_insert_eq, (bool_decide_true (Exists _ (d :: ds))) by (by constructor).
    rewrite (bool_decide_true (td_Index d = td_Index d)) by done. cbn [fold_left from_option]. unfold id.
    destruct (decide (Exists (fun d0 => td_Index d0 = td_Index d) ds)) as [He|Hn];
      [by rewrite bool_decide_true by done|].
    rewrite bool_decide_false by done. f_equal.
    assert (List.filter (fun d0 => bool_decide (td_Index d0 = td_Index d)) ds = []) as ->; [|done].
    clear -Hn. induction ds as [|d0 ds IH]; simpl; [done|]. rewrite Exists_cons in Hn.
    rewrite bool_decide_false by tauto. apply IH. tauto.
  - rewrite lookup_insert_ne by done. rewrite (bool_decide_false (td_Index d = i)) by done.
    erewrite (bool_decide_ext (Exists _ (d :: ds))); [reflexivity|]. rewrite Exists_cons. tauto.
Qed.

(** The loop over chunks, choice by choice. *)
Lemma choices_streamed ds l :
  let l' := fold_left choice_step ds l in
  mr_Text (ol_resp l') = mr_Text (ol_resp l) +:+
    pieces_text (List.filter (fun t => bool_decide (t <> "")) (map de_Content ds)) /\
  mr_ToolCalls (ol_resp l') = mr_ToolCalls (ol_resp l) /\
  ol_calls l' = fold_left tool_delta (concat (map de_ToolCalls ds)) (ol_calls l) /\
  ol_events l' = ol_events l ++ map ModelEventText (List.filter (fun t => bool_decide (t <> "")) (map de_Content ds)).
Proof.
  revert l. induction ds as [|d ds IH]; intros l; cbn [fold_left map concat List.filter].
  { by rewrite app_nil_r, str_app_nil. }
  destruct (IH (choice_step l d)) as (Ht & Hc & Hm & He). cbv zeta. rewrite Ht, Hc, Hm, He, fold_left_app.
  unfold choice_step. destruct (bool_decide (de_Content d <> "")); simpl; [|done].
  by rewrite str_app_assoc, <- app_assoc.
Qed.

Lemma chunks_streamed chunks l :
  let l' := fold_left chunk_step chunks l in
  mr_Text (ol_resp l') = mr_Text (ol_resp l) +:+ pieces_text (all_contents chunks) /\
  mr_ToolCalls (ol_resp l') = mr_ToolCalls (ol_resp l) /\
  ol_calls l' = fold_left tool_delta (all_deltas chunks) (ol_calls l) /\
  ol_events l' = ol_events l ++ map ModelEventText (all_contents chunks).
Proof.
  revert l. induction chunks as [|c chunks IH]; intros l; cbn [fold_left].
  { unfold all_contents. simpl. by rewrite app_nil_r, str_app_nil. }
  destruct (IH (chunk_step l c)) as (Ht & Hc & Hm & He). cbv zeta. rewrite Ht, Hc, Hm, He.
  unfold chunk_step. set (l1 := usage_step l c).
  assert (mr_Text (ol_resp l1) = mr_Text (ol_resp l) /\ mr_ToolCalls (ol_resp l1) = mr_ToolCalls (ol_resp l) /\
    ol_calls l1 = ol_calls l /\ ol_events l1 = ol_events l) as (H1 & H2 & H3 & H4)
    by (unfold l1, usage_step; by destruct (_ || _)).
  destruct (choices_streamed (ck_Choices c) l1) as (Ht1 & Hc1 & Hm1 & He1).
  rewrite Ht1, Hc1, Hm1, He1, H1, H2, H3, H4. unfold all_contents, all_deltas. cbn [map concat].
  rewrite !map_app, List.filter_app, concat_app, fold_left_app, map_app, pieces_text_app, str_app_assoc, app_assoc. done.
Qed.

Lemma deltas_lookup ds i : fold_left tool_delta ds ∅ !! i =
  if bool_decide (i ∈ used_indices ds) then Some (fold_left accumulate (List.filter (fun d => bool_decide (td_Index d = i)) ds) (mkAccum "" "" "")) else None.
Proof.
  rewrite fold_tool_delta, lookup_empty. cbn [default from_option]. erewrite bool_decide_ext; [reflexivity|]. unfold used_indices.
  rewrite elem_of_list_to_set, list_elem_of_In, in_map_iff, Exists_exists. setoid_rewrite list_elem_of_In. naive_solver.
Qed.

Lemma size_deltas ds : size (fold_left tool_delta ds ∅) = size (used_indices ds).
Proof.
  rewrite <- size_dom. f_equal. apply set_eq. intros i. rewrite elem_of_dom, deltas_lookup. case_bool_decide as Hi; [by split; [|eauto]|].
  split; [by intros [? ?]|done].
Qed.

Lemma collect_deltas ds : collect (fold_left tool_delta ds ∅) = map (whole_call ds) (kept_indices ds).
Proof.
  unfold collect, kept_indices. rewrite size_deltas. induction (seq 0 _) as [|i k IH]; [done|]. cbn [omap list_omap map List.filter].
  rewrite deltas_lookup. destruct (bool_decide (Z.of_nat i ∈ used_indices ds)); cbn [map]; rewrite IH; [|done]. f_equal.
  rewrite fold_accumulate. unfold whole_call, input_or_empty, last_given. cbn [ac_id ac_name ac_arguments].
  change ("" +:+ ?t) with t. by case_bool_decide.
Qed.

Lemma usage_streamed chunks l : u_CacheWrite (mr_Usage (ol_resp l)) = 0%Z ->
  mr_Usage (ol_resp (fold_left chunk_step chunks l)) =
  default (mr_Usage (ol_resp l)) (last (omap (fun c => if (0 <? ck_Prompt c)%Z || (0 <? ck_Completion c)%Z
    then Some (mkTokenUsage (ck_Prompt c) (ck_Completion c) (ck_Cached c) 0) else None) chunks)).
Proof.
  assert (Hch : forall ds l, mr_Usage (ol_resp (fold_left choice_step ds l)) = mr_Usage (ol_resp l)).
  { induction ds as [|d ds IH]; intros l0; cbn [fold_left]; [done|]. rewrite IH. unfold choice_step. by destruct (bool_decide _). }
  revert l. induction chunks as [|c chunks IH]; intros l Hl; cbn [fold_left omap list_omap]; [done|].
  rewrite IH; unfold chunk_step; rewrite Hch; unfold usage_step; destruct (_ || _); cbn [ol_resp mr_Usage set_field]; rewrite ?Hl; try done.
  rewrite last_cons. by destruct (last _).
Qed.

(** C24. However a completion is cut into chunks, and however the deltas of its tool calls are interleaved, the response
    has the concatenated text and the usage last reported, and its tool calls are, in index order, each put together
    from the deltas of its index alone: the last ID and the last name given, the arguments one after the other (an empty
    object for none); the text events passed on are the pieces of the text in order.  Every index below the number of
    different indices that occur is kept, so all of them when they are numbered from zero without a gap, as the service
    documents; a call whose index is beyond is lost. *)
Theorem openai_stream_assembles (p : OpenAIProvider) (req : ModelRequest) (emit : bool) (chunks : list Chunk) :
  validateOpenAIDocumentSources (mq_Messages req) = None ->
  let '(r, events) := Stream p (fun _ => (chunks, None)) req emit in
  let ds := all_deltas chunks in
  (exists resp, r = Ok resp /\ mr_Text resp = pieces_text (all_contents chunks) /\ mr_Usage resp = last_usage chunks /\
     mr_ToolCalls resp = map (whole_call ds) (kept_indices ds)) /\
  events = (if emit then map ModelEventText (all_contents chunks) else []) /\
  (used_indices ds = list_to_set (map Z.of_nat (seq 0 (size (used_indices ds)))) ->
   kept_indices ds = map Z.of_nat (seq 0 (size (used_indices ds)))).
Proof.
  intros Hv. unfold Stream. rewrite Hv.
  destruct (chunks_streamed chunks (mkOLoop response_zero ∅ [])) as (Ht & Hc & Hm & He).
  pose proof (usage_streamed chunks (mkOLoop response_zero ∅ []) eq_refl) as Hu.
  set (l := fold_left chunk_step chunks _) in *. simpl in Ht, Hc, Hm, He, Hu. cbv zeta. split_and!; [|by rewrite He|].
  - eexists. split; [reflexivity|]. simpl. rewrite Ht, Hc, Hu, Hm. split_and!; [done..|]. apply collect_deltas.
  - intros Heq. unfold kept_indices. apply filter_all, Forall_forall. intros i Hi. apply bool_decide_eq_true. rewrite Heq. by apply elem_of_list_to_set.
Qed.

(** Tool calls whose indices are not [0 .. n-1] are dropped: a single call streamed
    with index 1 is lost, and of calls with indices 0 and 2 the second is. *)
Theorem openai_sparse_calls_lost (p : OpenAIProvider) (system : string) :
  let stream ds := fst (Stream p (fun _ => ([mkChunk 0 0 0 [mkDelta "" ds]], None)) (mkRequest [] system [] None None) false) in
  stream [mkToolDelta 1 "t1" "search" "[]"] = Ok response_zero /\
  stream [mkToolDelta 0 "t1" "search" "[]"; mkToolDelta 2 "t2" "now" "[]"] =
    Ok (response_zero <| mr_ToolCalls := [mkCall "t1" "search" (Some "[]")] |>).
Proof. split; vm_compute; reflexivity. Qed.

(** Two calls whose argument pieces arrive interleaved. *)
Definition interleaved : list Chunk :=
  [mkChunk 0 0 0 [mkDelta "Hel" [mkToolDelta 0 "t1" "search" ""]];
   mkChunk 0 0 0 [mkDelta "lo" [mkToolDelta 1 "t2" "now" ""; mkToolDelta 0 "" "" "[1,"]];
   mkChunk 7 3 0 [mkDelta "" [mkToolDelta 0 "" "" "2]"]]].

Lemma openai_stream_assembles_witness :
  let '(r, events) := Stream (New "gpt-5" []) (fun _ => (interleaved, None)) (mkRequest [] "" [] None None) true in
  (exists resp, r = Ok resp /\ mr_Text resp = "Hello" /\ mr_Usage resp = mkTokenUsage 7 3 0 0 /\
     mr_ToolCalls resp = [mkCall "t1" "search" (Some "[1,2]"); mkCall "t2" "now" (Some "{}")]) /\
  events = [ModelEventText "Hel"; ModelEventText "lo"].
Proof.
  pose proof (openai_stream_assembles (New "gpt-5" []) (mkRequest [] "" [] None None) true interleaved eq_refl) as Hs.
  destruct (Stream _ _ _ _) as [r events]. cbv zeta in Hs. destruct Hs as ((resp & Hr & Ht & Hu & Hc) & He & _).
  split; [exists resp; split; [exact Hr|]; split; [exact Ht|]; split; [exact Hu|] | exact He]. rewrite Hc. vm_compute. reflexivity.
Defined.
