(* ===== verification/Bedrock.v ===== *)
(** The Bedrock provider (agent/provider/bedrock/bedrock.go, models.go, estimator.go):
    options and catalog, the inference configuration on 32-bit integers, message
    conversion with media fetched through the guarded client, and the event loop of a
    streamed response. *)
From S2P Require Import Prelude Errors Messages Execution Schema Tool Inference State.
From S2P Require Import Structured Base64 Providers NetAddr UrlFetch TextScrub.

(** * Options and catalog *)

(* agent/provider/bedrock/bedrock.go:35-42: thinkingStyle *)
Inductive thinkingStyle : Type := thinkingStyleNone | thinkingStyleClaude | thinkingStyleNova2 | thinkingStyleGrok.

#[global] Instance thinkingStyle_eq_dec : EqDecision thinkingStyle.
Proof. solve_decision. Defined.

(* agent/provider/bedrock/models.go:12-18: modelProfile *)
Record modelProfile := mkProfile { mp_capabilities : ModelCapabilities; mp_thinkingStyle : thinkingStyle }.

Definition limits (window output : Z) : ModelCapabilities :=
  mkCapabilities window output Unknown Unknown Unknown Unknown Unknown.
(* agent/provider/bedrock/models.go: claude *)
Definition claude (window output : Z) : modelProfile := mkProfile (limits window output) thinkingStyleClaude.
(* agent/provider/bedrock/models.go: claude55 *)
Definition claude55 : modelProfile :=
  mkProfile (mkCapabilities 1000000 128000 Supported Supported Unsupported_ Unsupported_ Unknown) thinkingStyleClaude.
(* agent/provider/bedrock/models.go: plain *)
Definition plain (window output : Z) : modelProfile := mkProfile (limits window output) thinkingStyleNone.

(* agent/provider/bedrock/models.go:40-87: catalog *)
Definition catalog : list (string * modelProfile) :=
  [("anthropic.claude-haiku-4-5-20251001-v1:0", claude 200000 64000);
   ("anthropic.claude-sonnet-4-5-20250929-v1:0", claude 200000 64000);
   ("anthropic.claude-sonnet-4-6",
     mkProfile (mkCapabilities 1000000 64000 Supported Unknown Unknown Supported Unknown) thinkingStyleClaude);
   ("anthropic.claude-sonnet-5", claude 1000000 128000);
   ("anthropic.claude-opus-4-5-20251101-v1:0", claude 200000 64000);
   ("anthropic.claude-opus-4-6-v1", claude 1000000 128000);
   ("anthropic.claude-opus-4-7", claude 1000000 128000);
   ("anthropic.claude-opus-4-8", claude 1000000 128000);
   ("anthropic.claude-opus-5", claude 1000000 128000);
   ("anthropic.claude-fable-5", claude 1000000 128000);
   ("anthropic.claude-opus-5-5", claude55);
   ("anthropic.claude-sonnet-5-5", claude55);
   ("amazon.nova-micro-v1:0", plain 128000 10000);
   ("amazon.nova-lite-v1:0", plain 300000 10000);
   ("amazon.nova-pro-v1:0", plain 300000 10000);
   ("amazon.nova-2-lite-v1:0", mkProfile (limits 1000000 64000) thinkingStyleNova2);
   ("openai.gpt-oss-20b-1:0", plain 128000 16000);
   ("openai.gpt-oss-120b-1:0", plain 128000 16000);
   ("openai.gpt-6-astra", plain 1050000 128000);
   ("openai.gpt-6-luna", plain 1050000 128000);
   ("openai.gpt-6.1-sol", plain 1000000 131072);
   ("qwen.qwen3-235b-a22b-2507-v1:0", plain 256000 8000);
   ("xai.grok-4.6", mkProfile (limits 500000 0) thinkingStyleGrok)].

(* agent/provider/bedrock/models.go:124-127: inferenceProfilePrefixes *)
Definition inferenceProfilePrefixes : list string :=
  ["global"; "us"; "eu"; "apac"; "au"; "jp"; "in"; "ca"; "us-gov"].

(** strings.Cut at the first dot. *)
Definition cut_dot (s : string) : option (string * string) :=
  match String.index 0 "." s with
  | Some i => Some (String.substring 0 i s, String.substring (i + 1) (String.length s) s)
  | None => None
  end.

(* agent/provider/bedrock/models.go: lookupProfile *)
Definition lookupProfile (modelID : string) : option modelProfile :=
  match assoc modelID catalog with
  | Some profile => Some profile
  | None =>
      match cut_dot modelID with
      | Some (prefix, rest) => if bool_decide (prefix ∈ inferenceProfilePrefixes) then assoc rest catalog else None
      | None => None
      end
  end.

(* agent/provider/bedrock/bedrock.go:79-92: options *)
Record b_options := mkBOptions {
  bo_region : string; bo_maxTokens : option Z; bo_thinkingEffort : ThinkingEffort; bo_thinkingBudget : Z;
  bo_thinkingStyle : thinkingStyle; bo_apiKey : string; bo_guardrailID : string; bo_guardrailVersion : string;
  bo_cachingEnabled : bool; bo_urlFetchTimeout : Z; bo_allowPrivateURLFetches : bool;
  bo_capabilities : ModelCapabilities }.

#[global] Instance eta_b_options : Settable b_options := fun o =>
  mkBOptions (bo_region o) (bo_maxTokens o) (bo_thinkingEffort o) (bo_thinkingBudget o) (bo_thinkingStyle o)
    (bo_apiKey o) (bo_guardrailID o) (bo_guardrailVersion o) (bo_cachingEnabled o) (bo_urlFetchTimeout o)
    (bo_allowPrivateURLFetches o) (bo_capabilities o).

(* agent/provider/bedrock/bedrock.go:77: Option *)
Definition BOption : Type := b_options -> b_options.
Definition b_caps (f : ModelCapabilities -> ModelCapabilities) : BOption := fun o =>
  o <| bo_capabilities := f (bo_capabilities o) |>.

(* agent/provider/bedrock/bedrock.go: WithRegion *)
Definition WithRegion (region : string) : BOption := fun o => o <| bo_region := region |>.
(* agent/provider/bedrock/bedrock.go: WithCapabilities *)
Definition WithCapabilities (c : ModelCapabilities) : BOption := b_caps (fun b => MergeModelCapabilities b c).
(* agent/provider/bedrock/bedrock.go: WithContextWindowTokens *)
Definition WithContextWindowTokens (n : Z) : BOption := b_caps (fun b => b <| mc_ContextWindowTokens := cap_tokens n |>).
(* agent/provider/bedrock/bedrock.go: WithMaxOutputTokens *)
Definition WithMaxOutputTokens (n : Z) : BOption := b_caps (fun b => b <| mc_MaxOutputTokens := cap_tokens n |>).
(* agent/provider/bedrock/bedrock.go: WithToolUse *)
Definition WithToolUse (c : Capability) : BOption := b_caps (fun b => b <| mc_ToolUse := c |>).
(* agent/provider/bedrock/bedrock.go: WithToolChoice *)
Definition WithToolChoice (auto required specific : Capability) : BOption :=
  b_caps (fun b => MergeModelCapabilities b (mkCapabilities 0 0 Unknown auto required specific Unknown)).
(* agent/provider/bedrock/bedrock.go: WithToolChoiceAuto *)
Definition WithToolChoiceAuto (c : Capability) : BOption := b_caps (fun b => b <| mc_ChoiceAuto := c |>).
(* agent/provider/bedrock/bedrock.go: WithToolChoiceRequired *)
Definition WithToolChoiceRequired (c : Capability) : BOption := b_caps (fun b => b <| mc_ChoiceRequired := c |>).
(* agent/provider/bedrock/bedrock.go: WithToolChoiceSpecific *)
Definition WithToolChoiceSpecific (c : Capability) : BOption := b_caps (fun b => b <| mc_ChoiceSpecific := c |>).
(* agent/provider/bedrock/bedrock.go: WithNativeStructuredOutput *)
Definition WithNativeStructuredOutput (c : Capability) : BOption :=
  b_caps (fun b => b <| mc_NativeStructuredOutput := c |>).
(* agent/provider/bedrock/bedrock.go: WithURLFetchTimeout *)
Definition WithURLFetchTimeout (timeout : Z) : BOption := fun o =>
  if (0 <? timeout)%Z then o <| bo_urlFetchTimeout := timeout |> else o.
(* agent/provider/bedrock/bedrock.go: WithURLFetchAllowPrivateNetworks *)
Definition WithURLFetchAllowPrivateNetworks : BOption := fun o => o <| bo_allowPrivateURLFetches := true |>.
(* agent/provider/bedrock/bedrock.go: WithMaxTokens *)
Definition WithMaxTokens (n : Z) : BOption := fun o => o <| bo_maxTokens := Some (i32 n) |>.
(* agent/provider/bedrock/bedrock.go: WithThinking *)
Definition WithThinking (effort : ThinkingEffort) : BOption := fun o => o <| bo_thinkingEffort := effort |>.
(* agent/provider/bedrock/bedrock.go: WithThinkingBudget *)
Definition WithThinkingBudget (tokens : Z) : BOption := fun o => o <| bo_thinkingBudget := tokens |>.
(* agent/provider/bedrock/bedrock.go: WithAPIKey *)
Definition WithAPIKey (key : string) : BOption := fun o => o <| bo_apiKey := key |>.
(* agent/provider/bedrock/bedrock.go: WithGuardrail *)
Definition WithGuardrail (id version : string) : BOption := fun o =>
  o <| bo_guardrailID := id |> <| bo_guardrailVersion := version |>.
(* agent/provider/bedrock/bedrock.go: WithPromptCaching *)
Definition WithPromptCaching : BOption := fun o => o <| bo_cachingEnabled := true |>.

(* agent/provider/bedrock/bedrock.go: baselineCapabilities *)
Definition baselineCapabilities : ModelCapabilities := baseline_caps.

(* agent/provider/bedrock/bedrock.go:61-74: BedrockProvider *)
Record BedrockProvider {W : Type} := mkBedrock {
  bp_fetchClient : @HttpClient W; bp_urlFetchPolicy : @urlFetchPolicy W; bp_model : string; bp_maxTokens : option Z;
  bp_thinkingStyle : thinkingStyle; bp_thinkingEffort : ThinkingEffort; bp_thinkingBudget : Z;
  bp_guardrailID : string; bp_guardrailVersion : string; bp_cachingEnabled : bool;
  bp_capabilities : ModelCapabilities }.
Arguments BedrockProvider W : clear implicits.

(** * Request parameters *)

Inductive BDocSource : Type := BDocS3 (uri : string) (owner : option string) | BDocBytes (bytes : string).
Inductive BResultPart : Type := BPartText (text : string) | BPartImage (format bytes : string).

(** types.ContentBlock *)
Inductive BContent : Type :=
| BText (text : string)
| BToolUse (id name : string) (input : GoAny)
| BToolResult (id : string) (content : list BResultPart) (is_error : bool)
| BImage (format bytes : string)
| BDocument (name format : string) (src : BDocSource)
| BCachePoint.

Record BMessage := mkBMessage { bm_Role : string; bm_Content : list BContent }.
Record BToolSpec := mkBToolSpec { bt_Name : string; bt_Description : string; bt_Schema : option GoAny }.
Inductive BChoice : Type := BChoiceAuto | BChoiceAny | BChoiceTool (name : string).
Record BToolConfig := mkBToolConfig { btc_Tools : list BToolSpec; btc_Choice : option BChoice }.
(** A value of the additional request fields. *)
Inductive BField : Type := BFStr (s : string) | BFInt (n : Z) | BFObj (fields : list (string * BField)).
Record BInference := mkBInference {
  bi_MaxTokens : option Z; bi_Temperature : option float64; bi_TopP : option float64;
  bi_StopSequences : option (list string) }.

(** ConverseStreamInput; a system prompt with its cache mark. *)
Record BInput := mkBInput {
  bin_ModelId : string; bin_Messages : list BMessage; bin_Inference : BInference;
  bin_System : option (string * bool); bin_ToolConfig : option BToolConfig;
  bin_Additional : option (list (string * BField)); bin_Guardrail : option (string * string) }.

Section Bedrock.
Context {W : Type} `{Net W} `{JSONLib}.
(** Go's conversion float32(f), kept as a float64 value. *)
Variable float32_of : float64 -> float64.

(* agent/provider/bedrock/bedrock.go: New *)
Definition New (env : string -> string) (LoadDefaultConfig : string -> bool -> option error) (model : string)
    (opts : list BOption) : res (BedrockProvider W) :=
  let '(caps, style) := match lookupProfile model with
                        | Some profile => (MergeModelCapabilities baselineCapabilities (mp_capabilities profile),
                                           mp_thinkingStyle profile)
                        | None => (baselineCapabilities, thinkingStyleNone)
                        end in
  let o := fold_left (fun o fn => fn o) opts (mkBOptions "" None "" 0 style "" "" "" false 0 false caps) in
  let region := if bool_decide (bo_region o = "") then env "AWS_REGION" else bo_region o in
  let region := if bool_decide (region = "") then "us-east-1" else region in
  let apiKey := if bool_decide (bo_apiKey o = "") then env "AWS_BEARER_TOKEN_BEDROCK" else bo_apiKey o in
  match LoadDefaultConfig region (bool_decide (apiKey <> "")) with
  | Some e => Err (EWrap "provider creation: bedrock" e)
  | None =>
      let policy := mkPolicy (bo_allowPrivateURLFetches o) None in
      Ok (mkBedrock W (newURLFetchClient (bo_urlFetchTimeout o) [policy]) policy model (bo_maxTokens o)
            (bo_thinkingStyle o) (bo_thinkingEffort o) (bo_thinkingBudget o) (bo_guardrailID o)
            (bo_guardrailVersion o) (bo_cachingEnabled o) (bo_capabilities o))
  end.

(* agent/provider/bedrock/bedrock.go: BedrockProvider.Capabilities *)
Definition Capabilities (p : BedrockProvider W) : ModelCapabilities := bp_capabilities p.
(* agent/provider/bedrock/bedrock.go: BedrockProvider.ModelID *)
Definition ModelID (p : BedrockProvider W) : string := bp_model p.

(** ** Inference configuration *)

(* agent/provider/bedrock/bedrock.go: BedrockProvider.resolveThinkingBudget *)
Definition resolveThinkingBudget (p : BedrockProvider W) : Z :=
  if bool_decide (bp_thinkingStyle p <> thinkingStyleClaude) then 0%Z
  else if (0 <? bp_thinkingBudget p)%Z then bp_thinkingBudget p
  else if bool_decide (bp_thinkingEffort p <> "") then thinking_budget (bp_thinkingEffort p)
  else 0%Z.

(* agent/provider/bedrock/bedrock.go:556-575: maxTokens of buildInferenceConfiguration *)
Definition max_tokens (p : BedrockProvider W) (cfg : option InferenceConfig) : option Z :=
  let maxTokens := match cfg ≫= ic_MaxTokens with Some n => Some (i32 n) | None => bp_maxTokens p end in
  let budget := resolveThinkingBudget p in
  if (0 <? budget)%Z then Some (i32 (default ThinkingOutputHeadroom maxTokens + i32 budget)) else maxTokens.

(* agent/provider/bedrock/bedrock.go: BedrockProvider.buildInferenceConfiguration *)
Definition buildInferenceConfiguration (p : BedrockProvider W) (cfg : option InferenceConfig) : BInference :=
  mkBInference (max_tokens p cfg) (option_map float32_of (cfg ≫= ic_Temperature))
    (option_map float32_of (cfg ≫= ic_TopP)) (cfg ≫= ic_StopSequences).

(* agent/provider/bedrock/bedrock.go: BedrockProvider.buildAdditionalFields *)
Definition buildAdditionalFields (p : BedrockProvider W) (cfg : option InferenceConfig) : option (list (string * BField)) :=
  let effort := bp_thinkingEffort p in
  let thinking := match bp_thinkingStyle p with
    | thinkingStyleClaude =>
        let budget := resolveThinkingBudget p in
        if (0 <? budget)%Z then [("thinking", BFObj [("type", BFStr "enabled"); ("budget_tokens", BFInt budget)])] else []
    | thinkingStyleNova2 =>
        if bool_decide (effort <> "") then
          [("reasoningConfig", BFObj [("type", BFStr "enabled"); ("maxReasoningEffort", BFStr effort)])] else []
    | thinkingStyleGrok => if bool_decide (effort <> "") then [("reasoning_effort", BFStr effort)] else []
    | thinkingStyleNone => []
    end in
  match thinking, cfg ≫= ic_TopK with
  | [], None => None
  | fields, Some k => Some (fields ++ [("top_k", BFInt k)])
  | fields, None => Some fields
  end.

(** ** Media *)

(** A fetch makes at most four requests, so four units of fuel are enough. *)
Definition fetch_media (client : HttpClient) (policy : urlFetchPolicy) (url resource : string) (s : NetSt)
    : res string * NetSt :=
  match fetchURLBytesWithPolicy 4 (Some client) policy url resource s with
  | (Some r, s) => (r, s)
  | (None, s) => (Err (ENew "out of fuel"), s)
  end.

Definition source_bytes (client : HttpClient) (policy : urlFetchPolicy) (data : RawMessage) (base64 url : string)
    (resource missing : string) (s : NetSt) : res string * NetSt :=
  if bool_decide (0 < raw_len data)%nat then (Ok (default "" data), s)
  else if bool_decide (base64 <> "") then
    (match DecodeString base64 with
     | Some b => Ok b
     | None => Err (EWrap "base64 decode" (ENew "illegal base64 data"))
     end, s)
  else if bool_decide (url <> "") then fetch_media client policy url resource s
  else (Err (ENew missing), s).

(* agent/provider/bedrock/bedrock.go: imageBytesWithFetcherAndPolicy *)
Definition imageBytesWithFetcherAndPolicy (client : HttpClient) (policy : urlFetchPolicy) (src : ImageSource) (s : NetSt)
    : res string * NetSt :=
  source_bytes client policy (is_Data src) (is_Base64 src) (is_URL src) "image"
    "ImageSource has no data, base64, or URL" s.

(* agent/provider/bedrock/bedrock.go: imageBytesWithFetcher *)
Definition imageBytesWithFetcher (client : HttpClient) (src : ImageSource) (s : NetSt) : res string * NetSt :=
  imageBytesWithFetcherAndPolicy client policy_zero src s.

(* agent/provider/bedrock/bedrock.go: documentBytesWithFetcherAndPolicy *)
Definition documentBytesWithFetcherAndPolicy (client : HttpClient) (policy : urlFetchPolicy) (src : DocumentSource)
    (s : NetSt) : res string * NetSt :=
  source_bytes client policy (ds_Data src) (ds_Base64 src) (ds_URL src) "document"
    "DocumentSource has no data, base64, or URL" s.

(* agent/provider/bedrock/bedrock.go: toBedrockImageFormat *)
Definition toBedrockImageFormat (mime : string) : string :=
  default "jpeg" (assoc mime [("image/jpeg", "jpeg"); ("image/png", "png"); ("image/gif", "gif"); ("image/webp", "webp")]).

(* agent/provider/bedrock/bedrock.go: toBedrockDocFormat *)
Definition toBedrockDocFormat (mime : string) : string :=
  default "pdf" (assoc mime
    [("application/pdf", "pdf"); ("text/csv", "csv"); ("text/html", "html"); ("text/plain", "txt");
     ("text/markdown", "md"); ("application/msword", "doc");
     ("application/vnd.openxmlformats-officedocument.wordprocessingml.document", "docx");
     ("application/vnd.ms-excel", "xls");
     ("application/vnd.openxmlformats-officedocument.spreadsheetml.sheet", "xlsx")]).

(** The MIME type of an image, with the fallback for URL sources. *)
Definition image_mime (src : ImageSource) : string :=
  if bool_decide (is_MIMEType src = "") then "image/jpeg" else is_MIMEType src.

(* agent/provider/bedrock/bedrock.go: isClaudeModel *)
Definition isClaudeModel (modelID : string) : bool := bool_decide (String.index 0 "anthropic." modelID <> None).

(* agent/provider/bedrock/bedrock.go: toBedrockRole *)
Definition toBedrockRole (r : string) : string := if bool_decide (r = RoleAssistant) then "assistant" else "user".

(** ** Messages *)

(** The images of a tool result, in order; the first that cannot be read fails. *)
Fixpoint result_images (client : HttpClient) (policy : urlFetchPolicy) (imgs : list ImageSource) (s : NetSt)
    : res (list BResultPart) * NetSt :=
  match imgs with
  | [] => (Ok [], s)
  | img :: imgs =>
      match imageBytesWithFetcherAndPolicy client policy img s with
      | (Err e, s) => (Err (EWrap "tool result ImageBlock" e), s)
      | (Ok bytes, s) =>
          match result_images client policy imgs s with
          | (Err e, s) => (Err e, s)
          | (Ok parts, s) => (Ok (BPartImage (toBedrockImageFormat (image_mime img)) bytes :: parts), s)
          end
      end
  end.

(** A block as the blocks it becomes. *)
Definition toBedrockBlock (client : HttpClient) (policy : urlFetchPolicy) (inject : bool) (b : ContentBlock) (s : NetSt)
    : res (list BContent) * NetSt :=
  match b with
  | TextBlock t => (Ok (if bool_decide (t = "") then [] else [BText t]), s)
  | ToolUseBlock v => (Ok [BToolUse (tu_ToolUseID v) (tu_Name v) (decoded_input (tu_Input v))], s)
  | ToolResultBlk v =>
      match result_images client policy (tr_Images v) s with
      | (Err e, s) => (Err e, s)
      | (Ok parts, s) => (Ok [BToolResult (tr_ToolUseID v) (BPartText (tr_Content v) :: parts) (tr_IsError v)], s)
      end
  | ImageBlock src =>
      match imageBytesWithFetcher client src s with
      | (Err e, s) => (Err (EWrap "ImageBlock" e), s)
      | (Ok bytes, s) => (Ok [BImage (toBedrockImageFormat (image_mime src)) bytes], s)
      end
  | DocumentBlock src =>
      let '(r, s) :=
        if bool_decide (ds_S3URI src <> "") then
          (Ok (BDocS3 (ds_S3URI src) (if bool_decide (ds_S3BucketOwner src <> "") then Some (ds_S3BucketOwner src) else None)), s)
        else if bool_decide (ds_FileID src <> "") then
          (Err (ENew "DocumentBlock: Bedrock does not support provider file IDs"), s)
        else match documentBytesWithFetcherAndPolicy client policy src s with
             | (Err e, s) => (Err (EWrap "DocumentBlock" e), s)
             | (Ok bytes, s) => (Ok (BDocBytes bytes), s)
             end in
      (match r with
       | Err e => Err e
       | Ok source => Ok (BDocument (sanitizeDocName (ds_Name src)) (toBedrockDocFormat (ds_MIMEType src)) source ::
                          if inject then [BCachePoint] else [])
       end, s)
  | WidgetBlock _ => (Ok [], s)
  end.

(* agent/provider/bedrock/bedrock.go: toBedrockContentBlocksWithFetcher *)
Fixpoint toBedrockContentBlocksWithFetcher (client : HttpClient) (policy : urlFetchPolicy) (blocks : list ContentBlock)
    (inject : bool) (s : NetSt) : res (list BContent) * NetSt :=
  match blocks with
  | [] => (Ok [], s)
  | b :: blocks =>
      match toBedrockBlock client policy inject b s with
      | (Err e, s) => (Err e, s)
      | (Ok out, s) =>
          match toBedrockContentBlocksWithFetcher client policy blocks inject s with
          | (Err e, s) => (Err e, s)
          | (Ok rest, s) => (Ok (out ++ rest), s)
          end
      end
  end.

(** The loop over messages. *)
Fixpoint convert_messages (client : HttpClient) (policy : urlFetchPolicy) (msgs : list Message) (inject : bool)
    (s : NetSt) : res (list BMessage) * NetSt :=
  match msgs with
  | [] => (Ok [], s)
  | m :: msgs =>
      match toBedrockContentBlocksWithFetcher client policy (m_Content m) inject s with
      | (Err e, s) => (Err e, s)
      | (Ok blocks, s) =>
          let blocks := if is_nil blocks then [BText "(no content)"] else blocks in
          match convert_messages client policy msgs inject s with
          | (Err e, s) => (Err e, s)
          | (Ok rest, s) => (Ok (mkBMessage (toBedrockRole (m_Role m)) blocks :: rest), s)
          end
      end
  end.

(* agent/provider/bedrock/bedrock.go: toBedrockMessagesWithFetcher *)
Definition toBedrockMessagesWithFetcher (client : HttpClient) (policy : urlFetchPolicy) (msgs : list Message)
    (modelID : string) (caching : bool) (s : NetSt) : res (list BMessage) * NetSt :=
  convert_messages client policy msgs (caching && isClaudeModel modelID) s.

(* agent/provider/bedrock/bedrock.go: toToolConfig *)
Definition toToolConfig (specs : list Spec) : option BToolConfig :=
  if is_nil specs then None
  else Some (mkBToolConfig (map (fun s => mkBToolSpec (sp_Name s) (sp_Description s) (sp_InputSchema s)) specs) None).

(* agent/provider/bedrock/bedrock.go: toBedrockToolChoice *)
Definition toBedrockToolChoice (tc : option Choice) : option BChoice :=
  match tc with
  | None => None
  | Some tc =>
      if bool_decide (ch_Mode tc = "auto") then Some BChoiceAuto
      else if bool_decide (ch_Mode tc = "any") then Some BChoiceAny
      else if bool_decide (ch_Mode tc = "tool") then Some (BChoiceTool (ch_Name tc))
      else None
  end.

(* agent/provider/bedrock/bedrock.go:395-427: the input of Stream *)
Definition stream_input (p : BedrockProvider W) (req : ModelRequest) (msgs : list BMessage) : BInput :=
  mkBInput (bp_model p) msgs (buildInferenceConfiguration p (mq_InferenceConfig req))
    (if bool_decide (mq_System req <> "") then Some (mq_System req, bp_cachingEnabled p && isClaudeModel (bp_model p))
     else None)
    (option_map (fun tc => mkBToolConfig (btc_Tools tc) (toBedrockToolChoice (mq_ToolChoice req)))
       (toToolConfig (mq_Tools req)))
    (buildAdditionalFields p (mq_InferenceConfig req))
    (if bool_decide (bp_guardrailID p <> "") then Some (bp_guardrailID p, bp_guardrailVersion p) else None).

(** * The event loop *)

(** ConverseStreamOutput; absent pointers of the usage are [None]. *)
Inductive BEvent : Type :=
| BStartTool (id name : string)
| BStartOther
| BDeltaText (text : string)
| BDeltaTool (input : string)
| BDeltaReasoning (text : string)
| BDeltaOther
| BStop
| BMetadata (usage : option (Z * Z * option Z * option Z))
| BOther.

(* agent/provider/bedrock/bedrock.go:448-453: streamState *)
Record streamState := mkStreamState {
  ss_toolName : string; ss_toolID : string; ss_toolInput : string; ss_reasoning : string }.

#[global] Instance eta_streamState : Settable streamState := fun s =>
  mkStreamState (ss_toolName s) (ss_toolID s) (ss_toolInput s) (ss_reasoning s).

Record BLoop := mkBLoop { bl_resp : ModelResponse; bl_state : streamState; bl_events : list ModelEvent }.

#[global] Instance eta_BLoop : Settable BLoop := fun l => mkBLoop (bl_resp l) (bl_state l) (bl_events l).

(* agent/provider/bedrock/bedrock.go: applyTokenUsage *)
Definition applyTokenUsage (resp : ModelResponse) (usage : option (Z * Z * option Z * option Z)) : ModelResponse :=
  match usage with
  | None => resp
  | Some (i, o, cr, cw) =>
      let u := mr_Usage resp in
      resp <| mr_Usage := mkTokenUsage i o (default (u_CacheRead u) cr) (default (u_CacheWrite u) cw) |>
  end.

(* agent/provider/bedrock/bedrock.go:482-504: ContentBlockStop of applyStreamEvent *)
Definition content_stop (l : BLoop) : BLoop :=
  let st := bl_state l in
  let l := if bool_decide (ss_toolName st <> "") then
             l <| bl_resp := add_call (ss_toolID st) (ss_toolName st) (ss_toolInput st) (bl_resp l) |>
               <| bl_state := mkStreamState "" "" "" (ss_reasoning st) |>
           else l in
  if bool_decide (ss_reasoning (bl_state l) <> "") then
    l <| bl_resp := add_thinking (ss_reasoning (bl_state l)) (bl_resp l) |>
      <| bl_state := (bl_state l) <| ss_reasoning := "" |> |>
  else l.

(* agent/provider/bedrock/bedrock.go: applyStreamEvent *)
Definition applyStreamEvent (l : BLoop) (ev : BEvent) : BLoop :=
  let st := bl_state l in
  match ev with
  | BStartTool id name => l <| bl_state := mkStreamState name id "" (ss_reasoning st) |>
  | BStartOther | BDeltaOther | BOther => l
  | BDeltaText t => l <| bl_resp := add_text t (bl_resp l) |> <| bl_events := bl_events l ++ [ModelEventText t] |>
  | BDeltaTool t => l <| bl_state := st <| ss_toolInput := ss_toolInput st +:+ t |> |>
  | BDeltaReasoning t =>
      l <| bl_state := st <| ss_reasoning := ss_reasoning st +:+ t |> |> <| bl_events := bl_events l ++ [ModelEventThinking t] |>
  | BStop => content_stop l
  | BMetadata usage => l <| bl_resp := applyTokenUsage (bl_resp l) usage |>
  end.

Definition bloop_zero : BLoop := mkBLoop response_zero (mkStreamState "" "" "" "") [].

(** The service answers an input with an error, or with events and the error the stream
    ends with, if any. *)
(* agent/provider/bedrock/bedrock.go: BedrockProvider.Stream *)
Definition Stream (p : BedrockProvider W) (ConverseStream : BInput -> res (list BEvent * option error))
    (req : ModelRequest) (emit : bool) (s : NetSt) : res ModelResponse * list ModelEvent * NetSt :=
  match toBedrockMessagesWithFetcher (bp_fetchClient p) (bp_urlFetchPolicy p) (mq_Messages req) (bp_model p)
          (bp_cachingEnabled p) s with
  | (Err e, s) => (Err (EProvider e), [], s)
  | (Ok msgs, s) =>
      match ConverseStream (stream_input p req msgs) with
      | Err e => (Err (EProvider e), [], s)
      | Ok (events, err) =>
          let l := fold_left applyStreamEvent events bloop_zero in
          (match err with Some e => Err (EProvider e) | None => Ok (bl_resp l) end,
           if emit then bl_events l else [], s)
      end
  end.

(** ConverseTokensRequest *)
Record BCount := mkBCount {
  bc_ModelId : string; bc_Messages : list BMessage; bc_System : option string; bc_ToolConfig : option BToolConfig }.

(* agent/provider/bedrock/estimator.go: Estimator.EstimateTokens *)
Definition EstimateTokens (p : BedrockProvider W) (CountTokens : BCount -> res Z) (req : ModelRequest) (s : NetSt)
    : res Z * NetSt :=
  match toBedrockMessagesWithFetcher (bp_fetchClient p) (bp_urlFetchPolicy p) (mq_Messages req) (bp_model p) false s with
  | (Err e, s) => (Err e, s)
  | (Ok msgs, s) =>
      (CountTokens (mkBCount (bp_model p) msgs (if bool_decide (mq_System req <> "") then Some (mq_System req) else None)
                      (toToolConfig (mq_Tools req))), s)
  end.

(** ** Streaming the blocks of a message *)

Definition bblock_events (b : SBlock) : list BEvent :=
  match b with
  | SText ps => BStartOther :: map BDeltaText ps ++ [BStop]
  | STool id name ps => BStartTool id name :: map BDeltaTool ps ++ [BStop]
  | SThinking ps => BStartOther :: map BDeltaReasoning ps ++ [BStop]
  end.
Definition bmessage_events (usage : option (Z * Z * option Z * option Z)) (bs : list SBlock) : list BEvent :=
  BOther :: concat (map bblock_events bs) ++ [BOther; BMetadata usage].

(** Between blocks no tool is open and no reasoning is pending. *)
Definition bidle (l : BLoop) : Prop := ss_toolName (bl_state l) = "" /\ ss_reasoning (bl_state l) = "".

Lemma btext_pieces ps l :
  fold_left applyStreamEvent (map BDeltaText ps) l =
    l <| bl_resp := add_text (pieces_text ps) (bl_resp l) |> <| bl_events := bl_events l ++ map ModelEventText ps |>.
Proof.
  revert l. induction ps as [|t ps IH]; intros [[text calls usage md] st evs]; simpl.
  - unfold add_text. simpl. by rewrite str_app_nil, app_nil_r.
  - rewrite IH. unfold add_text. simpl. by rewrite str_app_assoc, <- app_assoc.
Qed.

Lemma tool_pieces ps l :
  fold_left applyStreamEvent (map BDeltaTool ps) l =
    l <| bl_state := (bl_state l) <| ss_toolInput := ss_toolInput (bl_state l) +:+ pieces_text ps |> |>.
Proof.
  revert l. induction ps as [|t ps IH]; intros [resp [nm id inp re] evs]; simpl; [by rewrite str_app_nil|].
  rewrite IH. simpl. by rewrite str_app_assoc.
Qed.

Lemma reasoning_pieces ps l :
  fold_left applyStreamEvent (map BDeltaReasoning ps) l =
    l <| bl_state := (bl_state l) <| ss_reasoning := ss_reasoning (bl_state l) +:+ pieces_text ps |> |>
      <| bl_events := bl_events l ++ map ModelEventThinking ps |>.
Proof.
  revert l. induction ps as [|t ps IH]; intros [resp [nm id inp re] evs]; simpl; [by rewrite str_app_nil, app_nil_r|].
  rewrite IH. simpl. by rewrite str_app_assoc, <- app_assoc.
Qed.

Lemma bblock_streamed b l :
  named b -> bidle l ->
  let l' := fold_left applyStreamEvent (bblock_events b) l in
  bidle l' /\ bl_resp l' = block_response false (bl_resp l) b /\ bl_events l' = bl_events l ++ blocks_events [b].
Proof.
  intros Hn [Htool Hre]. destruct l as [resp [nm id inp re] evs]. simpl in Htool, Hre. subst nm re.
  unfold blocks_events, bidle. destruct b as [ps|bid bname ps|ps]; simpl in Hn; cbn [bblock_events fold_left];
    rewrite fold_left_app, ?btext_pieces, ?tool_pieces, ?reasoning_pieces; simpl; rewrite ?app_nil_r.
  - done.
  - unfold content_stop. simpl. by rewrite (bool_decide_true (bname <> "")) by done.
  - unfold content_stop. simpl. change ("" +:+ pieces_text ps) with (pieces_text ps).
    destruct (decide (pieces_text ps = "")) as [He|He].
    + rewrite bool_decide_false by tauto. done.
    + rewrite bool_decide_true by done. done.
Qed.

Lemma bblocks_streamed bs l :
  Forall named bs -> bidle l ->
  let l' := fold_left applyStreamEvent (concat (map bblock_events bs)) l in
  bidle l' /\ bl_resp l' = fold_left (block_response false) bs (bl_resp l) /\
  bl_events l' = bl_events l ++ blocks_events bs.
Proof.
  revert l. induction bs as [|b bs IH]; intros l Hn Hl; cbv zeta; simpl.
  - unfold blocks_events. simpl. by rewrite app_nil_r.
  - inversion Hn as [|? ? Hb Hbs]; subst. rewrite fold_left_app.
    destruct (bblock_streamed b l Hb Hl) as (Hidle & Hresp & Hevs).
    destruct (IH _ Hbs Hidle) as (H1 & H2 & H3). split; [done|]. rewrite H2, H3, Hresp, Hevs.
    split; [done|]. rewrite <- app_assoc. unfold blocks_events. simpl. by rewrite app_nil_r.
Qed.

Lemma stream_assembled bs usage :
  Forall named bs ->
  let l := fold_left applyStreamEvent (bmessage_events usage bs) bloop_zero in
  bl_resp l = applyTokenUsage (blocks_response false bs) usage /\ bl_events l = blocks_events bs.
Proof.
  intros Hn. unfold bmessage_events. cbn [fold_left]. rewrite fold_left_app.
  destruct (bblocks_streamed bs bloop_zero Hn) as (_ & Hresp & Hevs); [done|].
  set (l := fold_left applyStreamEvent (concat _) _) in *. cbn [fold_left applyStreamEvent]. simpl.
  by rewrite Hresp, Hevs.
Qed.

(** ** Messages are never blank *)

Definition not_blank (c : BContent) : Prop := c <> BText "".

Lemma block_not_blank client policy inject b s out s' :
  toBedrockBlock client policy inject b s = (Ok out, s') -> Forall not_blank out.
Proof.
  unfold toBedrockBlock, not_blank. destruct b as [t|u|r|src|src|w].
  - intros [= <- _]. destruct (decide (t = "")) as [->|Ht]; [rewrite bool_decide_true by done; constructor|].
    rewrite bool_decide_false by done. apply Forall_singleton. congruence.
  - intros [= <- _]. by apply Forall_singleton.
  - destruct (result_images _ _ _ _) as [[parts|e] s1]; [|done]. intros [= <- _]. by apply Forall_singleton.
  - destruct (imageBytesWithFetcher _ _ _) as [[bytes|e] s1]; [|done]. intros [= <- _]. by apply Forall_singleton.
  - destruct (if bool_decide (ds_S3URI src <> "") then _ else _) as [[source|e] s1]; [|done]. intros [= <- _].
    apply Forall_cons. split; [done|]. destruct inject; [by apply Forall_singleton | constructor].
  - intros [= <- _]. constructor.
Qed.

Lemma blocks_not_blank client policy inject blocks : forall s out s',
  toBedrockContentBlocksWithFetcher client policy blocks inject s = (Ok out, s') -> Forall not_blank out.
Proof.
  induction blocks as [|b blocks IH]; intros s out s'; simpl; [intros [= <- _]; constructor|].
  destruct (toBedrockBlock _ _ _ _ _) as [[o1|e] s1] eqn:Hb; [|done].
  destruct (toBedrockContentBlocksWithFetcher _ _ _ _ _) as [[o2|e] s2] eqn:Hr; [|done].
  intros [= <- _]. apply Forall_app. split; [by eapply block_not_blank | by eapply IH].
Qed.

(** A request that is built has one message per message of the history, in order
    and with its role, and each has at least one content block and no blank text. *)
Theorem bedrock_messages_wellformed (client : HttpClient) (policy : urlFetchPolicy) (msgs : list Message)
    (modelID : string) (caching : bool) (s : NetSt) (out : list BMessage) (s' : NetSt) :
  toBedrockMessagesWithFetcher client policy msgs modelID caching s = (Ok out, s') ->
  map bm_Role out = map (fun m => toBedrockRole (m_Role m)) msgs /\
  Forall (fun m => bm_Content m <> [] /\ Forall not_blank (bm_Content m)) out.
Proof.
  unfold toBedrockMessagesWithFetcher. generalize (caching && isClaudeModel modelID). intros inject.
  revert s out s'. induction msgs as [|m msgs IH]; intros s out s'; simpl; [by intros [= <- _]|].
  destruct (toBedrockContentBlocksWithFetcher _ _ _ _ _) as [[blocks|e] s1] eqn:Hb; [|done].
  destruct (convert_messages _ _ _ _ _) as [[rest|e] s2] eqn:Hr; [|done]. intros [= <- _].
  apply IH in Hr as [Hroles Hall]. apply blocks_not_blank in Hb. simpl. rewrite Hroles. split; [done|].
  constructor; [|done]. simpl. destruct blocks as [|c blocks]; simpl; [|done]. split; [done|]. by repeat constructor.
Qed.

(** ** Limits *)

(** With thinking on a Claude model, the limit is the answer's limit (or the default
    headroom) with the budget on top, and exceeds the budget, as long as the sum fits
    in 32 bits; where it does not fit, the limit wraps around and may be negative. *)
Theorem bedrock_max_tokens (p : BedrockProvider W) :
  (0 < resolveThinkingBudget p)%Z ->
  let budget := resolveThinkingBudget p in
  let base := default ThinkingOutputHeadroom (bp_maxTokens p) in
  (0 < base)%Z ->
  ((base + budget < 2147483648)%Z ->
     max_tokens p None = Some (base + budget)%Z /\ (budget < base + budget)%Z) /\
  ((2147483648 <= base + budget < 4294967296)%Z -> (budget < 2147483648)%Z -> (base < 2147483648)%Z ->
     exists m, max_tokens p None = Some m /\ (m < 0)%Z).
Proof.
  intros Hpos budget base Hbase. unfold max_tokens. fold budget. simpl. fold base.
  destruct (Z.ltb_spec 0 budget) as [_|Hle]; [|unfold budget in *; lia]. split.
  - intros Hfit. rewrite (i32_small budget), i32_small by lia. split; [done | lia].
  - intros Hover Hb1 Hb2. rewrite (i32_small budget) by lia. eexists. split; [reflexivity|].
    unfold i32. replace (base + budget + 2147483648)%Z with (base + budget - 2147483648 + 1 * 4294967296)%Z by lia.
    rewrite Z.mod_add by lia. rewrite Z.mod_small by lia. lia.
Qed.
End Bedrock.

(** ** The catalog *)

(** A model of the catalog is found under its own ID and under every
    inference-profile prefix, with the same profile. *)
Theorem lookupProfile_prefixes (model : string) (profile : modelProfile) :
  (model, profile) ∈ catalog ->
  lookupProfile model = Some profile /\
  (forall prefix, prefix ∈ inferenceProfilePrefixes -> lookupProfile (prefix +:+ "." +:+ model) = Some profile).
Proof.
  intros Hin.
  assert (forallb (fun '(m, _) => forallb (fun p => bool_decide (assoc (p +:+ "." +:+ m) catalog = None) &&
            bool_decide (cut_dot (p +:+ "." +:+ m) = Some (p, m))) inferenceProfilePrefixes) catalog = true) as Hall
    by (vm_compute; reflexivity).
  assert (forall m q, (m, q) ∈ catalog -> assoc m catalog = Some q) as Hself.
  { intros m q Hm. unfold catalog in Hm |- *.
    repeat (apply elem_of_cons in Hm as [[= -> ->]|Hm]; [reflexivity|]). by apply elem_of_nil in Hm. }
  split; [unfold lookupProfile; by rewrite (Hself _ _ Hin)|]. intros prefix Hp.
  rewrite forallb_forall in Hall. specialize (Hall _ (proj1 (list_elem_of_In _ _) Hin)). cbv beta iota in Hall.
  rewrite forallb_forall in Hall. specialize (Hall _ (proj1 (list_elem_of_In _ _) Hp)). bool_hyps.
  unfold lookupProfile. match goal with Ha : assoc _ _ = None, Hc : cut_dot _ = _ |- _ => rewrite Ha, Hc end.
  rewrite bool_decide_true by done. by apply Hself.
Qed.

Lemma lookupProfile_prefixes_witness :
  lookupProfile "us-gov.anthropic.claude-opus-5" = Some (claude 1000000 128000).
Proof.
  refine (proj2 (lookupProfile_prefixes "anthropic.claude-opus-5" (claude 1000000 128000) _) "us-gov" _);
    apply list_elem_of_In; vm_compute; tauto.
Defined.

(** The limits of a provider with an explicit limit and a high thinking effort. *)
Definition thinking_provider (maxTokens : Z) : BedrockProvider unit :=
  mkBedrock unit (mkHttpClient 0 (fun _ s => (Err (ENew "offline"), s)) None) policy_zero "anthropic.claude-opus-5"
    (Some maxTokens) thinkingStyleClaude "high" 0 "" "" false capabilities_zero.

Lemma bedrock_max_tokens_witness :
  max_tokens (thinking_provider 1000) None = Some 17384%Z /\
  exists m, max_tokens (thinking_provider 2147483647) None = Some m /\ (m < 0)%Z.
Proof.
  destruct (bedrock_max_tokens (thinking_provider 1000)) as [Hfit _]; [reflexivity | reflexivity|].
  destruct (bedrock_max_tokens (thinking_provider 2147483647)) as [_ Hover]; [reflexivity | reflexivity|].
  split; [apply Hfit; reflexivity|]. apply Hover; [split; [discriminate | reflexivity] | reflexivity | reflexivity].
Defined.

(** A blank message becomes a placeholder. *)
Lemma bedrock_messages_wellformed_witness :
  exists out s', @toBedrockMessagesWithFetcher nat rebinding_net plain_json (@newURLFetchClient nat rebinding_net 0 [])
      policy_zero [mkMessage RoleUser [TextBlock ""]] "m" false (mkNetSt 0%nat []) = (Ok out, s') /\
    Forall (fun m => bm_Content m <> [] /\ Forall not_blank (bm_Content m)) out.
Proof.
  eexists _, _. split; [vm_compute; reflexivity|].
  eapply (@bedrock_messages_wellformed nat rebinding_net plain_json (@newURLFetchClient nat rebinding_net 0 [])
    policy_zero [mkMessage RoleUser [TextBlock ""]] "m" false (mkNetSt 0%nat [])).
  vm_compute. reflexivity.
Defined.
