(* ===== verification/ProviderProps.v ===== *)
(** The providers side by side: they carry the same tool calls and results, their event
    loops agree, and where the media policy of Bedrock is not applied. *)
From S2P Require Import Prelude Errors Messages Execution Schema Tool Inference State.
From S2P Require Import Structured Base64 Providers NetAddr UrlFetch TextScrub.
From S2P Require Import Anthropic OpenAI Bedrock.

(** * Tool calls and results of a history *)

Inductive Link : Type := LCall (id name : string) | LResult (id : string).

Definition block_link (b : ContentBlock) : option Link :=
  match b with
  | ToolUseBlock u => Some (LCall (tu_ToolUseID u) (tu_Name u))
  | ToolResultBlk r => Some (LResult (tr_ToolUseID r))
  | _ => None
  end.
Definition links (m : Message) : list Link := omap block_link (m_Content m).

Definition anthropic_link (c : Anthropic.AParam) : option Link :=
  match c with
  | Anthropic.AToolUse id _ name => Some (LCall id name)
  | Anthropic.AToolResult id _ _ => Some (LResult id)
  | _ => None
  end.
Definition bedrock_link (c : Bedrock.BContent) : option Link :=
  match c with
  | Bedrock.BToolUse id name _ => Some (LCall id name)
  | Bedrock.BToolResult id _ _ => Some (LResult id)
  | _ => None
  end.
Definition openai_links (m : OpenAI.OMessage) : list Link :=
  match m with
  | OpenAI.OTool _ id => [LResult id]
  | OpenAI.OAssistant _ calls => map (fun c => LCall (OpenAI.ot_ID c) (OpenAI.ot_Name c)) calls
  | _ => []
  end.

(** The calls of an assistant message and the results of a user message, and nothing else. *)
Definition role_links (m : Message) : list Link :=
  List.filter (fun l => match l with
    | LCall _ _ => bool_decide (m_Role m = RoleAssistant)
    | LResult _ => bool_decide (m_Role m = RoleUser) end) (links m).

(** Calls stand in assistant messages and results in user messages, as the engine
    writes them. *)
Definition proper (m : Message) : Prop :=
  (m_Role m = RoleUser /\ forall u, ToolUseBlock u ∉ m_Content m) \/
  (m_Role m = RoleAssistant /\ forall r, ToolResultBlk r ∉ m_Content m).

Lemma omap_comp {A B C} (f : A -> option B) (g : B -> option C) (h : A -> option C) (xs : list A) :
  (forall x, x ∈ xs -> f x ≫= g = h x) -> omap g (omap f xs) = omap h xs.
Proof.
  induction xs as [|x xs IH]; intros Hx; [done|]. cbn [omap list_omap].
  assert (f x ≫= g = h x) as Hhead by (apply Hx; left).
  assert (omap g (omap f xs) = omap h xs) as Htail by (apply IH; intros y Hy; apply Hx; by right).
  destruct (f x) as [y|]; cbn [mbind option_bind] in Hhead; rewrite <- Hhead; [|exact Htail].
  change (omap g (y :: omap f xs)) with (match g y with Some z => z :: omap g (omap f xs) | None => omap g (omap f xs) end).
  rewrite Htail. by destruct (g y).
Qed.

Section Links.
Context {W : Type} `{Net W} `{JSONLib}.

Lemma anthropic_keeps m caching :
  omap anthropic_link (Anthropic.toAnthropicContentBlocks (m_Content m) (m_Role m) caching) = links m.
Proof.
  unfold Anthropic.toAnthropicContentBlocks, links. apply omap_comp. intros b _.
  destruct b as [t|u|r|src|src|w]; simpl; try done; destruct (bool_decide _); try done.
  - by destruct (Anthropic.buildAnthropicImageParam src).
  - by destruct (Anthropic.buildAnthropicDocParam src).
Qed.

Lemma bedrock_block_keeps client policy inject b s out s' :
  Bedrock.toBedrockBlock client policy inject b s = (Ok out, s') ->
  omap bedrock_link out = match block_link b with Some l => [l] | None => [] end.
Proof.
  unfold Bedrock.toBedrockBlock. destruct b as [t|u|r|src|src|w].
  - intros [= <- _]. by destruct (bool_decide _).
  - by intros [= <- _].
  - destruct (Bedrock.result_images _ _ _ _) as [[parts|e] s1]; [|done]. by intros [= <- _].
  - destruct (Bedrock.imageBytesWithFetcher _ _ _) as [[bytes|e] s1]; [|done]. by intros [= <- _].
  - destruct (if bool_decide (ds_S3URI src <> "") then _ else _) as [[source|e] s1]; [|done].
    intros [= <- _]. by destruct inject.
  - by intros [= <- _].
Qed.

Lemma bedrock_blocks_keep client policy inject blocks : forall s out s',
  Bedrock.toBedrockContentBlocksWithFetcher client policy blocks inject s = (Ok out, s') ->
  omap bedrock_link out = omap block_link blocks.
Proof.
  induction blocks as [|b blocks IH]; intros s out s'; simpl; [by intros [= <- _]|].
  destruct (Bedrock.toBedrockBlock _ _ _ _ _) as [[o1|e] s1] eqn:Hb; [|done].
  destruct (Bedrock.toBedrockContentBlocksWithFetcher _ _ _ _ _) as [[o2|e] s2] eqn:Hr; [|done].
  intros [= <- _]. rewrite omap_app, (bedrock_block_keeps _ _ _ _ _ _ _ Hb), (IH _ _ _ Hr). by destruct (block_link b).
Qed.

Lemma bedrock_messages_keep client policy inject msgs : forall s out s',
  Bedrock.convert_messages client policy msgs inject s = (Ok out, s') ->
  map (fun m => omap bedrock_link (Bedrock.bm_Content m)) out = map links msgs.
Proof.
  induction msgs as [|m msgs IH]; intros s out s'; simpl; [by intros [= <- _]|].
  destruct (Bedrock.toBedrockContentBlocksWithFetcher _ _ _ _ _) as [[blocks|e] s1] eqn:Hb; [|done].
  destruct (Bedrock.convert_messages _ _ _ _ _) as [[rest|e] s2] eqn:Hr; [|done]. intros [= <- _].
  apply bedrock_blocks_keep in Hb. simpl. rewrite (IH _ _ _ Hr). f_equal. unfold links. rewrite <- Hb.
  by destruct blocks.
Qed.

Definition result_link (b : ContentBlock) : option Link := match b with ToolResultBlk r => Some (LResult (tr_ToolUseID r)) | _ => None end.
Definition call_link (b : ContentBlock) : option Link := match b with ToolUseBlock u => Some (LCall (tu_ToolUseID u) (tu_Name u)) | _ => None end.

Lemma role_links_user m : m_Role m = RoleUser -> role_links m = omap result_link (m_Content m).
Proof.
  intros Hr. unfold role_links, links. rewrite Hr. induction (m_Content m) as [|b bs IH]; [done|]. by destruct b; cbn; rewrite <- ?IH.
Qed.
Lemma role_links_assistant m : m_Role m = RoleAssistant -> role_links m = omap call_link (m_Content m).
Proof.
  intros Hr. unfold role_links, links. rewrite Hr. induction (m_Content m) as [|b bs IH]; [done|]. by destruct b; cbn; rewrite <- ?IH.
Qed.
Lemma role_links_other m : m_Role m <> RoleUser -> m_Role m <> RoleAssistant -> role_links m = [].
Proof.
  intros H1 H2. unfold role_links. rewrite !bool_decide_false by done. induction (links m) as [|[] ls IH]; done.
Qed.

Lemma proper_links m : proper m -> role_links m = links m.
Proof.
  intros [[Hr Hno]|[Hr Hno]].
  - rewrite role_links_user by done. unfold links. induction (m_Content m) as [|b bs IH]; [done|].
    destruct b as [t|u|r|src|src|w]; cbn; rewrite ?IH; try done; try (intros x Hx; apply (Hno x); by right). destruct (Hno u). left.
  - rewrite role_links_assistant by done. unfold links. induction (m_Content m) as [|b bs IH]; [done|].
    destruct b as [t|u|r|src|src|w]; cbn; rewrite ?IH; try done; try (intros x Hx; apply (Hno x); by right). destruct (Hno r). left.
Qed.

Lemma openai_user_keeps bs : concat (map openai_links (OpenAI.toOpenAIUserMessages bs)) = omap result_link bs.
Proof.
  assert (forall ms, concat (map openai_links (omap OpenAI.user_message ms)) =
    omap (fun m => match m with OpenAI.OTool _ id => Some (LResult id) | _ => None end) (omap OpenAI.user_message ms)) as Hflat.
  { induction ms as [|b ms IH]; [done|]. cbn [omap list_omap].
    assert (forall m, OpenAI.user_message b = Some m -> match m with OpenAI.OAssistant _ _ => False | _ => True end) as Hb.
    { intros m. destruct b as [t|u|r|src|src|w]; simpl; try by intros [= <-].
      - unfold OpenAI.image_message. destruct (if bool_decide (is_URL src <> "") then _ else _); by intros [= <-].
      - unfold OpenAI.document_message. destruct (bool_decide (ds_FileID src <> "")); [by intros [= <-]|].
        destruct (if bool_decide (ds_Base64 src <> "") then _ else _); by intros [= <-]. }
    destruct (OpenAI.user_message b) as [m|]; [|exact IH]. specialize (Hb m eq_refl). cbn [map concat].
    rewrite IH. by destruct m. }
  unfold OpenAI.toOpenAIUserMessages. rewrite Hflat. apply omap_comp. intros b Hb.
  destruct b as [t|u|r|src|src|w]; simpl; try done.
  - unfold OpenAI.image_message. by destruct (if bool_decide (is_URL src <> "") then _ else _).
  - unfold OpenAI.document_message. destruct (bool_decide (ds_FileID src <> "")); [done|].
    by destruct (if bool_decide (ds_Base64 src <> "") then _ else _).
Qed.

Lemma openai_assistant_keeps bs : openai_links (OpenAI.toOpenAIAssistantMessage bs) = omap call_link bs.
Proof.
  unfold OpenAI.toOpenAIAssistantMessage. cbn [openai_links].
  rewrite <- (omap_comp (fun b => match b with ToolUseBlock v =>
      Some (OpenAI.mkOToolCall (tu_ToolUseID v) (tu_Name v) (default "" (tu_Input v))) | _ => None end)
    (fun c => Some (LCall (OpenAI.ot_ID c) (OpenAI.ot_Name c)))).
  - generalize (omap (fun b => match b with ToolUseBlock v =>
      Some (OpenAI.mkOToolCall (tu_ToolUseID v) (tu_Name v) (default "" (tu_Input v))) | _ => None end) bs) as cs.
    induction cs as [|c cs IH]; [done|]. simpl. by rewrite IH.
  - intros b Hb. by destruct b as [t|u|r|src|src|w].
Qed.

(** C26. The tool calls and tool results of any history, by ID and name and in their order, reach every provider: message
    by message for Anthropic, and for Bedrock when the conversion succeeds; in one sequence for OpenAI, where a message
    becomes several, but there only the calls of assistant messages and the results of user messages: those that stand
    in a message of another role are left out.  In a history as the engine writes it (calls by the assistant, results by
    the user) OpenAI too gets all of them. *)
Theorem providers_keep_links (msgs : list Message) (system modelID : string) (caching : bool)
    (client : HttpClient) (policy : urlFetchPolicy) (s : NetSt) :
  map (fun m => omap anthropic_link (Anthropic.am_Content m)) (Anthropic.toAnthropicMessages msgs caching) = map links msgs /\
  (forall out s', Bedrock.toBedrockMessagesWithFetcher client policy msgs modelID caching s = (Ok out, s') ->
     map (fun m => omap bedrock_link (Bedrock.bm_Content m)) out = map links msgs) /\
  concat (map openai_links (OpenAI.toOpenAIMessages msgs system)) = concat (map role_links msgs) /\
  (Forall proper msgs -> concat (map openai_links (OpenAI.toOpenAIMessages msgs system)) = concat (map links msgs)).
Proof.
  assert (Ho : concat (map openai_links (OpenAI.toOpenAIMessages msgs system)) = concat (map role_links msgs)).
  { unfold OpenAI.toOpenAIMessages. rewrite map_app, concat_app.
    assert (concat (map openai_links (if bool_decide (system <> "") then [OpenAI.OSystem system] else [])) = []) as ->
      by (by destruct (bool_decide _)).
    cbn [app]. induction msgs as [|m msgs IH]; [done|]. cbn [map concat]. rewrite map_app, concat_app, IH. f_equal.
    destruct (decide (m_Role m = RoleUser)) as [E|E]; [|destruct (decide (m_Role m = RoleAssistant)) as [E2|E2]].
    - rewrite bool_decide_true by done. rewrite role_links_user by done. apply openai_user_keeps.
    - rewrite bool_decide_false, bool_decide_true by done. cbn [map concat]. rewrite app_nil_r, role_links_assistant by done. apply openai_assistant_keeps.
    - rewrite !bool_decide_false by done. by rewrite role_links_other. }
  split_and!.
  - unfold Anthropic.toAnthropicMessages. rewrite map_map. apply map_ext. intros m. apply anthropic_keeps.
  - intros out s'. apply bedrock_messages_keep.
  - exact Ho.
  - intros Hp. rewrite Ho. clear Ho. induction Hp as [|m msgs Hm _ IH]; [done|]. cbn [map concat]. by rewrite IH, proper_links.
Qed.

(** * The event loops agree *)

(** The event loops of Bedrock and of Anthropic turn the same blocks of a model into
    the same text, the same tool calls and the same events, however each service cuts
    them into pieces. *)
Theorem bedrock_stream_agrees (float32_of : float64 -> float64) (p : Bedrock.BedrockProvider W) (q : Anthropic.AnthropicProvider)
    (req : ModelRequest) (emit : bool) (usage : option (Z * Z * option Z * option Z)) (bs : list SBlock) (s : NetSt)
    (msgs : list Bedrock.BMessage) (s' : NetSt) :
  Forall named bs ->
  Bedrock.toBedrockMessagesWithFetcher (Bedrock.bp_fetchClient p) (Bedrock.bp_urlFetchPolicy p) (mq_Messages req)
    (Bedrock.bp_model p) (Bedrock.bp_cachingEnabled p) s = (Ok msgs, s') ->
  let '(rb, eb, _) := Bedrock.Stream float32_of p (fun _ => Ok (Bedrock.bmessage_events usage bs, None)) req emit s in
  let '(ra, ea) := Anthropic.Stream q (fun _ => (Anthropic.message_events 0 0 0 0 bs, None)) req emit in
  exists b a, rb = Ok b /\ ra = Ok a /\ mr_Text b = mr_Text a /\ mr_ToolCalls b = mr_ToolCalls a /\ eb = ea /\
    mr_Text b = blocks_text bs /\ mr_ToolCalls b = blocks_calls bs.
Proof.
  intros Hn Hreq. unfold Bedrock.Stream. rewrite Hreq.
  destruct (Bedrock.stream_assembled bs usage Hn) as [Hr He].
  set (l := fold_left Bedrock.applyStreamEvent _ _) in *.
  unfold Anthropic.Stream, Anthropic.message_events. cbn [fold_left]. rewrite fold_left_app.
  destruct (Anthropic.blocks_streamed bs (Anthropic.stream_event Anthropic.loop_zero (Anthropic.EvMessageStart 0 0 0)) Hn)
    as (_ & Har & Hae); [done|].
  set (k := fold_left Anthropic.stream_event (concat _) _) in *. cbn [fold_left Anthropic.stream_event].
  eexists _, _. split; [reflexivity|]. split; [reflexivity|].
  destruct (fold_response_text true bs (Anthropic.al_resp (Anthropic.stream_event Anthropic.loop_zero (Anthropic.EvMessageStart 0 0 0))))
    as (Ht & Hc & _). rewrite <- Har in Ht, Hc.
  destruct (blocks_response_parts false bs) as [Ht2 Hc2].
  assert (mr_Text (Bedrock.bl_resp l) = blocks_text bs /\ mr_ToolCalls (Bedrock.bl_resp l) = blocks_calls bs) as [H1 H2].
  { rewrite Hr. destruct usage as [[[[]]]|]; simpl; by rewrite Ht2, Hc2. }
  simpl. rewrite H1, H2, Ht, Hc, He, Hae. done.
Qed.
End Links.

(** * Witnesses and media *)

(** A network in which every name is [10.0.0.5] and every server serves a page. *)
Definition private_net : Net unit := {|
  net_LookupIPAddr _ w := (Ok [String.string_of_list_ascii (map Ascii.ascii_of_nat [10; 0; 0; 5]%nat)], w);
  net_Exchange a port u w := (Ok (mkHTTPResponse 200 "" 3 "" "png" None), w);
  url_Parse s := Ok (mkURL "https" false "files.internal" s);
  url_Reparse u := Ok u;
  url_Resolve u loc := Ok u;
  url_DialAddress u := u_Hostname u;
  net_SplitHostPort a := Ok (a, "443");
  addr_String a := "10.0.0.5";
  fmt_Quote s := s;
  fmt_Int z := "" |}.

Definition paired_history : list Message :=
  [mkMessage RoleUser [TextBlock "weather?"];
   mkMessage RoleAssistant [TextBlock "checking"; ToolUseBlock (mkToolUse "t1" "weather" (Some "{}"))];
   mkMessage RoleUser [ToolResultBlk (mkToolResult "t1" "sunny" false [])]].

Lemma providers_keep_links_witness :
  exists out s', @Bedrock.toBedrockMessagesWithFetcher unit private_net plain_json
      (@newURLFetchClient unit private_net 0 []) policy_zero paired_history "m" false (mkNetSt tt []) = (Ok out, s') /\
    map (fun m => omap bedrock_link (Bedrock.bm_Content m)) out = [[]; [LCall "t1" "weather"]; [LResult "t1"]] /\
    concat (map openai_links (OpenAI.toOpenAIMessages paired_history "be brief")) = [LCall "t1" "weather"; LResult "t1"].
Proof.
  destruct (@providers_keep_links unit private_net plain_json paired_history "be brief" "m" false
    (@newURLFetchClient unit private_net 0 []) policy_zero (mkNetSt tt [])) as (_ & Hb & _ & Ho).
  assert (Forall proper paired_history) as Hp.
  { repeat apply Forall_cons_2; try apply Forall_nil_2; [left | right | left]; (split; [reflexivity|]); intros x Hx;
      repeat (apply elem_of_cons in Hx as [Hx|Hx]; [discriminate|]); by apply elem_of_nil in Hx. }
  eexists _, _. split; [vm_compute; reflexivity|]. split; [|exact (Ho Hp)].
  eapply Hb. vm_compute. reflexivity.
Defined.

Lemma bedrock_stream_agrees_witness :
  let '(rb, eb, _) := @Bedrock.Stream unit private_net plain_json (fun f => f)
      (Bedrock.mkBedrock unit (@newURLFetchClient unit private_net 0 []) policy_zero "m" None Bedrock.thinkingStyleNone "" 0 "" ""
         false capabilities_zero) (fun _ => Ok (Bedrock.bmessage_events None sample_blocks, None))
      (mkRequest [] "" [] None None) true (mkNetSt tt []) in
  exists b, rb = Ok b /\ mr_Text b = "Hello" /\ length (mr_ToolCalls b) = 2%nat /\ length eb = 3%nat.
Proof.
  pose proof (@bedrock_stream_agrees unit private_net plain_json (fun f => f)
      (Bedrock.mkBedrock unit (@newURLFetchClient unit private_net 0 []) policy_zero "m" None Bedrock.thinkingStyleNone "" 0 "" ""
         false capabilities_zero) (Anthropic.New "claude-opus-5" []) (mkRequest [] "" [] None None) true None sample_blocks
      (mkNetSt tt []) [] (mkNetSt tt [])) as Hs.
  assert (Forall named sample_blocks) as Hn by (repeat constructor; discriminate). specialize (Hs Hn eq_refl).
  destruct (Bedrock.Stream _ _ _ _ _ _) as [[rb eb] s'] eqn:Hb.
  destruct (Anthropic.Stream _ _ _ _) as [ra ea] eqn:Ha.
  destruct Hs as (b & a & Hrb & _ & _ & _ & He & Ht & Hc).
  exists b. split; [exact Hrb|]. split; [exact Ht|]. split; [by rewrite Hc|].
  vm_compute in Ha. injection Ha as _ <-. by rewrite He.
Defined.

(** A provider that allows private networks for media still refuses an image block
    whose URL is on a private network, because image blocks are fetched under the
    default policy; the same URL in a document or in a tool result is fetched. *)
Theorem bedrock_image_policy_ignored :
  let url := "https://files.internal/a.png" in
  let policy := mkPolicy true None in
  let client := @newURLFetchClient unit private_net 0 [policy] in
  let convert b := fst (@Bedrock.toBedrockBlock unit private_net plain_json client policy false b (mkNetSt tt [])) in
  is_ok (convert (ImageBlock (mkImageSource None "" url ""))) = false /\
  is_ok (convert (DocumentBlock (mkDocumentSource None "" url "" "" "" "" ""))) = true /\
  is_ok (convert (ToolResultBlk (mkToolResult "t" "" false [mkImageSource None "" url ""]))) = true.
Proof. vm_compute. done. Qed.
