(* ===== verification/Decimal.v ===== *)
(** Decimal texts: strconv.FormatInt, ParseUint, ParseInt and Atoi of the Go standard
    library in base 10, on which the Redis backends rely, and their round trips. *)
From stdpp Require Import pretty.
From Stdlib Require Import Ascii.
From S2P Require Import Prelude Errors.
Local Open Scope Z_scope.

Definition digit_val (c : ascii) : option N :=
  let n := N_of_ascii c in if bool_decide (48 <= n <= 57)%N then Some (n - 48)%N else None.

(** The digits that follow a number read so far. *)
Fixpoint read_digits (acc : N) (s : string) : option N :=
  match s with
  | EmptyString => Some acc
  | String c s => match digit_val c with Some d => read_digits (acc * 10 + d) s | None => None end
  end.

(** One digit or more. *)
Definition read_N (s : string) : option N :=
  match s with EmptyString => None | _ => read_digits 0 s end.

Definition syntax_error : error := ENew "invalid syntax".
Definition range_error : error := ENew "value out of range".

(** strconv.ParseUint(s, 10, 64) *)
Definition ParseUint (s : string) : res N :=
  match read_N s with
  | None => Err syntax_error
  | Some n => if bool_decide (n < 2 ^ 64)%N then Ok n else Err range_error
  end.

Definition read_Z (s : string) : option Z :=
  match s with
  | String c s' =>
      if Ascii.eqb c "-"%char then Z.opp ∘ Z.of_N <$> read_N s'
      else if Ascii.eqb c "+"%char then Z.of_N <$> read_N s'
      else Z.of_N <$> read_N s
  | EmptyString => None
  end.

(** strconv.ParseInt(s, 10, 64) and strconv.Atoi *)
Definition ParseInt (s : string) : res Z :=
  match read_Z s with
  | None => Err syntax_error
  | Some z => if bool_decide (- 2 ^ 63 <= z < 2 ^ 63) then Ok z else Err range_error
  end.

(** strconv.FormatInt and FormatUint in base 10. *)
Definition FormatInt (z : Z) : string := pretty z.
Definition FormatUint (n : N) : string := pretty n.

Example decimal_examples :
  map FormatInt [0; 7; -120; 18446744073709551616] = ["0"; "7"; "-120"; "18446744073709551616"]%string /\
  map ParseInt ["0"; "007"; "-120"; "+5"; "9223372036854775807"]%string = [Ok 0; Ok 7; Ok (-120); Ok 5; Ok 9223372036854775807] /\
  map ParseInt [""; "-"; "1x"; "9223372036854775808"]%string =
    [Err syntax_error; Err syntax_error; Err syntax_error; Err range_error] /\
  map ParseUint ["18446744073709551615"; "18446744073709551616"; "-1"]%string =
    [Ok 18446744073709551615%N; Err range_error; Err syntax_error].
Proof. vm_compute. done. Qed.

(** * Round trips *)

Lemma digit_val_char x : (x < 10)%N -> digit_val (pretty_N_char x) = Some x.
Proof.
  intros Hx. assert (x ∈ (N.of_nat <$> seq 0 10)) as Hin.
  { apply list_elem_of_fmap. exists (N.to_nat x). split; [lia|]. apply elem_of_seq. lia. }
  revert x Hx Hin. cut (Forall (fun x => digit_val (pretty_N_char x) = Some x) (N.of_nat <$> seq 0 10)).
  { rewrite Forall_forall. auto. }
  repeat constructor.
Qed.

(** Reading the digits of [x] before [s] is reading [s] after [x]. *)
Lemma read_pretty_go x s : read_digits 0 (pretty_N_go x s) = read_digits x s.
Proof.
  revert s. induction x as [x IH] using (well_founded_induction N.lt_wf_0). intros s.
  destruct (decide (x = 0)%N) as [->|Hx]; [by rewrite pretty_N_go_0|].
  rewrite pretty_N_go_step by lia. rewrite IH by (apply N.div_lt; lia).
  cbn [read_digits]. rewrite digit_val_char by (apply N.mod_upper_bound; lia).
  f_equal. pose proof (N.div_mod x 10). lia.
Qed.

Lemma pretty_N_nonempty (n : N) : pretty n <> ""%string.
Proof.
  unfold pretty, pretty_N. case_decide; [done|]. intros Hp.
  assert (read_digits 0 (pretty_N_go n "") = Some 0%N) as H0 by (by rewrite Hp).
  rewrite read_pretty_go in H0. simpl in H0. congruence.
Qed.

Lemma read_N_pretty (n : N) : read_N (pretty n) = Some n.
Proof.
  unfold read_N. destruct (pretty n) as [|c s] eqn:Hp; [by apply pretty_N_nonempty in Hp|]. rewrite <- Hp.
  unfold pretty, pretty_N. case_decide as Hd; [by subst|]. by rewrite read_pretty_go.
Qed.

Lemma digit_not_sign c d : digit_val c = Some d -> c <> "-"%char /\ c <> "+"%char.
Proof. intros H. split; intros ->; vm_compute in H; discriminate. Qed.

Lemma read_Z_unsigned s n : read_N s = Some n -> read_Z s = Some (Z.of_N n).
Proof.
  destruct s as [|c s]; [done|]. intros H. unfold read_Z.
  destruct (digit_val c) as [d|] eqn:Hc; [|by unfold read_N in H; simpl in H; rewrite Hc in H].
  apply digit_not_sign in Hc as [H1 H2].
  rewrite (proj2 (Ascii.eqb_neq _ _) H1), (proj2 (Ascii.eqb_neq _ _) H2), H. done.
Qed.

Lemma read_Z_pretty (z : Z) : read_Z (pretty z) = Some z.
Proof.
  destruct z as [|p|p].
  - done.
  - change (pretty (Z.pos p)) with (pretty (N.pos p)). by rewrite (read_Z_unsigned _ _ (read_N_pretty _)).
  - change (pretty (Z.neg p)) with (String "-" (pretty (N.pos p))). unfold read_Z.
    rewrite Ascii.eqb_refl, read_N_pretty. done.
Qed.

(** A number in range comes back from its text. *)
Theorem ParseInt_FormatInt z : - 2 ^ 63 <= z < 2 ^ 63 -> ParseInt (FormatInt z) = Ok z.
Proof. intros Hz. unfold ParseInt, FormatInt. by rewrite read_Z_pretty, bool_decide_true. Qed.

Theorem ParseUint_FormatUint n : (n < 2 ^ 64)%N -> ParseUint (FormatUint n) = Ok n.
Proof. intros Hn. unfold ParseUint, FormatUint. by rewrite read_N_pretty, bool_decide_true. Qed.

Lemma pretty_of_N (n : N) : pretty (Z.of_N n) = pretty n.
Proof. by destruct n. Qed.

Lemma FormatUint_Z n : FormatUint n = FormatInt (Z.of_N n).
Proof. unfold FormatUint, FormatInt. by rewrite pretty_of_N. Qed.

Lemma ParseUint_of_Z z : 0 <= z < 2 ^ 64 -> ParseUint (FormatInt z) = Ok (Z.to_N z).
Proof.
  intros Hz. unfold FormatInt. rewrite <- (Z2N.id z) at 1 by lia. rewrite pretty_of_N.
  apply ParseUint_FormatUint. zify. lia.
Qed.

Lemma FormatInt_inj a b : FormatInt a = FormatInt b -> a = b.
Proof. unfold FormatInt. intros H. apply (f_equal read_Z) in H. rewrite !read_Z_pretty in H. congruence. Qed.
