(* ===== verification/RedisServer.v ===== *)
(** A Redis server as its clients see it: hashes, sorted sets, strings and streams
    with expiry times, the commands that the stores of the repository send, and Lua
    scripts as atomic programs over these commands.

    The server is not part of the repository; the commands follow its documentation.
    What it leaves open is a parameter: whether a key still lives in the very
    millisecond of its expiry ([edge]), and how a script writes numbers of 2^53 and
    more ([lua_large]).  A key has one type: the stores never use a name for two. *)
From Stdlib Require Import Ascii.
From S2P Require Import Prelude Errors Decimal.
From S2P Require Import SqlConversation ExecutionBackends.
Local Open Scope Z_scope.

(** * The key space *)

Record keyed (V : Type) := mkKeyed { kv_val : V; kv_exp : option Z }.
Arguments mkKeyed {V}.
Arguments kv_val {V}.
Arguments kv_exp {V}.

(** A stream entry of the ID n-0 with its fields. *)
Record stream_entry := mkEntry { se_id : N; se_fields : gmap string string }.

Record rdb := mkRdb {
  rd_hash : gmap string (keyed (gmap string string));
  rd_zset : gmap string (keyed (gmap string Z));
  rd_str : gmap string (keyed string);
  rd_stream : gmap string (keyed (list stream_entry)) }.

#[global] Instance eta_rdb : Settable rdb := fun d => mkRdb (rd_hash d) (rd_zset d) (rd_str d) (rd_stream d).

Definition empty_rdb : rdb := mkRdb ∅ ∅ ∅ ∅.

Class RedisServer := { edge : bool; lua_large : Z -> string }.

Section Server.
Context `{RedisServer}.

Definition live_at (now : Z) (e : option Z) : bool :=
  match e with None => true | Some t => bool_decide (now < t) || (edge && bool_decide (now = t)) end.

Definition live {V} (now : Z) (p : string * keyed V) : Prop := live_at now (kv_exp p.2) = true.
#[global] Instance live_dec {V} now (p : string * keyed V) : Decision (live now p).
Proof. unfold live. apply _. Defined.

(** The keys that have expired are gone before a command or script runs. *)
Definition purge (now : Z) (d : rdb) : rdb :=
  mkRdb (filter (live now) (rd_hash d)) (filter (live now) (rd_zset d)) (filter (live now) (rd_str d)) (filter (live now) (rd_stream d)).

(** * Commands *)

Definition cmd_hash (d : rdb) (k : string) : gmap string string := default ∅ (kv_val <$> rd_hash d !! k).
Definition cmd_zset (d : rdb) (k : string) : gmap string Z := default ∅ (kv_val <$> rd_zset d !! k).
Definition cmd_stream (d : rdb) (k : string) : list stream_entry := default [] (kv_val <$> rd_stream d !! k).

(** Replace the value of a key and keep its expiry; an empty collection is no key. *)
Definition put_key {V} (k : string) (v : V) (empty : bool) (m : gmap string (keyed V)) : gmap string (keyed V) :=
  if empty then delete k m else <[k := mkKeyed v (m !! k ≫= kv_exp)]> m.

Definition HGET (k f : string) (d : rdb) : option string := cmd_hash d k !! f.
Definition HSET (k : string) (fs : list (string * string)) (d : rdb) : rdb :=
  d <| rd_hash := put_key k (foldl (fun m p => <[p.1 := p.2]> m) (cmd_hash d k) fs) false (rd_hash d) |>.
Definition HDEL (k f : string) (d : rdb) : rdb :=
  let h := delete f (cmd_hash d k) in d <| rd_hash := put_key k h (bool_decide (h = ∅)) (rd_hash d) |>.

Definition ZCARD (k : string) (d : rdb) : Z := Z.of_nat (size (cmd_zset d k)).
Definition ZADD (k : string) (score : Z) (member : string) (d : rdb) : rdb :=
  d <| rd_zset := put_key k (<[member := score]> (cmd_zset d k)) false (rd_zset d) |>.
Definition ZREM (k member : string) (d : rdb) : rdb :=
  let z := delete member (cmd_zset d k) in d <| rd_zset := put_key k z (bool_decide (z = ∅)) (rd_zset d) |>.

(** ZRANGEBYSCORE k -inf max: the members with at most this score. *)
Definition upto (max : Z) (p : string * Z) : Prop := p.2 <= max.
#[global] Instance upto_dec max p : Decision (upto max p).
Proof. unfold upto. apply _. Defined.
Definition ZRANGEBYSCORE (k : string) (max : Z) (d : rdb) : list string := (map_to_list (filter (upto max) (cmd_zset d k))).*1.
(** ZREMRANGEBYSCORE k -inf max *)
Definition ZREMRANGEBYSCORE (k : string) (max : Z) (d : rdb) : rdb :=
  let z := filter (fun p => ~ upto max p) (cmd_zset d k) in d <| rd_zset := put_key k z (bool_decide (z = ∅)) (rd_zset d) |>.

Definition GET (k : string) (d : rdb) : option string := kv_val <$> rd_str d !! k.
(** SET discards the expiry of the key. *)
Definition SET (k v : string) (d : rdb) : rdb := d <| rd_str := <[k := mkKeyed v None]> (rd_str d) |>.

(** PEXPIRE and PERSIST apply to a key of any type. *)
Definition set_expiry {V} (k : string) (e : option Z) (m : gmap string (keyed V)) : gmap string (keyed V) :=
  alter (fun v => mkKeyed (kv_val v) e) k m.
Definition DEL (k : string) (d : rdb) : rdb :=
  mkRdb (delete k (rd_hash d)) (delete k (rd_zset d)) (delete k (rd_str d)) (delete k (rd_stream d)).
Definition with_expiry (k : string) (e : option Z) (d : rdb) : rdb :=
  mkRdb (set_expiry k e (rd_hash d)) (set_expiry k e (rd_zset d)) (set_expiry k e (rd_str d)) (set_expiry k e (rd_stream d)).
Definition PEXPIRE (now : Z) (k : string) (ttl : Z) (d : rdb) : rdb :=
  if bool_decide (ttl <= 0) then DEL k d else with_expiry k (Some (now + ttl)) d.
Definition PERSIST (k : string) (d : rdb) : rdb := with_expiry k None d.

(** * Scripts

    A script runs alone, at one time.  A command or a conversion that fails ends it;
    what it has written so far stays. *)
Definition LM (A : Type) : Type := Z -> rdb -> res A * rdb.
Definition lua_ret {A} (a : A) : LM A := fun _ d => (Ok a, d).
Definition lua_fail {A} (msg : string) : LM A := fun _ d => (Err (ENew msg), d).
Definition lua_bind {A B} (m : LM A) (k : A -> LM B) : LM B := fun now d =>
  match m now d with (Ok a, d) => k a now d | (Err e, d) => (Err e, d) end.
Definition lua_do (f : rdb -> rdb) : LM unit := fun _ d => (Ok tt, f d).
Definition lua_read {A} (f : rdb -> A) : LM A := fun _ d => (Ok (f d), d).
Definition lua_now : LM Z := fun now d => (Ok now, d).
Definition lua_expire (k : string) (ttl : Z) : LM unit := fun now d => (Ok tt, PEXPIRE now k ttl d).

(** Numbers are binary64; an integer is exact below 2^53. *)
Definition lua_num (n : Z) : Z := rds_tonumber n.
Definition lua_show (n : Z) : string := if bool_decide (n < 2 ^ 53) then FormatInt n else lua_large n.
(** tonumber; arithmetic on nil is an error.  The texts are decimal integers. *)
Definition tonumber (s : string) : LM Z :=
  match read_Z s with Some z => lua_ret (lua_num z) | None => lua_fail "attempt to perform arithmetic on a nil value" end.

(** KEYS[i] and ARGV[i], counted from 1. *)
Definition lua_at (xs : list string) (i : nat) : LM string :=
  match xs !! pred i with Some x => lua_ret x | None => lua_fail "Lua redis lib command arguments must be strings or integers" end.

(** INCRBY counts in signed 64-bit integers. *)
Definition INCRBY (k : string) (amount : Z) : LM unit := fun now d =>
  match read_Z (default "0" (GET k d)) with
  | Some n =>
      if bool_decide (- 2 ^ 63 <= n + amount < 2 ^ 63)
      then (Ok tt, d <| rd_str := put_key k (FormatInt (n + amount)) false (rd_str d) |>)
      else (Err (ENew "ERR increment or decrement would overflow"), d)
  | None => (Err (ENew "ERR value is not an integer or out of range"), d)
  end.

(** XADD k n-0 fields: IDs grow. *)
Definition XADD (k : string) (id : N) (fields : gmap string string) : LM unit := fun _ d =>
  if bool_decide (from_option se_id 0%N (last (cmd_stream d k)) < id)%N
  then (Ok tt, d <| rd_stream := put_key k (cmd_stream d k ++ [mkEntry id fields]) false (rd_stream d) |>)
  else (Err (ENew "ERR The ID specified in XADD is equal or smaller than the target stream top item"), d).

(** * Requests

    Around a request other clients act, time passes, and the request or its answer can
    be lost. *)
Record renv := mkRenv { re_before : rdb -> rdb; re_now : Z; re_fault : fault }.

Definition rrequest {A} (f : LM A) (e : renv) (d : rdb) : res A * rdb :=
  let d := purge (re_now e) (re_before e d) in
  match re_fault e with
  | NoFault => f (re_now e) d
  | Failed err => (Err err, d)
  | LostAck err => (Err err, (f (re_now e) d).2)
  end.

End Server.

Notation "'let^' x := m 'in' k" := (lua_bind m (fun x => k))
  (at level 10, x binder, m at level 100, k at level 200) : gude_scope.

(** * Running scripts *)

Section Running.
Context `{RedisServer} {A B : Type}.
Implicit Types (now : Z) (d : rdb).

Lemma bind_run (m : LM A) (k : A -> LM B) now d :
  lua_bind m k now d = match m now d with (Ok a, d) => k a now d | (Err e, d) => (Err e, d) end.
Proof. reflexivity. Qed.
Lemma bind_ret a (k : A -> LM B) : lua_bind (lua_ret a) k = k a.
Proof. reflexivity. Qed.
Lemma bind_read f (k : A -> LM B) now d : lua_bind (lua_read f) k now d = k (f d) now d.
Proof. reflexivity. Qed.
Lemma bind_do f (k : unit -> LM B) now d : lua_bind (lua_do f) k now d = k tt now (f d).
Proof. reflexivity. Qed.
Lemma bind_now (k : Z -> LM B) now d : lua_bind lua_now k now d = k now now d.
Proof. reflexivity. Qed.
Lemma bind_expire key ttl (k : unit -> LM B) now d : lua_bind (lua_expire key ttl) k now d = k tt now (PEXPIRE now key ttl d).
Proof. reflexivity. Qed.
End Running.

(** One command after the other, up to a step that can fail. *)
Ltac lua_run := rewrite ?bind_ret, ?bind_read, ?bind_do, ?bind_now, ?bind_expire; cbv beta iota.

Arguments put_key : simpl never.
Arguments set_expiry : simpl never.

(** * Frames

    A command changes nothing but its key. *)

Definition same_key (k : string) (d d' : rdb) : Prop :=
  rd_hash d !! k = rd_hash d' !! k /\ rd_zset d !! k = rd_zset d' !! k /\
  rd_str d !! k = rd_str d' !! k /\ rd_stream d !! k = rd_stream d' !! k.

#[global] Instance same_key_equivalence k : Equivalence (same_key k).
Proof. split; unfold same_key; [done | intros ?; naive_solver | intros ???; naive_solver congruence]. Qed.

Section Frames.
Context `{RedisServer}.
Implicit Types (now : Z) (d : rdb).

Lemma put_key_ne {V} k k' (v : V) b m : k <> k' -> put_key k' v b m !! k = m !! k.
Proof. intros Hk. unfold put_key. destruct b; by rewrite ?lookup_delete_ne, ?lookup_insert_ne. Qed.

Lemma set_expiry_ne {V} k k' e (m : gmap string (keyed V)) : k <> k' -> set_expiry k' e m !! k = m !! k.
Proof. intros Hk. unfold set_expiry. by rewrite lookup_alter_ne. Qed.

Lemma HSET_same k k' fs d : k <> k' -> same_key k (HSET k' fs d) d.
Proof. intros Hk. unfold HSET, same_key. simpl. by rewrite put_key_ne. Qed.
Lemma HDEL_same k k' f d : k <> k' -> same_key k (HDEL k' f d) d.
Proof. intros Hk. unfold HDEL, same_key. simpl. by rewrite put_key_ne. Qed.
Lemma ZADD_same k k' sc m d : k <> k' -> same_key k (ZADD k' sc m d) d.
Proof. intros Hk. unfold ZADD, same_key. simpl. by rewrite put_key_ne. Qed.
Lemma ZREM_same k k' m d : k <> k' -> same_key k (ZREM k' m d) d.
Proof. intros Hk. unfold ZREM, same_key. simpl. by rewrite put_key_ne. Qed.
Lemma ZREMRANGE_same k k' max d : k <> k' -> same_key k (ZREMRANGEBYSCORE k' max d) d.
Proof. intros Hk. unfold ZREMRANGEBYSCORE, same_key. simpl. by rewrite put_key_ne. Qed.
Lemma SET_same k k' v d : k <> k' -> same_key k (SET k' v d) d.
Proof. intros Hk. unfold SET, same_key. simpl. by rewrite lookup_insert_ne. Qed.
Lemma DEL_same k k' d : k <> k' -> same_key k (DEL k' d) d.
Proof. intros Hk. unfold DEL, same_key. simpl. by rewrite !lookup_delete_ne. Qed.
Lemma with_expiry_same k k' e d : k <> k' -> same_key k (with_expiry k' e d) d.
Proof. intros Hk. unfold with_expiry, same_key. simpl. by rewrite !set_expiry_ne. Qed.
Lemma PEXPIRE_same k k' now ttl d : k <> k' -> same_key k (PEXPIRE now k' ttl d) d.
Proof. intros Hk. unfold PEXPIRE. case_bool_decide; [by apply DEL_same | by apply with_expiry_same]. Qed.

Lemma put_key_eq {V} k (v : V) m : put_key k v false m !! k = Some (mkKeyed v (m !! k ≫= kv_exp)).
Proof. unfold put_key. by rewrite lookup_insert_eq. Qed.

Lemma set_expiry_eq {V} k e (m : gmap string (keyed V)) : set_expiry k e m !! k = (fun v => mkKeyed (kv_val v) e) <$> m !! k.
Proof. unfold set_expiry. by rewrite lookup_alter_eq. Qed.

(** Fields written by an HSET, and those it leaves. *)
Lemma fields_in (fs : list (string * string)) (h : gmap string string) f : f ∉ fs.*1 -> foldl (fun m p => <[p.1 := p.2]> m) h fs !! f = h !! f.
Proof.
  revert h. induction fs as [|[g v] fs IH]; intros h Hf; simpl in *; [done|].
  apply not_elem_of_cons in Hf as [Hg Hf]. rewrite IH by done. by rewrite lookup_insert_ne.
Qed.

Lemma cmd_hash_HSET k fs d : cmd_hash (HSET k fs d) k = foldl (fun m p => <[p.1 := p.2]> m) (cmd_hash d k) fs.
Proof. unfold cmd_hash at 1, HSET. simpl rd_hash. by rewrite put_key_eq. Qed.

Lemma HGET_HSET_ne k fs d f : f ∉ fs.*1 -> HGET k f (HSET k fs d) = HGET k f d.
Proof. intros Hf. unfold HGET. rewrite cmd_hash_HSET. by apply fields_in. Qed.

(** A script leaves the keys of [K] alone. *)
Definition keeps {A} (K : string -> Prop) (m : LM A) : Prop := forall now d k, K k -> same_key k (m now d).2 d.

Lemma keeps_ret {A} K (a : A) : keeps K (lua_ret a).
Proof. by intros now d k _. Qed.
Lemma keeps_fail {A} K msg : keeps K (lua_fail (A:=A) msg).
Proof. by intros now d k _. Qed.
Lemma keeps_read {A} K (f : rdb -> A) : keeps K (lua_read f).
Proof. by intros now d k _. Qed.
Lemma keeps_now K : keeps K lua_now.
Proof. by intros now d k _. Qed.
Lemma keeps_tonumber K t : keeps K (tonumber t).
Proof. unfold tonumber. destruct (read_Z t); [apply keeps_ret | apply keeps_fail]. Qed.
Lemma keeps_do (K : string -> Prop) f : (forall d k, K k -> same_key k (f d) d) -> keeps K (lua_do f).
Proof. intros Hf now d k Hk. by apply Hf. Qed.
Lemma script_keeps_bind {A B} K (m : LM A) (f : A -> LM B) : keeps K m -> (forall a, keeps K (f a)) -> keeps K (lua_bind m f).
Proof.
  intros Hm Hf now d k Hk. rewrite bind_run. pose proof (Hm now d k Hk) as H1.
  destruct (m now d) as [[a|e] d']; [|done]. simpl in *. etrans; [by apply Hf | done].
Qed.
Lemma keeps_expire (K : string -> Prop) k' ttl : ~ K k' -> keeps K (lua_expire k' ttl).
Proof. intros Hk' now d k Hk. apply PEXPIRE_same. congruence. Qed.
Lemma keeps_incrby (K : string -> Prop) k' n : ~ K k' -> keeps K (INCRBY k' n).
Proof.
  intros Hk' now d k Hk. unfold INCRBY. destruct (read_Z _); [|done]. case_bool_decide; [|done].
  unfold same_key. simpl. rewrite put_key_ne; [done|]. congruence.
Qed.
End Frames.

Create HintDb frames.
#[export] Hint Resolve HSET_same HDEL_same ZADD_same ZREM_same ZREMRANGE_same SET_same DEL_same with_expiry_same PEXPIRE_same
  keeps_ret keeps_fail keeps_read keeps_now keeps_tonumber keeps_expire keeps_incrby : frames.

(** Split a script into its steps and frame each. *)
Ltac frame_script :=
  repeat first
    [ done
    | progress eauto with frames
    | apply script_keeps_bind; [|intros ?]
    | apply keeps_do; intros ? ? ?
    | match goal with |- keeps _ (match ?x with _ => _ end) => destruct x end ].
