(* ===== verification/RedisRate.v ===== *)
(** The Redis backend of the rate limiter (agent/ratelimit/redis/store.go, lease.go):
    key names, the two Lua scripts, Reserve, Commit and Release. *)
From Stdlib Require Import Ascii.
From S2P Require Import Prelude Errors Messages Schema Tool Inference State RateStore.
From S2P Require Import RateLimiter SqlConversation ExecutionBackends Decimal RedisServer.
Local Open Scope Z_scope.

(* agent/ratelimit/redis/store.go:16-21: Store *)
Record RateStore := mkRateStore {
  rt_prefix : string; rt_pendingTTL : Z; rt_terminalTTL : Z; rt_leaseTTLsConfigured : bool }.

#[global] Instance eta_RateStore : Settable RateStore := fun s =>
  mkRateStore (rt_prefix s) (rt_pendingTTL s) (rt_terminalTTL s) (rt_leaseTTLsConfigured s).

(* agent/ratelimit/redis/store.go: WithPrefix *)
Definition WithPrefix (prefix : string) (s : RateStore) : RateStore := s <| rt_prefix := prefix |>.

(* agent/ratelimit/redis/store.go: WithLeaseTTLs *)
Definition WithLeaseTTLs (pending terminal : Z) (s : RateStore) : RateStore :=
  s <| rt_pendingTTL := pending |> <| rt_terminalTTL := terminal |> <| rt_leaseTTLsConfigured := true |>.

(* agent/ratelimit/redis/store.go: NewStore *)
Definition NewRateStore (opts : list (RateStore -> RateStore)) : RateStore :=
  foldl (fun s opt => opt s) (mkRateStore "ratelimit" 0 0 false) opts.

(** strings.NewReplacer("{", "(", "}", ")") *)
Fixpoint round_braces (s : string) : string :=
  match s with
  | EmptyString => EmptyString
  | String c s => String (if Ascii.eqb c "{" then "(" else if Ascii.eqb c "}" then ")" else c)%char (round_braces s)
  end.

(* agent/ratelimit/redis/store.go: Store.tag *)
Definition tag (s : RateStore) : string := round_braces (rt_prefix s) +:+ ":{gude-ratelimit}:lease".

(* agent/ratelimit/redis/store.go: Store.requestKey *)
Definition requestKey (s : RateStore) (key : string) : string := tag s +:+ ":req:" +:+ key.

(* agent/ratelimit/redis/store.go: Store.tokenZKey *)
Definition tokenZKey (s : RateStore) (key : string) : string := tag s +:+ ":tok:z:" +:+ key.

(* agent/ratelimit/redis/store.go: Store.tokenHKey *)
Definition tokenHKey (s : RateStore) (key : string) : string := tag s +:+ ":tok:h:" +:+ key.

(* agent/ratelimit/redis/store.go: Store.tokenTKey *)
Definition tokenTKey (s : RateStore) (key : string) : string := tag s +:+ ":tok:t:" +:+ key.

(* agent/ratelimit/redis/store.go: Store.ledgerKey *)
Definition ledgerKey (s : RateStore) (id : string) : string := tag s +:+ ":op:" +:+ id.

(* agent/ratelimit/redis/store.go: Store.effectivePending *)
Definition effectivePending (s : RateStore) (window : Z) : Z :=
  let ttl := i64 (2 * window) in
  if bool_decide (ttl < rt_pendingTTL s) then rt_pendingTTL s else ttl.

(* agent/ratelimit/redis/store.go: Store.effectiveTerminal *)
Definition effectiveTerminal (s : RateStore) (window : Z) : Z :=
  if bool_decide (window < rt_terminalTTL s) then rt_terminalTTL s else window.

(** time.Duration.Milliseconds *)
Definition Milliseconds (d : Z) : Z := Z.quot d 1000000.

(* agent/ratelimit/redis/store.go: validTTL *)
Definition validTTL (d : Z) : bool := bool_decide (0 < d) && bool_decide (0 < Milliseconds d).

Section Scripts.
Context `{RedisServer}.

(** The local function prune of the script: drop what left the window from the three
    keys of a token counter, and return the rest of the total. *)
(* agent/ratelimit/redis/lease.go:26-26: loop over members *)
Fixpoint prune_members (z h : string) (members : list string) (sum : Z) : LM Z :=
  match members with
  | [] => lua_ret sum
  | member :: members =>
      let^ old := lua_read (HGET h member) in
      let^ old := tonumber (default "0" old) in
      let^ _ := lua_do (HDEL h member) in
      let^ _ := lua_do (ZREM z member) in
      prune_members z h members (lua_num (sum - old))
  end.

(* agent/ratelimit/redis/lease.go:24-28: prune *)
Definition prune_script (z h total : string) (window : Z) : LM Z :=
  let^ now_ms := lua_now in
  let cutoff := now_ms - window in
  let^ members := lua_read (ZRANGEBYSCORE z (cutoff - 1)) in
  let^ sum := lua_read (GET total) in
  let^ sum := tonumber (default "0" sum) in
  let^ sum := prune_members z h members sum in
  let sum := if bool_decide (sum < 0) then 0 else sum in
  let^ _ := lua_do (SET total (lua_show sum)) in
  lua_ret sum.

(** ARGV[i] as a number. *)
Definition arg_num (ARGV : list string) (i : nat) : LM Z := let^ a := lua_at ARGV i in tonumber a.

(** The result is false where the script returns 0. *)
(* agent/ratelimit/redis/lease.go:29-29: request check *)
Fixpoint check_reqs (KEYS ARGV : list string) (n arg key : nat) : LM (option (nat * nat)) :=
  match n with
  | O => lua_ret (Some (arg, key))
  | S n =>
      let^ w := arg_num ARGV arg in
      let^ limit := arg_num ARGV (arg + 1) in
      let^ k := lua_at KEYS key in
      let^ now_ms := lua_now in
      let^ _ := lua_do (ZREMRANGEBYSCORE k (now_ms - w - 1)) in
      let^ card := lua_read (ZCARD k) in
      if bool_decide (limit <= card) then lua_ret None else check_reqs KEYS ARGV n (arg + 2) (key + 1)
  end.

(* agent/ratelimit/redis/lease.go:30-30: token check *)
Fixpoint check_toks (KEYS ARGV : list string) (n arg key : nat) : LM bool :=
  match n with
  | O => lua_ret true
  | S n =>
      let^ w := arg_num ARGV arg in
      let^ limit := arg_num ARGV (arg + 1) in
      let^ amount := arg_num ARGV (arg + 2) in
      let^ z := lua_at KEYS key in
      let^ h := lua_at KEYS (key + 1) in
      let^ total := lua_at KEYS (key + 2) in
      let^ sum := prune_script z h total w in
      if bool_decide (limit < lua_num (sum + amount)) then lua_ret false else check_toks KEYS ARGV n (arg + 3) (key + 3)
  end.

(* agent/ratelimit/redis/lease.go:32-32: requests granted *)
Fixpoint grant_reqs (KEYS ARGV : list string) (id : string) (n arg key : nat) : LM (nat * nat) :=
  match n with
  | O => lua_ret (arg, key)
  | S n =>
      let^ w := arg_num ARGV arg in
      let^ k := lua_at KEYS key in
      let^ now_ms := lua_now in
      let^ _ := lua_do (ZADD k now_ms id) in
      let^ _ := lua_expire k w in
      grant_reqs KEYS ARGV id n (arg + 2) (key + 1)
  end.

(* agent/ratelimit/redis/lease.go:34-34: tokens granted *)
Fixpoint grant_toks (KEYS ARGV : list string) (id ledger : string) (i : Z) (n arg key : nat) : LM unit :=
  match n with
  | O => lua_ret tt
  | S n =>
      let^ w := arg_num ARGV arg in
      let^ amount := arg_num ARGV (arg + 2) in
      let^ z := lua_at KEYS key in
      let^ h := lua_at KEYS (key + 1) in
      let^ total := lua_at KEYS (key + 2) in
      let^ now_ms := lua_now in
      let^ _ := lua_do (ZADD z now_ms id) in
      let^ _ := lua_do (HSET h [(id, lua_show amount)]) in
      let^ _ := INCRBY total amount in
      let^ _ := lua_expire z w in
      let^ _ := lua_expire h w in
      let^ _ := lua_expire total w in
      let^ _ := lua_do (HSET ledger [("z" +:+ FormatInt i, z); ("h" +:+ FormatInt i, h); ("t" +:+ FormatInt i, total);
                                     ("w" +:+ FormatInt i, lua_show w)]) in
      grant_toks KEYS ARGV id ledger (i + 1) n (arg + 3) (key + 3)
  end.

(* agent/ratelimit/redis/lease.go:19-37: reserveScript *)
Definition reserveScript (KEYS ARGV : list string) : LM Z :=
  let^ id := lua_at ARGV 1 in
  let^ reqN := arg_num ARGV 2 in
  let^ tokN := arg_num ARGV 3 in
  let^ pendingTTL := arg_num ARGV 4 in
  let^ terminalTTL := arg_num ARGV 5 in
  let^ ledger := lua_at KEYS (length KEYS) in
  let^ state := lua_read (HGET ledger "state") in
  match state with
  | Some _ => lua_ret 1
  | None =>
      let^ next := check_reqs KEYS ARGV (Z.to_nat reqN) 6 1 in
      match next with
      | None => lua_ret 0
      | Some (arg, key) =>
          let^ ok := check_toks KEYS ARGV (Z.to_nat tokN) arg key in
          if negb ok then lua_ret 0
          else
            let^ next := grant_reqs KEYS ARGV id (Z.to_nat reqN) 6 1 in
            let^ now_ms := lua_now in
            let^ _ := lua_do (HSET ledger [("state", "pending"); ("expires", lua_show (now_ms + pendingTTL));
                                           ("terminal_ttl", lua_show terminalTTL); ("token_n", lua_show tokN)]) in
            let^ _ := grant_toks KEYS ARGV id ledger 1 (Z.to_nat tokN) (fst next) (snd next) in
            let^ _ := lua_expire ledger (pendingTTL + terminalTTL) in
            lua_ret 1
      end
  end.

(** The second loop of the script; the first one only reads. *)
(* agent/ratelimit/redis/lease.go:52-52: settlement loop *)
Fixpoint settle_toks (KEYS ARGV : list string) (id : string) (actual : Z) (n arg key : nat) : LM unit :=
  match n with
  | O => lua_ret tt
  | S n =>
      let^ w := arg_num ARGV arg in
      let^ z := lua_at KEYS key in
      let^ h := lua_at KEYS (key + 1) in
      let^ total := lua_at KEYS (key + 2) in
      let^ old := lua_read (HGET h id) in
      let^ old := tonumber (default "0" old) in
      let n' := if bool_decide (actual < 0) then old else actual in
      let^ sum := lua_read (GET total) in
      let^ sum := tonumber (default "0" sum) in
      let sum := lua_num (lua_num (sum - old) + n') in
      let sum := if bool_decide (sum < 0) then 0 else sum in
      let^ _ := lua_do (HSET h [(id, lua_show n')]) in
      let^ now_ms := lua_now in
      let^ _ := lua_do (ZADD z now_ms id) in
      let^ _ := lua_do (SET total (lua_show sum)) in
      let^ _ := lua_expire z w in
      let^ _ := lua_expire h w in
      let^ _ := lua_expire total w in
      settle_toks KEYS ARGV id actual n (arg + 1) (key + 3)
  end.

(* agent/ratelimit/redis/lease.go:39-56: terminalScript *)
Definition terminalScript (KEYS ARGV : list string) : LM Z :=
  let^ action := lua_at ARGV 1 in
  let^ actual := arg_num ARGV 2 in
  let^ tokenN := arg_num ARGV 3 in
  let^ ledger := lua_at KEYS (length KEYS) in
  let^ state := lua_read (HGET ledger "state") in
  match state with
  | None => lua_ret (-2)
  | Some state =>
      if bool_decide (state = "expired") then lua_ret (-3)
      else if bool_decide (state <> "pending") then
        if bool_decide (state = action) then lua_ret (-4) else lua_ret (-5)
      else
        let^ expires := lua_read (HGET ledger "expires") in
        let^ expires := tonumber (default "0" expires) in
        let^ terminalTTL := lua_read (HGET ledger "terminal_ttl") in
        let^ terminalTTL := tonumber (default "0" terminalTTL) in
        let^ now_ms := lua_now in
        let expired := bool_decide (expires <= now_ms) in
        let action := if expired then "expired" else action in
        let actual := if expired then -1 else actual in
        let^ id := lua_at ARGV (4 + Z.to_nat tokenN) in
        let^ _ := settle_toks KEYS ARGV id actual (Z.to_nat tokenN) 4 1 in
        let^ _ := lua_do (HSET ledger [("state", action)]) in
        let^ _ := lua_expire ledger terminalTTL in
        if bool_decide (action = "expired") then lua_ret (-3) else lua_ret 1
  end.

(** * The operations of the store *)

(* agent/ratelimit/redis/lease.go:65-85: checks of Reserve *)
Definition rate_validate (s : RateStore) (r : Reservation) : res Z :=
  if rt_leaseTTLsConfigured s && (bool_decide (rt_pendingTTL s <= 0) || bool_decide (rt_terminalTTL s <= 0))
  then Err (ENew "redis lease TTLs must be positive when configured")
  else if bool_decide (rv_ID r = "") then Err (ENew "rate limit reservation requires an ID")
  else if existsb (fun c => negb (bool_decide (rq_Strategy c = SlidingWindow)) || bool_decide (rq_Limit c <= 0) ||
                            negb (validTTL (rq_Window c))) (rv_Requests r)
  then Err (ENew "redis requires valid sliding request counters")
  else if existsb (fun c => negb (bool_decide (tk_Strategy c = SlidingWindow)) || bool_decide (tk_Limit c <= 0) ||
                            bool_decide (tk_Amount c < 0) || negb (validTTL (tk_Window c))) (rv_Tokens r)
  then Err (ENew "redis requires valid sliding token counters")
  else
    let window := reservationWindow r in
    if bool_decide (window = 0) then Err (ENew "rate limit reservation has no counters") else Ok window.

(* agent/ratelimit/redis/lease.go:86-96: keys of Reserve *)
Definition reserve_keys (s : RateStore) (r : Reservation) : list string :=
  map (fun c => requestKey s (rq_Key c)) (rv_Requests r) ++
  flat_map (fun c => [tokenZKey s (tk_Key c); tokenHKey s (tk_Key c); tokenTKey s (tk_Key c)]) (rv_Tokens r) ++
  [ledgerKey s (rv_ID r)].

(* agent/ratelimit/redis/lease.go:87-95: arguments of Reserve *)
Definition reserve_args (s : RateStore) (window : Z) (r : Reservation) : list string :=
  [rv_ID r; FormatInt (Z.of_nat (length (rv_Requests r))); FormatInt (Z.of_nat (length (rv_Tokens r)));
   FormatInt (Milliseconds (effectivePending s window)); FormatInt (Milliseconds (effectiveTerminal s window))] ++
  flat_map (fun c => [FormatInt (Milliseconds (rq_Window c)); FormatInt (rq_Limit c)]) (rv_Requests r) ++
  flat_map (fun c => [FormatInt (Milliseconds (tk_Window c)); FormatInt (tk_Limit c); FormatInt (tk_Amount c)]) (rv_Tokens r).

(** The surroundings of an operation: one entry per request. *)
(* agent/ratelimit/redis/lease.go: Store.Reserve *)
Definition redis_Reserve (s : RateStore) (e : renv) (r : Reservation) (d : rdb) : res bool * rdb :=
  match rate_validate s r with
  | Err err => (Err err, d)
  | Ok window =>
      match rrequest (reserveScript (reserve_keys s r) (reserve_args s window r)) e d with
      | (Ok result, d) => (Ok (bool_decide (result = 1)), d)
      | (Err err, d) => (Err err, d)
      end
  end.

(** The windows and keys of the ledger, as the loop of terminal collects them. *)
(* agent/ratelimit/redis/lease.go:131-138: loop of terminal *)
Fixpoint ledger_windows (metadata : gmap string string) (n : nat) (i : Z) : option (list (string * string * string * Z)) :=
  match n with
  | O => Some []
  | S n =>
      match ParseInt (default "" (metadata !! ("w" +:+ FormatInt i))) with
      | Err _ => None
      | Ok w =>
          ws ← ledger_windows metadata n (i + 1);
          Some ((default "" (metadata !! ("z" +:+ FormatInt i)), default "" (metadata !! ("h" +:+ FormatInt i)),
                 default "" (metadata !! ("t" +:+ FormatInt i)), w) :: ws)
      end
  end.

Definition terminal_keys (ledger : string) (ws : list (string * string * string * Z)) : list string :=
  flat_map (fun '(z, h, t, _) => [z; h; t]) ws ++ [ledger].
Definition terminal_args (action : string) (actual n : Z) (ws : list (string * string * string * Z)) (id : string) : list string :=
  [action; FormatInt actual; FormatInt n] ++ map (fun '(_, _, _, w) => FormatInt w) ws ++ [id].

(** What terminal does with the metadata of the first request: answer at once, or run the script. *)
(* agent/ratelimit/redis/lease.go:115-140: terminal before the script *)
Definition terminal_plan (s : RateStore) (id action : string) (actual : Z) (metadata : gmap string string)
  : error + list string * list string :=
  let state := default "" (metadata !! "state") in
  if bool_decide (state = "") then inl (ESentinel ErrRateLimitLeaseUnknown)
  else if bool_decide (state = "expired") then inl (ESentinel ErrRateLimitLeaseExpired)
  else if bool_decide (state <> "pending") then
    inl (ESentinel (if bool_decide (state = action) then ErrRateLimitLeaseTerminal else ErrRateLimitLeaseCrossTerminal))
  else match ParseInt (default "" (metadata !! "token_n")) with
  | Err _ => inl (ESentinel ErrRateLimitLeaseUnknown)
  | Ok n =>
      match ledger_windows metadata (Z.to_nat n) 1 with
      | None => inl (ESentinel ErrRateLimitLeaseUnknown)
      | Some ws => inr (terminal_keys (ledgerKey s id) ws, terminal_args action actual n ws id)
      end
  end.

(* agent/ratelimit/redis/lease.go:145-158: answers of the script *)
Definition terminal_answer (result : Z) : res unit :=
  if bool_decide (result = 1) then Ok tt
  else Err (ESentinel (if bool_decide (result = -2) then ErrRateLimitLeaseUnknown
                       else if bool_decide (result = -3) then ErrRateLimitLeaseExpired
                       else if bool_decide (result = -4) then ErrRateLimitLeaseTerminal
                       else ErrRateLimitLeaseCrossTerminal)).

(* agent/ratelimit/redis/lease.go: Store.terminal *)
Definition redis_terminal (s : RateStore) (e1 e2 : renv) (id action : string) (actual : Z) (d : rdb) : res unit * rdb :=
  match rrequest (lua_read (fun d => cmd_hash d (ledgerKey s id))) e1 d with
  | (Err err, d) => (Err err, d)
  | (Ok metadata, d) =>
      match terminal_plan s id action actual metadata with
      | inl err => (Err err, d)
      | inr (keys, args) =>
          match rrequest (terminalScript keys args) e2 d with
          | (Err err, d) => (Err err, d)
          | (Ok result, d) => (terminal_answer result, d)
          end
      end
  end.

(* agent/ratelimit/redis/lease.go: Store.Commit *)
Definition redis_Commit (s : RateStore) (e1 e2 : renv) (id : string) (actual : Z) : rdb -> res unit * rdb :=
  redis_terminal s e1 e2 id "committed" (if bool_decide (actual < 0) then 0 else actual).

(* agent/ratelimit/redis/lease.go: Store.Release *)
Definition redis_Release (s : RateStore) (e1 e2 : renv) (id : string) : rdb -> res unit * rdb :=
  redis_terminal s e1 e2 id "released" (-1).

(** A context that is over fails the request. *)
Definition in_ctx (ctxErr : option error) (e : renv) : renv :=
  match ctxErr with Some err => mkRenv (re_before e) (re_now e) (Failed err) | None => e end.

(** Behind the interface of the limiter; the environment has an entry per request. *)
#[export] Instance redis_store (s : RateStore) : Store (renv * renv) rdb := {
  store_Reserve ctxErr e r := redis_Reserve s (in_ctx ctxErr (fst e)) r;
  store_Commit ctxErr e := redis_Commit s (in_ctx ctxErr (fst e)) (in_ctx ctxErr (snd e));
  store_Release ctxErr e := redis_Release s (in_ctx ctxErr (fst e)) (in_ctx ctxErr (snd e)) }.

End Scripts.


(** The Lua scripts of the Redis rate limiter, decoded: on the keys and arguments that
    the Go code packs, the positions the scripts read are the counters of the
    reservation.  Programs over the counters replace programs over positions in the
    proofs about the store. *)

Section Decoded.
Context `{RedisServer} (s : RateStore).

Definition ms_num (d : Z) : Z := lua_num (Milliseconds d).

Fixpoint s_check_reqs (rs : list RequestCounter) : LM bool :=
  match rs with
  | [] => lua_ret true
  | r :: rs =>
      let^ now := lua_now in
      let^ _ := lua_do (ZREMRANGEBYSCORE (requestKey s (rq_Key r)) (now - ms_num (rq_Window r) - 1)) in
      let^ card := lua_read (ZCARD (requestKey s (rq_Key r))) in
      if bool_decide (lua_num (rq_Limit r) <= card) then lua_ret false else s_check_reqs rs
  end.

Fixpoint s_check_toks (ts : list TokenReservation) : LM bool :=
  match ts with
  | [] => lua_ret true
  | t :: ts =>
      let^ sum := prune_script (tokenZKey s (tk_Key t)) (tokenHKey s (tk_Key t)) (tokenTKey s (tk_Key t)) (ms_num (tk_Window t)) in
      if bool_decide (lua_num (tk_Limit t) < lua_num (sum + lua_num (tk_Amount t))) then lua_ret false else s_check_toks ts
  end.

Fixpoint s_grant_reqs (id : string) (rs : list RequestCounter) : LM unit :=
  match rs with
  | [] => lua_ret tt
  | r :: rs =>
      let^ now := lua_now in
      let^ _ := lua_do (ZADD (requestKey s (rq_Key r)) now id) in
      let^ _ := lua_expire (requestKey s (rq_Key r)) (ms_num (rq_Window r)) in
      s_grant_reqs id rs
  end.

(** One token counter charged with a reservation, and noted in the ledger. *)
Definition s_charge_tok (id k : string) (w amount : Z) : LM unit :=
  let^ now := lua_now in
  let^ _ := lua_do (ZADD (tokenZKey s k) now id) in
  let^ _ := lua_do (HSET (tokenHKey s k) [(id, lua_show amount)]) in
  let^ _ := INCRBY (tokenTKey s k) amount in
  let^ _ := lua_expire (tokenZKey s k) w in
  let^ _ := lua_expire (tokenHKey s k) w in
  lua_expire (tokenTKey s k) w.

Definition s_grant_tok (id ledger : string) (i : Z) (k : string) (w amount : Z) : LM unit :=
  let^ _ := s_charge_tok id k w amount in
  lua_do (HSET ledger [("z" +:+ FormatInt i, tokenZKey s k); ("h" +:+ FormatInt i, tokenHKey s k);
                       ("t" +:+ FormatInt i, tokenTKey s k); ("w" +:+ FormatInt i, lua_show w)]).

Fixpoint s_grant_toks (id ledger : string) (i : Z) (ts : list TokenReservation) : LM unit :=
  match ts with
  | [] => lua_ret tt
  | t :: ts =>
      let^ _ := s_grant_tok id ledger i (tk_Key t) (ms_num (tk_Window t)) (lua_num (tk_Amount t)) in
      s_grant_toks id ledger (i + 1) ts
  end.

(** The second half of the script, once the checks have passed. *)
Definition s_grant (r : Reservation) (pending terminal : Z) : LM Z :=
  let ledger := ledgerKey s (rv_ID r) in
  let^ _ := s_grant_reqs (rv_ID r) (rv_Requests r) in
  let^ now := lua_now in
  let^ _ := lua_do (HSET ledger [("state", "pending"); ("expires", lua_show (now + pending)); ("terminal_ttl", lua_show terminal);
                                 ("token_n", lua_show (lua_num (Z.of_nat (length (rv_Tokens r)))))]) in
  let^ _ := s_grant_toks (rv_ID r) ledger 1 (rv_Tokens r) in
  let^ _ := lua_expire ledger (pending + terminal) in
  lua_ret 1.

Definition s_reserve (window : Z) (r : Reservation) : LM Z :=
  let^ state := lua_read (HGET (ledgerKey s (rv_ID r)) "state") in
  match state with
  | Some _ => lua_ret 1
  | None =>
      let^ ok := s_check_reqs (rv_Requests r) in
      if negb ok then lua_ret 0
      else
        let^ ok := s_check_toks (rv_Tokens r) in
        if negb ok then lua_ret 0
        else s_grant r (ms_num (effectivePending s window)) (ms_num (effectiveTerminal s window))
  end.

(** One token counter of a settled lease. *)
Definition s_settle_tok (id : string) (actual : Z) (k : string) (w : Z) : LM unit :=
  let^ old := lua_read (HGET (tokenHKey s k) id) in
  let^ old := tonumber (default "0" old) in
  let n := if bool_decide (actual < 0) then old else actual in
  let^ sum := lua_read (GET (tokenTKey s k)) in
  let^ sum := tonumber (default "0" sum) in
  let sum := lua_num (lua_num (sum - old) + n) in
  let sum := if bool_decide (sum < 0) then 0 else sum in
  let^ _ := lua_do (HSET (tokenHKey s k) [(id, lua_show n)]) in
  let^ now := lua_now in
  let^ _ := lua_do (ZADD (tokenZKey s k) now id) in
  let^ _ := lua_do (SET (tokenTKey s k) (lua_show sum)) in
  let^ _ := lua_expire (tokenZKey s k) w in
  let^ _ := lua_expire (tokenHKey s k) w in
  lua_expire (tokenTKey s k) w.

Fixpoint s_settle (id : string) (actual : Z) (ws : list (string * Z)) : LM unit :=
  match ws with
  | [] => lua_ret tt
  | (k, w) :: ws => let^ _ := s_settle_tok id actual k (lua_num w) in s_settle id actual ws
  end.

(** The end of the script: settle the counters and close the ledger. *)
Definition s_close (id action : string) (actual : Z) (ws : list (string * Z)) (terminalTTL : Z) : LM Z :=
  let^ _ := s_settle id actual ws in
  let^ _ := lua_do (HSET (ledgerKey s id) [("state", action)]) in
  let^ _ := lua_expire (ledgerKey s id) terminalTTL in
  if bool_decide (action = "expired") then lua_ret (-3) else lua_ret 1.

Definition s_terminal (id action : string) (actual : Z) (ws : list (string * Z)) : LM Z :=
  let^ state := lua_read (HGET (ledgerKey s id) "state") in
  match state with
  | None => lua_ret (-2)
  | Some state =>
      if bool_decide (state = "expired") then lua_ret (-3)
      else if bool_decide (state <> "pending") then
        if bool_decide (state = action) then lua_ret (-4) else lua_ret (-5)
      else
        let^ expires := lua_read (HGET (ledgerKey s id) "expires") in
        let^ expires := tonumber (default "0" expires) in
        let^ terminalTTL := lua_read (HGET (ledgerKey s id) "terminal_ttl") in
        let^ terminalTTL := tonumber (default "0" terminalTTL) in
        let^ now := lua_now in
        if bool_decide (expires <= now) then s_close id "expired" (-1) ws terminalTTL
        else s_close id action (lua_num actual) ws terminalTTL
  end.

(** * Positions *)

Lemma drop_next {A} (xs : list A) n x rest : drop n xs = x :: rest -> xs !! n = Some x /\ drop (S n) xs = rest.
Proof.
  revert n. induction xs as [|y xs IH]; intros [|n]; simpl; intros Hd; try done.
  - by simplify_eq.
  - by apply IH.
Qed.

Lemma at_drop xs n x rest : drop n xs = x :: rest -> lua_at xs (S n) = lua_ret x.
Proof. intros Hd%drop_next. unfold lua_at. simpl. by rewrite (proj1 Hd). Qed.

Lemma arg_drop xs n z rest : drop n xs = FormatInt z :: rest -> arg_num xs (S n) = lua_ret (lua_num z).
Proof.
  intros Hd. unfold arg_num. rewrite (at_drop _ _ _ _ Hd). unfold lua_bind, lua_ret, tonumber, FormatInt.
  by rewrite read_Z_pretty.
Qed.

(** Rewrite the positions of [H : drop n xs = x1 :: ... ] one after the other. *)
Ltac next_arg H :=
  rewrite (arg_drop _ _ _ _ H), bind_ret; apply drop_next in H as [_ H].
Ltac skip_arg H := apply drop_next in H as [_ H].
Ltac next_key H :=
  rewrite (at_drop _ _ _ _ H), bind_ret; apply drop_next in H as [_ H].
Ltac positions := rewrite ?Nat.add_succ_r, ?Nat.add_0_r.

Definition req_args (c : RequestCounter) : list string := [FormatInt (Milliseconds (rq_Window c)); FormatInt (rq_Limit c)].
Definition tok_args (c : TokenReservation) : list string :=
  [FormatInt (Milliseconds (tk_Window c)); FormatInt (tk_Limit c); FormatInt (tk_Amount c)].
Definition tok_keys (c : TokenReservation) : list string := [tokenZKey s (tk_Key c); tokenHKey s (tk_Key c); tokenTKey s (tk_Key c)].

Lemma check_reqs_decoded KEYS ARGV rs a k krest arest now d :
  drop a ARGV = flat_map req_args rs ++ arest -> drop k KEYS = map (fun c => requestKey s (rq_Key c)) rs ++ krest ->
  check_reqs KEYS ARGV (length rs) (S a) (S k) now d =
    match s_check_reqs rs now d with
    | (Ok true, d) => (Ok (Some (S (a + 2 * length rs), S (k + length rs))%nat), d)
    | (Ok false, d) => (Ok None, d)
    | (Err e, d) => (Err e, d)
    end.
Proof.
  revert a k d. induction rs as [|r rs IH]; intros a k d Ha Hk; cbn [check_reqs s_check_reqs length flat_map map app] in *.
  { rewrite Nat.mul_0_r, !Nat.add_0_r. done. }
  unfold req_args in Ha. cbn [app] in Ha.
  next_arg Ha. positions. next_arg Ha. next_key Hk.
  repeat lua_run.
  fold (ms_num (rq_Window r)). case_bool_decide; [done|].
  rewrite (IH _ _ _ Ha Hk). destruct (s_check_reqs rs now _) as [[[]|] ?]; [|done|done].
  do 3 f_equal. apply pair_eq. lia.
Qed.

Lemma check_toks_decoded KEYS ARGV ts a k krest arest now d :
  drop a ARGV = flat_map tok_args ts ++ arest -> drop k KEYS = flat_map tok_keys ts ++ krest ->
  check_toks KEYS ARGV (length ts) (S a) (S k) now d = s_check_toks ts now d.
Proof.
  revert a k d. induction ts as [|t ts IH]; intros a k d Ha Hk; cbn [check_toks s_check_toks length flat_map app] in *; [done|].
  unfold tok_args, tok_keys in Ha, Hk. cbn [app] in Ha, Hk.
  next_arg Ha. positions. next_arg Ha. next_arg Ha. next_key Hk. next_key Hk. next_key Hk.
  fold (ms_num (tk_Window t)). unfold lua_bind.
  destruct (prune_script _ _ _ _ now d) as [[sum|e] d']; [|done]. case_bool_decide; [done|]. by apply (IH _ _ _ Ha Hk).
Qed.

Lemma grant_reqs_decoded KEYS ARGV id rs a k krest arest now d :
  drop a ARGV = flat_map req_args rs ++ arest -> drop k KEYS = map (fun c => requestKey s (rq_Key c)) rs ++ krest ->
  grant_reqs KEYS ARGV id (length rs) (S a) (S k) now d =
    match s_grant_reqs id rs now d with
    | (Ok _, d) => (Ok (S (a + 2 * length rs), S (k + length rs))%nat, d)
    | (Err e, d) => (Err e, d)
    end.
Proof.
  revert a k d. induction rs as [|r rs IH]; intros a k d Ha Hk; cbn [grant_reqs s_grant_reqs length flat_map map app] in *.
  { rewrite Nat.mul_0_r, !Nat.add_0_r. done. }
  unfold req_args in Ha. cbn [app] in Ha.
  next_arg Ha. skip_arg Ha. positions. next_key Hk.
  repeat lua_run.
  fold (ms_num (rq_Window r)).
  rewrite (IH _ _ _ Ha Hk). destruct (s_grant_reqs id rs now _) as [[[]|] ?]; [|done].
  do 2 f_equal. apply pair_eq. lia.
Qed.

Lemma grant_toks_decoded KEYS ARGV id ledger i ts a k krest arest now d :
  drop a ARGV = flat_map tok_args ts ++ arest -> drop k KEYS = flat_map tok_keys ts ++ krest ->
  grant_toks KEYS ARGV id ledger i (length ts) (S a) (S k) now d = s_grant_toks id ledger i ts now d.
Proof.
  revert i a k d. induction ts as [|t ts IH]; intros i a k d Ha Hk; cbn [grant_toks s_grant_toks length flat_map app] in *; [done|].
  unfold tok_args, tok_keys in Ha, Hk. cbn [app] in Ha, Hk.
  next_arg Ha. skip_arg Ha. positions. next_arg Ha. next_key Hk. next_key Hk. next_key Hk.
  fold (ms_num (tk_Window t)). unfold s_grant_tok, s_charge_tok. unfold lua_bind, lua_now, lua_do, lua_expire. cbv beta iota.
  destruct (INCRBY _ _ now _) as [[u|e] d']; [|done]. by rewrite (IH _ _ _ _ Ha Hk).
Qed.

(** The script on the packed reservation is the program over its counters. *)
Theorem reserveScript_decoded window r now d :
  Z.of_nat (length (rv_Requests r)) < 2 ^ 53 -> Z.of_nat (length (rv_Tokens r)) < 2 ^ 53 ->
  reserveScript (reserve_keys s r) (reserve_args s window r) now d = s_reserve window r now d.
Proof.
  intros Hreq Htok. unfold reserveScript.
  pose proof (eq_refl : drop 0 (reserve_args s window r) = reserve_args s window r) as Ha.
  unfold reserve_args in Ha at 2. cbn [app] in Ha.
  rewrite (at_drop _ _ _ _ Ha), bind_ret. skip_arg Ha. do 4 next_arg Ha.
  assert (Hlast : lua_at (reserve_keys s r) (length (reserve_keys s r)) = lua_ret (ledgerKey s (rv_ID r))).
  { unfold lua_at, reserve_keys. rewrite !app_assoc, length_app. cbn [length]. rewrite Nat.add_1_r. simpl pred.
    by rewrite list_lookup_middle. }
  rewrite Hlast, bind_ret. unfold s_reserve. lua_run.
  destruct (HGET _ "state" d); [done|].
  assert (Hnum : forall n, Z.of_nat n < 2 ^ 53 -> lua_num (Z.of_nat n) = Z.of_nat n).
  { intros n Hn. unfold lua_num, rds_tonumber. by rewrite bool_decide_true. }
  rewrite !(Hnum _ Hreq), !(Hnum _ Htok), !Nat2Z.id.
  pose proof (eq_refl : drop 0 (reserve_keys s r) = reserve_keys s r) as Hk. unfold reserve_keys in Hk at 2.
  rewrite !bind_run, (check_reqs_decoded _ _ _ _ _ _ _ _ _ Ha Hk).
  destruct (s_check_reqs (rv_Requests r) now d) as [[[]|e] d1]; cbn [negb]; [|done|done].
  assert (Ha2 : drop (5 + 2 * length (rv_Requests r)) (reserve_args s window r) = flat_map tok_args (rv_Tokens r) ++ []).
  { replace (5 + 2 * length (rv_Requests r))%nat with (5 + length (flat_map req_args (rv_Requests r)))%nat.
    - rewrite <- drop_drop, Ha, drop_app_length. by rewrite app_nil_r.
    - f_equal. clear. induction (rv_Requests r) as [|c cs IH]; [done|]. cbn [flat_map length]. rewrite length_app, IH. simpl. lia. }
  assert (Hk2 : drop (0 + length (rv_Requests r)) (reserve_keys s r) = flat_map tok_keys (rv_Tokens r) ++ [ledgerKey s (rv_ID r)]).
  { rewrite Nat.add_0_l. unfold reserve_keys. replace (length (rv_Requests r)) with (length (map (fun c => requestKey s (rq_Key c)) (rv_Requests r))).
    - by rewrite drop_app_length.
    - by rewrite length_map. }
  rewrite !bind_run, (check_toks_decoded _ _ _ _ _ _ _ _ _ Ha2 Hk2).
  destruct (s_check_toks (rv_Tokens r) now d1) as [[[]|e] d2]; cbn [negb]; [|done|done].
  unfold s_grant. rewrite !bind_run, (grant_reqs_decoded _ _ _ _ _ _ _ _ _ _ Ha Hk).
  destruct (s_grant_reqs _ _ now d2) as [[u|e] d3]; [|done]. cbn [fst snd].
  repeat lua_run. rewrite (Hnum _ Htok).
  rewrite !bind_run, (grant_toks_decoded _ _ _ _ _ _ _ _ _ _ _ _ Ha2 Hk2). done.
Qed.

Definition window_keys (w : string * Z) : string * string * string * Z :=
  (tokenZKey s (fst w), tokenHKey s (fst w), tokenTKey s (fst w), snd w).

Lemma settle_toks_decoded KEYS ARGV id actual ws a k krest arest now d :
  drop a ARGV = map (fun w => FormatInt (snd w)) ws ++ arest ->
  drop k KEYS = flat_map (fun w => [tokenZKey s (fst w); tokenHKey s (fst w); tokenTKey s (fst w)]) ws ++ krest ->
  settle_toks KEYS ARGV id actual (length ws) (S a) (S k) now d = s_settle id actual ws now d.
Proof.
  revert a k d. induction ws as [|[key w] ws IH]; intros a k d Ha Hk; cbn [settle_toks s_settle length flat_map map app fst snd] in *; [done|].
  next_arg Ha. positions. next_key Hk. next_key Hk. next_key Hk.
  unfold s_settle_tok. unfold lua_bind, lua_now, lua_do, lua_expire, lua_read. cbv beta iota.
  destruct (tonumber _ now d) as [[old|e] d1]; [|done].
  destruct (tonumber _ now d1) as [[sum|e] d2]; [|done]. by rewrite (IH _ _ _ Ha Hk).
Qed.

Theorem terminalScript_decoded id action actual ws now d : Z.of_nat (length ws) < 2 ^ 53 ->
  terminalScript (terminal_keys (ledgerKey s id) (map window_keys ws))
    (terminal_args action actual (Z.of_nat (length ws)) (map window_keys ws) id) now d
  = s_terminal id action actual ws now d.
Proof.
  intros Hn. unfold terminalScript.
  set (ARGV := terminal_args action actual (Z.of_nat (length ws)) (map window_keys ws) id).
  assert (Ha : drop 0 ARGV = [action; FormatInt actual; FormatInt (Z.of_nat (length ws))] ++ map (fun w => FormatInt (snd w)) ws ++ [id]).
  { unfold ARGV, terminal_args. rewrite map_map. done. }
  cbn [app] in Ha. rewrite (at_drop _ _ _ _ Ha), bind_ret. skip_arg Ha. do 2 next_arg Ha.
  assert (Hks : terminal_keys (ledgerKey s id) (map window_keys ws) =
    flat_map (fun w => [tokenZKey s (fst w); tokenHKey s (fst w); tokenTKey s (fst w)]) ws ++ [ledgerKey s id]).
  { unfold terminal_keys. f_equal. clear. induction ws as [|[k w] ws IH]; [done|]. cbn [map flat_map]. by rewrite IH. }
  rewrite Hks. set (KEYS := flat_map _ ws ++ [ledgerKey s id]).
  assert (Hlast : lua_at KEYS (length KEYS) = lua_ret (ledgerKey s id)).
  { unfold lua_at, KEYS. rewrite length_app. cbn [length]. rewrite Nat.add_1_r. simpl pred. by rewrite list_lookup_middle. }
  rewrite Hlast, bind_ret.
  assert (Hnum : lua_num (Z.of_nat (length ws)) = Z.of_nat (length ws)).
  { unfold lua_num, rds_tonumber. by rewrite bool_decide_true. }
  rewrite Hnum, Nat2Z.id.
  assert (Hid : lua_at ARGV (4 + length ws) = lua_ret id).
  { assert (Hd : drop (3 + length ws) ARGV = [id]).
    { rewrite <- drop_drop, Ha. replace (length ws) with (length (map (fun w : string * Z => FormatInt (snd w)) ws)) by apply length_map.
      by rewrite drop_app_length. }
    exact (at_drop _ _ _ _ Hd). }
  unfold s_terminal. lua_run. destruct (HGET _ "state" d) as [state|]; [|done].
  case_bool_decide; [done|]. case_bool_decide; [by case_bool_decide|].
  rewrite Hid. assert (Hk : drop 0 KEYS = KEYS) by done. unfold KEYS in Hk at 2.
  unfold lua_bind, lua_read, lua_now, lua_do. cbv beta iota.
  destruct (tonumber _ now d) as [[expires|e] d1]; [|done].
  destruct (tonumber _ now d1) as [[ttl|e] d2]; [|done]. unfold lua_ret at 1. cbv beta iota.
  rewrite (settle_toks_decoded _ _ _ _ _ _ _ _ _ _ _ Ha Hk).
  unfold s_close, lua_bind, lua_do, lua_expire. case_bool_decide; cbv beta iota;
    match goal with |- context [s_settle ?i ?a ws now d2] => destruct (s_settle i a ws now d2) as [[u|e] d3] end; done.
Qed.

End Decoded.
