(* ===== verification/RedisRateProps.v ===== *)
(** What the Redis rate limiter admits: over every window a sliding request counter
    stays within its limit, whatever callers do at the same time. *)
From Stdlib Require Import Ascii.
From stdpp Require Import sorting.
From S2P Require Import Prelude Errors Messages Decimal.
From S2P Require Import SqlConversation ExecutionBackends RedisServer.
From S2P Require Import RateStore RateProps RateLimiter RedisRate.
Local Open Scope Z_scope.

(** * Key names *)

Section Names.
Context (s : RateStore).

Inductive key_kind : Type := KReq | KTokZ | KTokH | KTokT | KLedger.
Definition kind_infix (kd : key_kind) : string :=
  match kd with KReq => ":req:" | KTokZ => ":tok:z:" | KTokH => ":tok:h:" | KTokT => ":tok:t:" | KLedger => ":op:" end.
Definition rate_key (kd : key_kind) (k : string) : string := tag s +:+ kind_infix kd +:+ k.

(** A name tells its kind and the key it is for. *)
Theorem rate_key_inj kd k kd' k' : rate_key kd k = rate_key kd' k' -> kd = kd' /\ k = k'.
Proof.
  unfold rate_key. intros Heq. apply (inj (String.append (tag s))) in Heq.
  destruct kd, kd'; cbn in Heq; simplify_eq; done.
Qed.
End Names.

Ltac key_ne :=
  match goal with
  | |- ?a <> ?b => let E := fresh in intros E; apply rate_key_inj in E as [? ?]; congruence
  | |- ~ (?a = ?b) => let E := fresh in intros E; apply rate_key_inj in E as [? ?]; congruence
  end.

Lemma requestKey_kind s k : requestKey s k = rate_key s KReq k.
Proof. reflexivity. Qed.

(** * Requests to the server

    Any number of callers: a reservation is one script, a settlement reads the ledger
    first and runs its script later.  A plan is what a caller is about to run. *)

Inductive rreq : Type :=
| QReserve (r : Reservation)
| QMetadata (caller : nat) (id : string) (usage : option Z)   (* Commit with a usage, or Release *)
| QScript (caller : nat).

Record rsys := mkRsys { ry_db : rdb; ry_plans : gmap nat (list string * list string) }.

Section System.
Context `{RedisServer} (s : RateStore).

Definition usage_action (usage : option Z) : string := match usage with Some _ => "committed" | None => "released" end.
Definition usage_amount (usage : option Z) : Z := match usage with Some n => if bool_decide (n < 0) then 0 else n | None => -1 end.

(** A step, and the reservation it newly admits. *)
Definition req_step (now : Z) (q : rreq) (y : rsys) : option Reservation * rsys :=
  let d := purge now (ry_db y) in
  match q with
  | QReserve r =>
      match rate_validate s r with
      | Err _ => (None, y)
      | Ok window =>
          let '(result, d') := reserveScript (reserve_keys s r) (reserve_args s window r) now d in
          (match result, HGET (ledgerKey s (rv_ID r)) "state" d with Ok 1, None => Some r | _, _ => None end,
           mkRsys d' (ry_plans y))
      end
  | QMetadata c id usage =>
      match terminal_plan s id (usage_action usage) (usage_amount usage) (cmd_hash d (ledgerKey s id)) with
      | inl _ => (None, mkRsys d (ry_plans y))
      | inr plan => (None, mkRsys d (<[c := plan]> (ry_plans y)))
      end
  | QScript c =>
      match ry_plans y !! c with
      | None => (None, y)
      | Some (keys, args) => (None, mkRsys (terminalScript keys args now d).2 (delete c (ry_plans y)))
      end
  end.

Fixpoint req_run (qs : list (Z * rreq)) (y : rsys) : list (Z * Reservation) * rsys :=
  match qs with
  | [] => ([], y)
  | (now, q) :: qs =>
      let '(o, y) := req_step now q y in
      let '(grants, y) := req_run qs y in
      (match o with Some r => (now, r) :: grants | None => grants end, y)
  end.

(** The operations of the store send these requests: whatever happens around it, the
    database after a request is the one before it (as others left it, less what has
    expired), or the one after the step. *)
Theorem redis_Reserve_step e r d plans :
  let d0 := re_before e d in
  let d' := (redis_Reserve s e r d).2 in
  d' = d \/ d' = purge (re_now e) d0 \/ d' = ry_db (req_step (re_now e) (QReserve r) (mkRsys d0 plans)).2.
Proof.
  intros d0. unfold redis_Reserve, req_step. destruct (rate_validate s r) as [window|]; [|by left]. right.
  unfold rrequest. fold d0. simpl. destruct (reserveScript _ _ _ _) as [result d1].
  destruct (re_fault e); [destruct result|..]; simpl; auto.
Qed.

Theorem redis_terminal_steps e1 e2 id usage d plans c :
  let step1 := req_step (re_now e1) (QMetadata c id usage) (mkRsys (re_before e1 d) plans) in
  let d' := (redis_terminal s e1 e2 id (usage_action usage) (usage_amount usage) d).2 in
  plans !! c = None -> exists d1, (d1 = ry_db step1.2) /\
  (d' = d1 \/ d' = purge (re_now e2) (re_before e2 d1) \/
   d' = ry_db (req_step (re_now e2) (QScript c) (mkRsys (re_before e2 d1) (ry_plans step1.2))).2).
Proof.
  intros step1 d' Hc. exists (purge (re_now e1) (re_before e1 d)). subst step1 d'. unfold redis_terminal, req_step. simpl.
  unfold rrequest, lua_read. destruct (re_fault e1); simpl.
  2,3: destruct (terminal_plan _ _ _ _ _); simpl; auto.
  destruct (terminal_plan _ _ _ _ _) as [err|[keys args]]; simpl; [auto|]. split; [done|]. right.
  rewrite lookup_insert_eq. destruct (terminalScript keys args _ _) as [result d2].
  destruct (re_fault e2); [destruct result|..]; simpl; auto.
Qed.

End System.

(** * The invariant *)

Definition exp_ge (e : option Z) (b : Z) : Prop := match e with None => True | Some x => b <= x end.

Section Keyed.
Context `{RedisServer}.

Lemma purge_zset now d k v b : rd_zset d !! k = Some v -> exp_ge (kv_exp v) b -> now < b -> rd_zset (purge now d) !! k = Some v.
Proof.
  intros Hk He Hb. simpl. apply map_lookup_filter_Some. split; [done|]. unfold live, live_at. simpl.
  destruct (kv_exp v); [|done]. simpl in He. by rewrite bool_decide_true by lia.
Qed.
Lemma purge_hash now d k v b : rd_hash d !! k = Some v -> exp_ge (kv_exp v) b -> now < b -> rd_hash (purge now d) !! k = Some v.
Proof.
  intros Hk He Hb. simpl. apply map_lookup_filter_Some. split; [done|]. unfold live, live_at. simpl.
  destruct (kv_exp v); [|done]. simpl in He. by rewrite bool_decide_true by lia.
Qed.
Lemma purge_hash_sub now d k v : rd_hash (purge now d) !! k = Some v -> rd_hash d !! k = Some v.
Proof. simpl. by intros [? _]%map_lookup_filter_Some. Qed.
Lemma purge_zset_sub now d k v : rd_zset (purge now d) !! k = Some v -> rd_zset d !! k = Some v.
Proof. simpl. by intros [? _]%map_lookup_filter_Some. Qed.

Lemma lua_show_small n : n < 2 ^ 53 -> lua_show n = FormatInt n.
Proof. intros Hn. unfold lua_show. by rewrite bool_decide_true. Qed.

Lemma lua_num_small n : n < 2 ^ 53 -> lua_num n = n.
Proof. intros Hn. unfold lua_num, rds_tonumber. by rewrite bool_decide_true. Qed.

Lemma tonumber_FormatInt n : n < 2 ^ 53 -> tonumber (FormatInt n) = lua_ret n.
Proof. intros Hn. unfold tonumber, FormatInt. rewrite read_Z_pretty. by rewrite lua_num_small. Qed.

Lemma ms_num_eq d : d < 2 ^ 63 -> ms_num d = Milliseconds d.
Proof. intros Hd. unfold ms_num. apply lua_num_small. unfold Milliseconds. apply (Z.le_lt_trans _ (Z.quot (2 ^ 63) 1000000)); [apply Z.quot_le_mono; lia | reflexivity]. Qed.
End Keyed.

(** ** Ledgers *)

Section Ledgers.
Context `{RedisServer} (s : RateStore).

(** The keys that the token commands leave alone. *)
Definition no_token (k : string) : Prop := exists kd k', k = rate_key s kd k' /\ (kd = KReq \/ kd = KLedger).

Lemma no_token_ne k kd k' : no_token k -> kd <> KReq -> kd <> KLedger -> k <> rate_key s kd k'.
Proof. intros (kd0 & k0 & -> & Hkd) H1 H2 E. apply rate_key_inj in E as [-> _]. destruct Hkd; congruence. Qed.
Lemma no_token_req k : no_token (requestKey s k).
Proof. exists KReq, k. auto. Qed.
Lemma no_token_ledger id : no_token (ledgerKey s id).
Proof. exists KLedger, id. auto. Qed.

(** Keys that the commands on the counter of a token key leave alone. *)
Section Frame.
Context (K : string -> Prop) (k : string).
Hypothesis apart : forall kd, kd = KTokZ \/ kd = KTokH \/ kd = KTokT -> ~ K (rate_key s kd k).

Lemma apart_z : ~ K (tokenZKey s k).
Proof. apply (apart KTokZ). auto. Qed.
Lemma apart_h : ~ K (tokenHKey s k).
Proof. apply (apart KTokH). auto. Qed.
Lemma apart_t : ~ K (tokenTKey s k).
Proof. apply (apart KTokT). auto. Qed.
Lemma apart_ne key key' : K key -> ~ K key' -> key <> key'.
Proof. congruence. Qed.
Hint Resolve apart_z apart_h apart_t apart_ne : frames.

Lemma prune_members_frame ms sum : keeps K (prune_members (tokenZKey s k) (tokenHKey s k) ms sum).
Proof. revert sum. induction ms as [|m ms IH]; intros sum; cbn [prune_members]; frame_script. Qed.

Lemma prune_script_frame w : keeps K (prune_script (tokenZKey s k) (tokenHKey s k) (tokenTKey s k) w).
Proof. unfold prune_script. repeat (apply script_keeps_bind; [|intros ?]); try apply prune_members_frame; frame_script. Qed.

Lemma charge_frame id w amount : keeps K (s_charge_tok s id k w amount).
Proof. unfold s_charge_tok. frame_script. Qed.

Lemma settle_tok_frame id actual w : keeps K (s_settle_tok s id actual k w).
Proof. unfold s_settle_tok. frame_script. Qed.
End Frame.

Lemma no_token_apart k kd : kd = KTokZ \/ kd = KTokH \/ kd = KTokT -> ~ no_token (rate_key s kd k).
Proof. intros Hkd Hk. apply (no_token_ne _ kd k Hk); [naive_solver.. | done]. Qed.

Lemma check_toks_keeps ts : keeps no_token (s_check_toks s ts).
Proof.
  induction ts as [|t ts IH]; cbn [s_check_toks]; [frame_script|].
  apply script_keeps_bind; [apply prune_script_frame, no_token_apart | intros sum; frame_script].
Qed.

Lemma settle_keeps id actual ws : keeps no_token (s_settle s id actual ws).
Proof.
  induction ws as [|[k w] ws IH]; cbn [s_settle]; [frame_script|].
  apply script_keeps_bind; [apply settle_tok_frame, no_token_apart | intros ?; exact IH].
Qed.

(** The fields z_i, h_i, t_i and w_i of a ledger. *)
Definition indexed (c : string) (i : Z) : string := c +:+ FormatInt i.

Lemma indexed_ne (c : ascii) (i : Z) (f : string) :
  match f with String c' f => c' = c -> read_Z f = None | EmptyString => True end -> indexed (String c "") i <> f.
Proof.
  unfold indexed. destruct f as [|c' f]; simpl; [done|]. intros Hf E. injection E as E1 E2. rewrite <- E2 in Hf. specialize (Hf (eq_sym E1)).
  change (read_Z (FormatInt i) = None) in Hf. unfold FormatInt in Hf. by rewrite read_Z_pretty in Hf.
Qed.

(** What the counters of the reservations have in common: a key and its window in milliseconds. *)
Context (Q : string -> Z -> Prop).

Definition fields_ok (h : gmap string string) : Prop :=
  (forall i W, h !! indexed "w" i = Some W -> exists k w, W = FormatInt w /\ - 2 ^ 63 <= w < 2 ^ 53 /\ Q k w /\
     h !! indexed "z" i = Some (tokenZKey s k) /\ h !! indexed "h" i = Some (tokenHKey s k) /\ h !! indexed "t" i = Some (tokenTKey s k)) /\
  (forall T, h !! "token_n" = Some T -> exists n : nat, T = FormatInt (Z.of_nat n) /\ Z.of_nat n < 2 ^ 53).

Definition ledgers_ok (d : rdb) : Prop := forall id l, rd_hash d !! ledgerKey s id = Some l -> fields_ok (kv_val l).

Ltac index_ne := let E := fresh in intros E; symmetry in E; revert E; apply indexed_ne; simpl; try (intros; discriminate); reflexivity.

(** Fields without an index. *)
Definition plain (f : string) : Prop := forall c i, c ∈ ["w"; "z"; "h"; "t"] -> indexed c i <> f.

Lemma plain_field f : f ∈ ["state"; "expires"; "terminal_ttl"; "token_n"] -> plain f.
Proof.
  intros Hf c i Hc. repeat (apply elem_of_cons in Hc as [->|Hc]); [..|by apply elem_of_nil in Hc];
    repeat (apply elem_of_cons in Hf as [->|Hf]); try (by apply elem_of_nil in Hf);
    apply indexed_ne; simpl; try (intros; discriminate); reflexivity.
Qed.

Lemma fields_ok_plain h fs : fields_ok h -> Forall (fun p => plain p.1) fs ->
  (forall T, foldl (fun m p => <[p.1 := p.2]> m) h fs !! "token_n" = Some T -> h !! "token_n" = Some T \/ exists n : nat, T = FormatInt (Z.of_nat n) /\ Z.of_nat n < 2 ^ 53) ->
  fields_ok (foldl (fun m p => <[p.1 := p.2]> m) h fs).
Proof.
  intros [Hw Hn] Hfs HT.
  assert (Hkeep : forall c i, c ∈ ["w"; "z"; "h"; "t"] -> foldl (fun m p => <[p.1 := p.2]> m) h fs !! indexed c i = h !! indexed c i).
  { intros c i Hc. apply fields_in. intros Hin. apply list_elem_of_fmap in Hin as (p & Hp & Hin).
    rewrite Forall_forall in Hfs. by apply (Hfs p Hin c i). }
  split.
  - intros i W. rewrite !Hkeep by set_solver. apply Hw.
  - intros T HT'. destruct (HT T HT') as [?|?]; [|done]. by apply Hn.
Qed.

Lemma fields_ok_indexed h i k w : fields_ok h -> - 2 ^ 63 <= w < 2 ^ 53 -> Q k w ->
  fields_ok (foldl (fun m p => <[p.1 := p.2]> m) h
    [(indexed "z" i, tokenZKey s k); (indexed "h" i, tokenHKey s k); (indexed "t" i, tokenTKey s k); (indexed "w" i, FormatInt w)]).
Proof.
  intros [Hw Hn] Hwb HQ. cbn [foldl fst snd]. split.
  - intros j W. destruct (decide (i = j)) as [->|Hij].
    + rewrite lookup_insert_eq. intros [= <-]. exists k, w. do 3 (split; [done|]).
      rewrite !(lookup_insert_ne _ (indexed "w" j)) by discriminate.
      rewrite lookup_insert_eq. rewrite !(lookup_insert_ne _ (indexed "t" j)) by discriminate.
      rewrite lookup_insert_eq. rewrite !(lookup_insert_ne _ (indexed "h" j)) by discriminate.
      by rewrite lookup_insert_eq.
    + assert (Hne : forall c c' : ascii, indexed (String c "") i <> indexed (String c' "") j).
      { unfold indexed. simpl. intros c c' E. injection E as _ E. by apply FormatInt_inj in E. }
      rewrite !lookup_insert_ne by apply Hne. apply Hw.
  - intros T. assert (Hne : forall c, c ∈ ["w"; "z"; "h"; "t"] -> indexed c i <> "token_n").
    { intros c Hc. apply plain_field; [set_solver | done]. }
    rewrite !lookup_insert_ne by (apply Hne; set_solver). apply Hn.
Qed.

Lemma empty_fields : fields_ok ∅.
Proof. split; intros *; by rewrite lookup_empty. Qed.

Lemma cmd_hash_ledger d id : ledgers_ok d -> fields_ok (cmd_hash d (ledgerKey s id)).
Proof.
  intros Hd. unfold cmd_hash. destruct (rd_hash d !! ledgerKey s id) as [l|] eqn:El; simpl; [by apply (Hd id) | apply empty_fields].
Qed.

Lemma ledgers_same d d' : ledgers_ok d -> (forall id, same_key (ledgerKey s id) d' d) -> ledgers_ok d'.
Proof. intros Hd Hs id l Hl. apply (Hd id). destruct (Hs id) as [E _]. by rewrite <- E. Qed.

Lemma ledgers_purge now d : ledgers_ok d -> ledgers_ok (purge now d).
Proof. intros Hd id l Hl%purge_hash_sub. by apply (Hd id). Qed.

Lemma ledgers_HSET d id fs : ledgers_ok d -> fields_ok (foldl (fun m p => <[p.1 := p.2]> m) (cmd_hash d (ledgerKey s id)) fs) ->
  ledgers_ok (HSET (ledgerKey s id) fs d).
Proof.
  intros Hd Hf id' l. unfold HSET. simpl. destruct (decide (id' = id)) as [->|Hne].
  - rewrite put_key_eq. intros [= <-]. done.
  - rewrite put_key_ne; [apply Hd|]. intros E. apply (rate_key_inj s KLedger _ KLedger) in E. naive_solver.
Qed.

Lemma ledgers_PEXPIRE now key ttl d : ledgers_ok d -> ledgers_ok (PEXPIRE now key ttl d).
Proof.
  intros Hd id l. unfold PEXPIRE. case_bool_decide; simpl.
  - intros [_ Hl]%lookup_delete_Some. by apply (Hd id).
  - destruct (decide (key = ledgerKey s id)) as [->|Hne].
    + rewrite set_expiry_eq. intros (l0 & Hl & ->)%fmap_Some. simpl. by apply (Hd id).
    + rewrite set_expiry_ne by done. apply Hd.
Qed.

(** ** The scripts and the ledgers *)

Lemma charge_keeps id k w amount : keeps no_token (s_charge_tok s id k w amount).
Proof. apply charge_frame, no_token_apart. Qed.

Lemma keeps_ledgers {A} (m : LM A) now d : keeps no_token m -> ledgers_ok d -> ledgers_ok (m now d).2.
Proof. intros Hm Hd. apply (ledgers_same d); [done|]. intros id. apply Hm, no_token_ledger. Qed.

Lemma grant_toks_ledgers id i ts now d : Forall (fun t => 0 < tk_Window t < 2 ^ 63 /\ Q (tk_Key t) (Milliseconds (tk_Window t))) ts -> ledgers_ok d ->
  ledgers_ok (s_grant_toks s id (ledgerKey s id) i ts now d).2.
Proof.
  intros Hts. revert i d. induction Hts as [|t ts [Ht HQ] Hts IH]; intros i d Hd; cbn [s_grant_toks]; [done|].
  rewrite bind_run. unfold s_grant_tok. rewrite bind_run.
  pose proof (keeps_ledgers _ now d (charge_keeps id (tk_Key t) (ms_num (tk_Window t)) (lua_num (tk_Amount t))) Hd) as Hc.
  destruct (s_charge_tok _ _ _ _ _ now d) as [[u|e] d1]; [|done]. cbn [snd] in Hc. unfold lua_do. cbv beta iota.
  apply IH. apply ledgers_HSET; [done|].
  assert (0 <= ms_num (tk_Window t) < 2 ^ 53) as Hms.
  { rewrite ms_num_eq by lia. unfold Milliseconds. split; [apply Z.quot_pos; lia|].
    apply (Z.le_lt_trans _ (Z.quot (2 ^ 63) 1000000)); [apply Z.quot_le_mono; lia | reflexivity]. }
  rewrite lua_show_small by lia. apply fields_ok_indexed; [by apply cmd_hash_ledger | lia |]. by rewrite ms_num_eq by lia.
Qed.

Lemma grant_toks_keeps id i ts : keeps (fun k => no_token k /\ k <> ledgerKey s id) (s_grant_toks s id (ledgerKey s id) i ts).
Proof.
  revert i. induction ts as [|t ts IH]; intros i; cbn [s_grant_toks]; [frame_script|].
  apply script_keeps_bind; [|intros ?; apply IH]. unfold s_grant_tok. apply script_keeps_bind.
  - intros now d k [Hk _]. by apply charge_keeps.
  - intros ?. apply keeps_do. intros d k [_ Hk]. by apply HSET_same.
Qed.

End Ledgers.

(** ** Scripts keep ledgers well-formed *)

Section LedgerScripts.
Context `{RedisServer} (s : RateStore).

(** The plain fields of the ledger are not touched while the tokens are charged. *)
Lemma grant_toks_plain id i ts f now d : plain f ->
  HGET (ledgerKey s id) f (s_grant_toks s id (ledgerKey s id) i ts now d).2 = HGET (ledgerKey s id) f d.
Proof.
  intros Hf. revert i d. induction ts as [|t ts IH]; intros i d; cbn [s_grant_toks]; [done|].
  rewrite bind_run. unfold s_grant_tok. rewrite bind_run.
  pose proof (charge_keeps s id (tk_Key t) (ms_num (tk_Window t)) (lua_num (tk_Amount t)) now d _ (no_token_ledger s id)) as [Hc _].
  destruct (s_charge_tok _ _ _ _ _ now d) as [[u|e] d1]; cbn [snd] in Hc; [|unfold HGET, cmd_hash; simpl; by rewrite Hc].
  unfold lua_do. cbv beta iota. rewrite IH, HGET_HSET_ne.
  - unfold HGET, cmd_hash. by rewrite Hc.
  - cbn [fmap list_fmap fst]. rewrite !not_elem_of_cons. split_and!; try apply not_elem_of_nil; intros ->;
      (eapply Hf; [|reflexivity]); set_solver.
Qed.


(** Only request keys are touched by the check and the grant. *)
Definition no_request (key : string) : Prop := forall k', key <> requestKey s k'.
Lemma no_request_ledger id : no_request (ledgerKey s id).
Proof. intros k' E%(rate_key_inj s KLedger _ KReq). naive_solver. Qed.

Lemma check_reqs_keeps rs : keeps no_request (s_check_reqs s rs).
Proof.
  induction rs as [|r rs IH]; cbn [s_check_reqs]; [frame_script|].
  apply script_keeps_bind; [frame_script | intros now]. apply script_keeps_bind; [apply keeps_do; intros d key Hk; apply ZREMRANGE_same, Hk | intros _].
  frame_script.
Qed.

Lemma grant_reqs_keeps id rs : keeps no_request (s_grant_reqs s id rs).
Proof.
  induction rs as [|r rs IH]; cbn [s_grant_reqs]; [frame_script|].
  apply script_keeps_bind; [frame_script | intros now]. apply script_keeps_bind; [apply keeps_do; intros d key Hk; apply ZADD_same, Hk | intros _].
  apply script_keeps_bind; [|intros _; done]. apply keeps_expire. intros Hk. by apply (Hk (rq_Key r)).
Qed.

Context (Q : string -> Z -> Prop).

Lemma grant_ledgers r pending terminal now d : Forall (fun t => 0 < tk_Window t < 2 ^ 63 /\ Q (tk_Key t) (Milliseconds (tk_Window t))) (rv_Tokens r) ->
  Z.of_nat (length (rv_Tokens r)) < 2 ^ 53 -> ledgers_ok s Q d -> ledgers_ok s Q (s_grant s r pending terminal now d).2.
Proof.
  intros Hts Hn Hd. unfold s_grant. rewrite bind_run.
  pose proof (fun id => grant_reqs_keeps (rv_ID r) (rv_Requests r) now d _ (no_request_ledger id)) as Hled.
  destruct (s_grant_reqs _ _ _ now d) as [[u|e] d1]; cbn [snd] in Hled; [|by apply (ledgers_same s Q d)].
  apply (ledgers_same s Q d d1 Hd) in Hled. repeat lua_run. rewrite bind_run. set (d2 := HSET _ _ d1).
  assert (Hd2 : ledgers_ok s Q d2).
  { apply ledgers_HSET; [done|]. apply fields_ok_plain; [by apply cmd_hash_ledger | |].
    - repeat constructor; apply plain_field; set_solver.
    - cbn [foldl fst snd]. rewrite lookup_insert_eq. intros T [= <-]. right. exists (length (rv_Tokens r)).
      rewrite lua_num_small, lua_show_small by done. done. }
  pose proof (grant_toks_ledgers s Q (rv_ID r) 1 (rv_Tokens r) now d2 Hts Hd2) as Hd3.
  destruct (s_grant_toks _ _ _ _ _ now d2) as [[v|e] d3]; [|done]. lua_run. simpl. by apply ledgers_PEXPIRE.
Qed.

Lemma close_ledgers id action actual ws ttl now d : ledgers_ok s Q d -> ledgers_ok s Q (s_close s id action actual ws ttl now d).2.
Proof.
  intros Hd. unfold s_close. rewrite bind_run. pose proof (keeps_ledgers s Q _ now d (settle_keeps s id actual ws) Hd) as Hd1.
  destruct (s_settle _ _ _ _ now d) as [[u|e] d1]; [|done]. cbn [snd] in Hd1. repeat lua_run.
  destruct (bool_decide _); cbn [lua_ret snd]; unfold lua_ret; cbn [snd]; apply ledgers_PEXPIRE, ledgers_HSET; try done;
    (apply fields_ok_plain; [by apply cmd_hash_ledger | repeat constructor; apply plain_field; set_solver |
     intros T; cbn [foldl fst snd]; rewrite lookup_insert_ne by discriminate; by left]).
Qed.

(** The whole scripts. *)
Lemma terminal_ledgers id action actual ws now d : ledgers_ok s Q d -> ledgers_ok s Q (s_terminal s id action actual ws now d).2.
Proof.
  intros Hd. unfold s_terminal. repeat lua_run. destruct (HGET _ "state" d) as [state|]; [|done].
  case_bool_decide; [done|]. case_bool_decide; [by case_bool_decide|].
  assert (Htn : forall t, (tonumber t now d).2 = d) by (intros t; unfold tonumber; by destruct (read_Z t)).
  repeat lua_run. rewrite bind_run. pose proof (Htn (default "0" (HGET (ledgerKey s id) "expires" d))) as He.
  destruct (tonumber _ now d) as [[expires|err] d1]; cbn [snd] in He; subst d1; [|done]. repeat lua_run. rewrite bind_run.
  pose proof (Htn (default "0" (HGET (ledgerKey s id) "terminal_ttl" d))) as He.
  destruct (tonumber _ now d) as [[ttl|err] d1]; cbn [snd] in He; subst d1; [|done]. repeat lua_run.
  destruct (bool_decide _); by apply close_ledgers.
Qed.

Lemma reserve_ledgers window r now d : Forall (fun t => 0 < tk_Window t < 2 ^ 63 /\ Q (tk_Key t) (Milliseconds (tk_Window t))) (rv_Tokens r) ->
  Z.of_nat (length (rv_Tokens r)) < 2 ^ 53 -> ledgers_ok s Q d -> ledgers_ok s Q (s_reserve s window r now d).2.
Proof.
  intros Hts Hn Hd. unfold s_reserve. repeat lua_run. destruct (HGET _ "state" d); [done|]. rewrite bind_run.
  pose proof (fun id => check_reqs_keeps (rv_Requests r) now d _ (no_request_ledger id)) as Hk1.
  destruct (s_check_reqs s (rv_Requests r) now d) as [[b|err] d1]; cbn [snd] in Hk1; apply (ledgers_same s Q d d1 Hd) in Hk1; [|done].
  destruct b; cbn [negb]; [|done]. rewrite bind_run.
  pose proof (keeps_ledgers s Q _ now d1 (check_toks_keeps s (rv_Tokens r)) Hk1) as Hk2.
  destruct (s_check_toks s (rv_Tokens r) now d1) as [[b|err] d2]; cbn [snd] in Hk2; [|done].
  destruct b; cbn [negb]; [|done]. by apply grant_ledgers.
Qed.

End LedgerScripts.

(** ** A sliding request counter *)

Section Window.
Context `{RedisServer} (s : RateStore) (k : string) (L : nat) (w : Z).
Let W : Z := Milliseconds w.
Hypothesis L_pos : (0 < L)%nat.
Hypothesis L_small : Z.of_nat L < 2 ^ 53.
Hypothesis w_range : 0 < W /\ w < 2 ^ 63.

Definition has_req (d : rdb) (id : string) (t : Z) : Prop :=
  exists e, rd_zset d !! requestKey s k = Some e /\ kv_val e !! id = Some t /\ exp_ge (kv_exp e) (t + W).

Definition has_ledger (d : rdb) (id : string) (b : Z) : Prop :=
  exists l, rd_hash d !! ledgerKey s id = Some l /\ is_Some (kv_val l !! "state") /\
    (exists ttl, kv_val l !! "terminal_ttl" = Some (FormatInt ttl) /\ W <= ttl < 2 ^ 53) /\ exp_ge (kv_exp l) b.

Lemma has_req_same d d' id t : same_key (requestKey s k) d' d -> has_req d id t -> has_req d' id t.
Proof. intros (_ & E & _) (e & He & H1). exists e. by rewrite E. Qed.
Lemma has_ledger_same d d' id b : same_key (ledgerKey s id) d' d -> has_ledger d id b -> has_ledger d' id b.
Proof. intros (E & _) (e & He & H1). exists e. by rewrite E. Qed.

Lemma has_req_purge now d id t : now < t + W -> has_req d id t -> has_req (purge now d) id t.
Proof. intros Hn (e & He & Hi & Hx). exists e. split; [|done]. by eapply purge_zset. Qed.
Lemma has_ledger_purge now d id b : now < b -> has_ledger d id b -> has_ledger (purge now d) id b.
Proof. intros Hn (e & He & H1 & H2 & Hx). exists e. split; [|done]. by eapply purge_hash. Qed.

Lemma ZREMRANGE_req d id t max : max < t -> has_req d id t -> has_req (ZREMRANGEBYSCORE (requestKey s k) max d) id t.
Proof.
  intros Hm (e & He & Hi & Hx). unfold has_req, ZREMRANGEBYSCORE. simpl. unfold cmd_zset. rewrite He. simpl.
  set (z := filter _ (kv_val e)).
  assert (Hz : z !! id = Some t) by (apply map_lookup_filter_Some; split; [done|]; unfold upto; simpl; lia).
  rewrite bool_decide_false by (intros E; rewrite E, lookup_empty in Hz; done).
  exists (mkKeyed z (kv_exp e)). rewrite put_key_eq, He. done.
Qed.

(** The counters of a reservation, with the one of interest configured. *)
Definition windows_ok (rs : list RequestCounter) : Prop :=
  forall r, r ∈ rs -> rq_Key r = k -> rq_Window r = w /\ rq_Limit r = Z.of_nat L.

Lemma w_num : ms_num w = W.
Proof. apply ms_num_eq. lia. Qed.

Lemma check_reqs_req rs now d id t : windows_ok rs -> now < t + W -> has_req d id t -> has_req (s_check_reqs s rs now d).2 id t.
Proof.
  revert d. induction rs as [|r rs IH]; intros d Hw Hn Hd; cbn [s_check_reqs]; [done|]. repeat lua_run.
  assert (Hd1 : has_req (ZREMRANGEBYSCORE (requestKey s (rq_Key r)) (now - ms_num (rq_Window r) - 1) d) id t).
  { destruct (decide (rq_Key r = k)) as [Hk|Hk].
    - destruct (Hw r) as [-> _]; [set_solver | done |]. rewrite Hk, w_num. apply ZREMRANGE_req; [lia | done].
    - eapply has_req_same; [|done]. apply ZREMRANGE_same. intros E%(rate_key_inj s KReq _ KReq). naive_solver. }
  case_bool_decide; [done|]. apply IH; [|done|done]. intros r' Hr'. apply Hw. set_solver.
Qed.

Lemma size_ZREMRANGE key key' max d : (size (cmd_zset (ZREMRANGEBYSCORE key' max d) key) <= size (cmd_zset d key))%nat.
Proof.
  unfold ZREMRANGEBYSCORE, cmd_zset at 1. simpl. destruct (decide (key = key')) as [<-|Hne]; [|by rewrite put_key_ne].
  unfold put_key. case_bool_decide as Hz; simpl.
  - rewrite lookup_delete_eq. simpl. rewrite map_size_empty. lia.
  - rewrite lookup_insert_eq. simpl. apply map_subseteq_size, map_filter_subseteq.
Qed.

Lemma check_reqs_size rs now d key : (size (cmd_zset (s_check_reqs s rs now d).2 key) <= size (cmd_zset d key))%nat.
Proof.
  revert d. induction rs as [|r rs IH]; intros d; cbn [s_check_reqs]; [simpl; lia|]. repeat lua_run.
  pose proof (size_ZREMRANGE key (requestKey s (rq_Key r)) (now - ms_num (rq_Window r) - 1) d).
  case_bool_decide; simpl; [done|]. etrans; [apply IH | done].
Qed.

Lemma check_reqs_room rs now d : windows_ok rs -> k ∈ map rq_Key rs ->
  (s_check_reqs s rs now d).1 = Ok true -> (size (cmd_zset (s_check_reqs s rs now d).2 (requestKey s k)) < L)%nat.
Proof.
  revert d. induction rs as [|r rs IH]; intros d Hw Hk; cbn [s_check_reqs map] in *; [by apply elem_of_nil in Hk|]. repeat lua_run.
  case_bool_decide as Hc; [done|]. intros Hok. destruct (decide (rq_Key r = k)) as [Hrk|Hrk].
  - destruct (Hw r) as [_ HL]; [set_solver | done |]. rewrite HL in Hc. rewrite lua_num_small in Hc by done.
    unfold ZCARD in Hc. rewrite Hrk in *.
    pose proof (check_reqs_size rs now (ZREMRANGEBYSCORE (requestKey s k) (now - ms_num (rq_Window r) - 1) d) (requestKey s k)). lia.
  - apply IH; [intros r' Hr'; apply Hw; set_solver | | done]. apply elem_of_cons in Hk as [->|]; done.
Qed.

Lemma ZADD_req d id t id' now : id <> id' -> t <= now -> has_req d id t ->
  has_req (PEXPIRE now (requestKey s k) W (ZADD (requestKey s k) now id' d)) id t.
Proof.
  intros Hne Ht (e & He & Hi & Hx). unfold PEXPIRE. rewrite bool_decide_false by lia.
  eexists. simpl. rewrite set_expiry_eq, put_key_eq. split; [done|]. simpl. unfold cmd_zset. rewrite He. simpl.
  rewrite lookup_insert_ne by done. split; [done | lia].
Qed.

Lemma grant_reqs_req rs now d id id' t : windows_ok rs -> id <> id' -> t <= now -> has_req d id t ->
  has_req (s_grant_reqs s id' rs now d).2 id t.
Proof.
  revert d. induction rs as [|r rs IH]; intros d Hw Hne Ht Hd; cbn [s_grant_reqs]; [done|]. repeat lua_run.
  apply IH; [intros r' Hr'; apply Hw; set_solver | done | done |].
  destruct (decide (rq_Key r = k)) as [Hk|Hk].
  - destruct (Hw r) as [-> _]; [set_solver | done |]. rewrite Hk, w_num. by apply ZADD_req.
  - eapply has_req_same; [|done]. assert (requestKey s k <> requestKey s (rq_Key r)) by (intros E%(rate_key_inj s KReq _ KReq); naive_solver).
    etrans; [by apply PEXPIRE_same | by apply ZADD_same].
Qed.

Lemma grant_reqs_new rs now d id : windows_ok rs -> k ∈ map rq_Key rs \/ has_req d id now ->
  has_req (s_grant_reqs s id rs now d).2 id now.
Proof.
  revert d. induction rs as [|r rs IH]; intros d Hw Hk; cbn [s_grant_reqs map] in *.
  { destruct Hk as [Hk|]; [by apply elem_of_nil in Hk | done]. }
  repeat lua_run. apply IH; [intros r' Hr'; apply Hw; set_solver |].
  destruct (decide (rq_Key r = k)) as [Hrk|Hrk].
  - right. destruct (Hw r) as [-> _]; [set_solver | done |]. rewrite Hrk, w_num. unfold PEXPIRE. rewrite bool_decide_false by lia.
    eexists. simpl. rewrite set_expiry_eq, put_key_eq. split; [done|]. simpl. rewrite lookup_insert_eq. split; [done | lia].
  - destruct Hk as [Hk|Hd]; [left; apply elem_of_cons in Hk as [->|]; done|]. right.
    eapply has_req_same; [|done]. assert (requestKey s k <> requestKey s (rq_Key r)) by (intros E%(rate_key_inj s KReq _ KReq); naive_solver).
    etrans; [by apply PEXPIRE_same | by apply ZADD_same].
Qed.

Lemma grant_reqs_ok id rs now d : (s_grant_reqs s id rs now d).1 = Ok tt.
Proof. revert d. induction rs as [|r rs IH]; intros d; cbn [s_grant_reqs]; [done|]. repeat lua_run. apply IH. Qed.

(** ** The scripts and the counter *)

Lemma ledger_ne id id' : id <> id' -> ledgerKey s id <> ledgerKey s id'.
Proof. intros Hne E%(rate_key_inj s KLedger _ KLedger). naive_solver. Qed.
Lemma req_ledger_ne id : requestKey s k <> ledgerKey s id.
Proof. intros E%(rate_key_inj s KReq _ KLedger). naive_solver. Qed.

Lemma expire_hash now key ttl d h : 0 < ttl -> rd_hash d !! key = Some h ->
  rd_hash (PEXPIRE now key ttl d) !! key = Some (mkKeyed (kv_val h) (Some (now + ttl))).
Proof. intros Ht Hh. unfold PEXPIRE. rewrite bool_decide_false by lia. simpl. by rewrite set_expiry_eq, Hh. Qed.

(** What a grant leaves of the other leases. *)
Lemma grant_others r pending terminal now d id t b : windows_ok (rv_Requests r) -> id <> rv_ID r -> t <= now ->
  let d' := (s_grant s r pending terminal now d).2 in
  (has_req d id t -> has_req d' id t) /\ (has_ledger d id b -> has_ledger d' id b).
Proof.
  intros Hw Hne Ht. unfold s_grant. rewrite bind_run.
  pose proof (grant_reqs_ok (rv_ID r) (rv_Requests r) now d) as Hok.
  pose proof (grant_reqs_req (rv_Requests r) now d id (rv_ID r) t Hw Hne Ht) as Hreq.
  pose proof (grant_reqs_keeps s (rv_ID r) (rv_Requests r) now d _ (no_request_ledger s id)) as Hled.
  destruct (s_grant_reqs _ _ _ now d) as [[u|e] d1]; [|done]. cbn [fst snd] in *. repeat lua_run. rewrite bind_run.
  set (d2 := HSET _ _ d1).
  pose proof (grant_toks_keeps s (rv_ID r) 1 (rv_Tokens r) now d2) as Htok.
  assert (Hmid : forall key, no_token s key -> key <> ledgerKey s (rv_ID r) ->
    same_key key (match s_grant_toks s (rv_ID r) (ledgerKey s (rv_ID r)) 1 (rv_Tokens r) now d2 with
                  | (Ok _, d) => lua_bind (lua_expire (ledgerKey s (rv_ID r)) (pending + terminal)) (fun _ => lua_ret 1) now d
                  | (Err e, d) => (Err e, d) end).2 d1).
  { intros key Hk Hkl. specialize (Htok key (conj Hk Hkl)). destruct (s_grant_toks _ _ _ _ _ now d2) as [[v|e] d3]; cbn [snd] in *.
    - lua_run. simpl. etrans; [by apply PEXPIRE_same|]. etrans; [done | by apply HSET_same].
    - etrans; [done | by apply HSET_same]. }
  split; intros Hd.
  - apply Hreq in Hd. eapply has_req_same; [|done]. apply Hmid; [apply no_token_req | apply req_ledger_ne].
  - apply (has_ledger_same _ _ _ _ Hled) in Hd. eapply has_ledger_same; [|done]. apply Hmid; [apply no_token_ledger | by apply ledger_ne].
Qed.

(** What a grant records of its own lease. *)
Lemma grant_own r pending terminal now d : windows_ok (rv_Requests r) -> 0 <= pending -> W <= terminal < 2 ^ 53 ->
  (s_grant s r pending terminal now d).1 = Ok 1 ->
  let d' := (s_grant s r pending terminal now d).2 in
  (k ∈ map rq_Key (rv_Requests r) -> has_req d' (rv_ID r) now) /\ has_ledger d' (rv_ID r) (now + W).
Proof.
  intros Hw Hp Ht. unfold s_grant. rewrite bind_run.
  pose proof (grant_reqs_new (rv_Requests r) now d (rv_ID r) Hw) as Hreq.
  destruct (s_grant_reqs _ _ _ now d) as [[u|e] d1]; [|done]. cbn [fst snd] in *. repeat lua_run. rewrite bind_run.
  set (d2 := HSET _ _ d1).
  pose proof (grant_toks_keeps s (rv_ID r) 1 (rv_Tokens r) now d2) as Htok.
  pose proof (grant_toks_plain s (rv_ID r) 1 (rv_Tokens r) "state" now d2 ltac:(apply plain_field; set_solver)) as Hstate.
  pose proof (grant_toks_plain s (rv_ID r) 1 (rv_Tokens r) "terminal_ttl" now d2 ltac:(apply plain_field; set_solver)) as Httl.
  destruct (s_grant_toks _ _ _ _ _ now d2) as [[v|e] d3]; [|done]. cbn [snd] in *. lua_run. intros _. cbn [snd lua_ret]. unfold lua_ret. cbn [snd].
  assert (Hs2 : HGET (ledgerKey s (rv_ID r)) "state" d2 = Some "pending" /\ HGET (ledgerKey s (rv_ID r)) "terminal_ttl" d2 = Some (FormatInt terminal)).
  { unfold HGET, d2. rewrite cmd_hash_HSET, (lua_show_small terminal) by lia. cbn [foldl fst snd].
    split; repeat first [rewrite lookup_insert_eq; reflexivity | rewrite lookup_insert_ne by discriminate]. }
  destruct Hs2 as [Hs2 Ht2]. rewrite Hs2 in Hstate. rewrite Ht2 in Httl.
  split.
  - intros Hk. eapply has_req_same; [|apply Hreq; by left].
    etrans; [apply PEXPIRE_same, req_ledger_ne|]. etrans; [apply Htok; split; [apply no_token_req | apply req_ledger_ne]|].
    apply HSET_same, req_ledger_ne.
  - unfold HGET, cmd_hash in Hstate, Httl. destruct (rd_hash d3 !! ledgerKey s (rv_ID r)) as [l|] eqn:El; [|done].
    simpl in Hstate, Httl. eexists. split; [by apply expire_hash; [lia|]|]. simpl. rewrite Hstate. split; [by eexists|].
    split; [|lia]. exists terminal. split; [done | lia].
Qed.

(** A settlement leaves the counter and keeps every ledger of a recent lease. *)
Lemma close_window id action actual ws ttl now d id' t b :
  let d' := (s_close s id action actual ws ttl now d).2 in
  (has_req d id' t -> has_req d' id' t) /\
  (id <> id' \/ W <= ttl -> b <= now + W -> has_ledger d id' b -> has_ledger d' id' b).
Proof.
  unfold s_close. rewrite bind_run. pose proof (settle_keeps s id actual ws now d) as Hk.
  destruct (s_settle _ _ _ _ now d) as [[u|e] d1]; cbn [snd] in *.
  2: { split; [intros Hd; eapply has_req_same | intros _ _ Hd; eapply has_ledger_same]; [|done| |done];
         apply Hk; [apply no_token_req | apply no_token_ledger]. }
  repeat lua_run.
  assert (Hend : forall d2, (if bool_decide (action = "expired") then lua_ret (-3) else lua_ret 1 : LM Z) now d2 =
                            (Ok (if bool_decide (action = "expired") then -3 else 1), d2)) by (intros; by case_bool_decide).
  rewrite Hend. cbn [snd]. split.
  - intros Hd. eapply has_req_same; [|done]. etrans; [apply PEXPIRE_same, req_ledger_ne|].
    etrans; [apply HSET_same, req_ledger_ne | apply Hk, no_token_req].
  - intros Hid Hb Hd. destruct (decide (id = id')) as [<-|Hne].
    + destruct Hid as [|Httl]; [done|]. apply (has_ledger_same _ d1) in Hd; [|by apply Hk, no_token_ledger].
      destruct Hd as (l & Hl & Hs & Ht & Hx).
      eexists. split; [apply expire_hash; [lia|]; unfold HSET; simpl; by rewrite put_key_eq|].
      unfold cmd_hash. rewrite Hl. cbn [kv_val kv_exp fmap option_fmap option_map default foldl fst snd].
      rewrite lookup_insert_eq. split; [by eexists|]. split; [|simpl; lia].
      by rewrite lookup_insert_ne by discriminate.
    + eapply has_ledger_same; [|done]. etrans; [by apply PEXPIRE_same, ledger_ne|].
      etrans; [by apply HSET_same, ledger_ne | apply Hk, no_token_ledger].
Qed.

(** Both scripts of a settlement, for a lease of any kind. *)
Lemma terminal_window Q id action actual ws now d id' t b : ledgers_ok s Q d -> b <= now + W ->
  let d' := (s_terminal s id action actual ws now d).2 in
  (has_req d id' t -> has_req d' id' t) /\ (has_ledger d id' b -> has_ledger d' id' b) /\ ledgers_ok s Q d'.
Proof.
  intros Hok Hb. unfold s_terminal. repeat lua_run. destruct (HGET _ "state" d) as [state|]; [|done].
  case_bool_decide; [done|]. case_bool_decide; [by case_bool_decide|].
  repeat lua_run. rewrite bind_run. assert (Htn : forall x, (tonumber x now d).2 = d) by (intros x; unfold tonumber; by destruct (read_Z x)).
  pose proof (Htn (default "0" (HGET (ledgerKey s id) "expires" d))) as He.
  destruct (tonumber _ now d) as [[expires|e] d1]; cbn [snd] in He; subst d1; [|done]. repeat lua_run. rewrite bind_run.
  pose proof (Htn (default "0" (HGET (ledgerKey s id) "terminal_ttl" d))) as He.
  destruct (tonumber (default "0" (HGET _ "terminal_ttl" d)) now d) as [[ttl|e] d1] eqn:Ettl; cbn [snd] in He; subst d1; [|done]. repeat lua_run.
  assert (Hown : has_ledger d id' b -> id <> id' \/ W <= ttl).
  { intros (l & Hl & _ & (ttl' & Ht & Hr) & _). destruct (decide (id = id')) as [<-|]; [right | by left].
    unfold HGET, cmd_hash in Ettl. rewrite Hl in Ettl. simpl in Ettl. rewrite Ht in Ettl. simpl in Ettl.
    rewrite tonumber_FormatInt in Ettl by lia. unfold lua_ret in Ettl. simplify_eq. lia. }
  destruct (bool_decide _);
    match goal with |- context [s_close s id ?a ?u ws ttl now d] =>
      destruct (close_window id a u ws ttl now d id' t b) as [Hr Hl]; pose proof (close_ledgers s Q id a u ws ttl now d Hok) end;
    split_and!; auto.
Qed.

End Window.

(** * Plans *)

Section Plans.
Context `{RedisServer} (s : RateStore) (Q : string -> Z -> Prop) (A : Z -> Prop).

Definition plan_ok (p : list string * list string) : Prop :=
  exists id action actual ws, Z.of_nat (length ws) < 2 ^ 53 /\ Forall (fun w => Q w.1 w.2) ws /\ A actual /\
    p = (terminal_keys (ledgerKey s id) (map (window_keys s) ws),
         terminal_args action actual (Z.of_nat (length ws)) (map (window_keys s) ws) id).

Lemma ledger_windows_ok h n i ws' : fields_ok s Q h -> ledger_windows h n i = Some ws' ->
  exists ws, ws' = map (window_keys s) ws /\ length ws = n /\ Forall (fun w => Q w.1 w.2) ws.
Proof.
  intros [Hw _]. revert i ws'. induction n as [|n IH]; intros i ws'; cbn [ledger_windows]; [intros [= <-]; by exists []|].
  change ("w" +:+ FormatInt i) with (indexed "w" i). change ("z" +:+ FormatInt i) with (indexed "z" i).
  change ("h" +:+ FormatInt i) with (indexed "h" i). change ("t" +:+ FormatInt i) with (indexed "t" i).
  destruct (h !! indexed "w" i) as [W|] eqn:EW; [|done]. destruct (Hw i W EW) as (k & w & -> & Hr & HQ & -> & -> & ->).
  cbn [from_option id]. rewrite ParseInt_FormatInt by lia. destruct (ledger_windows h n (i + 1)) as [ws1|] eqn:E1; [|done].
  intros [= <-]. destruct (IH _ _ E1) as (ws & -> & Hlen & HQs). exists ((k, w) :: ws). simpl. rewrite Hlen. split_and!; [done | done |]. by constructor.
Qed.

Lemma terminal_plan_ok id action actual h p : fields_ok s Q h -> A actual -> terminal_plan s id action actual h = inr p -> plan_ok p.
Proof.
  intros Hf HA. unfold terminal_plan. case_bool_decide; [done|]. case_bool_decide; [done|]. case_bool_decide; [done|].
  destruct (h !! "token_n") as [T|] eqn:ET; [|done]. destruct Hf as [Hw Hn]. destruct (Hn T ET) as (n & -> & Hb).
  cbn [from_option Datatypes.id]. rewrite ParseInt_FormatInt by lia. rewrite Nat2Z.id.
  destruct (ledger_windows h n 1) as [ws'|] eqn:Ews; [|done]. intros [= <-].
  destruct (ledger_windows_ok h n 1 ws' (conj Hw Hn) Ews) as (ws & -> & <- & HQ). by exists id, action, actual, ws.
Qed.
End Plans.

(** * Validated reservations *)

Section Validated.
Context (s : RateStore).

(** Machine integers: durations are int64, and no reservation has 2^53 counters. *)
Definition wf_reservation (r : Reservation) : Prop :=
  Forall (fun c => rq_Window c < 2 ^ 63) (rv_Requests r) /\ Forall (fun c => tk_Window c < 2 ^ 63) (rv_Tokens r) /\
  Z.of_nat (length (rv_Requests r)) < 2 ^ 53 /\ Z.of_nat (length (rv_Tokens r)) < 2 ^ 53.

(** TTLs are zero unless WithLeaseTTLs set them. *)
Definition wf_store : Prop :=
  (rt_leaseTTLsConfigured s = false -> rt_pendingTTL s = 0 /\ rt_terminalTTL s = 0) /\
  rt_pendingTTL s < 2 ^ 63 /\ rt_terminalTTL s < 2 ^ 63.

Lemma Milliseconds_mono a b : a <= b -> Milliseconds a <= Milliseconds b.
Proof. intros Hab. unfold Milliseconds. apply Z.quot_le_mono; lia. Qed.

Lemma validate_ok r window : wf_store -> rate_validate s r = Ok window ->
  window = reservationWindow r /\ 0 <= rt_pendingTTL s /\ 0 <= rt_terminalTTL s /\
  Forall (fun c => 0 < rq_Window c /\ 0 < Milliseconds (rq_Window c)) (rv_Requests r) /\
  Forall (fun c => 0 < tk_Window c /\ 0 < Milliseconds (tk_Window c) /\ 0 <= tk_Amount c) (rv_Tokens r).
Proof.
  intros (Hcfg & _ & _). unfold rate_validate, validTTL.
  destruct (rt_leaseTTLsConfigured s && _) eqn:Ec; [done|]. destruct (bool_decide (rv_ID r = "")); [done|].
  destruct (existsb _ (rv_Requests r)) eqn:Er; [done|]. destruct (existsb _ (rv_Tokens r)) eqn:Et; [done|].
  cbv zeta. destruct (bool_decide (reservationWindow r = 0)); [done|]. intros [= <-].
  assert (0 <= rt_pendingTTL s /\ 0 <= rt_terminalTTL s) as [? ?].
  { destruct (rt_leaseTTLsConfigured s); simpl in Ec; [|destruct Hcfg; [done | lia]].
    apply orb_false_iff in Ec as [E1%bool_decide_eq_false E2%bool_decide_eq_false]. lia. }
  pose proof (proj1 (existsb_false _ _) Er) as Er1. pose proof (proj1 (existsb_false _ _) Et) as Et1. split_and!; [done..| |]; apply Forall_forall; intros c Hc; [apply Er1 in Hc | apply Et1 in Hc];
    rewrite ?orb_false_iff, ?negb_false_iff, ?andb_true_iff, ?bool_decide_eq_true, ?bool_decide_eq_false in Hc; lia.
Qed.

Lemma fold_max_ge {A} (f : A -> Z) xs b : b <= fold_left (fun w c => if bool_decide (w < f c) then f c else w) xs b /\
  (forall x, x ∈ xs -> f x <= fold_left (fun w c => if bool_decide (w < f c) then f c else w) xs b).
Proof.
  revert b. induction xs as [|y xs IH]; intros b; simpl; [split; [lia | intros x Hx; by apply elem_of_nil in Hx]|].
  specialize (IH (if bool_decide (b < f y) then f y else b)) as [Hb Hx].
  split; [case_bool_decide; lia|]. intros x [->|Hin]%elem_of_cons; [|by apply Hx]. case_bool_decide; lia.
Qed.

Lemma window_covers r c : c ∈ rv_Requests r -> rq_Window c <= reservationWindow r.
Proof.
  intros Hc. unfold reservationWindow.
  pose proof (proj2 (fold_max_ge rq_Window (rv_Requests r) 0) c Hc).
  pose proof (proj1 (fold_max_ge tk_Window (rv_Tokens r) (fold_left (fun w c => if bool_decide (w < rq_Window c) then rq_Window c else w) (rv_Requests r) 0))).
  lia.
Qed.

Lemma fold_max_lt {A} (f : A -> Z) xs b B : b < B -> Forall (fun x => f x < B) xs ->
  fold_left (fun w c => if bool_decide (w < f c) then f c else w) xs b < B.
Proof.
  intros Hb Hxs. revert b Hb. induction Hxs as [|y xs Hy Hxs IH]; intros b Hb; simpl; [done|].
  apply IH. case_bool_decide; lia.
Qed.

Lemma window_bound r : wf_reservation r -> reservationWindow r < 2 ^ 63.
Proof. intros (H1 & H2 & _). unfold reservationWindow. apply fold_max_lt; [by apply fold_max_lt; [lia|] | done]. Qed.

Lemma effective_ttls r window : wf_store -> wf_reservation r -> rate_validate s r = Ok window ->
  0 <= ms_num (effectivePending s window) /\ Milliseconds window <= ms_num (effectiveTerminal s window) < 2 ^ 53.
Proof.
  intros Hs Hr Hv. destruct (validate_ok r window Hs Hv) as (-> & Hp & Ht & _). pose proof (window_bound r Hr) as Hb.
  destruct Hs as (_ & Hsp & Hst). split.
  - unfold effectivePending. rewrite ms_num_eq.
    + unfold Milliseconds. apply Z.quot_pos; [|lia]. case_bool_decide; lia.
    + pose proof (i64_range (2 * reservationWindow r)). case_bool_decide; lia.
  - assert (effectiveTerminal s (reservationWindow r) < 2 ^ 63 /\ reservationWindow r <= effectiveTerminal s (reservationWindow r)) as [? ?].
    { unfold effectiveTerminal. case_bool_decide; lia. }
    rewrite ms_num_eq by done. split; [by apply Milliseconds_mono|].
    apply (Z.le_lt_trans _ (Milliseconds (2 ^ 63))); [apply Milliseconds_mono; lia | reflexivity].
Qed.
End Validated.

(** * The request window *)

(** Nothing is asked of the token counters here. *)
Definition any (_ : string) (_ : Z) : Prop := True.

Section WindowRun.
Context `{RedisServer} (s : RateStore) (k : string) (L : nat) (w : Z).
Let W : Z := Milliseconds w.
Hypothesis L_pos : (0 < L)%nat.
Hypothesis L_small : Z.of_nat L < 2 ^ 53.
Hypothesis w_range : 0 < W /\ w < 2 ^ 63.
Hypothesis s_wf : wf_store s.

Definition recent (now : Z) (log : list (Z * string)) : list (Z * string) := List.filter (fun e => bool_decide (now < e.1 + W)) log.

Record window_inv (now : Z) (d : rdb) (log : list (Z * string)) : Prop := {
  wi_sorted : Sorted Z.le log.*1;
  wi_past : Forall (fun t => t <= now) log.*1;
  wi_spaced : spaced L (W - 1) log.*1;
  wi_live : forall t id, (t, id) ∈ log -> now < t + W -> has_req s k w d id t /\ has_ledger s w d id (t + W);
  wi_ids : NoDup (recent now log).*2;
  wi_ledgers : ledgers_ok s any d }.

Lemma recent_in now log t id : (t, id) ∈ recent now log <-> (t, id) ∈ log /\ now < t + W.
Proof.
  unfold recent. rewrite !list_elem_of_In, List.filter_In, bool_decide_eq_true. done.
Qed.

Lemma recent_later now now' log : now <= now' -> recent now' log = recent now' (recent now log).
Proof.
  intros Hn. unfold recent. induction log as [|[t id] log IH]; simpl; [done|].
  destruct (bool_decide (now < t + W)) eqn:E1; simpl; rewrite IH; [done|].
  apply bool_decide_eq_false in E1. rewrite bool_decide_false by lia. done.
Qed.

Lemma nodup_recent now log : NoDup log.*2 -> NoDup (recent now log).*2.
Proof.
  unfold recent. induction log as [|[t id] log IH]; simpl; [done|]. intros [Hid Hn]%NoDup_cons.
  case_bool_decide; [|by apply IH]. simpl. apply NoDup_cons. split; [|by apply IH].
  intros ([t' id'] & -> & Hin%list_elem_of_In)%list_elem_of_fmap. apply List.filter_In in Hin as [Hin%list_elem_of_In _].
  apply Hid, list_elem_of_fmap. by exists (t', id').
Qed.

Lemma inv_later now now' d log : now <= now' -> window_inv now d log -> window_inv now' (purge now' d) log.
Proof.
  intros Hn [H1 H2 H3 H4 H5 H6]. split; try done.
  - eapply Forall_impl; [exact H2 | simpl; intros; lia].
  - intros t id Hin Ht. destruct (H4 t id Hin ltac:(lia)) as [Hr Hl]. split; [by apply has_req_purge | by apply has_ledger_purge].
  - rewrite (recent_later now now') by done. by apply nodup_recent.
  - by apply ledgers_purge.
Qed.

Lemma inv_wait now now' d log : now <= now' -> window_inv now d log -> window_inv now' d log.
Proof.
  intros Hn [H1 H2 H3 H4 H5 H6]. split; try done.
  - eapply Forall_impl; [exact H2 | simpl; intros; lia].
  - intros t id Hin Ht. apply H4; [done | lia].
  - rewrite (recent_later now now') by done. by apply nodup_recent.
Qed.

(** A change of the database that keeps the recent leases keeps the invariant. *)
Lemma inv_change now d d' log : window_inv now d log ->
  (forall t id, (t, id) ∈ log -> now < t + W -> has_req s k w d id t -> has_ledger s w d id (t + W) -> has_req s k w d' id t /\ has_ledger s w d' id (t + W)) ->
  ledgers_ok s any d' -> window_inv now d' log.
Proof.
  intros [H1 H2 H3 H4 H5 H6] Hc Hl. split; try done. intros t id Hin Ht. destruct (H4 t id Hin Ht). by apply Hc.
Qed.

(** The recent leases are members of the sorted set, each once. *)
Lemma recent_size now d log : window_inv now d log -> (length (recent now log) <= size (cmd_zset d (requestKey s k)))%nat.
Proof.
  intros [_ _ _ H4 H5 _]. rewrite <- (length_fmap snd), <- (size_list_to_set (C:=gset string)), <- size_dom by done.
  apply subseteq_size. intros id Hid%elem_of_list_to_set. apply list_elem_of_fmap in Hid as ([t id'] & -> & [Hin Ht]%recent_in).
  destruct (H4 t id' Hin Ht) as [(e & He & Hi & _) _]. unfold cmd_zset. rewrite He. simpl. by apply elem_of_dom_2 in Hi.
Qed.

Lemma after_recent now log : length (after (now - (W - 1)) log.*1) = length (recent now log).
Proof.
  unfold after, recent. induction log as [|[t id] log IH]; simpl; [done|].
  rewrite (bool_decide_ext (now - (W - 1) <= t) (now < t + W)) by lia. case_bool_decide; simpl; [f_equal|]; exact IH.
Qed.

(** An admitted request. *)
Lemma inv_grant now d d' log id : window_inv now d log -> (length (recent now log) < L)%nat -> id ∉ (recent now log).*2 ->
  window_inv now d' log -> has_req s k w d' id now -> has_ledger s w d' id (now + W) -> window_inv now d' (log ++ [(now, id)]).
Proof.
  intros [H1 H2 H3 _ H5 _] Hroom Hid [_ _ _ H4 _ H6] Hr Hl.
  split; rewrite ?fmap_app; simpl; try done.
  - by apply snoc_sorted.
  - apply Forall_app. split; [done|]. by constructor.
  - apply spaced_snoc; [done..|]. by rewrite after_recent.
  - intros t id' [Hin|Hin]%elem_of_app Ht; [by apply H4|]. apply list_elem_of_singleton in Hin. by simplify_eq.
  - unfold recent. rewrite List.filter_app. simpl. rewrite bool_decide_true by lia. rewrite fmap_app. simpl.
    apply NoDup_app. split; [done|]. split; [|apply NoDup_singleton]. intros x Hx Hx'. apply list_elem_of_singleton in Hx' as ->. done.
Qed.

Definition req_ids (r : Reservation) : bool := bool_decide (k ∈ map rq_Key (rv_Requests r)).
Definition admission (now : Z) (o : option Reservation) : list (Z * string) :=
  match o with Some r => if req_ids r then [(now, rv_ID r)] else [] | None => [] end.

(** The counter is used with this limit and window. *)
Definition uses_ok (q : rreq) : Prop :=
  match q with QReserve r => wf_reservation r /\ windows_ok k L w (rv_Requests r) | _ => True end.

Lemma not_recent now d log id : window_inv now d log -> HGET (ledgerKey s id) "state" d = None -> id ∉ (recent now log).*2.
Proof.
  intros Hi Hn ([t id'] & -> & [Hin Ht]%recent_in)%list_elem_of_fmap. destruct (wi_live _ _ _ Hi t id' Hin Ht) as [_ (l & Hl & [v Hv] & _)].
  simpl in Hn. unfold HGET, cmd_hash in Hn. rewrite Hl in Hn. simpl in Hn. congruence.
Qed.

Lemma reserve_inv now d log r window : window_inv now d log -> wf_reservation r -> windows_ok k L w (rv_Requests r) ->
  rate_validate s r = Ok window ->
  let '(result, d') := s_reserve s window r now d in
  window_inv now d' (log ++ admission now (match result, HGET (ledgerKey s (rv_ID r)) "state" d with Ok 1, None => Some r | _, _ => None end)).
Proof.
  intros Hi Hwf Hw Hv. destruct (effective_ttls s r window s_wf Hwf Hv) as [Hp Ht].
  destruct (validate_ok s r window s_wf Hv) as (-> & _ & _ & Hreqs & Htoks).
  unfold s_reserve. repeat lua_run. destruct (HGET (ledgerKey s (rv_ID r)) "state" d) as [st|] eqn:Est.
  { unfold lua_ret. simpl. by rewrite app_nil_r. }
  pose proof (not_recent now d log (rv_ID r) Hi Est) as Hid.
  rewrite bind_run.
  pose proof (fun id t => check_reqs_req s k L w L_pos L_small w_range (rv_Requests r) now d id t Hw) as Hc1.
  pose proof (check_reqs_room s k L w L_pos L_small w_range (rv_Requests r) now d Hw) as Hroom.
  pose proof (check_reqs_keeps s (rv_Requests r) now d) as Hk1.
  destruct (s_check_reqs s (rv_Requests r) now d) as [[b|e] d1]; cbn [fst snd] in *.
  2: { rewrite app_nil_r. apply (inv_change now d); [done | |].
       - intros t id Hin Ht' Hr Hl. split; [by apply Hc1|]. eapply has_ledger_same; [apply Hk1, no_request_ledger | done].
       - apply (ledgers_same s any d); [apply Hi|]. intros id. apply Hk1, no_request_ledger. }
  assert (Hi1 : window_inv now d1 log).
  { apply (inv_change now d); [done | |].
    - intros t id Hin Ht' Hr Hl. split; [by apply Hc1|]. eapply has_ledger_same; [apply Hk1, no_request_ledger | done].
    - apply (ledgers_same s any d); [apply Hi|]. intros id. apply Hk1, no_request_ledger. }
  destruct b; cbn [negb]; [|unfold lua_ret; by rewrite app_nil_r].
  rewrite bind_run. pose proof (check_toks_keeps s (rv_Tokens r) now d1) as Hk2.
  destruct (s_check_toks s (rv_Tokens r) now d1) as [b d2]; cbn [snd] in *.
  assert (Hi2 : window_inv now d2 log).
  { apply (inv_change now d1); [done | |].
    - intros t id Hin Ht' Hr Hl. split; [eapply has_req_same; [apply Hk2, no_token_req | done]|].
      eapply has_ledger_same; [apply Hk2, no_token_ledger | done].
    - apply (ledgers_same s any d1); [apply Hi1|]. intros id. apply Hk2, no_token_ledger. }
  destruct b as [b|e]; [|by rewrite app_nil_r]. destruct b; cbn [negb]; [|unfold lua_ret; by rewrite app_nil_r].
  set (P := ms_num (effectivePending s (reservationWindow r))) in *. set (T := ms_num (effectiveTerminal s (reservationWindow r))) in *.
  assert (Hi3 : window_inv now (s_grant s r P T now d2).2 log).
  { apply (inv_change now d2); [done | |].
    - intros t id Hin Ht' Hr Hl.
      assert (Hne : id <> rv_ID r).
      { intros ->. apply Hid, list_elem_of_fmap. exists (t, rv_ID r). split; [done|]. by apply recent_in. }
      assert (Htn : t <= now).
      { pose proof (wi_past _ _ _ Hi) as Hpast. rewrite Forall_forall in Hpast. apply Hpast, list_elem_of_fmap. by exists (t, id). }
      destruct (grant_others s k L w L_pos L_small w_range r P T now d2 id t (t + W) Hw Hne Htn). auto.
    - apply (grant_ledgers s any); [| by destruct Hwf as (_ & _ & _ & ?) | apply Hi2].
      apply Forall_forall. intros c Hc. rewrite Forall_forall in Htoks. destruct (Htoks c Hc) as (? & _).
      destruct Hwf as (_ & Hwt & _). rewrite Forall_forall in Hwt. specialize (Hwt c Hc). simpl in Hwt. split; [lia | done]. }
  pose proof (grant_own s k L w L_pos L_small w_range r P T now d2 Hw Hp) as Hown.
  destruct (s_grant s r P T now d2) as [[z|e] d3]; cbn [fst snd] in *; [|by rewrite app_nil_r].
  destruct (decide (z = 1)) as [->|Hz]; [|destruct z as [|[]|]; simpl; rewrite ?app_nil_r; done].
  unfold admission, req_ids. case_bool_decide as Hk; [|by rewrite app_nil_r].
  assert (HT : W <= T < 2 ^ 53).
  { split; [|lia]. apply list_elem_of_fmap in Hk as (c & Hkc & Hc). destruct (Hw c Hc (eq_sym Hkc)) as [Hcw _].
    etrans; [|apply Ht]. unfold W. apply Milliseconds_mono. rewrite <- Hcw. by apply window_covers. }
  destruct (Hown HT eq_refl) as [Hr Hl]. apply (inv_grant now d1); auto.
  pose proof (recent_size now d1 log Hi1). specialize (Hroom Hk eq_refl). lia.
Qed.

Lemma step_inv now now' y log q : now <= now' -> uses_ok q -> window_inv now (ry_db y) log -> map_Forall (fun _ p => plan_ok s any (fun _ => True) p) (ry_plans y) ->
  let '(o, y') := req_step s now' q y in
  window_inv now' (ry_db y') (log ++ admission now' o) /\ map_Forall (fun _ p => plan_ok s any (fun _ => True) p) (ry_plans y').
Proof.
  intros Hn Hq Hi Hp. pose proof (inv_later _ _ _ _ Hn Hi) as Hi1. unfold req_step. destruct q as [r|c id usage|c].
  - destruct Hq as [Hwf Hw]. destruct (rate_validate s r) as [window|] eqn:Ev; [|rewrite app_nil_r; split; [by eapply inv_wait | done]].
    rewrite reserveScript_decoded by apply Hwf. pose proof (reserve_inv now' _ log r window Hi1 Hwf Hw Ev) as Hr.
    destruct (s_reserve s window r now' _) as [result d']. by split.
  - destruct (terminal_plan _ _ _ _ _) as [e|p] eqn:Ep; simpl; rewrite app_nil_r; (split; [done|]); [done|].
    apply map_Forall_insert_2; [|done]. eapply terminal_plan_ok; [|done|done]. apply cmd_hash_ledger, Hi1.
  - destruct (ry_plans y !! c) as [[keys args]|] eqn:Ec; [|rewrite app_nil_r; split; [by eapply inv_wait | done]].
    simpl. rewrite app_nil_r. split; [|by apply map_Forall_delete].
    destruct (Hp c _ Ec) as (id & action & actual & ws & Hlen & _ & _ & [= -> ->]). rewrite terminalScript_decoded by done.
    apply (inv_change now' (purge now' (ry_db y))); [done | |].
    + intros t id' Hin Ht Hr Hl.
      assert (Htn : t <= now').
      { pose proof (wi_past _ _ _ Hi1) as Hpast. rewrite Forall_forall in Hpast. apply Hpast, list_elem_of_fmap. by exists (t, id'). }
      destruct (terminal_window s k L w L_pos w_range any id action actual ws now' (purge now' (ry_db y)) id' t (t + W)) as (H1 & H2 & _); [apply Hi1 | lia |].
      auto.
    + apply (terminal_window s k L w L_pos w_range any id action actual ws now' (purge now' (ry_db y)) id now' now'); [apply Hi1 | lia].
Qed.

Lemma run_inv qs now y log : Sorted Z.le (now :: qs.*1) -> Forall (fun q => uses_ok q.2) qs ->
  window_inv now (ry_db y) log -> map_Forall (fun _ p => plan_ok s any (fun _ => True) p) (ry_plans y) ->
  spaced L (W - 1) (log.*1 ++ (flat_map (fun g => admission g.1 (Some g.2)) (req_run s qs y).1).*1).
Proof.
  revert now y log. induction qs as [|[t q] qs IH]; intros now y log Hs Hq Hi Hp; cbn [req_run fst flat_map].
  { rewrite app_nil_r. apply Hi. }
  apply Forall_cons in Hq as [Hq Hqs]. cbn [fmap list_fmap fst] in Hs. apply Sorted_inv in Hs as [Hs Hhd]. apply HdRel_inv in Hhd.
  pose proof (step_inv now t y log q Hhd Hq Hi Hp) as Hstep. destruct (req_step s t q y) as [o y'] eqn:Eo. destruct Hstep as [Hi' Hp'].
  specialize (IH t y' _ Hs Hqs Hi' Hp'). destruct (req_run s qs y') as [grants y'']. cbn [fst] in *.
  rewrite fmap_app, <- app_assoc in IH. destruct o as [r|]; simpl in *; [|done].
  by rewrite fmap_app.
Qed.
End WindowRun.

(** The times at which requests of a key were admitted. *)
Definition admitted_at (k : string) (grants : list (Z * Reservation)) : list Z :=
  omap (fun g => if bool_decide (k ∈ map rq_Key (rv_Requests g.2)) then Some g.1 else None) grants.

Lemma admitted_flat k grants : (flat_map (fun g => admission k g.1 (Some g.2)) grants).*1 = admitted_at k grants.
Proof.
  induction grants as [|[t r] grants IH]; [done|]. cbn [flat_map admitted_at omap list_omap]. rewrite fmap_app, IH.
  unfold admission, req_ids. cbn [fst snd]. by case_bool_decide.
Qed.

(** C10. Over Redis the sliding request limit holds across processes: whatever
    reservations, settlements and expiries any number of callers send to one server in
    any order, each script at a time of the server's clock, no [L + 1] requests are
    admitted against a counter of limit [L] within less than its window. *)
Theorem redis_window_bounded `{RedisServer} s k L w start qs i a b :
  (0 < L)%nat -> Z.of_nat L < 2 ^ 53 -> 0 < Milliseconds w /\ w < 2 ^ 63 -> wf_store s ->
  Sorted Z.le (start :: qs.*1) -> Forall (fun q => uses_ok k L w q.2) qs ->
  let log := admitted_at k (req_run s qs (mkRsys empty_rdb ∅)).1 in
  log !! i = Some a -> log !! (i + L)%nat = Some b -> a + Milliseconds w <= b.
Proof.
  intros HL HL' Hw Hs Hsorted Hq log Ha Hb.
  pose proof (run_inv s k L w HL HL' Hw Hs qs start (mkRsys empty_rdb ∅) [] Hsorted Hq) as Hrun.
  rewrite admitted_flat in Hrun. enough (a + (Milliseconds w - 1) < b) by lia.
  refine (Hrun _ _ i a b Ha Hb); [|apply map_Forall_empty]. split.
  - constructor.
  - constructor.
  - intros j ? ? Hnil. by destruct j.
  - intros t id Hin. by apply elem_of_nil in Hin.
  - constructor.
  - intros id l. simpl. by rewrite lookup_empty.
Qed.

(** Two requests per minute over a server that drops a key in the millisecond of its
    expiry: of four attempts the third is refused. *)
Definition plain_server : RedisServer := {| edge := false; lua_large := FormatInt |}.
Definition minute : Z := 60000000000.
Definition two_a_minute (id : string) : Reservation := mkReservation id [mkRequestCounter "key:a" 2 minute SlidingWindow] [].
Definition redis_attempts : list (Z * rreq) :=
  [(0, QReserve (two_a_minute "1")); (10000, QReserve (two_a_minute "2")); (10500, QMetadata 1 "1" (Some 5)); (10600, QScript 1);
   (59000, QReserve (two_a_minute "3")); (60500, QReserve (two_a_minute "4"))].

Lemma two_ok id : uses_ok "key:a" 2 minute (QReserve (two_a_minute id)).
Proof.
  split.
  - split_and!; [apply Forall_singleton; reflexivity | apply Forall_nil_2 | reflexivity | reflexivity].
  - intros r Hr%list_elem_of_singleton _. by subst r.
Qed.

Lemma redis_window_bounded_witness :
  admitted_at "key:a" (req_run (H:=plain_server) (NewRateStore []) redis_attempts (mkRsys empty_rdb ∅)).1 = [0; 10000; 60500] /\
  0 + Milliseconds minute <= 60500.
Proof.
  split; [vm_compute; reflexivity|].
  refine (redis_window_bounded (H:=plain_server) (NewRateStore []) "key:a" 2 minute 0 redis_attempts 0 0 60500 _ _ _ _ _ _ _ _).
  - lia.
  - lia.
  - unfold Milliseconds, minute. split; [vm_compute; reflexivity | lia].
  - unfold wf_store. simpl. split; [done | lia].
  - cbn [redis_attempts fmap list_fmap fst]. repeat (apply Sorted_cons; [|first [apply HdRel_cons; lia | apply HdRel_nil]]). apply Sorted_nil.
  - unfold redis_attempts. repeat (apply Forall_cons; split; [first [exact I | apply two_ok]|]). apply Forall_nil. exact I.
  - vm_compute. reflexivity.
  - vm_compute. reflexivity.
Defined.
