(* ===== verification/RedisTokens.v ===== *)
(** Token counters of the Redis rate limiter: the three keys of a counter agree, the
    total covers what is recorded, and an admission leaves the recent charges within
    the limit.  A refused reservation takes the expiry from the total: the counter can
    stay full for good. *)
From Stdlib Require Import Ascii.
From stdpp Require Import sorting.
From S2P Require Import Prelude Errors Messages Decimal.
From S2P Require Import SqlConversation ExecutionBackends RedisServer.
From S2P Require Import RateStore RateProps RateLimiter RedisRate RedisRateProps.
Local Open Scope Z_scope.

(** * Sums over maps *)

Definition msum (m : gmap string Z) : Z := map_fold (fun _ n acc => n + acc) 0 m.

Lemma msum_empty : msum ∅ = 0.
Proof. apply map_fold_empty. Qed.

Lemma msum_fresh i n m : m !! i = None -> msum (<[i := n]> m) = n + msum m.
Proof. intros Hi. unfold msum. apply map_fold_insert_L; [intros; lia | done]. Qed.

Lemma msum_delete i m : msum m = default 0 (m !! i) + msum (delete i m).
Proof.
  destruct (m !! i) as [n|] eqn:E; simpl.
  - rewrite <- (insert_delete_id m i n E) at 1. by apply msum_fresh, lookup_delete_eq.
  - by rewrite delete_id.
Qed.

Lemma msum_insert i n m : msum (<[i := n]> m) = msum m - default 0 (m !! i) + n.
Proof.
  rewrite <- insert_delete_eq, msum_fresh by apply lookup_delete_eq. rewrite (msum_delete i m). lia.
Qed.

Definition nonneg (m : gmap string Z) : Prop := map_Forall (fun _ n => 0 <= n) m.

Lemma msum_nonneg m : nonneg m -> 0 <= msum m.
Proof.
  induction m as [|i n m Hi IH] using map_ind; [by rewrite msum_empty|]. intros Hn.
  rewrite msum_fresh by done. apply map_Forall_insert in Hn as [H1 H2]; [|done]. specialize (IH H2). lia.
Qed.

Lemma msum_subset m m' : m' ⊆ m -> nonneg m -> msum m' <= msum m.
Proof.
  revert m. induction m' as [|i n m' Hi IH] using map_ind; intros m Hs Hn; [rewrite msum_empty; by apply msum_nonneg|].
  assert (m !! i = Some n) as Hm by (by eapply lookup_weaken; [apply lookup_insert_eq|]).
  rewrite msum_fresh, (msum_delete i m), Hm by done. simpl.
  assert (msum m' <= msum (delete i m)); [|lia]. apply IH.
  - apply map_subseteq_spec. intros j v Hj. destruct (decide (i = j)) as [->|Hne]; [congruence|].
    rewrite lookup_delete_ne by done. eapply lookup_weaken; [|exact Hs]. by rewrite lookup_insert_ne.
  - by apply map_Forall_delete.
Qed.

Lemma small_value h id n B : nonneg h -> msum h <= n -> n <= B -> 0 <= default 0 (h !! id) <= n.
Proof.
  intros Hh Hs HB. rewrite (msum_delete id h) in Hs. pose proof (map_Forall_delete _ _ id Hh) as Hd. pose proof (msum_nonneg _ Hd).
  destruct (h !! id) as [v|] eqn:E; simpl in *; [specialize (Hh id v E); simpl in Hh; lia | lia].
Qed.

(** * A token counter *)

Definition vnum (v : string) : Z := default 0 (read_Z v).
Lemma vnum_FormatInt n : vnum (FormatInt n) = n.
Proof. unfold vnum, FormatInt. by rewrite read_Z_pretty. Qed.

(** The value of a collection key, absent when empty. *)
Definition at_key {V} (m : gmap string (keyed V)) (k : string) (v : V) (empty : bool) (e : option Z) : Prop :=
  m !! k = if empty then None else Some (mkKeyed v e).

Lemma at_key_live `{RedisServer} {V} now (m : gmap string (keyed V)) k v b e :
  at_key m k v b e -> at_key (filter (live now) m) k v (b || negb (live_at now e)) e.
Proof.
  unfold at_key. intros Hm. destruct b; simpl; [by apply map_lookup_filter_None; left|].
  destruct (live_at now e) eqn:He; simpl.
  - apply map_lookup_filter_Some. split; [done|]. unfold live. by simpl.
  - apply map_lookup_filter_None. right. intros v' Hv. rewrite Hm in Hv. simplify_eq. unfold live. simpl. by rewrite He.
Qed.

Section Counter.
Context `{RedisServer} (s : RateStore) (k : string) (w : Z).
Let W : Z := Milliseconds w.
Hypothesis w_range : 0 < W /\ w < 2 ^ 63.

(** The sorted set [z] of times, the hash [h] of amounts and the total [n], with the
    common expiry [e] of the first two and the expiry [x] of the third. *)
Record counter_at (d : rdb) (z h : gmap string Z) (e : option Z) (n : Z) (x : option Z) : Prop := {
  ca_z : at_key (rd_zset d) (tokenZKey s k) z (bool_decide (z = ∅)) e;
  ca_h : at_key (rd_hash d) (tokenHKey s k) (FormatInt <$> h) (bool_decide (h = ∅)) e;
  ca_t : rd_str d !! tokenTKey s k = Some (mkKeyed (FormatInt n) x) \/ (rd_str d !! tokenTKey s k = None /\ n = 0 /\ z = ∅);
  ca_dom : dom z = dom h;
  ca_exp : x = None \/ x = e \/ z = ∅ }.

(** A counter in order at a time. *)
Record counter_ok (now : Z) (z h : gmap string Z) (e : option Z) (n B : Z) : Prop := {
  co_nonneg : nonneg h;
  co_sum : msum h <= n <= B;
  co_times : forall id t, z !! id = Some t -> t <= now /\ exp_ge e (t + W) }.

Lemma counter_zset d z h e n x : counter_at d z h e n x -> cmd_zset d (tokenZKey s k) = z.
Proof. intros [Hz _ _ _ _]. unfold cmd_zset. rewrite Hz. case_bool_decide; by simpl. Qed.
Lemma counter_hash d z h e n x : counter_at d z h e n x -> cmd_hash d (tokenHKey s k) = FormatInt <$> h.
Proof. intros [_ Hh _ _ _]. unfold cmd_hash. rewrite Hh. case_bool_decide; simpl; [subst; by rewrite fmap_empty | done]. Qed.
Lemma counter_total d z h e n x : counter_at d z h e n x -> default "0" (GET (tokenTKey s k) d) = FormatInt n.
Proof. intros [_ _ Ht _ _]. unfold GET. by destruct Ht as [->|(-> & -> & _)]. Qed.
Lemma counter_empty d z h e n x : counter_at d z h e n x -> z = ∅ <-> h = ∅.
Proof. intros [_ _ _ Hd _]. rewrite <- (dom_empty_iff_L z), <- (dom_empty_iff_L h). by rewrite Hd. Qed.

Lemma counter_same d d' z h e n x :
  same_key (tokenZKey s k) d' d -> same_key (tokenHKey s k) d' d -> same_key (tokenTKey s k) d' d ->
  counter_at d z h e n x -> counter_at d' z h e n x.
Proof.
  intros (_ & Ez & _) (Eh & _) (_ & _ & Et & _) [H1 H2 H3 H4 H5]. split; unfold at_key in *; by rewrite ?Ez, ?Eh, ?Et.
Qed.

(** Expiry: the set and the hash go together, and never outlive the total. *)
Lemma counter_purge now d z h e n x B now0 : counter_at d z h e n x -> counter_ok now0 z h e n B -> now0 <= now ->
  exists z' h' n' x', counter_at (purge now d) z' h' e n' x' /\ counter_ok now z' h' e n' B /\
    (forall id t, z !! id = Some t -> now < t + W -> z' = z /\ h' = h).
Proof.
  intros Hc [H6 H7 H8] Hn. pose proof (counter_empty _ _ _ _ _ _ Hc) as Hem. destruct Hc as [H1 H2 H3 H4 H5].
  pose proof (at_key_live now _ _ _ _ _ H1) as Hz. pose proof (at_key_live now _ _ _ _ _ H2) as Hh.
  destruct (live_at now e) eqn:He; simpl in Hz, Hh; rewrite ?orb_false_r, ?orb_true_r in *.
  - (* the set and the hash live *)
    assert (Hok : counter_ok now z h e n B).
    { split; [done | done |]. intros id t Hi. destruct (H8 id t Hi). split; [lia | done]. }
    destruct H3 as [H3|(H3 & -> & ->)].
    + destruct (live_at now x) eqn:Hx.
      * exists z, h, n, x. split_and!; [|done|done]. split; try done. left. simpl. by apply map_lookup_filter_Some.
      * destruct H5 as [-> | [-> | -> ] ]; [done | congruence |].
        exists ∅, h, 0, None. assert (h = ∅) as -> by (by apply Hem). rewrite msum_empty in H7. split_and!; [| |done].
        -- split; try done; [|by left]. right. split_and!; [|done|done]. simpl. apply map_lookup_filter_None. right. intros v Hv.
           rewrite H3 in Hv. simplify_eq. unfold live. simpl. by rewrite Hx.
        -- split; [done | rewrite msum_empty; lia | intros id t; by rewrite lookup_empty].
    + exists ∅, h, 0, x. split_and!; [|done|done]. split; try done. right. split_and!; [|done|done].
      simpl. apply map_lookup_filter_None. by left.
  - (* they have expired *)
    assert (Hnone : forall id t, z !! id = Some t -> now < t + W -> False).
    { intros id t Hi Ht. destruct (H8 id t Hi) as [_ Hx]. unfold live_at in He. destruct e; [|done]. simpl in Hx.
      rewrite bool_decide_true in He by lia. done. }
    pose proof (msum_nonneg h H6) as Hpos.
    destruct (rd_str (purge now d) !! tokenTKey s k) as [v|] eqn:Ev.
    + exists ∅, ∅, n, (kv_exp v). split_and!; [| |intros id t Hi Ht; by destruct (Hnone id t)].
      * split; try done; [|by auto]. left. rewrite Ev. simpl in Ev. apply map_lookup_filter_Some in Ev as [Ev _].
        destruct H3 as [H3|(H3 & _)]; rewrite H3 in Ev; by simplify_eq.
      * split; [apply map_Forall_empty | rewrite msum_empty; lia | intros id t; by rewrite lookup_empty].
    + exists ∅, ∅, 0, None. split_and!; [| |intros id t Hi Ht; by destruct (Hnone id t)].
      * split; try done; auto.
      * split; [apply map_Forall_empty | rewrite msum_empty; lia | intros id t; by rewrite lookup_empty].
Qed.

(** ** Commands on the counter *)

Lemma at_key_put {V} (m : gmap string (keyed V)) key v b e v' b' : at_key m key v b e -> (b = true -> b' = true) ->
  at_key (put_key key v' b' m) key v' b' e.
Proof.
  unfold at_key. intros Hm Hb. destruct b'; [unfold put_key; by rewrite lookup_delete_eq|].
  destruct b; [by specialize (Hb eq_refl)|]. by rewrite put_key_eq, Hm.
Qed.

Lemma at_key_ne {V} (m : gmap string (keyed V)) key key' v b e v' b' : at_key m key v b e -> key <> key' -> at_key (put_key key' v' b' m) key v b e.
Proof. unfold at_key. intros Hm Hne. by rewrite put_key_ne. Qed.

Lemma tonumber_value (o : option Z) : default 0 o < 2 ^ 53 -> tonumber (default "0" (FormatInt <$> o)) = lua_ret (default 0 o).
Proof. destruct o as [v|]; simpl; [apply tonumber_FormatInt | intros _; by apply (tonumber_FormatInt 0)]. Qed.

Lemma delete_empty_iff (h : gmap string Z) m : bool_decide (delete m (FormatInt <$> h) = ∅) = bool_decide (delete m h = ∅).
Proof. apply bool_decide_ext. rewrite <- fmap_delete. apply fmap_empty_iff. Qed.

(** One member dropped from the set and the hash. *)
Lemma counter_drop d z h e n x m : counter_at d z h e n x ->
  counter_at (ZREM (tokenZKey s k) m (HDEL (tokenHKey s k) m d)) (delete m z) (delete m h) e n x.
Proof.
  intros Hc. pose proof (counter_zset _ _ _ _ _ _ Hc) as Ez. pose proof (counter_hash _ _ _ _ _ _ Hc) as Eh.
  destruct Hc as [H1 H2 H3 H4 H5]. split.
  - unfold ZREM, HDEL. simpl. unfold cmd_zset in *. simpl. rewrite Ez. eapply at_key_put; [done|].
    rewrite !bool_decide_eq_true. intros ->. apply delete_empty.
  - unfold ZREM, HDEL. simpl. rewrite Eh, delete_empty_iff, fmap_delete. eapply at_key_put; [done|].
    rewrite !bool_decide_eq_true. intros ->. apply delete_empty.
  - unfold ZREM, HDEL. simpl. destruct H3 as [->|(-> & -> & ->)]; [by left | right]. by rewrite delete_empty.
  - by rewrite !dom_delete_L, H4.
  - destruct H5 as [-> | [-> | -> ] ]; [by left | by right; left | right; right; apply delete_empty].
Qed.

Definition drop_all (ms : list string) (m : gmap string Z) : gmap string Z := foldl (fun m i => delete i m) m ms.

Lemma drop_all_lookup ms m i : drop_all ms m !! i = if bool_decide (i ∈ ms) then None else m !! i.
Proof.
  unfold drop_all. revert m. induction ms as [|j ms IH]; intros m; simpl.
  - done.
  - rewrite IH. destruct (decide (i = j)) as [->|Hne].
    + rewrite lookup_delete_eq, (bool_decide_true (j ∈ j :: ms)) by left. by destruct (bool_decide _).
    + rewrite lookup_delete_ne by done. rewrite (bool_decide_ext (i ∈ j :: ms) (i ∈ ms)) by set_solver. done.
Qed.

Lemma drop_all_nonneg ms m : nonneg m -> nonneg (drop_all ms m).
Proof. intros Hm i n. rewrite drop_all_lookup. case_bool_decide; [done|]. apply Hm. Qed.

Lemma msum_drop_le ms m : nonneg m -> msum (drop_all ms m) <= msum m.
Proof.
  intros Hm. apply msum_subset; [|done]. apply map_subseteq_spec. intros i n. rewrite drop_all_lookup. by case_bool_decide.
Qed.

Lemma prune_members_spec ms now d z h e n x sum B : counter_at d z h e n x -> nonneg h -> msum h <= sum <= B -> B < 2 ^ 53 ->
  exists d', prune_members (tokenZKey s k) (tokenHKey s k) ms sum now d = (Ok (sum - (msum h - msum (drop_all ms h))), d') /\
    counter_at d' (drop_all ms z) (drop_all ms h) e n x.
Proof.
  intros Hc Hh Hs HB. revert d z h sum Hc Hh Hs. induction ms as [|m ms IH]; intros d z h sum Hc Hh Hs; cbn [prune_members].
  { exists d. unfold drop_all. simpl. split; [|done]. unfold lua_ret. do 2 f_equal. lia. }
  repeat lua_run. unfold HGET. rewrite (counter_hash _ _ _ _ _ _ Hc), lookup_fmap.
  pose proof (small_value h m sum B Hh ltac:(lia) ltac:(lia)) as Hm.
  rewrite tonumber_value by lia. repeat lua_run.
  rewrite lua_num_small by lia. pose proof (msum_delete m h) as Hd.
  pose proof (map_Forall_delete _ _ m Hh) as Hh'.
  assert (Hs' : msum (delete m h) <= sum - default 0 (h !! m) <= B) by lia.
  destruct (IH _ _ _ _ (counter_drop _ _ _ _ _ _ m Hc) Hh' Hs') as (d' & -> & Hc').
  exists d'. split; [|done]. unfold drop_all in *. simpl. do 2 f_equal. lia.
Qed.

(** Pruning: what left the window goes, what is recent stays, and the total loses its expiry. *)
Lemma prune_script_spec now d z h e n x B : counter_at d z h e n x -> counter_ok now z h e n B -> B < 2 ^ 53 ->
  exists d' z' h' n', prune_script (tokenZKey s k) (tokenHKey s k) (tokenTKey s k) W now d = (Ok n', d') /\
    counter_at d' z' h' e n' None /\ counter_ok now z' h' e n' B /\ n' <= n /\
    (forall id t, z !! id = Some t -> now < t + W -> z' !! id = Some t /\ h' !! id = h !! id).
Proof.
  intros Hc [H1 H2 H3] HB. unfold prune_script. repeat lua_run.
  rewrite (counter_total _ _ _ _ _ _ Hc). rewrite tonumber_FormatInt by lia. repeat lua_run.
  unfold ZRANGEBYSCORE. rewrite (counter_zset _ _ _ _ _ _ Hc).
  set (ms := (map_to_list (filter (upto (now - W - 1)) z)).*1).
  destruct (prune_members_spec ms now d z h e n x n B Hc H1 ltac:(lia) HB) as (d' & Hp & Hc'). rewrite bind_run, Hp.
  pose proof (msum_drop_le ms h H1). pose proof (msum_nonneg _ (drop_all_nonneg ms h H1)).
  set (n' := n - (msum h - msum (drop_all ms h))). rewrite bool_decide_false by lia. repeat lua_run.
  rewrite lua_show_small by lia.
  exists (SET (tokenTKey s k) (FormatInt n') d'), (drop_all ms z), (drop_all ms h), n'. split_and!; [done| | |lia|].
  - destruct Hc' as [C1 C2 C3 C4 C5]. split; try done; [|by left]. left. simpl. by rewrite lookup_insert_eq.
  - split; [by apply drop_all_nonneg | lia |]. intros id t. rewrite drop_all_lookup. case_bool_decide; [done|]. apply H3.
  - intros id t Hi Ht. rewrite !drop_all_lookup. rewrite bool_decide_false; [done|].
    unfold ms. intros ([id' t'] & Hid & Hin)%list_elem_of_fmap. simpl in Hid. subst id'.
    apply elem_of_map_to_list in Hin. apply map_lookup_filter_Some in Hin as [Hz Hu]. unfold upto in Hu. simpl in Hu. simplify_eq. lia.
Qed.

(** ** Charges *)

Lemma tok_keys_ne : tokenZKey s k <> tokenHKey s k /\ tokenZKey s k <> tokenTKey s k /\ tokenHKey s k <> tokenTKey s k.
Proof.
  split_and!; intros E; [apply (rate_key_inj s KTokZ _ KTokH) in E | apply (rate_key_inj s KTokZ _ KTokT) in E | apply (rate_key_inj s KTokH _ KTokT) in E]; naive_solver.
Qed.

Lemma set_exp `{RedisServer} now key d : let d' := PEXPIRE now key W d in
  rd_zset d' !! key = (fun v => mkKeyed (kv_val v) (Some (now + W))) <$> rd_zset d !! key /\
  rd_hash d' !! key = (fun v => mkKeyed (kv_val v) (Some (now + W))) <$> rd_hash d !! key /\
  rd_str d' !! key = (fun v => mkKeyed (kv_val v) (Some (now + W))) <$> rd_str d !! key.
Proof. simpl. unfold PEXPIRE. rewrite bool_decide_false by lia. simpl. by rewrite !set_expiry_eq. Qed.

(** The three keys get the same expiry. *)
Lemma expire_counter now d z h n x0 : z <> ∅ -> h <> ∅ -> dom z = dom h ->
  rd_zset d !! tokenZKey s k = Some (mkKeyed z x0) ->
  (exists x1, rd_hash d !! tokenHKey s k = Some (mkKeyed (FormatInt <$> h) x1)) ->
  (exists x2, rd_str d !! tokenTKey s k = Some (mkKeyed (FormatInt n) x2)) ->
  counter_at (PEXPIRE now (tokenTKey s k) W (PEXPIRE now (tokenHKey s k) W (PEXPIRE now (tokenZKey s k) W d)))
    z h (Some (now + W)) n (Some (now + W)).
Proof.
  intros Hz Hh Hdom E1 [x1 E2] [x2 E3]. destruct tok_keys_ne as (N1 & N2 & N3).
  set (d1 := PEXPIRE now (tokenZKey s k) W d). set (d2 := PEXPIRE now (tokenHKey s k) W d1). set (d3 := PEXPIRE now (tokenTKey s k) W d2).
  destruct (set_exp now (tokenZKey s k) d) as (F1 & _ & _). fold d1 in F1.
  destruct (set_exp now (tokenHKey s k) d1) as (_ & F2 & _). fold d2 in F2.
  destruct (set_exp now (tokenTKey s k) d2) as (_ & _ & F3). fold d3 in F3.
  split; [| | |done|by right; left].
  - unfold at_key. rewrite bool_decide_false by done.
    destruct (PEXPIRE_same (tokenZKey s k) (tokenTKey s k) now W d2 N2) as (_ & G1 & _).
    destruct (PEXPIRE_same (tokenZKey s k) (tokenHKey s k) now W d1 N1) as (_ & G2 & _).
    fold d3 in G1. fold d2 in G2. rewrite G1, G2, F1, E1. done.
  - unfold at_key. rewrite bool_decide_false by done.
    destruct (PEXPIRE_same (tokenHKey s k) (tokenTKey s k) now W d2 N3) as (G1 & _).
    destruct (PEXPIRE_same (tokenHKey s k) (tokenZKey s k) now W d (not_eq_sym N1)) as (G2 & _).
    fold d3 in G1. fold d1 in G2. rewrite G1, F2, G2, E2. done.
  - left. destruct (PEXPIRE_same (tokenTKey s k) (tokenHKey s k) now W d1 (not_eq_sym N3)) as (_ & _ & G1 & _).
    destruct (PEXPIRE_same (tokenTKey s k) (tokenZKey s k) now W d (not_eq_sym N2)) as (_ & _ & G2 & _).
    fold d2 in G1. fold d1 in G2. rewrite F3, G1, G2, E3. done.
Qed.

Lemma counter_dom_insert (z h : gmap string Z) id t v : dom z = dom h -> dom (<[id := t]> z) = dom (<[id := v]> h).
Proof. intros Hd. by rewrite !dom_insert_L, Hd. Qed.

Lemma charge_spec id amount now d z h e n x : counter_at d z h e n x -> 0 <= n -> 0 <= amount -> n + amount < 2 ^ 53 ->
  exists d', s_charge_tok s id k W amount now d = (Ok tt, d') /\
    counter_at d' (<[id := now]> z) (<[id := amount]> h) (Some (now + W)) (n + amount) (Some (now + W)).
Proof.
  intros Hc Hn Ha Hb. pose proof (counter_zset _ _ _ _ _ _ Hc) as Ez. pose proof (counter_hash _ _ _ _ _ _ Hc) as Eh.
  pose proof (counter_total _ _ _ _ _ _ Hc) as Et.
  unfold s_charge_tok. repeat lua_run. rewrite bind_run. unfold INCRBY.
  set (d2 := HSET _ _ _).
  assert (Hg : default "0" (GET (tokenTKey s k) d2) = FormatInt n) by exact Et. rewrite Hg. unfold FormatInt at 1. rewrite read_Z_pretty.
  rewrite bool_decide_true by lia. repeat lua_run. unfold lua_expire at 1. eexists. split; [reflexivity|].
  eapply expire_counter.
  - apply insert_non_empty.
  - apply insert_non_empty.
  - by apply counter_dom_insert, Hc.
  - simpl. rewrite put_key_eq, Ez. done.
  - eexists. simpl. rewrite put_key_eq. unfold cmd_hash in Eh |- *. simpl. rewrite Eh, lua_show_small by lia. by rewrite fmap_insert.
  - eexists. simpl. by rewrite put_key_eq.
Qed.

Lemma settle_spec id actual now d z h e n x B : counter_at d z h e n x -> counter_ok now z h e n B -> -1 <= actual ->
  n - default 0 (h !! id) + actual < 2 ^ 53 -> B < 2 ^ 53 ->
  let v := if bool_decide (actual < 0) then default 0 (h !! id) else actual in
  exists d', s_settle_tok s id actual k W now d = (Ok tt, d') /\
    counter_at d' (<[id := now]> z) (<[id := v]> h) (Some (now + W)) (n - default 0 (h !! id) + v) (Some (now + W)).
Proof.
  intros Hc [C1 C2 C3] Ha Hb HB v. pose proof (counter_zset _ _ _ _ _ _ Hc) as Ez. pose proof (counter_hash _ _ _ _ _ _ Hc) as Eh.
  pose proof (counter_total _ _ _ _ _ _ Hc) as Et. pose proof (small_value h id n B C1 ltac:(lia) ltac:(lia)) as Hold.
  unfold s_settle_tok. repeat lua_run. unfold HGET. rewrite Eh, lookup_fmap, tonumber_value by lia. repeat lua_run.
  rewrite Et, tonumber_FormatInt by lia. repeat lua_run. fold v.
  assert (0 <= v /\ n - default 0 (h !! id) + v < 2 ^ 53) as [Hv Hvb] by (unfold v; case_bool_decide; lia).
  rewrite (lua_num_small (n - _)), lua_num_small by lia. rewrite bool_decide_false by lia.
  rewrite !lua_show_small by lia. unfold lua_expire at 1. eexists. split; [reflexivity|].
  eapply expire_counter.
  - apply insert_non_empty.
  - apply insert_non_empty.
  - by apply counter_dom_insert, Hc.
  - simpl. rewrite put_key_eq. unfold cmd_zset in Ez |- *. simpl. rewrite Ez. done.
  - eexists. simpl. rewrite put_key_eq, Eh. by rewrite fmap_insert.
  - eexists. simpl. by rewrite lookup_insert_eq.
Qed.

(** A charge keeps the counter in order. *)
Lemma charged_ok now z h e n B id v : counter_ok now z h e n B -> 0 <= v ->
  n - default 0 (h !! id) + v <= B -> counter_ok now (<[id := now]> z) (<[id := v]> h) (Some (now + W)) (n - default 0 (h !! id) + v) B.
Proof.
  intros [C1 C2 C3] Hv HB. split.
  - by apply map_Forall_insert_2.
  - rewrite msum_insert. lia.
  - intros id' t. destruct (decide (id = id')) as [->|Hne].
    + rewrite lookup_insert_eq. intros [= <-]. simpl. lia.
    + rewrite lookup_insert_ne by done. intros Hi. destruct (C3 id' t Hi). simpl. lia.
Qed.

End Counter.

(** * Scripts and the counter *)

Section Own.
Context `{RedisServer} (s : RateStore) (k : string).

Definition own_key (key : string) : Prop := key = tokenZKey s k \/ key = tokenHKey s k \/ key = tokenTKey s k.

Lemma own_other kd k' : own_key (rate_key s kd k') -> k' = k /\ (kd = KTokZ \/ kd = KTokH \/ kd = KTokT).
Proof.
  intros [E|[E|E] ]; [apply (rate_key_inj s kd k' KTokZ) in E | apply (rate_key_inj s kd k' KTokH) in E | apply (rate_key_inj s kd k' KTokT) in E];
    destruct E as [-> ->]; auto.
Qed.
Lemma other_apart k' kd : k' <> k -> (kd = KTokZ \/ kd = KTokH \/ kd = KTokT) -> ~ own_key (rate_key s kd k').
Proof. intros Hne _ Ho. by apply own_other in Ho as [? _]. Qed.
Lemma own_no_request key : own_key key -> no_request s key.
Proof. intros Ho k' ->. apply (own_other KReq) in Ho as [_ Hk]. naive_solver. Qed.
Lemma own_no_ledger key id : own_key key -> key <> ledgerKey s id.
Proof. intros Ho ->. apply (own_other KLedger) in Ho as [_ Hk]. naive_solver. Qed.

Lemma counter_keeps {A} (m : LM A) now d z h e n x : keeps own_key m -> counter_at s k d z h e n x -> counter_at s k (m now d).2 z h e n x.
Proof. intros Hm Hc. eapply counter_same; [apply Hm..|exact Hc]; unfold own_key; auto. Qed.

End Own.

Section TokenScripts.
Context `{RedisServer} (s : RateStore) (k : string) (L w M : Z).
Let W : Z := Milliseconds w.
Hypothesis w_range : 0 < W /\ w < 2 ^ 63.
Hypothesis L_small : L < 2 ^ 53.
Hypothesis M_nonneg : 0 <= M.

(** The counter of interest is used once, with this limit and window. *)
Definition toks_ok (ts : list TokenReservation) : Prop :=
  NoDup (map tk_Key ts) /\ forall t, t ∈ ts -> tk_Key t = k -> tk_Window t = w /\ tk_Limit t = L /\ 0 <= tk_Amount t <= M.

Lemma toks_ok_cons t ts : toks_ok (t :: ts) -> (tk_Key t ∉ map tk_Key ts) /\ toks_ok ts.
Proof.
  intros [Hn Ht]. cbn [map] in Hn. apply NoDup_cons in Hn as [H1 H2]. split; [done|]. split; [done|].
  intros t' Ht'. apply Ht. by right.
Qed.

Lemma key_in t ts : t ∈ ts -> tk_Key t ∈ map tk_Key ts.
Proof. intros Ht. apply list_elem_of_fmap. by exists t. Qed.

(** Recent charges survive. *)
Definition survives (now : Z) (z z' : gmap string Z) : Prop :=
  forall id t, z !! id = Some t -> now < t + W -> exists t', z' !! id = Some t' /\ now < t' + W.

Lemma survives_refl now z : survives now z z.
Proof. intros id t Hi Ht. by exists t. Qed.
Lemma survives_trans now z1 z2 z3 : survives now z1 z2 -> survives now z2 z3 -> survives now z1 z3.
Proof. intros H1 H2 id t Hi Ht. destruct (H1 id t Hi Ht) as (t' & Hi' & Ht'). by apply (H2 id t'). Qed.
Lemma survives_insert now z id : survives now z (<[id := now]> z).
Proof.
  intros id' t Hi Ht. destruct (decide (id = id')) as [->|Hne].
  - exists now. rewrite lookup_insert_eq. split; [done | lia].
  - exists t. by rewrite lookup_insert_ne.
Qed.

Lemma check_toks_other ts : k ∉ map tk_Key ts -> keeps (own_key s k) (s_check_toks s ts).
Proof.
  induction ts as [|t ts IH]; intros Hk; cbn [s_check_toks map] in *; [apply keeps_ret|]. apply not_elem_of_cons in Hk as [Hne Hk].
  apply script_keeps_bind; [apply prune_script_frame; intros kd; by apply other_apart|]. intros sum. destruct (bool_decide _); [apply keeps_ret | by apply IH].
Qed.

Lemma check_toks_tok ts now d z h e n x B : toks_ok ts -> counter_at s k d z h e n x -> counter_ok w now z h e n B -> B + M < 2 ^ 53 ->
  let '(r, d') := s_check_toks s ts now d in
  exists z' h' n' x', counter_at s k d' z' h' e n' x' /\ counter_ok w now z' h' e n' B /\ survives now z z' /\
    (r = Ok true -> forall t, t ∈ ts -> tk_Key t = k -> n' + tk_Amount t <= L).
Proof.
  intros Hts Hc Hok HB. revert d z h n x Hts Hc Hok. induction ts as [|t ts IH]; intros d z h n x Hts Hc Hok; cbn [s_check_toks].
  { exists z, h, n, x. split_and!; [done | done | apply survives_refl |]. intros _ t Ht. by apply elem_of_nil in Ht. }
  pose proof (toks_ok_cons _ _ Hts) as [Hnot Hts']. rewrite bind_run.
  destruct (decide (tk_Key t = k)) as [Hk|Hk].
  - destruct Hts as [_ Hts]. destruct (Hts t) as (Hw & HL & Ha); [left | done |]. rewrite Hk, Hw, (ms_num_eq w) by lia.
    destruct (prune_script_spec s k w w_range now d z h e n x B Hc Hok ltac:(lia)) as (d1 & z1 & h1 & n1 & Hp & Hc1 & Hok1 & Hn1 & Hs1).
    rewrite Hp.
    assert (Hsurv : survives now z z1) by (intros id t' Hi Ht'; exists t'; split; [by apply Hs1 | done]).
    pose proof (co_sum _ _ _ _ _ _ _ Hok1) as Hb1. pose proof (msum_nonneg _ (co_nonneg _ _ _ _ _ _ _ Hok1)).
    rewrite HL, (lua_num_small L), (lua_num_small (tk_Amount t)), lua_num_small by lia.
    case_bool_decide as Hroom; [exists z1, h1, n1, None; split_and!; done|].
    rewrite Hk in Hnot. pose proof (counter_keeps s k (s_check_toks s ts) now d1 _ _ _ _ _ (check_toks_other ts Hnot) Hc1) as Hc2.
    destruct (s_check_toks s ts now d1) as [r d2]. exists z1, h1, n1, None. split_and!; try done.
    intros _ t' [->|Ht']%elem_of_cons Hk'; [lia|]. exfalso. apply Hnot. rewrite <- Hk'. by apply key_in.
  - pose proof (counter_keeps s k _ now d _ _ _ _ _ (prune_script_frame s (own_key s k) (tk_Key t) (fun kd => other_apart s k (tk_Key t) kd Hk) (ms_num (tk_Window t))) Hc) as Hc1.
    destruct (prune_script _ _ _ _ now d) as [[sum|err] d1]; cbn [snd] in Hc1.
    2: { exists z, h, n, x. split_and!; [done | done | apply survives_refl | done]. }
    destruct (bool_decide _); [exists z, h, n, x; split_and!; [done | done | apply survives_refl | done]|].
    specialize (IH d1 z h n x Hts' Hc1 Hok). destruct (s_check_toks s ts now d1) as [r d2].
    destruct IH as (z' & h' & n' & x' & I1 & I2 & I3 & I4). exists z', h', n', x'. split_and!; try done.
    intros Hr t' [->|Ht']%elem_of_cons Hk'; [done|]. by apply I4.
Qed.

Lemma grant_tok_other id i k' w' amount : k' <> k -> keeps (own_key s k) (s_grant_tok s id (ledgerKey s id) i k' w' amount).
Proof.
  intros Hne. unfold s_grant_tok. apply script_keeps_bind; [apply charge_frame; intros kd; by apply other_apart|].
  intros _. apply keeps_do. intros d key Hk. apply HSET_same; by apply (own_no_ledger s k).
Qed.

Lemma grant_toks_other id i ts : k ∉ map tk_Key ts -> keeps (own_key s k) (s_grant_toks s id (ledgerKey s id) i ts).
Proof.
  revert i. induction ts as [|t ts IH]; intros i Hk; cbn [s_grant_toks map] in *; [apply keeps_ret|]. apply not_elem_of_cons in Hk as [Hne Hk].
  apply script_keeps_bind; [by apply grant_tok_other | intros _; by apply IH].
Qed.

(** A grant charges the counter with the estimate, if the reservation uses it. *)
Lemma grant_toks_tok id i ts now d z h e n x B : toks_ok ts -> counter_at s k d z h e n x -> counter_ok w now z h e n B -> B + M < 2 ^ 53 ->
  let '(r, d') := s_grant_toks s id (ledgerKey s id) i ts now d in
  exists z' h' e' n' x', counter_at s k d' z' h' e' n' x' /\ counter_ok w now z' h' e' n' (B + M) /\ survives now z z' /\
    (n' <= n \/ exists t, t ∈ ts /\ tk_Key t = k /\ n' <= n + tk_Amount t) /\
    (r = Ok tt -> forall t, t ∈ ts -> tk_Key t = k -> z' !! id = Some now /\ h' !! id = Some (tk_Amount t)).
Proof.
  intros Hts Hc Hok HB. revert i d Hts Hc. induction ts as [|t ts IH]; intros i d Hts Hc; cbn [s_grant_toks].
  { exists z, h, e, n, x. destruct Hok as [O1 O2 O3].
    split_and!; [done | split; [done | lia | done] | apply survives_refl | by left |]. intros _ t Ht. by apply elem_of_nil in Ht. }
  pose proof (toks_ok_cons _ _ Hts) as [Hnot Hts']. rewrite bind_run.
  destruct (decide (tk_Key t = k)) as [Hk|Hk].
  - destruct Hts as [_ Hts]. destruct (Hts t) as (Hw & HL & Ha); [left | done |]. rewrite Hk, Hw, (ms_num_eq w) by lia.
    pose proof (co_sum _ _ _ _ _ _ _ Hok) as Hb1. pose proof (msum_nonneg _ (co_nonneg _ _ _ _ _ _ _ Hok)).
    rewrite (lua_num_small (tk_Amount t)) by lia. unfold s_grant_tok. rewrite bind_run.
    destruct (charge_spec s k w w_range id (tk_Amount t) now d z h e n x Hc) as (d1 & Hch & Hc1); [lia..|].
    rewrite Hch. unfold lua_do at 1. cbv beta iota. set (d2 := HSET _ _ d1).
    assert (Hc2 : counter_at s k d2 (<[id:=now]> z) (<[id:=tk_Amount t]> h) (Some (now + W)) (n + tk_Amount t) (Some (now + W))).
    { eapply counter_same; [apply HSET_same, (own_no_ledger s k); unfold own_key; auto ..|exact Hc1]. }
    rewrite Hk in Hnot. pose proof (counter_keeps s k (s_grant_toks s id (ledgerKey s id) (i + 1) ts) now d2 _ _ _ _ _ (grant_toks_other id (i + 1) ts Hnot) Hc2) as Hc3.
    destruct (s_grant_toks s id (ledgerKey s id) (i + 1) ts now d2) as [r d3].
    exists (<[id:=now]> z), (<[id:=tk_Amount t]> h), (Some (now + W)), (n + tk_Amount t), (Some (now + W)). split_and!.
    + done.
    + destruct Hok as [O1 O2 O3]. assert (Hok' : counter_ok w now z h e (n + default 0 (h !! id)) (n + default 0 (h !! id) + tk_Amount t)).
      { split; [done | | done]. pose proof (small_value h id n B O1 ltac:(lia) ltac:(lia)). lia. }
      pose proof (small_value h id n B O1 ltac:(lia) ltac:(lia)).
      destruct (charged_ok w now z h e (n + default 0 (h !! id)) (n + default 0 (h !! id) + tk_Amount t) id (tk_Amount t) Hok' ltac:(lia) ltac:(lia)) as [P1 P2 P3].
      split; [done | lia | done].
    + apply survives_insert.
    + right. exists t. split_and!; [left | done | lia].
    + intros _ t' [->|Ht']%elem_of_cons Hk'; [by rewrite !lookup_insert_eq|]. exfalso. apply Hnot. rewrite <- Hk'. by apply key_in.
  - pose proof (counter_keeps s k _ now d _ _ _ _ _ (grant_tok_other id i (tk_Key t) (ms_num (tk_Window t)) (lua_num (tk_Amount t)) Hk) Hc) as Hc1.
    destruct (s_grant_tok _ _ _ _ _ _ _ now d) as [[u|err] d1]; cbn [snd] in Hc1.
    2: { exists z, h, e, n, x. destruct Hok as [O1 O2 O3]. split_and!; [done | split; [done | lia | done] | apply survives_refl | by left | done]. }
    specialize (IH (i + 1) d1 Hts' Hc1). destruct (s_grant_toks s id (ledgerKey s id) (i + 1) ts now d1) as [r d2].
    destruct IH as (z' & h' & e' & n' & x' & I1 & I2 & I3 & I4 & I5). exists z', h', e', n', x'. split_and!; try done.
    + destruct I4 as [I4|(t' & Ht' & I4)]; [by left|]. right. exists t'. split; [by right | done].
    + intros Hr t' [->|Ht']%elem_of_cons Hk'; [done|]. by apply I5.
Qed.

(** What a plan may settle: the window of the counter is its own. *)
Definition own_window (k' : string) (w' : Z) : Prop := k' = k -> w' = W.

Lemma settle_tok id actual ws now d z h e n x B : Forall (fun w => own_window w.1 w.2) ws -> -1 <= actual <= M ->
  counter_at s k d z h e n x -> counter_ok w now z h e n (B + M) -> n - default 0 (h !! id) <= B -> B + M < 2 ^ 53 ->
  let d' := (s_settle s id actual ws now d).2 in
  exists z' h' e' n' x', counter_at s k d' z' h' e' n' x' /\ counter_ok w now z' h' e' n' (B + M) /\ survives now z z'.
Proof.
  intros Hws Ha Hc Hok Hrest HB. revert d z h e n x Hc Hok Hrest.
  induction Hws as [|[k' w'] ws Hw Hws IH]; intros d z h e n x Hc Hok Hrest; cbn [s_settle].
  { exists z, h, e, n, x. split_and!; [done | done | apply survives_refl]. }
  simpl in Hw. rewrite bind_run. destruct (decide (k' = k)) as [->|Hne].
  - rewrite (Hw eq_refl). rewrite lua_num_small.
    2: { unfold W, Milliseconds. apply (Z.le_lt_trans _ (Z.quot (2 ^ 63) 1000000)); [apply Z.quot_le_mono; lia | reflexivity]. }
    destruct (settle_spec s k w w_range id actual now d z h e n x (B + M) Hc Hok) as (d1 & Hs & Hc1); [lia..|].
    unfold W. rewrite Hs. set (v := if bool_decide (actual < 0) then default 0 (h !! id) else actual) in *.
    pose proof (co_sum _ _ _ _ _ _ _ Hok) as Hsum.
    pose proof (small_value h id n (B + M) (co_nonneg _ _ _ _ _ _ _ Hok) ltac:(lia) ltac:(lia)) as Hold.
    assert (Hv : 0 <= v /\ n - default 0 (h !! id) + v <= B + M).
    { unfold v. case_bool_decide; lia. }
    pose proof (charged_ok w now z h e n (B + M) id v Hok (proj1 Hv) (proj2 Hv)) as Hok1.
    destruct (IH d1 _ _ _ _ _ Hc1 Hok1) as (z' & h' & e' & n' & x' & I1 & I2 & I3).
    { rewrite lookup_insert_eq. simpl. lia. }
    exists z', h', e', n', x'. split_and!; [done | done |]. eapply survives_trans; [apply survives_insert | done].
  - pose proof (counter_keeps s k _ now d _ _ _ _ _ (settle_tok_frame s (own_key s k) k' (fun kd => other_apart s k k' kd Hne) id actual (lua_num w')) Hc) as Hc1.
    destruct (s_settle_tok _ _ _ _ _ now d) as [[u|err] d1]; cbn [snd] in Hc1; [by apply (IH d1 z h e n x)|].
    exists z, h, e, n, x. split_and!; [done | done | apply survives_refl].
Qed.

Lemma terminal_tok id action actual ws now d z h e n x B : Forall (fun w => own_window w.1 w.2) ws -> -1 <= actual <= M ->
  counter_at s k d z h e n x -> counter_ok w now z h e n B -> B + M < 2 ^ 53 ->
  let d' := (s_terminal s id action actual ws now d).2 in
  exists z' h' e' n' x', counter_at s k d' z' h' e' n' x' /\ counter_ok w now z' h' e' n' (B + M) /\ survives now z z'.
Proof.
  intros Hws Ha Hc Hok HB.
  assert (Hok' : counter_ok w now z h e n (B + M)) by (destruct Hok; split; [done | lia | done]).
  assert (Hstay : exists z' h' e' n' x', counter_at s k d z' h' e' n' x' /\ counter_ok w now z' h' e' n' (B + M) /\ survives now z z').
  { exists z, h, e, n, x. split_and!; [done | done | apply survives_refl]. }
  unfold s_terminal. repeat lua_run. destruct (HGET _ "state" d) as [state|]; [|done].
  case_bool_decide; [done|]. case_bool_decide; [by case_bool_decide|].
  assert (Htn : forall t, (tonumber t now d).2 = d) by (intros t; unfold tonumber; by destruct (read_Z t)).
  repeat lua_run. rewrite bind_run. pose proof (Htn (default "0" (HGET (ledgerKey s id) "expires" d))) as He.
  destruct (tonumber _ now d) as [[expires|err] d1]; cbn [snd] in He; subst d1; [|done]. repeat lua_run. rewrite bind_run.
  pose proof (Htn (default "0" (HGET (ledgerKey s id) "terminal_ttl" d))) as He.
  destruct (tonumber _ now d) as [[ttl|err] d1]; cbn [snd] in He; subst d1; [|done]. repeat lua_run.
  pose proof (co_sum _ _ _ _ _ _ _ Hok) as Hsum.
  pose proof (small_value h id n B (co_nonneg _ _ _ _ _ _ _ Hok) ltac:(lia) ltac:(lia)) as Hold.
  assert (Hrest : n - default 0 (h !! id) <= B) by lia.
  assert (Hclose : forall action actual, -1 <= actual <= M -> exists z' h' e' n' x',
    counter_at s k (s_close s id action actual ws ttl now d).2 z' h' e' n' x' /\ counter_ok w now z' h' e' n' (B + M) /\ survives now z z').
  { intros action' actual' Ha'. unfold s_close. rewrite bind_run.
    destruct (settle_tok id actual' ws now d z h e n x B Hws Ha' Hc Hok' Hrest HB) as (z' & h' & e' & n' & x' & I1 & I2 & I3).
    destruct (s_settle s id actual' ws now d) as [[u|err] d1]; cbn [snd] in *; exists z', h', e', n', x'; split_and!; try done.
    repeat lua_run.
    assert (Hc2 : counter_at s k (PEXPIRE now (ledgerKey s id) ttl (HSET (ledgerKey s id) [("state", action')] d1)) z' h' e' n' x').
    { assert (Hsame : forall key, (own_key s k) key -> same_key key (PEXPIRE now (ledgerKey s id) ttl (HSET (ledgerKey s id) [("state", action')] d1)) d1).
      { intros key Hk. etrans; [by apply PEXPIRE_same, (own_no_ledger s k) | by apply HSET_same, (own_no_ledger s k)]. }
      eapply counter_same; [apply Hsame; unfold own_key; auto ..|exact I1]. }
    by destruct (bool_decide _). }
  destruct (bool_decide _); apply Hclose; [lia|]. rewrite lua_num_small; lia.
Qed.

End TokenScripts.

(** * Runs *)

(** What the store holds of each lease: the time and the amount last recorded. *)
Definition recorded (s : RateStore) (k : string) (d : rdb) : gmap string (Z * Z) :=
  map_zip_with pair (cmd_zset d (tokenZKey s k)) (vnum <$> cmd_hash d (tokenHKey s k)).

Section TokenRun.
Context `{RedisServer} (s : RateStore) (k : string) (L w M : Z).
Let W : Z := Milliseconds w.
Hypothesis w_range : 0 < W /\ w < 2 ^ 63.
Hypothesis L_small : L < 2 ^ 53.
Hypothesis M_nonneg : 0 <= M.
Hypothesis s_wf : wf_store s.

Lemma recorded_counter d z h e n x : counter_at s k d z h e n x -> recorded s k d = map_zip_with pair z h.
Proof.
  intros Hc. unfold recorded. rewrite (counter_zset _ _ _ _ _ _ _ _ Hc), (counter_hash _ _ _ _ _ _ _ _ Hc). f_equal.
  apply map_eq. intros i. rewrite !lookup_fmap. destruct (h !! i); simpl; [by rewrite vnum_FormatInt | done].
Qed.

Lemma recorded_lookup d z h e n x id t v : counter_at s k d z h e n x ->
  recorded s k d !! id = Some (t, v) <-> z !! id = Some t /\ h !! id = Some v.
Proof.
  intros Hc. rewrite (recorded_counter _ _ _ _ _ _ Hc), map_lookup_zip_with_Some. naive_solver.
Qed.

Definition counted (now : Z) (d : rdb) (B : Z) (P : gmap string Z -> gmap string Z -> Z -> Prop) : Prop :=
  exists z h e n x, counter_at s k d z h e n x /\ counter_ok w now z h e n B /\ P z h n.

Lemma counted_keeps {A} (m : LM A) now d B P : keeps (own_key s k) m -> counted now d B P -> counted now (m now d).2 B P.
Proof. intros Hm (z & h & e & n & x & Hc & HP). exists z, h, e, n, x. split; [by apply counter_keeps | done]. Qed.

Lemma counted_weaken now d B B' (P P' : gmap string Z -> gmap string Z -> Z -> Prop) : B <= B' -> (forall z h n, P z h n -> P' z h n) -> counted now d B P -> counted now d B' P'.
Proof.
  intros HB HP (z & h & e & n & x & Hc & [O1 O2 O3] & Hp). exists z, h, e, n, x. split_and!; [done | | by apply HP]. split; [done | lia | done].
Qed.

(** A reservation, from a counter with the recorded times [z0]. *)
Lemma reserve_tok now d r window B z0 : toks_ok k L w M (rv_Tokens r) -> B + M < 2 ^ 53 ->
  counted now d B (fun z _ _ => survives w now z0 z) ->
  let '(result, d') := s_reserve s window r now d in
  counted now d' (B + M) (fun z h n => survives w now z0 z /\
    (result = Ok 1 -> HGET (ledgerKey s (rv_ID r)) "state" d = None -> forall t, t ∈ rv_Tokens r -> tk_Key t = k ->
       n <= L /\ z !! rv_ID r = Some now /\ h !! rv_ID r = Some (tk_Amount t))).
Proof.
  intros Hts HB Hd.
  assert (Hwk : forall d1 (b : Prop), ~ b -> counted now d1 B (fun z _ _ => survives w now z0 z) ->
    counted now d1 (B + M) (fun z h n => survives w now z0 z /\ (b -> HGET (ledgerKey s (rv_ID r)) "state" d = None ->
      forall t, t ∈ rv_Tokens r -> tk_Key t = k -> n <= L /\ z !! rv_ID r = Some now /\ h !! rv_ID r = Some (tk_Amount t)))).
  { intros d1 b Hb. apply counted_weaken; [lia|]. intros z h n Hz. split; [done|]. by intros. }
  unfold s_reserve. repeat lua_run. destruct (HGET (ledgerKey s (rv_ID r)) "state" d) as [st|] eqn:Est.
  { unfold lua_ret. eapply counted_weaken; [| |exact Hd]; [lia|]. intros z h n Hz. split; [done|]. by intros. }
  rewrite bind_run.
  pose proof (counted_keeps (s_check_reqs s (rv_Requests r)) now d B _ (fun now d key Hk => check_reqs_keeps s _ now d key (own_no_request s k key Hk)) Hd) as Hd1.
  destruct (s_check_reqs s (rv_Requests r) now d) as [[b|err] d1]; cbn [snd] in Hd1; [|by apply Hwk].
  destruct b; cbn [negb]; [|by apply Hwk]. rewrite bind_run.
  destruct Hd1 as (z1 & h1 & e1 & n1 & x1 & Hc1 & Hok1 & Hz1).
  pose proof (check_toks_tok s k L w M w_range L_small (rv_Tokens r) now d1 z1 h1 e1 n1 x1 B Hts Hc1 Hok1 HB) as Hchk.
  destruct (s_check_toks s (rv_Tokens r) now d1) as [b d2]. destruct Hchk as (z2 & h2 & n2 & x2 & Hc2 & Hok2 & Hz2 & Hroom).
  pose proof (survives_trans w now _ _ _ Hz1 Hz2) as Hz02.
  assert (Hd2 : counted now d2 B (fun z _ _ => survives w now z0 z)) by (by exists z2, h2, e1, n2, x2).
  destruct b as [b|err]; [|by apply Hwk]. destruct b; cbn [negb]; [|by apply Hwk]. specialize (Hroom eq_refl).
  set (P := ms_num (effectivePending s window)). set (T := ms_num (effectiveTerminal s window)). unfold s_grant. rewrite bind_run.
  pose proof (counter_keeps s k (s_grant_reqs s (rv_ID r) (rv_Requests r)) now d2 z2 h2 e1 n2 x2
    (fun now d key Hk => grant_reqs_keeps s _ _ now d key (own_no_request s k key Hk)) Hc2) as Hc3.
  destruct (s_grant_reqs s (rv_ID r) (rv_Requests r) now d2) as [[u|err] d3]; cbn [snd] in Hc3; [|by apply Hwk; [|exists z2, h2, e1, n2, x2]].
  repeat lua_run. rewrite bind_run. set (d4 := HSET _ _ d3).
  assert (Hc4 : counter_at s k d4 z2 h2 e1 n2 x2).
  { eapply counter_same; [apply HSET_same, (own_no_ledger s k); unfold own_key; auto ..|exact Hc3]. }
  pose proof (grant_toks_tok s k L w M w_range M_nonneg (rv_ID r) 1 (rv_Tokens r) now d4 z2 h2 e1 n2 x2 B Hts Hc4 Hok2 HB) as Hg.
  destruct (s_grant_toks s (rv_ID r) (ledgerKey s (rv_ID r)) 1 (rv_Tokens r) now d4) as [[v|err] d5]; cbn [snd];
    destruct Hg as (z5 & h5 & e5 & n5 & x5 & Hc5 & Hok5 & Hz5 & Hn5 & Hrec).
  2: { exists z5, h5, e5, n5, x5. split_and!; [done | done | by eapply survives_trans | done]. }
  lua_run. unfold lua_ret. exists z5, h5, e5, n5, x5. split_and!; [|done|by eapply survives_trans|].
  - eapply counter_same; [apply PEXPIRE_same, (own_no_ledger s k); unfold own_key; auto ..|exact Hc5].
  - intros _ _ t Ht Hk. destruct v. destruct (Hrec eq_refl t Ht Hk) as [Hzt Hht]. split_and!; [|done|done].
    specialize (Hroom t Ht Hk). destruct Hts as [Hnd Hts]. destruct (Hts t Ht Hk) as (_ & _ & Ha).
    destruct Hn5 as [|(t' & Ht' & Hk' & Hn5)]; [lia|].
    assert (t' = t) as ->; [|lia].
    apply list_elem_of_lookup in Ht as [i Hi], Ht' as [j Hj].
    assert (map tk_Key (rv_Tokens r) !! i = Some k) by (by rewrite list_lookup_fmap, Hi; simpl; rewrite Hk).
    assert (map tk_Key (rv_Tokens r) !! j = Some k) by (by rewrite list_lookup_fmap, Hj; simpl; rewrite Hk').
    assert (i = j) as -> by (by eapply NoDup_lookup). congruence.
Qed.

Definition tuses_ok (q : rreq) : Prop :=
  match q with
  | QReserve r => wf_reservation r /\ toks_ok k L w M (rv_Tokens r)
  | QMetadata _ _ usage => usage_amount usage <= M
  | QScript _ => True
  end.

Definition within (a : Z) : Prop := -1 <= a <= M.

Record tok_inv (now : Z) (y : rsys) (B : Z) : Prop := {
  ti_counted : counted now (ry_db y) B (fun _ _ _ => True);
  ti_ledgers : ledgers_ok s (own_window k w) (ry_db y);
  ti_plans : map_Forall (fun _ p => plan_ok s (own_window k w) within p) (ry_plans y) }.

Lemma counted_purge now now' d B : now <= now' -> counted now d B (fun _ _ _ => True) ->
  counted now' (purge now' d) B (fun z _ _ => survives w now' (cmd_zset d (tokenZKey s k)) z).
Proof.
  intros Hn (z & h & e & n & x & Hc & Hok & _).
  destruct (counter_purge s k w now' d z h e n x B now Hc Hok Hn) as (z' & h' & n' & x' & Hc' & Hok' & Hs).
  exists z', h', e, n', x'. split_and!; [done | done |]. rewrite (counter_zset _ _ _ _ _ _ _ _ Hc).
  intros id t Hi Ht. exists t. by destruct (Hs id t Hi Ht) as [-> _].
Qed.

(** One request: the counter stays in order, recent records survive, and a grant that uses
    the counter is recorded and leaves the records within the limit. *)
Lemma tok_step now now' y B q : now <= now' -> tuses_ok q -> tok_inv now y B -> B + M < 2 ^ 53 ->
  let '(o, y') := req_step s now' q y in
  tok_inv now' y' (B + M) /\ survives w now' (cmd_zset (ry_db y) (tokenZKey s k)) (cmd_zset (ry_db y') (tokenZKey s k)) /\
  (forall r t, o = Some r -> t ∈ rv_Tokens r -> tk_Key t = k ->
     msum (snd <$> recorded s k (ry_db y')) <= L /\ recorded s k (ry_db y') !! rv_ID r = Some (now', tk_Amount t)).
Proof.
  intros Hn Hq [Hc Hl Hp] HB. pose proof (counted_purge now now' _ B Hn Hc) as Hc1. pose proof (ledgers_purge s _ now' _ Hl) as Hl1.
  assert (Hstay : counted now' (ry_db y) (B + M) (fun _ _ _ => True) /\ survives w now' (cmd_zset (ry_db y) (tokenZKey s k)) (cmd_zset (ry_db y) (tokenZKey s k))).
  { split; [|apply survives_refl]. destruct Hc as (z & h & e & n & x & C1 & [O1 O2 O3] & _). exists z, h, e, n, x. split_and!; [done | | done].
    split; [done | lia |]. intros id t Hi. destruct (O3 id t Hi). split; [lia | done]. }
  assert (Hdone : forall d' plans, counted now' d' (B + M) (fun z _ _ => survives w now' (cmd_zset (ry_db y) (tokenZKey s k)) z) ->
    ledgers_ok s (own_window k w) d' -> map_Forall (fun _ p => plan_ok s (own_window k w) within p) plans ->
    tok_inv now' (mkRsys d' plans) (B + M) /\ survives w now' (cmd_zset (ry_db y) (tokenZKey s k)) (cmd_zset d' (tokenZKey s k))).
  { intros d' plans (z & h & e & n & x & C1 & O & Hz) Hl' Hp'. split; [split; try done; by exists z, h, e, n, x|].
    by rewrite (counter_zset _ _ _ _ _ _ _ _ C1). }
  unfold req_step. destruct q as [r|c id usage|c].
  - destruct Hq as [Hwf Hts]. destruct (rate_validate s r) as [window|] eqn:Ev; [|destruct Hstay; by split_and!].
    rewrite reserveScript_decoded by apply Hwf.
    pose proof (reserve_tok now' (purge now' (ry_db y)) r window B _ Hts HB Hc1) as Hr.
    assert (Hl2 : ledgers_ok s (own_window k w) (s_reserve s window r now' (purge now' (ry_db y))).2).
    { apply reserve_ledgers; [|by destruct Hwf as (_ & _ & _ & ?)|done]. apply Forall_forall. intros t Ht.
      destruct (validate_ok s r window s_wf Ev) as (_ & _ & _ & _ & Htoks). rewrite Forall_forall in Htoks. destruct (Htoks t Ht) as [Hpos _].
      destruct Hwf as (_ & Hwt & _). rewrite Forall_forall in Hwt. specialize (Hwt t Ht). simpl in Hwt. split; [lia|].
      intros Hk. destruct Hts as [_ Hts]. by destruct (Hts t Ht Hk) as [-> _]. }
    destruct (s_reserve s window r now' (purge now' (ry_db y))) as [result d']. cbn [snd] in Hl2.
    destruct (Hdone d' (ry_plans y)) as [Hi Hs]; [|done|done|].
    { eapply counted_weaken; [| |exact Hr]; [lia | tauto]. }
    split_and!; [done | done |]. intros r' t Ho Ht Hk. simpl.
    destruct result as [[|[| |]|]|]; try done. destruct (HGET _ _ _) eqn:Est; [done|]. simplify_eq.
    destruct Hr as (z & h & e & n & x & C1 & [O1 O2 O3] & _ & Hg). destruct (Hg eq_refl eq_refl t Ht Hk) as (HnL & Hz & Hh).
    rewrite (recorded_lookup _ _ _ _ _ _ _ _ _ C1), (recorded_counter _ _ _ _ _ _ C1).
    split; [|done]. etrans; [|apply HnL]. etrans; [|apply O2]. apply msum_subset; [|done]. apply map_subseteq_spec. intros id v.
    rewrite lookup_fmap, fmap_Some. intros ([t' v'] & Hin & ->). apply map_lookup_zip_with_Some in Hin as (a & b & E & _ & Hb).
    by simplify_eq.
  - assert (Hc2 : counted now' (purge now' (ry_db y)) (B + M) (fun z _ _ => survives w now' (cmd_zset (ry_db y) (tokenZKey s k)) z)).
    { eapply counted_weaken; [| |exact Hc1]; [lia | tauto]. }
    destruct (terminal_plan _ _ _ _ _) as [err|p] eqn:Ep.
    + destruct (Hdone _ (ry_plans y) Hc2 Hl1 Hp). by split_and!.
    + destruct (Hdone (purge now' (ry_db y)) (<[c:=p]> (ry_plans y))) as [Hi Hs]; [done | done | |by split_and!].
      apply map_Forall_insert_2; [|done]. eapply terminal_plan_ok; [| |exact Ep].
      * by apply cmd_hash_ledger.
      * split; [|exact Hq]. unfold usage_amount. destruct usage; [case_bool_decide|]; lia.
  - destruct (ry_plans y !! c) as [[keys args]|] eqn:Ec; [|destruct Hstay; by split_and!].
    destruct (Hp c _ Ec) as (id & action & actual & ws & Hlen & HQ & HA & [= -> ->]). rewrite terminalScript_decoded by done.
    destruct Hc1 as (z & h & e & n & x & C1 & O & Hz).
    destruct (terminal_tok s k w M w_range M_nonneg id action actual ws now' (purge now' (ry_db y)) z h e n x B HQ HA C1 O HB)
      as (z' & h' & e' & n' & x' & C2 & O2 & Hz2).
    destruct (Hdone (s_terminal s id action actual ws now' (purge now' (ry_db y))).2 (delete c (ry_plans y))) as [Hi Hs]; [| | |by split_and!].
    + exists z', h', e', n', x'. split_and!; [done | done |]. by eapply survives_trans.
    + by apply terminal_ledgers.
    + by apply map_Forall_delete.
Qed.

(** ** The history of the counter *)

(** The latest record of every lease, also of those the store has dropped. *)
Fixpoint hist_run (qs : list (Z * rreq)) (y : rsys) (c : gmap string (Z * Z)) : list (Z * Reservation * gmap string (Z * Z)) :=
  match qs with
  | [] => []
  | (now, q) :: qs =>
      let '(o, y) := req_step s now q y in
      let c := recorded s k (ry_db y) ∪ c in
      match o with Some r => [(now, r, c)] | None => [] end ++ hist_run qs y c
  end.

(** The amounts recorded less than a window ago. *)
Definition recent_charge (now : Z) (p : string * (Z * Z)) : Prop := now < p.2.1 + W.
#[local] Instance recent_charge_dec now p : Decision (recent_charge now p).
Proof. unfold recent_charge. apply _. Defined.
Definition recent_sum (now : Z) (c : gmap string (Z * Z)) : Z := msum (snd <$> filter (recent_charge now) c).

(** Nothing recent has been dropped. *)
Definition hist_ok (now : Z) (d : rdb) (c : gmap string (Z * Z)) : Prop :=
  forall id t v, c !! id = Some (t, v) -> now < t + W -> recorded s k d !! id = Some (t, v).

Lemma hist_step now now' d d' c B : now <= now' -> counted now d B (fun _ _ _ => True) -> counted now' d' (B + M) (fun _ _ _ => True) ->
  survives w now' (cmd_zset d (tokenZKey s k)) (cmd_zset d' (tokenZKey s k)) -> hist_ok now d c -> hist_ok now' d' (recorded s k d' ∪ c).
Proof.
  intros Hn (z & h & e & n & x & C1 & _) (z' & h' & e' & n' & x' & C2 & _) Hs Hc id t v.
  rewrite lookup_union_Some_raw. intros [Hi|[Hnone Hi]] Ht; [done|]. exfalso.
  specialize (Hc id t v Hi ltac:(lia)). apply (recorded_lookup _ _ _ _ _ _ _ _ _ C1) in Hc as [Hz _].
  rewrite (counter_zset _ _ _ _ _ _ _ _ C1), (counter_zset _ _ _ _ _ _ _ _ C2) in Hs.
  destruct (Hs id t Hz Ht) as (t' & Hz' & _).
  assert (Hdom : id ∈ dom h') by (rewrite <- (ca_dom _ _ _ _ _ _ _ _ C2); by eapply elem_of_dom_2).
  apply elem_of_dom in Hdom as [v' Hv'].
  assert (recorded s k d' !! id = Some (t', v')) by (by apply (recorded_lookup _ _ _ _ _ _ _ _ _ C2)). congruence.
Qed.

Lemma hist_run_ok qs now y c B now1 r1 c1 t1 : Sorted Z.le (now :: qs.*1) -> Forall (fun q => tuses_ok q.2) qs ->
  tok_inv now y B -> hist_ok now (ry_db y) c -> B + M * Z.of_nat (length qs) < 2 ^ 53 ->
  (now1, r1, c1) ∈ hist_run qs y c -> t1 ∈ rv_Tokens r1 -> tk_Key t1 = k ->
  recent_sum now1 c1 <= L /\ c1 !! rv_ID r1 = Some (now1, tk_Amount t1).
Proof.
  revert now y c B. induction qs as [|[now' q] qs IH]; intros now y c B Hs Hq Hi Hc HB Hin Ht1 Hk1; cbn [hist_run] in Hin; [by apply elem_of_nil in Hin|].
  apply Forall_cons in Hq as [Hq Hqs]. cbn [fmap list_fmap fst] in Hs. apply Sorted_inv in Hs as [Hs Hhd]. apply HdRel_inv in Hhd.
  cbn [length] in HB. pose proof (tok_step now now' y B q Hhd Hq Hi ltac:(lia)) as Hstep.
  destruct (req_step s now' q y) as [o y'] eqn:Eo. destruct Hstep as (Hi' & Hsv & Hg).
  pose proof (hist_step now now' _ _ c B Hhd (ti_counted _ _ _ Hi) (ti_counted _ _ _ Hi') Hsv Hc) as Hc'.
  apply elem_of_app in Hin as [Hin|Hin]; [|by apply (IH now' y' _ (B + M) Hs Hqs Hi' Hc' ltac:(lia) Hin)].
  destruct o as [r|]; [|by apply elem_of_nil in Hin]. apply list_elem_of_singleton in Hin. simplify_eq.
  destruct (Hg r t1 eq_refl Ht1 Hk1) as [Hsum Hrec]. destruct (ti_counted _ _ _ Hi') as (z & h & e & n & x & C1 & [O1 _ _] & _). split.
  - etrans; [|apply Hsum]. apply msum_subset.
    + apply map_fmap_mono. apply map_subseteq_spec. intros id [t v] [Hx Hr]%map_lookup_filter_Some. by apply (Hc' id t v).
    + intros id v. rewrite lookup_fmap, fmap_Some. intros ([t' v'] & Hi0 & ->).
      apply (recorded_lookup _ _ _ _ _ _ _ _ _ C1) in Hi0 as [_ Hv]. simpl. by apply (O1 id).
  - by apply lookup_union_Some_l.
Qed.

End TokenRun.

(** C11. Over Redis a sliding token limit is not overcommitted across processes: for any
    requests of any number of callers, when the amounts a run can charge stay below 2^53,
    every admission against a counter is recorded, and right after it the amounts last
    recorded for the leases less than a window ago, estimates and settled usages, of
    dropped records too, are together within the limit. *)
Theorem redis_tokens_bounded `{RedisServer} s k L w M start qs now r c t :
  0 < Milliseconds w /\ w < 2 ^ 63 -> L < 2 ^ 53 -> 0 <= M -> wf_store s ->
  Sorted Z.le (start :: qs.*1) -> Forall (fun q => tuses_ok k L w M q.2) qs -> M * Z.of_nat (length qs) < 2 ^ 53 ->
  (now, r, c) ∈ hist_run s k qs (mkRsys empty_rdb ∅) ∅ -> t ∈ rv_Tokens r -> tk_Key t = k ->
  recent_sum w now c <= L /\ c !! rv_ID r = Some (now, tk_Amount t).
Proof.
  intros Hw HL HM Hs Hsorted Hq HB Hin Ht Hk.
  apply (hist_run_ok s k L w M Hw HL HM Hs qs start (mkRsys empty_rdb ∅) ∅ 0 now r c t Hsorted Hq); [| |lia|done|done|done].
  - split; [|intros id l; simpl; by rewrite lookup_empty|apply map_Forall_empty].
    exists ∅, ∅, None, 0, None. split_and!; [| |done].
    + split; try done; [right|by left]. split_and!; done.
    + split; [apply map_Forall_empty | rewrite msum_empty; lia | intros id t'; by rewrite lookup_empty].
  - intros id t' v. by rewrite lookup_empty.
Qed.

Definition tpm (id : string) (amount : Z) : Reservation :=
  mkReservation id [] [mkTokenReservation "tpm" 100 minute SlidingWindow amount].
Definition token_run : list (Z * rreq) :=
  [(0, QReserve (tpm "1" 60)); (500, QMetadata 1 "1" (Some 90)); (1000, QScript 1); (2000, QReserve (tpm "2" 20));
   (3000, QReserve (tpm "3" 10))].

Lemma tpm_ok id amount : 0 <= amount <= 90 -> tuses_ok "tpm" 100 minute 90 (QReserve (tpm id amount)).
Proof.
  intros Ha. split; [split_and!; [apply Forall_nil_2 | apply Forall_singleton; reflexivity | reflexivity | reflexivity]|].
  split; [apply NoDup_singleton|]. intros r Hr%list_elem_of_singleton _. by subst r.
Qed.

(** The lease is settled at 90 of 100: 20 more are refused, 10 are admitted. *)
Lemma redis_tokens_bounded_witness :
  let c := <["3" := (3000, 10)]> (<["1" := (1000, 90)]> ∅) in
  (3000, tpm "3" 10, c) ∈ hist_run (H:=plain_server) (NewRateStore []) "tpm" token_run (mkRsys empty_rdb ∅) ∅ /\
  recent_sum minute 3000 c <= 100 /\ c !! "3" = Some (3000, 10).
Proof.
  intros c. assert (Hin : (3000, tpm "3" 10, c) ∈ hist_run (H:=plain_server) (NewRateStore []) "tpm" token_run (mkRsys empty_rdb ∅) ∅).
  { apply list_elem_of_lookup. exists 1%nat. vm_compute. reflexivity. }
  split; [exact Hin|].
  refine (redis_tokens_bounded (H:=plain_server) (NewRateStore []) "tpm" 100 minute 90 0 token_run 3000 (tpm "3" 10) c
    (mkTokenReservation "tpm" 100 minute SlidingWindow 10) _ _ _ _ _ _ _ Hin _ _).
  - unfold Milliseconds, minute. split; [vm_compute; reflexivity | lia].
  - lia.
  - lia.
  - unfold wf_store. simpl. split; [done | lia].
  - cbn [token_run fmap list_fmap fst]. repeat (apply Sorted_cons; [|first [apply HdRel_cons; lia | apply HdRel_nil]]). apply Sorted_nil.
  - unfold token_run. repeat (apply Forall_cons; split; [first [exact I | apply tpm_ok; lia | simpl; lia]|]). apply Forall_nil. exact I.
  - simpl. lia.
  - left.
  - reflexivity.
Defined.

(** * Starvation *)

(** A total without an expiry beside an expired set and hash. *)
Record stuck (s : RateStore) (k : string) (S : Z) (d : rdb) : Prop := {
  sk_total : rd_str d !! tokenTKey s k = Some (mkKeyed (FormatInt S) None);
  sk_zset : rd_zset d !! tokenZKey s k = None;
  sk_hash : rd_hash d !! tokenHKey s k = None }.

Section Starvation.
Context `{RedisServer} (s : RateStore) (k : string) (S w : Z).
Hypothesis w_range : 0 < Milliseconds w /\ w < 2 ^ 63.
Hypothesis S_range : 0 <= S < 2 ^ 52.

Lemma stuck_purge now d : stuck s k S d -> stuck s k S (purge now d).
Proof.
  intros [H1 H2 H3]. split; simpl.
  - by apply map_lookup_filter_Some.
  - apply map_lookup_filter_None. by left.
  - apply map_lookup_filter_None. by left.
Qed.

Lemma stuck_counter d : stuck s k S d -> counter_at s k d ∅ ∅ None S None.
Proof. intros [H1 H2 H3]. split; unfold at_key; simpl; auto. Qed.

Lemma counter_stuck d e x : counter_at s k d ∅ ∅ e S x -> x = None -> rd_str d !! tokenTKey s k <> None -> stuck s k S d.
Proof. intros [H1 H2 H3 _ _] -> Ht. split; try done. by destruct H3 as [H3|(H3 & _)]. Qed.

(** A reservation that the remaining budget does not cover. *)
Definition too_much (r : Reservation) : Prop :=
  wf_reservation r /\ NoDup (map tk_Key (rv_Tokens r)) /\
  exists t, t ∈ rv_Tokens r /\ tk_Key t = k /\ tk_Window t = w /\ tk_Limit t < S + tk_Amount t /\ 0 <= tk_Limit t < 2 ^ 52 /\ 0 <= tk_Amount t < 2 ^ 52.

Lemma stuck_keeps {A} (m : LM A) now d : keeps (own_key s k) m -> stuck s k S d -> stuck s k S (m now d).2.
Proof.
  intros Hm [H1 H2 H3].
  destruct (Hm now d (tokenZKey s k) ltac:(by left)) as (_ & E1 & _). destruct (Hm now d (tokenHKey s k) ltac:(by right; left)) as (E2 & _).
  destruct (Hm now d (tokenTKey s k) ltac:(by right; right)) as (_ & _ & E3 & _). split; by rewrite ?E1, ?E2, ?E3.
Qed.

Lemma stuck_check ts now d t : NoDup (map tk_Key ts) -> t ∈ ts -> tk_Key t = k -> tk_Window t = w -> tk_Limit t < S + tk_Amount t ->
  0 <= tk_Limit t < 2 ^ 52 -> 0 <= tk_Amount t < 2 ^ 52 -> stuck s k S d ->
  (s_check_toks s ts now d).1 <> Ok true /\ stuck s k S (s_check_toks s ts now d).2.
Proof.
  intros Hnd Ht Hk Hw HL HLr Har. revert d Hnd Ht. induction ts as [|t' ts IH]; intros d Hnd Ht Hd; [by apply elem_of_nil in Ht|].
  cbn [map s_check_toks] in *. apply NoDup_cons in Hnd as [Hnot Hnd]. rewrite bind_run.
  destruct (decide (tk_Key t' = k)) as [Hk'|Hk'].
  - assert (t = t') as <- by (apply elem_of_cons in Ht as [->|Ht]; [done|]; exfalso; apply Hnot; rewrite Hk', <- Hk; by apply key_in).
    rewrite Hk, Hw, (ms_num_eq w) by lia.
    assert (Hok : counter_ok w now ∅ ∅ None S (2 ^ 52)) by (split; [apply map_Forall_empty | rewrite msum_empty; lia | intros ? ?; by rewrite lookup_empty]).
    assert (Hp : prune_script (tokenZKey s k) (tokenHKey s k) (tokenTKey s k) (Milliseconds w) now d = (Ok S, SET (tokenTKey s k) (FormatInt S) d)).
    { unfold prune_script. repeat lua_run. rewrite (counter_total _ _ _ _ _ _ _ _ (stuck_counter d Hd)), tonumber_FormatInt by lia. repeat lua_run.
      unfold ZRANGEBYSCORE. rewrite (counter_zset _ _ _ _ _ _ _ _ (stuck_counter d Hd)). rewrite map_filter_empty, map_to_list_empty.
      cbn [fmap list_fmap prune_members]. lua_run. rewrite bool_decide_false by lia. repeat lua_run. by rewrite lua_show_small by lia. }
    rewrite Hp. rewrite (lua_num_small (tk_Limit t)), (lua_num_small (tk_Amount t)), lua_num_small by lia.
    rewrite bool_decide_true by lia. split; [done|]. destruct Hd as [H1 H2 H3]. split; simpl; [by rewrite lookup_insert_eq | done | done].
  - pose proof (stuck_keeps _ now d (prune_script_frame s (own_key s k) (tk_Key t') (fun kd => other_apart s k (tk_Key t') kd Hk') (ms_num (tk_Window t'))) Hd) as Hd1.
    destruct (prune_script _ _ _ _ now d) as [[sum|err] d1]; cbn [fst snd] in *; [|done].
    destruct (bool_decide _); [done|]. apply IH; [done | | done]. apply elem_of_cons in Ht as [->|]; done.
Qed.

(** Stuck at every time after [t0]. *)
Definition stuck_from (t0 : Z) (d : rdb) : Prop := forall now, t0 < now -> stuck s k S (purge now d).

Lemma stuck_expired t0 d z h : rd_str d !! tokenTKey s k = Some (mkKeyed (FormatInt S) None) ->
  rd_zset d !! tokenZKey s k = Some (mkKeyed z (Some t0)) -> rd_hash d !! tokenHKey s k = Some (mkKeyed h (Some t0)) -> stuck_from t0 d.
Proof.
  intros E1 E2 E3 now Hnow.
  assert (Hdead : live_at now (Some t0) = false) by (unfold live_at; rewrite !bool_decide_false by lia; by rewrite andb_false_r).
  split; simpl.
  - by apply map_lookup_filter_Some.
  - apply map_lookup_filter_None. right. intros v Hv. rewrite E2 in Hv. injection Hv as <-. unfold live. cbn [snd kv_exp]. by rewrite Hdead.
  - apply map_lookup_filter_None. right. intros v Hv. rewrite E3 in Hv. injection Hv as <-. unfold live. cbn [snd kv_exp]. by rewrite Hdead.
Qed.

Lemma stuck_step t0 now y r : t0 < now -> too_much r -> stuck_from t0 (ry_db y) ->
  let '(o, y') := req_step s now (QReserve r) y in o = None /\ stuck_from t0 (ry_db y').
Proof.
  intros Hnow (Hwf & Hnd & t & Ht & Hk & Hw & HL & HLr & Har) Hd. unfold req_step.
  destruct (rate_validate s r) as [window|] eqn:Ev; [|done]. specialize (Hd now Hnow).
  assert (Hgoal : forall (o : option Reservation) d', o = None -> stuck s k S d' -> o = None /\ stuck_from t0 d').
  { intros o d' Ho Hd'. split; [done|]. intros now' _. by apply stuck_purge. }
  rewrite reserveScript_decoded by apply Hwf. set (d := purge now (ry_db y)) in *.
  unfold s_reserve. repeat lua_run. destruct (HGET (ledgerKey s (rv_ID r)) "state" d) as [st|] eqn:Est; [by apply Hgoal|]. rewrite bind_run.
  pose proof (stuck_keeps (s_check_reqs s (rv_Requests r)) now d (fun now d key Hk => check_reqs_keeps s _ now d key (own_no_request s k key Hk)) Hd) as Hd1.
  destruct (s_check_reqs s (rv_Requests r) now d) as [[b|err] d1]; cbn [snd] in Hd1; [|by apply Hgoal].
  destruct b; cbn [negb]; [|by apply Hgoal]. rewrite bind_run.
  destruct (stuck_check (rv_Tokens r) now d1 t Hnd Ht Hk Hw HL HLr Har Hd1) as [Hno Hd2].
  destruct (s_check_toks s (rv_Tokens r) now d1) as [[b|err] d2]; cbn [fst snd] in *; [|by apply Hgoal]. destruct b; [done | by apply Hgoal].
Qed.

Lemma stuck_run t0 qs y : Forall (fun q => t0 < q.1 /\ exists r, q.2 = QReserve r /\ too_much r) qs -> stuck_from t0 (ry_db y) ->
  (req_run s qs y).1 = [].
Proof.
  intros Hqs. revert y. induction Hqs as [|[now q] qs (Hnow & r & Hq & Hr) Hqs IH]; intros y Hd; [done|]. simpl in Hq, Hnow. subst q. cbn [req_run].
  pose proof (stuck_step t0 now y r Hnow Hr Hd) as Hs. destruct (req_step s now (QReserve r) y) as [o y']. destruct Hs as [-> Hd'].
  specialize (IH y' Hd'). by destruct (req_run s qs y') as [grants y''].
Qed.

End Starvation.

(** A budget of 100 tokens per minute: one lease takes it and is settled, and one
    reservation is refused before the minute is over. *)
Definition full_then_refused : list (Z * rreq) :=
  [(0, QReserve (tpm "1" 100)); (500, QMetadata 1 "1" (Some 100)); (1000, QScript 1); (2000, QReserve (tpm "2" 1))].

Definition after_refusal `{RedisServer} : rsys := (req_run (NewRateStore []) full_then_refused (mkRsys empty_rdb ∅)).2.

Lemma refusal_stuck `{RedisServer} : stuck_from (NewRateStore []) "tpm" 100 61000 (ry_db after_refusal).
Proof.
  destruct H as [ed large].
  assert (Hdb : exists z h,
    rd_str (ry_db (after_refusal (H:={| edge := ed; lua_large := large |}))) !! tokenTKey (NewRateStore []) "tpm" = Some (mkKeyed (FormatInt 100) None) /\
    rd_zset (ry_db (after_refusal (H:={| edge := ed; lua_large := large |}))) !! tokenZKey (NewRateStore []) "tpm" = Some (mkKeyed z (Some 61000)) /\
    rd_hash (ry_db (after_refusal (H:={| edge := ed; lua_large := large |}))) !! tokenHKey (NewRateStore []) "tpm" = Some (mkKeyed h (Some 61000))).
  { destruct ed; vm_compute; eauto. }
  destruct Hdb as (z & h & E1 & E2 & E3). exact (stuck_expired _ _ _ _ _ z h E1 E2 E3).
Qed.

(** C12. A refused reservation can close a token counter until something other than an
    ordinary reservation reaches it: pruning writes the total back without its expiry, so
    that when the set and the hash of the counter expire with their window the total
    stays.  After a budget of 100 tokens per minute was used and one reservation was
    refused, a run made only of reservations that each ask for at least one token (and
    for fewer than 2^52) admits none of them, however many minutes later.  A reservation
    of no tokens, which the contract allows, is admitted and gives the total its expiry
    back: a minute after it the whole budget is free again. *)
Theorem redis_refusal_starves `{RedisServer} qs :
  Forall (fun q => 61000 < q.1 /\ exists id amount, 0 < amount < 2 ^ 52 /\ q.2 = QReserve (tpm id amount)) qs ->
  (req_run (NewRateStore []) qs after_refusal).1 = [] /\
  (req_run (NewRateStore []) [(62000, QReserve (tpm "3" 0)); (130000, QReserve (tpm "4" 100))] after_refusal).1 =
    [(62000, tpm "3" 0); (130000, tpm "4" 100)].
Proof.
  intros Hqs. split; [|destruct H as [ed large]; destruct ed; vm_compute; reflexivity].
  apply (stuck_run (NewRateStore []) "tpm" 100 minute) with (t0 := 61000); [split; reflexivity | lia | | apply refusal_stuck].
  eapply Forall_impl; [exact Hqs|]. intros [now q] (Hnow & id & amount & Ha & Hq). split; [done|]. exists (tpm id amount). split; [done|].
  split_and!; [split_and!; [apply Forall_nil_2 | apply Forall_singleton; reflexivity | reflexivity | reflexivity] | apply NoDup_singleton |].
  eexists. split; [left|]. cbn [tk_Key tk_Window tk_Limit tk_Amount]. split_and!; lia || done.
Qed.

(** Two attempts, a minute and a day later. *)
Definition late_attempts : list (Z * rreq) := [(61001, QReserve (tpm "3" 1)); (86400000, QReserve (tpm "4" 100))].

Lemma redis_refusal_starves_witness :
  (req_run (H:=plain_server) (NewRateStore []) full_then_refused (mkRsys empty_rdb ∅)).1 = [(0, tpm "1" 100)] /\
  (req_run (H:=plain_server) (NewRateStore []) late_attempts (after_refusal (H:=plain_server))).1 = [].
Proof.
  split; [vm_compute; reflexivity|].
  apply (redis_refusal_starves (H:=plain_server) late_attempts).
  unfold late_attempts. apply Forall_cons; split; [split; [reflexivity | exists "3", 1; split; [lia | reflexivity]]|].
  apply Forall_cons; split; [split; [reflexivity | exists "4", 100; split; [lia | reflexivity]]|]. apply Forall_nil. exact I.
Defined.

(** A lease that is released after a window, while it is pending, is settled at nothing:
    its estimate has left the counter.  The in-process store settles the estimate. *)
Theorem redis_release_refunds `{RedisServer} :
  let ops := [(0, QReserve (tpm "1" 60)); (61000, QMetadata 1 "1" None); (61500, QScript 1)] in
  let y := (req_run (NewRateStore []) ops (mkRsys empty_rdb ∅)).2 in
  let m0 := mkMemoryStore ∅ ∅ (mkStoreConfig 0 0 false false) in
  let m1 := (RateStore.Reserve map_to_list None 0 (tpm "1" 60) m0).2 in
  let m2 := (RateStore.Release map_to_list None 61500000000 "1" m1).2 in
  HGET (ledgerKey (NewRateStore []) "1") "state" (ry_db y) = Some "released" /\
  recorded (NewRateStore []) "tpm" (ry_db y) = {[ "1" := (61500, 0) ]} /\
  tokenCount (counter "t:tpm" SlidingWindow minute m2) = 60.
Proof. destruct H as [ed large]. destruct ed; vm_compute; auto. Qed.
