(* ===== verification/RedisConversation.v ===== *)
(** The Redis conversation store (agent/conversation/redis/conversation.go): keys, the two
    Lua scripts, and every operation as requests to the server. *)
From Stdlib Require Import Ascii.
From S2P Require Import Prelude Errors Messages Execution Stores ConversationMemory MessageCodec.
From S2P Require Import SqlConversation ExecutionBackends Decimal RedisServer RedisRate Base64.
Local Open Scope Z_scope.

(* agent/conversation/redis/conversation.go:25-28: config *)
Record config := mkConfig { cf_ttl : Z; cf_keyPrefix : string }.

(* agent/conversation/redis/conversation.go: WithTTL *)
Definition WithTTL (d : Z) (c : config) : config := mkConfig d (cf_keyPrefix c).

(* agent/conversation/redis/conversation.go: WithKeyPrefix *)
Definition WithKeyPrefix (prefix : string) (c : config) : config :=
  if bool_decide (prefix <> "") then mkConfig (cf_ttl c) prefix else c.

(** The store is its configuration; a server that does not answer the ping fails New. *)
(* agent/conversation/redis/conversation.go: New *)
Definition New (ping : option error) (mopts : list (config -> config)) : res config :=
  let cfg := foldl (fun c o => o c) (mkConfig 0 "gude:") mopts in
  match ping with Some err => Err (EWrap "redis conversation: ping" err) | None => Ok cfg end.

Section Store.
Context `{RedisServer} `{MessageJSON} (m : config).

(* agent/conversation/redis/conversation.go: Conversation.keyBase *)
Definition keyBase (id : string) : string := cf_keyPrefix m +:+ "conv:{" +:+ RawURL_Encode id +:+ "}".

(* agent/conversation/redis/conversation.go: Conversation.metaKey *)
Definition metaKey (id : string) : string := keyBase id +:+ ":meta".

(* agent/conversation/redis/conversation.go: Conversation.streamKey *)
Definition streamKey (id : string) : string := keyBase id +:+ ":messages".

(** tostring of Lua writes 14 significant digits: from 10^14 on with an exponent, which is
    no stream ID. *)
Definition XADD_seq (stream : string) (seq : Z) (message : string) : LM unit :=
  if bool_decide (0 <= seq < 10 ^ 14) then XADD stream (Z.to_N seq) {[ "message" := message ]}
  else lua_fail "ERR Invalid stream ID specified as stream command argument".

(* agent/conversation/redis/conversation.go:79-82: loop of appendScript *)
Fixpoint append_loop (stream : string) (last i : Z) (messages : list string) : LM unit :=
  match messages with
  | [] => lua_ret tt
  | message :: messages =>
      let^ _ := XADD_seq stream (lua_num (last + i)) message in append_loop stream last (i + 1) messages
  end.

(** PEXPIRE of both keys, or PERSIST. *)
(* agent/conversation/redis/conversation.go:86-86: expiry of a conversation *)
Definition refresh (meta stream : string) (ttl : Z) : LM unit :=
  if bool_decide (0 < ttl) then let^ _ := lua_expire meta ttl in lua_expire stream ttl
  else let^ _ := lua_do (PERSIST meta) in lua_do (PERSIST stream).

(** ARGV is the expected revision, the count, the TTL and the messages. *)
(* agent/conversation/redis/conversation.go:67-88: appendScript *)
Definition appendScript (meta stream expected : string) (ttl : Z) (messages : list string) : LM (Z * Z) :=
  let count := Z.of_nat (length messages) in
  let^ current := lua_read (HGET meta "revision") in
  let current := default "0" current in
  if bool_decide (current <> expected) then lua_ret (-1, 0)
  else
    let^ last := lua_read (HGET meta "last_sequence") in
    let last := default "0" last in
    if bool_decide (count = 0) then let^ current := tonumber current in let^ last := tonumber last in lua_ret (current, last)
    else
      let^ last := tonumber last in
      let^ _ := append_loop stream last 1 messages in
      let^ current := tonumber current in
      let next := lua_num (current + 1) in
      let nextlast := lua_num (last + count) in
      let^ _ := lua_do (HSET meta [("revision", lua_show next); ("last_sequence", lua_show nextlast)]) in
      let^ _ := refresh meta stream ttl in
      lua_ret (next, nextlast).

(* agent/conversation/redis/conversation.go:92-109: saveStateScript *)
Definition saveStateScript (meta stream field revfield expected data : string) (ttl : Z) : LM Z :=
  let^ current := lua_read (HGET meta revfield) in
  let current := default "0" current in
  if bool_decide (current <> expected) then lua_ret (-1)
  else
    let^ current := tonumber current in
    let next := lua_num (current + 1) in
    let^ _ := lua_do (HSET meta [(field, data); (revfield, lua_show next)]) in
    let^ _ := refresh meta stream ttl in
    lua_ret next.

(* agent/conversation/redis/conversation.go: Conversation.stateFields *)
Definition stateFields (key : string) : string * string :=
  let encoded := RawURL_Encode key in ("context:" +:+ encoded, "context_revision:" +:+ encoded).

(* agent/conversation/redis/conversation.go: marshalOne *)
Definition marshalOne (message : Message) : option string := MarshalMessages [message].

(** * Requests in sequence

    A run of the store: the database, the clock, and what happens around each request; when
    the list is used up nothing else happens. *)
Record rworld := mkRworld { rw_db : rdb; rw_now : Z; rw_env : list renv }.

Definition RC (A : Type) : Type := rworld -> res A * rworld.
Definition rc_send {A} (f : LM A) : RC A := fun w =>
  let '(e, es) := match rw_env w with [] => (mkRenv (fun d => d) (rw_now w) NoFault, []) | e :: es => (e, es) end in
  let '(r, d) := rrequest f e (rw_db w) in (r, mkRworld d (re_now e) es).

Definition rc_wrap {A} (msg : string) (r : res A) : res A := match r with Ok a => Ok a | Err e => Err (EWrap msg e) end.

(** The function parse of LoadAfter. *)
(* agent/conversation/redis/conversation.go:130-135: parse *)
Definition parse_field (v : option string) : res N := match v with None => Ok 0%N | Some v => ParseUint v end.

(* agent/conversation/redis/conversation.go:157-171: decoding of LoadAfter *)
Fixpoint decode_entries (entries : list stream_entry) : res (list Message) :=
  match entries with
  | [] => Ok []
  | e :: entries =>
      match se_fields e !! "message" with
      | None => Err (ENew "redis conversation: stream message missing")
      | Some raw =>
          match UnmarshalMessages raw with
          | Some [one] => letr rest := decode_entries entries in Ok (one :: rest)
          | Some _ => Err (EWrap "redis conversation: decode" (ENew "expected one message"))
          | None => Err (ENew "redis conversation: decode")
          end
      end
  end.

(** XRANGE from "-", or from after the ID "after-0". *)
Definition XRANGE (stream : string) (after : N) (d : rdb) : list stream_entry :=
  List.filter (fun e => bool_decide (after = 0 \/ after < se_id e)%N) (cmd_stream d stream).

(* agent/conversation/redis/conversation.go: Conversation.LoadAfter *)
Definition rc_LoadAfter (id : string) (after : N) : RC ConversationSnapshot := fun w =>
  match rc_send (lua_read (fun d => (HGET (metaKey id) "revision" d, HGET (metaKey id) "last_sequence" d))) w with
  | (Err e, w) => (Err (EWrap "redis conversation: load metadata" e), w)
  | (Ok (None, None), w) => (Ok (mkSnapshot [] 0 0), w)
  | (Ok meta, w) =>
      match parse_field (fst meta) with
      | Err e => (Err (EWrap "redis conversation: revision" e), w)
      | Ok rev =>
          match parse_field (snd meta) with
          | Err e => (Err (EWrap "redis conversation: last sequence" e), w)
          | Ok last =>
              match rc_send (lua_read (XRANGE (streamKey id) after)) w with
              | (Err e, w) => (Err (EWrap "redis conversation: load range" e), w)
              | (Ok entries, w) => (letr messages := decode_entries entries in Ok (mkSnapshot messages rev last), w)
              end
          end
      end
  end.

(* agent/conversation/redis/conversation.go: Conversation.Load *)
Definition rc_Load (id : string) : RC ConversationSnapshot := rc_LoadAfter id 0.

(* agent/conversation/redis/conversation.go: Conversation.Append *)
Definition rc_Append (id : string) (msgs : list Message) (expected : N) : RC ConversationCursor := fun w =>
  if bool_decide (9223372036854775807 <= expected)%N then (Err (ENew "redis conversation: revision exceeds Redis signed range"), w)
  else match mapM marshalOne msgs with
  | None => (Err (ENew "redis conversation: marshal message"), w)
  | Some raws =>
      match rc_send (appendScript (metaKey id) (streamKey id) (FormatUint expected) (Milliseconds (cf_ttl m)) raws) w with
      | (Err e, w) => (Err (EWrap "redis conversation: append" e), w)
      | (Ok (rev, last), w) =>
          if bool_decide (rev < 0) then (Err (EWrap "redis conversation: append" (ESentinel ErrConversationConflict)), w)
          else (Ok (mkCursor (Z.to_N rev) (Z.to_N last)), w)
      end
  end.

(* agent/conversation/redis/conversation.go: Conversation.LoadContextState *)
Definition rc_LoadContextState (id key : string) : RC ContextStateSnapshot := fun w =>
  let '(field, revfield) := stateFields key in
  match rc_send (lua_read (fun d => (HGET (metaKey id) field d, HGET (metaKey id) revfield d))) w with
  | (Err e, w) => (Err (EWrap "redis conversation: load context state" e), w)
  | (Ok (None, _), w) => (Ok (mkStateSnapshot None 0), w)
  | (Ok (Some raw, rev), w) => (letr rev := parse_field rev in Ok (mkStateSnapshot (Some raw) rev), w)
  end.

(* agent/conversation/redis/conversation.go: Conversation.SaveContextState *)
Definition rc_SaveContextState (json_Valid : string -> bool) (id key : string) (data : RawMessage) (expected : N) : RC N := fun w =>
  if negb (json_Valid (default "" data)) then (Err (ENew "redis conversation: context state is invalid JSON"), w)
  else
    let '(field, revfield) := stateFields key in
    match rc_send (saveStateScript (metaKey id) (streamKey id) field revfield (FormatUint expected) (default "" data)
                     (Milliseconds (cf_ttl m))) w with
    | (Err e, w) => (Err (EWrap "redis conversation: save context state" e), w)
    | (Ok result, w) =>
        if bool_decide (result < 0) then (Err (EWrap "redis conversation: context state" (ESentinel ErrContextStateConflict)), w)
        else (Ok (Z.to_N result), w)
    end.

(** strings.TrimPrefix and TrimSuffix *)
Definition TrimPrefix (s prefix : string) : string :=
  if String.prefix prefix s then String.substring (String.length prefix) (String.length s - String.length prefix) s else s.
Definition TrimSuffix (s suffix : string) : string :=
  let n := (String.length s - String.length suffix)%nat in
  if bool_decide (String.length suffix <= String.length s)%nat && bool_decide (String.substring n (String.length suffix) s = suffix)
  then String.substring 0 n s else s.

(** The ID in a key of the listing. *)
(* agent/conversation/redis/conversation.go:249-250: ID of a key *)
Definition key_id (key : string) : option string :=
  RawURL_Decode (TrimSuffix (TrimPrefix key (cf_keyPrefix m +:+ "conv:{")) "}:meta").

(** The keys of one SCAN page: those without a revision are skipped. *)
(* agent/conversation/redis/conversation.go:244-254: page of List *)
Fixpoint list_page (keys : list string) : RC (list string) := fun w =>
  match keys with
  | [] => (Ok [], w)
  | key :: keys =>
      let '(r, w) := rc_send (lua_read (HGET key "revision")) w in
      let '(rest, w) := list_page keys w in
      (letr rest := rest in
       match r with
       | Ok (Some values) => if bool_decide (values = "0") then Ok rest else match key_id key with Some id => Ok (id :: rest) | None => Ok rest end
       | _ => Ok rest
       end, w)
  end.

(** [pages] is what SCAN returns until its cursor is zero. *)
(* agent/conversation/redis/conversation.go: Conversation.List *)
Fixpoint rc_List (pages : list (res (list string))) : RC (list string) := fun w =>
  match pages with
  | [] => (Ok [], w)
  | Err e :: _ => (Err (EWrap "redis conversation: list" e), w)
  | Ok keys :: pages =>
      let '(ids, w) := list_page keys w in
      let '(rest, w) := rc_List pages w in
      (letr ids := ids in letr rest := rest in Ok (ids ++ rest), w)
  end.

(* agent/conversation/redis/conversation.go: Conversation.Delete *)
Definition rc_Delete (id : string) : RC unit := fun w =>
  let '(r, w) := rc_send (let^ _ := lua_do (DEL (metaKey id)) in lua_do (DEL (streamKey id))) w in
  (rc_wrap "redis conversation: delete" r, w).

Definition redis_conversations : ConversationStore rworld := mkConversationStore rc_Load rc_LoadAfter rc_Append.

End Store.
