(* ===== verification/RedisConversationProps.v ===== *)
(** The Redis conversation store keeps append-only logs behind a compare-and-swap: an append
    is atomic, conversations do not touch each other, their metadata and messages
    expire together, and what is appended is loaded. *)
From Stdlib Require Import Ascii.
From S2P Require Import Prelude Errors Messages Execution Stores ConversationMemory MessageCodec.
From S2P Require Import SqlConversation ExecutionBackends Decimal RedisServer RedisRate Base64 RedisRateProps.
From S2P Require Import RedisConversation.
Local Open Scope Z_scope.

(** * Keys *)

Lemma list_ascii_app x y : String.list_ascii_of_string (x +:+ y) = String.list_ascii_of_string x ++ String.list_ascii_of_string y.
Proof. induction x as [|c x IH]; [done|]. change (String c x +:+ y) with (String c (x +:+ y)). cbn [String.list_ascii_of_string app]. by rewrite IH. Qed.

Lemma string_app_inj_r (a b c : string) : a +:+ c = b +:+ c -> a = b.
Proof.
  intros Hab. apply (f_equal String.list_ascii_of_string) in Hab. rewrite !list_ascii_app in Hab. apply app_inv_tail in Hab.
  rewrite <- (String.string_of_list_ascii_of_string a), <- (String.string_of_list_ascii_of_string b). by rewrite Hab.
Qed.

Section Keys.
Context (m : config).

Theorem metaKey_inj id id' : metaKey m id = metaKey m id' -> id = id'.
Proof.
  unfold metaKey, keyBase. intros E%string_app_inj_r. apply (inj (String.append (cf_keyPrefix m))) in E.
  apply (inj (String.append "conv:{")) in E. apply string_app_inj_r in E. by apply (inj RawURL_Encode).
Qed.

Theorem streamKey_inj id id' : streamKey m id = streamKey m id' -> id = id'.
Proof.
  unfold streamKey, keyBase. intros E%string_app_inj_r. apply (inj (String.append (cf_keyPrefix m))) in E.
  apply (inj (String.append "conv:{")) in E. apply string_app_inj_r in E. by apply (inj RawURL_Encode).
Qed.

(** The names end in different letters. *)
Theorem meta_stream_ne id id' : metaKey m id <> streamKey m id'.
Proof.
  unfold metaKey, streamKey. intros E.
  apply (f_equal (fun s => last (String.list_ascii_of_string s))) in E.
  rewrite !list_ascii_app, !last_app in E. vm_compute in E. discriminate.
Qed.

(** The fields of context states are not those of the cursor. *)
Lemma state_field_ne key : (stateFields key).1 <> "revision" /\ (stateFields key).1 <> "last_sequence" /\
  (stateFields key).2 <> "revision" /\ (stateFields key).2 <> "last_sequence".
Proof. unfold stateFields. cbn. split_and!; discriminate. Qed.
End Keys.

(** * Conversations *)

Section Logs.
Context `{RedisServer} `{MessageJSON} (m : config).

(** The entries of a log, numbered from [i]. *)
Fixpoint entries (i : N) (raws : list string) : list stream_entry :=
  match raws with [] => [] | raw :: raws => mkEntry i {[ "message" := raw ]} :: entries (i + 1) raws end.

Lemma entries_app i xs ys : entries i (xs ++ ys) = entries i xs ++ entries (i + lenN xs) ys.
Proof.
  revert i. induction xs as [|x xs IH]; intros i; simpl; [unfold lenN; simpl; by rewrite N.add_0_r|].
  rewrite IH. unfold lenN. simpl. do 2 f_equal. f_equal. lia.
Qed.

Lemma entries_last xs : from_option se_id 0%N (last (entries 1 xs)) = lenN xs.
Proof.
  destruct xs as [|x xs _] using rev_ind; [done|]. rewrite entries_app. simpl. rewrite last_snoc. simpl.
  unfold lenN. rewrite length_app. simpl. lia.
Qed.

(** A conversation in the database: its messages as texts, and its revision. *)
Record conv_at (d : rdb) (id : string) (raws : list string) (rev : Z) : Prop := {
  cv_rev : HGET (metaKey m id) "revision" d = if bool_decide (rev = 0) then None else Some (FormatInt rev);
  cv_last : HGET (metaKey m id) "last_sequence" d = if bool_decide (rev = 0) then None else Some (FormatInt (Z.of_nat (length raws)));
  cv_stream : cmd_stream d (streamKey m id) = entries 1 raws;
  cv_zero : rev = 0 <-> raws = [];
  cv_bounds : 0 <= rev <= Z.of_nat (length raws) }.

(** The largest number of messages the stream can hold. *)
Definition fits (n : Z) : Prop := n < 10 ^ 14.

Lemma cv_rev_text d id raws rev : conv_at d id raws rev -> default "0" (HGET (metaKey m id) "revision" d) = FormatInt rev.
Proof. intros Hc. rewrite (cv_rev _ _ _ _ Hc). case_bool_decide; [by subst | done]. Qed.

Lemma cv_last_text d id raws rev : conv_at d id raws rev ->
  default "0" (HGET (metaKey m id) "last_sequence" d) = FormatInt (Z.of_nat (length raws)).
Proof.
  intros Hc. rewrite (cv_last _ _ _ _ Hc). case_bool_decide as Hz; [|done]. apply (cv_zero _ _ _ _ Hc) in Hz. by subst.
Qed.

(** ** The append script *)

Lemma append_loop_spec stream new now d raws : cmd_stream d stream = entries 1 raws -> fits (Z.of_nat (length raws + length new)) ->
  forall last i, lua_num (last + i) = Z.of_nat (length raws) + 1 -> last + i = Z.of_nat (length raws) + 1 ->
  exists d', append_loop stream last i new now d = (Ok tt, d') /\ cmd_stream d' stream = entries 1 (raws ++ new) /\
    rd_hash d' = rd_hash d /\ (forall k, k <> stream -> same_key k d' d).
Proof.
  revert d raws. induction new as [|x new IH]; intros d raws Hs Hf last i Hn Hi; cbn [append_loop].
  { exists d. rewrite app_nil_r. by split_and!. }
  unfold fits in Hf. cbn [length] in Hf. rewrite bind_run, Hn. unfold XADD_seq. rewrite bool_decide_true by lia. unfold XADD.
  rewrite Hs, entries_last. rewrite bool_decide_true by (unfold lenN; lia). set (d1 := d <| rd_stream := _ |>).
  assert (Hs1 : cmd_stream d1 stream = entries 1 (raws ++ [x])).
  { unfold cmd_stream, d1. simpl. rewrite put_key_eq. simpl. rewrite entries_app. simpl. do 3 f_equal. unfold lenN. lia. }
  destruct (IH d1 (raws ++ [x]) Hs1) with (last := last) (i := i + 1) as (d' & -> & Hs' & Hh & Hk).
  - unfold fits. rewrite length_app. simpl. lia.
  - rewrite length_app. simpl. rewrite lua_num_small; lia.
  - rewrite length_app. simpl. lia.
  - exists d'. rewrite <- app_assoc in Hs'. split_and!; [done | done | by rewrite Hh |].
    intros k Hk'. etrans; [by apply Hk|]. unfold same_key, d1. simpl. by rewrite put_key_ne.
Qed.

Lemma with_expiry_hash k k' e d : cmd_hash (with_expiry k' e d) k = cmd_hash d k.
Proof.
  unfold cmd_hash, with_expiry. simpl. destruct (decide (k = k')) as [->|Hne].
  - rewrite set_expiry_eq. by destruct (rd_hash d !! k').
  - by rewrite set_expiry_ne.
Qed.
Lemma with_expiry_stream k k' e d : cmd_stream (with_expiry k' e d) k = cmd_stream d k.
Proof.
  unfold cmd_stream, with_expiry. simpl. destruct (decide (k = k')) as [->|Hne].
  - rewrite set_expiry_eq. by destruct (rd_stream d !! k').
  - by rewrite set_expiry_ne.
Qed.

(** The expiry that a write gives to both keys. *)
Definition new_expiry (now ttl : Z) : option Z := if bool_decide (0 < ttl) then Some (now + ttl) else None.

Lemma refresh_run meta stream ttl now d : refresh meta stream ttl now d =
  (Ok tt, with_expiry stream (new_expiry now ttl) (with_expiry meta (new_expiry now ttl) d)).
Proof.
  unfold refresh, new_expiry. case_bool_decide as Ht; [|done]. lua_run. unfold lua_expire, PEXPIRE. by rewrite !bool_decide_false by lia.
Qed.

(** What an append does to the conversation. *)
Definition next_rev (rev : Z) (new : list string) : Z := if bool_decide (new = []) then rev else rev + 1.

Lemma appendScript_spec id new expected ttl now d raws rev : conv_at d id raws rev -> fits (Z.of_nat (length raws + length new)) ->
  let '(r, d') := appendScript (metaKey m id) (streamKey m id) (FormatInt expected) ttl new now d in
  if bool_decide (rev = expected)
  then r = Ok (next_rev rev new, Z.of_nat (length raws + length new)) /\ conv_at d' id (raws ++ new) (next_rev rev new) /\
       (forall f, f <> "revision" -> f <> "last_sequence" -> HGET (metaKey m id) f d' = HGET (metaKey m id) f d) /\
       (forall k, k <> metaKey m id -> k <> streamKey m id -> same_key k d' d)
  else r = Ok (-1, 0) /\ d' = d.
Proof.
  intros Hc Hf. unfold appendScript. repeat lua_run. rewrite (cv_rev_text _ _ _ _ Hc).
  destruct (decide (rev = expected)) as [->|Hne].
  2: { rewrite (bool_decide_true (FormatInt rev <> FormatInt expected)) by (intros E%FormatInt_inj; done).
       by rewrite (bool_decide_false (rev = expected)). }
  rewrite (bool_decide_false (FormatInt expected <> FormatInt expected)) by (intros E; by apply E). rewrite (bool_decide_true (expected = expected)) by done.
  repeat lua_run. rewrite (cv_last_text _ _ _ _ Hc). pose proof (cv_bounds _ _ _ _ Hc) as Hb. unfold fits in Hf.
  destruct new as [|x new].
  { rewrite bool_decide_true by done. rewrite !tonumber_FormatInt by lia. repeat lua_run. unfold lua_ret, next_rev.
    rewrite bool_decide_true by done. rewrite Nat.add_0_r, app_nil_r. by split_and!. }
  rewrite bool_decide_false by (simpl; lia). rewrite tonumber_FormatInt by lia. repeat lua_run. rewrite bind_run.
  destruct (append_loop_spec (streamKey m id) (x :: new) now d raws (cv_stream _ _ _ _ Hc) Hf (Z.of_nat (length raws)) 1) as (d1 & -> & Hs1 & Hh1 & Hk1).
  { rewrite lua_num_small by lia. lia. }
  { lia. }
  rewrite tonumber_FormatInt by lia. repeat lua_run. rewrite !lua_num_small by lia. rewrite !lua_show_small by lia. rewrite bind_run, refresh_run.
  unfold lua_ret. set (new' := x :: new) in *. set (E := new_expiry now ttl).
  set (d2 := HSET _ _ d1).
  assert (Hnext : next_rev expected new' = expected + 1) by done. rewrite Hnext.
  assert (Hlen : Z.of_nat (length raws) + Z.of_nat (length new') = Z.of_nat (length raws + length new')) by lia. rewrite Hlen.
  assert (Hmeta : forall f, HGET (metaKey m id) f (with_expiry (streamKey m id) E (with_expiry (metaKey m id) E d2)) = HGET (metaKey m id) f d2).
  { intros f. unfold HGET. by rewrite !with_expiry_hash. }
  assert (Hold : forall f, HGET (metaKey m id) f d1 = HGET (metaKey m id) f d) by (intros f; unfold HGET, cmd_hash; by rewrite Hh1).
  split_and!; [done| | |].
  - assert (Hne0 : expected + 1 <> 0) by lia. split.
    + rewrite Hmeta. unfold HGET, d2. rewrite cmd_hash_HSET. cbn [foldl fst snd]. rewrite lookup_insert_ne by discriminate.
      rewrite lookup_insert_eq. by rewrite bool_decide_false.
    + rewrite Hmeta. unfold HGET, d2. rewrite cmd_hash_HSET. cbn [foldl fst snd]. rewrite lookup_insert_eq, length_app.
      rewrite bool_decide_false by done. by rewrite Hlen.
    + rewrite !with_expiry_stream. exact Hs1.
    + split; [lia|]. intros E0. by destruct raws.
    + rewrite length_app. unfold new'. simpl. lia.
  - intros f Hf1 Hf2. rewrite Hmeta. unfold d2. rewrite HGET_HSET_ne; [apply Hold|]. cbn [fmap list_fmap fst].
    rewrite !not_elem_of_cons. split_and!; [done | done | apply not_elem_of_nil].
  - intros k Hk2 Hk3. etrans; [by apply with_expiry_same|]. etrans; [by apply with_expiry_same|].
    etrans; [by apply HSET_same|]. by apply Hk1.
Qed.

(** ** The operations *)

(** A conversation with its messages. *)
Definition conv (d : rdb) (id : string) (log : list Message) (rev : Z) : Prop :=
  exists raws, mapM marshalOne log = Some raws /\ conv_at d id raws rev.

Lemma marshal_length log raws : mapM marshalOne log = Some raws -> length raws = length log.
Proof. intros Hm. apply mapM_Some in Hm. symmetry. by eapply Forall2_length. Qed.

Lemma decode_log log raws i : mapM marshalOne log = Some raws -> decode_entries (entries i raws) = Ok (map stored_message log).
Proof.
  intros Hm. apply mapM_Some in Hm. revert i. induction Hm as [|x raw log raws Hx Hm IH]; intros i; [done|].
  cbn [entries decode_entries se_fields map]. rewrite lookup_singleton_eq. unfold marshalOne in Hx. rewrite (marshal_decodes _ _ Hx).
  cbn [map]. by rewrite IH.
Qed.

(** What an append leaves: the log with the messages after it, the other fields of the metadata and the other conversations. *)
Definition appended (d d' : rdb) (id : string) (log msgs : list Message) (rev : Z) : Prop :=
  conv d' id (log ++ msgs) (if bool_decide (msgs = []) then rev else rev + 1) /\
  (forall f, f <> "revision" -> f <> "last_sequence" -> HGET (metaKey m id) f d' = HGET (metaKey m id) f d) /\
  (forall id', id' <> id -> same_key (metaKey m id') d' d /\ same_key (streamKey m id') d' d).

(** C13. An append of the Redis conversation store is atomic and a compare-and-swap: at the
    moment of its one script, whatever other clients did before it, it either finds the
    expected revision and the messages follow the log under the next revision, or it
    changes nothing; an error that hides a lost acknowledgement leaves one of the two.
    Context states and other conversations are not touched, for streams below the 10^14
    entries whose IDs the script can write. *)
Theorem redis_append_atomic id msgs expected d now e es log rev raws :
  let d0 := purge (re_now e) (re_before e d) in
  conv d0 id log rev -> mapM marshalOne msgs = Some raws -> fits (Z.of_nat (length log + length msgs)) ->
  (expected < 9223372036854775807)%N ->
  let '(r, w') := rc_Append m id msgs expected (mkRworld d now (e :: es)) in
  (forall cu, r = Ok cu -> rev = Z.of_N expected /\ appended d0 (rw_db w') id log msgs rev /\
     cu = mkCursor (Z.to_N (if bool_decide (msgs = []) then rev else rev + 1)) (lenN (log ++ msgs))) /\
  (forall err, r = Err err -> rw_db w' = d0 \/ (re_fault e <> NoFault /\ rev = Z.of_N expected /\ appended d0 (rw_db w') id log msgs rev)) /\
  (re_fault e = NoFault -> is_ok r = bool_decide (rev = Z.of_N expected)).
Proof.
  intros d0 (raws0 & Hm0 & Hc) Hm Hf Hexp. unfold rc_Append. rewrite bool_decide_false by lia. rewrite Hm.
  unfold rc_send, rrequest. cbn [rw_env rw_db]. fold d0.
  pose proof (marshal_length _ _ Hm0) as L0. pose proof (marshal_length _ _ Hm) as L1.
  assert (Hf' : fits (Z.of_nat (length raws0 + length raws))) by (by rewrite L0, L1).
  rewrite FormatUint_Z.
  pose proof (appendScript_spec id raws (Z.of_N expected) (Milliseconds (cf_ttl m)) (re_now e) d0 raws0 rev Hc Hf') as Hs.
  destruct (appendScript _ _ _ _ _ (re_now e) d0) as [r1 d1].
  assert (Hnil : bool_decide (raws = []) = bool_decide (msgs = [])).
  { apply bool_decide_ext. rewrite <- !length_zero_iff_nil. lia. }
  assert (Happ : bool_decide (rev = Z.of_N expected) = true -> appended d0 d1 id log msgs rev).
  { intros E. rewrite E in Hs. destruct Hs as (_ & Hc1 & Hf1 & Hk1). split_and!; [|done|].
    - exists (raws0 ++ raws). split; [apply mapM_Some, Forall2_app; by apply mapM_Some|]. unfold next_rev in Hc1. by rewrite Hnil in Hc1.
    - intros id' Hne. split; apply Hk1; first [intros E'%metaKey_inj; done | intros E'%streamKey_inj; done | apply meta_stream_ne
        | intros E'; symmetry in E'; by apply meta_stream_ne in E']. }
  pose proof (cv_bounds _ _ _ _ Hc) as Hb.
  destruct (re_fault e) as [|ferr|ferr]; cbn [fst snd].
  - destruct (bool_decide (rev = Z.of_N expected)) eqn:E.
    + pose proof (bool_decide_eq_true_1 _ E) as Hrev. destruct Hs as (-> & _). rewrite bool_decide_false.
      * split_and!; [|done|done]. intros cu [= <-]. split_and!; [done | by apply Happ |].
        unfold next_rev. rewrite Hnil. f_equal. rewrite lenN_app. unfold lenN. lia.
      * unfold next_rev. case_bool_decide; lia.
    + destruct Hs as [-> ->]. rewrite bool_decide_true by lia. split_and!; [done | intros err _; by left | done].
  - split_and!; [done | intros err _; by left | done].
  - split_and!; [done | | done]. intros err _. cbn [rw_db].
    destruct (bool_decide (rev = Z.of_N expected)) eqn:E; [|destruct Hs as [_ ->]; by left].
    right. split_and!; [done | by apply bool_decide_eq_true_1 in E | by apply Happ].
Qed.

(** ** Loads *)

Lemma XRANGE_drop after raws i : (i <= after + 1 \/ after = 0)%N ->
  List.filter (fun e => bool_decide (after = 0 \/ after < se_id e)%N) (entries i raws) =
  entries (N.max i (if bool_decide (after = 0)%N then i else after + 1)) (drop (if bool_decide (after = 0)%N then 0 else N.to_nat (after + 1 - i)) raws).
Proof.
  destruct (decide (after = 0)%N) as [->|Hz].
  - intros _. rewrite !(bool_decide_true (0 = 0)%N) by done. rewrite drop_0, N.max_id. revert i. induction raws as [|x raws IH]; intros i; [done|].
    cbn [entries List.filter]. rewrite bool_decide_true by lia. f_equal. apply IH.
  - rewrite !(bool_decide_false (after = 0)%N) by done. revert i. induction raws as [|x raws IH]; intros i Hi; [by rewrite drop_nil|].
    cbn [entries List.filter se_id]. destruct (decide (i = after + 1)%N) as [->|Hne].
    + rewrite bool_decide_true by lia. rewrite N.max_id, N.sub_diag. simpl. f_equal.
      assert (Hall : forall j xs, (after < j)%N -> List.filter (fun e => bool_decide (after = 0 \/ after < se_id e)%N) (entries j xs) = entries j xs).
      { intros j xs. revert j. induction xs as [|y xs IHx]; intros j Hj; [done|]. cbn [entries List.filter se_id].
        rewrite bool_decide_true by lia. f_equal. apply IHx. lia. }
      apply Hall. lia.
    + rewrite bool_decide_false by lia. rewrite IH by lia. rewrite !N.max_r by lia.
      replace (N.to_nat (after + 1 - i)) with (S (N.to_nat (after + 1 - (i + 1)))) by lia. done.
Qed.

Lemma decode_after log raws after d id rev : mapM marshalOne log = Some raws -> conv_at d id raws rev ->
  decode_entries (XRANGE (streamKey m id) after d) = Ok (drop (N.to_nat after) (map stored_message log)).
Proof.
  intros Hm Hc. unfold XRANGE. rewrite (cv_stream _ _ _ _ Hc), XRANGE_drop by lia.
  assert (Hd : (if bool_decide (after = 0)%N then 0%nat else N.to_nat (after + 1 - 1)) = N.to_nat after) by (case_bool_decide; lia).
  rewrite Hd. apply mapM_Some in Hm. rewrite (decode_log (drop (N.to_nat after) log)).
  - f_equal. symmetry. apply skipn_map.
  - by apply mapM_Some, Forall2_drop.
Qed.

Lemma parse_rev d id raws rev : conv_at d id raws rev -> fits (Z.of_nat (length raws)) -> rev <> 0 ->
  parse_field (HGET (metaKey m id) "revision" d) = Ok (Z.to_N rev) /\
  parse_field (HGET (metaKey m id) "last_sequence" d) = Ok (lenN raws).
Proof.
  intros Hc Hf Hr. pose proof (cv_bounds _ _ _ _ Hc) as Hb. unfold fits in Hf.
  rewrite (cv_rev _ _ _ _ Hc), (cv_last _ _ _ _ Hc), bool_decide_false by done. simpl. rewrite !ParseUint_of_Z by lia.
  split; [done|]. f_equal. unfold lenN. lia.
Qed.

(** A load combines two moments: the cursor of the first request with the messages of the second.  Another
    client's append between them, or the expiry of the conversation, gives a snapshot that the conversation never had. *)
Theorem redis_load_torn id after d now e1 e2 es log1 rev1 log2 rev2 :
  let d1 := purge (re_now e1) (re_before e1 d) in
  let d2 := purge (re_now e2) (re_before e2 d1) in
  conv d1 id log1 rev1 -> conv d2 id log2 rev2 -> fits (Z.of_nat (length log1)) -> rev1 <> 0 ->
  re_fault e1 = NoFault -> re_fault e2 = NoFault ->
  rc_LoadAfter m id after (mkRworld d now (e1 :: e2 :: es)) =
    (Ok (mkSnapshot (drop (N.to_nat after) (map stored_message log2)) (Z.to_N rev1) (lenN log1)), mkRworld d2 (re_now e2) es).
Proof.
  intros d1 d2 (raws1 & Hm1 & Hc1) (raws2 & Hm2 & Hc2) Hf Hr Hf1 Hf2. unfold rc_LoadAfter, rc_send, rrequest. cbn [rw_env rw_db]. rewrite Hf1.
  fold d1. unfold lua_read at 1. cbn [fst snd rw_env rw_db].
  assert (Hf' : fits (Z.of_nat (length raws1))) by (by rewrite (marshal_length _ _ Hm1)).
  destruct (parse_rev d1 id raws1 rev1 Hc1 Hf' Hr) as [P1 P2].
  assert (Hsome : HGET (metaKey m id) "revision" d1 = Some (FormatInt rev1)) by (rewrite (cv_rev _ _ _ _ Hc1); by rewrite bool_decide_false).
  rewrite Hsome in *. cbn [fst snd]. rewrite P1, P2. cbn [rw_env rw_db]. rewrite Hf2. fold d2.
  unfold lua_read. rewrite (decode_after log2 raws2 after d2 id rev2 Hm2 Hc2). simpl. unfold lenN. by rewrite (marshal_length _ _ Hm1).
Qed.

Lemma purge_twice now d : purge now (purge now d) = purge now d.
Proof.
  unfold purge. simpl. f_equal; apply map_eq; intros k; apply option_eq; intros v; rewrite !map_lookup_filter_Some; naive_solver.
Qed.

(** With nobody else at work a load returns the log and its cursor. *)
Theorem redis_load_spec id after d now log rev : conv (purge now d) id log rev -> fits (Z.of_nat (length log)) ->
  rc_LoadAfter m id after (mkRworld d now []) =
    (Ok (mkSnapshot (drop (N.to_nat after) (map stored_message log)) (Z.to_N rev) (lenN log)), mkRworld (purge now d) now []).
Proof.
  intros Hc Hf. destruct (decide (rev = 0)) as [->|Hr].
  - destruct Hc as (raws & Hm & Hc). pose proof (proj1 (cv_zero _ _ _ _ Hc) eq_refl) as ->.
    assert (log = []) as -> by (apply mapM_Some in Hm; by apply Forall2_nil_inv_r in Hm).
    unfold rc_LoadAfter, rc_send, rrequest. cbn [rw_env rw_db]. cbn [re_fault re_now re_before rw_now]. unfold lua_read at 1.
    rewrite (cv_rev _ _ _ _ Hc), (cv_last _ _ _ _ Hc). rewrite bool_decide_true by done. cbn. by rewrite drop_nil.
  - destruct Hc as (raws & Hm & Hc). unfold rc_LoadAfter, rc_send, rrequest. cbn [rw_env rw_db re_fault re_now re_before rw_now].
    unfold lua_read at 1. assert (Hf' : fits (Z.of_nat (length raws))) by (by rewrite (marshal_length _ _ Hm)).
    destruct (parse_rev _ id raws rev Hc Hf' Hr) as [P1 P2].
    assert (Hsome : HGET (metaKey m id) "revision" (purge now d) = Some (FormatInt rev)) by (rewrite (cv_rev _ _ _ _ Hc); by rewrite bool_decide_false).
    rewrite Hsome in *. cbn [fst snd]. rewrite P1, P2. cbn [rw_env rw_db re_fault re_now re_before rw_now]. rewrite purge_twice.
    unfold lua_read. rewrite (decode_after log raws after _ id rev Hm Hc). simpl. unfold lenN. by rewrite (marshal_length _ _ Hm).
Qed.

(** ** Expiry *)

(** The messages never live without their metadata, and both end together. *)
Definition together (d : rdb) (id : string) : Prop :=
  forall st, rd_stream d !! streamKey m id = Some st -> exists h, rd_hash d !! metaKey m id = Some h /\ kv_exp h = kv_exp st.

Lemma together_purge now d id : together d id -> together (purge now d) id.
Proof.
  intros Ht st [Hst Hl]%map_lookup_filter_Some. destruct (Ht st Hst) as (h & Hh & He). exists h. split; [|done].
  simpl. apply map_lookup_filter_Some. split; [done|]. unfold live in *. simpl in *. by rewrite He.
Qed.

Lemma together_refresh id ttl now d : is_Some (rd_hash d !! metaKey m id) ->
  together (refresh (metaKey m id) (streamKey m id) ttl now d).2 id.
Proof.
  intros [h Hh]. rewrite refresh_run. cbn [snd]. intros st. unfold with_expiry at 1. simpl. rewrite set_expiry_eq.
  intros (st0 & _ & ->)%fmap_Some. exists (mkKeyed (kv_val h) (new_expiry now ttl)). split; [|done].
  unfold with_expiry. simpl. rewrite set_expiry_ne by apply meta_stream_ne. by rewrite set_expiry_eq, Hh.
Qed.

Lemma HSET_present k fs d : is_Some (rd_hash (HSET k fs d) !! k).
Proof. unfold HSET. simpl. rewrite put_key_eq. by eexists. Qed.

(** Whenever one of them is there both keys of a conversation expire at the same time: appends, saves of context
    state, deletions and the expiry itself keep it so. *)
Theorem redis_expire_together id : 
  (forall now d, together d id -> together (purge now d) id) /\
  (forall expected ttl raws now d log rev, conv_at d id log rev -> fits (Z.of_nat (length log + length raws)) -> together d id ->
     together (appendScript (metaKey m id) (streamKey m id) (FormatInt expected) ttl raws now d).2 id) /\
  (forall field revfield expected data ttl now d, together d id ->
     together (saveStateScript (metaKey m id) (streamKey m id) field revfield expected data ttl now d).2 id) /\
  (forall now d, together d id -> together ((let^ _ := lua_do (DEL (metaKey m id)) in lua_do (DEL (streamKey m id))) now d).2 id).
Proof.
  split_and!.
  - intros now d. apply together_purge.
  - intros expected ttl raws now d log rev Hc Hf Ht. unfold appendScript. repeat lua_run. rewrite (cv_rev_text _ _ _ _ Hc).
    case_bool_decide; [done|]. repeat lua_run. rewrite (cv_last_text _ _ _ _ Hc). pose proof (cv_bounds _ _ _ _ Hc). unfold fits in Hf.
    destruct raws as [|x raws].
    { rewrite bool_decide_true by done. rewrite !tonumber_FormatInt by lia. done. }
    rewrite (bool_decide_false (Z.of_nat _ = 0)) by (simpl; lia). rewrite tonumber_FormatInt by lia. repeat lua_run. rewrite bind_run.
    destruct (append_loop_spec (streamKey m id) (x :: raws) now d log (cv_stream _ _ _ _ Hc) Hf (Z.of_nat (length log)) 1) as (d1 & -> & _).
    { rewrite lua_num_small by lia. lia. }
    { lia. }
    rewrite tonumber_FormatInt by lia. repeat lua_run. rewrite bind_run.
    match goal with |- context [refresh _ _ ttl now ?d2] => pose proof (together_refresh id ttl now d2 (HSET_present _ _ _)) as Hr; rewrite refresh_run in Hr |- * end.
    exact Hr.
  - intros field revfield expected data ttl now d Ht. unfold saveStateScript. repeat lua_run. case_bool_decide; [done|]. rewrite bind_run.
    assert (Htn : forall x, (tonumber x now d).2 = d) by (intros x; unfold tonumber; by destruct (read_Z x)).
    pose proof (Htn (default "0" (HGET (metaKey m id) revfield d))) as He. destruct (tonumber _ now d) as [[n|err] d1]; cbn [snd] in He; subst d1; [|done].
    repeat lua_run. rewrite bind_run.
    match goal with |- context [refresh _ _ ttl now ?d2] => pose proof (together_refresh id ttl now d2 (HSET_present _ _ _)) as Hr; rewrite refresh_run in Hr |- * end.
    exact Hr.
  - intros now d _ st. cbn. intros Hst. exfalso. by rewrite lookup_delete_eq in Hst.
Qed.

(** ** Context state *)

(** A context state with its revision. *)
Definition state_at (d : rdb) (id key : string) (data : option string) (rev : Z) : Prop :=
  HGET (metaKey m id) (stateFields key).1 d = data /\
  HGET (metaKey m id) (stateFields key).2 d = (if bool_decide (rev = 0) then None else Some (FormatInt rev)) /\
  0 <= rev < 2 ^ 53 - 1 /\ (rev = 0 <-> data = None).

Lemma state_fields_inj key key' : (stateFields key).1 <> (stateFields key').2 /\
  (key <> key' -> (stateFields key).1 <> (stateFields key').1 /\ (stateFields key).2 <> (stateFields key').2).
Proof.
  unfold stateFields. cbn. split; [discriminate|]. intros Hne. split; intros E; apply Hne.
  - apply (inj (String.append "context:")) in E. by apply (inj RawURL_Encode).
  - apply (inj (String.append "context_revision:")) in E. by apply (inj RawURL_Encode).
Qed.

(** Saving a context state is a compare-and-swap on its own revision: it touches neither the transcript nor
    another state. *)
Theorem redis_state_cas id key data expected ttl now d old rev log crev : state_at d id key old rev -> conv_at d id log crev ->
  let '(r, d') := saveStateScript (metaKey m id) (streamKey m id) (stateFields key).1 (stateFields key).2 (FormatInt expected) data ttl now d in
  if bool_decide (rev = expected)
  then r = Ok (rev + 1) /\ HGET (metaKey m id) (stateFields key).1 d' = Some data /\
       HGET (metaKey m id) (stateFields key).2 d' = Some (FormatInt (rev + 1)) /\ conv_at d' id log crev /\
       (forall key', key' <> key -> HGET (metaKey m id) (stateFields key').1 d' = HGET (metaKey m id) (stateFields key').1 d /\
          HGET (metaKey m id) (stateFields key').2 d' = HGET (metaKey m id) (stateFields key').2 d)
  else r = Ok (-1) /\ d' = d.
Proof.
  intros (Hdata & Hrev & Hb & Hz) Hc. unfold saveStateScript. repeat lua_run.
  assert (Htext : default "0" (HGET (metaKey m id) (stateFields key).2 d) = FormatInt rev) by (rewrite Hrev; case_bool_decide; [by subst | done]).
  rewrite Htext. destruct (decide (rev = expected)) as [->|Hne].
  2: { rewrite (bool_decide_true (FormatInt rev <> FormatInt expected)) by (intros E%FormatInt_inj; done). by rewrite bool_decide_false. }
  rewrite (bool_decide_false (FormatInt expected <> FormatInt expected)) by (intros E; by apply E). rewrite (bool_decide_true (expected = expected)) by done.
  rewrite tonumber_FormatInt by lia. repeat lua_run. rewrite lua_num_small, lua_show_small by lia. rewrite bind_run, refresh_run. unfold lua_ret.
  set (E := new_expiry now ttl). set (d1 := HSET _ _ d).
  assert (Hmeta : forall f, HGET (metaKey m id) f (with_expiry (streamKey m id) E (with_expiry (metaKey m id) E d1)) = HGET (metaKey m id) f d1).
  { intros f. unfold HGET. by rewrite !with_expiry_hash. }
  assert (Hkeep : forall f, f <> (stateFields key).1 -> f <> (stateFields key).2 -> HGET (metaKey m id) f d1 = HGET (metaKey m id) f d).
  { intros f H1 H2. unfold d1. apply HGET_HSET_ne. cbn [fmap list_fmap fst]. rewrite !not_elem_of_cons. split_and!; [done | done | apply not_elem_of_nil]. }
  destruct (state_field_ne key) as (N1 & N2 & N3 & N4). pose proof (proj1 (state_fields_inj key key)) as N5.
  split_and!; [done| | | |].
  - rewrite Hmeta. unfold HGET, d1. rewrite cmd_hash_HSET. cbn [foldl fst snd]. by rewrite lookup_insert_ne, lookup_insert_eq by (intros E'; by symmetry in E').
  - rewrite Hmeta. unfold HGET, d1. rewrite cmd_hash_HSET. cbn [foldl fst snd]. by rewrite lookup_insert_eq.
  - destruct Hc as [C1 C2 C3 C4 C5]. split; rewrite ?Hmeta, ?Hkeep by (intros E'; by symmetry in E'); try done.
    rewrite !with_expiry_stream. exact C3.
  - intros key' Hne. rewrite !Hmeta. destruct (proj2 (state_fields_inj key' key) Hne) as [M1 M2].
    pose proof (proj1 (state_fields_inj key' key)) as M3. pose proof (proj1 (state_fields_inj key key')) as M4.
    rewrite !Hkeep; [done | intros E'; by symmetry in E' | done | done | done].
Qed.

End Logs.

(** * Listing *)

Lemma app_cons (c : ascii) (s t : string) : String c s +:+ t = String c (s +:+ t).
Proof. reflexivity. Qed.

Lemma app_assoc_str (a b c : string) : (a +:+ b) +:+ c = a +:+ b +:+ c.
Proof. induction a as [|x a IH]; [done|]. rewrite !app_cons. by rewrite IH. Qed.

Lemma length_app_str (a b : string) : String.length (a +:+ b) = (String.length a + String.length b)%nat.
Proof. induction a as [|x a IH]; [done|]. rewrite app_cons. cbn [String.length]. by rewrite IH. Qed.

Lemma prefix_app p s : String.prefix p (p +:+ s) = true.
Proof. induction p as [|c p IH]; [by destruct s|]. rewrite app_cons. cbn [String.prefix]. by destruct (Ascii.ascii_dec c c). Qed.

Lemma substring_skip p s n : String.substring (String.length p) n (p +:+ s) = String.substring 0 n s.
Proof. induction p as [|c p IH]; [done|]. rewrite app_cons. cbn [String.length String.substring]. exact IH. Qed.

Lemma substring_front s t : String.substring 0 (String.length s) (s +:+ t) = s.
Proof. induction s as [|c s IH]; [by destruct t|]. rewrite app_cons. cbn [String.length String.substring]. by rewrite IH. Qed.

Lemma app_nil_str (s : string) : s +:+ "" = s.
Proof. induction s as [|c s IH]; [done|]. rewrite app_cons. by rewrite IH. Qed.

Lemma TrimPrefix_app p s : TrimPrefix (p +:+ s) p = s.
Proof.
  unfold TrimPrefix. rewrite prefix_app, length_app_str, substring_skip. replace (_ + _ - _)%nat with (String.length s) by lia.
  pose proof (substring_front s "") as Hf. by rewrite app_nil_str in Hf.
Qed.

Lemma TrimSuffix_app s t : TrimSuffix (s +:+ t) t = s.
Proof.
  unfold TrimSuffix. rewrite length_app_str. replace (String.length s + String.length t - String.length t)%nat with (String.length s) by lia.
  rewrite bool_decide_true by lia. rewrite substring_skip. pose proof (substring_front t "") as Hf. rewrite app_nil_str in Hf. rewrite Hf.
  rewrite bool_decide_true by done. apply substring_front.
Qed.

Section Listing.
Context `{RedisServer} (m : config).

(** The ID comes back from its key. *)
Lemma key_id_meta id : key_id m (metaKey m id) = Some id.
Proof.
  unfold key_id, metaKey, keyBase. rewrite !app_assoc_str. rewrite <- (app_assoc_str (cf_keyPrefix m) "conv:{"), TrimPrefix_app.
  change ("}" +:+ ":meta") with "}:meta". rewrite TrimSuffix_app. apply RawURL_roundtrip.
Qed.

Definition listed (d : rdb) (id : string) : bool :=
  match HGET (metaKey m id) "revision" d with Some v => negb (bool_decide (v = "0")) | None => false end.

(** List returns the conversations that have messages among the keys that SCAN returns, once per time it returns them. *)
Theorem redis_List_spec pages d now :
  rc_List m (map (fun ids => Ok (map (metaKey m) ids)) pages) (mkRworld (purge now d) now []) =
    (Ok (List.filter (listed (purge now d)) (concat pages)), mkRworld (purge now d) now []).
Proof.
  induction pages as [|ids pages IH]; [done|]. cbn [map rc_List concat].
  assert (Hp : list_page m (map (metaKey m) ids) (mkRworld (purge now d) now []) =
               (Ok (List.filter (listed (purge now d)) ids), mkRworld (purge now d) now [])).
  { clear IH. induction ids as [|id ids IH]; [done|]. cbn [map list_page List.filter].
    unfold rc_send, rrequest, lua_read. cbn [rw_env rw_db rw_now re_now re_before re_fault]. rewrite purge_twice, IH.
    unfold listed at 2. destruct (HGET (metaKey m id) "revision" (purge now d)) as [v|]; cbn [res_bind]; [|done].
    destruct (bool_decide (v = "0")); [done|]. cbn [negb]. by rewrite key_id_meta. }
  rewrite Hp, IH. cbn [res_bind]. by rewrite List.filter_app.
Qed.
End Listing.

(** * A sample run *)

Definition sample_config : config := mkConfig 3600000000000 "gude:".
Definition hello : list Message := [mkMessage "user" [TextBlock "hi"]].
Definition answer : list Message := [mkMessage "assistant" [TextBlock "yes"]].
Definition quiet_at (now : Z) : renv := mkRenv (fun d => d) now NoFault.

Definition first_append : rdb := rw_db (rc_Append (H:=plain_server) sample_config "c1" hello 0 (mkRworld empty_rdb 0 [quiet_at 0])).2.

Definition sample_env : renv := quiet_at 1000.

Lemma first_append_conv : conv (H0:=marked_json) sample_config (purge (H:=plain_server) (re_now sample_env) (re_before sample_env first_append)) "c1" hello 1.
Proof.
  assert (Hm : is_Some (mapM (marshalOne (H0:=marked_json)) hello)) by (vm_compute; by eexists).
  destruct Hm as [raws Hraws]. exists raws. split; [exact Hraws|].
  assert (raws = default [] (mapM (marshalOne (H0:=marked_json)) hello)) as -> by (by rewrite Hraws).
  split; [vm_compute; reflexivity | vm_compute; reflexivity | vm_compute; reflexivity | | ].
  - split; [done | vm_compute; discriminate].
  - vm_compute. split; discriminate.
Qed.

(** A second append with the right revision, and one that was overtaken. *)
Lemma redis_append_atomic_witness :
  (rc_Append (H:=plain_server) (H0:=marked_json) sample_config "c1" answer 1 (mkRworld first_append 0 [sample_env])).1 = Ok (mkCursor 2 2) /\
  is_ok (rc_Append (H:=plain_server) (H0:=marked_json) sample_config "c1" answer 0 (mkRworld first_append 0 [sample_env])).1 = false /\
  let '(r, w') := rc_Append (H:=plain_server) (H0:=marked_json) sample_config "c1" answer 1 (mkRworld first_append 0 [sample_env]) in
  forall cu, r = Ok cu ->
    appended (H0:=marked_json) sample_config (purge (H:=plain_server) (re_now sample_env) (re_before sample_env first_append)) (rw_db w') "c1" hello answer 1.
Proof.
  split; [vm_compute; reflexivity|]. split; [vm_compute; reflexivity|].
  assert (Hm : is_Some (mapM (marshalOne (H0:=marked_json)) answer)) by (vm_compute; by eexists).
  destruct Hm as [raws Hraws].
  pose proof (redis_append_atomic (H:=plain_server) (H0:=marked_json) sample_config "c1" answer 1 first_append 0 sample_env [] hello 1 raws
    first_append_conv Hraws ltac:(vm_compute; reflexivity) ltac:(lia)) as Hth.
  revert Hth. generalize (rc_Append (H:=plain_server) (H0:=marked_json) sample_config "c1" answer 1 (mkRworld first_append 0 [sample_env])).
  intros [r w'] [Hok _] cu Hr. destruct (Hok cu Hr) as (_ & Ha & _). exact Ha.
Defined.
