(* ===== verification/GoStruct.v ===== *)
(** Go values and struct types as the memory backends see them through reflection: kinds,
    values, the texts of package fmt and strconv for them, float32 conversion, and
    strings.EqualFold and ToUpper against ASCII names. *)
From stdpp Require Import pretty.
From Stdlib Require Import Ascii SpecFloat.
From S2P Require Import Prelude Errors Ranking Chunks Decimal.
Local Open Scope Z_scope.

(** * Types and values *)

(** The kinds that the code tells apart; [TTime] is time.Time itself, and [TOther] every struct, slice, map,
    interface, function, channel, array and complex type. *)
Inductive GoTyp : Type :=
| TInt (bits : Z) | TUint (bits : Z) | TFloat (bits : Z) | TString | TBool | TTime | TPtr (t : GoTyp) | TOther.
#[global] Instance GoTyp_eq_dec : EqDecision GoTyp.
Proof. solve_decision. Defined.

(** A value: a float32 is its value in binary64, a time is its Unix seconds, nanoseconds and location. *)
Inductive GoVal : Type :=
| VInt (z : Z) | VUint (n : N) | VFloat (x : float) | VString (s : string) | VBool (b : bool)
| VTime (unix nsec : Z) (zone : string) | VOther (contents : string).

(** An exported or hidden field with its tags; a type with a String or Error method prints by it. *)
Record Field := mkField {
  fd_Name : string; fd_exported : bool; fd_type : GoTyp; fd_String : option (GoVal -> string);
  fd_db : string; fd_json : string; fd_description : string; fd_enum : string; fd_required : string }.

Inductive RType : Type := RStruct (fields : list Field) | RPointer | RNotStruct.

Definition zero_val (t : GoTyp) : GoVal :=
  match t with
  | TInt _ => VInt 0 | TUint _ => VUint 0 | TFloat _ => VFloat f_zero | TString => VString "" | TBool => VBool false
  | TTime => VTime (-62135596800) 0 "UTC" | TPtr _ | TOther => VOther ""
  end.

(** * float32 *)

(** The conversion float32(x), rounded to nearest even, and back. *)
Definition to_float32 (x : float) : float :=
  match x with S754_finite s m e => binary_normalize 24 128 (if s then Z.neg m else Z.pos m) e s | _ => x end.
Definition of_float32 (x : float) : float :=
  match x with S754_finite s m e => binary_normalize 53 1024 (if s then Z.neg m else Z.pos m) e s | _ => x end.

(** math.Float32bits *)
Definition Float32bits (x : float) : N :=
  match x with
  | S754_zero s => if s then 2 ^ 31 else 0
  | S754_infinity s => (if s then 2 ^ 31 else 0) + 2139095040
  | S754_nan => 2143289344
  | S754_finite s m e =>
      (if s then 2 ^ 31 else 0) + (if Pos.ltb m 8388608 then N.pos m else Z.to_N (e + 150) * 8388608 + (N.pos m - 8388608))
  end%N.

#[global] Instance float_eq_dec : EqDecision float.
Proof. solve_decision. Defined.

Definition f_finite (x : float) : bool := match x with S754_zero _ | S754_finite _ _ _ => true | _ => false end.

(** A finite value of a float type of this width. *)
Definition representable (bits : Z) (x : float) : bool :=
  f_finite x && valid_binary 53 1024 x && (negb (bool_decide (bits = 32)) || bool_decide (of_float32 (to_float32 x) = x)).

Definition has_type (t : GoTyp) (v : GoVal) : bool :=
  match t, v with
  | TInt b, VInt z => bool_decide (- 2 ^ (b - 1) <= z < 2 ^ (b - 1))
  | TUint b, VUint n => bool_decide (Z.of_N n < 2 ^ b)
  | TFloat b, VFloat x => negb (f_finite x) || representable b x
  | TString, VString _ | TBool, VBool _ | TPtr _, VOther _ | TOther, VOther _ => true
  | TTime, VTime u n _ => bool_decide (- 2 ^ 63 <= u < 2 ^ 63 /\ 0 <= n < 1000000000)
  | _, _ => false
  end.

(** * Texts *)

(** strconv.FormatFloat with precision -1 for a verb and a width, strconv.ParseFloat, and the v verb of fmt
    for a float, a time and a value of another kind. *)
Class GoText := {
  FormatFloat : ascii -> Z -> float -> string;
  ParseFloat : Z -> string -> option float;
  show_float : Z -> float -> string;
  show_time : Z -> Z -> string -> string;
  show_other : string -> string }.

(** FormatFloat documents precision -1 as the smallest number of digits necessary such that ParseFloat
    will return the value exactly; its formats have digits, signs, a point and an exponent. *)
Class GoTextLaws `{GoText} := {
  FormatFloat_chars : forall verb bits x, f_finite x = true -> "]"%char ∉ String.list_ascii_of_string (FormatFloat verb bits x);
  ParseFloat_FormatFloat : forall bits x, representable bits x = true -> ParseFloat bits (FormatFloat "f" bits x) = Some x }.

Section Texts.
Context `{GoText}.

Definition FormatBool (b : bool) : string := if b then "true" else "false".

(** strconv.ParseBool *)
Definition ParseBool (s : string) : option bool :=
  if bool_decide (s ∈ ["1"; "t"; "T"; "true"; "TRUE"; "True"]) then Some true
  else if bool_decide (s ∈ ["0"; "f"; "F"; "false"; "FALSE"; "False"]) then Some false
  else None.

(** strconv.ParseInt and ParseUint in base 10 for a type of this width. *)
Definition ParseInt_bits (bits : Z) (s : string) : option Z :=
  z ← read_Z s; if bool_decide (- 2 ^ (bits - 1) <= z < 2 ^ (bits - 1)) then Some z else None.
Definition ParseUint_bits (bits : Z) (s : string) : option N :=
  n ← read_N s; if bool_decide (Z.of_N n < 2 ^ bits) then Some n else None.

(** fmt.Sprintf of a field value with the v verb. *)
Definition show_field (f : Field) (v : GoVal) : string :=
  match fd_String f with
  | Some show => show v
  | None =>
      match v with
      | VInt z => FormatInt z | VUint n => FormatUint n | VString s => s | VBool b => FormatBool b
      | VFloat x => show_float (match fd_type f with TFloat b => b | _ => 64 end) x
      | VTime u n z => show_time u n z | VOther x => show_other x
      end
  end.

End Texts.

(** * Letter case

    strings.EqualFold and strings.ToUpper as far as a comparison with an ASCII name can tell: beside the ASCII
    letters the long s and the Kelvin sign fold to s and k, and the long s and the dotless i have the upper
    case S and I. *)
Definition fold_rune (r : N) : N :=
  if between 65 r 90 then r + 32 else if (r =? 383)%N then 115 else if (r =? 8490)%N then 107 else r.
Definition upper_rune (r : N) : N :=
  if between 97 r 122 then r - 32 else if (r =? 383)%N then 83 else if (r =? 305)%N then 73 else r.
(** Lower case: the dotted capital I and the Kelvin sign become i and k. *)
Definition lower_rune (r : N) : N :=
  if between 65 r 90 then r + 32 else if (r =? 304)%N then 105 else if (r =? 8490)%N then 107 else r.
Fixpoint starts_with (p s : list N) : bool :=
  match p, s with [], _ => true | a :: p, b :: s => (a =? b)%N && starts_with p s | _ :: _, [] => false end.
Fixpoint contains_runes (p s : list N) : bool :=
  starts_with p s || match s with [] => false | _ :: s => contains_runes p s end.
(** strings.Contains(strings.ToLower(s), name) for an ASCII name. *)
Definition lower_contains (s name : string) : bool := contains_runes (runes name) (map lower_rune (runes s)).
Definition EqualFold (s name : string) : bool := bool_decide (map fold_rune (runes s) = map fold_rune (runes name)).
Definition upper_is (s name : string) : bool := bool_decide (map upper_rune (runes s) = runes name).

(** * Round trips *)

Lemma ParseBool_FormatBool b : ParseBool (FormatBool b) = Some b.
Proof. by destruct b. Qed.

Lemma ParseInt_bits_FormatInt bits z : - 2 ^ (bits - 1) <= z < 2 ^ (bits - 1) -> ParseInt_bits bits (FormatInt z) = Some z.
Proof. intros Hz. unfold ParseInt_bits, FormatInt. rewrite read_Z_pretty. simpl. by rewrite bool_decide_true. Qed.

Lemma ParseUint_bits_FormatUint bits n : Z.of_N n < 2 ^ bits -> ParseUint_bits bits (FormatUint n) = Some n.
Proof. intros Hn. unfold ParseUint_bits, FormatUint. rewrite read_N_pretty. simpl. by rewrite bool_decide_true. Qed.

(** Texts with the law: a finite float is written as its integer significand and exponent. *)
Definition float_text (x : float) : string :=
  match x with
  | S754_zero s => if s then "-" else "+"
  | S754_finite s m e => (if s then "n" else "p") +:+ FormatInt (Z.pos m) +:+ "e" +:+ FormatInt e
  | S754_infinity s => if s then "-Inf" else "+Inf"
  | S754_nan => "NaN"
  end.
Fixpoint cut_e (s : string) : string * string :=
  match s with
  | EmptyString => ("", "")
  | String c s => if Ascii.eqb c "e" then ("", s) else let '(a, b) := cut_e s in (String c a, b)
  end.
Definition float_of_text (s : string) : option float :=
  match s with
  | String c s =>
      match s with
      | EmptyString => if Ascii.eqb c "-" then Some (S754_zero true) else if Ascii.eqb c "+" then Some (S754_zero false) else None
      | _ =>
          let '(a, b) := cut_e s in
          m ← read_Z a; e ← read_Z b;
          match m with Z.pos m => Some (S754_finite (Ascii.eqb c "n") m e) | _ => None end
      end
  | EmptyString => None
  end.

#[export] Instance plain_text : GoText := {|
  FormatFloat _ _ := float_text; ParseFloat _ := float_of_text; show_float _ := float_text;
  show_time u n z := FormatInt u +:+ " " +:+ z; show_other x := x |}.

Lemma cut_digits acc s t n : read_digits acc s = Some n -> cut_e (s +:+ String "e" t) = (s, t).
Proof.
  revert acc. induction s as [|c s IH]; intros acc Hs; [done|]. change (String c s +:+ String "e" t) with (String c (s +:+ String "e" t)).
  cbn [read_digits] in Hs. cbn [cut_e]. destruct (digit_val c) as [d|] eqn:Hc; [|done].
  destruct (Ascii.eqb_spec c "e") as [->|_]; [by vm_compute in Hc|]. by rewrite (IH _ Hs).
Qed.

Lemma cut_number p t : cut_e (FormatInt (Z.pos p) +:+ "e" +:+ t) = (FormatInt (Z.pos p), t).
Proof.
  change ("e" +:+ t) with (String "e" t). pose proof (read_N_pretty (N.pos p)) as Hr.
  unfold FormatInt. change (pretty (Z.pos p)) with (pretty (N.pos p)). unfold read_N in Hr.
  destruct (pretty (N.pos p)); [done|]. by apply (cut_digits 0 _ _ (N.pos p)).
Qed.

Lemma digits_chars acc s n c : read_digits acc s = Some n -> digit_val c = None -> c ∉ String.list_ascii_of_string s.
Proof.
  revert acc. induction s as [|a s IH]; intros acc Hs Hc; [by apply not_elem_of_nil|]. cbn [read_digits String.list_ascii_of_string] in *.
  destruct (digit_val a) as [d|] eqn:Ha; [|done]. apply not_elem_of_cons. split; [congruence|]. by apply (IH _ Hs).
Qed.

Lemma FormatInt_chars z c : digit_val c = None -> c <> "-"%char -> c ∉ String.list_ascii_of_string (FormatInt z).
Proof.
  intros Hc Hm. unfold FormatInt. pose proof (read_Z_pretty z) as Hr. destruct z as [|p|p].
  - apply not_elem_of_cons. split; [intros ->; by vm_compute in Hc|by apply not_elem_of_nil].
  - change (pretty (Z.pos p)) with (pretty (N.pos p)). pose proof (read_N_pretty (N.pos p)) as Hn. unfold read_N in Hn.
    destruct (pretty (N.pos p)) as [|a s] eqn:E; [done|]. by apply (digits_chars 0 _ (N.pos p)).
  - change (pretty (Z.neg p)) with (String "-" (pretty (N.pos p))). cbn [String.list_ascii_of_string]. apply not_elem_of_cons. split; [done|].
    pose proof (read_N_pretty (N.pos p)) as Hn. unfold read_N in Hn.
    destruct (pretty (N.pos p)) as [|a s] eqn:E; [done|]. by apply (digits_chars 0 _ (N.pos p)).
Qed.

Lemma list_ascii_cat x y : String.list_ascii_of_string (x +:+ y) = String.list_ascii_of_string x ++ String.list_ascii_of_string y.
Proof. induction x as [|c x IH]; [done|]. change (String c x +:+ y) with (String c (x +:+ y)). cbn [String.list_ascii_of_string app]. by rewrite IH. Qed.

Lemma float_text_chars x : f_finite x = true -> "]"%char ∉ String.list_ascii_of_string (float_text x).
Proof.
  intros Hx. destruct x as [[]|s| |s m e]; try done; [cbn; apply not_elem_of_cons; (split; [done|apply not_elem_of_nil])..|].
  unfold float_text. rewrite !list_ascii_cat, !not_elem_of_app. split_and!; [destruct s; apply not_elem_of_cons; by split; [|apply not_elem_of_nil]
    | by apply FormatInt_chars | apply not_elem_of_cons; by split; [|apply not_elem_of_nil] | by apply FormatInt_chars].
Qed.

#[export] Instance plain_text_laws : GoTextLaws.
Proof.
  split; [by intros ?? x Hx; apply float_text_chars|].
  intros bits x Hx. simpl. destruct x as [[]|s| |s m e]; try done.
  unfold float_text, float_of_text.
  destruct s; match goal with |- context [ (?a +:+ FormatInt ?m +:+ ?b) ] =>
    change (a +:+ FormatInt m +:+ b) with (String (match a with String c _ => c | _ => "e"%char end) (FormatInt m +:+ b)) end; cbn iota beta.
  all: pose proof (cut_number m (FormatInt e)) as Hcut; destruct (FormatInt (Z.pos m) +:+ "e" +:+ FormatInt e) eqn:Hs;
    [by destruct (FormatInt (Z.pos m))|]; rewrite Hcut; unfold FormatInt; rewrite !read_Z_pretty; done.
Qed.

Example float32_bits :
  map (fun x => Float32bits (to_float32 x)) [f_zero; S754_finite false 1 0; S754_finite true 3 (-1); S754_finite false 1 (-149); S754_finite false 1 128; S754_finite false 1 (-160)] =
    [0; 1065353216; 3217031168; 1; 2139095040; 0]%N.
Proof. vm_compute. done. Qed.
