(* ===== verification/RedisSchema.v ===== *)
(** Struct schemas of the Redis memory store (agent/memory/redis/store.go): parsing of the db tags, the RediSearch
    index made from a schema and the check of an existing one, and the encoding of a struct value into the fields
    of a hash with its inverse. *)
From Stdlib Require Import Ascii.
From S2P Require Import Prelude Errors Ranking Chunks Decimal SemanticMemory TextScrub GoStruct.
Local Open Scope Z_scope.

(** * Schemas *)

(* agent/memory/redis/store.go:113-119: redisFieldType *)
Inductive redisFieldType := fieldTAG | fieldNUMERIC | fieldTEXT.
#[global] Instance redisFieldType_eq_dec : EqDecision redisFieldType.
Proof. solve_decision. Defined.

(* agent/memory/redis/store.go:122-131: redisFieldInfo *)
Record redisFieldInfo := mkInfo {
  FieldIndex : nat; HashField : string; FieldType : redisFieldType;
  IsJSONB : bool; NoInput : bool; IsPK : bool; IsIdent : bool; IsContent : bool }.
#[global] Instance eta_info : Settable redisFieldInfo := fun i =>
  mkInfo (FieldIndex i) (HashField i) (FieldType i) (IsJSONB i) (NoInput i) (IsPK i) (IsIdent i) (IsContent i).

(** The positions of the roles are positions in [Fields]. *)
(* agent/memory/redis/store.go:134-139: redisSchema *)
Record redisSchema := mkSchema { Fields : list redisFieldInfo; PKIdx : option nat; IdentifierIdx : option nat; ContentIdx : option nat }.

Definition redis_error {A} (msg : string) : res A := Err (ENew ("redis: " +:+ msg)).

(** strings.TrimSpace *)
Definition trim (s : string) : string := String.string_of_list_ascii (TrimSpace (String.list_ascii_of_string s)).

(* agent/memory/redis/store.go:668-684: inferRedisFieldType *)
Fixpoint inferRedisFieldType (t : GoTyp) : redisFieldType :=
  match t with
  | TPtr t => inferRedisFieldType t
  | TInt _ | TUint _ | TFloat _ | TTime => fieldNUMERIC
  | _ => fieldTAG
  end.

(* agent/memory/redis/store.go: validateRedisFieldKind *)
Definition validateRedisFieldKind (field : Field) (info : redisFieldInfo) : res unit :=
  let t := fd_type field in
  if (IsIdent info || IsContent info) && negb (bool_decide (t = TString)) then redis_error "must be a string"
  else if IsJSONB info then Ok tt
  else if bool_decide (t = TTime) then
    if bool_decide (FieldType info <> fieldNUMERIC) then redis_error "must be a numeric field" else Ok tt
  else match t with
       | TInt _ | TUint _ | TFloat _ => Ok tt
       | TString | TBool => if bool_decide (FieldType info = fieldNUMERIC) then redis_error "cannot be a numeric field" else Ok tt
       | _ => redis_error "is not supported; use a scalar type or add jsonb"
       end.

(** One modifier of a tag: the info so far, the roles and the storage modifiers. *)
(* agent/memory/redis/store.go:573-593: modifiers of parseRedisFieldTag *)
Definition field_modifier (st : redisFieldInfo * list string * list string) (raw : string) : redisFieldInfo * list string * list string :=
  let '(info, roles, storage) := st in
  let m := trim raw in
  if bool_decide (m = "pk") then (info <| IsPK := true |>, roles ++ [m], storage)
  else if bool_decide (m = "identifier") then (info <| IsIdent := true |>, roles ++ [m], storage)
  else if bool_decide (m = "content") then (info <| IsContent := true |>, roles ++ [m], storage)
  else if bool_decide (m = "jsonb") then (info <| IsJSONB := true |>, roles, storage ++ [m])
  else if bool_decide (m = "tag" \/ m = "numeric") then (info, roles, storage ++ [m])
  else if bool_decide (m = "noinput") then (info <| NoInput := true |>, roles, storage)
  else st.

(* agent/memory/redis/store.go:610-621: field type in parseRedisFieldTag *)
Definition storage_type (field : Field) (info : redisFieldInfo) (storage : list string) : redisFieldType :=
  if IsContent info || IsJSONB info then fieldTEXT
  else if IsIdent info then fieldTAG
  else if bool_decide (storage = ["tag"]) then fieldTAG
  else if bool_decide (storage = ["numeric"]) then fieldNUMERIC
  else inferRedisFieldType (fd_type field).

(* agent/memory/redis/store.go: parseRedisFieldTag *)
Definition parseRedisFieldTag (field : Field) (index : nat) (hashField : string) (modifiers : list string) : res redisFieldInfo :=
  let '(info, roles, storage) := foldl field_modifier (mkInfo index hashField fieldTAG false false false false false, [], []) modifiers in
  if bool_decide (1 < length roles)%nat then redis_error "conflicting roles"
  else if bool_decide (1 < length storage)%nat then redis_error "conflicting storage modifiers"
  else if bool_decide (length roles = 1)%nat && IsJSONB info then redis_error "field cannot be jsonb"
  else if IsContent info && bool_decide (length storage = 1)%nat then redis_error "content field cannot have a storage modifier"
  else if IsIdent info && bool_decide (length storage = 1)%nat && negb (bool_decide (storage = ["tag"])) then redis_error "identifier field cannot be numeric"
  else
    let info := info <| FieldType := storage_type field info storage |> in
    let info := if IsPK info || IsIdent info then info <| NoInput := true |> else info in
    letr _ := validateRedisFieldKind field info in Ok info.

(** Take a role for the field at [idx] unless it is taken. *)
(* agent/memory/redis/store.go:536-544: roles in parseRedisSchemaType *)
Definition take_role (set : bool) (idx : nat) (slot : option nat) : res (option nat) :=
  if negb set then Ok slot
  else match slot with Some _ => redis_error "only one field may have a role" | None => Ok (Some idx) end.

(** The hash field and the modifiers of a tag; none when the field is not stored. *)
(* agent/memory/redis/store.go:506-519: db tag in parseRedisSchemaType *)
Definition stored_tag (f : Field) : option (string * list string) :=
  if negb (fd_exported f) || bool_decide (fd_db f = "") || bool_decide (fd_db f = "-") then None
  else match split_comma (fd_db f) with
       | [] => None
       | name :: modifiers => if bool_decide (name = "") then None else Some (name, modifiers)
       end.

(* agent/memory/redis/store.go:504-547: fields of parseRedisSchemaType *)
Fixpoint schema_fields (i : nat) (fs : list Field) (s : redisSchema) : res redisSchema :=
  match fs with
  | [] => Ok s
  | f :: fs =>
      match stored_tag f with
      | None => schema_fields (S i) fs s
      | Some (name, modifiers) =>
          letr info := parseRedisFieldTag f i name modifiers in
          let idx := length (Fields s) in
          letr pk := take_role (IsPK info) idx (PKIdx s) in
          letr ident := take_role (IsIdent info) idx (IdentifierIdx s) in
          letr content := take_role (IsContent info) idx (ContentIdx s) in
          schema_fields (S i) fs (mkSchema (Fields s ++ [info]) pk ident content)
      end
  end.

(* agent/memory/redis/store.go: parseRedisSchemaType *)
Definition parseRedisSchemaType (t : RType) : res redisSchema :=
  match t with
  | RPointer => redis_error "T must be a non-pointer struct"
  | RNotStruct => redis_error "T must be a struct"
  | RStruct fs =>
      letr s := schema_fields 0 fs (mkSchema [] None None None) in
      match IdentifierIdx s, ContentIdx s with
      | None, _ => redis_error "struct must have an identifier field"
      | _, None => redis_error "struct must have a content field"
      | Some _, Some _ => Ok s
      end
  end.

(** * Replies of the server

    A reply as go-redis gives it in an [any]; the entries of a map in the order in which a range visits them. *)
Inductive Reply : Type :=
| RNil | RStr (s : string) | RBytes (s : string) | RInt (z : Z) | RInt64 (z : Z) | RUint64 (n : N) | RFloat (x : Ranking.float) | RBool (b : bool)
| RList (xs : list Reply) | RStrs (xs : list string)
| RMapStr (m : list (string * Reply)) | RMapAny (m : list (Reply * Reply)).

Section Replies.
Context `{GoText}.

(** fmt.Sprint of a value that is no string. *)
Definition sprint_reply (v : Reply) : string :=
  match v with
  | RInt z | RInt64 z => FormatInt z | RUint64 n => FormatUint n | RBool b => FormatBool b
  | RFloat x => show_float 64 x | _ => show_other ""
  end.

(* agent/memory/redis/store.go: redisInfoString *)
Definition redisInfoString (v : Reply) : string :=
  match v with RStr s | RBytes s => s | RNil => "" | _ => sprint_reply v end.

(** The pairs of a flat list. *)
Fixpoint info_pairs (key : string) (xs : list Reply) : Reply :=
  match xs with
  | k :: v :: xs => if EqualFold (redisInfoString k) key then v else info_pairs key xs
  | _ => RNil
  end.

(* agent/memory/redis/store.go: redisInfoField *)
Definition redisInfoField (v : Reply) (key : string) : Reply :=
  match v with
  | RMapStr m => from_option snd RNil (List.find (fun p => EqualFold p.1 key) m)
  | RMapAny m => from_option snd RNil (List.find (fun p => EqualFold (redisInfoString p.1) key) m)
  | RList xs => info_pairs key xs
  | _ => RNil
  end.

(* agent/memory/redis/store.go: redisInfoList *)
Definition redisInfoList (v : Reply) : option (list Reply) :=
  match v with RList xs => Some xs | RStrs xs => Some (map RStr xs) | _ => None end.

(* agent/memory/redis/store.go: redisInfoStrings *)
Definition redisInfoStrings (v : Reply) : list string :=
  match redisInfoList v with
  | Some xs => map redisInfoString xs
  | None => match v with RNil => [] | _ => [redisInfoString v] end
  end.

(* agent/memory/redis/store.go: redisAttribute *)
Fixpoint redisAttribute (attributes : list Reply) (name : string) : Reply :=
  match attributes with
  | [] => RNil
  | a :: attributes =>
      let n := redisInfoString (redisInfoField a "attribute") in
      let n := if bool_decide (n = "") then redisInfoString (redisInfoField a "identifier") else n in
      if bool_decide (n = name) then a else redisAttribute attributes name
  end.

(* agent/memory/redis/store.go: redisFieldTypeName *)
Definition redisFieldTypeName (t : redisFieldType) : string :=
  match t with fieldTAG => "TAG" | fieldNUMERIC => "NUMERIC" | fieldTEXT => "TEXT" end.

Definition is_nil_reply (v : Reply) : bool := match v with RNil => true | _ => false end.
Definition incompatible {A} (msg : string) : res A := redis_error ("existing index is incompatible: " +:+ msg).

(** The text under a key is this name in upper case. *)
Definition info_is (v : Reply) (key name : string) : bool := upper_is (redisInfoString (redisInfoField v key)) name.

(* agent/memory/redis/store.go:722-731: fields in validateExistingIndex *)
Fixpoint check_attributes (attributes : list Reply) (fs : list redisFieldInfo) : res unit :=
  match fs with
  | [] => Ok tt
  | f :: fs =>
      let a := redisAttribute attributes (HashField f) in
      if is_nil_reply a then incompatible "field is missing"
      else if negb (info_is a "type" (redisFieldTypeName (FieldType f))) then incompatible "field type"
      else check_attributes attributes fs
  end.

(* agent/memory/redis/store.go: validateExistingIndex *)
Definition validateExistingIndex (info : Reply) (keyPrefix : string) (schema : redisSchema) (dim : Z) : res unit :=
  let definition := redisInfoField info "index_definition" in
  if negb (info_is definition "key_type" "HASH") then incompatible "key type"
  else if negb (bool_decide (redisInfoStrings (redisInfoField definition "prefixes") = [keyPrefix])) then incompatible "prefixes"
  else match redisInfoList (redisInfoField info "attributes") with
  | None => incompatible "attributes are missing"
  | Some attributes =>
      letr _ := check_attributes attributes (Fields schema) in
      let embedding := redisAttribute attributes "embedding" in
      if is_nil_reply embedding then incompatible "embedding vector field is missing"
      else if negb (info_is embedding "type" "VECTOR") then incompatible "embedding type"
      else if negb (info_is embedding "algorithm" "HNSW") then incompatible "embedding algorithm"
      else if negb (info_is embedding "data_type" "FLOAT32") then incompatible "embedding data type"
      else if negb (info_is embedding "distance_metric" "COSINE") then incompatible "embedding distance metric"
      else match ParseInt (redisInfoString (redisInfoField embedding "dim")) with
           | Ok d => if bool_decide (d = dim) then Ok tt else incompatible "embedding DIM"
           | Err _ => incompatible "embedding DIM"
           end
  end.

(** The arguments of FT.CREATE for one field. *)
(* agent/memory/redis/store.go:855-864: fields in buildFTCreate *)
Definition create_field (f : redisFieldInfo) : list string :=
  match FieldType f with
  | fieldTAG => [HashField f; "TAG"]
  | fieldNUMERIC => [HashField f; "NUMERIC"; "SORTABLE"]
  | fieldTEXT => [HashField f; "TEXT"]
  end.

(* agent/memory/redis/store.go: buildFTCreate *)
Definition buildFTCreate (indexName keyPrefix : string) (hnswM hnswEF : Z) (schema : redisSchema) (dim : Z) : list string :=
  ["FT.CREATE"; indexName; "ON"; "HASH"; "PREFIX"; "1"; keyPrefix; "SCHEMA"] ++ concat (map create_field (Fields schema)) ++
  ["embedding"; "VECTOR"; "HNSW"; "10"; "TYPE"; "FLOAT32"; "DIM"; FormatInt dim; "DISTANCE_METRIC"; "COSINE";
   "M"; FormatInt hnswM; "EF_CONSTRUCTION"; FormatInt hnswEF].

(* agent/memory/redis/store.go: redisScalarString *)
Definition redisScalarString (v : Reply) : option string :=
  match v with
  | RStr s | RBytes s => Some s
  | RInt64 z => Some (FormatInt z)
  | RFloat x => Some (FormatFloat "f" 64 x)
  | _ => None
  end.

End Replies.

(** * Values in hashes *)

(** json.Marshal and json.Unmarshal of a field of this type. *)
Class FieldJSON := { json_Marshal : GoTyp -> GoVal -> option string; json_Unmarshal : GoTyp -> string -> option GoVal }.

Section Values.
Context `{GoText} `{FieldJSON}.

(** A struct type has its fields, a struct value their values in the same order. *)
Definition value_at (value : list GoVal) (f : redisFieldInfo) : GoVal := nth (FieldIndex f) value (VOther "").
Definition no_field : Field := mkField "" false TOther None "" "" "" "" "".
Definition field_at (fs : list Field) (f : redisFieldInfo) : Field := nth (FieldIndex f) fs no_field.

(* agent/memory/redis/store.go:944-970: one field of buildHashFields *)
Definition encode_field (fd : Field) (f : redisFieldInfo) (v : GoVal) : res string :=
  if IsJSONB f then
    match json_Marshal (fd_type fd) v with Some data => Ok data | None => redis_error "encode field" end
  else match v with
  | VTime unix _ _ => Ok (FormatInt unix)
  | VFloat x => if f_finite x then Ok (FormatFloat "f" (match fd_type fd with TFloat b => b | _ => 64 end) x) else redis_error "value must be finite"
  | VInt z => Ok (FormatInt z)
  | VUint n => Ok (FormatUint n)
  | _ => Ok (show_field fd v)
  end.

(* agent/memory/redis/store.go: Store.buildHashFields *)
Definition buildHashFields (fs : list Field) (schema : redisSchema) (value : list GoVal) : res (gmap string string) :=
  foldl (fun acc f => letr m := acc in letr s := encode_field (field_at fs f) f (value_at value f) in Ok (<[HashField f := s]> m))
    (Ok ∅) (Fields schema).

(* agent/memory/redis/store.go: decodeRedisField *)
Definition decodeRedisField (fd : Field) (f : redisFieldInfo) (raw : Reply) : option GoVal :=
  s ← redisScalarString raw;
  if IsJSONB f then json_Unmarshal (fd_type fd) s
  else match fd_type fd with
  | TTime => epoch ← ParseInt_bits 64 s; Some (VTime epoch 0 "Local")
  | TString => Some (VString s)
  | TBool => b ← ParseBool s; Some (VBool b)
  | TInt bits => n ← ParseInt_bits bits s; Some (VInt n)
  | TUint bits => n ← ParseUint_bits bits s; Some (VUint n)
  | TFloat bits => x ← ParseFloat bits s; if f_finite x then Some (VFloat x) else None
  | TPtr _ | TOther => None
  end.

(** The fields that are present, decoded into a value that starts as zero. *)
(* agent/memory/redis/store.go:1378-1386: fields in scanEntry *)
Fixpoint scan_fields (fs : list Field) (infos : list redisFieldInfo) (attrs : gmap string Reply) (value : list GoVal) : option (list GoVal) :=
  match infos with
  | [] => Some value
  | f :: infos =>
      match attrs !! HashField f with
      | None => scan_fields fs infos attrs value
      | Some raw => v ← decodeRedisField (field_at fs f) f raw; scan_fields fs infos attrs (<[FieldIndex f := v]> value)
      end
  end.

Definition zero_value (fs : list Field) : list GoVal := map (fun f => zero_val (fd_type f)) fs.

(** float64sToFloat32Bytes: four bytes a number, the lowest first. *)
Definition le32 (n : N) : string :=
  String (ascii_of_N (n mod 256)) (String (ascii_of_N (n / 256 mod 256)) (String (ascii_of_N (n / 65536 mod 256)) (String (ascii_of_N (n / 16777216 mod 256)) ""))).
(* agent/memory/redis/store.go: float64sToFloat32Bytes *)
Definition float64sToFloat32Bytes (v : list Ranking.float) : string := foldr (fun x s => le32 (Float32bits (to_float32 x)) +:+ s) "" v.

(* agent/memory/redis/store.go: Store.validateEmbedding *)
Definition validateEmbedding (dim : Z) (embedding : list Ranking.float) : res unit :=
  if bool_decide (Z.of_nat (length embedding) <> dim) then redis_error "embedding dimension"
  else if forallb f_finite embedding then Ok tt else redis_error "embedding value must be finite".

End Values.
