(* ===== verification/RedisQuery.v ===== *)
(** Recall queries of the Redis memory store (agent/memory/redis/store.go): escaping of tag values and field names,
    filter clauses, the order clause and the checks of a query. *)
From Stdlib Require Import Ascii.
From S2P Require Import Prelude Errors Ranking Chunks Decimal SemanticMemory GoStruct RedisSchema.
Local Open Scope Z_scope.

(** unicode.IsLetter and unicode.IsDigit. *)
Class UnicodeTables := { IsLetter : N -> bool; IsDigit : N -> bool }.

(** In ASCII the letters are A to Z and a to z and the digits 0 to 9. *)
Class UnicodeLaws `{UnicodeTables} := {
  IsLetter_ascii : forall r, (r < 128)%N -> IsLetter r = between 65 r 90 || between 97 r 122;
  IsDigit_ascii : forall r, (r < 128)%N -> IsDigit r = between 48 r 57 }.

(** The value of a filter: none, a scalar, or a slice or array. *)
Inductive FilterValue := FNone | FOne (v : GoVal) (bits : Z) | FMany (vs : list (option (GoVal * Z))).

(* agent/memory/memory.go:51-55: Filter *)
Record RFilter := mkFilter { rf_Field : string; rf_Operator : string; rf_Value : FilterValue }.
(* agent/memory/memory.go:79-85: RecallQuery *)
Record RQuery := mkQuery {
  q_Text : string; q_Limit : Z; q_MinSimilarity : Ranking.float; q_Filters : list RFilter; q_Order : list Order }.

Section Query.
Context `{GoText} `{UnicodeTables}.

Definition plain_rune (r : N) : bool := IsLetter r || IsDigit r || (r =? 95)%N.
Definition backslash : ascii := ascii_of_nat 92.

Fixpoint escape_runes (rs : list N) : string :=
  match rs with
  | [] => ""
  | r :: rs => (if plain_rune r then "" else String backslash "") +:+ encode_rune r +:+ escape_runes rs
  end.

(* agent/memory/redis/store.go: escapeTag *)
Definition escapeTag (value : string) : string := escape_runes (runes value).
(* agent/memory/redis/store.go: escapeQueryField *)
Definition escapeQueryField (value : string) : string := escapeTag value.

Fixpoint join (sep : string) (xs : list string) : string :=
  match xs with [] => "" | [x] => x | x :: xs => x +:+ sep +:+ join sep xs end.

(* agent/memory/redis/store.go: tagLiteral *)
Definition tagLiteral (value : option (GoVal * Z)) : res string :=
  match value with Some (VString s, _) => Ok (escapeTag s) | _ => Err (ENew "TAG value must be a string") end.

(* agent/memory/redis/store.go: numericLiteral *)
Definition numericLiteral (value : option (GoVal * Z)) : res string :=
  match value with
  | Some (VTime unix _ _, _) => Ok (FormatInt unix)
  | None => Err (ENew "NUMERIC value must not be nil")
  | Some (VInt z, _) => Ok (FormatInt z)
  | Some (VUint n, _) => Ok (FormatUint n)
  | Some (VFloat x, bits) => if f_finite x then Ok (FormatFloat "g" bits x) else Err (ENew "NUMERIC value must be finite")
  | Some _ => Err (ENew "NUMERIC value must be a number or time.Time")
  end.

Fixpoint encode_all (encode : option (GoVal * Z) -> res string) (vs : list (option (GoVal * Z))) : res (list string) :=
  match vs with
  | [] => Ok []
  | v :: vs => match encode v with Err e => Err (EWrap "IN value" e) | Ok s => letr rest := encode_all encode vs in Ok (s :: rest) end
  end.

(* agent/memory/redis/store.go: filterValues *)
Definition filterValues (value : FilterValue) (encode : option (GoVal * Z) -> res string) : res (list string) :=
  match value with
  | FMany ((_ :: _) as vs) => encode_all encode vs
  | _ => Err (ENew "IN requires a non-empty slice or array")
  end.

Definition scalar_of (value : FilterValue) : option (GoVal * Z) :=
  match value with FNone => None | FOne v bits => Some (v, bits) | FMany _ => Some (VOther "", 0) end.

(* agent/memory/redis/store.go: compileTagFilter *)
Definition compileTagFilter (field operator : string) (value : FilterValue) : res string :=
  let field := escapeQueryField field in
  if bool_decide (operator = "eq" \/ operator = "ne") then
    letr literal := tagLiteral (scalar_of value) in
    Ok ((if bool_decide (operator = "ne") then "-" else "") +:+ "@" +:+ field +:+ ":{" +:+ literal +:+ "}")
  else if bool_decide (operator = "in") then
    letr values := filterValues value tagLiteral in Ok ("@" +:+ field +:+ ":{" +:+ join "|" values +:+ "}")
  else Err (ENew "operator is not supported for TAG fields").

Definition num_clause (field low high : string) : string := "@" +:+ field +:+ ":[" +:+ low +:+ " " +:+ high +:+ "]".

(* agent/memory/redis/store.go: compileNumericFilter *)
Definition compileNumericFilter (field operator : string) (value : FilterValue) : res string :=
  let field := escapeQueryField field in
  if bool_decide (operator = "in") then
    letr values := filterValues value numericLiteral in
    Ok ("(" +:+ join "|" (map (fun l => num_clause field l l) values) +:+ ")")
  else
    letr literal := numericLiteral (scalar_of value) in
    if bool_decide (operator = "eq") then Ok (num_clause field literal literal)
    else if bool_decide (operator = "ne") then Ok ("-" +:+ num_clause field literal literal)
    else if bool_decide (operator = "gt") then Ok (num_clause field ("(" +:+ literal) "+inf")
    else if bool_decide (operator = "gte") then Ok (num_clause field literal "+inf")
    else if bool_decide (operator = "lt") then Ok (num_clause field "-inf" ("(" +:+ literal))
    else if bool_decide (operator = "lte") then Ok (num_clause field "-inf" literal)
    else Err (ENew "operator is not supported for NUMERIC fields").

Context (schema : redisSchema).

(* agent/memory/redis/store.go: Store.schemaField *)
Definition schemaField (name : string) : option redisFieldInfo :=
  List.find (fun f => bool_decide (HashField f = name)) (Fields schema).

(** The hash field of the identifier; the parsed schema has one. *)
Definition identField : string := from_option HashField "" (IdentifierIdx schema ≫= fun i => Fields schema !! i).

(* agent/memory/redis/store.go: Store.compileFilter *)
Definition compileFilter (f : RFilter) : res string :=
  match schemaField (rf_Field f) with
  | None => Err (EWrap "unknown field" ErrUnsupportedFilter)
  | Some field =>
      match (match FieldType field with
             | fieldTAG => compileTagFilter (HashField field) (rf_Operator f) (rf_Value f)
             | fieldNUMERIC => compileNumericFilter (HashField field) (rf_Operator f) (rf_Value f)
             | fieldTEXT => Err (ENew "field type cannot be filtered")
             end) with
      | Ok clause => Ok clause
      | Err _ => Err (EWrap "field" ErrUnsupportedFilter)
      end
  end.

(* agent/memory/redis/store.go:996-1002: clauses of buildRecallFilter *)
Fixpoint compile_filters (filters : list RFilter) : res (list string) :=
  match filters with
  | [] => Ok []
  | f :: filters => letr clause := compileFilter f in letr rest := compile_filters filters in Ok (("(" +:+ clause +:+ ")") :: rest)
  end.

Definition ident_clause (identifier : string) : string := "@" +:+ escapeQueryField identField +:+ ":{" +:+ escapeTag identifier +:+ "}".

(* agent/memory/redis/store.go: Store.buildRecallFilter *)
Definition buildRecallFilter (identifier : string) (filters : list RFilter) : res string :=
  letr parts := compile_filters filters in Ok (join " " (("(" +:+ ident_clause identifier +:+ ")") :: parts)).

(* agent/memory/redis/store.go:988-991: compiledOrder *)
Record compiledOrder := mkCompiled { co_field : string; co_direction : string }.

(* agent/memory/redis/store.go: Store.compileOrder *)
Definition compileOrder (orders : list Order) : res (option compiledOrder) :=
  match orders with
  | [] => Ok None
  | [order] =>
      match schemaField (od_Field order) with
      | None => Err (EWrap "unknown field" ErrUnsupportedOrder)
      | Some field =>
          if bool_decide (FieldType field <> fieldNUMERIC) then Err (EWrap "field is not sortable" ErrUnsupportedOrder)
          else if bool_decide (od_Direction order = "asc") then Ok (Some (mkCompiled (HashField field) "ASC"))
          else if bool_decide (od_Direction order = "desc") then Ok (Some (mkCompiled (HashField field) "DESC"))
          else Err (EWrap "direction" ErrUnsupportedOrder)
      end
  | _ => Err (EWrap "Redis supports one order clause" ErrUnsupportedOrder)
  end.

(* agent/memory/redis/store.go: validateRecallQuery *)
Definition validateRecallQuery (q : RQuery) : res unit :=
  if bool_decide (q_Text q = "") then Err (EWrap "text must not be empty" ErrInvalidRecallQuery)
  else if bool_decide (q_Limit q < 0) then Err (EWrap "limit must not be negative" ErrInvalidRecallQuery)
  else if negb (f_is_zero (q_MinSimilarity q)) &&
          (negb (f_finite (q_MinSimilarity q)) || f_ge f_zero (q_MinSimilarity q) || f_gt (q_MinSimilarity q) f_unit)
  then Err (EWrap "minimum similarity must be in (0, 1]" ErrInvalidRecallQuery)
  else Ok tt.

End Query.
