(* ===== verification/RedisMemory.v ===== *)
(** The Redis memory store (agent/memory/redis/store.go): its keys, Remember, Recall, Update, Forget and ForgetAll as
    requests to the server, the decoding of search replies, and its tools (tools.go). *)
From Stdlib Require Import Ascii SpecFloat.
From S2P Require Import Prelude Errors Messages Execution Schema Tool Ranking Decimal.
From S2P Require Import SemanticMemory SqlConversation ExecutionBackends RedisServer RedisRate Base64 RedisConversation.
From S2P Require Import Chunks GoStruct RedisSchema RedisQuery.
Local Open Scope Z_scope.

(** The commands of RediSearch, answered by the server; a search changes nothing. *)
Class RediSearch := { FT : list string -> LM Reply }.
Class RediSearchLaws `{RediSearch} := {
  FT_SEARCH_reads : forall args now d, (FT ("FT.SEARCH" :: args) now d).2 = d }.

(* agent/memory/redis/store.go:57-63: storeConfig *)
Record storeConfig := mkStoreConfig { sc_indexName : string; sc_keyPrefix : string; sc_hnswM : Z; sc_hnswEF : Z; sc_dropExisting : bool }.

(** [namespace] is the hash of the package and the name of the type. *)
(* agent/memory/redis/store.go: defaultStoreConfig *)
Definition defaultStoreConfig (namespace : string) : storeConfig :=
  mkStoreConfig ("gude_typed_idx_" +:+ namespace) ("gude:typed:" +:+ namespace +:+ ":") 16 200 false.

(* agent/memory/redis/store.go: WithIndexName *)
Definition WithIndexName (name : string) (c : storeConfig) : storeConfig :=
  if bool_decide (name <> "") then mkStoreConfig name (sc_keyPrefix c) (sc_hnswM c) (sc_hnswEF c) (sc_dropExisting c) else c.

(* agent/memory/redis/store.go: WithKeyPrefix *)
Definition WithKeyPrefix (prefix : string) (c : storeConfig) : storeConfig :=
  if bool_decide (prefix <> "") then mkStoreConfig (sc_indexName c) prefix (sc_hnswM c) (sc_hnswEF c) (sc_dropExisting c) else c.

(* agent/memory/redis/store.go: WithDropExisting *)
Definition WithDropExisting (c : storeConfig) : storeConfig :=
  mkStoreConfig (sc_indexName c) (sc_keyPrefix c) (sc_hnswM c) (sc_hnswEF c) true.

(** The store with the struct type it is made for. *)
(* agent/memory/redis/store.go:30-41: Store *)
Record RStore := mkRStore {
  rs_indexName : string; rs_keyPrefix : string; rs_dim : Z; rs_schema : redisSchema; rs_fields : list Field }.

Section Memory.
Context `{RedisServer} `{RediSearch} `{GoText} `{FieldJSON} `{UnicodeTables}.
Context {E : Type} (embed : string -> E -> res (list Ranking.float) * E) (new_uuid : E -> res string * E).

(** * Calls

    The requests to the server in sequence, and the embedder and the random source. *)
Record mworld := mkMworld { mw_redis : rworld; mw_ext : E }.
Definition MM (A : Type) : Type := mworld -> res A * mworld.
Definition m_ret {A} (r : res A) : MM A := fun w => (r, w).
Definition m_bind {A B} (m : MM A) (k : A -> MM B) : MM B := fun w =>
  match m w with (Ok a, w) => k a w | (Err e, w) => (Err e, w) end.
Local Notation "'let+' x := m 'in' k" := (m_bind m (fun x => k)) (at level 10, x binder, m at level 100, k at level 200).
Definition m_wrap {A} (msg : string) (m : MM A) : MM A := fun w =>
  let '(r, w) := m w in (match r with Ok a => Ok a | Err e => Err (EWrap msg e) end, w).
Definition send {A} (f : LM A) : MM A := fun w => let '(r, rw) := rc_send f (mw_redis w) in (r, mkMworld rw (mw_ext w)).
Definition m_embed (text : string) : MM (list Ranking.float) := fun w =>
  let '(r, e) := embed text (mw_ext w) in (r, mkMworld (mw_redis w) e).
Definition m_uuid : MM string := fun w => let '(r, e) := new_uuid (mw_ext w) in (r, mkMworld (mw_redis w) e).

(** * Construction *)

Definition index_exists (e : error) : bool :=
  match e with ENew msg => lower_contains msg "index already exists" | _ => false end.

(* agent/memory/redis/store.go: createOrValidateIndex *)
Definition createOrValidateIndex (cfg : storeConfig) (schema : redisSchema) (dim : Z) : MM unit := fun w =>
  match send (FT (buildFTCreate (sc_indexName cfg) (sc_keyPrefix cfg) (sc_hnswM cfg) (sc_hnswEF cfg) schema dim)) w with
  | (Ok _, w) => (Ok tt, w)
  | (Err e, w) =>
      if negb (index_exists e) then (Err (EWrap "redis: create index" e), w)
      else
        match send (FT ["FT.INFO"; sc_indexName cfg]) w with
        | (Err e, w) => (Err (EWrap "redis: inspect existing index" e), w)
        | (Ok info, w) => (validateExistingIndex info (sc_keyPrefix cfg) schema dim, w)
        end
  end.

(** The client is made without a request; [ping] is the answer to its first. *)
(* agent/memory/redis/store.go: NewStore *)
Definition NewStore (embedder_set : bool) (t : RType) (namespace : string) (dim : Z) (ping : option error)
  (sopts : list (storeConfig -> storeConfig)) : MM RStore := fun w =>
  if negb embedder_set then (redis_error "embedder is required", w)
  else if bool_decide (dim < 1) then (redis_error "dim must be at least 1", w)
  else
    let cfg := foldl (fun c o => o c) (defaultStoreConfig namespace) sopts in
    match parseRedisSchemaType t with
    | Err e => (Err e, w)
    | Ok schema =>
        match ping with
        | Some e => (Err (EWrap "redis: ping" e), w)
        | None =>
            let w := if sc_dropExisting cfg then (send (FT ["FT.DROPINDEX"; sc_indexName cfg; "DD"]) w).2 else w in
            match createOrValidateIndex cfg schema dim w with
            | (Err e, w) => (Err e, w)
            | (Ok _, w) => (Ok (mkRStore (sc_indexName cfg) (sc_keyPrefix cfg) dim schema (match t with RStruct fs => fs | _ => [] end)), w)
            end
        end
    end.

Context (s : RStore).

(** * Values *)

Definition field_of_role (i : option nat) : option redisFieldInfo := i ≫= fun i => Fields (rs_schema s) !! i.

(* agent/memory/redis/store.go: setRedisIdentifier *)
Definition setRedisIdentifier (value : list GoVal) (id : string) : list GoVal :=
  match field_of_role (IdentifierIdx (rs_schema s)) with
  | Some f => if bool_decide (fd_type (field_at (rs_fields s) f) = TString) then <[FieldIndex f := VString id]> value else value
  | None => value
  end.

(* agent/memory/redis/store.go: Store.extractContent *)
Definition extractContent (value : list GoVal) : string :=
  match field_of_role (ContentIdx (rs_schema s)) with
  | Some f => show_field (field_at (rs_fields s) f) (value_at value f)
  | None => ""
  end.

(* agent/memory/redis/store.go: Store.extractPK *)
Definition extractPK (value : list GoVal) : MM string :=
  let pk := match field_of_role (PKIdx (rs_schema s)) with
            | Some f => show_field (field_at (rs_fields s) f) (value_at value f) | None => "" end in
  if bool_decide (pk <> "") then m_ret (Ok pk) else m_wrap "redis: generate primary key" m_uuid.

(* agent/memory/redis/store.go: Store.entryKey *)
Definition entryKey (identifier pk : string) : string :=
  rs_keyPrefix s +:+ "id:" +:+ RawURL_Encode identifier +:+ ":" +:+ pk.

(** The hash of a value: the encoded fields and the embedding. *)
(* agent/memory/redis/store.go:222-227: hash of Remember *)
Definition hash_fields (value : list GoVal) (embedding : list Ranking.float) : res (gmap string string) :=
  letr fields := buildHashFields (rs_fields s) (rs_schema s) value in
  Ok (<["embedding" := float64sToFloat32Bytes embedding]> fields).

(** * Writing *)

(** Embed the content and check the vector. *)
(* agent/memory/redis/store.go:207-220: embedding in Remember *)
Definition embed_content (content : string) : MM (list Ranking.float) :=
  if bool_decide (content = "") then m_ret (redis_error "content field is empty")
  else
    let+ embedding := m_wrap "redis: embed" (m_embed content) in
    let+ _ := m_ret (validateEmbedding (rs_dim s) embedding) in
    m_ret (Ok embedding).

Definition hset (key : string) (fields : gmap string string) : MM unit :=
  m_wrap "redis: hset" (send (lua_do (HSET key (map_to_list fields)))).

(* agent/memory/redis/store.go: Store.Remember *)
Definition Remember (identifier : string) (value : list GoVal) : MM unit :=
  if bool_decide (identifier = "") then m_ret (redis_error "identifier must not be empty")
  else
    let value := setRedisIdentifier value identifier in
    let+ embedding := embed_content (extractContent value) in
    let+ fields := m_ret (hash_fields value embedding) in
    let+ pk := extractPK value in
    hset (entryKey identifier pk) fields.

(* agent/memory/redis/store.go: Store.entryOwnedBy *)
Definition entryOwnedBy (identifier id : string) : MM bool :=
  let+ stored := m_wrap "redis: ownership check" (send (lua_read (HGET id (identField (rs_schema s))))) in
  m_ret (Ok (bool_decide (stored = Some identifier))).

(* agent/memory/redis/store.go: Store.Update *)
Definition Update (identifier id : string) (value : list GoVal) : MM unit :=
  if bool_decide (identifier = "") then m_ret (redis_error "identifier must not be empty")
  else if bool_decide (id = "") then m_ret (redis_error "id must not be empty")
  else
    let+ owned := entryOwnedBy identifier id in
    if negb owned then m_ret (redis_error "entry not found")
    else
      let value := setRedisIdentifier value identifier in
      let+ embedding := embed_content (extractContent value) in
      let+ fields := m_ret (hash_fields value embedding) in
      hset id fields.

Definition del (keys : list string) : LM unit := lua_do (fun d => foldl (fun d k => DEL k d) d keys).

(* agent/memory/redis/store.go: Store.Forget *)
Definition Forget (identifier id : string) : MM unit :=
  if bool_decide (identifier = "") then m_ret (redis_error "identifier must not be empty")
  else if bool_decide (id = "") then m_ret (redis_error "id must not be empty")
  else
    let+ owned := entryOwnedBy identifier id in
    if negb owned then m_ret (redis_error "entry not found")
    else m_wrap "redis: forget" (send (del [id])).

(** * Forgetting all *)

(* agent/memory/redis/store.go:370-373: forgetAllPageSize *)
Definition forgetAllPageSize : nat := 1000.
Definition forgetAllDeleteBatch : nat := 1000.

Definition reply_string (v : Reply) : option string := match v with RStr s => Some s | _ => None end.

(** m[k] for a string key of a map[any]any. *)
Definition any_key (m : list (Reply * Reply)) (k : string) : option Reply :=
  snd <$> List.find (fun p => match p.1 with RStr s => bool_decide (s = k) | _ => false end) m.

(* agent/memory/redis/store.go: extractTypedKeys *)
Definition extractTypedKeys (v : Reply) : list string :=
  match v with
  | RMapAny m =>
      match any_key m "results" with
      | Some (RList items) =>
          omap (fun item => match item with RMapAny entry => any_key entry "id" ≫= reply_string | _ => None end) items
      | _ => []
      end
  | RList (_ :: ((_ :: _) as keys)) => omap reply_string keys
  | _ => []
  end.

(** One unit of fuel is one page; [None] when it runs out. *)
(* agent/memory/redis/store.go: collectPagedKeys *)
Fixpoint collectPagedKeys (fuel pageSize : nat) (fetch : nat -> nat -> MM (list string)) (offset : nat) (keys : list string) :
  mworld -> option (res (list string) * mworld) := fun w =>
  match fuel with
  | O => None
  | S fuel =>
      match fetch offset pageSize w with
      | (Err e, w) => Some (Err e, w)
      | (Ok page, w) =>
          let keys := keys ++ page in
          if bool_decide (length page < pageSize)%nat then Some (Ok keys, w)
          else collectPagedKeys fuel pageSize fetch (offset + length page) keys w
      end
  end.

(* agent/memory/redis/store.go:383-393: page of ForgetAll *)
Definition fetch_page (query : string) (offset limit : nat) : MM (list string) :=
  let+ v := m_wrap "redis: forget all search"
    (send (FT ["FT.SEARCH"; rs_indexName s; query; "NOCONTENT"; "LIMIT"; FormatInt (Z.of_nat offset); FormatInt (Z.of_nat limit)])) in
  m_ret (Ok (extractTypedKeys v)).

(** Every round deletes a batch that is not empty, so that as many units of fuel as keys are enough. *)
(* agent/memory/redis/store.go:398-403: deletion of ForgetAll *)
Fixpoint delete_batches (fuel : nat) (keys : list string) : MM unit :=
  match fuel, keys with
  | S fuel, _ :: _ =>
      let+ _ := m_wrap "redis: forget all delete" (send (del (take forgetAllDeleteBatch keys))) in
      delete_batches fuel (drop forgetAllDeleteBatch keys)
  | _, _ => m_ret (Ok tt)
  end.

(* agent/memory/redis/store.go: Store.ForgetAll *)
Definition ForgetAll (fuel : nat) (identifier : string) : mworld -> option (res unit * mworld) := fun w =>
  if bool_decide (identifier = "") then Some (redis_error "identifier must not be empty", w)
  else
    match collectPagedKeys fuel forgetAllPageSize (fetch_page (ident_clause (rs_schema s) identifier)) 0 [] w with
    | None => None
    | Some (Err e, w) => Some (Err e, w)
    | Some (Ok keys, w) => Some (delete_batches (length keys) keys w)
    end.

(** * Search replies *)

(* agent/memory/redis/store.go: redisStringMap *)
Definition redisStringMap (v : Reply) : res (gmap string Reply) :=
  match v with
  | RMapStr m => Ok (list_to_map (rev m))
  | RMapAny m =>
      foldl (fun acc p => letr out := acc in
               match redisScalarString p.1 with Some k => Ok (<[k := p.2]> out) | None => Err (ENew "map key is no string") end)
        (Ok ∅) m
  | _ => Err (ENew "want map")
  end.

(* agent/memory/redis/store.go: redisDocumentID *)
Definition redisDocumentID (v : Reply) : res string :=
  match v with
  | RStr id | RBytes id => if bool_decide (id = "") then Err (ENew "document id is empty") else Ok id
  | _ => Err (ENew "document id is no string")
  end.

(** int(v) of a 64-bit integer. *)
Definition wrap64 (n : Z) : Z := (n + 2 ^ 63) mod 2 ^ 64 - 2 ^ 63.
Definition res_option {A} (r : res A) : option A := match r with Ok a => Some a | Err _ => None end.

(* agent/memory/redis/store.go: searchResultCount *)
Definition searchResultCount (v : Reply) : option Z :=
  raw ← match v with
        | RList (x :: _) => Some x
        | RMapStr _ | RMapAny _ => Some (redisInfoField v "total_results")
        | _ => None
        end;
  match raw with
  | RInt z | RInt64 z => Some z
  | RUint64 n => Some (wrap64 (Z.of_N n))
  | RStr t | RBytes t => res_option (ParseInt t)
  | _ => None
  end.

Definition f_sub : Ranking.float -> Ranking.float -> Ranking.float := SFsub 53 1024.

Abbreviation Entry := (SemanticMemory.Entry (list GoVal)).

(* agent/memory/redis/store.go: Store.scanEntry *)
Definition scanEntry (key : string) (attrs : gmap string Reply) : res Entry :=
  match attrs !! "score" ≫= redisScalarString with
  | None => Err (ENew "entry has no score")
  | Some score =>
      match ParseFloat 64 score with
      | None => Err (ENew "entry has invalid score")
      | Some distance =>
          if negb (f_finite distance) then Err (ENew "entry has invalid score")
          else
            match scan_fields (rs_fields s) (Fields (rs_schema s)) attrs (zero_value (rs_fields s)) with
            | None => Err (ENew "entry: decode field")
            | Some value => Ok (mkEntryT key value (f_sub f_unit distance))
            end
      end
  end.

(* agent/memory/redis/store.go:1292-1314: items of parseRESP3Results *)
Fixpoint resp3_items (items : list Reply) : res (list Entry) :=
  match items with
  | [] => Ok []
  | item :: items =>
      letr doc := redisStringMap item in
      letr key := redisDocumentID (default RNil (doc !! "id")) in
      match doc !! "extra_attributes" with
      | None => Err (ENew "entry has no extra_attributes")
      | Some raw =>
          letr attrs := redisStringMap raw in
          letr entry := scanEntry key attrs in
          letr rest := resp3_items items in
          Ok (entry :: rest)
      end
  end.

(* agent/memory/redis/store.go: Store.parseRESP3Results *)
Definition parseRESP3Results (v : Reply) : res (list Entry) :=
  letr m := redisStringMap v in
  match m !! "results" with
  | Some (RList items) => resp3_items items
  | Some _ => Err (ENew "results field is no array")
  | None => Err (ENew "response has no results field")
  end.

(** A flat list of names and values. *)
(* agent/memory/redis/store.go:1341-1348: attributes in parseRESP2Results *)
Fixpoint resp2_attrs (fields : list Reply) (attrs : gmap string Reply) : res (gmap string Reply) :=
  match fields with
  | [] => Ok attrs
  | name :: v :: fields =>
      match redisScalarString name with
      | Some name => resp2_attrs fields (<[name := v]> attrs)
      | None => Err (ENew "attribute name is no string")
      end
  | [_] => Err (ENew "attributes have odd length")
  end.

(* agent/memory/redis/store.go:1329-1354: items of parseRESP2Results *)
Fixpoint resp2_items (items : list Reply) : res (list Entry) :=
  match items with
  | key :: fields :: items =>
      letr key := redisDocumentID key in
      match fields with
      | RList fields =>
          if negb (Nat.even (length fields)) then Err (ENew "attributes have odd length")
          else
            letr attrs := resp2_attrs fields ∅ in
            letr entry := scanEntry key attrs in
            letr rest := resp2_items items in
            Ok (entry :: rest)
      | _ => Err (ENew "attributes are no array")
      end
  | _ => Ok []
  end.

(* agent/memory/redis/store.go: Store.parseRESP2Results *)
Definition parseRESP2Results (results : list Reply) : res (list Entry) :=
  match searchResultCount (RList results) with
  | None => Err (ENew "response does not start with a result count")
  | Some _ => if Nat.even (length results) then Err (ENew "want a count followed by key/attribute pairs") else resp2_items (tail results)
  end.

(* agent/memory/redis/store.go: Store.parseResults *)
Definition parseResults (v : Reply) (minSimilarity : Ranking.float) (sortBySimilarity : bool) : res (list Entry) :=
  match (match v with
         | RMapAny _ | RMapStr _ => parseRESP3Results v
         | RList xs => parseRESP2Results xs
         | _ => Err (ENew "unexpected response type")
         end) with
  | Err e => Err (EWrap "redis: decode search result" e)
  | Ok entries =>
      let entries := if f_gt minSimilarity f_zero then List.filter (fun e => f_ge (en_Score e) minSimilarity) entries else entries in
      Ok (if sortBySimilarity then sort_by en_Score entries else entries)
  end.

(** * Recall *)

(* agent/memory/redis/store.go: Store.recallMatchCount *)
Definition recallMatchCount (filterQuery : string) : MM Z :=
  let+ v := m_wrap "redis: count recall matches"
    (send (FT ["FT.SEARCH"; rs_indexName s; filterQuery; "NOCONTENT"; "LIMIT"; "0"; "0"; "DIALECT"; "2"])) in
  m_ret (match searchResultCount v with
         | Some n => if bool_decide (n < 0) then redis_error "count recall matches: unexpected response" else Ok n
         | None => redis_error "count recall matches: unexpected response"
         end).

(* agent/memory/redis/store.go:285-296: search command of Recall *)
Definition search_args (filterQuery : string) (limit : Z) (embedding : list Ranking.float) (order : option compiledOrder) : list string :=
  let '(sortField, sortDirection) := match order with Some o => (co_field o, co_direction o) | None => ("score", "ASC") end in
  ["FT.SEARCH"; rs_indexName s; "(" +:+ filterQuery +:+ ")=>[KNN " +:+ FormatInt limit +:+ " @embedding $BLOB AS score]";
   "PARAMS"; "2"; "BLOB"; float64sToFloat32Bytes embedding; "SORTBY"; sortField; sortDirection;
   "LIMIT"; "0"; FormatInt limit; "DIALECT"; "2"].

(* agent/memory/redis/store.go: Store.Recall *)
Definition Recall (identifier : string) (q : RQuery) : MM (list Entry) :=
  if bool_decide (identifier = "") then m_ret (redis_error "identifier must not be empty")
  else
    let+ _ := m_ret (validateRecallQuery q) in
    let+ filterQuery := m_ret (buildRecallFilter (rs_schema s) identifier (q_Filters q)) in
    let+ order := m_ret (compileOrder (rs_schema s) (q_Order q)) in
    let+ limit := (if bool_decide (q_Limit q = 0) then recallMatchCount filterQuery else m_ret (Ok (q_Limit q))) in
    if bool_decide (limit = 0) then m_ret (Ok [])
    else
      let+ embedding := m_wrap "redis: embed query" (m_embed (q_Text q)) in
      let+ _ := m_ret (validateEmbedding (rs_dim s) embedding) in
      let+ v := m_wrap "redis: search" (send (FT (search_args filterQuery limit embedding order))) in
      m_ret (parseResults v (q_MinSimilarity q) (match order with None => true | Some _ => false end)).

(** * Tools

    [invocation] is what a handler's context carries, [unmarshal_value], [unmarshal_id] and [unmarshal_query] are
    json.Unmarshal into the struct type and the parameters; [show_value] is json.Marshal of a value and [show_score]
    the %.4f verb; [type_schema] is tool.GoTypeToSchema. *)
Context (invocation : HandlerCtx -> Invocation).
Context (unmarshal_value : RawMessage -> res (list GoVal)) (unmarshal_id : RawMessage -> res string) (unmarshal_query : RawMessage -> res (string * Z)).
Context (show_value : list GoVal -> res string) (show_score : Ranking.float -> string) (type_schema : GoTyp -> list (string * GoAny)).

Definition schema_field (f : Field) : StructField :=
  SemanticMemory.mkField (fd_Name f) (fd_exported f) (fd_db f) (fd_json f) (fd_description f) (fd_required f) (type_schema (fd_type f)).

(** The loop over the fields is that of the in-process store. *)
(* agent/memory/redis/tools.go: generateRedisInputSchema *)
Definition generateRedisInputSchema : list (string * GoAny) * list string := generateMemSchema (map schema_field (rs_fields s)).

(** A tool whose handler first resolves the identity. *)
Definition redis_tool (cfg : toolCfg) (schema : GoAny) (handler : string -> RawMessage -> MM string) : Tool mworld :=
  mkTool (mkSpec (tc_name cfg) (tc_description cfg) (Some schema))
    (Some (fun ctx input w =>
      match ResolveIdentity (invocation ctx) (tc_scope cfg) with
      | Err e => (([], Err e), w)
      | Ok identity => let '(r, w) := handler identity input w in (([], r), w)
      end)) None None false false None.

(* agent/memory/redis/tools.go: NewRememberTool *)
Definition NewRememberTool (opts : list (toolCfg -> toolCfg)) : Tool mworld :=
  redis_tool (tool_cfg "remember" "Store a structured memory entry for later recall." opts) (schema_value generateRedisInputSchema)
    (fun identity input =>
      let+ value := m_wrap "redis: unmarshal" (m_ret (unmarshal_value input)) in
      let+ _ := Remember identity value in
      m_ret (Ok "Remembered.")).

(* agent/memory/redis/tools.go: NewUpdateTool *)
Definition NewUpdateTool (opts : list (toolCfg -> toolCfg)) : Tool mworld :=
  redis_tool (tool_cfg "update" "Update an existing memory entry by its ID." opts) (update_schema (map schema_field (rs_fields s)))
    (fun identity input =>
      let+ id := m_ret (unmarshal_id input) in
      let+ value := m_wrap "redis: unmarshal" (m_ret (unmarshal_value input)) in
      let+ _ := Update identity id value in
      m_ret (Ok "Updated.")).

(* agent/memory/redis/tools.go: formatTypedResults *)
Fixpoint formatTypedResults (first : bool) (results : list Entry) : string :=
  match results with
  | [] => ""
  | r :: results =>
      (if first then "" else newline) +:+
      match show_value (en_Value r) with
      | Err _ => "- (marshal error) Score: " +:+ show_score (en_Score r)
      | Ok data => "- " +:+ data +:+ newline +:+ "  ID: " +:+ en_ID r +:+ newline +:+ "  Score: " +:+ show_score (en_Score r)
      end +:+ formatTypedResults false results
  end.

(* agent/memory/redis/tools.go: NewRecallTool *)
Definition NewRecallTool (opts : list (toolCfg -> toolCfg)) : Tool mworld :=
  redis_tool (tool_cfg "recall" "Retrieve relevant memory entries by semantic similarity." opts)
    (AObj [("type", AStr "object");
      ("properties", AObj [("query", AObj [("type", AStr "string"); ("description", AStr "A natural-language query describing what to recall.")]);
                           ("limit", AObj [("type", AStr "integer"); ("description", AStr "Maximum number of results to return. Defaults to 5.")])]);
      ("required", AArr [AStr "query"])])
    (fun identity input =>
      let+ params := m_ret (unmarshal_query input) in
      let limit := if bool_decide (params.2 = 0) then 5 else params.2 in
      let+ results := Recall identity (mkQuery params.1 limit f_zero [] []) in
      m_ret (Ok (if is_nil results then "No relevant memories found." else formatTypedResults true results))).

(* agent/memory/redis/tools.go: NewForgetTool *)
Definition NewForgetTool (opts : list (toolCfg -> toolCfg)) : Tool mworld :=
  redis_tool (tool_cfg "forget" "Remove a specific memory entry by its ID. First recall to find the entry, then forget it by ID." opts)
    (AObj [("type", AStr "object");
      ("properties", AObj [("id", AObj [("type", AStr "string"); ("description", AStr "The ID of the memory entry to forget (from a previous recall).")])]);
      ("required", AArr [AStr "id"])])
    (fun identity input =>
      let+ id := m_ret (unmarshal_id input) in
      let+ _ := Forget identity id in
      m_ret (Ok "Forgotten.")).

End Memory.

Arguments mworld E : clear implicits.
Arguments mkMworld {E}.
Arguments mw_redis {E}.
Arguments mw_ext {E}.
