(* ===== verification/RedisQueryProps.v ===== *)
(** What the schema parser of the Redis memory store guarantees, and that a struct value comes back from its hash. *)
From Stdlib Require Import Ascii Sorted.
From Stdlib Require Import Ascii Lia ZifyBool ZifyN.
From S2P Require Import Prelude Errors Ranking Chunks SemanticMemory Decimal GoStruct RedisSchema.
From S2P Require Import RedisQuery.
Local Open Scope Z_scope.

(** * Well-formed schemas *)

(** A field type that the storage type can hold. *)
Definition storable (t : GoTyp) (ft : redisFieldType) : Prop :=
  match t with
  | TTime => ft = fieldNUMERIC
  | TString | TBool => ft <> fieldNUMERIC
  | TInt _ | TUint _ | TFloat _ => ft <> fieldTEXT
  | _ => False
  end.

Record info_ok (fs : list Field) (f : redisFieldInfo) : Prop := {
  ok_index : (FieldIndex f < length fs)%nat;
  ok_name : HashField f <> "";
  ok_ident : IsIdent f = true -> fd_type (field_at fs f) = TString /\ FieldType f = fieldTAG /\ IsJSONB f = false /\ NoInput f = true;
  ok_content : IsContent f = true -> fd_type (field_at fs f) = TString /\ FieldType f = fieldTEXT /\ IsJSONB f = false;
  ok_pk : IsPK f = true -> IsJSONB f = false /\ NoInput f = true;
  ok_roles : (Nat.b2n (IsPK f) + Nat.b2n (IsIdent f) + Nat.b2n (IsContent f) <= 1)%nat;
  ok_kind : if IsJSONB f then FieldType f = fieldTEXT else storable (fd_type (field_at fs f)) (FieldType f) }.

(** A role points to the one field that has it. *)
Definition role_ok (has : redisFieldInfo -> bool) (slot : option nat) (fs : list redisFieldInfo) : Prop :=
  forall i f, fs !! i = Some f -> has f = true <-> slot = Some i.

Record schema_ok (fs : list Field) (s : redisSchema) : Prop := {
  so_fields : Forall (info_ok fs) (Fields s);
  so_sorted : StronglySorted lt (map FieldIndex (Fields s));
  so_pk : role_ok IsPK (PKIdx s) (Fields s);
  so_ident : role_ok IsIdent (IdentifierIdx s) (Fields s);
  so_content : role_ok IsContent (ContentIdx s) (Fields s);
  so_slots : forall i, PKIdx s = Some i \/ IdentifierIdx s = Some i \/ ContentIdx s = Some i -> (i < length (Fields s))%nat }.

(** * Modifiers *)

(** What the modifiers read so far say. *)
Record mods_ok (i : nat) (name : string) (st : redisFieldInfo * list string * list string) : Prop := {
  mo_index : FieldIndex st.1.1 = i;
  mo_name : HashField st.1.1 = name;
  mo_pk : IsPK st.1.1 = true <-> "pk" ∈ st.1.2;
  mo_ident : IsIdent st.1.1 = true <-> "identifier" ∈ st.1.2;
  mo_content : IsContent st.1.1 = true <-> "content" ∈ st.1.2;
  mo_json : IsJSONB st.1.1 = true <-> "jsonb" ∈ st.2;
  mo_storage : Forall (fun m => m = "jsonb" \/ m = "tag" \/ m = "numeric") st.2;
  mo_roles : Forall (fun m => m = "pk" \/ m = "identifier" \/ m = "content") st.1.2 }.

Ltac pick_modifier m n :=
  destruct (decide (m = n)) as [->|?]; [rewrite (bool_decide_true (n = n)) by done | rewrite (bool_decide_false (m = n)) by done].

Lemma elem_snoc (x y : string) xs : x ∈ xs ++ [y] <-> x ∈ xs \/ x = y.
Proof. by rewrite elem_of_app, list_elem_of_singleton. Qed.

Lemma field_modifier_ok i name st raw : mods_ok i name st -> mods_ok i name (field_modifier st raw).
Proof.
  destruct st as [[info roles] storage]. intros [H1 H2 H3 H4 H5 H6 H7 H8]. unfold field_modifier. set (m := trim raw). clearbody m.
  destruct info as [a b c d e p q r]. simpl in *.
  pick_modifier m "pk"; [|pick_modifier m "identifier"; [|pick_modifier m "content"; [|pick_modifier m "jsonb"; [|
    destruct (decide (m = "tag" \/ m = "numeric")); [rewrite (bool_decide_true (m = "tag" \/ m = "numeric")) by done
      | rewrite (bool_decide_false (m = "tag" \/ m = "numeric")) by done; pick_modifier m "noinput"]]]]].
  all: split; simpl; rewrite ?elem_snoc, ?Forall_app, ?Forall_singleton; auto.
  all: split; [intros Hx; try (left; by apply H3 || apply H4 || apply H5 || apply H6); by right | intros [Hx|Hx]; [|done]].
  all: first [done | by apply H3 | by apply H4 | by apply H5 | by apply H6 | idtac].
Qed.

Lemma modifiers_ok i name ms st : mods_ok i name st -> mods_ok i name (foldl field_modifier st ms).
Proof. revert st. induction ms as [|m ms IH]; intros st Hst; [done|]. apply IH. by apply field_modifier_ok. Qed.

Lemma infer_not_text t : inferRedisFieldType t <> fieldTEXT.
Proof. by induction t. Qed.

Lemma short_list {A} (xs : list A) : (length xs <= 1)%nat -> xs = [] \/ exists x, xs = [x].
Proof. destruct xs as [|x [|y xs]]; simpl; [auto | eauto | lia]. Qed.

Lemma bool_is (b : bool) (x : string) (xs : list string) : b = true <-> x ∈ xs -> b = bool_decide (x ∈ xs).
Proof. intros H. destruct b; symmetry; [apply bool_decide_eq_true | apply bool_decide_eq_false]; naive_solver. Qed.

(** What parseRedisFieldTag returns for a field. *)
Lemma parseRedisFieldTag_ok fs fd i name ms info :
  fs !! i = Some fd -> name <> "" -> parseRedisFieldTag fd i name ms = Ok info -> info_ok fs info /\ FieldIndex info = i.
Proof.
  intros Hfd Hname. unfold parseRedisFieldTag.
  pose proof (modifiers_ok i name ms (mkInfo i name fieldTAG false false false false false, [], [])) as Hm.
  destruct (foldl field_modifier _ ms) as [[info0 roles] storage]. specialize (Hm ltac:(split; simpl; try done; set_solver)).
  destruct Hm as [H1 H2 H3 H4 H5 H6 H7 H8]. simpl in *.
  destruct (bool_decide_reflect (1 < length roles)%nat) as [|Hr]; [done|].
  destruct (bool_decide_reflect (1 < length storage)%nat) as [|Hs]; [done|].
  assert (Hrl : roles ∈ [[]; ["pk"]; ["identifier"]; ["content"]]).
  { destruct (short_list roles ltac:(lia)) as [->|[r ->]]; [set_solver|]. pose proof (Forall_inv H8) as Hx. simpl in Hx. destruct Hx as [->|[->| ->]]; set_solver. }
  assert (Hst : storage ∈ [[]; ["jsonb"]; ["tag"]; ["numeric"]]).
  { destruct (short_list storage ltac:(lia)) as [->|[r ->]]; [set_solver|]. pose proof (Forall_inv H7) as Hx. simpl in Hx. destruct Hx as [->|[->| ->]]; set_solver. }
  assert (Hat : forall x, FieldIndex x = i -> field_at fs x = fd) by (intros x <-; unfold field_at; by apply nth_lookup_Some).
  apply lookup_lt_Some in Hfd.
  destruct info0 as [fi hf ft j n p q c]; simpl in *; subst fi hf.
  apply bool_is in H3, H4, H5, H6. subst p q c j. clear H7 H8 Hr Hs.
  rewrite !elem_of_cons, elem_of_nil in Hrl, Hst. destruct Hrl as [->|[->|[->|[->|[]]]]]; destruct Hst as [->|[->|[->|[->|[]]]]].
  all: unfold validateRedisFieldKind, storage_type; simpl; try done.
  all: destruct (fd_type fd) eqn:Ht; simpl; try done.
  all: intros [= <-]; (split; [|done]); split; simpl; try (rewrite Hat by done; rewrite Ht; simpl); try done; try lia.
Qed.

(** * Roles *)

Lemma role_take has set idx slot slot' infos info :
  idx = length infos -> has info = set -> role_ok has slot infos -> take_role set idx slot = Ok slot' ->
  (forall i, slot = Some i -> (i < idx)%nat) ->
  role_ok has slot' (infos ++ [info]) /\ (forall i, slot' = Some i -> (i < S idx)%nat).
Proof.
  intros -> Hset Hr Ht Hb. unfold take_role in Ht.
  assert (Hs : (set = false /\ slot' = slot) \/ (set = true /\ slot = None /\ slot' = Some (length infos))).
  { destruct set; simpl in Ht; [destruct slot; [done|]; injection Ht as <-; auto | injection Ht as <-; auto]. }
  clear Ht. split.
  - intros i f Hi. apply lookup_app_Some in Hi as [Hi|[Hl Hi]].
    + pose proof (lookup_lt_Some _ _ _ Hi). rewrite (Hr _ _ Hi). destruct Hs as [[_ ->]|(_ & -> & ->)]; [done|].
      split; [done|]. intros [= Hx]. lia.
    + destruct (i - length infos)%nat as [|k] eqn:Hk; [|by destruct k]. injection Hi as <-. assert (i = length infos) as -> by lia.
      rewrite Hset. destruct Hs as [[-> ->]|(-> & _ & ->)]; [|done]. split; [done|]. intros Hx. specialize (Hb _ Hx). lia.
  - intros i Hi. destruct Hs as [[_ ->]|(_ & _ & ->)]; [specialize (Hb _ Hi); lia | injection Hi as <-; lia].
Qed.

Lemma sorted_snoc (xs : list nat) x : StronglySorted lt xs -> Forall (fun y => (y < x)%nat) xs -> StronglySorted lt (xs ++ [x]).
Proof.
  induction 1 as [|y ys Hs IH Hy]; intros Hx; simpl; [repeat constructor|].
  apply Forall_cons in Hx as [Hx Hxs]. constructor; [by apply IH|]. apply Forall_app. split; [done|]. by apply Forall_singleton.
Qed.

Lemma stored_tag_name f name ms : stored_tag f = Some (name, ms) -> name <> "".
Proof.
  unfold stored_tag. destruct (_ || _); [done|]. destruct (split_comma (fd_db f)) as [|n m]; [done|].
  destruct (bool_decide_reflect (n = "")); [done|]. by intros [= <- <-].
Qed.

Lemma schema_fields_ok fs rest i s s' :
  (forall k f, rest !! k = Some f -> fs !! (i + k)%nat = Some f) ->
  schema_ok fs s -> Forall (fun f => (FieldIndex f < i)%nat) (Fields s) -> schema_fields i rest s = Ok s' -> schema_ok fs s'.
Proof.
  revert i s. induction rest as [|f rest IH]; intros i s Hrest Hok Hlt Hs; simpl in Hs; [by injection Hs as <-|].
  assert (Hrest' : forall k g, rest !! k = Some g -> fs !! (S i + k)%nat = Some g).
  { intros k g Hk. replace (S i + k)%nat with (i + S k)%nat by lia. by apply Hrest. }
  assert (Hlt' : forall l, Forall (fun f => (FieldIndex f < i)%nat) l -> Forall (fun f => (FieldIndex f < S i)%nat) l).
  { intros l Hl. eapply Forall_impl; [exact Hl|]. simpl. lia. }
  destruct (stored_tag f) as [[name ms]|] eqn:Htag; [|apply (IH (S i) s); auto].
  assert (Hf : fs !! i = Some f) by (specialize (Hrest 0%nat f); rewrite Nat.add_0_r in Hrest; by apply Hrest).
  destruct (parseRedisFieldTag f i name ms) as [info|] eqn:Hinfo; simpl in Hs; [|done].
  destruct (parseRedisFieldTag_ok fs f i name ms info Hf (stored_tag_name _ _ _ Htag) Hinfo) as [Hi Hidx].
  destruct Hok as [O1 O2 O3 O4 O5 O6].
  destruct (take_role (IsPK info) _ _) as [pk|] eqn:T1; simpl in Hs; [|done].
  destruct (take_role (IsIdent info) _ _) as [ident|] eqn:T2; simpl in Hs; [|done].
  destruct (take_role (IsContent info) _ _) as [content|] eqn:T3; simpl in Hs; [|done].
  destruct (role_take IsPK _ _ _ _ (Fields s) info eq_refl eq_refl O3 T1 (fun i H => O6 i (or_introl H))) as [R1 B1].
  destruct (role_take IsIdent _ _ _ _ (Fields s) info eq_refl eq_refl O4 T2 (fun i H => O6 i (or_intror (or_introl H)))) as [R2 B2].
  destruct (role_take IsContent _ _ _ _ (Fields s) info eq_refl eq_refl O5 T3 (fun i H => O6 i (or_intror (or_intror H)))) as [R3 B3].
  refine (IH (S i) _ Hrest' _ _ Hs); [|apply Forall_app; split; [by apply Hlt'|apply Forall_singleton; lia]].
  split; simpl; try done; [apply Forall_app; split; [done|by apply Forall_singleton] | |].
  - rewrite map_app. apply sorted_snoc; [done|]. apply Forall_map. eapply Forall_impl; [exact Hlt|]. simpl. lia.
  - intros k Hk. rewrite length_app. simpl. rewrite Nat.add_1_r. destruct Hk as [Hk|[Hk|Hk]]; [by apply B1 | by apply B2 | by apply B3].
Qed.

Lemma redis_schema_ok fs s : parseRedisSchemaType (RStruct fs) = Ok s -> schema_ok fs s.
Proof.
  unfold parseRedisSchemaType. destruct (schema_fields 0 fs _) as [s'|] eqn:Hs; simpl; [|done].
  assert (Hok : schema_ok fs s').
  { apply (schema_fields_ok fs fs 0 (mkSchema [] None None None)); [done| |constructor|done].
    split; simpl; try constructor; try done. naive_solver. }
  destruct (IdentifierIdx s'); [|done]. destruct (ContentIdx s'); [|done]. by intros [= <-].
Qed.

Lemma redis_schema_infos fs s : parseRedisSchemaType (RStruct fs) = Ok s -> Forall (info_ok fs) (Fields s).
Proof. intros Hs. by apply redis_schema_ok in Hs as []. Qed.

(** C17. A struct type that the Redis memory accepts has exactly one identifier field and one content field, both plain
    strings stored as a tag and as text, at most one primary key, no field with two roles, and every field that is not
    JSON has a Go type that its hash field can hold. *)
Theorem redis_schema_well_formed fs s :
  parseRedisSchemaType (RStruct fs) = Ok s ->
  schema_ok fs s /\ exists i c fi fc, IdentifierIdx s = Some i /\ ContentIdx s = Some c /\
    Fields s !! i = Some fi /\ IsIdent fi = true /\ Fields s !! c = Some fc /\ IsContent fc = true.
Proof.
  intros Hs. pose proof (redis_schema_ok _ _ Hs) as Hok. split; [done|]. revert Hs.
  unfold parseRedisSchemaType. destruct (schema_fields 0 fs _) as [s'|]; cbn [res_bind]; [|done].
  destruct (IdentifierIdx s') as [i|] eqn:Hi; [|done]. destruct (ContentIdx s') as [c|] eqn:Hc; [|done]. intros [= <-].
  destruct (lookup_lt_is_Some_2 (Fields s') i) as [fi Hfi]; [apply (so_slots _ _ Hok); auto|].
  destruct (lookup_lt_is_Some_2 (Fields s') c) as [fc Hfc]; [apply (so_slots _ _ Hok); auto|].
  exists i, c, fi, fc. split_and!; try done; [by apply (so_ident _ _ Hok _ _ Hfi) | by apply (so_content _ _ Hok _ _ Hfc)].
Qed.

(** * Values and hashes *)

Section Roundtrip.
Context `{GoTextLaws} `{FieldJSON} (fs : list Field).
Implicit Types (m : gmap string string) (attrs : gmap string Reply).

(** A value that the hash can hold: of the type of the field, finite, JSON that comes back, and no type with a print
    method of its own. *)
Definition encodable (f : redisFieldInfo) (v : GoVal) : Prop :=
  let fd := field_at fs f in
  if IsJSONB f then exists data, json_Marshal (fd_type fd) v = Some data /\ json_Unmarshal (fd_type fd) data = Some v
  else has_type (fd_type fd) v = true /\
       match v with VFloat x => f_finite x = true | VString _ | VBool _ => fd_String fd = None | _ => True end.

(** What comes back: a time at its second, in the local time zone. *)
Definition stored_val (f : redisFieldInfo) (v : GoVal) : GoVal :=
  if IsJSONB f then v else match v with VTime unix _ _ => VTime unix 0 "Local" | _ => v end.

Lemma decode_encode f v : info_ok fs f -> encodable f v ->
  exists s, encode_field (field_at fs f) f v = Ok s /\ decodeRedisField (field_at fs f) f (RStr s) = Some (stored_val f v).
Proof.
  intros Hf He. unfold encodable in He. unfold encode_field, decodeRedisField, stored_val, redisScalarString.
  pose proof (ok_kind _ _ Hf) as Hk. destruct (IsJSONB f).
  - destruct He as (data & -> & Hd). exists data. split; [done|]. simpl. by rewrite Hd.
  - destruct He as [Ht Hx]. unfold show_field. simpl.
    destruct (fd_type (field_at fs f)) eqn:HT; try done; destruct v; try done; simpl in Ht.
    + eexists. split; [done|]. rewrite ParseInt_bits_FormatInt; [done|]. by apply bool_decide_eq_true in Ht.
    + eexists. split; [done|]. rewrite ParseUint_bits_FormatUint; [done|]. by apply bool_decide_eq_true in Ht.
    + rewrite Hx in *. eexists. split; [done|]. simpl in Ht. rewrite ParseFloat_FormatFloat by done. simpl. by rewrite Hx.
    + rewrite Hx. eexists. split; done.
    + rewrite Hx. eexists. split; [done|]. by rewrite ParseBool_FormatBool.
    + eexists. split; [done|]. rewrite ParseInt_bits_FormatInt; [done|]. apply bool_decide_eq_true in Ht. lia.
Qed.

Definition enc (value : list GoVal) (f : redisFieldInfo) : string :=
  match encode_field (field_at fs f) f (value_at value f) with Ok s => s | Err _ => "" end.

Lemma build_from (value : list GoVal) infos m :
  Forall (info_ok fs) infos -> Forall (fun f => encodable f (value_at value f)) infos ->
  foldl (fun acc f => letr m := acc in letr s := encode_field (field_at fs f) f (value_at value f) in Ok (<[HashField f := s]> m)) (Ok m) infos =
    Ok (foldl (fun m f => <[HashField f := enc value f]> m) m infos).
Proof.
  revert m. induction infos as [|f infos IH]; intros m Hok He; [done|].
  apply Forall_cons in Hok as [Hf Hok]. apply Forall_cons in He as [Hv He]. simpl. unfold enc at 2.
  destruct (decode_encode _ _ Hf Hv) as (s & -> & _). simpl. by apply IH.
Qed.

Lemma inserts_other (value : list GoVal) infos m k : k ∉ map HashField infos ->
  foldl (fun m f => <[HashField f := enc value f]> m) m infos !! k = m !! k.
Proof.
  revert m. induction infos as [|f infos IH]; intros m Hk; [done|]. simpl in *. apply not_elem_of_cons in Hk as [Hn Hk].
  rewrite IH by done. by rewrite lookup_insert_ne.
Qed.

Lemma inserts_field (value : list GoVal) infos m f : NoDup (map HashField infos) -> f ∈ infos ->
  foldl (fun m f => <[HashField f := enc value f]> m) m infos !! HashField f = Some (enc value f).
Proof.
  revert m. induction infos as [|g infos IH]; intros m Hn Hf; [by apply elem_of_nil in Hf|]. simpl in *. apply NoDup_cons in Hn as [Hg Hn].
  apply elem_of_cons in Hf as [->|Hf]; [|by apply IH]. rewrite inserts_other by done. by rewrite lookup_insert_eq.
Qed.

(** The value that comes back: the stored fields, and zero elsewhere. *)
Definition stored_value (infos : list redisFieldInfo) (value base : list GoVal) : list GoVal :=
  foldl (fun acc f => <[FieldIndex f := stored_val f (value_at value f)]> acc) base infos.

Lemma scan_stored (value : list GoVal) infos attrs base :
  Forall (info_ok fs) infos -> Forall (fun f => encodable f (value_at value f)) infos ->
  (forall f, f ∈ infos -> attrs !! HashField f = Some (RStr (enc value f))) ->
  scan_fields fs infos attrs base = Some (stored_value infos value base).
Proof.
  revert base. induction infos as [|f infos IH]; intros base Hok He Ha; [done|].
  apply Forall_cons in Hok as [Hf Hok]. apply Forall_cons in He as [Hv He]. simpl.
  rewrite (Ha f) by (by left). unfold enc.
  destruct (decode_encode _ _ Hf Hv) as (s & -> & Hd). simpl. rewrite Hd. simpl. apply IH; try done.
  intros g Hg. apply Ha. by right.
Qed.
End Roundtrip.


(** What the query compiler of the Redis memory store guarantees: an escaped value is read back as one literal, and
    no filter can reach the predicate that selects the tenant. *)

(** * Reading a query

    The reading of the query language that escaping relies on: outside tags, groups are in parentheses; a numeric range
    ends at its bracket; in a tag, alternatives are separated by bars, a backslash makes the next byte literal and an
    unescaped brace ends the tag. *)
Definition byte_is (c : ascii) (n : N) : bool := N.eqb (N_of_ascii c) n.

(** A byte of a tag that needs no escape: a letter, a digit, an underscore or a byte of a longer rune. *)
Definition token_byte (c : ascii) : bool :=
  let n := N_of_ascii c in between 48 n 57 || between 65 n 90 || between 97 n 122 || (n =? 95)%N || (128 <=? n)%N.

(** The literal at the start of a text, and what follows it. *)
Fixpoint read_token (s : list ascii) : list ascii * list ascii :=
  match s with
  | [] => ([], [])
  | c :: s' =>
      if byte_is c 92 then
        match s' with
        | c1 :: s'' => let '(t, rest) := read_token s'' in (c1 :: t, rest)
        | [] => ([], s)
        end
      else if token_byte c then let '(t, rest) := read_token s' in (c :: t, rest)
      else ([], s)
  end.

Inductive place := Outside | InTag | InRange.

(** Read a text at a place and a depth of parentheses.  At depth 0 only groups and spaces may stand, so that all groups
    are required together. *)
Fixpoint scan (p : place) (depth : nat) (s : list ascii) : option (place * nat) :=
  match s with
  | [] => Some (p, depth)
  | c :: s' =>
      match p with
      | InTag =>
          if byte_is c 92 then match s' with _ :: s'' => scan InTag depth s'' | [] => None end
          else if byte_is c 125 then scan Outside depth s'
          else if token_byte c || byte_is c 124 then scan InTag depth s'
          else None
      | InRange => if byte_is c 93 then scan Outside depth s' else scan InRange depth s'
      | Outside =>
          if byte_is c 40 then scan Outside (S depth) s'
          else match depth with
               | O => if byte_is c 32 then scan Outside 0 s' else None
               | S d =>
                   if byte_is c 41 then scan Outside d s'
                   else if byte_is c 123 then scan InTag depth s'
                   else if byte_is c 91 then scan InRange depth s'
                   else if byte_is c 92 then match s' with _ :: s'' => scan Outside depth s'' | [] => None end
                   else if byte_is c 125 || byte_is c 93 then None
                   else scan Outside depth s'
               end
      end
  end.

Abbreviation bytes := String.list_ascii_of_string.

(** Inside a group, a text leaves the reader where it was. *)
Definition closed (p : place) (s : list ascii) : Prop := forall d rest, scan p (S d) (s ++ rest) = scan p (S d) rest.

Lemma closed_nil p : closed p [].
Proof. by intros d rest. Qed.
Lemma closed_app p s t : closed p s -> closed p t -> closed p (s ++ t).
Proof. intros Hs Ht d rest. rewrite <- app_assoc, Hs. apply Ht. Qed.

(** * Escaping *)

Section Escape.
Context `{GoTextLaws} `{UnicodeLaws}.

Lemma plain_ascii r : (r < 128)%N -> plain_rune r = token_byte (chr r).
Proof.
  intros Hr. unfold plain_rune, token_byte. rewrite IsLetter_ascii, IsDigit_ascii by done.
  change (N_of_ascii (chr r)) with (byte_of (chr r)). rewrite byte_chr by lia. unfold between. lia.
Qed.

Lemma high_chr b : (b < 256)%N -> N_of_ascii (chr b) = b.
Proof. apply byte_chr. Qed.

(** The bytes of a rune: one byte below 128, or only bytes from 128. *)
Lemma rune_bytes r : (scalar r = true /\ (r < 128)%N /\ encode_rune r = String (chr r) "") \/
  ((128 <= r)%N /\ encode_rune r <> "" /\ Forall (fun c => (128 <= N_of_ascii c)%N) (bytes (encode_rune r))).
Proof.
  unfold encode_rune. destruct (scalar r) eqn:Hs.
  - destruct (N.ltb_spec r 128) as [Hl|Hl]; [by left|right].
    assert (Hm : (r <= 1114111)%N) by (unfold scalar, between in Hs; lia).
    split; [done|]. destruct (N.ltb_spec r 2048); [|destruct (N.ltb_spec r 65536)]; (split; [done|]); cbn [bytes].
    all: repeat (apply Forall_cons; split; [rewrite high_chr; zify; Z.to_euclidean_division_equations; lia|]); constructor.
  - right. split; [unfold scalar, between in Hs; lia|]. split; [by vm_compute|]. vm_compute. repeat constructor; discriminate.
Qed.

Lemma token_high c : (128 <= N_of_ascii c)%N -> token_byte c = true /\ byte_is c 92 = false /\ byte_is c 125 = false.
Proof. unfold token_byte, byte_is, between. lia. Qed.

Lemma read_high s t : Forall (fun c => (128 <= N_of_ascii c)%N) s -> read_token (s ++ t) = let '(a, rest) := read_token t in (s ++ a, rest).
Proof.
  induction 1 as [|c s Hc _ IH]; simpl; [by destruct (read_token t)|].
  destruct (token_high c Hc) as (-> & -> & _). rewrite IH. by destruct (read_token t).
Qed.

Definition stops (t : list ascii) : Prop := match t with [] => True | c :: _ => byte_is c 92 = false /\ token_byte c = false end.

Lemma read_stop t : stops t -> read_token t = ([], t).
Proof. destruct t as [|c t]; [done|]. simpl. by intros [-> ->]. Qed.

Lemma backslash_token : byte_is backslash 92 = true /\ token_byte backslash = false.
Proof. by vm_compute. Qed.

Lemma chr_byte r : (r < 128)%N -> N_of_ascii (chr r) = r.
Proof. intros. change (N_of_ascii (chr r)) with (byte_of (chr r)). apply byte_chr. lia. Qed.

Lemma read_escaped rs t : stops t -> read_token (bytes (escape_runes rs) ++ t) = (bytes (string_of rs), t).
Proof.
  intros Ht. induction rs as [|r rs IH]; [by apply read_stop|]. cbn [escape_runes string_of]. rewrite !list_ascii_cat, <- !app_assoc.
  destruct (rune_bytes r) as [(Hsc & Hr & He)|(Hr & Hne & Hb)].
  - rewrite He. rewrite (plain_ascii r Hr). destruct (token_byte (chr r)) eqn:Hp.
    + change (bytes "" ++ bytes (String (chr r) "") ++ bytes (escape_runes rs) ++ t) with (chr r :: (bytes (escape_runes rs) ++ t)).
      cbn [read_token]. assert (byte_is (chr r) 92 = false) as ->.
      { unfold token_byte, between, byte_is in *. lia. }
      rewrite Hp, IH. done.
    + change (bytes (String backslash "") ++ bytes (String (chr r) "") ++ bytes (escape_runes rs) ++ t)
        with (backslash :: chr r :: (bytes (escape_runes rs) ++ t)).
      cbn [read_token]. rewrite (proj1 backslash_token), IH. done.
  - destruct (plain_rune r).
    + change (bytes "") with (@nil ascii). cbn [app]. rewrite read_high by done. rewrite IH. by rewrite <- ?list_ascii_cat.
    + change (bytes (String backslash "")) with [backslash]. cbn [app].
      destruct (bytes (encode_rune r)) as [|c1 cs] eqn:Hc; [by destruct (encode_rune r)|].
      apply Forall_cons in Hb as [_ Hb]. cbn [app read_token]. rewrite (proj1 backslash_token).
      rewrite read_high by done. by rewrite IH.
Qed.

(** Escaping keeps a value one literal: whatever a tag value contains, reading the query after the opening brace
    gives back exactly the value (every byte that is no UTF-8 replaced as Go does) and stops at the closing brace. *)
Theorem escapeTag_reads_back value rest :
  read_token (bytes (escapeTag value) ++ "}"%char :: rest) = (bytes (string_of (runes value)), "}"%char :: rest).
Proof. apply read_escaped. by vm_compute. Qed.

(** * Clauses *)

Lemma scan_token p c s d : p <> InRange -> token_byte c = true -> scan p (S d) (c :: s) = scan p (S d) s.
Proof.
  intros Hp Hc. assert (Hx : forall n, token_byte (chr n) = false -> (n < 128)%N -> byte_is c n = false).
  { intros n Hn Hl. unfold byte_is. destruct (N.eqb_spec (N_of_ascii c) n) as [E|]; [|done].
    assert (c = chr n) as -> by (unfold chr; by rewrite <- E, ascii_N_embedding). congruence. }
  destruct p; [| |done]; cbn [scan]; rewrite ?Hc, !Hx by (by vm_compute); done.
Qed.

Lemma scan_tokens p s d rest : p <> InRange -> Forall (fun c => token_byte c = true) s -> scan p (S d) (s ++ rest) = scan p (S d) rest.
Proof. intros Hp. induction 1 as [|c s Hc _ IH]; [done|]. cbn [app]. by rewrite scan_token. Qed.

Lemma scan_backslash p c s d : p <> InRange -> scan p (S d) (backslash :: c :: s) = scan p (S d) s.
Proof. by destruct p. Qed.

Lemma closed_escaped p rs : p <> InRange -> closed p (bytes (escape_runes rs)).
Proof.
  intros Hp. induction rs as [|r rs IH]; [apply closed_nil|]. cbn [escape_runes]. rewrite !list_ascii_cat, app_assoc.
  apply closed_app; [|done]. intros d rest. rewrite <- app_assoc.
  destruct (rune_bytes r) as [(_ & Hr & He)|(_ & Hne & Hb)].
  - rewrite He, (plain_ascii r Hr). destruct (token_byte (chr r)) eqn:Ht; [by apply scan_token | by apply scan_backslash].
  - assert (Ht : Forall (fun c => token_byte c = true) (bytes (encode_rune r))).
    { eapply Forall_impl; [exact Hb|]. intros c Hc. by apply token_high. }
    destruct (plain_rune r); [change (bytes "") with (@nil ascii); cbn [app]; by apply scan_tokens|].
    destruct (bytes (encode_rune r)) as [|c1 cs] eqn:Hc; [by destruct (encode_rune r)|].
    apply Forall_cons in Ht as [_ Ht]. cbn [bytes app]. rewrite scan_backslash by done. by apply scan_tokens.
Qed.

(** Characters without meaning outside tags and ranges. *)
Definition inert (c : ascii) : bool := negb (existsb (byte_is c) [40; 41; 123; 91; 92; 125; 93]%N).
Lemma scan_inert c s d : inert c = true -> scan Outside (S d) (c :: s) = scan Outside (S d) s.
Proof.
  unfold inert. intros Hc%negb_true_iff. cbn [existsb] in Hc. repeat (apply orb_false_iff in Hc as [? Hc]).
  cbn [scan]. repeat match goal with E : byte_is c _ = false |- _ => rewrite E; clear E end. done.
Qed.

Lemma closed_inert c s : inert c = true -> closed Outside s -> closed Outside (c :: s).
Proof. intros Hc Hs d rest. cbn [app]. rewrite scan_inert by done. apply Hs. Qed.

Lemma closed_tag s : closed InTag s -> closed Outside ("{"%char :: s ++ ["}"%char]).
Proof.
  intros Hs d rest. cbn [app]. rewrite <- app_assoc.
  change (scan InTag (S d) (s ++ ["}"%char] ++ rest) = scan Outside (S d) rest). rewrite Hs. done.
Qed.

Lemma scan_range s d rest : "]"%char ∉ s -> scan InRange d (s ++ "]"%char :: rest) = scan Outside d rest.
Proof.
  induction s as [|c s IH]; intros Hs; [done|]. apply not_elem_of_cons in Hs as [Hc Hs]. cbn [app scan].
  unfold byte_is. destruct (N.eqb_spec (N_of_ascii c) 93) as [E|]; [|by apply IH].
  exfalso. apply Hc. rewrite <- (ascii_N_embedding c), E. done.
Qed.

Lemma closed_range s : "]"%char ∉ s -> closed Outside ("["%char :: s ++ ["]"%char]).
Proof. intros Hs d rest. cbn [app]. rewrite <- app_assoc. change (scan InRange (S d) (s ++ "]"%char :: rest) = scan Outside (S d) rest). by apply scan_range. Qed.

Lemma closed_group s : closed Outside s -> closed Outside ("("%char :: s ++ [")"%char]).
Proof.
  intros Hs d rest. cbn [app]. rewrite <- app_assoc. change (scan Outside (S (S d)) (s ++ [")"%char] ++ rest) = scan Outside (S d) rest).
  by rewrite Hs.
Qed.

Lemma closed_joined p sep ss : closed p (bytes sep) -> Forall (fun s => closed p (bytes s)) ss -> closed p (bytes (join sep ss)).
Proof.
  intros Hsep. induction 1 as [|s ss Hs Hss IH]; [apply closed_nil|]. destruct ss as [|s' ss]; [done|].
  change (join sep (s :: s' :: ss)) with (s +:+ sep +:+ join sep (s' :: ss)). rewrite !list_ascii_cat. by repeat apply closed_app.
Qed.

(** Compiled tag and number literals. *)
Lemma tagLiteral_closed v s : tagLiteral v = Ok s -> closed InTag (bytes s).
Proof. destruct v as [[[] ?]|]; try done. intros [= <-]. by apply closed_escaped. Qed.

Lemma numericLiteral_chars v s : numericLiteral v = Ok s -> "]"%char ∉ bytes s.
Proof.
  destruct v as [[[] ?]|]; try done; simpl.
  - intros [= <-]. by apply FormatInt_chars.
  - intros [= <-]. rewrite FormatUint_Z. by apply FormatInt_chars.
  - destruct (f_finite x) eqn:Hx; [|done]. intros [= <-]. by apply FormatFloat_chars.
  - intros [= <-]. by apply FormatInt_chars.
Qed.

Lemma encode_all_each encode vs ss : encode_all encode vs = Ok ss -> Forall (fun s => exists v, encode v = Ok s) ss.
Proof.
  revert ss. induction vs as [|v vs IH]; intros ss; simpl; [by intros [= <-]|].
  destruct (encode v) as [s|] eqn:Hv; [|done]. destruct (encode_all encode vs) as [rest|]; [|done]. simpl. intros [= <-].
  constructor; [by exists v | by apply IH].
Qed.

Lemma filterValues_each value encode ss : filterValues value encode = Ok ss -> Forall (fun s => exists v, encode v = Ok s) ss.
Proof. destruct value as [| |[|v vs]]; try done. apply encode_all_each. Qed.

Lemma closed_num field low high : closed Outside (bytes field) -> "]"%char ∉ bytes low -> "]"%char ∉ bytes high ->
  closed Outside (bytes (num_clause field low high)).
Proof.
  intros Hf Hl Hh. unfold num_clause. rewrite !list_ascii_cat. apply closed_inert; [done|]. apply closed_app; [done|].
  apply closed_inert; [done|].
  change (closed Outside ("["%char :: (bytes low ++ " "%char :: bytes high ++ ["]"%char]))).
  replace (bytes low ++ " "%char :: bytes high ++ ["]"%char]) with ((bytes low ++ " "%char :: bytes high) ++ ["]"%char]) by (by rewrite <- app_assoc).
  apply closed_range. rewrite not_elem_of_app, not_elem_of_cons. done.
Qed.

Lemma closed_field name : closed Outside (bytes (escapeQueryField name)).
Proof. by apply closed_escaped. Qed.

Lemma closed_braced field body : closed Outside (bytes field) -> closed InTag (bytes body) ->
  closed Outside (bytes ("@" +:+ field +:+ ":{" +:+ body +:+ "}")).
Proof.
  intros Hf Hb. rewrite !list_ascii_cat. apply closed_inert; [done|]. apply closed_app; [done|]. apply closed_inert; [done|]. by apply closed_tag.
Qed.

Lemma compileTagFilter_closed field op value s : compileTagFilter field op value = Ok s -> closed Outside (bytes s).
Proof.
  unfold compileTagFilter. case_bool_decide.
  - destruct (tagLiteral _) as [l|] eqn:Hl; [|done]. cbn [res_bind]. intros [= <-]. pose proof (closed_braced _ _ (closed_field field) (tagLiteral_closed _ _ Hl)).
    case_bool_decide; [|done]. rewrite list_ascii_cat. by apply closed_inert.
  - case_bool_decide; [|done]. destruct (filterValues _ _) as [ls|] eqn:Hl; [|done]. cbn [res_bind]. intros [= <-].
    apply closed_braced; [apply closed_field|]. apply closed_joined; [by intros d rest|].
    eapply Forall_impl; [exact (filterValues_each _ _ _ Hl)|]. intros x [v Hv]. by apply (tagLiteral_closed v).
Qed.

Lemma compileNumericFilter_closed field op value s : compileNumericFilter field op value = Ok s -> closed Outside (bytes s).
Proof.
  assert (Hnum : forall low high, "]"%char ∉ bytes low -> "]"%char ∉ bytes high -> closed Outside (bytes (num_clause (escapeQueryField field) low high))).
  { intros. apply closed_num; try done. apply closed_field. }
  assert (Hinf : ("]"%char ∉ bytes "+inf") /\ "]"%char ∉ bytes "-inf") by (split; apply (bool_decide_unpack _); by vm_compute).
  unfold compileNumericFilter. case_bool_decide.
  - destruct (filterValues _ _) as [ls|] eqn:Hl; [|done]. cbn [res_bind]. intros [= <-]. rewrite !list_ascii_cat. apply closed_group.
    apply closed_joined; [by intros d rest|]. apply Forall_map. eapply Forall_impl; [exact (filterValues_each _ _ _ Hl)|].
    intros x [v Hv]. simpl. pose proof (numericLiteral_chars _ _ Hv). by apply Hnum.
  - destruct (numericLiteral _) as [l|] eqn:Hl; [|done]. cbn [res_bind]. apply numericLiteral_chars in Hl.
    assert (Hpar : "]"%char ∉ bytes ("(" +:+ l)) by (apply not_elem_of_cons; by split).
    destruct Hinf as [Hi1 Hi2].
    repeat (case_bool_decide; [intros [= <-]; first [by apply Hnum | apply closed_inert; [done|by apply Hnum]]|]); done.
Qed.

Lemma compileFilter_closed schema f s : compileFilter schema f = Ok s -> closed Outside (bytes s).
Proof.
  unfold compileFilter. destruct (schemaField schema _) as [fi|]; [|done].
  destruct (FieldType fi); [destruct (compileTagFilter _ _ _) eqn:Hc|destruct (compileNumericFilter _ _ _) eqn:Hc|done]; try done; intros [= <-];
    [by eapply compileTagFilter_closed | by eapply compileNumericFilter_closed].
Qed.

(** Groups at depth 0. *)
Lemma scan_group0 s rest : closed Outside s -> scan Outside 0 ("("%char :: s ++ ")"%char :: rest) = scan Outside 0 rest.
Proof. intros Hs. change (scan Outside 1 (s ++ ")"%char :: rest) = scan Outside 0 rest). by rewrite Hs. Qed.

Lemma compile_filters_closed schema filters parts : compile_filters schema filters = Ok parts ->
  Forall (fun p => exists c, p = "(" +:+ c +:+ ")" /\ closed Outside (bytes c)) parts.
Proof.
  revert parts. induction filters as [|f filters IH]; intros parts; simpl; [by intros [= <-]|].
  destruct (compileFilter schema f) as [c|] eqn:Hc; simpl; [|done]. destruct (compile_filters schema filters) as [rest|]; simpl; [|done].
  intros [= <-]. constructor; [exists c; split; [done|by eapply compileFilter_closed] | by apply IH].
Qed.

Lemma join_head x xs : join " " (x :: xs) = x +:+ foldr (fun y s => " " +:+ y +:+ s) "" xs.
Proof.
  revert x. induction xs as [|y xs IH]; intros x.
  - cbn [join foldr]. induction x as [|c x IHx]; [done|]. change (String c x +:+ "") with (String c (x +:+ "")). by rewrite <- IHx.
  - change (join " " (x :: y :: xs)) with (x +:+ " " +:+ join " " (y :: xs)). by rewrite IH.
Qed.

(** A text that is UTF-8: the encoding of some code points. *)
Definition valid_utf8 (s : string) : Prop := exists rs, Forall (fun r => scalar r = true) rs /\ s = string_of rs.

Lemma valid_runes s : valid_utf8 s -> string_of (runes s) = s.
Proof. intros (rs & Hrs & ->). by rewrite runes_string_of. Qed.

(** C15. No filter of a Redis recall can change whose entries are searched: the query starts with the tag of the tenant,
    and what follows is a sequence of complete groups, so that every filter is one more condition and none can close,
    widen or replace the first.  Reading the query gives back the name of the identifier field and, as one literal, the
    identifier: exactly, when it is UTF-8; otherwise with every byte that is no UTF-8 replaced by U+FFFD, so that two
    such identifiers can be asked for under one tag. *)
Theorem redis_recall_scoped schema identifier filters q :
  buildRecallFilter schema identifier filters = Ok q ->
  exists rest,
    bytes q = bytes ("(@" +:+ escapeQueryField (identField schema) +:+ ":{") ++ bytes (escapeTag identifier) ++ "}"%char :: ")"%char :: rest /\
    read_token (drop 2 (bytes q)) =
      (bytes (string_of (runes (identField schema))), ":"%char :: "{"%char :: bytes (escapeTag identifier) ++ "}"%char :: ")"%char :: rest) /\
    read_token (bytes (escapeTag identifier) ++ "}"%char :: ")"%char :: rest) = (bytes (string_of (runes identifier)), "}"%char :: ")"%char :: rest) /\
    (valid_utf8 identifier -> read_token (bytes (escapeTag identifier) ++ "}"%char :: ")"%char :: rest) = (bytes identifier, "}"%char :: ")"%char :: rest)) /\
    scan Outside 0 rest = Some (Outside, 0%nat) /\ scan Outside 0 (bytes q) = Some (Outside, 0%nat).
Proof.
  unfold buildRecallFilter. destruct (compile_filters schema filters) as [parts|] eqn:Hp; cbn [res_bind]; [|done]. rewrite join_head. set (rest := foldr _ "" parts). intros [= <-].
  apply compile_filters_closed in Hp.
  assert (Hrest : scan Outside 0 (bytes rest) = Some (Outside, 0%nat)).
  { subst rest. induction Hp as [|p parts (c & -> & Hc) _ IH]; [done|]. cbn [foldr]. rewrite !list_ascii_cat, <- !app_assoc.
    change (scan Outside 0 ("("%char :: bytes c ++ ")"%char :: bytes (foldr (fun y s => " " +:+ y +:+ s) "" parts)) = Some (Outside, 0%nat)).
    by rewrite scan_group0. }
  assert (Hread : forall v t, stops t -> read_token (bytes (escapeTag v) ++ t) = (bytes (string_of (runes v)), t)) by (intros; by apply read_escaped).
  exists (bytes rest). split_and!.
  - unfold ident_clause. rewrite !list_ascii_cat, <- !app_assoc. done.
  - unfold ident_clause. rewrite !list_ascii_cat, <- !app_assoc. apply Hread. by vm_compute.
  - apply Hread. by vm_compute.
  - intros Hv. rewrite Hread by (by vm_compute). by rewrite valid_runes.
  - done.
  - rewrite !list_ascii_cat, <- !app_assoc.
    change (scan Outside 0 ("("%char :: bytes (ident_clause schema identifier) ++ ")"%char :: bytes rest) = Some (Outside, 0%nat)).
    rewrite scan_group0; [done|]. apply closed_braced; [apply closed_field|]. by apply closed_escaped.
Qed.

End Escape.
