(* ===== verification/RedisMemoryProps.v ===== *)
(** The Redis memory store keeps tenants apart, returns what was stored, and forgets everything of a tenant. *)
From Stdlib Require Import Ascii Lia.
From S2P Require Import Prelude Errors Messages Execution Ranking Decimal Base64.
From S2P Require Import SemanticMemory SqlConversation ExecutionBackends RedisServer RedisConversation Chunks GoStruct.
From S2P Require Import RedisSchema RedisQuery RedisMemory RedisQueryProps.
Local Open Scope Z_scope.

(** * Keys *)

Abbreviation bytes := String.list_ascii_of_string.

Lemma raw_colon s : Forall (fun c => url_char c <> ":"%char) (raw_chars (b64_encode s)).
Proof.
  assert (Hall : forall v, (v < 64)%N -> url_char (b64_char v) <> ":"%char).
  { intros v Hv. apply (bool_decide_eq_true_1 _). revert v Hv. apply (values_all (fun v => bool_decide (url_char (b64_char v) <> ":"%char))). vm_compute. reflexivity. }
  assert (Hpad : Ascii.eqb b64_pad b64_pad = true) by apply Ascii.eqb_refl.
  induction s as [|a|a b|a b c s IH] using three_ind; [constructor| | |]; unfold raw_chars in *; cbn [b64_encode app List.filter];
    rewrite ?Hpad; cbn [negb];
    try (pose proof (byte_lt a)); try (pose proof (byte_lt b)); try (pose proof (byte_lt c));
    repeat match goal with |- context [Ascii.eqb (b64_char ?v) b64_pad] => destruct (Ascii.eqb (b64_char v) b64_pad) end; cbn [negb];
    repeat (apply Forall_cons; split; [apply Hall; b64_lia|]); by try constructor.
Qed.

Lemma RawURL_colon s : ":"%char ∉ bytes (RawURL_Encode s).
Proof.
  unfold RawURL_Encode. rewrite String.list_ascii_of_string_of_list_ascii. intros Hin. apply list_elem_of_fmap in Hin as (c & Hc & Hin).
  pose proof (raw_colon (bytes s)) as Hf. rewrite Forall_forall in Hf. by apply (Hf c).
Qed.

Lemma split_at (c : ascii) x y x' y' : c ∉ x -> c ∉ x' -> x ++ c :: y = x' ++ c :: y' -> x = x' /\ y = y'.
Proof.
  revert x'. induction x as [|a x IH]; intros [|a' x']; simpl; intros Hx Hx' E.
  - by injection E.
  - exfalso. injection E as -> _. apply Hx'. by left.
  - exfalso. injection E as -> _. apply Hx. by left.
  - injection E as -> E. apply not_elem_of_cons in Hx as [_ Hx]. apply not_elem_of_cons in Hx' as [_ Hx'].
    destruct (IH x' Hx Hx' E) as [-> ->]. done.
Qed.

Lemma bytes_inj x y : bytes x = bytes y -> x = y.
Proof. intros E. rewrite <- (String.string_of_list_ascii_of_string x), <- (String.string_of_list_ascii_of_string y). by rewrite E. Qed.

(** The key of an entry determines its tenant and its primary key. *)
Lemma entryKey_inj s a pk a' pk' : entryKey s a pk = entryKey s a' pk' -> a = a' /\ pk = pk'.
Proof.
  unfold entryKey. intros E. apply (inj (String.append (rs_keyPrefix s))) in E. apply (inj (String.append "id:")) in E.
  apply (f_equal bytes) in E. rewrite !list_ascii_cat in E. change (bytes ":") with [":"%char] in E. cbn [app] in E.
  apply split_at in E as [E1 E2]; [|apply RawURL_colon..]. apply bytes_inj in E1, E2.
  apply (f_equal RawURL_Decode) in E1. rewrite !RawURL_roundtrip in E1. by injection E1.
Qed.

(** * Replies of a search

    A map of RESP3 arrives as a map from strings; its pairs are in no order. *)
Definition str_map (l : list (string * Reply)) : Reply := RMapAny (map (fun p => (RStr p.1, p.2)) l).
Definition flat (l : list (string * string)) : list Reply := concat (map (fun p => [RStr p.1; RStr p.2]) l).
Definition texts (l : list (string * string)) : list (string * Reply) := map (fun p => (p.1, RStr p.2)) l.

(** The reply to a search that asks for keys only: under RESP2 the number of results and the keys, under RESP3 a map
    whose results have an id each. *)
Inductive page_reply (ks : list string) : Reply -> Prop :=
| page_resp2 n : page_reply ks (RList (RInt64 n :: map RStr ks))
| page_resp3 l items : NoDup l.*1 -> ("results", RList items) ∈ l ->
    Forall2 (fun k item => exists e, item = str_map e /\ NoDup e.*1 /\ ("id", RStr k) ∈ e) ks items -> page_reply ks (str_map l).

(** The reply to a search with one result: its key and the fields of its hash. *)
Inductive entry_reply (key : string) (attrs : list (string * string)) : Reply -> Prop :=
| entry_resp2 : entry_reply key attrs (RList [RInt64 1; RStr key; RList (flat attrs)])
| entry_resp3 l e : NoDup l.*1 -> ("results", RList [str_map e]) ∈ l -> NoDup e.*1 ->
    ("id", RStr key) ∈ e -> ("extra_attributes", str_map (texts attrs)) ∈ e -> entry_reply key attrs (str_map l).

Lemma any_key_in l k v : NoDup l.*1 -> (k, v) ∈ l -> any_key (map (fun p => (RStr p.1, p.2)) l) k = Some v.
Proof.
  unfold any_key. induction l as [|[k' v'] l IH]; intros Hn Hin; [by apply elem_of_nil in Hin|]. simpl in *. apply NoDup_cons in Hn as [Hk Hn].
  apply elem_of_cons in Hin as [[= <- <-]|Hin]; [by rewrite bool_decide_true|].
  rewrite bool_decide_false; [by apply IH|]. intros ->. apply Hk. apply list_elem_of_fmap. by exists (k, v).
Qed.

Lemma omap_strings (ks : list string) : omap reply_string (map RStr ks) = ks.
Proof. induction ks as [|k ks IH]; [done|]. change (k :: omap reply_string (map RStr ks) = k :: ks). by rewrite IH. Qed.

Lemma extract_page ks r : page_reply ks r -> extractTypedKeys r = ks.
Proof.
  intros [n|l items Hl Hin Hf].
  - unfold extractTypedKeys. destruct ks as [|k ks']; [done|]. apply (omap_strings (k :: ks')).
  - unfold extractTypedKeys, str_map. rewrite (any_key_in _ _ _ Hl Hin).
    clear Hl Hin. induction Hf as [|k item ks items (e & -> & He & Hid) _ IH]; [done|]. cbn [omap list_omap str_map].
    rewrite (any_key_in _ _ _ He Hid). cbn [mbind option_bind reply_string]. by rewrite IH.
Qed.

(** * Round trip *)

Section Roundtrip.
Context `{GoTextLaws} `{FieldJSON} (s : RStore).

Definition gathered (m : gmap string Reply) (l : list (string * Reply)) : gmap string Reply := foldl (fun m p => <[p.1 := p.2]> m) m l.

Lemma resp2_flat l m : resp2_attrs (flat l) m = Ok (gathered m (texts l)).
Proof. revert m. induction l as [|[k v] l IH]; intros m; [done|]. simpl. apply IH. Qed.

Lemma flat_even l : Nat.even (length (flat l)) = true.
Proof. induction l as [|p l IH]; [done|]. exact IH. Qed.

Lemma str_map_read l : redisStringMap (str_map l) = Ok (gathered ∅ l).
Proof.
  unfold redisStringMap, str_map. generalize (∅ : gmap string Reply) as m. induction l as [|[k v] l IH]; intros m; [done|]. simpl. apply IH.
Qed.

Lemma gathered_other l m k : k ∉ l.*1 -> gathered m l !! k = m !! k.
Proof.
  revert m. induction l as [|[k' v] l IH]; intros m Hk; [done|]. simpl in *. apply not_elem_of_cons in Hk as [Hn Hk].
  fold (gathered (<[k' := v]> m) l). rewrite IH by done. by rewrite lookup_insert_ne.
Qed.

Lemma gathered_in l m k v : NoDup l.*1 -> (k, v) ∈ l -> gathered m l !! k = Some v.
Proof.
  revert m. induction l as [|[k' v'] l IH]; intros m Hn Hin; [by apply elem_of_nil in Hin|]. simpl in *. apply NoDup_cons in Hn as [Hk Hn].
  apply elem_of_cons in Hin as [[= <- <-]|Hin]; [|by apply IH]. fold (gathered (<[k := v]> m) l). rewrite gathered_other by done. by rewrite lookup_insert_eq.
Qed.

Lemma texts_keys l : (texts l).*1 = l.*1.
Proof. induction l as [|p l IH]; [done|]. simpl. f_equal. exact IH. Qed.

(** Both readers hand the fields of the hash to the decoder of one entry. *)
Lemma entry_read key attrs r sort : entry_reply key attrs r -> key <> "" ->
  parseResults s r f_zero sort =
    match scanEntry s key (gathered ∅ (texts attrs)) with Ok e => Ok [e] | Err e => Err (EWrap "redis: decode search result" e) end.
Proof.
  intros Hr Hkey. assert (Hone : forall x : res (SemanticMemory.Entry (list GoVal)),
    match (letr entry := x in Ok [entry]) with
    | Err e => Err (EWrap "redis: decode search result" e)
    | Ok entries => Ok (if sort then sort_by en_Score entries else entries)
    end = match x with Ok e => Ok [e] | Err e => Err (EWrap "redis: decode search result" e) end) by (by intros [e|e]; destruct sort).
  rewrite <- Hone. unfold parseResults. change (f_gt f_zero f_zero) with false. cbv iota.
  destruct Hr as [|l e Hl Hin He Hid Hx].
  - unfold parseRESP2Results, searchResultCount. cbn [mbind option_bind length Nat.even resp2_items tail]. unfold redisDocumentID.
    rewrite bool_decide_false by done. cbn [res_bind]. rewrite flat_even. cbn [negb]. rewrite resp2_flat. cbn [res_bind]. done.
  - change (match str_map l with RMapAny _ | RMapStr _ => parseRESP3Results s (str_map l) | RList xs => parseRESP2Results s xs
            | _ => Err (ENew "unexpected response type") end) with (parseRESP3Results s (str_map l)).
    unfold parseRESP3Results. rewrite str_map_read. cbn [res_bind]. rewrite (gathered_in _ _ _ _ Hl Hin). cbn [resp3_items].
    rewrite str_map_read. cbn [res_bind]. rewrite (gathered_in _ _ _ _ He Hid). cbn [default]. unfold redisDocumentID.
    cbn. rewrite bool_decide_false by done. cbn. rewrite (gathered_in _ _ _ _ He Hx). rewrite str_map_read. done.
Qed.

(** C16. What the Redis memory stores comes back: for a struct type it accepts, with distinct hash fields that are not
    named embedding or score, every value of the type (finite numbers, JSON that survives encoding/json, and no field
    of a string or boolean type with a String method of its own, which is what would be written) is encoded, and a
    search reply with its hash, of RESP2 or of RESP3 and in any order of the fields, is decoded to the same value, where
    a time has lost its fraction of a second and its zone and fields without a tag are zero. *)
Theorem redis_memory_roundtrip value embedding key d dist attrs sort :
  parseRedisSchemaType (RStruct (rs_fields s)) = Ok (rs_schema s) ->
  NoDup ("embedding" :: "score" :: map HashField (Fields (rs_schema s))) ->
  Forall (fun f => encodable (rs_fields s) f (value_at value f)) (Fields (rs_schema s)) ->
  key <> "" -> ParseFloat 64 d = Some dist -> f_finite dist = true ->
  exists h, hash_fields s value embedding = Ok h /\
    forall r, attrs ≡ₚ ("score", d) :: map_to_list h -> entry_reply key attrs r ->
     parseResults s r f_zero sort =
       Ok [mkEntryT key (stored_value (Fields (rs_schema s)) value (zero_value (rs_fields s))) (f_sub f_unit dist)].
Proof.
  intros Hp Hn He Hkey Hd Hfin. pose proof (redis_schema_infos _ _ Hp) as Hok.
  apply NoDup_cons in Hn as [Hemb Hn]. apply NoDup_cons in Hn as [Hscore Hn]. apply not_elem_of_cons in Hemb as [_ Hemb].
  unfold hash_fields, buildHashFields. rewrite build_from by done. cbn [res_bind].
  set (m := foldl (fun m f => <[HashField f := enc (rs_fields s) value f]> m) ∅ (Fields (rs_schema s))).
  eexists. split; [done|]. intros r Hperm Hr. rewrite (entry_read _ _ _ _ Hr Hkey). set (h := <["embedding" := _]> m) in *.
  assert (Hnk : NoDup (texts attrs).*1).
  { rewrite texts_keys, Hperm. simpl. apply NoDup_cons. split; [|apply NoDup_fst_map_to_list]. intros Hin.
    apply list_elem_of_fmap in Hin as ([k v] & Hk & Hin). apply elem_of_map_to_list in Hin. simpl in Hk. subst k.
    unfold h in Hin. rewrite lookup_insert_ne in Hin by done. unfold m in Hin. by rewrite inserts_other in Hin by done. }
  assert (Hat : forall k v, (k, v) ∈ ("score", d) :: map_to_list h -> gathered ∅ (texts attrs) !! k = Some (RStr v)).
  { intros k v Hin. apply gathered_in; [done|]. unfold texts. apply list_elem_of_fmap. exists (k, v). split; [done|]. by rewrite Hperm. }
  unfold scanEntry. rewrite (Hat "score" d) by (by left). cbn [mbind option_bind redisScalarString].
  rewrite Hd, Hfin. cbn [negb].
  rewrite (scan_stored (rs_fields s) value); [done|done|done|].
  intros f Hf. apply Hat. right. apply elem_of_map_to_list.
  assert (HashField f ∈ map HashField (Fields (rs_schema s))) as Hin by (by apply list_elem_of_fmap_2).
  unfold h. rewrite lookup_insert_ne by congruence. by apply inserts_field.
Qed.
End Roundtrip.

(** * Tags

    A TAG field without SEPARATOR and without CASESENSITIVE, as FT.CREATE makes the identifier field: the documented
    defaults split a value at commas, drop the spaces around the parts and ignore the case of letters. *)
Definition lower (v : string) : string := string_of (map lower_rune (runes v)).
Definition tags_of (v : string) : list string := map (fun t => lower (trim t)) (split_comma v).

(** A query that asks for one tag of one field. *)
Definition tag_query (query : string) : option (string * string) :=
  match bytes query with
  | "@"%char :: q =>
      let '(field, q) := read_token q in
      match q with
      | ":"%char :: "{"%char :: q =>
          let '(token, q) := read_token q in
          match q with ["}"%char] => Some (String.string_of_list_ascii field, String.string_of_list_ascii token) | _ => None end
      | _ => None
      end
  | _ => None
  end.

Lemma ident_clause_reads `{UnicodeLaws} schema a :
  tag_query (ident_clause schema a) = Some (string_of (runes (identField schema)), string_of (runes a)).
Proof.
  assert (Hread : forall v t, stops t -> read_token (bytes (escapeTag v) ++ t) = (bytes (string_of (runes v)), t)) by (intros; by apply read_escaped).
  unfold tag_query, ident_clause. rewrite !list_ascii_cat.
  change (bytes "@") with ["@"%char]. change (bytes ":{") with [":"%char; "{"%char]. change (bytes "}") with ["}"%char]. cbn [app].
  unfold escapeQueryField. rewrite Hread by (by vm_compute). cbn [app]. rewrite Hread by (by vm_compute).
  by rewrite !String.string_of_list_ascii_of_string.
Qed.

Lemma split_comma_one a : ","%char ∉ bytes a -> split_comma a = [a].
Proof.
  induction a as [|c a IH]; intros Ha; [done|]. cbn [String.list_ascii_of_string split_comma] in *.
  apply not_elem_of_cons in Ha as [Hc Ha]. rewrite bool_decide_false by congruence. by rewrite IH.
Qed.

Section Tags.
Context `{RedisServer} (s : RStore).

(** The index holds the keys with the prefix of the store; a tag selects those whose identifier has it. *)
Definition tagged (token k : string) (d : rdb) : Prop :=
  String.prefix (rs_keyPrefix s) k = true /\
  exists v, HGET k (identField (rs_schema s)) d = Some v /\ lower (trim token) ∈ tags_of v.

(** An identifier of one tag has its own tag. *)
Lemma tagged_own a k d : ","%char ∉ bytes a -> String.prefix (rs_keyPrefix s) k = true ->
  HGET k (identField (rs_schema s)) d = Some a -> tagged a k d.
Proof. intros Ha Hk Hd. split; [done|]. exists a. split; [done|]. unfold tags_of. rewrite split_comma_one by done. by left. Qed.
End Tags.

(** * Tenants apart *)

Section Isolation.
Context `{RedisServer} `{RediSearchLaws} `{GoText} `{FieldJSON} `{UnicodeLaws}.
Context {E : Type} (embed : string -> E -> res (list Ranking.float) * E) (new_uuid : E -> res string * E) (s : RStore).
Implicit Types (w : mworld E) (d : rdb) (k : string) (h : gmap string string).

(** A key has this hash and does not expire. *)
Definition holds k h d : Prop := rd_hash d !! k = Some (mkKeyed h None).

(** Other clients leave the entry alone. *)
Definition left_alone k h (es : list renv) : Prop := Forall (fun e => forall d, holds k h d -> holds k h (re_before e d)) es.

Definition safe k h w : Prop := holds k h (rw_db (mw_redis w)) /\ left_alone k h (rw_env (mw_redis w)).

(** A call keeps the entry safe; what it returns satisfies [Q]. *)
Definition spares {A} k h (m : MM A) (Q : A -> Prop) : Prop :=
  forall w, safe k h w -> safe k h (m w).2 /\ forall a, (m w).1 = Ok a -> Q a.

Lemma purge_holds now k h d : holds k h d -> holds k h (purge now d).
Proof. unfold holds, purge. simpl. intros Hd. apply map_lookup_filter_Some. split; [done|]. by unfold live. Qed.

Lemma spares_send {A} k h (f : LM A) (Q : A -> Prop) :
  (forall now d, holds k h d -> holds k h (f now d).2 /\ forall a, (f now d).1 = Ok a -> Q a) -> spares k h (send f) Q.
Proof.
  intros Hf [[d now es] x] [Hd Hes]. unfold send, rc_send, rrequest, safe. simpl in *.
  destruct es as [|e es]; simpl.
  - destruct (Hf now (purge now d)) as [H1' H2']; [by apply purge_holds|]. destruct (f now (purge now d)) as [r d']. simpl in *.
    split; [split; [done|constructor]|done].
  - apply Forall_cons in Hes as [He Hes]. pose proof (purge_holds (re_now e) k h _ (He d Hd)) as Hd0.
    destruct (Hf (re_now e) _ Hd0) as [H1' H2']. destruct (re_fault e); simpl.
    + destruct (f (re_now e) _) as [r d']. simpl in *. by split.
    + by split.
    + by split.
Qed.

Lemma spares_ret {A} k h (r : res A) (Q : A -> Prop) : (forall a, r = Ok a -> Q a) -> spares k h (m_ret r) Q.
Proof. by intros Hr w Hw. Qed.

Lemma spares_bind {A B} k h (m : MM A) (f : A -> MM B) (Q : A -> Prop) (R : B -> Prop) :
  spares k h m Q -> (forall a, Q a -> spares k h (f a) R) -> spares k h (m_bind m f) R.
Proof.
  intros Hm Hf w Hw. unfold m_bind. destruct (Hm w Hw) as [H1' H2']. destruct (m w) as [[a|e] w']; simpl in *; [|done].
  apply Hf; [by apply H2'|done].
Qed.

Lemma spares_wrap {A} k h msg (m : MM A) (Q : A -> Prop) : spares k h m Q -> spares k h (m_wrap msg m) Q.
Proof.
  intros Hm w Hw. unfold m_wrap. destruct (Hm w Hw) as [H1' H2']. destruct (m w) as [[a|e] w']; simpl in *; [|done].
  split; [done|]. intros a' [= <-]. by apply H2'.
Qed.

Lemma spares_embed k h text : spares k h (m_embed embed text) (fun _ => True).
Proof. intros w Hw. unfold m_embed. destruct (embed text (mw_ext w)). by split. Qed.
Lemma spares_uuid k h : spares k h (m_uuid new_uuid) (fun _ => True).
Proof. intros w Hw. unfold m_uuid. destruct (new_uuid (mw_ext w)). by split. Qed.

Lemma holds_same k h d d' : same_key k d' d -> holds k h d -> holds k h d'.
Proof. unfold holds. intros [-> _]. done. Qed.

Lemma spares_hset k h id fields : k <> id -> spares k h (hset id fields) (fun _ => True).
Proof.
  intros Hk. apply spares_wrap, spares_send. intros now d Hd. split; [|done]. simpl. eapply holds_same; [|exact Hd]. by apply HSET_same.
Qed.

Lemma del_same k keys d : k ∉ keys -> same_key k (foldl (fun d k => DEL k d) d keys) d.
Proof.
  revert d. induction keys as [|k' keys IH]; intros d Hk; simpl; [done|]. apply not_elem_of_cons in Hk as [Hn Hk].
  etrans; [by apply IH|]. by apply DEL_same.
Qed.

Lemma spares_del k h keys : k ∉ keys -> spares k h (send (del keys)) (fun _ => True).
Proof. intros Hk. apply spares_send. intros now d Hd. split; [|done]. eapply holds_same; [|exact Hd]. by apply del_same. Qed.

Lemma spares_embed_content k h content : spares k h (embed_content embed s content) (fun _ => True).
Proof.
  unfold embed_content. case_bool_decide; [by apply spares_ret|].
  apply (spares_bind _ _ _ _ (fun _ => True)); [apply spares_wrap, spares_embed|]. intros v _.
  apply (spares_bind _ _ _ _ (fun _ => True)); [by apply spares_ret|]. intros _ _. by apply spares_ret.
Qed.

(** The tenant of an entry is the one that the ownership check admits. *)
Lemma spares_owned k h a id : h !! identField (rs_schema s) <> Some a ->
  spares k h (entryOwnedBy s a id) (fun owned => owned = true -> k <> id).
Proof.
  intros Hh. apply (spares_bind _ _ _ _ (fun v => v = Some a -> k <> id)).
  - apply spares_wrap, spares_send. intros now d Hd. split; [done|]. intros v [= <-] Hv ->.
    unfold HGET, cmd_hash in Hv. rewrite Hd in Hv. done.
  - intros v Hv. apply spares_ret. intros b [= <-] Hb%bool_decide_eq_true_1. by apply Hv.
Qed.

(** The operations of the store. *)
Inductive mem_call :=
| CRemember (value : list GoVal) | CRecall (q : RQuery) | CUpdate (id : string) (value : list GoVal) | CForget (id : string) | CForgetAll (fuel : nat).

Definition called (a : string) (c : mem_call) w : option (mworld E) :=
  match c with
  | CRemember value => Some (Remember embed new_uuid s a value w).2
  | CRecall q => Some (Recall embed s a q w).2
  | CUpdate id value => Some (Update embed s a id value w).2
  | CForget id => Some (Forget s a id w).2
  | CForgetAll fuel => snd <$> ForgetAll s fuel a w
  end.

(** What a search for a tag answers, as documented: a page of keys that have the tag. *)
Definition finds_tagged : Prop := forall query token args now d r,
  tag_query query = Some (identField (rs_schema s), token) ->
  (FT ("FT.SEARCH" :: rs_indexName s :: query :: "NOCONTENT" :: args) now d).1 = Ok r ->
  exists ks, page_reply ks r /\ forall k, k ∈ ks -> tagged s token k d.

(** The tag under which an identity is searched is one of the tags of another. *)
Definition shares_tag (a b : string) : Prop := lower (trim (string_of (runes a))) ∈ tags_of b.

Lemma spares_remember k h a value : (forall pk, k <> entryKey s a pk) -> spares k h (Remember embed new_uuid s a value) (fun _ => True).
Proof.
  intros Hk. unfold Remember. case_bool_decide; [by apply spares_ret|].
  apply (spares_bind _ _ _ _ (fun _ => True)); [apply spares_embed_content|]. intros v _.
  apply (spares_bind _ _ _ _ (fun _ => True)); [by apply spares_ret|]. intros fields _.
  apply (spares_bind _ _ _ _ (fun _ => True)); [|intros pk _; by apply spares_hset].
  unfold extractPK. destruct (field_of_role s _); cbv zeta; case_bool_decide; first [by apply spares_ret | apply spares_wrap, spares_uuid].
Qed.

Lemma spares_update k h a id value : h !! identField (rs_schema s) <> Some a -> spares k h (Update embed s a id value) (fun _ => True).
Proof.
  intros Hh. unfold Update. case_bool_decide; [by apply spares_ret|]. case_bool_decide; [by apply spares_ret|].
  apply (spares_bind _ _ _ _ _ _ (spares_owned k h a id Hh)). intros [] Ho; [|by apply spares_ret]. cbn [negb].
  apply (spares_bind _ _ _ _ (fun _ => True)); [apply spares_embed_content|]. intros v _.
  apply (spares_bind _ _ _ _ (fun _ => True)); [by apply spares_ret|]. intros fields _. apply spares_hset. by apply Ho.
Qed.

Lemma spares_forget k h a id : h !! identField (rs_schema s) <> Some a -> spares k h (Forget s a id) (fun _ => True).
Proof.
  intros Hh. unfold Forget. case_bool_decide; [by apply spares_ret|]. case_bool_decide; [by apply spares_ret|].
  apply (spares_bind _ _ _ _ _ _ (spares_owned k h a id Hh)). intros [] Ho; [|by apply spares_ret]. cbn [negb].
  apply spares_wrap, spares_del. rewrite list_elem_of_singleton. by apply Ho.
Qed.

Lemma spares_search {A} k h (Q : Reply -> Prop) (msg : string) args (f : Reply -> res A) :
  (forall now d r, holds k h d -> (FT ("FT.SEARCH" :: args) now d).1 = Ok r -> Q r) ->
  forall R : A -> Prop, (forall r a, Q r -> f r = Ok a -> R a) ->
  spares k h (m_bind (m_wrap msg (send (FT ("FT.SEARCH" :: args)))) (fun r => m_ret (f r))) R.
Proof.
  intros HQ R HR. apply (spares_bind _ _ _ _ Q).
  - apply spares_wrap, spares_send. intros now d Hd. rewrite FT_SEARCH_reads. split; [done|]. intros r Hr. by apply (HQ now d).
  - intros r Hr. apply spares_ret. intros a Ha. by apply (HR r).
Qed.

Lemma spares_recall k h a q : spares k h (Recall embed s a q) (fun _ => True).
Proof.
  unfold Recall. case_bool_decide; [by apply spares_ret|].
  apply (spares_bind _ _ _ _ (fun _ => True)); [by apply spares_ret|]. intros _ _.
  apply (spares_bind _ _ _ _ (fun _ => True)); [by apply spares_ret|]. intros fq _.
  apply (spares_bind _ _ _ _ (fun _ => True)); [by apply spares_ret|]. intros order _.
  apply (spares_bind _ _ _ _ (fun _ => True)).
  { case_bool_decide; [by apply (spares_search _ _ (fun _ => True))|by apply spares_ret]. }
  intros limit _. case_bool_decide; [by apply spares_ret|].
  apply (spares_bind _ _ _ _ (fun _ => True)); [apply spares_wrap, spares_embed|]. intros v _.
  apply (spares_bind _ _ _ _ (fun _ => True)); [by apply spares_ret|]. intros _ _.
  unfold search_args. destruct order as [o|]; by apply (spares_search _ _ (fun _ => True)).
Qed.

Lemma spares_pages k h a b fuel offset keys w r w' : finds_tagged -> valid_utf8 (identField (rs_schema s)) -> ~ shares_tag a b ->
  h !! identField (rs_schema s) = Some b -> safe k h w -> k ∉ keys ->
  collectPagedKeys fuel forgetAllPageSize (fetch_page s (ident_clause (rs_schema s) a)) offset keys w = Some (r, w') ->
  safe k h w' /\ forall ks, r = Ok ks -> k ∉ ks.
Proof.
  intros Hx Hv Hs Hh. revert offset keys w. induction fuel as [|fuel IH]; intros offset keys w Hw Hk; simpl; [done|].
  assert (Hread : forall a, tag_query (ident_clause (rs_schema s) a) = Some (identField (rs_schema s), string_of (runes a)))
    by (intros; by rewrite ident_clause_reads, (valid_runes _ Hv)).
  assert (Hp : spares k h (fetch_page s (ident_clause (rs_schema s) a) offset forgetAllPageSize) (fun page => k ∉ page)).
  { unfold fetch_page. apply (spares_search _ _ (fun r => k ∉ extractTypedKeys r)); [|by intros r' x Hr [= <-]].
    intros now d r' Hd Hr Hin. destruct (Hx _ (string_of (runes a)) _ _ _ _ (Hread a) Hr) as (ks & Hpage & Hks).
    rewrite (extract_page _ _ Hpage) in Hin. destruct (Hks _ Hin) as (_ & v & Hget & Htag).
    unfold HGET, cmd_hash in Hget. rewrite Hd in Hget. simpl in Hget. rewrite Hh in Hget. injection Hget as <-. done. }
  destruct (Hp w Hw) as [H1' H2']. destruct (fetch_page _ _ _ _ w) as [[page|e] w1]; simpl in *; [|by intros [= <- <-]].
  assert (Hk' : k ∉ keys ++ page) by (apply not_elem_of_app; split; [done|by apply H2']).
  case_bool_decide; [intros [= <- <-]; split; [done|]; by intros ks [= <-] | by apply IH].
Qed.

Lemma spares_batches k h fuel keys : k ∉ keys -> spares k h (delete_batches fuel keys) (fun _ => True).
Proof.
  revert keys. induction fuel as [|fuel IH]; intros keys Hk; simpl; [by apply spares_ret|].
  destruct keys as [|k0 keys]; [by apply spares_ret|].
  apply (spares_bind _ _ _ _ (fun _ => True)); [apply spares_wrap, spares_del; intros Hin; apply Hk; by apply (subseteq_take _ _ _ Hin)|].
  intros _ _. apply IH. intros Hin. apply Hk. by apply (subseteq_drop _ _ _ Hin).
Qed.

(** C14. Tenants of the Redis memory are kept apart: no remember, recall, update or forget made for one identity (with
    any arguments, faults and requests of other clients in between that leave the entry alone) changes or removes an
    entry of another that does not expire.  A forget all, against a search that answers with keys that have the tag it
    asks for, spares the entries of every identity that does not share the tag: tags are split at commas, trimmed and
    compared without case, so that alice and Alice, or alice and "alice,bob", are not kept apart by it. *)
Theorem redis_memory_isolated a b pk h c w w' :
  a <> b -> h !! identField (rs_schema s) = Some b -> safe (entryKey s b pk) h w ->
  match c with CForgetAll _ => finds_tagged /\ valid_utf8 (identField (rs_schema s)) /\ ~ shares_tag a b | _ => True end ->
  called a c w = Some w' -> holds (entryKey s b pk) h (rw_db (mw_redis w')).
Proof.
  intros Hab Hb Hw Hx Hc. assert (Hne : h !! identField (rs_schema s) <> Some a) by congruence.
  destruct c as [value|q|id value|id|fuel]; simpl in Hc.
  - injection Hc as <-. apply spares_remember; [|done]. intros pk' Hk. apply entryKey_inj in Hk as [-> _]. done.
  - injection Hc as <-. by apply spares_recall.
  - injection Hc as <-. by apply spares_update.
  - injection Hc as <-. by apply spares_forget.
  - destruct Hx as (Hx & Hv & Hs). unfold ForgetAll in Hc. case_bool_decide; [injection Hc as <-; apply Hw|].
    destruct (collectPagedKeys _ _ _ _ _ _) as [[[keys|e] w1]|] eqn:Hp; simpl in Hc; [| |done];
      destruct (spares_pages _ _ _ _ _ _ _ _ _ _ Hx Hv Hs Hb Hw (not_elem_of_nil _) Hp) as [Hw1 Hk]; injection Hc as <-.
    + apply spares_batches; [by apply Hk|done].
    + apply Hw1.
Qed.

End Isolation.

(** * Forgetting everything *)

Section Forgetting.
Context `{RedisServer} `{RediSearchLaws} `{UnicodeLaws} {E : Type} (s : RStore).
Implicit Types (d : rdb) (k : string) (keys all : list string).

(** The page of a search that asks for keys only. *)
Definition search_page (query : string) (offset limit : nat) (now : Z) (d : rdb) : res Reply :=
  (FT ["FT.SEARCH"; rs_indexName s; query; "NOCONTENT"; "LIMIT"; FormatInt (Z.of_nat offset); FormatInt (Z.of_nat limit)] now d).1.

(** Results beyond this many are refused (MAXSEARCHRESULTS). *)
Definition max_results : Z := 1000000.

(** The pages of a query are those of one list of keys. *)
Definition pages_of (query : string) (d : rdb) (ks : list string) : Prop := forall offset limit now,
  Z.of_nat (offset + limit) <= max_results -> exists r, search_page query offset limit now d = Ok r /\ page_reply (take limit (drop offset ks)) r.

(** What a search for a tag answers on this database, as documented: the keys that have the tag, each once and in one order. *)
Definition lists_tagged (d : rdb) : Prop := forall query token, tag_query query = Some (identField (rs_schema s), token) ->
  exists ks, NoDup ks /\ (forall k, k ∈ ks <-> tagged s token k d) /\ pages_of query d ks.

(** With nobody else and no faults a request is its command. *)
Definition alone (d : rdb) (now : Z) (x : E) : mworld E := mkMworld (mkRworld d now []) x.
Definition lasting (d : rdb) : Prop := forall now, purge now d = d.

Lemma send_alone {A} (f : LM A) d now x : lasting d -> send f (alone d now x) = ((f now d).1, alone (f now d).2 now x).
Proof. intros Hd. unfold send, rc_send, rrequest, alone. simpl. rewrite Hd. by destruct (f now d). Qed.

Lemma pages_all query all d now x : pages_of query d all -> lasting d -> Z.of_nat (length all) < max_results -> forall fuel j,
  (j * forgetAllPageSize <= length all)%nat -> (length all < (j + fuel) * forgetAllPageSize)%nat ->
  collectPagedKeys fuel forgetAllPageSize (fetch_page s query) (j * forgetAllPageSize) (take (j * forgetAllPageSize) all) (alone d now x) =
    Some (Ok all, alone d now x).
Proof.
  intros Hl Hd Hmax. induction fuel as [|fuel IH]; intros j Ho Hf; [unfold forgetAllPageSize in *; lia|]. cbn [collectPagedKeys].
  destruct (Hl (j * forgetAllPageSize)%nat forgetAllPageSize now) as (r & Hr & Hpage); [unfold forgetAllPageSize, max_results in *; lia|].
  unfold fetch_page at 1, m_bind, m_wrap. rewrite send_alone by done. rewrite FT_SEARCH_reads. unfold search_page in Hr. rewrite Hr.
  cbn [fst snd m_ret]. rewrite (extract_page _ _ Hpage).
  rewrite take_take_drop, length_take, length_drop.
  case_bool_decide as Hc.
  - rewrite firstn_all2 by lia. done.
  - rewrite Nat.min_l by lia. replace (j * forgetAllPageSize + forgetAllPageSize)%nat with (S j * forgetAllPageSize)%nat by lia.
    apply IH; unfold forgetAllPageSize in *; lia.
Qed.

Lemma lasting_del d keys : lasting d -> lasting (foldl (fun d k => DEL k d) d keys).
Proof.
  revert d. induction keys as [|k keys IH]; intros d Hd; [done|]. simpl. apply IH. intros now. specialize (Hd now).
  unfold DEL, purge in *. simpl. destruct d; simpl in *. injection Hd as E1 E2 E3 E4. f_equal; rewrite map_filter_delete; congruence.
Qed.

Lemma batches_all fuel keys d now x : (length keys <= fuel)%nat -> lasting d ->
  delete_batches fuel keys (alone d now x) = (Ok tt, alone (foldl (fun d k => DEL k d) d keys) now x).
Proof.
  revert keys d. induction fuel as [|fuel IH]; intros keys d Hf Hd; destruct keys as [|k keys]; simpl in Hf; try done; [lia|].
  cbn [delete_batches]. unfold m_bind, m_wrap. rewrite send_alone by done. unfold del, lua_do. cbn [fst snd].
  rewrite IH; [|rewrite length_drop; unfold forgetAllDeleteBatch; simpl; lia | by apply lasting_del].
  by rewrite <- foldl_app, take_drop.
Qed.

Lemma del_all_gone keys d k : k ∈ keys -> rd_hash (foldl (fun d k => DEL k d) d keys) !! k = None.
Proof.
  revert d. induction keys as [|k' keys IH]; intros d Hk; [by apply elem_of_nil in Hk|]. simpl.
  destruct (decide (k ∈ keys)) as [Hin|Hin]; [by apply IH|]. apply elem_of_cons in Hk as [->|]; [|done].
  destruct (del_same k' keys (DEL k' d) Hin) as [-> _]. simpl. by rewrite lookup_delete_eq.
Qed.

(** C18. ForgetAll ends and forgets everything of a tenant, when no request fails, no other client writes meanwhile, no
    key expires, and the search (its replies of RESP2 or of RESP3) lists the keys that have a tag page by page, fewer
    than a million of them: one round more than there are full pages is enough, every key with the tag of the identity
    is deleted and every other key is as before.  Among the deleted are all entries of the identity itself if it is
    UTF-8, without a comma. *)
Theorem redis_forget_all_complete a d now x :
  a <> "" -> valid_utf8 (identField (rs_schema s)) -> lists_tagged d -> lasting d ->
  exists all, NoDup all /\ (forall k, k ∈ all <-> tagged s (string_of (runes a)) k d) /\
    forall fuel, Z.of_nat (length all) < max_results -> (length all < fuel * forgetAllPageSize)%nat ->
    exists d', ForgetAll s fuel a (alone d now x) = Some (Ok tt, alone d' now x) /\
      (forall k, k ∈ all -> rd_hash d' !! k = None) /\ (forall k, k ∉ all -> same_key k d' d) /\
      (valid_utf8 a -> ","%char ∉ bytes a -> forall k, String.prefix (rs_keyPrefix s) k = true ->
         HGET k (identField (rs_schema s)) d = Some a -> rd_hash d' !! k = None).
Proof.
  intros Ha Hv Hl Hd. destruct (Hl (ident_clause (rs_schema s) a) (string_of (runes a))) as (all & Hnd & Hall & Hpages);
    [by rewrite ident_clause_reads, (valid_runes _ Hv)|].
  exists all. split; [done|]. split; [done|]. intros fuel Hmax Hf. unfold ForgetAll. rewrite bool_decide_false by done.
  pose proof (pages_all _ _ _ now x Hpages Hd Hmax fuel 0 ltac:(simpl; lia) ltac:(simpl; lia)) as Hp. change (take (0 * _) all) with (@nil string) in Hp.
  change (0 * _)%nat with 0%nat in Hp. rewrite Hp. rewrite batches_all by done.
  assert (Hgone : forall k, k ∈ all -> rd_hash (foldl (fun d k => DEL k d) d all) !! k = None) by (intros k Hk; by apply del_all_gone).
  eexists. split; [done|]. split_and!; [exact Hgone | intros k Hk; by apply del_same|].
  intros Hva Hc k Hk Hget. apply Hgone, Hall. rewrite (valid_runes _ Hva). by apply tagged_own.
Qed.

End Forgetting.
