(* ===== verification/RedisMemoryRuns.v ===== *)
(** Runs of the Redis memory store on sample types: instances of the texts, tables and the search that the theorems
    assume, their witnesses, and behaviours of the code that surprise. *)
From Stdlib Require Import Ascii SpecFloat.
From S2P Require Import Prelude Errors Messages Execution Ranking Decimal Base64.
From S2P Require Import SemanticMemory SqlConversation ExecutionBackends RedisServer RedisConversation Chunks GoStruct.
From S2P Require Import RedisRateProps RedisSchema RedisQuery RedisMemory RedisQueryProps RedisMemoryProps.
Local Open Scope Z_scope.

#[export] Instance ascii_tables : UnicodeTables := {| IsLetter r := between 65 r 90 || between 97 r 122; IsDigit r := between 48 r 57 |}.
#[export] Instance ascii_laws : UnicodeLaws.
Proof. by split. Qed.
#[export] Instance no_json : FieldJSON := {| json_Marshal _ _ := None; json_Unmarshal _ _ := None |}.

(** * A search over tag fields

    A stored value is indexed under its tags; a query for one tag finds the hashes under the prefix that have it. *)
Definition tag_keys (norm : string -> string) (tags : string -> list string) (prefix query : string) (d : rdb) : list string :=
  match tag_query query with
  | Some (field, token) =>
      (List.filter (fun p : string * keyed (gmap string string) =>
         String.prefix prefix p.1 && match kv_val p.2 !! field with Some v => bool_decide (norm token ∈ tags v) | None => false end)
         (map_to_list (rd_hash d))).*1
  | None => []
  end.
Definition arg (args : list string) (i : nat) : string := nth i args "".
Definition number_arg (args : list string) (i : nat) : nat := match read_N (arg args i) with Some n => N.to_nat n | None => 0%nat end.

(** A page of keys in both versions of the protocol. *)
Definition page (resp3 : bool) (n : nat) (ks : list string) : Reply :=
  if resp3 then
    str_map [("attributes", RList []); ("total_results", RInt64 (Z.of_nat n)); ("format", RStr "STRING");
             ("results", RList (map (fun k => str_map [("id", RStr k); ("values", RList [])]) ks)); ("warning", RList [])]
  else RList (RInt64 (Z.of_nat n) :: map RStr ks).

Lemma page_ok resp3 n ks : page_reply ks (page resp3 n ks).
Proof.
  destruct resp3; [|apply page_resp2]. eapply page_resp3.
  - apply (bool_decide_eq_true_1 _). reflexivity.
  - do 3 right. left.
  - induction ks as [|k ks IH]; simpl; constructor; [|exact IH]. eexists. split; [reflexivity|].
    split; [apply (bool_decide_eq_true_1 _); reflexivity | left].
Qed.

Definition tag_search (resp3 : bool) (prefix : string) (norm : string -> string) (tags : string -> list string) : RediSearch := {|
  FT args now d :=
    if bool_decide (arg args 0 = "FT.SEARCH") then
      let keys := tag_keys norm tags prefix (arg args 2) d in
      (Ok (page resp3 (length keys) (take (number_arg args 6) (drop (number_arg args 5) keys))), d)
    else (Ok (RStr "OK"), d) |}.
Lemma tag_search_laws resp3 prefix norm tags : @RediSearchLaws (tag_search resp3 prefix norm tags).
Proof. by split. Qed.

(** Every value is one tag, as it is. *)
Definition exact_search : RediSearch := tag_search false "mem:" (fun v => v) (fun v => [v]).
(** The documented defaults of a TAG field. *)
Definition default_search : RediSearch := tag_search true "mem:" (fun v => lower (trim v)) tags_of.

(** * A sample type *)

Definition field (name : string) (t : GoTyp) (tag : string) : Field := GoStruct.mkField name true t None tag "" "" "" "".
Definition note_fields : list Field := [
  field "ID" TString "id,pk"; field "Tenant" TString "tenant,identifier"; field "Text" TString "content,content";
  field "Count" (TUint 16) "count"; field "Created" TTime "created,numeric"; field "Flag" TBool "flag"; field "Scratch" TString "-"].
Definition note_schema : redisSchema := Eval vm_compute in
  match parseRedisSchemaType (RStruct note_fields) with Ok s => s | Err _ => mkSchema [] None None None end.
Definition notes : RStore := mkRStore "idx" "mem:" 1 note_schema note_fields.
Definition note (id tenant : string) : list GoVal :=
  [VString id; VString tenant; VString "hello, world"; VUint 65535; VTime 1700000000 5 "UTC"; VBool true; VString "kept in memory"].

Lemma note_schema_parsed : parseRedisSchemaType (RStruct note_fields) = Ok note_schema.
Proof. vm_compute. reflexivity. Qed.

Lemma redis_schema_well_formed_witness : schema_ok note_fields note_schema /\ IdentifierIdx note_schema = Some 1%nat.
Proof. split; [|reflexivity]. destruct (redis_schema_well_formed note_fields note_schema note_schema_parsed) as [Hok _]. exact Hok. Defined.

(** Tags that contradict themselves or types that a hash cannot hold are refused. *)
Example schemas_refused :
  forallb (fun f => negb (is_ok (parseRedisSchemaType (RStruct (f :: note_fields)))))
    [field "A" TString "a,pk"; field "A" TString "a,identifier"; field "A" (TInt 64) "a,tag,numeric"; field "A" TString "a,numeric"; field "A" TTime "a,tag";
     field "A" TOther "a"; field "A" (TPtr TString) "a"; field "A" TString "a,pk,jsonb"] = true /\
  is_ok (parseRedisSchemaType (RStruct [field "T" TString "t,identifier"])) = false /\
  is_ok (parseRedisSchemaType (RStruct (field "A" TOther "a,jsonb" :: field "B" TTime "b" :: note_fields))) = true.
Proof. vm_compute. done. Qed.

Definition one : Ranking.float := f_unit.
Definition note_hash (tenant : string) : gmap string string := Eval vm_compute in
  match hash_fields notes (note "7" tenant) [one] with Ok h => h | Err _ => ∅ end.

Lemma redis_memory_roundtrip_witness :
  exists h, hash_fields notes (note "7" "alice") [one] = Ok h /\
    parseResults notes (str_map [("total_results", RInt64 1);
        ("results", RList [str_map [("id", RStr "mem:x"); ("extra_attributes", str_map (texts (("score", "+") :: map_to_list h)))]])]) f_zero true =
      Ok [mkEntryT "mem:x" (<[6%nat := VString ""]> (<[4%nat := VTime 1700000000 0 "Local"]> (note "7" "alice"))) (f_sub f_unit f_zero)].
Proof.
  destruct (redis_memory_roundtrip notes (note "7" "alice") [one] "mem:x" "+" f_zero
    (("score", "+") :: match hash_fields notes (note "7" "alice") [one] with Ok h => map_to_list h | Err _ => [] end) true) as (h & Hh & Hr).
  - exact note_schema_parsed.
  - apply (bool_decide_eq_true_1 _). vm_compute. reflexivity.
  - repeat (apply Forall_cons; split; [split; vm_compute; reflexivity|]). apply Forall_nil. exact I.
  - discriminate.
  - reflexivity.
  - reflexivity.
  - exists h. split; [exact Hh|]. rewrite Hh in Hr. rewrite (Hr _ (Permutation_refl _)); [vm_compute; reflexivity|].
    eapply entry_resp3; [apply (bool_decide_eq_true_1 _); reflexivity | right; left | apply (bool_decide_eq_true_1 _); reflexivity | left | right; left].
Defined.

(** A filter whose value tries to end the tag of the tenant. *)
Definition hostile : list RFilter := [
  mkFilter "id" "eq" (FOne (VString "x}) | (@tenant:{bob") 0); mkFilter "count" "in" (FMany [Some (VInt 3, 64); Some (VFloat f_unit, 64)]);
  mkFilter "created" "gt" (FOne (VTime 10 0 "UTC") 0)].
Definition hostile_query : string := Eval vm_compute in
  match buildRecallFilter note_schema "al|ice" hostile with Ok q => q | Err _ => "" end.

Lemma redis_recall_scoped_witness :
  buildRecallFilter note_schema "al|ice" hostile = Ok hostile_query /\ scan Outside 0 (bytes hostile_query) = Some (Outside, 0%nat).
Proof.
  assert (Hq : buildRecallFilter note_schema "al|ice" hostile = Ok hostile_query) by (vm_compute; reflexivity).
  split; [exact Hq|]. destruct (redis_recall_scoped note_schema "al|ice" hostile hostile_query Hq) as (rest & _ & _ & _ & _ & _ & Hs). exact Hs.
Defined.

(** * Two tenants *)

Definition key_of (tenant id : string) : string := entryKey notes tenant id.
Definition no_embed (_ : string) (x : unit) : res (list Ranking.float) * unit := (Ok [one], x).
Definition no_uuid (x : unit) : res string * unit := (Ok "u", x).
Definition both (t1 t2 : string) : rdb :=
  mkRdb {[ key_of t1 "7" := mkKeyed (note_hash t1) None; key_of t2 "7" := mkKeyed (note_hash t2) None ]} ∅ ∅ ∅.
Definition forget_all (S : RediSearch) (a : string) (d : rdb) : option (res unit * mworld unit) :=
  ForgetAll (H:=RedisRateProps.plain_server) (H0:=S) notes 1 a (alone d 0 tt).

Lemma default_keys query token d k : tag_query query = Some (identField note_schema, token) ->
  k ∈ tag_keys (fun v => lower (trim v)) tags_of "mem:" query d <-> tagged notes token k d.
Proof.
  intros Hq. unfold tag_keys, tagged, HGET, cmd_hash. rewrite Hq. rewrite list_elem_of_fmap. change (rs_keyPrefix notes) with "mem:".
  change (rs_schema notes) with note_schema. split.
  - intros ([k' h] & -> & Hin). apply list_elem_of_In, filter_In in Hin as [Hin Hk]. apply list_elem_of_In, elem_of_map_to_list in Hin.
    apply andb_true_iff in Hk as [Hp Hk]. cbn [fst snd] in *. split; [done|]. rewrite Hin. simpl.
    destruct (kv_val h !! _) as [v|]; [|done]. exists v. split; [done|]. by apply bool_decide_eq_true_1 in Hk.
  - intros (Hp & v & Hget & Htag). destruct (rd_hash d !! k) as [h|] eqn:Hh; simpl in Hget; [|done].
    exists (k, h). split; [done|]. apply list_elem_of_In, filter_In. split; [by apply list_elem_of_In, elem_of_map_to_list|].
    cbn [fst snd]. rewrite Hp, Hget. by rewrite bool_decide_true.
Qed.

Lemma default_finds : finds_tagged (H0:=default_search) notes.
Proof.
  intros query token args now d r Hq Hr. cbn [FT default_search tag_search] in Hr.
  change (bool_decide (arg _ 0 = "FT.SEARCH")) with true in Hr. cbv iota zeta in Hr. cbn [fst] in Hr. injection Hr as <-.
  eexists. split; [apply (page_ok true)|]. intros k Hk. apply (subseteq_take _ _ _), (subseteq_drop _ _ _) in Hk. exact (proj1 (default_keys query token d k Hq) Hk).
Qed.

Lemma read_N_nat n : read_N (FormatInt (Z.of_nat n)) = Some (N.of_nat n).
Proof. rewrite <- nat_N_Z, <- FormatUint_Z. unfold FormatUint. apply read_N_pretty. Qed.

Lemma NoDup_filter_fst {V} (P : string * V -> bool) (l : list (string * V)) : NoDup l.*1 -> NoDup (List.filter P l).*1.
Proof.
  induction l as [|[k v] l IH]; intros Hn; [exact Hn|]. simpl in *. apply NoDup_cons in Hn as [Hk Hn]. destruct (P (k, v)); [|by apply IH].
  simpl. apply NoDup_cons. split; [|by apply IH]. intros Hin. apply Hk. apply list_elem_of_fmap in Hin as (p & -> & Hin).
  apply list_elem_of_In, filter_In in Hin as [Hin _]. apply list_elem_of_fmap. exists p. split; [done|]. by apply list_elem_of_In.
Qed.

Lemma default_lists d : lists_tagged (H0:=default_search) notes d.
Proof.
  intros query token Hq. exists (tag_keys (fun v => lower (trim v)) tags_of "mem:" query d). split; [|split; [intros k; by apply default_keys|]].
  { unfold tag_keys. rewrite Hq. apply (NoDup_filter_fst _ (map_to_list (rd_hash d))), NoDup_fst_map_to_list. }
  intros offset limit now _. eexists. split; [|apply (page_ok true)]. unfold search_page. cbn [FT default_search tag_search].
  change (bool_decide (arg _ 0 = "FT.SEARCH")) with true. cbv iota zeta. cbn [fst]. change (arg _ 2) with query.
  unfold number_arg. cbn [arg nth]. rewrite !read_N_nat, !Nat2N.id. reflexivity.
Qed.

Lemma tenant_utf8 : valid_utf8 (identField note_schema).
Proof. exists (runes "tenant"). split; [|vm_compute; reflexivity]. repeat (apply Forall_cons; split; [reflexivity|]). apply Forall_nil. exact I. Qed.

(** Forgetting everything of alice leaves the entry of bob. *)
Lemma redis_memory_isolated_witness :
  exists w', called (H:=plain_server) (H0:=default_search) no_embed no_uuid notes "alice" (CForgetAll 1) (alone (both "alice" "bob") 0 tt) = Some w' /\
    holds (key_of "bob" "7") (note_hash "bob") (rw_db (mw_redis w')) /\ rd_hash (rw_db (mw_redis w')) !! key_of "alice" "7" = None.
Proof.
  assert (Hc : called (H:=plain_server) (H0:=default_search) no_embed no_uuid notes "alice" (CForgetAll 1) (alone (both "alice" "bob") 0 tt) =
    Some (alone (mkRdb {[ key_of "bob" "7" := mkKeyed (note_hash "bob") None ]} ∅ ∅ ∅) 0 tt)) by (vm_compute; reflexivity).
  eexists. split; [exact Hc|]. split; [|vm_compute; reflexivity].
  refine (redis_memory_isolated (H:=plain_server) (H0:=default_search) no_embed no_uuid notes "alice" "bob" "7" (note_hash "bob") (CForgetAll 1) _ _ _ _ _ _ Hc).
  - apply tag_search_laws.
  - discriminate.
  - vm_compute. reflexivity.
  - split; [vm_compute; reflexivity | constructor].
  - split; [exact default_finds|]. split; [exact tenant_utf8|]. unfold shares_tag. apply (bool_decide_eq_true_1 _). vm_compute. reflexivity.
Defined.

Lemma redis_forget_all_complete_witness :
  let d := both "alice" "bob" in
  exists d', ForgetAll (H:=plain_server) (H0:=default_search) notes 1 "alice" (alone d 0 tt) = Some (Ok tt, alone d' 0 tt) /\
    rd_hash d' !! key_of "alice" "7" = None /\ same_key (key_of "bob" "7") d' d.
Proof.
  intros d.
  destruct (redis_forget_all_complete (H:=plain_server) (H0:=default_search) (H1:=tag_search_laws _ _ _ _) notes "alice" d 0 tt) as (all & Hnd & Hall & Hrun).
  - discriminate.
  - exact tenant_utf8.
  - apply default_lists.
  - intros now. vm_compute. reflexivity.
  - assert (Hk : forall k, k ∈ all <-> k = key_of "alice" "7").
    { intros k. rewrite Hall. rewrite <- (default_keys (ident_clause note_schema "alice")) by (vm_compute; reflexivity).
      assert (tag_keys (fun v => lower (trim v)) tags_of "mem:" (ident_clause note_schema "alice") d = [key_of "alice" "7"]) as -> by (vm_compute; reflexivity).
      by rewrite list_elem_of_singleton. }
    assert (Hone : all = [key_of "alice" "7"]).
    { destruct all as [|k0 [|k1 all]].
      - exfalso. apply (not_elem_of_nil (key_of "alice" "7")), Hk. reflexivity.
      - f_equal. apply Hk. left.
      - exfalso. apply NoDup_cons in Hnd as [Hn _]. apply Hn. rewrite (proj1 (Hk k0)) by left. rewrite (proj1 (Hk k1)) by (right; left). left. }
    destruct (Hrun 1%nat) as (d' & H1 & H2 & H3 & _); [rewrite Hone; reflexivity | rewrite Hone; vm_compute; lia|].
    exists d'. split; [exact H1|]. split; [apply H2, Hk; reflexivity|]. apply H3. rewrite Hone. apply (bool_decide_eq_true_1 _). vm_compute. reflexivity.
Defined.

(** * Behaviours that surprise *)

(** A decidable fact about a run, by running it. *)
Ltac decided := apply (bool_decide_eq_true_1 _); vm_compute; reflexivity.
#[local] Instance keyed_eq_dec {V} `{EqDecision V} : EqDecision (keyed V).
Proof. solve_decision. Defined.

(** buildFTCreate gives the identifier neither SEPARATOR nor CASESENSITIVE: with the documented defaults, forgetting
    everything of alice also deletes the entries of Alice and of the tenant named "alice,bob", and forgetting everything of
    the tenant named "alice,bob" deletes nothing and reports success. *)
Lemma redis_tag_scope_leaks :
  option_map (fun p => rd_hash (rw_db (mw_redis p.2))) (forget_all default_search "alice" (both "Alice" "alice,bob")) = Some ∅ /\
  In ["tenant"; "TAG"] (map create_field (Fields note_schema)) /\
  option_map (fun p => rd_hash (rw_db (mw_redis p.2))) (forget_all exact_search "alice" (both "Alice" "alice,bob")) = Some (rd_hash (both "Alice" "alice,bob")) /\
  option_map (fun p => (is_ok p.1, rd_hash (rw_db (mw_redis p.2)))) (forget_all default_search "alice,bob" (both "alice,bob" "carol")) =
    Some (true, rd_hash (both "alice,bob" "carol")).
Proof. split_and!; [decided | right; by left | decided | decided]. Qed.

(** A Forget that comes between the ownership check and the write of an Update is undone: the entry exists again. *)
Lemma redis_update_resurrects :
  let quiet := mkRenv (fun d => d) 0 NoFault in
  let forgets := mkRenv (DEL (key_of "alice" "7")) 0 NoFault in
  let run := Update (H:=plain_server) no_embed notes "alice" (key_of "alice" "7") (note "7" "alice")
               (mkMworld (mkRworld (both "alice" "bob") 0 [quiet; forgets]) tt) in
  is_ok run.1 = true /\ rd_hash (rw_db (mw_redis run.2)) !! key_of "alice" "7" = Some (mkKeyed (note_hash "alice") None).
Proof. split; decided. Qed.

(** A reply that is no search result counts as an empty page: ForgetAll reports success and deletes nothing. *)
Definition broken_search : RediSearch := {| FT _ _ d := (Ok (RMapStr [("results", RList [])]), d) |}.
Lemma redis_forget_all_malformed :
  option_map (fun p => (is_ok p.1, rd_hash (rw_db (mw_redis p.2)))) (forget_all broken_search "alice" (both "alice" "bob")) = Some (true, rd_hash (both "alice" "bob")) /\
  is_ok (Recall (H:=plain_server) (H0:=broken_search) no_embed notes "alice" (mkQuery "hello" 0 f_zero [] []) (alone (both "alice" "bob") 0 tt)).1 = false.
Proof. split; decided. Qed.

(** Tags are accepted whose values cannot come back: a field named embedding is overwritten by the vector, and of two
    fields with one hash name the first is lost. *)
Definition clash_fields : list Field :=
  [field "T" TString "t,identifier"; field "C" TString "c,content"; field "E" TString "embedding"; field "X" TString "x"; field "Y" TString "x"].
Definition clash_store : RStore := mkRStore "idx" "mem:" 1
  (match parseRedisSchemaType (RStruct clash_fields) with Ok s => s | Err _ => mkSchema [] None None None end) clash_fields.
Lemma redis_names_clash :
  is_ok (parseRedisSchemaType (RStruct clash_fields)) = true /\
  match hash_fields clash_store [VString "t"; VString "c"; VString "mine"; VString "first"; VString "second"] [one] with
  | Ok h => h !! "embedding" = Some (float64sToFloat32Bytes [one]) /\ h !! "x" = Some "second"
  | Err _ => False
  end.
Proof. vm_compute. done. Qed.

(** A string type with a String method is written by that method and read back verbatim. *)
Definition secret : Field := GoStruct.mkField "Key" true TString (Some (fun _ => "***")) "key" "" "" "" "".
Lemma redis_stringer_masks :
  match parseRedisFieldTag secret 0 "key" [] with
  | Ok info => encode_field secret info (VString "abc") = Ok "***" /\ decodeRedisField secret info (RStr "***") = Some (VString "***")
  | Err _ => False
  end.
Proof. vm_compute. done. Qed.

(** The embedding is checked to be finite before it is rounded to float32: 2^128 passes and is stored as infinity. *)
Lemma redis_embedding_overflows :
  validateEmbedding 1 [S754_finite false 4503599627370496 76] = Ok tt /\
  map (fun x => Float32bits (to_float32 x)) [S754_finite false 4503599627370496 76] = [2139095040%N].
Proof. vm_compute. done. Qed.

(** An identifier that is no UTF-8 is asked for under another text than it is stored. *)
Lemma redis_invalid_identifier :
  let id := String (ascii_of_nat 255) "" in
  bytes (string_of (runes id)) <> bytes id /\ escapeTag id = escapeTag (String (ascii_of_nat 254) "").
Proof. split; [vm_compute; discriminate | vm_compute; reflexivity]. Qed.
