(* ===== verification/SqlText.v ===== *)
(** The text of SQL statements: reading it as tokens, quoted identifiers and numbered parameters, on which the
    PostgreSQL stores with caller-chosen table and column names rely. *)
From stdpp Require Import pretty.
From Stdlib Require Import Ascii.
From S2P Require Import Prelude Errors Decimal GoStruct.
Local Open Scope N_scope.

Abbreviation sbytes := String.list_ascii_of_string.

(** * Tokens

    As the lexical structure of PostgreSQL has them: key words and plain names, quoted identifiers, in which a doubled
    quote is a quote, parameters, operators and single characters. *)
Inductive token := TWord (w : list ascii) | TName (n : list ascii) | TParam (n : N) | TOp (o : list ascii) | TChar (c : ascii) | TBad.

Inductive lex_state := LStart | LWord (w : list ascii) | LName (n : list ascii) | LQuote (n : list ascii) | LParam (n : option N) | LOp (o : list ascii).

Definition quote : ascii := ascii_of_N 34.
Definition code (c : ascii) : N := N_of_ascii c.
Definition is_white (c : ascii) : bool := (code c =? 32) || ((9 <=? code c) && (code c <=? 13)).
Definition is_word (c : ascii) : bool :=
  let n := code c in ((48 <=? n) && (n <=? 57)) || ((65 <=? n) && (n <=? 90)) || ((97 <=? n) && (n <=? 122)) || (n =? 95) || (128 <=? n).
Definition is_op (c : ascii) : bool := existsb (Ascii.eqb c) (sbytes "+-*/<>=~!@#%^&|`?").

(** What an unfinished token is. *)
Definition finish (st : lex_state) : list token :=
  match st with
  | LStart => [] | LWord w => [TWord w] | LName _ => [TBad] | LQuote n => [TName n]
  | LParam (Some n) => [TParam n] | LParam None => [TBad] | LOp o => [TOp o]
  end.

(** The first character of a token. *)
Definition begin_token (c : ascii) : list token * lex_state :=
  if is_white c then ([], LStart)
  else if Ascii.eqb c quote then ([], LName [])
  else if Ascii.eqb c "$" then ([], LParam None)
  else if is_word c then ([], LWord [c])
  else if is_op c then ([], LOp [c])
  else ([TChar c], LStart).

Definition anew (st : lex_state) (c : ascii) : list token * lex_state :=
  let '(ts, st') := begin_token c in (finish st ++ ts, st').

Definition lex_step (st : lex_state) (c : ascii) : list token * lex_state :=
  match st with
  | LName n => if Ascii.eqb c quote then ([], LQuote n) else ([], LName (n ++ [c]))
  | LQuote n => if Ascii.eqb c quote then ([], LName (n ++ [c])) else anew st c
  | LWord w => if is_word c then ([], LWord (w ++ [c])) else anew st c
  | LOp o => if is_op c then ([], LOp (o ++ [c])) else anew st c
  | LParam n => match digit_val c with Some d => ([], LParam (Some (default 0 n * 10 + d))) | None => anew st c end
  | LStart => anew st c
  end.

Fixpoint lex_run (st : lex_state) (s : list ascii) : list token * lex_state :=
  match s with
  | [] => ([], st)
  | c :: s => let '(ts, st) := lex_step st c in let '(rest, st) := lex_run st s in (ts ++ rest, st)
  end.

Definition tokens (text : string) : list token := let '(ts, st) := lex_run LStart (sbytes text) in ts ++ finish st.

Lemma lex_run_app st a b : lex_run st (a ++ b) = let '(ts, st1) := lex_run st a in let '(us, st2) := lex_run st1 b in (ts ++ us, st2).
Proof.
  revert st. induction a as [|c a IH]; intros st; simpl; [by destruct (lex_run st b)|].
  destruct (lex_step st c) as [ts st1]. rewrite IH. destruct (lex_run st1 a) as [us st2]. destruct (lex_run st2 b) as [vs st3]. by rewrite app_assoc.
Qed.

(** * Quoted identifiers

    pgx.Identifier.Sanitize of one part: documented to be safe for interpolation into SQL. *)
Class PgIdentifier := { Sanitize : string -> string }.
Class PgIdentifierLaws `{PgIdentifier} := {
  Sanitize_reads : forall name, ascii_of_nat 0 ∉ sbytes name -> lex_run LStart (sbytes (Sanitize name)) = ([], LQuote (sbytes name)) }.

(** In quotes, quotes doubled. *)
Fixpoint double_quotes (s : list ascii) : list ascii :=
  match s with [] => [] | c :: s => if Ascii.eqb c quote then quote :: quote :: double_quotes s else c :: double_quotes s end.
#[export] Instance quoting : PgIdentifier := {| Sanitize name := String.string_of_list_ascii (quote :: double_quotes (sbytes name) ++ [quote]) |}.

Lemma double_quotes_read n s : lex_run (LName n) (double_quotes s ++ [quote]) = ([], LQuote (n ++ s)).
Proof.
  revert n. induction s as [|c s IH]; intros n; [simpl; by rewrite app_nil_r|]. cbn [double_quotes].
  destruct (Ascii.eqb_spec c quote) as [->|Hc].
  - specialize (IH (n ++ [quote])). rewrite <- app_assoc in IH. cbn [app] in *.
    change (lex_run (LName n) (quote :: quote :: double_quotes s ++ [quote])) with
      (let '(rest, st) := (let '(rest, st) := lex_run (LName (n ++ [quote])) (double_quotes s ++ [quote]) in ([] ++ rest, st)) in ([] ++ rest, st)).
    by rewrite IH.
  - cbn [app lex_run lex_step]. rewrite (proj2 (Ascii.eqb_neq c quote) Hc), IH. by rewrite <- app_assoc.
Qed.

#[export] Instance quoting_laws : PgIdentifierLaws.
Proof.
  split. intros name _. unfold Sanitize, quoting. rewrite String.list_ascii_of_string_of_list_ascii.
  change (lex_run LStart (quote :: ?s)) with (let '(rest, st) := lex_run (LName []) s in ([] ++ rest, st)).
  cbn [lex_run]. change (lex_step LStart quote) with (@nil token, LName []). cbv iota. by rewrite double_quotes_read.
Qed.

(** * Numbers *)

Lemma lex_digits acc s n : read_digits acc s = Some n -> lex_run (LParam (Some acc)) (sbytes s) = ([], LParam (Some n)).
Proof.
  revert acc. induction s as [|c s IH]; intros acc Hs; [by injection Hs as ->|]. cbn [read_digits] in Hs. cbn [sbytes lex_run lex_step].
  destruct (digit_val c) as [d|]; [|done]. cbn [from_option id]. by rewrite (IH _ Hs).
Qed.

Lemma lex_param n : lex_run (LParam None) (sbytes (FormatInt (Z.of_N n))) = ([], LParam (Some n)).
Proof.
  rewrite <- FormatUint_Z. unfold FormatUint. pose proof (read_N_pretty n) as Hr. unfold read_N in Hr.
  destruct (pretty n) as [|c s]; [done|]. cbn [read_digits] in Hr. cbn [sbytes lex_run lex_step].
  destruct (digit_val c) as [d|]; [|done]. cbn [from_option id]. change (0 * 10 + d) with d in *. by rewrite (lex_digits _ _ _ Hr).
Qed.

(** * Reading a text piece by piece

    A piece that ends at a separator, and one whose last token is still open. *)
Definition complete (s : string) (ts : list token) : Prop := lex_run LStart (sbytes s) = (ts, LStart).
Definition piece (s : string) (ts : list token) : Prop :=
  exists us st, lex_run LStart (sbytes s) = (us, st) /\ us ++ finish st = ts /\ (forall n, st <> LName n).

(** Characters that end any token but a quoted one. *)
Definition separates (c : ascii) : bool := negb (is_word c || is_op c || Ascii.eqb c quote || Ascii.eqb c "$").
Definition starts_apart (s : string) : Prop := match s with String c _ => separates c = true | EmptyString => True end.

Lemma complete_piece s ts : complete s ts -> piece s ts.
Proof. intros Hs. exists ts, LStart. split; [done|]. by rewrite app_nil_r. Qed.

Lemma separates_step st c : separates c = true -> (forall n, st <> LName n) -> lex_step st c = (finish st ++ (begin_token c).1, (begin_token c).2).
Proof.
  unfold separates. intros Hc Hst. apply negb_true_iff in Hc. rewrite !orb_false_iff in Hc. destruct Hc as [[[Hw Ho] Hq] Hd].
  assert (Hdig : digit_val c = None).
  { unfold digit_val. unfold is_word, code in Hw. case_bool_decide as Hr; [|done]. exfalso.
    rewrite (proj2 (N.leb_le 48 _)), (proj2 (N.leb_le _ 57)) in Hw by lia. done. }
  assert (Ha : forall st, anew st c = (finish st ++ (begin_token c).1, (begin_token c).2)).
  { intros st'. unfold anew. by destruct (begin_token c). }
  destruct st; cbn [lex_step]; rewrite ?Hw, ?Ho, ?Hq, ?Hdig; try done. by destruct (Hst n).
Qed.

Lemma lex_open st s : starts_apart s -> s <> "" -> (forall n, st <> LName n) ->
  lex_run st (sbytes s) = let '(ts, st') := lex_run LStart (sbytes s) in (finish st ++ ts, st').
Proof.
  intros Hs Hne Hst. destruct s as [|c s]; [done|]. cbn [sbytes lex_run]. rewrite !separates_step by done. cbn [finish app].
  destruct (lex_run (begin_token c).2 (sbytes s)). by rewrite app_assoc.
Qed.

Lemma piece_app s1 s2 ts1 ts2 : piece s1 ts1 -> piece s2 ts2 -> starts_apart s2 -> piece (s1 +:+ s2) (ts1 ++ ts2).
Proof.
  intros (us1 & st1 & H1 & <- & Hn1) (us2 & st2 & H2 & <- & Hn2) Hap. unfold piece. rewrite list_ascii_cat, lex_run_app, H1.
  destruct (decide (s2 = "")) as [->|Hne].
  - injection H2 as <- <-. exists us1, st1. simpl. rewrite !app_nil_r. done.
  - rewrite lex_open by done. rewrite H2. exists (us1 ++ finish st1 ++ us2), st2. split; [done|]. by rewrite <- !app_assoc.
Qed.

Lemma complete_app s1 s2 ts1 ts2 : complete s1 ts1 -> piece s2 ts2 -> piece (s1 +:+ s2) (ts1 ++ ts2).
Proof.
  intros H1 (us2 & st2 & H2 & <- & Hn2). unfold piece. rewrite list_ascii_cat, lex_run_app, H1, H2. exists (ts1 ++ us2), st2.
  split; [done|]. by rewrite <- app_assoc.
Qed.

Lemma complete_app2 s1 s2 ts1 ts2 : complete s1 ts1 -> complete s2 ts2 -> complete (s1 +:+ s2) (ts1 ++ ts2).
Proof. unfold complete. intros H1 H2. rewrite list_ascii_cat, lex_run_app, H1, H2. done. Qed.

Lemma piece_complete s1 s2 ts1 ts2 : piece s1 ts1 -> complete s2 ts2 -> starts_apart s2 -> s2 <> "" -> complete (s1 +:+ s2) (ts1 ++ ts2).
Proof.
  intros (us1 & st1 & H1 & <- & Hn1) H2 Hap Hne. unfold complete. rewrite list_ascii_cat, lex_run_app, H1, lex_open by done. rewrite H2.
  by rewrite <- app_assoc.
Qed.

Lemma piece_tokens s ts : piece s ts -> tokens s = ts.
Proof. intros (us & st & Hs & <- & _). unfold tokens. by rewrite Hs. Qed.

(** The text of a parameter. *)
Definition param (n : N) : string := "$" +:+ FormatInt (Z.of_N n).
Lemma piece_param n : piece (param n) [TParam n].
Proof.
  exists [], (LParam (Some n)). split; [|by split]. unfold param. rewrite list_ascii_cat, lex_run_app.
  change (lex_run LStart (sbytes "$")) with (@nil token, LParam None). cbv iota. by rewrite lex_param.
Qed.

Section Names.
Context `{PgIdentifierLaws}.
Lemma piece_name name : ascii_of_nat 0 ∉ sbytes name -> piece (Sanitize name) [TName (sbytes name)].
Proof. intros Hn. exists [], (LQuote (sbytes name)). split; [by apply Sanitize_reads|]. done. Qed.
End Names.

(** * Lists *)

(** strings.Join *)
Fixpoint Join (xs : list string) (sep : string) : string :=
  match xs with [] => "" | [x] => x | x :: xs => x +:+ sep +:+ Join xs sep end.
Fixpoint commas (xs : list (list token)) : list token :=
  match xs with [] => [] | [x] => x | x :: xs => x ++ TChar "," :: commas xs end.

Lemma piece_join xs tss : Forall2 piece xs tss -> piece (Join xs ", ") (commas tss).
Proof.
  induction 1 as [|x ts xs tss Hx Hxs IH]; [by exists [], LStart|]. destruct Hxs as [|x' ts' xs tss Hx' Hxs]; [done|].
  change (Join (x :: x' :: xs) ", ") with (x +:+ ", " +:+ Join (x' :: xs) ", ").
  change (commas (ts :: ts' :: tss)) with (ts ++ [TChar ","] ++ commas (ts' :: tss)).
  apply piece_app; [done| |done]. apply complete_app; [done|]. exact IH.
Qed.

Lemma string_cat_assoc x y z : (x +:+ y) +:+ z = x +:+ y +:+ z.
Proof.
  induction x as [|c x IH]; [done|]. change (String c x +:+ y) with (String c (x +:+ y)).
  change (String c (x +:+ y) +:+ z) with (String c ((x +:+ y) +:+ z)). by rewrite IH.
Qed.

Definition kw (w : string) : token := TWord (sbytes w).


(** SQL statements with parameters: the tokens they are written with, and what executing them does to the rows of a
    table, as the PostgreSQL documentation has it. *)

(** Columns by name, values by the number of their parameter; conditions are equalities, all of which must hold. *)
Inductive PgStmt :=
| StInsert (table : string) (cols : list (string * N))
| StUpdate (table : string) (sets conds : list (string * N))
| StDelete (table : string) (conds : list (string * N)).

Definition name_token (n : string) : token := TName (sbytes n).
Definition op_token (o : string) : token := TOp (sbytes o).
Definition eq_tokens (c : string * N) : list token := [name_token c.1; op_token "="; TParam c.2].
Fixpoint and_tokens (cs : list (string * N)) : list token :=
  match cs with [] => [] | [c] => eq_tokens c | c :: cs => eq_tokens c ++ kw "AND" :: and_tokens cs end.

Definition stmt_tokens (st : PgStmt) : list token :=
  match st with
  | StInsert table cols =>
      [kw "INSERT"; kw "INTO"; name_token table; TChar "("] ++ commas (map (fun c => [name_token c.1]) cols) ++ [TChar ")"; kw "VALUES"; TChar "("] ++
      commas (map (fun c => [TParam c.2]) cols) ++ [TChar ")"]
  | StUpdate table sets conds => [kw "UPDATE"; name_token table; kw "SET"] ++ commas (map eq_tokens sets) ++ kw "WHERE" :: and_tokens conds
  | StDelete table conds => [kw "DELETE"; kw "FROM"; name_token table; kw "WHERE"] ++ and_tokens conds
  end.

Section Binding.
Context {V : Type}.

Definition arg_of (args : list V) (n : N) : option V := if bool_decide (n = 0) then None else args !! N.to_nat (n - 1).
Definition bind_args (args : list V) (cs : list (string * N)) : option (list (string * V)) :=
  mapM (fun c => (fun v => (c.1, v)) <$> arg_of args c.2) cs.

Definition assign (sets : list (string * V)) (r : gmap string V) : gmap string V := foldl (fun r c => <[c.1 := c.2]> r) r sets.

Lemma arg_at args n : arg_of args (N.of_nat (S n)) = args !! n.
Proof. unfold arg_of. rewrite bool_decide_false by lia. f_equal. lia. Qed.

Lemma bind_cons args name n v cs vs : arg_of args n = Some v -> bind_args args cs = Some vs ->
  bind_args args ((name, n) :: cs) = Some ((name, v) :: vs).
Proof. intros Hv Hcs. unfold bind_args in *. cbn [mapM fst snd]. rewrite Hv, Hcs. done. Qed.

(** Arguments numbered from 1 in order. *)
Lemma bind_numbered (names : list string) (vs pre suf : list V) : length names = length vs ->
  bind_args (pre ++ vs ++ suf) (imap (fun i name => (name, N.of_nat (S (length pre + i)))) names) = Some (zip names vs).
Proof.
  revert vs pre. induction names as [|name names IH]; intros vs pre Hl; destruct vs as [|v vs]; simpl in Hl; try done.
  cbn [imap zip zip_with]. apply bind_cons.
  - rewrite arg_at, Nat.add_0_r. by apply list_lookup_middle.
  - specialize (IH vs (pre ++ [v]) ltac:(lia)). rewrite <- app_assoc in IH. cbn [app] in IH. rewrite <- IH. f_equal.
    apply imap_ext. intros i x _. simpl. rewrite length_app. simpl. do 3 f_equal. lia.
Qed.

Lemma bind_app args xs ys bx by_ : bind_args args xs = Some bx -> bind_args args ys = Some by_ -> bind_args args (xs ++ ys) = Some (bx ++ by_).
Proof. unfold bind_args. intros Hx Hy. apply mapM_Some. apply Forall2_app; by apply mapM_Some. Qed.

Lemma bind_one args name n v : args !! n = Some v -> bind_args args [(name, N.of_nat (S n))] = Some [(name, v)].
Proof. intros Hv. apply bind_cons; [by rewrite arg_at|done]. Qed.

Lemma assign_other sets r k : k ∉ sets.*1 -> assign sets r !! k = r !! k.
Proof.
  unfold assign. revert r. induction sets as [|[k' v] sets IH]; intros r Hk; [done|]. simpl in *. apply not_elem_of_cons in Hk as [Hn Hk].
  rewrite IH by done. by rewrite lookup_insert_ne.
Qed.

End Binding.

Section Meaning.
(** Values; [veq] is the = of SQL between a column and a parameter, [complete_row] fills in the defaults. *)
Context {V : Type} (veq : V -> V -> bool) (complete_row : gmap string V -> gmap string V).

Abbreviation Row := (gmap string V).

Definition satisfies (conds : list (string * V)) (r : Row) : bool :=
  forallb (fun c => match r !! c.1 with Some v => veq v c.2 | None => false end) conds.
(** The number of rows affected, and the rows afterwards. *)
Definition run_stmt (st : PgStmt) (args : list V) (rows : list Row) : option (Z * list Row) :=
  match st with
  | StInsert _ cols => vs ← bind_args args cols; Some (1%Z, rows ++ [complete_row (list_to_map vs)])
  | StUpdate _ sets conds =>
      ss ← bind_args args sets; cs ← bind_args args conds;
      Some (Z.of_nat (length (List.filter (satisfies cs) rows)), map (fun r => if satisfies cs r then assign ss r else r) rows)
  | StDelete _ conds =>
      cs ← bind_args args conds;
      Some (Z.of_nat (length (List.filter (satisfies cs) rows)), List.filter (fun r => negb (satisfies cs r)) rows)
  end.

Lemma filter_map_same (p : Row -> bool) (f : Row -> Row) rows :
  (forall r, p r = true -> f r = r) -> (forall r, p r = false -> p (f r) = false) -> List.filter p (map f rows) = List.filter p rows.
Proof.
  intros H1 H2. induction rows as [|r rows IH]; [done|]. simpl. destruct (p r) eqn:Hp; [by rewrite (H1 r Hp), Hp, IH|by rewrite (H2 r Hp), IH].
Qed.

Lemma filter_filter_same (p q : Row -> bool) rows : (forall r, p r = true -> q r = true) -> List.filter p (List.filter q rows) = List.filter p rows.
Proof.
  intros Hpq. induction rows as [|r rows IH]; [done|]. simpl. destruct (q r) eqn:Hq; simpl; [by rewrite IH|].
  destruct (p r) eqn:Hp; [|done]. by rewrite (Hpq r Hp) in Hq.
Qed.
End Meaning.

(** * Texts of statements *)

Section Texts.
Context `{PgIdentifierLaws}.

Definition readable (name : string) : Prop := ascii_of_nat 0 ∉ sbytes name.

Lemma piece_equals name n : readable name -> piece (Sanitize name +:+ " = " +:+ param n) (eq_tokens (name, n)).
Proof.
  intros Hn. change (eq_tokens (name, n)) with ([name_token name] ++ [op_token "="] ++ [TParam n]). apply piece_app; [by apply piece_name| |done].
  apply complete_app; [done|apply piece_param].
Qed.

Lemma piece_names names : Forall readable names -> piece (Join (map Sanitize names) ", ") (commas (map (fun n => [name_token n]) names)).
Proof. intros Hn. apply piece_join. induction Hn; simpl; constructor; [by apply piece_name|done]. Qed.

Lemma piece_params ns : piece (Join (map param ns) ", ") (commas (map (fun n => [TParam n]) ns)).
Proof. apply piece_join. induction ns; simpl; constructor; [apply piece_param|done]. Qed.
End Texts.
