(* ===== verification/PgMemory.v ===== *)
(** The PostgreSQL memory store (agent/memory/postgres): struct schemas and their cache, the SQL texts and arguments of
    every operation, compilation of recall queries, and its tools. *)
From Stdlib Require Import Ascii SpecFloat.
From S2P Require Import Prelude Errors Messages Execution Schema Tool Ranking Decimal.
From S2P Require Import SemanticMemory SqlConversation GoStruct RedisSchema SqlText.
Local Open Scope Z_scope.

Definition pg_error {A} (msg : string) : res A := Err (ENew ("postgres: " +:+ msg)).

(** * Schemas *)

(* agent/memory/postgres/schema.go:13-22: columnRole *)
Inductive columnRole := roleNone | rolePK | roleIdentifier | roleContent.
#[global] Instance columnRole_eq_dec : EqDecision columnRole.
Proof. solve_decision. Defined.

(* agent/memory/postgres/schema.go:25-32: columnInfo *)
Record columnInfo := mkColumn { FieldIndex : nat; QueryField : string; Column : string; Role : columnRole; IsJSONB : bool; NoInput : bool }.
#[global] Instance eta_column : Settable columnInfo := fun c =>
  mkColumn (FieldIndex c) (QueryField c) (Column c) (Role c) (IsJSONB c) (NoInput c).

(* agent/memory/postgres/schema.go:35-41: tableSchema *)
Record tableSchema := mkTable { Columns : list columnInfo; PKIndex : option nat; IdentifierIdx : option nat; ContentIdx : option nat; EmbeddingCol : string }.

(** One part of a tag after the column name. *)
(* agent/memory/postgres/schema.go:101-119: roles in parseSchema *)
Definition column_part (st : columnInfo * tableSchema) (part : string) : columnInfo * tableSchema :=
  let '(info, s) := st in
  let idx := length (Columns s) in
  let m := trim part in
  if bool_decide (m = "pk") then
    (info <| Role := rolePK |> <| NoInput := true |>, mkTable (Columns s) (Some idx) (IdentifierIdx s) (ContentIdx s) (EmbeddingCol s))
  else if bool_decide (m = "identifier") then
    (info <| Role := roleIdentifier |> <| NoInput := true |>, mkTable (Columns s) (PKIndex s) (Some idx) (ContentIdx s) (EmbeddingCol s))
  else if bool_decide (m = "content") then
    (info <| Role := roleContent |>, mkTable (Columns s) (PKIndex s) (IdentifierIdx s) (Some idx) (EmbeddingCol s))
  else if bool_decide (m = "jsonb") then (info <| IsJSONB := true |>, s)
  else if bool_decide (m = "noinput") then (info <| NoInput := true |>, s)
  else st.

(* agent/memory/postgres/schema.go:77-122: fields of parseSchema *)
Fixpoint schema_columns (i : nat) (fs : list Field) (s : tableSchema) : tableSchema :=
  match fs with
  | [] => s
  | f :: fs =>
      match stored_tag f with
      | None => schema_columns (S i) fs s
      | Some (name, parts) =>
          let '(info, s) := foldl column_part (mkColumn i name name roleNone false false, s) parts in
          schema_columns (S i) fs (mkTable (Columns s ++ [info]) (PKIndex s) (IdentifierIdx s) (ContentIdx s) (EmbeddingCol s))
      end
  end.

(* agent/memory/postgres/schema.go: cloneSchema *)
Definition cloneSchema (s : tableSchema) (embeddingCol : string) : tableSchema :=
  mkTable (Columns s) (PKIndex s) (IdentifierIdx s) (ContentIdx s) embeddingCol.

(** [cache] is the entry of the type in the schema cache, before and after. *)
(* agent/memory/postgres/schema.go: parseSchema *)
Definition parseSchema (cache : option tableSchema) (t : RType) (embeddingCol : string) : res tableSchema * option tableSchema :=
  match t with
  | RPointer => (pg_error "T must be a non-pointer struct", cache)
  | RNotStruct => (pg_error "T must be a struct", cache)
  | RStruct fs =>
      match cache with
      | Some cached => (Ok (cloneSchema cached embeddingCol), cache)
      | None =>
          let s := schema_columns 0 fs (mkTable [] None None None "") in
          match IdentifierIdx s, ContentIdx s with
          | None, _ => (pg_error "struct has no identifier field", cache)
          | _, None => (pg_error "struct has no content field", cache)
          | Some _, Some _ => (Ok (cloneSchema s embeddingCol), Some s)
          end
      end
  end.

(* agent/memory/postgres/schema.go: tableSchema.columnNames *)
Definition columnNames (s : tableSchema) : list string := map Column (Columns s).

(* agent/memory/postgres/schema.go: tableSchema.recallColumn *)
Definition recallColumn (s : tableSchema) (field : string) : option string :=
  if bool_decide (field = "") then None
  else Column <$> List.find (fun c => bool_decide (QueryField c = field)) (Columns s).

(* agent/memory/postgres/schema.go: tableSchema.insertColumns *)
Definition insertColumns (s : tableSchema) : string := Join (columnNames s ++ [EmbeddingCol s]) ", ".

(* agent/memory/postgres/schema.go: placeholders *)
Definition placeholders (n : nat) : string := Join (map (fun i => param (N.of_nat (S i))) (seq 0 n)) ", ".

(** * The store *)

(** An argument of a statement. *)
Inductive PgArg :=
| PGo (v : GoVal) | PJson (data : string) | PVector (v : list Ranking.float) | PArray (vs : list GoVal).

(** The values of a filter: none, a scalar of a type, or a slice or array with its element type. *)
Inductive PgValue := PvNil | PvOne (t : GoTyp) (is_nil : bool) (v : GoVal) | PvSeq (slice is_nil : bool) (elem : GoTyp) (vs : list GoVal).
(* agent/memory/memory.go:51-55: Filter *)
Record PgFilter := mkPgFilter { pf_Field : string; pf_Operator : string; pf_Value : PgValue }.
(* agent/memory/memory.go:79-85: RecallQuery *)
Record PgQuery := mkPgQuery {
  pq_Text : string; pq_Limit : Z; pq_MinSimilarity : Ranking.float; pq_Filters : list PgFilter; pq_Order : list Order }.

(** The store with the struct type it is made for. *)
(* agent/memory/postgres/store.go:20-28: Store *)
Record PStore := mkPStore {
  ps_dim : Z; ps_tableName : string; ps_embeddingCol : string; ps_distMetric : string; ps_schema : tableSchema; ps_fields : list Field }.

(* agent/memory/postgres/store.go:33-37: storeConfig *)
Record pgConfig := mkPgConfig { pc_tableName : string; pc_embeddingCol : string; pc_distMetric : string }.
(* agent/memory/postgres/store.go: WithTableName *)
Definition WithTableName (name : string) (c : pgConfig) : pgConfig :=
  if bool_decide (name <> "") then mkPgConfig name (pc_embeddingCol c) (pc_distMetric c) else c.
(* agent/memory/postgres/store.go: WithEmbeddingColumn *)
Definition WithEmbeddingColumn (name : string) (c : pgConfig) : pgConfig :=
  if bool_decide (name <> "") then mkPgConfig (pc_tableName c) name (pc_distMetric c) else c.
(* agent/memory/postgres/store.go: WithDistanceMetric *)
Definition WithDistanceMetric (metric : string) (c : pgConfig) : pgConfig :=
  if bool_decide (metric <> "") then mkPgConfig (pc_tableName c) (pc_embeddingCol c) metric else c.

Definition nul : ascii := ascii_of_nat 0.
Definition valid_name (name : string) : bool := negb (bool_decide (name = "")) && negb (bool_decide (nul ∈ sbytes name)).

Section Store.
Context `{PgIdentifier} `{GoText} `{FieldJSON}.

(** [defaultTable] is the name of the type in lower case with an s. *)
(* agent/memory/postgres/store.go: NewStore *)
Definition NewStore (pool_set embedder_set : bool) (cache : option tableSchema) (t : RType) (defaultTable : string) (dim : Z)
  (opts : list (pgConfig -> pgConfig)) : res PStore * option tableSchema :=
  if negb pool_set then (pg_error "pool is required", cache)
  else if negb embedder_set then (pg_error "embedder is required", cache)
  else if bool_decide (dim < 1) then (pg_error "dim must be at least 1", cache)
  else
    let cfg := foldl (fun c o => o c) (mkPgConfig defaultTable "embedding" "cosine") opts in
    if negb (bool_decide (pc_distMetric cfg ∈ ["cosine"; "l2"; "inner_product"])) then (pg_error "unsupported distance metric", cache)
    else
      match parseSchema cache t (pc_embeddingCol cfg) with
      | (Err e, cache) => (Err e, cache)
      | (Ok schema, cache) =>
          if negb (forallb valid_name (pc_tableName cfg :: pc_embeddingCol cfg :: map Column (Columns schema))) then (pg_error "identifier is invalid", cache)
          else
            let embed := Sanitize (pc_embeddingCol cfg) in
            let schema := mkTable (map (fun c => c <| Column := Sanitize (Column c) |>) (Columns schema))
                            (PKIndex schema) (IdentifierIdx schema) (ContentIdx schema) embed in
            (Ok (mkPStore dim (Sanitize (pc_tableName cfg)) embed (pc_distMetric cfg) schema (match t with RStruct fs => fs | _ => [] end)), cache)
      end.

Context (s : PStore).

Definition column_at (i : option nat) : option columnInfo := i ≫= fun i => Columns (ps_schema s) !! i.
Definition value_of (value : list GoVal) (c : columnInfo) : GoVal := nth (FieldIndex c) value (VOther "").
Definition field_of (c : columnInfo) : Field := nth (FieldIndex c) (ps_fields s) no_field.

(* agent/memory/postgres/store.go: setIdentifierField *)
Definition setIdentifierField (value : list GoVal) (id : string) : list GoVal :=
  match column_at (IdentifierIdx (ps_schema s)) with
  | Some c => if bool_decide (fd_type (field_of c) = TString) then <[FieldIndex c := VString id]> value else value
  | None => value
  end.

(* agent/memory/postgres/store.go: Store.extractContent *)
Definition extractContent (value : list GoVal) : string :=
  match column_at (ContentIdx (ps_schema s)) with Some c => show_field (field_of c) (value_of value c) | None => "" end.

(* agent/memory/postgres/store.go: Store.extractPK *)
Definition extractPK (value : list GoVal) : string :=
  match column_at (PKIndex (ps_schema s)) with Some c => show_field (field_of c) (value_of value c) | None => "" end.

(** reflect.Value.IsZero *)
Definition IsZero (v : GoVal) : bool :=
  match v with
  | VInt z => bool_decide (z = 0) | VUint n => bool_decide (n = 0%N) | VFloat x => f_is_zero x | VString t => bool_decide (t = "")
  | VBool b => negb b | VTime u n z => bool_decide (u = -62135596800 /\ n = 0 /\ z = "UTC") | VOther x => bool_decide (x = "")
  end.

(* agent/memory/postgres/store.go:278-289: argument of a column *)
Definition column_arg (c : columnInfo) (v : GoVal) : res PgArg :=
  if IsJSONB c then match json_Marshal (fd_type (field_of c)) v with Some data => Ok (PJson data) | None => Err (ENew "marshal jsonb field") end
  else Ok (PGo v).

Fixpoint column_args (cs : list columnInfo) (value : list GoVal) : res (list PgArg) :=
  match cs with
  | [] => Ok []
  | c :: cs => letr a := column_arg c (value_of value c) in letr rest := column_args cs value in Ok (a :: rest)
  end.

(* agent/memory/postgres/store.go: Store.extractValues *)
Definition extractValues (value : list GoVal) : res (list PgArg) := column_args (Columns (ps_schema s)) value.

(** The columns of an INSERT: a primary key and a noinput column are left out when zero. *)
Definition inserted (value : list GoVal) (ic : nat * columnInfo) : bool :=
  negb ((bool_decide (PKIndex (ps_schema s) = Some ic.1) || NoInput ic.2) && IsZero (value_of value ic.2)).
Definition insert_columns (value : list GoVal) : list columnInfo :=
  map snd (List.filter (inserted value) (imap pair (Columns (ps_schema s)))).

(* agent/memory/postgres/store.go: Store.extractInsertValues *)
Definition extractInsertValues (value : list GoVal) : res (list string * list PgArg) :=
  letr args := column_args (insert_columns value) value in Ok (map Column (insert_columns value), args).

(* agent/memory/postgres/store.go: float64sToFloat32 *)
Definition float64sToFloat32 (v : list Ranking.float) : list Ranking.float := map to_float32 v.

(** * Statements: a text and its arguments *)

(* agent/memory/postgres/store.go:165-181: statement of Remember *)
Definition insert_statement (value : list GoVal) (embedding : list Ranking.float) : res (string * list PgArg) :=
  letr ca := extractInsertValues value in
  let args := ca.2 ++ [PVector (float64sToFloat32 embedding)] in
  let cols := ca.1 ++ [EmbeddingCol (ps_schema s)] in
  Ok ("INSERT INTO " +:+ ps_tableName s +:+ " (" +:+ Join cols ", " +:+ ") VALUES (" +:+ placeholders (length args) +:+ ")", args).

(** The columns that an UPDATE sets: all but the primary key and the identifier. *)
Definition update_columns : list columnInfo :=
  map snd (List.filter (fun ic : nat * columnInfo =>
      negb (bool_decide (PKIndex (ps_schema s) = Some ic.1) || bool_decide (IdentifierIdx (ps_schema s) = Some ic.1)))
    (imap pair (Columns (ps_schema s)))).

Definition equals (column : string) (n : nat) : string := column +:+ " = " +:+ param (N.of_nat n).

(* agent/memory/postgres/store.go:400-446: statement of Update *)
Definition update_statement (identifier id : string) (value : list GoVal) (embedding : list Ranking.float) : res (string * list PgArg) :=
  match column_args update_columns value with
  | Err e => Err (EWrap "postgres" e)
  | Ok args =>
      let n := length args in
      let args := args ++ [PVector (float64sToFloat32 embedding)] in
      let setClauses := imap (fun i c => equals (Column c) (S i)) update_columns ++ [equals (ps_embeddingCol s) (S n)] in
      let pkCol := from_option Column "" (column_at (PKIndex (ps_schema s))) in
      let identifierCol := from_option Column "" (column_at (IdentifierIdx (ps_schema s))) in
      let args := args ++ [PGo (VString id); PGo (VString identifier)] in
      Ok ("UPDATE " +:+ ps_tableName s +:+ " SET " +:+ Join setClauses ", " +:+ " WHERE " +:+ equals pkCol (S (S n)) +:+
          " AND " +:+ equals identifierCol (S (S (S n))), args)
  end.

(* agent/memory/postgres/store.go:463-465: statement of ForgetAll *)
Definition forget_all_statement (identifier : string) : string * list PgArg :=
  let identifierCol := from_option Column "" (column_at (IdentifierIdx (ps_schema s))) in
  ("DELETE FROM " +:+ ps_tableName s +:+ " WHERE " +:+ equals identifierCol 1, [PGo (VString identifier)]).

(* agent/memory/postgres/store.go:482-485: statement of Forget *)
Definition forget_statement (identifier id : string) : string * list PgArg :=
  let pkCol := from_option Column "" (column_at (PKIndex (ps_schema s))) in
  let identifierCol := from_option Column "" (column_at (IdentifierIdx (ps_schema s))) in
  ("DELETE FROM " +:+ ps_tableName s +:+ " WHERE " +:+ equals pkCol 1 +:+ " AND " +:+ equals identifierCol 2, [PGo (VString id); PGo (VString identifier)]).

(** * Recall queries *)

(* agent/memory/postgres/recall_options.go: validateRecallQuery *)
Definition pg_validateRecallQuery (q : PgQuery) : res unit :=
  if bool_decide (pq_Text q = "") then Err (EWrap "text must not be empty" ErrInvalidRecallQuery)
  else if bool_decide (pq_Limit q < 0) then Err (EWrap "limit must not be negative" ErrInvalidRecallQuery)
  else if f_lt_zero (pq_MinSimilarity q) || f_gt (pq_MinSimilarity q) f_unit || f_is_nan (pq_MinSimilarity q)
  then Err (EWrap "minimum similarity must be between 0 and 1" ErrInvalidRecallQuery)
  else Ok tt.

(* agent/memory/postgres/store.go: pgvectorOp *)
Definition pgvectorOp (metric : string) : string :=
  if bool_decide (metric = "l2") then "<->" else if bool_decide (metric = "inner_product") then "<#>" else "<=>".

(* agent/memory/postgres/store.go: scoreExpr *)
Definition scoreExpr (embeddingCol op par : string) : string :=
  if bool_decide (op = "<->") then "1 / (1 + (" +:+ embeddingCol +:+ " " +:+ op +:+ " " +:+ par +:+ "))"
  else if bool_decide (op = "<#>") then "-(" +:+ embeddingCol +:+ " " +:+ op +:+ " " +:+ par +:+ ")"
  else "1 - (" +:+ embeddingCol +:+ " " +:+ op +:+ " " +:+ par +:+ ")".

(* agent/memory/postgres/store.go: Store.distanceOp *)
Definition distanceOp : string := pgvectorOp (ps_distMetric s).

(* agent/memory/postgres/recall_options.go: postgresFilterOperator *)
Definition postgresFilterOperator (op : string) : res string :=
  if bool_decide (op = "eq") then Ok "="
  else if bool_decide (op = "ne") then Ok "<>"
  else if bool_decide (op = "gt") then Ok ">"
  else if bool_decide (op = "gte") then Ok ">="
  else if bool_decide (op = "lt") then Ok "<"
  else if bool_decide (op = "lte") then Ok "<="
  else if bool_decide (op = "in") then Ok "= ANY"
  else Err (EWrap "operator" ErrUnsupportedFilter).

(* agent/memory/postgres/recall_options.go: postgresOrderDirection *)
Definition postgresOrderDirection (d : string) : res string :=
  if bool_decide (d = "asc") then Ok "ASC" else if bool_decide (d = "desc") then Ok "DESC" else Err (EWrap "direction" ErrUnsupportedOrder).

(* agent/memory/postgres/recall_options.go: supportedScalarType *)
Fixpoint supportedScalarType (t : GoTyp) : bool :=
  match t with TOther => false | TPtr t => supportedScalarType t | _ => true end.

(* agent/memory/postgres/recall_options.go: supportedArrayElement *)
Definition supportedArrayElement (t : GoTyp) : bool :=
  match t with TPtr t => supportedScalarType t | _ => supportedScalarType t end.

(* agent/memory/postgres/recall_options.go: validateFilterValue *)
Definition validateFilterValue (op : string) (v : PgValue) : res unit :=
  match v with
  | PvNil => Err (EWrap "nil value" ErrUnsupportedFilter)
  | PvOne t is_nil _ =>
      if bool_decide (op = "in") then Err (EWrap "operator requires a typed slice or array" ErrUnsupportedFilter)
      else if is_nil || negb (supportedScalarType t) then Err (EWrap "operator does not support the value" ErrUnsupportedFilter)
      else Ok tt
  | PvSeq slice is_nil elem _ =>
      if bool_decide (op = "in") then
        if slice && is_nil then Err (EWrap "operator does not support a nil slice" ErrUnsupportedFilter)
        else if negb (supportedArrayElement elem) then Err (EWrap "operator does not support the value" ErrUnsupportedFilter)
        else Ok tt
      else Err (EWrap "operator does not support the value" ErrUnsupportedFilter)
  end.

Definition filter_arg (v : PgValue) : PgArg :=
  match v with PvOne _ _ v => PGo v | PvSeq _ _ _ vs => PArray vs | PvNil => PArray [] end.

(** The clauses of the filters from parameter [n] on, and their arguments. *)
(* agent/memory/postgres/recall_options.go:53-74: filters of buildRecallQuery *)
Fixpoint filter_clauses (n : nat) (filters : list PgFilter) : res (string * list PgArg) :=
  match filters with
  | [] => Ok ("", [])
  | f :: filters =>
      match recallColumn (ps_schema s) (pf_Field f) with
      | None => Err (EWrap "filter field" ErrUnsupportedFilter)
      | Some column =>
          letr operator := postgresFilterOperator (pf_Operator f) in
          letr _ := validateFilterValue (pf_Operator f) (pf_Value f) in
          let clause := if bool_decide (pf_Operator f = "in") then " AND " +:+ column +:+ " = ANY(" +:+ param (N.of_nat n) +:+ ")"
                        else " AND " +:+ column +:+ " " +:+ operator +:+ " " +:+ param (N.of_nat n) in
          letr rest := filter_clauses (S n) filters in
          Ok (clause +:+ rest.1, filter_arg (pf_Value f) :: rest.2)
      end
  end.

(* agent/memory/postgres/recall_options.go:80-90: orders of buildRecallQuery *)
Fixpoint order_clauses (orders : list Order) : res (list string) :=
  match orders with
  | [] => Ok []
  | o :: orders =>
      match recallColumn (ps_schema s) (od_Field o) with
      | None => Err (EWrap "order field" ErrUnsupportedOrder)
      | Some column =>
          letr direction := postgresOrderDirection (od_Direction o) in
          letr rest := order_clauses orders in
          Ok ((column +:+ " " +:+ direction) :: rest)
      end
  end.

(* agent/memory/postgres/recall_options.go: Store.buildRecallQuery *)
Definition buildRecallQuery (q : PgQuery) : res (string * list PgArg) :=
  letr _ := pg_validateRecallQuery q in
  let op := distanceOp in
  let score := scoreExpr (ps_embeddingCol s) op (param 1) in
  let identifierCol := from_option Column "" (column_at (IdentifierIdx (ps_schema s))) in
  let head := "SELECT " +:+ Join (columnNames (ps_schema s)) ", " +:+ ", " +:+ score +:+ " AS _similarity FROM " +:+ ps_tableName s +:+
              " WHERE " +:+ equals identifierCol 2 in
  let '(min, minArgs) := if f_is_zero (pq_MinSimilarity q) then ("", [])
                         else (" AND " +:+ score +:+ " >= " +:+ param 3, [PGo (VFloat (pq_MinSimilarity q))]) in
  letr fs := filter_clauses (3 + length minArgs) (pq_Filters q) in
  let args := minArgs ++ fs.2 in
  letr order := (match pq_Order q with
                 | [] => Ok (" ORDER BY " +:+ ps_embeddingCol s +:+ " " +:+ op +:+ " " +:+ param 1)
                 | _ => letr os := order_clauses (pq_Order q) in Ok (" ORDER BY " +:+ Join os ", ")
                 end) in
  Ok (if bool_decide (0 < pq_Limit q) then
        (head +:+ min +:+ fs.1 +:+ order +:+ " LIMIT " +:+ param (N.of_nat (3 + length args)), args ++ [PGo (VInt (pq_Limit q))])
      else (head +:+ min +:+ fs.1 +:+ order, args)).
(** * Operations

    [Rows] is the content of the table.  The server executes a text with arguments; other clients act before it, and the
    request or its answer can be lost. *)
Context {Rows E : Type}.

(** A cell of a result row: the Go value that pgx scans into the field, or the bytes of a JSONB column. *)
Inductive PgCell := CValue (v : GoVal) | CBytes (b : string).

(** The rows of a result, and the error that ends them early. *)
Definition PgResult : Type := list (list PgCell * Ranking.float) * option error.

Class PgServer := {
  pg_exec : string -> list PgArg -> Rows -> res Z * Rows;
  pg_query : string -> list PgArg -> Rows -> res PgResult }.
Context `{PgServer}.

Record penv := mkPenv { pe_before : Rows -> Rows; pe_fault : fault }.
Record pworld := mkPworld { pw_rows : Rows; pw_env : list penv; pw_ext : E }.
Context (embed : string -> E -> res (list Ranking.float) * E).

Definition PM (A : Type) : Type := pworld -> res A * pworld.
Definition p_ret {A} (r : res A) : PM A := fun w => (r, w).
Definition p_bind {A B} (m : PM A) (k : A -> PM B) : PM B := fun w =>
  match m w with (Ok a, w) => k a w | (Err e, w) => (Err e, w) end.
Local Notation "'let+' x := m 'in' k" := (p_bind m (fun x => k)) (at level 10, x binder, m at level 100, k at level 200).
Definition p_wrap {A} (msg : string) (m : PM A) : PM A := fun w =>
  let '(r, w) := m w in (match r with Ok a => Ok a | Err e => Err (EWrap msg e) end, w).
Definition p_embed (text : string) : PM (list Ranking.float) := fun w =>
  let '(r, e) := embed text (pw_ext w) in (r, mkPworld (pw_rows w) (pw_env w) e).

Definition p_request {A} (f : Rows -> res A * Rows) : PM A := fun w =>
  let '(e, es) := match pw_env w with [] => (mkPenv (fun d => d) NoFault, []) | e :: es => (e, es) end in
  let d := pe_before e (pw_rows w) in
  match pe_fault e with
  | NoFault => let '(r, d) := f d in (r, mkPworld d es (pw_ext w))
  | Failed err => (Err err, mkPworld d es (pw_ext w))
  | LostAck err => (Err err, mkPworld (f d).2 es (pw_ext w))
  end.
Definition Exec (st : string * list PgArg) : PM Z := p_request (pg_exec st.1 st.2).
Definition Query (st : string * list PgArg) : PM PgResult := p_request (fun d => (pg_query st.1 st.2 d, d)).

(* agent/memory/postgres/store.go: Store.Remember *)
Definition Remember (identifier : string) (value : list GoVal) : PM unit :=
  if bool_decide (identifier = "") then p_ret (pg_error "identifier must not be empty")
  else
    let value := setIdentifierField value identifier in
    let content := extractContent value in
    if bool_decide (content = "") then p_ret (pg_error "content field is empty")
    else
      let+ embedding := p_wrap "postgres: embed" (p_embed content) in
      let+ st := p_wrap "postgres: extract values" (p_ret (insert_statement value embedding)) in
      let+ _ := p_wrap "postgres: insert" (Exec st) in
      p_ret (Ok tt).

(* agent/memory/postgres/store.go:339-371: cells fields in scanRow *)
Definition scan_cell (c : columnInfo) (cell : PgCell) (base : GoVal) : res GoVal :=
  match IsJSONB c, cell with
  | false, CValue v => Ok v
  | true, CBytes raw =>
      if bool_decide (raw = "") then Ok base
      else match json_Unmarshal (fd_type (field_of c)) raw with Some v => Ok v | None => Err (ENew "unmarshal jsonb field") end
  | _, _ => Err (ENew "cannot scan")
  end.

Fixpoint scan_cells (cs : list columnInfo) (cells : list PgCell) (value : list GoVal) : res (list GoVal) :=
  match cs, cells with
  | c :: cs, cell :: cells =>
      letr v := scan_cell c cell (value_of value c) in scan_cells cs cells (<[FieldIndex c := v]> value)
  | [], [] => Ok value
  | _, _ => Err (ENew "number of field descriptions must equal number of destinations")
  end.

(* agent/memory/postgres/store.go: Store.scanRow *)
Definition scanRow (row : list PgCell * Ranking.float) : res (list GoVal * Ranking.float) :=
  letr value := scan_cells (Columns (ps_schema s)) row.1 (zero_value (ps_fields s)) in Ok (value, row.2).

Fixpoint scan_rows (rows : list (list PgCell * Ranking.float)) : res (list (SemanticMemory.Entry (list GoVal))) :=
  match rows with
  | [] => Ok []
  | row :: rows =>
      match scanRow row with
      | Err e => Err (EWrap "postgres: scan" e)
      | Ok (value, similarity) => letr rest := scan_rows rows in Ok (mkEntryT (extractPK value) value similarity :: rest)
      end
  end.

(* agent/memory/postgres/store.go: Store.Recall *)
Definition Recall (identity : string) (q : PgQuery) : PM (list (SemanticMemory.Entry (list GoVal))) :=
  if bool_decide (identity = "") then p_ret (pg_error "identity must not be empty")
  else
    let+ st := p_ret (buildRecallQuery q) in
    let+ embedding := p_wrap "postgres: embed query" (p_embed (pq_Text q)) in
    let+ rows := p_wrap "postgres: query" (Query (st.1, PVector (float64sToFloat32 embedding) :: PGo (VString identity) :: st.2)) in
    p_ret (letr results := scan_rows rows.1 in
           match rows.2 with Some err => Err (EWrap "postgres: rows" err) | None => Ok results end).

(* agent/memory/postgres/store.go: Store.Update *)
Definition Update (identifier id : string) (value : list GoVal) : PM unit :=
  if bool_decide (identifier = "") then p_ret (pg_error "identifier must not be empty")
  else if bool_decide (id = "") then p_ret (pg_error "id must not be empty")
  else if bool_decide (PKIndex (ps_schema s) = None) then p_ret (pg_error "struct has no pk field; cannot update by id")
  else
    let value := setIdentifierField value identifier in
    let content := extractContent value in
    if bool_decide (content = "") then p_ret (pg_error "content field is empty")
    else
      let+ embedding := p_wrap "postgres: embed" (p_embed content) in
      let+ st := p_ret (update_statement identifier id value embedding) in
      let+ affected := p_wrap "postgres: update" (Exec st) in
      p_ret (if bool_decide (affected = 0) then pg_error "entry not found" else Ok tt).

(* agent/memory/postgres/store.go: Store.ForgetAll *)
Definition ForgetAll (identifier : string) : PM unit :=
  if bool_decide (identifier = "") then p_ret (pg_error "identifier must not be empty")
  else let+ _ := p_wrap "postgres: forget all" (Exec (forget_all_statement identifier)) in p_ret (Ok tt).

(* agent/memory/postgres/store.go: Store.Forget *)
Definition Forget (identifier id : string) : PM unit :=
  if bool_decide (identifier = "") then p_ret (pg_error "identifier must not be empty")
  else if bool_decide (id = "") then p_ret (pg_error "id must not be empty")
  else if bool_decide (PKIndex (ps_schema s) = None) then p_ret (pg_error "struct has no pk field; cannot forget by id")
  else let+ _ := p_wrap "postgres: forget" (Exec (forget_statement identifier id)) in p_ret (Ok tt).

(** * Tools

    The parameters are those of the in-process store's tools. *)
Context (invocation : HandlerCtx -> Invocation).
Context (unmarshal_value : RawMessage -> res (list GoVal)) (unmarshal_id : RawMessage -> res string) (unmarshal_query : RawMessage -> res (string * Z)).
Context (show_value : list GoVal -> res string) (show_score : Ranking.float -> string) (type_schema : GoTyp -> list (string * GoAny)).

(** A field of the input schema: its JSON name, unless its tags exclude it. *)
(* agent/memory/postgres/schema.go:203-237: name of a field in GenerateInputSchema *)
Definition input_name (f : Field) : option string :=
  if negb (fd_exported f) || bool_decide (fd_db f = "-") then None
  else if negb (bool_decide (fd_db f = "")) &&
          existsb (fun p => bool_decide (trim p ∈ ["pk"; "identifier"; "noinput"])) (tail (split_comma (fd_db f))) then None
  else if bool_decide (fd_json f = "") then Some (fd_Name f)
  else match split_comma (fd_json f) with
       | "-" :: _ => None
       | "" :: _ | [] => Some (fd_Name f)
       | n :: _ => Some n
       end.

(* agent/memory/postgres/schema.go:239-251: property of a field in GenerateInputSchema *)
Definition input_property (f : Field) : list (string * GoAny) :=
  let prop := type_schema (fd_type f) in
  let prop := if bool_decide (fd_description f = "") then prop else set_key "description" (AStr (fd_description f)) prop in
  if bool_decide (fd_enum f = "") then prop else set_key "enum" (AArr (map (fun v => AStr (trim v)) (split_comma (fd_enum f)))) prop.

Fixpoint input_schema (fs : list Field) (props : list (string * GoAny)) (required : list string) : list (string * GoAny) * list string :=
  match fs with
  | [] => (props, required)
  | f :: fs =>
      match input_name f with
      | None => input_schema fs props required
      | Some name => input_schema fs (set_key name (AObj (input_property f)) props) (if bool_decide (fd_required f = "true") then required ++ [name] else required)
      end
  end.

(* agent/memory/postgres/schema.go: GenerateInputSchema *)
Definition GenerateInputSchema : list (string * GoAny) * list string := input_schema (ps_fields s) [] [].

Definition pg_update_schema : GoAny :=
  let '(props, required) := GenerateInputSchema in
  let props := set_key "id" (AObj [("type", AStr "string"); ("description", AStr "The ID of the entry to update (from a previous recall).")]) props in
  AObj [("type", AStr "object"); ("properties", AObj props); ("required", if is_nil required then AArr [AStr "id"] else AStrs (required ++ ["id"]))].

Definition pg_tool (cfg : toolCfg) (schema : GoAny) (handler : string -> RawMessage -> PM string) : Tool pworld :=
  mkTool (mkSpec (tc_name cfg) (tc_description cfg) (Some schema))
    (Some (fun ctx input w =>
      match ResolveIdentity (invocation ctx) (tc_scope cfg) with
      | Err e => (([], Err e), w)
      | Ok identity => let '(r, w) := handler identity input w in (([], r), w)
      end)) None None false false None.

(* agent/memory/postgres/tools.go: NewRememberTool *)
Definition NewRememberTool (opts : list (toolCfg -> toolCfg)) : Tool pworld :=
  pg_tool (tool_cfg "remember" "Store a structured memory entry for later recall." opts) (schema_value GenerateInputSchema)
    (fun identity input =>
      let+ value := p_wrap "postgres: unmarshal" (p_ret (unmarshal_value input)) in
      let+ _ := Remember identity value in
      p_ret (Ok "Remembered.")).

(* agent/memory/postgres/tools.go: NewUpdateTool *)
Definition NewUpdateTool (opts : list (toolCfg -> toolCfg)) : Tool pworld :=
  pg_tool (tool_cfg "update" "Update an existing memory entry by its ID." opts) pg_update_schema
    (fun identity input =>
      let+ id := p_ret (unmarshal_id input) in
      let+ value := p_wrap "postgres: unmarshal" (p_ret (unmarshal_value input)) in
      let+ _ := Update identity id value in
      p_ret (Ok "Updated.")).

(* agent/memory/postgres/tools.go: NewForgetTool *)
Definition NewForgetTool (opts : list (toolCfg -> toolCfg)) : Tool pworld :=
  pg_tool (tool_cfg "forget" "Remove a specific memory entry by its ID." opts)
    (AObj [("type", AStr "object");
      ("properties", AObj [("id", AObj [("type", AStr "string"); ("description", AStr "The ID of the memory entry to forget (from a previous recall).")])]);
      ("required", AArr [AStr "id"])])
    (fun identity input =>
      let+ id := p_ret (unmarshal_id input) in
      let+ _ := Forget identity id in
      p_ret (Ok "Forgotten.")).

(* agent/memory/postgres/tools.go: formatResults *)
Fixpoint formatResults (first : bool) (results : list (SemanticMemory.Entry (list GoVal))) : string :=
  match results with
  | [] => ""
  | r :: results =>
      (if first then "" else newline) +:+
      match show_value (en_Value r) with
      | Err _ => "- (marshal error) Score: " +:+ show_score (en_Score r)
      | Ok data => "- " +:+ data +:+ newline +:+ "  ID: " +:+ en_ID r +:+ newline +:+ "  Score: " +:+ show_score (en_Score r)
      end +:+ formatResults false results
  end.

(* agent/memory/postgres/tools.go: NewRecallTool *)
Definition NewRecallTool (opts : list (toolCfg -> toolCfg)) : Tool pworld :=
  pg_tool (tool_cfg "recall" "Retrieve relevant memory entries by semantic similarity." opts)
    (AObj [("type", AStr "object");
      ("properties", AObj [("query", AObj [("type", AStr "string"); ("description", AStr "A natural-language query describing what to recall.")]);
                           ("limit", AObj [("type", AStr "integer"); ("description", AStr "Maximum number of results to return. Defaults to 5.")])]);
      ("required", AArr [AStr "query"])])
    (fun identity input =>
      let+ params := p_ret (unmarshal_query input) in
      let limit := if bool_decide (params.2 = 0) then 5 else params.2 in
      let+ results := Recall identity (mkPgQuery params.1 limit f_zero [] []) in
      p_ret (Ok (if is_nil results then "No relevant memories found." else formatResults true results))).
End Store.

Arguments pworld Rows E : clear implicits.
Arguments mkPworld {Rows E}.
Arguments pw_rows {Rows E}.
Arguments pw_env {Rows E}.
Arguments pw_ext {Rows E}.
Arguments penv Rows : clear implicits.
Arguments mkPenv {Rows}.
Arguments pe_before {Rows}.
Arguments pe_fault {Rows}.
Arguments PgServer Rows : clear implicits.
