(* ===== verification/PgMemoryProps.v ===== *)
(** The PostgreSQL memory store: what its statements mean to the server, and that identities are kept apart. *)
From Stdlib Require Import Ascii Lia.
From S2P Require Import Prelude Errors Messages Execution Ranking Decimal SemanticMemory SqlConversation.
From S2P Require Import GoStruct RedisSchema SqlText PgMemory.
Local Open Scope Z_scope.

(** * Names *)

Section Names.
Context `{PgIdentifierLaws}.

(** The store was made for the table [t] with the embedding column [e]: every name it interpolates is quoted. *)
Record named (s : PStore) (t e : string) : Prop := {
  nm_table : ps_tableName s = Sanitize t; nm_table_ok : readable t;
  nm_embed : ps_embeddingCol s = Sanitize e; nm_embed2 : EmbeddingCol (ps_schema s) = Sanitize e; nm_embed_ok : readable e;
  nm_columns : Forall (fun c => Column c = Sanitize (QueryField c) /\ readable (QueryField c)) (Columns (ps_schema s));
  nm_slots : forall i, PKIndex (ps_schema s) = Some i \/ IdentifierIdx (ps_schema s) = Some i \/ ContentIdx (ps_schema s) = Some i ->
    (i < length (Columns (ps_schema s)))%nat;
  nm_ident : is_Some (IdentifierIdx (ps_schema s)) }.

Definition fresh_schema (fs : list Field) : tableSchema := schema_columns 0 fs (mkTable [] None None None "").

(** The cache holds what parsing the type gives. *)
Definition cache_ok (cache : option tableSchema) (t : RType) : Prop :=
  match cache, t with Some c, RStruct fs => c = fresh_schema fs /\ is_Some (IdentifierIdx c) | _, _ => True end.

Definition raw_columns (s : tableSchema) : Prop := Forall (fun c => Column c = QueryField c) (Columns s).
Definition slots_ok (s : tableSchema) (n : nat) : Prop :=
  forall i, PKIndex s = Some i \/ IdentifierIdx s = Some i \/ ContentIdx s = Some i -> (i < n)%nat.

Lemma column_part_keeps parts : forall info s info' s', foldl column_part (info, s) parts = (info', s') ->
  Columns s' = Columns s /\ Column info' = Column info /\ QueryField info' = QueryField info /\
  (slots_ok s (length (Columns s)) -> slots_ok s' (S (length (Columns s)))).
Proof.
  assert (Hstep : forall part info s info' s', column_part (info, s) part = (info', s') ->
    Columns s' = Columns s /\ Column info' = Column info /\ QueryField info' = QueryField info /\
    (slots_ok s (S (length (Columns s))) -> slots_ok s' (S (length (Columns s))))).
  { intros part info s info' s'. unfold column_part. destruct s as [cs pk ident content e]. destruct info as [a b c d g h].
    repeat case_bool_decide; intros [= <- <-]; simpl; (split_and!; [done|done|done|]); unfold slots_ok; simpl; intros Hs i Hi; destruct_or! Hi;
      try (by apply Hs; auto); injection Hi as <-; lia. }
  assert (Hall : forall info s info' s', foldl column_part (info, s) parts = (info', s') ->
    Columns s' = Columns s /\ Column info' = Column info /\ QueryField info' = QueryField info /\
    (slots_ok s (S (length (Columns s))) -> slots_ok s' (S (length (Columns s))))).
  { induction parts as [|part parts IH]; intros info s info' s'; [by intros [= <- <-]|]. cbn [foldl].
    destruct (column_part (info, s) part) as [info1 s1] eqn:H1. apply Hstep in H1 as (C1 & C2 & C3 & C4).
    intros (D1 & D2 & D3 & D4)%IH. rewrite C1 in *. split_and!; [done|congruence|congruence|auto]. }
  intros info s info' s' (H1 & H2 & H3 & H4)%Hall. split_and!; try done. intros Hs. apply H4. intros i Hi. specialize (Hs i Hi). lia.
Qed.

Lemma schema_columns_raw fs i s : raw_columns s -> slots_ok s (length (Columns s)) ->
  raw_columns (schema_columns i fs s) /\ slots_ok (schema_columns i fs s) (length (Columns (schema_columns i fs s))).
Proof.
  revert i s. induction fs as [|f fs IH]; intros i s Hr Hs; [done|]. simpl. destruct (stored_tag f) as [[name parts]|]; [|by apply IH].
  destruct (foldl column_part _ parts) as [info s1] eqn:Hf. apply column_part_keeps in Hf as (H1 & H2 & H3 & H4). apply IH; simpl.
  - unfold raw_columns. simpl. rewrite H1. apply Forall_app. split; [done|]. apply Forall_singleton. by rewrite H2, H3.
  - rewrite length_app, H1. simpl. rewrite Nat.add_1_r. by apply H4.
Qed.

Context `{GoText} `{FieldJSON}.

(** Every store that NewStore makes has quoted names, whether its type was cached or not. *)
Lemma NewStore_named pool emb cache t tbl dim opts s cache' :
  cache_ok cache t -> NewStore pool emb cache t tbl dim opts = (Ok s, cache') -> (exists tn e, named s tn e) /\ cache_ok cache' t.
Proof.
  intros Hc. unfold NewStore. destruct pool, emb; simpl; try done. case_bool_decide; [done|].
  destruct (negb (bool_decide (pc_distMetric _ ∈ _))); [done|]. set (cfg := foldl _ _ opts).
  destruct (parseSchema cache t (pc_embeddingCol cfg)) as [[schema|] c1] eqn:Hp; [|done].
  destruct (negb (_ && (_ && forallb _ _))) eqn:Hv; [done|]. intros [= <- <-].
  apply negb_false_iff in Hv. rewrite !andb_true_iff in Hv. destruct Hv as (V1 & V2 & V3).
  assert (Hval : forall n, valid_name n = true -> readable n).
  { intros n Hn. unfold valid_name in Hn. apply andb_true_iff in Hn as [_ Hn]. apply negb_true_iff in Hn. by apply bool_decide_eq_false in Hn. }
  unfold parseSchema in Hp. destruct t as [fs| |]; try done.
  destruct (schema_columns_raw fs 0 (mkTable [] None None None "")) as [Hraw Hslots]; [constructor|intros i Hi; naive_solver|].
  assert (Hs : schema = cloneSchema (fresh_schema fs) (pc_embeddingCol cfg) /\ is_Some (IdentifierIdx (fresh_schema fs)) /\ cache_ok c1 (RStruct fs)).
  { destruct cache as [c|]; simpl in Hc.
    - injection Hp as <- <-. destruct Hc as [-> Hi]. done.
    - fold (fresh_schema fs) in Hp. destruct (IdentifierIdx (fresh_schema fs)) as [i|] eqn:Hi; [|done].
      destruct (ContentIdx (fresh_schema fs)); [|done]. injection Hp as <- <-. split_and!; [done|by eexists|]. simpl. split; [done|]. rewrite Hi. by eexists. }
  destruct Hs as (-> & Hi & Hc1). split; [|done]. exists (pc_tableName cfg), (pc_embeddingCol cfg). split; simpl; auto.
  - rewrite Forall_map. apply Forall_forall. intros c Hin. simpl. rewrite forallb_forall in V3.
    unfold raw_columns in Hraw. rewrite Forall_forall in Hraw. specialize (Hraw c Hin). fold (fresh_schema fs) in *. rewrite Hraw.
    split; [done|]. apply Hval. rewrite <- Hraw. apply V3. apply in_map. by apply list_elem_of_In.
  - intros i Hi'. rewrite length_map. by apply Hslots.
Qed.
End Names.

(** * What the statements mean *)

Lemma numbered_names (names : list string) (f : nat -> N) : map snd (imap (fun i n => (n, f i)) names) = map f (seq 0 (length names)).
Proof.
  assert (Hg : forall k, map snd (imap (fun i n => (n, f (k + i)%nat)) names) = map f (seq k (length names))).
  { induction names as [|n names IH]; intros k; [done|]. cbn [imap map seq length]. rewrite Nat.add_0_r. f_equal. rewrite <- IH. f_equal.
    apply imap_ext. intros i x _. simpl. do 2 f_equal. lia. }
  exact (Hg 0%nat).
Qed.
Lemma numbered_fst (names : list string) (f : nat -> N) : map fst (imap (fun i n => (n, f i)) names) = names.
Proof. revert f. induction names as [|n names IH]; intros f; [done|]. cbn [imap map fst]. f_equal. apply (IH (f ∘ S)). Qed.

Section Meaning.
Context `{PgIdentifierLaws} `{GoText} `{FieldJSON} (s : PStore) (t e : string) (Hn : named s t e).

(** The raw names of columns. *)
Definition raw (cs : list columnInfo) : list string := map QueryField cs.
Definition raw_at (i : option nat) : string := from_option QueryField "" (column_at s i).

Lemma column_ok c : c ∈ Columns (ps_schema s) -> Column c = Sanitize (QueryField c) /\ readable (QueryField c).
Proof. intros Hc. pose proof (nm_columns _ _ _ Hn) as Hf. rewrite Forall_forall in Hf. by apply Hf. Qed.

Lemma column_at_ok i : PKIndex (ps_schema s) = i \/ IdentifierIdx (ps_schema s) = i \/ ContentIdx (ps_schema s) = i -> is_Some i ->
  from_option Column "" (column_at s i) = Sanitize (raw_at i) /\ readable (raw_at i).
Proof.
  intros Hi [k ->]. destruct (lookup_lt_is_Some_2 (Columns (ps_schema s)) k) as [c Hc]; [by apply (nm_slots _ _ _ Hn)|].
  unfold raw_at, column_at. cbn [mbind option_bind]. rewrite Hc. simpl. apply column_ok. by apply list_elem_of_lookup_2 in Hc.
Qed.

Lemma sublist_columns cs : (forall c, c ∈ cs -> c ∈ Columns (ps_schema s)) -> map Column cs = map Sanitize (raw cs) /\ Forall readable (raw cs).
Proof.
  intros Hcs. unfold raw. rewrite map_map. split.
  - apply map_ext_in. intros c Hc%list_elem_of_In. by apply column_ok, Hcs.
  - apply Forall_map, Forall_forall. intros c Hc. by apply column_ok, Hcs.
Qed.

Lemma imap_filtered (p : nat * columnInfo -> bool) c : c ∈ map snd (List.filter p (imap pair (Columns (ps_schema s)))) -> c ∈ Columns (ps_schema s).
Proof.
  intros Hc. apply list_elem_of_fmap in Hc as ([i c'] & -> & Hc). apply list_elem_of_In, filter_In in Hc as [Hc _].
  apply list_elem_of_In, list_elem_of_lookup in Hc as [k Hk]. rewrite list_lookup_imap in Hk.
  destruct (Columns (ps_schema s) !! k) as [c2|] eqn:E; [|done]. injection Hk as -> ->. by apply list_elem_of_lookup_2 in E.
Qed.

(** The arguments of the columns. *)
Lemma column_args_length cs value args : column_args s cs value = Ok args -> length args = length cs.
Proof.
  revert args. induction cs as [|c cs IH]; intros args; simpl; [by intros [= <-]|].
  destruct (column_arg s c _) as [a|]; simpl; [|done]. destruct (column_args s cs value) as [rest|]; simpl; [|done]. intros [= <-].
  simpl. f_equal. by apply IH.
Qed.

Definition insert_names (value : list GoVal) : list string := raw (insert_columns s value) ++ [e].
Definition insert_cols (value : list GoVal) : list (string * N) := imap (fun i n => (n, N.of_nat (S i))) (insert_names value).

Lemma insert_tokens value v text args : insert_statement s value v = Ok (text, args) ->
  tokens text = stmt_tokens (StInsert t (insert_cols value)) /\
  exists vals, column_args s (insert_columns s value) value = Ok vals /\ args = vals ++ [PVector (float64sToFloat32 v)].
Proof.
  unfold insert_statement, extractInsertValues. destruct (column_args s (insert_columns s value) value) as [vals|] eqn:Hv; [|done].
  cbn [res_bind fst snd]. intros [= <- <-]. split; [|by eexists].
  destruct (sublist_columns (insert_columns s value)) as [Hc Hr]; [intros c; apply imap_filtered|].
  assert (Hcols : map Column (insert_columns s value) ++ [EmbeddingCol (ps_schema s)] = map Sanitize (insert_names value)).
  { unfold insert_names. by rewrite map_app, Hc, (nm_embed2 _ _ _ Hn). }
  assert (Hlen : length (vals ++ [PVector (float64sToFloat32 v)]) = length (insert_names value)).
  { unfold insert_names, raw. rewrite !length_app, length_map. simpl. f_equal. by eapply column_args_length. }
  rewrite Hcols, Hlen. unfold placeholders. rewrite <- (map_map (fun i => N.of_nat (S i)) param), <- numbered_names.
  apply piece_tokens. rewrite (nm_table _ _ _ Hn). cbn [stmt_tokens]. fold (insert_cols value).
  assert (Hf : map (fun c => [name_token c.1]) (insert_cols value) = map (fun n => [name_token n]) (insert_names value)).
  { rewrite <- (map_map fst (fun n => [name_token n])). unfold insert_cols. by rewrite numbered_fst. }
  assert (Hg : map (fun c : string * N => [TParam c.2]) (insert_cols value) = map (fun n => [TParam n]) (map snd (insert_cols value))) by (by rewrite map_map).
  rewrite Hf, Hg.
  change ([kw "INSERT"; kw "INTO"; name_token t; TChar "("] ++ ?x) with ([kw "INSERT"; kw "INTO"] ++ [name_token t] ++ [TChar "("] ++ x).
  apply complete_app; [done|]. apply piece_app; [apply piece_name, (nm_table_ok _ _ _ Hn)| |done]. apply complete_app; [done|].
  apply piece_app; [apply piece_names; apply Forall_app; split; [done|apply Forall_singleton, (nm_embed_ok _ _ _ Hn)] | |done].
  apply complete_app; [done|]. apply piece_app; [apply piece_params| |done]. by apply complete_piece.
Qed.

Definition update_sets : list (string * N) :=
  imap (fun i n => (n, N.of_nat (S i))) (raw (update_columns s)) ++ [(e, N.of_nat (S (length (update_columns s))))].
Definition update_conds : list (string * N) :=
  let n := length (update_columns s) in [(raw_at (PKIndex (ps_schema s)), N.of_nat (S (S n))); (raw_at (IdentifierIdx (ps_schema s)), N.of_nat (S (S (S n))))].

Lemma piece_equals_list (names : list string) k : Forall readable names ->
  Forall2 piece (imap (fun i n => Sanitize n +:+ " = " +:+ param (N.of_nat (S (k + i)))) names)
    (map eq_tokens (imap (fun i n => (n, N.of_nat (S (k + i)))) names)).
Proof.
  intros Hr. revert k. induction Hr as [|n names Hx _ IH]; intros k; [constructor|]. cbn [imap map]. constructor; [by apply piece_equals|].
  specialize (IH (S k)). rewrite (imap_ext (_ ∘ S) (fun i n => Sanitize n +:+ " = " +:+ param (N.of_nat (S (S k + i))))),
    (imap_ext ((fun i n => (n, N.of_nat (S (k + i)))) ∘ S) (fun i n => (n, N.of_nat (S (S k + i))))); [done|..];
    intros i x _; simpl; do 3 f_equal; lia.
Qed.

Lemma update_tokens identifier id value v text args : is_Some (PKIndex (ps_schema s)) ->
  update_statement s identifier id value v = Ok (text, args) ->
  tokens text = stmt_tokens (StUpdate t update_sets update_conds) /\
  exists vals, column_args s (update_columns s) value = Ok vals /\
    args = vals ++ [PVector (float64sToFloat32 v)] ++ [PGo (VString id); PGo (VString identifier)].
Proof.
  intros Hpk. unfold update_statement. destruct (column_args s (update_columns s) value) as [vals|] eqn:Hv; [|done].
  rewrite (column_args_length _ _ _ Hv). intros [= <- <-]. split; [|exists vals; by rewrite <- app_assoc].
  destruct (sublist_columns (update_columns s)) as [Hc Hr]; [intros c; apply imap_filtered|].
  destruct (column_at_ok (PKIndex (ps_schema s))) as [Hpk1 Hpk2]; [auto|done|].
  destruct (column_at_ok (IdentifierIdx (ps_schema s))) as [Hid1 Hid2]; [auto|apply (nm_ident _ _ _ Hn)|].
  rewrite Hpk1, Hid1, (nm_table _ _ _ Hn), (nm_embed _ _ _ Hn).
  assert (Hsets : imap (fun i c => equals (Column c) (S i)) (update_columns s) =
    imap (fun i n => Sanitize n +:+ " = " +:+ param (N.of_nat (S (0 + i)))) (raw (update_columns s))).
  { unfold raw. rewrite imap_fmap. apply imap_ext. intros i c Hi. unfold equals. simpl. f_equal.
    apply column_ok, (imap_filtered _ _ (list_elem_of_lookup_2 _ _ _ Hi)). }
  rewrite Hsets. apply piece_tokens. cbn [stmt_tokens].
  change ([kw "UPDATE"; name_token t; kw "SET"] ++ ?x) with ([kw "UPDATE"] ++ [name_token t] ++ [kw "SET"] ++ x).
  apply complete_app; [done|]. apply piece_app; [apply piece_name, (nm_table_ok _ _ _ Hn)| |done]. apply complete_app; [done|].
  unfold equals. apply piece_app.
  - apply piece_join. unfold update_sets. rewrite map_app. apply Forall2_app; [by apply piece_equals_list|].
    constructor; [apply piece_equals, (nm_embed_ok _ _ _ Hn)|constructor].
  - change (kw "WHERE" :: and_tokens update_conds) with ([kw "WHERE"] ++ and_tokens update_conds). apply complete_app; [done|].
    change (and_tokens update_conds) with (eq_tokens (raw_at (PKIndex (ps_schema s)), N.of_nat (S (S (length (update_columns s))))) ++
      [kw "AND"] ++ eq_tokens (raw_at (IdentifierIdx (ps_schema s)), N.of_nat (S (S (S (length (update_columns s))))))).
    apply piece_app; [by apply piece_equals| |done]. apply complete_app; [done|by apply piece_equals].
  - done.
Qed.

Lemma forget_tokens identifier id : is_Some (PKIndex (ps_schema s)) ->
  tokens (forget_statement s identifier id).1 = stmt_tokens (StDelete t [(raw_at (PKIndex (ps_schema s)), 1%N); (raw_at (IdentifierIdx (ps_schema s)), 2%N)]).
Proof.
  intros Hpk. unfold forget_statement, equals. cbn [fst].
  destruct (column_at_ok (PKIndex (ps_schema s))) as [Hpk1 Hpk2]; [auto|done|].
  destruct (column_at_ok (IdentifierIdx (ps_schema s))) as [Hid1 Hid2]; [auto|apply (nm_ident _ _ _ Hn)|].
  rewrite Hpk1, Hid1, (nm_table _ _ _ Hn). apply piece_tokens. cbn [stmt_tokens and_tokens].
  change ([kw "DELETE"; kw "FROM"; name_token t; kw "WHERE"] ++ ?x) with ([kw "DELETE"; kw "FROM"] ++ [name_token t] ++ [kw "WHERE"] ++ x).
  apply complete_app; [done|]. apply piece_app; [apply piece_name, (nm_table_ok _ _ _ Hn)| |done]. apply complete_app; [done|].
  change (kw "AND" :: ?x) with ([kw "AND"] ++ x). apply piece_app; [by apply piece_equals| |done]. apply complete_app; [done|by apply piece_equals].
Qed.

Lemma forget_all_tokens identifier :
  tokens (forget_all_statement s identifier).1 = stmt_tokens (StDelete t [(raw_at (IdentifierIdx (ps_schema s)), 1%N)]).
Proof.
  unfold forget_all_statement, equals. cbn [fst].
  destruct (column_at_ok (IdentifierIdx (ps_schema s))) as [Hid1 Hid2]; [auto|apply (nm_ident _ _ _ Hn)|].
  rewrite Hid1, (nm_table _ _ _ Hn). apply piece_tokens. cbn [stmt_tokens and_tokens].
  change ([kw "DELETE"; kw "FROM"; name_token t; kw "WHERE"] ++ ?x) with ([kw "DELETE"; kw "FROM"] ++ [name_token t] ++ [kw "WHERE"] ++ x).
  apply complete_app; [done|]. apply piece_app; [apply piece_name, (nm_table_ok _ _ _ Hn)| |done]. apply complete_app; [done|by apply piece_equals].
Qed.
End Meaning.

(** * Identities apart *)

Abbreviation PgRow := (gmap string PgArg).

(** The = between a column and a parameter, and the defaults of the table. *)
Class PgTable := { veq : PgArg -> PgArg -> bool; complete_row : PgRow -> PgRow }.
(** A text equals itself, and defaults are for columns that are not given. *)
Class PgTableLaws `{PgTable} := {
  veq_text : forall t, veq (PGo (VString t)) (PGo (VString t)) = true;
  complete_given : forall r k v, r !! k = Some v -> complete_row r !! k = Some v }.
(** A statement that the server accepts has its documented effect; one that it rejects has none. *)
Class PgServerLaws `{PgTable} `{PgServer (list PgRow)} := {
  exec_meaning : forall st text args rows r rows', tokens text = stmt_tokens st -> pg_exec text args rows = (r, rows') ->
    (rows' = rows /\ is_ok r = false) \/ (exists n, r = Ok n /\ run_stmt veq complete_row st args rows = Some (n, rows')) }.

Section Isolation.
Context `{PgIdentifierLaws} `{GoText} `{FieldJSON} `{PgTableLaws} `{!PgServer (list PgRow)} `{!PgServerLaws}.
Context {E : Type} (embed : string -> E -> res (list Ranking.float) * E).
Context (s : PStore) (t e : string) (Hn : named s t e).
Implicit Types (w : pworld (list PgRow) E).

Definition ident_name : string := raw_at s (IdentifierIdx (ps_schema s)).

(** The rows of an identity, and the others. *)
Definition mine (a : string) (r : PgRow) : bool := match r !! ident_name with Some v => veq v (PGo (VString a)) | None => false end.
Definition others (a : string) (rows : list PgRow) : list PgRow := List.filter (fun r => negb (mine a r)) rows.

(** The rows when the next statement runs. *)
Definition at_statement w : list PgRow := match pw_env w with [] => pw_rows w | ev :: _ => pe_before ev (pw_rows w) end.

(** What a call can leave behind. *)
Definition spares_others (a : string) w (rows' : list PgRow) : Prop :=
  rows' = pw_rows w \/ others a rows' = others a (at_statement w).

Lemma Exec_rows text args st w : tokens text = stmt_tokens st ->
  pw_rows (Exec (text, args) w).2 = at_statement w \/
  exists n, run_stmt veq complete_row st args (at_statement w) = Some (n, pw_rows (Exec (text, args) w).2).
Proof.
  intros Ht. unfold Exec, p_request, at_statement. cbn [fst snd]. destruct w as [rows [|ev env] x]; cbn [pw_rows pw_env pw_ext].
  - cbn [pe_before pe_fault]. destruct (pg_exec text args rows) as [r rows'] eqn:Hx. cbn [snd pw_rows].
    destruct (exec_meaning _ _ _ _ _ _ Ht Hx) as [[-> _]|(n & _ & Hr)]; [by left|right; by exists n].
  - destruct (pe_fault ev); cbn [snd pw_rows].
    + destruct (pg_exec text args _) as [r rows'] eqn:Hx. cbn [snd pw_rows].
      destruct (exec_meaning _ _ _ _ _ _ Ht Hx) as [[-> _]|(n & _ & Hr)]; [by left|right; by exists n].
    + by left.
    + destruct (pg_exec text args _) as [r rows'] eqn:Hx. cbn [snd pw_rows].
      destruct (exec_meaning _ _ _ _ _ _ Ht Hx) as [[-> _]|(n & _ & Hr)]; [by left|right; by exists n].
Qed.

Lemma exec_spares a text args st w :
  tokens text = stmt_tokens st -> (forall rows n rows', run_stmt veq complete_row st args rows = Some (n, rows') -> others a rows' = others a rows) ->
  spares_others a w (pw_rows (Exec (text, args) w).2).
Proof.
  intros Ht Hs. right. destruct (Exec_rows text args st w Ht) as [->|[n Hr]]; [done|]. by apply Hs in Hr.
Qed.

(** The steps before the statement leave the rows and the environment alone. *)
Lemma embed_then {B} a text msg (k : list Ranking.float -> PM B) w :
  (forall v w', pw_rows w' = pw_rows w -> pw_env w' = pw_env w -> spares_others a w (pw_rows (k v w').2)) ->
  spares_others a w (pw_rows (p_bind (p_wrap msg (p_embed embed text)) k w).2).
Proof.
  intros Hk. unfold p_bind, p_wrap, p_embed. destruct (embed text (pw_ext w)) as [[v|er] x]; [by apply Hk | by left].
Qed.

Lemma pure_then {A B} a (r : res A) (k : A -> PM B) w w0 : pw_rows w0 = pw_rows w ->
  (forall x, r = Ok x -> spares_others a w (pw_rows (k x w0).2)) -> spares_others a w (pw_rows (p_bind (p_ret r) k w0).2).
Proof. intros Hr Hk. unfold p_bind, p_ret. destruct r as [x|er]; [by apply Hk|left; done]. Qed.

Lemma exec_then {B} a msg text args st (k : Z -> res B) w w0 : pw_rows w0 = pw_rows w -> pw_env w0 = pw_env w ->
  tokens text = stmt_tokens st -> (forall rows n rows', run_stmt veq complete_row st args rows = Some (n, rows') -> others a rows' = others a rows) ->
  spares_others a w (pw_rows (p_bind (p_wrap msg (Exec (text, args))) (fun n => p_ret (k n)) w0).2).
Proof.
  intros Hr He Ht Hs. pose proof (exec_spares a text args st w0 Ht Hs) as Hx. unfold p_bind, p_wrap, p_ret.
  assert (Hat : at_statement w0 = at_statement w) by (unfold at_statement; by rewrite Hr, He).
  unfold spares_others in *. rewrite Hr, Hat in Hx. destruct (Exec (text, args) w0) as [[n|er] w1]; done.
Qed.

Lemma delete_spares a table conds args rows n rows' i :
  (ident_name, N.of_nat (S i)) ∈ conds -> args !! i = Some (PGo (VString a)) ->
  run_stmt veq complete_row (StDelete table conds) args rows = Some (n, rows') -> others a rows' = others a rows.
Proof.
  intros Hc Hi. cbn [run_stmt]. destruct (bind_args args conds) as [cs|] eqn:Hb; [|done]. intros [= <- <-].
  apply filter_filter_same. intros r Hr. apply negb_true_iff. apply negb_true_iff in Hr.
  assert (Hin : (ident_name, PGo (VString a)) ∈ cs).
  { unfold bind_args in Hb. apply mapM_Some in Hb. apply list_elem_of_lookup in Hc as [k Hk].
    destruct (Forall2_lookup_l _ _ _ _ _ Hb Hk) as (y & Hy & Hv). cbn [fst snd] in Hv. rewrite arg_at, Hi in Hv. injection Hv as <-.
    by apply list_elem_of_lookup_2 in Hy. }
  destruct (satisfies veq cs r) eqn:Hsat; [|done]. unfold satisfies in Hsat. rewrite forallb_forall in Hsat.
  specialize (Hsat _ (proj1 (list_elem_of_In _ _) Hin)). cbn [fst snd] in Hsat. unfold mine in Hr. by rewrite Hsat in Hr.
Qed.

Lemma update_spares a table sets conds args rows n rows' i :
  (ident_name, N.of_nat (S i)) ∈ conds -> args !! i = Some (PGo (VString a)) -> ident_name ∉ sets.*1 ->
  run_stmt veq complete_row (StUpdate table sets conds) args rows = Some (n, rows') -> others a rows' = others a rows.
Proof.
  intros Hc Hi Hsets. cbn [run_stmt]. destruct (bind_args args sets) as [ss|] eqn:Hbs; [|done]. cbn [mbind option_bind].
  destruct (bind_args args conds) as [cs|] eqn:Hb; [|done]. intros [= <- <-].
  assert (Hin : (ident_name, PGo (VString a)) ∈ cs).
  { unfold bind_args in Hb. apply mapM_Some in Hb. apply list_elem_of_lookup in Hc as [k Hk].
    destruct (Forall2_lookup_l _ _ _ _ _ Hb Hk) as (y & Hy & Hv). cbn [fst snd] in Hv. rewrite arg_at, Hi in Hv. injection Hv as <-.
    by apply list_elem_of_lookup_2 in Hy. }
  assert (Hss : ss.*1 = sets.*1).
  { unfold bind_args in Hbs. apply mapM_Some in Hbs. clear -Hbs. induction Hbs as [|x y xs ys Hxy _ IH]; [done|]. simpl. f_equal; [|done].
    destruct (arg_of args x.2); [|done]. by injection Hxy as <-. }
  assert (Hno : forall r, mine a r = false -> satisfies veq cs r = false).
  { intros r Hr. destruct (satisfies veq cs r) eqn:Hsat; [|done]. unfold satisfies in Hsat. rewrite forallb_forall in Hsat.
    specialize (Hsat _ (proj1 (list_elem_of_In _ _) Hin)). cbn [fst snd] in Hsat. unfold mine in Hr. by rewrite Hsat in Hr. }
  apply filter_map_same.
  - intros r Hr%negb_true_iff. by rewrite (Hno r Hr).
  - intros r Hr%negb_false_iff. apply negb_false_iff. destruct (satisfies veq cs r); [|done]. unfold mine in *. rewrite assign_other; [done|by rewrite Hss].
Qed.

(** Columns have distinct names, and the identifier is a text. *)
Record proper_table : Prop := {
  pt_distinct : NoDup (e :: raw (Columns (ps_schema s)));
  pt_text : forall c, column_at s (IdentifierIdx (ps_schema s)) = Some c ->
    fd_type (field_of s c) = TString /\ IsJSONB c = false /\ (FieldIndex c < length (ps_fields s))%nat }.

Inductive pg_call := PRemember (value : list GoVal) | PRecall (q : PgQuery) | PUpdate (id : string) (value : list GoVal) | PForget (id : string) | PForgetAll.
Definition pg_called (a : string) (c : pg_call) w : pworld (list PgRow) E :=
  match c with
  | PRemember value => (Remember s embed a value w).2
  | PRecall q => (Recall s embed a q w).2
  | PUpdate id value => (Update s embed a id value w).2
  | PForget id => (Forget s a id w).2
  | PForgetAll => (ForgetAll s a w).2
  end.

Lemma raw_index i j (cs : list columnInfo) ci cj : NoDup (raw cs) -> cs !! i = Some ci -> cs !! j = Some cj -> QueryField ci = QueryField cj -> i = j.
Proof.
  intros Hd Hi Hj Hq. apply (NoDup_lookup (raw cs) i j (QueryField ci) Hd); unfold raw; rewrite list_lookup_fmap; [by rewrite Hi|by rewrite Hj, Hq].
Qed.

Lemma ident_column : exists i c, IdentifierIdx (ps_schema s) = Some i /\ Columns (ps_schema s) !! i = Some c /\ ident_name = QueryField c /\
  column_at s (IdentifierIdx (ps_schema s)) = Some c.
Proof.
  destruct (nm_ident _ _ _ Hn) as [i Hi]. destruct (lookup_lt_is_Some_2 (Columns (ps_schema s)) i) as [c Hc]; [apply (nm_slots _ _ _ Hn); auto|].
  exists i, c. unfold ident_name, raw_at, column_at. rewrite Hi. cbn [mbind option_bind]. rewrite Hc. done.
Qed.

Lemma in_filtered (p : nat * columnInfo -> bool) c : c ∈ map snd (List.filter p (imap pair (Columns (ps_schema s)))) <->
  exists j, Columns (ps_schema s) !! j = Some c /\ p (j, c) = true.
Proof.
  rewrite list_elem_of_fmap. split.
  - intros ([j c'] & -> & Hin). apply list_elem_of_In, filter_In in Hin as [Hin Hp]. exists j. split; [|done].
    apply list_elem_of_In, list_elem_of_lookup in Hin as [k Hk]. rewrite list_lookup_imap in Hk.
    destruct (Columns (ps_schema s) !! k) as [c2|] eqn:Ec; [|done]. injection Hk as -> ->. done.
  - intros (j & Hj & Hp). exists (j, c). split; [done|]. apply list_elem_of_In, filter_In. split; [|done].
    apply list_elem_of_In, list_elem_of_lookup. exists j. by rewrite list_lookup_imap, Hj.
Qed.

Lemma ident_not_set : proper_table -> ident_name ∉ (update_sets s e).*1.
Proof.
  intros [Hd _] Hin. apply NoDup_cons in Hd as [He Hd]. destruct ident_column as (i & c & Hi & Hc & Hname & _). rewrite Hname in Hin.
  unfold update_sets in Hin. rewrite fmap_app in Hin. apply elem_of_app in Hin as [Hin|Hin].
  - assert (Hin' : QueryField c ∈ raw (update_columns s)).
    { rewrite <- (numbered_fst (raw (update_columns s)) (fun i => N.of_nat (S i))). exact Hin. }
    apply list_elem_of_fmap in Hin' as (c' & Hq & Hc'). apply in_filtered in Hc' as (j & Hj & Hp).
    assert (i = j) as <- by (by apply (raw_index i j _ _ _ Hd Hc Hj)). cbn [fst snd] in Hp. rewrite Hi in Hp.
    rewrite (bool_decide_true (Some i = Some i)) in Hp by done. by rewrite orb_true_r in Hp.
  - apply list_elem_of_singleton in Hin. cbn [fst] in Hin. apply He. rewrite <- Hin. apply list_elem_of_fmap. exists c.
    split; [done|by apply list_elem_of_lookup_2 in Hc].
Qed.

Lemma update_isolated a id value w : proper_table -> spares_others a w (pw_rows (Update s embed a id value w).2).
Proof.
  intros Hpt. unfold Update. case_bool_decide; [by left|]. case_bool_decide; [by left|]. case_bool_decide as Hpk; [by left|].
  case_bool_decide; [by left|].
  apply embed_then. intros v w0 Hr He. apply pure_then; [done|]. intros [text args] Hst.
  assert (Hsome : is_Some (PKIndex (ps_schema s))) by (destruct (PKIndex (ps_schema s)); [by eexists|done]).
  destruct (update_tokens s t e Hn a id _ v text args Hsome Hst) as (Ht & vals & Hv & ->).
  refine (exec_then a _ _ _ _ (fun affected => if bool_decide (affected = 0) then pg_error "entry not found" else Ok tt) w w0 Hr He Ht _).
  intros rows n rows'. apply (update_spares a t _ _ _ _ _ _ (S (S (length (update_columns s))))).
  - right. left.
  - rewrite <- (column_args_length _ _ _ _ Hv). rewrite lookup_app_r by lia. by replace (S (S (length vals)) - length vals)%nat with 2%nat by lia.
  - by apply ident_not_set.
Qed.

Lemma forget_isolated a id w : spares_others a w (pw_rows (Forget s a id w).2).
Proof.
  unfold Forget. case_bool_decide; [by left|]. case_bool_decide; [by left|]. case_bool_decide as Hpk; [by left|].
  assert (Hsome : is_Some (PKIndex (ps_schema s))) by (destruct (PKIndex (ps_schema s)); [by eexists|done]).
  refine (exec_then a _ _ _ _ (fun _ => Ok tt) w w eq_refl eq_refl (forget_tokens s t e Hn a id Hsome) _).
  intros rows n rows'. by apply (delete_spares a t _ _ _ _ _ 1); [right; left|].
Qed.

Lemma forget_all_isolated a w : spares_others a w (pw_rows (ForgetAll s a w).2).
Proof.
  unfold ForgetAll. case_bool_decide; [by left|].
  refine (exec_then a _ _ _ _ (fun _ => Ok tt) w w eq_refl eq_refl (forget_all_tokens s t e Hn a) _).
  intros rows n rows'. by apply (delete_spares a t _ _ _ _ _ 0); [left|].
Qed.

Lemma column_args_at cs value vals k c : column_args s cs value = Ok vals -> cs !! k = Some c ->
  exists v, vals !! k = Some v /\ column_arg s c (value_of value c) = Ok v.
Proof.
  revert vals k. induction cs as [|c' cs IH]; intros vals k; simpl; [done|].
  destruct (column_arg s c' _) as [v|] eqn:Hv; simpl; [|done]. destruct (column_args s cs value) as [rest|] eqn:Hrest; simpl; [|done].
  intros [= <-] Hk. destruct k as [|k]; simpl in *; [injection Hk as <-; by exists v|by apply IH].
Qed.

Lemma filtered_sublist {A} (p : nat * A -> bool) (f : nat -> nat) (l : list A) :
  sublist (map snd (List.filter p (imap (fun i x => (f i, x)) l))) l.
Proof.
  revert f. induction l as [|x l IH]; intros f; [done|]. cbn [imap List.filter]. specialize (IH (f ∘ S)).
  destruct (p (f 0%nat, x)); [by apply sublist_skip | by apply sublist_cons].
Qed.

(** The new row belongs to the identity. *)
Lemma inserted_mine a value v text args rows n rows' : proper_table -> a <> "" -> length value = length (ps_fields s) ->
  insert_statement s (setIdentifierField s value a) v = Ok (text, args) ->
  run_stmt veq complete_row (StInsert t (insert_cols s e (setIdentifierField s value a))) args rows = Some (n, rows') ->
  others a rows' = others a rows.
Proof.
  intros [Hd Htext] Ha Hlen Hst. destruct (insert_tokens s t e Hn _ v text args Hst) as (_ & vals & Hv & ->).
  set (val := setIdentifierField s value a) in *. cbn [run_stmt]. unfold insert_cols.
  pose proof (bind_numbered (insert_names s e val) (vals ++ [PVector (float64sToFloat32 v)]) [] []) as Hb. rewrite app_nil_r in Hb. cbn [app length Nat.add] in Hb.
  rewrite Hb; [|unfold insert_names, raw; rewrite !length_app, length_map; simpl; by rewrite (column_args_length _ _ _ _ Hv)].
  cbn [mbind option_bind]. intros [= <- <-]. unfold others. rewrite List.filter_app.
  destruct ident_column as (i & c & Hi & Hc & Hname & Hat). destruct (Htext c Hat) as (Hty & Hj & Hidx).
  assert (Hval : value_of val c = VString a).
  { unfold val, setIdentifierField, value_of. rewrite Hat, bool_decide_true by done. apply nth_lookup_Some, list_lookup_insert_eq. lia. }
  assert (Hin : c ∈ insert_columns s val).
  { apply in_filtered. exists i. split; [done|]. unfold inserted. cbn [fst snd]. rewrite Hval. simpl. rewrite (bool_decide_false (a = "")) by done.
    by rewrite andb_false_r. }
  apply list_elem_of_lookup in Hin as [k Hk]. destruct (column_args_at _ _ _ _ _ Hv Hk) as (x & Hx & Hxv).
  unfold column_arg in Hxv. rewrite Hj, Hval in Hxv. injection Hxv as <-.
  assert (Hm : mine a (complete_row (list_to_map (zip (insert_names s e val) (vals ++ [PVector (float64sToFloat32 v)])))) = true).
  { unfold mine. erewrite complete_given; [apply veq_text|]. rewrite Hname. apply elem_of_list_to_map_1.
    - rewrite fst_zip; [|unfold insert_names, raw; rewrite !length_app, length_map; simpl; by rewrite (column_args_length _ _ _ _ Hv)].
      unfold insert_names. apply NoDup_app. apply NoDup_cons in Hd as [He Hd]. split_and!.
      + unfold raw, insert_columns. clear -Hd. pose proof (filtered_sublist (inserted s val) (fun i => i) (Columns (ps_schema s))) as Hs.
        eapply sublist_NoDup; [exact Hd|]. by apply fmap_sublist.
      + intros x Hx1 Hx2%list_elem_of_singleton. subst x. apply He. apply list_elem_of_fmap in Hx1 as (c' & Hq & Hc'). apply in_filtered in Hc' as (j & Hcj & _).
        apply list_elem_of_fmap. exists c'. split; [done|by apply list_elem_of_lookup_2 in Hcj].
      + apply NoDup_singleton.
    - apply list_elem_of_lookup. exists k. apply lookup_zip_with_Some. exists (QueryField c), (PGo (VString a)). split_and!; [done| |].
      + unfold insert_names, raw. apply lookup_app_l_Some. by rewrite list_lookup_fmap, Hk.
      + by apply lookup_app_l_Some. }
  simpl. rewrite Hm. simpl. by rewrite app_nil_r.
Qed.
Lemma remember_isolated a value w : proper_table -> length value = length (ps_fields s) ->
  spares_others a w (pw_rows (Remember s embed a value w).2).
Proof.
  intros Hpt Hlen. unfold Remember. case_bool_decide as Ha; [by left|]. case_bool_decide; [by left|].
  apply embed_then. intros v w0 Hr He.
  assert (Hw : forall msg (r : res (string * list PgArg)), p_wrap (E:=E) msg (p_ret r) w0 =
    (match r with Ok x => Ok x | Err er => Err (EWrap msg er) end, w0)) by done.
  unfold p_bind at 1. rewrite Hw. destruct (insert_statement s _ v) as [[text args]|er] eqn:Hst; [|by left].
  destruct (insert_tokens s t e Hn _ v text args Hst) as (Ht & _).
  refine (exec_then a _ _ _ _ (fun _ => Ok tt) w w0 Hr He Ht _).
  intros rows n rows' Hrun. by apply (inserted_mine a value v text args rows n rows' Hpt Ha Hlen Hst).
Qed.

Lemma recall_isolated a q w : spares_others a w (pw_rows (Recall s embed a q w).2).
Proof.
  unfold Recall. case_bool_decide; [by left|]. apply pure_then; [done|]. intros st _. apply embed_then. intros v w0 Hr He. right.
  unfold p_bind, p_wrap, Query, p_request, at_statement. rewrite He, Hr. cbn [fst snd].
  destruct (pw_env w) as [|ev env]; cbn [pe_before pe_fault]; [destruct (pg_query _ _ _); done|].
  destruct (pe_fault ev); cbn [pw_rows]; [destruct (pg_query _ _ _); done|done|done].
Qed.

(** C19. Identities of the PostgreSQL memory are kept apart, down to the texts of the statements: whatever names the table
    and the columns have, a call for one identity leaves the rows of all others exactly as they were, in value and
    order; for a struct whose columns are distinct and whose identifier is a text. *)
Theorem pg_memory_isolated a c w : proper_table ->
  match c with PRemember value => length value = length (ps_fields s) | _ => True end ->
  spares_others a w (pw_rows (pg_called a c w)).
Proof.
  intros Hpt Hc. destruct c as [value|q|id value|id|].
  - by apply remember_isolated. - apply recall_isolated. - by apply update_isolated. - apply forget_isolated. - apply forget_all_isolated.
Qed.
End Isolation.

(** * Recall *)

(** The tokens of a recall query: the score of the embedding against parameter 1, the identity in parameter 2, and then
    the conditions with their parameters. *)
Definition score_tokens (e metric : string) : list token :=
  if bool_decide (metric = "l2") then
    [kw "1"; op_token "/"; TChar "("; kw "1"; op_token "+"; TChar "("; name_token e; op_token "<->"; TParam 1; TChar ")"; TChar ")"]
  else if bool_decide (metric = "inner_product") then [op_token "-"; TChar "("; name_token e; op_token "<#>"; TParam 1; TChar ")"]
  else [kw "1"; op_token "-"; TChar "("; name_token e; op_token "<=>"; TParam 1; TChar ")"].

Definition filter_op (op : string) : string :=
  if bool_decide (op = "ne") then "<>" else if bool_decide (op = "gt") then ">" else if bool_decide (op = "gte") then ">="
  else if bool_decide (op = "lt") then "<" else if bool_decide (op = "lte") then "<=" else "=".
Definition filter_tokens (f : PgFilter) (n : N) : list token :=
  [kw "AND"; name_token (pf_Field f)] ++
  (if bool_decide (pf_Operator f = "in") then [op_token "="; kw "ANY"; TChar "("; TParam n; TChar ")"] else [op_token (filter_op (pf_Operator f)); TParam n]).

Definition order_tokens (e metric : string) (orders : list Order) : list token :=
  [kw "ORDER"; kw "BY"] ++
  match orders with
  | [] => [name_token e; op_token (pgvectorOp metric); TParam 1]
  | _ => commas (map (fun o => [name_token (od_Field o); kw (if bool_decide (od_Direction o = "asc") then "ASC" else "DESC")]) orders)
  end.

Definition recall_tokens (t e metric ident : string) (columns : list string) (q : PgQuery) : list token :=
  let k := if f_is_zero (pq_MinSimilarity q) then 3%nat else 4%nat in
  [kw "SELECT"] ++ commas (map (fun c => [name_token c]) columns) ++ [TChar ","] ++ score_tokens e metric ++
  [kw "AS"; kw "_similarity"; kw "FROM"; name_token t; kw "WHERE"; name_token ident; op_token "="; TParam 2] ++
  (if f_is_zero (pq_MinSimilarity q) then [] else kw "AND" :: score_tokens e metric ++ [op_token ">="; TParam 3]) ++
  concat (imap (fun i f => filter_tokens f (N.of_nat (k + i))) (pq_Filters q)) ++
  order_tokens e metric (pq_Order q) ++
  (if bool_decide (0 < pq_Limit q) then [kw "LIMIT"; TParam (N.of_nat (k + length (pq_Filters q)))] else []).

Definition recall_args (q : PgQuery) : list PgArg :=
  (if f_is_zero (pq_MinSimilarity q) then [] else [PGo (VFloat (pq_MinSimilarity q))]) ++ map (fun f => filter_arg (pf_Value f)) (pq_Filters q) ++
  (if bool_decide (0 < pq_Limit q) then [PGo (VInt (pq_Limit q))] else []).

Section Recall.
Context `{PgIdentifierLaws} (s : PStore) (t e : string) (Hn : named s t e).

Lemma recallColumn_name field column : recallColumn (ps_schema s) field = Some column -> column = Sanitize field /\ readable field.
Proof.
  unfold recallColumn. case_bool_decide; [done|]. intros Hc. destruct (List.find _ _) as [c|] eqn:Hf; [|done]. injection Hc as <-.
  apply find_some in Hf as [Hin Hq]. apply bool_decide_eq_true_1 in Hq. subst field. apply (column_ok s t e Hn). by apply list_elem_of_In.
Qed.

Lemma scoreExpr_piece : piece (scoreExpr (ps_embeddingCol s) (distanceOp s) (param 1)) (score_tokens e (ps_distMetric s)).
Proof.
  unfold scoreExpr, distanceOp, pgvectorOp, score_tokens. rewrite (nm_embed _ _ _ Hn). pose proof (nm_embed_ok _ _ _ Hn) as He.
  destruct (decide (ps_distMetric s = "l2")) as [->|]; [rewrite !(bool_decide_true ("l2" = "l2")) by done|rewrite (bool_decide_false (_ = "l2")) by done].
  - rewrite bool_decide_true by done.
    change [kw "1"; op_token "/"; TChar "("; kw "1"; op_token "+"; TChar "("; name_token e; op_token "<->"; TParam 1; TChar ")"; TChar ")"] with
      ([kw "1"; op_token "/"; TChar "("; kw "1"; op_token "+"; TChar "("] ++ [name_token e] ++ ([op_token "<->"] ++ [TParam 1]) ++ [TChar ")"; TChar ")"]).
    apply complete_app; [done|]. apply piece_app; [by apply piece_name| |done].
    change (" " +:+ "<->" +:+ " " +:+ param 1 +:+ "))") with (" <-> " +:+ param 1 +:+ "))"). rewrite <- app_assoc.
    apply complete_app; [done|]. apply piece_app; [apply piece_param|by apply complete_piece|done].
  - destruct (decide (ps_distMetric s = "inner_product")) as [->|];
      [rewrite !(bool_decide_true ("inner_product" = "inner_product")) by done|rewrite !(bool_decide_false (_ = "inner_product")) by done].
    + rewrite bool_decide_false by done. rewrite bool_decide_true by done.
      change [op_token "-"; TChar "("; name_token e; op_token "<#>"; TParam 1; TChar ")"] with
        ([op_token "-"; TChar "("] ++ [name_token e] ++ [op_token "<#>"] ++ [TParam 1] ++ [TChar ")"]).
      apply complete_app; [done|]. apply piece_app; [by apply piece_name| |done].
      change (" " +:+ "<#>" +:+ " " +:+ param 1 +:+ ")") with (" <#> " +:+ param 1 +:+ ")").
      apply complete_app; [done|]. apply piece_app; [apply piece_param|by apply complete_piece|done].
    + rewrite !bool_decide_false by done.
      change [kw "1"; op_token "-"; TChar "("; name_token e; op_token "<=>"; TParam 1; TChar ")"] with
        ([kw "1"; op_token "-"; TChar "("] ++ [name_token e] ++ [op_token "<=>"] ++ [TParam 1] ++ [TChar ")"]).
      apply complete_app; [done|]. apply piece_app; [by apply piece_name| |done].
      change (" " +:+ "<=>" +:+ " " +:+ param 1 +:+ ")") with (" <=> " +:+ param 1 +:+ ")").
      apply complete_app; [done|]. apply piece_app; [apply piece_param|by apply complete_piece|done].
Qed.

Lemma filter_clauses_tokens filters n text args : filter_clauses s n filters = Ok (text, args) ->
  piece text (concat (imap (fun i f => filter_tokens f (N.of_nat (n + i))) filters)) /\ args = map (fun f => filter_arg (pf_Value f)) filters /\ starts_apart text.
Proof.
  revert n text args. induction filters as [|f filters IH]; intros n text args; cbn [filter_clauses].
  - intros [= <- <-]. split_and!; [|done|done]. by apply complete_piece.
  - destruct (recallColumn (ps_schema s) (pf_Field f)) as [column|] eqn:Hc; [|done]. apply recallColumn_name in Hc as [-> Hr].
    destruct (postgresFilterOperator (pf_Operator f)) as [op|] eqn:Hop; cbn [res_bind]; [|done].
    destruct (validateFilterValue _ _) as [[]|]; cbn [res_bind]; [|done].
    destruct (filter_clauses s (S n) filters) as [[rt ra]|] eqn:Hrest; cbn [res_bind fst snd]; [|done]. intros [= <- <-].
    apply IH in Hrest as (Hp & -> & Ha). split_and!; [|done|by case_bool_decide].
    cbn [imap concat]. rewrite Nat.add_0_r. apply piece_app; [| |done].
    + unfold filter_tokens. destruct (decide (pf_Operator f = "in")) as [Hin|Hin].
      * rewrite !(bool_decide_true (pf_Operator f = "in")) by done.
        change ([kw "AND"; name_token (pf_Field f)] ++ ?x) with ([kw "AND"] ++ [name_token (pf_Field f)] ++ x).
        apply complete_app; [done|]. apply piece_app; [by apply piece_name| |done].
        change [op_token "="; kw "ANY"; TChar "("; TParam (N.of_nat n); TChar ")"] with ([op_token "="; kw "ANY"; TChar "("] ++ [TParam (N.of_nat n)] ++ [TChar ")"]).
        apply complete_app; [done|]. apply piece_app; [apply piece_param|by apply complete_piece|done].
      * rewrite !(bool_decide_false (pf_Operator f = "in")) by done.
        change ([kw "AND"; name_token (pf_Field f)] ++ ?x) with ([kw "AND"] ++ [name_token (pf_Field f)] ++ x).
        apply complete_app; [done|]. apply piece_app; [by apply piece_name| |done].
        assert (Hx : complete (" " +:+ op +:+ " ") [op_token (filter_op (pf_Operator f))]).
        { revert Hop. unfold postgresFilterOperator, filter_op.
          destruct (decide (pf_Operator f = "eq")) as [->|]; [by intros [= <-]|rewrite (bool_decide_false (_ = "eq")) by done].
          destruct (decide (pf_Operator f = "ne")) as [->|]; [by intros [= <-]|rewrite !(bool_decide_false (_ = "ne")) by done].
          destruct (decide (pf_Operator f = "gt")) as [->|]; [by intros [= <-]|rewrite !(bool_decide_false (_ = "gt")) by done].
          destruct (decide (pf_Operator f = "gte")) as [->|]; [by intros [= <-]|rewrite !(bool_decide_false (_ = "gte")) by done].
          destruct (decide (pf_Operator f = "lt")) as [->|]; [by intros [= <-]|rewrite !(bool_decide_false (_ = "lt")) by done].
          destruct (decide (pf_Operator f = "lte")) as [->|]; [by intros [= <-]|rewrite !(bool_decide_false (_ = "lte")) by done].
          by rewrite (bool_decide_false (_ = "in")) by done. }
        change [op_token (filter_op (pf_Operator f)); TParam (N.of_nat n)] with ([op_token (filter_op (pf_Operator f))] ++ [TParam (N.of_nat n)]).
        assert (Hs : " " +:+ op +:+ " " +:+ param (N.of_nat n) = (" " +:+ op +:+ " ") +:+ param (N.of_nat n)) by (by rewrite <- !string_cat_assoc).
        rewrite Hs. apply complete_app; [done|apply piece_param].
    + rewrite (imap_ext _ (fun i f => filter_tokens f (N.of_nat (S n + i)))); [exact Hp|]. intros i x _. simpl. do 2 f_equal. lia.
Qed.

Lemma order_clauses_tokens orders os : order_clauses s orders = Ok os ->
  Forall2 piece os (map (fun o => [name_token (od_Field o); kw (if bool_decide (od_Direction o = "asc") then "ASC" else "DESC")]) orders).
Proof.
  revert os. induction orders as [|o orders IH]; intros os; cbn [order_clauses map]; [intros [= <-]; constructor|].
  destruct (recallColumn (ps_schema s) (od_Field o)) as [column|] eqn:Hc; [|done]. apply recallColumn_name in Hc as [-> Hr].
  destruct (postgresOrderDirection (od_Direction o)) as [d|] eqn:Hd; cbn [res_bind]; [|done].
  destruct (order_clauses s orders) as [rest|]; cbn [res_bind]; [|done]. intros [= <-]. constructor; [|by apply IH].
  change [name_token (od_Field o); ?x] with ([name_token (od_Field o)] ++ [x]). apply piece_app; [by apply piece_name| |done].
  revert Hd. unfold postgresOrderDirection. destruct (decide (od_Direction o = "asc")) as [->|];
    [rewrite (bool_decide_true ("asc" = "asc")) by done|rewrite (bool_decide_false (_ = "asc")) by done].
  - intros [= <-]. exists [], (LWord (sbytes "ASC")). done.
  - destruct (bool_decide (od_Direction o = "desc")); [|done]. intros [= <-]. exists [], (LWord (sbytes "DESC")). done.
Qed.
Context `{GoText} `{FieldJSON}.

(** C20. A recall on PostgreSQL asks for what the query says: the statement is, token for token, the selection of the
    columns and the score from the rows of the identity, with the threshold, each filter on its own column with its own
    operator and parameter, the order and the limit; and the arguments are the values of exactly these parameters, so
    that no value is ever part of the text. *)
Theorem pg_recall_statement q text args : buildRecallQuery s q = Ok (text, args) ->
  tokens text = recall_tokens t e (ps_distMetric s) (raw_at s (IdentifierIdx (ps_schema s))) (raw (Columns (ps_schema s))) q /\
  args = recall_args q /\
  (forall vec identity i f, pq_Filters q !! i = Some f ->
    arg_of (vec :: identity :: args) (N.of_nat ((if f_is_zero (pq_MinSimilarity q) then 3 else 4) + i)) = Some (filter_arg (pf_Value f))).
Proof.
  unfold buildRecallQuery. destruct (pg_validateRecallQuery q) as [[]|]; cbn [res_bind]; [|done].
  set (min := if f_is_zero (pq_MinSimilarity q) then _ else _). set (k := if f_is_zero (pq_MinSimilarity q) then 3%nat else 4%nat).
  assert (Hmin : piece min.1 (if f_is_zero (pq_MinSimilarity q) then [] else kw "AND" :: score_tokens e (ps_distMetric s) ++ [op_token ">="; TParam 3]) /\
    (3 + length min.2)%nat = k /\ min.2 = (if f_is_zero (pq_MinSimilarity q) then [] else [PGo (VFloat (pq_MinSimilarity q))]) /\ starts_apart min.1).
  { subst min k. destruct (f_is_zero (pq_MinSimilarity q)); cbn [fst snd length]; split_and!; try done; [by apply complete_piece|].
    change (kw "AND" :: ?x) with ([kw "AND"] ++ x). apply complete_app; [done|]. apply piece_app; [apply scoreExpr_piece| |done].
    change [op_token ">="; TParam 3] with ([op_token ">="] ++ [TParam 3]). apply complete_app; [done|apply piece_param]. }
  destruct min as [mt ma] eqn:Hm. cbn [fst snd] in Hmin. destruct Hmin as (Hmp & Hk & Hma & Hms). rewrite Hk.
  destruct (filter_clauses s k (pq_Filters q)) as [[ft fa]|] eqn:Hf; cbn [res_bind fst snd]; [|done].
  apply filter_clauses_tokens in Hf as (Hfp & -> & Hfs).
  set (order := match pq_Order q with [] => _ | _ => _ end).
  destruct order as [ot|] eqn:Ho; cbn [res_bind]; [|done].
  assert (Hop : piece ot (order_tokens e (ps_distMetric s) (pq_Order q)) /\ starts_apart ot).
  { subst order. unfold order_tokens. destruct (pq_Order q) as [|o os].
    - injection Ho as <-. split; [|done]. change ([kw "ORDER"; kw "BY"] ++ ?x) with ([kw "ORDER"; kw "BY"] ++ x). apply complete_app; [done|].
      rewrite (nm_embed _ _ _ Hn). unfold distanceOp.
      change [name_token e; op_token (pgvectorOp (ps_distMetric s)); TParam 1] with ([name_token e] ++ [op_token (pgvectorOp (ps_distMetric s))] ++ [TParam 1]).
      apply piece_app; [apply piece_name, (nm_embed_ok _ _ _ Hn)| |done]. rewrite <- (string_cat_assoc " "), <- (string_cat_assoc (" " +:+ _)).
      apply complete_app; [|apply piece_param]. unfold pgvectorOp. repeat case_bool_decide; done.
    - destruct (order_clauses s (o :: os)) as [cs|] eqn:Hc; [|done]. cbn [res_bind] in Ho. injection Ho as <-. split; [|done].
      apply complete_app; [done|]. apply piece_join. by apply order_clauses_tokens. }
  destruct Hop as [Hop Hos].
  destruct (column_at_ok s t e Hn (IdentifierIdx (ps_schema s))) as [Hid1 Hid2]; [auto|apply (nm_ident _ _ _ Hn)|]. rewrite Hid1, (nm_table _ _ _ Hn).
  destruct (sublist_columns s t e Hn (Columns (ps_schema s))) as [Hc Hr]; [done|]. unfold columnNames. rewrite Hc.
  assert (Hhead : piece ("SELECT " +:+ Join (map Sanitize (raw (Columns (ps_schema s)))) ", " +:+ ", " +:+ scoreExpr (ps_embeddingCol s) (distanceOp s) (param 1) +:+
      " AS _similarity FROM " +:+ Sanitize t +:+ " WHERE " +:+ equals (Sanitize (raw_at s (IdentifierIdx (ps_schema s)))) 2)
    ([kw "SELECT"] ++ commas (map (fun c => [name_token c]) (raw (Columns (ps_schema s)))) ++ [TChar ","] ++ score_tokens e (ps_distMetric s) ++
     [kw "AS"; kw "_similarity"; kw "FROM"; name_token t; kw "WHERE"; name_token (raw_at s (IdentifierIdx (ps_schema s))); op_token "="; TParam 2])).
  { apply complete_app; [done|]. apply piece_app; [by apply piece_names| |done]. apply complete_app; [done|]. apply piece_app; [apply scoreExpr_piece| |done].
    change [kw "AS"; kw "_similarity"; kw "FROM"; name_token t; kw "WHERE"; ?a; ?b; ?c] with ([kw "AS"; kw "_similarity"; kw "FROM"] ++ [name_token t] ++ [kw "WHERE"] ++ [a; b; c]).
    apply complete_app; [done|]. apply piece_app; [apply piece_name, (nm_table_ok _ _ _ Hn)| |done]. apply complete_app; [done|].
    by apply (piece_equals (raw_at s (IdentifierIdx (ps_schema s))) 2). }
  assert (Hbody : forall tail ts, piece tail ts -> starts_apart tail ->
    tokens (("SELECT " +:+ Join (map Sanitize (raw (Columns (ps_schema s)))) ", " +:+ ", " +:+ scoreExpr (ps_embeddingCol s) (distanceOp s) (param 1) +:+
      " AS _similarity FROM " +:+ Sanitize t +:+ " WHERE " +:+ equals (Sanitize (raw_at s (IdentifierIdx (ps_schema s)))) 2) +:+ mt +:+ ft +:+ ot +:+ tail) =
    ([kw "SELECT"] ++ commas (map (fun c => [name_token c]) (raw (Columns (ps_schema s)))) ++ [TChar ","] ++ score_tokens e (ps_distMetric s) ++
     [kw "AS"; kw "_similarity"; kw "FROM"; name_token t; kw "WHERE"; name_token (raw_at s (IdentifierIdx (ps_schema s))); op_token "="; TParam 2]) ++
    (if f_is_zero (pq_MinSimilarity q) then [] else kw "AND" :: score_tokens e (ps_distMetric s) ++ [op_token ">="; TParam 3]) ++
    concat (imap (fun i f => filter_tokens f (N.of_nat (k + i))) (pq_Filters q)) ++ order_tokens e (ps_distMetric s) (pq_Order q) ++ ts).
  { intros tail ts Ht Hs. apply piece_tokens. apply piece_app; [exact Hhead| |].
    - apply piece_app; [exact Hmp| |]; [apply piece_app; [exact Hfp| |]; [by apply piece_app|]|]; destruct ft, ot; done.
    - destruct mt, ft, ot; done. }
  assert (Hargs : forall vec identity i f rest, pq_Filters q !! i = Some f ->
    arg_of (vec :: identity :: (ma ++ map (fun f => filter_arg (pf_Value f)) (pq_Filters q)) ++ rest) (N.of_nat (k + i)) = Some (filter_arg (pf_Value f))).
  { intros vec identity i f rest Hi. destruct k as [|k'] eqn:Ek; [lia|]. cbn [Nat.add]. rewrite arg_at. rewrite <- Hk in *.
    replace (k' + i)%nat with (S (S (length ma + i))) by lia. rewrite !lookup_cons_ne_0 by done. cbn [Init.Nat.pred Nat.pred]. rewrite <- app_assoc.
    rewrite lookup_app_r by lia. replace (length ma + i - length ma)%nat with i by lia.
    apply lookup_app_l_Some. by rewrite list_lookup_fmap, Hi. }
  unfold recall_tokens, recall_args. fold k. case_bool_decide as Hl; intros [= <- <-]; split_and!.
  - specialize (Hbody (" LIMIT " +:+ param (N.of_nat (k + length (pq_Filters q)))) ([kw "LIMIT"] ++ [TParam (N.of_nat (k + length (pq_Filters q)))])).
    rewrite length_app, length_map. replace (S (S (S (length ma + length (pq_Filters q)))))%nat with (k + length (pq_Filters q))%nat by lia.
    rewrite Hbody; [by rewrite <- !app_assoc| |done]. apply complete_app; [done|apply piece_param].
  - by rewrite Hma, <- app_assoc.
  - intros vec identity i f Hi. by apply Hargs.
  - specialize (Hbody "" []). replace (ot +:+ "") with ot in Hbody.
    + rewrite Hbody; [by rewrite <- !app_assoc| |done]. by apply complete_piece.
    + clear. induction ot as [|c ot IH]; [done|]. change (String c ot +:+ "") with (String c (ot +:+ "")). by rewrite <- IH.
  - by rewrite Hma, app_nil_r.
  - intros vec identity i f Hi. specialize (Hargs vec identity i f [] Hi). by rewrite app_nil_r in Hargs.
Qed.
End Recall.
