(* ===== verification/PgMemoryRuns.v ===== *)
(** Runs of the PostgreSQL memory store: a server that reads statements back from their tokens, the witnesses, and
    behaviours of the code that surprise. *)
From Stdlib Require Import Ascii SpecFloat.
From S2P Require Import Prelude Errors Messages Execution Schema Ranking Decimal SemanticMemory SqlConversation.
From S2P Require Import GoStruct RedisSchema RedisMemoryRuns SqlText PgMemory PgMemoryProps.
Local Open Scope Z_scope.

#[export] Instance token_eq_dec : EqDecision token.
Proof. solve_decision. Defined.

(** * Reading statements *)

Definition text_of (s : list ascii) : string := String.string_of_list_ascii s.

Fixpoint read_names (ts : list token) : list string * list token :=
  match ts with
  | TName n :: ((TChar _ :: ts') as rest) =>
      if bool_decide (head rest = Some (TChar ",")) then let '(ns, r) := read_names ts' in (text_of n :: ns, r) else ([text_of n], rest)
  | TName n :: rest => ([text_of n], rest)
  | _ => ([], ts)
  end.
Fixpoint read_params (ts : list token) : list N :=
  match ts with TParam n :: TChar _ :: ts => n :: read_params ts | _ => [] end.
(** Equations with [sep] between them. *)
Fixpoint read_equals (sep : token) (ts : list token) : list (string * N) * list token :=
  match ts with
  | TName n :: TOp _ :: TParam k :: ((s :: ts') as rest) =>
      if bool_decide (s = sep) then let '(cs, r) := read_equals sep ts' in ((text_of n, k) :: cs, r) else ([(text_of n, k)], rest)
  | TName n :: TOp _ :: TParam k :: rest => ([(text_of n, k)], rest)
  | _ => ([], ts)
  end.

Definition read_stmt (ts : list token) : option PgStmt :=
  match ts with
  | k :: TName t :: ts1 =>
      if bool_decide (k = kw "UPDATE") then
        let '(sets, ts2) := read_equals (TChar ",") (tail ts1) in Some (StUpdate (text_of t) sets (read_equals (kw "AND") (tail ts2)).1)
      else None
  | k :: _ :: TName t :: ts1 =>
      if bool_decide (k = kw "INSERT") then
        let '(names, ts2) := read_names (tail ts1) in Some (StInsert (text_of t) (zip names (read_params (drop 3 ts2))))
      else if bool_decide (k = kw "DELETE") then Some (StDelete (text_of t) (read_equals (kw "AND") (tail ts1)).1)
      else None
  | _ => None
  end.

Lemma text_name n : text_of (sbytes n) = n.
Proof. apply String.string_of_list_ascii_of_string. Qed.

Lemma read_names_back names rest : match rest with TName _ :: _ => False | t :: _ => t <> TChar "," | [] => True end ->
  read_names (commas (map (fun n => [name_token n]) names) ++ rest) = (names, rest).
Proof.
  intros Hr. induction names as [|n names IH]; [by destruct rest as [|[] rest]|]. destruct names as [|m names].
  - cbn [map commas app name_token read_names]. rewrite text_name. destruct rest as [|[] rest]; try done. cbn [head]. by rewrite bool_decide_false by congruence.
  - change (commas (map (fun n => [name_token n]) (n :: m :: names)) ++ rest) with
      (TName (sbytes n) :: TChar "," :: commas (map (fun n => [name_token n]) (m :: names)) ++ rest).
    cbn [read_names head]. rewrite bool_decide_true by done. by rewrite IH, text_name.
Qed.

Lemma read_params_back ns c : read_params (commas (map (fun n => [TParam n]) ns) ++ [TChar c]) = ns.
Proof.
  induction ns as [|n ns IH]; [done|]. destruct ns as [|m ns]; [done|].
  change (commas (map (fun n => [TParam n]) (n :: m :: ns)) ++ [TChar c]) with (TParam n :: TChar "," :: commas (map (fun n => [TParam n]) (m :: ns)) ++ [TChar c]).
  cbn [read_params]. by rewrite IH.
Qed.

Fixpoint separated (sep : token) (cs : list (string * N)) : list token :=
  match cs with [] => [] | [c] => eq_tokens c | c :: cs => eq_tokens c ++ sep :: separated sep cs end.
Lemma and_separated cs : and_tokens cs = separated (kw "AND") cs.
Proof. induction cs as [|c [|d cs] IH]; [done|done|]. cbn [and_tokens separated] in *. by rewrite IH. Qed.
Lemma comma_separated cs : commas (map eq_tokens cs) = separated (TChar ",") cs.
Proof. induction cs as [|c [|d cs] IH]; [done|done|]. cbn [map commas separated] in *. by rewrite IH. Qed.

Lemma read_equals_back sep cs rest : match rest with TName _ :: _ => False | t :: _ => t <> sep | [] => True end ->
  read_equals sep (separated sep cs ++ rest) = (cs, rest).
Proof.
  intros Hr. induction cs as [|[n k] cs IH]; [by destruct rest as [|[] rest]|]. destruct cs as [|d cs].
  - cbn [separated eq_tokens name_token app fst snd read_equals]. rewrite text_name. destruct rest as [|x rest]; [done|].
    rewrite bool_decide_false; [done|]. by destruct x.
  - change (separated sep ((n, k) :: d :: cs) ++ rest) with (TName (sbytes n) :: op_token "=" :: TParam k :: sep :: separated sep (d :: cs) ++ rest).
    cbn [read_equals op_token]. rewrite bool_decide_true by done. by rewrite IH, text_name.
Qed.

Lemma read_stmt_back st : read_stmt (stmt_tokens st) = Some st.
Proof.
  destruct st as [t cols|t sets conds|t conds]; cbn [stmt_tokens].
  - change (read_stmt ([kw "INSERT"; kw "INTO"; name_token t; TChar "("] ++ ?x)) with
      (let '(names, ts2) := read_names x in Some (StInsert (text_of (sbytes t)) (zip names (read_params (drop 3 ts2))))).
    rewrite <- (map_map fst (fun n => [name_token n])), <- (map_map snd (fun n => [TParam n])), read_names_back by done.
    cbn [app drop]. rewrite drop_0, read_params_back, text_name. do 2 f_equal. clear. induction cols as [|[n k] cols IH]; [done|]. cbn [map zip zip_with fst snd]. by f_equal.
  - change (read_stmt ([kw "UPDATE"; name_token t; kw "SET"] ++ ?x)) with
      (let '(sets, ts2) := read_equals (TChar ",") x in Some (StUpdate (text_of (sbytes t)) sets (read_equals (kw "AND") (tail ts2)).1)).
    rewrite comma_separated, read_equals_back by done. cbn [tail]. rewrite and_separated, <- (app_nil_r (separated _ conds)), read_equals_back by done.
    by rewrite text_name.
  - change (read_stmt ([kw "DELETE"; kw "FROM"; name_token t; kw "WHERE"] ++ ?x)) with (Some (StDelete (text_of (sbytes t)) (read_equals (kw "AND") x).1)).
    by rewrite and_separated, <- (app_nil_r (separated _ conds)), read_equals_back, text_name.
Qed.

(** Texts are equal when they are the same; other values never are.  A row without id gets one. *)
#[export] Instance text_table : PgTable := {|
  veq x y := match x, y with PGo (VString a), PGo (VString b) => bool_decide (a = b) | _, _ => false end;
  complete_row r := match r !! "id" with Some _ => r | None => <["id" := PGo (VString "generated")]> r end |}.
#[export] Instance text_table_laws : PgTableLaws.
Proof.
  split.
  - intros t. by apply bool_decide_true.
  - intros r k v Hk. simpl. destruct (r !! "id") eqn:Hid; [done|]. rewrite lookup_insert_ne; [done|]. intros <-. by rewrite Hid in Hk.
Qed.

(** A server that executes the statements it can read. *)
#[export] Instance reading_server : PgServer (list PgRow) := {|
  pg_exec text args rows :=
    match read_stmt (tokens text) with
    | Some st => match run_stmt veq complete_row st args rows with Some (n, rows') => (Ok n, rows') | None => (Err (ENew "bind"), rows) end
    | None => (Err (ENew "syntax error"), rows)
    end;
  pg_query _ _ _ := Ok ([], None) |}.
#[export] Instance reading_server_laws : PgServerLaws.
Proof.
  split. intros st text args rows r rows' Ht. unfold pg_exec, reading_server. rewrite Ht, read_stmt_back.
  destruct (run_stmt _ _ st args rows) as [[n rows2]|]; intros [= <- <-]; [right; by exists n|by left].
Qed.

(** * A sample store

    Its table and embedding column have names that try to end their quotes. *)
Definition hostile_name : string := "mem" +:+ String quote "; DROP TABLE users; --".
Definition hostile_column : string := "vec" +:+ String quote (String quote " = $9").
Definition pg_notes_made : res PStore :=
  fst (NewStore true true None (RStruct note_fields) "notes" 1 [WithTableName hostile_name; WithEmbeddingColumn hostile_column; WithDistanceMetric "l2"]).
Definition pg_notes : PStore := Eval vm_compute in match pg_notes_made with Ok s => s | Err _ => mkPStore 0 "" "" "" (mkTable [] None None None "") [] end.

Lemma readable_computed name : bool_decide (nul ∈ sbytes name) = false -> readable name.
Proof. intros Hn. by apply bool_decide_eq_false_1 in Hn. Qed.

Lemma pg_notes_named : named pg_notes hostile_name hostile_column.
Proof.
  split; try (vm_compute; reflexivity); try (apply readable_computed; vm_compute; reflexivity).
  - repeat (apply Forall_cons; split; [split; [vm_compute; reflexivity|apply readable_computed; vm_compute; reflexivity]|]). by apply Forall_nil.
  - intros i Hi. destruct_or! Hi; injection Hi as <-; vm_compute; lia.
  - by eexists.
Qed.

Definition no_pg_embed (_ : string) (x : unit) : res (list Ranking.float) * unit := (Ok [one], x).
Definition pg_row (tenant : string) : PgRow := {[ "id" := PGo (VString "7"); "tenant" := PGo (VString tenant) ]}.
Definition pg_world (rows : list PgRow) : pworld (list PgRow) unit := mkPworld rows [mkPenv (fun rows => rows ++ [pg_row "carol"]) NoFault] tt.

Lemma pg_notes_proper : proper_table pg_notes hostile_column.
Proof.
  split; [apply (bool_decide_eq_true_1 _); vm_compute; reflexivity|]. intros c. vm_compute. intros [= <-]. split; [done|]. split; [done|]. lia.
Qed.

(** Alice remembers a note, another client acting first. *)
Lemma pg_memory_isolated_witness :
  others pg_notes "alice" (pw_rows (pg_called no_pg_embed pg_notes "alice" (PRemember (note "8" "bob")) (pg_world [pg_row "alice"; pg_row "bob"]))) =
  [pg_row "bob"; pg_row "carol"].
Proof.
  destruct (pg_memory_isolated no_pg_embed pg_notes hostile_name hostile_column pg_notes_named "alice" (PRemember (note "8" "bob"))
    (pg_world [pg_row "alice"; pg_row "bob"]) pg_notes_proper eq_refl) as [Hr|Hr].
  - apply (f_equal length) in Hr. vm_compute in Hr. discriminate.
  - rewrite Hr. vm_compute. reflexivity.
Defined.

Definition pg_hostile_query : PgQuery := mkPgQuery "hello" 5 f_unit
  [mkPgFilter "count" "gte" (PvOne (TInt 64) false (VInt 3)); mkPgFilter "tenant" "in" (PvSeq true false TString [VString "bob"; VString "x') OR true --"])]
  [mkOrder "created" "desc"].
Definition pg_query_text : string * list PgArg := Eval vm_compute in match buildRecallQuery pg_notes pg_hostile_query with Ok q => q | Err _ => ("", []) end.

Lemma pg_recall_statement_witness :
  buildRecallQuery pg_notes pg_hostile_query = Ok pg_query_text /\
  arg_of (PVector [one] :: PGo (VString "alice") :: pg_query_text.2) 5 = Some (PArray [VString "bob"; VString "x') OR true --"]).
Proof.
  assert (Hq : buildRecallQuery pg_notes pg_hostile_query = Ok (pg_query_text.1, pg_query_text.2)) by (vm_compute; reflexivity).
  split; [exact Hq|].
  destruct (pg_recall_statement pg_notes hostile_name hostile_column pg_notes_named pg_hostile_query _ _ Hq) as (_ & _ & Ha).
  exact (Ha _ _ 1%nat _ eq_refl).
Defined.

(** * Behaviours of the code that surprise *)

Definition typed_fields (tenant : GoTyp) : list Field := [field "ID" TString "id,pk"; field "Tenant" tenant "tenant,identifier"; field "Text" TString "content,content"].
Definition store_for (metric : string) (fs : list Field) : PStore :=
  match (NewStore true true None (RStruct fs) "notes" 1 [WithDistanceMetric metric]).1 with Ok s => s | Err _ => pg_notes end.

(** A struct whose identifier is not a text is accepted; the identity is then dropped, and a row without tenant, or with
    the one that the value names, is written. *)
Lemma pg_identifier_dropped :
  is_ok (NewStore true true None (RStruct (typed_fields (TInt 64))) "notes" 1 []).1 = true /\
  let s := store_for "cosine" (typed_fields (TInt 64)) in
  setIdentifierField s [VString ""; VInt 42; VString "hello"] "alice" = [VString ""; VInt 42; VString "hello"] /\
  (exists text, insert_statement s (setIdentifierField s [VString ""; VInt 42; VString "hello"] "alice") [one] =
    Ok (text, [PGo (VInt 42); PGo (VString "hello"); PVector [to_float32 one]])) /\
  exists text, insert_statement s (setIdentifierField s [VString ""; VInt 0; VString "hello"] "alice") [one] =
    Ok (text, [PGo (VString "hello"); PVector [to_float32 one]]).
Proof. vm_compute. split_and!; try done; by eexists. Qed.

(** A threshold above one, which an unbounded inner product can ask for, is refused. *)
Lemma pg_threshold_refused :
  is_ok (buildRecallQuery (store_for "inner_product" (typed_fields TString)) (mkPgQuery "hello" 5 (f_add one one) [] [])) = false.
Proof. vm_compute. done. Qed.

(** Forgetting an entry that is not there succeeds. *)
Lemma pg_forget_missing :
  Forget pg_notes "alice" "no such entry" (pg_world []) = (Ok tt, mkPworld [pg_row "carol"] [] tt).
Proof. vm_compute. done. Qed.

(** The parameters of the tools name the fields that are not stored. *)
Lemma pg_input_unstored :
  (GenerateInputSchema (mkPStore 1 "" "" "" (mkTable [] None None None "") [GoStruct.mkField "Extra" true TString None "" "" "" "" ""]) (fun _ => [])).1 =
  [("Extra", AObj [])].
Proof. vm_compute. done. Qed.
