(* ===== verification/InvocationContext.v ===== *)
(** The context of an invocation (agent/context.go, identity.go) over a heap: slices, maps, pointers and contexts are
    cells, so that what two contexts share and what a clone copies is explicit. *)
From S2P Require Import Prelude Errors Messages Normalize TurnMessages Execution Schema Tool.
From S2P Require Import Inference Stores EventSink State.

(** * The heap

    A slice is the cell of its array; [None] is nil. *)
Abbreviation loc := nat.

Record ImageRef := mkImg { im_Data : option loc; im_Base64 : string; im_URL : string; im_MIMEType : string }.
Record DocRef := mkDoc {
  dr_Data : option loc; dr_Base64 : string; dr_URL : string; dr_FileID : string;
  dr_S3URI : string; dr_S3BucketOwner : string; dr_MIMEType : string; dr_Name : string }.
Record PrincipalRef := mkPrin { pf_ID : string; pf_Roles : option loc; pf_Attrs : option loc; pf_Credentials : option loc }.
Record InferenceRef := mkInf {
  if_Temperature : option loc; if_TopP : option loc; if_TopK : option loc; if_StopSequences : option loc; if_MaxTokens : option loc }.

(* agent/context.go:43-59: invocationConfig *)
Record Config := mkCfg {
  hc_conversationID : string; hc_executionID : string; hc_executionIDSet : bool; hc_executionResume : bool; hc_executionVersion : N;
  hc_images : option loc; hc_documents : option loc; hc_inferenceConfig : option loc; hc_identity : string; hc_scopes : option loc;
  hc_principal : option loc; hc_instructions : string; hc_detailedEvents : bool; hc_observers : option loc; hc_observersSet : bool }.
#[global] Instance eta_Config : Settable Config := fun c =>
  mkCfg (hc_conversationID c) (hc_executionID c) (hc_executionIDSet c) (hc_executionResume c) (hc_executionVersion c)
    (hc_images c) (hc_documents c) (hc_inferenceConfig c) (hc_identity c) (hc_scopes c)
    (hc_principal c) (hc_instructions c) (hc_detailedEvents c) (hc_observers c) (hc_observersSet c).
Definition cfg_zero : Config := mkCfg "" "" false false 0 None None None "" None None "" false None false.

Section Heap.
(** Keys and values of the user's store and of standard contexts, and observers. *)
Context {K V Obs : Type} `{Countable K}.

(** Contexts of the standard library: values and cancellation on a parent; one of them may be a context of ours. *)
Inductive gctx := GBackground | GValue (k : K) (v : V) (parent : gctx) | GUsage (u : TokenUsage) (parent : gctx) | GCancel (parent : gctx) | GAgent (c : loc).

(* agent/context.go:32-39: Context *)
Record Ctx := mkCtx { cx_parent : gctx; cx_cfg : Config; cx_kv : loc; cx_rt : option loc; cx_call : option loc }.
#[global] Instance eta_Ctx : Settable Ctx := fun c => mkCtx (cx_parent c) (cx_cfg c) (cx_kv c) (cx_rt c) (cx_call c).

(* agent/context.go:97-108: toolCallRuntime *)
Record CallRuntime := mkCall { cl_id : string; cl_async : bool; cl_widgets : list Widget; cl_humanInput : option InputInterrupt }.

Inductive cell :=
| CBytes (b : string) | CStrings (l : list string) | CMap (m : gmap string string) | CFloat (f : float64) | CInt (z : Z)
| CImages (l : list ImageRef) | CDocs (l : list DocRef) | CInference (i : InferenceRef) | CPrincipal (p : PrincipalRef)
| CObservers (l : list Obs) | CKv (m : gmap K V) | CRuntime (usage : TokenUsage) (sink : bool) | CCall (r : CallRuntime) | CCtx (c : Ctx).

(** Cells are numbered in the order of their allocation.  [h_events] are the events handed to sinks: the runtime, whether
    they were queued, and the event. *)
Record heap := mkHeap { h_next : loc; h_cells : gmap loc cell; h_events : list (loc * bool * Event) }.
#[global] Instance eta_heap : Settable heap := fun h => mkHeap (h_next h) (h_cells h) (h_events h).

Definition HM (A : Type) : Type := heap -> A * heap.
Definition hret {A} (x : A) : HM A := fun h => (x, h).
Definition hbind {A B} (m : HM A) (k : A -> HM B) : HM B := fun h => let '(x, h) := m h in k x h.
Definition alloc (c : cell) : HM loc := fun h => (h_next h, h <| h_next := S (h_next h) |> <| h_cells := <[h_next h := c]> (h_cells h) |>).
Definition write (l : loc) (c : cell) : HM unit := fun h => (tt, h <| h_cells := <[l := c]> (h_cells h) |>).
Definition read {A} (r : option loc) (f : cell -> option A) (h : heap) : option A := r ≫= fun l => h_cells h !! l ≫= f.
Local Notation "'let!' x := m 'in' k" := (hbind m (fun x => k)) (at level 10, x binder, m at level 100, k at level 200).

Definition get_bytes c := match c with CBytes b => Some b | _ => None end.
Definition get_strings c := match c with CStrings l => Some l | _ => None end.
Definition get_map c := match c with CMap m => Some m | _ => None end.
Definition get_float c := match c with CFloat f => Some f | _ => None end.
Definition get_int c := match c with CInt z => Some z | _ => None end.
Definition get_images c := match c with CImages l => Some l | _ => None end.
Definition get_docs c := match c with CDocs l => Some l | _ => None end.
Definition get_inference c := match c with CInference i => Some i | _ => None end.
Definition get_principal c := match c with CPrincipal p => Some p | _ => None end.
Definition get_observers c := match c with CObservers l => Some l | _ => None end.
Definition get_kv c := match c with CKv m => Some m | _ => None end.
Definition get_runtime c := match c with CRuntime u s => Some (u, s) | _ => None end.
Definition get_call c := match c with CCall r => Some r | _ => None end.
Definition get_ctx c := match c with CCtx x => Some x | _ => None end.

(** The context at a reference. *)
Definition nil_ctx : Ctx := mkCtx GBackground cfg_zero 0 None None.
Definition ctx_at (c : loc) (h : heap) : Ctx := default nil_ctx (read (Some c) get_ctx h).
Definition with_cfg (c : loc) (f : Config -> Config) : HM loc := fun h =>
  let x := ctx_at c h in (c, (write c (CCtx (x <| cx_cfg := f (cx_cfg x) |>)) h).2).

(** * Reading deeply *)

Definition image_at (h : heap) (i : ImageRef) : ImageSource := mkImageSource (read (im_Data i) get_bytes h) (im_Base64 i) (im_URL i) (im_MIMEType i).
Definition doc_at (h : heap) (d : DocRef) : DocumentSource :=
  mkDocumentSource (read (dr_Data d) get_bytes h) (dr_Base64 d) (dr_URL d) (dr_FileID d) (dr_S3URI d) (dr_S3BucketOwner d) (dr_MIMEType d) (dr_Name d).
Definition principal_at (h : heap) (p : PrincipalRef) : Principal :=
  mkPrincipal (pf_ID p) (default [] (read (pf_Roles p) get_strings h)) (default ∅ (read (pf_Attrs p) get_map h)) (default ∅ (read (pf_Credentials p) get_map h)).
Definition inference_at (h : heap) (i : InferenceRef) : InferenceConfig :=
  mkInference (read (if_Temperature i) get_float h) (read (if_TopP i) get_float h) (read (if_TopK i) get_int h)
    (read (if_StopSequences i) get_strings h) (read (if_MaxTokens i) get_int h).

(** What the configuration of a context says. *)
Record view := mkView { vw_cfg : invocationConfig; vw_identity : string; vw_scopes : gmap string string; vw_observers : list Obs; vw_observersSet : bool }.
Definition view_of (h : heap) (c : Config) : view :=
  mkView (mkConfig (hc_conversationID c) (hc_executionID c) (hc_executionIDSet c) (hc_executionResume c) (hc_executionVersion c)
            (map (image_at h) (default [] (read (hc_images c) get_images h))) (map (doc_at h) (default [] (read (hc_documents c) get_docs h)))
            (inference_at h <$> read (hc_inferenceConfig c) get_inference h) (principal_at h <$> read (hc_principal c) get_principal h)
            (hc_instructions c) (hc_detailedEvents c))
    (hc_identity c) (default ∅ (read (hc_scopes c) get_map h)) (default [] (read (hc_observers c) get_observers h)) (hc_observersSet c).

(** * Copies *)

(** append([]T(nil), xs...): a new array, or nil when there is nothing to copy. *)
Definition copy_slice {A} (get : cell -> option (list A)) (put : list A -> cell) (r : option loc) : HM (option loc) := fun h =>
  match read r get h with
  | None | Some [] => (None, h)
  | Some l => let '(l, h) := alloc (put l) h in (Some l, h)
  end.
Definition copy_bytes (r : option loc) : HM (option loc) := fun h =>
  match read r get_bytes h with
  | None | Some "" => (None, h)
  | Some b => let '(l, h) := alloc (CBytes b) h in (Some l, h)
  end.
(** A new cell with the same content: a copied map or number. *)
Definition copy_cell {A} (get : cell -> option A) (put : A -> cell) (r : option loc) : HM (option loc) := fun h =>
  match read r get h with
  | None => (None, h)
  | Some x => let '(l, h) := alloc (put x) h in (Some l, h)
  end.

(* agent/identity.go: clonePrincipal *)
Definition clonePrincipal (p : PrincipalRef) : HM PrincipalRef :=
  let! roles := copy_slice get_strings CStrings (pf_Roles p) in
  let! attrs := copy_cell get_map CMap (pf_Attrs p) in
  let! creds := copy_cell get_map CMap (pf_Credentials p) in
  hret (mkPrin (pf_ID p) roles attrs creds).

Fixpoint copy_images (l : list ImageRef) : HM (list ImageRef) :=
  match l with
  | [] => hret []
  | i :: l => let! d := copy_bytes (im_Data i) in let! l := copy_images l in hret (mkImg d (im_Base64 i) (im_URL i) (im_MIMEType i) :: l)
  end.
Fixpoint copy_docs (l : list DocRef) : HM (list DocRef) :=
  match l with
  | [] => hret []
  | d :: l =>
      let! b := copy_bytes (dr_Data d) in let! l := copy_docs l in
      hret (mkDoc b (dr_Base64 d) (dr_URL d) (dr_FileID d) (dr_S3URI d) (dr_S3BucketOwner d) (dr_MIMEType d) (dr_Name d) :: l)
  end.

(* agent/context.go:343-362: inference configuration in cloneInvocationConfig *)
Definition copy_inference (i : InferenceRef) : HM InferenceRef :=
  let! t := copy_cell get_float CFloat (if_Temperature i) in
  let! p := copy_cell get_float CFloat (if_TopP i) in
  let! k := copy_cell get_int CInt (if_TopK i) in
  let! m := copy_cell get_int CInt (if_MaxTokens i) in
  let! s := copy_slice get_strings CStrings (if_StopSequences i) in
  hret (mkInf t p k s m).

(** A copy of what is behind a pointer or slice, made by [f]. *)
Definition copy_with {A} (get : cell -> option A) (put : A -> cell) (f : A -> HM A) (r : option loc) : HM (option loc) := fun h =>
  match read r get h with
  | None => (None, h)
  | Some x => let '(y, h) := f x h in let '(l, h) := alloc (put y) h in (Some l, h)
  end.

(** A copy of a slice whose elements are copied by [f]. *)
Definition copy_slice_with {A} (get : cell -> option (list A)) (put : list A -> cell) (f : list A -> HM (list A)) (r : option loc) : HM (option loc) := fun h =>
  match read r get h with Some [] => (None, h) | _ => copy_with get put f r h end.

(* agent/context.go: cloneInvocationConfig *)
Definition clone_config (c : Config) : HM Config :=
  let! principal := copy_with get_principal CPrincipal clonePrincipal (hc_principal c) in
  let! scopes := copy_cell get_map CMap (hc_scopes c) in
  let! images := copy_slice_with get_images CImages copy_images (hc_images c) in
  let! documents := copy_slice_with get_docs CDocs copy_docs (hc_documents c) in
  let! inference := copy_with get_inference CInference copy_inference (hc_inferenceConfig c) in
  let! observers := copy_slice get_observers CObservers (hc_observers c) in
  hret (c <| hc_principal := principal |> <| hc_scopes := scopes |> <| hc_images := images |> <| hc_documents := documents |>
          <| hc_inferenceConfig := inference |> <| hc_observers := observers |>
          <| hc_executionID := "" |> <| hc_executionIDSet := false |> <| hc_executionResume := false |> <| hc_executionVersion := 0%N |>).

(** * Operations *)

(* agent/context.go: NewContext *)
Definition NewContext (parent : gctx) : HM loc :=
  let! kv := alloc (CKv ∅) in alloc (CCtx (mkCtx parent cfg_zero kv None None)).
(* agent/context.go: Background *)
Definition Background : HM loc := NewContext GBackground.

(* agent/context.go: Context.Set *)
Definition Set_ (c : loc) (k : K) (v : V) : HM unit := fun h =>
  let kv := cx_kv (ctx_at c h) in write kv (CKv (<[k := v]> (default ∅ (read (Some kv) get_kv h)))) h.
(* agent/context.go: Context.Get *)
Definition Get (c : loc) (k : K) (h : heap) : option V := read (Some (cx_kv (ctx_at c h))) get_kv h ≫= lookup k.
(** [as_T] is the type assertion. *)
(* agent/context.go: GetTyped *)
Definition GetTyped {T} (as_T : V -> option T) (c : loc) (k : K) (h : heap) : option T := Get c k h ≫= as_T.

(* agent/context.go: Context.WithConversationID *)
Definition WithConversationID (c : loc) (id : string) : HM loc := with_cfg c (fun g => g <| hc_conversationID := id |>).
(* agent/context.go: Context.ConversationID *)
Definition ConversationID (c : loc) (h : heap) : string := hc_conversationID (cx_cfg (ctx_at c h)).
(* agent/context.go: Context.WithExecutionID *)
Definition WithExecutionID (c : loc) (id : string) : HM loc := with_cfg c (fun g => g <| hc_executionID := id |> <| hc_executionIDSet := true |>).
(* agent/context.go: Context.ExecutionID *)
Definition ExecutionID (c : loc) (h : heap) : string := hc_executionID (cx_cfg (ctx_at c h)).
(* agent/context.go: Context.WithImages *)
Definition WithImages (c : loc) (imgs : option loc) : HM loc := with_cfg c (fun g => g <| hc_images := imgs |>).
(* agent/context.go: Context.Images *)
Definition Images (c : loc) (h : heap) : option loc := hc_images (cx_cfg (ctx_at c h)).
(* agent/context.go: Context.WithDocuments *)
Definition WithDocuments (c : loc) (docs : option loc) : HM loc := with_cfg c (fun g => g <| hc_documents := docs |>).
(* agent/context.go: Context.Documents *)
Definition Documents (c : loc) (h : heap) : option loc := hc_documents (cx_cfg (ctx_at c h)).
(* agent/context.go: Context.WithInferenceConfig *)
Definition WithInferenceConfig (c : loc) (cfg : option loc) : HM loc := with_cfg c (fun g => g <| hc_inferenceConfig := cfg |>).
(* agent/context.go: Context.InferenceConfig *)
Definition InferenceConfigOf (c : loc) (h : heap) : option loc := hc_inferenceConfig (cx_cfg (ctx_at c h)).
(* agent/context.go: Context.WithIdentity *)
Definition WithIdentity (c : loc) (id : string) : HM loc := with_cfg c (fun g => g <| hc_identity := id |>).
(* agent/context.go: Context.Identity *)
Definition Identity (c : loc) (h : heap) : string := hc_identity (cx_cfg (ctx_at c h)).
(* agent/context.go: Context.WithScope *)
Definition WithScope (c : loc) (key value : string) : HM loc := fun h =>
  let scopes := default ∅ (read (hc_scopes (cx_cfg (ctx_at c h))) get_map h) in
  let '(l, h) := alloc (CMap (<[key := value]> scopes)) h in
  with_cfg c (fun g => g <| hc_scopes := Some l |>) h.
(* agent/context.go: Context.Scope *)
Definition Scope (c : loc) (key : string) (h : heap) : option string := read (hc_scopes (cx_cfg (ctx_at c h))) get_map h ≫= lookup key.
(* agent/context.go: Context.WithInstructions *)
Definition WithInstructions (c : loc) (s : string) : HM loc := with_cfg c (fun g => g <| hc_instructions := s |>).
(* agent/context.go: Context.Instructions *)
Definition Instructions (c : loc) (h : heap) : string := hc_instructions (cx_cfg (ctx_at c h)).
(* agent/context.go: Context.WithDetailedEvents *)
Definition WithDetailedEvents (c : loc) : HM loc := with_cfg c (fun g => g <| hc_detailedEvents := true |>).
(* agent/context.go: Context.WithObservers *)
Definition WithObservers (c : loc) (observers : option loc) : HM loc :=
  let! l := copy_slice get_observers CObservers observers in
  with_cfg c (fun g => g <| hc_observers := l |> <| hc_observersSet := true |>).
(* agent/identity.go: Context.WithPrincipal *)
Definition WithPrincipal (c : loc) (p : PrincipalRef) : HM loc :=
  let! p := clonePrincipal p in let! l := alloc (CPrincipal p) in with_cfg c (fun g => g <| hc_principal := Some l |>).
(* agent/identity.go: Context.Principal *)
Definition PrincipalOf (c : loc) : HM (option PrincipalRef) := fun h =>
  match read (hc_principal (cx_cfg (ctx_at c h))) get_principal h with
  | None => (None, h)
  | Some p => let '(p, h) := clonePrincipal p h in (Some p, h)
  end.

(* agent/context.go: Context.Clone *)
Definition Clone (c : loc) : HM loc := fun h =>
  let x := ctx_at c h in
  let '(cfg, h) := clone_config (cx_cfg x) h in
  let '(kv, h) := alloc (CKv ∅) h in
  alloc (CCtx (mkCtx (cx_parent x) cfg kv None None)) h.

(* agent/identity.go: Context.WithNarrowedRoles *)
Definition WithNarrowedRoles_ctx (c : loc) (allowed : list string) : HM loc := fun h =>
  let '(p, h) := PrincipalOf c h in
  match p with
  | None => (c, h)
  | Some p =>
      let narrowed := List.filter (fun r => bool_decide (r ∈ allowed)) (default [] (read (pf_Roles p) get_strings h)) in
      let '(roles, h) := alloc (CStrings narrowed) h in
      let '(c', h) := Clone c h in
      WithPrincipal c' (mkPrin (pf_ID p) (Some roles) (pf_Attrs p) (pf_Credentials p)) h
  end.

(* agent/context.go: Context.withContext *)
Definition withContext (c : loc) (ctx : gctx) : HM loc := fun h => alloc (CCtx ((ctx_at c h) <| cx_parent := ctx |>)) h.
(* agent/context.go: Context.forInvocation *)
Definition forInvocation (c : loc) (ctx : gctx) (rt : loc) : HM loc := fun h =>
  let x := ctx_at c h in alloc (CCtx (mkCtx ctx (cx_cfg x) (cx_kv x) (Some rt) None)) h.
(* agent/context.go: Context.forToolCall *)
Definition forToolCall (c : loc) (call : loc) : HM loc := fun h => alloc (CCtx ((ctx_at c h) <| cx_call := Some call |>)) h.

(** * Runtimes *)

(* agent/context.go: invocationRuntime.seedUsage *)
Definition rt_seedUsage (rt : loc) (u : TokenUsage) : HM unit := fun h =>
  write rt (CRuntime u (default false (snd <$> read (Some rt) get_runtime h))) h.
(* agent/context.go: invocationRuntime.totalUsage *)
Definition rt_totalUsage (rt : loc) (h : heap) : TokenUsage := default usage_zero (fst <$> read (Some rt) get_runtime h).
(* agent/context.go: invocationRuntime.addUsage *)
Definition rt_addUsage (rt : loc) (u : TokenUsage) : HM TokenUsage := fun h =>
  let u' := usage_add (rt_totalUsage rt h) u in (u', (rt_seedUsage rt u' h).2).

Definition call_at (call : loc) (h : heap) : CallRuntime := default (mkCall "" false [] None) (read (Some call) get_call h).
(* agent/context.go: toolCallRuntime.appendWidget *)
Definition appendWidget (call : loc) (w : Widget) : HM unit := fun h =>
  let r := call_at call h in write call (CCall (mkCall (cl_id r) (cl_async r) (cl_widgets r ++ [w]) (cl_humanInput r))) h.
(* agent/context.go: toolCallRuntime.drainWidgets *)
Definition drainWidgets (call : loc) : HM (list Widget) := fun h =>
  let r := call_at call h in (cl_widgets r, (write call (CCall (mkCall (cl_id r) (cl_async r) [] (cl_humanInput r))) h).2).
(* agent/context.go: toolCallRuntime.setHumanInput *)
Definition setHumanInput (call : loc) (i : option InputInterrupt) : HM unit := fun h =>
  let r := call_at call h in write call (CCall (mkCall (cl_id r) (cl_async r) (cl_widgets r) i)) h.
(* agent/context.go: toolCallRuntime.takeHumanInput *)
Definition takeHumanInput (call : loc) : HM (option InputInterrupt) := fun h =>
  let r := call_at call h in (cl_humanInput r, (write call (CCall (mkCall (cl_id r) (cl_async r) (cl_widgets r) None)) h).2).

(** * Contexts of the standard library *)

(** The value of a key: ours and the usage have keys of their own.  A context of ours asks its parent; [n] bounds the
    number of contexts of ours on the way. *)
Inductive key := KeyContext | KeyUsage | KeyUser (k : K).
Inductive found := FoundContext (c : loc) | FoundUsage (u : TokenUsage) | FoundUser (v : V).

(* agent/context.go: Context.Value *)
Fixpoint Value (n : nat) (h : heap) (ctx : gctx) (k : key) : option found :=
  match n with
  | O => None
  | S n =>
      (fix go (ctx : gctx) : option found :=
         match ctx with
         | GBackground => None
         | GValue k' v p => match k with KeyUser k => if bool_decide (k = k') then Some (FoundUser v) else go p | _ => go p end
         | GUsage u p => match k with KeyUsage => Some (FoundUsage u) | _ => go p end
         | GCancel p => go p
         | GAgent c => match k with KeyContext => Some (FoundContext c) | _ => Value n h (cx_parent (ctx_at c h)) k end
         end) ctx
  end.

(** The first context of ours, which the parent of a derived context leads to. *)
(* agent/context.go: FromContext *)
Definition FromContext (h : heap) (ctx : gctx) : option loc :=
  match ctx with
  | GAgent c => Some c
  | _ => match Value 1 h ctx KeyContext with Some (FoundContext c) => Some c | _ => None end
  end.

(* agent/context.go: IdentityFrom *)
Definition IdentityFrom (h : heap) (ctx : gctx) : string := match FromContext h ctx with Some c => Identity c h | None => "" end.
(* agent/context.go: ScopeFrom *)
Definition ScopeFrom (h : heap) (ctx : gctx) (k : string) : option string := FromContext h ctx ≫= fun c => Scope c k h.
(* agent/identity.go: PrincipalFrom *)
Definition PrincipalFrom (ctx : gctx) : HM (option PrincipalRef) := fun h =>
  match FromContext h ctx with Some c => PrincipalOf c h | None => (None, h) end.

(* agent/context.go: WithTokenUsage *)
Definition WithTokenUsage (ctx : gctx) (u : TokenUsage) : gctx := GUsage u ctx.
(* agent/context.go: GetTokenUsage *)
Definition GetTokenUsage (h : heap) (ctx : gctx) : option TokenUsage :=
  match Value (S (h_next h)) h ctx KeyUsage with Some (FoundUsage u) => Some u | _ => None end.

(* agent/context.go: Context.emit *)
Definition emit_on (c : loc) (ev : Event) : HM unit := fun h =>
  match cx_rt (ctx_at c h) with
  | None => (tt, h)
  | Some rt =>
      if default false (snd <$> read (Some rt) get_runtime h) then
        let async := match cx_call (ctx_at c h) with Some call => cl_async (call_at call h) | None => false end in
        (tt, h <| h_events := h_events h ++ [(rt, async, ev)] |>)
      else (tt, h)
  end.

(* agent/context.go: EmitWidget *)
Definition EmitWidget (ctx : gctx) (w : Widget) : HM (res unit) := fun h =>
  match Widget_Validate w with
  | Err e => (Err e, h)
  | Ok _ =>
      match FromContext h ctx ≫= (fun c => pair c <$> cx_call (ctx_at c h)) with
      | None => (Err (ENew "agent: not inside a tool call"), h)
      | Some (c, call) =>
          let h := (appendWidget call w h).2 in
          (Ok tt, (emit_on c (EventWidget (cl_id (call_at call h)) (w_Type w) (cloneRaw (w_Payload w))) h).2)
      end
  end.

(** [payload] is nil or what json.Marshal makes of it. *)
(* agent/context.go: EmitEvent *)
Definition EmitEvent (ctx : gctx) (name : string) (payload : option (res string)) : HM (res unit) := fun h =>
  match FromContext h ctx with
  | None => (Ok tt, h)
  | Some c =>
      match cx_rt (ctx_at c h), payload with
      | None, _ => (Ok tt, h)
      | Some _, Some (Err e) => (Err e, h)
      | Some _, Some (Ok raw) => (Ok tt, (emit_on c (EventCustom name (Some raw)) h).2)
      | Some _, None => (Ok tt, (emit_on c (EventCustom name None) h).2)
      end
  end.

(** * References *)

Definition refs_of (rs : list (option loc)) : list loc := omap (fun r => r) rs.
Definition cfg_refs (c : Config) : list loc :=
  refs_of [hc_images c; hc_documents c; hc_inferenceConfig c; hc_scopes c; hc_principal c; hc_observers c].
Definition principal_refs (p : PrincipalRef) : list loc := refs_of [pf_Roles p; pf_Attrs p; pf_Credentials p].
Definition inference_refs (i : InferenceRef) : list loc :=
  refs_of [if_Temperature i; if_TopP i; if_TopK i; if_StopSequences i; if_MaxTokens i].

(** The data that a cell refers to; contexts, stores and runtimes are no data. *)
Definition data_refs (c : cell) : list loc :=
  match c with
  | CImages l => refs_of (map im_Data l) | CDocs l => refs_of (map dr_Data l)
  | CInference i => inference_refs i | CPrincipal p => principal_refs p | _ => []
  end.
Definition is_data (c : cell) : bool := match c with CKv _ | CRuntime _ _ | CCall _ | CCtx _ => false | _ => true end.

(** The context of ours that a standard context is derived from. *)
Fixpoint agent_of (ctx : gctx) : option loc :=
  match ctx with GBackground => None | GValue _ _ p | GUsage _ p | GCancel p => agent_of p | GAgent c => Some c end.

(** Nothing dangles, contexts are newer than their parents, and a context has a store and, if at all, runtimes. *)
Record heap_ok (h : heap) : Prop := {
  ok_bound : forall l c, h_cells h !! l = Some c -> (l < h_next h)%nat;
  ok_data : forall l c r, h_cells h !! l = Some c -> r ∈ data_refs c -> (r < h_next h)%nat;
  ok_ctx : forall l x, h_cells h !! l = Some (CCtx x) ->
    Forall (fun r => r < h_next h)%nat (cfg_refs (cx_cfg x)) /\ (exists m, h_cells h !! cx_kv x = Some (CKv m)) /\
    (forall rt, cx_rt x = Some rt -> exists u s, h_cells h !! rt = Some (CRuntime u s)) /\
    (forall call, cx_call x = Some call -> exists r, h_cells h !! call = Some (CCall r));
  ok_parent : forall l x a, h_cells h !! l = Some (CCtx x) -> agent_of (cx_parent x) = Some a -> (a < l)%nat }.

Lemma refs_in rs l : l ∈ refs_of rs <-> Some l ∈ rs.
Proof. unfold refs_of. rewrite list_elem_of_omap. naive_solver. Qed.

(** * Allocation *)

(** [h'] has what [h] has and cells that refer to nothing below [n]. *)
Record ext (n : loc) (h h' : heap) : Prop := {
  ext_next : (h_next h <= h_next h')%nat;
  ext_old : forall l, (l < h_next h)%nat -> h_cells h' !! l = h_cells h !! l;
  ext_new : forall l c, (h_next h <= l)%nat -> h_cells h' !! l = Some c ->
    (l < h_next h')%nat /\ Forall (fun r => n <= r < h_next h')%nat (data_refs c) /\ is_data c = true;
  ext_events : h_events h' = h_events h }.

Definition fresh_ref (n : loc) (h : heap) (r : option loc) : Prop := forall l, r = Some l -> (n <= l < h_next h)%nat.
Definition old_ref (h : heap) (r : option loc) : Prop := forall l, r = Some l -> (l < h_next h)%nat.

Lemma ext_refl n h : heap_ok h -> ext n h h.
Proof. intros Hok. split; try done. intros l c Hl Hc. apply (ok_bound _ Hok) in Hc. lia. Qed.

Lemma ext_trans n h h1 h2 : ext n h h1 -> ext n h1 h2 -> ext n h h2.
Proof.
  intros [N1 O1 W1 E1] [N2 O2 W2 E2]. split; [lia| | |congruence].
  - intros l Hl. rewrite O2 by lia. by apply O1.
  - intros l c Hl Hc. destruct (decide (l < h_next h1)%nat) as [Hlt|Hge].
    + rewrite O2 in Hc by done. destruct (W1 l c Hl Hc) as (A & B & C). split_and!; [lia| |done]. eapply Forall_impl; [exact B|]. simpl. lia.
    + apply W2; [lia|done].
Qed.

Lemma ext_ok n h h' : heap_ok h -> ext n h h' -> heap_ok h'.
Proof.
  intros [B D C Q] [N O W _]. assert (Hb : forall l c, h_cells h' !! l = Some c -> (l < h_next h')%nat).
  { intros l c Hc. destruct (decide (l < h_next h)%nat) as [Hl|Hl]; [lia|]. apply (W l c); [lia|done]. }
  split; [done| | |].
  - intros l c r Hc Hr. destruct (decide (l < h_next h)%nat) as [Hl|Hl].
    + rewrite O in Hc by done. specialize (D l c r Hc Hr). lia.
    + destruct (W l c) as (_ & F & _); [lia|done|]. rewrite Forall_forall in F. specialize (F r Hr). lia.
  - intros l x Hc. destruct (decide (l < h_next h)%nat) as [Hl|Hl].
    + rewrite O in Hc by done. destruct (C l x Hc) as (F & [m Hm] & Hrt & Hcall). split_and!.
      * eapply Forall_impl; [exact F|]. simpl. lia.
      * exists m. by rewrite O by (by eapply B).
      * intros rt Hr. destruct (Hrt rt Hr) as (u & s & E). exists u, s. by rewrite O by (by eapply B).
      * intros call Hr. destruct (Hcall call Hr) as (r & E). exists r. by rewrite O by (by eapply B).
    + destruct (W l (CCtx x)) as (_ & _ & F); [lia|done|done].
  - intros l x a Hc. destruct (decide (l < h_next h)%nat) as [Hl|Hl].
    + rewrite O in Hc by done. by apply Q.
    + destruct (W l (CCtx x)) as (_ & _ & F); [lia|done|done].
Qed.

Lemma read_old {A} n h h' r (get : cell -> option A) : ext n h h' -> old_ref h r -> read r get h' = read r get h.
Proof. intros He Hr. unfold read. destruct r as [l|]; [|done]. simpl. by rewrite (ext_old _ _ _ He) by (by apply Hr). Qed.

Lemma fresh_old n h r : fresh_ref n h r -> old_ref h r.
Proof. intros Hf l Hl. apply Hf in Hl. lia. Qed.
Lemma fresh_ext n h h' r : ext n h h' -> fresh_ref n h r -> fresh_ref n h' r.
Proof. intros He Hf l Hl. apply Hf in Hl. pose proof (ext_next _ _ _ He). lia. Qed.
Lemma old_ext n h h' r : ext n h h' -> old_ref h r -> old_ref h' r.
Proof. intros He Hf l Hl. apply Hf in Hl. pose proof (ext_next _ _ _ He). lia. Qed.

Lemma alloc_ext n h c : heap_ok h -> (n <= h_next h)%nat -> is_data c = true -> Forall (fun r => n <= r < h_next h)%nat (data_refs c) ->
  ext n h (alloc c h).2 /\ fresh_ref n (alloc c h).2 (Some (alloc c h).1) /\ h_cells (alloc c h).2 !! (alloc c h).1 = Some c.
Proof.
  intros Hok Hn Hd Hr. simpl. split_and!.
  - split; simpl; [lia| | |done].
    + intros l Hl. rewrite lookup_insert_ne by lia. done.
    + intros l c' Hl Hc. destruct (decide (l = h_next h)) as [->|Hne].
      * rewrite lookup_insert_eq in Hc. injection Hc as <-. split_and!; [lia| |done]. eapply Forall_impl; [exact Hr|]. simpl. lia.
      * rewrite lookup_insert_ne in Hc by done. apply (ok_bound _ Hok) in Hc. lia.
  - intros l [= <-]. simpl. lia.
  - by rewrite lookup_insert_eq.
Qed.

(** * What copies are *)

Definition nonempty {A} (o : option (list A)) : option (list A) := match o with Some [] => None | _ => o end.

(** [r'] is a copy in [h'] of what [f] reads in [h]. *)
Definition copied {A} (n : loc) (h h' : heap) (r' : option loc) (get : cell -> option A) (x : option A) : Prop :=
  ext n h h' /\ fresh_ref n h' r' /\ read r' get h' = x.

Lemma copy_none {A} n h (get : cell -> option A) : heap_ok h -> copied n h h None get None.
Proof. intros Hok. split_and!; [by apply ext_refl|done|done]. Qed.

Lemma copy_alloc {A} n h (get : cell -> option A) c x : heap_ok h -> (n <= h_next h)%nat -> is_data c = true ->
  Forall (fun r => n <= r < h_next h)%nat (data_refs c) -> get c = Some x -> copied n h (alloc c h).2 (Some (alloc c h).1) get (Some x).
Proof.
  intros Hok Hn Hd Hr Hg. destruct (alloc_ext n h c Hok Hn Hd Hr) as (He & Hf & Hc). split_and!; [done|done|].
  unfold read. cbn [mbind option_bind]. by rewrite Hc.
Qed.

Lemma copy_cell_spec {A} n h (get : cell -> option A) put r r' h' : heap_ok h -> (n <= h_next h)%nat ->
  (forall x, get (put x) = Some x /\ data_refs (put x) = [] /\ is_data (put x) = true) ->
  copy_cell get put r h = (r', h') -> copied n h h' r' get (read r get h).
Proof.
  intros Hok Hn Hp. unfold copy_cell. destruct (read r get h) as [x|]; [|intros [= <- <-]; by apply copy_none].
  destruct (Hp x) as (H1 & H2 & H3). intros [= <- <-]. apply (copy_alloc n h get (put x)); try done. by rewrite H2.
Qed.

Lemma copy_slice_spec {A} n h (get : cell -> option (list A)) put r r' h' : heap_ok h -> (n <= h_next h)%nat ->
  (forall x, get (put x) = Some x /\ data_refs (put x) = [] /\ is_data (put x) = true) ->
  copy_slice get put r h = (r', h') -> copied n h h' r' get (nonempty (read r get h)).
Proof.
  intros Hok Hn Hp. unfold copy_slice. destruct (read r get h) as [[|x l]|]; try (intros [= <- <-]; by apply copy_none).
  destruct (Hp (x :: l)) as (H1 & H2 & H3). intros [= <- <-]. apply (copy_alloc n h get (put (x :: l))); try done. by rewrite H2.
Qed.

Lemma copy_bytes_spec n h r r' h' : heap_ok h -> (n <= h_next h)%nat -> copy_bytes r h = (r', h') ->
  copied n h h' r' get_bytes (clone_data (read r get_bytes h)).
Proof.
  intros Hok Hn. unfold copy_bytes. destruct (read r get_bytes h) as [[|c b]|]; try (intros [= <- <-]; by apply copy_none).
  intros [= <- <-]. by apply (copy_alloc n h get_bytes (CBytes (String c b))).
Qed.

Lemma copied_later {A} n h h1 h2 r (get : cell -> option A) x : copied n h h1 r get x -> ext n h1 h2 -> copied n h h2 r get x.
Proof.
  intros (He & Hf & Hr) He2. split_and!; [by eapply ext_trans|by eapply fresh_ext|]. rewrite (read_old _ _ _ _ _ He2); [done|by eapply fresh_old].
Qed.

(** One copy after another: the earlier one stays, and the sources of the later ones are as they were. *)
Lemma copied_ok {A} n h h1 r (get : cell -> option A) x : heap_ok h -> (n <= h_next h)%nat -> copied n h h1 r get x -> heap_ok h1 /\ (n <= h_next h1)%nat /\ ext n h h1.
Proof. intros Hok Hn (He & _). split_and!; [by eapply ext_ok| |done]. pose proof (ext_next _ _ _ He). lia. Qed.

Lemma fresh_refs n h rs : Forall (fresh_ref n h) rs -> Forall (fun r => n <= r < h_next h)%nat (refs_of rs).
Proof. intros Hf. rewrite Forall_forall in Hf. apply Forall_forall. intros l Hl%refs_in. by apply (Hf _ Hl). Qed.
Lemma old_refs h rs : Forall (fun r => r < h_next h)%nat (refs_of rs) -> Forall (old_ref h) rs.
Proof. intros Hf. rewrite Forall_forall in Hf. apply Forall_forall. intros r Hr l ->. apply Hf. by apply refs_in. Qed.

Lemma clonePrincipal_spec n h p p' h' : heap_ok h -> (n <= h_next h)%nat -> Forall (old_ref h) [pf_Roles p; pf_Attrs p; pf_Credentials p] ->
  clonePrincipal p h = (p', h') ->
  ext n h h' /\ Forall (fresh_ref n h') [pf_Roles p'; pf_Attrs p'; pf_Credentials p'] /\ principal_at h' p' = principal_at h p.
Proof.
  intros Hok Hn Hold. rewrite !Forall_cons in Hold. destruct Hold as (O1 & O2 & O3 & _). unfold clonePrincipal, hbind, hret.
  destruct (copy_slice get_strings CStrings (pf_Roles p) h) as [roles h1] eqn:C1. apply (copy_slice_spec n) in C1; [|done..].
  destruct (copied_ok _ _ _ _ _ _ Hok Hn C1) as (Hok1 & Hn1 & He1).
  destruct (copy_cell get_map CMap (pf_Attrs p) h1) as [attrs h2] eqn:C2. apply (copy_cell_spec n) in C2; [|done..].
  destruct (copied_ok _ _ _ _ _ _ Hok1 Hn1 C2) as (Hok2 & Hn2 & He2).
  destruct (copy_cell get_map CMap (pf_Credentials p) h2) as [creds h3] eqn:C3. apply (copy_cell_spec n) in C3; [|done..].
  destruct (copied_ok _ _ _ _ _ _ Hok2 Hn2 C3) as (_ & _ & He3). intros [= <- <-].
  pose proof (ext_trans _ _ _ _ He2 He3) as He23. pose proof (ext_trans _ _ _ _ He1 He2) as He12.
  destruct (copied_later _ _ _ _ _ _ _ C1 He23) as (He & F1 & R1). destruct (copied_later _ _ _ _ _ _ _ C2 He3) as (_ & F2 & R2).
  destruct C3 as (_ & F3 & R3). split_and!; [done|rewrite !Forall_cons; split_and!; first [done|constructor]|].
  rewrite (read_old _ _ _ _ _ He1) in R2 by done. rewrite (read_old _ _ _ _ _ He12) in R3 by done.
  unfold principal_at. simpl. rewrite R1, R2, R3. f_equal. by destruct (read (pf_Roles p) get_strings h) as [[]|].
Qed.

Lemma copy_inference_spec n h i i' h' : heap_ok h -> (n <= h_next h)%nat ->
  Forall (old_ref h) [if_Temperature i; if_TopP i; if_TopK i; if_StopSequences i; if_MaxTokens i] ->
  copy_inference i h = (i', h') ->
  ext n h h' /\ Forall (fresh_ref n h') [if_Temperature i'; if_TopP i'; if_TopK i'; if_StopSequences i'; if_MaxTokens i'] /\
  inference_at h' i' = clone_inference (inference_at h i).
Proof.
  intros Hok Hn Hold. rewrite !Forall_cons in Hold. destruct Hold as (O1 & O2 & O3 & O4 & O5 & _). unfold copy_inference, hbind, hret.
  destruct (copy_cell get_float CFloat (if_Temperature i) h) as [t h1] eqn:C1. apply (copy_cell_spec n) in C1; [|done..].
  destruct (copied_ok _ _ _ _ _ _ Hok Hn C1) as (Hok1 & Hn1 & He1).
  destruct (copy_cell get_float CFloat (if_TopP i) h1) as [p h2] eqn:C2. apply (copy_cell_spec n) in C2; [|done..].
  destruct (copied_ok _ _ _ _ _ _ Hok1 Hn1 C2) as (Hok2 & Hn2 & He2).
  destruct (copy_cell get_int CInt (if_TopK i) h2) as [k h3] eqn:C3. apply (copy_cell_spec n) in C3; [|done..].
  destruct (copied_ok _ _ _ _ _ _ Hok2 Hn2 C3) as (Hok3 & Hn3 & He3).
  destruct (copy_cell get_int CInt (if_MaxTokens i) h3) as [m h4] eqn:C4. apply (copy_cell_spec n) in C4; [|done..].
  destruct (copied_ok _ _ _ _ _ _ Hok3 Hn3 C4) as (Hok4 & Hn4 & He4).
  destruct (copy_slice get_strings CStrings (if_StopSequences i) h4) as [s h5] eqn:C5. apply (copy_slice_spec n) in C5; [|done..].
  destruct (copied_ok _ _ _ _ _ _ Hok4 Hn4 C5) as (_ & _ & He5). intros [= <- <-].
  pose proof (ext_trans _ _ _ _ He4 He5) as E45. pose proof (ext_trans _ _ _ _ He3 E45) as E35. pose proof (ext_trans _ _ _ _ He2 E35) as E25.
  pose proof (ext_trans _ _ _ _ He1 He2) as E12. pose proof (ext_trans _ _ _ _ E12 He3) as E13. pose proof (ext_trans _ _ _ _ E13 He4) as E14.
  destruct (copied_later _ _ _ _ _ _ _ C1 E25) as (He & F1 & R1). destruct (copied_later _ _ _ _ _ _ _ C2 E35) as (_ & F2 & R2).
  destruct (copied_later _ _ _ _ _ _ _ C3 E45) as (_ & F3 & R3). destruct (copied_later _ _ _ _ _ _ _ C4 He5) as (_ & F4 & R4).
  destruct C5 as (_ & F5 & R5). split_and!; [done|rewrite !Forall_cons; split_and!; first [done|constructor]|].
  rewrite (read_old _ _ _ _ _ He1) in R2 by done. rewrite (read_old _ _ _ _ _ E12) in R3 by done.
  rewrite (read_old _ _ _ _ _ E13) in R4 by done. rewrite (read_old _ _ _ _ _ E14) in R5 by done.
  unfold inference_at, clone_inference. simpl. rewrite R1, R2, R3, R4, R5. f_equal. by destruct (read (if_StopSequences i) get_strings h) as [[]|].
Qed.

(** The bytes of a list of blocks, one after the other. *)
Lemma copy_images_spec n h l l' h' : heap_ok h -> (n <= h_next h)%nat -> Forall (old_ref h) (map im_Data l) -> copy_images l h = (l', h') ->
  ext n h h' /\ Forall (fresh_ref n h') (map im_Data l') /\ map (image_at h') l' = map clone_image (map (image_at h) l).
Proof.
  revert h l' h'. induction l as [|i l IH]; intros h l' h' Hok Hn Hold; simpl; unfold hbind, hret.
  { intros [= <- <-]. split_and!; [by apply ext_refl|constructor|done]. }
  apply Forall_cons in Hold as [O1 Ol].
  destruct (copy_bytes (im_Data i) h) as [d h1] eqn:C1. apply (copy_bytes_spec n) in C1; [|done..].
  destruct (copied_ok _ _ _ _ _ _ Hok Hn C1) as (Hok1 & Hn1 & He1).
  destruct (copy_images l h1) as [l2 h2] eqn:C2. apply IH in C2 as (He2 & F2 & R2); [|done|done|]; [|eapply Forall_impl; [exact Ol|intros; by eapply old_ext]].
  intros [= <- <-]. destruct (copied_later _ _ _ _ _ _ _ C1 He2) as (He & F1 & R1). split_and!; [done|by constructor|].
  simpl. rewrite R2. unfold image_at at 1, clone_image at 1. simpl. rewrite R1. f_equal.
  clear -Ol He1. induction l as [|j l IHl]; [done|]. apply Forall_cons in Ol as [Oj Ol]. simpl. rewrite (IHl Ol). f_equal.
  unfold clone_image, image_at. simpl. by rewrite (read_old _ _ _ _ _ He1 Oj).
Qed.

Lemma copy_docs_spec n h l l' h' : heap_ok h -> (n <= h_next h)%nat -> Forall (old_ref h) (map dr_Data l) -> copy_docs l h = (l', h') ->
  ext n h h' /\ Forall (fresh_ref n h') (map dr_Data l') /\ map (doc_at h') l' = map clone_document (map (doc_at h) l).
Proof.
  revert h l' h'. induction l as [|i l IH]; intros h l' h' Hok Hn Hold; simpl; unfold hbind, hret.
  { intros [= <- <-]. split_and!; [by apply ext_refl|constructor|done]. }
  apply Forall_cons in Hold as [O1 Ol].
  destruct (copy_bytes (dr_Data i) h) as [d h1] eqn:C1. apply (copy_bytes_spec n) in C1; [|done..].
  destruct (copied_ok _ _ _ _ _ _ Hok Hn C1) as (Hok1 & Hn1 & He1).
  destruct (copy_docs l h1) as [l2 h2] eqn:C2. apply IH in C2 as (He2 & F2 & R2); [|done|done|]; [|eapply Forall_impl; [exact Ol|intros; by eapply old_ext]].
  intros [= <- <-]. destruct (copied_later _ _ _ _ _ _ _ C1 He2) as (He & F1 & R1). split_and!; [done|by constructor|].
  simpl. rewrite R2. unfold doc_at at 1, clone_document at 1. simpl. rewrite R1. f_equal.
  clear -Ol He1. induction l as [|j l IHl]; [done|]. apply Forall_cons in Ol as [Oj Ol]. simpl. rewrite (IHl Ol). f_equal.
  unfold clone_document, doc_at. simpl. by rewrite (read_old _ _ _ _ _ He1 Oj).
Qed.

(** * What a view depends on

    A region that is closed under references holds all that the view of its configurations reads. *)
Definition data_at (h : heap) (l : loc) : option cell := h_cells h !! l ≫= fun c => if is_data c then Some c else None.
Definition same_on (P : loc -> Prop) (h1 h2 : heap) : Prop := forall l, P l -> data_at h1 l = data_at h2 l.
Definition closed (P : loc -> Prop) (h : heap) : Prop := forall l c, P l -> h_cells h !! l = Some c -> Forall P (data_refs c).
Definition within (P : loc -> Prop) (r : option loc) : Prop := forall l, r = Some l -> P l.

Definition images_view (h : heap) (r : option loc) : list ImageSource := map (image_at h) (default [] (read r get_images h)).
Definition docs_view (h : heap) (r : option loc) : list DocumentSource := map (doc_at h) (default [] (read r get_docs h)).
Definition inference_view (h : heap) (r : option loc) : option InferenceConfig := inference_at h <$> read r get_inference h.
Definition principal_view (h : heap) (r : option loc) : option Principal := principal_at h <$> read r get_principal h.

Section Frame.
Context (P : loc -> Prop) (h1 h2 : heap) (Hsame : same_on P h1 h2) (Hclosed : closed P h1).

Lemma read_frame {A} (get : cell -> option A) r : (forall c, is_data c = false -> get c = None) -> within P r -> read r get h2 = read r get h1.
Proof.
  intros Hg Hr. unfold read. destruct r as [l|]; [|done]. cbn [mbind option_bind]. specialize (Hsame l (Hr l eq_refl)). unfold data_at in Hsame.
  destruct (h_cells h1 !! l) as [c1|], (h_cells h2 !! l) as [c2|]; cbn [mbind option_bind] in *; try done.
  - destruct (is_data c1) eqn:D1, (is_data c2) eqn:D2; try done; [by injection Hsame as ->|by rewrite !Hg].
  - destruct (is_data c1) eqn:D1; [done|by rewrite Hg].
  - destruct (is_data c2) eqn:D2; [done|by rewrite Hg].
Qed.

Lemma read_cell {A} (get : cell -> option A) r x : read r get h1 = Some x -> within P r -> exists c, get c = Some x /\ Forall P (data_refs c).
Proof.
  unfold read. destruct r as [l|]; [|done]. cbn [mbind option_bind]. intros Hx Hr. destruct (h_cells h1 !! l) as [c|] eqn:Hc; [|done].
  exists c. split; [done|]. apply (Hclosed l c); [by apply Hr|done].
Qed.

Lemma within_refs rs : Forall P (refs_of rs) -> Forall (within P) rs.
Proof. intros Hf. rewrite Forall_forall in Hf. apply Forall_forall. intros r Hr l ->. apply Hf. by apply refs_in. Qed.

Lemma images_frame r : within P r -> images_view h2 r = images_view h1 r.
Proof.
  intros Hr. unfold images_view. rewrite (read_frame get_images) by (done || by intros []). destruct (read r get_images h1) as [l|] eqn:Hl; [|done]. simpl.
  destruct (read_cell _ _ _ Hl Hr) as (c & Hg & Hrefs). destruct c; try done. injection Hg as ->. apply within_refs in Hrefs.
  apply map_ext_in. intros i Hi%list_elem_of_In. unfold image_at. rewrite (read_frame get_bytes); [done|by intros []|].
  rewrite Forall_forall in Hrefs. apply Hrefs. apply list_elem_of_fmap. by exists i.
Qed.

Lemma docs_frame r : within P r -> docs_view h2 r = docs_view h1 r.
Proof.
  intros Hr. unfold docs_view. rewrite (read_frame get_docs) by (done || by intros []). destruct (read r get_docs h1) as [l|] eqn:Hl; [|done]. simpl.
  destruct (read_cell _ _ _ Hl Hr) as (c & Hg & Hrefs). destruct c; try done. injection Hg as ->. apply within_refs in Hrefs.
  apply map_ext_in. intros i Hi%list_elem_of_In. unfold doc_at. rewrite (read_frame get_bytes); [done|by intros []|].
  rewrite Forall_forall in Hrefs. apply Hrefs. apply list_elem_of_fmap. by exists i.
Qed.

Lemma principal_frame r : within P r -> principal_view h2 r = principal_view h1 r.
Proof.
  intros Hr. unfold principal_view. rewrite (read_frame get_principal) by (done || by intros []). destruct (read r get_principal h1) as [p|] eqn:Hl; [|done].
  cbn [fmap option_fmap option_map]. destruct (read_cell _ _ _ Hl Hr) as (c & Hg & Hrefs). destruct c; try done. injection Hg as ->. apply within_refs in Hrefs.
  rewrite !Forall_cons in Hrefs. destruct Hrefs as (R1 & R2 & R3 & _). unfold principal_at.
  by rewrite (read_frame get_strings _ ltac:(by intros []) R1), (read_frame get_map _ ltac:(by intros []) R2), (read_frame get_map _ ltac:(by intros []) R3).
Qed.

Lemma inference_frame r : within P r -> inference_view h2 r = inference_view h1 r.
Proof.
  intros Hr. unfold inference_view. rewrite (read_frame get_inference) by (done || by intros []). destruct (read r get_inference h1) as [p|] eqn:Hl; [|done].
  cbn [fmap option_fmap option_map]. destruct (read_cell _ _ _ Hl Hr) as (c & Hg & Hrefs). destruct c; try done. injection Hg as ->. apply within_refs in Hrefs.
  rewrite !Forall_cons in Hrefs. destruct Hrefs as (R1 & R2 & R3 & R4 & R5 & _). unfold inference_at.
  by rewrite (read_frame get_float _ ltac:(by intros []) R1), (read_frame get_float _ ltac:(by intros []) R2), (read_frame get_int _ ltac:(by intros []) R3),
    (read_frame get_strings _ ltac:(by intros []) R4), (read_frame get_int _ ltac:(by intros []) R5).
Qed.

Lemma view_frame c : Forall P (cfg_refs c) -> view_of h2 c = view_of h1 c.
Proof.
  intros Hr%within_refs. rewrite !Forall_cons in Hr. destruct Hr as (R1 & R2 & R3 & R4 & R5 & R6 & _). unfold view_of.
  fold (images_view h1 (hc_images c)) (images_view h2 (hc_images c)) (docs_view h1 (hc_documents c)) (docs_view h2 (hc_documents c)).
  fold (inference_view h1 (hc_inferenceConfig c)) (inference_view h2 (hc_inferenceConfig c)) (principal_view h1 (hc_principal c)) (principal_view h2 (hc_principal c)).
  by rewrite images_frame, docs_frame, inference_frame, principal_frame, (read_frame get_map _ ltac:(by intros []) R4),
    (read_frame get_observers _ ltac:(by intros []) R6).
Qed.
End Frame.

Definition below (n : loc) (l : loc) : Prop := (l < n)%nat.

Lemma ok_closed h : heap_ok h -> closed (below (h_next h)) h.
Proof. intros Hok l c _ Hc. apply Forall_forall. intros r Hr. by apply (ok_data _ Hok l c). Qed.
Lemma ext_same n h h' : ext n h h' -> same_on (below (h_next h)) h h'.
Proof. intros He l Hl. unfold data_at. by rewrite (ext_old _ _ _ He) by done. Qed.

(** * Deep copies *)

Section Copies.
Context {A B : Type} (get : cell -> option A) (put : A -> cell) (f : A -> HM A) (deep : heap -> A -> B) (norm : B -> B).
Definition held (h : heap) (x : A) : Prop := Forall (below (h_next h)) (data_refs (put x)).
Context (get_put : forall x, get (put x) = Some x) (put_data : forall x, is_data (put x) = true)
  (get_refs : forall c x, get c = Some x -> data_refs c = data_refs (put x))
  (f_copies : forall n h x y h', heap_ok h -> (n <= h_next h)%nat -> held h x -> f x h = (y, h') ->
     ext n h h' /\ Forall (fun r => n <= r < h_next h')%nat (data_refs (put y)) /\ deep h' y = norm (deep h x))
  (deep_ext : forall n h h' x, ext n h h' -> held h x -> deep h' x = deep h x).

Lemma copy_with_spec n h r r' h' : heap_ok h -> (n <= h_next h)%nat -> copy_with get put f r h = (r', h') ->
  ext n h h' /\ fresh_ref n h' r' /\ deep h' <$> read r' get h' = norm ∘ deep h <$> read r get h.
Proof.
  intros Hok Hn. unfold copy_with. destruct (read r get h) as [x|] eqn:Hx; [|intros [= <- <-]; split_and!; [by apply ext_refl|done|done]].
  assert (Hheld : held h x).
  { unfold read in Hx. destruct r as [l|]; [|done]. cbn [mbind option_bind] in Hx. destruct (h_cells h !! l) as [c|] eqn:Hc; [|done].
    unfold held. rewrite <- (get_refs c x) by done. apply Forall_forall. intros k Hk. by apply (ok_data _ Hok l c). }
  destruct (f x h) as [y h1] eqn:Hf. apply (f_copies n) in Hf as (He & Hr & Hd); [|done..].
  pose proof (ext_ok _ _ _ Hok He) as Hok1. pose proof (ext_next _ _ _ He) as Hn1.
  destruct (copy_alloc n h1 get (put y) y Hok1 ltac:(lia) (put_data y) Hr (get_put y)) as (He2 & Hf2 & Hr2).
  destruct (alloc (put y) h1) as [l h2]. intros [= <- <-]. split_and!; [by eapply ext_trans|done|].
  cbn [fst snd] in *. rewrite Hr2. simpl. f_equal. rewrite (deep_ext _ _ _ _ He2); [done|]. unfold held. eapply Forall_impl; [exact Hr|]. unfold below. simpl. lia.
Qed.
End Copies.

Lemma held_reads h rs : Forall (below (h_next h)) (refs_of rs) -> Forall (old_ref h) rs.
Proof. apply old_refs. Qed.

Lemma copy_principal_spec n h r r' h' : heap_ok h -> (n <= h_next h)%nat -> copy_with get_principal CPrincipal clonePrincipal r h = (r', h') ->
  ext n h h' /\ fresh_ref n h' r' /\ principal_view h' r' = principal_view h r.
Proof.
  intros Hok Hn Hc. refine (copy_with_spec get_principal CPrincipal clonePrincipal principal_at (fun p => p) _ _ _ _ _ n h r r' h' Hok Hn Hc); try done.
  - intros [] x; try done. by intros [= ->].
  - intros n' h0 x y h1 H1 H2 H3 Hx. apply held_reads in H3. destruct (clonePrincipal_spec n' h0 x y h1 H1 H2 H3 Hx) as (E & F & G).
    split_and!; [done|by apply fresh_refs in F|done].
  - intros n' h0 h1 x He Hx%held_reads. rewrite !Forall_cons in Hx. destruct Hx as (X1 & X2 & X3 & _). unfold principal_at.
    by rewrite (read_old _ _ _ _ _ He X1), (read_old _ _ _ _ _ He X2), (read_old _ _ _ _ _ He X3).
Qed.

Lemma copy_inference_ref_spec n h r r' h' : heap_ok h -> (n <= h_next h)%nat -> copy_with get_inference CInference copy_inference r h = (r', h') ->
  ext n h h' /\ fresh_ref n h' r' /\ inference_view h' r' = clone_inference <$> inference_view h r.
Proof.
  intros Hok Hn Hc. unfold inference_view. rewrite <- option_fmap_compose.
  refine (copy_with_spec get_inference CInference copy_inference inference_at clone_inference _ _ _ _ _ n h r r' h' Hok Hn Hc); try done.
  - intros [] x; try done. by intros [= ->].
  - intros n' h0 x y h1 H1 H2 H3 Hx. apply held_reads in H3. destruct (copy_inference_spec n' h0 x y h1 H1 H2 H3 Hx) as (E & F & G).
    split_and!; [done|by apply fresh_refs in F|done].
  - intros n' h0 h1 x He Hx%held_reads. rewrite !Forall_cons in Hx. destruct Hx as (X1 & X2 & X3 & X4 & X5 & _). unfold inference_at.
    by rewrite (read_old _ _ _ _ _ He X1), (read_old _ _ _ _ _ He X2), (read_old _ _ _ _ _ He X3), (read_old _ _ _ _ _ He X4), (read_old _ _ _ _ _ He X5).
Qed.

Lemma copy_blocks_spec {R S} (get : cell -> option (list R)) put (f : list R -> HM (list R)) (at_ : heap -> R -> S) (norm : S -> S) (data : R -> option loc) n h r r' h' :
  (forall x, get (put x) = Some x) -> (forall x, is_data (put x) = true) -> (forall x, data_refs (put x) = refs_of (map data x)) ->
  (forall c x, get c = Some x -> c = put x) ->
  (forall n h l l' h', heap_ok h -> (n <= h_next h)%nat -> Forall (old_ref h) (map data l) -> f l h = (l', h') ->
     ext n h h' /\ Forall (fresh_ref n h') (map data l') /\ map (at_ h') l' = map norm (map (at_ h) l)) ->
  (forall n h h' x, ext n h h' -> old_ref h (data x) -> at_ h' x = at_ h x) ->
  heap_ok h -> (n <= h_next h)%nat -> copy_slice_with get put f r h = (r', h') ->
  ext n h h' /\ fresh_ref n h' r' /\ map (at_ h') (default [] (read r' get h')) = map norm (map (at_ h) (default [] (read r get h))).
Proof.
  intros Hg Hp Hd Hc Hf Ha Hok Hn. unfold copy_slice_with. destruct (read r get h) as [[|x l]|] eqn:Hx.
  - intros [= <- <-]. split_and!; [by apply ext_refl|done|done].
  - intros Hw. apply (copy_with_spec get put f (fun h l => map (at_ h) l) (map norm)) with (n := n) in Hw as (He & Hfr & Hv); try done.
    + split_and!; [done|done|]. rewrite Hx in Hv. simpl in Hv. destruct (read r' get h') as [y|]; [|done]. simpl in *. by injection Hv.
    + intros c y Hy. by rewrite (Hc c y Hy).
    + intros n' h0 a b h1 H1 H2 H3 Hab. unfold held in H3. rewrite Hd in H3. apply held_reads in H3.
      destruct (Hf n' h0 a b h1 H1 H2 H3 Hab) as (E & F & G). split_and!; [done|rewrite Hd; by apply fresh_refs in F|done].
    + intros n' h0 h1 a He Hheld. unfold held in Hheld. rewrite Hd in Hheld. apply held_reads in Hheld. apply map_ext_in. intros i Hi%list_elem_of_In.
      apply (Ha _ _ _ _ He). rewrite Forall_forall in Hheld. apply Hheld. apply list_elem_of_fmap. by exists i.
  - unfold copy_with. rewrite Hx. intros [= <- <-]. split_and!; [by apply ext_refl|done|done].
Qed.

Lemma copy_images_ref_spec n h r r' h' : heap_ok h -> (n <= h_next h)%nat -> copy_slice_with get_images CImages copy_images r h = (r', h') ->
  ext n h h' /\ fresh_ref n h' r' /\ images_view h' r' = map clone_image (images_view h r).
Proof.
  apply (copy_blocks_spec get_images CImages copy_images image_at clone_image im_Data); try done.
  - intros [] x; try done. by intros [= ->].
  - apply copy_images_spec.
  - intros n' h0 h1 x He Hx. unfold image_at. by rewrite (read_old _ _ _ _ _ He Hx).
Qed.

Lemma copy_docs_ref_spec n h r r' h' : heap_ok h -> (n <= h_next h)%nat -> copy_slice_with get_docs CDocs copy_docs r h = (r', h') ->
  ext n h h' /\ fresh_ref n h' r' /\ docs_view h' r' = map clone_document (docs_view h r).
Proof.
  apply (copy_blocks_spec get_docs CDocs copy_docs doc_at clone_document dr_Data); try done.
  - intros [] x; try done. by intros [= ->].
  - apply copy_docs_spec.
  - intros n' h0 h1 x He Hx. unfold doc_at. by rewrite (read_old _ _ _ _ _ He Hx).
Qed.

(** What a clone says: everything but the execution. *)
Definition clone_view (v : view) : view := mkView (cloneInvocationConfig (vw_cfg v)) (vw_identity v) (vw_scopes v) (vw_observers v) (vw_observersSet v).

(** Later allocations leave what was read before. *)
Lemma frame_ext {A} n h h' (f : heap -> option loc -> A) r :
  (forall P h1 h2, same_on P h1 h2 -> closed P h1 -> forall r, within P r -> f h2 r = f h1 r) ->
  heap_ok h -> ext n h h' -> old_ref h r -> f h' r = f h r.
Proof. intros Hf Hok He Hr. apply (Hf (below (h_next h))); [by eapply ext_same|by apply ok_closed|exact Hr]. Qed.

Lemma view_eq h c : view_of h c =
  mkView (mkConfig (hc_conversationID c) (hc_executionID c) (hc_executionIDSet c) (hc_executionResume c) (hc_executionVersion c)
            (images_view h (hc_images c)) (docs_view h (hc_documents c)) (inference_view h (hc_inferenceConfig c)) (principal_view h (hc_principal c))
            (hc_instructions c) (hc_detailedEvents c))
    (hc_identity c) (default ∅ (read (hc_scopes c) get_map h)) (default [] (read (hc_observers c) get_observers h)) (hc_observersSet c).
Proof. done. Qed.

Lemma clone_config_spec h c c' h' : heap_ok h -> Forall (below (h_next h)) (cfg_refs c) -> clone_config c h = (c', h') ->
  ext (h_next h) h h' /\ Forall (fun r => h_next h <= r < h_next h')%nat (cfg_refs c') /\ view_of h' c' = clone_view (view_of h c).
Proof.
  intros Hok Hold. set (n := h_next h). assert (Hn : (n <= h_next h)%nat) by done. apply old_refs in Hold. rewrite !Forall_cons in Hold.
  destruct Hold as (O1 & O2 & O3 & O4 & O5 & O6 & _). unfold clone_config, hbind, hret.
  destruct (copy_with get_principal CPrincipal clonePrincipal (hc_principal c) h) as [pr h1] eqn:C1. apply (copy_principal_spec n) in C1 as (E1 & F1 & V1); [|done..].
  pose proof (ext_ok _ _ _ Hok E1) as K1. pose proof (ext_next _ _ _ E1) as N1.
  destruct (copy_cell get_map CMap (hc_scopes c) h1) as [sc h2] eqn:C2. apply (copy_cell_spec n) in C2 as (E2 & F2 & V2); [|done|lia|done].
  pose proof (ext_trans _ _ _ _ E1 E2) as T2. pose proof (ext_ok _ _ _ K1 E2) as K2. pose proof (ext_next _ _ _ E2) as N2.
  destruct (copy_slice_with get_images CImages copy_images (hc_images c) h2) as [im h3] eqn:C3. apply (copy_images_ref_spec n) in C3 as (E3 & F3 & V3); [|done|lia].
  pose proof (ext_trans _ _ _ _ T2 E3) as T3. pose proof (ext_ok _ _ _ K2 E3) as K3. pose proof (ext_next _ _ _ E3) as N3.
  destruct (copy_slice_with get_docs CDocs copy_docs (hc_documents c) h3) as [dc h4] eqn:C4. apply (copy_docs_ref_spec n) in C4 as (E4 & F4 & V4); [|done|lia].
  pose proof (ext_trans _ _ _ _ T3 E4) as T4. pose proof (ext_ok _ _ _ K3 E4) as K4. pose proof (ext_next _ _ _ E4) as N4.
  destruct (copy_with get_inference CInference copy_inference (hc_inferenceConfig c) h4) as [inf h5] eqn:C5.
  apply (copy_inference_ref_spec n) in C5 as (E5 & F5 & V5); [|done|lia].
  pose proof (ext_trans _ _ _ _ T4 E5) as T5. pose proof (ext_ok _ _ _ K4 E5) as K5. pose proof (ext_next _ _ _ E5) as N5.
  destruct (copy_slice get_observers CObservers (hc_observers c) h5) as [ob h6] eqn:C6. apply (copy_slice_spec n) in C6 as (E6 & F6 & V6); [|done|lia|done].
  intros [= <- <-].
  pose proof (ext_trans _ _ _ _ E5 E6) as T56. pose proof (ext_trans _ _ _ _ E4 T56) as T46. pose proof (ext_trans _ _ _ _ E3 T46) as T36.
  pose proof (ext_trans _ _ _ _ E2 T36) as T26. split_and!; [by eapply ext_trans| |].
  { pose proof (fresh_ext _ _ _ _ T46 F3). pose proof (fresh_ext _ _ _ _ T56 F4). pose proof (fresh_ext _ _ _ _ E6 F5).
    pose proof (fresh_ext _ _ _ _ T36 F2). pose proof (fresh_ext _ _ _ _ T26 F1).
    unfold cfg_refs. apply fresh_refs. rewrite !Forall_cons. split_and!; first [done|constructor]. }
  rewrite !view_eq. unfold clone_view, cloneInvocationConfig. simpl.
  rewrite (frame_ext _ _ _ _ _ images_frame K3 T46 (fresh_old _ _ _ F3)), (frame_ext _ _ _ _ _ docs_frame K4 T56 (fresh_old _ _ _ F4)),
    (frame_ext _ _ _ _ _ inference_frame K5 E6 (fresh_old _ _ _ F5)), (frame_ext _ _ _ _ _ principal_frame K1 T26 (fresh_old _ _ _ F1)).
  rewrite V1, V3, V4, V5, V6, (read_old _ _ _ _ _ T36 (fresh_old _ _ _ F2)), V2, (read_old _ _ _ _ _ E1 O4), (read_old _ _ _ _ _ T5 O6).
  rewrite (frame_ext _ _ _ _ _ images_frame Hok T2 O1), (frame_ext _ _ _ _ _ docs_frame Hok T3 O2), (frame_ext _ _ _ _ _ inference_frame Hok T4 O3).
  f_equal. by destruct (read (hc_observers c) get_observers h) as [[]|].
Qed.

(** * A clone and its original *)

Definition view_at (c : loc) (h : heap) : view := view_of h (cx_cfg (ctx_at c h)).
Definition is_ctx (h : heap) (c : loc) : Prop := exists x, h_cells h !! c = Some (CCtx x).

Lemma ctx_cell h c x : h_cells h !! c = Some (CCtx x) -> ctx_at c h = x.
Proof. intros Hc. unfold ctx_at, read. cbn [mbind option_bind]. by rewrite Hc. Qed.

(** C21. A clone of a context is independent of it: it says what the original says, but for the execution and for empty
    slices that become nil; its store is empty and it has no runtime; whatever is written later to anything that existed
    before does not show in the clone, and whatever is written to anything made by the clone does not show in any
    earlier context. *)
Theorem clone_independent h c c' h' : heap_ok h -> is_ctx h c -> Clone c h = (c', h') ->
  view_at c' h' = clone_view (view_at c h) /\ (forall k, Get c' k h' = None) /\ cx_rt (ctx_at c' h') = None /\ cx_call (ctx_at c' h') = None /\
  (forall h2, (forall l, h_next h <= l -> h_cells h2 !! l = h_cells h' !! l)%nat -> view_at c' h2 = view_at c' h' /\ forall k, Get c' k h2 = None) /\
  (forall h2 c0, is_ctx h c0 -> (forall l, l < h_next h -> h_cells h2 !! l = h_cells h' !! l)%nat ->
     view_at c0 h2 = view_at c0 h /\ forall k, Get c0 k h2 = Get c0 k h).
Proof.
  intros Hok [x Hx] Hc. unfold Clone in Hc. rewrite (ctx_cell h c x Hx) in Hc. destruct (ok_ctx _ Hok c x Hx) as (Hrefs & _).
  destruct (clone_config (cx_cfg x) h) as [cfg h1] eqn:Hcl. destruct (clone_config_spec h _ cfg h1 Hok Hrefs Hcl) as (He & Hf & Hv).
  pose proof (ext_next _ _ _ He) as Hn1. simpl in Hc. injection Hc as <- <-.
  set (h2 := mkHeap _ _ _).
  assert (Hcells : forall l, (l < h_next h1)%nat -> h_cells h2 !! l = h_cells h1 !! l) by (intros l Hl; simpl; by rewrite !lookup_insert_ne by lia).
  assert (Hctx : h_cells h2 !! S (h_next h1) = Some (CCtx (mkCtx (cx_parent x) cfg (h_next h1) None None))) by apply lookup_insert_eq.
  assert (Hkv : h_cells h2 !! h_next h1 = Some (CKv ∅)) by (simpl; rewrite lookup_insert_ne by lia; apply lookup_insert_eq).
  assert (Hfresh : forall h3, (forall l, h_next h <= l -> h_cells h3 !! l = h_cells h2 !! l)%nat ->
    view_at (S (h_next h1)) h3 = view_of h1 cfg /\ forall k, Get (S (h_next h1)) k h3 = None).
  { intros h3 H3. assert (Hx3 : ctx_at (S (h_next h1)) h3 = mkCtx (cx_parent x) cfg (h_next h1) None None).
    { apply ctx_cell. by rewrite H3 by lia. }
    split.
    - unfold view_at. rewrite Hx3. simpl. apply (view_frame (fun l => h_next h <= l < h_next h1)%nat).
      + intros l Hl. unfold data_at. by rewrite H3, Hcells by lia.
      + intros l cl Hl Hcl'. eapply Forall_impl; [apply (ext_new _ _ _ He l cl); [lia|done]|]. simpl. lia.
      + exact Hf.
    - intros k. unfold Get. rewrite Hx3. simpl. unfold read. cbn [mbind option_bind]. rewrite H3 by lia. by rewrite Hkv. }
  destruct (Hfresh h2) as [Hv2 Hg2]; [done|]. split_and!.
  - rewrite Hv2, Hv. unfold view_at. by rewrite (ctx_cell h c x Hx).
  - done.
  - by rewrite (ctx_cell _ _ _ Hctx).
  - by rewrite (ctx_cell _ _ _ Hctx).
  - intros h3 H3. destruct (Hfresh h3 H3) as [A B]. by rewrite A, Hv2.
  - intros h3 c0 [y Hy] H3. destruct (ok_ctx _ Hok c0 y Hy) as (Hr & [m Hm] & _).
    assert (Hold : forall l, (l < h_next h)%nat -> h_cells h3 !! l = h_cells h !! l).
    { intros l Hl. rewrite H3, Hcells by lia. by apply (ext_old _ _ _ He). }
    assert (Hy3 : ctx_at c0 h3 = y) by (apply ctx_cell; rewrite Hold; [done|by eapply ok_bound]).
    unfold view_at, Get. rewrite Hy3, (ctx_cell h c0 y Hy). split.
    + apply (view_frame (below (h_next h))); [|by apply ok_closed|exact Hr]. intros l Hl. unfold data_at. by rewrite Hold.
    + intros k. unfold read. cbn [mbind option_bind]. by rewrite Hold by (by eapply ok_bound).
Qed.

(** * What other contexts see *)

Definition ctx_ok (h : heap) (x : Ctx) : Prop :=
  Forall (below (h_next h)) (cfg_refs (cx_cfg x)) /\ (exists m, h_cells h !! cx_kv x = Some (CKv m)) /\
  (forall rt, cx_rt x = Some rt -> exists u s, h_cells h !! rt = Some (CRuntime u s)) /\
  (forall call, cx_call x = Some call -> exists r, h_cells h !! call = Some (CCall r)).
(** A cell for the place [l]. *)
Definition cell_ok (h : heap) (l : loc) (c : cell) : Prop :=
  Forall (below (h_next h)) (data_refs c) /\ forall x, c = CCtx x -> ctx_ok h x /\ forall a, agent_of (cx_parent x) = Some a -> (a < l)%nat.
Definition kind (c : cell) : nat := match c with CKv _ => 1 | CRuntime _ _ => 2 | CCall _ => 3 | CCtx _ => 4 | _ => 0 end.

(** From [h] to [h'] no data and no context but those of [t] changed. *)
Record keeps (t : loc -> Prop) (h h' : heap) : Prop := {
  kp_ok : heap_ok h'; kp_next : (h_next h <= h_next h')%nat; kp_data : same_on (below (h_next h)) h h';
  kp_ctx : forall l x, ~ t l -> h_cells h !! l = Some (CCtx x) -> h_cells h' !! l = Some (CCtx x);
  kp_kind : forall l c, h_cells h !! l = Some c -> exists c', h_cells h' !! l = Some c' /\ kind c' = kind c }.

Lemma keeps_refl t h : heap_ok h -> keeps t h h.
Proof. intros Hok. split; try done. intros l c Hc. by exists c. Qed.

Lemma keeps_trans t h h1 h2 : keeps t h h1 -> keeps t h1 h2 -> keeps t h h2.
Proof.
  intros [K1 N1 D1 C1 X1] [K2 N2 D2 C2 X2]. split; [done|lia| | |].
  - intros l Hl. rewrite D1 by done. apply D2. unfold below in *. lia.
  - intros l x Hl Hc. by apply C2, C1.
  - intros l c Hc. destruct (X1 l c Hc) as (c1 & H1 & E1). destruct (X2 l c1 H1) as (c2 & H2 & E2). exists c2. split; [done|congruence].
Qed.

Lemma ext_keeps t n h h' : heap_ok h -> ext n h h' -> keeps t h h'.
Proof.
  intros Hok He. pose proof (ext_ok _ _ _ Hok He). split; [done|by apply (ext_next _ _ _ He)|by eapply ext_same| |].
  - intros l x _ Hc. rewrite (ext_old _ _ _ He); [done|by eapply ok_bound].
  - intros l c Hc. exists c. split; [|done]. rewrite (ext_old _ _ _ He); [done|by eapply ok_bound].
Qed.

Lemma ctx_ok_grows h h' x : (h_next h <= h_next h')%nat -> (forall l c, h_cells h !! l = Some c -> exists c', h_cells h' !! l = Some c' /\ kind c' = kind c) ->
  ctx_ok h x -> ctx_ok h' x.
Proof.
  intros Hn Hk (F & [m Hm] & Hrt & Hcall). split_and!.
  - eapply Forall_impl; [exact F|]. unfold below. simpl. lia.
  - destruct (Hk _ _ Hm) as (c' & Hc' & E). destruct c'; try done. by eexists.
  - intros rt Hr. destruct (Hrt rt Hr) as (u & s & E). destruct (Hk _ _ E) as (c' & Hc' & E'). destruct c'; try done. by eexists _, _.
  - intros call Hr. destruct (Hcall call Hr) as (r & E). destruct (Hk _ _ E) as (c' & Hc' & E'). destruct c'; try done. by eexists.
Qed.

Lemma alloc_keeps t h c : heap_ok h -> cell_ok h (h_next h) c -> keeps t h (alloc c h).2.
Proof.
  intros Hok [Hd Hx]. assert (Hk : forall l c0, h_cells h !! l = Some c0 -> exists c', h_cells (alloc c h).2 !! l = Some c' /\ kind c' = kind c0).
  { intros l c0 Hc. exists c0. simpl. rewrite lookup_insert_ne; [done|]. apply (ok_bound _ Hok) in Hc. lia. }
  split; [|simpl; lia| | |done].
  - split; simpl.
    + intros l c0 Hc. destruct (decide (l = h_next h)) as [->|Hne]; [lia|]. rewrite lookup_insert_ne in Hc by done. apply (ok_bound _ Hok) in Hc. lia.
    + intros l c0 r Hc Hr. destruct (decide (l = h_next h)) as [->|Hne].
      * rewrite lookup_insert_eq in Hc. injection Hc as <-. rewrite Forall_forall in Hd. specialize (Hd r Hr). unfold below in Hd. lia.
      * rewrite lookup_insert_ne in Hc by done. specialize (ok_data _ Hok l c0 r Hc Hr). lia.
    + intros l x Hc. apply (ctx_ok_grows h (alloc c h).2); [simpl; lia|done|]. destruct (decide (l = h_next h)) as [->|Hne].
      * rewrite lookup_insert_eq in Hc. injection Hc as ->. by apply Hx.
      * rewrite lookup_insert_ne in Hc by done. by apply (ok_ctx _ Hok l).
    + intros l x a Hc. destruct (decide (l = h_next h)) as [->|Hne].
      * rewrite lookup_insert_eq in Hc. injection Hc as ->. by apply Hx.
      * rewrite lookup_insert_ne in Hc by done. by apply (ok_parent _ Hok l).
  - intros l Hl. unfold data_at, below in *. simpl. by rewrite lookup_insert_ne by lia.
  - intros l x _ Hc. simpl. rewrite lookup_insert_ne; [done|]. apply (ok_bound _ Hok) in Hc. lia.
Qed.

Lemma write_keeps (t : loc -> Prop) h l c c0 : heap_ok h -> cell_ok h l c -> h_cells h !! l = Some c0 -> kind c0 = kind c -> is_data c = false ->
  (is_ctx h l -> t l) -> keeps t h (write l c h).2.
Proof.
  intros Hok [Hd Hx] Hl Hkind Hdata Ht.
  assert (Hk : forall l' c', h_cells h !! l' = Some c' -> exists c2, h_cells (write l c h).2 !! l' = Some c2 /\ kind c2 = kind c').
  { intros l' c' Hc. simpl. destruct (decide (l' = l)) as [->|Hne]; [|exists c'; by rewrite lookup_insert_ne].
    exists c. rewrite lookup_insert_eq. split; [done|]. rewrite Hl in Hc. by injection Hc as <-. }
  split; [|done| | |done].
  - split; simpl.
    + intros l' c' Hc. destruct (decide (l' = l)) as [->|Hne]; [by apply (ok_bound _ Hok) in Hl|]. rewrite lookup_insert_ne in Hc by done. by apply (ok_bound _ Hok) in Hc.
    + intros l' c' r Hc Hr. destruct (decide (l' = l)) as [->|Hne].
      * rewrite lookup_insert_eq in Hc. injection Hc as <-. rewrite Forall_forall in Hd. by specialize (Hd r Hr).
      * rewrite lookup_insert_ne in Hc by done. by apply (ok_data _ Hok l' c').
    + intros l' x Hc. apply (ctx_ok_grows h (write l c h).2); [done|done|]. destruct (decide (l' = l)) as [->|Hne].
      * rewrite lookup_insert_eq in Hc. injection Hc as ->. by apply Hx.
      * rewrite lookup_insert_ne in Hc by done. by apply (ok_ctx _ Hok l').
    + intros l' x a Hc. destruct (decide (l' = l)) as [->|Hne].
      * rewrite lookup_insert_eq in Hc. injection Hc as ->. by apply Hx.
      * rewrite lookup_insert_ne in Hc by done. by apply (ok_parent _ Hok l').
  - intros l' Hl'. unfold data_at. simpl. destruct (decide (l' = l)) as [->|Hne]; [|by rewrite lookup_insert_ne].
    rewrite lookup_insert_eq, Hl. cbn [mbind option_bind]. rewrite Hdata. destruct c0, c; done.
  - intros l' x Hnt Hc. simpl. rewrite lookup_insert_ne; [done|]. intros <-. apply Hnt, Ht. by exists x.
Qed.

Lemma keeps_view t h h' c : heap_ok h -> keeps t h h' -> is_ctx h c -> ~ t c -> view_at c h' = view_at c h.
Proof.
  intros Hok Hk [x Hx] Hc. unfold view_at. rewrite (ctx_cell h c x Hx), (ctx_cell h' c x (kp_ctx _ _ _ Hk c x Hc Hx)).
  apply (view_frame (below (h_next h))); [by apply (kp_data _ _ _ Hk)|by apply ok_closed|]. by apply (ok_ctx _ Hok c x Hx).
Qed.

Inductive setter :=
| SConversation (id : string) | SExecution (id : string) | SImages (r : option loc) | SDocuments (r : option loc) | SInference (r : option loc)
| SIdentity (id : string) | SScope (k v : string) | SInstructions (s : string) | SDetailed | SObservers (r : option loc) | SPrincipal (p : PrincipalRef).
Definition apply_setter (c : loc) (s : setter) : HM loc :=
  match s with
  | SConversation id => WithConversationID c id | SExecution id => WithExecutionID c id | SImages r => WithImages c r
  | SDocuments r => WithDocuments c r | SInference r => WithInferenceConfig c r | SIdentity id => WithIdentity c id
  | SScope k v => WithScope c k v | SInstructions s => WithInstructions c s | SDetailed => WithDetailedEvents c
  | SObservers r => WithObservers c r | SPrincipal p => WithPrincipal c p
  end.
Definition setter_ok (h : heap) (s : setter) : Prop :=
  match s with
  | SImages r | SDocuments r | SInference r | SObservers r => old_ref h r
  | SPrincipal p => Forall (old_ref h) [pf_Roles p; pf_Attrs p; pf_Credentials p]
  | _ => True
  end.

Lemma with_cfg_keeps h c f : heap_ok h -> is_ctx h c -> Forall (below (h_next h)) (cfg_refs (f (cx_cfg (ctx_at c h)))) ->
  keeps (eq c) h (with_cfg c f h).2.
Proof.
  intros Hok [x Hx] Hf. unfold with_cfg. cbn [snd]. rewrite (ctx_cell h c x Hx) in *.
  eapply (write_keeps (eq c) h c _ (CCtx x)); try done. split; [constructor|]. intros y [= <-].
  destruct (ok_ctx _ Hok c x Hx) as (_ & Hkv & Hrt & Hcall). split; [by split_and!|]. intros a. by apply (ok_parent _ Hok c x).
Qed.

(** A reference of a configuration replaced by one that exists. *)
Lemma old_below h r : old_ref h r -> Forall (below (h_next h)) (refs_of [r]).
Proof. intros Hr. destruct r as [l|]; [|constructor]. apply Forall_singleton. by apply Hr. Qed.

Lemma cfg_refs_below h c : Forall (below (h_next h)) (cfg_refs c) <->
  Forall (old_ref h) [hc_images c; hc_documents c; hc_inferenceConfig c; hc_scopes c; hc_principal c; hc_observers c].
Proof.
  split; [apply old_refs|]. intros Hf. unfold cfg_refs. apply Forall_forall. intros l Hl%refs_in. rewrite Forall_forall in Hf. by apply (Hf _ Hl).
Qed.

Lemma setter_keeps h c s : heap_ok h -> is_ctx h c -> setter_ok h s -> keeps (eq c) h (apply_setter c s h).2.
Proof.
  intros Hok Hc Hs. pose proof Hc as [x Hx]. destruct (ok_ctx _ Hok c x Hx) as (Hrefs & _). pose proof Hrefs as Hold. apply cfg_refs_below in Hold.
  rewrite !Forall_cons in Hold. destruct Hold as (O1 & O2 & O3 & O4 & O5 & O6 & _).
  assert (Hw : forall f, Forall (old_ref h) [hc_images (f (cx_cfg x)); hc_documents (f (cx_cfg x)); hc_inferenceConfig (f (cx_cfg x)); hc_scopes (f (cx_cfg x));
    hc_principal (f (cx_cfg x)); hc_observers (f (cx_cfg x))] -> keeps (eq c) h (with_cfg c f h).2).
  { intros f Hf. apply with_cfg_keeps; [done|done|]. rewrite (ctx_cell h c x Hx). by apply cfg_refs_below. }
  assert (Hlater : forall h1 f, keeps (eq c) h h1 -> h_cells h1 !! c = Some (CCtx x) -> Forall (below (h_next h1)) (cfg_refs (f (cx_cfg x))) ->
    keeps (eq c) h (with_cfg c f h1).2).
  { intros h1 f Hk Hx1 Hf. eapply keeps_trans; [exact Hk|]. apply with_cfg_keeps; [apply Hk|by exists x|by rewrite (ctx_cell h1 c x Hx1)]. }
  assert (Hgrow : forall h1, (h_next h <= h_next h1)%nat -> Forall (old_ref h1) [hc_images (cx_cfg x); hc_documents (cx_cfg x); hc_inferenceConfig (cx_cfg x);
    hc_scopes (cx_cfg x); hc_principal (cx_cfg x); hc_observers (cx_cfg x)]).
  { intros h1 Hn. apply cfg_refs_below. eapply Forall_impl; [exact Hrefs|]. unfold below. simpl. lia. }
  destruct s as [id|id|r|r|r|id|k v|s| |r|p]; cbn [apply_setter setter_ok] in *;
    try (apply Hw; rewrite !Forall_cons; split_and!; first [assumption|by apply Forall_nil]).
  - unfold WithScope. set (m := default _ _). destruct (alloc_ext 0 h (CMap (<[k:=v]> m)) Hok ltac:(lia) eq_refl) as (He & Hf & Hcell); [constructor|].
    destruct (alloc _ h) as [l h1]. cbn [fst snd] in *. apply (Hlater h1); [by eapply ext_keeps|rewrite (ext_old _ _ _ He); [done|by eapply ok_bound]|].
    apply cfg_refs_below. pose proof (Hgrow h1 (ext_next _ _ _ He)) as G. rewrite !Forall_cons in *. destruct G as (G1 & G2 & G3 & _ & G5 & G6 & _).
    split_and!; first [assumption|by eapply fresh_old|by apply Forall_nil].
  - unfold WithObservers, hbind. destruct (copy_slice get_observers CObservers r h) as [l h1] eqn:Hcp.
    apply (copy_slice_spec 0) in Hcp as (He & Hf & _); [|done|lia|done]. apply (Hlater h1); [by eapply ext_keeps|rewrite (ext_old _ _ _ He); [done|by eapply ok_bound]|].
    apply cfg_refs_below. pose proof (Hgrow h1 (ext_next _ _ _ He)) as G. rewrite !Forall_cons in *. destruct G as (G1 & G2 & G3 & G4 & G5 & _).
    split_and!; first [assumption|by eapply fresh_old|by apply Forall_nil].
  - unfold WithPrincipal, hbind. destruct (clonePrincipal p h) as [p1 h1] eqn:Hcp. apply (clonePrincipal_spec 0) in Hcp as (He & Hf & _); [|done|lia|done].
    destruct (alloc_ext 0 h1 (CPrincipal p1)) as (He2 & Hf2 & _); [by eapply ext_ok|lia|done|by apply fresh_refs in Hf|].
    destruct (alloc (CPrincipal p1) h1) as [l h2]. cbn [fst snd] in *. pose proof (ext_trans _ _ _ _ He He2) as He3.
    apply (Hlater h2); [by eapply ext_keeps|rewrite (ext_old _ _ _ He3); [done|by eapply ok_bound]|].
    apply cfg_refs_below. pose proof (Hgrow h2 (ext_next _ _ _ He3)) as G. rewrite !Forall_cons in *. destruct G as (G1 & G2 & G3 & G4 & _ & G6 & _).
    split_and!; first [assumption|by eapply fresh_old|by apply Forall_nil].
Qed.

Lemma keeps_new (t : loc -> Prop) h h1 h2 c' : heap_ok h -> keeps t h h1 -> keeps (eq c') h1 h2 -> (h_next h <= c')%nat -> keeps t h h2.
Proof.
  intros Hok [K1 N1 D1 C1 X1] [K2 N2 D2 C2 X2] Hc. split; [done|lia| | |].
  - intros l Hl. rewrite D1 by done. apply D2. unfold below in *. lia.
  - intros l x Hl Hx. apply C2; [|by apply C1]. intros <-. apply (ok_bound _ Hok) in Hx. lia.
  - intros l c Hcl. destruct (X1 l c Hcl) as (c1 & H1 & E1). destruct (X2 l c1 H1) as (c2 & H2 & E2). exists c2. split; [done|congruence].
Qed.

Lemma clone_keeps t h c : heap_ok h -> is_ctx h c -> keeps t h (Clone c h).2 /\ is_ctx (Clone c h).2 (Clone c h).1 /\ (h_next h <= (Clone c h).1)%nat.
Proof.
  intros Hok [x Hx]. destruct (ok_ctx _ Hok c x Hx) as (Hrefs & _). unfold Clone. rewrite (ctx_cell h c x Hx).
  destruct (clone_config (cx_cfg x) h) as [cfg h1] eqn:Hcl. destruct (clone_config_spec h _ cfg h1 Hok Hrefs Hcl) as (He & Hf & _).
  pose proof (ext_ok _ _ _ Hok He) as Hok1. pose proof (ext_next _ _ _ He) as Hn.
  assert (K1 : keeps t h1 (alloc (CKv ∅) h1).2) by (apply alloc_keeps; [done|split; [constructor|done]]).
  destruct (alloc (CKv ∅) h1) as [kv h2] eqn:Hkv. assert (Hl : h_cells h2 !! kv = Some (CKv ∅) /\ h_next h2 = S (h_next h1)).
  { injection Hkv as <- <-. simpl. by rewrite lookup_insert_eq. }
  destruct Hl as [Hl Hn2]. cbn [snd] in K1. split_and!.
  - eapply keeps_trans; [by eapply ext_keeps|]. eapply keeps_trans; [exact K1|]. apply alloc_keeps; [by apply K1|]. split; [constructor|].
    intros y [= <-]. split; [split_and!; try done; [|by exists ∅]; eapply Forall_impl; [exact Hf|]; unfold below; simpl; lia|].
    intros a Ha. pose proof (ok_parent _ Hok c x a Hx Ha). apply (ok_bound _ Hok) in Hx. lia.
  - eexists. apply lookup_insert_eq.
  - simpl. lia.
Qed.

(** ** Principals *)

Lemma principal_at_ext n h h' p : ext n h h' -> Forall (old_ref h) [pf_Roles p; pf_Attrs p; pf_Credentials p] -> principal_at h' p = principal_at h p.
Proof.
  intros He. rewrite !Forall_cons. intros (X1 & X2 & X3 & _). unfold principal_at.
  by rewrite (read_old _ _ _ _ _ He X1), (read_old _ _ _ _ _ He X2), (read_old _ _ _ _ _ He X3).
Qed.

Lemma WithPrincipal_spec h c p : heap_ok h -> is_ctx h c -> Forall (old_ref h) [pf_Roles p; pf_Attrs p; pf_Credentials p] ->
  keeps (eq c) h (WithPrincipal c p h).2 /\ (WithPrincipal c p h).1 = c /\
  cfg_principal (vw_cfg (view_at c (WithPrincipal c p h).2)) = Some (principal_at h p).
Proof.
  intros Hok Hc Hp. split; [by apply (setter_keeps h c (SPrincipal p))|]. unfold WithPrincipal, hbind.
  destruct (clonePrincipal p h) as [p1 h1] eqn:Hcp. apply (clonePrincipal_spec 0) in Hcp as (He & Hf & Hv); [|done|lia|done].
  pose proof (ext_ok _ _ _ Hok He) as Hok1.
  destruct (alloc_ext 0 h1 (CPrincipal p1)) as (He2 & Hfl & Hcell); [done|lia|done|by apply fresh_refs in Hf|].
  destruct (alloc (CPrincipal p1) h1) as [l h2]. cbn [fst snd] in *. pose proof (ext_ok _ _ _ Hok1 He2) as Hok2. split; [done|].
  destruct Hc as [x Hx]. assert (Hx2 : h_cells h2 !! c = Some (CCtx x)).
  { rewrite (ext_old _ _ _ (ext_trans _ _ _ _ He He2)); [done|by eapply ok_bound]. }
  set (f := fun g => g <| hc_principal := Some l |>).
  assert (Hk : keeps (eq c) h2 (with_cfg c f h2).2).
  { apply with_cfg_keeps; [done|by exists x|]. rewrite (ctx_cell _ _ _ Hx2). destruct (ok_ctx _ Hok2 c x Hx2) as (Hr & _).
    apply cfg_refs_below. apply cfg_refs_below in Hr. rewrite !Forall_cons in *. destruct Hr as (R1 & R2 & R3 & R4 & _ & R6 & _).
    split_and!; first [assumption|by eapply fresh_old|by apply Forall_nil]. }
  assert (Hat : cx_cfg (ctx_at c (with_cfg c f h2).2) = f (cx_cfg x)).
  { unfold with_cfg. cbn [fst snd]. rewrite (ctx_cell _ _ _ Hx2). by rewrite (ctx_cell _ c (x <| cx_cfg := f (cx_cfg x) |>)) by apply lookup_insert_eq. }
  unfold view_at. rewrite view_eq, Hat. change (principal_view (with_cfg c f h2).2 (Some l) = Some (principal_at h p)).
  rewrite (principal_frame (below (h_next h2)) h2); [|by apply (kp_data _ _ _ Hk)|by apply ok_closed|intros k [= <-]; by apply Hfl].
  unfold principal_view, read. cbn [mbind option_bind]. rewrite Hcell. simpl. f_equal. rewrite (principal_at_ext _ _ _ _ He2), Hv; [done|].
  eapply Forall_impl; [exact Hf|]. intros r Hr. by eapply fresh_old.
Qed.

Lemma PrincipalOf_spec h c p h' : heap_ok h -> is_ctx h c -> PrincipalOf c h = (p, h') ->
  ext 0 h h' /\ principal_at h' <$> p = cfg_principal (vw_cfg (view_at c h)) /\
  forall q, p = Some q -> Forall (old_ref h') [pf_Roles q; pf_Attrs q; pf_Credentials q].
Proof.
  intros Hok [x Hx]. unfold PrincipalOf, view_at. rewrite view_eq, (ctx_cell _ _ _ Hx). cbn [vw_cfg cfg_principal]. unfold principal_view.
  destruct (ok_ctx _ Hok c x Hx) as (Hr & _). apply cfg_refs_below in Hr. rewrite !Forall_cons in Hr. destruct Hr as (_ & _ & _ & _ & R5 & _).
  destruct (read (hc_principal (cx_cfg x)) get_principal h) as [q|] eqn:Hq; [|intros [= <- <-]; split_and!; [by apply ext_refl|done|done]].
  destruct (clonePrincipal q h) as [q1 h1] eqn:Hcp. intros [= <- <-].
  destruct (read_cell (below (h_next h)) h (ok_closed _ Hok) get_principal _ _ Hq R5) as (cl & Hg & Hrefs). destruct cl; try done. injection Hg as ->.
  apply (clonePrincipal_spec 0) in Hcp as (He & Hf & Hv); [|done|lia|by apply old_refs in Hrefs]. split_and!; [done|simpl; by rewrite Hv|].
  intros q' [= <-]. eapply Forall_impl; [exact Hf|]. intros r. apply fresh_old.
Qed.

Lemma narrow_spec h c allowed : heap_ok h -> is_ctx h c ->
  keeps (fun _ => False) h (WithNarrowedRoles_ctx c allowed h).2 /\ is_ctx (WithNarrowedRoles_ctx c allowed h).2 (WithNarrowedRoles_ctx c allowed h).1 /\
  cfg_principal (vw_cfg (view_at (WithNarrowedRoles_ctx c allowed h).1 (WithNarrowedRoles_ctx c allowed h).2)) =
    WithNarrowedRoles (cfg_principal (vw_cfg (view_at c h))) allowed.
Proof.
  intros Hok Hc. unfold WithNarrowedRoles_ctx. destruct (PrincipalOf c h) as [p h1] eqn:Hp. destruct (PrincipalOf_spec h c p h1 Hok Hc Hp) as (He & Hv & Hrefs).
  pose proof (ext_ok _ _ _ Hok He) as Hok1. pose proof (ext_keeps (fun _ => False) _ _ _ Hok He) as Hk1.
  assert (Hc1 : is_ctx h1 c). { destruct Hc as [x Hx]. exists x. apply (kp_ctx _ _ _ Hk1); [by intros []|done]. }
  destruct p as [p|]; cbn [fmap option_fmap option_map] in Hv.
  2:{ cbn [fst snd]. split_and!; [done|done|]. rewrite (keeps_view _ _ _ c Hok Hk1 Hc) by (by intros []). by rewrite <- Hv. }
  set (narrowed := List.filter _ _). specialize (Hrefs p eq_refl).
  destruct (alloc_ext 0 h1 (CStrings narrowed) Hok1 ltac:(lia) eq_refl) as (He2 & Hfl & Hcell); [constructor|].
  destruct (alloc (CStrings narrowed) h1) as [l h2]. cbn [fst snd] in *. pose proof (ext_ok _ _ _ Hok1 He2) as Hok2.
  pose proof (ext_keeps (fun _ => False) _ _ _ Hok1 He2) as Hk2.
  assert (Hc2 : is_ctx h2 c). { destruct Hc1 as [x Hx]. exists x. apply (kp_ctx _ _ _ Hk2); [by intros []|done]. }
  destruct (clone_keeps (fun _ => False) h2 c Hok2 Hc2) as (Hk3 & Hc3 & Hn3). destruct (Clone c h2) as [c' h3]. cbn [fst snd] in *.
  set (p2 := mkPrin (pf_ID p) (Some l) (pf_Attrs p) (pf_Credentials p)).
  assert (Hrefs2 : Forall (old_ref h2) [pf_Roles p2; pf_Attrs p2; pf_Credentials p2]).
  { rewrite !Forall_cons in *. destruct Hrefs as (_ & R2 & R3 & _). split_and!; [by eapply fresh_old|by eapply old_ext|by eapply old_ext|by apply Forall_nil]. }
  assert (Hrefs3 : Forall (old_ref h3) [pf_Roles p2; pf_Attrs p2; pf_Credentials p2]).
  { eapply Forall_impl; [exact Hrefs2|]. intros r Hr k Hk. specialize (Hr k Hk). pose proof (kp_next _ _ _ Hk3). lia. }
  destruct (WithPrincipal_spec h3 c' p2 (kp_ok _ _ _ Hk3) Hc3 Hrefs3) as (Hk4 & Hres & Hpr).
  destruct (WithPrincipal c' p2 h3) as [c4 h4]. cbn [fst snd] in *. subst c4. split_and!.
  - eapply keeps_trans; [exact Hk1|]. eapply keeps_trans; [exact Hk2|]. by eapply keeps_new.
  - destruct Hc3 as [x Hx]. destruct (kp_kind _ _ _ Hk4 _ _ Hx) as (cl & Hcl & Hkd). destruct cl; try done. by eexists.
  - rewrite Hpr, <- Hv.
    assert (Hsame : same_on (below (h_next h2)) h2 h3) by apply Hk3.
    assert (Hread : forall A (get : cell -> option A) r, (forall cl, is_data cl = false -> get cl = None) -> old_ref h2 r -> read r get h3 = read r get h2).
    { intros A get r Hg Hr. by apply (read_frame (below (h_next h2)) h2 h3 Hsame). }
    rewrite !Forall_cons in Hrefs, Hrefs2. destruct Hrefs as (R1 & R2 & R3 & _), Hrefs2 as (S1 & S2 & S3 & _).
    transitivity (Some (mkPrincipal (pf_ID p) (default [] (read (Some l) get_strings h3)) (default ∅ (read (pf_Attrs p) get_map h3)) (default ∅ (read (pf_Credentials p) get_map h3)))); [done|].
    rewrite (Hread _ get_strings (Some l)), (Hread _ get_map (pf_Attrs p)), (Hread _ get_map (pf_Credentials p)) by (done || by intros []).
    rewrite (read_old _ _ _ _ _ He2 R2), (read_old _ _ _ _ _ He2 R3). unfold read at 1. cbn [mbind option_bind]. by rewrite Hcell.
Qed.

(** ** Histories *)

Inductive ctx_op :=
| OSetter (c : loc) (s : setter) | OSet (c : loc) (k : K) (v : V) | ONew (parent : gctx) | OClone (c : loc) | ONarrow (c : loc) (allowed : list string)
| OContext (c : loc) (ctx : gctx) | OInvocation (c : loc) (ctx : gctx) (sink : bool) | OToolCall (c : loc) (id : string) (async : bool)
| OAddUsage (c : loc) (u : TokenUsage) | OEmitWidget (c : loc) (w : Widget) | OHumanInput (c : loc) (i : option InputInterrupt) | OPrincipal (c : loc).

Definition run_op (op : ctx_op) (h : heap) : heap :=
  match op with
  | OSetter c s => (apply_setter c s h).2
  | OSet c k v => (Set_ c k v h).2
  | ONew parent => (NewContext parent h).2
  | OClone c => (Clone c h).2
  | ONarrow c allowed => (WithNarrowedRoles_ctx c allowed h).2
  | OContext c ctx => (withContext c ctx h).2
  | OInvocation c ctx sink => let '(rt, h) := alloc (CRuntime usage_zero sink) h in (forInvocation c ctx rt h).2
  | OToolCall c id async => let '(call, h) := alloc (CCall (mkCall id async [] None)) h in (forToolCall c call h).2
  | OAddUsage c u => match cx_rt (ctx_at c h) with Some rt => (rt_addUsage rt u h).2 | None => h end
  | OEmitWidget c w => (EmitWidget (GAgent c) w h).2
  | OHumanInput c i => match cx_call (ctx_at c h) with Some call => (setHumanInput call i h).2 | None => h end
  | OPrincipal c => (PrincipalOf c h).2
  end.
(** The context that an operation is called on. *)
Definition op_ctx (op : ctx_op) : option loc :=
  match op with
  | ONew _ => None
  | OSetter c _ | OSet c _ _ | OClone c | ONarrow c _ | OContext c _ | OInvocation c _ _ | OToolCall c _ _ | OAddUsage c _ | OEmitWidget c _
  | OHumanInput c _ | OPrincipal c => Some c
  end.
Definition op_ok (h : heap) (op : ctx_op) : Prop :=
  (forall c, op_ctx op = Some c -> is_ctx h c) /\ match op with
  | OSetter _ s => setter_ok h s
  | ONew ctx | OContext _ ctx | OInvocation _ ctx _ => forall a, agent_of ctx = Some a -> is_ctx h a
  | _ => True
  end.
Definition set_by (op : ctx_op) (c : loc) : Prop := match op with OSetter c' _ => c' = c | _ => False end.

Lemma write_call_keeps t h c call r : heap_ok h -> is_ctx h c -> cx_call (ctx_at c h) = Some call -> keeps t h (write call (CCall r) h).2.
Proof.
  intros Hok [x Hx] Hc. rewrite (ctx_cell _ _ _ Hx) in Hc. destruct (ok_ctx _ Hok c x Hx) as (_ & _ & _ & Hcall). destruct (Hcall _ Hc) as [r0 Hr].
  apply (write_keeps t h call (CCall r) (CCall r0)); try done. intros [y Hy]. congruence.
Qed.

Lemma new_ctx_keeps t h x : heap_ok h -> ctx_ok h x -> (forall a, agent_of (cx_parent x) = Some a -> (a < h_next h)%nat) -> keeps t h (alloc (CCtx x) h).2.
Proof. intros Hok Hx Hp. apply alloc_keeps; [done|]. split; [constructor|]. by intros y [= <-]. Qed.

Lemma emit_keeps t h c ev : heap_ok h -> keeps t h (emit_on c ev h).2.
Proof.
  intros Hok. unfold emit_on. destruct (cx_rt (ctx_at c h)) as [rt|]; [|by apply keeps_refl]. destruct (default false _); [|by apply keeps_refl].
  destruct Hok as [B D C Q]. split; try done. intros l c0 Hc. by exists c0.
Qed.

Lemma ctx_bound h h1 a : heap_ok h -> is_ctx h a -> (h_next h <= h_next h1)%nat -> (a < h_next h1)%nat.
Proof. intros Hok [y Hy] Hn. apply (ok_bound _ Hok) in Hy. lia. Qed.

Lemma op_keeps h op : heap_ok h -> op_ok h op -> keeps (set_by op) h (run_op op h).
Proof.
  intros Hok [Hc Hs]. destruct op as [c s|c k v|parent|c|c allowed|c ctx|c ctx sink|c id async|c u|c w|c i|c]; cbn [run_op op_ctx set_by] in *;
    try (pose proof (Hc _ eq_refl) as Hctx; pose proof Hctx as [x Hx]; pose proof (ok_ctx _ Hok c x Hx) as Hxok).
  - destruct (setter_keeps h c s Hok Hctx Hs) as [K1 N1 D1 C1 X1]. by split.
  - unfold Set_. rewrite (ctx_cell _ _ _ Hx). destruct Hxok as (_ & [m Hm] & _).
    eapply (write_keeps _ h (cx_kv x) _ (CKv m)); try done. intros [y Hy]. congruence.
  - unfold NewContext, hbind. assert (K1 : keeps (fun _ => False) h (alloc (CKv ∅) h).2) by (apply alloc_keeps; [done|split; [constructor|done]]).
    destruct (alloc (CKv ∅) h) as [kv h1] eqn:Ha. cbn [snd] in K1. eapply keeps_trans; [exact K1|]. apply new_ctx_keeps; [by apply K1| |].
    + injection Ha as <- <-. split_and!; try done. exists ∅. apply lookup_insert_eq.
    + intros a Hp. apply (ctx_bound h); [done|by apply Hs|by apply K1].
  - by apply clone_keeps.
  - by apply narrow_spec.
  - apply new_ctx_keeps; [done|by rewrite (ctx_cell _ _ _ Hx)|]. intros a Hp. by apply (ctx_bound h h a Hok (Hs a Hp)).
  - assert (K1 : keeps (fun _ => False) h (alloc (CRuntime usage_zero sink) h).2) by (apply alloc_keeps; [done|split; [constructor|done]]).
    destruct (alloc (CRuntime usage_zero sink) h) as [rt h1] eqn:Ha. cbn [snd] in K1. eapply keeps_trans; [exact K1|].
    unfold forInvocation. rewrite (ctx_cell h1 c x) by (apply (kp_ctx _ _ _ K1); [by intros []|done]). apply new_ctx_keeps; [by apply K1| |].
    + destruct (ctx_ok_grows h h1 x (kp_next _ _ _ K1) (kp_kind _ _ _ K1) Hxok) as (F & Hkv & _). split_and!; try done.
      intros rt' [= <-]. injection Ha as <- <-. exists usage_zero, sink. apply lookup_insert_eq.
    + intros a Hp. apply (ctx_bound h); [done|by apply Hs|by apply K1].
  - assert (K1 : keeps (fun _ => False) h (alloc (CCall (mkCall id async [] None)) h).2) by (apply alloc_keeps; [done|split; [constructor|done]]).
    destruct (alloc (CCall (mkCall id async [] None)) h) as [call h1] eqn:Ha. cbn [snd] in K1. eapply keeps_trans; [exact K1|].
    unfold forToolCall. rewrite (ctx_cell h1 c x) by (apply (kp_ctx _ _ _ K1); [by intros []|done]). apply new_ctx_keeps; [by apply K1| |].
    + destruct (ctx_ok_grows h h1 x (kp_next _ _ _ K1) (kp_kind _ _ _ K1) Hxok) as (F & Hkv & Hrt & _). split_and!; try done.
      intros call' [= <-]. injection Ha as <- <-. eexists. apply lookup_insert_eq.
    + intros a Hp. pose proof (ok_parent _ Hok c x a Hx Hp). pose proof (ctx_bound h h1 c Hok Hctx (kp_next _ _ _ K1)). lia.
  - rewrite (ctx_cell _ _ _ Hx). destruct Hxok as (_ & _ & Hrt & _). destruct (cx_rt x) as [rt|]; [|by apply keeps_refl].
    destruct (Hrt rt eq_refl) as (u0 & s & Hr). unfold rt_addUsage, rt_seedUsage. cbn [snd].
    eapply (write_keeps _ h rt _ (CRuntime u0 s)); try done. intros [y Hy]. congruence.
  - unfold EmitWidget. destruct (Widget_Validate w) as [|e]; [|by apply keeps_refl]. cbn [FromContext mbind option_bind].
    rewrite (ctx_cell _ _ _ Hx). destruct (cx_call x) as [call|] eqn:Hcall; cbn [fmap option_fmap option_map]; [|by apply keeps_refl].
    assert (K1 : keeps (fun _ => False) h (appendWidget call w h).2) by (apply (write_call_keeps _ h c); [done|done|by rewrite (ctx_cell _ _ _ Hx)]).
    cbn [snd]. eapply keeps_trans; [exact K1|]. apply emit_keeps, K1.
  - destruct (cx_call (ctx_at c h)) as [call|] eqn:Hcall; [|by apply keeps_refl]. by apply (write_call_keeps _ h c).
  - destruct (PrincipalOf c h) as [p h1] eqn:Hp. destruct (PrincipalOf_spec h c p h1 Hok Hctx Hp) as (He & _). by eapply ext_keeps.
Qed.

(** One operation after the other, each on contexts and data that exist. *)
Inductive ctx_run : heap -> list ctx_op -> heap -> Prop :=
| run_done h : ctx_run h [] h
| run_step h op ops h' : op_ok h op -> ctx_run (run_op op h) ops h' -> ctx_run h (op :: ops) h'.

(** C22. Whatever is derived from a context or done through any context, tool calls and invocations included, only a WithX
    on the context itself changes what its configuration says, and nothing ever dangles. *)
Theorem contexts_isolated h ops h' c : ctx_run h ops h' -> heap_ok h -> is_ctx h c -> Forall (fun op => ~ set_by op c) ops ->
  heap_ok h' /\ is_ctx h' c /\ view_at c h' = view_at c h.
Proof.
  intros Hrun. induction Hrun as [h|h op ops h' Hop Hrun IH]; intros Hok Hc Hops; [done|]. apply Forall_cons in Hops as [Hn Hops].
  pose proof (op_keeps h op Hok Hop) as Hk. destruct IH as (I1 & I2 & I3); [by apply Hk| |done|].
  - destruct Hc as [x Hx]. exists x. by apply (kp_ctx _ _ _ Hk).
  - split_and!; [done|done|]. rewrite I3. by apply (keeps_view (set_by op)).
Qed.

(** * Finding the context *)

(** A standard context that is derived from one of ours leads to it, whatever values are put on it. *)
Lemma FromContext_agent h ctx : FromContext h ctx = agent_of ctx.
Proof.
  assert (Hv : forall ctx, Value 1 h ctx KeyContext = FoundContext <$> agent_of ctx) by (intros ctx0; induction ctx0; simpl in *; auto).
  unfold FromContext. destruct ctx; try done; rewrite Hv; simpl; by destruct (agent_of ctx).
Qed.

(** Parents are older, so that as many steps as there are cells find every value. *)
Lemma Value_enough h ctx k n m : heap_ok h -> (forall a, agent_of ctx = Some a -> (a < n)%nat) -> (S n <= m)%nat ->
  Value m h ctx k = Value (S n) h ctx k.
Proof.
  intros Hok. revert m ctx. induction n as [|n IH]; intros m ctx Ha Hm; destruct m as [|m]; try lia.
  - induction ctx as [|k' v p IHp|u p IHp|p IHp|c]; simpl in *; try done; try (destruct k; auto).
    + by case_bool_decide; auto.
    + specialize (Ha c eq_refl). lia.
    + specialize (Ha c eq_refl). lia.
  - induction ctx as [|k' v p IHp|u p IHp|p IHp|c].
    + done.
    + specialize (IHp Ha). cbn [Value] in *. destruct k; try exact IHp. by case_bool_decide.
    + specialize (IHp Ha). cbn [Value] in *. destruct k; try exact IHp. done.
    + exact (IHp Ha).
    + specialize (Ha c eq_refl). cbn [Value].
      assert (Hp : forall a, agent_of (cx_parent (ctx_at c h)) = Some a -> (a < n)%nat).
      { intros a Hpa. unfold ctx_at, read in Hpa. cbn [mbind option_bind] in Hpa. destruct (h_cells h !! c) as [[]|] eqn:Hx; try done.
        pose proof (ok_parent _ Hok c _ a Hx Hpa). lia. }
      specialize (IH m (cx_parent (ctx_at c h)) Hp ltac:(lia)). destruct k; [done|exact IH|exact IH].
Qed.

(** The usage that was attached last, whatever was derived from it since and whatever the context belongs to. *)
Inductive over_usage (h : heap) (u : TokenUsage) : gctx -> Prop :=
| ou_here p : over_usage h u (WithTokenUsage p u)
| ou_value k v p : over_usage h u p -> over_usage h u (GValue k v p)
| ou_cancel p : over_usage h u p -> over_usage h u (GCancel p)
| ou_context c x : h_cells h !! c = Some (CCtx x) -> over_usage h u (cx_parent x) -> over_usage h u (GAgent c).

Lemma GetTokenUsage_last h ctx u : heap_ok h -> over_usage h u ctx -> (forall a, agent_of ctx = Some a -> (a < h_next h)%nat) -> GetTokenUsage h ctx = Some u.
Proof.
  intros Hok Hu Ha. assert (Hv : forall n, (forall a, agent_of ctx = Some a -> (a < n)%nat) -> Value (S n) h ctx KeyUsage = Some (FoundUsage u)).
  { clear Ha. induction Hu as [p|k v p Hu IH|p Hu IH|c x Hx Hu IH]; intros n Hn; [done|by apply IH|by apply IH|].
    specialize (Hn c eq_refl). destruct n as [|n]; [lia|]. cbn [Value]. rewrite (ctx_cell _ _ _ Hx). apply IH. intros a Hp.
    pose proof (ok_parent _ Hok c x a Hx Hp). lia. }
  unfold GetTokenUsage. by rewrite Hv.
Qed.

(** * What is shared

    A context for an invocation or a tool call says what its parent says and has the same store: a value set through
    one is found through the other. *)
Definition store_of (c : loc) (h : heap) : loc := cx_kv (ctx_at c h).

Lemma Set_then_get h c c' k v k' : heap_ok h -> is_ctx h c -> is_ctx h c' ->
  Get c' k' (Set_ c k v h).2 = if decide (store_of c h = store_of c' h /\ k = k') then Some v else Get c' k' h.
Proof.
  intros Hok [x Hx] [y Hy]. unfold Get, Set_, store_of. rewrite (ctx_cell _ _ _ Hx), (ctx_cell _ _ _ Hy). cbn [snd].
  destruct (ok_ctx _ Hok c x Hx) as (_ & [m Hm] & _). destruct (ok_ctx _ Hok c' y Hy) as (_ & [m' Hm'] & _).
  assert (Hy2 : ctx_at c' (write (cx_kv x) (CKv (<[k:=v]> (default ∅ (read (Some (cx_kv x)) get_kv h)))) h).2 = y).
  { apply ctx_cell. simpl. rewrite lookup_insert_ne; [done|]. intros <-. congruence. }
  rewrite Hy2. unfold read. cbn [mbind option_bind]. rewrite Hm. simpl.
  destruct (decide (cx_kv x = cx_kv y)) as [E|E].
  - rewrite <- E, lookup_insert_eq, Hm. simpl. destruct (decide (k = k')) as [<-|Hk].
    + rewrite decide_True by done. by rewrite lookup_insert_eq.
    + rewrite decide_False by tauto. by rewrite lookup_insert_ne.
  - rewrite decide_False by tauto. by rewrite lookup_insert_ne.
Qed.

(** What a derived context takes over. *)
Definition derived_like (h h' : heap) (c c' : loc) : Prop :=
  view_at c' h' = view_at c h /\ store_of c' h' = store_of c h /\ view_at c h' = view_at c h /\ store_of c h' = store_of c h.

Lemma new_ctx_like h c x c' h' f : heap_ok h -> h_cells h !! c = Some (CCtx x) -> cx_cfg (f x) = cx_cfg x -> cx_kv (f x) = cx_kv x ->
  alloc (CCtx (f x)) h = (c', h') -> derived_like h h' c c'.
Proof.
  intros Hok Hx Hcfg Hkv [= <- <-]. unfold derived_like, store_of, view_at.
  set (h' := mkHeap _ _ _). assert (Hnew : ctx_at (h_next h) h' = f x) by (apply ctx_cell, lookup_insert_eq).
  assert (Hold : ctx_at c h' = x).
  { apply ctx_cell. simpl. rewrite lookup_insert_ne; [done|]. apply (ok_bound _ Hok) in Hx. lia. }
  assert (Hv : view_of h' (cx_cfg x) = view_of h (cx_cfg x)).
  { apply (view_frame (below (h_next h))); [|by apply ok_closed|by apply (ok_ctx _ Hok c x Hx)]. intros l Hl. unfold data_at, below in *. simpl. by rewrite lookup_insert_ne by lia. }
  by rewrite Hnew, Hold, (ctx_cell _ _ _ Hx), Hcfg, Hkv, Hv.
Qed.

Lemma derived_contexts_like h c ctx rt call : heap_ok h -> is_ctx h c ->
  (forall c' h', withContext c ctx h = (c', h') -> derived_like h h' c c') /\
  (forall c' h', forInvocation c ctx rt h = (c', h') -> derived_like h h' c c') /\
  (forall c' h', forToolCall c call h = (c', h') -> derived_like h h' c c').
Proof.
  intros Hok [x Hx]. unfold withContext, forInvocation, forToolCall. rewrite (ctx_cell _ _ _ Hx). split_and!; intros c' h' Hc.
  - by apply (new_ctx_like h c x c' h' (fun x => x <| cx_parent := ctx |>) Hok Hx).
  - by apply (new_ctx_like h c x c' h' (fun x => mkCtx ctx (cx_cfg x) (cx_kv x) (Some rt) None) Hok Hx).
  - by apply (new_ctx_like h c x c' h' (fun x => x <| cx_call := Some call |>) Hok Hx).
Qed.

(** A widget is recorded in its call and announced with the ID of the call, on the queue when the call runs on a worker. *)
Lemma EmitWidget_recorded h ctx w c x call rt : heap_ok h -> agent_of ctx = Some c -> h_cells h !! c = Some (CCtx x) -> cx_call x = Some call -> cx_rt x = Some rt ->
  w_Type w <> "" -> default false (snd <$> read (Some rt) get_runtime h) = true ->
  let '(r, h') := EmitWidget ctx w h in
  r = Ok tt /\ cl_widgets (call_at call h') = cl_widgets (call_at call h) ++ [w] /\
  h_events h' = h_events h ++ [(rt, cl_async (call_at call h), EventWidget (cl_id (call_at call h)) (w_Type w) (cloneRaw (w_Payload w)))].
Proof.
  intros Hok Hag Hx Hcall Hrt Hw Hs. unfold EmitWidget, Widget_Validate. rewrite bool_decide_false by done.
  rewrite FromContext_agent, Hag. cbn [mbind option_bind]. rewrite (ctx_cell _ _ _ Hx), Hcall. cbn [fmap option_fmap option_map].
  destruct (ok_ctx _ Hok c x Hx) as (_ & _ & Hrts & Hcalls). destruct (Hcalls _ Hcall) as [r Hr]. destruct (Hrts _ Hrt) as (u & s & Hu).
  unfold appendWidget. assert (Hat : call_at call h = r) by (unfold call_at, read; cbn [mbind option_bind]; by rewrite Hr). rewrite Hat.
  set (r2 := mkCall _ _ _ _). set (h2 := (write call (CCall r2) h).2).
  assert (Hx2 : ctx_at c h2 = x) by (apply ctx_cell; simpl; rewrite lookup_insert_ne; [done|intros <-; congruence]).
  assert (Hat2 : call_at call h2 = r2) by (unfold call_at, read; cbn [mbind option_bind]; simpl; by rewrite lookup_insert_eq).
  assert (Hs2 : default false (snd <$> read (Some rt) get_runtime h2) = true).
  { rewrite <- Hs. f_equal. f_equal. unfold read. cbn [mbind option_bind]. simpl. rewrite lookup_insert_ne; [done|intros <-; congruence]. }
  unfold emit_on. rewrite Hx2, Hrt, Hs2, Hcall, Hat2. cbn [snd fst]. split_and!; [done| |done].
  change (call_at call (h2 <| h_events := _ |>)) with (call_at call h2). by rewrite Hat2.
Qed.
End Heap.

Arguments gctx K V : clear implicits.
Arguments heap K V Obs {_ _}.
Arguments cell K V Obs {_ _}.
Arguments mkHeap {K V Obs _ _}.
Arguments heap_ok {K V Obs _ _}.
Arguments CBytes {K V Obs _ _}.
Arguments CStrings {K V Obs _ _}.
Arguments CImages {K V Obs _ _}.
Arguments CInference {K V Obs _ _}.
Arguments CFloat {K V Obs _ _}.

(** * Runs *)

Section Checker.
Context {K V Obs : Type} `{Countable K}.
Implicit Types (h : heap K V Obs).

Definition is_kv h (l : loc) : bool := match h_cells h !! l with Some (CKv _) => true | _ => false end.
Definition is_runtime h (l : loc) : bool := match h_cells h !! l with Some (CRuntime _ _) => true | _ => false end.
Definition is_call h (l : loc) : bool := match h_cells h !! l with Some (CCall _) => true | _ => false end.
Definition opt_all {A} (p : A -> bool) (o : option A) : bool := match o with Some x => p x | None => true end.
Definition cell_checked h (lc : loc * cell K V Obs) : bool :=
  let '(l, c) := lc in
  Nat.ltb l (h_next h) && forallb (fun r => Nat.ltb r (h_next h)) (data_refs c) &&
  match c with
  | CCtx x => forallb (fun r => Nat.ltb r (h_next h)) (cfg_refs (cx_cfg x)) && is_kv h (cx_kv x) && opt_all (is_runtime h) (cx_rt x) &&
              opt_all (is_call h) (cx_call x) && opt_all (fun a => Nat.ltb a l) (agent_of (cx_parent x))
  | _ => true
  end.

Lemma heap_checked h : forallb (cell_checked h) (map_to_list (h_cells h)) = true -> heap_ok h.
Proof.
  intros Hc. assert (Hcell : forall l c, h_cells h !! l = Some c -> cell_checked h (l, c) = true).
  { intros l c Hl. rewrite forallb_forall in Hc. apply Hc. apply list_elem_of_In. by apply elem_of_map_to_list. }
  split.
  - intros l c Hl. specialize (Hcell l c Hl). unfold cell_checked in Hcell. rewrite !andb_true_iff in Hcell. destruct Hcell as [[A _] _]. by apply Nat.ltb_lt.
  - intros l c r Hl Hr. specialize (Hcell l c Hl). unfold cell_checked in Hcell. rewrite !andb_true_iff in Hcell. destruct Hcell as [[_ A] _].
    rewrite forallb_forall in A. apply Nat.ltb_lt, A. by apply list_elem_of_In.
  - intros l x Hl. specialize (Hcell l _ Hl). unfold cell_checked in Hcell. rewrite !andb_true_iff in Hcell. destruct Hcell as [_ [[[[A B] C] D] _]]. split_and!.
    + apply Forall_forall. intros r Hr. rewrite forallb_forall in A. apply Nat.ltb_lt, A. by apply list_elem_of_In.
    + unfold is_kv in B. destruct (h_cells h !! cx_kv x) as [[]|]; try done. by eexists.
    + intros rt Hrt. rewrite Hrt in C. simpl in C. unfold is_runtime in C. destruct (h_cells h !! rt) as [[]|]; try done. by eexists _, _.
    + intros call Hcall. rewrite Hcall in D. simpl in D. unfold is_call in D. destruct (h_cells h !! call) as [[]|]; try done. by eexists.
  - intros l x a Hl Ha. specialize (Hcell l _ Hl). unfold cell_checked in Hcell. rewrite !andb_true_iff in Hcell. destruct Hcell as [_ [_ A]].
    rewrite Ha in A. by apply Nat.ltb_lt.
Qed.
End Checker.

Abbreviation SHeap := (heap string string string).
Definition sequence (ms : list (SHeap -> SHeap)) (h : SHeap) : SHeap := foldl (fun h m => m h) h ms.
(** A context with an image, a scope, and stop sequences that are set and empty. *)
Definition sample_heap : SHeap := Eval vm_compute in
  sequence [fun h => (Background h).2; fun h => (alloc (CBytes "png") h).2; fun h => (alloc (CImages [mkImg (Some 2%nat) "" "" "image/png"]) h).2;
            fun h => (WithImages 1 (Some 3%nat) h).2; fun h => (alloc (CStrings []) h).2; fun h => (alloc (CInference (mkInf None None None (Some 4%nat) None)) h).2;
            fun h => (WithInferenceConfig 1 (Some 5%nat) h).2; fun h => (WithScope 1 "tenant" "acme" h).2;
            fun h => (alloc (CStrings ["admin"; "user"]) h).2; fun h => (WithPrincipal 1 (mkPrin "alice" (Some 7%nat) None None) h).2;
            fun h => (WithConversationID 1 "c1" h).2; fun h => (WithExecutionID 1 "x1" h).2; fun h => (Set_ 1 "k" "v" h).2] (mkHeap 0 ∅ []).
Lemma sample_heap_ok : heap_ok sample_heap.
Proof. apply heap_checked. vm_compute. reflexivity. Qed.
Lemma sample_ctx : is_ctx sample_heap 1.
Proof. vm_compute. by eexists. Qed.

(** The caller overwrites the bytes of the image after the clone was taken. *)
Lemma clone_independent_witness :
  let '(c', h') := Clone 1 sample_heap in
  let h2 := (write 2 (CBytes "gif") h').2 in
  map is_Data (cfg_images (vw_cfg (view_at c' h2))) = [Some "png"] /\ map is_Data (cfg_images (vw_cfg (view_at 1 h2))) = [Some "gif"].
Proof.
  destruct (Clone 1 sample_heap) as [c' h'] eqn:Hc.
  destruct (clone_independent sample_heap 1 c' h' sample_heap_ok sample_ctx Hc) as (_ & _ & _ & _ & Hnew & _).
  assert (Hn : (2 < h_next sample_heap)%nat) by (apply Nat.ltb_lt; vm_compute; reflexivity).
  destruct (Hnew (write 2 (CBytes "gif") h').2) as [Hv _].
  { intros l Hl. unfold write. cbn [snd]. apply lookup_insert_ne. lia. }
  split; [rewrite Hv|]; apply (f_equal snd) in Hc as Hh; apply (f_equal fst) in Hc as Hl; cbn [fst snd] in Hh, Hl; subst c' h'; vm_compute; reflexivity.
Defined.

Definition sample_ops : list (@ctx_op string string) :=
  [OInvocation 1 (GValue "trace" "t" (GAgent 1)) true; OToolCall 11 "call" true; OSetter 13 (SScope "tenant" "other"); OSet 13 "k" "w";
   OEmitWidget 13 (mkWidget "chart" None); ONarrow 13 ["user"]].

Lemma contexts_isolated_witness :
  exists h', ctx_run sample_heap sample_ops h' /\ view_at 1 h' = view_at 1 sample_heap /\ Get 1 "k" h' = Some "w" /\ Scope 13 "tenant" h' = Some "other".
Proof.
  assert (Hrun : ctx_run sample_heap sample_ops (foldl (fun h op => run_op op h) sample_heap sample_ops)).
  { unfold sample_ops. cbn [foldl]. repeat (apply run_step; [split; [intros c Hc; injection Hc as <-; vm_compute; by eexists|vm_compute; try exact I; intros a Ha; injection Ha as <-; by eexists]|]).
    apply run_done. }
  eexists. split; [exact Hrun|].
  destruct (contexts_isolated sample_heap sample_ops _ 1 Hrun sample_heap_ok sample_ctx) as (_ & _ & Hv).
  { repeat (apply Forall_cons; split; [vm_compute; congruence || (intros []; fail) || tauto|]). by apply Forall_nil. }
  split; [exact Hv|]. vm_compute. split; reflexivity.
Defined.

(** Stop sequences that an invocation sets to none are unset in a clone, so that those of the agent count again. *)
Lemma clone_drops_empty_stops :
  let '(c', h') := Clone 1 sample_heap in
  let agent := Some (mkInference None None None (Some ["END"]) None) in
  mergeInferenceConfig agent (cfg_inferenceConfig (vw_cfg (view_at 1 sample_heap))) = Some (mkInference None None None (Some []) None) /\
  mergeInferenceConfig agent (cfg_inferenceConfig (vw_cfg (view_at c' h'))) = agent.
Proof. vm_compute. done. Qed.
